(* ===== verification/_CoqProject ===== *)
-Q . S2P
Prelude.v
RustStd.v
F64.v
Json.v
CronIndex.v
CronExpr.v
Chrono.v
CivilCalendar.v
CronNextFire.v
CronJitter.v
CronTask.v
CronPlan.v
CronWire.v
CronManager.v
CronSession.v
CronReplay.v
CronWorkspace.v
CronRuns.v
CronDurable.v
CronSpawner.v
NetClass.v
PathSandbox.v
PermRules.v
ToolAccess.v
PermPolicies.v
PermGate.v
PermSafety.v
Gates.v
Context.v
EngineError.v
Projector.v
Projection.v
Exchanges.v
StrictProjection.v
TokenEstimator.v
ToolScheduler.v
Memory.v
MemorySound.v
MemoryExchange.v
SwarmBatch.v
SwarmSettles.v
SwarmPacing.v
MessagePipeline.v
Provider.v
LlmStream.v
StepRetry.v
TurnTypes.v
TurnLoop.v
TurnLogic.v
TurnBounds.v
TurnReplay.v
ToolManager.v
ToolArgs.v
ToolBatch.v
BatchSound.v
TurnTools.v
LoopWire.v
Materialize.v
CompactionFold.v
SessionState.v
SessionOrder.v
SessionReplay.v
SessionTurn.v
Todo.v
SessionUndo.v
TaskManager.v
TaskSound.v
TaskOutput.v
TaskRestart.v
TaskNotice.v
TaskDriver.v
TaskOnce.v
GoalManager.v
GoalChain.v
GoalSound.v
FileTools.v
Frames.v
Remote.v
