(* ===== verification/Prelude.v ===== *)
(** * The engine of an AI coding agent, verified in its core

    The repository is a coding agent: a Rust engine ([src/rust/crates]) that runs
    model turns and tools for sessions, and TypeScript front ends.  This
    development models the parts of the engine whose own logic decides what is
    run, when and with whose consent:

    - scheduled tasks: when a task fires, what one delivery does, the manager of
      a session and the one of a workspace, their durable copies, and the runs
      a workspace task starts;
    - permissions: which tool call runs by itself, which is put before a person
      and which is refused; the gates where questions wait;
    - the context memory, which stores the history, and its projection into the
      messages a provider is sent;
    - the turn loop: requests, their retries and fallbacks, steps and their end;
    - the tools: their registry, the calls of one answer from raw arguments to
      results, the scheduler that runs them side by side, and the swarm scheduler,
      which runs a batch of subagents;
    - background tasks: their table, their output, their copies on disk, and the
      notifications that tell an agent that one is over;
    - goals: what the session works towards, with its budget, and the chain of turns
      that goes on with it;
    - the tools that change files, and the connection of a client to a remote engine;
    - the session: what its wire log says, the fold that reads it, the memory and the
      todo list restored from it, and the undo of turns.

    A turn ([TurnLoop]) projects the history it keeps ([Memory], [Projector]), the
    model answers with tool calls,
    the batch of calls ([ToolBatch]) is looked up in the registry ([ToolManager]), each call
    passes the authorize hook ([PermGate]), which may register a
    request with the session's gate ([Gates]), and the calls that may run go to the
    scheduler ([ToolScheduler]).  What the turn does to the memory is written to the
    wire log ([LoopWire]); a session that is opened again folds that log
    ([SessionState]) and rebuilds its memory ([SessionReplay]).  A schedule is created by such a call, or by the
    user; a pass of its manager ([CronManager] or [CronWorkspace]) plans each due
    task ([CronPlan]) with the schedule kernel ([CronNextFire]) and hands out the
    fires; a workspace fire becomes a run ([CronSpawner]) whose turn goes through
    the same gate with a cron origin.  A tool that runs in the background is a task of
    the session ([TaskManager]); once a second the driver ([TaskDriver]) looks for tasks
    that are over and puts what they have to tell ([TaskNotice]) into the steer buffer of
    a busy agent, or starts a turn of an idle one.  When a turn is over the goal of the
    session ([GoalManager]) is settled, and a chain of further turns ([GoalChain]) is run
    while it is active and within its budget.

    ** Files

    Shared: this file (errors, lists, sorting, the maps used as tables, the hint
    databases), [RustStd] (the string functions of the standard library), [F64] (binary64),
    [Json] ([serde_json::Value]), [Chrono] (the calendar and time-zone interface, a
    class with its laws, and [cron/tz.rs]) and [CivilCalendar] (an instance, on
    which the examples run).

    Scheduled tasks, [mirri-core/src/cron.rs] and [cron/]: [CronExpr] (the parser),
    [CronNextFire] (next and previous occurrences), [CronJitter], [CronTask] and
    [CronWire] (records written and read), [CronPlan] (one delivery), [CronManager]
    (a session's tasks), [CronSession] (its runs), [CronReplay] (the reducer of
    [mirri-proto] and the restore), [CronIndex] ([mirri-cron-index]), [CronWorkspace]
    ([cron/workspace_store.rs]), [CronRuns] and [CronDurable] (what holds of it),
    [CronSpawner] ([mirri-embedded], the run spawner).

    Permissions: [NetClass] ([tools/net_class.rs]), [PathSandbox]
    ([tools/path_security.rs]), [PermRules] and [PermPolicies] ([permission/]), [PermGate]
    ([permission/mod.rs] and [authorize_tool_execution] of [turn_flow/hooks.rs]),
    [PermSafety] (what the gate guarantees), [Gates] ([session/gates.rs] and
    [session/interaction.rs]).

    Projection: [Context] (messages, origins, options), [Projector]
    ([context_memory/projector.rs]), [Projection], [Exchanges] and [StrictProjection] (what
    it guarantees).  Memory: [EngineError] ([error.rs]), [TokenEstimator] (estimates, the
    head of the user's messages and the tail a compaction keeps), [Memory]
    ([context_memory/mod.rs]), [MemorySound] and [MemoryExchange] (what holds of it).

    Turns, [loop_engine/]: [MessagePipeline] ([message_pipeline.rs]), [Provider] (the
    errors of a provider, [llm.rs] and [retry.rs]), [LlmStream] (the events of an
    answer), [StepRetry] ([step_retry.rs]), [TurnTypes] (the state, the environment and
    the monad of a turn), [TurnLoop] ([turn_step.rs], [tool_call_batch.rs], [run_turn.rs]);
    [TurnLogic] (the rules for its monad and a scripted turn), [TurnBounds]
    and [TurnReplay] (what holds of it).

    Subagents: [SwarmBatch] ([subagent/swarm_batch.rs]), [SwarmSettles]
    and [SwarmPacing] (what holds of it).

    Tools: [ToolAccess] ([tool.rs]), [ToolScheduler] ([tool_registry/scheduler.rs]),
    [ToolManager] ([tool_registry/mod.rs]: registration, activation, disclosure, the table
    a request carries), [ToolArgs] ([arg_converter.rs], [args_validator.rs]), [ToolBatch]
    ([execution.rs]), [BatchSound] (what holds of a batch, and a registry the
    examples run on) and [TurnTools] (the turn loop with the registry as its environment).

    Files: [FileTools] ([tools/edit.rs], [tools/write.rs] and
    [tools/file_mutation_guard.rs]).  Remote engines: [Frames] ([mirri-transport/src/frame.rs],
    [mirri-remote/src/frames.rs]) and [Remote] ([mirri-remote/src/lib.rs]).

    Background tasks: [TaskManager] ([mirri-core/src/task.rs] and [task_persist.rs]),
    [TaskSound] (its invariant along any operations), [TaskOutput] (the retained output
    and the log), [TaskRestart] (the tasks of a session that is opened again),
    [TaskNotice] ([task_notification.rs] and the buffer of [turn_flow/steering.rs]),
    [TaskDriver] ([embedded_server/task_driver.rs], the notifications of a resume, and the
    flush of [turn_flow/hooks.rs]) and [TaskOnce] (what holds of the delivery).

    Goals: [GoalManager] ([mirri-core/src/goal.rs], the tools and commands that change a
    goal, the accounting of steps of [turn_flow/mod.rs], the last decision of a turn of
    [hooks.rs] and the restore), [GoalChain] ([embedded_server/goal_driver.rs]),
    and [GoalSound] (the log and the manager agree, and what a goal may cost).

    Sessions: [LoopWire] (loop events and messages written and read,
    [context_memory/mod.rs] and [session/replay.rs]), [Materialize] and [CompactionFold]
    ([mirri-proto/src/reducer.rs]: the slot simulation and the rebuild of a
    compaction), [SessionState] ([state.rs] and every operation of the reducer),
    [SessionOrder] (the order of a folded log), [SessionReplay] ([reconstruct_context_memory]),
    [SessionTurn] (a turn, logged, folded and replayed), [Todo] ([todo.rs],
    [tools/todo_list.rs]) and [SessionUndo] ([undo_service.rs] and the undo handler of
    [mirri-embedded]).

    ** How the code is modelled

    A handler is a function from the state record of its component and its
    arguments to the new state and what it hands out; the clock, minted ids,
    answers of people, the outcome of an I/O and the libraries are arguments, or
    the operations of a class ([Chrono], [PermEnv], [GateEnv], [UuidText]).  An
    operation that awaits is given as its atomic parts and as their composition,
    and the interleavings are sequences of the parts.  The turn loop, which awaits
    at every step, is a program of a state monad with errors and panics over an
    environment ([Env]) that may itself write to the shared memory while it is
    awaited; theorems that need it silent say so ([alone_env]).  Errors are [result] values.
    Integers are [Z] with the width of the code written where it can overflow
    ([wrap_u32], the id hash, the parsers); instants are nanoseconds in [Z].  Maps
    the code looks up are [gmap]; where the order is observable they are lists.

    ** What is proved

    - Schedule: the parser accepts exactly the grammar; the next fire is the first
      matching minute within the horizon and the interval walk's first later date;
      the previous one, the daylight-saving mapping and the jitter bounds.
    - Deliveries: a plan merges exactly the overdue occurrences and reschedules
      after them; a pass delivers each due task once, in order, and settles; a
      budget is never exceeded; a removal during a pass wins.
    - Durability: the log of a session replays to its table and the manager
      restored from it has the same tasks; the workspace document, held as a value,
      mirrors the memory and a restart recovers it while the writes go through; edits are all or nothing.
    - Runs: at most one in flight and one queued per task, fifty records, the life
      of a run, and where the code falls short of it.
    - Permission: what needs a person's yes in every mode (and that this yes goes over
      deny rules and plan mode), which refusals nothing else lifts, what each mode lets through, what the session remembers, the
      agreement of the two translations of a verdict, the address blocks behind
      the grades, the verdicts of the sandbox, the round trip of the patterns.
    - Gates: a requester waits exactly while its request is pending and the bus
      tells what it heard; a response reaches one request, once; closing a session
      releases everyone.
    - Projection: it never fails, keeps the recent media, loses no message, closes
      every exchange, and its strict form is what a provider that checks exchanges
      accepts.
    - Memory: what is deferred is neither lost nor reordered, every tool call waits
      or has one result behind it, the covered counts stay inside the history, and
      closing an interrupted turn answers every call.
    - Turns: a turn ends within its limits, whatever its environment does; its
      requests are bounded and show the model only what it can read; the log it
      wrote replays to the memory it leaves; its usage is a sum of what was logged;
      a step is run again no more than configured; the stream collector is a
      reading of the whole answer.
    - Swarms: a batch settles each member with the verdict of what happened to it,
      paces its launches, keeps its ceiling, sets its wake and launches nothing
      once cancelled.
    - Tools: calls that run together never conflict, none waits without need, and
      the results come back in order under every completion order; every call of a
      batch has exactly one result, and nothing runs that the gate did not approve
      with the arguments it runs with; the registry shows what its whitelist allows and
      its table is that of the registered tools.
    - Background tasks: a task ends once and the bus tells it once; a waiting foreground
      run is let go exactly when its task leaves the foreground; the capacity holds but
      for detached runs; the output kept is the end of what was said; a restart finds the
      tasks as they were; a notification has no markup but its own, and an agent is told
      once, and again only after the notification was lost, to an undo or to a compaction
      before it was marked.
    - Files: an edit changes the matched text and, where the endings of a file are mixed,
      its endings; edits and writes of one path are applied one after the other, each
      once if it says so.
    - Remote engines: frames are read as they were written; a caller is given its own
      response, after the subscription to the session it created, and none is forgotten.
    - Goals: whatever is done to a goal, the log restores it; the accounting of a turn
      lets it go on once over the budget; a chain of turns ends within its limits and
      leaves an active goal only where something else goes on with it.
    - Sessions: the records of a fold are in order and replayed once; a session
      resumed after a turn has the memory the log was written by, and the todo list but
      for what was undone; an undo removes exactly the turns asked for and takes back the
      delivery of the notifications that went with them.

    ** Bounds and fuel

    [SEARCH_HORIZON_DAYS] (3660) bounds the searches of the kernel as in the code, and
    the interval walk its 4026 steps; both are structural, and the theorems cover
    the horizon from both sides.  [MAX_COALESCE_ITERATIONS] (10,000), fifty run
    records, the cache of 256 names for 30 seconds and the rings of 256 entries are
    the code's.  The fuel of [TurnLoop.turn_loop] counts steps and that of
    [step_with_retries] the attempts of one: [turn_ends] shows that one more than the
    configured limits is enough.  The other fuel without a counterpart in the
    code is that of
    [PathSandbox.canonicalize_allow_missing], one unit per dangling link followed:
    [resolution_follows_links] says exactly when it suffices, and
    [link_loop_never_resolves] that the code itself does not return otherwise.  Task
    output is capped at one megabyte as in the code ([TaskManager.MAX_TASK_OUTPUT_BYTES]);
    a life of the driver ([TaskOnce.life]) is any finite sequence of its steps.  The fuel
    of [GoalChain.chain] counts turns, and one more than the limit of the code is enough
    ([chain_ends]).

    ** Not modelled

    Opening and migrating the SQLite index, decoding and locking the document
    file, the formatter of local times for prompts, the loop that ticks the
    managers and injects fires into sessions; the timers and heartbeats of the turn
    loop and of background processes; the host that creates subagents, whose logic is in
    the awaits between sessions, providers and registries; the plan and
    collaboration domains of the log, which their services keep; the tools themselves but
    those above, the handshake and the timers of a remote connection, the
    model providers, the servers, the command line, the bindings and the front
    ends, which are I/O or glue around these parts. *)
From stdpp Require Export base list gmap strings pretty sorting fin_maps.
From Stdlib Require Export Ascii ZArith Lia.

(** ** Fallible computations *)

(** Rust's [Result<A, E>]; the error type comes first so that [result E] is a
    monad for stdpp's [x ← c; k] notation. *)
Inductive result (E A : Type) : Type :=
| Ok (a : A)
| Err (e : E).
Arguments Ok {E A} a.
Arguments Err {E A} e.

#[export] Instance result_ret {E} : MRet (result E) := fun A a => Ok a.
#[export] Instance result_bind {E} : MBind (result E) :=
  fun A B k r => match r with Ok a => k a | Err e => Err e end.
#[export] Instance result_fmap {E} : FMap (result E) :=
  fun A B f r => match r with Ok a => Ok (f a) | Err e => Err e end.

#[export] Instance result_eq_dec {E A} `{EqDecision E, EqDecision A} :
  EqDecision (result E A).
Proof. solve_decision. Defined.

(** [r.ok()] *)
Definition result_ok {E A} (r : result E A) : option A :=
  match r with Ok a => Some a | Err _ => None end.

(** [r.unwrap_or(d)] *)
Definition result_unwrap_or {E A} (r : result E A) (d : A) : A :=
  match r with Ok a => a | Err _ => d end.

(** [o.ok_or_else(|| e)] *)
Definition ok_or {E A} (o : option A) (e : E) : result E A :=
  match o with Some a => Ok a | None => Err e end.

Definition is_ok {E A} (r : result E A) : bool :=
  match r with Ok _ => true | Err _ => false end.

(** [result_loop f l s] runs [f] over [l], threading [s], and stops at the
    first error: a [for] loop whose body uses [?]. *)
Fixpoint result_loop {E A S} (f : S -> A -> result E S) (s : S) (l : list A) : result E S :=
  match l with
  | [] => Ok s
  | a :: l' => s' ← f s a; result_loop f s' l'
  end.

Lemma bind_ok {E A B} (r : result E A) (k : A -> result E B) b :
  (r ≫= k) = Ok b <-> exists a, r = Ok a /\ k a = Ok b.
Proof. destruct r; simpl; naive_solver. Qed.

Lemma bind_err {E A B} (r : result E A) (k : A -> result E B) e :
  (r ≫= k) = Err e <-> r = Err e \/ exists a, r = Ok a /\ k a = Err e.
Proof. destruct r; simpl; naive_solver. Qed.

Lemma ok_or_ok {E A} (o : option A) (e : E) a : ok_or o e = Ok a <-> o = Some a.
Proof. destruct o; simpl; naive_solver. Qed.

Lemma ok_or_err {E A} (o : option A) (e e' : E) :
  ok_or o e = Err e' <-> o = None /\ e' = e.
Proof. destruct o; simpl; naive_solver. Qed.

Lemma result_loop_ind {E A S} (P : S -> Prop) (f : S -> A -> result E S) l s s' :
  P s ->
  (forall s a s', a ∈ l -> P s -> f s a = Ok s' -> P s') ->
  result_loop f s l = Ok s' -> P s'.
Proof.
  revert s. induction l as [|a l IH]; simpl; intros s Hs Hstep Hok; [congruence|].
  apply bind_ok in Hok as (s1 & H1 & Hok).
  apply (IH s1); [eapply Hstep; eauto; set_solver | | done].
  intros; eapply Hstep; eauto; set_solver.
Qed.

(** ** Automation *)

Create HintDb mirri.
Create Rewrite HintDb mirri_rw.
#[export] Hint Rewrite @bind_ok @bind_err @ok_or_ok @ok_or_err : mirri_rw.

(** Split the boolean tests of the code into arithmetic facts. *)
Ltac bsimpl :=
  repeat match goal with
  | H : _ && _ = true |- _ => apply andb_true_iff in H as [? ?]
  | H : _ || _ = false |- _ => apply orb_false_iff in H as [? ?]
  | H : negb _ = true |- _ => apply negb_true_iff in H
  | H : negb _ = false |- _ => apply negb_false_iff in H
  | H : bool_decide _ = true |- _ => apply bool_decide_eq_true in H
  | H : bool_decide _ = false |- _ => apply bool_decide_eq_false in H
  | H : (_ <=? _)%Z = true |- _ => apply Z.leb_le in H
  | H : (_ <=? _)%Z = false |- _ => apply Z.leb_gt in H
  | H : (_ <? _)%Z = true |- _ => apply Z.ltb_lt in H
  | H : (_ <? _)%Z = false |- _ => apply Z.ltb_ge in H
  | H : (_ =? _)%Z = true |- _ => apply Z.eqb_eq in H
  | H : (_ =? _)%Z = false |- _ => apply Z.eqb_neq in H
  end.

(** Case on the test an [if] or [match] of the goal is stuck on. *)
Ltac case_test :=
  match goal with
  | |- context [if ?b then _ else _] => destruct b eqn:?
  | |- context [match ?o with _ => _ end] => destruct o eqn:?
  end; simplify_eq/=.

(** Take apart the chain of binds a successful result comes from. *)
Ltac ok_inv :=
  repeat match goal with
  | H : (_ ≫= _) = Ok _ |- _ => apply bind_ok in H as (? & ? & H)
  | H : ok_or _ _ = Ok _ |- _ => apply ok_or_ok in H
  | H : (if ?b then _ else _) = Ok _ |- _ => destruct b eqn:?; try discriminate H
  | H : Ok _ = Ok _ |- _ => injection H as H; subst
  end.

(** ** Lists *)

(** [Vec::dedup]: consecutive duplicates are dropped. *)
Fixpoint dedup {A} `{EqDecision A} (l : list A) : list A :=
  match l with
  | x :: ((y :: _) as l') => if decide (x = y) then dedup l' else x :: dedup l'
  | _ => l
  end.

Section dedup_facts.
Context {A : Type} `{EqDecision A}.
Implicit Types l : list A.

Lemma dedup_cons2 x y l :
  dedup (x :: y :: l) =
  if decide (x = y) then dedup (y :: l) else x :: dedup (y :: l).
Proof. reflexivity. Qed.

Lemma elem_of_dedup x l : x ∈ dedup l <-> x ∈ l.
Proof.
  induction l as [|a [|b l] IH]; [done|done|].
  rewrite dedup_cons2. case_decide; set_solver.
Qed.

Lemma dedup_head a l : exists l', dedup (a :: l) = a :: l'.
Proof.
  revert a. induction l as [|b l IH]; intros a; [by exists []|].
  rewrite dedup_cons2. case_decide; [subst; apply IH|eauto].
Qed.
End dedup_facts.

(** A strictly increasing list. *)
Abbreviation increasing := (StronglySorted Z.lt).

Lemma dedup_increasing (l : list Z) : StronglySorted Z.le l -> increasing (dedup l).
Proof.
  induction l as [|a [|b l] IH]; intros Hs; [constructor|repeat constructor|].
  inversion Hs as [|? ? Hs' Hall]; subst.
  rewrite dedup_cons2. case_decide; [by apply IH|].
  constructor; [by apply IH|].
  apply Forall_forall. intros x Hx. rewrite elem_of_dedup in Hx.
  rewrite Forall_forall in Hall.
  assert (a <= b)%Z by (apply Hall; set_solver).
  inversion Hs' as [|? ? ? Hb]; subst. rewrite Forall_forall in Hb.
  apply elem_of_cons in Hx as [->|Hx]; [lia|]. specialize (Hb x Hx). lia.
Qed.

(** [find]-style search: the first element a partial function accepts. *)
Fixpoint first_some {A B} (f : A -> option B) (l : list A) : option B :=
  match l with
  | [] => None
  | a :: l' => match f a with Some b => Some b | None => first_some f l' end
  end.

Lemma first_some_Some {A B} (f : A -> option B) l b :
  first_some f l = Some b <->
  exists l1 a l2, l = l1 ++ a :: l2 /\ f a = Some b /\ Forall (fun x => f x = None) l1.
Proof.
  split.
  - induction l as [|a l IH]; simpl; [done|].
    destruct (f a) as [b'|] eqn:Ha; intros Hb; simplify_eq.
    + exists [], a, l. auto.
    + destruct (IH Hb) as (l1 & x & l2 & -> & Hx & Hn). exists (a :: l1), x, l2. auto.
  - intros (l1 & a & l2 & -> & Ha & Hn).
    induction Hn as [|x l1 Hx Hn IH]; simpl; [by rewrite Ha|by rewrite Hx].
Qed.

Lemma first_some_None {A B} (f : A -> option B) l :
  first_some f l = None <-> Forall (fun x => f x = None) l.
Proof.
  induction l as [|a l IH]; simpl; [split; auto|].
  destruct (f a) eqn:Ha; rewrite ?Forall_cons, ?IH; naive_solver.
Qed.

Lemma first_some_ext {A B} (f g : A -> option B) l :
  (forall a, a ∈ l -> f a = g a) -> first_some f l = first_some g l.
Proof.
  induction l as [|a l IH]; intros He; simpl; [done|].
  rewrite (He a) by set_solver. rewrite IH by set_solver. done.
Qed.

Lemma first_some_app {A B} (f : A -> option B) l1 l2 :
  first_some f (l1 ++ l2) =
  match first_some f l1 with Some b => Some b | None => first_some f l2 end.
Proof. induction l1 as [|a l1 IH]; simpl; [done|]. rewrite IH. by destruct (f a). Qed.

Lemma first_some_fmap {A B C} (f : B -> option C) (g : A -> B) l :
  first_some f (g <$> l) = first_some (fun a => f (g a)) l.
Proof. induction l as [|a l IH]; [done|]. rewrite fmap_cons. simpl. by rewrite IH. Qed.

(** A nested search is a search over the concatenation. *)
Lemma first_some_bind {A B C} (f : B -> option C) (g : A -> list B) l :
  first_some f (l ≫= g) = first_some (fun a => first_some f (g a)) l.
Proof. induction l as [|a l IH]; [done|]. rewrite bind_cons, first_some_app. simpl. by rewrite IH. Qed.

(** The first hit of a search over a sorted list is the least one. *)
Lemma first_some_sorted {A B} (R : A -> A -> Prop) (f : A -> option B) l b :
  (forall x y, R x y -> ~ R y x) -> StronglySorted R l ->
  first_some f l = Some b <->
  exists a, a ∈ l /\ f a = Some b /\ forall a', a' ∈ l -> R a' a -> f a' = None.
Proof.
  intros Hasym Hl. rewrite first_some_Some. split.
  - intros (l1 & a & l2 & -> & Ha & Hn). exists a. split; [set_solver|]. split; [done|].
    intros a' Ha' Hlt. rewrite elem_of_app, elem_of_cons in Ha'.
    destruct Ha' as [Ha'|[->|Ha']]; [by rewrite Forall_forall in Hn; auto|by destruct (Hasym a a)|].
    apply StronglySorted_app in Hl as (_ & _ & Hl).
    inversion Hl as [|? ? _ Hf]; subst. rewrite Forall_forall in Hf.
    by destruct (Hasym a' a); auto.
  - intros (a & Ha & Hf & Hmin). apply list_elem_of_split in Ha as (l1 & l2 & ->).
    exists l1, a, l2. split; [done|]. split; [done|]. apply Forall_forall. intros x Hx.
    apply Hmin; [set_solver|]. apply StronglySorted_app in Hl as (Hc & _ & _).
    apply Hc; set_solver.
Qed.

Lemma first_some_least {B} (f : Z -> option B) l b :
  increasing l ->
  first_some f l = Some b <->
  exists a, a ∈ l /\ f a = Some b /\ forall a', a' ∈ l -> (a' < a)%Z -> f a' = None.
Proof. intros Hl. apply first_some_sorted; [intros; lia|done]. Qed.

Lemma increasing_reverse l : increasing l -> StronglySorted Z.gt (reverse l).
Proof.
  induction 1 as [|a l Hl IH Hall]; [constructor|]. rewrite reverse_cons.
  apply StronglySorted_app. split; [|split; [done|repeat constructor]].
  intros x y Hx Hy. rewrite Forall_forall in Hall.
  rewrite elem_of_reverse in Hx. apply list_elem_of_singleton in Hy as ->.
  specialize (Hall x Hx). lia.
Qed.

Lemma first_some_greatest {B} (f : Z -> option B) l b :
  increasing l ->
  first_some f (reverse l) = Some b <->
  exists a, a ∈ l /\ f a = Some b /\ forall a', a' ∈ l -> (a < a')%Z -> f a' = None.
Proof.
  intros Hl. rewrite (first_some_sorted Z.gt); [|intros; lia|by apply increasing_reverse].
  setoid_rewrite elem_of_reverse. setoid_rewrite Z.gt_lt_iff. done.
Qed.

Lemma bind_reverse {A B} (g : A -> list B) l :
  (reverse l ≫= fun a => reverse (g a)) = reverse (l ≫= g).
Proof.
  induction l as [|a l IH]; [done|].
  rewrite reverse_cons, bind_app, IH, !bind_cons, reverse_app. simpl.
  by rewrite app_nil_r.
Qed.

Lemma merge_sort_ge_increasing l : increasing l -> merge_sort Z.ge l = reverse l.
Proof.
  intros Hl. assert (AntiSymm (=) Z.ge) by (intros x y; lia).
  assert (Transitive Z.ge) by (intros x y z; lia). assert (Total Z.ge) by (intros x y; lia).
  apply (StronglySorted_unique Z.ge).
  - apply StronglySorted_merge_sort; apply _.
  - apply increasing_reverse in Hl. induction Hl as [|a k Hk IH Hall]; constructor; [done|].
    eapply Forall_impl; [exact Hall|]. simpl. lia.
  - by rewrite merge_sort_Permutation, reverse_Permutation.
Qed.

Lemma first_some_none_elem {A B} (f : A -> option B) l :
  first_some f l = None <-> forall a, a ∈ l -> f a = None.
Proof. by rewrite first_some_None, Forall_forall. Qed.

Lemma increasing_fmap (f : Z -> Z) l :
  (forall a b, (a < b)%Z -> (f a < f b)%Z) -> increasing l -> increasing (f <$> l).
Proof.
  intros Hf. induction 1 as [|a l Hl IH Hall]; [constructor|].
  rewrite fmap_cons. constructor; [done|]. apply Forall_fmap. eapply Forall_impl; [exact Hall|]. unfold compose. auto.
Qed.

Lemma StronglySorted_filter {A} (R : relation A) (P : A -> Prop) `{!forall z, Decision (P z)} l :
  StronglySorted R l -> StronglySorted R (filter P l).
Proof.
  induction 1 as [|a l Hl IH Hall]; [constructor|]. rewrite filter_cons.
  case_decide; [|done]. constructor; [done|]. apply Forall_forall. intros x Hx.
  apply list_elem_of_filter in Hx as [_ Hx]. rewrite Forall_forall in Hall. auto.
Qed.

Lemma increasing_filter (P : Z -> Prop) `{!forall z, Decision (P z)} l :
  increasing l -> increasing (filter P l).
Proof. apply StronglySorted_filter. Qed.

Lemma filter_all_id {A} (P : A -> Prop) `{!forall x, Decision (P x)} (l : list A) :
  (forall x, x ∈ l -> P x) -> filter P l = l.
Proof.
  induction l as [|a l IH]; intros Hp; [done|].
  rewrite filter_cons_True by (apply Hp; set_solver). rewrite IH; [done|set_solver].
Qed.

Lemma increasing_seqZ a n : increasing (seqZ a n).
Proof.
  unfold seqZ. generalize (Z.to_nat n), 0%nat. intros k.
  induction k as [|k IH]; intros j; simpl; constructor; [apply IH|].
  apply Forall_fmap, Forall_forall. intros x Hx. apply elem_of_seq in Hx.
  unfold compose. lia.
Qed.

(** Concatenating blocks that lie in consecutive intervals. *)
Lemma increasing_bind (g : Z -> list Z) (lo : Z -> Z) l :
  (forall a b, (a <= b)%Z -> (lo a <= lo b)%Z) ->
  (forall a, a ∈ l -> increasing (g a)) ->
  (forall a x, a ∈ l -> x ∈ g a -> (lo a <= x < lo (a + 1))%Z) ->
  increasing l -> increasing (l ≫= g).
Proof.
  intros Hmono Hg Hlo. induction 1 as [|a l Hl IH Hall]; [constructor|].
  rewrite bind_cons.
  apply StronglySorted_app. split_and!.
  - intros x1 x2 Hx1 Hx2. apply list_elem_of_bind in Hx2 as (b & Hx2 & Hb).
    rewrite Forall_forall in Hall. specialize (Hall b Hb).
    pose proof (Hlo a x1 ltac:(set_solver) Hx1). pose proof (Hlo b x2 ltac:(set_solver) Hx2).
    pose proof (Hmono (a + 1) b ltac:(lia))%Z. lia.
  - apply Hg. set_solver.
  - apply IH; intros; [apply Hg|apply Hlo]; set_solver.
Qed.

(** ** Sorting strings: Rust compares [String]s bytewise *)

Definition string_leb (a b : string) : bool :=
  match String.compare a b with Gt => false | _ => true end.
Definition string_le (a b : string) : Prop := string_leb a b = true.
#[export] Instance string_le_dec a b : Decision (string_le a b).
Proof. unfold string_le. apply _. Defined.

Lemma string_compare_lt_trans (a b c : string) :
  String.compare a b = Lt -> String.compare b c = Lt -> String.compare a c = Lt.
Proof.
  revert b c. induction a as [|x a IH]; intros [|y b] [|z c]; simpl; try done.
  unfold Ascii.compare.
  destruct (N.compare_spec (N_of_ascii x) (N_of_ascii y)) as [Hxy|Hxy|Hxy]; intros H1; [| |done];
    destruct (N.compare_spec (N_of_ascii y) (N_of_ascii z)) as [Hyz|Hyz|Hyz]; intros H2; try done.
  - rewrite Hxy, Hyz, N.compare_refl. eauto.
  - rewrite Hxy. by rewrite (proj2 (N.compare_lt_iff _ _)).
  - rewrite <- Hyz. by rewrite (proj2 (N.compare_lt_iff _ _)).
  - rewrite (proj2 (N.compare_lt_iff _ _)); [done|lia].
Qed.

Lemma string_compare_refl a : String.compare a a = Eq.
Proof.
  induction a as [|x a IH]; [done|]. simpl. unfold Ascii.compare. by rewrite N.compare_refl.
Qed.

#[export] Instance string_le_trans : Transitive string_le.
Proof.
  intros a b c. unfold string_le, string_leb.
  destruct (String.compare a b) eqn:Hab; [| |done]; destruct (String.compare b c) eqn:Hbc; try done.
  - apply String.compare_eq_iff in Hab as ->. by rewrite Hbc.
  - apply String.compare_eq_iff in Hab as ->. by rewrite Hbc.
  - apply String.compare_eq_iff in Hbc as ->. by rewrite Hab.
  - by rewrite (string_compare_lt_trans a b c).
Qed.

#[export] Instance string_le_total : Total string_le.
Proof.
  intros a b. unfold string_le, string_leb. rewrite (String.compare_antisym b a).
  destruct (String.compare a b); simpl; auto.
Qed.

#[export] Instance string_le_antisymm : AntiSymm (=) string_le.
Proof.
  intros a b. unfold string_le, string_leb. rewrite (String.compare_antisym b a).
  destruct (String.compare a b) eqn:Hab; simpl; try done.
  intros _ _. by apply String.compare_eq_iff.
Qed.

(** [sort_by(|a, b| key(a).cmp(&key(b)))] *)
Section sort_by_key.
Context {A : Type} (key : A -> string).

Definition key_le (a b : A) : Prop := string_le (key a) (key b).
#[export] Instance key_le_dec : RelDecision key_le.
Proof. intros a b. unfold key_le. apply _. Defined.
#[export] Instance key_le_trans : Transitive key_le.
Proof. intros a b c. unfold key_le. by etrans. Qed.
#[export] Instance key_le_total : Total key_le.
Proof. intros a b. unfold key_le. apply (total string_le). Qed.

Definition sort_by_key (l : list A) : list A := merge_sort key_le l.

Lemma sort_by_key_perm l : sort_by_key l ≡ₚ l.
Proof. apply merge_sort_Permutation. Qed.

Lemma sort_by_key_sorted l : StronglySorted key_le (sort_by_key l).
Proof. apply StronglySorted_merge_sort; apply _. Qed.

Lemma key_inj_NoDup l a b : NoDup (key <$> l) -> a ∈ l -> b ∈ l -> key a = key b -> a = b.
Proof.
  induction l as [|x l IH]; intros Hnd Ha Hb Hk; [set_solver|].
  cbn in Hnd. apply NoDup_cons in Hnd as [Hx Hnd].
  apply elem_of_cons in Ha as [-> |Ha]; apply elem_of_cons in Hb as [-> |Hb]; auto.
  - destruct Hx. rewrite Hk. by apply list_elem_of_fmap_2.
  - destruct Hx. rewrite <- Hk. by apply list_elem_of_fmap_2.
Qed.

Lemma sorted_by_key_unique l1 l2 :
  NoDup (key <$> l1) -> StronglySorted key_le l1 -> StronglySorted key_le l2 -> l1 ≡ₚ l2 -> l1 = l2.
Proof.
  intros Hnd H1 H2 Hp. apply (StronglySorted_unique_strong key_le); [|done..].
  intros a b Ha Hb Hab Hba. apply (key_inj_NoDup l1); [done|done|by rewrite Hp|].
  by apply (anti_symm string_le).
Qed.

Lemma sort_by_key_id l :
  NoDup (key <$> l) -> StronglySorted key_le l -> sort_by_key l = l.
Proof.
  intros Hnd Hs. symmetry. apply sorted_by_key_unique; [done|done|apply sort_by_key_sorted|].
  by rewrite sort_by_key_perm.
Qed.

Lemma sort_by_key_filter (P : A -> Prop) `{!forall a, Decision (P a)} l :
  NoDup (key <$> l) -> sort_by_key (filter P l) = filter P (sort_by_key l).
Proof.
  intros Hnd. apply sorted_by_key_unique.
  - rewrite sort_by_key_perm. eapply sublist_NoDup; [exact Hnd|].
    apply fmap_sublist, sublist_filter.
  - apply sort_by_key_sorted.
  - apply StronglySorted_filter, sort_by_key_sorted.
  - by rewrite !sort_by_key_perm.
Qed.
End sort_by_key.

Lemma sort_by_key_fmap {A B} (f : A -> B) (key : A -> string) (key' : B -> string) l :
  (forall a, key' (f a) = key a) -> NoDup (key <$> l) ->
  sort_by_key key' (f <$> l) = f <$> sort_by_key key l.
Proof.
  intros Hk Hnd. apply (sorted_by_key_unique key').
  - rewrite sort_by_key_perm, <- list_fmap_compose. erewrite list_fmap_ext; [exact Hnd|].
    intros; apply Hk.
  - apply sort_by_key_sorted.
  - eapply StronglySorted_fmap; [|apply sort_by_key_sorted].
    intros a b. unfold key_le. by rewrite !Hk.
  - by rewrite !sort_by_key_perm.
Qed.

(** ** Options *)

(** Reading back what was written under an option. *)
Lemma fmap_bind_id {A B} (f : A -> B) (g : B -> option A) (o : option A) :
  (forall a, o = Some a -> g (f a) = Some a) -> (f <$> o) ≫= g = o.
Proof. destruct o as [a|]; simpl; auto. Qed.

Lemma omap_cons_eq {A B} (f : A -> option B) x l :
  omap f (x :: l) = match f x with Some y => y :: omap f l | None => omap f l end.
Proof. done. Qed.

Lemma omap_ext_in {A B} (f g : A -> option B) (l : list A) :
  (forall x, x ∈ l -> f x = g x) -> omap f l = omap g l.
Proof.
  induction l as [|x l IH]; intros He; [done|].
  rewrite !omap_cons_eq, He, IH; [done| |set_solver]. intros; apply He; set_solver.
Qed.

Lemma omap_total {A B} (f : A -> option B) (g : A -> B) (l : list A) :
  (forall x, x ∈ l -> f x = Some (g x)) -> omap f l = g <$> l.
Proof.
  induction l as [|x l IH]; intros He; [done|].
  rewrite omap_cons_eq, He, IH; [done| |set_solver]. intros; apply He; set_solver.
Qed.

Lemma filter_iff_in {A} (P Q : A -> Prop) `{!forall x, Decision (P x), !forall x, Decision (Q x)}
    (l : list A) :
  (forall x, x ∈ l -> P x <-> Q x) -> filter P l = filter Q l.
Proof.
  induction l as [|x l IH]; intros He; [done|]. rewrite !filter_cons, IH by set_solver.
  destruct (decide (P x)), (decide (Q x)); set_solver.
Qed.

Lemma NoDup_key_filter {A} (key : A -> string) (k : string) (l : list A) :
  NoDup (key <$> l) ->
  (length (filter (fun x => key x = k) l) <= 1)%nat /\
  (k ∉ (key <$> l) -> filter (fun x => key x = k) l = []).
Proof.
  assert (Hnone : forall l, k ∉ (key <$> l) -> filter (fun x => key x = k) l = []).
  { intros l'. induction l' as [|x l' IH]; intros Hn; [done|]. rewrite fmap_cons in Hn.
    rewrite filter_cons, decide_False by set_solver. apply IH. set_solver. }
  intros Hnd. split; [|apply Hnone]. induction l as [|x l IH]; [simpl; lia|].
  rewrite fmap_cons in Hnd. apply NoDup_cons in Hnd as [Hx Hnd]. rewrite filter_cons.
  case_decide as Hk; [|by apply IH]. rewrite Hnone by (by rewrite <- Hk). simpl. lia.
Qed.

Lemma filter_and_length {A} (P Q : A -> Prop)
    `{!forall x, Decision (P x), !forall x, Decision (P x /\ Q x)} (l : list A) :
  (length (filter (fun x => P x /\ Q x) l) <= length (filter P l))%nat.
Proof.
  induction l as [|x l IH]; [done|]. rewrite !filter_cons.
  repeat case_decide; simpl; try lia. naive_solver.
Qed.

(** ** Tables keyed by an id: the [HashMap<String, T>] of the managers *)

Section tables.
Context {A : Type} (key : A -> string).
Implicit Types m : gmap string A.

(** Every entry is stored under its own id. *)
Definition keyed_table (m : gmap string A) : Prop := map_Forall (fun id a => key a = id) m.

Definition table_values (m : gmap string A) : list A := (map_to_list m).*2.

(** The listing the managers return: the values sorted by id. *)
Definition sorted_values (m : gmap string A) : list A := sort_by_key key (table_values m).

Lemma elem_of_table_values m a : keyed_table m -> a ∈ table_values m <-> m !! key a = Some a.
Proof.
  intros Hk. unfold table_values. rewrite list_elem_of_fmap. split.
  - intros ([k u] & -> & Hi). apply elem_of_map_to_list in Hi. simpl.
    by rewrite (Hk _ _ Hi : key u = k).
  - intros Ha. exists (key a, a). split; [done|]. by apply elem_of_map_to_list.
Qed.

Lemma table_values_NoDup m : keyed_table m -> NoDup (key <$> table_values m).
Proof.
  intros Hk. unfold table_values. rewrite <- list_fmap_compose.
  rewrite (list_fmap_ext _ fst (map_to_list m)); [apply NoDup_fst_map_to_list|].
  intros i [k t] Hi. apply list_elem_of_lookup_2, elem_of_map_to_list in Hi.
  exact (Hk _ _ Hi).
Qed.

Lemma elem_of_sorted_values m a : keyed_table m -> a ∈ sorted_values m <-> m !! key a = Some a.
Proof. intros Hk. unfold sorted_values. rewrite sort_by_key_perm. by apply elem_of_table_values. Qed.

Lemma sorted_values_sorted m :
  keyed_table m ->
  NoDup (key <$> sorted_values m) /\ StronglySorted (key_le key) (sorted_values m).
Proof.
  intros Hk. split; [|apply sort_by_key_sorted]. unfold sorted_values.
  rewrite sort_by_key_perm. by apply table_values_NoDup.
Qed.

(** Two sorted listings without repeated ids are equal when they hold the same
    entries. *)
Lemma sorted_listing_ext (l1 l2 : list A) :
  NoDup (key <$> l1) -> NoDup (key <$> l2) ->
  StronglySorted (key_le key) l1 -> StronglySorted (key_le key) l2 ->
  (forall a, a ∈ l1 <-> a ∈ l2) -> l1 = l2.
Proof.
  intros Hn1 Hn2 H1 H2 He. apply (sorted_by_key_unique key); [done..|].
  apply NoDup_Permutation; [by eapply NoDup_fmap_1|by eapply NoDup_fmap_1|done].
Qed.

Lemma keyed_insert m a : keyed_table m -> keyed_table (<[key a := a]> m).
Proof. intros Hk. by apply map_Forall_insert_2. Qed.

Lemma keyed_delete m id : keyed_table m -> keyed_table (delete id m).
Proof. intros Hk. by apply map_Forall_delete. Qed.

Lemma keyed_alter m id (f : A -> A) :
  (forall a, key (f a) = key a) -> keyed_table m -> keyed_table (alter f id m).
Proof.
  intros Hf Hk k a Ha. apply lookup_alter_Some in Ha as [(<- & b & Hb & ->)|[_ Ha]].
  - rewrite Hf. exact (Hk _ _ Hb).
  - exact (Hk _ _ Ha).
Qed.
End tables.
