(* ===== verification/RustStd.v ===== *)
(** * The Rust standard-library string operations the program uses

    A [&str] is its UTF-8 bytes, held in a [string].  Splitting and trimming
    recognise the whole of [char::is_whitespace], multi-byte code points
    included; integer parsing follows [str::parse] for [i32] and [u32]: an
    optional sign, at least one digit, digits only, and no overflow. *)
From stdpp Require Import list strings.
From S2P Require Import Prelude.
#[local] Open Scope string_scope.
#[local] Open Scope Z_scope.

Definition byte_of (c : ascii) : Z := Z.of_N (N_of_ascii c).

(** The byte length of the whitespace character at the head of the string, 0
    when there is none: U+0009-000D, U+0020, U+0085, U+00A0, U+1680,
    U+2000-200A, U+2028, U+2029, U+202F, U+205F, U+3000. *)
Definition ws_len (s : string) : nat :=
  match s with
  | "" => 0%nat
  | String c s1 =>
    let b0 := byte_of c in
    if (9 <=? b0) && (b0 <=? 13) || (b0 =? 32) then 1%nat
    else match s1 with
    | "" => 0%nat
    | String c1 s2 =>
      let b1 := byte_of c1 in
      if (b0 =? 0xC2) && ((b1 =? 0x85) || (b1 =? 0xA0)) then 2%nat
      else match s2 with
      | "" => 0%nat
      | String c2 _ =>
        let b2 := byte_of c2 in
        if (b0 =? 0xE1) && (b1 =? 0x9A) && (b2 =? 0x80) then 3%nat
        else if (b0 =? 0xE2) && (b1 =? 0x80) &&
                ((0x80 <=? b2) && (b2 <=? 0x8A) || (b2 =? 0xA8) || (b2 =? 0xA9) || (b2 =? 0xAF))
             then 3%nat
        else if (b0 =? 0xE2) && (b1 =? 0x81) && (b2 =? 0x9F) then 3%nat
        else if (b0 =? 0xE3) && (b1 =? 0x80) && (b2 =? 0x80) then 3%nat
        else 0%nat
      end
    end
  end.

(** [skip] counts the bytes left of a whitespace character being passed. *)
Fixpoint split_whitespace_go (skip : nat) (cur : string) (s : string) : list string :=
  match s with
  | "" => if decide (cur = "") then [] else [cur]
  | String c s' =>
    match skip with
    | S k => split_whitespace_go k cur s'
    | O =>
      match ws_len s with
      | O => split_whitespace_go 0 (cur +:+ String c "") s'
      | S k => (if decide (cur = "") then [] else [cur]) ++ split_whitespace_go k "" s'
      end
    end
  end.

(** [str::split_whitespace] *)
Definition split_whitespace (s : string) : list string := split_whitespace_go 0 "" s.

Fixpoint trim_start_go (skip : nat) (s : string) : string :=
  match s with
  | "" => ""
  | String c s' =>
    match skip with
    | S k => trim_start_go k s'
    | O => match ws_len s with O => s | S k => trim_start_go k s' end
    end
  end.

Fixpoint all_ws_go (skip : nat) (s : string) : bool :=
  match s with
  | "" => true
  | String c s' =>
    match skip with
    | S k => all_ws_go k s'
    | O => match ws_len s with O => false | S k => all_ws_go k s' end
    end
  end.

Fixpoint trim_end (s : string) : string :=
  match s with
  | "" => ""
  | String c s' => if all_ws_go 0 s then "" else String c (trim_end s')
  end.

(** [str::trim] *)
Definition trim (s : string) : string := trim_end (trim_start_go 0 s).

Fixpoint split_go (sep : ascii) (cur : string) (s : string) : list string :=
  match s with
  | "" => [cur]
  | String c s' =>
    if decide (c = sep) then cur :: split_go sep "" s'
    else split_go sep (cur +:+ String c "") s'
  end.

(** [str::split(sep)] for a one-byte separator: never empty. *)
Definition split (sep : ascii) (s : string) : list string := split_go sep "" s.

(** [str::split_once(sep)] *)
Fixpoint split_once (sep : ascii) (s : string) : option (string * string) :=
  match s with
  | "" => None
  | String c s' =>
    if decide (c = sep) then Some ("", s')
    else '(a, b) ← split_once sep s'; Some (String c a, b)
  end.

Definition digit_of (c : ascii) : option Z :=
  let b := byte_of c in
  if (48 <=? b) && (b <=? 57) then Some (b - 48) else None.

(** Accumulate decimal digits, failing on any other byte. *)
Fixpoint digits_go (acc : Z) (s : string) : option Z :=
  match s with
  | "" => Some acc
  | String c s' => d ← digit_of c; digits_go (acc * 10 + d) s'
  end.

Definition digits (s : string) : option Z :=
  if decide (s = "") then None else digits_go 0 s.

Definition i32_min : Z := - 2 ^ 31.
Definition i32_max : Z := 2 ^ 31 - 1.
Definition u32_max : Z := 2 ^ 32 - 1.

(** [str::parse::<i32>] *)
Definition parse_i32 (s : string) : option Z :=
  v ← match s with
      | String "-" s' => Z.opp <$> digits s'
      | String "+" s' => digits s'
      | _ => digits s
      end;
  if (i32_min <=? v) && (v <=? i32_max) then Some v else None.

(** [str::parse::<u32>]: a leading [-] is not accepted. *)
Definition parse_u32 (s : string) : option Z :=
  v ← match s with
      | String "+" s' => digits s'
      | _ => digits s
      end;
  if v <=? u32_max then Some v else None.

Definition u64_max : Z := 2 ^ 64 - 1.

(** [str::parse::<u64>] *)
Definition parse_u64 (s : string) : option Z :=
  v ← match s with
      | String "+" s' => digits s'
      | _ => digits s
      end;
  if v <=? u64_max then Some v else None.

(** [str::chars]: the code points of a (valid UTF-8) string; [n] continuation
    bytes of the current character are still to come. *)
Fixpoint chars_go (n : nat) (acc : Z) (s : string) : list Z :=
  match s with
  | "" => []
  | String c s' =>
    let b := byte_of c in
    match n with
    | S O => (acc * 64 + b mod 64) :: chars_go 0 0 s'
    | S n' => chars_go n' (acc * 64 + b mod 64) s'
    | O =>
      if b <? 0x80 then b :: chars_go 0 0 s'
      else if b <? 0xE0 then chars_go 1 (b mod 32) s'
      else if b <? 0xF0 then chars_go 2 (b mod 16) s'
      else chars_go 3 (b mod 8) s'
    end
  end.

Definition chars (s : string) : list Z := chars_go 0 0 s.

(** [u8::is_ascii_hexdigit] and the value of the digit *)
Definition hex_value (c : ascii) : option Z :=
  let b := byte_of c in
  if (48 <=? b) && (b <=? 57) then Some (b - 48)
  else if (65 <=? b) && (b <=? 70) then Some (b - 55)
  else if (97 <=? b) && (b <=? 102) then Some (b - 87)
  else None.

(** Read hexadecimal digits; [None] when some byte is not one. *)
Fixpoint hex_go (acc : Z) (s : string) : option Z :=
  match s with
  | "" => Some acc
  | String c s' => d ← hex_value c; hex_go (acc * 16 + d) s'
  end.

(** [u32] arithmetic in release builds wraps; [as u32] truncates. *)
Definition wrap_u32 (v : Z) : Z := v mod 2 ^ 32.
(** [as i32] / [i32] wrapping arithmetic *)
(** Replace the first element [p] holds of, as [iter().position(p)] followed by
    an assignment through the index; [None] when there is none. *)
Fixpoint update_first {A} (p : A -> bool) (f : A -> A) (l : list A) : option (list A) :=
  match l with
  | [] => None
  | x :: l' => if p x then Some (f x :: l') else cons x <$> update_first p f l'
  end.

(** [str::strip_prefix] *)
Fixpoint strip_prefix (pat s : string) : option string :=
  match pat, s with
  | "", _ => Some s
  | String a pat, String b s => if bool_decide (a = b) then strip_prefix pat s else None
  | _, _ => None
  end.

(** [str::ends_with] *)
Fixpoint ends_with (suffix s : string) : bool :=
  if bool_decide (s = suffix) then true
  else match s with "" => false | String _ s => ends_with suffix s end.

(** [str::strip_suffix] *)
Fixpoint strip_suffix (suffix s : string) : option string :=
  if bool_decide (s = suffix) then Some ""
  else match s with "" => None | String c s => String c <$> strip_suffix suffix s end.

(** [str::rsplit_once], and what [rfind] gives with slicing. *)
Fixpoint rsplit_once (sep : ascii) (s : string) : option (string * string) :=
  match s with
  | "" => None
  | String c s =>
    match rsplit_once sep s with
    | Some (before, after) => Some (String c before, after)
    | None => if bool_decide (c = sep) then Some ("", s) else None
    end
  end.

(** [str::contains] of a string pattern. *)
Fixpoint str_contains (pat s : string) : bool :=
  String.prefix pat s ||
  match s with EmptyString => false | String _ s' => str_contains pat s' end.

(** [str::to_ascii_lowercase] *)
Fixpoint to_ascii_lowercase (s : string) : string :=
  match s with
  | "" => ""
  | String c s' =>
    let b := byte_of c in
    String (if (65 <=? b) && (b <=? 90) then ascii_of_N (Z.to_N (b + 32)) else c)
      (to_ascii_lowercase s')
  end.

(** [str::eq_ignore_ascii_case] *)
Definition eq_ignore_ascii_case (a b : string) : bool :=
  bool_decide (to_ascii_lowercase a = to_ascii_lowercase b).

Definition wrap_i32 (v : Z) : Z := (v + 2 ^ 31) mod 2 ^ 32 - 2 ^ 31.

(** [(lo..=hi).step_by(step)] for [step >= 1] *)
Definition step_range (lo hi step : Z) : list Z :=
  (fun i => lo + step * i) <$> seqZ 0 ((hi - lo) / step + 1).

Lemma elem_of_step_range lo hi step v :
  1 <= step ->
  v ∈ step_range lo hi step <-> lo <= v <= hi /\ (v - lo) mod step = 0.
Proof.
  intros Hs. unfold step_range. rewrite list_elem_of_fmap. split.
  - intros (i & -> & Hi). apply elem_of_seqZ in Hi.
    assert (step * i <= hi - lo).
    { pose proof (Z.mul_div_le (hi - lo) step ltac:(lia)). nia. }
    split; [nia|]. replace (lo + step * i - lo) with (i * step) by lia.
    apply Z.mod_mul. lia.
  - intros [Hv Hm]. exists ((v - lo) / step).
    pose proof (Z.div_mod (v - lo) step ltac:(lia)) as Hd. rewrite Hm in Hd.
    split; [lia|]. apply elem_of_seqZ.
    assert ((v - lo) / step <= (hi - lo) / step) by (apply Z.div_le_mono; lia).
    assert (0 <= (v - lo) / step) by (apply Z.div_pos; lia). lia.
Qed.

Lemma step_range_empty lo hi step : 1 <= step -> hi < lo -> step_range lo hi step = [].
Proof.
  intros Hs Hlt. unfold step_range.
  assert ((hi - lo) / step < 0) by (apply Z.div_lt_upper_bound; lia).
  by rewrite seqZ_nil by lia.
Qed.

Lemma step_range_increasing lo hi step : 1 <= step -> increasing (step_range lo hi step).
Proof.
  intros Hs. unfold step_range, seqZ.
  rewrite <- list_fmap_compose. generalize (Z.to_nat ((hi - lo) / step + 1)), 0%nat.
  intros n. induction n as [|n IH]; intros k; simpl; constructor; [apply IH|].
  apply Forall_fmap, Forall_forall. intros j Hj. apply elem_of_seq in Hj.
  unfold compose. nia.
Qed.

(** ** Facts about splitting and parsing *)

(** The separator does not occur in the string. *)
Fixpoint no_char (sep : ascii) (s : string) : bool :=
  match s with
  | "" => true
  | String c s' => bool_decide (c ≠ sep) && no_char sep s'
  end.

Lemma string_app_cons c (s t : string) : String c s +:+ t = String c (s +:+ t).
Proof. reflexivity. Qed.

Lemma string_app_nil_l (s : string) : "" +:+ s = s.
Proof. reflexivity. Qed.

Lemma string_app_nil_r (s : string) : s +:+ "" = s.
Proof. induction s as [|c s IH]; [done|]. by rewrite string_app_cons, IH. Qed.

Lemma string_app_assoc (a b c : string) : a +:+ (b +:+ c) = (a +:+ b) +:+ c.
Proof. induction a as [|x a IH]; [done|]. by rewrite !string_app_cons, IH. Qed.

#[export] Hint Rewrite string_app_cons string_app_nil_l string_app_nil_r : mirri_rw.

Lemma split_go_no_char sep cur s :
  no_char sep s = true -> split_go sep cur s = [cur +:+ s].
Proof.
  revert cur. induction s as [|c s IH]; intros cur; simpl; [by rewrite string_app_nil_r|].
  intros Hn. apply andb_true_iff in Hn as [Hc Hn]. apply bool_decide_eq_true in Hc.
  rewrite decide_False by done. rewrite IH by done. by rewrite <- string_app_assoc.
Qed.

Lemma split_go_app sep cur s s' :
  no_char sep s = true ->
  split_go sep cur (s +:+ String sep s') = (cur +:+ s) :: split_go sep "" s'.
Proof.
  revert cur. induction s as [|c s IH]; intros cur.
  - intros _. rewrite string_app_nil_l, string_app_nil_r. simpl. by rewrite decide_True.
  - rewrite string_app_cons. simpl.
    intros Hn. apply andb_true_iff in Hn as [Hc Hn]. apply bool_decide_eq_true in Hc.
    rewrite decide_False by done. rewrite IH by done. by rewrite <- string_app_assoc.
Qed.

Lemma split_no_char sep s : no_char sep s = true -> split sep s = [s].
Proof. intros H. unfold split. by rewrite split_go_no_char. Qed.

Lemma split_app sep s s' :
  no_char sep s = true -> split sep (s +:+ String sep s') = s :: split sep s'.
Proof. intros H. unfold split. by rewrite split_go_app. Qed.

Lemma no_char_app sep s t : no_char sep (s +:+ t) = no_char sep s && no_char sep t.
Proof.
  induction s as [|c s IH]; [done|]. rewrite string_app_cons. simpl. rewrite IH.
  by rewrite andb_assoc.
Qed.

(** [join]ing pieces that do not hold the separator and splitting again. *)
Lemma split_concat sep (a : string) (l : list string) :
  Forall (fun s => no_char sep s = true) (a :: l) ->
  split sep (String.concat (String sep "") (a :: l)) = a :: l.
Proof.
  revert a. induction l as [|b l IH]; intros a Hf; inversion Hf as [|? ? Ha Hl]; subst.
  - unfold split. simpl. by rewrite split_go_no_char.
  - unfold split in *. change (String.concat (String sep "") (a :: b :: l))
      with (a +:+ String sep (String.concat (String sep "") (b :: l))).
    rewrite split_go_app by done. f_equal. by apply IH.
Qed.

Lemma split_not_nil sep s : split sep s <> [].
Proof.
  unfold split. generalize "". induction s as [|c s IH]; intros cur; simpl; [done|].
  case_decide; [done|apply IH].
Qed.

Lemma digits_go_nonneg acc s v : 0 <= acc -> digits_go acc s = Some v -> 0 <= v.
Proof.
  revert acc. induction s as [|c s IH]; simpl; intros acc Ha Hv; [congruence|].
  destruct (digit_of c) as [d|] eqn:Hd; simpl in Hv; [|done].
  eapply IH in Hv; [done|]. unfold digit_of in Hd.
  destruct ((48 <=? byte_of c) && (byte_of c <=? 57)) eqn:Hb; [|done]. bsimpl. simplify_eq. lia.
Qed.

Lemma digits_nonneg s v : digits s = Some v -> 0 <= v.
Proof. unfold digits. case_decide; [done|]. apply digits_go_nonneg. lia. Qed.

Lemma hex_value_range c d : hex_value c = Some d -> 0 <= d <= 15.
Proof.
  unfold hex_value. cbv zeta. generalize (byte_of c). intros b Hd.
  destruct ((48 <=? b) && (b <=? 57)) eqn:E1; [bsimpl; injection Hd as <-; lia|].
  destruct ((65 <=? b) && (b <=? 70)) eqn:E2; [bsimpl; injection Hd as <-; lia|].
  destruct ((97 <=? b) && (b <=? 102)) eqn:E3; [bsimpl; injection Hd as <-; lia|done].
Qed.

Lemma hex_go_range acc s v :
  0 <= acc -> hex_go acc s = Some v -> 0 <= v < (acc + 1) * 16 ^ Z.of_nat (String.length s).
Proof.
  revert acc. induction s as [|c s IH]; intros acc Ha Hv.
  { simpl in *. simplify_eq. lia. }
  cbn [hex_go] in Hv. apply bind_Some in Hv as (d & Hd & Hv). apply hex_value_range in Hd.
  apply IH in Hv; [|lia]. cbn [String.length]. rewrite Nat2Z.inj_succ, Z.pow_succ_r by lia.
  assert (0 < 16 ^ Z.of_nat (String.length s)) by (apply Z.pow_pos_nonneg; lia). nia.
Qed.

Lemma parse_i32_range s v : parse_i32 s = Some v -> i32_min <= v <= i32_max.
Proof.
  unfold parse_i32. intros Hv. apply bind_Some in Hv as (x & _ & Hx).
  destruct ((i32_min <=? x) && (x <=? i32_max)) eqn:Hb; [|done]. bsimpl. by simplify_eq.
Qed.

Lemma parse_u32_range s v : parse_u32 s = Some v -> 0 <= v <= u32_max.
Proof.
  unfold parse_u32. intros Hv. apply bind_Some in Hv as (x & Hd & Hx).
  destruct (x <=? u32_max) eqn:Hb; [|done]. bsimpl. simplify_eq. split; [|done].
  destruct s as [|c s]; [done|].
  destruct c as [[] [] [] [] [] [] [] []]; by eapply digits_nonneg.
Qed.

Lemma wrap_u32_range v : 0 <= wrap_u32 v <= u32_max.
Proof. unfold wrap_u32, u32_max. pose proof (Z.mod_pos_bound v (2 ^ 32) ltac:(lia)). lia. Qed.

Lemma wrap_u32_small v : 0 <= v <= u32_max -> wrap_u32 v = v.
Proof. unfold wrap_u32, u32_max. intros. apply Z.mod_small. lia. Qed.

#[export] Hint Resolve digits_nonneg parse_i32_range parse_u32_range wrap_u32_range : mirri.

Lemma update_first_Some {A} (p : A -> bool) (f : A -> A) l l' :
  update_first p f l = Some l' <->
  exists l1 x l2, l = (l1 ++ x :: l2)%list /\ Forall (fun y => p y = false) l1 /\ p x = true /\
    l' = (l1 ++ f x :: l2)%list.
Proof.
  revert l'. induction l as [|y l IH]; intros l'; cbn [update_first].
  { split; [done|]. intros ([|? ?] & x & l2 & ? & _); done. }
  destruct (p y) eqn:Hy.
  - split.
    + intros [= <-]. by exists [], y, l.
    + intros ([|z l1] & x & l2 & Hl & Hall & Hx & ->); simplify_eq/=; [done|].
      apply Forall_cons in Hall as [? _]. congruence.
  - rewrite fmap_Some. split.
    + intros (k & Hk & ->). apply IH in Hk as (l1 & x & l2 & -> & Hall & Hx & ->).
      exists (y :: l1), x, l2. split_and!; [done| |done|done]. by constructor.
    + intros ([|z l1] & x & l2 & Hl & Hall & Hx & ->); simplify_eq/=; [congruence|].
      apply Forall_cons in Hall as [? Hall]. exists (l1 ++ f x :: l2)%list. split; [|done].
      apply IH. by exists l1, x, l2.
Qed.

Lemma update_first_None {A} (p : A -> bool) (f : A -> A) l :
  update_first p f l = None <-> Forall (fun y => p y = false) l.
Proof.
  induction l as [|y l IH]; cbn [update_first]; [by split|].
  rewrite Forall_cons. destruct (p y); [naive_solver|]. rewrite fmap_None, IH. naive_solver.
Qed.

Lemma existsb_false {A} (p : A -> bool) l :
  existsb p l = false <-> Forall (fun x => p x = false) l.
Proof.
  induction l as [|x l IH]; [done|]. simpl. by rewrite orb_false_iff, Forall_cons, IH.
Qed.

Lemma find_Some_split {A} (p : A -> bool) l x :
  List.find p l = Some x ->
  exists l1 l2, l = (l1 ++ x :: l2)%list /\ Forall (fun y => p y = false) l1 /\ p x = true.
Proof.
  induction l as [|y l IH]; [done|]. simpl. destruct (p y) eqn:Hy.
  - intros [= ->]. exists [], l. split_and!; [done|constructor|done].
  - intros Hf. destruct (IH Hf) as (l1 & l2 & -> & Hall & Hx). exists (y :: l1), l2.
    split_and!; [done|by constructor|done].
Qed.

(** ** Facts about trimming

    What [str::trim] leaves of strings that start or end with printable
    characters, and when a string is all white space. *)

(** A printable ASCII character other than the space *)
Definition graphic (c : ascii) : bool := ((33 <=? byte_of c) && (byte_of c <=? 126))%Z.
Fixpoint all_chars (p : ascii -> bool) (s : string) : bool :=
  match s with "" => true | String c s => p c && all_chars p s end.

Lemma graphic_ws c s : graphic c = true -> ws_len (String c s) = 0%nat.
Proof.
  unfold graphic. rewrite andb_true_iff, !Z.leb_le. intros [H1 H2]. unfold ws_len.
  repeat case_match; try done; exfalso; lia.
Qed.

Lemma trim_start_graphic c s : graphic c = true -> trim_start_go 0 (String c s) = String c s.
Proof. intros Hc. cbn [trim_start_go]. by rewrite graphic_ws. Qed.

Lemma all_chars_app p s t : all_chars p (s +:+ t) = all_chars p s && all_chars p t.
Proof. induction s as [|c s IH]; [done|]. rewrite string_app_cons. simpl. by rewrite IH, andb_assoc. Qed.

(** A character of one byte ends every white-space character before it. *)
Lemma ws_len_cut c s g t :
  (byte_of g < 128)%Z -> ws_len (String c (s +:+ String g t)) = ws_len (String c s).
Proof.
  intros Hg. destruct s as [|c1 [|c2 s]]; rewrite ?string_app_cons, ?string_app_nil_l; unfold ws_len;
    [|destruct t as [|c2 t]|done]; repeat case_match; try done; exfalso; lia.
Qed.

(** The whitespace at the head is part of the string. *)
Lemma ws_len_length c s : (ws_len (String c s) <= S (String.length s))%nat.
Proof. unfold ws_len. repeat case_match; simpl; lia. Qed.

Lemma all_ws_cut s g t k :
  (byte_of g < 128)%Z -> (k <= String.length s)%nat ->
  all_ws_go k (s +:+ String g t) = all_ws_go k s && all_ws_go 0 (String g t).
Proof.
  intros Hg. revert k. induction s as [|c s IH]; intros k Hk.
  - rewrite string_app_nil_l. simpl in Hk. by replace k with 0%nat by lia.
  - rewrite string_app_cons. cbn [all_ws_go]. simpl in Hk. destruct k as [|k]; [|apply IH; lia].
    rewrite ws_len_cut by done. pose proof (ws_len_length c s) as Hw.
    destruct (ws_len _) as [|k]; [done|]. apply IH. lia.
Qed.

Lemma all_ws_graphic s g k :
  graphic g = true -> (k <= String.length s)%nat -> all_ws_go k (s +:+ String g "") = false.
Proof.
  intros Hg Hk. rewrite all_ws_cut by (done || (unfold graphic in Hg; lia)).
  cbn [all_ws_go]. rewrite graphic_ws by done. apply andb_false_r.
Qed.

Lemma trim_end_graphic s g :
  graphic g = true -> trim_end (s +:+ String g "") = s +:+ String g "".
Proof.
  intros Hg. induction s as [|c s IH].
  - rewrite string_app_nil_l. cbn [trim_end all_ws_go]. by rewrite graphic_ws.
  - rewrite string_app_cons. cbn [trim_end]. rewrite <- string_app_cons.
    rewrite all_ws_graphic by (done || lia). by rewrite IH, string_app_cons.
Qed.

Lemma string_snoc s : s = "" \/ exists t c, s = t +:+ String c "".
Proof.
  induction s as [|c s [->|(t & d & ->)]]; [by left| |]; right.
  - by exists "", c.
  - by exists (String c t), d.
Qed.

(** Trimming keeps a string that starts and ends with a printable character. *)
Lemma trim_graphic c s g :
  graphic c = true -> graphic g = true -> trim (String c (s +:+ String g "")) = String c (s +:+ String g "").
Proof.
  intros Hc Hg. unfold trim. rewrite trim_start_graphic by done.
  rewrite <- string_app_cons. by apply trim_end_graphic.
Qed.

Lemma trim_all_graphic s : all_chars graphic s = true -> trim s = s.
Proof.
  destruct s as [|c s]; [done|]. simpl. intros [Hc Hs]%andb_true_iff.
  destruct (string_snoc s) as [->|(t & g & ->)].
  - unfold trim. rewrite trim_start_graphic by done. by apply (trim_end_graphic "").
  - rewrite all_chars_app in Hs. apply andb_true_iff in Hs as [_ Hg]. simpl in Hg.
    rewrite andb_true_r in Hg. by apply trim_graphic.
Qed.

(** ** Blank strings *)

Lemma all_ws_skip s k : all_ws_go k s = true -> trim_start_go k s = "".
Proof.
  revert k. induction s as [|c s IH]; intros k; [done|]. cbn [all_ws_go trim_start_go].
  destruct k; [|apply IH]. destruct (ws_len (String c s)); [done|apply IH].
Qed.

Lemma trim_end_blank s : trim_end s = "" -> all_ws_go 0 s = true.
Proof. destruct s as [|c s]; [done|]. cbn [trim_end]. by destruct (all_ws_go 0 (String c s)). Qed.

Lemma trim_start_blank s k : all_ws_go 0 (trim_start_go k s) = true -> all_ws_go k s = true.
Proof.
  revert k. induction s as [|c s IH]; intros k; [done|]. cbn [trim_start_go all_ws_go].
  destruct k; [|apply IH]. destruct (ws_len (String c s)) as [|k] eqn:E; [|apply IH].
  cbn [all_ws_go]. by rewrite E.
Qed.

(** A string trims to nothing exactly when it is all white space. *)
Lemma trim_blank s : trim s = "" <-> all_ws_go 0 s = true.
Proof.
  unfold trim. split.
  - intros Ht. by apply trim_start_blank, trim_end_blank.
  - intros Ha. by rewrite all_ws_skip.
Qed.

Lemma graphic_not_blank c s : graphic c = true -> trim (String c s) <> "".
Proof. intros Hc Ht. apply trim_blank in Ht. cbn [all_ws_go] in Ht. by rewrite graphic_ws in Ht. Qed.

(** Text after a line break does not make a string blank. *)
Lemma trim_line s t : trim s <> "" -> trim (s +:+ String "010" t) <> "".
Proof.
  rewrite !trim_blank, all_ws_cut by (done || lia). intros Hs Hst. by apply andb_true_iff in Hst as [? _].
Qed.
