(* ===== verification/F64.v ===== *)
(** * Binary64 arithmetic on finite normal numbers

    Rust's [f64] is IEEE 754 binary64.  A finite number is [mant * 2 ^ expo]
    with [|mant| <= 2 ^ 53]; conversions and products round the exact result to
    53 bits, ties to even.  The jitter arithmetic stays between [2^-87] and
    [2^64] in magnitude, inside the range of normal numbers, so exponents are
    unbounded here and there are no infinities or NaNs. *)
From S2P Require Import Prelude.
#[local] Open Scope Z_scope.

Record f64 : Type := mkF64 { mant : Z; expo : Z }.

(** Bits of a positive integer. *)
Definition bits (m : Z) : Z := Z.log2 m + 1.

(** The mantissa cut to 53 bits, and how many bits were dropped. *)
Definition round_pos (m : Z) : Z * Z :=
  if m <? 2 ^ 53 then (m, 0)
  else
    let k := bits m - 53 in
    let q := m / 2 ^ k in
    let r := m mod 2 ^ k in
    let up := (2 ^ (k - 1) <? r) || ((r =? 2 ^ (k - 1)) && Z.odd q) in
    (if up then q + 1 else q, k).

Definition f64_round (m e : Z) : f64 :=
  let '(q, k) := round_pos (Z.abs m) in mkF64 (Z.sgn m * q) (e + k).

(** [n as f64] *)
Definition f64_of_Z (n : Z) : f64 := f64_round n 0.

Definition f64_mul (a b : f64) : f64 := f64_round (mant a * mant b) (expo a + expo b).
Definition f64_opp (a : f64) : f64 := mkF64 (- mant a) (expo a).

Definition f64_leb (a b : f64) : bool :=
  let e := Z.min (expo a) (expo b) in
  mant a * 2 ^ (expo a - e) <=? mant b * 2 ^ (expo b - e).

(** [a.min(b)] *)
Definition f64_min (a b : f64) : f64 := if f64_leb a b then a else b.

(** [a.floor() as i64] *)
Definition f64_floor (a : f64) : Z :=
  if 0 <=? expo a then mant a * 2 ^ expo a else mant a / 2 ^ (- expo a).

(** ** Rounding error *)

Lemma round_pos_spec m q k :
  0 <= m -> round_pos m = (q, k) ->
  0 <= k /\ 0 <= q /\ q * 2 ^ k * 2 ^ 53 <= m * (2 ^ 53 + 1) /\ (m < 2 ^ 53 -> q = m /\ k = 0).
Proof.
  intros Hm. unfold round_pos. destruct (m <? 2 ^ 53) eqn:Hs; bsimpl.
  { intros [= <- <-]. split_and!; [done|done|nia|done]. }
  assert (Hlog : 53 <= Z.log2 m) by (apply Z.log2_le_pow2; lia).
  pose proof (Z.log2_spec m ltac:(lia)) as [Hlo _]. unfold bits.
  set (k' := Z.log2 m + 1 - 53).
  set (up := (_ || _) : bool). intros [= <- <-].
  assert (Hk : 1 <= k') by lia.
  assert (Hp : 2 ^ k' = 2 * 2 ^ (k' - 1)) by (rewrite <- Z.pow_succ_r by lia; f_equal; lia).
  assert (Hpos : 0 < 2 ^ (k' - 1)) by (apply Z.pow_pos_nonneg; lia).
  assert (Hm2 : 2 ^ 53 * 2 ^ (k' - 1) <= m).
  { rewrite <- Z.pow_add_r by lia. replace (53 + (k' - 1)) with (Z.log2 m) by lia. done. }
  pose proof (Z.div_mod m (2 ^ k') ltac:(lia)) as Hd.
  pose proof (Z.mod_pos_bound m (2 ^ k') ltac:(lia)) as Hr.
  assert (0 <= m / 2 ^ k') by (apply Z.div_pos; lia).
  split_and!; [lia|destruct up; lia| |lia].
  assert (Hle : (if up then m / 2 ^ k' + 1 else m / 2 ^ k') * 2 ^ k' <= m + 2 ^ (k' - 1)).
  { destruct up eqn:Hup; [|nia]. unfold up in Hup. apply orb_true_iff in Hup.
    assert (2 ^ (k' - 1) <= m mod 2 ^ k') by (destruct Hup as [Hup|Hup]; bsimpl; lia). nia. }
  nia.
Qed.

Lemma f64_round_nonneg m e :
  0 <= m -> exists q k, f64_round m e = mkF64 q (e + k) /\ 0 <= k /\ 0 <= q /\
    q * 2 ^ k * 2 ^ 53 <= m * (2 ^ 53 + 1) /\ (m < 2 ^ 53 -> q = m /\ k = 0).
Proof.
  intros Hm. unfold f64_round. rewrite Z.abs_eq by done.
  destruct (round_pos m) as [q k] eqn:Hr. pose proof (round_pos_spec m q k Hm Hr).
  destruct (decide (m = 0)) as [->|Hne].
  - exists 0, 0. assert (Hr0 : round_pos 0 = (0, 0)) by reflexivity.
    rewrite Hr0 in Hr. injection Hr as <- <-. split_and!; try done; lia.
  - exists q, k. rewrite Z.sgn_pos by lia. by rewrite Z.mul_1_l.
Qed.

Lemma f64_of_Z_small n : 0 <= n < 2 ^ 53 -> f64_of_Z n = mkF64 n 0.
Proof.
  intros Hn. unfold f64_of_Z. destruct (f64_round_nonneg n 0) as (q & k & -> & _ & _ & _ & H); [lia|].
  destruct H as [-> ->]; [lia|done].
Qed.

Lemma f64_mul_exact a b :
  0 <= mant a -> 0 <= mant b -> mant a * mant b < 2 ^ 53 ->
  f64_mul a b = mkF64 (mant a * mant b) (expo a + expo b).
Proof.
  intros Ha Hb Hm. unfold f64_mul.
  destruct (f64_round_nonneg (mant a * mant b) (expo a + expo b)) as (q & k & -> & _ & _ & _ & H); [nia|].
  destruct H as [-> ->]; [done|]. by rewrite Z.add_0_r.
Qed.

(** An upper bound on [c] times the floor, from one on the scaled mantissa. *)
Lemma f64_floor_le a s b c :
  0 <= s -> - s <= expo a -> 0 < c ->
  c * (mant a * 2 ^ (s + expo a)) <= b * 2 ^ s -> c * f64_floor a <= b.
Proof.
  intros Hs He Hc Hle. unfold f64_floor. assert (0 < 2 ^ s) by (apply Z.pow_pos_nonneg; lia).
  destruct (0 <=? expo a) eqn:E; bsimpl.
  - rewrite Z.pow_add_r in Hle by lia. nia.
  - assert (Hp : 2 ^ s = 2 ^ (s + expo a) * 2 ^ (- expo a))
      by (rewrite <- Z.pow_add_r by lia; f_equal; lia).
    assert (H1 : 0 < 2 ^ (s + expo a)) by (apply Z.pow_pos_nonneg; lia).
    assert (H2 : 0 < 2 ^ (- expo a)) by (apply Z.pow_pos_nonneg; lia).
    pose proof (Z.mul_div_le (mant a) (2 ^ (- expo a)) H2) as Hf.
    set (f := mant a / 2 ^ (- expo a)) in *.
    set (x := 2 ^ (s + expo a)) in *. set (y := 2 ^ (- expo a)) in *.
    assert (c * f * (x * y) <= b * (x * y)).
    { rewrite <- Hp at 2. etransitivity; [|exact Hle].
      replace (c * f * (x * y)) with (c * (x * (y * f))) by ring.
      replace (c * (mant a * x)) with (c * (x * mant a)) by ring.
      apply Z.mul_le_mono_nonneg_l; [lia|]. apply Z.mul_le_mono_nonneg_l; lia. }
    apply (Z.mul_le_mono_pos_r _ _ (x * y)); [nia|done].
Qed.

Lemma f64_floor_nonneg a : 0 <= mant a -> 0 <= f64_floor a.
Proof.
  intros Ha. unfold f64_floor. destruct (0 <=? expo a) eqn:E; bsimpl.
  - assert (0 < 2 ^ expo a) by (apply Z.pow_pos_nonneg; lia). nia.
  - apply Z.div_pos; [done|apply Z.pow_pos_nonneg; lia].
Qed.

(** ** Agreement with the standard library's executable binary64 *)

From Stdlib Require SpecFloat.

Definition to_spec (a : f64) : SpecFloat.spec_float :=
  SpecFloat.binary_normalize 53 1024 (mant a) (expo a) false.

Definition mul_agrees (a b : f64) : bool :=
  match SpecFloat.SFcompare (SpecFloat.SFmul 53 1024 (to_spec a) (to_spec b))
          (to_spec (f64_mul a b)) with
  | Some Eq => true
  | _ => false
  end.

Example mul_agrees_samples :
  forallb (fun n => mul_agrees (f64_of_Z n) (mkF64 3602879701896397 (-55))
                    && mul_agrees (f64_mul (f64_of_Z n) (mkF64 3602879701896397 (-55)))
                         (mkF64 4294967295 (-32)))
    [1; 3; 299999; 300000; 86400000; 604800000; 31536000000; 9007199254740993; 123456789012345678]
  = true.
Proof. vm_compute. reflexivity. Qed.
