(* ===== verification/Json.v ===== *)
(** * JSON values, as [serde_json::Value]

    Integers keep their value; a non-integral number is the double it denotes.
    An object is its list of entries, keys distinct; [jinsert] replaces the
    value of a key in place or appends, as [serde_json::Map::insert] does up to
    the order of the entries, which no consumer observes. *)
From S2P Require Import Prelude RustStd F64.
#[local] Open Scope Z_scope.

Inductive json : Type :=
| JNull
| JBool (b : bool)
| JNum (n : Z)
| JFloat (f : f64)
| JStr (s : string)
| JArr (l : list json)
| JObj (l : list (string * json)).

Fixpoint assoc {A} (key : string) (l : list (string * A)) : option A :=
  match l with
  | [] => None
  | (k, v) :: l' => if decide (k = key) then Some v else assoc key l'
  end.

Fixpoint assoc_insert {A} (key : string) (v : A) (l : list (string * A)) : list (string * A) :=
  match l with
  | [] => [(key, v)]
  | (k, w) :: l' => if decide (k = key) then (k, v) :: l' else (k, w) :: assoc_insert key v l'
  end.

(** [value.get(key)] *)
Definition jget (key : string) (j : json) : option json :=
  match j with JObj l => assoc key l | _ => None end.

(** [object.insert(key, v)], nothing on a value that is not an object *)
Definition jinsert (key : string) (v : json) (j : json) : json :=
  match j with JObj l => JObj (assoc_insert key v l) | _ => j end.

Definition as_str (j : json) : option string := match j with JStr s => Some s | _ => None end.
Definition as_bool (j : json) : option bool := match j with JBool b => Some b | _ => None end.
Definition as_i64 (j : json) : option Z :=
  match j with
  | JNum n => if (- 2 ^ 63 <=? n) && (n <? 2 ^ 63) then Some n else None
  | _ => None
  end.
Definition as_u64 (j : json) : option Z :=
  match j with
  | JNum n => if (0 <=? n) && (n <? 2 ^ 64) then Some n else None
  | _ => None
  end.

(** [value.get(key).and_then(Value::as_str)] *)
Definition str_field (key : string) (j : json) : option string := jget key j ≫= as_str.

(** [v as u64] *)
Definition wrap_u64 (v : Z) : Z := v mod 2 ^ 64.

Definition is_obj (j : json) : bool := match j with JObj _ => true | _ => false end.

Lemma assoc_insert_eq {A} key (v : A) l : assoc key (assoc_insert key v l) = Some v.
Proof.
  induction l as [|[k w] l IH]; simpl; [by rewrite decide_True|].
  destruct (decide (k = key)); simpl; [by rewrite decide_True|by rewrite decide_False].
Qed.

Lemma assoc_insert_ne {A} key key' (v : A) l :
  key <> key' -> assoc key (assoc_insert key' v l) = assoc key l.
Proof.
  intros Hne. induction l as [|[k w] l IH]; simpl; [by rewrite decide_False|].
  destruct (decide (k = key')) as [->|]; simpl; [by rewrite !decide_False by done|].
  by rewrite IH.
Qed.

Lemma jget_insert_eq key v j : is_obj j = true -> jget key (jinsert key v j) = Some v.
Proof. destruct j; try done. intros _. apply assoc_insert_eq. Qed.

Lemma jget_insert_ne key key' v j :
  key <> key' -> jget key (jinsert key' v j) = jget key j.
Proof. intros Hne. destruct j; try done. simpl. by apply assoc_insert_ne. Qed.

Lemma is_obj_insert key v j : is_obj (jinsert key v j) = is_obj j.
Proof. by destruct j. Qed.

Lemma jget_is_obj key v j : jget key j = Some v -> is_obj j = true.
Proof. by destruct j. Qed.

#[export] Hint Rewrite is_obj_insert : mirri_rw.
