(* ===== verification/CronIndex.v ===== *)
(** * The scheduled-task index: [mirri-cron-index/src/lib.rs]

    One table of rows keyed by task id, with the workspace as a column.  The
    body is text the index never reads, so its type is left open; the SQL
    statements are modelled by their effect on the table. *)
From stdpp Require Import gmap strings.
From S2P Require Import Prelude RustStd Json.
#[local] Open Scope string_scope.

(** [ScheduledTaskRow] *)
Record ScheduledTaskRow (B : Type) : Type := mkRow {
  row_id : string;
  row_workspace_id : string;
  row_next_fire_at : option string;
  row_paused : bool;
  row_created_at : string;
  row_body : B
}.
Arguments mkRow {_} _ _ _ _ _ _.
Arguments row_id {_} _.
Arguments row_workspace_id {_} _.
Arguments row_next_fire_at {_} _.
Arguments row_paused {_} _.
Arguments row_created_at {_} _.
Arguments row_body {_} _.

(** The database: the table and the [legacy_import_done] flag. *)
Record CronIndex (B : Type) : Type := mkIndex {
  ix_rows : gmap string (ScheduledTaskRow B);
  ix_import_done : bool
}.
Arguments mkIndex {_} _ _.
Arguments ix_rows {_} _.
Arguments ix_import_done {_} _.

Section index.
Context {B : Type}.
Implicit Types (row : ScheduledTaskRow B) (ix : CronIndex B).

Definition set_rows rows ix : CronIndex B := mkIndex rows (ix_import_done ix).

(** [INSERT … ON CONFLICT(id) DO UPDATE] *)
Definition upsert_task row ix : CronIndex B :=
  set_rows (<[row_id row := row]> (ix_rows ix)) ix.

Definition get_task (workspace_id id : string) ix : option (ScheduledTaskRow B) :=
  row ← ix_rows ix !! id;
  if decide (row_workspace_id row = workspace_id) then Some row else None.

(** [SELECT … WHERE workspace_id = ? ORDER BY id] *)
Definition list_workspace (workspace_id : string) ix : list (ScheduledTaskRow B) :=
  filter (fun row => row_workspace_id row = workspace_id) (sorted_values row_id (ix_rows ix)).

Definition delete_task (workspace_id id : string) ix : CronIndex B * bool :=
  match get_task workspace_id id ix with
  | Some _ => (set_rows (delete id (ix_rows ix)) ix, true)
  | None => (ix, false)
  end.

(** [DELETE … WHERE workspace_id = ?] *)
Definition others (workspace_id : string) (rows : gmap string (ScheduledTaskRow B)) :=
  filter (fun '(_, row) => row_workspace_id row <> workspace_id) rows.

Definition delete_workspace (workspace_id : string) ix : CronIndex B * Z :=
  (set_rows (others workspace_id (ix_rows ix)) ix,
   Z.of_nat (length (list_workspace workspace_id ix))).

(** The inserts of one transaction: an id that is already there violates the
    primary key. *)
Fixpoint insert_rows (rows : list (ScheduledTaskRow B)) (table : gmap string (ScheduledTaskRow B))
  : option (gmap string (ScheduledTaskRow B)) :=
  match rows with
  | [] => Some table
  | row :: rows =>
    match table !! row_id row with
    | Some _ => None
    | None => insert_rows rows (<[row_id row := row]> table)
    end
  end.

(** One transaction: the index after it, or [None] when it rolled back. *)
Definition replace_workspace (workspace_id : string) (rows : list (ScheduledTaskRow B)) ix
  : option (CronIndex B) :=
  table ← insert_rows rows (others workspace_id (ix_rows ix));
  Some (set_rows table ix).
End index.

(** *** The one-time import of the JSON documents *)

Section import.
Context {B : Type} (to_body : json -> json -> B).

Definition import_row (workspace_id : string) (runs task : json) : option (ScheduledTaskRow B) :=
  id ← str_field "id" task;
  created_at ← str_field "created_at" task;
  let ws := default workspace_id (str_field "workspaceId" task) in
  Some (mkRow id ws (str_field "next_fire_at" task)
          (default false (jget "paused" task ≫= as_bool)) created_at
          (to_body task (default (JArr []) (jget id runs)))).

(** The rows of one bucket's document ([None]: no file, or not JSON). *)
Definition import_bucket (bucket : string * option json) : list (ScheduledTaskRow B) :=
  let '(workspace_id, document) := bucket in
  match document with
  | None => []
  | Some doc =>
    match jget "tasks" doc with
    | Some (JArr tasks) =>
      omap (import_row workspace_id (default (JObj []) (jget "runs" doc))) tasks
    | _ => []
    end
  end.

Definition set_import_done (ix : CronIndex B) : CronIndex B := mkIndex (ix_rows ix) true.

Definition import_legacy_json_once (buckets : list (string * option json)) (ix : CronIndex B)
  : CronIndex B * nat :=
  if ix_import_done ix then (ix, 0%nat)
  else
    let rows := buckets ≫= import_bucket in
    (set_import_done (foldl (fun ix row => upsert_task row ix) ix rows), length rows).
End import.

(** ** Facts *)

Section facts.
Context {B : Type}.
Implicit Types (row : ScheduledTaskRow B) (ix : CronIndex B).

Definition rows_keyed ix : Prop := keyed_table row_id (ix_rows ix).

Lemma elem_of_list_workspace ws ix row :
  rows_keyed ix ->
  row ∈ list_workspace ws ix <-> ix_rows ix !! row_id row = Some row /\ row_workspace_id row = ws.
Proof.
  intros Hk. unfold list_workspace. rewrite list_elem_of_filter, elem_of_sorted_values by done. tauto.
Qed.

Lemma list_workspace_sorted ws ix :
  rows_keyed ix ->
  NoDup (row_id <$> list_workspace ws ix) /\ StronglySorted (key_le row_id) (list_workspace ws ix).
Proof.
  intros Hk. destruct (sorted_values_sorted row_id (ix_rows ix) Hk) as [Hnd Hs]. split.
  - eapply sublist_NoDup; [exact Hnd|]. apply fmap_sublist, sublist_filter.
  - by apply StronglySorted_filter.
Qed.

Lemma insert_rows_spec (rows : list (ScheduledTaskRow B)) : forall table table',
  insert_rows rows table = Some table' <->
  NoDup (row_id <$> rows) /\ (forall row, row ∈ rows -> table !! row_id row = None) /\
  table' = foldl (fun t row => <[row_id row := row]> t) table rows.
Proof.
  induction rows as [|row rows IH]; intros table table'.
  { split; [intros [= <-]; split_and!; [constructor|set_solver|done]|by intros (_ & _ & ->)]. }
  cbn [insert_rows foldl]. rewrite fmap_cons, NoDup_cons.
  destruct (table !! row_id row) eqn:Hl.
  { split; [done|]. intros (_ & Hf & _). specialize (Hf row ltac:(set_solver)). congruence. }
  rewrite IH. split.
  - intros (Hnd & Hf & ->).
    assert (Hn : row_id row ∉ (row_id <$> rows)).
    { intros Hin. apply list_elem_of_fmap in Hin as (r & He & Hr). specialize (Hf r Hr).
      rewrite He, lookup_insert_eq in Hf. done. }
    split_and!; [done|done| |done]. intros r Hr. apply elem_of_cons in Hr as [->|Hr]; [done|].
    specialize (Hf r Hr). rewrite lookup_insert_ne in Hf; [done|]. intros He. apply Hn.
    rewrite He. by apply list_elem_of_fmap_2.
  - intros ([Hn Hnd] & Hf & ->). split_and!; [done| |done]. intros r Hr.
    rewrite lookup_insert_ne; [apply Hf; set_solver|]. intros He. apply Hn. rewrite He.
    by apply list_elem_of_fmap_2.
Qed.

Lemma insert_all_lookup (rows : list (ScheduledTaskRow B)) :
  forall (table : gmap string (ScheduledTaskRow B)) id row,
  NoDup (row_id <$> rows) ->
  foldl (fun t r => <[row_id r := r]> t) table rows !! id = Some row <->
  (row ∈ rows /\ row_id row = id) \/ (id ∉ (row_id <$> rows) /\ table !! id = Some row).
Proof.
  induction rows as [|r rows IH]; intros table id row Hnd; [set_solver|].
  cbn [foldl]. rewrite fmap_cons in Hnd |- *. apply NoDup_cons in Hnd as [Hr Hnd].
  rewrite IH by done. destruct (decide (row_id r = id)) as [<-|Hne].
  - rewrite lookup_insert_eq. split.
    + intros [[Hin Hid]|[_ [= <-]]]; [|left; set_solver]. left. set_solver.
    + intros [[Hin Hid]|[Hn _]]; [|set_solver]. apply elem_of_cons in Hin as [->|Hin]; [by right|].
      destruct Hr. rewrite <- Hid. by apply list_elem_of_fmap_2.
  - rewrite lookup_insert_ne by done. set_solver.
Qed.

Lemma others_lookup ws (rows : gmap string (ScheduledTaskRow B)) id row :
  others ws rows !! id = Some row <-> rows !! id = Some row /\ row_workspace_id row <> ws.
Proof. apply (map_lookup_filter_Some (fun '(_, row) => row_workspace_id row <> ws)). Qed.

(** The condition the transaction commits under. *)
Definition replaceable ws (rows : list (ScheduledTaskRow B)) ix : Prop :=
  NoDup (row_id <$> rows) /\
  forall row other, row ∈ rows -> ix_rows ix !! row_id row = Some other ->
    row_workspace_id other = ws.

Lemma replace_commits ws rows ix :
  is_Some (replace_workspace ws rows ix) <-> replaceable ws rows ix.
Proof.
  unfold replace_workspace, replaceable.
  assert (Hf : (forall row, row ∈ rows -> others ws (ix_rows ix) !! row_id row = None) <->
    (forall row other, row ∈ rows -> ix_rows ix !! row_id row = Some other ->
       row_workspace_id other = ws)).
  { split.
    - intros Hn row other Hr Ho. destruct (decide (row_workspace_id other = ws)); [done|].
      specialize (Hn row Hr). assert (others ws (ix_rows ix) !! row_id row = Some other)
        by (by apply others_lookup). congruence.
    - intros Hn row Hr. destruct (others ws (ix_rows ix) !! row_id row) as [other|] eqn:Ho; [|done].
      apply others_lookup in Ho as [Ho Hne]. destruct Hne. eauto. }
  split.
  - intros [ix' Hix]. destruct (insert_rows rows _) as [table|] eqn:Hi; [|done].
    apply insert_rows_spec in Hi as (Hnd & Hn & _). split; [done|]. by apply Hf.
  - intros [Hnd Hn].
    assert (Hi := proj2 (insert_rows_spec rows (others ws (ix_rows ix)) _)
                    (conj Hnd (conj (proj2 Hf Hn) eq_refl))).
    rewrite Hi. by eexists.
Qed.

Lemma replace_rows_keyed ws rows ix ix' :
  rows_keyed ix -> replace_workspace ws rows ix = Some ix' -> rows_keyed ix'.
Proof.
  unfold replace_workspace. intros Hk Hr.
  destruct (insert_rows rows _) as [table|] eqn:Hi; [|done]. simplify_eq/=.
  apply insert_rows_spec in Hi as (Hnd & _ & ->). intros id row Hrow. simpl in Hrow.
  apply insert_all_lookup in Hrow as [[_ Hid]|[_ Ho]]; [done| |done].
  apply others_lookup in Ho as [Ho _]. exact (Hk _ _ Ho).
Qed.

Lemma replace_lists ws rows ix ix' ws' :
  rows_keyed ix -> Forall (fun row => row_workspace_id row = ws) rows ->
  replace_workspace ws rows ix = Some ix' ->
  list_workspace ws' ix'
  = if decide (ws' = ws) then sort_by_key row_id rows else list_workspace ws' ix.
Proof.
  intros Hk Hws Hr. pose proof (replace_rows_keyed _ _ _ _ Hk Hr) as Hk'.
  rewrite Forall_forall in Hws. unfold replace_workspace in Hr.
  destruct (insert_rows rows _) as [table|] eqn:Hi; [|done]. simplify_eq/=.
  apply insert_rows_spec in Hi as (Hnd & Hfresh & ->).
  destruct (list_workspace_sorted ws' _ Hk') as [Hn1 Hs1].
  assert (Hmem : forall row, row ∈ list_workspace ws' (set_rows
      (foldl (fun t r => <[row_id r := r]> t) (others ws (ix_rows ix)) rows) ix) <->
    (row ∈ rows /\ ws = ws') \/
    (row ∈ list_workspace ws' ix /\ ws' <> ws)).
  { intros row. rewrite !elem_of_list_workspace by done. simpl.
    rewrite insert_all_lookup, others_lookup by done. split.
    - intros [[[Hin _]|[_ [Ho Hne]]] Hw]; [left|right].
      + split; [done|]. rewrite <- Hw. symmetry. auto.
      + split; [done|congruence].
    - intros [[Hin <-]|[[Ho Hw] Hne]]; [split; auto|]. split; [|done]. right.
      split; [|split; [done|congruence]]. intros Hid.
      apply list_elem_of_fmap in Hid as (r & He & Hr).
      specialize (Hfresh r Hr). rewrite <- He in Hfresh.
      assert (others ws (ix_rows ix) !! row_id row = Some row)
        by (apply others_lookup; split; [done|congruence]). congruence. }
  case_decide as Hd.
  - subst ws'. apply (sorted_listing_ext row_id); [done| |done|apply sort_by_key_sorted|].
    + by rewrite sort_by_key_perm.
    + intros row. rewrite Hmem, sort_by_key_perm. naive_solver.
  - destruct (list_workspace_sorted ws' ix Hk) as [Hn2 Hs2].
    apply (sorted_listing_ext row_id); [done..|]. intros row. rewrite Hmem. naive_solver.
Qed.
End facts.

Section properties.
Context {B : Type}.
Implicit Types ix : CronIndex B.

(** Replacing a workspace is all or nothing: the transaction commits exactly
    when the new rows have distinct ids that no other workspace holds, and
    then listing the workspace gives the new rows in id order while every
    other workspace lists what it listed before. *)
Theorem replace_workspace_exact ws (rows : list (ScheduledTaskRow B)) ix :
  rows_keyed ix -> Forall (fun row => row_workspace_id row = ws) rows ->
  (is_Some (replace_workspace ws rows ix) <-> replaceable ws rows ix) /\
  forall ix', replace_workspace ws rows ix = Some ix' ->
    rows_keyed ix' /\
    forall ws', list_workspace ws' ix'
      = if decide (ws' = ws) then sort_by_key row_id rows else list_workspace ws' ix.
Proof.
  intros Hk Hws. split; [apply replace_commits|]. intros ix' Hr.
  split; [by eapply replace_rows_keyed|]. intros ws'. by apply replace_lists.
Qed.
End properties.

(** ** Witness *)

Definition sample_row (id ws : string) : ScheduledTaskRow string :=
  mkRow id ws None false "2026-11-03T13:38:31.000000000Z" "{}".

Definition sample_index : CronIndex string :=
  upsert_task (sample_row "t2" "ws-b") (upsert_task (sample_row "t1" "ws-a") (mkIndex ∅ false)).

Lemma replace_workspace_exact_witness :
  row_id <$> from_option (list_workspace "ws-a") []
    (replace_workspace "ws-a" [sample_row "t9" "ws-a"; sample_row "t3" "ws-a"] sample_index)
  = ["t3"; "t9"] /\
  (is_Some (replace_workspace "ws-a" [sample_row "t9" "ws-a"] sample_index) <->
   replaceable "ws-a" [sample_row "t9" "ws-a"] sample_index).
Proof.
  split; [vm_compute; reflexivity|].
  apply (replace_workspace_exact "ws-a" [sample_row "t9" "ws-a"] sample_index).
  - by repeat (apply map_Forall_insert_2; [done|]).
  - by repeat constructor.
Defined.
