(* ===== verification/CronExpr.v ===== *)
(** * Five-field cron expressions: [mirri-core/src/cron.rs]

    [FieldSpec], [CronSpec], [CronSpec::parse], [parse_field], [parse_value],
    the day-of-week normalisation and the [CronError] type, with the parser's
    soundness, its agreement with a grammar of atoms, and a round trip. *)
From S2P Require Import Prelude RustStd.
#[local] Open Scope string_scope.
#[local] Open Scope Z_scope.

Inductive CronError : Type :=
| InvalidExpression (message : string)
| NoNextFire (expression : string).

#[export] Instance CronError_eq_dec : EqDecision CronError.
Proof. solve_decision. Defined.

(** The set of values a field may take; [restricted] is [false] when every
    atom of the field has a [*] base. *)
Record FieldSpec : Type := mkFieldSpec { values : list Z; restricted : bool }.

Record CronSpec : Type := mkCronSpec {
  cs_minute : FieldSpec;
  cs_hour : FieldSpec;
  cs_day_of_month : FieldSpec;
  cs_month : FieldSpec;
  cs_day_of_week : FieldSpec
}.

#[export] Instance FieldSpec_eq_dec : EqDecision FieldSpec.
Proof. solve_decision. Defined.
#[export] Instance CronSpec_eq_dec : EqDecision CronSpec.
Proof. solve_decision. Defined.

Definition identity (value : Z) : Z := value.

Definition normalize_sunday (value : Z) : Z := if value =? 7 then 0 else value.

Definition parse_value (text field_name atom : string) : result CronError Z :=
  ok_or (parse_i32 (trim text))
    (InvalidExpression ("'" +:+ text +:+ "' is not an integer in " +:+ field_name
                        +:+ " field: '" +:+ atom +:+ "'")).

(** The step of one atom: the piece after the [/], 1 when there is none. *)
Definition parse_step (step : option string) (field_name atom : string) : result CronError Z :=
  match step with
  | None => Ok 1
  | Some step =>
    n ← ok_or (parse_i32 (trim step))
          (InvalidExpression ("step '" +:+ step +:+ "' is not an integer in " +:+ field_name
                              +:+ " field: '" +:+ atom +:+ "'"));
    if n <=? 0
    then Err (InvalidExpression ("step must be >= 1 in " +:+ field_name +:+ " field: '"
                                 +:+ atom +:+ "'"))
    else Ok n
  end.

(** The bounds of one atom's base, and whether the base restricts the field. *)
Definition parse_base (base : string) (has_step : bool) (min max : Z)
    (field_name atom : string) : result CronError (Z * Z * bool) :=
  if decide (base = "*") then Ok (min, max, false)
  else match split_once "-" base with
  | Some (lo_text, hi_text) =>
    lo ← parse_value lo_text field_name atom;
    hi ← parse_value hi_text field_name atom;
    if hi <? lo
    then Err (InvalidExpression ("range start " +:+ pretty lo +:+ " exceeds range end "
                +:+ pretty hi +:+ " in " +:+ field_name +:+ " field: '" +:+ atom +:+ "'"))
    else Ok (lo, hi, true)
  | None =>
    value ← parse_value base field_name atom;
    Ok (value, if has_step then max else value, true)
  end.

(** One pass of [parse_field]'s loop over the comma-separated atoms. *)
Definition parse_atom (input : string) (min max : Z) (field_name : string)
    (normalize : Z -> Z) (acc : list Z * bool) (atom : string)
    : result CronError (list Z * bool) :=
  if decide (atom = "")
  then Err (InvalidExpression ("empty list entry in " +:+ field_name +:+ " field: '"
                               +:+ input +:+ "'"))
  else
    let pieces := split "/" atom in
    if decide (2 < length pieces)%nat
    then Err (InvalidExpression ("too many '/' separators in " +:+ field_name +:+ " field: '"
                                 +:+ atom +:+ "'"))
    else
      step ← parse_step (pieces !! 1%nat) field_name atom;
      '(lo, hi, concrete) ← parse_base (default "" (pieces !! 0%nat))
                              (bool_decide (length pieces = 2%nat)) min max field_name atom;
      if (lo <? min) || (max <? hi)
      then Err (InvalidExpression ("value out of range " +:+ pretty min +:+ "..=" +:+ pretty max
                  +:+ " in " +:+ field_name +:+ " field: '" +:+ atom +:+ "'"))
      else Ok ((acc.1 ++ (normalize <$> step_range lo hi step))%list, acc.2 || concrete).

Definition parse_field (input : string) (min max : Z) (field_name : string)
    (normalize : Z -> Z) : result CronError FieldSpec :=
  '(vs, r) ← result_loop (parse_atom input min max field_name normalize) ([], false)
               (split "," input);
  Ok (mkFieldSpec (dedup (merge_sort Z.le vs)) r).

(** [CronSpec::parse] *)
Definition parse (cron : string) : result CronError CronSpec :=
  let fields := split_whitespace cron in
  match fields with
  | [f0; f1; f2; f3; f4] =>
    minute ← parse_field f0 0 59 "minute" identity;
    hour ← parse_field f1 0 23 "hour" identity;
    day_of_month ← parse_field f2 1 31 "day-of-month" identity;
    month ← parse_field f3 1 12 "month" identity;
    day_of_week ← parse_field f4 0 7 "day-of-week" normalize_sunday;
    Ok (mkCronSpec minute hour day_of_month month day_of_week)
  | _ =>
    Err (InvalidExpression
      ("expected 5 fields (minute hour day-of-month month day-of-week), got "
       +:+ pretty (Z.of_nat (length fields)) +:+ ": '" +:+ cron +:+ "'"))
  end.

Example parse_lists :
  parse_field "1-10/3,*/20, 7" 0 59 "minute" identity
  = Ok (mkFieldSpec [0; 1; 4; 7; 10; 20; 40] true).
Proof. vm_compute. reflexivity. Qed.

Example parse_sunday :
  parse_field "5-7" 0 7 "day-of-week" normalize_sunday = Ok (mkFieldSpec [0; 5; 6] true).
Proof. vm_compute. reflexivity. Qed.

(** ** The grammar of one atom

    [atom_selects min max atom w]: the raw value [w] is one the atom stands
    for, read off the module documentation: [*], [5], [1-5], [*/5], [1-10/3]
    and [5/15] (which runs from 5 to the field maximum). *)
Inductive atom_selects (min max : Z) (atom : string) (w : Z) : Prop :=
| sel_star : split "/" atom = ["*"] -> min <= w <= max -> atom_selects min max atom w
| sel_star_step st s :
    split "/" atom = ["*"; st] -> parse_i32 (trim st) = Some s -> 1 <= s ->
    min <= w <= max -> (w - min) mod s = 0 -> atom_selects min max atom w
| sel_value base :
    split "/" atom = [base] -> base <> "*" -> split_once "-" base = None ->
    parse_i32 (trim base) = Some w -> atom_selects min max atom w
| sel_value_step base st s v :
    split "/" atom = [base; st] -> base <> "*" -> split_once "-" base = None ->
    parse_i32 (trim st) = Some s -> 1 <= s -> parse_i32 (trim base) = Some v ->
    v <= w <= max -> (w - v) mod s = 0 -> atom_selects min max atom w
| sel_range base a b lo hi :
    split "/" atom = [base] -> base <> "*" -> split_once "-" base = Some (a, b) ->
    parse_i32 (trim a) = Some lo -> parse_i32 (trim b) = Some hi -> lo <= w <= hi ->
    atom_selects min max atom w
| sel_range_step base st a b lo hi s :
    split "/" atom = [base; st] -> base <> "*" -> split_once "-" base = Some (a, b) ->
    parse_i32 (trim a) = Some lo -> parse_i32 (trim b) = Some hi ->
    parse_i32 (trim st) = Some s -> 1 <= s -> lo <= w <= hi -> (w - lo) mod s = 0 ->
    atom_selects min max atom w.

(** ** Facts about one atom *)

Section atoms.
Context (input : string) (min max : Z) (field_name : string) (normalize : Z -> Z).

(** What an accepted atom parses to. *)
Record atom_parsed (atom : string) (lo hi step : Z) (concrete : bool) : Prop := {
  ap_pieces : exists base, split "/" atom = [base] /\ step = 1 /\
                parse_base base false min max field_name atom = Ok (lo, hi, concrete)
              \/ exists st, split "/" atom = [base; st] /\ parse_i32 (trim st) = Some step /\
                parse_base base true min max field_name atom = Ok (lo, hi, concrete);
  ap_step : 1 <= step;
  ap_bounds : min <= lo /\ hi <= max
}.

Lemma parse_step_ok o atom n :
  parse_step o field_name atom = Ok n ->
  1 <= n /\ match o with None => n = 1 | Some st => parse_i32 (trim st) = Some n end.
Proof.
  destruct o as [st|]; simpl; [|naive_solver lia].
  intros H. ok_inv. bsimpl. split; [lia|done].
Qed.

Lemma parse_atom_inv acc atom acc' :
  parse_atom input min max field_name normalize acc atom = Ok acc' ->
  exists lo hi step concrete,
    atom_parsed atom lo hi step concrete /\
    acc' = ((acc.1 ++ (normalize <$> step_range lo hi step))%list, acc.2 || concrete).
Proof.
  unfold parse_atom. intros H. case_decide; [done|].
  destruct (decide (2 < length (split "/" atom))%nat) as [|Hlen]; [done|].
  apply bind_ok in H as (step & Hstep & H).
  apply bind_ok in H as ([[lo hi] concrete] & Hbase & H).
  destruct ((lo <? min) || (max <? hi)) eqn:Hb; [done|]. injection H as <-. bsimpl.
  exists lo, hi, step, concrete. split; [|done].
  apply parse_step_ok in Hstep as [Hs1 Hs].
  split; [|done|lia].
  pose proof (split_not_nil "/" atom) as Hnil.
  destruct (split "/" atom) as [|base [|st [|? ?]]]; simpl in *; [done| | |lia].
  - exists base. left. auto.
  - exists base. right. exists st. auto.
Qed.

Lemma atom_parsed_selects atom lo hi step concrete w :
  atom_parsed atom lo hi step concrete ->
  w ∈ step_range lo hi step <-> min <= w <= max /\ atom_selects min max atom w.
Proof.
  intros [Hp Hs [Hlo Hhi]]. rewrite elem_of_step_range by done.
  assert (Hw : lo <= w <= hi -> min <= w <= max) by lia.
  destruct Hp as [base [(Hsp & -> & Hb)|(st & Hsp & Hst & Hb)]];
    unfold parse_base, parse_value in Hb;
    (destruct (decide (base = "*")) as [->|Hne];
      [ok_inv|destruct (split_once "-" base) as [[a b]|] eqn:Ho; ok_inv; bsimpl]).
  all: split; [intros [Hr Hm]; split; [by apply Hw|]|intros [Hr Hsel]].
  all: try (destruct Hsel as [Hsp'|? ? Hsp'|? Hsp'|? ? ? ? Hsp'|? ? ? ? ? Hsp'|? ? ? ? ? ? ? Hsp'];
            rewrite Hsp in Hsp'; simplify_eq; rewrite ?Z.mod_1_r; try done;
            split; rewrite ?Z.mod_1_r; first [lia|done]).
  - by apply sel_star.
  - eapply sel_range; eauto.
  - replace w with hi by lia. by eapply sel_value.
  - eapply sel_star_step; eauto.
  - eapply sel_range_step; eauto.
  - eapply sel_value_step; eauto.
Qed.
End atoms.

Lemma parse_atoms_inv input min max field_name normalize l acc acc' :
  result_loop (parse_atom input min max field_name normalize) acc l = Ok acc' ->
  (forall v, v ∈ acc'.1 <-> v ∈ acc.1 \/ exists atom w,
     atom ∈ l /\ min <= w <= max /\ atom_selects min max atom w /\ v = normalize w).
Proof.
  revert acc. induction l as [|atom l IH]; intros acc; simpl.
  { intros [= <-] v. set_solver. }
  intros H v. apply bind_ok in H as (acc1 & H1 & H). rewrite (IH _ H v). clear IH H.
  apply parse_atom_inv in H1 as (lo & hi & step & concrete & Hp & ->). simpl.
  rewrite elem_of_app, list_elem_of_fmap.
  setoid_rewrite elem_of_cons.
  pose proof (fun w => atom_parsed_selects _ _ _ _ _ _ _ _ w Hp) as Hsel.
  setoid_rewrite Hsel. naive_solver.
Qed.

(** the values an accepted field stands for. *)
Lemma parse_field_elem input min max field_name normalize spec v :
  parse_field input min max field_name normalize = Ok spec ->
  v ∈ values spec <-> exists atom w,
    atom ∈ split "," input /\ min <= w <= max /\ atom_selects min max atom w /\ v = normalize w.
Proof.
  unfold parse_field. intros H. apply bind_ok in H as ([vs r] & H & [= <-]). simpl.
  rewrite elem_of_dedup, merge_sort_Permutation.
  rewrite (parse_atoms_inv _ _ _ _ _ _ _ _ H v). set_solver.
Qed.

Lemma parse_field_increasing input min max field_name normalize spec :
  parse_field input min max field_name normalize = Ok spec -> increasing (values spec).
Proof.
  unfold parse_field. intros H. apply bind_ok in H as ([vs r] & H & [= <-]). simpl.
  apply dedup_increasing. apply StronglySorted_merge_sort; apply _.
Qed.

Lemma parse_atoms_restricted input min max field_name normalize l acc acc' :
  result_loop (parse_atom input min max field_name normalize) acc l = Ok acc' ->
  acc'.2 = acc.2 || existsb (fun atom => bool_decide (split "/" atom !! 0%nat <> Some "*")) l.
Proof.
  revert acc. induction l as [|atom l IH]; intros acc; simpl.
  { intros [= <-]. by rewrite orb_false_r. }
  intros H. apply bind_ok in H as (acc1 & H1 & H). rewrite (IH _ H).
  apply parse_atom_inv in H1 as (lo & hi & step & concrete & [Hp _ _] & ->). simpl.
  rewrite <- orb_assoc. f_equal. f_equal.
  destruct Hp as [base [(Hsp & _ & Hb)|(st & Hsp & _ & Hb)]]; rewrite Hsp; simpl;
    unfold parse_base in Hb; destruct (decide (base = "*")) as [->|Hne];
    simplify_eq; try done; symmetry; rewrite bool_decide_eq_true_2 by congruence;
    destruct (split_once "-" base) as [[a b]|]; ok_inv; by simplify_eq.
Qed.

(** The values of each field stay in the domain the scheduler indexes with. *)
Definition in_domain (lo hi : Z) (f : FieldSpec) : Prop :=
  increasing (values f) /\ Forall (fun v => lo <= v <= hi) (values f).

Record spec_wf (s : CronSpec) : Prop := {
  wf_minute : in_domain 0 59 (cs_minute s);
  wf_hour : in_domain 0 23 (cs_hour s);
  wf_day_of_month : in_domain 1 31 (cs_day_of_month s);
  wf_month : in_domain 1 12 (cs_month s);
  wf_day_of_week : in_domain 0 6 (cs_day_of_week s)
}.

Lemma parse_field_in_domain input min max field_name normalize spec lo hi :
  (forall w, min <= w <= max -> lo <= normalize w <= hi) ->
  parse_field input min max field_name normalize = Ok spec -> in_domain lo hi spec.
Proof.
  intros Hn H. split; [by eapply parse_field_increasing|].
  apply Forall_forall. intros v Hv.
  apply (parse_field_elem _ _ _ _ _ _ _ H) in Hv as (? & w & _ & Hw & _ & ->). auto.
Qed.

Lemma normalize_sunday_range w : 0 <= w <= 7 -> 0 <= normalize_sunday w <= 6.
Proof. unfold normalize_sunday. destruct (w =? 7) eqn:E; bsimpl; lia. Qed.

Lemma parse_wf cron spec : parse cron = Ok spec -> spec_wf spec.
Proof.
  unfold parse. intros H.
  destruct (split_whitespace cron) as [|? [|? [|? [|? [|? [|? ?]]]]]]; try discriminate H.
  ok_inv. split; (eapply parse_field_in_domain; [|eassumption]); unfold identity;
    auto using normalize_sunday_range.
Qed.

(** ** Printing a list of values back *)

(** A field written as the comma-separated list of its values. *)
Definition print_values (l : list Z) : string := String.concat "," (pretty <$> l).

Definition printable (v : Z) : bool :=
  bool_decide (pretty v <> "") && bool_decide (pretty v <> "*") &&
  no_char "," (pretty v) && no_char "/" (pretty v) &&
  bool_decide (split_once "-" (pretty v) = None) &&
  bool_decide (parse_i32 (trim (pretty v)) = Some v).

Lemma printable_small v : 0 <= v <= 59 -> printable v = true.
Proof.
  intros Hv. assert (Hall : Forall (fun v => printable v = true) (seqZ 0 60)).
  { apply Forall_forall. intros x Hx.
    assert (Hc : forallb printable (seqZ 0 60) = true) by (vm_compute; reflexivity).
    rewrite forallb_forall in Hc. apply Hc. by apply list_elem_of_In. }
  rewrite Forall_forall in Hall. apply Hall, elem_of_seqZ. lia.
Qed.

Lemma parse_atom_printed input min max field_name acc v :
  0 <= v <= 59 -> min <= v <= max ->
  parse_atom input min max field_name identity acc (pretty v) = Ok ((acc.1 ++ [v])%list, true).
Proof.
  intros Hv Hr. pose proof (printable_small v Hv) as Hp. unfold printable in Hp. bsimpl.
  unfold parse_atom. rewrite decide_False by done.
  unfold split. rewrite split_go_no_char, string_app_nil_l by done. simpl.
  unfold parse_base. rewrite decide_False by done. unfold parse_value.
  repeat match goal with H : _ = None |- _ => rewrite H | H : _ = Some _ |- _ => rewrite H end.
  simpl. rewrite (proj2 (Z.ltb_ge v min)), (proj2 (Z.ltb_ge max v)) by lia. simpl.
  replace (step_range v v 1) with [v]; [by rewrite orb_true_r|].
  unfold step_range. rewrite Z.sub_diag. change (seqZ 0 (0 / 1 + 1)) with [0].
  cbn. by rewrite Z.add_0_r.
Qed.

Lemma parse_atoms_printed input min max field_name acc l :
  Forall (fun v => 0 <= v <= 59 /\ min <= v <= max) l ->
  result_loop (parse_atom input min max field_name identity) acc (pretty <$> l)
  = Ok ((acc.1 ++ l)%list, acc.2 || negb (bool_decide (l = []))).
Proof.
  intros Hl. revert acc. induction Hl as [|v l [Hv Hr] Hl IH]; intros [vs r]; simpl.
  - by rewrite app_nil_r, orb_false_r.
  - rewrite parse_atom_printed by done. simpl. rewrite IH. simpl.
    by rewrite <- app_assoc, orb_true_r.
Qed.

Lemma increasing_le l : increasing l -> StronglySorted Z.le l.
Proof.
  induction 1 as [|a l Hs IH Hall]; constructor; [done|].
  eapply Forall_impl; [exact Hall|]. simpl. lia.
Qed.

Lemma dedup_increasing_id l : increasing l -> dedup l = l.
Proof.
  induction 1 as [|a [|b l] Hs IH Hall]; [done|done|].
  rewrite dedup_cons2. inversion Hall; subst. rewrite decide_False by lia. by rewrite IH.
Qed.

Lemma merge_sort_increasing_id l : increasing l -> merge_sort Z.le l = l.
Proof.
  intros Hl. eapply (StronglySorted_unique Z.le).
  - apply StronglySorted_merge_sort; apply _.
  - by apply increasing_le.
  - apply merge_sort_Permutation.
Qed.

#[export] Hint Resolve parse_wf parse_field_increasing : mirri.

(** ** Properties *)

(** An accepted field is its grammar: the value list is strictly
    increasing, holds exactly the normalised in-range values selected by one of
    the comma-separated atoms, and [restricted] says whether some atom has a
    base other than [*]. *)
Theorem parse_field_correct input min max field_name normalize spec :
  parse_field input min max field_name normalize = Ok spec ->
  increasing (values spec) /\
  (forall v, v ∈ values spec <-> exists atom w,
     atom ∈ split "," input /\ min <= w <= max /\ atom_selects min max atom w
     /\ v = normalize w) /\
  (restricted spec = true <-> exists atom base,
     atom ∈ split "," input /\ head (split "/" atom) = Some base /\ base <> "*").
Proof.
  intros H. split; [by eapply parse_field_increasing|].
  split; [intros v; by eapply parse_field_elem|].
  unfold parse_field in H. apply bind_ok in H as ([vs r] & H & [= <-]).
  apply parse_atoms_restricted in H. simpl in *. subst r.
  rewrite existsb_exists. setoid_rewrite bool_decide_eq_true.
  setoid_rewrite <- list_elem_of_In. split.
  - intros (atom & Hin & Hne). pose proof (split_not_nil "/" atom).
    destruct (split "/" atom) as [|base l] eqn:Hs; [done|].
    exists atom, base. rewrite Hs. simpl in *. naive_solver.
  - intros (atom & base & Hin & Hb & Hne). exists atom. split; [done|].
    destruct (split "/" atom); simpl in *; congruence.
Qed.

Lemma parse_field_correct_witness :
  parse_field "1-10/3,*/20, 7" 0 59 "minute" identity
  = Ok (mkFieldSpec [0; 1; 4; 7; 10; 20; 40] true) /\
  increasing [0; 1; 4; 7; 10; 20; 40].
Proof.
  assert (H : parse_field "1-10/3,*/20, 7" 0 59 "minute" identity
    = Ok (mkFieldSpec [0; 1; 4; 7; 10; 20; 40] true)) by (vm_compute; reflexivity).
  split; [exact H|]. exact (proj1 (parse_field_correct _ _ _ _ _ _ H)).
Defined.

(** A parsed expression is well formed: every field's values are strictly
    increasing and lie in the field's lookup domain (minutes 0-59, hours 0-23,
    days 1-31, months 1-12, weekdays 0-6), which is what makes the scheduler's
    [and_hms_opt(..).expect(..)] total. *)
Theorem parse_well_formed cron spec : parse cron = Ok spec -> spec_wf spec.
Proof. apply parse_wf. Qed.

Lemma parse_well_formed_witness :
  exists spec, parse "*/15 9-17 1,15 * 1-5/2,7" = Ok spec /\ spec_wf spec.
Proof.
  eexists. split; [vm_compute; reflexivity|].
  eapply (parse_well_formed "*/15 9-17 1,15 * 1-5/2,7"). vm_compute. reflexivity.
Defined.

(** Round trip: writing a non-empty strictly increasing list of in-range
    values as a comma-separated field and parsing it gives the list back,
    restricted. *)
Theorem parse_field_roundtrip min max field_name l :
  0 <= min -> max <= 59 -> l <> [] -> increasing l -> Forall (fun v => min <= v <= max) l ->
  parse_field (print_values l) min max field_name identity = Ok (mkFieldSpec l true).
Proof.
  intros Hmin Hmax Hne Hinc Hr. unfold parse_field, print_values.
  assert (Hr' : Forall (fun v => 0 <= v <= 59 /\ min <= v <= max) l).
  { eapply Forall_impl; [exact Hr|]. simpl. lia. }
  assert (Hsp : split "," (String.concat "," (pretty <$> l)) = pretty <$> l).
  { destruct l as [|a l]; [done|]. apply split_concat.
    change (Forall (fun s => no_char "," s = true) (pretty <$> (a :: l))). apply Forall_fmap.
    eapply Forall_impl; [exact Hr'|]. intros v [Hv _]. unfold compose.
    pose proof (printable_small v Hv) as Hp. unfold printable in Hp. by bsimpl. }
  rewrite Hsp, parse_atoms_printed by done. simpl.
  rewrite merge_sort_increasing_id, dedup_increasing_id by done.
  by rewrite bool_decide_eq_false_2.
Qed.

Lemma parse_field_roundtrip_witness :
  parse_field "3,7,19" 0 23 "hour" identity = Ok (mkFieldSpec [3; 7; 19] true).
Proof.
  apply (parse_field_roundtrip 0 23 "hour" [3; 7; 19]); [lia|lia|done| |].
  - repeat constructor; lia.
  - repeat constructor; lia.
Defined.

(** A field of step atoms over [*] is parsed as unrestricted, and a single
    value with a step is accepted past the field's maximum, where it selects
    nothing: the parser's range test looks at the start against the minimum and
    at the end against the maximum only. *)
Theorem parse_field_step_edges min max field_name n :
  max < n <= 59 -> 0 <= n -> min <= max ->
  parse_field "*/5" min max field_name identity
    = Ok (mkFieldSpec (step_range min max 5) false) /\
  parse_field (pretty n +:+ "/5") min max field_name identity = Ok (mkFieldSpec [] true).
Proof.
  intros Hn H0 Hmm. split.
  - unfold parse_field. replace (split "," "*/5") with ["*/5"] by reflexivity.
    simpl. unfold parse_atom. rewrite decide_False by done.
    replace (split "/" "*/5") with ["*"; "5"] by reflexivity. simpl.
    replace (parse_step (Some "5") field_name "*/5") with (Ok (E := CronError) 5) by reflexivity.
    simpl. rewrite !Z.ltb_irrefl. simpl. unfold identity. rewrite list_fmap_id.
    pose proof (step_range_increasing min max 5 ltac:(lia)).
    by rewrite merge_sort_increasing_id, dedup_increasing_id.
  - pose proof (printable_small n ltac:(lia)) as Hp. unfold printable in Hp. bsimpl.
    unfold parse_field. rewrite split_no_char by (by rewrite no_char_app; apply andb_true_iff).
    simpl. unfold parse_atom.
    rewrite decide_False by (destruct (pretty n); [done|discriminate]).
    rewrite (split_app "/" (pretty n) "5") by done. simpl.
    unfold parse_base. rewrite decide_False by done. unfold parse_value.
    repeat match goal with H : _ = None |- _ => rewrite H | H : _ = Some _ |- _ => rewrite H end.
    simpl. rewrite (proj2 (Z.ltb_ge n min)), Z.ltb_irrefl by lia. simpl.
    change (0 * 10 + (byte_of "5" - 48)) with 5. by rewrite step_range_empty by lia.
Qed.

Lemma parse_field_step_edges_witness :
  parse_field "*/5" 0 23 "hour" identity = Ok (mkFieldSpec [0; 5; 10; 15; 20] false) /\
  parse_field "40/5" 0 23 "hour" identity = Ok (mkFieldSpec [] true).
Proof. apply (parse_field_step_edges 0 23 "hour" 40); lia. Defined.
