(* ===== verification/Chrono.v ===== *)
(** * The calendar and time-zone interface

    Instants ([DateTime<Utc>]) and wall-clock times ([NaiveDateTime]) are
    integers, nanoseconds since 1970-01-01T00:00:00; a [NaiveDate] is a day
    number since that date, so adding a [Duration] and comparing are integer
    arithmetic.  What depends on the Gregorian calendar or on the time-zone
    database belongs to the [chrono], [chrono-tz] and [iana-time-zone] crates
    and is the class [Chrono]; [ChronoLaws] states the documented behaviour the
    scheduler relies on, and [CronTimezone] ([mirri-core/src/cron/tz.rs]) is
    modelled on top of it. *)
From S2P Require Import Prelude RustStd CronExpr.
#[local] Open Scope string_scope.
#[local] Open Scope Z_scope.

Definition SECOND : Z := 1000000000.
Definition MINUTE : Z := 60 * SECOND.
Definition HOUR : Z := 60 * MINUTE.
Definition DAY : Z := 24 * HOUR.
Definition MILLI : Z := 1000000.

(** [chrono::LocalResult] *)
Inductive LocalResult : Type :=
| Single (offset : Z)
| Ambiguous (earliest latest : Z)
| NoLocal.

Class Chrono : Type := {
  tz : Type;
  utc_zone : tz;
  (** [str::parse::<chrono_tz::Tz>] *)
  parse_zone : string -> option tz;
  (** [iana_time_zone::get_timezone], [None] for its error *)
  host_zone : option string;
  (** the UTC offset in force in a zone at an instant *)
  utc_offset : tz -> Z -> Z;
  (** [TimeZone::offset_from_local_datetime] *)
  offset_from_local_datetime : tz -> Z -> LocalResult;
  (** [Datelike] on a [NaiveDate] *)
  nd_year : Z -> Z;
  nd_month : Z -> Z;
  nd_day : Z -> Z;
  num_days_from_sunday : Z -> Z;
  from_ymd_opt : Z -> Z -> Z -> option Z;
  with_day : Z -> Z -> option Z;
  checked_add_months : Z -> Z -> option Z;
  (** the ISO rendering of a date in messages *)
  date_to_string : Z -> string;
  (** whether a day number is a representable [NaiveDate] *)
  date_in_range : Z -> bool;
  (** the representable years *)
  min_year : Z;
  max_year : Z
}.

(** The text forms of dates and instants. *)
Class ChronoText : Type := {
  (** [NaiveDate::parse_from_str(_, "%Y-%m-%d")] *)
  parse_date_ymd : string -> option Z;
  (** [str::parse::<NaiveDate>], the serde form *)
  date_from_str : string -> option Z;
  (** the serde form of a [DateTime<Utc>] *)
  to_rfc3339 : Z -> string;
  (** [DateTime::parse_from_rfc3339], in UTC *)
  parse_rfc3339 : string -> option Z;
  (** [format("%Y-%m-%dT%H:%M:%S%.9fZ")], of fixed width *)
  format_nanos : Z -> string
}.

Class ChronoLaws `{Chrono} : Prop := {
  single_offset z n o :
    offset_from_local_datetime z n = Single o -> utc_offset z (n - o) = o;
  ambiguous_offset z n o1 o2 :
    offset_from_local_datetime z n = Ambiguous o1 o2 ->
    utc_offset z (n - o1) = o1 /\ utc_offset z (n - o2) = o2 /\ n - o1 <= n - o2;
  ymd_inv y m d n :
    from_ymd_opt y m d = Some n -> nd_year n = y /\ nd_month n = m /\ nd_day n = d;
  first_of_month y m :
    min_year <= y <= max_year -> 1 <= m <= 12 -> is_Some (from_ymd_opt y m 1);
  month_length y m n n' :
    from_ymd_opt y m 1 = Some n ->
    from_ymd_opt (if m =? 12 then y + 1 else y) (if m =? 12 then 1 else m + 1) 1 = Some n' ->
    28 <= n' - n <= 31 /\
    forall d, 1 <= d <= n' - n -> from_ymd_opt y m d = Some (n + d - 1);
  with_day_ymd n d : with_day n d = from_ymd_opt (nd_year n) (nd_month n) d;
  add_months_ymd n k r :
    nd_day n = 1 -> 0 <= k -> checked_add_months n k = Some r ->
    from_ymd_opt (nd_year n + (nd_month n - 1 + k) / 12) ((nd_month n - 1 + k) mod 12 + 1) 1
    = Some r
}.

Section operations.
Context `{Chrono}.

(** [instant.with_timezone(&z).naive_local()] *)
Definition naive_local (z : tz) (instant : Z) : Z := instant + utc_offset z instant.

(** [NaiveDateTime::date], [hour], [minute] *)
Definition naive_date (n : Z) : Z := n / DAY.
Definition naive_hour (n : Z) : Z := (n mod DAY) / HOUR.
Definition naive_minute (n : Z) : Z := (n mod HOUR) / MINUTE.

(** [with_second(0)] then [with_nanosecond(0)] *)
Definition floor_minute (n : Z) : Z := n - n mod MINUTE.

(** [NaiveDate::and_hms_opt(hour, minute, 0)] *)
Definition and_hms_opt (date hour minute : Z) : option Z :=
  if (0 <=? hour) && (hour <=? 23) && (0 <=? minute) && (minute <=? 59)
  then Some (date * DAY + hour * HOUR + minute * MINUTE) else None.

(** [date.checked_add_signed(Duration::days(n))] and [checked_sub_days] *)
Definition checked_add_days (date n : Z) : option Z :=
  if date_in_range (date + n) then Some (date + n) else None.

(** [DateTime::timestamp_millis] and [DateTime::from_timestamp_millis] *)
Definition timestamp_millis (instant : Z) : Z := instant / MILLI.
Definition from_timestamp_millis (m : Z) : option Z :=
  if date_in_range (m * MILLI / DAY) then Some (m * MILLI) else None.

(** [instant.with_timezone(&z).date_naive()] *)
Definition local_date (z : tz) (instant : Z) : Z := naive_date (naive_local z instant).
End operations.

(** ** [cron/tz.rs] *)

Section cron_timezone.
Context `{Chrono}.

Inductive CronTimezone : Type :=
| Local
| Named (z : tz).

Definition tz_parse (input : option string) : result CronError CronTimezone :=
  match input with
  | None => Ok Local
  | Some "" => Err (InvalidExpression
      "timezone must be a non-empty IANA name (e.g. 'Asia/Shanghai')")
  | Some name =>
    match parse_zone name with
    | Some z => Ok (Named z)
    | None => Err (InvalidExpression ("unknown timezone '" +:+ name
                     +:+ "': expected an IANA name such as 'Asia/Shanghai'"))
    end
  end.

Definition tz_resolve (declared : CronTimezone) : tz :=
  match declared with
  | Named z => z
  | Local =>
    match host_zone with
    | Some name => default utc_zone (parse_zone name)
    | None => utc_zone
    end
  end.

(** The zone of a stored task: an unusable name falls back to the host's. *)
Definition tz_or_local (timezone : option string) : tz :=
  match tz_parse timezone with
  | Ok declared => tz_resolve declared
  | Err _ => tz_resolve Local
  end.
End cron_timezone.

(** ** Arithmetic of wall-clock times *)

Ltac unfold_time := unfold DAY, HOUR, MINUTE, SECOND, MILLI in *.

Lemma floor_minute_aligned n : floor_minute n mod MINUTE = 0.
Proof.
  unfold floor_minute. unfold_time.
  rewrite Zminus_mod_idemp_r. by rewrite Z.sub_diag.
Qed.

Lemma floor_minute_bounds n : floor_minute n <= n < floor_minute n + MINUTE.
Proof. unfold floor_minute. pose proof (Z.mod_pos_bound n MINUTE ltac:(done)). lia. Qed.

Section laws.
Context `{Chrono}.

Lemma and_hms_some date hour minute :
  0 <= hour <= 23 -> 0 <= minute <= 59 ->
  and_hms_opt date hour minute = Some (date * DAY + hour * HOUR + minute * MINUTE).
Proof.
  intros Hh Hm. unfold and_hms_opt.
  by rewrite !(proj2 (Z.leb_le _ _)) by lia.
Qed.

(** A minute-aligned wall-clock time is its date, hour and minute. *)
Lemma naive_split n :
  n mod MINUTE = 0 ->
  n = naive_date n * DAY + naive_hour n * HOUR + naive_minute n * MINUTE /\
  0 <= naive_hour n <= 23 /\ 0 <= naive_minute n <= 59.
Proof.
  unfold naive_date, naive_hour, naive_minute. intros Hn.
  pose proof (Z.div_mod n DAY ltac:(done)).
  pose proof (Z.mod_pos_bound n DAY ltac:(done)).
  pose proof (Z.div_mod (n mod DAY) HOUR ltac:(done)).
  pose proof (Z.mod_pos_bound (n mod DAY) HOUR ltac:(done)).
  pose proof (Z.div_mod (n mod HOUR) MINUTE ltac:(done)).
  pose proof (Z.mod_pos_bound n HOUR ltac:(done)).
  assert ((n mod DAY) mod HOUR = n mod HOUR).
  { change DAY with (HOUR * 24). by rewrite Z.rem_mul_r, Z.mul_comm, Z.mod_add, Z.mod_mod by done. }
  assert ((n mod HOUR) mod MINUTE = 0).
  { rewrite <- Hn. change HOUR with (MINUTE * 60).
    by rewrite Z.rem_mul_r, Z.mul_comm, Z.mod_add, Z.mod_mod by done. }
  unfold_time. lia.
Qed.

Lemma naive_parts date hour minute :
  0 <= hour <= 23 -> 0 <= minute <= 59 ->
  let n := date * DAY + hour * HOUR + minute * MINUTE in
  naive_date n = date /\ naive_hour n = hour /\ naive_minute n = minute /\ n mod MINUTE = 0.
Proof.
  intros Hh Hm. unfold naive_date, naive_hour, naive_minute.
  assert (Ht : forall d x, 0 <= x < DAY -> (d * DAY + x) / DAY = d /\ (d * DAY + x) mod DAY = x).
  { intros d x Hx. split; [|rewrite Z.add_comm, Z.mod_add by done; by apply Z.mod_small].
    rewrite Z.add_comm, Z.div_add by done. by rewrite Z.div_small. }
  assert (Hu : forall d x, 0 <= x < HOUR -> (d * HOUR + x) / HOUR = d /\ (d * HOUR + x) mod HOUR = x).
  { intros d x Hx. split; [|rewrite Z.add_comm, Z.mod_add by done; by apply Z.mod_small].
    rewrite Z.add_comm, Z.div_add by done. by rewrite Z.div_small. }
  cbv zeta. rewrite <- Z.add_assoc.
  destruct (Ht date (hour * HOUR + minute * MINUTE)) as [-> ->]; [unfold_time; lia|].
  destruct (Hu hour (minute * MINUTE)) as [-> _]; [unfold_time; lia|].
  replace (date * DAY + (hour * HOUR + minute * MINUTE))
    with ((date * 24 + hour) * HOUR + minute * MINUTE) by (unfold_time; lia).
  destruct (Hu (date * 24 + hour) (minute * MINUTE)) as [_ ->]; [unfold_time; lia|].
  split_and!; [done|done|by rewrite Z.div_mul by done|].
  replace ((date * 24 + hour) * HOUR + minute * MINUTE)
    with (((date * 24 + hour) * 60 + minute) * MINUTE) by (unfold_time; lia).
  by apply Z.mod_mul.
Qed.
End laws.
