(* ===== verification/CivilCalendar.v ===== *)
(** * A concrete calendar: an instance of the [Chrono] interface

    The proleptic Gregorian calendar and time zones given by a table of offset
    transitions.  It satisfies [ChronoLaws]; the examples and witnesses of the
    development evaluate on it. *)
From S2P Require Import Prelude RustStd CronExpr Chrono.
#[local] Open Scope string_scope.
#[local] Open Scope Z_scope.

Definition is_leap (y : Z) : bool :=
  (y mod 4 =? 0) && (negb (y mod 100 =? 0) || (y mod 400 =? 0)).

(** Day number of January 1st. *)
Definition year_start (y : Z) : Z :=
  365 * (y - 1970) + (y - 1969) / 4 - (y - 1901) / 100 + (y - 1601) / 400.

(** Days of the year before the first of the month. *)
Definition month_start (leap : bool) (m : Z) : Z :=
  let l := if leap then 1 else 0 in
  if m <=? 1 then 0 else if m =? 2 then 31 else
  l + (if m =? 3 then 59 else if m =? 4 then 90 else if m =? 5 then 120
       else if m =? 6 then 151 else if m =? 7 then 181 else if m =? 8 then 212
       else if m =? 9 then 243 else if m =? 10 then 273 else if m =? 11 then 304
       else if m =? 12 then 334 else 365).

Definition civil_year (n : Z) : Z :=
  let e := (400 * n + 719528 * 400) / 146097 in
  if year_start (e + 1) <=? n then e + 1 else if n <? year_start e then e - 1 else e.

Definition month_of (leap : bool) (doy : Z) : Z :=
  default 1 (head (filter (fun m => month_start leap m <= doy)
                    [12; 11; 10; 9; 8; 7; 6; 5; 4; 3; 2])).

Definition civil_month (n : Z) : Z :=
  let y := civil_year n in month_of (is_leap y) (n - year_start y).

Definition civil_day (n : Z) : Z :=
  let y := civil_year n in n - year_start y - month_start (is_leap y) (civil_month n) + 1.

Definition civil_min_year : Z := -262143.
Definition civil_max_year : Z := 262142.

Definition civil_ymd (y m d : Z) : option Z :=
  if (civil_min_year <=? y) && (y <=? civil_max_year + 1) && (1 <=? m) && (m <=? 12) && (1 <=? d)
     && (d <=? month_start (is_leap y) (m + 1) - month_start (is_leap y) m)
  then Some (year_start y + month_start (is_leap y) m + d - 1) else None.

(** A zone: the offset before the first transition, then each transition
    instant with the offset it starts. *)
Record zone : Type := mkZone { zone_base : Z; zone_transitions : list (Z * Z) }.

Definition zone_offset (z : zone) (instant : Z) : Z :=
  fold_left (fun o '(at_, o') => if at_ <=? instant then o' else o)
    (zone_transitions z) (zone_base z).

Definition zone_candidates (z : zone) (n : Z) : list Z :=
  filter (fun o => zone_offset z (n - o) = o)
    (dedup (merge_sort Z.ge (zone_base z :: (zone_transitions z).*2))).

Definition zone_local (z : zone) (n : Z) : LocalResult :=
  match zone_candidates z n with
  | [] => NoLocal
  | [o] => Single o
  | o :: o' :: _ => if o' <=? o then Ambiguous o o' else Ambiguous o' o
  end.

Definition utc : zone := mkZone 0 [].
Definition shanghai : zone := mkZone (8 * HOUR) [].
(** 2024: clocks go forward on March 10th at 07:00 UTC, back on November 3rd at
    06:00 UTC. *)
Definition new_york : zone :=
  mkZone (-5 * HOUR) [(1710054000 * SECOND, -4 * HOUR); (1730613600 * SECOND, -5 * HOUR)].

(** A number of at least [w] digits. *)
Definition pad (w : nat) (v : Z) : string :=
  let s := pretty (Z.abs v) in
  (if v <? 0 then "-" else "") +:+
  String.concat "" (replicate (w - String.length s) "0") +:+ s.

#[export] Instance civil : Chrono := {
  tz := zone;
  utc_zone := utc;
  parse_zone := fun name =>
    if decide (name = "UTC") then Some utc
    else if decide (name = "Asia/Shanghai") then Some shanghai
    else if decide (name = "America/New_York") then Some new_york else None;
  host_zone := Some "UTC";
  utc_offset := zone_offset;
  offset_from_local_datetime := zone_local;
  nd_year := civil_year;
  nd_month := civil_month;
  nd_day := civil_day;
  num_days_from_sunday := fun n => (n + 4) mod 7;
  from_ymd_opt := civil_ymd;
  with_day := fun n d => civil_ymd (civil_year n) (civil_month n) d;
  checked_add_months := fun n k =>
    let m := civil_month n - 1 + k in
    let y := civil_year n + m / 12 in
    let m := m mod 12 + 1 in
    d ← (if (civil_min_year <=? y) && (y <=? civil_max_year + 1) then
           Some (Z.min (civil_day n) (month_start (is_leap y) (m + 1) - month_start (is_leap y) m))
         else None);
    civil_ymd y m d;
  date_to_string := fun n =>
    pad 4 (civil_year n) +:+ "-" +:+ pad 2 (civil_month n) +:+ "-" +:+ pad 2 (civil_day n);
  date_in_range := fun n =>
    (civil_min_year <=? civil_year n) && (civil_year n <=? civil_max_year);
  min_year := civil_min_year;
  max_year := civil_max_year
}.

(** [%Y-%m-%d] of a year with four digits *)
Definition civil_parse_date (s : string) : option Z :=
  match split "-" s with
  | [y; m; d] =>
    y ← digits y; m ← digits m; d ← digits d; civil_ymd y m d
  | _ => None
  end.

(** [2024-03-09T12:00:00Z], with as many fraction digits as the instant needs *)
Definition civil_rfc3339 (instant : Z) : string :=
  let nanos := instant mod SECOND in
  let fraction :=
    if nanos =? 0 then ""
    else if nanos mod 1000000 =? 0 then "." +:+ pad 3 (nanos / 1000000)
    else if nanos mod 1000 =? 0 then "." +:+ pad 6 (nanos / 1000)
    else "." +:+ pad 9 nanos in
  date_to_string (naive_date instant) +:+ "T" +:+ pad 2 (naive_hour instant) +:+ ":"
  +:+ pad 2 (naive_minute instant) +:+ ":" +:+ pad 2 (instant mod MINUTE / SECOND)
  +:+ fraction +:+ "Z".

Definition civil_parse_rfc3339 (s : string) : option Z :=
  '(date, time) ← split_once "T" s;
  '(clock, _) ← split_once "Z" time;
  date ← civil_parse_date date;
  match split ":" clock with
  | [h; m; sec] =>
    h ← digits h; m ← digits m;
    let '(whole, fraction) := default (sec, "") (split_once "." sec) in
    sec ← digits whole;
    nanos ← (if decide (fraction = "") then Some 0
             else f ← digits fraction; Some (f * 10 ^ (9 - Z.of_nat (String.length fraction))));
    midnight ← and_hms_opt date h m;
    Some (midnight + sec * SECOND + nanos)
  | _ => None
  end.

Definition civil_format_nanos (instant : Z) : string :=
  date_to_string (naive_date instant) +:+ "T" +:+ pad 2 (naive_hour instant) +:+ ":"
  +:+ pad 2 (naive_minute instant) +:+ ":" +:+ pad 2 (instant mod MINUTE / SECOND)
  +:+ "." +:+ pad 9 (instant mod SECOND) +:+ "Z".

#[export] Instance civil_text : ChronoText := {
  parse_date_ymd := civil_parse_date;
  date_from_str := civil_parse_date;
  to_rfc3339 := civil_rfc3339;
  parse_rfc3339 := civil_parse_rfc3339;
  format_nanos := civil_format_nanos
}.

Example civil_text_roundtrip :
  let instant := 19791 * DAY + 12 * HOUR + 5 * MINUTE + 7 * SECOND + 25 * MILLI in
  civil_rfc3339 instant = "2024-03-09T12:05:07.025Z" /\
  civil_parse_rfc3339 (civil_rfc3339 instant) = Some instant.
Proof. split; vm_compute; reflexivity. Qed.

(** ** The laws *)

Lemma year_length y : year_start (y + 1) - year_start y = if is_leap y then 366 else 365.
Proof.
  unfold year_start, is_leap.
  destruct (y mod 4 =? 0) eqn:H4; destruct (y mod 100 =? 0) eqn:H100;
    destruct (y mod 400 =? 0) eqn:H400; simpl; bsimpl; Z.div_mod_to_equations; lia.
Qed.

Lemma civil_year_inv y n :
  year_start y <= n < year_start (y + 1) -> civil_year n = y.
Proof.
  unfold civil_year. intros Hy. set (e := (400 * n + 719528 * 400) / 146097).
  assert (He : y - 1 <= e <= y + 1).
  { unfold year_start in Hy. subst e. Z.div_mod_to_equations. lia. }
  assert (Hc : e = y - 1 \/ e = y \/ e = y + 1) by lia.
  pose proof (year_length (y + 1)). pose proof (year_length y).
  destruct Hc as [-> | [-> | ->]]; rewrite ?Z.sub_add, ?Z.add_simpl_r.
  - by rewrite (proj2 (Z.leb_le (year_start y) n)) by lia.
  - rewrite (proj2 (Z.leb_gt (year_start (y + 1)) n)), (proj2 (Z.ltb_ge n (year_start y))) by lia.
    done.
  - replace (year_start (y + 1 + 1) <=? n) with false
      by (symmetry; apply Z.leb_gt; destruct (is_leap (y + 1)); lia).
    rewrite (proj2 (Z.ltb_lt n (year_start (y + 1)))) by lia. lia.
Qed.

Ltac each_month m :=
  let H := fresh in
  assert (H : m = 1 \/ m = 2 \/ m = 3 \/ m = 4 \/ m = 5 \/ m = 6 \/ m = 7 \/ m = 8 \/ m = 9
              \/ m = 10 \/ m = 11 \/ m = 12) by lia;
  repeat (destruct H as [->|H]; [|]); try subst m.

Lemma month_start_bounds leap m :
  1 <= m <= 12 ->
  0 <= month_start leap m /\ 28 <= month_start leap (m + 1) - month_start leap m <= 31 /\
  month_start leap (m + 1) <= if leap then 366 else 365.
Proof. intros Hm. each_month m; destruct leap; vm_compute; intuition discriminate. Qed.

(** Every day of the year is in the month [month_of] says: checked by
    evaluation over the 366 days. *)
Definition month_table_ok (leap : bool) : bool :=
  forallb (fun doy => forallb (fun m =>
      negb ((month_start leap m <=? doy) && (doy <? month_start leap (m + 1)))
      || (month_of leap doy =? m)) (seqZ 1 12)) (seqZ 0 366).

Lemma month_of_inv leap m doy :
  1 <= m <= 12 -> month_start leap m <= doy < month_start leap (m + 1) ->
  month_of leap doy = m.
Proof.
  intros Hm Hd. assert (Hdoy : 0 <= doy < 366).
  { pose proof (month_start_bounds leap m Hm) as (? & ? & ?). destruct leap; lia. }
  assert (Ht : month_table_ok leap = true) by (destruct leap; vm_compute; reflexivity).
  unfold month_table_ok in Ht. rewrite forallb_forall in Ht.
  specialize (Ht doy ltac:(apply list_elem_of_In, elem_of_seqZ; lia)).
  rewrite forallb_forall in Ht.
  specialize (Ht m ltac:(apply list_elem_of_In, elem_of_seqZ; lia)).
  rewrite (proj2 (Z.leb_le _ _)), (proj2 (Z.ltb_lt _ _)) in Ht by lia. simpl in Ht. lia.
Qed.

Lemma civil_ymd_inv y m d n :
  civil_ymd y m d = Some n -> civil_year n = y /\ civil_month n = m /\ civil_day n = d.
Proof.
  unfold civil_ymd. intros Hn. repeat case_match; try done. bsimpl. simplify_eq.
  pose proof (month_start_bounds (is_leap y) m ltac:(lia)) as (? & ? & ?).
  pose proof (year_length y).
  assert (Hy : civil_year (year_start y + month_start (is_leap y) m + d - 1) = y).
  { apply civil_year_inv. destruct (is_leap y); lia. }
  assert (Hm : civil_month (year_start y + month_start (is_leap y) m + d - 1) = m).
  { unfold civil_month. rewrite Hy. apply month_of_inv; lia. }
  split_and!; [done|done|]. unfold civil_day. rewrite Hm, Hy. lia.
Qed.

Lemma civil_first_of_month y m :
  civil_min_year <= y <= civil_max_year + 1 -> 1 <= m <= 12 ->
  civil_ymd y m 1 = Some (year_start y + month_start (is_leap y) m).
Proof.
  intros Hy Hm. unfold civil_ymd.
  pose proof (month_start_bounds (is_leap y) m Hm) as (? & ? & ?).
  rewrite !(proj2 (Z.leb_le _ _)) by lia. simpl. f_equal. lia.
Qed.

Lemma month_after y m :
  1 <= m <= 12 ->
  year_start (if m =? 12 then y + 1 else y)
  + month_start (is_leap (if m =? 12 then y + 1 else y)) (if m =? 12 then 1 else m + 1)
  = year_start y + month_start (is_leap y) (m + 1).
Proof.
  intros Hm. destruct (m =? 12) eqn:Hm12; bsimpl; [subst|done].
  pose proof (year_length y).
  change (month_start (is_leap (y + 1)) 1) with 0.
  assert (month_start (is_leap y) (12 + 1) = if is_leap y then 366 else 365)
    by (by destruct (is_leap y)). lia.
Qed.

Lemma zone_candidates_offset z n o : o ∈ zone_candidates z n -> zone_offset z (n - o) = o.
Proof. unfold zone_candidates. intros Ho. by apply list_elem_of_filter in Ho as [? _]. Qed.

#[export] Instance civil_laws : ChronoLaws.
Proof.
  split; simpl.
  - intros z n o. unfold zone_local. intros Hl. apply zone_candidates_offset.
    destruct (zone_candidates z n) as [|o1 [|o2 l]]; repeat case_match; simplify_eq. set_solver.
  - intros z n o1 o2. unfold zone_local. intros Hl.
    pose proof (zone_candidates_offset z n) as Hc.
    destruct (zone_candidates z n) as [|a [|b l]]; [done|done|].
    destruct (b <=? a) eqn:Hab; simplify_eq; bsimpl;
      (split_and!; [apply Hc; set_solver|apply Hc; set_solver|lia]).
  - apply civil_ymd_inv.
  - intros y m Hy Hm. rewrite civil_first_of_month by (unfold civil_max_year in *; lia). done.
  - intros y m n n' Hn Hn'.
    assert (Hr : civil_min_year <= y <= civil_max_year + 1 /\ 1 <= m <= 12).
    { unfold civil_ymd in Hn. repeat case_match; try done; bsimpl; lia. }
    destruct Hr as [Hy Hm]. rewrite civil_first_of_month in Hn by done. injection Hn as <-.
    pose proof (month_start_bounds (is_leap y) m Hm) as (? & ? & ?).
    assert (Hn2 : n' = year_start y + month_start (is_leap y) (m + 1)).
    { rewrite <- month_after by done. unfold civil_ymd in Hn'.
      repeat case_match; try done; simplify_eq; lia. }
    split; [lia|]. intros d Hd. unfold civil_ymd.
    rewrite !(proj2 (Z.leb_le _ _)) by lia. done.
  - done.
  - intros n k r Hd Hk Hr.
    set (y := civil_year n + (civil_month n - 1 + k) / 12) in *.
    set (m := (civil_month n - 1 + k) mod 12 + 1) in *.
    assert (Hm : 1 <= m <= 12)
      by (subst m; pose proof (Z.mod_pos_bound (civil_month n - 1 + k) 12 ltac:(done)); lia).
    pose proof (month_start_bounds (is_leap y) m Hm) as (? & ? & ?).
    destruct ((civil_min_year <=? y) && (y <=? civil_max_year + 1)) eqn:Hy; [|done].
    cbn in Hr. rewrite Hd, Z.min_l in Hr by lia. done.
Qed.

Example civil_leap_day : civil_ymd 2024 2 29 = Some 19782.
Proof. reflexivity. Qed.
Example civil_epoch : (civil_year 0, civil_month 0, civil_day 0) = (1970, 1, 1).
Proof. reflexivity. Qed.
Example new_york_gap : zone_local new_york (19792 * DAY + 2 * HOUR + 30 * MINUTE) = NoLocal.
Proof. reflexivity. Qed.
Example new_york_fold :
  zone_local new_york (20030 * DAY + 1 * HOUR + 30 * MINUTE) = Ambiguous (-4 * HOUR) (-5 * HOUR).
Proof. reflexivity. Qed.
