(* ===== verification/CronNextFire.v ===== *)
(** * The schedule kernel: [mirri-core/src/cron.rs]

    [to_instant], [compute_next_fire], [interval_next_fire], [days_in_month],
    [compute_schedule_next_fire], [preview_fires] and [prev_fire_for], over the
    calendar interface of [Chrono].  The searches are proved equal to a first
    hit over the ordered list of candidate wall-clock times. *)
From S2P Require Import Prelude RustStd CronExpr Chrono.
#[local] Open Scope string_scope.
#[local] Open Scope Z_scope.

Definition SEARCH_HORIZON_DAYS : Z := 366 * 10.

Inductive IntervalUnit : Type := Day | Week | Month.

Record IntervalSpec : Type := mkIntervalSpec {
  every : Z;                (** [u32] *)
  unit : IntervalUnit;
  time : string;
  anchor_date : Z
}.

Inductive ScheduleSpec : Type :=
| Cron (cron : string)
| Interval (interval : IntervalSpec).

#[export] Instance IntervalUnit_eq_dec : EqDecision IntervalUnit.
Proof. solve_decision. Defined.
#[export] Instance IntervalSpec_eq_dec : EqDecision IntervalSpec.
Proof. solve_decision. Defined.

Definition parse_hhmm (time : string) : option (Z * Z) :=
  '(hour, minute) ← split_once ":" time;
  hour ← parse_u32 hour;
  minute ← parse_u32 minute;
  if (hour <=? 23) && (minute <=? 59) then Some (hour, minute) else None.

(** [IntervalSpec::validate] *)
Definition interval_validate (s : IntervalSpec) : result CronError ()%type :=
  if every s =? 0
  then Err (InvalidExpression "interval every must be a positive integer")
  else match parse_hhmm (time s) with
  | None => Err (InvalidExpression ("interval time must be HH:MM, got '" +:+ time s +:+ "'"))
  | Some _ => Ok ()
  end.

Section kernel.
Context `{Chrono}.

(** The walk back from a spring-forward gap, [fuel] minutes at most. *)
Fixpoint pre_gap_offset (fuel : nat) (z : tz) (pre_gap : Z) : option Z :=
  match fuel with
  | O => None
  | S fuel =>
    match offset_from_local_datetime z pre_gap with
    | Single offset | Ambiguous offset _ => Some offset
    | NoLocal => pre_gap_offset fuel z (pre_gap - MINUTE)
    end
  end.

Definition to_instant (z : tz) (naive : Z) : option Z :=
  match offset_from_local_datetime z naive with
  | Single offset => Some (naive - offset)
  | Ambiguous earliest _ => Some (naive - earliest)
  | NoLocal =>
    offset ← pre_gap_offset (24 * 60)%nat z (naive - MINUTE);
    Some (naive - offset)
  end.

Definition fire_after (z : tz) (from naive : Z) : option Z :=
  fire ← to_instant z naive;
  if from <? fire then Some fire else None.

(** Vixie semantics of the two day fields. *)
Definition day_matches (spec : CronSpec) (date : Z) : bool :=
  let day_of_month_matches := bool_decide (nd_day date ∈ values (cs_day_of_month spec)) in
  let day_of_week_matches :=
    bool_decide (num_days_from_sunday date ∈ values (cs_day_of_week spec)) in
  match restricted (cs_day_of_month spec), restricted (cs_day_of_week spec) with
  | true, true => day_of_month_matches || day_of_week_matches
  | _, _ => day_of_month_matches && day_of_week_matches
  end.

Definition month_matches (spec : CronSpec) (date : Z) : bool :=
  bool_decide (nd_month date ∈ values (cs_month spec)).

(** One day of [compute_next_fire]'s search; [and_hms_opt(..).expect(..)]
    cannot fail on the values of a parsed spec ([parse_well_formed]). *)
Definition search_day (spec : CronSpec) (z : tz) (from start first_day day : Z) : option Z :=
  let date := naive_date day in
  if month_matches spec date && day_matches spec date then
    let is_first_day := day =? first_day in
    let hour_floor := if is_first_day then naive_hour start else 0 in
    first_some (fun hour =>
      let minute_floor :=
        if is_first_day && (hour =? hour_floor) then naive_minute start else 0 in
      first_some (fun minute =>
          naive ← and_hms_opt date hour minute;
          fire_after z from naive)
        (filter (fun minute => minute_floor <= minute) (values (cs_minute spec))))
      (filter (fun hour => hour_floor <= hour) (values (cs_hour spec)))
  else None.

(** [while day <= horizon]: [fuel] bounds the number of days. *)
Fixpoint search_days (fuel : nat) (spec : CronSpec) (z : tz)
    (from start first_day horizon day : Z) : option Z :=
  match fuel with
  | O => None
  | S fuel =>
    if day <=? horizon then
      match search_day spec z from start first_day day with
      | Some fire => Some fire
      | None => search_days fuel spec z from start first_day horizon (day + DAY)
      end
    else None
  end.

Definition search_start (z : tz) (from : Z) : Z :=
  floor_minute (naive_local z from + MINUTE).

Definition compute_next_fire (cron : string) (from : Z) (z : tz) : result CronError Z :=
  spec ← parse cron;
  let start := search_start z from in
  let horizon := start + SEARCH_HORIZON_DAYS * DAY in
  let first_day := naive_date start * DAY in
  ok_or (search_days (Z.to_nat (SEARCH_HORIZON_DAYS + 2)) spec z from start first_day
           horizon first_day)
    (NoNextFire cron).

(** [.expect("a valid first-of-month")]: the default is never used for the
    years [chrono] represents ([days_in_month_bounds]). *)
Definition days_in_month (year month : Z) : Z :=
  let '(next_year, next_month) := if month =? 12 then (year + 1, 1) else (year, month + 1) in
  match from_ymd_opt next_year next_month 1, from_ymd_opt year month 1 with
  | Some first_of_next, Some first_of_this => first_of_next - first_of_this
  | _, _ => 0
  end.

(** The date [k] steps after the anchor, stepped from the previous date for
    days and weeks and from the anchor for months. *)
Definition interval_step (interval : IntervalSpec) (k last_date : Z) : option Z :=
  match unit interval with
  | Day => checked_add_days last_date (every interval)
  | Week => checked_add_days last_date (7 * every interval)
  | Month =>
    first ← with_day (anchor_date interval) 1;
    shifted ← checked_add_months first (wrap_u32 (k * every interval));
    with_day shifted (Z.min (nd_day (anchor_date interval))
                            (days_in_month (nd_year shifted) (nd_month shifted)))
  end.

Definition unit_name (u : IntervalUnit) : string :=
  match u with Day => "Day" | Week => "Week" | Month => "Month" end.

Definition interval_horizon : Z := SEARCH_HORIZON_DAYS + 366.

Fixpoint interval_walk (fuel : nat) (interval : IntervalSpec)
    (hour minute from : Z) (z : tz) (k last_date : Z) : result CronError Z :=
  match fuel with
  | O => Err (NoNextFire "")
  | S fuel =>
    naive ← ok_or (and_hms_opt last_date hour minute)
              (InvalidExpression "interval time out of range");
    match fire_after z from naive with
    | Some fire => Ok fire
    | None =>
      let k := k + 1 in
      if interval_horizon <? k
      then Err (NoNextFire ("interval every=" +:+ pretty (every interval) +:+ " "
                  +:+ unit_name (unit interval) +:+ " from "
                  +:+ date_to_string (anchor_date interval)))
      else
        last_date ← ok_or (interval_step interval k last_date) (NoNextFire "");
        interval_walk fuel interval hour minute from z k last_date
    end
  end.

Definition interval_next_fire (interval : IntervalSpec) (from : Z) (z : tz) : result CronError Z :=
  '(hour, minute) ← ok_or (parse_hhmm (time interval))
    (InvalidExpression ("interval time must be HH:MM, got '" +:+ time interval +:+ "'"));
  if every interval =? 0
  then Err (InvalidExpression "interval every must be a positive integer")
  else interval_walk (Z.to_nat (interval_horizon + 1)) interval hour minute from z
         0 (anchor_date interval).

Definition compute_schedule_next_fire (schedule : ScheduleSpec) (from : Z) (z : tz)
    : result CronError Z :=
  match schedule with
  | Cron cron => compute_next_fire cron from z
  | Interval interval => interval_next_fire interval from z
  end.

(** [preview_fires]'s loop over [0..count]. *)
Fixpoint preview_walk (schedule : ScheduleSpec) (z : tz) (count : nat) (cursor : Z) : list Z :=
  match count with
  | O => []
  | S count =>
    match compute_schedule_next_fire schedule cursor z with
    | Ok next => next :: preview_walk schedule z count next
    | Err _ => []
    end
  end.

Definition preview_fires (schedule : ScheduleSpec) (timezone : option string)
    (count : nat) (anchor : Z) : list Z :=
  match tz_parse timezone with
  | Err _ => []
  | Ok declared => preview_walk schedule (tz_resolve declared) count anchor
  end.

(** The candidates of one day, latest first. *)
Definition prev_day (spec : CronSpec) (z : tz) (now day : Z) : option Z :=
  if month_matches spec day && day_matches spec day then
    first_some (fun hour =>
      first_some (fun minute =>
          naive ← and_hms_opt day hour minute;
          instant ← to_instant z naive;
          if instant <=? now then Some instant else None)
        (merge_sort Z.ge (values (cs_minute spec))))
      (merge_sort Z.ge (values (cs_hour spec)))
  else None.

(** [for _ in 0..=SEARCH_HORIZON_DAYS] *)
Fixpoint prev_days (fuel : nat) (spec : CronSpec) (z : tz) (now day : Z) : option Z :=
  match fuel with
  | O => None
  | S fuel =>
    match prev_day spec z now day with
    | Some instant => Some instant
    | None => day ← checked_add_days day (-1); prev_days fuel spec z now day
    end
  end.

Definition prev_cron_fire (cron : string) (now : Z) (z : tz) : option Z :=
  spec ← result_ok (parse cron);
  prev_days (Z.to_nat (SEARCH_HORIZON_DAYS + 1)) spec z now (local_date z now).

Fixpoint prev_interval_walk (fuel : nat) (interval : IntervalSpec) (now : Z) (z : tz)
    (cursor : Z) (last : option Z) : option Z :=
  match fuel with
  | O => last
  | S fuel =>
    match interval_next_fire interval cursor z with
    | Err _ => last
    | Ok next =>
      if now <? next then last
      else if next =? now then Some next
      else prev_interval_walk fuel interval now z next (Some next)
    end
  end.

Definition prev_interval_fire (interval : IntervalSpec) (now : Z) (z : tz) : option Z :=
  midnight ← and_hms_opt (anchor_date interval) 0 0;
  start ← to_instant z midnight;
  prev_interval_walk (Z.to_nat interval_horizon) interval now z (start - MINUTE) None.

Definition prev_fire_for (schedule : ScheduleSpec) (timezone : option string) (now : Z)
    : option Z :=
  declared ← result_ok (tz_parse timezone);
  let z := tz_resolve declared in
  match schedule with
  | Cron cron => prev_cron_fire cron now z
  | Interval interval => prev_interval_fire interval now z
  end.
End kernel.

(** ** The search as a first hit over ordered slots *)

Section search.
Context `{Chrono}.

(** A minute of the local calendar the expression stands for. *)
Definition day_selected (spec : CronSpec) (date : Z) : Prop :=
  let by_month := nd_day date ∈ values (cs_day_of_month spec) in
  let by_week := num_days_from_sunday date ∈ values (cs_day_of_week spec) in
  if restricted (cs_day_of_month spec) && restricted (cs_day_of_week spec)
  then by_month \/ by_week else by_month /\ by_week.

Definition cron_matches (spec : CronSpec) (n : Z) : Prop :=
  n mod MINUTE = 0 /\
  nd_month (naive_date n) ∈ values (cs_month spec) /\ day_selected spec (naive_date n) /\
  naive_hour n ∈ values (cs_hour spec) /\ naive_minute n ∈ values (cs_minute spec).

Lemma day_matches_spec spec date : day_matches spec date = true <-> day_selected spec date.
Proof.
  unfold day_matches, day_selected.
  destruct (restricted (cs_day_of_month spec)), (restricted (cs_day_of_week spec)); simpl;
    by rewrite ?orb_true_iff, ?andb_true_iff, !bool_decide_eq_true.
Qed.

Lemma month_matches_spec spec date :
  month_matches spec date = true <-> nd_month date ∈ values (cs_month spec).
Proof. apply bool_decide_eq_true. Qed.

Definition minute_slots (spec : CronSpec) (floor date hour : Z) : list Z :=
  (fun minute => date * DAY + hour * HOUR + minute * MINUTE)
    <$> filter (fun minute => floor <= minute) (values (cs_minute spec)).

Definition hour_floor_of (start first_day day : Z) : Z :=
  if day =? first_day then naive_hour start else 0.

Definition minute_floor_of (start first_day day hour : Z) : Z :=
  if (day =? first_day) && (hour =? hour_floor_of start first_day day)
  then naive_minute start else 0.

(** The candidates of the day that begins at [day], in the order tried. *)
Definition day_slots (spec : CronSpec) (start first_day day : Z) : list Z :=
  if month_matches spec (naive_date day) && day_matches spec (naive_date day) then
    filter (fun hour => hour_floor_of start first_day day <= hour) (values (cs_hour spec))
      ≫= fun hour =>
        minute_slots spec (minute_floor_of start first_day day hour) (naive_date day) hour
  else [].

Context (spec : CronSpec) (Hwf : spec_wf spec).

Lemma hour_range h : h ∈ values (cs_hour spec) -> 0 <= h <= 23.
Proof. destruct (wf_hour _ Hwf) as [_ Hf]. rewrite Forall_forall in Hf. auto. Qed.

Lemma minute_range m : m ∈ values (cs_minute spec) -> 0 <= m <= 59.
Proof. destruct (wf_minute _ Hwf) as [_ Hf]. rewrite Forall_forall in Hf. auto. Qed.

Lemma search_day_slots z from start first_day day :
  search_day spec z from start first_day day
  = first_some (fire_after z from) (day_slots spec start first_day day).
Proof.
  unfold search_day, day_slots. destruct (_ && _); [|done].
  rewrite first_some_bind. apply first_some_ext. intros hour Hh.
  apply list_elem_of_filter in Hh as [_ Hh]. apply hour_range in Hh.
  unfold minute_slots. rewrite first_some_fmap. apply first_some_ext. intros minute Hm.
  apply list_elem_of_filter in Hm as [_ Hm]. apply minute_range in Hm.
  by rewrite and_hms_some by done.
Qed.

Lemma elem_of_day_slots start first_day date n :
  start mod MINUTE = 0 -> first_day = naive_date start * DAY ->
  n ∈ day_slots spec start first_day (date * DAY) <->
  cron_matches spec n /\ naive_date n = date /\ (date = naive_date start -> start <= n).
Proof.
  intros Hs ->. unfold day_slots, cron_matches. rewrite <- month_matches_spec, <- day_matches_spec.
  assert (Hd : naive_date (date * DAY) = date) by (unfold naive_date; by rewrite Z.div_mul).
  rewrite Hd. destruct (naive_split start Hs) as (Hst & Hsh & Hsm).
  assert (Hfd : date * DAY = naive_date start * DAY <-> date = naive_date start)
    by (unfold_time; lia).
  split.
  - destruct (_ && _) eqn:Hdm; [|set_solver]. apply andb_true_iff in Hdm as [Hmo Hda].
    intros Hn. apply list_elem_of_bind in Hn as (h & Hn & Hh).
    apply list_elem_of_fmap in Hn as (m & -> & Hm).
    apply list_elem_of_filter in Hh as [Hhf Hh]. apply list_elem_of_filter in Hm as [Hmf Hm].
    pose proof (hour_range h Hh) as Hhr. pose proof (minute_range m Hm) as Hmr.
    destruct (naive_parts date h m Hhr Hmr) as (E1 & E2 & E3 & E4).
    rewrite E1, E2, E3. split_and!; try done. intros He.
    assert (Ef : (date * DAY =? naive_date start * DAY) = true) by (apply Z.eqb_eq; tauto).
    unfold minute_floor_of, hour_floor_of in Hmf, Hhf. rewrite Ef in Hmf, Hhf. simpl in Hmf.
    subst date. destruct (h =? naive_hour start) eqn:Ehh; bsimpl; unfold_time; lia.
  - intros ((Hal & Hmo & Hda & Hh & Hm) & Hdn & Hge). rewrite Hdn in Hmo, Hda.
    rewrite Hmo, Hda. simpl.
    destruct (naive_split n Hal) as (Hnn & Hnh & Hnm).
    apply list_elem_of_bind. exists (naive_hour n). split.
    + apply list_elem_of_fmap. exists (naive_minute n). split; [by rewrite <- Hdn|].
      apply list_elem_of_filter. split; [|done]. unfold minute_floor_of, hour_floor_of.
      destruct (date * DAY =? _) eqn:Ed; simpl; [|lia]. bsimpl.
      destruct (naive_hour n =? _) eqn:Eh; [|lia]. bsimpl.
      specialize (Hge ltac:(tauto)). rewrite Hdn in Hnn. unfold_time. lia.
    + apply list_elem_of_filter. split; [|done]. unfold hour_floor_of.
      destruct (date * DAY =? _) eqn:Ed; simpl; [|lia]. bsimpl.
      specialize (Hge ltac:(tauto)). rewrite Hdn in Hnn. unfold_time. lia.
Qed.

Lemma day_slots_increasing start first_day day :
  increasing (day_slots spec start first_day day).
Proof.
  unfold day_slots. destruct (_ && _); [|constructor].
  apply (increasing_bind _ (fun h => naive_date day * DAY + h * HOUR)).
  - intros a b ?. unfold_time. lia.
  - intros h _. apply increasing_fmap; [intros; unfold_time; lia|].
    apply increasing_filter, (wf_minute _ Hwf).
  - intros h x _ Hx. apply list_elem_of_fmap in Hx as (m & -> & Hm).
    apply list_elem_of_filter in Hm as [_ Hm]. apply minute_range in Hm. unfold_time. lia.
  - apply increasing_filter, (wf_hour _ Hwf).
Qed.

Lemma day_slots_within start first_day date n :
  start mod MINUTE = 0 -> first_day = naive_date start * DAY ->
  n ∈ day_slots spec start first_day (date * DAY) -> date * DAY <= n < (date + 1) * DAY.
Proof.
  intros Hs Hf Hn. apply elem_of_day_slots in Hn as ((Hal & _) & <- & _); [|done|done].
  destruct (naive_split n Hal) as (Hnn & ? & ?). unfold_time. lia.
Qed.

(** The days the loop visits, as dates. *)
Definition search_dates (start : Z) : list Z :=
  seqZ (naive_date start) (SEARCH_HORIZON_DAYS + 1).

Lemma search_days_slots z from start k :
  start mod MINUTE = 0 -> 0 <= k <= SEARCH_HORIZON_DAYS + 1 ->
  search_days (Z.to_nat (SEARCH_HORIZON_DAYS + 2 - k)) spec z from start
    (naive_date start * DAY) (start + SEARCH_HORIZON_DAYS * DAY) ((naive_date start + k) * DAY)
  = first_some (fire_after z from)
      (seqZ (naive_date start + k) (SEARCH_HORIZON_DAYS + 1 - k)
         ≫= fun date => day_slots spec start (naive_date start * DAY) (date * DAY)).
Proof.
  intros Hs Hk. destruct (naive_split start Hs) as (Hst & Hsh & Hsm).
  remember (Z.to_nat (SEARCH_HORIZON_DAYS + 1 - k)) as fuel eqn:Hfuel.
  revert k Hk Hfuel. induction fuel as [|fuel IH]; intros k Hk Hfuel.
  - assert (k = SEARCH_HORIZON_DAYS + 1) as -> by lia. rewrite Z.sub_diag.
    replace (Z.to_nat _) with 1%nat by (unfold SEARCH_HORIZON_DAYS; lia).
    rewrite seqZ_nil by lia. simpl. rewrite (proj2 (Z.leb_gt _ _)); [done|].
    unfold_time. lia.
  - replace (Z.to_nat (SEARCH_HORIZON_DAYS + 2 - k)) with (S (Z.to_nat (SEARCH_HORIZON_DAYS + 2 - (k + 1))))
      by lia.
    rewrite seqZ_cons by lia. rewrite bind_cons, first_some_app. cbn [search_days].
    rewrite (proj2 (Z.leb_le _ _)) by (unfold_time; lia).
    rewrite search_day_slots. destruct (first_some _ (day_slots _ _ _ _)); [done|].
    replace ((naive_date start + k) * DAY + DAY) with ((naive_date start + (k + 1)) * DAY) by lia.
    rewrite IH by lia. do 2 f_equal. f_equal; lia.
Qed.

(** A slot the search considers: matching, at or after the start, on one of
    the days of the horizon. *)
Definition in_search (start n : Z) : Prop :=
  cron_matches spec n /\ start <= n /\
  naive_date n <= naive_date start + SEARCH_HORIZON_DAYS.

Lemma search_slots_spec start :
  start mod MINUTE = 0 ->
  let slots := search_dates start
    ≫= fun date => day_slots spec start (naive_date start * DAY) (date * DAY) in
  increasing slots /\ forall n, n ∈ slots <-> in_search start n.
Proof.
  intros Hs slots. split.
  - apply (increasing_bind _ (fun date => date * DAY)).
    + intros; unfold_time; lia.
    + intros; apply day_slots_increasing.
    + intros date x _ Hx. by eapply day_slots_within.
    + apply increasing_seqZ.
  - intros n. unfold slots, search_dates, in_search. rewrite list_elem_of_bind.
    destruct (naive_split start Hs) as (Hst & Hsh & Hsm). split.
    + intros (date & Hn & Hd). apply elem_of_seqZ in Hd.
      apply elem_of_day_slots in Hn as (Hm & Hdn & Hge); [|done|done].
      split; [done|]. destruct (naive_split n (proj1 Hm)) as (Hnn & Hnh & Hnm).
      split; [|lia]. destruct (decide (date = naive_date start)); [auto|].
      unfold_time. lia.
    + intros (Hm & Hge & Hhor). exists (naive_date n).
      destruct (naive_split n (proj1 Hm)) as (Hnn & Hnh & Hnm). split.
      * apply elem_of_day_slots; [done|done|]. auto.
      * apply elem_of_seqZ. unfold_time. lia.
Qed.

Lemma search_total_spec z from start b :
  start mod MINUTE = 0 ->
  search_days (Z.to_nat (SEARCH_HORIZON_DAYS + 2)) spec z from start (naive_date start * DAY)
    (start + SEARCH_HORIZON_DAYS * DAY) (naive_date start * DAY) = b <->
  match b with
  | Some fire => exists n, in_search start n /\ fire_after z from n = Some fire /\
      forall n', in_search start n' -> n' < n -> fire_after z from n' = None
  | None => forall n, in_search start n -> fire_after z from n = None
  end.
Proof.
  intros Hs. pose proof (search_days_slots z from start 0 Hs ltac:(done)) as Hd.
  rewrite Z.add_0_r, !Z.sub_0_r in Hd. rewrite Hd. clear Hd.
  destruct (search_slots_spec start Hs) as [Hinc Hin]. fold (search_dates start).
  destruct b as [fire|].
  - rewrite first_some_least by done. by setoid_rewrite Hin.
  - rewrite first_some_none_elem. by setoid_rewrite Hin.
Qed.
End search.

(** ** Interval schedules *)

Section interval_facts.
Context `{Chrono}.

(** The [k]-th date of an interval schedule, counted from the anchor: the
    reference the stepping loop is compared with. *)
Definition interval_date (s : IntervalSpec) (k : Z) : option Z :=
  match unit s with
  | Day => Some (anchor_date s + k * every s)
  | Week => Some (anchor_date s + k * (7 * every s))
  | Month => if k =? 0 then Some (anchor_date s) else interval_step s k 0
  end.

Lemma interval_date_0 s : interval_date s 0 = Some (anchor_date s).
Proof. unfold interval_date. destruct (unit s); [f_equal; lia|f_equal; lia|done]. Qed.

Lemma interval_step_date s k date date' :
  0 <= k -> interval_date s k = Some date -> interval_step s (k + 1) date = Some date' ->
  interval_date s (k + 1) = Some date'.
Proof.
  unfold interval_date, interval_step, checked_add_days. intros Hk Hd Hs.
  destruct (unit s); simplify_eq.
  - destruct (date_in_range _); simplify_eq. f_equal. lia.
  - destruct (date_in_range _); simplify_eq. f_equal. lia.
  - rewrite (proj2 (Z.eqb_neq (k + 1) 0)) by lia. exact Hs.
Qed.

(** The slot of a date, as the walk tries it. *)
Definition interval_slot (s : IntervalSpec) (hour minute k : Z) : option Z :=
  date ← interval_date s k; Some (date * DAY + hour * HOUR + minute * MINUTE).

(** The walk has no step after [k]: the horizon, or the end of the calendar. *)
Definition walk_ends (s : IntervalSpec) (k : Z) : Prop :=
  k = interval_horizon \/
  exists date, interval_date s k = Some date /\ interval_step s (k + 1) date = None.

Lemma interval_walk_spec fuel s hour minute from z k date r :
  0 <= hour <= 23 -> 0 <= minute <= 59 -> 0 <= k ->
  fuel = Z.to_nat (interval_horizon + 1 - k) -> k <= interval_horizon ->
  interval_date s k = Some date ->
  interval_walk fuel s hour minute from z k date = r ->
  match r with
  | Ok fire => exists j n, k <= j <= interval_horizon /\
      interval_slot s hour minute j = Some n /\ fire_after z from n = Some fire /\
      forall j' n', k <= j' < j -> interval_slot s hour minute j' = Some n' ->
        fire_after z from n' = None
  | Err e => (exists msg, e = NoNextFire msg) /\ exists j, k <= j <= interval_horizon /\
      walk_ends s j /\
      forall j' n', k <= j' <= j -> interval_slot s hour minute j' = Some n' ->
        fire_after z from n' = None
  end.
Proof.
  intros Hh Hm. revert k date r. induction fuel as [|fuel IH]; intros k date r Hk Hf Hkh Hd.
  { lia. }
  cbn [interval_walk]. rewrite and_hms_some by done. cbn [mbind result_bind ok_or].
  assert (Hslot : interval_slot s hour minute k = Some (date * DAY + hour * HOUR + minute * MINUTE))
    by (unfold interval_slot; by rewrite Hd).
  destruct (fire_after z from _) as [fire|] eqn:Hfire.
  { intros <-. exists k. eexists. split; [lia|]. split; [exact Hslot|]. split; [done|].
    intros; lia. }
  assert (Hend : walk_ends s k -> exists j, k <= j <= interval_horizon /\ walk_ends s j /\
    forall j' n', k <= j' <= j -> interval_slot s hour minute j' = Some n' ->
      fire_after z from n' = None).
  { intros He. exists k. split; [lia|]. split; [exact He|]. intros j' n' Hj' Hn'.
    replace j' with k in Hn' by lia. congruence. }
  destruct (interval_horizon <? k + 1) eqn:Hlast; bsimpl.
  { intros <-. split; [eauto|]. apply Hend. left. lia. }
  destruct (interval_step s (k + 1) date) as [date'|] eqn:Hstep; simpl.
  2: { intros <-. split; [eauto|]. apply Hend. right. eauto. }
  intros Hr. specialize (IH (k + 1) date' r ltac:(lia) ltac:(lia) ltac:(lia)).
  specialize (IH (interval_step_date _ _ _ _ Hk Hd Hstep) Hr).
  destruct r as [fire|e].
  2: { destruct IH as (He & j & Hj & Hends & Hmin). split; [exact He|].
       exists j. split; [lia|]. split; [exact Hends|]. intros j' n' Hj' Hn'.
       destruct (decide (j' = k)) as [->|]; [congruence|]. apply (Hmin j'); [lia|exact Hn']. }
  destruct IH as (j & n & Hj & Hn & Hfn & Hmin). exists j, n. split; [lia|].
  split; [exact Hn|]. split; [exact Hfn|]. intros j' n' Hj' Hn'. destruct (decide (j' = k)) as [->|]; [congruence|].
  apply (Hmin j'); [lia|exact Hn'].
Qed.

Lemma parse_hhmm_range text hour minute :
  parse_hhmm text = Some (hour, minute) -> 0 <= hour <= 23 /\ 0 <= minute <= 59.
Proof.
  unfold parse_hhmm. intros Hp. apply bind_Some in Hp as ([a b] & _ & Hp).
  apply bind_Some in Hp as (h & Hh & Hp). apply bind_Some in Hp as (m & Hm & Hp).
  apply parse_u32_range in Hh. apply parse_u32_range in Hm.
  destruct (_ && _) eqn:Hb; [|done]. simplify_eq. bsimpl. lia.
Qed.

(** The walk of a well-formed interval, from its anchor. *)
Lemma interval_next_fire_walk s from z hour minute :
  parse_hhmm (time s) = Some (hour, minute) -> every s <> 0 ->
  match interval_next_fire s from z with
  | Ok fire => exists j n, 0 <= j <= interval_horizon /\
      interval_slot s hour minute j = Some n /\ fire_after z from n = Some fire /\
      forall j' n', 0 <= j' < j -> interval_slot s hour minute j' = Some n' ->
        fire_after z from n' = None
  | Err e => (exists msg, e = NoNextFire msg) /\ exists j, 0 <= j <= interval_horizon /\
      walk_ends s j /\
      forall j' n', 0 <= j' <= j -> interval_slot s hour minute j' = Some n' ->
        fire_after z from n' = None
  end.
Proof.
  intros Hp He. destruct (parse_hhmm_range _ _ _ Hp) as [Hh Hm].
  unfold interval_next_fire. rewrite Hp, (proj2 (Z.eqb_neq _ _) He). cbn [ok_or mbind result_bind].
  eapply (interval_walk_spec _ s hour minute from z 0 (anchor_date s)); try done.
  apply interval_date_0.
Qed.

Lemma interval_next_fire_inv s from z fire :
  interval_next_fire s from z = Ok fire -> exists n, fire_after z from n = Some fire.
Proof.
  intros Hr. pose proof Hr as Hw. unfold interval_next_fire in Hr.
  apply bind_ok in Hr as ([hour minute] & Hp & Hr). apply ok_or_ok in Hp.
  destruct (every s =? 0) eqn:He; [done|]. bsimpl.
  pose proof (interval_next_fire_walk s from z hour minute Hp He) as Hs. rewrite Hw in Hs.
  destruct Hs as (j & n & _ & _ & Hf & _). eauto.
Qed.
End interval_facts.

(** ** Every schedule fires strictly later *)

Section progress.
Context `{Chrono}.

Lemma fire_after_later z from n fire : fire_after z from n = Some fire -> from < fire.
Proof.
  unfold fire_after. intros Hf. apply bind_Some in Hf as (f & _ & Hf).
  destruct (from <? f) eqn:E; [|done]. bsimpl. by simplify_eq.
Qed.

Lemma fire_after_Some z from n fire :
  fire_after z from n = Some fire <-> to_instant z n = Some fire /\ from < fire.
Proof.
  unfold fire_after. destruct (to_instant z n) as [f|]; simpl; [|naive_solver].
  destruct (from <? f) eqn:E; bsimpl; naive_solver lia.
Qed.

Lemma fire_after_None z from n :
  fire_after z from n = None <-> forall f, to_instant z n = Some f -> f <= from.
Proof.
  unfold fire_after. destruct (to_instant z n) as [f|]; simpl; [|naive_solver].
  destruct (from <? f) eqn:E; bsimpl; split; intros Hx; try done; [|naive_solver lia].
  specialize (Hx f eq_refl). lia.
Qed.

Lemma search_start_aligned z from : search_start z from mod MINUTE = 0.
Proof. apply floor_minute_aligned. Qed.

Lemma compute_next_fire_later cron from z fire :
  compute_next_fire cron from z = Ok fire -> from < fire.
Proof.
  unfold compute_next_fire. intros Hr. apply bind_ok in Hr as (spec & Hp & Hr).
  apply ok_or_ok in Hr.
  apply (search_total_spec spec (parse_wf _ _ Hp) z from _ (Some fire)) in Hr;
    [|apply search_start_aligned].
  destruct Hr as (n & _ & Hf & _). by eapply fire_after_later.
Qed.

Lemma compute_schedule_next_fire_later schedule from z fire :
  compute_schedule_next_fire schedule from z = Ok fire -> from < fire.
Proof.
  destruct schedule; simpl; [apply compute_next_fire_later|].
  intros Hr. apply interval_next_fire_inv in Hr as (n & Hf).
  by eapply fire_after_later.
Qed.

Lemma preview_walk_above schedule z count cursor :
  Forall (fun f => cursor < f) (preview_walk schedule z count cursor).
Proof.
  revert cursor. induction count as [|count IH]; intros cursor; simpl; [done|].
  destruct (compute_schedule_next_fire _ _ _) as [next|] eqn:Hn; [|done].
  apply compute_schedule_next_fire_later in Hn. constructor; [done|].
  eapply Forall_impl; [apply IH|]. simpl. lia.
Qed.

Lemma preview_walk_increasing schedule z count cursor :
  increasing (preview_walk schedule z count cursor).
Proof.
  revert cursor. induction count as [|count IH]; intros cursor; simpl; [constructor|].
  destruct (compute_schedule_next_fire _ _ _) as [next|] eqn:Hn; constructor; [apply IH|].
  apply preview_walk_above.
Qed.

Lemma preview_walk_take schedule z n m cursor :
  (n <= m)%nat ->
  take n (preview_walk schedule z m cursor) = preview_walk schedule z n cursor.
Proof.
  revert m cursor. induction n as [|n IH]; intros m cursor Hnm; [done|].
  destruct m as [|m]; [lia|]. simpl.
  destruct (compute_schedule_next_fire _ _ _); simpl; [|done]. f_equal. apply IH. lia.
Qed.

Lemma preview_walk_length schedule z n cursor :
  (length (preview_walk schedule z n cursor) <= n)%nat.
Proof.
  revert cursor. induction n as [|n IH]; intros cursor; simpl; [lia|].
  destruct (compute_schedule_next_fire _ _ _); simpl; [|lia]. specialize (IH a). lia.
Qed.
End progress.

#[export] Hint Resolve compute_next_fire_later compute_schedule_next_fire_later : mirri.

(** ** The search into the past *)

Section past.
Context `{Chrono} (spec : CronSpec) (Hwf : spec_wf spec).

Definition past_candidate (z : tz) (now n : Z) : option Z :=
  instant ← to_instant z n; if instant <=? now then Some instant else None.

Lemma past_candidate_Some z now n i :
  past_candidate z now n = Some i <-> to_instant z n = Some i /\ i <= now.
Proof.
  unfold past_candidate. destruct (to_instant z n) as [f|]; simpl; [|naive_solver].
  destruct (f <=? now) eqn:E; bsimpl; naive_solver lia.
Qed.

Lemma past_candidate_None z now n :
  past_candidate z now n = None <-> forall i, to_instant z n = Some i -> now < i.
Proof.
  unfold past_candidate. destruct (to_instant z n) as [f|]; simpl; [|naive_solver].
  destruct (f <=? now) eqn:E; bsimpl; split; intros Hx; try done; [|naive_solver lia].
  specialize (Hx f eq_refl). lia.
Qed.

(** Every slot of a day: the day's midnight as the start. *)
Definition whole_day (date : Z) : list Z :=
  day_slots spec (date * DAY) (date * DAY) (date * DAY).

Lemma midnight_parts date :
  naive_date (date * DAY) = date /\ naive_hour (date * DAY) = 0 /\
  naive_minute (date * DAY) = 0 /\ (date * DAY) mod MINUTE = 0.
Proof.
  pose proof (naive_parts date 0 0 ltac:(lia) ltac:(lia)) as Hp. cbv zeta in Hp.
  by rewrite !Z.mul_0_l, !Z.add_0_r in Hp.
Qed.

Lemma elem_of_whole_day date n :
  n ∈ whole_day date <-> cron_matches spec n /\ naive_date n = date.
Proof.
  unfold whole_day. destruct (midnight_parts date) as (Hd & _ & _ & Hal).
  rewrite (elem_of_day_slots spec Hwf (date * DAY) (date * DAY)); [|done|by rewrite Hd].
  rewrite Hd. split; [tauto|]. intros (Hm & Hn). split_and!; [done|done|]. intros _.
  destruct (naive_split n (proj1 Hm)) as (Hnn & ? & ?). unfold_time. lia.
Qed.

Lemma prev_day_slots z now date :
  prev_day spec z now date = first_some (past_candidate z now) (reverse (whole_day date)).
Proof.
  unfold prev_day, whole_day, day_slots.
  destruct (midnight_parts date) as (Hd & H0 & M0 & _).
  rewrite Hd. destruct (_ && _); [|done].
  rewrite !merge_sort_ge_increasing by apply Hwf.
  rewrite <- bind_reverse, first_some_bind.
  assert (Hh0 : forall h, h ∈ values (cs_hour spec) -> 0 <= h) by (intros h Hh;
    pose proof (hour_range spec Hwf h Hh); lia).
  assert (Hm0 : forall m, m ∈ values (cs_minute spec) -> 0 <= m) by (intros m Hm;
    pose proof (minute_range spec Hwf m Hm); lia).
  assert (Hz : hour_floor_of (date * DAY) (date * DAY) (date * DAY) = 0 /\
               forall h, minute_floor_of (date * DAY) (date * DAY) (date * DAY) h = 0).
  { unfold minute_floor_of, hour_floor_of. rewrite !Z.eqb_refl, H0, M0. split; [done|].
    intros h. by destruct (_ && _). }
  destruct Hz as [-> Hmf].
  rewrite (filter_all_id _ (values (cs_hour spec))) by auto.
  apply first_some_ext. intros hour Hh. rewrite elem_of_reverse in Hh.
  unfold minute_slots. rewrite Hmf, (filter_all_id _ (values (cs_minute spec))) by auto.
  rewrite <- fmap_reverse, first_some_fmap. apply first_some_ext. intros minute Hm.
  rewrite elem_of_reverse in Hm.
  by rewrite and_hms_some by eauto using hour_range, minute_range.
Qed.

Lemma prev_days_spec fuel z now date i :
  prev_days fuel spec z now date = Some i ->
  exists j, 0 <= j /\ prev_day spec z now (date - j) = Some i /\
    forall j', 0 <= j' < j -> prev_day spec z now (date - j') = None.
Proof.
  revert date. induction fuel as [|fuel IH]; intros date; simpl; [done|].
  destruct (prev_day spec z now date) as [i'|] eqn:Hp.
  { intros [= ->]. exists 0. rewrite Z.sub_0_r. split_and!; [lia|done|lia]. }
  unfold checked_add_days. destruct (date_in_range _); [|done]. simpl.
  intros Hr. apply IH in Hr as (j & Hj & Hd & Hmin). exists (j + 1).
  replace (date - (j + 1)) with (date + -1 - j) by lia. split_and!; [lia|done|].
  intros j' Hj'. destruct (decide (j' = 0)) as [->|]; [by rewrite Z.sub_0_r|].
  replace (date - j') with (date + -1 - (j' - 1)) by lia. apply Hmin. lia.
Qed.

Lemma prev_search_spec fuel z now i :
  prev_days fuel spec z now (local_date z now) = Some i ->
  exists n, cron_matches spec n /\ naive_date n <= local_date z now /\
    to_instant z n = Some i /\ i <= now /\
    forall n' i', cron_matches spec n' -> n < n' -> naive_date n' <= local_date z now ->
      to_instant z n' = Some i' -> now < i'.
Proof.
  intros Hr. apply prev_days_spec in Hr as (j & Hj & Hd & Hmin).
  rewrite prev_day_slots in Hd. apply first_some_greatest in Hd; [|by apply day_slots_increasing].
  destruct Hd as (n & Hn & Hf & Hlast). apply elem_of_whole_day in Hn as [Hm Hnd].
  apply past_candidate_Some in Hf as [Hti Hle]. exists n. split_and!; try done; [lia|].
  intros n' i' Hm' Hlt Hdn' Hti'. revert i' Hti'. apply past_candidate_None.
  destruct (naive_split n (proj1 Hm)) as (Hnn & ? & ?).
  destruct (naive_split n' (proj1 Hm')) as (Hnn' & ? & ?).
  destruct (decide (naive_date n' = local_date z now - j)) as [Heq|Hne].
  - apply Hlast; [by apply elem_of_whole_day|done].
  - assert (local_date z now - j < naive_date n') by (unfold_time; lia).
    specialize (Hmin (local_date z now - naive_date n') ltac:(lia)).
    rewrite prev_day_slots, first_some_none_elem in Hmin.
    apply Hmin, elem_of_reverse, elem_of_whole_day. split; [done|lia].
Qed.
End past.

(** ** Properties *)

Section properties.
Context `{Chrono}.

(** A zone with one offset, as UTC. *)
Definition fixed_zone (z : tz) (o : Z) : Prop :=
  forall n, offset_from_local_datetime z n = Single o /\ utc_offset z n = o.

Lemma fixed_to_instant z o n : fixed_zone z o -> to_instant z n = Some (n - o).
Proof. intros Hz. unfold to_instant. by rewrite (proj1 (Hz n)). Qed.

Lemma fixed_next cron from z o fire :
  fixed_zone z o -> compute_next_fire cron from z = Ok fire ->
  exists spec, parse cron = Ok spec /\ from < fire /\ cron_matches spec (fire + o) /\
    forall i, from < i < fire -> ~ cron_matches spec (i + o).
Proof.
  intros Hz Hr. unfold compute_next_fire in Hr. apply bind_ok in Hr as (spec & Hp & Hr).
  apply ok_or_ok in Hr. exists spec. split; [done|].
  apply (search_total_spec spec (parse_wf _ _ Hp) z from _ (Some fire)) in Hr;
    [|apply search_start_aligned].
  destruct Hr as (n & (Hm & Hge & Hhor) & Hf & Hmin).
  apply fire_after_Some in Hf as [Hti Hlt]. rewrite (fixed_to_instant _ _ _ Hz) in Hti.
  injection Hti as <-. split; [done|]. rewrite Z.sub_add. split; [done|].
  intros i Hi Hmi. specialize (Hmin (i + o)).
  assert (Hst : search_start z from = floor_minute (from + o + MINUTE))
    by (unfold search_start, naive_local; by rewrite (proj2 (Hz from))).
  assert (Hin : in_search spec (search_start z from) (i + o)).
  { split; [done|]. split.
    - rewrite Hst. destruct Hmi as (Hal & _). unfold floor_minute. unfold_time.
      Z.div_mod_to_equations. lia.
    - etransitivity; [|exact Hhor]. unfold naive_date. apply Z.div_le_mono; [done|lia]. }
  specialize (Hmin Hin ltac:(lia)).
  assert (Hs : fire_after z from (i + o) = Some i).
  { apply fire_after_Some. rewrite (fixed_to_instant _ _ _ Hz), Z.add_simpl_r. split; [done|lia]. }
  congruence.
Qed.

(** C2. [compute_next_fire] is a first hit: it returns the instant of the first
    minute of the local calendar, at or after the minute following [from] and
    within the horizon of 3660 days, that the expression matches and whose
    instant is later than [from]; it reports [NoNextFire] exactly when no
    such minute exists, and the parser's error when the expression is
    malformed. *)
Theorem compute_next_fire_correct cron from z :
  match parse cron with
  | Err e => compute_next_fire cron from z = Err e
  | Ok spec =>
    let start := search_start z from in
    match compute_next_fire cron from z with
    | Ok fire => from < fire /\ exists n, in_search spec start n /\ to_instant z n = Some fire /\
        forall n' fire', in_search spec start n' -> n' < n ->
          to_instant z n' = Some fire' -> fire' <= from
    | Err e => e = NoNextFire cron /\
        forall n fire, in_search spec start n -> to_instant z n = Some fire -> fire <= from
    end
  end.
Proof.
  destruct (parse cron) as [spec|e] eqn:Hp;
    [|unfold compute_next_fire; by rewrite Hp]. cbv zeta.
  destruct (compute_next_fire cron from z) as [fire|e] eqn:Hr;
    unfold compute_next_fire in Hr; rewrite Hp in Hr; cbn [mbind result_bind] in Hr.
  - apply ok_or_ok in Hr.
    apply (search_total_spec spec (parse_wf _ _ Hp) z from _ (Some fire)) in Hr;
      [|apply search_start_aligned].
    destruct Hr as (n & Hin & Hf & Hmin). apply fire_after_Some in Hf as [Hti Hlt].
    split; [exact Hlt|]. exists n. split; [exact Hin|]. split; [exact Hti|].
    intros n' fire' Hn' Hlt'. revert fire'. apply fire_after_None. auto.
  - apply ok_or_err in Hr as [Hr ->].
    pose proof (proj1 (search_total_spec spec (parse_wf _ _ Hp) z from _ None
                         (search_start_aligned z from)) Hr) as Hnone. cbv beta iota in Hnone.
    split; [reflexivity|]. intros n fire Hin. revert fire. apply fire_after_None. auto.
Qed.

(** In a zone with a fixed offset, the next fire is the least instant after
    [from] whose local minute matches the expression: no occurrence is
    skipped. *)
Theorem compute_next_fire_least cron from z o fire :
  fixed_zone z o -> compute_next_fire cron from z = Ok fire ->
  exists spec, parse cron = Ok spec /\ from < fire /\ cron_matches spec (fire + o) /\
    forall i, from < i < fire -> ~ cron_matches spec (i + o).
Proof. apply fixed_next. Qed.

(** The previous occurrence is the instant of the latest matching minute up
    to today whose instant has been reached, and the past owns [now]. *)
Theorem prev_cron_fire_correct cron now z i :
  prev_cron_fire cron now z = Some i ->
  exists spec n, parse cron = Ok spec /\ cron_matches spec n /\
    naive_date n <= local_date z now /\ to_instant z n = Some i /\ i <= now /\
    forall n' i', cron_matches spec n' -> n < n' -> naive_date n' <= local_date z now ->
      to_instant z n' = Some i' -> now < i'.
Proof.
  unfold prev_cron_fire. destruct (parse cron) as [spec|] eqn:Hp; [|done].
  cbn [result_ok mbind option_bind]. intros Hr.
  apply (prev_search_spec spec (parse_wf _ _ Hp)) in Hr as (n & Hr).
  exists spec, n. naive_solver.
Qed.

(** The preview is one continuous walk: strictly increasing instants after
    the anchor, at most [count] of them, and asking for fewer gives a prefix. *)
Theorem preview_fires_walk schedule timezone count anchor :
  let fires := preview_fires schedule timezone count anchor in
  increasing fires /\ Forall (fun f => anchor < f) fires /\ (length fires <= count)%nat /\
  forall n, (n <= count)%nat -> preview_fires schedule timezone n anchor = take n fires.
Proof.
  unfold preview_fires. destruct (tz_parse timezone) as [declared|].
  - split_and!; auto using preview_walk_increasing, preview_walk_above, preview_walk_length.
    intros n Hn. by rewrite preview_walk_take.
  - split_and!; [constructor|constructor|simpl; lia|]. intros n _. by rewrite take_nil.
Qed.

(** An interval schedule fires at the first date of its progression whose
    slot is after [from]: dates are counted from the anchor (so a month
    schedule never drifts) and none of them is skipped.  It fails exactly when
    the time of day or the step is malformed, or when no slot up to the last
    date the walk can reach (the horizon is counted from the anchor, not from
    [from]) is later. *)
Theorem interval_next_fire_correct s from z :
  match parse_hhmm (time s) with
  | None => interval_next_fire s from z
      = Err (InvalidExpression ("interval time must be HH:MM, got '" +:+ time s +:+ "'"))
  | Some (hour, minute) =>
    match interval_next_fire s from z with
    | Ok fire => every s <> 0 /\ from < fire /\ exists k n, 0 <= k <= interval_horizon /\
        interval_slot s hour minute k = Some n /\ to_instant z n = Some fire /\
        forall k' n' fire', 0 <= k' < k -> interval_slot s hour minute k' = Some n' ->
          to_instant z n' = Some fire' -> fire' <= from
    | Err e => every s = 0 \/ exists k, 0 <= k <= interval_horizon /\ walk_ends s k /\
        forall k' n' fire', 0 <= k' <= k -> interval_slot s hour minute k' = Some n' ->
          to_instant z n' = Some fire' -> fire' <= from
    end
  end.
Proof.
  destruct (parse_hhmm (time s)) as [[hour minute]|] eqn:Hp.
  2: { unfold interval_next_fire. by rewrite Hp. }
  destruct (decide (every s = 0)) as [He|He].
  { unfold interval_next_fire. rewrite Hp, He. by left. }
  pose proof (interval_next_fire_walk s from z hour minute Hp He) as Hw.
  destruct (interval_next_fire s from z) as [fire|e].
  - destruct Hw as (k & n & Hk & Hn & Hf & Hmin). apply fire_after_Some in Hf as [Hti Hlt].
    split; [exact He|]. split; [exact Hlt|]. exists k, n. split; [exact Hk|]. split; [exact Hn|].
    split; [exact Hti|]. intros k' n' fire' Hk' Hn'. revert fire'. apply fire_after_None.
    by eapply Hmin.
  - destruct Hw as (_ & k & Hk & Hends & Hmin). right. exists k. split; [exact Hk|].
    split; [exact Hends|]. intros k' n' fire' Hk' Hn'. revert fire'. apply fire_after_None.
    by eapply Hmin.
Qed.

Context `{!ChronoLaws}.

Lemma days_in_month_some year month :
  min_year <= year < max_year -> 1 <= month <= 12 ->
  28 <= days_in_month year month <= 31 /\
  forall d, 1 <= d <= days_in_month year month -> is_Some (from_ymd_opt year month d).
Proof.
  intros Hy Hm. unfold days_in_month.
  assert (Hfirst : is_Some (from_ymd_opt year month 1)) by (apply first_of_month; lia).
  destruct Hfirst as [n Hn].
  assert (Hnext : is_Some (from_ymd_opt (if month =? 12 then year + 1 else year)
                             (if month =? 12 then 1 else month + 1) 1)).
  { apply first_of_month; destruct (month =? 12) eqn:E; bsimpl; lia. }
  destruct Hnext as [n' Hn'].
  pose proof (month_length _ _ _ _ Hn Hn') as [Hl Hd].
  destruct (month =? 12); rewrite Hn, Hn'; (split; [done|]); intros d Hdd;
    rewrite (Hd d Hdd); done.
Qed.

(** A month step lands [k * every] months after the anchor's month, on the
    anchor's day when that month has it and on its last day otherwise. *)
Theorem interval_month_clamped s k last_date date y m d :
  unit s = Month -> from_ymd_opt y m d = Some (anchor_date s) ->
  0 <= k * every s <= u32_max ->
  interval_step s k last_date = Some date ->
  let y' := y + (m - 1 + k * every s) / 12 in
  let m' := (m - 1 + k * every s) mod 12 + 1 in
  nd_year date = y' /\ nd_month date = m' /\ nd_day date = Z.min d (days_in_month y' m').
Proof.
  intros Hu Ha Hk Hs. cbv zeta. unfold interval_step in Hs. rewrite Hu in Hs.
  apply bind_Some in Hs as (first & Hfirst & Hs). apply bind_Some in Hs as (shifted & Hsh & Hs).
  rewrite wrap_u32_small in Hsh by done. rewrite with_day_ymd in Hfirst, Hs.
  apply ymd_inv in Ha as (Hy & Hm & Hd). rewrite Hy, Hm in Hfirst. rewrite Hd in Hs.
  apply ymd_inv in Hfirst as (Hfy & Hfm & Hfd).
  apply (add_months_ymd first _ shifted Hfd) in Hsh; [|lia].
  rewrite Hfy, Hfm in Hsh. apply ymd_inv in Hsh as (Hsy & Hsm & _).
  rewrite Hsy, Hsm in Hs. by apply ymd_inv in Hs.
Qed.

(** The DST rules: an existing local time maps to an instant that shows it,
    a repeated one to the earlier of the two, and a skipped one is read with
    the offset in force at the last existing minute before the gap, at most a
    day back. *)
Theorem to_instant_dst z n i :
  to_instant z n = Some i ->
  match offset_from_local_datetime z n with
  | Single o => naive_local z i = n
  | Ambiguous o1 o2 => naive_local z i = n /\ naive_local z (n - o2) = n /\ i <= n - o2
  | NoLocal => exists back o, 1 <= back <= 24 * 60 /\ i = n - o /\
      (offset_from_local_datetime z (n - back * MINUTE) = Single o \/
       exists o2, offset_from_local_datetime z (n - back * MINUTE) = Ambiguous o o2) /\
      forall b, 1 <= b < back -> offset_from_local_datetime z (n - b * MINUTE) = NoLocal
  end.
Proof.
  unfold to_instant, naive_local. destruct (offset_from_local_datetime z n) as [o|o1 o2|] eqn:Ho.
  - intros [= <-]. apply single_offset in Ho. rewrite Ho. lia.
  - intros [= <-]. apply ambiguous_offset in Ho as (-> & -> & ?). split_and!; lia.
  - intros Hr. apply bind_Some in Hr as (o & Hr & [= <-]).
    assert (Hg : forall fuel p o, pre_gap_offset fuel z p = Some o ->
      exists k, 0 <= k < Z.of_nat fuel /\
        (offset_from_local_datetime z (p - k * MINUTE) = Single o \/
         exists o2, offset_from_local_datetime z (p - k * MINUTE) = Ambiguous o o2) /\
        forall b, 0 <= b < k -> offset_from_local_datetime z (p - b * MINUTE) = NoLocal).
    { clear. induction fuel as [|fuel IH]; intros p o; simpl; [done|].
      destruct (offset_from_local_datetime z p) as [o'|o' o2|] eqn:Ho.
      - intros [= ->]. exists 0. rewrite Z.mul_0_l, Z.sub_0_r. split_and!; [lia|lia|auto|lia].
      - intros [= ->]. exists 0. rewrite Z.mul_0_l, Z.sub_0_r. split_and!; [lia|lia|eauto|lia].
      - intros Hr. apply IH in Hr as (k & Hk & Hat & Hb). exists (k + 1).
        replace (p - (k + 1) * MINUTE) with (p - MINUTE - k * MINUTE) by lia.
        split_and!; [lia|lia|done|]. intros b Hbk.
        destruct (decide (b = 0)) as [->|]; [by rewrite Z.mul_0_l, Z.sub_0_r|].
        replace (p - b * MINUTE) with (p - MINUTE - (b - 1) * MINUTE) by lia.
        apply Hb. lia. }
    apply Hg in Hr as (k & Hk & Hat & Hb). exists (k + 1), o. split; [lia|]. split; [done|].
    replace (n - (k + 1) * MINUTE) with (n - MINUTE - k * MINUTE) by lia.
    split; [done|]. intros b Hbk.
    replace (n - b * MINUTE) with (n - MINUTE - (b - 1) * MINUTE) by lia. apply Hb. lia.
Qed.
End properties.

(** ** The properties at concrete inputs *)

From S2P Require Import CivilCalendar.

(** 2024-03-09 12:00 UTC *)
Definition sample_instant : Z := 19791 * DAY + 12 * HOUR.

(** 02:30 does not exist in New York on March 10th, 2024: the fire is 07:30
    UTC, when the clock shows 03:30. *)
Example gap_fire :
  compute_next_fire "30 2 * * *" sample_instant new_york = Ok (19792 * DAY + 7 * HOUR + 30 * MINUTE).
Proof. vm_compute. reflexivity. Qed.

(** Jan 31 every month: Feb 29, then Mar 31. *)
Example month_end_preview :
  (fun i => (civil_month (i / DAY), civil_day (i / DAY)))
    <$> preview_fires (Interval (mkIntervalSpec 1 Month "09:00" 19753)) (Some "UTC") 3 (19753 * DAY)
  = [(1, 31); (2, 29); (3, 31)].
Proof. vm_compute. reflexivity. Qed.

Example never_fires :
  compute_next_fire "0 0 30 2 *" sample_instant utc = Err (NoNextFire "0 0 30 2 *").
Proof. vm_compute. reflexivity. Qed.

Lemma fixed_zone_utc : fixed_zone utc 0.
Proof. intros n. split; [|done]. unfold offset_from_local_datetime. simpl. reflexivity. Qed.

Lemma compute_next_fire_least_witness :
  fixed_zone utc 0 /\
  compute_next_fire "0 9 * * 1-5" sample_instant utc = Ok (19793 * DAY + 9 * HOUR) /\
  exists spec, parse "0 9 * * 1-5" = Ok spec /\ sample_instant < 19793 * DAY + 9 * HOUR.
Proof.
  assert (Hr : compute_next_fire "0 9 * * 1-5" sample_instant utc = Ok (19793 * DAY + 9 * HOUR))
    by (vm_compute; reflexivity).
  split; [exact fixed_zone_utc|]. split; [exact Hr|].
  destruct (compute_next_fire_least _ _ _ _ _ fixed_zone_utc Hr) as (spec & Hp & Hlt & _).
  exists spec. exact (conj Hp Hlt).
Defined.

Lemma prev_cron_fire_correct_witness :
  prev_cron_fire "15 10 29 2 *" sample_instant utc = Some (19782 * DAY + 10 * HOUR + 15 * MINUTE) /\
  19782 * DAY + 10 * HOUR + 15 * MINUTE <= sample_instant.
Proof.
  assert (Hr : prev_cron_fire "15 10 29 2 *" sample_instant utc
               = Some (19782 * DAY + 10 * HOUR + 15 * MINUTE)) by (vm_compute; reflexivity).
  split; [exact Hr|].
  destruct (prev_cron_fire_correct _ _ _ _ Hr) as (spec & n & _ & _ & _ & _ & Hle & _).
  exact Hle.
Defined.

(** A daily schedule is over eleven years after its anchor: asked from there on,
    the walk gives up before it reaches the present. *)
Example interval_horizon_from_anchor :
  is_ok (interval_next_fire (mkIntervalSpec 1 Day "09:00" 15000) (19000 * DAY) shanghai) = true /\
  is_ok (interval_next_fire (mkIntervalSpec 1 Day "09:00" 15000) (19100 * DAY) shanghai) = false.
Proof. split; vm_compute; reflexivity. Qed.

Example biweekly_interval :
  interval_next_fire (mkIntervalSpec 2 Week "07:45" 19700) sample_instant shanghai
    = Ok (19797 * DAY + 23 * HOUR + 45 * MINUTE).
Proof. vm_compute. reflexivity. Qed.

(** 2024-01-31 plus one month. *)
Lemma interval_month_clamped_witness :
  civil_ymd 2024 1 31 = Some 19753 /\
  interval_step (mkIntervalSpec 1 Month "09:00" 19753) 1 0 = Some 19782 /\
  nd_day 19782 = Z.min 31 (days_in_month 2024 2).
Proof.
  split; [reflexivity|]. split; [vm_compute; reflexivity|].
  refine (proj2 (proj2 (interval_month_clamped (mkIntervalSpec 1 Month "09:00" 19753) 1 0 19782
            2024 1 31 eq_refl _ _ _))).
  - reflexivity.
  - vm_compute. split; discriminate.
  - vm_compute. reflexivity.
Defined.

Lemma to_instant_dst_witness :
  to_instant new_york (20030 * DAY + 90 * MINUTE) = Some (20030 * DAY + 90 * MINUTE + 4 * HOUR) /\
  naive_local new_york (20030 * DAY + 90 * MINUTE + 4 * HOUR) = 20030 * DAY + 90 * MINUTE.
Proof.
  assert (Hr : to_instant new_york (20030 * DAY + 90 * MINUTE)
               = Some (20030 * DAY + 90 * MINUTE + 4 * HOUR)) by (vm_compute; reflexivity).
  split; [exact Hr|]. exact (proj1 (to_instant_dst _ _ _ Hr)).
Defined.
