(* ===== verification/CronJitter.v ===== *)
(** * Deterministic fire-time jitter: [mirri-core/src/cron/jitter.rs] *)
From S2P Require Import Prelude RustStd F64 CronExpr Chrono CivilCalendar.
#[local] Open Scope string_scope.
#[local] Open Scope Z_scope.

Record JitterConfig : Type := mkJitterConfig {
  recurring_max_fraction_of_period : f64;
  recurring_max_ms : Z;
  one_shot_max_ms : Z
}.

(** [0.1] is the double [3602879701896397 * 2 ^ -55]. *)
Definition DEFAULT_CRON_JITTER_CONFIG : JitterConfig :=
  mkJitterConfig (mkF64 3602879701896397 (-55)) (15 * 60000) 90000.

Definition MS_PER_DAY : Z := 24 * 60 * 60000.

(** [i32] wrapping djb2 over the code points *)
Definition djb2 (id : string) : Z :=
  fold_left (fun hash codepoint => wrap_i32 (wrap_i32 (hash * 33) + wrap_i32 codepoint))
    (chars id) 5381.

(** The numerator of [fraction_from_id] over [2 ^ 32]. *)
Definition id_hash (id : string) : Z :=
  match (if decide (String.length id = 8%nat) then hex_go 0 id else None) with
  | Some digits => digits
  | None => wrap_u32 (djb2 id)
  end.

(** A [u32] over [4_294_967_296.0]: the division is exact. *)
Definition fraction_from_id (id : string) : f64 := mkF64 (id_hash id) (-32).

Definition jittered_next_run (task_id : string) (ideal : Z) (next_ideal : option Z)
    (config : JitterConfig) : Z :=
  let period_ms :=
    match next_ideal with
    | Some next => if ideal <? next then (next - ideal) / MILLI else MS_PER_DAY
    | None => MS_PER_DAY
    end in
  let period_cap := f64_mul (f64_of_Z period_ms) (recurring_max_fraction_of_period config) in
  let cap := f64_min period_cap (f64_of_Z (recurring_max_ms config)) in
  if f64_leb cap (mkF64 0 0) then ideal
  else
    let offset := f64_mul cap (fraction_from_id task_id) in
    ideal + f64_floor offset * MILLI.

Definition one_shot_jittered_next `{Chrono} (task_id : string) (ideal created_at : Z) (z : tz)
    (config : JitterConfig) : Z :=
  if negb ((ideal / MILLI) mod 60000 =? 0) then ideal
  else
    let minute_of_hour := naive_minute (naive_local z ideal) in
    if negb (minute_of_hour =? 0) && negb (minute_of_hour =? 30) then ideal
    else if one_shot_max_ms config <=? 0 then ideal
    else
      let offset := f64_opp (f64_mul (f64_of_Z (one_shot_max_ms config)) (fraction_from_id task_id)) in
      let shifted := ideal + f64_floor offset * MILLI in
      if shifted <? created_at then ideal else shifted.

(** ** Bounds *)

Lemma wrap_i32_range v : i32_min <= wrap_i32 v <= i32_max.
Proof.
  unfold wrap_i32, i32_min, i32_max.
  pose proof (Z.mod_pos_bound (v + 2 ^ 31) (2 ^ 32) ltac:(lia)). lia.
Qed.

Lemma id_hash_range id : 0 <= id_hash id <= u32_max.
Proof.
  unfold id_hash. destruct (decide _) as [Hl|_]; [|apply wrap_u32_range].
  destruct (hex_go 0 id) as [v|] eqn:Hv; [|apply wrap_u32_range].
  apply hex_go_range in Hv; [|done]. rewrite Hl in Hv. unfold u32_max. simpl in Hv. lia.
Qed.

(** A millisecond count below [2 ^ 21] times an id fraction is exact. *)
Lemma exact_offset c id :
  0 <= c < 2 ^ 21 ->
  f64_mul (f64_of_Z c) (fraction_from_id id) = mkF64 (c * id_hash id) (-32).
Proof.
  intros Hc. pose proof (id_hash_range id) as Hh. unfold u32_max in Hh.
  rewrite f64_of_Z_small by lia. rewrite f64_mul_exact; simpl; [done|lia|lia|nia].
Qed.

Lemma period_offset_bound p id cap :
  0 <= p -> cap = f64_mul (f64_of_Z p) (recurring_max_fraction_of_period DEFAULT_CRON_JITTER_CONFIG) ->
  0 <= mant cap /\ 0 <= mant (f64_mul cap (fraction_from_id id)) /\
  f64_floor (f64_mul cap (fraction_from_id id)) <= p / 10.
Proof.
  intros Hp ->. unfold f64_mul, f64_of_Z. simpl.
  destruct (f64_round_nonneg p 0 Hp) as (p1 & k1 & -> & Hk1 & Hp1 & Hb1 & _).
  rewrite Z.add_0_l. simpl.
  destruct (f64_round_nonneg (p1 * 3602879701896397) (k1 + -55)) as (p2 & k2 & E2 & Hk2 & Hp2 & Hb2 & _);
    [lia|].
  rewrite E2. simpl.
  pose proof (id_hash_range id) as Hh. unfold u32_max in Hh. set (u := id_hash id) in *.
  destruct (f64_round_nonneg (p2 * u) (k1 + -55 + k2 + -32)) as (p3 & k3 & E3 & Hk3 & Hp3 & Hb3 & _);
    [nia|].
  rewrite E3. simpl. split_and!; [done|done|].
  apply Z.div_le_lower_bound; [lia|]. apply (f64_floor_le _ 87); simpl; [lia|lia|lia|].
  replace (87 + (k1 + -55 + k2 + -32 + k3)) with (k1 + k2 + k3) by lia.
  rewrite !Z.pow_add_r by lia.
  assert (H1 : 0 < 2 ^ k1) by (apply Z.pow_pos_nonneg; lia).
  assert (H2 : 0 < 2 ^ k2) by (apply Z.pow_pos_nonneg; lia).
  assert (H3 : 0 < 2 ^ k3) by (apply Z.pow_pos_nonneg; lia).
  set (x1 := 2 ^ k1) in *. set (x2 := 2 ^ k2) in *. set (x3 := 2 ^ k3) in *.
  clearbody x1 x2 x3. clear E2 E3.
  set (A := 3602879701896397) in *.
  assert (B2 : p2 * (x1 * x2) * 2 ^ 106 <= p * A * (2 ^ 53 + 1) ^ 2).
  { pose proof (Z.mul_le_mono_nonneg_r _ _ (x1 * 2 ^ 53) ltac:(lia) Hb2).
    pose proof (Z.mul_le_mono_nonneg_r _ _ (A * (2 ^ 53 + 1)) ltac:(lia) Hb1). lia. }
  assert (B3 : p3 * (x1 * x2 * x3) * 2 ^ 159 <= p * A * u * (2 ^ 53 + 1) ^ 3).
  { pose proof (Z.mul_le_mono_nonneg_r _ _ (x1 * x2 * 2 ^ 106) ltac:(lia) Hb3).
    pose proof (Z.mul_le_mono_nonneg_r _ _ (u * (2 ^ 53 + 1)) ltac:(lia) B2). lia. }
  assert (B4 : 10 * (A * u * (2 ^ 53 + 1) ^ 3) <= 2 ^ 246) by lia.
  pose proof (Z.mul_le_mono_nonneg_r _ _ p Hp B4).
  lia.
Qed.

Lemma f64_leb_scaled a b s :
  - s <= expo a -> - s <= expo b ->
  f64_leb a b = true <-> mant a * 2 ^ (s + expo a) <= mant b * 2 ^ (s + expo b).
Proof.
  intros Ha Hb. unfold f64_leb. rewrite Z.leb_le. set (e := Z.min (expo a) (expo b)).
  assert (Hp : 0 < 2 ^ (s + e)) by (apply Z.pow_pos_nonneg; lia).
  assert (Ea : 2 ^ (s + expo a) = 2 ^ (expo a - e) * 2 ^ (s + e))
    by (rewrite <- Z.pow_add_r by lia; f_equal; lia).
  assert (Eb : 2 ^ (s + expo b) = 2 ^ (expo b - e) * 2 ^ (s + e))
    by (rewrite <- Z.pow_add_r by lia; f_equal; lia).
  rewrite Ea, Eb, !Z.mul_assoc. by apply Z.mul_le_mono_pos_r.
Qed.

Lemma capped_offset_bound cap id c :
  0 <= mant cap -> -55 <= expo cap -> 0 <= c < 2 ^ 53 ->
  f64_leb cap (f64_of_Z c) = true ->
  f64_floor (f64_mul cap (fraction_from_id id)) <= c.
Proof.
  intros Hm He Hc Hle. rewrite f64_of_Z_small in Hle by lia.
  rewrite (f64_leb_scaled _ _ 55) in Hle; [simpl in Hle|simpl; lia|simpl; lia].
  unfold f64_mul. simpl.
  pose proof (id_hash_range id) as Hh. unfold u32_max in Hh. set (u := id_hash id) in *.
  destruct (f64_round_nonneg (mant cap * u) (expo cap + -32)) as (q & k & -> & Hk & Hq & Hb & _); [nia|].
  rewrite <- (Z.mul_1_l (f64_floor _)). apply (f64_floor_le _ 87); simpl; [lia|lia|lia|].
  replace (87 + (expo cap + -32 + k)) with ((55 + expo cap) + k) by lia.
  rewrite Z.pow_add_r by lia.
  assert (H1 : 0 < 2 ^ (55 + expo cap)) by (apply Z.pow_pos_nonneg; lia).
  set (x := 2 ^ (55 + expo cap)) in *. set (y := 2 ^ k) in *.
  pose proof (Z.mul_le_mono_nonneg_r _ _ x ltac:(lia) Hb).
  pose proof (Z.mul_le_mono_nonneg_r _ _ (u * (2 ^ 53 + 1)) ltac:(lia) Hle).
  assert (u * (2 ^ 53 + 1) <= 2 ^ 85) by lia.
  pose proof (Z.mul_le_mono_nonneg_l _ _ (c * 2 ^ 55) ltac:(lia) ltac:(eassumption)). lia.
Qed.

Lemma f64_mul_expo a b :
  0 <= mant a -> 0 <= mant b -> expo a + expo b <= expo (f64_mul a b).
Proof.
  intros Ha Hb. unfold f64_mul.
  destruct (f64_round_nonneg (mant a * mant b) (expo a + expo b)) as (q & k & -> & Hk & _); [nia|].
  simpl. lia.
Qed.

Lemma f64_of_Z_nonneg n : 0 <= n -> 0 <= mant (f64_of_Z n) /\ 0 <= expo (f64_of_Z n).
Proof.
  intros Hn. unfold f64_of_Z.
  destruct (f64_round_nonneg n 0 Hn) as (q & k & -> & Hk & Hq & _). simpl. lia.
Qed.

(** A period under 150 minutes is capped by its tenth. *)
Lemma small_period_cap p :
  0 <= p < 9000000 ->
  f64_leb (f64_mul (f64_of_Z p) (recurring_max_fraction_of_period DEFAULT_CRON_JITTER_CONFIG))
    (f64_of_Z 900000) = true.
Proof.
  intros Hp. rewrite !f64_of_Z_small by lia. unfold f64_mul. simpl. change (0 + -55) with (-55).
  destruct (f64_round_nonneg (p * 3602879701896397) (-55)) as (q & k & -> & Hk & Hq & Hb & _); [lia|].
  apply (f64_leb_scaled _ _ 55); simpl; [lia|lia|]. rewrite Z.add_assoc. change (55 + -55) with 0.
  rewrite Z.add_0_l. set (x := 2 ^ k) in *. lia.
Qed.

(** The two caps of the recurring shift, in milliseconds. *)
Lemma recurring_offset_bound p id :
  0 <= p ->
  let cap := f64_min (f64_mul (f64_of_Z p) (recurring_max_fraction_of_period DEFAULT_CRON_JITTER_CONFIG))
               (f64_of_Z 900000) in
  0 <= f64_floor (f64_mul cap (fraction_from_id id)) <= Z.min (p / 10) 900000.
Proof.
  intros Hp. cbv zeta.
  set (pc := f64_mul (f64_of_Z p) (recurring_max_fraction_of_period DEFAULT_CRON_JITTER_CONFIG)).
  destruct (period_offset_bound p id pc Hp eq_refl) as (Hpc & Hoff & Hten).
  destruct (f64_of_Z_nonneg p Hp) as [Hm He].
  assert (Hexp : -55 <= expo pc).
  { etransitivity; [|apply f64_mul_expo]; [simpl; lia|done|simpl; lia]. }
  unfold f64_min. destruct (f64_leb pc (f64_of_Z 900000)) eqn:Hle.
  - split; [by apply f64_floor_nonneg|]. apply Z.min_glb; [done|].
    apply capped_offset_bound; [done|done|lia|done].
  - rewrite exact_offset by lia. pose proof (id_hash_range id) as Hh. unfold u32_max in Hh.
    unfold f64_floor. cbn [mant expo]. change (0 <=? -32) with false. cbn iota.
    change (- -32) with 32.
    assert (Hlt : 900000 * id_hash id / 2 ^ 32 <= 900000) by (apply Z.div_le_upper_bound; lia).
    split; [apply Z.div_pos; lia|]. apply Z.min_glb; [|done].
    (* the period cap exceeds 900000, so a tenth of the period does too *)
    assert (H10 : 900000 <= p / 10); [|lia].
    apply Z.div_le_lower_bound; [lia|]. destruct (decide (p < 9000000)) as [Hlt9|]; [|lia].
    assert (Hc : f64_leb pc (f64_of_Z 900000) = true); [|congruence].
    by apply small_period_cap.
Qed.

(** The shift, whatever the next occurrence is. *)
Lemma jittered_next_run_window task_id ideal next :
  let fire := jittered_next_run task_id ideal next DEFAULT_CRON_JITTER_CONFIG in
  let period := match next with
                | Some n => if ideal <? n then n - ideal else DAY
                | None => DAY
                end in
  ideal <= fire /\ (fire - ideal) * 10 <= period /\ fire - ideal <= 15 * MINUTE.
Proof.
  cbv zeta. unfold jittered_next_run.
  change (recurring_max_ms DEFAULT_CRON_JITTER_CONFIG) with 900000.
  set (period := match next with Some n => if ideal <? n then n - ideal else DAY | None => DAY end).
  replace (match next with Some n => if ideal <? n then (n - ideal) / MILLI else MS_PER_DAY
           | None => MS_PER_DAY end) with (period / MILLI)
    by (subst period; destruct next as [n|]; [by destruct (ideal <? n)|done]).
  assert (Hpos : 0 <= period).
  { subst period. destruct next as [n|]; [case_test|]; unfold_time; lia. }
  set (p := period / MILLI). unfold_time.
  assert (Hp : 0 <= p) by (apply Z.div_pos; lia).
  pose proof (recurring_offset_bound p task_id Hp) as Hb. cbv zeta in Hb.
  pose proof (Z.mul_div_le period 1000000 ltac:(lia)) as Hd. fold p in Hd.
  pose proof (Z.mul_div_le p 10 ltac:(lia)).
  destruct (f64_leb _ (mkF64 0 0)); [lia|].
  match type of Hb with 0 <= ?f <= _ => set (o := f) in * end. lia.
Qed.

Lemma jittered_next_run_later task_id ideal next :
  ideal <= jittered_next_run task_id ideal next DEFAULT_CRON_JITTER_CONFIG.
Proof. apply (jittered_next_run_window task_id ideal next). Qed.

Lemma one_shot_jittered_next_floor `{Chrono} task_id ideal created_at z config :
  created_at <= ideal -> created_at <= one_shot_jittered_next task_id ideal created_at z config.
Proof.
  intros Hc. unfold one_shot_jittered_next. repeat (case_test; try lia).
Qed.

(** ** Properties *)

(** The recurring shift is forward, at most a tenth of the period and at most
    fifteen minutes, so the jittered fire still comes before the next ideal
    occurrence. *)
Theorem jittered_next_run_bounds task_id ideal next :
  ideal < next ->
  let fire := jittered_next_run task_id ideal (Some next) DEFAULT_CRON_JITTER_CONFIG in
  ideal <= fire < next /\ (fire - ideal) * 10 <= next - ideal /\ fire - ideal <= 15 * MINUTE.
Proof.
  intros Hlt. pose proof (jittered_next_run_window task_id ideal (Some next)) as Hw.
  cbv beta iota zeta in Hw. cbv zeta. rewrite (proj2 (Z.ltb_lt _ _)) in Hw by done. lia.
Qed.

Lemma jittered_next_run_bounds_witness :
  jittered_next_run "deadbeef" 0 (Some (5 * MINUTE)) DEFAULT_CRON_JITTER_CONFIG = 26095 * MILLI /\
  0 <= jittered_next_run "deadbeef" 0 (Some (5 * MINUTE)) DEFAULT_CRON_JITTER_CONFIG < 5 * MINUTE.
Proof.
  split; [vm_compute; reflexivity|].
  exact (proj1 (jittered_next_run_bounds "deadbeef" 0 (5 * MINUTE) eq_refl)).
Defined.

(** The one-shot shift is backward, by at most ninety seconds, never before
    the creation, and only for an ideal on a whole minute that shows [:00] or
    [:30] in the task's zone. *)
Theorem one_shot_jittered_next_bounds `{Chrono} task_id ideal created_at z :
  created_at <= ideal ->
  let fire := one_shot_jittered_next task_id ideal created_at z DEFAULT_CRON_JITTER_CONFIG in
  created_at <= fire <= ideal /\ ideal - fire <= 90 * SECOND /\
  (fire <> ideal -> (ideal / MILLI) mod 60000 = 0 /\
     (naive_minute (naive_local z ideal) = 0 \/ naive_minute (naive_local z ideal) = 30)).
Proof.
  intros Hc. cbv zeta. unfold one_shot_jittered_next. unfold_time.
  destruct (negb ((ideal / 1000000) mod 60000 =? 0)) eqn:E1; [lia|]. bsimpl.
  set (minute := naive_minute _).
  destruct (negb (minute =? 0) && negb (minute =? 30)) eqn:E2; [lia|].
  change (one_shot_max_ms DEFAULT_CRON_JITTER_CONFIG) with 90000.
  change (90000 <=? 0) with false. cbn iota. rewrite exact_offset by lia.
  unfold f64_floor, f64_opp. cbn [mant expo]. change (0 <=? -32) with false. cbn iota.
  change (- -32) with 32. pose proof (id_hash_range task_id) as Hh. unfold u32_max in Hh.
  assert (Ho : -90000 <= - (90000 * id_hash task_id) / 2 ^ 32 <= 0).
  { split; [apply Z.div_le_lower_bound; lia|apply Z.div_le_upper_bound; lia]. }
  destruct (_ <? created_at) eqn:E3; [lia|]. bsimpl. split_and!; [lia|lia|lia|].
  intros _. split; [done|]. apply andb_false_iff in E2 as [E2|E2]; bsimpl; auto.
Qed.

Lemma one_shot_jittered_next_bounds_witness :
  one_shot_jittered_next "deadbeef" (9 * HOUR) 0 utc DEFAULT_CRON_JITTER_CONFIG
    = 9 * HOUR - 78286 * MILLI /\
  0 <= one_shot_jittered_next "deadbeef" (9 * HOUR) 0 utc DEFAULT_CRON_JITTER_CONFIG <= 9 * HOUR.
Proof.
  split; [vm_compute; reflexivity|].
  refine (proj1 (one_shot_jittered_next_bounds "deadbeef" (9 * HOUR) 0 utc _)).
  vm_compute. discriminate.
Defined.
