(* ===== verification/CronTask.v ===== *)
(** * Cron task data: [mirri-core/src/cron.rs]

    The task record and its enums, the delivered fire, the creation options,
    and [cron_task_wire], the JSON record a task is logged as. *)
From S2P Require Import Prelude RustStd F64 Json CronExpr Chrono CronNextFire.
#[local] Open Scope string_scope.
#[local] Open Scope Z_scope.

Inductive TaskScope : Type := Session | Workspace (workspace_id : string).
Inductive PermissionPosture : Type := AskDeny | PManual | PYolo | PAuto | ReadOnly.
Inductive PermissionMode : Type := Manual | Auto | Yolo.
Inductive TaskConcurrency : Type := Skip | Queue.
Inductive TaskOrigin : Type := User | Agent | AgentApproved.
Inductive ThinkingEffort : Type := NoEffort | Low | Medium | High | Custom (effort : string).

#[export] Instance TaskScope_eq_dec : EqDecision TaskScope. Proof. solve_decision. Defined.
#[export] Instance PermissionPosture_eq_dec : EqDecision PermissionPosture.
Proof. solve_decision. Defined.
#[export] Instance PermissionMode_eq_dec : EqDecision PermissionMode.
Proof. solve_decision. Defined.
#[export] Instance TaskConcurrency_eq_dec : EqDecision TaskConcurrency.
Proof. solve_decision. Defined.
#[export] Instance TaskOrigin_eq_dec : EqDecision TaskOrigin. Proof. solve_decision. Defined.
#[export] Instance ThinkingEffort_eq_dec : EqDecision ThinkingEffort.
Proof. solve_decision. Defined.

(** [PermissionMode::posture] *)
Definition posture (mode : PermissionMode) : PermissionPosture :=
  match mode with Manual => PManual | Auto => PAuto | Yolo => PYolo end.

(** [PermissionPosture::mode] *)
Definition posture_mode (p : PermissionPosture) : option PermissionMode :=
  match p with
  | PManual => Some Manual
  | PAuto => Some Auto
  | PYolo => Some Yolo
  | AskDeny | ReadOnly => None
  end.

Definition from_posture_record (p : PermissionPosture) : PermissionMode :=
  match p with
  | PAuto => Auto
  | PYolo => Yolo
  | PManual | AskDeny | ReadOnly => Manual
  end.

Record CronTask : Type := mkCronTask {
  t_id : string;
  t_cron : string;
  t_prompt : string;
  t_session_id : string;
  t_recurring : bool;
  t_timezone : option string;
  t_created_at : Z;
  t_last_fired : option Z;
  t_next_fire_at : option Z;
  t_origin : TaskOrigin;
  t_max_fires : option Z;       (** [u32] *)
  t_fire_count : Z;             (** [u32] *)
  t_cron_lineage : bool;
  t_scope : TaskScope;
  t_permission_posture : option PermissionPosture;
  t_permission_mode : option PermissionMode;
  t_paused : bool;
  t_concurrency : TaskConcurrency;
  t_title : option string;
  t_model : option string;
  t_effort : option ThinkingEffort;
  t_workdir : option string;
  t_ends_at : option Z;         (** a date *)
  t_interval : option IntervalSpec
}.

#[export] Instance CronTask_eq_dec : EqDecision CronTask.
Proof. solve_decision. Defined.

Record CronFire : Type := mkCronFire {
  f_task_id : string;
  f_prompt : string;
  f_cron : string;
  f_recurring : bool;
  f_coalesced_count : Z;        (** [usize] *)
  f_stale : bool;
  f_maxed_out : bool;
  f_readonly : bool;
  f_scheduled_at : option Z;
  f_late_by_ms : option Z;
  f_scope : TaskScope;
  f_ended : bool
}.

#[export] Instance CronFire_eq_dec : EqDecision CronFire.
Proof. solve_decision. Defined.

(** [CronFire::is_workspace] *)
Definition is_workspace (fire : CronFire) : bool :=
  match f_scope fire with Workspace _ => true | Session => false end.

Record CronOptions : Type := mkCronOptions { jitter : bool; stale : bool }.

Record CronCreateOptions : Type := mkCronCreateOptions {
  o_timezone : option string;
  o_max_fires : option Z;
  o_origin : TaskOrigin;
  o_cron_lineage : bool;
  o_scope : TaskScope;
  o_permission_posture : option PermissionPosture;
  o_permission_mode : option PermissionMode;
  o_concurrency : TaskConcurrency;
  o_title : option string;
  o_model : option string;
  o_effort : option ThinkingEffort;
  o_workdir : option string;
  o_ends_at : option Z;
  o_interval : option IntervalSpec
}.

(** [CronCreateOptions::default()] *)
Definition default_create_options : CronCreateOptions :=
  mkCronCreateOptions None None Agent false Session None None Skip None None None None None None.

(** Record updates, one per field the operations assign. *)
Definition set_next_fire (at_ : option Z) (t : CronTask) : CronTask :=
  mkCronTask (t_id t) (t_cron t) (t_prompt t) (t_session_id t) (t_recurring t) (t_timezone t)
    (t_created_at t) (t_last_fired t) at_ (t_origin t) (t_max_fires t) (t_fire_count t)
    (t_cron_lineage t) (t_scope t) (t_permission_posture t) (t_permission_mode t) (t_paused t)
    (t_concurrency t) (t_title t) (t_model t) (t_effort t) (t_workdir t) (t_ends_at t)
    (t_interval t).

(** The cursor write of one delivery: [last_fired] and [fire_count] together. *)
Definition set_cursor (last_fired : option Z) (fire_count : Z) (t : CronTask) : CronTask :=
  mkCronTask (t_id t) (t_cron t) (t_prompt t) (t_session_id t) (t_recurring t) (t_timezone t)
    (t_created_at t) last_fired (t_next_fire_at t) (t_origin t) (t_max_fires t) fire_count
    (t_cron_lineage t) (t_scope t) (t_permission_posture t) (t_permission_mode t) (t_paused t)
    (t_concurrency t) (t_title t) (t_model t) (t_effort t) (t_workdir t) (t_ends_at t)
    (t_interval t).

(** ** The wire record *)

Definition origin_name (o : TaskOrigin) : string :=
  match o with User => "user" | Agent => "agent" | AgentApproved => "agent_approved" end.
Definition posture_name (p : PermissionPosture) : string :=
  match p with
  | AskDeny => "ask-deny" | PManual => "manual" | PYolo => "yolo" | PAuto => "auto"
  | ReadOnly => "read-only"
  end.
Definition mode_name (m : PermissionMode) : string :=
  match m with Manual => "manual" | Auto => "auto" | Yolo => "yolo" end.
Definition concurrency_name (c : TaskConcurrency) : string :=
  match c with Skip => "skip" | Queue => "queue" end.
Definition effort_name (e : ThinkingEffort) : string :=
  match e with
  | NoEffort => "none" | Low => "low" | Medium => "medium" | High => "high"
  | Custom effort => effort
  end.
Definition unit_wire_name (u : IntervalUnit) : string :=
  match u with Day => "day" | Week => "week" | Month => "month" end.

Section wire.
Context `{Chrono}.

(** [IntervalSpec]'s serde form *)
Definition interval_wire (s : IntervalSpec) : json :=
  JObj [("every", JNum (every s)); ("unit", JStr (unit_wire_name (unit s)));
        ("time", JStr (time s)); ("anchorDate", JStr (date_to_string (anchor_date s)))].

Definition insert_some {A} (key : string) (f : A -> json) (o : option A) (wire : json) : json :=
  match o with Some a => jinsert key (f a) wire | None => wire end.

Definition cron_task_wire (t : CronTask) : json :=
  let wire := JObj [] in
  let wire := jinsert "id" (JStr (t_id t)) wire in
  let wire := jinsert "cron" (JStr (t_cron t)) wire in
  let wire := jinsert "prompt" (JStr (t_prompt t)) wire in
  let wire := jinsert "recurring" (JBool (t_recurring t)) wire in
  let wire := jinsert "createdAt" (JNum (timestamp_millis (t_created_at t))) wire in
  let wire := insert_some "lastFiredAt" (fun at_ => JNum (timestamp_millis at_)) (t_last_fired t) wire in
  let wire := jinsert "tags" (JObj [("sessionId", JStr (t_session_id t))]) wire in
  let wire := insert_some "timezone" JStr (t_timezone t) wire in
  let wire := jinsert "origin" (JStr (origin_name (t_origin t))) wire in
  let wire := insert_some "maxFires" JNum (t_max_fires t) wire in
  let wire := jinsert "fireCount" (JNum (t_fire_count t)) wire in
  let wire := jinsert "cronLineage" (JBool (t_cron_lineage t)) wire in
  let wire :=
    match t_scope t with
    | Workspace workspace_id =>
      jinsert "workspaceId" (JStr workspace_id) (jinsert "scope" (JStr "workspace") wire)
    | Session => wire
    end in
  let wire := insert_some "permissionPosture" (fun p => JStr (posture_name p))
                (t_permission_posture t) wire in
  let wire := insert_some "permissionMode" (fun m => JStr (mode_name m))
                (t_permission_mode t) wire in
  let wire := if t_paused t then jinsert "paused" (JBool true) wire else wire in
  let wire := if decide (t_concurrency t = Skip) then wire
              else jinsert "concurrency" (JStr (concurrency_name (t_concurrency t))) wire in
  let wire := insert_some "title" JStr (t_title t) wire in
  let wire := insert_some "model" JStr (t_model t) wire in
  let wire := insert_some "effort" (fun e => JStr (effort_name e)) (t_effort t) wire in
  let wire := insert_some "workdir" JStr (t_workdir t) wire in
  let wire := insert_some "endsAt" (fun d => JStr (date_to_string d)) (t_ends_at t) wire in
  insert_some "interval" interval_wire (t_interval t) wire.
End wire.
