(* ===== verification/CronPlan.v ===== *)
(** * Fire planning: [mirri-core/src/cron.rs] and [cron/workspace_store.rs]

    What one due task's delivery will do: the coalesce walk over the overdue
    occurrences, the stale, budget and end-date verdicts, and the schedule of
    the survivor.  Both managers plan with this; nothing here changes state. *)
From S2P Require Import Prelude RustStd F64 Json CronExpr Chrono CivilCalendar CronNextFire.
From S2P Require Import CronJitter CronTask.
#[local] Open Scope Z_scope.

Definition MAX_COALESCE_ITERATIONS : Z := 10000.
Definition STALE_THRESHOLD : Z := 7 * DAY.

(** [FirePlan] *)
Record FirePlan : Type := mkFirePlan {
  p_task : CronTask;
  p_coalesced_count : Z;
  p_stale : bool;
  p_maxed_out : bool;
  p_advanced : Z;
  p_next_fire_at : option Z;
  p_scheduled_at : option Z;
  p_ended : bool
}.

(** The cursor a task last advanced to, [max(last_fired, created_at)]: the
    TS [baseFromMs], and the base of the stale verdict. *)
Definition fire_base (t : CronTask) : Z :=
  match t_last_fired t with
  | Some last_fired => if t_created_at t <? last_fired then last_fired else t_created_at t
  | None => t_created_at t
  end.

Definition task_is_stale_under (t : CronTask) (now : Z) (stale_enabled : bool) : bool :=
  stale_enabled && t_recurring t && (STALE_THRESHOLD <=? now - fire_base t).

Definition task_schedule (t : CronTask) : ScheduleSpec :=
  match t_interval t with Some i => Interval i | None => Cron (t_cron t) end.

Section planning.
Context `{Chrono}.

Definition occurrence_past_ends_at (t : CronTask) (occurrence : Z) (z : tz) : bool :=
  match t_ends_at t with
  | Some ends_at => ends_at <? local_date z occurrence
  | None => false
  end.

Definition ends_past_schedule (t : CronTask) (schedule : ScheduleSpec) (advanced : Z) (z : tz)
  : bool :=
  match t_ends_at t with
  | None => false
  | Some ends_at =>
    if ends_at <? local_date z advanced then true
    else match compute_schedule_next_fire schedule advanced z with
         | Ok next => ends_at <? local_date z next
         | Err _ => true
         end
  end.

(** [CronManager::schedule_occurrence_for] *)
Definition schedule_occurrence_for (schedule : ScheduleSpec) (id : string) (ideal : Z)
    (recurring : bool) (created_at : Z) (z : tz) (options : CronOptions) : result CronError Z :=
  if negb (jitter options) then Ok ideal
  else if negb recurring
       then Ok (one_shot_jittered_next id ideal created_at z DEFAULT_CRON_JITTER_CONFIG)
       else
         let next_ideal :=
           match schedule with
           | Cron cron => result_ok (compute_next_fire cron ideal z)
           | Interval interval => result_ok (interval_next_fire interval ideal z)
           end in
         Ok (jittered_next_run id ideal next_ideal DEFAULT_CRON_JITTER_CONFIG).

(** The moment an ideal occurrence of a task is delivered at. *)
Definition delivery (options : CronOptions) (t : CronTask) (z : tz) (ideal : Z) : Z :=
  result_unwrap_or
    (schedule_occurrence_for (task_schedule t) (t_id t) ideal (t_recurring t) (t_created_at t) z
       options)
    ideal.

(** The coalesce walk: [fuel] is what is left of [MAX_COALESCE_ITERATIONS]. *)
Fixpoint coalesce (fuel : nat) (options : CronOptions) (t : CronTask) (z : tz)
    (now cursor : Z) (count : Z) (last_due : option Z) : Z * option Z :=
  match fuel with
  | O => (count, last_due)
  | S fuel =>
    match compute_schedule_next_fire (task_schedule t) cursor z with
    | Err _ => (count, last_due)
    | Ok ideal =>
      if occurrence_past_ends_at t ideal z then (count, last_due)
      else if now <? delivery options t z ideal then (count, last_due)
      else coalesce fuel options t z now ideal (count + 1) (Some ideal)
    end
  end.

(** The schedule of a task after its cursor stands at [advanced]. *)
Definition reschedule (options : CronOptions) (t : CronTask) (z : tz) (advanced : Z) : option Z :=
  ideal ← result_ok (compute_schedule_next_fire (task_schedule t) advanced z);
  if occurrence_past_ends_at t ideal z then None
  else Some (delivery options t z ideal).

(** [CronManager::plan_fire] *)
Definition plan_fire (options : CronOptions) (t : CronTask) (now : Z) : FirePlan :=
  let z := tz_or_local (t_timezone t) in
  let schedule := task_schedule t in
  let stale := task_is_stale_under t now (stale options) in
  let maxed_out :=
    negb stale && t_recurring t &&
    match t_max_fires t with
    | Some max => max <=? wrap_u32 (t_fire_count t + 1)
    | None => false
    end in
  let '(count, last_due) :=
    if t_recurring t
    then coalesce (Z.to_nat MAX_COALESCE_ITERATIONS) options t z now (fire_base t) 0 None
    else (0, None) in
  let coalesced_count := Z.max count 1 in
  let advanced := default now last_due in
  let ended :=
    match t_ends_at t with
    | Some _ => ends_past_schedule t schedule advanced z
    | None => false
    end in
  let next_fire_at :=
    if t_recurring t && negb stale && negb maxed_out && negb ended
    then reschedule options t z advanced else None in
  mkFirePlan t coalesced_count stale maxed_out advanced next_fire_at (t_next_fire_at t) ended.

(** [WorkspaceCronManager::plan_fire]: written a second time in
    [workspace_store.rs], with the end-date verdict asked unconditionally. *)
Definition ws_plan_fire (options : CronOptions) (t : CronTask) (now : Z) : FirePlan :=
  let z := tz_or_local (t_timezone t) in
  let stale := task_is_stale_under t now (stale options) in
  let maxed_out :=
    negb stale && t_recurring t &&
    match t_max_fires t with
    | Some max => max <=? wrap_u32 (t_fire_count t + 1)
    | None => false
    end in
  let '(count, last_due) :=
    if t_recurring t
    then coalesce (Z.to_nat MAX_COALESCE_ITERATIONS) options t z now (fire_base t) 0 None
    else (0, None) in
  let advanced := default now last_due in
  let ended := ends_past_schedule t (task_schedule t) advanced z in
  let next_fire_at :=
    if t_recurring t && negb stale && negb maxed_out && negb ended
    then reschedule options t z advanced else None in
  mkFirePlan t (Z.max count 1) stale maxed_out advanced next_fire_at (t_next_fire_at t) ended.

(** Whether the delivery is the task's last: the test both managers guard
    the reschedule with. *)
Definition survives (p : FirePlan) (t : CronTask) : bool :=
  t_recurring t && negb (p_stale p) && negb (p_maxed_out p) && negb (p_ended p).
End planning.

(** ** The coalesce walk *)

Section coalesce_facts.
Context `{Chrono}.

Lemma delivery_recurring options t z ideal :
  t_recurring t = true -> ideal <= delivery options t z ideal.
Proof.
  intros Hr. unfold delivery, schedule_occurrence_for. rewrite Hr.
  destruct (jitter options); simpl; [|lia]. apply jittered_next_run_later.
Qed.

(** An occurrence the walk counts. *)
Definition overdue (options : CronOptions) (t : CronTask) (z : tz) (now ideal : Z) : Prop :=
  occurrence_past_ends_at t ideal z = false /\ delivery options t z ideal <= now.

(** The walk has nothing more to count after [cursor]. *)
Definition caught_up (options : CronOptions) (t : CronTask) (z : tz) (now cursor : Z) : Prop :=
  forall ideal, compute_schedule_next_fire (task_schedule t) cursor z = Ok ideal ->
    ~ overdue options t z now ideal.

Lemma coalesce_spec fuel options t z now cursor count last_due :
  exists walked,
    walked = preview_walk (task_schedule t) z (length walked) cursor /\
    coalesce fuel options t z now cursor count last_due
    = (count + Z.of_nat (length walked), match last walked with Some i => Some i | None => last_due end) /\
    Forall (overdue options t z now) walked /\ (length walked <= fuel)%nat /\
    (length walked = fuel \/ caught_up options t z now (default cursor (last walked))).
Proof.
  revert cursor count last_due. induction fuel as [|fuel IH]; intros cursor count last_due.
  { exists []. split_and!; simpl; auto. by rewrite Z.add_0_r. }
  simpl. destruct (compute_schedule_next_fire _ cursor z) as [ideal|] eqn:Hc; last first.
  { exists []. split_and!; simpl; [done|by rewrite Z.add_0_r|done|lia|].
    right. intros i Hi. congruence. }
  destruct (occurrence_past_ends_at t ideal z) eqn:Hp.
  { exists []. split_and!; simpl; [done|by rewrite Z.add_0_r|done|lia|].
    right. intros i Hi [Hp' _]. congruence. }
  case_test.
  { exists []. split_and!; simpl; [done|by rewrite Z.add_0_r|done|lia|].
    right. intros i Hi [_ Hd]. assert (i = ideal) as -> by congruence. lia. }
  destruct (IH ideal (count + 1) (Some ideal)) as (walked & Hw & -> & Hall & Hlen & Hstop).
  exists (ideal :: walked).
  assert (Hlast : last (ideal :: walked) = Some (default ideal (last walked)))
    by (rewrite last_cons; by destruct (last walked)).
  split_and!.
  - simpl. rewrite Hc. by f_equal.
  - rewrite Hlast. f_equal; [simpl; lia|]. by destruct (last walked).
  - constructor; [split; [done|lia]|done].
  - simpl. lia.
  - rewrite Hlast. simpl. destruct Hstop as [->|Hstop]; [by left|by right].
Qed.
End coalesce_facts.

(** ** The plan *)

Section plan_facts.
Context `{Chrono}.

(** The occurrences a plan for [t] merges: the counted prefix of the walk. *)
Definition plan_walk (options : CronOptions) (t : CronTask) (now : Z) (walked : list Z) : Prop :=
  let z := tz_or_local (t_timezone t) in
  walked = preview_walk (task_schedule t) z (length walked) (fire_base t) /\
  Forall (overdue options t z now) walked /\
  Z.of_nat (length walked) <= MAX_COALESCE_ITERATIONS /\
  (Z.of_nat (length walked) = MAX_COALESCE_ITERATIONS \/
   caught_up options t z now (default (fire_base t) (last walked))).

Lemma plan_fire_unfold options t now :
  let p := plan_fire options t now in
  let z := tz_or_local (t_timezone t) in
  exists walked,
    (if t_recurring t then plan_walk options t now walked else walked = []) /\
    p_task p = t /\
    p_coalesced_count p = Z.max 1 (Z.of_nat (length walked)) /\
    p_advanced p = default now (last walked) /\
    p_ended p = ends_past_schedule t (task_schedule t) (p_advanced p) z /\
    p_next_fire_at p
    = if survives p t then reschedule options t z (p_advanced p) else None.
Proof.
  cbv zeta. unfold plan_fire, survives. destruct (t_recurring t).
  - destruct (coalesce_spec (Z.to_nat MAX_COALESCE_ITERATIONS) options t
      (tz_or_local (t_timezone t)) now (fire_base t) 0 None)
      as (walked & Hw & -> & Hall & Hlen & Hstop).
    exists walked. cbn [p_task p_coalesced_count p_advanced p_ended p_next_fire_at p_stale p_maxed_out].
    assert (Hmax : Z.of_nat (Z.to_nat MAX_COALESCE_ITERATIONS) = MAX_COALESCE_ITERATIONS)
      by (apply Z2Nat.id; discriminate).
    split_and!.
    + unfold plan_walk. split_and!; [done|done|lia|]. destruct Hstop as [->|Hstop]; auto.
    + done.
    + lia.
    + by destruct (last walked).
    + unfold ends_past_schedule. by destruct (t_ends_at t).
    + by destruct (last walked).
  - exists []. cbn. split_and!; try done.
    unfold ends_past_schedule. by destruct (t_ends_at t).
Qed.

Lemma plan_fire_task options t now : p_task (plan_fire options t now) = t.
Proof. by destruct (plan_fire_unfold options t now) as (? & _ & ? & _). Qed.

Lemma plan_fire_counts options t now : 1 <= p_coalesced_count (plan_fire options t now).
Proof. destruct (plan_fire_unfold options t now) as (? & _ & _ & -> & _). lia. Qed.

Lemma plan_fire_scheduled options t now :
  p_scheduled_at (plan_fire options t now) = t_next_fire_at t.
Proof.
  unfold plan_fire. destruct (t_recurring t); [|done].
  by destruct (coalesce _ _ _ _ _ _ _ _).
Qed.

Lemma plan_fire_verdicts options t now :
  let p := plan_fire options t now in
  p_stale p = task_is_stale_under t now (stale options) /\
  p_maxed_out p = negb (p_stale p) && t_recurring t &&
    match t_max_fires t with
    | Some max => max <=? wrap_u32 (t_fire_count t + 1)
    | None => false
    end.
Proof.
  unfold plan_fire. destruct (t_recurring t); [|done].
  by destruct (coalesce _ _ _ _ _ _ _ _).
Qed.

Lemma reschedule_Some options t z advanced next :
  reschedule options t z advanced = Some next <->
  exists ideal, compute_schedule_next_fire (task_schedule t) advanced z = Ok ideal /\
    occurrence_past_ends_at t ideal z = false /\ next = delivery options t z ideal.
Proof.
  unfold reschedule. destruct (compute_schedule_next_fire _ _ _) as [ideal|]; simpl.
  - destruct (occurrence_past_ends_at t ideal z) eqn:Hp; split.
    + done.
    + intros (i & Hi & ? & ?). simplify_eq. congruence.
    + intros [= <-]. eauto.
    + intros (i & Hi & ? & ->). by simplify_eq.
  - split; [done|]. intros (i & Hi & _). done.
Qed.

(** A schedule that has not ended has its next occurrence inside the end date. *)
Lemma not_ended_inside t advanced z ideal :
  ends_past_schedule t (task_schedule t) advanced z = false ->
  compute_schedule_next_fire (task_schedule t) advanced z = Ok ideal ->
  occurrence_past_ends_at t ideal z = false.
Proof.
  unfold ends_past_schedule, occurrence_past_ends_at.
  destruct (t_ends_at t) as [ends_at|]; [|done]. case_test; [done|]. intros Hn Hc.
  by rewrite Hc in Hn.
Qed.

Lemma survives_spec p t :
  survives p t = true <->
  t_recurring t = true /\ p_stale p = false /\ p_maxed_out p = false /\ p_ended p = false.
Proof. unfold survives. rewrite !andb_true_iff, !negb_true_iff. tauto. Qed.

Lemma plan_next_spec options t now next :
  let p := plan_fire options t now in
  let z := tz_or_local (t_timezone t) in
  p_next_fire_at p = Some next <->
  survives p t = true /\
  exists ideal, compute_schedule_next_fire (task_schedule t) (p_advanced p) z = Ok ideal /\
    p_advanced p < ideal <= next /\ next = delivery options t z ideal /\
    occurrence_past_ends_at t ideal z = false /\
    (p_coalesced_count p < MAX_COALESCE_ITERATIONS -> now < next).
Proof.
  cbv zeta. destruct (plan_fire_unfold options t now)
    as (walked & Hw & _ & Hc & Ha & He & ->).
  destruct (survives (plan_fire options t now) t) eqn:Hs; [|split; [done|by intros [? _]]].
  apply survives_spec in Hs as (Hr & _ & _ & Hne). rewrite He in Hne. rewrite Hr in Hw.
  destruct Hw as (Hpre & Hall & Hlen & Hstop).
  rewrite reschedule_Some. split.
  - intros (ideal & Hi & Hp & ->). split; [done|]. exists ideal.
    pose proof (compute_schedule_next_fire_later _ _ _ _ Hi) as Hlt.
    pose proof (delivery_recurring options t (tz_or_local (t_timezone t)) ideal Hr) as Hd.
    split_and!; try done. intros Hcap.
    destruct Hstop as [Hstop|Hstop]; [lia|]. rewrite Ha in Hi, Hlt.
    destruct (last walked) as [i|] eqn:Hl; simpl in *; [|lia].
    specialize (Hstop ideal Hi). unfold overdue in Hstop.
    destruct (Z.lt_ge_cases now (delivery options t (tz_or_local (t_timezone t)) ideal)); [done|].
    destruct Hstop. done.
  - intros (_ & ideal & Hi & _ & -> & Hp & _). eauto.
Qed.

(** *** Properties *)

(** One delivery of a recurring task merges exactly the overdue
    occurrences: the count is the length of the longest prefix (up to the
    iteration cap) of the scheduled occurrences after the task's cursor whose
    delivery moment has come and whose day is inside the end date, and the
    cursor advances to the last of them, so the cadence keeps its phase. *)
Theorem plan_fire_coalesces options t now :
  t_recurring t = true ->
  exists walked, plan_walk options t now walked /\
    p_coalesced_count (plan_fire options t now) = Z.max 1 (Z.of_nat (length walked)) /\
    p_advanced (plan_fire options t now) = default now (last walked).
Proof.
  intros Hr. destruct (plan_fire_unfold options t now) as (walked & Hw & _ & Hc & Ha & _).
  rewrite Hr in Hw. eauto.
Qed.

(** The schedule of a surviving task: a plan reschedules exactly when the
    task survives the delivery and its schedule has a next occurrence; the new
    fire is that occurrence after the advanced cursor, on or before the end
    date, shifted forward by the jitter, and it is not due again at [now]
    unless the coalesce cap cut the walk short. *)
Theorem plan_fire_reschedules options t now next :
  let p := plan_fire options t now in
  let z := tz_or_local (t_timezone t) in
  p_next_fire_at p = Some next <->
  survives p t = true /\
  exists ideal, compute_schedule_next_fire (task_schedule t) (p_advanced p) z = Ok ideal /\
    p_advanced p < ideal <= next /\ next = delivery options t z ideal /\
    occurrence_past_ends_at t ideal z = false /\
    (p_coalesced_count p < MAX_COALESCE_ITERATIONS -> now < next).
Proof. apply plan_next_spec. Qed.

(** The two managers, which spell the planning out separately, plan
    identically. *)
Theorem ws_plan_fire_agrees options t now :
  ws_plan_fire options t now = plan_fire options t now.
Proof.
  unfold ws_plan_fire, plan_fire, ends_past_schedule. by destruct (t_ends_at t).
Qed.
End plan_facts.

(** ** Witnesses *)

(** A recurring task created at noon. *)
Definition sample_task (id cron : string) (max_fires : option Z) (fire_count : Z) : CronTask :=
  mkCronTask id cron "tick" "session-1" true (Some "UTC") sample_instant None
    (Some (sample_instant + 10 * MINUTE)) Agent max_fires fire_count false Session None None false
    Skip None None None None None None.

Definition sample_options : CronOptions := mkCronOptions false true.

Example sample_plan :
  let p := plan_fire sample_options (sample_task "cron-a" "*/10 * * * *" None 0)
             (sample_instant + 35 * MINUTE) in
  (p_coalesced_count p, p_advanced p - sample_instant, p_next_fire_at p)
  = (3, 30 * MINUTE, Some (sample_instant + 40 * MINUTE)).
Proof. vm_compute. reflexivity. Qed.

Lemma plan_fire_coalesces_witness :
  let t := sample_task "cron-a" "*/10 * * * *" None 0 in
  t_recurring t = true /\
  exists walked, plan_walk sample_options t (sample_instant + 35 * MINUTE) walked /\
    p_coalesced_count (plan_fire sample_options t (sample_instant + 35 * MINUTE))
    = Z.max 1 (Z.of_nat (length walked)) /\
    p_advanced (plan_fire sample_options t (sample_instant + 35 * MINUTE))
    = default (sample_instant + 35 * MINUTE) (last walked).
Proof.
  split; [reflexivity|].
  exact (plan_fire_coalesces sample_options (sample_task "cron-a" "*/10 * * * *" None 0)
    (sample_instant + 35 * MINUTE) eq_refl).
Defined.
