(* ===== verification/CronWire.v ===== *)
(** * The wire records of cron tasks and fires

    [cron_task_from_wire] of [mirri-core/src/cron.rs], the restore side of
    [cron_task_wire]: a record in the camelCase form or in the older snake_case
    form is read back into a task.  The serde form of a held [CronFire] and the
    cron operations of the wire log ([mirri-proto/src/wire.rs]) are here too. *)
From S2P Require Import Prelude RustStd F64 Json CronExpr Chrono CivilCalendar CronNextFire.
From S2P Require Import CronTask CronPlan.
#[local] Open Scope string_scope.
#[local] Open Scope Z_scope.

(** [WireOp], the cron domain *)
Inductive WireOp : Type :=
| CronAdd (task : json)
| CronDelete (ids : list string)
| CronLineageCreated (count : Z)
| CronCursor (id : string) (last_fired_at : Z) (fire_count : option Z)
| CronHeldAdd (task : json)
| CronHeldClear (id : string).

(** ** serde readings *)

(** The variant name a unit variant of an enum is read from: the string, or an
    object with the name as its one key and [null] as the value. *)
Definition unit_variant (j : json) : option string :=
  match j with
  | JStr s => Some s
  | JObj [(key, JNull)] => Some key
  | _ => None
  end.

Definition origin_from_json (j : json) : option TaskOrigin :=
  name ← unit_variant j;
  if decide (name = "user") then Some User
  else if decide (name = "agent") then Some Agent
  else if decide (name = "agent_approved") then Some AgentApproved else None.

Definition posture_from_json (j : json) : option PermissionPosture :=
  name ← unit_variant j;
  if decide (name = "ask-deny") then Some AskDeny
  else if decide (name = "manual") then Some PManual
  else if decide (name = "yolo") then Some PYolo
  else if decide (name = "auto") then Some PAuto
  else if decide (name = "read-only") then Some ReadOnly else None.

Definition mode_from_json (j : json) : option PermissionMode :=
  name ← unit_variant j;
  if decide (name = "manual") then Some Manual
  else if decide (name = "auto") then Some Auto
  else if decide (name = "yolo") then Some Yolo else None.

Definition concurrency_from_json (j : json) : option TaskConcurrency :=
  name ← unit_variant j;
  if decide (name = "skip") then Some Skip
  else if decide (name = "queue") then Some Queue else None.

Definition unit_from_json (j : json) : option IntervalUnit :=
  name ← unit_variant j;
  if decide (name = "day") then Some Day
  else if decide (name = "week") then Some Week
  else if decide (name = "month") then Some Month else None.

(** [ThinkingEffort]'s reading normalizes the spelling. *)
Definition effort_from_json (j : json) : option ThinkingEffort :=
  raw ← as_str j;
  let normalized := to_ascii_lowercase (trim raw) in
  if decide (normalized = "") then None
  else if decide (normalized = "none" \/ normalized = "off") then Some NoEffort
  else if decide (normalized = "low") then Some Low
  else if decide (normalized = "medium" \/ normalized = "on") then Some Medium
  else if decide (normalized = "high") then Some High
  else Some (Custom normalized).

(** A number read as [u32]. *)
Definition as_u32 (j : json) : option Z :=
  v ← as_u64 j; if v <=? u32_max then Some v else None.

(** [value.get(key).or_else(|| value.get(legacy))] *)
Definition jget_or (key legacy : string) (j : json) : option json :=
  match jget key j with Some v => Some v | None => jget legacy j end.

Definition str_field_or (key legacy : string) (j : json) : option string :=
  match str_field key j with Some v => Some v | None => str_field legacy j end.

Section from_wire.
Context `{Chrono} `{ChronoText}.

(** [IntervalSpec]'s derived reading: an object with its four fields ([anchor_date]
    is accepted for [anchorDate], both at once are not), or the four values in order. *)
Definition interval_from_json (j : json) : option IntervalSpec :=
  '(e, u, hhmm, anchor) ←
    match j with
    | JObj _ =>
      anchor ← match jget "anchorDate" j, jget "anchor_date" j with
               | Some a, None | None, Some a => Some a
               | _, _ => None
               end;
      e ← jget "every" j; u ← jget "unit" j; hhmm ← jget "time" j;
      Some (e, u, hhmm, anchor)
    | JArr [e; u; hhmm; anchor] => Some (e, u, hhmm, anchor)
    | _ => None
    end;
  e ← as_u32 e; u ← unit_from_json u; hhmm ← as_str hhmm;
  anchor ← as_str anchor ≫= date_from_str;
  Some (mkIntervalSpec e u hhmm anchor).

(** [timestamp]: epoch milliseconds, or an RFC 3339 string *)
Definition timestamp (record : json) (dto_key legacy_key : string) : option Z :=
  match jget_or dto_key legacy_key record with
  | Some (JNum n) => as_i64 (JNum n) ≫= from_timestamp_millis
  | Some (JStr rfc3339) => parse_rfc3339 rfc3339
  | _ => None
  end.

Definition cron_task_from_wire (value : json) : option CronTask :=
  id ← str_field "id" value;
  created_at ← timestamp value "createdAt" "created_at";
  let posture : option PermissionPosture :=
    jget_or "permissionPosture" "permission_posture" value ≫= posture_from_json in
  Some (mkCronTask
    id
    (default "" (str_field "cron" value))
    (default "" (str_field "prompt" value))
    (match str_field "session_id" value with
     | Some s => s
     | None => default "" (jget "tags" value ≫= str_field "sessionId")
     end)
    (default false (jget "recurring" value ≫= as_bool))
    (str_field "timezone" value)
    created_at
    (timestamp value "lastFiredAt" "last_fired")
    None
    (default Agent (str_field "origin" value ≫= fun raw => origin_from_json (JStr raw)))
    (wrap_u32 <$> (jget_or "maxFires" "max_fires" value ≫= as_u64))
    (wrap_u32 (default 0 (jget_or "fireCount" "fire_count" value ≫= as_u64)))
    (default false (jget_or "cronLineage" "cron_lineage" value ≫= as_bool))
    (if decide (str_field "scope" value = Some "workspace")
     then Workspace (default "" (str_field_or "workspaceId" "workspace_id" value))
     else Session)
    posture
    (match jget_or "permissionMode" "permission_mode" value ≫= mode_from_json with
     | Some mode => Some mode
     | None => from_posture_record <$> posture
     end)
    (default false (jget "paused" value ≫= as_bool))
    (default Skip (jget "concurrency" value ≫= concurrency_from_json))
    (str_field "title" value)
    (str_field "model" value)
    (jget "effort" value ≫= effort_from_json)
    (str_field_or "workdir" "work_dir" value)
    ((jget_or "endsAt" "ends_at" value ≫= as_str) ≫= parse_date_ymd)
    (jget "interval" value ≫= interval_from_json)).

(** [serde_json::to_value(&fire)]: the derived form, the scope flattened *)
Definition cron_fire_wire (f : CronFire) : json :=
  JObj ([("task_id", JStr (f_task_id f)); ("prompt", JStr (f_prompt f));
         ("cron", JStr (f_cron f)); ("recurring", JBool (f_recurring f));
         ("coalesced_count", JNum (f_coalesced_count f)); ("stale", JBool (f_stale f));
         ("maxed_out", JBool (f_maxed_out f)); ("readonly", JBool (f_readonly f));
         ("scheduled_at", match f_scheduled_at f with
                          | Some at_ => JStr (to_rfc3339 at_) | None => JNull end);
         ("late_by_ms", match f_late_by_ms f with Some ms => JNum ms | None => JNull end)]
        ++ match f_scope f with
           | Session => [("scope", JStr "session")]
           | Workspace workspace_id =>
             [("scope", JStr "workspace"); ("workspaceId", JStr workspace_id)]
           end
        ++ [("ended", JBool (f_ended f))]).
End from_wire.

(** ** Reading the keys of a written record *)

Section written.
Context `{Chrono} `{ChronoText}.

Lemma jget_insert_some_ne {A} key key' (f : A -> json) o w :
  key <> key' -> jget key (insert_some key' f o w) = jget key w.
Proof. intros Hne. destruct o; [by apply jget_insert_ne|done]. Qed.

Lemma jget_insert_some_eq {A} key (f : A -> json) o w :
  is_obj w = true -> jget key w = None ->
  jget key (insert_some key f o w) = f <$> o.
Proof. intros Hw Hn. destruct o; [by apply jget_insert_eq|done]. Qed.

Lemma is_obj_insert_some {A} key (f : A -> json) o w :
  is_obj (insert_some key f o w) = is_obj w.
Proof. destruct o; [apply is_obj_insert|done]. Qed.
End written.

(** The writes of [cron_task_wire] as one chain: a conditional write is the
    write of an option. *)
Lemma cron_task_wire_chain `{Chrono} t :
  cron_task_wire t =
  insert_some "interval" interval_wire (t_interval t)
  (insert_some "endsAt" (fun d => JStr (date_to_string d)) (t_ends_at t)
  (insert_some "workdir" JStr (t_workdir t)
  (insert_some "effort" (fun e => JStr (effort_name e)) (t_effort t)
  (insert_some "model" JStr (t_model t)
  (insert_some "title" JStr (t_title t)
  (insert_some "concurrency" (fun c => JStr (concurrency_name c))
    (if decide (t_concurrency t = Skip) then None else Some (t_concurrency t))
  (insert_some "paused" JBool (if t_paused t then Some true else None)
  (insert_some "permissionMode" (fun m => JStr (mode_name m)) (t_permission_mode t)
  (insert_some "permissionPosture" (fun p => JStr (posture_name p)) (t_permission_posture t)
  (insert_some "workspaceId" JStr (match t_scope t with Workspace w => Some w | Session => None end)
  (insert_some "scope" JStr
    (match t_scope t with Workspace _ => Some "workspace" | Session => None end)
  (jinsert "cronLineage" (JBool (t_cron_lineage t))
  (jinsert "fireCount" (JNum (t_fire_count t))
  (insert_some "maxFires" JNum (t_max_fires t)
  (jinsert "origin" (JStr (origin_name (t_origin t)))
  (insert_some "timezone" JStr (t_timezone t)
  (jinsert "tags" (JObj [("sessionId", JStr (t_session_id t))])
  (insert_some "lastFiredAt" (fun at_ => JNum (timestamp_millis at_)) (t_last_fired t)
  (jinsert "createdAt" (JNum (timestamp_millis (t_created_at t)))
  (jinsert "recurring" (JBool (t_recurring t))
  (jinsert "prompt" (JStr (t_prompt t))
  (jinsert "cron" (JStr (t_cron t))
  (jinsert "id" (JStr (t_id t)) (JObj [])))))))))))))))))))))))).
Proof.
  unfold cron_task_wire. cbv zeta.
  destruct (t_scope t), (t_paused t), (decide (t_concurrency t = Skip)); cbn [insert_some];
    reflexivity.
Qed.

(** Peel the writes off a [jget] of one key. *)
Ltac wire_step :=
  match goal with
  | _ => rewrite jget_insert_ne by discriminate
  | _ => rewrite jget_insert_some_ne by discriminate
  | _ => rewrite is_obj_insert
  | _ => rewrite is_obj_insert_some
  | _ => rewrite jget_insert_eq
  | _ => rewrite jget_insert_some_eq
  end.
Ltac wire_key := intros; rewrite cron_task_wire_chain; repeat wire_step; try reflexivity.

Section written_keys.
Context `{Chrono} `{ChronoText} (t : CronTask).

Lemma wire_id : jget "id" (cron_task_wire t) = Some (JStr (t_id t)).
Proof. wire_key. Qed.
Lemma wire_cron : jget "cron" (cron_task_wire t) = Some (JStr (t_cron t)).
Proof. wire_key. Qed.
Lemma wire_prompt : jget "prompt" (cron_task_wire t) = Some (JStr (t_prompt t)).
Proof. wire_key. Qed.
Lemma wire_recurring : jget "recurring" (cron_task_wire t) = Some (JBool (t_recurring t)).
Proof. wire_key. Qed.
Lemma wire_created : jget "createdAt" (cron_task_wire t) = Some (JNum (timestamp_millis (t_created_at t))).
Proof. wire_key. Qed.
Lemma wire_last_fired : jget "lastFiredAt" (cron_task_wire t) = 
  (fun at_ => JNum (timestamp_millis at_)) <$> t_last_fired t.
Proof. wire_key. Qed.
Lemma wire_tags : jget "tags" (cron_task_wire t) = 
  Some (JObj [("sessionId", JStr (t_session_id t))]).
Proof. wire_key. Qed.
Lemma wire_timezone : jget "timezone" (cron_task_wire t) = JStr <$> t_timezone t.
Proof. wire_key. Qed.
Lemma wire_origin : jget "origin" (cron_task_wire t) = Some (JStr (origin_name (t_origin t))).
Proof. wire_key. Qed.
Lemma wire_max_fires : jget "maxFires" (cron_task_wire t) = JNum <$> t_max_fires t.
Proof. wire_key. Qed.
Lemma wire_fire_count : jget "fireCount" (cron_task_wire t) = Some (JNum (t_fire_count t)).
Proof. wire_key. Qed.
Lemma wire_cron_lineage : jget "cronLineage" (cron_task_wire t) = Some (JBool (t_cron_lineage t)).
Proof. wire_key. Qed.
Lemma wire_scope : jget "scope" (cron_task_wire t) = 
  match t_scope t with Session => None | Workspace _ => Some (JStr "workspace") end.
Proof. wire_key; by destruct (t_scope t). Qed.
Lemma wire_workspace_id : jget "workspaceId" (cron_task_wire t) = 
  match t_scope t with Session => None | Workspace w => Some (JStr w) end.
Proof. wire_key; by destruct (t_scope t). Qed.
Lemma wire_posture : jget "permissionPosture" (cron_task_wire t) = 
  (fun p => JStr (posture_name p)) <$> t_permission_posture t.
Proof. wire_key. Qed.
Lemma wire_mode : jget "permissionMode" (cron_task_wire t) = 
  (fun m => JStr (mode_name m)) <$> t_permission_mode t.
Proof. wire_key. Qed.
Lemma wire_paused : jget "paused" (cron_task_wire t) = 
  if t_paused t then Some (JBool true) else None.
Proof. wire_key; by destruct (t_paused t). Qed.
Lemma wire_concurrency : jget "concurrency" (cron_task_wire t) = 
  if decide (t_concurrency t = Skip) then None
  else Some (JStr (concurrency_name (t_concurrency t))).
Proof. wire_key; by destruct (decide _). Qed.
Lemma wire_title : jget "title" (cron_task_wire t) = JStr <$> t_title t.
Proof. wire_key. Qed.
Lemma wire_model : jget "model" (cron_task_wire t) = JStr <$> t_model t.
Proof. wire_key. Qed.
Lemma wire_effort : jget "effort" (cron_task_wire t) = 
  (fun e => JStr (effort_name e)) <$> t_effort t.
Proof. wire_key. Qed.
Lemma wire_workdir : jget "workdir" (cron_task_wire t) = JStr <$> t_workdir t.
Proof. wire_key. Qed.
Lemma wire_ends_at : jget "endsAt" (cron_task_wire t) = 
  (fun d => JStr (date_to_string d)) <$> t_ends_at t.
Proof. wire_key. Qed.
Lemma wire_interval : jget "interval" (cron_task_wire t) = interval_wire <$> t_interval t.
Proof. wire_key. Qed.

Definition wire_keys : list string :=
  ["id"; "cron"; "prompt"; "recurring"; "createdAt"; "lastFiredAt"; "tags"; "timezone"; "origin";
   "maxFires"; "fireCount"; "cronLineage"; "scope"; "workspaceId"; "permissionPosture";
   "permissionMode"; "paused"; "concurrency"; "title"; "model"; "effort"; "workdir"; "endsAt";
   "interval"].

Lemma wire_absent key : key ∉ wire_keys -> jget key (cron_task_wire t) = None.
Proof.
  unfold wire_keys. rewrite !not_elem_of_cons. intros Hk.
  repeat match goal with Hk : _ /\ _ |- _ => destruct Hk end.
  rewrite cron_task_wire_chain.
  repeat first [rewrite jget_insert_ne by done | rewrite jget_insert_some_ne by done].
  reflexivity.
Qed.

Lemma wire_is_obj : is_obj (cron_task_wire t) = true.
Proof. exact (jget_is_obj _ _ _ wire_id). Qed.
End written_keys.

#[export] Hint Rewrite @wire_id @wire_cron @wire_prompt @wire_recurring @wire_created
  @wire_last_fired @wire_tags @wire_timezone @wire_origin @wire_max_fires @wire_fire_count
  @wire_cron_lineage @wire_scope @wire_workspace_id @wire_posture @wire_mode @wire_paused
  @wire_concurrency @wire_title @wire_model @wire_effort @wire_workdir @wire_ends_at
  @wire_interval @wire_is_obj : mirri_wire.

(** ** The round trip *)

Section roundtrip.
Context `{Chrono} `{ChronoText}.

Definition instant_readable (instant : Z) : Prop :=
  (- 2 ^ 63 <= timestamp_millis instant < 2 ^ 63) /\
  date_in_range (timestamp_millis instant * MILLI / DAY) = true.

(** What a record must satisfy to be read back: instants, counts and dates in
    the range of their types, the effort in its normal spelling. *)
Record readable (t : CronTask) : Prop := {
  rd_created : instant_readable (t_created_at t);
  rd_last_fired last : t_last_fired t = Some last -> instant_readable last;
  rd_max_fires m : t_max_fires t = Some m -> 0 <= m <= u32_max;
  rd_fire_count : 0 <= t_fire_count t <= u32_max;
  rd_effort e : t_effort t = Some e -> effort_from_json (JStr (effort_name e)) = Some e;
  rd_ends_at d : t_ends_at t = Some d -> parse_date_ymd (date_to_string d) = Some d;
  rd_interval i : t_interval t = Some i ->
    0 <= every i <= u32_max /\ date_from_str (date_to_string (anchor_date i)) = Some (anchor_date i)
}.

Definition truncate_millis (instant : Z) : Z := timestamp_millis instant * MILLI.

(** What the wire form does not keep: the next fire (always recomputed), the
    sub-millisecond part of the instants, and that a mode was not declared
    when a posture is there to derive one from. *)
Definition as_restored (t : CronTask) : CronTask :=
  mkCronTask (t_id t) (t_cron t) (t_prompt t) (t_session_id t) (t_recurring t) (t_timezone t)
    (truncate_millis (t_created_at t)) (truncate_millis <$> t_last_fired t) None (t_origin t)
    (t_max_fires t) (t_fire_count t) (t_cron_lineage t) (t_scope t) (t_permission_posture t)
    (match t_permission_mode t with
     | Some mode => Some mode
     | None => from_posture_record <$> t_permission_posture t
     end)
    (t_paused t) (t_concurrency t) (t_title t) (t_model t) (t_effort t) (t_workdir t)
    (t_ends_at t) (t_interval t).

Lemma as_u64_u32 v : 0 <= v <= u32_max -> as_u64 (JNum v) = Some v.
Proof. unfold u32_max, as_u64. intros Hv. case_test; bsimpl; [done|lia]. Qed.

Lemma timestamp_read instant :
  instant_readable instant ->
  as_i64 (JNum (timestamp_millis instant)) ≫= from_timestamp_millis
  = Some (truncate_millis instant).
Proof.
  intros [Hi Hd]. unfold as_i64. rewrite (proj2 (Z.leb_le _ _)), (proj2 (Z.ltb_lt _ _)) by lia.
  simpl. unfold from_timestamp_millis. by rewrite Hd.
Qed.

Lemma interval_read i :
  0 <= every i <= u32_max -> date_from_str (date_to_string (anchor_date i)) = Some (anchor_date i) ->
  interval_from_json (interval_wire i) = Some i.
Proof.
  intros He Hd. unfold interval_from_json, interval_wire. simpl. unfold as_u32.
  rewrite as_u64_u32 by done. simpl. rewrite (proj2 (Z.leb_le _ _)) by lia. simpl.
  rewrite Hd. destruct i as [e u hhmm a]. by destruct u.
Qed.

Lemma wire_str_absent t key : key ∉ wire_keys -> str_field key (cron_task_wire t) = None.
Proof. intros Hk. unfold str_field. by rewrite wire_absent. Qed.

Lemma wire_get_or t key legacy :
  legacy ∉ wire_keys -> jget_or key legacy (cron_task_wire t) = jget key (cron_task_wire t).
Proof.
  intros Hl. unfold jget_or. rewrite (wire_absent t legacy) by done.
  by destruct (jget key (cron_task_wire t)).
Qed.

Lemma wire_str_or t key legacy :
  legacy ∉ wire_keys ->
  str_field_or key legacy (cron_task_wire t) = str_field key (cron_task_wire t).
Proof.
  intros Hl. unfold str_field_or. rewrite (wire_str_absent t legacy) by done.
  by destruct (str_field key (cron_task_wire t)).
Qed.

Lemma wire_timestamp t instant :
  instant_readable instant ->
  forall key legacy, legacy ∉ wire_keys ->
  jget key (cron_task_wire t) = Some (JNum (timestamp_millis instant)) ->
  timestamp (cron_task_wire t) key legacy = Some (truncate_millis instant).
Proof.
  intros Hi key legacy Hl Hg. unfold timestamp. rewrite wire_get_or by done. rewrite Hg.
  by apply timestamp_read.
Qed.

Lemma wire_read_back t :
  readable t -> cron_task_from_wire (cron_task_wire t) = Some (as_restored t).
Proof.
  intros [Hc Hl Hm Hf He Hd Hi]. unfold cron_task_from_wire.
  rewrite !wire_get_or, !wire_str_or by (vm_compute; set_solver).
  rewrite (wire_str_absent t "session_id") by (vm_compute; set_solver).
  rewrite (wire_timestamp t _ Hc "createdAt") by (first [apply wire_created | vm_compute; set_solver]).
  unfold str_field. autorewrite with mirri_wire. simpl.
  unfold as_restored. f_equal. f_equal; try (by rewrite fmap_bind_id by done).
  - destruct (t_last_fired t) as [last|] eqn:El; simpl.
    + apply wire_timestamp; [by apply Hl|vm_compute; set_solver|].
      by rewrite wire_last_fired, El.
    + unfold timestamp. rewrite wire_get_or by (vm_compute; set_solver).
      by rewrite wire_last_fired, El.
  - by destruct (t_origin t).
  - destruct (t_max_fires t) as [m|] eqn:Em; [|done]. cbn [fmap option_fmap option_map].
    cbn [mbind option_bind]. rewrite as_u64_u32 by auto. simpl. by rewrite wrap_u32_small by auto.
  - pose proof (as_u64_u32 _ Hf) as Hu. unfold as_u64 in Hu. rewrite Hu. by apply wrap_u32_small.
  - by destruct (t_scope t).
  - apply fmap_bind_id. intros p _. by destruct p.
  - rewrite !fmap_bind_id; [done| |]; intros m _; by destruct m.
  - by destruct (t_paused t).
  - case_decide as Hk; [by rewrite Hk|]. by destruct (t_concurrency t).
  - destruct (t_ends_at t) as [d|] eqn:Ed; simpl; [by apply Hd|done].
  - apply fmap_bind_id. intros i Ei. destruct (Hi i Ei). by apply interval_read.
Qed.

(** A task written to the wire log is read back as itself, up to the next
    fire, the sub-millisecond part of its instants and the derived mode. *)
Theorem cron_task_wire_roundtrip t :
  readable t -> cron_task_from_wire (cron_task_wire t) = Some (as_restored t).
Proof. apply wire_read_back. Qed.
End roundtrip.

(** ** Witness *)

Definition restore_sample : CronTask :=
  mkCronTask "cron-a" "" "tick" "session-1" true (Some "Asia/Shanghai") (sample_instant + 5 * MILLI)
    (Some (sample_instant + HOUR)) (Some (sample_instant + DAY)) User (Some 3) 2 true
    (Workspace "ws-1") (Some PYolo) None true Queue (Some "t") None (Some (Custom "max")) None
    (Some 19800) (Some (mkIntervalSpec 2 Week "09:30" 19791)).

Lemma restore_sample_readable : readable restore_sample.
Proof.
  constructor; simpl; intros; simplify_eq; vm_compute; by repeat constructor.
Defined.

Lemma cron_task_wire_roundtrip_witness :
  readable restore_sample /\
  cron_task_from_wire (cron_task_wire restore_sample) = Some (as_restored restore_sample) /\
  t_permission_mode (as_restored restore_sample) = Some Yolo.
Proof.
  split; [exact restore_sample_readable|]. split; [|reflexivity].
  exact (cron_task_wire_roundtrip restore_sample restore_sample_readable).
Defined.
