(* ===== verification/CronManager.v ===== *)
(** * The session cron manager: [CronManager] of [mirri-core/src/cron.rs]

    The task table, the held fires and the wire log of one session, with one
    definition per operation.  An operation that awaits between its steps is
    given as its atomic parts ([due_plans], [record_plans], [apply_plans]) and
    as their composition.  The clock and the minted ids are arguments. *)
From S2P Require Import Prelude RustStd F64 Json CronExpr Chrono CivilCalendar CronNextFire.
From S2P Require Import CronJitter CronTask CronPlan CronWire.
From stdpp Require Import gmap strings.
#[local] Open Scope string_scope.
#[local] Open Scope Z_scope.

Definition CRON_LINEAGE_ONE_SHOT_LIMIT : Z := 12.

(** [SessionEvent::CronFired] *)
Record CronFired : Type := mkCronFired {
  e_task_id : string;
  e_cron : string;
  e_prompt : string;
  e_recurring : bool;
  e_coalesced_count : Z;
  e_stale : bool;
  e_maxed_out : bool;
  e_readonly : bool
}.

(** The manager: the log is [None] while the recorder slot is empty, the bus
    [None] until one is wired in. *)
Record CronManager : Type := mkManager {
  m_tasks : gmap string CronTask;
  m_shutdown : bool;
  m_options : CronOptions;
  m_log : option (list WireOp);
  m_bus : option (list CronFired);
  m_delete_requested : gset string;
  m_held : list CronFire;
  m_lineage : Z
}.

(** Field updates. *)
Definition set_tasks (v : gmap string CronTask) (s : CronManager) : CronManager :=
  mkManager v (m_shutdown s) (m_options s) (m_log s) (m_bus s) (m_delete_requested s) (m_held s)
    (m_lineage s).
Definition set_held (v : list CronFire) (s : CronManager) : CronManager :=
  mkManager (m_tasks s) (m_shutdown s) (m_options s) (m_log s) (m_bus s) (m_delete_requested s) v
    (m_lineage s).
Definition set_lineage (v : Z) (s : CronManager) : CronManager :=
  mkManager (m_tasks s) (m_shutdown s) (m_options s) (m_log s) (m_bus s) (m_delete_requested s)
    (m_held s) v.
Definition request_delete (id : string) (s : CronManager) : CronManager :=
  mkManager (m_tasks s) (m_shutdown s) (m_options s) (m_log s) (m_bus s)
    ({[id]} ∪ m_delete_requested s) (m_held s) (m_lineage s).

(** [env_flag], [scheduling_disabled_from_env] and [CronOptions::default], on
    the values of the variables they read. *)
Definition env_flag (raw : option string) : bool := bool_decide (raw = Some "1").
Definition scheduling_disabled_from_env (disable_cron : option string) : bool :=
  env_flag disable_cron.
Definition default_options (no_jitter no_stale : option string) : CronOptions :=
  mkCronOptions (negb (env_flag no_jitter)) (negb (env_flag no_stale)).

(** [CronManager::with_options], [with_wire_recorder], [set_event_bus] *)
Definition with_options (options : CronOptions) : CronManager :=
  mkManager ∅ false options None None ∅ [] 0.
Definition with_wire_recorder (log : list WireOp) (s : CronManager) : CronManager :=
  mkManager (m_tasks s) (m_shutdown s) (m_options s) (Some log) (m_bus s) (m_delete_requested s)
    (m_held s) (m_lineage s).
Definition set_event_bus (s : CronManager) : CronManager :=
  mkManager (m_tasks s) (m_shutdown s) (m_options s) (m_log s) (Some []) (m_delete_requested s)
    (m_held s) (m_lineage s).

Definition record_op (op : WireOp) (s : CronManager) : CronManager :=
  mkManager (m_tasks s) (m_shutdown s) (m_options s) ((fun log => log ++ [op])%list <$> m_log s)
    (m_bus s) (m_delete_requested s) (m_held s) (m_lineage s).

Definition publish (event : CronFired) (s : CronManager) : CronManager :=
  mkManager (m_tasks s) (m_shutdown s) (m_options s) (m_log s)
    ((fun bus => bus ++ [event])%list <$> m_bus s) (m_delete_requested s) (m_held s) (m_lineage s).

Definition insert_task (t : CronTask) (s : CronManager) : CronManager :=
  set_tasks (<[t_id t := t]> (m_tasks s)) s.

Section operations.
Context `{Chrono} `{ChronoText}.

Definition create_schedule (cron : string) (o : CronCreateOptions) : ScheduleSpec :=
  match o_interval o with Some i => Interval i | None => Cron cron end.

(** The checks of [add] before the task is prepared, at the instant [now]. *)
Definition check_create (cron : string) (recurring : bool) (o : CronCreateOptions) (now : Z)
  : result CronError ()%type :=
  if negb recurring && bool_decide (is_Some (o_max_fires o)) then
    Err (InvalidExpression
      "max_fires cannot be set on a one-shot task (a one-shot fires exactly once)")
  else if bool_decide (o_max_fires o = Some 0) then
    Err (InvalidExpression "max_fires must be a positive integer")
  else match o_ends_at o with
       | None => Ok tt
       | Some ends_at =>
         declared ← tz_parse (o_timezone o);
         let z := tz_resolve declared in
         first ← compute_schedule_next_fire (create_schedule cron o) now z;
         if ends_at <? local_date z first
         then Err (InvalidExpression "结束日期不能早于首次运行日")
         else Ok tt
       end.

(** [CronManager::prepare_task], with the minted id and the creation instant *)
Definition prepare_task (cron prompt session_id : string) (recurring : bool)
    (o : CronCreateOptions) (manager_options : CronOptions) (id : string) (created_at : Z)
  : result CronError CronTask :=
  if bool_decide (is_Some (o_interval o)) && negb (bool_decide (trim cron = "")) then
    Err (InvalidExpression "a task carries either a cron expression or an interval, not both")
  else
    _ ← match o_interval o with Some interval => interval_validate interval | None => Ok tt end;
    declared ← tz_parse (o_timezone o);
    let z := tz_resolve declared in
    let permission_posture :=
      match o_permission_mode o with
      | Some mode => Some (posture mode)
      | None => o_permission_posture o
      end in
    let schedule := create_schedule cron o in
    ideal ← compute_schedule_next_fire schedule created_at z;
    next_fire_at ← schedule_occurrence_for schedule id ideal recurring created_at z manager_options;
    Ok (mkCronTask id cron prompt session_id recurring (o_timezone o) created_at None
          (Some next_fire_at) (o_origin o) (o_max_fires o) 0 (o_cron_lineage o) (o_scope o)
          permission_posture (o_permission_mode o) false (o_concurrency o) (o_title o)
          (o_model o) (o_effort o) (o_workdir o) (o_ends_at o) (o_interval o)).

(** [CronManager::add]: [now] and [created_at] are its two readings of the clock. *)
Definition add (cron prompt session_id : string) (recurring : bool) (o : CronCreateOptions)
    (now created_at : Z) (id : string) (s : CronManager) : CronManager * result CronError string :=
  match
    (_ ← check_create cron recurring o now;
     prepare_task cron prompt session_id recurring o (m_options s) id created_at)
  with
  | Err e => (s, Err e)
  | Ok t => (insert_task t (record_op (CronAdd (cron_task_wire t)) s), Ok (t_id t))
  end.

Definition lineage_options (timezone : option string) : CronCreateOptions :=
  mkCronCreateOptions timezone None Agent true Session None None Skip None None None None None
    None.

(** [CronManager::add_lineage_one_shot] *)
Definition add_lineage_one_shot (cron prompt session_id : string) (timezone : option string)
    (now created_at : Z) (id : string) (s : CronManager) : CronManager * result CronError string :=
  match
    (declared ← tz_parse timezone;
     _ ← compute_next_fire cron now (tz_resolve declared);
     if CRON_LINEAGE_ONE_SHOT_LIMIT <=? m_lineage s then
       Err (InvalidExpression "本会话内定时血统创建的一次性任务累计已达上限（12），                     已拒绝新的创建。改道路径：请用户接管（由用户在管理面直接创建该任务）。")
     else Ok (m_lineage s + 1))
  with
  | Err e => (s, Err e)
  | Ok new_count =>
    add cron prompt session_id false (lineage_options timezone) now created_at id
      (record_op (CronLineageCreated new_count) (set_lineage new_count s))
  end.

Definition restore_lineage_count (count : Z) (s : CronManager) : CronManager :=
  set_lineage (Z.max (m_lineage s) count) s.

(** [CronManager::remove] *)
Definition remove (id : string) (s : CronManager) : CronManager * bool :=
  let s := request_delete id s in
  match m_tasks s !! id with
  | None => (s, false)
  | Some _ => (set_tasks (delete id (m_tasks s)) (record_op (CronDelete [id]) s), true)
  end.

Definition is_delete_requested (id : string) (s : CronManager) : bool :=
  bool_decide (id ∈ m_delete_requested s).

(** *** Held fires *)

Definition merge_fire (existing fire : CronFire) : CronFire :=
  mkCronFire (f_task_id existing) (f_prompt existing) (f_cron existing) (f_recurring existing)
    (f_coalesced_count existing + f_coalesced_count fire) (f_stale fire) (f_maxed_out fire)
    (f_readonly existing)
    (match f_scheduled_at fire with Some at_ => Some at_ | None => f_scheduled_at existing end)
    (f_late_by_ms existing) (f_scope existing) (f_ended existing).

Definition find_held (id : string) (held : list CronFire) : option CronFire :=
  snd <$> list_find (fun f => f_task_id f = id) held.

(** Replace the first held fire of a task, or append. *)
Fixpoint upsert_held (fire : CronFire) (held : list CronFire) : list CronFire :=
  match held with
  | [] => [fire]
  | f :: held' =>
    if decide (f_task_id f = f_task_id fire) then fire :: held' else f :: upsert_held fire held'
  end.

(** [CronManager::hold_fire] *)
Definition hold_fire (fire : CronFire) (s : CronManager) : CronManager :=
  let snapshot :=
    match find_held (f_task_id fire) (m_held s) with
    | Some existing => merge_fire existing fire
    | None => fire
    end in
  let s := record_op (CronHeldAdd (cron_fire_wire snapshot)) s in
  set_held (upsert_held snapshot (m_held s)) s.

(** [CronManager::clear_held] *)
Definition clear_held (task_id : string) (s : CronManager) : CronManager :=
  let s := record_op (CronHeldClear task_id) s in
  set_held (filter (fun f => f_task_id f <> task_id) (m_held s)) s.

(** [CronManager::purge_deleted_held] *)
Definition purge_deleted_held (s : CronManager) : CronManager :=
  foldl (fun s fire => if is_delete_requested (f_task_id fire) s
                       then clear_held (f_task_id fire) s else s) s (m_held s).

Definition restore_held (fires : list CronFire) (s : CronManager) : CronManager :=
  set_held (m_held s ++ fires) s.

(** *** Run now, restore, queries *)

Definition readonly_posture (t : CronTask) : bool :=
  bool_decide (t_permission_posture t = Some ReadOnly).

(** The fire and the event of one delivery: [coalesced], the verdicts and the
    scheduled moment come from the plan. *)
Definition fire_of (t : CronTask) (coalesced : Z) (stale maxed_out : bool)
    (scheduled_at : option Z) (ended : bool) : CronFire :=
  mkCronFire (t_id t) (t_prompt t) (t_cron t) (t_recurring t) coalesced stale maxed_out
    (readonly_posture t) scheduled_at None (t_scope t) ended.

Definition event_of (t : CronTask) (coalesced : Z) (stale maxed_out : bool) : CronFired :=
  mkCronFired (t_id t) (t_cron t) (t_prompt t) (t_recurring t) coalesced stale maxed_out
    (readonly_posture t).

(** [CronManager::trigger] *)
Definition trigger (id : string) (s : CronManager) : CronManager * option CronFire :=
  if m_shutdown s then (s, None)
  else match m_tasks s !! id with
       | None => (s, None)
       | Some t => (publish (event_of t 1 false false) s,
                    Some (fire_of t 1 false false None false))
       end.

(** The restored schedule of one task: [None] when the task is skipped. *)
Definition restored_next (options : CronOptions) (t : CronTask) : option (option Z) :=
  if negb (t_recurring t) && bool_decide (is_Some (t_last_fired t)) then Some None
  else
    let z := tz_or_local (t_timezone t) in
    match compute_schedule_next_fire (task_schedule t) (fire_base t) z with
    | Ok ideal =>
      if occurrence_past_ends_at t ideal z then Some None
      else Some (Some (delivery options t z ideal))
    | Err _ => None
    end.

(** [CronManager::restore_tasks] *)
Definition restore_tasks (restored : list CronTask) (s : CronManager) : CronManager :=
  foldl (fun s t => match restored_next (m_options s) t with
                    | Some next => insert_task (set_next_fire next t) s
                    | None => s
                    end) s restored.

Definition set_next_fire_at (id : string) (at_ : option Z) (s : CronManager)
  : CronManager * bool :=
  match m_tasks s !! id with
  | Some t => (set_tasks (<[id := set_next_fire at_ t]> (m_tasks s)) s, true)
  | None => (s, false)
  end.

Definition list_tasks (s : CronManager) : list CronTask :=
  sort_by_key t_id ((map_to_list (m_tasks s)).*2).

Definition get (id : string) (s : CronManager) : option CronTask := m_tasks s !! id.

Definition next_fire_for (cron : string) (timezone : option string) (now : Z) : option Z :=
  declared ← result_ok (tz_parse timezone);
  result_ok (compute_next_fire cron now (tz_resolve declared)).

Definition task_preview_fires (t : CronTask) (count : nat) (anchor : Z) : list Z :=
  preview_fires (task_schedule t) (t_timezone t) count anchor.

Definition shutdown (s : CronManager) : CronManager :=
  mkManager (m_tasks s) true (m_options s) (m_log s) (m_bus s) (m_delete_requested s) (m_held s)
    (m_lineage s).

(** *** [CronManager::check_due] *)

Definition is_due (now : Z) (t : CronTask) : bool :=
  match t_next_fire_at t with Some next => next <=? now | None => false end.

(** The detection pass: a plan per due task, sorted by id. *)
Definition due_plans (now : Z) (s : CronManager) : list FirePlan :=
  sort_by_key (t_id ∘ p_task)
    ((fun t => plan_fire (m_options s) t now)
       <$> filter (fun t => is_due now t = true) ((map_to_list (m_tasks s)).*2)).

(** The operations recorded for one plan before it is applied. *)
Definition plan_ops (p : FirePlan) : list WireOp :=
  let id := t_id (p_task p) in
  [CronCursor id (wrap_u64 (timestamp_millis (p_advanced p)))
     (Some (wrap_u32 (t_fire_count (p_task p) + 1)))]
  ++ (if p_stale p then [CronDelete [id]] else [])
  ++ (if p_maxed_out p then [CronDelete [id]] else [])
  ++ (if p_ended p then [CronDelete [id]] else []).

Definition record_plans (plans : list FirePlan) (s : CronManager) : CronManager :=
  foldl (fun s op => record_op op s) s (plans ≫= plan_ops).

(** One step of the apply pass; [due] and [gone] are the fires so far and the
    ids removed when the pass is over. *)
Definition apply_plan (now : Z) (acc : CronManager * list CronFire * list string) (p : FirePlan)
  : CronManager * list CronFire * list string :=
  let '(s, due, gone) := acc in
  match m_tasks s !! t_id (p_task p) with
  | None => acc
  | Some t =>
    if negb (is_due now t) then acc
    else
      let s := publish (event_of t (p_coalesced_count p) (p_stale p) (p_maxed_out p)) s in
      let t' := set_cursor (Some (p_advanced p)) (wrap_u32 (t_fire_count t + 1)) t in
      let fire := fire_of t (p_coalesced_count p) (p_stale p) (p_maxed_out p)
                    (p_scheduled_at p) (p_ended p) in
      let keep t' := set_tasks (<[t_id (p_task p) := t']> (m_tasks s)) s in
      if survives p t then
        match p_next_fire_at p with
        | Some next => (keep (set_next_fire (Some next) t'), (due ++ [fire])%list, gone)
        | None => (keep t', (due ++ [fire])%list, (gone ++ [t_id t])%list)
        end
      else (keep t', (due ++ [fire])%list, (gone ++ [t_id t])%list)
  end.

Definition remove_all (gone : list string) (tasks : gmap string CronTask) : gmap string CronTask :=
  foldl (fun tasks id => delete id tasks) tasks gone.

Definition apply_plans (now : Z) (plans : list FirePlan) (s : CronManager)
  : CronManager * list CronFire :=
  let '(s, due, gone) := foldl (apply_plan now) (s, [], []) plans in
  (set_tasks (remove_all gone (m_tasks s)) s, sort_by_key f_task_id due).

Definition check_due (now : Z) (s : CronManager) : CronManager * list CronFire :=
  if m_shutdown s then (s, [])
  else match due_plans now s with
       | [] => (s, [])
       | plans => apply_plans now plans (record_plans plans s)
       end.
End operations.

(** ** One pass over the table *)

(** Every task sits under its own id. *)
Definition keyed (s : CronManager) : Prop := map_Forall (fun k t => t_id t = k) (m_tasks s).

Definition plan_id (p : FirePlan) : string := t_id (p_task p).

(** The entry a delivered task leaves in the table: [None] when it goes away. *)
Definition plan_outcome (p : FirePlan) (t : CronTask) : option CronTask :=
  if survives p t then
    (fun next => set_next_fire (Some next)
                   (set_cursor (Some (p_advanced p)) (wrap_u32 (t_fire_count t + 1)) t))
      <$> p_next_fire_at p
  else None.

Definition plan_delivery (p : FirePlan) (t : CronTask) : CronFire :=
  fire_of t (p_coalesced_count p) (p_stale p) (p_maxed_out p) (p_scheduled_at p) (p_ended p).

Definition plan_event (p : FirePlan) (t : CronTask) : CronFired :=
  event_of t (p_coalesced_count p) (p_stale p) (p_maxed_out p).

Section apply.
Context (now : Z).

(** What the table holds for a planned task: present and still due. *)
Definition target (s : CronManager) (p : FirePlan) : option CronTask :=
  t ← m_tasks s !! plan_id p; if is_due now t then Some t else None.

Lemma apply_plan_target s due gone p :
  keyed s ->
  apply_plan now (s, due, gone) p =
  match target s p with
  | None => (s, due, gone)
  | Some t =>
    (set_tasks
       (<[plan_id p := default
            (set_cursor (Some (p_advanced p)) (wrap_u32 (t_fire_count t + 1)) t)
            (plan_outcome p t)]> (m_tasks s))
       (publish (plan_event p t) s),
     (due ++ [plan_delivery p t])%list,
     (gone ++ match plan_outcome p t with Some _ => [] | None => [plan_id p] end)%list)
  end.
Proof.
  intros Hk. unfold target, plan_outcome, plan_id. simpl.
  destruct (m_tasks s !! t_id (p_task p)) as [t|] eqn:Ht; [|done]. simpl.
  destruct (is_due now t); [|done]. simpl. pose proof (Hk _ _ Ht) as Hid. simpl in Hid.
  destruct (survives p t); [destruct (p_next_fire_at p)|]; simpl; by rewrite ?Hid, ?app_nil_r.
Qed.

Lemma set_cursor_id last count t : t_id (set_cursor last count t) = t_id t.
Proof. done. Qed.

Lemma plan_outcome_id p t t' : plan_outcome p t = Some t' -> t_id t' = t_id t.
Proof.
  unfold plan_outcome. destruct (survives p t), (p_next_fire_at p); simpl; intros; by simplify_eq.
Qed.

Lemma target_other s p q t u :
  plan_id p <> plan_id q -> target (set_tasks (<[plan_id p := t]> (m_tasks s)) u) q = target s q.
Proof. intros Hne. unfold target. simpl. by rewrite lookup_insert_ne by done. Qed.

Definition delivered s p : option CronFire := plan_delivery p <$> target s p.
Definition announced s p : option CronFired := plan_event p <$> target s p.
Definition dropped s p : option string :=
  t ← target s p; match plan_outcome p t with Some _ => None | None => Some (plan_id p) end.
Definition left_entry s p : option CronTask :=
  match target s p with
  | Some t => Some (default (set_cursor (Some (p_advanced p)) (wrap_u32 (t_fire_count t + 1)) t)
                      (plan_outcome p t))
  | None => m_tasks s !! plan_id p
  end.

(** The operations that only touch the table and the bus. *)
Definition same_rest (s s' : CronManager) : Prop :=
  m_shutdown s' = m_shutdown s /\ m_options s' = m_options s /\ m_log s' = m_log s /\
  m_delete_requested s' = m_delete_requested s /\ m_held s' = m_held s /\
  m_lineage s' = m_lineage s.

Lemma apply_plan_keyed s p t t' :
  keyed s -> target s p = Some t -> t_id t' = t_id t ->
  keyed (set_tasks (<[plan_id p := t']> (m_tasks s)) (publish (plan_event p t) s)).
Proof.
  unfold target. intros Hk Ht Hid. destruct (m_tasks s !! plan_id p) as [t0|] eqn:Hl; [|done].
  simpl in Ht. destruct (is_due now t0); simplify_eq. pose proof (Hk _ _ Hl) as Hid0.
  apply map_Forall_insert_2; [|exact Hk]. simpl in *. congruence.
Qed.

Lemma left_entry_id p t last count :
  t_id (default (set_cursor last count t) (plan_outcome p t)) = t_id t.
Proof. destruct (plan_outcome p t) as [t1|] eqn:Ho; [by apply plan_outcome_id in Ho|done]. Qed.

Lemma apply_plans_fold ps : forall s due gone,
  keyed s -> NoDup (plan_id <$> ps) ->
  exists s',
    foldl (apply_plan now) (s, due, gone) ps
    = (s', due ++ omap (delivered s) ps, gone ++ omap (dropped s) ps)%list /\
    (forall k, k ∉ (plan_id <$> ps) -> m_tasks s' !! k = m_tasks s !! k) /\
    (forall p, p ∈ ps -> m_tasks s' !! plan_id p = left_entry s p) /\
    m_bus s' = (fun bus => bus ++ omap (announced s) ps)%list <$> m_bus s /\ same_rest s s'.
Proof.
  induction ps as [|p ps IH]; intros s due gone Hk Hnd.
  { exists s. simpl. rewrite !app_nil_r. split_and!; [done|done|set_solver| |done].
    destruct (m_bus s); simpl; by rewrite ?app_nil_r. }
  cbn in Hnd. apply NoDup_cons in Hnd as [Hp Hnd].
  assert (Hne : forall q, q ∈ ps -> plan_id p <> plan_id q).
  { intros q Hq Heq. apply Hp. rewrite Heq. by apply list_elem_of_fmap_2. }
  cbn [foldl]. rewrite apply_plan_target by done.
  destruct (target s p) as [t|] eqn:Ht.
  - set (s1 := set_tasks _ _).
    assert (Hk1 : keyed s1) by (eapply apply_plan_keyed; [done|done|apply left_entry_id]).
    assert (Htarget : forall q, q ∈ ps -> target s1 q = target s q)
      by (intros q Hq; apply target_other; auto).
    destruct (IH s1 (due ++ [plan_delivery p t])%list
      (gone ++ match plan_outcome p t with Some _ => [] | None => [plan_id p] end)%list Hk1 Hnd)
      as (s' & -> & Hout & Hin & Hbus & Hrest).
    rewrite (omap_ext_in (delivered s1) (delivered s)),
      (omap_ext_in (dropped s1) (dropped s))
      by (intros q Hq; unfold delivered, dropped; by rewrite Htarget).
    rewrite (omap_ext_in (announced s1) (announced s)) in Hbus
      by (intros q Hq; unfold announced; by rewrite Htarget).
    exists s'. rewrite !omap_cons_eq.
    assert (Hd : delivered s p = Some (plan_delivery p t)) by (unfold delivered; by rewrite Ht).
    assert (Ha : announced s p = Some (plan_event p t)) by (unfold announced; by rewrite Ht).
    rewrite Hd, Ha. split_and!.
    + rewrite <- !app_assoc. unfold dropped at 2. rewrite Ht. simpl.
      by destruct (plan_outcome p t).
    + intros k Hnk. rewrite Hout by set_solver. unfold s1. simpl.
      rewrite lookup_insert_ne; [done|]. set_solver.
    + intros q Hq. unfold left_entry. apply elem_of_cons in Hq as [-> |Hq].
      * rewrite Hout by done. rewrite Ht. unfold s1. simpl. by rewrite lookup_insert_eq.
      * rewrite Hin by done. unfold left_entry. rewrite Htarget by done.
        unfold s1. simpl. by rewrite lookup_insert_ne by auto.
    + rewrite Hbus. unfold s1. simpl. destruct (m_bus s); simpl; [|done].
      by rewrite <- app_assoc.
    + done.
  - destruct (IH s due gone Hk Hnd) as (s' & -> & Hout & Hin & Hbus & Hrest).
    exists s'. rewrite !omap_cons_eq.
    assert (Hd : delivered s p = None) by (unfold delivered; by rewrite Ht).
    assert (Hg : dropped s p = None) by (unfold dropped; by rewrite Ht).
    assert (Ha : announced s p = None) by (unfold announced; by rewrite Ht).
    rewrite Hd, Hg, Ha. split_and!; [done| | |done|done].
    + intros k Hnk. apply Hout. set_solver.
    + intros q Hq. apply elem_of_cons in Hq as [-> |Hq]; [|by apply Hin].
      unfold left_entry. rewrite Ht. by apply Hout.
Qed.

(** *** The removals at the end of the pass *)

Lemma remove_all_lookup gone tasks k :
  remove_all gone tasks !! k = if decide (k ∈ gone) then None else tasks !! k.
Proof.
  revert tasks. induction gone as [|id gone IH]; intros tasks; [by rewrite decide_False by set_solver|].
  cbn [remove_all foldl]. fold (remove_all gone (delete id tasks)). rewrite IH.
  destruct (decide (k ∈ gone)); [by rewrite decide_True by set_solver|].
  destruct (decide (k = id)) as [->|]; [by rewrite decide_True, lookup_delete_eq by set_solver|].
  by rewrite decide_False, lookup_delete_ne by set_solver.
Qed.
End apply.

(** ** [check_due] as a function of the table *)

Section check_due_facts.
Context `{Chrono} `{ChronoText}.

Lemma table_NoDup s : keyed s -> NoDup (t_id <$> (map_to_list (m_tasks s)).*2).
Proof. apply table_values_NoDup. Qed.

Lemma elem_of_list_tasks s t :
  keyed s -> t ∈ list_tasks s <-> m_tasks s !! t_id t = Some t.
Proof. apply elem_of_sorted_values. Qed.

Lemma list_tasks_sorted s :
  keyed s -> NoDup (t_id <$> list_tasks s) /\ StronglySorted (key_le t_id) (list_tasks s).
Proof. apply sorted_values_sorted. Qed.

(** The due tasks, in listing order. *)
Definition due_tasks (now : Z) (s : CronManager) : list CronTask :=
  filter (fun t => is_due now t = true) (list_tasks s).

Lemma elem_of_due_tasks now s t :
  keyed s -> t ∈ due_tasks now s <-> m_tasks s !! t_id t = Some t /\ is_due now t = true.
Proof.
  intros Hk. unfold due_tasks. rewrite list_elem_of_filter, elem_of_list_tasks by done. tauto.
Qed.

Lemma due_tasks_sorted now s :
  keyed s -> NoDup (t_id <$> due_tasks now s) /\ StronglySorted (key_le t_id) (due_tasks now s).
Proof.
  intros Hk. destruct (list_tasks_sorted s Hk) as [Hnd Hs]. split.
  - eapply sublist_NoDup; [exact Hnd|]. apply fmap_sublist, sublist_filter.
  - by apply StronglySorted_filter.
Qed.

Lemma due_plans_eq now s :
  keyed s -> due_plans now s = (fun t => plan_fire (m_options s) t now) <$> due_tasks now s.
Proof.
  intros Hk. pose proof (table_NoDup s Hk) as Hnd. unfold due_plans, due_tasks, list_tasks.
  rewrite (sort_by_key_fmap _ t_id).
  - by rewrite sort_by_key_filter.
  - intros t. simpl. by rewrite plan_fire_task.
  - eapply sublist_NoDup; [exact Hnd|]. apply fmap_sublist, sublist_filter.
Qed.

Lemma elem_of_due_plans now s p :
  keyed s ->
  p ∈ due_plans now s <-> exists t, p = plan_fire (m_options s) t now /\ t ∈ due_tasks now s.
Proof. intros Hk. rewrite due_plans_eq by done. apply list_elem_of_fmap. Qed.

Lemma due_plan_ids now s : keyed s -> plan_id <$> due_plans now s = t_id <$> due_tasks now s.
Proof.
  intros Hk. rewrite due_plans_eq, <- list_fmap_compose by done.
  apply list_fmap_ext. intros i t _. unfold plan_id. simpl. by rewrite plan_fire_task.
Qed.

Lemma record_plans_eq plans s :
  record_plans plans s =
  mkManager (m_tasks s) (m_shutdown s) (m_options s)
    ((fun log => log ++ (plans ≫= plan_ops))%list <$> m_log s) (m_bus s) (m_delete_requested s)
    (m_held s) (m_lineage s).
Proof.
  unfold record_plans. generalize (plans ≫= plan_ops) as ops. intros ops. revert s.
  induction ops as [|op ops IH]; intros s; simpl.
  - destruct s as [? ? ? [log|] ? ? ? ?]; simpl; by rewrite ?app_nil_r.
  - rewrite IH. unfold record_op. simpl. f_equal.
    destruct (m_log s); simpl; [by rewrite <- app_assoc|done].
Qed.

Lemma target_due now s t :
  keyed s -> t ∈ due_tasks now s ->
  target now (record_plans (due_plans now s) s) (plan_fire (m_options s) t now) = Some t.
Proof.
  intros Hk Ht. apply elem_of_due_tasks in Ht as [Hl Hd]; [|done].
  unfold target, plan_id. rewrite record_plans_eq, plan_fire_task. simpl. rewrite Hl. simpl.
  by rewrite Hd.
Qed.

(** What the pass collects is collected from every due task. *)
Lemma omap_due {B} now s (f : FirePlan -> option B) (g : FirePlan -> CronTask -> B) :
  keyed s ->
  (forall t, t ∈ due_tasks now s -> f (plan_fire (m_options s) t now)
                                   = Some (g (plan_fire (m_options s) t now) t)) ->
  omap f (due_plans now s)
  = (fun t => g (plan_fire (m_options s) t now) t) <$> due_tasks now s.
Proof.
  intros Hk Hf. rewrite (omap_total _ (fun p => g p (p_task p))).
  - rewrite due_plans_eq, <- list_fmap_compose by done. apply list_fmap_ext.
    intros i t _. simpl. by rewrite plan_fire_task.
  - intros p Hp. rewrite due_plans_eq in Hp by done.
    apply list_elem_of_fmap in Hp as (t & -> & Ht). by rewrite plan_fire_task, Hf.
Qed.

Lemma plan_id_due options now t : plan_id (plan_fire options t now) = t_id t.
Proof. unfold plan_id. by rewrite plan_fire_task. Qed.

Lemma elem_of_dropped now s k :
  keyed s ->
  k ∈ omap (dropped now (record_plans (due_plans now s) s)) (due_plans now s) <->
  exists t, t ∈ due_tasks now s /\ k = t_id t /\
    plan_outcome (plan_fire (m_options s) t now) t = None.
Proof.
  intros Hk. rewrite list_elem_of_omap. split.
  - intros (p & Hp & Hd). apply elem_of_due_plans in Hp as (t & -> & Ht); [|done].
    exists t. unfold dropped in Hd.
    rewrite target_due, plan_id_due in Hd by done. simpl in Hd.
    destruct (plan_outcome _ _) eqn:Ho; simplify_eq. done.
  - intros (t & Ht & -> & Ho). exists (plan_fire (m_options s) t now).
    split; [apply elem_of_due_plans; eauto|]. unfold dropped.
    rewrite target_due, plan_id_due by done. simpl. by rewrite Ho.
Qed.

(** The entry of the table after a pass. *)
Definition after_check (options : CronOptions) (now : Z) (t : CronTask) : option CronTask :=
  if is_due now t then plan_outcome (plan_fire options t now) t else Some t.

Definition fire_for (options : CronOptions) (now : Z) (t : CronTask) : CronFire :=
  plan_delivery (plan_fire options t now) t.

Lemma check_due_eq now s :
  keyed s -> m_shutdown s = false ->
  let s' := fst (check_due now s) in
  snd (check_due now s) = fire_for (m_options s) now <$> due_tasks now s /\
  (forall k, m_tasks s' !! k = m_tasks s !! k ≫= after_check (m_options s) now) /\
  m_log s' = (fun log => log ++ (due_plans now s ≫= plan_ops))%list <$> m_log s /\
  m_bus s' = (fun bus => bus ++
    ((fun t => plan_event (plan_fire (m_options s) t now) t) <$> due_tasks now s))%list <$> m_bus s /\
  m_options s' = m_options s /\ m_shutdown s' = false /\ m_held s' = m_held s /\
  m_delete_requested s' = m_delete_requested s /\ m_lineage s' = m_lineage s.
Proof.
  intros Hk Hs. cbv zeta. unfold check_due. rewrite Hs.
  destruct (due_plans now s) as [|p0 ps0] eqn:Hp.
  - assert (Hn : due_tasks now s = []).
    { rewrite due_plans_eq in Hp by done. by apply fmap_nil_inv in Hp. }
    rewrite Hn. simpl. split_and!; try done.
    + intros k. destruct (m_tasks s !! k) as [t|] eqn:Hl; [|done]. simpl. unfold after_check.
      destruct (is_due now t) eqn:Hd; [|done].
      assert (Ht : t ∈ due_tasks now s).
      { apply elem_of_due_tasks; [done|]. by rewrite (Hk _ _ Hl : t_id t = k). }
      rewrite Hn in Ht. set_solver.
    + destruct (m_log s); simpl; by rewrite ?app_nil_r.
    + destruct (m_bus s); simpl; by rewrite ?app_nil_r.
  - rewrite <- Hp. clear p0 ps0 Hp. set (s1 := record_plans (due_plans now s) s).
    assert (Hk1 : keyed s1) by (unfold s1; by rewrite record_plans_eq).
    destruct (due_tasks_sorted now s Hk) as [Hnd Hsort].
    unfold apply_plans.
    destruct (apply_plans_fold now (due_plans now s) s1 [] [] Hk1)
      as (s' & -> & Hout & Hin & Hbus & Hrest); [by rewrite due_plan_ids|].
    assert (Htgt : forall t, t ∈ due_tasks now s ->
              target now s1 (plan_fire (m_options s) t now) = Some t)
      by (intros; by apply target_due).
    rewrite (omap_due now s (delivered now s1) plan_delivery)
      by (done || by intros t Ht; unfold delivered; rewrite Htgt).
    rewrite (omap_due now s (announced now s1) plan_event) in Hbus
      by (done || by intros t Ht; unfold announced; rewrite Htgt).
    destruct Hrest as (Hr1 & Hr2 & Hr3 & Hr4 & Hr5 & Hr6).
    unfold s1 in Hr1, Hr2, Hr3, Hr4, Hr5, Hr6, Hbus. rewrite record_plans_eq in Hr1, Hr2, Hr3, Hr4, Hr5, Hr6, Hbus.
    cbn [fst snd m_log m_bus m_options m_shutdown m_held m_delete_requested m_lineage m_tasks
         set_tasks] in *.
    split_and!; try done; [| |congruence].
    + rewrite app_nil_l. rewrite (sort_by_key_fmap _ t_id) by done.
      by rewrite sort_by_key_id.
    + intros k. rewrite remove_all_lookup, app_nil_l.
      destruct (m_tasks s !! k) as [t|] eqn:Hl; simpl; last first.
      { case_decide; [done|]. rewrite Hout.
        - unfold s1. by rewrite record_plans_eq.
        - rewrite due_plan_ids by done. intros Hin'. apply list_elem_of_fmap in Hin' as (t & -> & Ht).
          apply elem_of_due_tasks in Ht as [Ht _]; [|done]. congruence. }
      pose proof (Hk _ _ Hl : t_id t = k) as Hid. subst k. unfold after_check.
      assert (Hgone : t_id t ∈ omap (dropped now s1) (due_plans now s) <->
        is_due now t = true /\ plan_outcome (plan_fire (m_options s) t now) t = None).
      { unfold s1. rewrite elem_of_dropped by done. split.
        - intros (u & Hu & Hid & Ho). apply elem_of_due_tasks in Hu as [Hlu Hu]; [|done].
          rewrite <- Hid, Hl in Hlu. by simplify_eq.
        - intros [Hd Ho]. exists t. split_and!; [by apply elem_of_due_tasks|done|done]. }
      destruct (is_due now t) eqn:Hd.
      * assert (Ht : t ∈ due_tasks now s) by (by apply elem_of_due_tasks).
        specialize (Hin (plan_fire (m_options s) t now)).
        rewrite plan_id_due in Hin. unfold left_entry in Hin. rewrite Htgt in Hin by done.
        destruct (plan_outcome _ t) as [t'|] eqn:Ho.
        -- rewrite decide_False by (rewrite Hgone; naive_solver).
           apply Hin, elem_of_due_plans; eauto.
        -- by rewrite decide_True by (rewrite Hgone; done).
      * rewrite decide_False by (rewrite Hgone; naive_solver). rewrite Hout.
        -- unfold s1. by rewrite record_plans_eq.
        -- rewrite due_plan_ids by done. intros Hi.
           apply list_elem_of_fmap in Hi as (u & Hid & Hu).
           apply elem_of_due_tasks in Hu as [Hlu Hu]; [|done]. rewrite <- Hid in Hlu. congruence.
Qed.
End check_due_facts.

(** ** Creation *)

Section creation.
Context `{Chrono} `{ChronoText}.

Lemma add_inv cron prompt session_id recurring o now created_at id s s' r :
  add cron prompt session_id recurring o now created_at id s = (s', r) ->
  match r with
  | Err _ => s' = s
  | Ok minted =>
    exists t, minted = id /\ t_id t = id /\ check_create cron recurring o now = Ok tt /\
      prepare_task cron prompt session_id recurring o (m_options s) id created_at = Ok t /\
      s' = insert_task t (record_op (CronAdd (cron_task_wire t)) s)
  end.
Proof.
  unfold add. destruct (check_create cron recurring o now) as [[]|e] eqn:Hc; simpl; last first.
  { intros. by simplify_eq. }
  destruct (prepare_task _ _ _ _ _ _ _ _) as [t|e] eqn:Hp; intros; simplify_eq; [|done].
  exists t. split_and!; try done.
  all: unfold prepare_task in Hp; case_match; [done|];
    repeat (apply bind_ok in Hp as (? & _ & Hp)); by simplify_eq.
Qed.

Lemma prepare_task_inv cron prompt session_id recurring o mo id created_at t :
  prepare_task cron prompt session_id recurring o mo id created_at = Ok t ->
  let z := tz_or_local (o_timezone o) in
  t_id t = id /\ t_created_at t = created_at /\ t_recurring t = recurring /\
  t_last_fired t = None /\ t_fire_count t = 0 /\ t_max_fires t = o_max_fires o /\
  t_ends_at t = o_ends_at o /\ t_timezone t = o_timezone o /\
  t_cron_lineage t = o_cron_lineage o /\ t_scope t = o_scope o /\ t_paused t = false /\
  task_schedule t = create_schedule cron o /\
  exists ideal, compute_schedule_next_fire (task_schedule t) created_at z = Ok ideal /\
    t_next_fire_at t = Some (delivery mo t z ideal).
Proof.
  unfold prepare_task. intros Hp. case_match; [done|].
  apply bind_ok in Hp as ([] & Hv & Hp). apply bind_ok in Hp as (declared & Hd & Hp).
  apply bind_ok in Hp as (ideal & Hi & Hp). apply bind_ok in Hp as (next & Hn & Hp).
  simplify_eq. cbv zeta. split_and!; try done.
  exists ideal. unfold tz_or_local. rewrite Hd. split; [exact Hi|]. simpl. f_equal.
  unfold delivery. simpl.
  replace (task_schedule _) with (create_schedule cron o) by done. by rewrite Hn.
Qed.
End creation.

(** ** Properties of the operations *)

Section properties.
Context `{Chrono} `{ChronoText}.

Lemma delivery_after_creation o t z ideal :
  t_created_at t < ideal ->
  if t_recurring t then ideal <= delivery o t z ideal else t_created_at t <= delivery o t z ideal.
Proof.
  intros Hc. destruct (t_recurring t) eqn:Hr; [by apply delivery_recurring|].
  unfold delivery, schedule_occurrence_for. rewrite Hr. destruct (jitter o); simpl; [|lia].
  apply one_shot_jittered_next_floor. lia.
Qed.

Lemma check_create_inv cron recurring o now :
  check_create cron recurring o now = Ok tt ->
  (forall m, o_max_fires o = Some m -> recurring = true /\ m <> 0) /\
  (forall ends_at, o_ends_at o = Some ends_at ->
     exists first, compute_schedule_next_fire (create_schedule cron o) now
                     (tz_or_local (o_timezone o)) = Ok first /\
       local_date (tz_or_local (o_timezone o)) first <= ends_at).
Proof.
  unfold check_create. case_test; [done|]. case_test; [done|]. intros Hc. split.
  - intros m Hm. rewrite Hm in *. bsimpl. split; [|congruence].
    destruct recurring; [done|]. destruct_or?; naive_solver.
  - intros ends_at He. rewrite He in Hc.
    apply bind_ok in Hc as (declared & Hd & Hc). apply bind_ok in Hc as (first & Hf & Hc).
    destruct (ends_at <? _) eqn:Hlt; [done|]. unfold tz_or_local. rewrite Hd. exists first. split; [done|]. lia.
Qed.

(** Creating a task: on success the table gains exactly the new task, under
    the minted id, after its record was appended to the log; its first fire is
    after the creation (not before it for a one-shot, whose jitter is
    backward), its budget is a positive one on a recurring task and the first
    run day is not past its end date.  On an error nothing changes. *)
Theorem add_outcome cron prompt session_id recurring o now created_at id s :
  let '(s', r) := add cron prompt session_id recurring o now created_at id s in
  match r with
  | Err _ => s' = s
  | Ok minted =>
    minted = id /\
    exists t next,
      m_tasks s' = <[id := t]> (m_tasks s) /\
      m_log s' = (fun log => log ++ [CronAdd (cron_task_wire t)])%list <$> m_log s /\
      t_id t = id /\ t_recurring t = recurring /\ t_fire_count t = 0 /\ t_last_fired t = None /\
      t_next_fire_at t = Some next /\
      (if recurring then created_at < next else created_at <= next) /\
      (forall m, t_max_fires t = Some m -> recurring = true /\ m <> 0) /\
      (forall ends_at, t_ends_at t = Some ends_at ->
         exists first, compute_schedule_next_fire (task_schedule t) now
                         (tz_or_local (t_timezone t)) = Ok first /\
           local_date (tz_or_local (t_timezone t)) first <= ends_at)
  end.
Proof.
  destruct (add _ _ _ _ _ _ _ _ _) as [s' r] eqn:Ha. apply add_inv in Ha.
  destruct r as [minted|e]; [|done]. destruct Ha as (t & -> & Hid & Hc & Hp & ->).
  apply check_create_inv in Hc as [Hm He].
  apply prepare_task_inv in Hp
    as (_ & Hcr & Hrec & Hlf & Hfc & Hmf & Hea & Htz & _ & _ & _ & Hsch & ideal & Hi & Hn).
  split; [done|]. exists t. eexists. rewrite Hmf, Hea, Htz, Hsch. simpl.
  split_and!; try done; [by rewrite Hid|].
  pose proof (compute_schedule_next_fire_later _ _ _ _ Hi) as Hlt.
  pose proof (delivery_after_creation (m_options s) t (tz_or_local (o_timezone o)) ideal) as Hdl.
  rewrite Hcr, Hrec in Hdl. specialize (Hdl Hlt). destruct recurring; lia.
Qed.

(** The lineage cap: past the limit nothing is registered or counted; below
    it the count advances by one before the task's own checks, its operation is
    recorded ahead of the task's, and the task is a one-shot that carries the
    lineage mark. *)
Theorem add_lineage_one_shot_capped cron prompt session_id timezone now created_at id s :
  let '(s', r) := add_lineage_one_shot cron prompt session_id timezone now created_at id s in
  (CRON_LINEAGE_ONE_SHOT_LIMIT <= m_lineage s -> s' = s /\ is_ok r = false) /\
  m_lineage s <= m_lineage s' <= Z.max (m_lineage s) CRON_LINEAGE_ONE_SHOT_LIMIT /\
  (is_ok r = true ->
     m_lineage s' = m_lineage s + 1 /\
     exists t, m_tasks s' = <[id := t]> (m_tasks s) /\
       t_recurring t = false /\ t_cron_lineage t = true /\ t_max_fires t = None /\
       m_log s' = (fun log => log ++ [CronLineageCreated (m_lineage s + 1);
                                      CronAdd (cron_task_wire t)])%list <$> m_log s).
Proof.
  unfold add_lineage_one_shot, CRON_LINEAGE_ONE_SHOT_LIMIT.
  destruct (tz_parse timezone) as [declared|]; simpl; [|split_and!; try done; lia].
  destruct (compute_next_fire _ _ _); simpl; [|split_and!; try done; lia].
  case_test; [split_and!; try done; lia|].
  destruct (add _ _ _ _ _ _ _ _ _) as [s' r] eqn:Ha. apply add_inv in Ha.
  destruct r as [minted|e].
  - destruct Ha as (t & -> & Hid & _ & Hp & ->).
    apply prepare_task_inv in Hp
      as (_ & _ & Hrec & _ & _ & Hmf & _ & _ & Hlin & _).
    simpl. split_and!; [lia|lia|lia|]. intros _. split; [done|]. exists t.
    rewrite Hid. split_and!; try done. destruct (m_log s); simpl; [by rewrite <- app_assoc|done].
  - subst s'. simpl. split_and!; [lia|lia|lia|done].
Qed.

(** C24. One pass of the scheduler is a function of the table: each task whose
    moment has come is delivered exactly once, in id order, with its plan's
    coalesced count; the table keeps every task that was not due, moves a
    surviving one to its plan's cursor and next fire and drops the rest; and
    the operations of the plans were appended to the log. *)
Theorem check_due_pass now s :
  keyed s -> m_shutdown s = false ->
  let '(s', fires) := check_due now s in
  fires = fire_for (m_options s) now
            <$> filter (fun t => is_due now t = true) (list_tasks s) /\
  (forall id, m_tasks s' !! id =
     t ← m_tasks s !! id;
     if is_due now t then plan_outcome (plan_fire (m_options s) t now) t else Some t) /\
  m_log s' = (fun log => log ++ (due_plans now s ≫= plan_ops))%list <$> m_log s /\
  keyed s'.
Proof.
  intros Hk Hs. destruct (check_due_eq now s Hk Hs) as (Hf & Ht & Hl & _).
  destruct (check_due now s) as [s' fires]. simpl in *. split_and!; try done.
  intros id t Hid. rewrite Ht in Hid. destruct (m_tasks s !! id) as [u|] eqn:Hu; [|done].
  pose proof (Hk _ _ Hu : t_id u = id). simpl in Hid. unfold after_check in Hid.
  destruct (is_due now u); [|by simplify_eq]. apply plan_outcome_id in Hid. congruence.
Qed.

Lemma check_due_keyed now s : keyed s -> keyed (fst (check_due now s)).
Proof.
  intros Hk. destruct (m_shutdown s) eqn:Hs; [unfold check_due; by rewrite Hs|].
  destruct (check_due_eq now s Hk Hs) as (_ & Ht & _). intros id t Hid. rewrite Ht in Hid.
  destruct (m_tasks s !! id) as [u|] eqn:Hu; [|done].
  pose proof (Hk _ _ Hu : t_id u = id). simpl in Hid. unfold after_check in Hid.
  destruct (is_due now u); [|by simplify_eq]. apply plan_outcome_id in Hid. congruence.
Qed.

Lemma plan_outcome_inv o now t t' :
  plan_outcome (plan_fire o t now) t = Some t' ->
  exists next, p_next_fire_at (plan_fire o t now) = Some next /\
    survives (plan_fire o t now) t = true /\
    t' = set_next_fire (Some next)
           (set_cursor (Some (p_advanced (plan_fire o t now))) (wrap_u32 (t_fire_count t + 1)) t).
Proof.
  unfold plan_outcome. destruct (survives _ _); [|done].
  destruct (p_next_fire_at _) as [next|]; [|done]. simpl. intros. simplify_eq. eauto.
Qed.

Lemma still_due_capped now s id t :
  keyed s -> m_shutdown s = false ->
  m_tasks (fst (check_due now s)) !! id = Some t -> is_due now t = true ->
  exists before, m_tasks s !! id = Some before /\ is_due now before = true /\
    p_coalesced_count (plan_fire (m_options s) before now) = MAX_COALESCE_ITERATIONS.
Proof.
  intros Hk Hs Hid Hd. destruct (check_due_eq now s Hk Hs) as (_ & Ht & _). rewrite Ht in Hid.
  destruct (m_tasks s !! id) as [u|] eqn:Hu; [|done]. simpl in Hid. unfold after_check in Hid.
  destruct (is_due now u) eqn:Hdu; [|congruence]. exists u. split_and!; try done.
  apply plan_outcome_inv in Hid as (next & Hn & _ & ->).
  apply plan_next_spec in Hn as (_ & ideal & _ & _ & _ & _ & Hcap).
  unfold is_due in Hd. simpl in Hd. bsimpl.
  destruct (plan_fire_unfold (m_options s) u now) as (walked & Hw & _ & Hc & _).
  assert (Hlen : Z.of_nat (length walked) <= MAX_COALESCE_ITERATIONS).
  { destruct (t_recurring u); [by destruct Hw as (_ & _ & ? & _)|subst walked; done]. }
  assert (Hmax : 1 <= MAX_COALESCE_ITERATIONS) by done.
  destruct (Z.lt_ge_cases (p_coalesced_count (plan_fire (m_options s) u now))
              MAX_COALESCE_ITERATIONS) as [Hl|]; [|lia].
  specialize (Hcap Hl). lia.
Qed.

(** A pass settles the table: no task is due at the same instant afterwards
    unless the walk of its overdue occurrences was cut by the coalesce cap, so
    two passes at one instant never deliver a task twice. *)
Theorem check_due_settles now s :
  keyed s -> m_shutdown s = false ->
  map_Forall (fun _ t => is_due now t = true ->
    p_coalesced_count (plan_fire (m_options s) t now) < MAX_COALESCE_ITERATIONS) (m_tasks s) ->
  map_Forall (fun _ t => is_due now t = false) (m_tasks (fst (check_due now s))) /\
  snd (check_due now (fst (check_due now s))) = [].
Proof.
  intros Hk Hs Hcap.
  assert (Hnone : map_Forall (fun _ t => is_due now t = false) (m_tasks (fst (check_due now s)))).
  { intros id t Ht. destruct (is_due now t) eqn:Hd; [|done].
    destruct (still_due_capped now s id t Hk Hs Ht Hd) as (before & Hb & Hdb & Hc).
    specialize (Hcap id before Hb Hdb). simpl in Hcap. lia. }
  split; [done|].
  destruct (check_due_eq now s Hk Hs) as (_ & _ & _ & _ & _ & Hs1 & _).
  pose proof (check_due_keyed now s Hk) as Hk1.
  destruct (check_due_eq now (fst (check_due now s)) Hk1) as (-> & _); [done|].
  destruct (due_tasks now (fst (check_due now s))) as [|t l] eqn:Ht; [done|].
  assert (Hin : t ∈ due_tasks now (fst (check_due now s))) by (rewrite Ht; set_solver).
  apply elem_of_due_tasks in Hin as [Hin Hd]; [|done].
  specialize (Hnone _ _ Hin). simpl in Hnone. congruence.
Qed.

(** *** Held fires *)

Lemma find_held_Some id held f :
  find_held id held = Some f -> f ∈ held /\ f_task_id f = id.
Proof.
  unfold find_held. intros Hf. apply fmap_Some in Hf as ([i g] & Hl & ->).
  apply list_find_Some in Hl as (Hl & Hid & _). split; [|done]. by eapply list_elem_of_lookup_2.
Qed.

Lemma find_held_None id held : find_held id held = None <-> id ∉ (f_task_id <$> held).
Proof.
  unfold find_held. rewrite fmap_None, list_find_None, Forall_forall, list_elem_of_fmap.
  naive_solver.
Qed.

Lemma upsert_held_ids fire held :
  f_task_id <$> upsert_held fire held
  = ((f_task_id <$> held) ++ (if decide (f_task_id fire ∈ (f_task_id <$> held)) then []
                              else [f_task_id fire]))%list.
Proof.
  induction held as [|f held IH]; [done|]. cbn [upsert_held].
  destruct (decide (f_task_id f = f_task_id fire)) as [He|He]; rewrite !fmap_cons.
  - rewrite decide_True by set_solver. rewrite He. by rewrite app_nil_r.
  - rewrite IH. simpl. do 2 f_equal.
    destruct (decide (f_task_id fire ∈ (f_task_id <$> held))).
    + by rewrite decide_True by set_solver.
    + by rewrite decide_False by set_solver.
Qed.

Lemma upsert_held_lookup fire held g :
  NoDup (f_task_id <$> held) ->
  g ∈ upsert_held fire held <-> g = fire \/ g ∈ held /\ f_task_id g <> f_task_id fire.
Proof.
  induction held as [|f held IH]; intros Hnd; [set_solver|]. cbn in Hnd.
  apply NoDup_cons in Hnd as [Hf Hnd]. cbn [upsert_held].
  destruct (decide (f_task_id f = f_task_id fire)) as [He|He].
  - rewrite !elem_of_cons. split; [|naive_solver].
    intros [->|Hg]; [by left|]. right. split; [by right|]. intros Hgf. apply Hf.
    rewrite He, <- Hgf. by apply list_elem_of_fmap_2.
  - rewrite !elem_of_cons, IH by done. naive_solver.
Qed.

Lemma find_held_upsert fire held :
  NoDup (f_task_id <$> held) -> find_held (f_task_id fire) (upsert_held fire held) = Some fire.
Proof.
  intros Hnd. destruct (find_held (f_task_id fire) (upsert_held fire held)) as [g|] eqn:Hg.
  - apply find_held_Some in Hg as [Hg Hid]. apply upsert_held_lookup in Hg; [|done].
    destruct Hg as [->|[_ Hne]]; [done|congruence].
  - apply find_held_None in Hg. destruct Hg. apply list_elem_of_fmap. exists fire.
    split; [done|]. apply upsert_held_lookup; auto.
Qed.

Lemma upsert_held_fresh fire held :
  f_task_id fire ∉ (f_task_id <$> held) -> upsert_held fire held = (held ++ [fire])%list.
Proof.
  induction held as [|f held IH]; intros Hn; [done|]. cbn [upsert_held].
  rewrite fmap_cons in Hn. rewrite decide_False by set_solver. rewrite IH by set_solver. done.
Qed.

(** Holding a fire keeps one entry per task: a first hold goes to the end
    of the queue; a later one adds its count to the entry's, takes the newer
    stale and budget verdicts and keeps a known scheduled moment (the entry's
    own [ended] mark stays, the newer fire's is dropped).  The other entries
    do not move, and the entry written to the log is the one kept in memory. *)
Theorem hold_fire_merges fire s :
  NoDup (f_task_id <$> m_held s) ->
  let s' := hold_fire fire s in
  NoDup (f_task_id <$> m_held s') /\
  (forall f, f_task_id f <> f_task_id fire -> f ∈ m_held s' <-> f ∈ m_held s) /\
  match find_held (f_task_id fire) (m_held s) with
  | None => m_held s' = (m_held s ++ [fire])%list
  | Some e =>
    f_task_id <$> m_held s' = f_task_id <$> m_held s /\
    exists merged, find_held (f_task_id fire) (m_held s') = Some merged /\
      f_coalesced_count merged = f_coalesced_count e + f_coalesced_count fire /\
      f_stale merged = f_stale fire /\ f_maxed_out merged = f_maxed_out fire /\
      (f_scheduled_at merged = None <-> f_scheduled_at e = None /\ f_scheduled_at fire = None) /\
      f_ended merged = f_ended e
  end /\
  exists kept, find_held (f_task_id fire) (m_held s') = Some kept /\
    m_log s' = (fun log => log ++ [CronHeldAdd (cron_fire_wire kept)])%list <$> m_log s.
Proof.
  intros Hnd. cbv zeta. unfold hold_fire. cbv zeta.
  set (snapshot := match find_held (f_task_id fire) (m_held s) with
                   | Some e => merge_fire e fire | None => fire end).
  assert (Hid : f_task_id snapshot = f_task_id fire).
  { unfold snapshot. destruct (find_held _ _) as [e|] eqn:He; [|done].
    by apply find_held_Some in He as [_ ?]. }
  cbn [m_held set_held record_op m_log].
  split_and!.
  - rewrite upsert_held_ids. case_decide; [by rewrite app_nil_r|].
    apply NoDup_app. split_and!; [done|set_solver|apply NoDup_singleton].
  - intros f Hf. rewrite upsert_held_lookup by done. split; [|rewrite Hid; auto].
    intros [->|[? _]]; [congruence|done].
  - destruct (find_held _ _) as [e|] eqn:He.
    + rewrite upsert_held_ids, decide_True by (rewrite Hid; apply find_held_Some in He as [He <-];
        by apply list_elem_of_fmap_2). split; [by rewrite app_nil_r|].
      exists snapshot. rewrite <- Hid, find_held_upsert by done. unfold snapshot. simpl.
      split_and!; try done. destruct (f_scheduled_at fire); naive_solver.
    + apply upsert_held_fresh. unfold snapshot. by apply find_held_None.
  - exists snapshot. by rewrite <- Hid, find_held_upsert at 1 by done.
Qed.

Lemma purge_fold l : forall s,
  let s' := foldl (fun s fire => if is_delete_requested (f_task_id fire) s
                                 then clear_held (f_task_id fire) s else s) s l in
  m_held s' = filter (fun f => ~ (f_task_id f ∈ m_delete_requested s /\
                                  f_task_id f ∈ (f_task_id <$> l))) (m_held s) /\
  m_tasks s' = m_tasks s /\ m_delete_requested s' = m_delete_requested s.
Proof.
  induction l as [|fire l IH]; intros s; cbn [foldl].
  { split_and!; [|done|done]. rewrite filter_all_id; [done|]. set_solver. }
  destruct (is_delete_requested (f_task_id fire) s) eqn:Hreq;
    [apply bool_decide_eq_true in Hreq|apply bool_decide_eq_false in Hreq].
  - destruct (IH (clear_held (f_task_id fire) s)) as (-> & -> & ->).
    cbn [m_held m_delete_requested clear_held set_held record_op m_tasks].
    split_and!; [|done|done]. rewrite list_filter_filter. apply list_filter_iff.
    intros f. rewrite fmap_cons, elem_of_cons. split.
    + intros [H1 H2] [H3 [H4|H4]]; [congruence|auto].
    + intros H1. split; [intros [H2 H3]; auto|]. intros Heq. rewrite Heq in H1. auto.
  - destruct (IH s) as (-> & -> & ->). split_and!; [|done|done]. apply list_filter_iff.
    intros f. rewrite fmap_cons, elem_of_cons. split; [|naive_solver].
    intros H1 [H2 [H3|H3]]; [congruence|auto].
Qed.

Lemma remove_tasks id s : m_tasks (fst (remove id s)) = delete id (m_tasks s).
Proof.
  unfold remove. destruct (m_tasks (request_delete id s) !! id) eqn:Hl; [done|].
  simpl in *. by rewrite delete_id.
Qed.

(** The purge drops exactly the held fires whose task a deletion was
    requested for, also a one-shot that had already left the table, and keeps
    the others in order. *)
Theorem purge_deleted_held_exact s :
  m_held (purge_deleted_held s)
  = filter (fun f => f_task_id f ∉ m_delete_requested s) (m_held s) /\
  m_tasks (purge_deleted_held s) = m_tasks s /\
  forall id, let '(s', _) := remove id s in
    id ∉ (f_task_id <$> m_held (purge_deleted_held s')) /\ m_tasks s' = delete id (m_tasks s).
Proof.
  assert (Hp : forall s, m_held (purge_deleted_held s)
    = filter (fun f => f_task_id f ∉ m_delete_requested s) (m_held s)).
  { intros s0. unfold purge_deleted_held. destruct (purge_fold (m_held s0) s0) as (-> & _).
    apply filter_iff_in. intros f Hf. split; [|naive_solver].
    intros Hn Hr. apply Hn. split; [done|]. by apply list_elem_of_fmap_2. }
  split_and!; [apply Hp|by destruct (purge_fold (m_held s) s) as (_ & ? & _)|].
  intros id. unfold remove. destruct (m_tasks (request_delete id s) !! id) eqn:Hl.
  - rewrite Hp. simpl. split; [|done]. rewrite list_elem_of_fmap. intros (f & -> & Hf).
    apply list_elem_of_filter in Hf as [Hf _]. set_solver.
  - rewrite Hp. simpl in *. split; [|by rewrite delete_id]. rewrite list_elem_of_fmap.
    intros (f & -> & Hf). apply list_elem_of_filter in Hf as [Hf _]. set_solver.
Qed.

(** *** Restore *)

Lemma restore_tasks_cons t restored s :
  restore_tasks (t :: restored) s
  = restore_tasks restored (match restored_next (m_options s) t with
                            | Some next => insert_task (set_next_fire next t) s
                            | None => s
                            end).
Proof. done. Qed.

Lemma restore_tasks_frame restored : forall s,
  let s' := restore_tasks restored s in
  m_log s' = m_log s /\ m_options s' = m_options s /\ m_held s' = m_held s /\
  m_bus s' = m_bus s /\ m_shutdown s' = m_shutdown s.
Proof.
  induction restored as [|t restored IH]; intros s; [done|]. cbv zeta. rewrite restore_tasks_cons.
  destruct (restored_next (m_options s) t) as [next|]; [|apply IH].
  exact (IH (insert_task (set_next_fire next t) s)).
Qed.

Lemma restore_tasks_lookup restored : forall s id,
  NoDup (t_id <$> restored) ->
  m_tasks (restore_tasks restored s) !! id =
  match list_find (fun t => t_id t = id) restored with
  | Some (_, t) => match restored_next (m_options s) t with
                   | Some next => Some (set_next_fire next t)
                   | None => m_tasks s !! id
                   end
  | None => m_tasks s !! id
  end.
Proof.
  induction restored as [|t restored IH]; intros s id Hnd; [done|].
  rewrite fmap_cons in Hnd. apply NoDup_cons in Hnd as [Ht Hnd].
  rewrite restore_tasks_cons. cbn [list_find].
  destruct (decide (t_id t = id)) as [<-|Hne].
  - rewrite IH by done. assert (Hnone : list_find (fun u => t_id u = t_id t) restored = None).
    { apply list_find_None, Forall_forall. intros u Hu Heq. apply Ht. rewrite <- Heq.
      by apply list_elem_of_fmap_2. }
    rewrite Hnone. destruct (restored_next (m_options s) t); [|done]. simpl.
    by rewrite lookup_insert_eq.
  - rewrite IH by done.
    destruct (list_find (fun u => t_id u = id) restored) as [[j u]|]; simpl;
      destruct (restored_next (m_options s) t); simpl; try done;
      by rewrite lookup_insert_ne by done.
Qed.

Lemma fire_base_set_cursor t last count :
  t_created_at t < last -> fire_base (set_cursor (Some last) count t) = last.
Proof. intros Hl. unfold fire_base. simpl. by rewrite (proj2 (Z.ltb_lt _ _)). Qed.

Lemma fire_base_created t : t_created_at t <= fire_base t.
Proof. unfold fire_base. destruct (t_last_fired t); [case_test; lia|lia]. Qed.

Lemma plan_advances o t now :
  t_created_at t < now -> t_created_at t < p_advanced (plan_fire o t now).
Proof.
  intros Hn. destruct (plan_fire_unfold o t now) as (walked & Hw & _ & _ & -> & _).
  destruct (last walked) as [i|] eqn:Hl; [|done]. simpl.
  destruct (t_recurring t); [|by subst walked]. destruct Hw as [Hw _].
  pose proof (preview_walk_above (task_schedule t) (tz_or_local (t_timezone t)) (length walked)
                (fire_base t)) as Hall. rewrite <- Hw in Hall.
  rewrite Forall_forall in Hall. apply last_Some in Hl as [l ->].
  pose proof (fire_base_created t). specialize (Hall i ltac:(set_solver)). simpl in Hall. lia.
Qed.

(** Restarting does not move a schedule: the entry a surviving delivery
    leaves in the table is given the very same next fire when it is restored
    from its cursor. *)
Theorem restore_resumes_schedule o now t t' :
  t_created_at t < now -> plan_outcome (plan_fire o t now) t = Some t' ->
  restored_next o t' = Some (t_next_fire_at t').
Proof.
  intros Hc Ho. apply plan_outcome_inv in Ho as (next & Hn & Hs & ->).
  apply survives_spec in Hs as (Hr & _).
  apply plan_next_spec in Hn as (_ & ideal & Hi & _ & -> & Hp & _).
  unfold restored_next. cbn [t_recurring set_next_fire set_cursor]. rewrite Hr. simpl negb.
  cbn [andb]. change (tz_or_local (t_timezone (set_next_fire _ _))) with (tz_or_local (t_timezone t)).
  change (task_schedule (set_next_fire _ _)) with (task_schedule t).
  change (fire_base (set_next_fire _ ?u)) with (fire_base u).
  rewrite fire_base_set_cursor by (by apply plan_advances). rewrite Hi.
  change (occurrence_past_ends_at (set_next_fire _ _) ideal _)
    with (occurrence_past_ends_at t ideal (tz_or_local (t_timezone t))).
  by rewrite Hp.
Qed.

(** A restored recurring task is due exactly when its schedule holds an
    overdue occurrence after its cursor: what was missed while the process was
    down is delivered by the next pass, and nothing else is. *)
Theorem restore_catches_up o now t next :
  t_recurring t = true -> restored_next o t = Some next ->
  is_due now (set_next_fire next t) = true <->
  exists ideal,
    compute_schedule_next_fire (task_schedule t) (fire_base t) (tz_or_local (t_timezone t))
    = Ok ideal /\
    overdue o t (tz_or_local (t_timezone t)) now ideal.
Proof.
  intros Hr. unfold restored_next. rewrite Hr. simpl negb. cbn [andb].
  destruct (compute_schedule_next_fire _ _ _) as [ideal|]; [|done].
  destruct (occurrence_past_ends_at _ _ _) eqn:Hp; intros; simplify_eq; unfold is_due, overdue; simpl.
  - split; [done|]. intros (i & Hi & Hpi & _). simplify_eq. congruence.
  - rewrite Z.leb_le. split; [eauto|]. intros (i & Hi & _ & Hd). by simplify_eq.
Qed.

End properties.

(** ** Witnesses *)

Definition sample_manager : CronManager :=
  insert_task (sample_task "cron-a" "*/10 * * * *" (Some 3) 0)
    (with_wire_recorder [] (with_options sample_options)).

Lemma sample_manager_keyed : keyed sample_manager.
Proof. by apply map_Forall_insert_2. Qed.

Lemma sample_manager_lookup :
  m_tasks sample_manager !! "cron-a" = Some (sample_task "cron-a" "*/10 * * * *" (Some 3) 0).
Proof. reflexivity. Qed.

Lemma check_due_pass_witness :
  let now := sample_instant + 35 * MINUTE in
  let '(s', fires) := check_due now sample_manager in
  fires = fire_for (m_options sample_manager) now
            <$> filter (fun t => is_due now t = true) (list_tasks sample_manager) /\
  (forall id, m_tasks s' !! id =
     t ← m_tasks sample_manager !! id;
     if is_due now t then plan_outcome (plan_fire (m_options sample_manager) t now) t else Some t) /\
  m_log s' = (fun log => log ++ (due_plans now sample_manager ≫= plan_ops))%list <$> m_log sample_manager /\
  keyed s'.
Proof.
  intros now. pose proof (check_due_pass now sample_manager sample_manager_keyed eq_refl) as Hp.
  exact Hp.
Defined.

Example sample_pass :
  let '(s', fires) := check_due (sample_instant + 35 * MINUTE) sample_manager in
  (f_coalesced_count <$> fires, t_fire_count <$> m_tasks s' !! "cron-a", length <$> m_log s')
  = ([3], Some 1, Some 1%nat).
Proof. vm_compute. reflexivity. Qed.

Lemma check_due_settles_witness :
  let now := sample_instant + 35 * MINUTE in
  map_Forall (fun _ t => is_due now t = false) (m_tasks (fst (check_due now sample_manager))) /\
  snd (check_due now (fst (check_due now sample_manager))) = [].
Proof.
  apply (check_due_settles (sample_instant + 35 * MINUTE) sample_manager sample_manager_keyed eq_refl).
  apply map_Forall_insert_2; [intros _; vm_compute; reflexivity|apply map_Forall_empty].
Defined.

Definition sample_fire (coalesced : Z) : CronFire :=
  mkCronFire "cron-a" "tick" "* * * * *" true coalesced false false false (Some sample_instant) None
    Session false.

Lemma hold_fire_merges_witness :
  let s := hold_fire (sample_fire 2) sample_manager in
  let fire := sample_fire 3 in
  let s' := hold_fire fire s in
  NoDup (f_task_id <$> m_held s') /\
  (forall f, f_task_id f <> f_task_id fire -> f ∈ m_held s' <-> f ∈ m_held s) /\
  match find_held (f_task_id fire) (m_held s) with
  | None => m_held s' = (m_held s ++ [fire])%list
  | Some e =>
    f_task_id <$> m_held s' = f_task_id <$> m_held s /\
    exists merged, find_held (f_task_id fire) (m_held s') = Some merged /\
      f_coalesced_count merged = f_coalesced_count e + f_coalesced_count fire /\
      f_stale merged = f_stale fire /\ f_maxed_out merged = f_maxed_out fire /\
      (f_scheduled_at merged = None <-> f_scheduled_at e = None /\ f_scheduled_at fire = None) /\
      f_ended merged = f_ended e
  end /\
  exists kept, find_held (f_task_id fire) (m_held s') = Some kept /\
    m_log s' = (fun log => log ++ [CronHeldAdd (cron_fire_wire kept)])%list <$> m_log s.
Proof.
  apply (hold_fire_merges (sample_fire 3) (hold_fire (sample_fire 2) sample_manager)).
  apply NoDup_singleton.
Defined.

(** The entry the sample pass leaves. *)
Definition sample_survivor : CronTask :=
  default (sample_task "cron-a" "*/10 * * * *" (Some 3) 0)
    (plan_outcome (plan_fire sample_options (sample_task "cron-a" "*/10 * * * *" (Some 3) 0)
                     (sample_instant + 35 * MINUTE))
       (sample_task "cron-a" "*/10 * * * *" (Some 3) 0)).

Lemma restore_resumes_schedule_witness :
  restored_next sample_options sample_survivor = Some (t_next_fire_at sample_survivor) /\
  t_next_fire_at sample_survivor = Some (sample_instant + 40 * MINUTE).
Proof.
  split; [|vm_compute; reflexivity].
  apply (restore_resumes_schedule sample_options (sample_instant + 35 * MINUTE)
           (sample_task "cron-a" "*/10 * * * *" (Some 3) 0) sample_survivor);
    vm_compute; reflexivity.
Defined.

Lemma restore_catches_up_witness :
  let t := sample_task "cron-a" "*/10 * * * *" (Some 3) 0 in
  let now := sample_instant + 35 * MINUTE in
  is_due now (set_next_fire (Some (sample_instant + 10 * MINUTE)) t) = true <->
  exists ideal,
    compute_schedule_next_fire (task_schedule t) (fire_base t) (tz_or_local (t_timezone t))
    = Ok ideal /\
    overdue sample_options t (tz_or_local (t_timezone t)) now ideal.
Proof.
  apply (restore_catches_up sample_options (sample_instant + 35 * MINUTE)
           (sample_task "cron-a" "*/10 * * * *" (Some 3) 0) (Some (sample_instant + 10 * MINUTE)));
    vm_compute; reflexivity.
Defined.
