(* ===== verification/CronSession.v ===== *)
(** * Runs of a session's cron manager

    The operations of [CronManager] as the steps of a machine, and what holds
    along any sequence of them: shutdown, the fire budget, the interleavings of
    a pass with a removal. *)
From stdpp Require Import gmap strings.
From S2P Require Import Prelude RustStd F64 Json CronExpr Chrono CivilCalendar CronNextFire.
From S2P Require Import CronJitter CronTask CronPlan CronWire CronManager.
#[local] Open Scope string_scope.
#[local] Open Scope Z_scope.

(** The operations the tools, the driver and the resume path call. *)
Inductive Op : Type :=
| OpAdd (cron prompt session_id : string) (recurring : bool) (o : CronCreateOptions)
    (now created_at : Z) (id : string)
| OpAddLineage (cron prompt session_id : string) (timezone : option string)
    (now created_at : Z) (id : string)
| OpRemove (id : string)
| OpHold (fire : CronFire)
| OpClearHeld (id : string)
| OpPurgeHeld
| OpTrigger (id : string)
| OpCheckDue (now : Z)
| OpSetNextFire (id : string) (at_ : option Z)
| OpRestoreTasks (restored : list CronTask)
| OpRestoreHeld (fires : list CronFire)
| OpRestoreLineage (count : Z)
| OpShutdown.

Section runs.
Context `{Chrono} `{ChronoText}.

(** One operation: the state after it and the fires it hands to the driver. *)
Definition step (s : CronManager) (op : Op) : CronManager * list CronFire :=
  match op with
  | OpAdd cron prompt session_id recurring o now created_at id =>
    (fst (add cron prompt session_id recurring o now created_at id s), [])
  | OpAddLineage cron prompt session_id timezone now created_at id =>
    (fst (add_lineage_one_shot cron prompt session_id timezone now created_at id s), [])
  | OpRemove id => (fst (remove id s), [])
  | OpHold fire => (hold_fire fire s, [])
  | OpClearHeld id => (clear_held id s, [])
  | OpPurgeHeld => (purge_deleted_held s, [])
  | OpTrigger id => let '(s', fire) := trigger id s in (s', option_list fire)
  | OpCheckDue now => check_due now s
  | OpSetNextFire id at_ => (fst (set_next_fire_at id at_ s), [])
  | OpRestoreTasks restored => (restore_tasks restored s, [])
  | OpRestoreHeld fires => (restore_held fires s, [])
  | OpRestoreLineage count => (restore_lineage_count count s, [])
  | OpShutdown => (shutdown s, [])
  end.

Fixpoint run (ops : list Op) (s : CronManager) : CronManager * list CronFire :=
  match ops with
  | [] => (s, [])
  | op :: ops =>
    let '(s1, fires1) := step s op in
    let '(s2, fires2) := run ops s1 in
    (s2, (fires1 ++ fires2)%list)
  end.

Lemma run_cons op ops s :
  run (op :: ops) s
  = (fst (run ops (fst (step s op))), (snd (step s op) ++ snd (run ops (fst (step s op))))%list).
Proof. simpl. destruct (step s op). simpl. by destruct (run ops c). Qed.

Lemma restore_tasks_keyed restored : forall s, keyed s -> keyed (restore_tasks restored s).
Proof.
  induction restored as [|t restored IH]; intros s Hk; [done|]. rewrite restore_tasks_cons.
  apply IH. destruct (restored_next (m_options s) t) as [next|]; [|done].
  by apply map_Forall_insert_2.
Qed.

Lemma add_keyed cron prompt session_id recurring o now created_at id s :
  keyed s -> keyed (fst (add cron prompt session_id recurring o now created_at id s)).
Proof.
  intros Hk. destruct (add _ _ _ _ _ _ _ _ _) as [s' [minted|e]] eqn:Ha; apply add_inv in Ha.
  - destruct Ha as (t & _ & _ & _ & _ & ->). simpl. by apply map_Forall_insert_2.
  - by subst.
Qed.

Lemma add_lineage_keyed cron prompt session_id timezone now created_at id s :
  keyed s -> keyed (fst (add_lineage_one_shot cron prompt session_id timezone now created_at id s)).
Proof.
  intros Hk. unfold add_lineage_one_shot.
  match goal with |- context [match ?r with Ok _ => _ | Err _ => _ end] => destruct r end; [|done].
  by apply add_keyed.
Qed.

Lemma purge_tasks s : m_tasks (purge_deleted_held s) = m_tasks s.
Proof. by destruct (purge_fold (m_held s) s) as (_ & ? & _). Qed.

(** Every operation keeps each task under its own id. *)
Lemma step_keyed s op : keyed s -> keyed (fst (step s op)).
Proof.
  intros Hk. destruct op; simpl; try done.
  - by apply add_keyed.
  - by apply add_lineage_keyed.
  - unfold remove. destruct (_ !! id); simpl; [|done]. by apply map_Forall_delete.
  - unfold keyed. by rewrite purge_tasks.
  - unfold trigger. destruct (m_shutdown s); [done|]. by destruct (m_tasks s !! id).
  - by apply check_due_keyed.
  - unfold set_next_fire_at. destruct (m_tasks s !! id) as [t|] eqn:Ht; [|done]. simpl.
    apply map_Forall_insert_2; [exact (Hk _ _ Ht)|done].
  - by apply restore_tasks_keyed.
Qed.

Lemma run_keyed ops s : keyed s -> keyed (fst (run ops s)).
Proof.
  revert s. induction ops as [|op ops IH]; intros s Hk; [done|]. rewrite run_cons.
  by apply IH, step_keyed.
Qed.

(** ** Shutdown *)

Lemma step_shutdown s op :
  m_shutdown s = true -> m_shutdown (fst (step s op)) = true /\ snd (step s op) = [].
Proof.
  intros Hs. destruct op; simpl; try done.
  - destruct (add _ _ _ _ _ _ _ _ _) as [s' [minted|e]] eqn:Ha; apply add_inv in Ha.
    + by destruct Ha as (t & _ & _ & _ & _ & ->).
    + by subst.
  - unfold add_lineage_one_shot.
    match goal with |- context [match ?r with Ok _ => _ | Err _ => _ end] => destruct r end; [|done].
    destruct (add _ _ _ _ _ _ _ _ _) as [s' [minted|e]] eqn:Ha; apply add_inv in Ha.
    + by destruct Ha as (t & _ & _ & _ & _ & ->).
    + by subst.
  - unfold remove. by destruct (_ !! id).
  - split; [|done]. unfold purge_deleted_held. generalize (m_held s) as l. intros l. revert s Hs.
    induction l as [|f l IH]; intros s Hs; [done|]. simpl. apply IH.
    by destruct (is_delete_requested _ s).
  - unfold trigger. by rewrite Hs.
  - unfold check_due. by rewrite Hs.
  - unfold set_next_fire_at. by destruct (m_tasks s !! id).
  - split; [|done]. by destruct (restore_tasks_frame restored s) as (_ & _ & _ & _ & ->).
Qed.

(** After a shutdown nothing is ever delivered again, by a pass or by a
    run-now, whatever operations follow, and the shutdown is permanent. *)
Theorem shutdown_is_final ops s :
  snd (run ops (shutdown s)) = [] /\ m_shutdown (fst (run ops (shutdown s))) = true.
Proof.
  assert (Hs : m_shutdown (shutdown s) = true) by done. revert Hs. generalize (shutdown s) as u.
  induction ops as [|op ops IH]; intros u Hs; [done|]. rewrite run_cons.
  destruct (step_shutdown u op Hs) as [Hs' ->]. by apply IH.
Qed.

(** ** The fire budget *)

(** The scheduled deliveries of a task among some fires; a run-now has no
    scheduled moment. *)
Definition deliveries (id : string) (fires : list CronFire) : Z :=
  Z.of_nat (length (filter (fun f => f_task_id f = id /\ is_Some (f_scheduled_at f)) fires)).

Lemma deliveries_app id l1 l2 : deliveries id (l1 ++ l2) = deliveries id l1 + deliveries id l2.
Proof. unfold deliveries. rewrite filter_app, length_app. lia. Qed.

(** The operation does not create a task under [id]. *)
Definition creates (id : string) (op : Op) : Prop :=
  match op with
  | OpAdd _ _ _ _ _ _ _ minted | OpAddLineage _ _ _ _ _ _ minted => minted = id
  | OpRestoreTasks restored => id ∈ (t_id <$> restored)
  | _ => False
  end.

(** What is left of a task's budget: nothing once it is gone. *)
Definition budget_left (id : string) (s : CronManager) : Z :=
  match m_tasks s !! id with
  | Some t => default 0 (t_max_fires t) - t_fire_count t
  | None => 0
  end.

Definition budgeted (id : string) (s : CronManager) : Prop :=
  forall t, m_tasks s !! id = Some t ->
    exists m, t_max_fires t = Some m /\ 0 <= t_fire_count t < m /\ m <= u32_max.

Lemma budget_left_nonneg id s : budgeted id s -> 0 <= budget_left id s.
Proof.
  unfold budget_left. intros Hb. destruct (m_tasks s !! id) as [t|] eqn:Ht; [|lia].
  destruct (Hb t Ht) as (m & -> & ? & _). simpl. lia.
Qed.

Lemma pass_deliveries id now s :
  keyed s ->
  deliveries id (fire_for (m_options s) now <$> due_tasks now s) <= 1 /\
  ((forall t, m_tasks s !! id = Some t -> is_due now t = false) ->
   deliveries id (fire_for (m_options s) now <$> due_tasks now s) = 0).
Proof.
  intros Hk. destruct (due_tasks_sorted now s Hk) as [Hnd _]. unfold deliveries.
  set (l := fire_for (m_options s) now <$> due_tasks now s).
  assert (Hids : f_task_id <$> l = t_id <$> due_tasks now s).
  { unfold l. rewrite <- list_fmap_compose. by apply list_fmap_ext. }
  assert (Hle : (length (filter (fun f => f_task_id f = id /\ is_Some (f_scheduled_at f)) l)
                 <= length (filter (fun f => f_task_id f = id) l))%nat).
  { apply filter_and_length. }
  destruct (NoDup_key_filter f_task_id id l) as [H1 H0']; [by rewrite Hids|]. split; [lia|].
  intros Hno. rewrite H0' in Hle; [simpl in Hle; lia|]. rewrite Hids, list_elem_of_fmap.
  intros (t & -> & Ht). apply elem_of_due_tasks in Ht as [Ht Hd]; [|done].
  specialize (Hno t Ht). congruence.
Qed.

(** An operation other than a pass leaves an entry it does not create alone,
    removes it, or moves its next fire. *)
Lemma step_entry id s op :
  ~ creates id op -> (forall now, op <> OpCheckDue now) ->
  (m_tasks (fst (step s op)) !! id = m_tasks s !! id \/
   m_tasks (fst (step s op)) !! id = None \/
   exists at_, m_tasks (fst (step s op)) !! id = set_next_fire at_ <$> m_tasks s !! id) /\
  deliveries id (snd (step s op)) = 0.
Proof.
  intros Hc Hn. destruct op; simpl in *; try (split; [by left|done]).
  - split; [left|done]. destruct (add _ _ _ _ _ _ _ _ _) as [s' [minted|e]] eqn:Ha;
      apply add_inv in Ha; [|by subst].
    destruct Ha as (t & -> & Hid & _ & _ & ->). simpl. apply lookup_insert_ne. congruence.
  - split; [left|done]. unfold add_lineage_one_shot.
    match goal with |- context [match ?r with Ok _ => _ | Err _ => _ end] => destruct r end; [|done].
    destruct (add _ _ _ _ _ _ _ _ _) as [s' [minted|e]] eqn:Ha; apply add_inv in Ha; [|by subst].
    destruct Ha as (t & -> & Hid & _ & _ & ->). simpl. apply lookup_insert_ne. congruence.
  - split; [|done]. unfold remove. destruct (m_tasks (request_delete id0 s) !! id0); simpl; [|by left].
    destruct (decide (id = id0)) as [->|]; [right; left; apply lookup_delete_eq|].
    left. by apply lookup_delete_ne.
  - split; [|done]. left. by rewrite purge_tasks.
  - unfold trigger. destruct (m_shutdown s); [split; [by left|done]|].
    destruct (m_tasks s !! id0) as [t|]; simpl; [|split; [by left|done]].
    split; [by left|]. unfold deliveries. rewrite filter_cons, decide_False; [done|].
    intros [_ [? ?]]. done.
  - destruct (Hn now). done.
  - split; [|done]. unfold set_next_fire_at. destruct (m_tasks s !! id0) as [t|] eqn:Ht; simpl;
      [|by left].
    destruct (decide (id = id0)) as [->|]; [|left; by apply lookup_insert_ne].
    right; right. exists at_. by rewrite lookup_insert_eq, Ht.
  - split; [|done]. clear Hn. revert s. induction restored as [|t restored IH]; intros s; [by left|].
    rewrite restore_tasks_cons. rewrite fmap_cons in Hc.
    specialize (IH ltac:(set_solver)).
    destruct (restored_next (m_options s) t) as [next|]; [|apply IH].
    replace (m_tasks s !! id) with (m_tasks (insert_task (set_next_fire next t) s) !! id); [apply IH|].
    simpl. apply lookup_insert_ne. set_solver.
Qed.

Lemma step_budget id s op :
  keyed s -> budgeted id s -> ~ creates id op ->
  deliveries id (snd (step s op)) + budget_left id (fst (step s op)) <= budget_left id s /\
  budgeted id (fst (step s op)).
Proof.
  intros Hk Hb Hc. pose proof (budget_left_nonneg id s Hb) as Hpos.
  assert (Hop : (exists now, op = OpCheckDue now) \/ forall now, op <> OpCheckDue now)
    by (destruct op; eauto; right; done).
  destruct Hop as [[now ->]|Hno].
  - simpl. destruct (m_shutdown s) eqn:Hs.
    { unfold check_due. rewrite Hs. simpl. split; [|done]. change (deliveries id []) with 0. lia. }
    destruct (check_due_eq now s Hk Hs) as (-> & Ht & _). cbv zeta in Ht.
    destruct (pass_deliveries id now s Hk) as [Hle Hzero].
    unfold budget_left, budgeted in *. rewrite Ht. clear Ht.
    destruct (m_tasks s !! id) as [t|] eqn:Hid; simpl.
    2: { rewrite Hzero by done. split; [lia|done]. }
    destruct (Hb t eq_refl) as (m & Hm & Hcnt & Hu). rewrite Hm in *. simpl in *.
    unfold after_check. destruct (is_due now t) eqn:Hd.
    2: { rewrite Hzero by (intros; by simplify_eq). rewrite Hm. simpl. split; [lia|].
         intros u [= <-]. eauto. }
    destruct (plan_outcome (plan_fire (m_options s) t now) t) as [t'|] eqn:Ho; [|split; [lia|done]].
    apply plan_outcome_inv in Ho as (next & _ & Hsv & ->).
    apply survives_spec in Hsv as (Hr & Hst & Hmax & _).
    destruct (plan_fire_verdicts (m_options s) t now) as [_ Hv].
    rewrite Hmax, Hst, Hr, Hm in Hv. simpl in Hv. symmetry in Hv. apply Z.leb_gt in Hv.
    cbn [t_max_fires t_fire_count set_next_fire set_cursor]. rewrite Hm. simpl.
    rewrite wrap_u32_small in * by lia. split; [lia|]. intros u [= <-]. simpl. exists m. split_and!; [done|lia|lia|done].
  - destruct (step_entry id s op Hc Hno) as [He ->].
    unfold budget_left, budgeted in *. destruct He as [He|[He|[at_ He]]]; rewrite He.
    + split; [lia|done].
    + split; [lia|done].
    + destruct (m_tasks s !! id) as [t|]; simpl; [|split; [lia|done]].
      split; [lia|]. intros u [= <-]. by apply (Hb t).
Qed.

(** C34. A budget is never exceeded: along any operations (other than creating
    the task anew), the scheduled deliveries of a task never pass what its
    budget had left; run-now fires do not count. *)
Theorem budget_never_exceeded id s ops t m :
  keyed s -> m_tasks s !! id = Some t -> t_max_fires t = Some m ->
  0 <= t_fire_count t < m -> m <= u32_max ->
  Forall (fun op => ~ creates id op) ops ->
  deliveries id (snd (run ops s)) <= m - t_fire_count t.
Proof.
  intros Hk Hid Hm Hc Hu Hops.
  assert (Hb : budgeted id s) by (intros u Hu'; simplify_eq; eauto).
  replace (m - t_fire_count t) with (budget_left id s)
    by (unfold budget_left; rewrite Hid, Hm; done).
  clear t m Hid Hm Hc Hu. revert s Hk Hb. induction Hops as [|op ops Hop _ IH]; intros s Hk Hb.
  - simpl. change (deliveries id []) with 0. by apply budget_left_nonneg.
  - rewrite run_cons. cbn [snd]. rewrite deliveries_app.
    destruct (step_budget id s op Hk Hb Hop) as [Hle Hb'].
    specialize (IH (fst (step s op)) (step_keyed s op Hk) Hb'). lia.
Qed.

(** ** Interleavings of a pass *)

Lemma apply_fires_present now plans s f :
  keyed s -> NoDup (plan_id <$> plans) ->
  f ∈ snd (apply_plans now plans s) ->
  exists t, m_tasks s !! f_task_id f = Some t /\ is_due now t = true.
Proof.
  intros Hk Hnd. unfold apply_plans.
  destruct (apply_plans_fold now plans s [] [] Hk Hnd) as (s' & -> & _). simpl.
  rewrite sort_by_key_perm, list_elem_of_omap. intros (p & Hp & Hf).
  unfold delivered, target in Hf. destruct (m_tasks s !! plan_id p) as [t|] eqn:Ht; [|done].
  simpl in Hf. destruct (is_due now t) eqn:Hd; [|done].
  exists t. split; [|done]. apply (inj Some) in Hf as <-. change (f_task_id _) with (t_id t). pose proof (Hk _ _ Ht) as Hid. simpl in Hid.
  by rewrite Hid.
Qed.

Lemma apply_absent now plans s id :
  keyed s -> NoDup (plan_id <$> plans) -> m_tasks s !! id = None ->
  m_tasks (fst (apply_plans now plans s)) !! id = None.
Proof.
  intros Hk Hnd Hid. unfold apply_plans.
  destruct (apply_plans_fold now plans s [] [] Hk Hnd) as (s' & -> & Hout & Hin & _). simpl.
  rewrite remove_all_lookup. case_decide; [done|].
  destruct (decide (id ∈ (plan_id <$> plans))) as [Hi|Hi]; [|by rewrite Hout].
  apply list_elem_of_fmap in Hi as (p & -> & Hp). rewrite Hin by done. unfold left_entry, target.
  by rewrite Hid.
Qed.

(** A pass during whose awaits another handler removes a task: the removal runs
    after the operations are recorded and before the plans are applied. *)
Definition removal_inside_pass (now : Z) (id : string) (s : CronManager)
  : CronManager * list CronFire :=
  let plans := due_plans now s in
  let '(removed, _) := remove id (record_plans plans s) in
  apply_plans now plans removed.

(** A removal that lands between the recording and the application of a
    pass wins: the task is not delivered and does not come back, whatever the
    pass had planned for it. *)
Theorem removal_during_pass now s id :
  keyed s ->
  let '(s', fires) := removal_inside_pass now id s in
  m_tasks s' !! id = None /\ Forall (fun f => f_task_id f <> id) fires.
Proof.
  intros Hk. unfold removal_inside_pass. destruct (remove id (record_plans (due_plans now s) s)) as [removed b] eqn:Hr.
  assert (Hrm : keyed removed /\ m_tasks removed !! id = None).
  { pose proof (step_keyed (record_plans (due_plans now s) s) (OpRemove id)) as Hsk.
    simpl in Hsk. rewrite Hr in Hsk. split; [apply Hsk; by rewrite record_plans_eq|].
    pose proof (remove_tasks id (record_plans (due_plans now s) s)) as Hp. rewrite Hr in Hp.
    simpl in Hp. rewrite Hp. apply lookup_delete_eq. }
  destruct Hrm as [Hk' Hid]. destruct (due_tasks_sorted now s Hk) as [Hnd _].
  rewrite <- due_plan_ids in Hnd by done.
  destruct (apply_plans now (due_plans now s) removed) as [s' fires] eqn:Ha. split.
  - pose proof (apply_absent now _ removed id Hk' Hnd Hid) as Hab. by rewrite Ha in Hab.
  - apply Forall_forall. intros f Hf Hfid.
    assert (Hin : f ∈ snd (apply_plans now (due_plans now s) removed)) by (by rewrite Ha).
    destruct (apply_fires_present now _ removed f Hk' Hnd Hin) as (t & Ht & _). congruence.
Qed.
End runs.

(** ** Witnesses *)

Lemma budget_never_exceeded_witness :
  deliveries "cron-a"
    (snd (run [OpCheckDue (sample_instant + 35 * MINUTE); OpTrigger "cron-a"] sample_manager)) <= 3 - 0.
Proof.
  apply (budget_never_exceeded "cron-a" sample_manager
           [OpCheckDue (sample_instant + 35 * MINUTE); OpTrigger "cron-a"]
           (sample_task "cron-a" "*/10 * * * *" (Some 3) 0) 3 sample_manager_keyed eq_refl eq_refl).
  - by vm_compute.
  - by vm_compute.
  - repeat constructor; intros [].
Defined.

Lemma removal_during_pass_witness :
  let now := sample_instant + 35 * MINUTE in
  let '(s', fires) := removal_inside_pass now "cron-a" sample_manager in
  m_tasks s' !! "cron-a" = None /\ Forall (fun f => f_task_id f <> "cron-a") fires.
Proof.
  intros now.
  pose proof (removal_during_pass now sample_manager "cron-a" sample_manager_keyed) as Hp. exact Hp.
Defined.
