(* ===== verification/CronReplay.v ===== *)
(** * Replaying the cron operations: [mirri-proto/src/reducer.rs]

    The fold that rebuilds the cron state of a session from its wire log, the
    restore of a manager from that state, and how the state relates to the
    manager that wrote the log. *)
From stdpp Require Import gmap strings.
From S2P Require Import Prelude RustStd F64 Json CronExpr Chrono CivilCalendar CronNextFire.
From S2P Require Import CronJitter CronTask CronPlan CronWire CronManager CronSession.
#[local] Open Scope string_scope.
#[local] Open Scope Z_scope.

(** [AgentState]'s cron fields *)
Record CronState : Type := mkCronState {
  cron_tasks : list json;
  cron_held : list json;
  cron_lineage_one_shot_created : Z
}.

Definition empty_cron_state : CronState := mkCronState [] [] 0.

(** [DomainEvent], the cron domain *)
Inductive CronEvent : Type :=
| CronTaskCreated (task_id schedule : string)
| CronTaskFired (task_id : string) (coalesced_count : Z)
| CronTaskDeleted (task_id : string).

Definition has_id (key id : string) (record : json) : bool :=
  bool_decide (str_field key record = Some id).

(** [merge_held_records] *)
Definition held_count (record : json) : Z :=
  default 1 (jget "coalesced_count" record ≫= as_u64).

Definition merge_held_records (existing incoming : json) : json :=
  let merged := jinsert "coalesced_count" (JNum (held_count existing + held_count incoming)) incoming in
  match jget "scheduled_at" existing with
  | Some JNull | None => merged
  | Some scheduled_at =>
    match jget "scheduled_at" incoming with
    | None | Some JNull => jinsert "scheduled_at" scheduled_at merged
    | Some _ => merged
    end
  end.

(** The cron arms of [apply_wire_op]. *)
Definition reduce (state : CronState) (op : WireOp) : CronState * list CronEvent :=
  match op with
  | CronAdd task =>
    let task_id := default "" (str_field "id" task) in
    let schedule := default "" (jget_or "cron" "schedule" task ≫= as_str) in
    (mkCronState
       (match update_first (has_id "id" task_id) (fun _ => task) (cron_tasks state) with
        | Some tasks => tasks
        | None => (cron_tasks state ++ [task])%list
        end)
       (cron_held state) (cron_lineage_one_shot_created state),
     [CronTaskCreated task_id schedule])
  | CronDelete ids =>
    (mkCronState
       (filter (fun task => match str_field "id" task with
                            | Some id => negb (bool_decide (id ∈ ids))
                            | None => true
                            end = true) (cron_tasks state))
       (cron_held state) (cron_lineage_one_shot_created state),
     CronTaskDeleted <$> ids)
  | CronLineageCreated count =>
    (mkCronState (cron_tasks state) (cron_held state)
       (Z.max (cron_lineage_one_shot_created state) count), [])
  | CronHeldAdd task =>
    let task_id := default "" (str_field "task_id" task) in
    (mkCronState (cron_tasks state)
       (match update_first (has_id "task_id" task_id)
                (fun existing => merge_held_records existing task) (cron_held state) with
        | Some held => held
        | None => (cron_held state ++ [task])%list
        end) (cron_lineage_one_shot_created state), [])
  | CronHeldClear id =>
    (mkCronState (cron_tasks state)
       (filter (fun held => str_field "task_id" held <> Some id) (cron_held state))
       (cron_lineage_one_shot_created state), [])
  | CronCursor id last_fired_at fire_count =>
    let stamp task :=
      let task := jinsert "lastFiredAt" (JNum last_fired_at) task in
      match fire_count with
      | Some count => jinsert "fireCount" (JNum count) task
      | None => task
      end in
    (mkCronState (default (cron_tasks state) (update_first (has_id "id" id) stamp (cron_tasks state)))
       (cron_held state) (cron_lineage_one_shot_created state), [])
  end.

Definition replay (log : list WireOp) : CronState :=
  foldl (fun state op => fst (reduce state op)) empty_cron_state log.

Section resume.
Context `{Chrono} `{ChronoText}.

(** [restore_cron_tasks] of [session/manager/restore.rs]: records that do not
    parse are skipped. *)
Definition restore_cron_tasks (raw_tasks : list json) (s : CronManager) : CronManager :=
  restore_tasks (omap cron_task_from_wire raw_tasks) s.
End resume.

(** ** The records of the state *)

Section records.
Context `{Chrono} `{ChronoText}.

(** The record restored for an id. *)
Definition find_record (id : string) (tasks : list json) : option json :=
  snd <$> list_find (fun r => has_id "id" id r = true) tasks.

Lemma find_record_cons id r tasks :
  find_record id (r :: tasks) = if has_id "id" id r then Some r else find_record id tasks.
Proof.
  unfold find_record. cbn [list_find]. destruct (has_id "id" id r); [done|].
  simpl. by destruct (list_find _ tasks) as [[]|].
Qed.

Lemma find_record_app id r tasks :
  find_record id (tasks ++ [r])
  = match find_record id tasks with
    | Some r' => Some r'
    | None => if has_id "id" id r then Some r else None
    end.
Proof.
  induction tasks as [|r' tasks IH]; [simpl; apply find_record_cons|].
  change ((r' :: tasks) ++ [r])%list with (r' :: (tasks ++ [r]))%list.
  rewrite !find_record_cons, IH. by destruct (has_id "id" id r').
Qed.

Lemma has_id_other id id' r : id <> id' -> has_id "id" id r = true -> has_id "id" id' r = false.
Proof.
  unfold has_id. rewrite bool_decide_eq_true, bool_decide_eq_false. intros Hne -> [= ?]. done.
Qed.

Lemma update_first_record id id' f tasks :
  (forall r, has_id "id" id r = true -> has_id "id" id (f r) = true) ->
  find_record id' (default tasks (update_first (has_id "id" id) f tasks))
  = if decide (id = id') then f <$> find_record id tasks else find_record id' tasks.
Proof.
  intros Hf. induction tasks as [|r tasks IH]; [by case_decide|].
  cbn [update_first]. rewrite !find_record_cons. destruct (has_id "id" id r) eqn:Hr; simpl.
  - rewrite find_record_cons. case_decide as Hd; subst; [by rewrite Hf|].
    by rewrite (has_id_other id id' r), (has_id_other id id' (f r)) by auto.
  - destruct (update_first _ f tasks) as [tasks'|] eqn:Hu; simpl in *; rewrite find_record_cons, IH;
      case_decide; subst; by rewrite ?Hr.
Qed.

Lemma update_first_none id f tasks :
  update_first (has_id "id" id) f tasks = None <-> find_record id tasks = None.
Proof.
  induction tasks as [|r tasks IH]; [done|]. cbn [update_first]. rewrite find_record_cons.
  destruct (has_id "id" id r); [done|]. rewrite <- IH. by rewrite fmap_None.
Qed.

Lemma reduce_add_record id task state :
  str_field "id" task = Some id ->
  forall id', find_record id' (cron_tasks (fst (reduce state (CronAdd task))))
  = if decide (id = id') then Some task else find_record id' (cron_tasks state).
Proof.
  intros Hid id'. cbn [reduce fst cron_tasks]. rewrite Hid. cbn [default].
  pose proof (update_first_record id id' (fun _ => task) (cron_tasks state)) as Hu.
  assert (Ht : has_id "id" id task = true) by (by apply bool_decide_eq_true).
  specialize (Hu (fun _ _ => Ht)).
  destruct (update_first _ _ _) as [tasks|] eqn:He; simpl in Hu.
  - rewrite Hu. case_decide; [|done]. destruct (find_record id (cron_tasks state)) eqn:Hf; [done|].
    apply (update_first_none id (fun _ => task)) in Hf. congruence.
  - apply update_first_none in He. rewrite find_record_app. case_decide as Hd; subst.
    + by rewrite He, Ht.
    + rewrite (has_id_other id id' task) by done. by destruct (find_record id' _).
Qed.

Lemma reduce_delete_record ids state id :
  find_record id (cron_tasks (fst (reduce state (CronDelete ids))))
  = if decide (id ∈ ids) then None else find_record id (cron_tasks state).
Proof.
  cbn [reduce fst cron_tasks]. induction (cron_tasks state) as [|r tasks IH]; [by case_decide|].
  rewrite filter_cons, find_record_cons. unfold has_id in *.
  destruct (str_field "id" r) as [rid|] eqn:Hr.
  - destruct (decide (rid = id)) as [->|Hne].
    + rewrite (bool_decide_true (Some id = Some id)) by done.
      destruct (decide (id ∈ ids)) as [Hi|Hi].
      * rewrite decide_False; [done|]. by rewrite bool_decide_true.
      * rewrite decide_True by (by rewrite bool_decide_false).
        rewrite find_record_cons. unfold has_id. by rewrite Hr, bool_decide_true.
    + rewrite (bool_decide_false (Some rid = Some id)) by congruence.
      destruct (bool_decide (rid ∈ ids)); [by rewrite decide_False by done|].
      rewrite decide_True by done. rewrite find_record_cons. unfold has_id.
      by rewrite Hr, bool_decide_false by congruence.
  - rewrite decide_True by done. rewrite find_record_cons. unfold has_id.
    by rewrite Hr, !bool_decide_false.
Qed.

(** The cursor's write on a record. *)
Definition stamp (last_fired_at count : Z) (task : json) : json :=
  jinsert "fireCount" (JNum count) (jinsert "lastFiredAt" (JNum last_fired_at) task).

Lemma stamp_other key last count r :
  key <> "fireCount" -> key <> "lastFiredAt" -> jget key (stamp last count r) = jget key r.
Proof. intros H1 H2. unfold stamp. by rewrite !jget_insert_ne. Qed.

Lemma reduce_cursor_record id last count state id' :
  find_record id' (cron_tasks (fst (reduce state (CronCursor id last (Some count)))))
  = if decide (id = id') then stamp last count <$> find_record id (cron_tasks state)
    else find_record id' (cron_tasks state).
Proof.
  cbn [reduce fst cron_tasks]. apply update_first_record. intros r. unfold has_id, str_field.
  change (jinsert "fireCount" (JNum count) (jinsert "lastFiredAt" (JNum last) r))
    with (stamp last count r).
  by rewrite stamp_other.
Qed.

(** Reading a stamped record is setting the cursor of the task. *)
Lemma stamp_read last count r t :
  cron_task_from_wire r = Some t ->
  cron_task_from_wire (stamp last count r)
  = Some (set_cursor (as_i64 (JNum last) ≫= from_timestamp_millis)
            (wrap_u32 (default 0 (as_u64 (JNum count)))) t).
Proof.
  intros Hr. assert (Ho : is_obj r = true).
  { unfold cron_task_from_wire, str_field in Hr. destruct (jget "id" r) eqn:Hi; [|done].
    by apply jget_is_obj in Hi. }
  assert (Hl : jget "lastFiredAt" (stamp last count r) = Some (JNum last)).
  { unfold stamp. rewrite jget_insert_ne by done. by apply jget_insert_eq. }
  assert (Hc : jget "fireCount" (stamp last count r) = Some (JNum count)).
  { unfold stamp. apply jget_insert_eq. by rewrite is_obj_insert. }
  revert Hr. unfold cron_task_from_wire, timestamp, jget_or, str_field_or, str_field.
  rewrite Hl, Hc, !stamp_other by done. intros Hr.
  destruct (jget "id" r ≫= as_str); [|done]. simpl in *.
  destruct (match match jget "createdAt" r with Some v => Some v | None => _ end with
            | Some (JNum n) => _ | _ => _ end); [|done].
  simpl in *. by simplify_eq.
Qed.
End records.

(** ** The log is the table *)

Section durability.
Context `{Chrono} `{ChronoText}.

(** Every task of the table is what its record in the replayed log reads as. *)
Definition durable (state : CronState) (s : CronManager) : Prop :=
  forall id t, m_tasks s !! id = Some t ->
    find_record id (cron_tasks state) ≫= cron_task_from_wire = Some (as_restored t).

Definition replay_from (state : CronState) (ops : list WireOp) : CronState :=
  foldl (fun state op => fst (reduce state op)) state ops.

Lemma replay_app log ops : replay (log ++ ops) = replay_from (replay log) ops.
Proof. unfold replay, replay_from. by rewrite foldl_app. Qed.

Lemma replay_from_app state ops1 ops2 :
  replay_from state (ops1 ++ ops2) = replay_from (replay_from state ops1) ops2.
Proof. unfold replay_from. by rewrite foldl_app. Qed.

Lemma as_restored_next at_ t : as_restored (set_next_fire at_ t) = as_restored t.
Proof. done. Qed.

(** *** The operations of a pass *)

Lemma delete_all_other id k state (b : bool) :
  id <> k ->
  find_record k (cron_tasks (replay_from state (if b then [CronDelete [id]] else [])))
  = find_record k (cron_tasks state).
Proof.
  intros Hne. destruct b; [|done]. unfold replay_from. cbn [foldl].
  rewrite reduce_delete_record, decide_False; [done|]. set_solver.
Qed.

Lemma plan_ops_other p k state :
  plan_id p <> k ->
  find_record k (cron_tasks (replay_from state (plan_ops p))) = find_record k (cron_tasks state).
Proof.
  intros Hne. unfold plan_ops. rewrite !replay_from_app.
  rewrite !(delete_all_other (t_id (p_task p))) by done. unfold replay_from. cbn [foldl].
  by rewrite reduce_cursor_record, decide_False.
Qed.

Lemma plan_ops_survivor p state :
  p_stale p = false -> p_maxed_out p = false -> p_ended p = false ->
  find_record (plan_id p) (cron_tasks (replay_from state (plan_ops p)))
  = stamp (wrap_u64 (timestamp_millis (p_advanced p))) (wrap_u32 (t_fire_count (p_task p) + 1))
      <$> find_record (plan_id p) (cron_tasks state).
Proof.
  unfold plan_ops. intros -> -> ->. rewrite !app_nil_r. unfold replay_from. cbn [foldl].
  by rewrite reduce_cursor_record, decide_True.
Qed.

Lemma plans_ops_other ps : forall state k,
  k ∉ (plan_id <$> ps) ->
  find_record k (cron_tasks (replay_from state (ps ≫= plan_ops))) = find_record k (cron_tasks state).
Proof.
  induction ps as [|p ps IH]; intros state k Hk; [done|].
  rewrite fmap_cons in Hk. rewrite bind_cons, replay_from_app, IH by set_solver.
  apply plan_ops_other. set_solver.
Qed.

Lemma plans_ops_survivor ps : forall state p,
  NoDup (plan_id <$> ps) -> p ∈ ps ->
  p_stale p = false -> p_maxed_out p = false -> p_ended p = false ->
  find_record (plan_id p) (cron_tasks (replay_from state (ps ≫= plan_ops)))
  = stamp (wrap_u64 (timestamp_millis (p_advanced p))) (wrap_u32 (t_fire_count (p_task p) + 1))
      <$> find_record (plan_id p) (cron_tasks state).
Proof.
  induction ps as [|q ps IH]; intros state p Hnd Hp Hs Hm He; [set_solver|].
  rewrite fmap_cons in Hnd. apply NoDup_cons in Hnd as [Hq Hnd].
  rewrite bind_cons, replay_from_app. apply elem_of_cons in Hp as [<-|Hp].
  - rewrite plans_ops_other by done. by apply plan_ops_survivor.
  - rewrite IH by done. rewrite plan_ops_other; [done|]. intros Heq. apply Hq. rewrite Heq.
    by apply list_elem_of_fmap_2.
Qed.

(** *** The simulation *)

Definition restorable (s : CronManager) : Prop :=
  forall id t, m_tasks s !! id = Some t ->
    readable t /\ forall last, t_last_fired t = Some last -> 0 <= last.

Lemma cursor_value_read instant :
  instant_readable instant -> 0 <= instant ->
  as_i64 (JNum (wrap_u64 (timestamp_millis instant))) ≫= from_timestamp_millis
  = Some (truncate_millis instant).
Proof.
  intros Hi Hpos. rewrite <- timestamp_read by done. do 2 f_equal. f_equal.
  unfold wrap_u64. apply Z.mod_small. destruct Hi as [Hi _].
  assert (0 <= timestamp_millis instant) by (apply Z.div_pos; [done|unfold_time; lia]). lia.
Qed.

Lemma durable_pass state now s :
  keyed s -> m_shutdown s = false -> durable state s -> restorable (fst (check_due now s)) ->
  durable (replay_from state (due_plans now s ≫= plan_ops)) (fst (check_due now s)).
Proof.
  intros Hk Hs Hd Hr id t' Ht'. pose proof (Hr id t' Ht') as [Hread Hpos].
  destruct (check_due_eq now s Hk Hs) as (_ & Htab & _). rewrite Htab in Ht'.
  destruct (m_tasks s !! id) as [t|] eqn:Ht; [|done]. simpl in Ht'.
  pose proof (Hk _ _ Ht) as Hid. simpl in Hid. subst id. specialize (Hd _ _ Ht).
  destruct (due_tasks_sorted now s Hk) as [Hnd _]. rewrite <- due_plan_ids in Hnd by done.
  unfold after_check in Ht'. destruct (is_due now t) eqn:Hdue.
  - apply plan_outcome_inv in Ht' as (next & _ & Hsv & ->).
    apply survives_spec in Hsv as (_ & H1 & H2 & H3).
    pose proof (plans_ops_survivor (due_plans now s) state (plan_fire (m_options s) t now) Hnd)
      as Hrec. rewrite plan_id_due, plan_fire_task in Hrec. rewrite Hrec; try done.
    2: { apply elem_of_due_plans; [done|]. exists t. split; [done|]. by apply elem_of_due_tasks. }
    destruct (find_record (t_id t) (cron_tasks state)) as [r|]; [|done].
    cbn [fmap option_fmap option_map mbind option_bind] in Hd |- *.
    rewrite (stamp_read _ _ _ _ Hd), as_restored_next. f_equal.
    rewrite as_u64_u32 by apply wrap_u32_range. cbn [default]. unfold Datatypes.id.
    rewrite (wrap_u32_small (wrap_u32 _)) by apply wrap_u32_range.
    rewrite cursor_value_read; [done| |by apply Hpos].
    by apply (rd_last_fired _ Hread).
  - simplify_eq. rewrite plans_ops_other; [done|]. rewrite due_plan_ids by done.
    intros Hin. apply list_elem_of_fmap in Hin as (u & Hu & Hin).
    apply elem_of_due_tasks in Hin as [Hl Hin]; [|done]. rewrite <- Hu, Ht in Hl. congruence.
Qed.

(** The replayed log describes the manager: its tasks and its lineage count. *)
Definition describes (state : CronState) (s : CronManager) : Prop :=
  durable state s /\ cron_lineage_one_shot_created state = m_lineage s.

(** The operations that are not the restore of an earlier process's state. *)
Definition live (op : Op) : Prop :=
  match op with
  | OpRestoreTasks _ | OpRestoreHeld _ | OpRestoreLineage _ => False
  | _ => True
  end.

Lemma lineage_from_other state ops :
  (forall n, CronLineageCreated n ∉ ops) ->
  cron_lineage_one_shot_created (replay_from state ops) = cron_lineage_one_shot_created state.
Proof.
  revert state. induction ops as [|op ops IH]; intros state Hn; [done|].
  unfold replay_from. cbn [foldl]. fold (replay_from (fst (reduce state op)) ops).
  rewrite IH by (intros n Hi; apply (Hn n); set_solver).
  destruct op; try done. destruct (Hn count). set_solver.
Qed.

Lemma plans_ops_no_lineage ps n : CronLineageCreated n ∉ ps ≫= plan_ops.
Proof.
  rewrite list_elem_of_bind. intros (p & Hp & _). unfold plan_ops in Hp.
  destruct (p_stale p), (p_maxed_out p), (p_ended p); set_solver.
Qed.

(** A task added under its own record. *)
Lemma describes_add state s t :
  describes state s -> readable t ->
  describes (fst (reduce state (CronAdd (cron_task_wire t)))) (insert_task t s).
Proof.
  intros [Hd Hl] Hr. split; [|done]. intros id u Hu. simpl in Hu.
  rewrite (reduce_add_record (t_id t)) by (unfold str_field; by rewrite wire_id).
  destruct (decide (t_id t = id)) as [<-|Hne].
  - rewrite lookup_insert_eq in Hu. simplify_eq. by apply wire_read_back.
  - rewrite lookup_insert_ne in Hu by done. by apply Hd.
Qed.

Lemma add_describes cron prompt session_id recurring o now created_at id s log :
  let s' := fst (add cron prompt session_id recurring o now created_at id s) in
  m_log s = Some log -> describes (replay log) s -> restorable s' ->
  exists ops, m_log s' = Some (log ++ ops)%list /\ describes (replay (log ++ ops)) s'.
Proof.
  cbv zeta. intros Hlog Hd Hr.
  destruct (add _ _ _ _ _ _ _ _ _) as [s' [minted|e]] eqn:Ha; apply add_inv in Ha; simpl in *.
  - destruct Ha as (t & _ & Hid & _ & _ & ->). exists [CronAdd (cron_task_wire t)]. simpl.
    rewrite Hlog, replay_app. split; [done|]. apply (describes_add _ s t Hd).
    apply (Hr (t_id t)). simpl. apply lookup_insert_eq.
  - subst. exists []. by rewrite app_nil_r.
Qed.

Lemma describes_same state s s' :
  m_tasks s' = m_tasks s -> m_lineage s' = m_lineage s -> describes state s -> describes state s'.
Proof. unfold describes, durable. by intros -> ->. Qed.

Lemma describes_delete state s id :
  describes state s ->
  describes (fst (reduce state (CronDelete [id]))) (set_tasks (delete id (m_tasks s)) s).
Proof.
  intros [Hd Hl]. split; [|done]. intros k t Ht. simpl in Ht.
  rewrite lookup_delete_Some in Ht. destruct Ht as [Hne Ht].
  rewrite reduce_delete_record, decide_False by set_solver. by apply Hd.
Qed.

(** The held-fire operations leave the tasks and the count alone. *)
Lemma replay_held log op s s' :
  (exists r, op = CronHeldAdd r) \/ (exists id, op = CronHeldClear id) ->
  m_tasks s' = m_tasks s -> m_lineage s' = m_lineage s ->
  describes (replay log) s -> describes (replay (log ++ [op])) s'.
Proof.
  intros Hop Ht Hl Hd. apply (describes_same _ s s') in Hd; [|done..]. rewrite replay_app.
  destruct Hop as [[r ->]|[id ->]]; exact Hd.
Qed.

Lemma purge_log l : forall s log,
  m_log s = Some log -> describes (replay log) s ->
  let s' := foldl (fun s fire => if is_delete_requested (f_task_id fire) s
                                 then clear_held (f_task_id fire) s else s) s l in
  exists ops, m_log s' = Some (log ++ ops)%list /\ describes (replay (log ++ ops)) s'.
Proof.
  induction l as [|f l IH]; intros s log Hlog Hd; cbn [foldl].
  { exists []. by rewrite app_nil_r. }
  destruct (is_delete_requested (f_task_id f) s); [|by apply IH].
  destruct (IH (clear_held (f_task_id f) s) (log ++ [CronHeldClear (f_task_id f)])%list)
    as (ops & Hl & Hd').
  - simpl. by rewrite Hlog.
  - apply (replay_held _ _ s); [by right; eexists|done..].
  - exists (CronHeldClear (f_task_id f) :: ops). rewrite Hl. rewrite <- app_assoc in *. done.
Qed.

Lemma step_describes s op log :
  live op -> keyed s -> m_log s = Some log -> describes (replay log) s ->
  restorable (fst (step s op)) ->
  exists ops, m_log (fst (step s op)) = Some (log ++ ops)%list /\
    describes (replay (log ++ ops)) (fst (step s op)).
Proof.
  intros Hlive Hk Hlog Hd Hr.
  assert (Hsame : forall s', m_log s' = m_log s -> m_tasks s' = m_tasks s -> m_lineage s' = m_lineage s ->
    exists ops, m_log s' = Some (log ++ ops)%list /\ describes (replay (log ++ ops)) s').
  { intros s' H1 H2 H3. exists []. rewrite app_nil_r, H1. split; [done|].
    by apply (describes_same _ s). }
  destruct op; simpl in Hr |- *; try done.
  - by apply add_describes.
  - unfold add_lineage_one_shot in *.
    match goal with |- context [match ?r with Ok _ => _ | Err _ => _ end] =>
      destruct r as [n|e] eqn:Hn end; [|by apply Hsame].
    assert (n = m_lineage s + 1) as ->.
    { apply bind_ok in Hn as (? & _ & Hn). apply bind_ok in Hn as (? & _ & Hn). by ok_inv. }
    destruct (add_describes cron prompt session_id false (lineage_options timezone) now created_at
      id (record_op (CronLineageCreated (m_lineage s + 1)) (set_lineage (m_lineage s + 1) s))
      (log ++ [CronLineageCreated (m_lineage s + 1)])) as (ops & Hl & Hd'); [by simpl; rewrite Hlog| |done|].
    + rewrite replay_app. destruct Hd as [Hd1 Hd2]. split; [exact Hd1|].
      unfold replay_from. cbn. rewrite Hd2. lia.
    + exists (CronLineageCreated (m_lineage s + 1) :: ops).
      rewrite <- app_assoc in Hl, Hd'. done.
  - unfold remove in *. destruct (m_tasks (request_delete id s) !! id); simpl in *;
      [|apply (Hsame (request_delete id s)); done].
    exists [CronDelete [id]]. rewrite Hlog, replay_app. split; [done|].
    apply (describes_delete _ (record_op (CronDelete [id]) (request_delete id s))). exact Hd.
  - eexists [_]. split; [unfold hold_fire; simpl; by rewrite Hlog|].
    apply (replay_held _ _ s); [by left; eexists|done..].
  - eexists [_]. split; [unfold clear_held; simpl; by rewrite Hlog|].
    apply (replay_held _ _ s); [by right; eexists|done..].
  - by apply purge_log.
  - apply Hsame; unfold trigger; destruct (m_shutdown s); try done; by destruct (m_tasks s !! id).
  - destruct (m_shutdown s) eqn:Hs; [apply Hsame; unfold check_due; by rewrite Hs|].
    exists (due_plans now s ≫= plan_ops).
    destruct (check_due_eq now s Hk Hs) as (_ & _ & Hl & _ & _ & _ & _ & _ & Hlin).
    rewrite Hl, Hlog, replay_app. split; [done|]. destruct Hd as [Hd1 Hd2]. split.
    + by apply durable_pass.
    + rewrite lineage_from_other by (intros; apply plans_ops_no_lineage). congruence.
  - exists []. rewrite app_nil_r. unfold set_next_fire_at in *.
    destruct (m_tasks s !! id) as [t|] eqn:Ht; simpl; [|by rewrite Hlog]. split; [done|].
    destruct Hd as [Hd1 Hd2]. split; [|done]. intros k u Hu. simpl in Hu.
    destruct (decide (id = k)) as [<-|Hne].
    + rewrite lookup_insert_eq in Hu. simplify_eq. rewrite as_restored_next. by apply Hd1.
    + rewrite lookup_insert_ne in Hu by done. by apply Hd1.
  - apply (Hsame (shutdown s)); done.
Qed.

(** C23. The log is ahead of memory, never behind.  Take a manager whose log describes it,
    such as a new one with an empty log, and do anything to it but restore the tasks of
    an earlier process into it.  The log only grows, and replaying it
    gives, for every task of the table, a record that reads back as that task with its
    cursor and fire count, and the manager's lineage count, as long as the tasks were
    always ones that can be written at all ([restorable]): instants and dates in range,
    counts in their width, no cursor before the epoch, the effort in its normal
    spelling. *)
Theorem log_replays_to_table ops start log0 :
  keyed start -> m_log start = Some log0 -> describes (replay log0) start ->
  Forall live ops -> (forall n, restorable (fst (run (take n ops) start))) ->
  exists more, m_log (fst (run ops start)) = Some (log0 ++ more)%list /\
    describes (replay (log0 ++ more)) (fst (run ops start)).
Proof.
  revert start log0. induction ops as [|op ops IH]; intros s log Hk Hlog Hd Hlive Hr.
  { exists []. by rewrite app_nil_r. }
  apply Forall_cons in Hlive as [Hop Hlive]. rewrite run_cons. cbn [fst].
  pose proof (Hr 1%nat) as Hr1. cbn [take] in Hr1. rewrite run_cons in Hr1. simpl in Hr1.
  destruct (step_describes s op log Hop Hk Hlog Hd Hr1) as (l & Hl & Hd').
  destruct (IH (fst (step s op)) (log ++ l)%list) as (more & Hm & Hdm); [by apply step_keyed|done|done|done| |].
  - intros n. specialize (Hr (S n)). cbn [take] in Hr. by rewrite run_cons in Hr.
  - exists (l ++ more)%list. by rewrite app_assoc.
Qed.
End durability.

(** ** Resuming *)

Section resuming.
Context `{Chrono} `{ChronoText}.

Definition record_ids (tasks : list json) : list string := omap (str_field "id") tasks.

Lemma update_first_ids id (f : json -> json) tasks tasks' :
  (forall r, str_field "id" (f r) = Some id \/ str_field "id" (f r) = None) ->
  update_first (has_id "id" id) f tasks = Some tasks' ->
  sublist (record_ids tasks') (record_ids tasks).
Proof.
  intros Hf. revert tasks'. induction tasks as [|r tasks IH]; intros tasks' Hu; [done|].
  cbn [update_first] in Hu. unfold record_ids in *. rewrite omap_cons_eq.
  destruct (has_id "id" id r) eqn:Hr.
  - simplify_eq. rewrite omap_cons_eq. apply bool_decide_eq_true in Hr. rewrite Hr.
    destruct (Hf r) as [-> | ->]; [done|]. by apply sublist_cons.
  - apply fmap_Some in Hu as (l & Hl & ->). rewrite omap_cons_eq.
    destruct (str_field "id" r); [apply sublist_skip|]; by apply IH.
Qed.

Lemma stamp_ids last count id tasks :
  record_ids (default tasks (update_first (has_id "id" id) (stamp last count) tasks))
  = record_ids tasks.
Proof.
  induction tasks as [|r tasks IH]; [done|]. cbn [update_first]. unfold record_ids in *.
  destruct (has_id "id" id r).
  - change (omap (str_field "id") (stamp last count r :: tasks)
            = omap (str_field "id") (r :: tasks)).
    rewrite !omap_cons_eq. unfold str_field. by rewrite stamp_other.
  - destruct (update_first _ _ tasks) as [l|]; [|done].
    change (omap (str_field "id") (r :: l) = omap (str_field "id") (r :: tasks)).
    change (omap (str_field "id") l = omap (str_field "id") tasks) in IH.
    by rewrite !omap_cons_eq, IH.
Qed.

Lemma find_record_none id tasks :
  find_record id tasks = None <-> id ∉ record_ids tasks.
Proof.
  induction tasks as [|r tasks IH]; [split; [set_solver|done]|].
  rewrite find_record_cons. unfold record_ids in *. rewrite omap_cons_eq. unfold has_id.
  destruct (str_field "id" r) as [rid|].
  - case_bool_decide as Hd; simplify_eq; [set_solver|]. rewrite IH. set_solver.
  - by rewrite bool_decide_false.
Qed.

Lemma reduce_ids state op :
  (forall last count, op <> CronCursor last count None) ->
  NoDup (record_ids (cron_tasks state)) -> NoDup (record_ids (cron_tasks (fst (reduce state op)))).
Proof.
  intros Hop Hnd. destruct op as [task|ids|n|id last [count|]|r|id]; simpl; try done.
  - destruct (update_first _ _ _) as [l|] eqn:Hu.
    + apply update_first_ids in Hu; [by eapply sublist_NoDup|].
      intros _. destruct (str_field "id" task); auto.
    + apply update_first_none, find_record_none in Hu. unfold record_ids in *.
      rewrite omap_app, omap_cons_eq. change (omap (str_field "id") []) with (@nil string).
      destruct (str_field "id" task) as [id|]; [|by rewrite app_nil_r].
      apply NoDup_app. split_and!; [done| |apply NoDup_singleton]. simpl in Hu. set_solver.
  - unfold record_ids. eapply sublist_NoDup; [exact Hnd|]. clear.
    induction (cron_tasks state) as [|r l IH]; [done|]. rewrite filter_cons. unfold record_ids in *.
    rewrite omap_cons_eq. case_decide; rewrite ?omap_cons_eq; destruct (str_field "id" r);
      try (by apply sublist_skip); try done. by apply sublist_cons.
  - change (NoDup (record_ids (default (cron_tasks state)
      (update_first (has_id "id" id) (stamp last count) (cron_tasks state))))).
    by rewrite stamp_ids.
  - by destruct (Hop id last).
Qed.

Lemma from_wire_id r t : cron_task_from_wire r = Some t -> str_field "id" r = Some (t_id t).
Proof.
  unfold cron_task_from_wire. destruct (str_field "id" r); [|done]. simpl.
  destruct (timestamp r "createdAt" "created_at"); [|done]. simpl. by intros [= <-].
Qed.

Lemma parsed_ids tasks :
  sublist (t_id <$> omap cron_task_from_wire tasks) (record_ids tasks).
Proof.
  induction tasks as [|r tasks IH]; [done|]. unfold record_ids in *. rewrite !omap_cons_eq.
  destruct (cron_task_from_wire r) as [t|] eqn:Hr.
  - apply from_wire_id in Hr as ->. rewrite fmap_cons. by apply sublist_skip.
  - destruct (str_field "id" r); [by apply sublist_cons|done].
Qed.

Lemma parsed_find id t tasks :
  NoDup (record_ids tasks) ->
  find_record id tasks ≫= cron_task_from_wire = Some t ->
  exists i, list_find (fun u => t_id u = id) (omap cron_task_from_wire tasks) = Some (i, t).
Proof.
  intros Hnd. induction tasks as [|r tasks IH]; [done|].
  change (NoDup (omap (str_field "id") (r :: tasks))) in Hnd. rewrite omap_cons_eq in Hnd.
  rewrite find_record_cons, omap_cons_eq. unfold has_id.
  destruct (str_field "id" r) as [rid|] eqn:Hid.
  - apply NoDup_cons in Hnd as [Hr Hnd]. case_bool_decide as Hd; simplify_eq.
    + intros Ht. cbn [mbind option_bind] in Ht. rewrite Ht. apply from_wire_id in Ht.
      exists 0%nat. cbn [list_find]. rewrite decide_True; [done|congruence].
    + intros Ht. destruct (IH Hnd Ht) as [i Hi].
      destruct (cron_task_from_wire r) as [u|] eqn:Hu; [|by exists i].
      apply from_wire_id in Hu. exists (S i). cbn [list_find].
      rewrite decide_False by congruence. by rewrite Hi.
  - rewrite bool_decide_false by done. intros Ht. destruct (IH Hnd Ht) as [i Hi].
    destruct (cron_task_from_wire r) as [u|] eqn:Hu; [|by exists i].
    apply from_wire_id in Hu. congruence.
Qed.

Lemma step_ids ops : forall state,
  Forall (fun op => forall id last, op <> CronCursor id last None) ops ->
  NoDup (record_ids (cron_tasks state)) ->
  NoDup (record_ids (cron_tasks (replay_from state ops))).
Proof.
  induction ops as [|op ops IH]; intros state Hops Hnd; [done|].
  apply Forall_cons in Hops as [Hop Hops].
  exact (IH (fst (reduce state op)) Hops (reduce_ids state op Hop Hnd)).
Qed.

(** Resuming from the log rebuilds the table: a fresh manager restored from
    the replayed state of a manager that the state describes holds each of its
    tasks, unless that can no longer be scheduled, with the same record and
    the next fire recomputed from its cursor. *)
Theorem resume_rebuilds_table log s o id t :
  describes (replay log) s ->
  Forall (fun op => forall id last, op <> CronCursor id last None) log ->
  m_tasks s !! id = Some t ->
  m_tasks (restore_cron_tasks (cron_tasks (replay log)) (with_options o)) !! id
  = (fun next => set_next_fire next (as_restored t)) <$> restored_next o (as_restored t).
Proof.
  intros [Hd _] Hops Ht. specialize (Hd id t Ht).
  assert (Hnd : NoDup (record_ids (cron_tasks (replay log))))
    by (apply (step_ids log empty_cron_state Hops), NoDup_nil_2).
  destruct (parsed_find id _ _ Hnd Hd) as [i Hi].
  unfold restore_cron_tasks. rewrite restore_tasks_lookup.
  - rewrite Hi. simpl. by destruct (restored_next o (as_restored t)).
  - eapply sublist_NoDup; [exact Hnd|]. apply parsed_ids.
Qed.

(** ** Held fires do not replay *)

Definition held_state (fires : list CronFire) (o : CronOptions) : CronManager :=
  foldl (fun s f => hold_fire f s) (with_wire_recorder [] (with_options o)) fires.

Lemma held_count_merge existing incoming :
  is_obj incoming = true ->
  0 <= held_count existing + held_count incoming < 2 ^ 64 ->
  held_count (merge_held_records existing incoming)
  = held_count existing + held_count incoming.
Proof.
  intros Ho Hr. set (total := held_count existing + held_count incoming) in *.
  assert (Hg : jget "coalesced_count" (merge_held_records existing incoming)
               = Some (JNum total)).
  { unfold merge_held_records. fold total.
    repeat case_match; rewrite ?jget_insert_ne by done; by apply jget_insert_eq. }
  unfold held_count at 1. rewrite Hg. unfold as_u64. simpl.
  by rewrite (proj2 (Z.leb_le _ _)), (proj2 (Z.ltb_lt _ _)) by lia.
Qed.

(** The log of merged holds counts twice: [hold_fire] records the entry it
    has already merged, and the replay's own merge adds the counts again, so
    after holding counts [a] and [b] of one task memory holds [a + b] and the
    replayed log [a + (a + b)]. *)
Theorem held_replay_overcounts f1 f2 o :
  f_task_id f2 = f_task_id f1 ->
  0 <= f_coalesced_count f1 -> 0 <= f_coalesced_count f2 ->
  2 * f_coalesced_count f1 + f_coalesced_count f2 < 2 ^ 64 ->
  let s := held_state [f1; f2] o in
  f_coalesced_count <$> m_held s = [f_coalesced_count f1 + f_coalesced_count f2] /\
  exists log, m_log s = Some log /\
    held_count <$> cron_held (replay log)
    = [f_coalesced_count f1 + (f_coalesced_count f1 + f_coalesced_count f2)].
Proof.
  intros Hid H1 H2 Hmax. cbv zeta.
  assert (Hh : forall f, 0 <= f_coalesced_count f < 2 ^ 64 ->
            held_count (cron_fire_wire f) = f_coalesced_count f).
  { intros f Hf. unfold held_count. simpl jget. unfold as_u64. simpl.
    by rewrite (proj2 (Z.leb_le _ _)), (proj2 (Z.ltb_lt _ _)) by lia. }
  assert (Hi : forall f, str_field "task_id" (cron_fire_wire f) = Some (f_task_id f)) by done.
  set (merged := merge_fire f1 f2).
  assert (Hm : held_state [f1; f2] o =
    mkManager ∅ false o (Some [CronHeldAdd (cron_fire_wire f1); CronHeldAdd (cron_fire_wire merged)])
      None ∅ [merged] 0).
  { assert (Hif : forall A (a b : A),
      (if decide (f_task_id f1 = f_task_id f2) then a else b) = a)
      by (intros; by rewrite decide_True).
    unfold held_state, hold_fire, find_held. simpl. rewrite !Hif. simpl.
    by rewrite decide_True. }
  rewrite Hm. simpl. split; [done|]. eexists. split; [done|].
  unfold replay. cbn [foldl]. unfold reduce at 2. rewrite Hi. simpl.
  assert (Hf : has_id "task_id" (f_task_id f1) (cron_fire_wire f1) = true)
    by (unfold has_id; by rewrite Hi, bool_decide_true).
  rewrite Hf. simpl. rewrite held_count_merge; [|done|].
  - rewrite !Hh; [done| |]; unfold merged; simpl; lia.
  - rewrite !Hh; unfold merged; simpl; lia.
Qed.
End resuming.

(** ** Witnesses *)

Lemma held_replay_overcounts_witness :
  let s := held_state [sample_fire 2; sample_fire 3] sample_options in
  f_coalesced_count <$> m_held s = [5] /\
  exists log, m_log s = Some log /\ held_count <$> cron_held (replay log) = [7].
Proof.
  exact (held_replay_overcounts (sample_fire 2) (sample_fire 3) sample_options eq_refl
    ltac:(vm_compute; discriminate) ltac:(vm_compute; discriminate) eq_refl).
Defined.

(** A decidable form of [restorable], to evaluate it on a sample. *)
Section check_restorable.
Context `{Chrono} `{ChronoText}.

Definition instant_check (instant : Z) : bool :=
  (- 2 ^ 63 <=? timestamp_millis instant) && (timestamp_millis instant <? 2 ^ 63) &&
  date_in_range (timestamp_millis instant * MILLI / DAY).

Definition task_check (t : CronTask) : bool :=
  instant_check (t_created_at t) &&
  from_option (fun last => instant_check last && (0 <=? last)) true (t_last_fired t) &&
  from_option (fun m => (0 <=? m) && (m <=? u32_max)) true (t_max_fires t) &&
  ((0 <=? t_fire_count t) && (t_fire_count t <=? u32_max)) &&
  from_option (fun e => bool_decide (effort_from_json (JStr (effort_name e)) = Some e)) true
    (t_effort t) &&
  bool_decide (t_ends_at t = None) && bool_decide (t_interval t = None).

Lemma instant_check_sound instant : instant_check instant = true -> instant_readable instant.
Proof. unfold instant_check. rewrite !andb_true_iff, Z.leb_le, Z.ltb_lt. by intros [? ?]. Qed.

Lemma restorable_check s :
  forallb task_check ((map_to_list (m_tasks s)).*2) = true -> restorable s.
Proof.
  rewrite forallb_forall. intros Hall id t Ht.
  assert (Hin : In t ((map_to_list (m_tasks s)).*2)).
  { apply list_elem_of_In, list_elem_of_fmap. exists (id, t). split; [done|].
    by apply elem_of_map_to_list. }
  specialize (Hall t Hin). unfold task_check in Hall. rewrite !andb_true_iff in Hall.
  destruct Hall as [[[[[[Hc Hl] Hm] [Hf1 Hf2]] He] Hd] Hi].
  apply bool_decide_eq_true in Hd, Hi. split.
  - split; rewrite ?Hd, ?Hi; try done.
    + by apply instant_check_sound.
    + intros last Hlast. rewrite Hlast in Hl. simpl in Hl. apply andb_true_iff in Hl as [Hl _].
      by apply instant_check_sound.
    + intros m Hmax. rewrite Hmax in Hm. simpl in Hm. bsimpl. lia.
    + lia.
    + intros e Heff. rewrite Heff in He. simpl in He. by apply bool_decide_eq_true in He.
  - intros last Hlast. rewrite Hlast in Hl. simpl in Hl. bsimpl. lia.
Qed.
End check_restorable.

Definition sample_ops : list Op :=
  [OpAdd "*/10 * * * *" "tick" "session-1" true default_create_options sample_instant sample_instant
     "cron-a";
   OpCheckDue (sample_instant + 35 * MINUTE)].

Definition sample_start : CronManager := with_wire_recorder [] (with_options sample_options).

Lemma sample_ops_restorable n : restorable (fst (run (take n sample_ops) sample_start)).
Proof.
  destruct n as [|[|n]]; [| |destruct n]; apply restorable_check; vm_compute; reflexivity.
Qed.

Lemma log_replays_to_table_witness :
  (exists more, m_log (fst (run sample_ops sample_start)) = Some ([] ++ more)%list /\
     describes (replay ([] ++ more)) (fst (run sample_ops sample_start))) /\
  size (m_tasks (fst (run sample_ops sample_start))) = 1%nat.
Proof.
  split; [|vm_compute; reflexivity].
  apply (log_replays_to_table sample_ops sample_start []).
  - by intros ? ? ?.
  - reflexivity.
  - split; [by intros ? ? ?|reflexivity].
  - repeat constructor.
  - exact sample_ops_restorable.
Defined.

(** A table of one task and the log that wrote it. *)
Definition sample_log : list WireOp :=
  [CronAdd (cron_task_wire (sample_task "cron-a" "*/10 * * * *" (Some 3) 0))].

Lemma sample_log_describes : describes (replay sample_log) sample_manager.
Proof.
  split; [|reflexivity]. intros id t Ht. unfold sample_manager in Ht. simpl in Ht.
  apply lookup_insert_Some in Ht as [[<- <-]|[_ Ht]]; [vm_compute; reflexivity|done].
Qed.

Lemma resume_rebuilds_table_witness :
  m_tasks (restore_cron_tasks (cron_tasks (replay sample_log)) (with_options sample_options))
    !! "cron-a"
  = (fun next => set_next_fire next (as_restored (sample_task "cron-a" "*/10 * * * *" (Some 3) 0)))
      <$> restored_next sample_options
            (as_restored (sample_task "cron-a" "*/10 * * * *" (Some 3) 0)).
Proof.
  apply (resume_rebuilds_table sample_log sample_manager sample_options "cron-a"
           (sample_task "cron-a" "*/10 * * * *" (Some 3) 0) sample_log_describes).
  - repeat constructor. intros id last [=].
  - reflexivity.
Defined.
