(* ===== verification/CronWorkspace.v ===== *)
(** * The workspace cron manager: [mirri-core/src/cron/workspace_store.rs]

    The task table and the run records of one workspace, kept in memory and in
    one of two durable media (the JSON document, or the rows of the index),
    with one definition per operation.  What the environment decides (the
    clock, minted ids, whether an I/O succeeded) is an argument. *)
From stdpp Require Import gmap strings.
From S2P Require Import Prelude RustStd F64 Json CronIndex CronExpr Chrono CivilCalendar.
From S2P Require Import CronNextFire CronJitter CronTask CronPlan CronWire CronManager.
#[local] Open Scope string_scope.
#[local] Open Scope Z_scope.

Definition WORKSPACE_CRON_STORE_VERSION : Z := 1.
Definition MAX_RUN_RECORDS_PER_TASK : nat := 50.

(** ** Data *)

Inductive RunStatus : Type := Running | Succeeded | Failed | Rejected | Skipped | WaitingApproval.
Inductive RunTrigger : Type := Scheduled | RunNow | QueueDrain.
Inductive ProposalState : Type := Pending | Approved | PRejected | Expired | Withdrawn | PFailed.

#[export] Instance RunStatus_eq_dec : EqDecision RunStatus. Proof. solve_decision. Defined.
#[export] Instance ProposalState_eq_dec : EqDecision ProposalState. Proof. solve_decision. Defined.

Definition is_in_flight (status : RunStatus) : bool :=
  match status with Running | WaitingApproval => true | _ => false end.

Record RunRecord : Type := mkRun {
  r_run_id : string;
  r_status : RunStatus;
  r_started_at : Z;
  r_ended_at : option Z;
  r_duration_ms : option Z;       (** [u64] *)
  r_usage : option json;
  r_session_ref : option string;
  r_skip_reason : option string;
  r_asked_ops : list json;
  r_trigger : option RunTrigger;
  r_scheduled_at : option Z
}.

Record CronProposal : Type := mkProposal {
  pr_id : string;
  pr_workspace_id : string;
  pr_cron : string;
  pr_timezone : option string;
  pr_prompt : string;
  pr_recurring : bool;
  pr_max_fires : option Z;
  pr_suggested_posture : PermissionPosture;
  pr_concurrency : TaskConcurrency;
  pr_reason : option string;
  pr_proposed_by_session : string;
  pr_proposed_by_agent : string;
  pr_created_at : Z;
  pr_expires_at : Z;
  pr_state : ProposalState;
  pr_rejection_feedback : option string;
  pr_approved_task_id : option string;
  pr_gate_request_id : option string;
  pr_receipt_delivered : bool
}.

Definition set_proposal_state (state : ProposalState) (p : CronProposal) : CronProposal :=
  mkProposal (pr_id p) (pr_workspace_id p) (pr_cron p) (pr_timezone p) (pr_prompt p)
    (pr_recurring p) (pr_max_fires p) (pr_suggested_posture p) (pr_concurrency p) (pr_reason p)
    (pr_proposed_by_session p) (pr_proposed_by_agent p) (pr_created_at p) (pr_expires_at p) state
    (pr_rejection_feedback p) (pr_approved_task_id p) (pr_gate_request_id p)
    (pr_receipt_delivered p).
Definition set_receipt_delivered (p : CronProposal) : CronProposal :=
  mkProposal (pr_id p) (pr_workspace_id p) (pr_cron p) (pr_timezone p) (pr_prompt p)
    (pr_recurring p) (pr_max_fires p) (pr_suggested_posture p) (pr_concurrency p) (pr_reason p)
    (pr_proposed_by_session p) (pr_proposed_by_agent p) (pr_created_at p) (pr_expires_at p)
    (pr_state p) (pr_rejection_feedback p) (pr_approved_task_id p) (pr_gate_request_id p) true.

(** [WorkspaceCronDocument] *)
Record Document : Type := mkDocument {
  d_version : Z;
  d_tasks : list CronTask;
  d_runs : gmap string (list RunRecord);
  d_proposals : list CronProposal
}.

Definition new_document : Document := mkDocument WORKSPACE_CRON_STORE_VERSION [] ∅ [].

Definition set_d_version (v : Z) (d : Document) : Document :=
  mkDocument v (d_tasks d) (d_runs d) (d_proposals d).
Definition set_d_tasks (v : list CronTask) (d : Document) : Document :=
  mkDocument (d_version d) v (d_runs d) (d_proposals d).
Definition set_d_runs (v : gmap string (list RunRecord)) (d : Document) : Document :=
  mkDocument (d_version d) (d_tasks d) v (d_proposals d).
Definition set_d_proposals (v : list CronProposal) (d : Document) : Document :=
  mkDocument (d_version d) (d_tasks d) (d_runs d) v.

(** [WorkspaceBody]: what a row's body text decodes to. *)
Record WorkspaceBody : Type := mkBody { b_task : CronTask; b_runs : list RunRecord }.

(** One operation's I/O: the lock was taken (or the rows could be listed), the
    write (or the transaction) went through, and the text of the failure. *)
Record Io : Type := mkIo { io_ready : bool; io_written : bool; io_error : string }.
Definition io_ok : Io := mkIo true true "".

(** [WorkspaceCronManager]: with an index attached the document file is a
    frozen archive; the listeners are the count of their notifications. *)
Record Manager : Type := mkWorkspace {
  w_id : string;
  w_file : Document;
  w_index : option (CronIndex WorkspaceBody);
  w_tasks : gmap string CronTask;
  w_runs : gmap string (list RunRecord);
  w_options : CronOptions;
  w_changes : nat
}.

Definition set_file (v : Document) (s : Manager) : Manager :=
  mkWorkspace (w_id s) v (w_index s) (w_tasks s) (w_runs s) (w_options s) (w_changes s).
Definition set_index (v : CronIndex WorkspaceBody) (s : Manager) : Manager :=
  mkWorkspace (w_id s) (w_file s) (Some v) (w_tasks s) (w_runs s) (w_options s) (w_changes s).
Definition set_w_tasks (v : gmap string CronTask) (s : Manager) : Manager :=
  mkWorkspace (w_id s) (w_file s) (w_index s) v (w_runs s) (w_options s) (w_changes s).
Definition set_w_runs (v : gmap string (list RunRecord)) (s : Manager) : Manager :=
  mkWorkspace (w_id s) (w_file s) (w_index s) (w_tasks s) v (w_options s) (w_changes s).
Definition notify_change (s : Manager) : Manager :=
  mkWorkspace (w_id s) (w_file s) (w_index s) (w_tasks s) (w_runs s) (w_options s) (S (w_changes s)).

(** ** Run lists *)

(** The queue posture's backlogged slot. *)
Definition is_queued_slot (run : RunRecord) : bool :=
  bool_decide (r_status run = Skipped) &&
  from_option (str_contains "单槽排队") false (r_skip_reason run).

Definition run_in_flight (run : RunRecord) : bool := is_in_flight (r_status run).

(** [push], then [drain(..overflow)]. *)
Definition push_bounded (record : RunRecord) (records : list RunRecord) : list RunRecord :=
  let records := (records ++ [record])%list in
  drop (length records - MAX_RUN_RECORDS_PER_TASK) records.

(** Assign through [iter_mut().rev().find(p)]. *)
Definition replace_last (p : RunRecord -> bool) (record : RunRecord) (records : list RunRecord)
  : list RunRecord :=
  match update_first p (fun _ => record) (rev records) with
  | Some replaced => rev replaced
  | None => records
  end.

Definition has_run_id (run_id : string) (run : RunRecord) : bool :=
  bool_decide (r_run_id run = run_id).

(** [runs.entry(id).or_default()] followed by an update. *)
Definition update_entry (id : string) (f : list RunRecord -> list RunRecord)
    (runs : gmap string (list RunRecord)) : gmap string (list RunRecord) :=
  <[id := f (default [] (runs !! id))]> runs.

(** [get_mut(id)] with [iter_mut().find(p)]: nothing when either is missing. *)
Definition update_run (id : string) (p : RunRecord -> bool) (f : RunRecord -> RunRecord)
    (runs : gmap string (list RunRecord)) : gmap string (list RunRecord) :=
  alter (fun records => default records (update_first p f records)) id runs.

(** [iter_mut().find(|task| task.id == id)]. *)
Definition update_task (id : string) (f : CronTask -> CronTask) (tasks : list CronTask)
  : list CronTask :=
  default tasks (update_first (fun t => bool_decide (t_id t = id)) f tasks).

(** Record updates. *)
Definition set_status (status : RunStatus) (r : RunRecord) : RunRecord :=
  mkRun (r_run_id r) status (r_started_at r) (r_ended_at r) (r_duration_ms r) (r_usage r)
    (r_session_ref r) (r_skip_reason r) (r_asked_ops r) (r_trigger r) (r_scheduled_at r).
Definition set_session_ref (session_ref : string) (r : RunRecord) : RunRecord :=
  mkRun (r_run_id r) (r_status r) (r_started_at r) (r_ended_at r) (r_duration_ms r) (r_usage r)
    (Some session_ref) (r_skip_reason r) (r_asked_ops r) (r_trigger r) (r_scheduled_at r).
Definition set_fire_count (count : Z) (t : CronTask) : CronTask := set_cursor (t_last_fired t) count t.
Definition set_last_fired (at_ : Z) (t : CronTask) : CronTask := set_cursor (Some at_) (t_fire_count t) t.
Definition set_pause (paused : bool) (next : option Z) (t : CronTask) : CronTask :=
  mkCronTask (t_id t) (t_cron t) (t_prompt t) (t_session_id t) (t_recurring t) (t_timezone t)
    (t_created_at t) (t_last_fired t) next (t_origin t) (t_max_fires t) (t_fire_count t)
    (t_cron_lineage t) (t_scope t) (t_permission_posture t) (t_permission_mode t) paused
    (t_concurrency t) (t_title t) (t_model t) (t_effort t) (t_workdir t) (t_ends_at t)
    (t_interval t).

(** ** The durable media *)

Section media.
Context `{ChronoText}.

(** [rebuild_document_from_index] over the rows listed. *)
Definition rebuild_document (rows : list (ScheduledTaskRow WorkspaceBody)) : Document :=
  mkDocument WORKSPACE_CRON_STORE_VERSION ((b_task ∘ row_body) <$> rows)
    (foldl (fun runs row => match b_runs (row_body row) with
                            | [] => runs
                            | records => <[row_id row := records]> runs
                            end) ∅ rows) [].

(** The text of the lifted timestamp columns. *)
Definition encode_ts (at_ : Z) : string := format_nanos at_.

(** The rows [persist_document] writes. *)
Definition document_rows (workspace_id : string) (d : Document)
  : list (ScheduledTaskRow WorkspaceBody) :=
  (fun t => mkRow (t_id t) workspace_id (encode_ts <$> t_next_fire_at t) (t_paused t)
              (encode_ts (t_created_at t)) (mkBody t (default [] (d_runs d !! t_id t))))
    <$> d_tasks d.

(** [persist_document]: best effort, a failed transaction is only logged. *)
Definition persist_document (io : Io) (index : CronIndex WorkspaceBody) (workspace_id : string)
    (d : Document) : CronIndex WorkspaceBody :=
  if io_written io
  then default index (replace_workspace workspace_id (document_rows workspace_id d) index)
  else index.

(** The document an attached index is read as: empty when listing fails. *)
Definition read_index (io : Io) (index : CronIndex WorkspaceBody) (workspace_id : string)
  : Document :=
  if io_ready io then rebuild_document (list_workspace workspace_id index) else new_document.

(** [mutate_store]: the state after it, what the transform collected (nothing
    when it did not run) and whether the caller is told it succeeded. *)
Definition mutate_store {A} (io : Io) (transform : Document -> Document * A) (s : Manager)
  : Manager * option A * bool :=
  match w_index s with
  | Some index =>
    let '(d, a) := transform (read_index io index (w_id s)) in
    (set_index (persist_document io index (w_id s) d) s, Some a, true)
  | None =>
    if negb (io_ready io) then (s, None, false)
    else
      let '(d, a) := transform (w_file s) in
      if io_written io then (set_file (set_d_version WORKSPACE_CRON_STORE_VERSION d) s, Some a, true)
      else (s, Some a, false)
  end.

(** [mutate_store] of a transform that collects nothing. *)
Definition mutate (io : Io) (transform : Document -> Document) (s : Manager) : Manager * bool :=
  let '(s, _, ok) := mutate_store io (fun d => (transform d, tt)) s in (s, ok).

(** [post_mutate_document] *)
Definition post_mutate_document (io : Io) (s : Manager) : Document :=
  match w_index s with
  | Some index => read_index io index (w_id s)
  | None => w_file s
  end.
End media.

(** ** Restoring *)

Section operations.
Context `{Chrono} `{ChronoText}.

Definition task_belongs_to_workspace (t : CronTask) : bool :=
  match t_scope t with Workspace _ => true | Session => false end.

(** The schedule one record is restored with: [None] when it is skipped
    because it can no longer be scheduled. *)
Definition restored_schedule (options : CronOptions) (t : CronTask) : option (option Z) :=
  if t_paused t then Some None
  else if negb (t_recurring t) && bool_decide (is_Some (t_last_fired t)) then Some None
  else
    let z := tz_or_local (t_timezone t) in
    match compute_schedule_next_fire (task_schedule t) (fire_base t) z with
    | Ok ideal =>
      if occurrence_past_ends_at t ideal z then Some None
      else Some (Some (delivery options t z ideal))
    | Err _ => None
    end.

(** [restored_tables] *)
Definition restored_tables (d : Document) (options : CronOptions)
  : gmap string CronTask * gmap string (list RunRecord) :=
  foldl (fun '(tasks, runs) t =>
      if negb (task_belongs_to_workspace t) then (tasks, runs)
      else match restored_schedule options t with
           | Some next => (<[t_id t := set_next_fire next t]> tasks, runs)
           | None => (tasks, delete (t_id t) runs)
           end) (∅, d_runs d) (d_tasks d).

(** [with_options]: [file] is what reading the store gave, a document that is held as a
    value; that its text decodes to what was encoded is taken for granted. *)
Definition with_options (workspace_id : string) (file : Document) (options : CronOptions) : Manager :=
  let '(tasks, runs) := restored_tables file options in
  mkWorkspace workspace_id file None tasks runs options 0.

Definition open_with_index (workspace_id : string) (io : Io) (file : Document)
    (index : CronIndex WorkspaceBody) (options : CronOptions) : Manager :=
  let '(tasks, runs) := restored_tables (read_index io index workspace_id) options in
  mkWorkspace workspace_id file (Some index) tasks runs options 0.

Definition reload_from_index (io : Io) (s : Manager) : Manager :=
  match w_index s with
  | None => s
  | Some index =>
    let '(tasks, runs) := restored_tables (read_index io index (w_id s)) (w_options s) in
    set_w_runs runs (set_w_tasks tasks s)
  end.

(** ** Tasks *)

Definition with_scope (scope : TaskScope) (o : CronCreateOptions) : CronCreateOptions :=
  mkCronCreateOptions (o_timezone o) (o_max_fires o) (o_origin o) (o_cron_lineage o) scope
    (o_permission_posture o) (o_permission_mode o) (o_concurrency o) (o_title o) (o_model o)
    (o_effort o) (o_workdir o) (o_ends_at o) (o_interval o).

Definition persist_failed : CronError :=
  InvalidExpression "persisting the workspace cron task failed".

(** [WorkspaceCronManager::add]; its checks are those of the session's [add]. *)
Definition add (io : Io) (cron prompt : string) (recurring : bool) (o : CronCreateOptions)
    (now created_at : Z) (id : string) (s : Manager) : Manager * result CronError string :=
  match
    (_ ← check_create cron recurring o now;
     prepare_task cron prompt "" recurring (with_scope (Workspace (w_id s)) o) (w_options s) id
       created_at)
  with
  | Err e => (s, Err e)
  | Ok t =>
    let '(s, ok) := mutate io (fun d =>
        set_d_tasks (filter (fun u => t_id u <> t_id t) (d_tasks d) ++ [t]) d) s in
    if ok then (notify_change (set_w_tasks (<[t_id t := t]> (w_tasks s)) s), Ok (t_id t))
    else (s, Err persist_failed)
  end.

(** [remove]: the in-memory runs of the task stay. *)
Definition remove (io : Io) (id : string) (s : Manager) : Manager * bool :=
  match w_tasks s !! id with
  | None => (s, false)
  | Some _ =>
    let '(s, _) := mutate io (fun d =>
        set_d_runs (delete id (d_runs d))
          (set_d_tasks (filter (fun u => t_id u <> id) (d_tasks d)) d)) s in
    (notify_change (set_w_tasks (delete id (w_tasks s)) s), true)
  end.

Definition list_tasks (s : Manager) : list CronTask := sorted_values t_id (w_tasks s).
Definition get (id : string) (s : Manager) : option CronTask := w_tasks s !! id.
Definition runs (id : string) (s : Manager) : list RunRecord := default [] (w_runs s !! id).

Definition set_next_fire_at (id : string) (at_ : option Z) (s : Manager) : Manager * bool :=
  match w_tasks s !! id with
  | Some t => (set_w_tasks (<[id := set_next_fire at_ t]> (w_tasks s)) s, true)
  | None => (s, false)
  end.

(** ** Runs *)

Inductive OpenRunOutcome : Type :=
| Opened (run_id : string)
| Queued (run_id : string)
| Declined (opener : RunRecord).

Definition queued_record (opener : RunRecord) : RunRecord :=
  mkRun (r_run_id opener) Skipped (r_started_at opener) None (r_duration_ms opener)
    (r_usage opener) (r_session_ref opener) (Some "排队中（并发姿态：Queue，单槽排队）")
    (r_asked_ops opener) (r_trigger opener) (r_scheduled_at opener).

(** Park a fire in the single slot: replace the slot's record, or append. *)
Definition park (existing : bool) (queued : RunRecord) (records : list RunRecord)
  : list RunRecord :=
  if existing then replace_last is_queued_slot queued records else push_bounded queued records.

(** [try_open_run] *)
Definition try_open_run (io : Io) (task_id : string) (queue : bool) (opener : RunRecord)
    (s : Manager) : Manager * OpenRunOutcome :=
  let has_running := existsb run_in_flight (runs task_id s) in
  if has_running then
    if queue then
      let queued := queued_record opener in
      let existing_queued := existsb is_queued_slot (runs task_id s) in
      let place := update_entry task_id (park existing_queued queued) in
      let '(s, _) := mutate io (fun d => set_d_runs (place (d_runs d)) d) s in
      (notify_change (set_w_runs (place (w_runs s)) s), Queued (r_run_id queued))
    else (s, Declined opener)
  else
    let place := update_entry task_id (push_bounded opener) in
    let '(s, _) := mutate io (fun d => set_d_runs (place (d_runs d)) d) s in
    (notify_change (set_w_runs (place (w_runs s)) s), Opened (r_run_id opener)).

Definition reopened (now : Z) (r : RunRecord) : RunRecord :=
  mkRun (r_run_id r) Running now None None (r_usage r) (r_session_ref r) None (r_asked_ops r)
    (r_trigger r) (r_scheduled_at r).

(** [drain_queued_run] *)
Definition drain_queued_run (io : Io) (task_id : string) (now : Z) (s : Manager)
  : Manager * option (string * string) :=
  match List.find is_queued_slot (runs task_id s) with
  | None => (s, None)
  | Some slot =>
    if existsb run_in_flight (runs task_id s) then (s, None)
    else
      let record := reopened now slot in
      let assign := update_first (has_run_id (r_run_id record)) (fun _ => record) in
      let '(s, _) := mutate io (fun d =>
          set_d_runs (update_entry task_id (fun l => default l (assign l)) (d_runs d)) d) s in
      (notify_change (set_w_runs
         (update_run task_id (has_run_id (r_run_id record)) (fun _ => record) (w_runs s)) s),
       Some (task_id, r_run_id record))
  end.

(** [append_run] *)
Definition append_run (io : Io) (task_id : string) (record : RunRecord) (s : Manager) : Manager :=
  let place := update_entry task_id (push_bounded record) in
  let '(s, _) := mutate io (fun d => set_d_runs (place (d_runs d)) d) s in
  notify_change (set_w_runs (place (w_runs s)) s).

(** The statuses that consume the budget. *)
Definition counts (status : RunStatus) : bool :=
  match status with Succeeded | Failed | Rejected => true | _ => false end.

Definition count_fire (t : CronTask) : CronTask :=
  set_fire_count (wrap_u32 (t_fire_count t + 1)) t.

Definition count_doc (record : RunRecord) (task_id : string) (d : Document) : Document :=
  if counts (r_status record)
  then set_d_tasks (update_task task_id count_fire (d_tasks d)) d else d.

Definition count_mem (record : RunRecord) (task_id : string) (s : Manager) : Manager :=
  if counts (r_status record)
  then set_w_tasks (alter count_fire task_id (w_tasks s)) s else s.

(** [record_run] *)
Definition record_run (io : Io) (task_id : string) (record : RunRecord) (s : Manager) : Manager :=
  let place := update_entry task_id (push_bounded record) in
  let '(s, _) := mutate io (fun d =>
      count_doc record task_id (set_d_runs (place (d_runs d)) d)) s in
  notify_change (count_mem record task_id (set_w_runs (place (w_runs s)) s)).

(** Replace the record with the same run id, or append. *)
Definition settle (record : RunRecord) (records : list RunRecord) : list RunRecord :=
  match update_first (has_run_id (r_run_id record)) (fun _ => record) records with
  | Some replaced => replaced
  | None => push_bounded record records
  end.

(** [replace_run] *)
Definition replace_run (io : Io) (task_id : string) (record : RunRecord) (s : Manager) : Manager :=
  let place := update_entry task_id (settle record) in
  let '(s, _) := mutate io (fun d =>
      count_doc record task_id (set_d_runs (place (d_runs d)) d)) s in
  notify_change (count_mem record task_id (set_w_runs (place (w_runs s)) s)).

(** [set_run_session_ref] *)
Definition set_run_session_ref (io : Io) (task_id run_id session_ref : string) (s : Manager)
  : Manager :=
  let stamp := update_run task_id (has_run_id run_id) (set_session_ref session_ref) in
  let '(s, _) := mutate io (fun d => set_d_runs (stamp (d_runs d)) d) s in
  set_w_runs (stamp (w_runs s)) s.

(** The only transitions a live signal may make. *)
Definition flips (from to : RunStatus) : bool :=
  match from, to with
  | Running, WaitingApproval | WaitingApproval, Running => true
  | _, _ => false
  end.

(** [set_run_status] *)
Definition set_run_status (io : Io) (task_id run_id : string) (status : RunStatus) (s : Manager)
  : Manager :=
  let flip := update_run task_id (has_run_id run_id)
                (fun r => if flips (r_status r) status then set_status status r else r) in
  let '(s, _) := mutate io (fun d => set_d_runs (flip (d_runs d)) d) s in
  set_w_runs (flip (w_runs s)) s.

(** A sweep's verdict on one record: in-flight ones end at [now]. *)
Definition end_run (status : RunStatus) (reason : string) (now : Z) (r : RunRecord) : RunRecord :=
  if run_in_flight r then
    mkRun (r_run_id r) status (r_started_at r) (Some now)
      (Some (Z.max (Z.quot (now - r_started_at r) MILLI) 0)) (r_usage r) (r_session_ref r)
      (Some reason) (r_asked_ops r) (r_trigger r) (r_scheduled_at r)
  else r.

Definition end_runs (status : RunStatus) (reason : string) (now : Z) (d : Document) : Document :=
  set_d_runs (fmap (M := gmap string) (fmap (end_run status reason now)) (d_runs d)) d.

(** The records a sweep ends, by task (the map's iteration order is free). *)
Definition in_flight_runs (d : Document) : list (string * RunRecord) :=
  '(task_id, records) ← map_to_list (d_runs d);
  (pair task_id) <$> filter (fun r => run_in_flight r = true) records.

(** [fail_orphan_running_runs] *)
Definition fail_orphan_running_runs (io : Io) (reason : string) (now : Z) (s : Manager)
  : Manager * list (string * string) :=
  if negb (existsb (existsb run_in_flight) (table_values (w_runs s))) then (s, [])
  else
    let '(s, collected, ok) := mutate_store io (fun d =>
        (end_runs Failed reason now d,
         (fun '(task_id, r) => (task_id, r_run_id r)) <$> in_flight_runs d)) s in
    if negb ok then (s, [])
    else
      let swept := default [] collected in
      let s := set_w_runs (d_runs (post_mutate_document io s)) s in
      (match swept with [] => s | _ => notify_change s end, swept).

(** [terminate_running_runs] *)
Definition terminate_running_runs (io : Io) (cause : string) (now : Z) (s : Manager)
  : Manager * list string :=
  let '(s, collected, ok) := mutate_store io (fun d =>
      (end_runs Rejected cause now d,
       omap (fun '(_, r) => r_session_ref r) (in_flight_runs d))) s in
  let terminated := default [] collected in
  if negb ok then (s, terminated)
  else (set_w_runs (d_runs (post_mutate_document io s)) s, terminated).

(** ** Pausing and editing *)

(** [next_fire_after_edit], which never fails *)
Definition next_fire_after_edit (options : CronOptions) (t : CronTask) (now : Z) : option Z :=
  let z := tz_or_local (t_timezone t) in
  match compute_schedule_next_fire (task_schedule t) now z with
  | Err _ => None
  | Ok ideal =>
    if occurrence_past_ends_at t ideal z then None else Some (delivery options t z ideal)
  end.

Definition store_error (io : Io) : CronError :=
  InvalidExpression ("persisting the workspace cron task failed: " +:+ io_error io).

(** [set_paused] *)
Definition set_paused (io : Io) (id : string) (paused : bool) (now : Z) (s : Manager)
  : Manager * result CronError bool :=
  match get id s with
  | None => (s, Ok false)
  | Some existing =>
    let next := if paused then None else next_fire_after_edit (w_options s) existing now in
    let '(s, ok) := mutate io (fun d =>
        set_d_tasks (update_task id (set_pause paused next) (d_tasks d)) d) s in
    if ok then
      (notify_change (set_w_tasks (alter (set_pause paused next) id (w_tasks s)) s), Ok true)
    else (s, Err (store_error io))
  end.

Definition resume (io : Io) (id : string) (now : Z) (s : Manager) : Manager * option CronTask :=
  let '(s, r) := set_paused io id false now s in
  (s, match r with Ok true => get id s | _ => None end).

(** [WorkspaceTaskEdit]: the outer option is whether the field is edited. *)
Record WorkspaceTaskEdit : Type := mkEdit {
  ed_title : option (option string);
  ed_prompt : option string;
  ed_cron : option string;
  ed_interval : option (option IntervalSpec);
  ed_timezone : option (option string);
  ed_ends_at : option (option Z);
  ed_max_fires : option (option Z);
  ed_model : option (option string);
  ed_effort : option (option ThinkingEffort);
  ed_permission_mode : option (option PermissionMode);
  ed_workspace_id : option string
}.

(** The schedule pair after an edit, replaced as a whole. *)
Definition edited_schedule (edit : WorkspaceTaskEdit) (t : CronTask)
  : result CronError (string * option IntervalSpec) :=
  match ed_cron edit, ed_interval edit with
  | None, None => Ok (t_cron t, t_interval t)
  | Some cron, None => Ok (cron, None)
  | None, Some (Some interval) => Ok ("", Some interval)
  | _, Some None => Ok (t_cron t, None)
  | Some _, Some (Some _) =>
    Err (InvalidExpression "日程只能是一种形态：cron 表达式与间隔二选一")
  end.

(** The fields an edit sets, on the record as it stands. *)
Definition edited_task (edit : WorkspaceTaskEdit) (schedule : string * option IntervalSpec)
    (t : CronTask) : CronTask :=
  mkCronTask (t_id t) schedule.1 (default (t_prompt t) (ed_prompt edit)) (t_session_id t)
    (t_recurring t) (default (t_timezone t) (ed_timezone edit)) (t_created_at t) (t_last_fired t)
    (t_next_fire_at t) (t_origin t) (default (t_max_fires t) (ed_max_fires edit)) (t_fire_count t)
    (t_cron_lineage t) (t_scope t)
    (match ed_permission_mode edit with
     | Some mode => posture <$> mode
     | None => t_permission_posture t
     end)
    (default (t_permission_mode t) (ed_permission_mode edit)) (t_paused t) (t_concurrency t)
    (default (t_title t) (ed_title edit)) (default (t_model t) (ed_model edit))
    (default (t_effort t) (ed_effort edit)) (t_workdir t)
    (default (t_ends_at t) (ed_ends_at edit)) schedule.2.

(** The validation of the edited record and its schedule: [Ok] carries the
    first occurrence after [now] and the zone. *)
Definition check_edited (t : CronTask) (now : Z) : result CronError (Z * tz) :=
  if negb (t_recurring t) && bool_decide (is_Some (t_max_fires t)) then
    Err (InvalidExpression
      "max_fires cannot be set on a one-shot task (a one-shot fires exactly once)")
  else if bool_decide (t_max_fires t = Some 0) then
    Err (InvalidExpression "max_fires must be a positive integer")
  else
    _ ← match t_interval t with Some interval => interval_validate interval | None => Ok tt end;
    declared ← tz_parse (t_timezone t);
    let z := tz_resolve declared in
    first ← compute_schedule_next_fire (task_schedule t) now z;
    if occurrence_past_ends_at t first z
    then Err (InvalidExpression "结束日期不能早于首次运行日")
    else Ok (first, z).

(** [update_at] up to the write: the record it stores. *)
Definition edit_record (id : string) (edit : WorkspaceTaskEdit) (now : Z) (s : Manager)
  : result CronError CronTask :=
  existing ← ok_or (get id s) (InvalidExpression ("定时任务不存在：" +:+ id));
  _ ← match ed_workspace_id edit with
      | Some workspace_id =>
        if decide (workspace_id = w_id s) then Ok tt
        else Err (InvalidExpression "工作区不可修改：更换工作区等于换一个任务，请删除后重新创建")
      | None => Ok tt
      end;
  schedule ← edited_schedule edit existing;
  let edited := edited_task edit schedule existing in
  '(ideal, z) ← check_edited edited now;
  Ok (set_next_fire
        (if t_paused edited then None
         else if occurrence_past_ends_at edited ideal z then None
         else Some (delivery (w_options s) edited z ideal)) edited).

(** [update_at] *)
Definition update_at (io : Io) (id : string) (edit : WorkspaceTaskEdit) (now : Z) (s : Manager)
  : Manager * result CronError CronTask :=
  match edit_record id edit now s with
  | Err e => (s, Err e)
  | Ok edited =>
    let '(s, ok) := mutate io (fun d =>
        set_d_tasks (update_task (t_id edited) (fun _ => edited) (d_tasks d)) d) s in
    if ok then (notify_change (set_w_tasks (<[t_id edited := edited]> (w_tasks s)) s), Ok edited)
    else (s, Err (store_error io))
  end.

(** ** Proposals, kept for the documents of older builds *)

Definition lapsed (now : Z) (p : CronProposal) : bool :=
  bool_decide (pr_state p = Pending) && (pr_expires_at p <=? now).

Definition created_le (a b : CronProposal) : Prop := pr_created_at a <= pr_created_at b.
#[export] Instance created_le_dec : RelDecision created_le.
Proof. intros a b. unfold created_le. apply _. Defined.

Definition proposals (s : Manager) : list CronProposal := merge_sort created_le (d_proposals (w_file s)).

(** [expire_lapsed_proposals]: the reads are of the document file. *)
Definition expire_lapsed_proposals (io : Io) (now : Z) (s : Manager)
  : Manager * list CronProposal :=
  if negb (existsb (lapsed now) (d_proposals (w_file s))) then (s, [])
  else
    let '(s, collected, ok) := mutate_store io (fun d =>
        (set_d_proposals
           ((fun p => if lapsed now p then set_proposal_state Expired p else p) <$> d_proposals d) d,
         pr_id <$> filter (fun p => lapsed now p = true) (d_proposals d))) s in
    if negb ok then (s, [])
    else
      let swept := default [] collected in
      let expired := filter (fun p => pr_id p ∈ swept) (d_proposals (w_file s)) in
      (match expired with [] => s | _ => notify_change s end, expired).

Definition mark_proposal_receipt_delivered (io : Io) (id : string) (s : Manager) : Manager :=
  fst (mutate io (fun d =>
    set_d_proposals
      (default (d_proposals d)
         (update_first (fun p => bool_decide (pr_id p = id)) set_receipt_delivered (d_proposals d)))
      d) s).

(** ** [check_due] *)

Definition ws_due (now : Z) (t : CronTask) : bool := negb (t_paused t) && is_due now t.

(** The detection pass. *)
Definition due_plans (now : Z) (s : Manager) : list FirePlan :=
  sort_by_key (t_id ∘ p_task)
    ((fun t => ws_plan_fire (w_options s) t now)
       <$> filter (fun t => ws_due now t = true) (table_values (w_tasks s))).

(** What a plan does to its task's record. *)
Definition advance (p : FirePlan) (t : CronTask) : CronTask :=
  set_next_fire (if survives p t then p_next_fire_at p else None) (set_last_fired (p_advanced p) t).

(** The one durable write of a pass. *)
Definition record_plans (plans : list FirePlan) (d : Document) : Document :=
  let tasks := foldl (fun tasks p => update_task (t_id (p_task p)) (advance p) tasks)
                 (d_tasks d) plans in
  set_d_tasks
    (filter (fun t => existsb (fun p => bool_decide (t_id (p_task p) = t_id t)
                                        && negb (survives p t)) plans = false) tasks) d.

(** One plan against the entry as it stands: the table, the tasks to drop,
    the fires. *)
Definition apply_plan (acc : gmap string CronTask * list string * list CronFire) (p : FirePlan)
  : gmap string CronTask * list string * list CronFire :=
  let '(tasks, removed, due) := acc in
  match tasks !! t_id (p_task p) with
  | None => acc
  | Some t =>
    let fire := fire_of t (p_coalesced_count p) (p_stale p) (p_maxed_out p) (p_scheduled_at p)
                  (p_ended p) in
    let t' := set_last_fired (p_advanced p) t in
    if survives p t
    then (<[t_id (p_task p) := set_next_fire (p_next_fire_at p) t']> tasks, removed,
          (due ++ [fire])%list)
    else (<[t_id (p_task p) := t']> tasks, (removed ++ [t_id t])%list, (due ++ [fire])%list)
  end.

Definition apply_plans (plans : list FirePlan) (s : Manager) : Manager * list CronFire :=
  let '(tasks, removed, due) := foldl apply_plan (w_tasks s, [], []) plans in
  (notify_change (set_w_tasks (foldl (fun tasks id => delete id tasks) tasks removed) s),
   sort_by_key f_task_id due).

(** [WorkspaceCronManager::check_due] *)
Definition check_due (io : Io) (now : Z) (s : Manager) : Manager * list CronFire :=
  match due_plans now s with
  | [] => (s, [])
  | plans =>
    let '(s, durable) := mutate io (record_plans plans) s in
    if durable then apply_plans plans s else (s, [])
  end.
End operations.
