(* ===== verification/CronRuns.v ===== *)
(** * Run records of the workspace manager

    What holds of the records of [CronWorkspace.v] along any operations: at
    most one run in flight and one queued fire per task, the retention bound,
    and the life of one queued fire. *)
From stdpp Require Import gmap strings.
From S2P Require Import Prelude RustStd F64 Json CronIndex CronExpr Chrono CivilCalendar.
From S2P Require Import CronNextFire CronJitter CronTask CronPlan CronWire CronManager.
From S2P Require Import CronWorkspace.
#[local] Open Scope string_scope.
#[local] Open Scope Z_scope.

(** ** Counting records *)

Definition count_runs (p : RunRecord -> bool) (l : list RunRecord) : nat :=
  length (filter (fun r => p r = true) l).

Lemma count_runs_app p l1 l2 : count_runs p (l1 ++ l2) = (count_runs p l1 + count_runs p l2)%nat.
Proof. unfold count_runs. by rewrite filter_app, length_app. Qed.

Lemma count_runs_cons p r l :
  count_runs p (r :: l) = ((if p r then 1 else 0) + count_runs p l)%nat.
Proof. unfold count_runs. rewrite filter_cons. by destruct (p r). Qed.

Lemma count_runs_drop p n l : (count_runs p (drop n l) <= count_runs p l)%nat.
Proof. rewrite <- (take_drop n l) at 2. rewrite count_runs_app. lia. Qed.

Lemma count_runs_zero p l : count_runs p l = 0%nat <-> existsb p l = false.
Proof.
  induction l as [|r l IH]; [done|]. rewrite count_runs_cons. simpl. destruct (p r); simpl; [|done].
  split; [lia|done].
Qed.

Lemma push_bounded_length r l : (length (push_bounded r l) <= MAX_RUN_RECORDS_PER_TASK)%nat.
Proof. unfold push_bounded. rewrite length_drop. lia. Qed.

Lemma push_bounded_count p r l :
  (count_runs p (push_bounded r l) <= count_runs p l + (if p r then 1 else 0))%nat.
Proof.
  unfold push_bounded. etrans; [apply count_runs_drop|]. rewrite count_runs_app, count_runs_cons.
  change (count_runs p []) with 0%nat. lia.
Qed.

Lemma elem_of_push_bounded q r l : q ∈ push_bounded r l -> q = r \/ q ∈ l.
Proof.
  unfold push_bounded. intros Hq.
  assert (Hin : q ∈ (l ++ [r])%list); [|set_solver].
  rewrite <- (take_drop (length (l ++ [r]) - MAX_RUN_RECORDS_PER_TASK) (l ++ [r])%list).
  apply elem_of_app. by right.
Qed.

(** Replacing one record: what it can add to a count. *)
Lemma update_first_count p q f l l' :
  update_first p f l = Some l' ->
  exists x, x ∈ l /\ p x = true /\
    (count_runs q l' + (if q x then 1 else 0) = count_runs q l + (if q (f x) then 1 else 0))%nat.
Proof.
  intros Hu. apply update_first_Some in Hu as (l1 & x & l2 & -> & _ & Hx & ->).
  exists x. split_and!; [set_solver|done|]. rewrite !count_runs_app, !count_runs_cons. lia.
Qed.

Lemma update_first_length {A} (p : A -> bool) f l l' :
  update_first p f l = Some l' -> length l' = length l.
Proof.
  intros Hu. apply update_first_Some in Hu as (l1 & x & l2 & -> & _ & _ & ->).
  by rewrite !length_app.
Qed.

Lemma count_runs_rev p l : count_runs p (rev l) = count_runs p l.
Proof.
  unfold count_runs. apply Permutation_length. apply filter_Permutation.
  symmetry. apply Permutation_rev.
Qed.

Lemma replace_last_count p q r l :
  existsb p l = true ->
  exists x, p x = true /\ x ∈ l /\ length (replace_last p r l) = length l /\
    (count_runs q (replace_last p r l) + (if q x then 1 else 0)
     = count_runs q l + (if q r then 1 else 0))%nat.
Proof.
  intros Hex. unfold replace_last. destruct (update_first p (fun _ => r) (rev l)) as [l'|] eqn:Hu.
  - destruct (update_first_count p q _ _ _ Hu) as (x & Hx & Hp & Hc). exists x.
    rewrite !count_runs_rev in *. split_and!; [done| | |done].
    + apply list_elem_of_In, in_rev, list_elem_of_In. done.
    + rewrite length_rev. apply update_first_length in Hu. by rewrite Hu, length_rev.
  - apply update_first_None in Hu. exfalso. apply existsb_exists in Hex as (x & Hx & Hp).
    rewrite Forall_forall in Hu. specialize (Hu x). rewrite Hu in Hp; [done|].
    apply list_elem_of_In, in_rev. by rewrite rev_involutive.
Qed.

Lemma push_bounded_last r l : last (push_bounded r l) = Some r.
Proof.
  unfold push_bounded. rewrite length_app. simpl.
  rewrite drop_app_le by (unfold MAX_RUN_RECORDS_PER_TASK; lia). apply last_snoc.
Qed.

(** The slot after a push into records without one, and after a replacement. *)
Lemma pushed_slot p r l :
  p r = true -> count_runs p l = 0%nat ->
  filter (fun q => p q = true) (push_bounded r l) = [r].
Proof.
  intros Hp Hc. unfold push_bounded. rewrite length_app. simpl.
  rewrite drop_app_le by (unfold MAX_RUN_RECORDS_PER_TASK; lia).
  rewrite filter_app, (filter_cons_True _ r) by done.
  pose proof (count_runs_drop p (length l + 1 - MAX_RUN_RECORDS_PER_TASK) l) as Hd.
  rewrite Hc in Hd. unfold count_runs in Hd.
  destruct (filter _ (drop _ l)); [done|simpl in Hd; lia].
Qed.

Lemma replaced_slot p r l :
  p r = true -> existsb p l = true -> (count_runs p l <= 1)%nat ->
  filter (fun q => p q = true) (replace_last p r l) = [r].
Proof.
  intros Hp Hex Hc. unfold replace_last.
  destruct (update_first p (fun _ => r) (rev l)) as [l'|] eqn:Hu; last first.
  { apply update_first_None in Hu. apply existsb_exists in Hex as (x & Hx & Hpx).
    rewrite Forall_forall in Hu. rewrite Hu in Hpx; [done|].
    by apply list_elem_of_In, in_rev; rewrite rev_involutive. }
  apply update_first_Some in Hu as (l1 & x & l2 & Hl & Hall & Hx & ->).
  assert (Hcount : count_runs p (rev l) = count_runs p l) by apply count_runs_rev.
  rewrite Hl, count_runs_app, count_runs_cons, Hx in Hcount.
  rewrite rev_app_distr. simpl. rewrite <- app_assoc. simpl.
  rewrite filter_app, (filter_cons_True _ r) by done.
  assert (H1 : count_runs p (rev l1) = 0%nat) by (rewrite count_runs_rev; lia).
  assert (H2 : count_runs p (rev l2) = 0%nat) by (rewrite count_runs_rev; lia).
  unfold count_runs in H1, H2. apply length_zero_iff_nil in H1, H2. by rewrite H1, H2.
Qed.

(** ** The invariant of one task's records *)

Record runs_ok (records : list RunRecord) : Prop := {
  ro_in_flight : (count_runs run_in_flight records <= 1)%nat;
  ro_queued : (count_runs is_queued_slot records <= 1)%nat;
  ro_bounded : (length records <= MAX_RUN_RECORDS_PER_TASK)%nat
}.

(** A record that ends a run: neither in flight nor the queued slot. *)
Definition settled (r : RunRecord) : Prop := run_in_flight r = false /\ is_queued_slot r = false.

Lemma runs_ok_nil : runs_ok [].
Proof. split; vm_compute; lia. Qed.

Lemma in_flight_not_queued r : run_in_flight r = true -> is_queued_slot r = false.
Proof. unfold run_in_flight, is_queued_slot. by destruct (r_status r). Qed.

Lemma push_ok r l :
  runs_ok l -> (run_in_flight r = true -> existsb run_in_flight l = false) ->
  (is_queued_slot r = true -> existsb is_queued_slot l = false) ->
  runs_ok (push_bounded r l).
Proof.
  intros [H1 H2 _] Hf Hq. pose proof (push_bounded_count run_in_flight r l).
  pose proof (push_bounded_count is_queued_slot r l). split; [| |apply push_bounded_length].
  - destruct (run_in_flight r); [|lia]. rewrite (proj2 (count_runs_zero _ _) (Hf eq_refl)) in *. lia.
  - destruct (is_queued_slot r); [|lia]. rewrite (proj2 (count_runs_zero _ _) (Hq eq_refl)) in *. lia.
Qed.

Lemma push_settled_ok r l : runs_ok l -> settled r -> runs_ok (push_bounded r l).
Proof. intros Hl [H1 H2]. apply push_ok; [done|congruence|congruence]. Qed.

(** An update that keeps or ends what it touches. *)
Lemma update_first_ok p f l :
  runs_ok l ->
  (forall r, run_in_flight (f r) = true -> run_in_flight r = true) ->
  (forall r, is_queued_slot (f r) = true -> is_queued_slot r = true) ->
  runs_ok (default l (update_first p f l)).
Proof.
  intros Hl Hf Hq. destruct (update_first p f l) as [l'|] eqn:Hu; [|done]. simpl.
  destruct (update_first_count p run_in_flight f l l' Hu) as (x & _ & _ & H1).
  destruct (update_first_count p is_queued_slot f l l' Hu) as (y & _ & _ & H2).
  destruct Hl as [H3 H4 H5]. specialize (Hf x). specialize (Hq y). split.
  - destruct (run_in_flight (f x)); [rewrite Hf in H1 by done|]; lia.
  - destruct (is_queued_slot (f y)); [rewrite Hq in H2 by done|]; lia.
  - by rewrite (update_first_length _ _ _ _ Hu).
Qed.

Lemma settle_ok r l : runs_ok l -> settled r -> runs_ok (settle r l).
Proof.
  intros Hl Hr. unfold settle. destruct (update_first _ _ _) as [l'|] eqn:Hu.
  - destruct Hr as [H1 H2].
    pose proof (update_first_ok (has_run_id (r_run_id r)) (fun _ => r) l Hl) as Hok.
    rewrite Hu in Hok. apply Hok; intros; congruence.
  - by apply push_settled_ok.
Qed.

Lemma park_ok r l :
  runs_ok l -> run_in_flight r = false -> is_queued_slot r = true ->
  runs_ok (park (existsb is_queued_slot l) r l).
Proof.
  intros Hl Hf Hq. unfold park. destruct (existsb is_queued_slot l) eqn:Hex.
  - destruct (replace_last_count is_queued_slot run_in_flight r l Hex) as (x & Hx & _ & Hlen & H1).
    destruct (replace_last_count is_queued_slot is_queued_slot r l Hex) as (y & Hy & _ & _ & H2).
    destruct Hl as [H3 H4 H5]. rewrite Hf in H1. rewrite Hq, Hy in H2. split; [|lia|lia].
    destruct (run_in_flight x); lia.
  - apply push_ok; [done|congruence|done].
Qed.

(** Reopening the queued slot of a task with nothing in flight. *)
Lemma reopen_ok now slot l :
  runs_ok l -> existsb run_in_flight l = false ->
  runs_ok (default l (update_first (has_run_id (r_run_id slot)) (fun _ => reopened now slot) l)).
Proof.
  intros Hl Hn. destruct (update_first _ _ _) as [l'|] eqn:Hu; [|done]. simpl.
  destruct (update_first_count _ run_in_flight _ l l' Hu) as (x & _ & _ & H1).
  destruct (update_first_count _ is_queued_slot _ l l' Hu) as (y & _ & _ & H2).
  destruct Hl as [H3 H4 H5]. apply count_runs_zero in Hn. simpl in H1, H2.
  change (is_queued_slot (reopened now slot)) with false in H2.
  split; [destruct (run_in_flight x); lia|lia|by rewrite (update_first_length _ _ _ _ Hu)].
Qed.

(** ** The manager as a machine *)

(** The operations the RPC faces, the scheduler, the spawner and the approval
    hook call, each with its I/O. *)
Inductive WsOp : Type :=
| WAdd (io : Io) (cron prompt : string) (recurring : bool) (o : CronCreateOptions)
    (now created_at : Z) (id : string)
| WRemove (io : Io) (id : string)
| WSetNextFire (id : string) (at_ : option Z)
| WSetPaused (io : Io) (id : string) (paused : bool) (now : Z)
| WUpdate (io : Io) (id : string) (edit : WorkspaceTaskEdit) (now : Z)
| WOpen (io : Io) (id : string) (queue : bool) (opener : RunRecord)
| WDrain (io : Io) (id : string) (now : Z)
| WAppend (io : Io) (id : string) (record : RunRecord)
| WRecord (io : Io) (id : string) (record : RunRecord)
| WReplace (io : Io) (id : string) (record : RunRecord)
| WSessionRef (io : Io) (id run_id session_ref : string)
| WStatus (io : Io) (id run_id : string) (status : RunStatus)
| WFailOrphans (io : Io) (reason : string) (now : Z)
| WTerminate (io : Io) (cause : string) (now : Z)
| WExpire (io : Io) (now : Z)
| WReceipt (io : Io) (id : string)
| WCheckDue (io : Io) (now : Z).

Section machine.
Context `{Chrono} `{ChronoText}.

Definition ws_step (s : Manager) (op : WsOp) : Manager :=
  match op with
  | WAdd io cron prompt recurring o now created_at id =>
    fst (add io cron prompt recurring o now created_at id s)
  | WRemove io id => fst (remove io id s)
  | WSetNextFire id at_ => fst (set_next_fire_at id at_ s)
  | WSetPaused io id paused now => fst (set_paused io id paused now s)
  | WUpdate io id edit now => fst (update_at io id edit now s)
  | WOpen io id queue opener => fst (try_open_run io id queue opener s)
  | WDrain io id now => fst (drain_queued_run io id now s)
  | WAppend io id record => append_run io id record s
  | WRecord io id record => record_run io id record s
  | WReplace io id record => replace_run io id record s
  | WSessionRef io id run_id session_ref => set_run_session_ref io id run_id session_ref s
  | WStatus io id run_id status => set_run_status io id run_id status s
  | WFailOrphans io reason now => fst (fail_orphan_running_runs io reason now s)
  | WTerminate io cause now => fst (terminate_running_runs io cause now s)
  | WExpire io now => fst (expire_lapsed_proposals io now s)
  | WReceipt io id => mark_proposal_receipt_delivered io id s
  | WCheckDue io now => fst (check_due io now s)
  end.

Definition ws_run (ops : list WsOp) (s : Manager) : Manager := foldl ws_step s ops.

(** A write never touches the tables in memory. *)
Lemma mutate_store_frame {A} io (f : Document -> Document * A) s s' a ok :
  mutate_store io f s = (s', a, ok) ->
  w_tasks s' = w_tasks s /\ w_runs s' = w_runs s /\ w_options s' = w_options s /\ w_id s' = w_id s.
Proof.
  unfold mutate_store. destruct (w_index s) as [index|].
  - destruct (f _) as [d b]. by intros [= <- <- <-].
  - destruct (io_ready io); simpl; [|by intros [= <- <- <-]].
    destruct (f _) as [d b]. destruct (io_written io); by intros [= <- <- <-].
Qed.

Lemma mutate_frame io f s s' ok :
  mutate io f s = (s', ok) ->
  w_tasks s' = w_tasks s /\ w_runs s' = w_runs s /\ w_options s' = w_options s /\ w_id s' = w_id s.
Proof.
  unfold mutate. destruct (mutate_store _ _ s) as [[s1 a] ok1] eqn:Hm. intros [= <- <-].
  by apply mutate_store_frame in Hm.
Qed.

Lemma count_mem_runs record id s : w_runs (count_mem record id s) = w_runs s.
Proof. unfold count_mem. by destruct (counts _). Qed.

(** What each operation does to the records in memory. *)
Lemma open_runs io id queue opener s :
  w_runs (fst (try_open_run io id queue opener s))
  = if existsb run_in_flight (runs id s)
    then if queue
         then update_entry id (park (existsb is_queued_slot (runs id s)) (queued_record opener))
                (w_runs s)
         else w_runs s
    else update_entry id (push_bounded opener) (w_runs s).
Proof.
  unfold try_open_run. destruct (existsb run_in_flight _); [destruct queue; [|done]|];
    destruct (mutate _ _ s) as [s1 ok] eqn:Hm; apply mutate_frame in Hm as (_ & Hr & _);
    simpl; by rewrite Hr.
Qed.

Lemma drain_runs io id now s :
  w_runs (fst (drain_queued_run io id now s))
  = match List.find is_queued_slot (runs id s) with
    | Some slot =>
      if existsb run_in_flight (runs id s) then w_runs s
      else update_run id (has_run_id (r_run_id slot)) (fun _ => reopened now slot) (w_runs s)
    | None => w_runs s
    end.
Proof.
  unfold drain_queued_run. destruct (List.find _ _) as [slot|]; [|done].
  destruct (existsb _ _); [done|].
  destruct (mutate _ _ s) as [s1 ok] eqn:Hm; apply mutate_frame in Hm as (_ & Hr & _).
  simpl. by rewrite Hr.
Qed.

Lemma append_runs io id record s :
  w_runs (append_run io id record s) = update_entry id (push_bounded record) (w_runs s).
Proof.
  unfold append_run. destruct (mutate _ _ s) as [s1 ok] eqn:Hm.
  apply mutate_frame in Hm as (_ & Hr & _). simpl. by rewrite Hr.
Qed.

Lemma record_runs io id record s :
  w_runs (record_run io id record s) = update_entry id (push_bounded record) (w_runs s).
Proof.
  unfold record_run. destruct (mutate _ _ s) as [s1 ok] eqn:Hm.
  apply mutate_frame in Hm as (_ & Hr & _). simpl. rewrite count_mem_runs. simpl. by rewrite Hr.
Qed.

Lemma replace_runs io id record s :
  w_runs (replace_run io id record s) = update_entry id (settle record) (w_runs s).
Proof.
  unfold replace_run. destruct (mutate _ _ s) as [s1 ok] eqn:Hm.
  apply mutate_frame in Hm as (_ & Hr & _). simpl. rewrite count_mem_runs. simpl. by rewrite Hr.
Qed.

Lemma session_ref_runs io id run_id ref_ s :
  w_runs (set_run_session_ref io id run_id ref_ s)
  = update_run id (has_run_id run_id) (set_session_ref ref_) (w_runs s).
Proof.
  unfold set_run_session_ref. destruct (mutate _ _ s) as [s1 ok] eqn:Hm.
  apply mutate_frame in Hm as (_ & Hr & _). simpl. by rewrite Hr.
Qed.

Lemma status_runs io id run_id status s :
  w_runs (set_run_status io id run_id status s)
  = update_run id (has_run_id run_id)
      (fun r => if flips (r_status r) status then set_status status r else r) (w_runs s).
Proof.
  unfold set_run_status. destruct (mutate _ _ s) as [s1 ok] eqn:Hm.
  apply mutate_frame in Hm as (_ & Hr & _). simpl. by rewrite Hr.
Qed.

Lemma apply_plans_runs plans s : w_runs (fst (apply_plans plans s)) = w_runs s.
Proof. unfold apply_plans. by destruct (foldl apply_plan _ _) as [[tasks removed] due]. Qed.

(** The task operations leave the records alone. *)
Lemma task_op_runs op s :
  match op with
  | WAdd _ _ _ _ _ _ _ _ | WRemove _ _ | WSetNextFire _ _ | WSetPaused _ _ _ _
  | WUpdate _ _ _ _ | WExpire _ _ | WReceipt _ _ | WCheckDue _ _ => w_runs (ws_step s op) = w_runs s
  | _ => True
  end.
Proof.
  destruct op; simpl; try done.
  - unfold add. match goal with |- context [match ?r with Ok _ => _ | Err _ => _ end] => destruct r end;
      [|done].
    destruct (mutate _ _ s) as [s1 []] eqn:Hm; by apply mutate_frame in Hm as (_ & Hr & _).
  - unfold remove. destruct (w_tasks s !! id); [|done].
    destruct (mutate _ _ s) as [s1 ok] eqn:Hm; by apply mutate_frame in Hm as (_ & Hr & _).
  - unfold set_next_fire_at. by destruct (w_tasks s !! id).
  - unfold set_paused. destruct (get id s); [|done].
    destruct (mutate _ _ s) as [s1 []] eqn:Hm; by apply mutate_frame in Hm as (_ & Hr & _).
  - unfold update_at. destruct (edit_record id edit now s); [|done].
    destruct (mutate _ _ s) as [s1 []] eqn:Hm; by apply mutate_frame in Hm as (_ & Hr & _).
  - unfold expire_lapsed_proposals. destruct (existsb _ _); [|done]. simpl.
    destruct (mutate_store _ _ s) as [[s1 a] ok] eqn:Hm.
    apply mutate_store_frame in Hm as (_ & Hr & _). destruct ok; [|done]. simpl.
    by destruct (filter _ (d_proposals (w_file s1))).
  - unfold mark_proposal_receipt_delivered. destruct (mutate _ _ s) as [s1 ok] eqn:Hm.
    by apply mutate_frame in Hm as (_ & Hr & _).
  - unfold check_due. destruct (due_plans now s) as [|p ps]; [done|].
    destruct (mutate _ _ s) as [s1 []] eqn:Hm; apply mutate_frame in Hm as (_ & Hr & _); [|done].
    by rewrite apply_plans_runs.
Qed.
End machine.

(** ** Properties *)

Section properties.
Context `{Chrono} `{ChronoText}.

Definition table_ok (s : Manager) : Prop := map_Forall (fun _ l => runs_ok l) (w_runs s).

Lemma table_ok_runs id s : table_ok s -> runs_ok (runs id s).
Proof.
  intros Hok. unfold runs. destruct (w_runs s !! id) as [l|] eqn:Hl; [exact (Hok _ _ Hl)|].
  apply runs_ok_nil.
Qed.

Lemma update_entry_ok id f s :
  table_ok s -> runs_ok (f (runs id s)) ->
  map_Forall (fun _ l => runs_ok l) (update_entry id f (w_runs s)).
Proof. intros Hok Hf. by apply map_Forall_insert_2. Qed.

Lemma update_run_ok id p f s :
  table_ok s -> runs_ok (default (runs id s) (update_first p f (runs id s))) ->
  map_Forall (fun _ l => runs_ok l) (update_run id p f (w_runs s)).
Proof.
  intros Hok Hf k l Hl. unfold update_run in Hl. apply lookup_alter_Some in Hl as [(<- & l0 & Hl0 & ->)|[_ Hl]].
  - unfold runs in Hf. by rewrite Hl0 in Hf.
  - exact (Hok _ _ Hl).
Qed.

(** What the callers give the operations: openers are running, recorded and
    appended records have ended.  The sweeps reload the records from the
    durable copy and are stated on their own. *)
Definition respects (op : WsOp) : Prop :=
  match op with
  | WOpen _ _ _ opener => r_status opener = Running
  | WAppend _ _ record | WRecord _ _ record | WReplace _ _ record => settled record
  | WFailOrphans _ _ _ | WTerminate _ _ _ => False
  | _ => True
  end.

Lemma step_table_ok s op : table_ok s -> respects op -> table_ok (ws_step s op).
Proof.
  intros Hok Hop. unfold table_ok. pose proof (task_op_runs op s) as Ht.
  destruct op; try (by rewrite Ht); simpl in Hop |- *; clear Ht.
  - rewrite open_runs. pose proof (table_ok_runs id s Hok) as Hr.
    destruct (existsb run_in_flight (runs id s)) eqn:Hf; [destruct queue; [|done]|].
    + apply update_entry_ok; [done|]. by apply park_ok.
    + apply update_entry_ok; [done|]. apply push_ok; [done|done|].
      unfold is_queued_slot. by rewrite Hop.
  - rewrite drain_runs. destruct (List.find _ _) as [slot|]; [|done].
    destruct (existsb run_in_flight (runs id s)) eqn:Hf; [done|].
    apply update_run_ok; [done|]. apply reopen_ok; [by apply table_ok_runs|done].
  - rewrite append_runs. apply update_entry_ok; [done|].
    apply push_settled_ok; [by apply table_ok_runs|done].
  - rewrite record_runs. apply update_entry_ok; [done|].
    apply push_settled_ok; [by apply table_ok_runs|done].
  - rewrite replace_runs. apply update_entry_ok; [done|].
    apply settle_ok; [by apply table_ok_runs|done].
  - rewrite session_ref_runs. apply update_run_ok; [done|].
    by apply update_first_ok; [apply table_ok_runs|..].
  - rewrite status_runs. apply update_run_ok; [done|].
    apply update_first_ok; [by apply table_ok_runs|..]; intros r; unfold run_in_flight, is_queued_slot;
      destruct (r_status r) eqn:Hst, status; simpl; rewrite ?Hst; done.
  - done.
  - done.
Qed.

(** C32. From a well-formed table, along any operations but the two sweeps of a
    restart and of a termination, whatever I/O fails, a task never has two records
    of runs in flight nor two of queued fires, and keeps at most fifty records; the
    callers give openers that are running and append, record and replace records
    that have ended.  The sweeps take the records from the durable copy, which lost
    writes may have left different ([orphan_sweep_converges] is about them).  It is
    the records that are counted: a run whose opener was dropped from the fifty is
    not in the way of another ([skips_evict_opener]). *)
Theorem run_table_invariant ops s :
  table_ok s -> Forall respects ops -> table_ok (ws_run ops s).
Proof.
  intros Hok Hops. revert s Hok. induction Hops as [|op ops Hop _ IH]; intros s Hok; [done|].
  simpl. apply IH. by apply step_table_ok.
Qed.

(** Opening a run: it opens exactly when the task has nothing in flight, and
    the opener is then the newest record; a busy task parks the fire in the
    one queued slot (replacing what waited there) or declines it and changes
    nothing; the records of other tasks never move. *)
Theorem try_open_run_outcome io id queue opener s :
  table_ok s -> r_status opener = Running ->
  let '(s', outcome) := try_open_run io id queue opener s in
  match outcome with
  | Opened run_id =>
    existsb run_in_flight (runs id s) = false /\ run_id = r_run_id opener /\
    last (runs id s') = Some opener
  | Queued run_id =>
    existsb run_in_flight (runs id s) = true /\ queue = true /\ run_id = r_run_id opener /\
    filter (fun r => is_queued_slot r = true) (runs id s') = [queued_record opener]
  | Declined record =>
    existsb run_in_flight (runs id s) = true /\ queue = false /\ record = opener /\ s' = s
  end /\
  forall other, other <> id -> runs other s' = runs other s.
Proof.
  intros Hok Hop. pose proof (open_runs io id queue opener s) as Hr.
  destruct (try_open_run io id queue opener s) as [s' outcome] eqn:Ho. simpl in Hr.
  assert (Hother : forall other, other <> id -> runs other s' = runs other s).
  { intros other Hne. unfold runs. rewrite Hr. destruct (existsb _ _); [destruct queue|]; try done;
      unfold update_entry; by rewrite lookup_insert_ne. }
  assert (Hid : forall f, w_runs s' = update_entry id f (w_runs s) -> runs id s' = f (runs id s)).
  { intros f Hf. unfold runs at 1. rewrite Hf. unfold update_entry. by rewrite lookup_insert_eq. }
  unfold try_open_run in Ho. destruct (existsb run_in_flight (runs id s)) eqn:Hf.
  - destruct queue.
    + destruct (mutate _ _ s) as [s1 ok]. simplify_eq. split_and!; try done.
      rewrite (Hid _ Hr). pose proof (table_ok_runs id s Hok) as [_ Hq _].
      assert (Hslot : is_queued_slot (queued_record opener) = true) by (vm_compute; reflexivity).
      unfold park. destruct (existsb is_queued_slot (runs id s)) eqn:Hex.
      * apply replaced_slot; [done|done|lia].
      * apply pushed_slot; [done|by apply count_runs_zero].
    + by simplify_eq.
  - destruct (mutate _ _ s) as [s1 ok]. simplify_eq. split_and!; try done.
    rewrite (Hid _ Hr). apply push_bounded_last.
Qed.

(** The record an update by run id hits, when ids are distinct. *)
Lemma update_by_run_id (f : RunRecord -> RunRecord) l1 r l2 :
  NoDup (r_run_id <$> (l1 ++ r :: l2)%list) ->
  update_first (has_run_id (r_run_id r)) f (l1 ++ r :: l2)%list = Some (l1 ++ f r :: l2)%list.
Proof.
  intros Hnd. apply update_first_Some. exists l1, r, l2. split_and!; [done| |by apply bool_decide_eq_true|done].
  apply Forall_forall. intros q Hq. apply bool_decide_eq_false. intros Heq.
  rewrite fmap_app, fmap_cons in Hnd. apply NoDup_app in Hnd as (_ & Hn & _).
  destruct (Hn (r_run_id q)); [by apply list_elem_of_fmap_2|]. rewrite Heq. by left.
Qed.

(** A queued fire runs once: when the task has nothing in flight, draining
    hands out the waiting fire and turns its own record into the running one,
    so that nothing waits any more and a second drain (or a second open) gets
    nothing; while a run is in flight, or with no fire waiting, a drain
    changes nothing. *)
Theorem queued_fire_drains_once io id now s :
  table_ok s -> NoDup (r_run_id <$> runs id s) ->
  let '(s', drained) := drain_queued_run io id now s in
  match List.find is_queued_slot (runs id s), existsb run_in_flight (runs id s) with
  | Some slot, false =>
    drained = Some (id, r_run_id slot) /\
    (exists l1 l2, runs id s = (l1 ++ slot :: l2)%list /\
                   runs id s' = (l1 ++ reopened now slot :: l2)%list) /\
    existsb is_queued_slot (runs id s') = false /\
    (forall io' now', snd (drain_queued_run io' id now' s') = None) /\
    (forall io' opener, snd (try_open_run io' id false opener s') = Declined opener)
  | _, _ => drained = None /\ s' = s
  end.
Proof.
  intros Hok Hnd. pose proof (drain_runs io id now s) as Hr.
  destruct (drain_queued_run io id now s) as [s' drained] eqn:Hd. simpl in Hr.
  unfold drain_queued_run in Hd.
  destruct (List.find is_queued_slot (runs id s)) as [slot|] eqn:Hfind; [|by simplify_eq].
  destruct (existsb run_in_flight (runs id s)) eqn:Hf; [by simplify_eq|].
  destruct (find_Some_split _ _ _ Hfind) as (l1 & l2 & Hl & Hl1 & Hslot).
  assert (Hs' : runs id s' = (l1 ++ reopened now slot :: l2)%list).
  { unfold runs at 1. rewrite Hr. unfold update_run. rewrite lookup_alter_eq.
    assert (Hlook : w_runs s !! id = Some (l1 ++ slot :: l2)%list).
    { unfold runs in Hl. destruct (w_runs s !! id); simpl in Hl; [by f_equal|].
      by destruct l1. }
    rewrite Hlook. simpl. rewrite Hl in Hnd. by rewrite update_by_run_id. }
  destruct (mutate _ _ s) as [s1 ok]. injection Hd as Hs1 <-. clear Hs1 Hr.
  pose proof (table_ok_runs id s Hok) as [_ Hq _].
  rewrite Hl, count_runs_app, count_runs_cons, Hslot in Hq.
  assert (Hnone : existsb is_queued_slot (runs id s') = false).
  { rewrite Hs'. apply count_runs_zero. rewrite count_runs_app, count_runs_cons.
    change (is_queued_slot (reopened now slot)) with false. cbv iota in Hq |- *. lia. }
  split_and!; [done|by exists l1, l2|done| |].
  - intros io' now'. unfold drain_queued_run.
    destruct (List.find is_queued_slot (runs id s')) as [q|] eqn:Hq'; [|done].
    apply find_some in Hq' as [Hin Hq']. exfalso. apply existsb_false in Hnone. rewrite Forall_forall in Hnone.
    apply list_elem_of_In in Hin. specialize (Hnone q Hin). simpl in Hnone. congruence.
  - intros io' opener. unfold try_open_run. rewrite Hs', existsb_app. simpl.
    change (run_in_flight (reopened now slot)) with true. by rewrite orb_true_r.
Qed.

(** A status signal only moves a run between running and waiting for an
    approval: record by record, it leaves everything as it was except the
    status of the named run, and never revives a run that has ended. *)
Theorem status_signal_safe io id run_id status s k :
  Forall2 (fun r r' =>
      r' = r \/
      (k = id /\ r_run_id r = run_id /\ flips (r_status r) status = true /\
       r' = set_status status r))
    (runs k s) (runs k (set_run_status io id run_id status s)) /\
  Forall2 (fun r r' => run_in_flight r' = run_in_flight r)
    (runs k s) (runs k (set_run_status io id run_id status s)).
Proof.
  set (change := fun r r' => r' = r \/ (k = id /\ r_run_id r = run_id /\
    flips (r_status r) status = true /\ r' = set_status status r)).
  assert (Hc : Forall2 change (runs k s) (runs k (set_run_status io id run_id status s))).
  { unfold runs. rewrite status_runs. unfold update_run.
    destruct (decide (id = k)) as [<-|Hne]; last first.
    { rewrite lookup_alter_ne by done. apply Forall_Forall2_diag, Forall_forall. by left. }
    rewrite lookup_alter_eq. destruct (w_runs s !! id) as [l|]; simpl; [|constructor].
    destruct (update_first _ _ l) as [l'|] eqn:Hu; simpl;
      [|apply Forall_Forall2_diag, Forall_forall; by left].
    apply update_first_Some in Hu as (l1 & r & l2 & -> & _ & Hr & ->).
    apply bool_decide_eq_true in Hr.
    assert (Hid : forall l, Forall2 change l l)
      by (intros; apply Forall_Forall2_diag, Forall_forall; by left).
    apply Forall2_app; [apply Hid|]. constructor; [|apply Hid]. unfold change.
    destruct (flips (r_status r) status) eqn:Hf; [right; done|by left]. }
  split; [done|]. eapply Forall2_impl; [exact Hc|]. intros r r' [->|(_ & _ & Hf & ->)]; [done|].
  unfold run_in_flight. simpl. by destruct (r_status r), status.
Qed.

(** *** Retention *)

Lemma push_bounded_eq r l :
  push_bounded r l = drop (length l + 1 - MAX_RUN_RECORDS_PER_TASK) (l ++ [r])%list.
Proof. unfold push_bounded. by rewrite length_app. Qed.

Lemma push_all rs : forall l,
  (length l <= MAX_RUN_RECORDS_PER_TASK)%nat ->
  foldl (fun l r => push_bounded r l) l rs
  = drop (length l + length rs - MAX_RUN_RECORDS_PER_TASK) (l ++ rs)%list.
Proof.
  induction rs as [|r rs IH]; intros l Hl.
  { simpl. rewrite app_nil_r. by replace (length l + 0 - MAX_RUN_RECORDS_PER_TASK)%nat with 0%nat by lia. }
  simpl. rewrite IH by apply push_bounded_length. rewrite push_bounded_eq, length_drop, length_app.
  simpl. set (k := (length l + 1 - MAX_RUN_RECORDS_PER_TASK)%nat).
  replace (l ++ r :: rs)%list with ((l ++ [r]) ++ rs)%list by (by rewrite <- app_assoc).
  rewrite <- (drop_app_le (l ++ [r])%list rs k) by (rewrite length_app; simpl; lia).
  rewrite drop_drop. f_equal. unfold k. lia.
Qed.

Lemma record_all_runs io id rs : forall s,
  runs id (foldl (fun s r => record_run io id r s) s rs)
  = foldl (fun l r => push_bounded r l) (runs id s) rs.
Proof.
  induction rs as [|r rs IH]; intros s; [done|]. simpl. rewrite IH. f_equal.
  unfold runs at 1. rewrite record_runs. unfold update_entry. by rewrite lookup_insert_eq.
Qed.

(** Retention drops the oldest records, the running one included: once
    fifty skips were recorded behind a run in flight, its record is gone and
    the next fire opens a second run beside it. *)
Theorem skips_evict_opener io id opener skips second s :
  runs id s = [opener] -> run_in_flight opener = true ->
  length skips = MAX_RUN_RECORDS_PER_TASK -> Forall settled skips ->
  let s' := foldl (fun s r => record_run io id r s) s skips in
  runs id s' = skips /\
  snd (try_open_run io id false second s') = Opened (r_run_id second).
Proof.
  intros Hr Hf Hlen Hset. cbv zeta.
  assert (Hruns : runs id (foldl (fun s r => record_run io id r s) s skips) = skips).
  { rewrite record_all_runs, Hr, push_all by (simpl; unfold MAX_RUN_RECORDS_PER_TASK; lia).
    replace (length [opener] + length skips - MAX_RUN_RECORDS_PER_TASK)%nat with 1%nat
      by (by rewrite Hlen). done. }
  split; [done|]. unfold try_open_run. rewrite Hruns.
  assert (Hn : existsb run_in_flight skips = false).
  { apply existsb_false. eapply Forall_impl; [exact Hset|]. by intros r [? _]. }
  rewrite Hn. by destruct (mutate _ _ _).
Qed.

(** *** The orphan sweep *)

Lemma end_run_ended status reason now r :
  is_in_flight status = false -> run_in_flight (end_run status reason now r) = false.
Proof. intros Hs. unfold end_run. by destruct (run_in_flight r) eqn:Hr. Qed.

Lemma elem_of_in_flight_runs d id r :
  (id, r) ∈ in_flight_runs d <->
  exists l, d_runs d !! id = Some l /\ r ∈ l /\ run_in_flight r = true.
Proof.
  unfold in_flight_runs. rewrite list_elem_of_bind. split.
  - intros ([k l] & Hin & Hkl). apply elem_of_map_to_list in Hkl.
    apply list_elem_of_fmap in Hin as (q & [= -> ->] & Hq).
    apply list_elem_of_filter in Hq as [? ?]. eauto.
  - intros (l & Hl & Hin & Hf). exists (id, l). split; [|by apply elem_of_map_to_list].
    apply list_elem_of_fmap. exists r. split; [done|]. by apply list_elem_of_filter.
Qed.

(** A stored run that was in flight when the process that ran it ended. *)
Definition orphaned (d : Document) (id run_id : string) : Prop :=
  exists l r, d_runs d !! id = Some l /\ r ∈ l /\ run_in_flight r = true /\ r_run_id r = run_id.

(** The sweep of a fresh process: when a run is in flight and the write goes
    through, exactly the stored runs in flight become failed ones with the
    given reason, in the document and in memory alike, so no task stays
    blocked behind a dead run; otherwise nothing is written or reported. *)
Theorem orphan_sweep_converges io reason now s :
  w_index s = None ->
  let '(s', swept) := fail_orphan_running_runs io reason now s in
  if existsb (existsb run_in_flight) (table_values (w_runs s)) && io_ready io && io_written io then
    (forall id, runs id s' = end_run Failed reason now <$> default [] (d_runs (w_file s) !! id)) /\
    w_runs s' = d_runs (w_file s') /\
    (forall id, existsb run_in_flight (runs id s') = false) /\
    (forall id run_id, (id, run_id) ∈ swept <-> orphaned (w_file s) id run_id) /\
    w_tasks s' = w_tasks s
  else s' = s /\ swept = [].
Proof.
  intros Hi. unfold fail_orphan_running_runs.
  destruct (existsb (existsb run_in_flight) _); simpl; [|done].
  unfold mutate_store. rewrite Hi. destruct (io_ready io); simpl; [|done].
  destruct (io_written io); simpl; [|done].
  set (d' := end_runs Failed reason now (w_file s)).
  unfold post_mutate_document. simpl. rewrite Hi.
  set (swept := _ <$> in_flight_runs (w_file s)).
  assert (Hruns : forall id, default [] (d_runs d' !! id)
    = end_run Failed reason now <$> default [] (d_runs (w_file s) !! id)).
  { intros id. unfold d', end_runs. simpl. rewrite lookup_fmap.
    by destruct (d_runs (w_file s) !! id). }
  assert (Hs : forall (P : Manager -> Prop) u, P u -> P (notify_change u) ->
    P (match swept with [] => u | _ => notify_change u end)) by (intros; by destruct swept).
  apply Hs; simpl; (split_and!; [exact Hruns|done| | |done]).
  all: try (intros id; unfold runs; simpl; rewrite Hruns; apply existsb_false, Forall_fmap,
    Forall_forall; intros r _; by apply end_run_ended).
  all: intros id run_id; unfold swept; rewrite list_elem_of_fmap; split;
    [ intros ([k r] & [= -> ->] & Hin); apply elem_of_in_flight_runs in Hin as (l & ? & ? & ?);
      by exists l, r
    | intros (l & r & Hl & Hin & Hf & <-); exists (id, r); split; [done|];
      apply elem_of_in_flight_runs; by exists l ].
Qed.
End properties.

(** ** Witnesses *)

Definition sample_ws_task (id : string) (recurring : bool) (concurrency : TaskConcurrency) : CronTask :=
  mkCronTask id "*/10 * * * *" "tick" "" recurring (Some "UTC") sample_instant None
    (Some (sample_instant + 10 * MINUTE)) User None 0 false (Workspace "ws-1") None (Some Auto) false
    concurrency None None None None None None.

Definition sample_run (run_id : string) (status : RunStatus) : RunRecord :=
  mkRun run_id status sample_instant None None None None None [] (Some Scheduled) None.

Definition sample_workspace (records : list RunRecord) : Manager :=
  let t := sample_ws_task "cron-a" true Queue in
  mkWorkspace "ws-1" (mkDocument 1 [t] {["cron-a" := records]} []) None {["cron-a" := t]}
    {["cron-a" := records]} sample_options 0.

(** A run in flight and a fire waiting behind it; the same once the run ended. *)
Definition busy_records : list RunRecord :=
  [sample_run "run-1" Running; queued_record (sample_run "run-2" Running)].
Definition waiting_records : list RunRecord :=
  [sample_run "run-1" Succeeded; queued_record (sample_run "run-2" Running)].

Lemma sample_table_ok records : runs_ok records -> table_ok (sample_workspace records).
Proof. intros Hr. by apply map_Forall_singleton. Qed.

Lemma busy_ok : runs_ok busy_records. Proof. split; vm_compute; lia. Qed.
Lemma waiting_ok : runs_ok waiting_records. Proof. split; vm_compute; lia. Qed.

Definition sample_ws_ops : list WsOp :=
  [WOpen io_ok "cron-a" true (sample_run "run-3" Running);
   WReplace io_ok "cron-a" (sample_run "run-1" Succeeded);
   WDrain io_ok "cron-a" (sample_instant + MINUTE)].

Lemma run_table_invariant_witness :
  table_ok (ws_run sample_ws_ops (sample_workspace busy_records)) /\
  r_run_id <$> filter (fun r => run_in_flight r = true)
    (runs "cron-a" (ws_run sample_ws_ops (sample_workspace busy_records))) = ["run-3"].
Proof.
  split; [|vm_compute; reflexivity].
  apply (run_table_invariant sample_ws_ops (sample_workspace busy_records)).
  - exact (sample_table_ok busy_records busy_ok).
  - by repeat constructor.
Defined.

Lemma try_open_run_outcome_witness :
  let s := sample_workspace waiting_records in
  let opener := sample_run "run-3" Running in
  let '(s', outcome) := try_open_run io_ok "cron-a" false opener s in
  match outcome with
  | Opened run_id =>
    existsb run_in_flight (runs "cron-a" s) = false /\ run_id = r_run_id opener /\
    last (runs "cron-a" s') = Some opener
  | Queued run_id =>
    existsb run_in_flight (runs "cron-a" s) = true /\ false = true /\ run_id = r_run_id opener /\
    filter (fun r => is_queued_slot r = true) (runs "cron-a" s') = [queued_record opener]
  | Declined record =>
    existsb run_in_flight (runs "cron-a" s) = true /\ false = false /\ record = opener /\ s' = s
  end /\
  forall other, other <> "cron-a" -> runs other s' = runs other s.
Proof.
  intros s opener.
  pose proof (try_open_run_outcome io_ok "cron-a" false opener s
                (sample_table_ok waiting_records waiting_ok) eq_refl) as Hp.
  exact Hp.
Defined.

Lemma queued_fire_drains_once_witness :
  let s := sample_workspace waiting_records in
  let now := sample_instant + MINUTE in
  snd (drain_queued_run io_ok "cron-a" now s) = Some ("cron-a", "run-2") /\
  let '(s', drained) := drain_queued_run io_ok "cron-a" now s in
  match List.find is_queued_slot (runs "cron-a" s), existsb run_in_flight (runs "cron-a" s) with
  | Some slot, false =>
    drained = Some ("cron-a", r_run_id slot) /\
    (exists l1 l2, runs "cron-a" s = (l1 ++ slot :: l2)%list /\
                   runs "cron-a" s' = (l1 ++ reopened now slot :: l2)%list) /\
    existsb is_queued_slot (runs "cron-a" s') = false /\
    (forall io' now', snd (drain_queued_run io' "cron-a" now' s') = None) /\
    (forall io' opener, snd (try_open_run io' "cron-a" false opener s') = Declined opener)
  | _, _ => drained = None /\ s' = s
  end.
Proof.
  intros s now. split; [vm_compute; reflexivity|].
  assert (Hnd : NoDup (r_run_id <$> runs "cron-a" s))
    by (apply (bool_decide_unpack _); vm_compute; exact I).
  pose proof (queued_fire_drains_once io_ok "cron-a" now s
                (sample_table_ok waiting_records waiting_ok) Hnd) as Hp.
  exact Hp.
Defined.

Definition sample_skips : list RunRecord :=
  (fun i => sample_run "run-s" Skipped) <$> seq 0 MAX_RUN_RECORDS_PER_TASK.

Lemma skips_evict_opener_witness :
  let s := sample_workspace [sample_run "run-1" Running] in
  let s' := foldl (fun s r => record_run io_ok "cron-a" r s) s sample_skips in
  runs "cron-a" s' = sample_skips /\
  snd (try_open_run io_ok "cron-a" false (sample_run "run-9" Running) s') = Opened "run-9".
Proof.
  apply (skips_evict_opener io_ok "cron-a" (sample_run "run-1" Running) sample_skips
           (sample_run "run-9" Running)); [reflexivity|reflexivity|reflexivity|].
  by repeat constructor.
Defined.

Lemma orphan_sweep_converges_witness :
  let s := sample_workspace busy_records in
  snd (fail_orphan_running_runs io_ok "restarted" (sample_instant + HOUR) s) = [("cron-a", "run-1")] /\
  let '(s', swept) := fail_orphan_running_runs io_ok "restarted" (sample_instant + HOUR) s in
  if existsb (existsb run_in_flight) (table_values (w_runs s)) && io_ready io_ok && io_written io_ok then
    (forall id, runs id s' = end_run Failed "restarted" (sample_instant + HOUR)
                               <$> default [] (d_runs (w_file s) !! id)) /\
    w_runs s' = d_runs (w_file s') /\
    (forall id, existsb run_in_flight (runs id s') = false) /\
    (forall id run_id, (id, run_id) ∈ swept <-> orphaned (w_file s) id run_id) /\
    w_tasks s' = w_tasks s
  else s' = s /\ swept = [].
Proof.
  intros s. split; [vm_compute; reflexivity|].
  pose proof (orphan_sweep_converges io_ok "restarted" (sample_instant + HOUR) s eq_refl) as Hp.
  exact Hp.
Defined.
