(* ===== verification/CronDurable.v ===== *)
(** * The workspace manager's tasks and their durable copy

    What a pass, a pause and an edit do to the task table of [CronWorkspace.v],
    that the document mirrors the memory, and what a restart recovers. *)
From stdpp Require Import gmap strings.
From S2P Require Import Prelude RustStd F64 Json CronIndex CronExpr Chrono CivilCalendar.
From S2P Require Import CronNextFire CronJitter CronTask CronPlan CronWire CronManager.
From S2P Require Import CronWorkspace CronRuns.
#[local] Open Scope string_scope.
#[local] Open Scope Z_scope.

(** ** Lists of tasks, read by id *)

Definition find_task (id : string) (tasks : list CronTask) : option CronTask :=
  List.find (fun t => bool_decide (t_id t = id)) tasks.
Definition find_plan (id : string) (plans : list FirePlan) : option FirePlan :=
  List.find (fun p => bool_decide (plan_id p = id)) plans.

Lemma find_task_cons k t tasks :
  find_task k (t :: tasks) = if decide (t_id t = k) then Some t else find_task k tasks.
Proof. unfold find_task. simpl. by case_bool_decide; case_decide. Qed.

Lemma find_plan_cons k p plans :
  find_plan k (p :: plans) = if decide (plan_id p = k) then Some p else find_plan k plans.
Proof. unfold find_plan. simpl. by case_bool_decide; case_decide. Qed.

Lemma find_task_Some k tasks t : find_task k tasks = Some t -> t ∈ tasks /\ t_id t = k.
Proof.
  intros Hf. apply find_some in Hf as [Hin Hk]. apply bool_decide_eq_true in Hk.
  by apply list_elem_of_In in Hin.
Qed.

Lemma find_plan_Some k plans p : find_plan k plans = Some p -> p ∈ plans /\ plan_id p = k.
Proof.
  intros Hf. apply find_some in Hf as [Hin Hk]. apply bool_decide_eq_true in Hk.
  by apply list_elem_of_In in Hin.
Qed.

Lemma find_task_None k tasks : find_task k tasks = None <-> k ∉ (t_id <$> tasks).
Proof.
  induction tasks as [|t tasks IH]; [set_solver|]. rewrite find_task_cons, fmap_cons.
  case_decide; [set_solver|]. rewrite IH. set_solver.
Qed.

Lemma find_plan_None k plans : find_plan k plans = None <-> k ∉ (plan_id <$> plans).
Proof.
  induction plans as [|t tasks IH]; [set_solver|]. rewrite find_plan_cons, fmap_cons.
  case_decide; [set_solver|]. rewrite IH. set_solver.
Qed.

Lemma find_task_unique k tasks t :
  NoDup (t_id <$> tasks) -> t ∈ tasks -> t_id t = k -> find_task k tasks = Some t.
Proof.
  induction tasks as [|u tasks IH]; intros Hnd Hin Hk; [set_solver|].
  rewrite find_task_cons. cbn in Hnd. apply NoDup_cons in Hnd as [Hu Hnd].
  apply elem_of_cons in Hin as [<-|Hin]; [by rewrite decide_True|].
  rewrite decide_False; [auto|]. intros He. apply Hu. rewrite He, <- Hk. by apply list_elem_of_fmap_2.
Qed.

Section lists.
Implicit Types (f : CronTask -> CronTask) (tasks : list CronTask).

Lemma update_task_cons id f t tasks :
  update_task id f (t :: tasks)
  = if decide (t_id t = id) then f t :: tasks else t :: update_task id f tasks.
Proof.
  unfold update_task. cbn [update_first]. case_bool_decide; case_decide; try done.
  by destruct (update_first _ f tasks).
Qed.

Lemma update_task_find id f tasks k :
  (forall t, t_id (f t) = t_id t) ->
  find_task k (update_task id f tasks)
  = if decide (id = k) then f <$> find_task k tasks else find_task k tasks.
Proof.
  intros Hf. induction tasks as [|t tasks IH]; [by case_decide|].
  rewrite update_task_cons. destruct (decide (t_id t = id)) as [Hd|Hd];
    rewrite !find_task_cons, ?Hf, ?IH; destruct (decide (t_id t = k)) as [H1|H1];
    destruct (decide (id = k)) as [H2|H2]; try reflexivity; exfalso; congruence.
Qed.

Lemma update_task_ids id f tasks :
  (forall t, t_id (f t) = t_id t) -> t_id <$> update_task id f tasks = t_id <$> tasks.
Proof.
  intros Hf. induction tasks as [|t tasks IH]; [done|]. rewrite update_task_cons.
  case_decide; rewrite !fmap_cons, ?Hf; [done|]. by rewrite IH.
Qed.

Lemma filter_find (P : CronTask -> Prop) `{!forall t, Decision (P t)} tasks k :
  NoDup (t_id <$> tasks) ->
  find_task k (filter P tasks)
  = t ← find_task k tasks; if decide (P t) then Some t else None.
Proof.
  induction tasks as [|t tasks IH]; intros Hnd; [done|]. cbn in Hnd.
  apply NoDup_cons in Hnd as [Ht Hnd]. rewrite filter_cons, find_task_cons.
  destruct (decide (P t)) as [HP|HP].
  - rewrite find_task_cons. case_decide; [|by apply IH]. simpl. by rewrite decide_True.
  - rewrite IH by done. case_decide as Hk; [|done]. simpl. rewrite decide_False by done.
    rewrite (proj2 (find_task_None k tasks)); [done|]. by rewrite <- Hk.
Qed.

Lemma filter_ids_NoDup (P : CronTask -> Prop) `{!forall t, Decision (P t)} tasks :
  NoDup (t_id <$> tasks) -> NoDup (t_id <$> filter P tasks).
Proof. intros Hnd. eapply sublist_NoDup; [exact Hnd|]. apply fmap_sublist, sublist_filter. Qed.
End lists.

(** ** The plans of a pass *)

Lemma advance_id p t : t_id (advance p t) = t_id t.
Proof. done. Qed.

Lemma advance_all_find plans : forall tasks k,
  NoDup (plan_id <$> plans) ->
  find_task k (foldl (fun tasks p => update_task (t_id (p_task p)) (advance p) tasks) tasks plans)
  = match find_plan k plans with
    | Some p => advance p <$> find_task k tasks
    | None => find_task k tasks
    end.
Proof.
  induction plans as [|p plans IH]; intros tasks k Hnd; [done|]. cbn in Hnd.
  apply NoDup_cons in Hnd as [Hp Hnd]. cbn [foldl]. rewrite IH, find_plan_cons by done.
  rewrite update_task_find by done. fold (plan_id p). case_decide as Hd; [|done].
  subst k. by rewrite (proj2 (find_plan_None _ _)).
Qed.

Lemma advance_all_ids plans : forall tasks,
  t_id <$> foldl (fun tasks p => update_task (t_id (p_task p)) (advance p) tasks) tasks plans
  = t_id <$> tasks.
Proof.
  induction plans as [|p plans IH]; intros tasks; [done|]. simpl. rewrite IH.
  by apply update_task_ids.
Qed.

(** What a delivered task's entry becomes. *)
Definition ws_outcome (p : FirePlan) (t : CronTask) : option CronTask :=
  if survives p t then Some (advance p t) else None.

Lemma record_plans_find plans d k :
  NoDup (plan_id <$> plans) -> NoDup (t_id <$> d_tasks d) ->
  find_task k (d_tasks (record_plans plans d))
  = match find_plan k plans with
    | Some p => find_task k (d_tasks d) ≫= ws_outcome p
    | None => find_task k (d_tasks d)
    end.
Proof.
  intros Hp Hd. unfold record_plans. simpl. rewrite filter_find by (by rewrite advance_all_ids).
  rewrite advance_all_find by done.
  assert (Hex : forall t, t_id t = k ->
    existsb (fun p => bool_decide (t_id (p_task p) = t_id t) && negb (survives p t)) plans
    = from_option (fun p => negb (survives p t)) false (find_plan k plans)).
  { intros t Ht. clear Hd. induction plans as [|p plans IH]; [done|]. cbn in Hp.
    apply NoDup_cons in Hp as [Hn Hp]. rewrite find_plan_cons. cbn [existsb]. rewrite IH by done.
    fold (plan_id p). rewrite Ht. case_bool_decide as Hk; [rewrite decide_True by done|].
    - rewrite (proj2 (find_plan_None k plans)) by (by rewrite <- Hk). simpl. apply orb_false_r.
    - by rewrite decide_False. }
  destruct (find_plan k plans) as [p|] eqn:Hfp;
    destruct (find_task k (d_tasks d)) as [t|] eqn:Hft; try done;
    cbn [mbind option_bind fmap option_fmap option_map];
    pose proof (proj2 (find_task_Some _ _ _ Hft)) as Hid;
    [rewrite (Hex (advance p t)) by done|rewrite (Hex t) by done]; cbn [from_option].
  - unfold ws_outcome. change (survives p (advance p t)) with (survives p t).
    by destruct (survives p t).
  - done.
Qed.

Section pass.
Context `{Chrono} `{ChronoText}.

Definition stamp_entry (p : FirePlan) (t : CronTask) : CronTask :=
  if survives p t then set_next_fire (p_next_fire_at p) (set_last_fired (p_advanced p) t)
  else set_last_fired (p_advanced p) t.

Lemma apply_plans_acc plans : forall tasks removed due,
  NoDup (plan_id <$> plans) ->
  let '(tasks', removed', due') := foldl apply_plan (tasks, removed, due) plans in
  (forall k, tasks' !! k = match find_plan k plans with
                           | Some p => stamp_entry p <$> tasks !! k
                           | None => tasks !! k
                           end) /\
  removed' = (removed ++ omap (fun p => t ← tasks !! plan_id p;
                 if survives p t then None else Some (t_id t)) plans)%list /\
  due' = (due ++ omap (fun p => plan_delivery p <$> tasks !! plan_id p) plans)%list.
Proof.
  induction plans as [|p plans IH]; intros tasks removed due Hnd.
  { simpl. by rewrite !app_nil_r. }
  cbn in Hnd. apply NoDup_cons in Hnd as [Hp Hnd]. cbn [foldl].
  assert (Hother : forall {B} (f : FirePlan -> option CronTask -> option B)
      (m : gmap string CronTask),
    (forall k, k <> plan_id p -> m !! k = tasks !! k) ->
    omap (fun q => f q (m !! plan_id q)) plans = omap (fun q => f q (tasks !! plan_id q)) plans).
  { intros B f m Hm. apply omap_ext_in. intros q Hq. rewrite Hm; [done|].
    intros He. apply Hp. rewrite <- He. by apply list_elem_of_fmap_2. }
  unfold apply_plan at 2. fold (plan_id p).
  destruct (tasks !! plan_id p) as [t|] eqn:Ht.
  - set (entry := stamp_entry p t).
    assert (Hstep : (let fire := plan_delivery p t in
      if survives p t
      then (<[plan_id p := set_next_fire (p_next_fire_at p) (set_last_fired (p_advanced p) t)]> tasks,
            removed, (due ++ [fire])%list)
      else (<[plan_id p := set_last_fired (p_advanced p) t]> tasks, (removed ++ [t_id t])%list,
            (due ++ [fire])%list))
      = (<[plan_id p := entry]> tasks,
         (removed ++ if survives p t then [] else [t_id t])%list,
         (due ++ [plan_delivery p t])%list)).
    { unfold entry, stamp_entry. cbv zeta. destruct (survives p t); [by rewrite app_nil_r|done]. }
    change (fire_of t (p_coalesced_count p) (p_stale p) (p_maxed_out p) (p_scheduled_at p) (p_ended p))
      with (plan_delivery p t). cbv zeta in Hstep |- *. rewrite Hstep.
    specialize (IH (<[plan_id p := entry]> tasks)
      (removed ++ if survives p t then [] else [t_id t])%list (due ++ [plan_delivery p t])%list Hnd).
    destruct (foldl apply_plan _ plans) as [[tasks' removed'] due'].
    destruct IH as (Htab & -> & ->). split_and!.
    + intros k. rewrite Htab, find_plan_cons. case_decide as Hk.
      * subst k. rewrite (proj2 (find_plan_None _ _)) by done. by rewrite lookup_insert_eq, Ht.
      * by rewrite lookup_insert_ne.
    + rewrite omap_cons_eq, Ht. simpl.
      rewrite (Hother _ (fun q o => u ← o; if survives q u then None else Some (t_id u)))
        by (intros; by rewrite lookup_insert_ne).
      rewrite <- app_assoc. by destruct (survives p t).
    + rewrite omap_cons_eq, Ht. simpl.
      rewrite (Hother _ (fun q o => plan_delivery q <$> o))
        by (intros; by rewrite lookup_insert_ne).
      by rewrite <- app_assoc.
  - specialize (IH tasks removed due Hnd). destruct (foldl apply_plan _ plans) as [[tasks' removed'] due'].
    destruct IH as (Htab & -> & ->). split_and!.
    + intros k. rewrite Htab, find_plan_cons. case_decide as Hk; [|done]. subst k.
      rewrite (proj2 (find_plan_None _ _)) by done. by rewrite Ht.
    + by rewrite omap_cons_eq, Ht.
    + by rewrite omap_cons_eq, Ht.
Qed.

Definition due_tasks (now : Z) (s : Manager) : list CronTask :=
  filter (fun t => ws_due now t = true) (list_tasks s).

Lemma ws_plan_id options t now : plan_id (ws_plan_fire options t now) = t_id t.
Proof.
  unfold plan_id, ws_plan_fire. destruct (t_recurring t); [|done]. by destruct (coalesce _ _ _ _ _ _ _ _).
Qed.

Lemma due_plans_list now s :
  keyed_table t_id (w_tasks s) ->
  due_plans now s = (fun t => ws_plan_fire (w_options s) t now) <$> due_tasks now s.
Proof.
  intros Hk. pose proof (table_values_NoDup t_id (w_tasks s) Hk) as Hnd.
  unfold due_plans, due_tasks, list_tasks, sorted_values.
  rewrite (sort_by_key_fmap _ t_id).
  - by rewrite sort_by_key_filter.
  - intros t. apply ws_plan_id.
  - eapply sublist_NoDup; [exact Hnd|]. apply fmap_sublist, sublist_filter.
Qed.

Lemma due_tasks_ids now s :
  keyed_table t_id (w_tasks s) ->
  NoDup (t_id <$> due_tasks now s) /\ StronglySorted (key_le t_id) (due_tasks now s).
Proof.
  intros Hk. destruct (sorted_values_sorted t_id (w_tasks s) Hk) as [Hnd Hs]. split.
  - eapply sublist_NoDup; [exact Hnd|]. apply fmap_sublist, sublist_filter.
  - by apply StronglySorted_filter.
Qed.

Lemma due_plans_ids now s :
  keyed_table t_id (w_tasks s) -> plan_id <$> due_plans now s = t_id <$> due_tasks now s.
Proof.
  intros Hk. rewrite due_plans_list, <- list_fmap_compose by done. apply list_fmap_ext.
  intros i t _. apply ws_plan_id.
Qed.

Lemma elem_of_due now s t :
  keyed_table t_id (w_tasks s) ->
  t ∈ due_tasks now s <-> w_tasks s !! t_id t = Some t /\ ws_due now t = true.
Proof.
  intros Hk. unfold due_tasks, list_tasks. rewrite list_elem_of_filter, elem_of_sorted_values by done.
  tauto.
Qed.

(** The plan of an entry: there is one exactly when it is due. *)
Lemma find_due_plan now s k :
  keyed_table t_id (w_tasks s) ->
  find_plan k (due_plans now s)
  = t ← w_tasks s !! k; if ws_due now t then Some (ws_plan_fire (w_options s) t now) else None.
Proof.
  intros Hk. destruct (due_tasks_ids now s Hk) as [Hnd _].
  assert (Hin : forall p, find_plan k (due_plans now s) = Some p -> exists t,
    w_tasks s !! k = Some t /\ ws_due now t = true /\ p = ws_plan_fire (w_options s) t now).
  { intros p Hp. apply find_plan_Some in Hp as [Hp Hid]. rewrite due_plans_list in Hp by done.
    apply list_elem_of_fmap in Hp as (t & -> & Ht). rewrite ws_plan_id in Hid.
    apply elem_of_due in Ht as [Ht Hd]; [|done]. rewrite Hid in Ht. eauto. }
  destruct (find_plan k (due_plans now s)) as [p|] eqn:Hp.
  - destruct (Hin p eq_refl) as (t & -> & Hd & ->). simpl. by rewrite Hd.
  - destruct (w_tasks s !! k) as [t|] eqn:Ht; [|done]. simpl. destruct (ws_due now t) eqn:Hd; [|done].
    apply find_plan_None in Hp. destruct Hp. rewrite due_plans_ids by done.
    pose proof (Hk _ _ Ht) as Hid. simpl in Hid. rewrite <- Hid. apply list_elem_of_fmap_2.
    apply elem_of_due; [done|]. by rewrite Hid.
Qed.

Lemma delete_all_lookup removed : forall (tasks : gmap string CronTask) k,
  foldl (fun tasks id => delete id tasks) tasks removed !! k
  = if decide (k ∈ removed) then None else tasks !! k.
Proof.
  induction removed as [|id removed IH]; intros tasks k; [by rewrite decide_False by set_solver|].
  simpl. rewrite IH. destruct (decide (k = id)) as [->|Hne].
  - rewrite lookup_delete_eq. case_decide; by rewrite ?(decide_True (P := id ∈ id :: removed)) by set_solver.
  - rewrite lookup_delete_ne by done.
    destruct (decide (k ∈ removed)); [by rewrite decide_True by set_solver|by rewrite decide_False by set_solver].
Qed.

(** Applying a pass's own plans. *)
Lemma apply_due_plans now s s0 :
  keyed_table t_id (w_tasks s) -> w_tasks s0 = w_tasks s ->
  let '(s', fires) := apply_plans (due_plans now s) s0 in
  fires = (fun t => plan_delivery (ws_plan_fire (w_options s) t now) t) <$> due_tasks now s /\
  (forall k, w_tasks s' !! k
     = t ← w_tasks s !! k;
       if ws_due now t then ws_outcome (ws_plan_fire (w_options s) t now) t else Some t) /\
  w_runs s' = w_runs s0 /\ w_file s' = w_file s0 /\ w_index s' = w_index s0 /\ w_id s' = w_id s0.
Proof.
  intros Hk Htab. destruct (due_tasks_ids now s Hk) as [Hnd Hsort].
  assert (Hpn : NoDup (plan_id <$> due_plans now s)) by (by rewrite due_plans_ids).
  unfold apply_plans. rewrite Htab.
  pose proof (apply_plans_acc (due_plans now s) (w_tasks s) [] [] Hpn) as Hacc.
  destruct (foldl apply_plan _ _) as [[tasks removed] due]. destruct Hacc as (Ht & -> & ->).
  assert (Hfires : omap (fun p => plan_delivery p <$> w_tasks s !! plan_id p) (due_plans now s)
    = (fun t => plan_delivery (ws_plan_fire (w_options s) t now) t) <$> due_tasks now s).
  { rewrite (omap_total _ (fun p => plan_delivery p (p_task p))).
    - rewrite due_plans_list, <- list_fmap_compose by done. apply list_fmap_ext.
      intros i t _. simpl. unfold ws_plan_fire. destruct (t_recurring t); [|done].
      by destruct (coalesce _ _ _ _ _ _ _ _).
    - intros p Hp. rewrite due_plans_list in Hp by done.
      apply list_elem_of_fmap in Hp as (t & -> & Hin). rewrite ws_plan_id.
      apply elem_of_due in Hin as [Hin _]; [|done]. rewrite Hin. simpl. f_equal. f_equal.
      unfold ws_plan_fire. destruct (t_recurring t); [|done]. by destruct (coalesce _ _ _ _ _ _ _ _). }
  simpl. rewrite Hfires. split_and!; try done.
  - apply sort_by_key_id.
    + rewrite <- list_fmap_compose. erewrite list_fmap_ext; [exact Hnd|]. done.
    + eapply StronglySorted_fmap; [|exact Hsort]. done.
  - intros k. rewrite delete_all_lookup, Ht, find_due_plan by done.
    assert (Hrem : k ∈ omap (fun p => t ← w_tasks s !! plan_id p;
        if survives p t then None else Some (t_id t)) (due_plans now s) <->
      exists t, w_tasks s !! k = Some t /\ ws_due now t = true /\
        survives (ws_plan_fire (w_options s) t now) t = false).
    { rewrite list_elem_of_omap. split.
      - intros (p & Hp & Hr). rewrite due_plans_list in Hp by done.
        apply list_elem_of_fmap in Hp as (t & -> & Hin). rewrite ws_plan_id in Hr.
        apply elem_of_due in Hin as [Hin Hd]; [|done]. rewrite Hin in Hr. simpl in Hr.
        destruct (survives _ t) eqn:Hs; simplify_eq. eauto.
      - intros (t & Hl & Hd & Hs). pose proof (Hk _ _ Hl) as Hid. simpl in Hid. subst k.
        exists (ws_plan_fire (w_options s) t now). rewrite due_plans_list, ws_plan_id, Hl by done.
        simpl. rewrite Hs. split; [|done]. apply (list_elem_of_fmap_2 (fun t => ws_plan_fire _ t now)).
        by apply elem_of_due. }
    case_decide as Hd; [apply Hrem in Hd as (t & -> & Hd & Hs); simpl; rewrite Hd;
      unfold ws_outcome; by rewrite Hs|].
    destruct (w_tasks s !! k) as [t|] eqn:Hl; [|done]. simpl.
    destruct (ws_due now t) eqn:Hdue; [|done]. simpl. unfold ws_outcome, stamp_entry, advance.
    destruct (survives _ t) eqn:Hs; [done|]. destruct Hd. apply Hrem. eauto.
Qed.

(** Whether the one write of an operation counts as done. *)
Definition persisted (io : Io) (s : Manager) : bool :=
  match w_index s with Some _ => true | None => io_ready io && io_written io end.

Lemma mutate_ok io f s : snd (mutate io f s) = persisted io s.
Proof.
  unfold mutate, mutate_store, persisted. destruct (w_index s); [done|].
  destruct (io_ready io); [|done]. simpl. by destruct (io_written io).
Qed.

Lemma mutate_failed io f s : persisted io s = false -> fst (mutate io f s) = s.
Proof.
  unfold mutate, mutate_store, persisted. destruct (w_index s); [done|].
  destruct (io_ready io); [|done]. simpl. by destruct (io_written io).
Qed.

(** One pass of the workspace scheduler: every unpaused task whose moment
    has come is delivered once, in id order; a surviving task takes its plan's
    cursor and next fire (its fire count is left to the run records) and the
    others leave the table.  When the durable write fails nothing is
    delivered and nothing moves, so no occurrence is lost. *)
Theorem ws_check_due_pass io now s :
  keyed_table t_id (w_tasks s) ->
  let '(s', fires) := check_due io now s in
  if persisted io s then
    fires = (fun t => plan_delivery (ws_plan_fire (w_options s) t now) t)
              <$> filter (fun t => ws_due now t = true) (list_tasks s) /\
    (forall id, w_tasks s' !! id
       = t ← w_tasks s !! id;
         if ws_due now t then ws_outcome (ws_plan_fire (w_options s) t now) t else Some t) /\
    (forall id t t', w_tasks s !! id = Some t -> w_tasks s' !! id = Some t' ->
       t_fire_count t' = t_fire_count t) /\
    w_runs s' = w_runs s
  else fires = [] /\ s' = s.
Proof.
  intros Hk. unfold check_due. destruct (due_plans now s) as [|p0 ps0] eqn:Hp.
  - assert (Hn : due_tasks now s = []).
    { rewrite due_plans_list in Hp by done. by apply fmap_nil_inv in Hp. }
    destruct (persisted io s); [|done]. fold (due_tasks now s). rewrite Hn.
    split_and!; [done| | |done].
    + intros id. pose proof (find_due_plan now s id Hk) as Hf. rewrite Hp in Hf. simpl in Hf.
      destruct (w_tasks s !! id) as [t|]; [|done]. simpl in *. by destruct (ws_due now t).
    + intros id t t' H1 H2. congruence.
  - rewrite <- Hp. clear p0 ps0 Hp.
    pose proof (mutate_ok io (record_plans (due_plans now s)) s) as Hok.
    pose proof (mutate_failed io (record_plans (due_plans now s)) s) as Hfail.
    destruct (mutate io _ s) as [s0 ok] eqn:Hm. simpl in Hok, Hfail. subst ok.
    apply mutate_frame in Hm as (Ht & Hr & _).
    destruct (persisted io s); [|by rewrite Hfail].
    pose proof (apply_due_plans now s s0 Hk Ht) as Ha.
    destruct (apply_plans _ s0) as [s' fires]. destruct Ha as (Hf & Htab & Hruns & _).
    split_and!; [done|done| |congruence].
    intros id t t' H1 H2. rewrite Htab, H1 in H2. simpl in H2.
    destruct (ws_due now t); [|by simplify_eq]. unfold ws_outcome in H2.
    destruct (survives _ t); by simplify_eq.
Qed.
End pass.

(** ** The document mirrors the memory *)

Section mirror.
Context `{Chrono} `{ChronoText}.

(** The JSON document holds the very tasks of the table, and the records of
    each of them. *)
Record mirrors (s : Manager) : Prop := {
  mi_index : w_index s = None;
  mi_keyed : keyed_table t_id (w_tasks s);
  mi_scope id t : w_tasks s !! id = Some t -> task_belongs_to_workspace t = true;
  mi_ids : NoDup (t_id <$> d_tasks (w_file s));
  mi_tasks id : find_task id (d_tasks (w_file s)) = w_tasks s !! id;
  mi_runs id : is_Some (w_tasks s !! id) -> default [] (d_runs (w_file s) !! id) = runs id s
}.

Lemma mutate_json io f s :
  w_index s = None -> persisted io s = true ->
  mutate io f s = (set_file (set_d_version WORKSPACE_CRON_STORE_VERSION (f (w_file s))) s, true).
Proof.
  unfold mutate, mutate_store, persisted. intros ->. destruct (io_ready io); [|done].
  simpl. by destruct (io_written io).
Qed.

(** Rewriting one task in both copies. *)
Lemma mirrors_update id f s :
  mirrors s -> (forall t, t_id (f t) = t_id t) ->
  (forall t, w_tasks s !! id = Some t -> task_belongs_to_workspace (f t) = true) ->
  mirrors (set_w_tasks (alter f id (w_tasks s))
    (set_file (set_d_version WORKSPACE_CRON_STORE_VERSION
       (set_d_tasks (update_task id f (d_tasks (w_file s))) (w_file s))) s)).
Proof.
  intros [Hi Hk Hsc Hn Ht Hr] Hid Hs. split; simpl.
  - done.
  - by apply keyed_alter.
  - intros k t Hl. apply lookup_alter_Some in Hl as [(<- & u & Hu & ->)|[_ Hl]]; eauto.
  - by rewrite update_task_ids.
  - intros k. rewrite update_task_find, Ht by done. case_decide as Hd; [subst k|].
    + by rewrite lookup_alter_eq.
    + by rewrite lookup_alter_ne.
  - intros k Hl. apply Hr. destruct (decide (id = k)) as [<-|Hne].
    + rewrite lookup_alter_eq in Hl. by apply fmap_is_Some in Hl.
    + by rewrite lookup_alter_ne in Hl.
Qed.

(** The same update of one task's records in both copies. *)
Lemma mirrors_runs s d_runs' w_runs' :
  mirrors s ->
  (forall id, is_Some (w_tasks s !! id) -> default [] (d_runs' !! id) = default [] (w_runs' !! id)) ->
  mirrors (set_w_runs w_runs'
    (set_file (set_d_version WORKSPACE_CRON_STORE_VERSION (set_d_runs d_runs' (w_file s))) s)).
Proof. intros [Hi Hk Hsc Hn Ht Hr] Heq. by split. Qed.

Lemma mirrors_notify s : mirrors s -> mirrors (notify_change s).
Proof. intros [Hi Hk Hsc Hn Ht Hr]. by split. Qed.

Lemma update_entry_default id k f rs :
  default [] (update_entry id f rs !! k)
  = if decide (id = k) then f (default [] (rs !! k)) else default [] (rs !! k).
Proof.
  unfold update_entry. case_decide as Hd; [subst k; by rewrite lookup_insert_eq|].
  by rewrite lookup_insert_ne.
Qed.

Lemma update_run_default id k p f rs :
  default [] (update_run id p f rs !! k)
  = if decide (id = k) then default (default [] (rs !! k)) (update_first p f (default [] (rs !! k)))
    else default [] (rs !! k).
Proof.
  unfold update_run. case_decide as Hd; [subst k; rewrite lookup_alter_eq|by rewrite lookup_alter_ne].
  by destruct (rs !! id).
Qed.

Lemma mirrors_entry id f s :
  mirrors s ->
  mirrors (set_w_runs (update_entry id f (w_runs s))
    (set_file (set_d_version WORKSPACE_CRON_STORE_VERSION
       (set_d_runs (update_entry id f (d_runs (w_file s))) (w_file s))) s)).
Proof.
  intros Hm. apply mirrors_runs; [done|]. intros k Hl. rewrite !update_entry_default.
  pose proof (mi_runs s Hm k Hl) as Hr. unfold runs in Hr. by rewrite Hr.
Qed.

Lemma mirrors_update_run id p f s :
  mirrors s ->
  mirrors (set_w_runs (update_run id p f (w_runs s))
    (set_file (set_d_version WORKSPACE_CRON_STORE_VERSION
       (set_d_runs (update_run id p f (d_runs (w_file s))) (w_file s))) s)).
Proof.
  intros Hm. apply mirrors_runs; [done|]. intros k Hl. rewrite !update_run_default.
  pose proof (mi_runs s Hm k Hl) as Hr. unfold runs in Hr. by rewrite Hr.
Qed.

Lemma mirrors_counted record id s :
  mirrors s ->
  mirrors (count_mem record id
    (set_file (set_d_version WORKSPACE_CRON_STORE_VERSION (count_doc record id (w_file s))) s)).
Proof.
  intros Hm. unfold count_mem, count_doc. destruct (counts (r_status record)).
  - apply (mirrors_update id count_fire s Hm); [done|]. intros t Ht.
    change (task_belongs_to_workspace t = true). exact (mi_scope s Hm _ _ Ht).
  - destruct Hm as [Hi Hk Hsc Hn Ht Hr]. by split.
Qed.

(** The operations with their write through, on fresh ids; the test-only
    override of a next fire is memory-only and left out. *)
Definition written (s : Manager) (op : WsOp) : Prop :=
  match op with
  | WAdd io _ _ _ _ _ _ id =>
    persisted io s = true /\ w_runs s !! id = None /\ d_runs (w_file s) !! id = None
  | WSetNextFire _ _ => False
  | WRemove io _ | WSetPaused io _ _ _ | WUpdate io _ _ _ | WOpen io _ _ _ | WDrain io _ _
  | WAppend io _ _ | WRecord io _ _ | WReplace io _ _ | WSessionRef io _ _ _ | WStatus io _ _ _
  | WFailOrphans io _ _ | WTerminate io _ _ | WExpire io _ | WReceipt io _ | WCheckDue io _ =>
    persisted io s = true
  end.

Fixpoint all_written (s : Manager) (ops : list WsOp) : Prop :=
  match ops with
  | [] => True
  | op :: ops => written s op /\ all_written (ws_step s op) ops
  end.

Lemma mirrors_open io id queue opener s :
  mirrors s -> persisted io s = true -> mirrors (fst (try_open_run io id queue opener s)).
Proof.
  intros Hm Hio. unfold try_open_run. cbv zeta.
  destruct (existsb run_in_flight _); [destruct queue; [|done]|];
    rewrite mutate_json by (by try apply Hm); simpl; by apply mirrors_notify, mirrors_entry.
Qed.

Lemma mirrors_drain io id now s :
  mirrors s -> persisted io s = true -> mirrors (fst (drain_queued_run io id now s)).
Proof.
  intros Hm Hio. unfold drain_queued_run. destruct (List.find _ _) as [slot|] eqn:Hf; [|done].
  destruct (existsb _ _); [done|]. rewrite mutate_json by (by try apply Hm). simpl.
  apply mirrors_notify, mirrors_runs; [done|]. intros k Hl.
  rewrite update_entry_default, update_run_default.
  pose proof (mi_runs s Hm k Hl) as Hr. unfold runs in Hr. by rewrite Hr.
Qed.

Lemma mirrors_place io id f record s :
  mirrors s -> persisted io s = true ->
  mirrors (let '(s, _) := mutate io (fun d =>
      count_doc record id (set_d_runs (update_entry id f (d_runs d)) d)) s in
    notify_change (count_mem record id (set_w_runs (update_entry id f (w_runs s)) s))).
Proof.
  intros Hm Hio. rewrite mutate_json by (by try apply Hm). simpl. apply mirrors_notify.
  pose proof (mirrors_counted record id _ (mirrors_entry id f s Hm)) as Hc. revert Hc.
  unfold count_mem, count_doc. by destruct (counts (r_status record)).
Qed.

Lemma mutate_store_json {A} io (f : Document -> Document * A) s :
  w_index s = None -> persisted io s = true ->
  mutate_store io f s
  = (set_file (set_d_version WORKSPACE_CRON_STORE_VERSION (fst (f (w_file s)))) s,
     Some (snd (f (w_file s))), true).
Proof.
  unfold mutate_store, persisted. intros ->. destruct (io_ready io); [|done]. simpl.
  destruct (io_written io); [|done]. by destruct (f (w_file s)).
Qed.

Lemma mirrors_sweep status reason now s :
  mirrors s ->
  mirrors (set_w_runs (d_runs (end_runs status reason now (w_file s)))
    (set_file (set_d_version WORKSPACE_CRON_STORE_VERSION (end_runs status reason now (w_file s))) s)).
Proof. intros Hm. by apply (mirrors_runs s _ _ Hm). Qed.

Lemma mirrors_fail_orphans io reason now s :
  mirrors s -> persisted io s = true -> mirrors (fst (fail_orphan_running_runs io reason now s)).
Proof.
  intros Hm Hio. unfold fail_orphan_running_runs. destruct (negb _); [done|].
  rewrite mutate_store_json by (by try apply Hm). simpl.
  pose proof (mirrors_sweep Failed reason now s Hm) as Hs.
  unfold post_mutate_document. simpl. rewrite (mi_index s Hm). simpl.
  destruct (in_flight_runs (w_file s)); simpl; [done|by apply mirrors_notify].
Qed.

Lemma mirrors_terminate io cause now s :
  mirrors s -> persisted io s = true -> mirrors (fst (terminate_running_runs io cause now s)).
Proof.
  intros Hm Hio. unfold terminate_running_runs.
  rewrite mutate_store_json by (by try apply Hm). simpl.
  unfold post_mutate_document. simpl. rewrite (mi_index s Hm). simpl.
  by apply mirrors_sweep.
Qed.

Lemma mirrors_expire io now s :
  mirrors s -> persisted io s = true -> mirrors (fst (expire_lapsed_proposals io now s)).
Proof.
  intros Hm Hio. unfold expire_lapsed_proposals. destruct (negb _); [done|].
  rewrite mutate_store_json by (by try apply Hm). simpl.
  assert (Hs : mirrors (set_file (set_d_version WORKSPACE_CRON_STORE_VERSION
     (set_d_proposals ((fun p => if lapsed now p then set_proposal_state Expired p else p)
        <$> d_proposals (w_file s)) (w_file s))) s)).
  { destruct Hm as [Hi Hk Hsc Hn Ht Hr]. by split. }
  match goal with |- mirrors (match ?l with [] => _ | _ => _ end) => destruct l end;
    [done|by apply mirrors_notify].
Qed.

Lemma find_task_app k l1 l2 :
  find_task k (l1 ++ l2)
  = match find_task k l1 with Some t => Some t | None => find_task k l2 end.
Proof.
  induction l1 as [|t l1 IH]; [done|].
  change ((t :: l1) ++ l2)%list with (t :: (l1 ++ l2))%list.
  rewrite !find_task_cons, IH. by case_decide.
Qed.

(** What an edit keeps of the record. *)
Lemma edit_record_inv id edit now s edited :
  edit_record id edit now s = Ok edited ->
  exists t, w_tasks s !! id = Some t /\ t_id edited = t_id t /\ t_scope edited = t_scope t /\
    (forall ws, ed_workspace_id edit = Some ws -> ws = w_id s) /\
    exists schedule ideal z, edited_schedule edit t = Ok schedule /\
      check_edited (edited_task edit schedule t) now = Ok (ideal, z) /\
      edited = set_next_fire
        (if t_paused t then None
         else if occurrence_past_ends_at (edited_task edit schedule t) ideal z then None
         else Some (delivery (w_options s) (edited_task edit schedule t) z ideal))
        (edited_task edit schedule t).
Proof.
  unfold edit_record. intros He. apply bind_ok in He as (t & Ht & He).
  apply bind_ok in He as (u & Hws & He). apply bind_ok in He as (schedule & Hsch & He).
  apply bind_ok in He as ([ideal z] & Hc & He). simplify_eq.
  unfold get in Ht. destruct (w_tasks s !! id) as [t0|] eqn:Hl; simpl in Ht; simplify_eq.
  exists t. split_and!; try done.
  - intros ws Hed. rewrite Hed in Hws. by case_decide.
  - by exists schedule, ideal, z.
Qed.

Lemma mirrors_add io cron prompt recurring o now created_at id s :
  mirrors s -> written s (WAdd io cron prompt recurring o now created_at id) ->
  mirrors (fst (add io cron prompt recurring o now created_at id s)).
Proof.
  intros Hm (Hio & Hw & Hd). unfold add.
  match goal with |- context [match ?r with Ok _ => _ | Err _ => _ end] =>
    destruct r as [t|e] eqn:Ht end; [|done].
  apply bind_ok in Ht as (? & _ & Hp). apply prepare_task_inv in Hp as (Hid & Hp).
  rewrite mutate_json by (by try apply Hm). simpl. apply mirrors_notify.
  assert (Hscope : t_scope t = Workspace (w_id s)) by (by destruct_and?).
  destruct Hm as [Hi Hk Hsc Hn Htab Hr]. split; simpl.
  - done.
  - by apply keyed_insert.
  - intros k u Hu. apply lookup_insert_Some in Hu as [[_ <-]|[_ Hu]]; [|eauto].
    unfold task_belongs_to_workspace. by rewrite Hscope.
  - rewrite fmap_app. apply NoDup_app. split_and!; [by apply filter_ids_NoDup| |apply NoDup_singleton].
    intros k Hin Hk'. apply list_elem_of_fmap in Hin as (u & -> & Hu).
    apply list_elem_of_filter in Hu as [Hne _]. set_solver.
  - intros k. rewrite find_task_app, filter_find, Htab by done.
    destruct (decide (t_id t = k)) as [<-|Hne].
    + rewrite lookup_insert_eq.
      destruct (w_tasks s !! t_id t) as [u|] eqn:Hu; cbn [mbind option_bind].
      * rewrite decide_False; [rewrite find_task_cons; by rewrite decide_True|].
        pose proof (Hk _ _ Hu) as Huid. simpl in Huid. naive_solver.
      * rewrite find_task_cons. by rewrite decide_True.
    + rewrite lookup_insert_ne by done. destruct (w_tasks s !! k) as [u|] eqn:Hu; cbn [mbind option_bind].
      * rewrite decide_True; [done|]. pose proof (Hk _ _ Hu) as Huid. simpl in Huid. congruence.
      * rewrite find_task_cons. by rewrite decide_False.
  - intros k Hl. destruct (decide (t_id t = k)) as [<-|Hne].
    + unfold runs. simpl. rewrite Hid, Hw, Hd. done.
    + rewrite lookup_insert_ne in Hl by done. by apply Hr.
Qed.

Lemma mirrors_remove io id s :
  mirrors s -> persisted io s = true -> mirrors (fst (remove io id s)).
Proof.
  intros Hm Hio. unfold remove. destruct (w_tasks s !! id) eqn:Hid; [|done].
  rewrite mutate_json by (by try apply Hm). simpl. apply mirrors_notify.
  destruct Hm as [Hi Hk Hsc Hn Ht Hr]. split; simpl.
  - done.
  - by apply keyed_delete.
  - intros k u Hu. apply lookup_delete_Some in Hu as [_ Hu]. eauto.
  - by apply filter_ids_NoDup.
  - intros k. rewrite filter_find, Ht by done.
    destruct (decide (k = id)) as [->|Hne].
    + rewrite lookup_delete_eq, Hid. cbn [mbind option_bind].
      pose proof (Hk _ _ Hid) as Huid. simpl in Huid. by rewrite decide_False by naive_solver.
    + rewrite lookup_delete_ne by done. destruct (w_tasks s !! k) as [u|] eqn:Hu; [|done].
      cbn [mbind option_bind]. pose proof (Hk _ _ Hu) as Huid. simpl in Huid.
      by rewrite decide_True by congruence.
  - intros k Hl. assert (k <> id) by (intros ->; rewrite lookup_delete_eq in Hl; by destruct Hl).
    rewrite lookup_delete_ne in Hl by done. rewrite lookup_delete_ne by done. by apply Hr.
Qed.

Lemma mirrors_check_due io now s :
  mirrors s -> persisted io s = true -> mirrors (fst (check_due io now s)).
Proof.
  intros Hm Hio. unfold check_due. destruct (due_plans now s) as [|p0 ps0] eqn:Hp; [done|].
  rewrite <- Hp. clear p0 ps0 Hp. rewrite mutate_json by (by try apply Hm).
  set (s0 := set_file _ s).
  pose proof (apply_due_plans now s s0 (mi_keyed s Hm) eq_refl) as Ha.
  destruct (apply_plans _ s0) as [s' fires]. destruct Ha as (_ & Htab & Hruns & Hfile & Hidx & Hwid).
  destruct Hm as [Hi Hk Hsc Hn Ht Hr]. simpl.
  assert (Hent : forall k t', w_tasks s' !! k = Some t' ->
    exists t, w_tasks s !! k = Some t /\ t_id t' = t_id t /\ t_scope t' = t_scope t).
  { intros k t' Hl. rewrite Htab in Hl. destruct (w_tasks s !! k) as [t|]; [|done]. simpl in Hl.
    exists t. split; [done|]. destruct (ws_due now t); [|by simplify_eq].
    unfold ws_outcome in Hl. destruct (survives _ t); by simplify_eq. }
  split.
  - by rewrite Hidx.
  - intros k t' Hl. apply Hent in Hl as (t & Hl & He & _). rewrite He. exact (Hk _ _ Hl).
  - intros k t' Hl. apply Hent in Hl as (t & Hl & _ & He). unfold task_belongs_to_workspace.
    rewrite He. exact (Hsc _ _ Hl).
  - rewrite Hfile. simpl. apply filter_ids_NoDup. by rewrite advance_all_ids.
  - intros k. rewrite Hfile, Htab. unfold s0. cbn [w_file set_file d_tasks set_d_version].
    rewrite record_plans_find, find_due_plan, Ht; [|done| |done].
    + destruct (w_tasks s !! k) as [t|]; [|done]. simpl. by destruct (ws_due now t).
    + rewrite due_plans_ids by done. by apply due_tasks_ids.
  - intros k Hl. rewrite Hfile. unfold runs. rewrite Hruns. apply Hr.
    destruct Hl as [t' Hl]. apply Hent in Hl as (t & Hl & _). by eexists.
Qed.

Lemma mirrors_step s op : mirrors s -> written s op -> mirrors (ws_step s op).
Proof.
  intros Hm Hw. destruct op; simpl in Hw |- *; try done.
  - by apply mirrors_add.
  - by apply mirrors_remove.
  - unfold set_paused. destruct (get id s) as [t|] eqn:Ht; [|done].
    rewrite mutate_json by (by try apply Hm). simpl. apply mirrors_notify, mirrors_update; [done|done|].
    intros u Hu. exact (mi_scope s Hm _ _ Hu).
  - unfold update_at. destruct (edit_record id edit now s) as [edited|] eqn:He; [|done].
    rewrite mutate_json by (by try apply Hm). simpl. apply mirrors_notify.
    apply edit_record_inv in He as (t & Ht & Hid & Hsc & _).
    assert (Htid : t_id t = id) by (exact (mi_keyed s Hm _ _ Ht)).
    replace (<[t_id edited := edited]> (w_tasks s))
      with (alter (fun u => if decide (t_id u = t_id edited) then edited else u) (t_id edited) (w_tasks s)).
    + replace (update_task (t_id edited) (fun _ => edited) (d_tasks (w_file s)))
        with (update_task (t_id edited)
                (fun u => if decide (t_id u = t_id edited) then edited else u) (d_tasks (w_file s))).
      * apply mirrors_update; [done| |].
        -- intros u. by case_decide.
        -- intros u Hu. case_decide; [|exact (mi_scope s Hm _ _ Hu)].
           unfold task_belongs_to_workspace. rewrite Hsc. exact (mi_scope s Hm _ _ Ht).
      * generalize (d_tasks (w_file s)) as l. induction l as [|u l IH]; [done|].
        rewrite !update_task_cons, IH. by case_decide.
    + rewrite Hid, Htid. apply map_eq. intros k. destruct (decide (id = k)) as [<-|Hne].
      * rewrite lookup_alter_eq, lookup_insert_eq, Ht. simpl. by rewrite decide_True.
      * by rewrite lookup_alter_ne, lookup_insert_ne.
  - by apply mirrors_open.
  - by apply mirrors_drain.
  - unfold append_run. rewrite mutate_json by (by try apply Hm). simpl.
    by apply mirrors_notify, mirrors_entry.
  - by apply mirrors_place.
  - by apply mirrors_place.
  - unfold set_run_session_ref. rewrite mutate_json by (by try apply Hm). simpl.
    by apply mirrors_update_run.
  - unfold set_run_status. rewrite mutate_json by (by try apply Hm). simpl.
    by apply mirrors_update_run.
  - by apply mirrors_fail_orphans.
  - by apply mirrors_terminate.
  - by apply mirrors_expire.
  - unfold mark_proposal_receipt_delivered. rewrite mutate_json by (by try apply Hm). simpl.
    destruct Hm as [Hi Hk Hsc Hn Ht Hr]. by split.
  - by apply mirrors_check_due.
Qed.
End mirror.

(** ** Properties *)

Section properties.
Context `{Chrono} `{ChronoText}.

Lemma restored_tables_acc options : forall l tasks rs,
  NoDup (t_id <$> l) -> (forall t, t ∈ l -> task_belongs_to_workspace t = true) ->
  let '(tasks', rs') := foldl (fun '(tasks, runs) t =>
      if negb (task_belongs_to_workspace t) then (tasks, runs)
      else match restored_schedule options t with
           | Some next => (<[t_id t := set_next_fire next t]> tasks, runs)
           | None => (tasks, delete (t_id t) runs)
           end) (tasks, rs) l in
  (forall k, (tasks' : gmap string CronTask) !! k
     = match find_task k l with
       | Some t => match restored_schedule options t with
                   | Some next => Some (set_next_fire next t)
                   | None => tasks !! k
                   end
       | None => tasks !! k
       end) /\
  (forall k, (rs' : gmap string (list RunRecord)) !! k
     = match find_task k l with
       | Some t => match restored_schedule options t with
                   | Some _ => rs !! k
                   | None => None
                   end
       | None => rs !! k
       end).
Proof.
  induction l as [|t l IH]; intros tasks rs Hnd Hall; [done|]. cbn in Hnd.
  apply NoDup_cons in Hnd as [Ht Hnd]. cbn [foldl]. rewrite (Hall t) by set_solver. cbn [negb].
  assert (Hno : find_task (t_id t) l = None) by (by apply find_task_None).
  destruct (restored_schedule options t) as [next|] eqn:Hs.
  - specialize (IH (<[t_id t := set_next_fire next t]> tasks) rs Hnd ltac:(set_solver)).
    destruct (foldl _ _ l) as [tasks' rs']. destruct IH as [H1 H2].
    split; intros k; rewrite find_task_cons; destruct (decide (t_id t = k)) as [<-|Hne].
    + by rewrite H1, Hno, Hs, lookup_insert_eq.
    + by rewrite H1, lookup_insert_ne by done.
    + by rewrite H2, Hno, Hs.
    + apply H2.
  - specialize (IH tasks (delete (t_id t) rs) Hnd ltac:(set_solver)).
    destruct (foldl _ _ l) as [tasks' rs']. destruct IH as [H1 H2].
    split; intros k; rewrite find_task_cons; destruct (decide (t_id t = k)) as [<-|Hne].
    + by rewrite H1, Hno, Hs.
    + apply H1.
    + by rewrite H2, Hno, Hs, lookup_delete_eq.
    + by rewrite H2, lookup_delete_ne by done.
Qed.

Lemma mirrors_start ws o : mirrors (with_options ws new_document o).
Proof.
  split; simpl; try done. constructor.
Qed.

Lemma mirrors_run ops : forall s, mirrors s -> all_written s ops -> mirrors (ws_run ops s).
Proof.
  induction ops as [|op ops IH]; intros s Hm Hw; [done|]. destruct Hw as [Hop Hw].
  apply IH; [by apply mirrors_step|done].
Qed.

(** C31. A restart over the JSON document, as long as every write went through:
    whatever was done to a new manager, opening the document it left gives each
    task of the table with the same record and run history and a next fire
    computed from its cursor, and no other task.  A task that can no longer be
    scheduled is dropped, with its runs.  The document is held as a value: that
    its text is read back as it was written is taken for granted. *)
Theorem restart_keeps_table ops ws o o' id :
  let start := with_options ws new_document o in
  all_written start ops ->
  let s := ws_run ops start in
  let s' := with_options ws (w_file s) o' in
  w_tasks s' !! id = (t ← w_tasks s !! id;
                      (fun next => set_next_fire next t) <$> restored_schedule o' t) /\
  (is_Some (w_tasks s' !! id) -> runs id s' = runs id s).
Proof.
  intros start Hw s s'.
  assert (Hm : mirrors s) by (apply mirrors_run; [apply mirrors_start|done]).
  destruct Hm as [Hi Hk Hsc Hn Ht Hr].
  assert (Hb : forall t, t ∈ d_tasks (w_file s) -> task_belongs_to_workspace t = true).
  { intros t Hin. apply (Hsc (t_id t)). rewrite <- Ht. by apply find_task_unique. }
  pose proof (restored_tables_acc o' (d_tasks (w_file s)) ∅ (d_runs (w_file s)) Hn Hb) as Ha.
  unfold s', with_options, restored_tables. destruct (foldl _ _ _) as [tasks' rs'].
  destruct Ha as [H1 H2]. cbn [w_tasks].
  assert (Htab : tasks' !! id = (t ← w_tasks s !! id;
                      (fun next => set_next_fire next t) <$> restored_schedule o' t)).
  { rewrite H1, Ht. destruct (w_tasks s !! id) as [t|]; [|done]. simpl.
    by destruct (restored_schedule o' t). }
  split; [done|]. intros Hl. rewrite Htab in Hl.
  assert (Hls : is_Some (w_tasks s !! id)) by (destruct (w_tasks s !! id); [by eexists|by destruct Hl]).
  rewrite <- (Hr id Hls). unfold runs. cbn [w_runs]. rewrite H2, Ht.
  destruct (w_tasks s !! id) as [t|]; [|done]. simpl in Hl.
  destruct (restored_schedule o' t); [done|by destruct Hl].
Qed.

(** *** Editing *)

Lemma check_edited_inv t now ideal z :
  check_edited t now = Ok (ideal, z) ->
  (forall m, t_max_fires t = Some m -> t_recurring t = true /\ m <> 0) /\
  z = tz_or_local (t_timezone t) /\
  compute_schedule_next_fire (task_schedule t) now z = Ok ideal /\
  occurrence_past_ends_at t ideal z = false.
Proof.
  unfold check_edited. intros Hc.
  destruct (negb (t_recurring t) && bool_decide (is_Some (t_max_fires t))) eqn:H1; [done|].
  case_bool_decide as H2; [done|].
  apply bind_ok in Hc as (u & _ & Hc). apply bind_ok in Hc as (declared & Hd & Hc).
  apply bind_ok in Hc as (first & Hf & Hc).
  destruct (occurrence_past_ends_at t first (tz_resolve declared)) eqn:Hp; [done|].
  simplify_eq. assert (Hz : tz_or_local (t_timezone t) = tz_resolve declared)
    by (unfold tz_or_local; by rewrite Hd).
  rewrite Hz. split_and!; try done. intros m Hm. rewrite Hm in H1, H2.
  rewrite bool_decide_true in H1 by done. destruct (t_recurring t); [|done].
  split; [done|]. congruence.
Qed.

(** What an edit never touches: the identity of a task and its history. *)
Definition uneditable (t : CronTask) :=
  (t_id t, t_created_at t, t_last_fired t, t_fire_count t, t_recurring t, t_scope t, t_paused t).

(** Editing a task is all or nothing: an error leaves the manager as it was;
    a success changes only that entry, keeps its identity, its history and
    every field the edit does not name, passes the checks of a creation and
    schedules the first occurrence after [now] (none while paused). *)
Theorem update_at_outcome io id edit now s :
  keyed_table t_id (w_tasks s) ->
  let '(s', r) := update_at io id edit now s in
  match r with
  | Err _ => s' = s
  | Ok e =>
    exists t, w_tasks s !! id = Some t /\
    (forall k, w_tasks s' !! k = if decide (k = id) then Some e else w_tasks s !! k) /\
    w_runs s' = w_runs s /\
    uneditable e = uneditable t /\
    (ed_cron edit = None -> ed_interval edit = None -> task_schedule e = task_schedule t) /\
    (ed_timezone edit = None -> t_timezone e = t_timezone t) /\
    (ed_permission_mode edit = None -> t_permission_posture e = t_permission_posture t) /\
    (forall m, t_max_fires e = Some m -> t_recurring e = true /\ m <> 0) /\
    exists ideal, let z := tz_or_local (t_timezone e) in
      compute_schedule_next_fire (task_schedule e) now z = Ok ideal /\ now < ideal /\
      occurrence_past_ends_at e ideal z = false /\
      t_next_fire_at e = if t_paused e then None else Some (delivery (w_options s) e z ideal)
  end.
Proof.
  intros Hk. unfold update_at. destruct (edit_record id edit now s) as [e|err] eqn:He; [|done].
  apply edit_record_inv in He as (t & Ht & Hid & _ & _ & schedule & ideal & z & Hsch & Hc & He).
  pose proof (mutate_ok io (fun d => set_d_tasks
    (update_task (t_id e) (fun _ => e) (d_tasks d)) d) s) as Hok.
  pose proof (mutate_failed io (fun d => set_d_tasks
    (update_task (t_id e) (fun _ => e) (d_tasks d)) d) s) as Hfail.
  destruct (mutate io _ s) as [s1 ok] eqn:Hm. simpl in Hok, Hfail.
  apply mutate_frame in Hm as (Htab & Hruns & _).
  destruct ok; [|by apply Hfail]. simpl. rewrite Htab.
  apply check_edited_inv in Hc as (Hmax & -> & Hcomp & Hpast).
  assert (Htid : t_id t = id) by (exact (Hk _ _ Ht)).
  exists t. split_and!; try done; subst e; try done.
  - intros k. change (t_id (set_next_fire _ _)) with (t_id t). rewrite Htid.
    case_decide as Hd; [subst k; by rewrite lookup_insert_eq|by rewrite lookup_insert_ne].
  - intros Hc1 Hc2. unfold edited_schedule in Hsch. rewrite Hc1, Hc2 in Hsch. by simplify_eq.
  - intros Hz. simpl. by rewrite Hz.
  - intros Hp. simpl. by rewrite Hp.
  - exists ideal. cbv zeta. split_and!; [exact Hcomp| |exact Hpast|].
    + exact (compute_schedule_next_fire_later _ _ _ _ Hcomp).
    + cbn [t_next_fire_at set_next_fire]. rewrite Hpast. done.
Qed.

(** *** Pausing *)

Lemma persisted_mutate io io' f s : persisted io (fst (mutate io' f s)) = persisted io s.
Proof.
  unfold mutate, mutate_store, persisted. destruct (w_index s) eqn:Hi; [done|].
  destruct (io_ready io'); simpl; [|by rewrite Hi]. destruct (io_written io'); simpl; by rewrite Hi.
Qed.

Lemma set_paused_tasks io id paused now s t :
  w_tasks s !! id = Some t -> persisted io s = true ->
  let s' := fst (set_paused io id paused now s) in
  w_tasks s' = alter (set_pause paused
    (if paused then None else next_fire_after_edit (w_options s) t now)) id (w_tasks s) /\
  w_options s' = w_options s /\ (forall io', persisted io' s' = persisted io' s).
Proof.
  intros Ht Hio. unfold set_paused, get. rewrite Ht.
  set (f := fun d => set_d_tasks (update_task id (set_pause paused _) (d_tasks d)) d).
  pose proof (mutate_ok io f s) as Hok. pose proof (fun io' => persisted_mutate io' io f s) as Hp.
  destruct (mutate io f s) as [s1 ok] eqn:Hm. simpl in Hok, Hp. subst ok. rewrite Hio.
  apply mutate_frame in Hm as (Htab & _ & Hopt & _). simpl. rewrite Htab. by split_and!.
Qed.

(** A paused task is out of the scheduler's reach: no pass delivers it or
    moves its entry; resuming schedules the first occurrence after the moment
    of the resume, so what was missed in between is not caught up on. *)
Theorem pause_and_resume io id now s t :
  keyed_table t_id (w_tasks s) -> w_tasks s !! id = Some t -> persisted io s = true ->
  let s1 := fst (set_paused io id true now s) in
  w_tasks s1 !! id = Some (set_pause true None t) /\
  (forall io' now', let '(s2, fires) := check_due io' now' s1 in
     w_tasks s2 !! id = w_tasks s1 !! id /\ Forall (fun f => f_task_id f <> id) fires) /\
  (forall now', exists next,
     w_tasks (fst (set_paused io id false now' s1)) !! id = Some (set_pause false next t) /\
     (t_recurring t = true -> forall at_, next = Some at_ -> now' < at_)).
Proof.
  intros Hk Ht Hio. cbv zeta.
  destruct (set_paused_tasks io id true now s t Ht Hio) as (Htab & Hopt & Hper). cbv zeta in *.
  set (s1 := fst (set_paused io id true now s)) in *.
  assert (Hl : w_tasks s1 !! id = Some (set_pause true None t))
    by (rewrite Htab, lookup_alter_eq, Ht; done).
  assert (Hk1 : keyed_table t_id (w_tasks s1)) by (rewrite Htab; by apply keyed_alter).
  split_and!; [done| |].
  - intros io' now'. unfold check_due. destruct (due_plans now' s1) as [|p0 ps0] eqn:Hp; [done|].
    rewrite <- Hp. clear p0 ps0 Hp.
    destruct (mutate io' _ s1) as [s0 ok] eqn:Hm. apply mutate_frame in Hm as (Ht0 & _).
    destruct ok; [|by rewrite Ht0].
    pose proof (apply_due_plans now' s1 s0 Hk1 Ht0) as Ha.
    destruct (apply_plans _ s0) as [s2 fires]. destruct Ha as (-> & Htab2 & _).
    rewrite Htab2, Hl. split; [done|]. apply Forall_forall. intros f Hf Hfid.
    apply list_elem_of_fmap in Hf as (u & -> & Hu). apply elem_of_due in Hu as [Hu Hd]; [|done].
    change (f_task_id _) with (t_id u) in Hfid. rewrite Hfid, Hl in Hu. by simplify_eq.
  - intros now'. destruct (set_paused_tasks io id false now' s1 _ Hl) as (Htab2 & _);
      [by rewrite Hper|].
    cbv zeta in Htab2. rewrite Htab2, lookup_alter_eq, Hl. eexists. split; [done|].
    intros Hrec at_ Hat. unfold next_fire_after_edit in Hat.
    destruct (compute_schedule_next_fire _ _ _) as [ideal|] eqn:Hc; [|done].
    destruct (occurrence_past_ends_at _ _ _); [done|]. simplify_eq.
    apply compute_schedule_next_fire_later in Hc.
    pose proof (delivery_recurring (w_options s1) (set_pause true None t)
      (tz_or_local (t_timezone (set_pause true None t))) ideal Hrec). lia.
Qed.

(** *** The index as the durable medium *)

(** The index holds no row of the workspace, and opening it finds no task. *)
Definition forgotten (s : Manager) (index : CronIndex WorkspaceBody) : Prop :=
  list_workspace (w_id s) index = [] /\
  forall io, w_tasks (open_with_index (w_id s) io (w_file s) index (w_options s)) = ∅.

(** C40. With the index attached, recording a run when the rows cannot be listed
    but can be written empties the workspace's durable table: every task stays in
    memory and no row stays behind, so the next start has none.  (Adding a task
    in that case leaves the row of that one task.) *)
Theorem failed_listing_wipes_rows io id record s index :
  w_index s = Some index -> rows_keyed index -> io_ready io = false -> io_written io = true ->
  let s' := append_run io id record s in
  w_tasks s' = w_tasks s /\
  exists index', w_index s' = Some index' /\ forgotten s index'.
Proof.
  intros Hi Hk Hr Hw. cbv zeta. unfold append_run, mutate, mutate_store. rewrite Hi.
  unfold read_index. rewrite Hr. simpl. split; [done|]. unfold persist_document. rewrite Hw.
  unfold document_rows. simpl.
  set (index' := set_rows (others (w_id s) (ix_rows index)) index).
  assert (Hrep : replace_workspace (w_id s) [] index = Some index') by done.
  assert (Hlist : list_workspace (w_id s) index' = []).
  { rewrite (replace_lists _ _ _ _ (w_id s) Hk (Forall_nil_2 _) Hrep), decide_True by done. done. }
  exists index'. split; [done|]. split; [done|]. intros io'. unfold open_with_index, read_index.
  rewrite Hlist. by destruct (io_ready io').
Qed.

(** Rows written by [persist_document] carry the task of their id. *)
Definition bodies_match (index : CronIndex WorkspaceBody) : Prop :=
  rows_keyed index /\
  map_Forall (fun id row => t_id (b_task (row_body row)) = id) (ix_rows index).

Lemma append_keeps_absent io id other record s index :
  w_index s = Some index -> bodies_match index -> ix_rows index !! id = None ->
  exists index', w_index (append_run io other record s) = Some index' /\
    ix_rows index' !! id = None.
Proof.
  intros Hi [Hk Hb] Hn. unfold append_run, mutate, mutate_store. rewrite Hi. simpl.
  eexists. split; [done|]. unfold persist_document. destruct (io_written io); [|done].
  set (d := read_index io index (w_id s)).
  destruct (replace_workspace (w_id s) _ index) as [index'|] eqn:Hr; [|done]. simpl.
  unfold replace_workspace in Hr. destruct (insert_rows _ _) as [table|] eqn:Hins; [|done].
  simplify_eq/=. apply insert_rows_spec in Hins as (Hnd & _ & ->).
  destruct (foldl _ _ _ !! id) as [row|] eqn:Hl; [exfalso|done].
  apply insert_all_lookup in Hl as [[Hin Hid]|[_ Ho]]; [| |done].
  - unfold document_rows in Hin. apply list_elem_of_fmap in Hin as (t & -> & Ht).
    simpl in Hid. cbn [d_tasks set_d_runs] in Ht. unfold d, read_index in Ht.
    destruct (io_ready io); [|by apply not_elem_of_nil in Ht]. simpl in Ht.
    apply list_elem_of_fmap in Ht as (row & -> & Hrow).
    apply elem_of_list_workspace in Hrow as [Hrow _]; [|done].
    pose proof (Hb _ _ Hrow) as Hbody. simpl in Hbody, Hid. congruence.
  - apply others_lookup in Ho as [Ho _]. congruence.
Qed.

(** A task added while the index could not be written stays volatile: the
    creation reports success and the task is scheduled from memory, but later
    operations, their writes through, never store it. *)
Theorem lost_add_never_heals io cron prompt recurring o now created_at id s index s1 minted :
  w_index s = Some index -> bodies_match index -> ix_rows index !! id = None ->
  io_written io = false ->
  add io cron prompt recurring o now created_at id s = (s1, Ok minted) ->
  is_Some (w_tasks s1 !! id) /\
  forall io' other record, exists index',
    w_index (append_run io' other record s1) = Some index' /\
    ix_rows index' !! id = None /\
    is_Some (w_tasks (append_run io' other record s1) !! id).
Proof.
  intros Hi Hb Hn Hw Ha. unfold add in Ha.
  match type of Ha with context [match ?r with Ok _ => _ | Err _ => _ end] =>
    destruct r as [t|e] eqn:Ht end; [|done].
  apply bind_ok in Ht as (? & _ & Hp). apply prepare_task_inv in Hp as (Hid & _).
  unfold mutate, mutate_store in Ha. rewrite Hi in Ha. simpl in Ha. unfold persist_document in Ha.
  rewrite Hw in Ha. injection Ha as <- <-.
  set (s1 := notify_change _).
  assert (Hin : is_Some (w_tasks s1 !! id)) by (simpl; rewrite Hid, lookup_insert_eq; by eexists).
  split; [done|]. intros io' other record.
  destruct (append_keeps_absent io' id other record s1 index eq_refl Hb Hn) as (index' & Hi' & Hn').
  exists index'. split_and!; [done|done|]. unfold append_run.
  destruct (mutate _ _ s1) as [s2 ok] eqn:Hm. apply mutate_frame in Hm as (Ht2 & _).
  simpl. by rewrite Ht2.
Qed.
End properties.

(** ** Witnesses *)

Lemma sample_ws_keyed records : keyed_table t_id (w_tasks (sample_workspace records)).
Proof. by apply map_Forall_singleton. Qed.

Lemma ws_check_due_pass_witness :
  let s := sample_workspace [] in
  let now := sample_instant + 35 * MINUTE in
  f_coalesced_count <$> snd (check_due io_ok now s) = [3] /\
  let '(s', fires) := check_due io_ok now s in
  if persisted io_ok s then
    fires = (fun t => plan_delivery (ws_plan_fire (w_options s) t now) t)
              <$> filter (fun t => ws_due now t = true) (list_tasks s) /\
    (forall id, w_tasks s' !! id
       = t ← w_tasks s !! id;
         if ws_due now t then ws_outcome (ws_plan_fire (w_options s) t now) t else Some t) /\
    (forall id t t', w_tasks s !! id = Some t -> w_tasks s' !! id = Some t' ->
       t_fire_count t' = t_fire_count t) /\
    w_runs s' = w_runs s
  else fires = [] /\ s' = s.
Proof.
  intros s now. split; [vm_compute; reflexivity|].
  pose proof (ws_check_due_pass io_ok now s (sample_ws_keyed [])) as Hp. exact Hp.
Defined.

(** A task is created, fires, and its run is opened and settled. *)
Definition sample_day : list WsOp :=
  [WAdd io_ok "*/10 * * * *" "tick" true default_create_options sample_instant sample_instant "cron-a";
   WCheckDue io_ok (sample_instant + 35 * MINUTE);
   WOpen io_ok "cron-a" false (sample_run "run-1" Running);
   WReplace io_ok "cron-a" (sample_run "run-1" Succeeded)].

Lemma restart_keeps_table_witness :
  let start := with_options "ws-1" new_document sample_options in
  let s := ws_run sample_day start in
  let s' := with_options "ws-1" (w_file s) sample_options in
  (t_fire_count <$> w_tasks s' !! "cron-a", length (runs "cron-a" s')) = (Some 1, 1%nat) /\
  w_tasks s' !! "cron-a" = (t ← w_tasks s !! "cron-a";
                      (fun next => set_next_fire next t) <$> restored_schedule sample_options t) /\
  (is_Some (w_tasks s' !! "cron-a") -> runs "cron-a" s' = runs "cron-a" s).
Proof.
  intros start s s'. split; [vm_compute; reflexivity|].
  assert (Hw : all_written start sample_day) by (repeat split; vm_compute; reflexivity).
  pose proof (restart_keeps_table sample_day "ws-1" sample_options sample_options "cron-a" Hw) as Hp.
  exact Hp.
Defined.

Definition sample_edit (cron : string) : WorkspaceTaskEdit :=
  mkEdit (Some (Some "renamed")) None (Some cron) None None None None None None None (Some "ws-1").

Lemma update_at_outcome_witness :
  let s := sample_workspace [] in
  let now := sample_instant + 3 * MINUTE in
  let '(s', r) := update_at io_ok "cron-a" (sample_edit "*/15 * * * *") now s in
  match r with
  | Err _ => s' = s
  | Ok e =>
    exists t, w_tasks s !! "cron-a" = Some t /\
    (forall k, w_tasks s' !! k = if decide (k = "cron-a") then Some e else w_tasks s !! k) /\
    w_runs s' = w_runs s /\
    uneditable e = uneditable t /\
    (ed_cron (sample_edit "*/15 * * * *") = None -> ed_interval (sample_edit "*/15 * * * *") = None ->
       task_schedule e = task_schedule t) /\
    (ed_timezone (sample_edit "*/15 * * * *") = None -> t_timezone e = t_timezone t) /\
    (ed_permission_mode (sample_edit "*/15 * * * *") = None ->
       t_permission_posture e = t_permission_posture t) /\
    (forall m, t_max_fires e = Some m -> t_recurring e = true /\ m <> 0) /\
    exists ideal, let z := tz_or_local (t_timezone e) in
      compute_schedule_next_fire (task_schedule e) now z = Ok ideal /\ now < ideal /\
      occurrence_past_ends_at e ideal z = false /\
      t_next_fire_at e = if t_paused e then None else Some (delivery (w_options s) e z ideal)
  end.
Proof.
  intros s now.
  pose proof (update_at_outcome io_ok "cron-a" (sample_edit "*/15 * * * *") now s
                (sample_ws_keyed [])) as Hp. exact Hp.
Defined.

Example sample_update :
  result_ok (snd (update_at io_ok "cron-a" (sample_edit "*/15 * * * *") (sample_instant + 3 * MINUTE)
                    (sample_workspace [])))
    ≫= t_next_fire_at = Some (sample_instant + 15 * MINUTE).
Proof. vm_compute. reflexivity. Qed.

Lemma pause_and_resume_witness :
  let s := sample_workspace [] in
  let t := sample_ws_task "cron-a" true Queue in
  let s1 := fst (set_paused io_ok "cron-a" true sample_instant s) in
  w_tasks s1 !! "cron-a" = Some (set_pause true None t) /\
  (forall io' now', let '(s2, fires) := check_due io' now' s1 in
     w_tasks s2 !! "cron-a" = w_tasks s1 !! "cron-a" /\
     Forall (fun f => f_task_id f <> "cron-a") fires) /\
  (forall now', exists next,
     w_tasks (fst (set_paused io_ok "cron-a" false now' s1)) !! "cron-a"
     = Some (set_pause false next t) /\
     (t_recurring t = true -> forall at_, next = Some at_ -> now' < at_)).
Proof.
  intros s t.
  pose proof (pause_and_resume io_ok "cron-a" sample_instant s t (sample_ws_keyed []) eq_refl eq_refl)
    as Hp. exact Hp.
Defined.

(** The same workspace over an index that holds its one row. *)
Definition sample_ws_index : CronIndex WorkspaceBody :=
  upsert_task (mkRow "cron-a" "ws-1" None false "" (mkBody (sample_ws_task "cron-a" true Queue) []))
    (mkIndex ∅ true).

Definition sample_indexed : Manager := open_with_index "ws-1" io_ok new_document sample_ws_index sample_options.

Lemma failed_listing_wipes_rows_witness :
  let io := mkIo false true "" in
  let s' := append_run io "cron-a" (sample_run "run-1" Skipped) sample_indexed in
  size (w_tasks sample_indexed) = 1%nat /\
  w_tasks s' = w_tasks sample_indexed /\
  exists index', w_index s' = Some index' /\ forgotten sample_indexed index'.
Proof.
  intros io s'. split; [vm_compute; reflexivity|].
  assert (Hk : rows_keyed sample_ws_index) by (by apply map_Forall_singleton).
  exact (failed_listing_wipes_rows io "cron-a" (sample_run "run-1" Skipped) sample_indexed sample_ws_index
           eq_refl Hk eq_refl eq_refl).
Defined.

Lemma lost_add_never_heals_witness :
  exists s1 minted,
    add (mkIo true false "disk full") "*/10 * * * *" "tick" true default_create_options sample_instant
      sample_instant "cron-b" sample_indexed = (s1, Ok minted) /\
    is_Some (w_tasks s1 !! "cron-b") /\
    forall io' other record, exists index',
      w_index (append_run io' other record s1) = Some index' /\
      ix_rows index' !! "cron-b" = None /\
      is_Some (w_tasks (append_run io' other record s1) !! "cron-b").
Proof.
  set (io := mkIo true false "disk full").
  destruct (add io "*/10 * * * *" "tick" true default_create_options sample_instant
    sample_instant "cron-b" sample_indexed) as [s1 [minted|e]] eqn:Ha; [|vm_compute in Ha; discriminate Ha].
  exists s1, minted. split; [reflexivity|].
  assert (Hb : bodies_match sample_ws_index) by (split; by apply map_Forall_singleton).
  exact (lost_add_never_heals io _ _ _ _ _ _ "cron-b" sample_indexed sample_ws_index s1 minted
           eq_refl Hb eq_refl eq_refl Ha).
Defined.
