(* ===== verification/CronSpawner.v ===== *)
(** * The run spawner: [mirri-embedded/src/embedded_server/cron_run_spawner.rs]

    The pipeline that turns one workspace fire into a run, as its steps on the
    manager of [CronWorkspace.v].  The execution session and the turn are the
    environment: whether the work directory lies inside the workspace, the
    session created and the turn's result are arguments. *)
From stdpp Require Import gmap strings.
From S2P Require Import Prelude RustStd F64 Json CronIndex CronExpr Chrono CivilCalendar.
From S2P Require Import CronNextFire CronJitter CronTask CronPlan CronWire CronManager.
From S2P Require Import CronWorkspace CronRuns CronDurable.
#[local] Open Scope string_scope.
#[local] Open Scope Z_scope.

(** The mode a run's agent is given. *)
Definition runtime_mode (t : CronTask) : PermissionMode :=
  match t_permission_mode t with
  | Some declared => declared
  | None =>
    match t_permission_posture t with
    | Some posture => from_posture_record posture
    | None => Manual
    end
  end.

(** Whether the run refuses its asks instead of parking them. *)
Definition reject_asks (t : CronTask) : bool :=
  match t_permission_mode t with
  | Some _ => false
  | None =>
    match t_permission_posture t with
    | Some AskDeny | Some ReadOnly | None => true
    | Some _ => false
    end
  end.

Definition model_alias (t : CronTask) (default_model : option string) : string :=
  let own := model ← t_model t; if decide (trim model = "") then None else Some model in
  default "" (match own with Some model => Some model | None => default_model end).

(** [InjectedStatus] *)
Inductive InjectedStatus : Type := Injected | TurnFailed (reason : string) | Dropped.

(** The terminal bundle of a turn: status, summary and reason. *)
Definition turn_outcome (t : CronTask) (status : InjectedStatus) (summary : option string)
  : RunStatus * option string * option string :=
  match status with
  | Injected =>
    match summary with
    | Some summary => (Succeeded, Some summary, None)
    | None => (Failed, None, Some "回合结束但没有任何助手产出")
    end
  | TurnFailed reason => (Failed, None, Some ("回合失败：" +:+ reason))
  | Dropped => (Failed, None, (fun model => "模型解析失败：" +:+ model) <$> t_model t)
  end.

Section spawner.
Context `{Chrono} `{ChronoText}.

(** The launch record of a fire. *)
Record Launch : Type := mkLaunch {
  l_trigger : RunTrigger;
  l_scheduled_at : option Z;
  l_run_id : string;          (** the id minted for it *)
  l_started_at : Z
}.

Definition opener_of (l : Launch) : RunRecord :=
  mkRun (l_run_id l) Running (l_started_at l) None None None None None [] (Some (l_trigger l))
    (l_scheduled_at l).

Definition declined_skip (now : Z) (opener : RunRecord) : RunRecord :=
  mkRun (r_run_id opener) Skipped (r_started_at opener) (Some now) (Some 0) (r_usage opener)
    (r_session_ref opener) (Some "上次运行中（并发姿态：跳过）") (r_asked_ops opener)
    (r_trigger opener) (r_scheduled_at opener).

(** Step 1 of [spawn_inner]: the task and its concurrency posture. *)
Definition spawn_open (io : Io) (task_id : string) (queued_run_id : option string) (l : Launch)
    (now : Z) (s : Manager) : Manager * option (CronTask * string) :=
  match get task_id s with
  | None => (s, None)
  | Some task =>
    match queued_run_id with
    | Some run_id => (s, Some (task, run_id))
    | None =>
      let queue := bool_decide (t_concurrency task = Queue) in
      match try_open_run io task_id queue (opener_of l) s with
      | (s, Opened run_id) => (s, Some (task, run_id))
      | (s, Queued _) => (s, None)
      | (s, Declined skip) => (record_run io task_id (declined_skip now skip) s, None)
      end
    end
  end.

Definition failed_start (run_id reason : string) (now : Z) (trigger : option RunTrigger)
    (scheduled_at : option Z) : RunRecord :=
  mkRun run_id Failed now (Some now) (Some 0) None None (Some reason) [] trigger scheduled_at.

(** [spawn_inner] up to the turn: [inside] is the verdict on the work directory,
    [session] the execution session created. *)
Definition spawn_inner (io : Io) (inside : string -> bool) (session : option string)
    (task_id : string) (queued_run_id : option string) (l : Launch) (now : Z) (s : Manager)
  : Manager * option (CronTask * string * string) :=
  match spawn_open io task_id queued_run_id l now s with
  | (s, None) => (s, None)
  | (s, Some (task, run_id)) =>
    let workdir := dir ← t_workdir task; if decide (trim dir = "") then None else Some dir in
    match workdir with
    | Some dir =>
      if inside dir then
        match session with
        | Some session_id =>
          (set_run_session_ref io task_id run_id session_id s, Some (task, run_id, session_id))
        | None =>
          (record_run io task_id
             (failed_start run_id "执行会话创建失败" now (Some (l_trigger l)) (l_scheduled_at l)) s,
           None)
        end
      else
        (record_run io task_id
           (failed_start run_id ("工作目录越界（必须位于工作区内）：" +:+ dir) now None None) s,
         None)
    | None =>
      match session with
      | Some session_id =>
        (set_run_session_ref io task_id run_id session_id s, Some (task, run_id, session_id))
      | None =>
        (record_run io task_id
           (failed_start run_id "执行会话创建失败" now (Some (l_trigger l)) (l_scheduled_at l)) s,
         None)
      end
    end
  end.

(** The record a turn ends with; the summary rides the usage object. *)
Definition terminal_record (t : CronTask) (run_id session_id : string) (l : Launch)
    (injected : InjectedStatus) (summary : option string) (asked_ops : list json)
    (duration_ms ended_at : Z) : RunRecord :=
  let '(status, summary, skip_reason) := turn_outcome t injected summary in
  mkRun run_id status (ended_at - Z.max duration_ms 1 * MILLI) (Some ended_at) (Some duration_ms)
    ((fun text => JObj [("summary", JStr text)]) <$> summary)
    (Some session_id) skip_reason asked_ops (Some (l_trigger l)) (l_scheduled_at l).

(** The finale: the terminal record replaces the opener, then a queue task
    drains its slot once. *)
Definition finish (io : Io) (t : CronTask) (record : RunRecord) (now : Z) (s : Manager)
  : Manager * option (string * string) :=
  let s := replace_run io (t_id t) record s in
  if decide (t_concurrency t = Queue) then drain_queued_run io (t_id t) now s else (s, None).
End spawner.

(** ** Properties *)

Section properties.
Context `{Chrono} `{ChronoText}.

(** The last delivery of a workspace task never runs: a pass that fires a
    one-shot (or a task whose budget, end date or staleness makes this its
    finale) has taken the task out of the table, and the spawner, which looks
    the task up there, returns without opening a run. *)
Theorem final_fire_never_runs io now s id t :
  keyed_table t_id (w_tasks s) -> persisted io s = true ->
  w_tasks s !! id = Some t -> ws_due now t = true ->
  survives (ws_plan_fire (w_options s) t now) t = false ->
  let '(s', fires) := check_due io now s in
  (exists f, f ∈ fires /\ f_task_id f = id) /\
  forall io' inside session l now', spawn_inner io' inside session id None l now' s' = (s', None).
Proof.
  intros Hk Hio Ht Hd Hsv. unfold check_due.
  destruct (due_plans now s) as [|p0 ps0] eqn:Hp.
  { pose proof (find_due_plan now s id Hk) as Hf. rewrite Hp, Ht in Hf. simpl in Hf.
    by rewrite Hd in Hf. }
  rewrite <- Hp. clear p0 ps0 Hp.
  pose proof (mutate_ok io (record_plans (due_plans now s)) s) as Hok. rewrite Hio in Hok.
  destruct (mutate io _ s) as [s0 ok] eqn:Hm. simpl in Hok. subst ok.
  apply mutate_frame in Hm as (Ht0 & _).
  pose proof (apply_due_plans now s s0 Hk Ht0) as Ha.
  destruct (apply_plans _ s0) as [s' fires]. destruct Ha as (-> & Htab & _). split.
  - exists (plan_delivery (ws_plan_fire (w_options s) t now) t).
    pose proof (Hk _ _ Ht) as Hid. simpl in Hid. split; [|done].
    apply (list_elem_of_fmap_2 (fun t => plan_delivery (ws_plan_fire (w_options s) t now) t)).
    apply elem_of_due; [done|]. by rewrite Hid.
  - intros io' inside session l now'. unfold spawn_inner, spawn_open, get.
    rewrite Htab, Ht. simpl. rewrite Hd. unfold ws_outcome. by rewrite Hsv.
Qed.

Lemma runs_update_entry id f s s' :
  w_runs s' = update_entry id f (w_runs s) -> runs id s' = f (runs id s).
Proof. intros Hr. unfold runs at 1. rewrite Hr, update_entry_default. by rewrite decide_True. Qed.

Lemma open_idle io id queue opener s :
  existsb run_in_flight (runs id s) = false ->
  let '(s', outcome) := try_open_run io id queue opener s in
  outcome = Opened (r_run_id opener) /\ runs id s' = push_bounded opener (runs id s) /\
  w_tasks s' = w_tasks s.
Proof.
  intros Hf. pose proof (open_runs io id queue opener s) as Hr. rewrite Hf in Hr.
  destruct (try_open_run io id queue opener s) as [s' outcome] eqn:Ho. simpl in Hr.
  unfold try_open_run in Ho. rewrite Hf in Ho.
  destruct (mutate _ _ s) as [s1 ok] eqn:Hm. apply mutate_frame in Hm as (Ht & _).
  injection Ho as <- <-. split_and!; [done|by apply runs_update_entry|done].
Qed.

Lemma push_bounded_app r1 r2 l :
  exists l', push_bounded r2 (push_bounded r1 l) = (l' ++ [r1; r2])%list.
Proof.
  rewrite (push_bounded_eq r2), (push_bounded_eq r1). unfold MAX_RUN_RECORDS_PER_TASK.
  set (k := (length l + 1 - 50)%nat). rewrite (drop_app_le l [r1] k) by (unfold k; lia).
  rewrite <- app_assoc. simpl.
  assert (Hlen : length (drop k l ++ [r1])%list = (length l - k + 1)%nat)
    by (by rewrite length_app, length_drop).
  exists (drop (length (drop k l ++ [r1])%list + 1 - 50) (drop k l)).
  rewrite drop_app_le; [done|]. rewrite Hlen, length_drop. unfold k. lia.
Qed.

Lemma pushed_split r l :
  exists l', push_bounded r l = (l' ++ [r])%list /\ forall q, q ∈ l' -> q ∈ l.
Proof.
  rewrite push_bounded_eq. unfold MAX_RUN_RECORDS_PER_TASK. rewrite drop_app_le by lia.
  eexists. split; [done|]. intros q Hq. rewrite <- (take_drop (length l + 1 - 50) l).
  apply elem_of_app. by right.
Qed.

(** A run that cannot start wedges its task: when the execution session
    cannot be created, the failure is appended as a second record of the run
    and the opener stays in flight, so every later fire of the task is turned
    away as if a run were still going. *)
Theorem failed_start_wedges_task io inside id t l now s :
  get id s = Some t -> t_workdir t = None -> existsb run_in_flight (runs id s) = false ->
  let '(s', run) := spawn_inner io inside None id None l now s in
  run = None /\
  (exists l', runs id s' = (l' ++ [opener_of l;
     failed_start (l_run_id l) "执行会话创建失败" now (Some (l_trigger l)) (l_scheduled_at l)])%list) /\
  forall io' opener, snd (try_open_run io' id false opener s') = Declined opener.
Proof.
  intros Hg Hw Hf. unfold spawn_inner, spawn_open. rewrite Hg.
  pose proof (open_idle io id (bool_decide (t_concurrency t = Queue)) (opener_of l) s Hf) as Ho.
  destruct (try_open_run _ _ _ _ s) as [s1 outcome]. destruct Ho as (-> & Hr & _).
  rewrite Hw. cbn [mbind option_bind]. set (failed := failed_start _ _ _ _ _).
  pose proof (record_runs io id failed s1) as Hrec. apply runs_update_entry in Hrec.
  rewrite Hr in Hrec. destruct (push_bounded_app (opener_of l) failed (runs id s)) as [l' Hl'].
  rewrite Hl' in Hrec. split_and!; [done|by exists l'|].
  intros io' opener. unfold try_open_run. rewrite Hrec, existsb_app.
  change (existsb run_in_flight [opener_of l; failed]) with true. by rewrite orb_true_r.
Qed.

Lemma runs_update_run id p f s s' :
  w_runs s' = update_run id p f (w_runs s) ->
  runs id s' = default (runs id s) (update_first p f (runs id s)).
Proof. intros Hr. unfold runs at 1. rewrite Hr, update_run_default. by rewrite decide_True. Qed.

(** The newest record, found by its run id among records without it. *)
Lemma update_last_run (f : RunRecord -> RunRecord) r l :
  r_run_id r ∉ (r_run_id <$> l) ->
  update_first (has_run_id (r_run_id r)) f (l ++ [r])%list = Some (l ++ [f r])%list.
Proof.
  intros Hn. apply update_first_Some. exists l, r, []. split_and!; [done| |by apply bool_decide_eq_true|done].
  apply Forall_forall. intros q Hq. apply bool_decide_eq_false. intros Heq. apply Hn. rewrite <- Heq.
  by apply list_elem_of_fmap_2.
Qed.

Lemma turn_outcome_counts t injected summary : counts (turn_outcome t injected summary).1.1 = true.
Proof. by destruct injected; [destruct summary|..]. Qed.

Lemma replace_tasks io id record s :
  counts (r_status record) = true ->
  w_tasks (replace_run io id record s) = alter count_fire id (w_tasks s).
Proof.
  intros Hc. unfold replace_run. destruct (mutate _ _ s) as [s1 ok] eqn:Hm.
  apply mutate_frame in Hm as (Ht & _). simpl. unfold count_mem. rewrite Hc. simpl. by rewrite Ht.
Qed.

Lemma drain_tasks io id now s : w_tasks (fst (drain_queued_run io id now s)) = w_tasks s.
Proof.
  unfold drain_queued_run. destruct (List.find _ _); [|done]. destruct (existsb _ _); [done|].
  destruct (mutate _ _ s) as [s1 ok] eqn:Hm. by apply mutate_frame in Hm as (Ht & _).
Qed.

Lemma session_ref_tasks io id run_id ref_ s :
  w_tasks (set_run_session_ref io id run_id ref_ s) = w_tasks s.
Proof.
  unfold set_run_session_ref. destruct (mutate _ _ s) as [s1 ok] eqn:Hm.
  by apply mutate_frame in Hm as (Ht & _).
Qed.

(** A run that starts occupies its task until its terminal record: the
    opener is in flight with its session, the terminal record takes its place
    (one run, one record), the budget is charged exactly one fire, and the
    task is free again unless its queued fire drained into the next run. *)
Theorem run_lifecycle io inside session id t l now s :
  get id s = Some t -> t_id t = id -> t_workdir t = None ->
  existsb run_in_flight (runs id s) = false -> l_run_id l ∉ (r_run_id <$> runs id s) ->
  let '(s1, run) := spawn_inner io inside (Some session) id None l now s in
  run = Some (t, l_run_id l, session) /\
  last (runs id s1) = Some (set_session_ref session (opener_of l)) /\
  forall io' injected summary asked_ops duration ended now',
    let record := terminal_record t (l_run_id l) session l injected summary asked_ops duration ended in
    let '(s2, drained) := finish io' t record now' s1 in
    t_fire_count <$> get id s2 = Some (wrap_u32 (t_fire_count t + 1)) /\
    (drained = None ->
       existsb run_in_flight (runs id s2) = false /\ last (runs id s2) = Some record /\
       length (runs id s2) = length (runs id s1)).
Proof.
  intros Hg Hid Hw Hf Hfresh. unfold spawn_inner, spawn_open. rewrite Hg.
  pose proof (open_idle io id (bool_decide (t_concurrency t = Queue)) (opener_of l) s Hf) as Ho.
  destruct (try_open_run _ _ _ _ s) as [s0 outcome]. destruct Ho as (-> & Hr & Ht).
  rewrite Hw. cbn [mbind option_bind].
  destruct (pushed_split (opener_of l) (runs id s)) as (l0 & Hl0 & Hsub). rewrite Hl0 in Hr.
  assert (Hn0 : l_run_id l ∉ (r_run_id <$> l0)).
  { intros Hin. apply Hfresh. apply list_elem_of_fmap in Hin as (q & -> & Hq).
    by apply list_elem_of_fmap_2, Hsub. }
  set (s1 := set_run_session_ref _ _ _ _ s0).
  assert (H1 : runs id s1 = (l0 ++ [set_session_ref session (opener_of l)])%list).
  { pose proof (session_ref_runs io id (r_run_id (opener_of l)) session s0) as Hs.
    apply runs_update_run in Hs. unfold s1. rewrite Hs, Hr.
    by rewrite (update_last_run _ (opener_of l)). }
  split_and!; [done|rewrite H1; apply last_snoc|].
  intros io' injected summary asked_ops duration ended now'. cbv zeta.
  set (record := terminal_record _ _ _ _ _ _ _ _ _).
  assert (Hrid : r_run_id record = l_run_id l /\ counts (r_status record) = true).
  { unfold record, terminal_record. pose proof (turn_outcome_counts t injected summary) as Hc.
    by destruct (turn_outcome t injected summary) as [[st su] sk]. }
  destruct Hrid as [Hrid Hcount].
  set (s2 := replace_run io' (t_id t) record s1).
  assert (H2 : runs id s2 = (l0 ++ [record])%list).
  { pose proof (replace_runs io' id record s1) as Hs. apply runs_update_entry in Hs.
    unfold s2. rewrite Hid, Hs, H1. unfold settle. rewrite Hrid.
    by rewrite (update_last_run _ (set_session_ref session (opener_of l))). }
  assert (Hc2 : t_fire_count <$> get id s2 = Some (wrap_u32 (t_fire_count t + 1))).
  { unfold get, s2. rewrite replace_tasks, Hid, lookup_alter_eq by done.
    unfold s1. rewrite session_ref_tasks, Ht. unfold get in Hg. by rewrite Hg. }
  assert (Hidle : existsb run_in_flight (runs id s2) = false).
  { rewrite H2, existsb_app. rewrite existsb_false in Hf. apply orb_false_iff. split.
    - apply existsb_false, Forall_forall. intros q Hq. rewrite Forall_forall in Hf. auto.
    - simpl. unfold run_in_flight. by destruct (r_status record). }
  assert (Hdone : existsb run_in_flight (runs id s2) = false /\ last (runs id s2) = Some record /\
    length (runs id s2) = length (runs id s1)).
  { split_and!; [done|rewrite H2; apply last_snoc|]. rewrite H2, H1, !length_app. done. }
  unfold finish. fold s2. case_decide; [|by split].
  pose proof (drain_tasks io' (t_id t) now' s2) as Hdt.
  destruct (drain_queued_run io' (t_id t) now' s2) as [s3 drained] eqn:Hd. simpl in Hdt.
  split; [unfold get in *; by rewrite Hdt|]. intros ->.
  unfold drain_queued_run in Hd.
  destruct (List.find is_queued_slot (runs (t_id t) s2)) as [slot|]; [|by injection Hd as <-].
  destruct (existsb run_in_flight (runs (t_id t) s2)); [by injection Hd as <-|].
  by destruct (mutate _ _ s2).
Qed.
End properties.

(** ** Witnesses *)

Definition sample_one_shot : Manager :=
  let t := sample_ws_task "cron-a" false Skip in
  mkWorkspace "ws-1" (mkDocument 1 [t] ∅ []) None {["cron-a" := t]} ∅ sample_options 0.

Lemma final_fire_never_runs_witness :
  let now := sample_instant + 35 * MINUTE in
  let '(s', fires) := check_due io_ok now sample_one_shot in
  (exists f, f ∈ fires /\ f_task_id f = "cron-a") /\
  forall io' inside session l now', spawn_inner io' inside session "cron-a" None l now' s' = (s', None).
Proof.
  intros now.
  assert (Hk : keyed_table t_id (w_tasks sample_one_shot)) by (by apply map_Forall_singleton).
  assert (Hs : survives (ws_plan_fire (w_options sample_one_shot) (sample_ws_task "cron-a" false Skip) now)
                 (sample_ws_task "cron-a" false Skip) = false) by (vm_compute; reflexivity).
  pose proof (final_fire_never_runs io_ok now sample_one_shot "cron-a"
                (sample_ws_task "cron-a" false Skip) Hk eq_refl eq_refl eq_refl Hs) as Hp.
  exact Hp.
Defined.

Definition sample_launch : Launch := mkLaunch Scheduled None "run-7" sample_instant.

Lemma failed_start_wedges_task_witness :
  let '(s', run) := spawn_inner io_ok (fun _ => true) None "cron-a" None sample_launch sample_instant
                      (sample_workspace []) in
  run = None /\
  (exists l', runs "cron-a" s' = (l' ++ [opener_of sample_launch;
     failed_start (l_run_id sample_launch) "执行会话创建失败" sample_instant
       (Some (l_trigger sample_launch)) (l_scheduled_at sample_launch)])%list) /\
  forall io' opener, snd (try_open_run io' "cron-a" false opener s') = Declined opener.
Proof.
  pose proof (failed_start_wedges_task io_ok (fun _ => true) "cron-a" (sample_ws_task "cron-a" true Queue)
                sample_launch sample_instant (sample_workspace []) eq_refl eq_refl eq_refl) as Hp.
  exact Hp.
Defined.

Lemma run_lifecycle_witness :
  let t := sample_ws_task "cron-a" true Queue in
  let l := sample_launch in
  let '(s1, run) := spawn_inner io_ok (fun _ => true) (Some "session-9") "cron-a" None l sample_instant
                      (sample_workspace []) in
  run = Some (t, l_run_id l, "session-9") /\
  last (runs "cron-a" s1) = Some (set_session_ref "session-9" (opener_of l)) /\
  forall io' injected summary asked_ops duration ended now',
    let record := terminal_record t (l_run_id l) "session-9" l injected summary asked_ops duration ended in
    let '(s2, drained) := finish io' t record now' s1 in
    t_fire_count <$> get "cron-a" s2 = Some (wrap_u32 (t_fire_count t + 1)) /\
    (drained = None ->
       existsb run_in_flight (runs "cron-a" s2) = false /\ last (runs "cron-a" s2) = Some record /\
       length (runs "cron-a" s2) = length (runs "cron-a" s1)).
Proof.
  intros t l.
  assert (Hf : l_run_id l ∉ (r_run_id <$> runs "cron-a" (sample_workspace []))) by (apply not_elem_of_nil).
  pose proof (run_lifecycle io_ok (fun _ => true) "session-9" "cron-a" t l sample_instant
                (sample_workspace []) eq_refl eq_refl eq_refl eq_refl Hf) as Hp.
  exact Hp.
Defined.
