(* ===== verification/NetClass.v ===== *)
(** * Network address grading: [mirri-core/src/tools/net_class.rs]

    The grade of an address, of a set of resolved addresses, the segment names
    shown to the user and the cache of resolved names.  The predicates and the
    [Display] of [std::net] addresses are written out. *)
From stdpp Require Import gmap strings.
From S2P Require Import Prelude RustStd.
#[local] Open Scope string_scope.
#[local] Open Scope Z_scope.

(** ** [std::net::IpAddr] *)

(** [Ipv4Addr] by octets, [Ipv6Addr] by 16-bit segments. *)
Inductive IpAddr : Type :=
| V4 (a b c d : Z)
| V6 (segments : list Z).

#[export] Instance IpAddr_eq_dec : EqDecision IpAddr.
Proof. solve_decision. Defined.

Definition is_octet (v : Z) : bool := (0 <=? v) && (v <? 256).

(** The addresses the Rust type has. *)
Definition ip_valid (ip : IpAddr) : bool :=
  match ip with
  | V4 a b c d => is_octet a && is_octet b && is_octet c && is_octet d
  | V6 segments =>
    bool_decide (length segments = 8%nat) && forallb (fun s => (0 <=? s) && (s <? 65536)) segments
  end.

(** [Ipv6Addr::to_ipv4_mapped] *)
Definition to_ipv4_mapped (segments : list Z) : option IpAddr :=
  match segments with
  | [0; 0; 0; 0; 0; 65535; ab; cd] => Some (V4 (ab / 256) (ab mod 256) (cd / 256) (cd mod 256))
  | _ => None
  end.

Definition v4_is_loopback (a : Z) : bool := a =? 127.
Definition v4_is_private (a b : Z) : bool :=
  (a =? 10) || ((a =? 172) && (16 <=? b) && (b <=? 31)) || ((a =? 192) && (b =? 168)).
Definition v4_is_link_local (a b : Z) : bool := (a =? 169) && (b =? 254).
Definition v6_is_loopback (segments : list Z) : bool :=
  bool_decide (segments = [0; 0; 0; 0; 0; 0; 0; 1]).

Definition hex_digit (v : Z) : string :=
  String (ascii_of_N (Z.to_N (if v <? 10 then 48 + v else 87 + v))) "".
Fixpoint hex_string_go (fuel : nat) (v : Z) : string :=
  match fuel with
  | O => ""
  | S fuel => (if v <? 16 then "" else hex_string_go fuel (v / 16)) +:+ hex_digit (v mod 16)
  end.
(** [format!("{:x}", segment)] *)
Definition hex_string (v : Z) : string := hex_string_go 4 v.

Definition join (sep : string) (l : list string) : string := String.concat sep l.

(** The first longest run of zero segments from an index on: start and length. *)
Fixpoint zero_run (i : nat) (cur best : nat * nat) (segments : list Z) : nat * nat :=
  match segments with
  | [] => best
  | s :: rest =>
    if s =? 0 then
      let cur := if bool_decide (cur.2 = 0%nat) then (i, 1%nat) else (cur.1, S cur.2) in
      zero_run (S i) cur (if bool_decide (best.2 < cur.2)%nat then cur else best) rest
    else zero_run (S i) (0%nat, 0%nat) best rest
  end.

Definition v4_to_string (a b c d : Z) : string :=
  join "." [pretty a; pretty b; pretty c; pretty d].

(** [Display] of [Ipv6Addr]: mapped addresses in dotted form, the first longest
    run of at least two zero segments as [::]. *)
Definition ip_to_string (ip : IpAddr) : string :=
  match ip with
  | V4 a b c d => v4_to_string a b c d
  | V6 segments =>
    match to_ipv4_mapped segments with
    | Some (V4 a b c d) => "::ffff:" +:+ v4_to_string a b c d
    | _ =>
      let '(start, len) := zero_run 0 (0%nat, 0%nat) (0%nat, 0%nat) segments in
      if bool_decide (1 < len)%nat then
        join ":" (hex_string <$> take start segments) +:+ "::"
          +:+ join ":" (hex_string <$> drop (start + len) segments)
      else join ":" (hex_string <$> segments)
    end
  end.

(** [IpAddr::from_str]: a number of at most [max_digits] digits; each reader
    gives what it read and the rest. *)
Fixpoint read_digits (radix : Z) (room : nat) (acc : Z) (count : nat) (s : string)
  : option (Z * nat * string) :=
  match s with
  | "" => Some (acc, count, "")
  | String c rest =>
    match hex_value c with
    | Some digit =>
      if digit <? radix then
        match room with
        | O => None
        | S room => read_digits radix room (acc * radix + digit) (S count) rest
        end
      else Some (acc, count, s)
    | None => Some (acc, count, s)
    end
  end.

Definition read_number (radix : Z) (max_digits : nat) (allow_zero_prefix : bool) (limit : Z)
    (s : string) : option (Z * string) :=
  '(v, count, rest) ← read_digits radix max_digits 0 0 s;
  if bool_decide (count = 0%nat) then None
  else if negb allow_zero_prefix && String.prefix "0" s && bool_decide (1 < count)%nat then None
  else if v <? limit then Some (v, rest) else None.

Definition read_octet (s : string) : option (Z * string) := read_number 10 3 false 256 s.

Definition read_ipv4 (s : string) : option (Z * Z * Z * Z * string) :=
  '(a, s) ← read_octet s; s ← strip_prefix "." s;
  '(b, s) ← read_octet s; s ← strip_prefix "." s;
  '(c, s) ← read_octet s; s ← strip_prefix "." s;
  '(d, s) ← read_octet s;
  Some (a, b, c, d, s).

(** The separator before the [i]-th group. *)
Definition read_separator (i : nat) (s : string) : option string :=
  if bool_decide (i = 0%nat) then Some s else strip_prefix ":" s.

(** [read_groups]: the groups read, whether the last two are an IPv4 address. *)
Fixpoint read_groups (room i : nat) (groups : list Z) (s : string) : list Z * bool * string :=
  match room with
  | O => (groups, false, s)
  | S room =>
    let ipv4 := if bool_decide (room = 0%nat) then None else read_separator i s ≫= read_ipv4 in
    match ipv4 with
    | Some (a, b, c, d, s) => ((groups ++ [a * 256 + b; c * 256 + d])%list, true, s)
    | None =>
      match read_separator i s ≫= read_number 16 4 true 65536 with
      | Some (group, s) => read_groups room (S i) (groups ++ [group])%list s
      | None => (groups, false, s)
      end
    end
  end.

Definition read_ipv6 (s : string) : option (list Z * string) :=
  let '(head, head_ipv4, s) := read_groups 8 0 [] s in
  if bool_decide (length head = 8%nat) then Some (head, s)
  else if head_ipv4 then None
  else
    s ← strip_prefix "::" s;
    let '(tail, _, s) := read_groups (8 - (length head + 1)) 0 [] s in
    Some ((head ++ replicate (8 - length head - length tail) 0 ++ tail)%list, s).

Definition parse_ip (s : string) : option IpAddr :=
  match read_ipv4 s with
  | Some (a, b, c, d, "") => Some (V4 a b c d)
  | Some _ => None
  | None =>
    match read_ipv6 s with
    | Some (segments, "") => Some (V6 segments)
    | _ => None
    end
  end.

Example parse_ip_examples :
  parse_ip "10.0.0.1" = Some (V4 10 0 0 1) /\ parse_ip "10.0.0.01" = None /\
  parse_ip "256.0.0.1" = None /\ parse_ip "::1" = Some (V6 [0; 0; 0; 0; 0; 0; 0; 1]) /\
  parse_ip "fd00:ec2::254" = Some (V6 [0xfd00; 0xec2; 0; 0; 0; 0; 0; 0x254]) /\
  parse_ip "::ffff:169.254.169.254" = Some (V6 [0; 0; 0; 0; 0; 0xffff; 0xa9fe; 0xa9fe]) /\
  parse_ip "1:2:3:4:5:6:7:8" = Some (V6 [1; 2; 3; 4; 5; 6; 7; 8]) /\
  parse_ip "1:2:3:4:5:6:7::8" = None /\ parse_ip "localhost" = None /\ parse_ip "::" = Some (V6 (replicate 8 0)).
Proof. vm_compute. done. Qed.

(** ** Grades *)

Inductive NetClass : Type := Public | Askable | Metadata.
#[export] Instance NetClass_eq_dec : EqDecision NetClass.
Proof. solve_decision. Defined.

Definition strictest (a b : NetClass) : NetClass :=
  match a, b with
  | Metadata, _ | _, Metadata => Metadata
  | Askable, _ | _, Askable => Askable
  | Public, Public => Public
  end.

Definition normalize_mapped (ip : IpAddr) : IpAddr :=
  match ip with
  | V6 segments => default ip (to_ipv4_mapped segments)
  | V4 _ _ _ _ => ip
  end.

Definition is_cgnat_v4 (a b : Z) : bool := (a =? 100) && (64 <=? b) && (b <=? 127).
Definition is_ula_v6 (segments : list Z) : bool :=
  Z.land (default 0 (head segments)) 0xfe00 =? 0xfc00.
Definition is_link_local_v6 (segments : list Z) : bool :=
  Z.land (default 0 (head segments)) 0xffc0 =? 0xfe80.

Definition METADATA_V6 : list Z := [0xfd00; 0x0ec2; 0; 0; 0; 0; 0; 0x254].

Definition segment_name_v4 (a b c d : Z) : string :=
  if v4_is_loopback a then "loopback"
  else if v4_is_private a b then "RFC1918"
  else if bool_decide ([a; b; c; d] = [169; 254; 169; 254]) then "cloud metadata"
  else if v4_is_link_local a b then "link-local"
  else if is_cgnat_v4 a b then "CGNAT"
  else if a =? 0 then "unspecified"
  else "public".

Definition segment_name_v6 (segments : list Z) : string :=
  if v6_is_loopback segments then "loopback"
  else if bool_decide (segments = METADATA_V6) then "cloud metadata"
  else if is_ula_v6 segments then "IPv6 ULA"
  else if is_link_local_v6 segments then "IPv6 link-local"
  else "public".

Definition segment_name (ip : IpAddr) : string :=
  match normalize_mapped ip with
  | V4 a b c d => segment_name_v4 a b c d
  | V6 segments => segment_name_v6 segments
  end.

Definition classify_v4 (a b c d : Z) : NetClass :=
  if bool_decide ([a; b; c; d] = [169; 254; 169; 254]) then Metadata
  else if v4_is_loopback a || v4_is_private a b || v4_is_link_local a b || is_cgnat_v4 a b || (a =? 0)
  then Askable
  else Public.

Definition classify_v6 (segments : list Z) : NetClass :=
  if bool_decide (segments = METADATA_V6) then Metadata
  else if v6_is_loopback segments || is_link_local_v6 segments || is_ula_v6 segments then Askable
  else Public.

Definition classify_ip (ip : IpAddr) : NetClass :=
  match normalize_mapped ip with
  | V4 a b c d => classify_v4 a b c d
  | V6 segments => classify_v6 segments
  end.

Definition strictest_of (addrs : list IpAddr) : NetClass :=
  foldl strictest Public (classify_ip <$> addrs).

Definition strip_ipv6_brackets (host : string) : string :=
  let host := trim host in
  match strip_prefix "[" host ≫= strip_suffix "]" with
  | Some inner => inner
  | None => host
  end.

Section hosts.
(** [str::to_lowercase], and the host of the [url] crate's parser. *)
Variables (to_lowercase : string -> string) (url_host : string -> option string).

Definition host_of_url (url : string) : option string :=
  host ← url_host url; Some (to_lowercase (strip_ipv6_brackets host)).

Definition fetch_host_facet (host : string) : string :=
  "FetchURL(host:" +:+ to_lowercase host +:+ ")".

(** [classify_host_literal] *)
Definition classify_host_literal (host : string) : option NetClass :=
  let host := strip_ipv6_brackets host in
  match parse_ip host with
  | Some ip => Some (classify_ip ip)
  | None =>
    let lowered := to_lowercase host in
    if bool_decide (lowered = "localhost") || ends_with ".localhost" lowered
    then Some Askable else None
  end.
End hosts.

(** ** The cache of resolved names *)

Definition DNS_CACHE_TTL : Z := 30 * 10 ^ 9.
Definition DNS_CACHE_CAPACITY : nat := 256.

(** [DnsCache]: the entries with the instant each was stored at. *)
Notation DnsCache := (gmap string (Z * (NetClass * list IpAddr))).

Section cache.
(** [str::to_lowercase], the Unicode mapping *)
Variable to_lowercase : string -> string.

Definition dns_cache_get (host : string) (now : Z) (cache : DnsCache)
  : option (NetClass * list IpAddr) :=
  '(stored_at, value) ← cache !! to_lowercase host;
  if now - stored_at <=? DNS_CACHE_TTL then Some value else None.

Definition dns_cache_put (host : string) (value : NetClass * list IpAddr) (now : Z)
    (cache : DnsCache) : DnsCache :=
  let entries := if bool_decide (DNS_CACHE_CAPACITY <= size cache)%nat then ∅ else cache in
  <[to_lowercase host := (now, value)]> entries.

(** [resolve_and_classify]: [lookup] is the system resolver. *)
Definition resolve_and_classify (lookup : string -> option (list IpAddr)) (host : string) (now : Z)
    (cache : DnsCache) : DnsCache * option (NetClass * list IpAddr) :=
  match dns_cache_get host now cache with
  | Some cached => (cache, Some cached)
  | None =>
    match lookup host with
    | None | Some [] => (cache, None)
    | Some addrs =>
      let result := (strictest_of addrs, addrs) in
      (dns_cache_put host result now cache, Some result)
    end
  end.
End cache.

Example grade_mapped_metadata :
  classify_ip (V6 [0; 0; 0; 0; 0; 65535; 0xa9fe; 0xa9fe]) = Metadata /\
  ip_to_string (V6 [0; 0; 0; 0; 0; 65535; 0xa9fe; 0xa9fe]) = "::ffff:169.254.169.254" /\
  ip_to_string (V6 METADATA_V6) = "fd00:ec2::254" /\
  ip_to_string (V6 [0; 0; 0; 0; 0; 0; 0; 0]) = "::".
Proof. vm_compute. done. Qed.

(** The unspecified IPv6 address, which a connection takes for the local host,
    is graded public, unlike its IPv4 counterpart. *)
Example unspecified_v6_public :
  classify_ip (V6 [0; 0; 0; 0; 0; 0; 0; 0]) = Public /\ classify_ip (V4 0 0 0 0) = Askable.
Proof. split; reflexivity. Qed.

(** ** The grade as a list of address blocks *)

(** An address as a 128-bit number, IPv4 embedded as [::ffff:0:0/96]. *)
Definition v4_number (a b c d : Z) : Z := ((a * 256 + b) * 256 + c) * 256 + d.
Definition v6_number (segments : list Z) : Z := foldl (fun n s => n * 65536 + s) 0 segments.
Definition address (ip : IpAddr) : Z :=
  match ip with
  | V4 a b c d => 0xffff * 2 ^ 32 + v4_number a b c d
  | V6 segments => v6_number segments
  end.

(** A block: its base address and its prefix length. *)
Definition in_block (n : Z) (block : Z * Z) : bool :=
  n / 2 ^ (128 - block.2) =? block.1 / 2 ^ (128 - block.2).
Definition v4_block (a b c d len : Z) : Z * Z := (address (V4 a b c d), 96 + len).
Definition v6_block (segments : list Z) (len : Z) : Z * Z := (v6_number segments, len).

Definition METADATA_ADDRESSES : list Z := [address (V4 169 254 169 254); v6_number METADATA_V6].
Definition ASKABLE_BLOCKS : list (Z * Z) :=
  [v4_block 127 0 0 0 8; v4_block 10 0 0 0 8; v4_block 172 16 0 0 12; v4_block 192 168 0 0 16;
   v4_block 169 254 0 0 16; v4_block 100 64 0 0 10; v4_block 0 0 0 0 8;
   v6_block [0; 0; 0; 0; 0; 0; 0; 1] 128; v6_block [0xfe80; 0; 0; 0; 0; 0; 0; 0] 10;
   v6_block [0xfc00; 0; 0; 0; 0; 0; 0; 0] 7].

Definition grade (n : Z) : NetClass :=
  if bool_decide (n ∈ METADATA_ADDRESSES) then Metadata
  else if existsb (in_block n) ASKABLE_BLOCKS then Askable
  else Public.

(** A decidable property checked on [n] consecutive integers. *)
Fixpoint check_from (p : Z -> bool) (n : nat) (a : Z) : bool :=
  match n with O => true | S n => p a && check_from p n (a + 1) end.

Lemma check_from_true p n a v :
  check_from p n a = true -> a <= v < a + Z.of_nat n -> p v = true.
Proof.
  revert a. induction n as [|n IH]; intros a Hc Hv; [lia|].
  cbn [check_from] in Hc. apply andb_true_iff in Hc as [Ha Hc].
  destruct (decide (v = a)) as [->|]; [done|]. apply (IH _ Hc). lia.
Qed.

Definition masks_prefix (s : Z) : bool :=
  (Z.land s 0xfe00 =? s / 512 * 512) && (Z.land s 0xffc0 =? s / 64 * 64).

(** What the two segment masks leave, checked on every segment value. *)
Lemma mask_prefix s :
  0 <= s < 65536 -> Z.land s 0xfe00 = s / 512 * 512 /\ Z.land s 0xffc0 = s / 64 * 64.
Proof.
  intros Hs. assert (Hc : check_from masks_prefix (Z.to_nat 65536) 0 = true)
    by (vm_compute; reflexivity).
  apply (check_from_true _ _ _ s) in Hc; [|lia].
  unfold masks_prefix in Hc. by rewrite andb_true_iff, !Z.eqb_eq in Hc.
Qed.

Lemma in_v4_block a b c d a' b' c' d' len :
  0 <= len <= 32 ->
  in_block (address (V4 a b c d)) (v4_block a' b' c' d' len)
  = (v4_number a b c d / 2 ^ (32 - len) =? v4_number a' b' c' d' / 2 ^ (32 - len)).
Proof.
  intros Hl. unfold in_block, v4_block, address. cbn [fst snd].
  replace (128 - (96 + len)) with (32 - len) by lia.
  replace (2 ^ 32) with (2 ^ len * 2 ^ (32 - len)) by (rewrite <- Z.pow_add_r by lia; f_equal; lia).
  rewrite !Z.mul_assoc, !Z.div_add_l by (apply Z.pow_nonzero; lia).
  apply eq_true_iff_eq. rewrite !Z.eqb_eq. lia.
Qed.

(** A block of another family holds no IPv4 address: it starts above them, or is
    the one address below. *)
Lemma v4_number_range a b c d :
  ip_valid (V4 a b c d) = true ->
  (0 <= a < 256 /\ 0 <= b < 256 /\ 0 <= c < 256 /\ 0 <= d < 256) /\
  0 <= v4_number a b c d < 2 ^ 32.
Proof.
  unfold ip_valid, is_octet, v4_number. rewrite !andb_true_iff, !Z.leb_le, !Z.ltb_lt. lia.
Qed.

Lemma v4_grade a b c d :
  ip_valid (V4 a b c d) = true -> classify_v4 a b c d = grade (address (V4 a b c d)).
Proof.
  intros Hv. apply v4_number_range in Hv as [Hr Hn].
  unfold classify_v4, grade, v4_is_loopback, v4_is_private, v4_is_link_local, is_cgnat_v4.
  assert (Hmeta : bool_decide ([a; b; c; d] = [169; 254; 169; 254])
                  = bool_decide (address (V4 a b c d) ∈ METADATA_ADDRESSES)).
  { apply bool_decide_ext. unfold METADATA_ADDRESSES. rewrite !elem_of_cons, elem_of_nil.
    split; [intros [= -> -> -> ->]; by left|].
    intros [Hm|[Hm|[]]].
    - unfold address, v4_number in Hm. repeat f_equal; lia.
    - exfalso. change (v6_number METADATA_V6) with (0xfd000ec2000000000000000000000254) in Hm.
      unfold address in Hm. lia. }
  rewrite Hmeta. destruct (decide (address (V4 a b c d) ∈ METADATA_ADDRESSES)) as [Hin|Hin];
    [by rewrite !bool_decide_true by done|rewrite !bool_decide_false by done; clear Hin].
  set (n := v4_number a b c d) in *.
  assert (Hb : existsb (in_block (address (V4 a b c d))) ASKABLE_BLOCKS =
    (n / 2 ^ 24 =? 127) || ((n / 2 ^ 24 =? 10) || ((n / 2 ^ 20 =? 172 * 16 + 1) ||
    ((n / 2 ^ 16 =? 192 * 256 + 168) || ((n / 2 ^ 16 =? 169 * 256 + 254) ||
    ((n / 2 ^ 22 =? 100 * 4 + 1) || (n / 2 ^ 24 =? 0))))))).
  { unfold ASKABLE_BLOCKS. cbn [existsb]. rewrite !in_v4_block by lia. fold n.
    assert (Hout : in_block (address (V4 a b c d)) (v6_block [0; 0; 0; 0; 0; 0; 0; 1] 128)
      || (in_block (address (V4 a b c d)) (v6_block [0xfe80; 0; 0; 0; 0; 0; 0; 0] 10)
      || (in_block (address (V4 a b c d)) (v6_block [0xfc00; 0; 0; 0; 0; 0; 0; 0] 7) || false)) = false).
    { rewrite !orb_false_iff. unfold in_block, v6_block, address. fold n. cbn [fst snd].
      change (v6_number [0; 0; 0; 0; 0; 0; 0; 1]) with 1.
      change (v6_number [0xfe80; 0; 0; 0; 0; 0; 0; 0]) with (0xfe80 * 2 ^ 112).
      change (v6_number [0xfc00; 0; 0; 0; 0; 0; 0; 0]) with (0xfc00 * 2 ^ 112).
      rewrite !Z.eqb_neq. split_and!; [|rewrite Z.div_small by lia; done..|done].
      rewrite !Z.div_1_r. lia. }
    rewrite Hout, orb_false_r. reflexivity. }
  rewrite Hb. unfold n, v4_number. clear Hmeta Hb.
  match goal with |- (if ?x then _ else _) = (if ?y then _ else _) => replace y with x; [done|] end.
  apply eq_true_iff_eq. rewrite !orb_true_iff, !andb_true_iff, !Z.eqb_eq, !Z.leb_le.
  change (2 ^ 24) with 16777216. change (2 ^ 20) with 1048576. change (2 ^ 16) with 65536.
  change (2 ^ 22) with 4194304. clear Hn n.
  Z.div_mod_to_equations. lia.
Qed.

(** A number in an IPv4 block lies under [::ffff:0:0/96]. *)
Lemma in_v4_block_mapped n a b c d len :
  ip_valid (V4 a b c d) = true -> 0 <= len <= 32 ->
  in_block n (v4_block a b c d len) = true -> n / 2 ^ 32 = 0xffff.
Proof.
  intros Hv Hl. apply v4_number_range in Hv as [_ Hn]. unfold in_block, v4_block, address.
  cbn [fst snd]. replace (128 - (96 + len)) with (32 - len) by lia. rewrite Z.eqb_eq. intros He.
  assert (Hd : forall m, m / 2 ^ 32 = m / 2 ^ (32 - len) / 2 ^ len).
  { intros m. assert (0 < 2 ^ (32 - len)) by lia. assert (0 < 2 ^ len) by lia.
    rewrite Z.div_div, <- Z.pow_add_r by lia. do 2 f_equal. lia. }
  rewrite Hd, He, <- Hd. symmetry. apply (Z.div_unique_pos _ _ _ (v4_number a b c d)); lia.
Qed.

Lemma eight_segments segments :
  ip_valid (V6 segments) = true ->
  exists a b c d e f g h, segments = [a; b; c; d; e; f; g; h] /\
    Forall (fun s => 0 <= s < 65536) segments.
Proof.
  unfold ip_valid. rewrite andb_true_iff, bool_decide_eq_true, forallb_forall. intros [Hl Hs].
  do 8 (destruct segments as [|? segments]; [done|]). destruct segments; [|done].
  eexists _, _, _, _, _, _, _, _. split; [done|]. apply Forall_forall. intros s Hin.
  apply list_elem_of_In, Hs in Hin. lia.
Qed.

Lemma mapped_number segments ip :
  ip_valid (V6 segments) = true -> to_ipv4_mapped segments = Some ip ->
  exists a b c d, ip = V4 a b c d /\ ip_valid ip = true /\ address ip = v6_number segments.
Proof.
  intros Hv Hm. apply eight_segments in Hv as (a & b & c & d & e & f & g & h & -> & Hs).
  assert (Hz : a = 0 /\ b = 0 /\ c = 0 /\ d = 0 /\ e = 0 /\ f = 65535 /\
    ip = V4 (g / 256) (g mod 256) (h / 256) (h mod 256)).
  { unfold to_ipv4_mapped in Hm. repeat case_match; simplify_eq; done. }
  destruct Hz as (-> & -> & -> & -> & -> & -> & ->).
  rewrite !Forall_cons in Hs. destruct Hs as (_ & _ & _ & _ & _ & _ & Hg & Hh & _).
  eexists _, _, _, _. split; [done|]. split.
  - unfold ip_valid, is_octet. rewrite !andb_true_iff, !Z.leb_le, !Z.ltb_lt.
    Z.div_mod_to_equations. lia.
  - unfold address, v4_number, v6_number. cbn [foldl]. Z.div_mod_to_equations. lia.
Qed.

Lemma unmapped_number segments :
  ip_valid (V6 segments) = true -> to_ipv4_mapped segments = None ->
  v6_number segments / 2 ^ 32 <> 0xffff.
Proof.
  intros Hv Hm He. apply eight_segments in Hv as (a & b & c & d & e & f & g & h & -> & Hs).
  rewrite !Forall_cons in Hs. unfold v6_number in He. cbn [foldl] in He.
  assert (Hq : (((((a * 65536 + b) * 65536 + c) * 65536 + d) * 65536 + e) * 65536 + f) = 0xffff).
  { rewrite <- He. apply (Z.div_unique_pos _ _ _ (g * 65536 + h)); lia. }
  assert (a = 0 /\ b = 0 /\ c = 0 /\ d = 0 /\ e = 0 /\ f = 65535)
    as (-> & -> & -> & -> & -> & ->) by lia.
  done.
Qed.

Lemma v6_grade segments :
  ip_valid (V6 segments) = true -> to_ipv4_mapped segments = None ->
  classify_v6 segments = grade (v6_number segments).
Proof.
  intros Hv Hm. pose proof (unmapped_number _ Hv Hm) as Hu.
  apply eight_segments in Hv as (a & b & c & d & e & f & g & h & -> & Hs).
  rewrite !Forall_cons in Hs. unfold classify_v6, grade. set (n := v6_number _) in *.
  assert (Hn : n = a * 2 ^ 112 + (((((((b * 65536 + c) * 65536 + d) * 65536 + e) * 65536 + f)
                                     * 65536 + g) * 65536) + h)).
  { unfold n, v6_number. cbn [foldl]. lia. }
  assert (Hmeta : [a; b; c; d; e; f; g; h] = METADATA_V6 <-> n ∈ METADATA_ADDRESSES).
  { unfold METADATA_ADDRESSES. rewrite !elem_of_cons, elem_of_nil. split.
    - intros He. right. left. unfold n. by rewrite He.
    - intros [He|[He|[]]].
      + exfalso. apply Hu. rewrite He. reflexivity.
      + change (v6_number METADATA_V6) with 0xfd000ec2000000000000000000000254 in He.
        unfold METADATA_V6. repeat f_equal; lia. }
  rewrite (bool_decide_ext _ _ Hmeta).
  destruct (decide (n ∈ METADATA_ADDRESSES)) as [Hin|Hin];
    [by rewrite !bool_decide_true by done|rewrite !bool_decide_false by done; clear Hin].
  assert (Hv4 : forall a' b' c' d' len, ip_valid (V4 a' b' c' d') = true -> 0 <= len <= 32 ->
    in_block n (v4_block a' b' c' d' len) = false).
  { intros. apply not_true_iff_false. intros Hb. by apply Hu, (in_v4_block_mapped _ _ _ _ _ _ H H0). }
  unfold ASKABLE_BLOCKS. cbn [existsb]. rewrite !Hv4 by (done || lia). clear Hv4 Hmeta Hu. cbn [orb].
  unfold is_link_local_v6, is_ula_v6. 
  change (default 0 (head [a; b; c; d; e; f; g; h])) with a.
  destruct (mask_prefix a) as [-> ->]; [lia|].
  match goal with |- (if ?x then _ else _) = (if ?y then _ else _) => replace y with x; [done|] end.
  apply eq_true_iff_eq. unfold in_block, v6_block, v6_is_loopback. cbn [fst snd].
  rewrite !orb_true_iff, bool_decide_eq_true, !Z.eqb_eq.
  change (v6_number [0; 0; 0; 0; 0; 0; 0; 1]) with 1.
  change (v6_number [0xfe80; 0; 0; 0; 0; 0; 0; 0] / 2 ^ (128 - 10)) with (0xfe80 / 64).
  change (v6_number [0xfc00; 0; 0; 0; 0; 0; 0; 0] / 2 ^ (128 - 7)) with (0xfc00 / 512).
  assert (Hp : forall k, 0 <= k <= 16 -> n / 2 ^ (112 + k) = a / 2 ^ k).
  { intros k Hk. assert (0 < 2 ^ k) by lia. rewrite Z.pow_add_r, <- Z.div_div by lia. f_equal.
    symmetry. apply (Z.div_unique_pos _ _ _ (n - a * 2 ^ 112)); lia. }
  change (128 - 10) with (112 + 6). change (128 - 7) with (112 + 9). rewrite !Hp by lia.
  change (2 ^ (128 - 128)) with 1. rewrite !Z.div_1_r.
  assert (H1 : [a; b; c; d; e; f; g; h] = [0; 0; 0; 0; 0; 0; 0; 1] <-> n = 1).
  { split; [intros [= -> -> -> -> -> -> -> ->]; done|]. intros He. repeat f_equal; lia. }
  rewrite H1. change (2 ^ 6) with 64. change (2 ^ 9) with 512. clear Hp H1 Hn.
  change (0xfe80 / 64) with 1018. change (0xfc00 / 512) with 126. lia.
Qed.

(** ** Properties *)

(** The grade of an address is decided by the address blocks of the rule list:
    the two metadata endpoints are refused, the loopback, private, link-local,
    shared and unspecified blocks need approval, all else is public; an
    IPv4-mapped address is graded as the IPv4 address it maps. *)
Theorem classify_ip_blocks ip :
  ip_valid ip = true -> classify_ip ip = grade (address ip).
Proof.
  intros Hv. destruct ip as [a b c d|segments]; [by apply v4_grade|].
  unfold classify_ip, normalize_mapped.
  destruct (to_ipv4_mapped segments) as [ip|] eqn:Hm; simpl; [|by apply v6_grade].
  destruct (mapped_number _ _ Hv Hm) as (a & b & c & d & -> & Hip & Ha).
  rewrite v4_grade by done. by rewrite Ha.
Qed.

Lemma strictest_of_snoc addrs ip :
  strictest_of (addrs ++ [ip]) = strictest (strictest_of addrs) (classify_ip ip).
Proof. unfold strictest_of. by rewrite fmap_app, foldl_app. Qed.

(** A host takes the strictest grade of its addresses. *)
Theorem strictest_of_addresses addrs :
  match strictest_of addrs with
  | Metadata => Exists (fun ip => classify_ip ip = Metadata) addrs
  | Askable => Exists (fun ip => classify_ip ip = Askable) addrs /\
      Forall (fun ip => classify_ip ip <> Metadata) addrs
  | Public => Forall (fun ip => classify_ip ip = Public) addrs
  end.
Proof.
  induction addrs as [|ip addrs IH] using rev_ind; [constructor|]. rewrite strictest_of_snoc.
  destruct (strictest_of addrs), (classify_ip ip) eqn:Hc; simpl;
    rewrite ?Exists_app, ?Forall_app, ?Exists_cons, ?Forall_singleton, ?Hc; try tauto.
  - split; [by right; left|]. split; [|done]. eapply Forall_impl; [exact IH|]. simpl. congruence.
  - destruct IH as [IH1 IH2]. split; [by left|]. by split.
  - destruct IH as [IH1 IH2]. split; [by left|]. by split.
Qed.

(** The segment names of the prompts agree with the grades. *)
Theorem segment_names_agree ip :
  (segment_name ip = "public" <-> classify_ip ip = Public) /\
  (segment_name ip = "cloud metadata" <-> classify_ip ip = Metadata).
Proof.
  unfold segment_name, classify_ip. destruct (normalize_mapped ip) as [a b c d|segments].
  - unfold segment_name_v4, classify_v4. case_bool_decide as Hm.
    + injection Hm as -> -> -> ->. vm_compute. intuition congruence.
    + destruct (v4_is_loopback a), (v4_is_private a b), (v4_is_link_local a b),
        (is_cgnat_v4 a b), (a =? 0); simpl; split; split; done.
  - unfold segment_name_v6, classify_v6. case_bool_decide as Hm; [subst; vm_compute; intuition congruence|].
    destruct (v6_is_loopback segments), (is_ula_v6 segments), (is_link_local_v6 segments);
      simpl; split; split; done.
Qed.

Section cache_properties.
Context (to_lowercase : string -> string).

(** What the cache holds: grades of the addresses stored with them, in at most
    [DNS_CACHE_CAPACITY] entries. *)
Definition cache_ok (cache : DnsCache) : Prop :=
  (size cache <= DNS_CACHE_CAPACITY)%nat /\
  map_Forall (fun _ entry => entry.2.1 = strictest_of entry.2.2) cache.

Lemma put_ok host addrs now cache :
  cache_ok cache -> cache_ok (dns_cache_put to_lowercase host (strictest_of addrs, addrs) now cache).
Proof.
  intros [Hs Hf]. unfold dns_cache_put. case_bool_decide as Hc; split.
  - rewrite map_size_insert, lookup_empty, map_size_empty. unfold DNS_CACHE_CAPACITY. lia.
  - apply map_Forall_insert_2; [done|apply map_Forall_empty].
  - rewrite map_size_insert. destruct (cache !! _); simpl; lia.
  - by apply map_Forall_insert_2.
Qed.

(** Resolving a name keeps the cache bounded and hands out the strictest grade
    of the addresses handed out with it, which are the resolver's or those of an
    entry at most [DNS_CACHE_TTL] old; the answer is then served from the cache
    until it expires, in whatever case the name is spelled. *)
Theorem resolve_serves_grades lookup host now cache :
  cache_ok cache ->
  let '(cache', answer) := resolve_and_classify to_lowercase lookup host now cache in
  cache_ok cache' /\
  match answer with
  | Some (class, addrs) =>
    class = strictest_of addrs /\
    (lookup host = Some addrs \/
     exists stored_at, cache !! to_lowercase host = Some (stored_at, (class, addrs)) /\
       now - stored_at <= DNS_CACHE_TTL) /\
    exists stored_at,
      cache' !! to_lowercase host = Some (stored_at, (class, addrs)) /\
      forall later host', to_lowercase host' = to_lowercase host ->
        dns_cache_get to_lowercase host' later cache'
        = if later - stored_at <=? DNS_CACHE_TTL then Some (class, addrs) else None
  | None => cache' = cache /\ default [] (lookup host) = []
  end.
Proof.
  intros Hok. unfold resolve_and_classify, dns_cache_get at 1.
  destruct (cache !! to_lowercase host) as [[stored_at value]|] eqn:Hl; simpl.
  - destruct (now - stored_at <=? DNS_CACHE_TTL) eqn:Ht; simpl.
    + split; [done|]. destruct value as [class addrs]. bsimpl. split.
      { destruct Hok as [_ Hf]. by apply (Hf _ _ Hl). }
      split; [right; eauto|]. exists stored_at. split; [done|]. intros later host' Hh.
      unfold dns_cache_get. by rewrite Hh, Hl.
    + destruct (lookup host) as [[|ip addrs]|] eqn:Hh; simpl; [done| |done].
      split; [by apply put_ok|]. split; [done|]. split; [by left|].
      exists now. unfold dns_cache_get, dns_cache_put.
      split; [apply lookup_insert_eq|]. intros later host' ->. by rewrite lookup_insert_eq.
  - destruct (lookup host) as [[|ip addrs]|] eqn:Hh; simpl; [done| |done].
    split; [by apply put_ok|]. split; [done|]. split; [by left|].
    exists now. unfold dns_cache_get, dns_cache_put.
    split; [apply lookup_insert_eq|]. intros later host' ->. by rewrite lookup_insert_eq.
Qed.
End cache_properties.

(** ** Witnesses *)

Lemma classify_ip_blocks_witness :
  ip_valid (V6 [0; 0; 0; 0; 0; 0xffff; 0x0a00; 0x0001]) = true /\
  classify_ip (V6 [0; 0; 0; 0; 0; 0xffff; 0x0a00; 0x0001]) = grade (address (V4 10 0 0 1)).
Proof.
  split; [reflexivity|].
  exact (classify_ip_blocks (V6 [0; 0; 0; 0; 0; 0xffff; 0x0a00; 0x0001]) eq_refl).
Defined.

Definition sample_lookup (host : string) : option (list IpAddr) :=
  if bool_decide (host = "intranet") then Some [V4 93 184 216 34; V4 10 0 0 7] else None.

Lemma resolve_serves_grades_witness :
  let '(cache', answer) := resolve_and_classify to_ascii_lowercase sample_lookup "intranet" 5 ∅ in
  answer = Some (Askable, [V4 93 184 216 34; V4 10 0 0 7]) /\ cache_ok cache'.
Proof.
  assert (Hok : cache_ok (∅ : DnsCache)) by (split; [vm_compute; lia|apply map_Forall_empty]).
  pose proof (resolve_serves_grades to_ascii_lowercase sample_lookup "intranet" 5 ∅ Hok) as Hp.
  destruct (resolve_and_classify _ _ _ _ _) as [cache' answer] eqn:Hr.
  split; [|exact (proj1 Hp)]. vm_compute in Hr. by injection Hr.
Defined.
