(* ===== verification/PathSandbox.v ===== *)
(** * The workspace sandbox: [mirri-core/src/tools/path_security.rs]

    Where a requested path lies with respect to the workspace root and the
    directories added to it.  A path is the sequence of components [Path::components]
    yields, which is what comparison and [starts_with] look at (Unix paths).  The
    file system is a parameter: which paths exist, what they canonicalize to,
    which are symbolic links and where those point. *)
From stdpp Require Import list strings.
From S2P Require Import Prelude RustStd.
#[local] Open Scope string_scope.
#[local] Open Scope list_scope.

(** ** [std::path] *)

Inductive Component : Type := RootDir | CurDir | ParentDir | Normal (name : string).
#[export] Instance Component_eq_dec : EqDecision Component.
Proof. solve_decision. Defined.

Notation Path := (list Component).

Definition component_of (part : string) : Component :=
  if bool_decide (part = "..") then ParentDir else Normal part.

(** [Path::components]: separators and inner [.] are dropped, a leading [.] of a
    relative path is kept. *)
Definition components (text : string) : Path :=
  let parts := filter (fun part => part <> "") (split "/" text) in
  let rest parts := component_of <$> filter (fun part => part <> ".") parts in
  if String.prefix "/" text then RootDir :: rest parts
  else match parts with
       | "." :: parts => CurDir :: rest parts
       | parts => rest parts
       end.

Definition is_absolute (p : Path) : bool :=
  match p with RootDir :: _ => true | _ => false end.

Definition starts_with (p base : Path) : bool := bool_decide (base `prefix_of` p).

(** [PathBuf::push] and [Path::join]: an absolute operand replaces the path. *)
Definition push (p q : Path) : Path :=
  if is_absolute q then q
  else match p, q with
       | _ :: _, CurDir :: q => p ++ q
       | _, _ => p ++ q
       end.

(** [Path::parent] *)
Definition parent (p : Path) : option Path :=
  match last p with
  | Some (Normal _ | CurDir | ParentDir) => Some (take (length p - 1) p)
  | _ => None
  end.

Definition component_text (c : Component) : string :=
  match c with RootDir => "" | CurDir => "." | ParentDir => ".." | Normal name => name end.

(** [Path::display], up to the spelling of separators. *)
Definition display (p : Path) : string :=
  match p with
  | [RootDir] => "/"
  | _ => String.concat "/" (component_text <$> p)
  end.

(** ** Lexical normalization *)

Definition normalize_step (normalized : Path) (c : Component) : Path :=
  match c with
  | CurDir => normalized
  | ParentDir =>
    match last normalized with
    | Some (Normal _) => take (length normalized - 1) normalized
    | _ => if bool_decide (normalized = []) then push normalized [ParentDir] else normalized
    end
  | c => push normalized [c]
  end.

Definition lexically_normalize (p : Path) : Path := foldl normalize_step [] p.

(** ** The file system *)

Record FileSystem : Type := mkFileSystem {
  fs_exists : Path -> bool;                       (** [Path::exists] *)
  fs_canonicalize : Path -> result string Path;   (** [Path::canonicalize] *)
  fs_is_symlink : Path -> bool;                   (** [stat] says so *)
  fs_read_link : Path -> option Path              (** [read_link] *)
}.

(** What the loop of [canonicalize_allow_missing] meets going up from a path. *)
Inductive Ancestor : Type :=
| Existing (existing : Path) (missing_tail : list Component)
| Symlink (existing : Path)
| NoAncestor.

Fixpoint deepest (fs : FileSystem) (fuel : nat) (existing : Path) (missing_tail : list Component)
  : Ancestor :=
  if fs_exists fs existing then Existing existing missing_tail
  else if fs_is_symlink fs existing then Symlink existing
  else
    match fuel with
    | O => NoAncestor
    | S fuel =>
      match last existing, parent existing with
      | Some component, Some up => deepest fs fuel up (missing_tail ++ [component])
      | _, _ => NoAncestor
      end
    end.

(** [canonicalize_allow_missing]: [None] when the chain of links is longer than
    [fuel]; the code recurses without a bound. *)
Fixpoint canonicalize_allow_missing (fs : FileSystem) (fuel : nat) (path : Path)
  : option (result string Path) :=
  match deepest fs (length path) path [] with
  | Existing existing missing_tail =>
    Some (match fs_canonicalize fs existing with
          | Ok canonical => Ok (foldl (fun p c => push p [c]) canonical (reverse missing_tail))
          | Err e => Err ("path '" +:+ display path +:+ "' cannot be canonicalized: " +:+ e)
          end)
  | Symlink existing =>
    match fs_canonicalize fs existing with
    | Ok canonical => Some (Ok canonical)
    | Err _ =>
      match fs_read_link fs existing with
      | Some target =>
        let resolved :=
          if is_absolute target then target else push (default [CurDir] (parent existing)) target in
        match fuel with
        | O => None
        | S fuel => canonicalize_allow_missing fs fuel resolved
        end
      | None => Some (Err ("path '" +:+ display path +:+ "' contains an unreadable symlink"))
      end
    end
  | NoAncestor =>
    Some (Err ("path '" +:+ display path +:+ "' has no existing ancestor to canonicalize against"))
  end.

(** ** The sandbox *)

Inductive PathClassification : Type :=
| Inside (canonical : Path)
| Outside (canonical : Path)
| Escape (reason : string).

Record WorkspacePaths : Type := mkWorkspacePaths {
  root : Path;
  additional : list Path
}.

Definition new_workspace (root : Path) : WorkspacePaths := mkWorkspacePaths root [].

Definition add_additional (fs : FileSystem) (dir : Path) (w : WorkspacePaths) : WorkspacePaths :=
  let dir := result_unwrap_or (fs_canonicalize fs dir) dir in
  if bool_decide (dir ∈ additional w) then w
  else mkWorkspacePaths (root w) (additional w ++ [dir]).

Section classify.
Variables (fs : FileSystem) (fuel : nat).

(** [None]: some chain of links is longer than [fuel]. *)
Fixpoint canonical_additional (dirs : list Path) : option (list Path) :=
  match dirs with
  | [] => Some []
  | dir :: dirs =>
    base ← canonicalize_allow_missing fs fuel dir;
    rest ← canonical_additional dirs;
    Some (match base with Ok base => base :: rest | Err _ => rest end)
  end.

Definition canonical_bases (w : WorkspacePaths) (canonical_root : Path) : option (list Path) :=
  rest ← canonical_additional (additional w); Some (canonical_root :: rest).

Definition lexical_bases (w : WorkspacePaths) (canonical_root : Path) : list Path :=
  lexically_normalize (root w) :: canonical_root :: additional w.

(** [classify_with_fs] *)
Definition classify (w : WorkspacePaths) (requested : Path) : option PathClassification :=
  match fs_canonicalize fs (root w) with
  | Err error =>
    Some (Escape ("workspace root '" +:+ display (root w) +:+ "' cannot be canonicalized: " +:+ error))
  | Ok canonical_root =>
    let requested_absolute :=
      if is_absolute requested then requested else push canonical_root requested in
    let normalized := lexically_normalize requested_absolute in
    bases ← canonical_bases w canonical_root;
    let lexically_inside := existsb (starts_with normalized) (lexical_bases w canonical_root) in
    if negb lexically_inside && negb (is_absolute requested) then
      Some (Escape "a relative path cannot escape the workspace; if the target is intentionally outside, state it as an absolute path")
    else
      canonical ← canonicalize_allow_missing fs fuel normalized;
      Some (match canonical with
            | Err error => Escape error
            | Ok canonical =>
              if existsb (starts_with canonical) bases then Inside canonical
              else if lexically_inside
              then Escape "the path resolves outside the workspace sandbox through a symlink"
              else Outside canonical
            end)
  end.

(** [validate_with_fs] *)
Definition validate (w : WorkspacePaths) (requested : Path) : option (result string Path) :=
  class ← classify w requested;
  Some (match class with
        | Inside canonical => Ok canonical
        | Outside _ => Err ("path '" +:+ display requested +:+ "' is outside the workspace sandbox '"
                              +:+ display (root w) +:+ "'")
        | Escape reason =>
          Err ("path '" +:+ display requested +:+ "' is outside the workspace sandbox '"
                 +:+ display (root w) +:+ "': " +:+ reason)
        end).

(** [classify_tool_path] *)
Definition classify_tool_path (w : option WorkspacePaths) (requested : Path)
  : option PathClassification :=
  match w with
  | Some w => classify w requested
  | None => Some (Inside requested)
  end.
End classify.

(** [escape_tool_error] *)
Definition escape_tool_error (tool path reason : string) : string :=
  tool +:+ " refused '" +:+ path +:+ "': the path escapes the workspace sandbox (" +:+ reason +:+
  "). If the target is intentionally outside the workspace, state it as an absolute path so the authorization flow can evaluate it.".

(** ** Sensitive files *)

(** [Path::file_name] *)
Definition file_name (p : Path) : option string :=
  match last p with Some (Normal name) => Some name | _ => None end.

Definition is_sensitive_env_file (file_name : string) : bool :=
  if bool_decide (file_name = ".env") then true
  else match strip_prefix ".env." file_name with
       | Some rest => negb (bool_decide (rest ∈ ["example"; "sample"; "template"]))
       | None => false
       end.

Definition PRIVATE_KEY_PREFIXES : list string := ["id_rsa"; "id_ecdsa"; "id_ed25519"; "id_dsa"].

Definition is_ssh_private_key_basename (file_name : string) : bool :=
  existsb (fun prefix => String.prefix prefix file_name && negb (ends_with ".pub" file_name))
    PRIVATE_KEY_PREFIXES.

(** [is_sensitive_file] of this module, which the search tools apply. *)
Definition is_sensitive_path (p : Path) : bool :=
  match file_name p with
  | None => false
  | Some name =>
    let contains_component part := bool_decide (Normal part ∈ p) in
    contains_component ".ssh" || contains_component ".git" || is_sensitive_env_file name
    || ends_with ".pem" name || ends_with ".key" name || is_ssh_private_key_basename name
    || String.prefix "credentials" name || bool_decide (name ∈ [".npmrc"; ".git-credentials"])
  end.

(** ** Normal forms *)

(** An absolute path without [.] and [..]. *)
Definition resolved (p : Path) : Prop := exists names, p = RootDir :: (Normal <$> names).

Lemma last_normals names : last (Normal <$> names) = Normal <$> last names.
Proof. apply fmap_last. Qed.

Lemma take_snoc {A} (l : list A) x : take (length (l ++ [x]) - 1) (l ++ [x]) = l.
Proof. rewrite length_app, Nat.add_sub. apply take_app_length. Qed.

Lemma normalize_step_resolved p c : resolved p -> resolved (normalize_step p c).
Proof.
  intros [names ->]. destruct c as [| | |name].
  - exists []. done.
  - by exists names.
  - simpl. rewrite last_cons, last_normals. destruct names as [|x names _] using rev_ind; [by exists []|].
    rewrite last_snoc. exists names. rewrite fmap_app. simpl fmap. rewrite app_comm_cons.
    exact (take_snoc (RootDir :: (Normal <$> names)) (Normal x)).
  - exists (names ++ [name]). simpl. by rewrite fmap_app.
Qed.

Lemma lexically_normalize_resolved p : is_absolute p = true -> resolved (lexically_normalize p).
Proof.
  destruct p as [|[] p]; try done. intros _. unfold lexically_normalize. cbn [foldl].
  assert (H : resolved (normalize_step [] RootDir)) by (by exists []). revert H.
  generalize (normalize_step [] RootDir). induction p as [|c p IH]; intros q Hq; [done|].
  simpl. by apply IH, normalize_step_resolved.
Qed.

Lemma normalize_resolved p : resolved p -> lexically_normalize p = p.
Proof.
  intros [names ->]. unfold lexically_normalize. cbn [foldl].
  change (normalize_step [] RootDir) with [RootDir].
  induction names as [|x names IH] using rev_ind; [done|].
  rewrite fmap_app, foldl_app, IH. simpl. by rewrite app_comm_cons.
Qed.

Lemma resolved_absolute p : resolved p -> is_absolute p = true.
Proof. by intros [names ->]. Qed.

Lemma push_absolute p q : is_absolute p = true -> is_absolute (push p q) = true.
Proof.
  destruct p as [|[] p]; try done. intros _. unfold push. destruct (is_absolute q) eqn:Hq; [done|].
  by destruct q as [|[]].
Qed.

(** ** The walk to the deepest existing ancestor *)

Lemma parent_last p c up : last p = Some c -> parent p = Some up -> p = up ++ [c].
Proof.
  intros Hl. destruct p as [|x p _] using rev_ind; [done|]. rewrite last_snoc in Hl.
  injection Hl as ->. unfold parent. rewrite last_snoc, take_snoc.
  destruct c; intros Hp; by simplify_eq.
Qed.

Lemma push_one p c : p <> [] -> c <> RootDir -> c <> CurDir -> push p [c] = p ++ [c].
Proof. destruct p, c; done. Qed.

Lemma push_tail p tail :
  resolved p -> Forall (fun c => exists name, c = Normal name) tail ->
  foldl (fun p c => push p [c]) p tail = p ++ tail /\ resolved (p ++ tail).
Proof.
  intros Hp Ht. revert p Hp. induction Ht as [|c tail [name ->] _ IH]; intros p Hp; simpl.
  - by rewrite app_nil_r.
  - assert (Hc : resolved (p ++ [Normal name])).
    { destruct Hp as [names ->]. exists (names ++ [name]). by rewrite fmap_app. }
    destruct Hp as [names ->]. destruct (IH _ Hc) as [He Hr].
    change (push (RootDir :: (Normal <$> names)) [Normal name])
      with ((RootDir :: (Normal <$> names)) ++ [Normal name]).
    rewrite He. rewrite <- app_assoc in *. done.
Qed.

(** What the walk stops at splits the path it started from. *)
Lemma deepest_split fs fuel existing tail :
  match deepest fs fuel existing tail with
  | Existing e tail' => exists rest, tail' = tail ++ rest /\ existing = e ++ reverse rest /\
      fs_exists fs e = true
  | Symlink e => exists rest, existing = e ++ reverse rest /\ fs_exists fs e = false /\
      fs_is_symlink fs e = true
  | NoAncestor => True
  end.
Proof.
  revert existing tail. induction fuel as [|fuel IH]; intros existing tail; simpl.
  - destruct (fs_exists fs existing) eqn:He; [exists []; by rewrite !app_nil_r|].
    destruct (fs_is_symlink fs existing) eqn:Hs; [|done]. exists []. by rewrite app_nil_r.
  - destruct (fs_exists fs existing) eqn:He; [exists []; by rewrite !app_nil_r|].
    destruct (fs_is_symlink fs existing) eqn:Hs; [exists []; by rewrite app_nil_r|].
    destruct (last existing) as [c|] eqn:Hl; [|done].
    destruct (parent existing) as [up|] eqn:Hp; [|done].
    pose proof (parent_last _ _ _ Hl Hp) as Hup. specialize (IH up (tail ++ [c])).
    destruct (deepest fs fuel up (tail ++ [c])) as [e tail'|e|]; [| |done].
    + destruct IH as (rest & -> & -> & He'). exists (c :: rest).
      split_and!; [by rewrite <- app_assoc|by rewrite Hup, reverse_cons, app_assoc|done].
    + destruct IH as (rest & -> & ?). exists (c :: rest). by rewrite Hup, reverse_cons, app_assoc.
Qed.

(** ** Verdicts *)

(** The path a request names, before any link is followed. *)
Definition written (canonical_root requested : Path) : Path :=
  lexically_normalize
    (if is_absolute requested then requested else push canonical_root requested).

Definition under (bases : list Path) (p : Path) : Prop := Exists (fun base => base `prefix_of` p) bases.

Lemma under_existsb bases p : existsb (starts_with p) bases = true <-> under bases p.
Proof.
  unfold under, starts_with. induction bases as [|b bases IH]; simpl.
  - by rewrite Exists_nil.
  - by rewrite orb_true_iff, bool_decide_eq_true, IH, Exists_cons.
Qed.

(** The verdicts of the sandbox.  A path is inside only if what it canonicalizes
    to lies under the canonical root or an added directory; it can be offered for
    authorization only if it was given as an absolute path, is written under no
    base and canonicalizes to a place under none; so a relative path, or a path
    written inside that a link carries out, is never offered. *)
Theorem classify_verdict fs fuel w requested class :
  classify fs fuel w requested = Some class ->
  match class with
  | Inside c => exists canonical_root bases,
      fs_canonicalize fs (root w) = Ok canonical_root /\
      canonical_bases fs fuel w canonical_root = Some bases /\
      canonicalize_allow_missing fs fuel (written canonical_root requested) = Some (Ok c) /\
      under bases c
  | Outside c => exists canonical_root bases,
      fs_canonicalize fs (root w) = Ok canonical_root /\
      canonical_bases fs fuel w canonical_root = Some bases /\
      canonicalize_allow_missing fs fuel (written canonical_root requested) = Some (Ok c) /\
      ~ under bases c /\ is_absolute requested = true /\
      ~ under (lexical_bases w canonical_root) (written canonical_root requested)
  | Escape _ =>
    forall canonical_root bases c, fs_canonicalize fs (root w) = Ok canonical_root ->
      canonical_bases fs fuel w canonical_root = Some bases ->
      canonicalize_allow_missing fs fuel (written canonical_root requested) = Some (Ok c) ->
      (is_absolute requested = false /\
         ~ under (lexical_bases w canonical_root) (written canonical_root requested)) \/
      (under (lexical_bases w canonical_root) (written canonical_root requested) /\ ~ under bases c)
  end.
Proof.
  unfold classify. destruct (fs_canonicalize fs (root w)) as [r|e] eqn:Hr.
  2: { intros [= <-]. done. }
  fold (written r requested). intros Hc. apply bind_Some in Hc as (bases & Hb & Hc).
  pose proof (under_existsb (lexical_bases w r) (written r requested)) as Hl.
  destruct (existsb _ (lexical_bases w r)) eqn:Hin.
  - cbn [negb andb] in Hc. apply bind_Some in Hc as (c & Hcan & [= <-]).
    destruct c as [c|e]; [|intros; congruence].
    pose proof (under_existsb bases c) as Hu. destruct (existsb _ bases).
    + exists r, bases. tauto.
    + intros r' bases' c' [= <-] Hb' Hc'. simplify_eq. right. intuition congruence.
  - cbn [negb andb] in Hc. destruct (is_absolute requested) eqn:Ha; cbn [negb] in Hc.
    + apply bind_Some in Hc as (c & Hcan & [= <-]). destruct c as [c|e]; [|intros; congruence].
      pose proof (under_existsb bases c) as Hu. destruct (existsb _ bases).
      * exists r, bases. tauto.
      * exists r, bases. intuition congruence.
    + injection Hc as <-. intros r' bases' c' [= <-] _ _. left. intuition congruence.
Qed.

(** ** Ordinary file systems *)

(** No symbolic links; what exists is its own canonical form. *)
Record plain (fs : FileSystem) : Prop := mkPlain {
  plain_links : forall p, fs_is_symlink fs p = false;
  plain_root : fs_exists fs [RootDir] = true;
  plain_canonical : forall p, resolved p -> fs_exists fs p = true -> fs_canonicalize fs p = Ok p
}.

Lemma deepest_plain fs names tail fuel :
  plain fs -> (length names < fuel)%nat ->
  exists n, deepest fs fuel (RootDir :: (Normal <$> names)) tail
    = Existing (RootDir :: (Normal <$> take n names)) (tail ++ reverse (Normal <$> drop n names)) /\
    fs_exists fs (RootDir :: (Normal <$> take n names)) = true.
Proof.
  intros Hp. revert names tail. induction fuel as [|fuel IH]; intros names tail Hl; [lia|].
  cbn [deepest]. rewrite (plain_links _ Hp).
  destruct (fs_exists fs (RootDir :: (Normal <$> names))) eqn:He.
  { exists (length names). rewrite take_ge, drop_ge by lia. by rewrite app_nil_r. }
  destruct names as [|x names _] using rev_ind; [pose proof (plain_root _ Hp) as Hroot; simpl in He; congruence|].
  assert (Hpath : RootDir :: (Normal <$> (names ++ [x])) = (RootDir :: (Normal <$> names)) ++ [Normal x])
    by (by rewrite fmap_app).
  rewrite Hpath. unfold parent. rewrite last_snoc, take_snoc.
  rewrite length_app in Hl. simpl in Hl.
  destruct (IH names (tail ++ [Normal x]) ltac:(lia)) as (n & -> & Hex).
  exists (n `min` length names)%nat.
  rewrite take_app_le, drop_app_le by lia.
  assert (Ht : take (n `min` length names) names = take n names).
  { destruct (decide (n <= length names)%nat); [by rewrite Nat.min_l by lia|].
    rewrite Nat.min_r, !take_ge by lia. done. }
  assert (Hd : drop (n `min` length names) names = drop n names).
  { destruct (decide (n <= length names)%nat); [by rewrite Nat.min_l by lia|].
    rewrite Nat.min_r, !drop_ge by lia. done. }
  rewrite Ht, Hd. split; [|done]. f_equal.
  rewrite fmap_app, reverse_app, <- app_assoc. done.
Qed.

Lemma canonicalize_plain fs fuel p :
  plain fs -> resolved p -> canonicalize_allow_missing fs fuel p = Some (Ok p).
Proof.
  intros Hp [names ->].
  destruct (deepest_plain fs names [] (length (RootDir :: (Normal <$> names))) Hp) as (n & Hd & He).
  { simpl. rewrite length_fmap. lia. }
  destruct fuel; cbn [canonicalize_allow_missing]; rewrite Hd;
    rewrite (plain_canonical _ Hp _ ltac:(eexists; reflexivity) He), app_nil_l, reverse_involutive;
    do 2 f_equal;
    (destruct (push_tail (RootDir :: (Normal <$> take n names)) (Normal <$> drop n names)) as [-> _];
      [by eexists|apply Forall_fmap, Forall_true; by eexists|];
      rewrite <- app_comm_cons, <- fmap_app, take_drop; done).
Qed.

Lemma canonical_additional_plain fs fuel dirs :
  plain fs -> Forall resolved dirs -> canonical_additional fs fuel dirs = Some dirs.
Proof.
  intros Hp Hd. induction Hd as [|dir dirs Hr _ IH]; [done|]. cbn [canonical_additional].
  rewrite canonicalize_plain by done. cbn [mbind option_bind]. by rewrite IH.
Qed.

(** Without symbolic links the sandbox is lexical: a request is inside exactly
    when, resolved against the root and with [..] taken out, it lies under the
    root or an added directory, existing or not; an absolute one elsewhere may be
    authorized, a relative one may not. *)
Theorem plain_classification fs fuel w requested :
  plain fs -> fs_exists fs (root w) = true -> resolved (root w) -> Forall resolved (additional w) ->
  classify fs fuel w requested =
  Some (let p := written (root w) requested in
        if existsb (starts_with p) (root w :: additional w) then Inside p
        else if is_absolute requested then Outside p
        else Escape "a relative path cannot escape the workspace; if the target is intentionally outside, state it as an absolute path").
Proof.
  intros Hp He Hr Ha. unfold classify. rewrite (plain_canonical _ Hp _ Hr He).
  fold (written (root w) requested). unfold canonical_bases.
  rewrite canonical_additional_plain by done. cbn [mbind option_bind].
  assert (Hw : resolved (written (root w) requested)).
  { apply lexically_normalize_resolved. destruct (is_absolute requested) eqn:Hq; [done|].
    by apply push_absolute, resolved_absolute. }
  unfold lexical_bases. rewrite (normalize_resolved (root w)) by done.
  rewrite canonicalize_plain by done. cbn [mbind option_bind existsb].
  destruct (starts_with (written (root w) requested) (root w)); simpl; [by rewrite ?orb_true_r|].
  destruct (existsb _ (additional w)); simpl; [done|]. by destruct (is_absolute requested).
Qed.

(** ** Chains of dangling links *)

(** The path the resolution starts over from: the target of the first dangling
    link met going up. *)
Definition next_link (fs : FileSystem) (p : Path) : option Path :=
  match deepest fs (length p) p [] with
  | Symlink existing =>
    match fs_canonicalize fs existing with
    | Ok _ => None
    | Err _ =>
      target ← fs_read_link fs existing;
      Some (if is_absolute target then target else push (default [CurDir] (parent existing)) target)
    end
  | _ => None
  end.

Fixpoint follow (fs : FileSystem) (n : nat) (p : Path) : option Path :=
  match n with O => Some p | S n => q ← next_link fs p; follow fs n q end.

Lemma canonicalize_step fs fuel p :
  match next_link fs p with
  | Some q => canonicalize_allow_missing fs fuel p
      = match fuel with O => None | S fuel => canonicalize_allow_missing fs fuel q end
  | None => is_Some (canonicalize_allow_missing fs fuel p)
  end.
Proof.
  unfold next_link. destruct fuel; cbn [canonicalize_allow_missing];
    destruct (deepest fs (length p) p []) as [e tail|e|]; try (by eexists);
    destruct (fs_canonicalize fs e); try (by eexists);
    destruct (fs_read_link fs e); simpl; try done; by eexists.
Qed.

(** The resolution of a path ends exactly when the chain of dangling links it
    meets does: it returns with [fuel] rounds unless the chain goes on after them. *)
Theorem resolution_follows_links fs fuel p :
  canonicalize_allow_missing fs fuel p = None <-> is_Some (follow fs (S fuel) p).
Proof.
  revert p. induction fuel as [|fuel IH]; intros p.
  - pose proof (canonicalize_step fs 0 p) as Hs. cbn [follow].
    destruct (next_link fs p) as [q|]; cbn [mbind option_bind].
    + split; [by eexists|done].
    + split; [intros He; rewrite He in Hs; by destruct Hs|by intros [? ?]].
  - pose proof (canonicalize_step fs (S fuel) p) as Hs. change (follow fs (S (S fuel)) p)
      with (q ← next_link fs p; follow fs (S fuel) q).
    destruct (next_link fs p) as [q|]; cbn [mbind option_bind].
    + rewrite Hs. apply IH.
    + split; [intros He; rewrite He in Hs; by destruct Hs|by intros [? ?]].
Qed.

(** Two links that point at each other: the recursion of the code has no end. *)
Theorem link_loop_never_resolves fs p q :
  next_link fs p = Some q -> next_link fs q = Some p ->
  forall fuel, canonicalize_allow_missing fs fuel p = None.
Proof.
  intros Hp Hq fuel. apply resolution_follows_links.
  assert (H : is_Some (follow fs (S fuel) p) /\ is_Some (follow fs (S fuel) q)); [|apply H].
  generalize (S fuel) as n. intros n. induction n as [|n [IHp IHq]]; [split; by eexists|].
  cbn [follow]. rewrite Hp, Hq. by split.
Qed.

(** Below a dangling link the rest of the path is lost: every file under the link
    is given the path of the link's target. *)
Theorem dangling_link_drops_tail fs fuel p name :
  resolved p -> fs_exists fs (p ++ [Normal name]) = false ->
  fs_is_symlink fs (p ++ [Normal name]) = false ->
  fs_exists fs p = false -> fs_is_symlink fs p = true ->
  (exists target, fs_read_link fs p = Some target) ->
  canonicalize_allow_missing fs fuel (p ++ [Normal name]) = canonicalize_allow_missing fs fuel p.
Proof.
  intros Hr He Hs He' Hs' [target Ht].
  assert (Hd : deepest fs (length (p ++ [Normal name])) (p ++ [Normal name]) [] = Symlink p).
  { rewrite length_app, Nat.add_comm. cbn [length Nat.add deepest]. rewrite He, Hs.
    unfold parent. rewrite last_snoc, take_snoc. destruct (length p); simpl; by rewrite He', Hs'. }
  assert (Hd' : deepest fs (length p) p [] = Symlink p).
  { destruct (length p); simpl; by rewrite He', Hs'. }
  destruct fuel; cbn [canonicalize_allow_missing]; rewrite Hd, Hd', Ht; done.
Qed.

(** ** Witnesses *)

(** A file system given by what exists and by its dangling links. *)
Definition sample_fs (existing : list string) (links : list (string * string)) : FileSystem :=
  mkFileSystem
    (fun p => bool_decide (p ∈ (components <$> existing)))
    (fun p => if bool_decide (p ∈ (components <$> existing)) then Ok p else Err "No such file or directory")
    (fun p => bool_decide (p ∈ (components ∘ fst <$> links)))
    (fun p => components ∘ snd <$> list_find (fun link => components link.1 = p) links ≫= (fun x => Some x.2)).

Definition plain_fs : FileSystem := sample_fs ["/"; "/ws"; "/ws/src"; "/etc"] [].
Definition sample_workspace : WorkspacePaths := new_workspace (components "/ws").

Lemma plain_fs_plain : plain plain_fs.
Proof.
  split; [|reflexivity|].
  - intros p. apply bool_decide_eq_false. apply not_elem_of_nil.
  - intros p _ He. simpl in *. by rewrite He.
Qed.

Lemma plain_classification_witness :
  let requests := ["src/new.rs"; "../etc/passwd"; "/etc/passwd"; "/ws/src/../lib"] in
  (classify plain_fs 3 sample_workspace ∘ components) <$> requests =
  [Some (Inside (components "/ws/src/new.rs"));
   Some (Escape "a relative path cannot escape the workspace; if the target is intentionally outside, state it as an absolute path");
   Some (Outside (components "/etc/passwd"));
   Some (Inside (components "/ws/lib"))].
Proof.
  cbv zeta. unfold compose. cbn [fmap list_fmap].
  assert (Hr : resolved (root sample_workspace)) by (exists ["ws"]; reflexivity).
  rewrite !(plain_classification plain_fs 3 sample_workspace _ plain_fs_plain eq_refl Hr (Forall_nil_2 _)).
  vm_compute. reflexivity.
Defined.

(** [/ws/a -> b], [/ws/b -> a]. *)
Definition loop_fs : FileSystem := sample_fs ["/"; "/ws"] [("/ws/a", "b"); ("/ws/b", "a")].

Lemma link_loop_never_resolves_witness :
  (forall fuel, canonicalize_allow_missing loop_fs fuel (components "/ws/a") = None) /\
  classify loop_fs 1000 sample_workspace (components "a") = None.
Proof.
  split; [|vm_compute; reflexivity].
  apply (link_loop_never_resolves loop_fs (components "/ws/a") (components "/ws/b"));
    vm_compute; reflexivity.
Defined.

(** [/ws/out -> build], with no [/ws/build]. *)
Definition dangling_fs : FileSystem := sample_fs ["/"; "/ws"] [("/ws/out", "build")].

Lemma dangling_link_drops_tail_witness :
  canonicalize_allow_missing dangling_fs 3 (components "/ws/out/a.txt")
  = Some (Ok (components "/ws/build")) /\
  canonicalize_allow_missing dangling_fs 3 (components "/ws/out/a.txt")
  = canonicalize_allow_missing dangling_fs 3 (components "/ws/out").
Proof.
  split; [vm_compute; reflexivity|].
  refine (dangling_link_drops_tail dangling_fs 3 (components "/ws/out") "a.txt" _ _ _ _ _ _);
    try (vm_compute; reflexivity).
  - exists ["ws"; "out"]. reflexivity.
  - exists (components "build"). vm_compute. reflexivity.
Defined.

(** [/ws/leak -> /etc/leaked], written inside and carried outside. *)
Definition leak_fs : FileSystem :=
  sample_fs ["/"; "/ws"; "/etc"] [("/ws/leak", "/etc/leaked")].

Lemma classify_verdict_witness :
  classify leak_fs 3 sample_workspace (components "leak")
  = Some (Escape "the path resolves outside the workspace sandbox through a symlink") /\
  classify leak_fs 3 sample_workspace (components "/etc/leaked") = Some (Outside (components "/etc/leaked")) /\
  is_absolute (components "/etc/leaked") = true.
Proof.
  assert (H : classify leak_fs 3 sample_workspace (components "/etc/leaked")
    = Some (Outside (components "/etc/leaked"))) by (vm_compute; reflexivity).
  split; [vm_compute; reflexivity|]. split; [exact H|].
  destruct (classify_verdict _ _ _ _ _ H) as (r & bases & _ & _ & _ & _ & Ha & _). exact Ha.
Defined.

(** Leading [..] of a relative path: only the first is kept. *)
Example normalize_relative_parents :
  lexically_normalize (components "../../ws") = components "../ws".
Proof. reflexivity. Qed.
