(* ===== verification/PermRules.v ===== *)
(** * The permission rule patterns: [mirri-core/src/permission/rule_match.rs]

    The grammar of a rule pattern, its match against a tool call and the
    negation.  Tool names are matched by the [globset] crate, a parameter. *)
From stdpp Require Import list strings.
From S2P Require Import Prelude RustStd.
#[local] Open Scope string_scope.

Record ParsedPattern : Type := mkPattern {
  p_tool_name : string;
  p_arg_pattern : option string;
  p_negated : bool
}.

#[export] Instance ParsedPattern_eq_dec : EqDecision ParsedPattern.
Proof. solve_decision. Defined.

Definition parse_pattern (pattern : string) : option ParsedPattern :=
  let pattern := trim pattern in
  let '(negated, pattern) :=
    match strip_prefix "!" pattern with
    | Some rest => (true, rest)
    | None => (false, pattern)
    end in
  match split_once "(" pattern with
  | Some (before, rest) =>
    let tool_name := trim before in
    match rsplit_once ")" rest with
    | Some (inside, _) =>
      let arg_pattern := trim inside in
      Some (mkPattern tool_name (if bool_decide (arg_pattern = "") then None else Some arg_pattern)
              negated)
    | None => None
    end
  | None => Some (mkPattern pattern None negated)
  end.

Section matching.
(** The glob set built of one pattern, when it is well formed. *)
Variable glob_set : string -> option (string -> bool).

Definition match_tool_name (pattern tool_name : string) : bool :=
  match glob_set pattern with
  | Some is_match => is_match tool_name
  | None => bool_decide (pattern = tool_name)
  end.

Definition matches_positive (parsed : ParsedPattern) (tool_name : string)
    (tool_matches_rule : option (string -> bool)) : bool :=
  if negb (bool_decide (p_tool_name parsed = "*")) && negb (match_tool_name (p_tool_name parsed) tool_name)
  then false
  else match p_arg_pattern parsed with
       | None => true
       | Some arg_pattern =>
         match tool_matches_rule with
         | Some matcher => matcher arg_pattern
         | None => false
         end
       end.

Definition match_permission_rule (rule_pattern tool_name : string)
    (tool_matches_rule : option (string -> bool)) : bool :=
  match parse_pattern rule_pattern with
  | None => false
  | Some parsed =>
    let positive_match := matches_positive parsed tool_name tool_matches_rule in
    if p_negated parsed then negb positive_match else positive_match
  end.
End matching.

(** ** Printing and reading a pattern *)

Definition print_pattern (p : ParsedPattern) : string :=
  (if p_negated p then "!" else "") +:+ p_tool_name p
  +:+ match p_arg_pattern p with Some arg => "(" +:+ arg +:+ ")" | None => "" end.

(** The patterns the grammar can write: a name of printable characters
    without a parenthesis, which starts with a [!] only behind the negation,
    and an argument without white space at its ends. *)
Definition writable (p : ParsedPattern) : bool :=
  all_chars graphic (p_tool_name p) && no_char "(" (p_tool_name p)
  && (p_negated p || negb (String.prefix "!" (p_tool_name p)))
  && match p_arg_pattern p with
     | Some arg => negb (bool_decide (arg = "")) && bool_decide (trim arg = arg)
     | None => true
     end.

Lemma split_once_no_char sep s : no_char sep s = true -> split_once sep s = None.
Proof.
  induction s as [|c s IH]; simpl; [done|].
  intros [Hc%bool_decide_eq_true Hs]%andb_true_iff. by rewrite decide_False, IH.
Qed.

Lemma split_once_app sep s t :
  no_char sep s = true -> split_once sep (s +:+ String sep t) = Some (s, t).
Proof.
  induction s as [|c s IH].
  - rewrite string_app_nil_l. simpl. by rewrite decide_True.
  - rewrite string_app_cons. simpl.
    intros [Hc%bool_decide_eq_true Hs]%andb_true_iff. by rewrite decide_False, IH.
Qed.

Lemma rsplit_once_last sep s : rsplit_once sep (s +:+ String sep "") = Some (s, "").
Proof.
  induction s as [|c s IH]; [|by rewrite string_app_cons; simpl; rewrite IH].
  rewrite string_app_nil_l. simpl. by rewrite bool_decide_true.
Qed.

Lemma strip_prefix_app pat s : strip_prefix pat (pat +:+ s) = Some s.
Proof.
  induction pat as [|c pat IH]; [by destruct s|]. rewrite string_app_cons. simpl.
  by rewrite bool_decide_true.
Qed.

Lemma strip_prefix_none c s :
  match s with String d _ => c <> d | "" => True end -> strip_prefix (String c "") s = None.
Proof. destruct s as [|d s]; simpl; [done|]. intros. by rewrite bool_decide_false. Qed.

(** The body of a printed pattern, after the negation *)
Definition print_body (p : ParsedPattern) : string :=
  p_tool_name p +:+ match p_arg_pattern p with Some arg => "(" +:+ arg +:+ ")" | None => "" end.

Lemma print_trimmed p : writable p = true -> trim (print_pattern p) = print_pattern p.
Proof.
  destruct p as [tool [arg|] negated]; unfold writable, print_pattern; simpl;
    rewrite !andb_true_iff; intros [[[Ht Hp] Hn] Ha].
  - assert (exists c s, (if negated then "!" else "") +:+ tool +:+ "(" +:+ arg +:+ ")"
                        = String c (s +:+ ")") /\ graphic c = true) as (c & s & -> & Hc).
    { destruct negated; [|destruct tool as [|c tool]].
      - exists "!"%char, (tool +:+ "(" +:+ arg). by rewrite !string_app_assoc.
      - by exists "("%char, arg.
      - exists c, (tool +:+ "(" +:+ arg). simpl in Ht. apply andb_true_iff in Ht as [Hc _].
        by rewrite !string_app_assoc. }
    by apply trim_graphic.
  - apply trim_all_graphic. rewrite string_app_nil_r, all_chars_app, Ht. by destruct negated.
Qed.

Lemma strip_negation p :
  writable p = true ->
  match strip_prefix "!" (print_pattern p) with
  | Some rest => (true, rest)
  | None => (false, print_pattern p)
  end = (p_negated p, print_body p).
Proof.
  destruct p as [tool arg negated]; unfold writable, print_pattern, print_body;
    cbn [p_negated p_tool_name p_arg_pattern].
  rewrite !andb_true_iff; intros [[[Ht Hp] Hn] Ha]. destruct negated.
  - by rewrite strip_prefix_app.
  - rewrite string_app_nil_l, strip_prefix_none; [done|].
    destruct tool as [|c tool]; [by destruct arg|]. rewrite string_app_cons.
    intros <-. by destruct tool.
Qed.

(** The grammar is unambiguous: reading a printed pattern gives it back. *)
Theorem parse_print_pattern p : writable p = true -> parse_pattern (print_pattern p) = Some p.
Proof.
  intros Hw. unfold parse_pattern. rewrite print_trimmed, strip_negation by done.
  destruct p as [tool [arg|] negated]; unfold writable, print_body in *; simpl in *;
    rewrite !andb_true_iff in Hw; destruct Hw as [[[Ht Hp] Hn] Ha].
  - destruct Ha as [Hne%negb_true_iff Ha%bool_decide_eq_true].
    change ("(" +:+ arg +:+ ")") with (String "(" (arg +:+ ")")).
    rewrite split_once_app by done. change ")" with (String ")" ""). rewrite rsplit_once_last.
    rewrite Ha, trim_all_graphic by done. by rewrite Hne.
  - rewrite string_app_nil_r, split_once_no_char by done. done.
Qed.

(** A rule with an argument pattern does not look at the call's arguments when
    no matcher of the tool is given, as in every policy on tool names: it
    never matches, and its negation matches every call. *)
Theorem argument_rules_inert glob_set rule tool parsed arg :
  parse_pattern rule = Some parsed -> p_arg_pattern parsed = Some arg ->
  match_permission_rule glob_set rule tool None = p_negated parsed.
Proof.
  intros Hp Ha. unfold match_permission_rule, matches_positive. rewrite Hp, Ha.
  by destruct (_ && _), (p_negated parsed).
Qed.

Lemma parse_print_pattern_witness :
  writable (mkPattern "Write" (Some "/foo/**") true) = true /\
  parse_pattern (print_pattern (mkPattern "Write" (Some "/foo/**") true))
  = Some (mkPattern "Write" (Some "/foo/**") true).
Proof. split; [done|apply parse_print_pattern; reflexivity]. Defined.

Lemma argument_rules_inert_witness :
  parse_pattern "!Bash(rm *)" = Some (mkPattern "Bash" (Some "rm *") true) /\
  match_permission_rule (fun _ => None) "!Bash(rm *)" "Bash" None = true.
Proof.
  split; [reflexivity|].
  apply (argument_rules_inert (fun _ => None) "!Bash(rm *)" "Bash"
           (mkPattern "Bash" (Some "rm *") true) "rm *"); reflexivity.
Defined.
