(* ===== verification/ToolAccess.v ===== *)
(** * Access conflicts of tool calls: [mirri-core/src/tool.rs]

    When two tool calls of a batch may run side by side: [ToolAccess::conflicts],
    its pairwise rule and the overlap of paths. *)
From S2P Require Import Prelude RustStd.
#[local] Open Scope string_scope.

Inductive AccessKind : Type := All | File | Search.
Inductive AccessOperation : Type := Read | Write | ReadWrite.

#[export] Instance AccessKind_eq_dec : EqDecision AccessKind. Proof. solve_decision. Defined.
#[export] Instance AccessOperation_eq_dec : EqDecision AccessOperation.
Proof. solve_decision. Defined.

Record ToolAccess : Type := mkToolAccess {
  kind : AccessKind;
  path : option string;
  operation : AccessOperation
}.

(** [str::trim_end_matches('/')] *)
Fixpoint trim_end_slashes (s : string) : string :=
  match s with
  | "" => ""
  | String c s' =>
    let rest := trim_end_slashes s' in
    if bool_decide (rest = "") && bool_decide (c = "/"%char) then "" else String c rest
  end.

Section access.
(** [str::to_lowercase], the Unicode mapping *)
Variable to_lowercase : string -> string.

Definition normal_path (p : string) : string := trim_end_slashes (to_lowercase p).

Definition paths_overlap (a b : string) : bool :=
  let a := normal_path a in
  let b := normal_path b in
  bool_decide (a = b) || String.prefix (b +:+ "/") a || String.prefix (a +:+ "/") b.

Definition writes (a : ToolAccess) : bool :=
  match operation a with Write | ReadWrite => true | Read => false end.

Definition conflicts_pair (left right : ToolAccess) : bool :=
  if bool_decide (kind left = All) || bool_decide (kind right = All) then true
  else if bool_decide (kind left = File) && bool_decide (kind right = File) then
    if negb (writes left || writes right) then false
    else match path left, path right with
         | Some lp, Some rp => paths_overlap lp rp
         | _, _ => true
         end
  else false.

Definition conflicts (left right : list ToolAccess) : bool :=
  existsb (fun l => existsb (fun r => conflicts_pair l r) right) left.
End access.

(** ** Paths as sequences of components *)

Definition components (p : string) : list string := split "/" p.

Lemma prefix_spec (a b : string) : String.prefix a b = true <-> exists rest, b = a +:+ rest.
Proof.
  revert b. induction a as [|c a IH]; intros b; simpl.
  - split; [intros _; by exists b|intros _; by destruct b].
  - destruct b as [|d b]; [split; [done|intros [rest Hr]; by rewrite string_app_cons in Hr]|].
    cbn [String.prefix]. destruct (ascii_dec c d) as [->|Hne].
    + rewrite IH. split; intros [rest Hr]; exists rest; rewrite string_app_cons in *;
        [by rewrite Hr|by injection Hr].
    + split; [done|]. intros [rest Hr]. rewrite string_app_cons in Hr. by injection Hr.
Qed.

Lemma split_go_app_gen sep cur s s' :
  split_go sep cur (s +:+ String sep s') = (split_go sep cur s ++ split_go sep "" s')%list.
Proof.
  revert cur. induction s as [|c s IH]; intros cur.
  - rewrite string_app_nil_l. simpl. by rewrite decide_True.
  - rewrite string_app_cons. simpl. destruct (decide (c = sep)); [simpl; by rewrite IH|apply IH].
Qed.

Lemma components_app a rest :
  components (a +:+ "/" +:+ rest) = (components a ++ components rest)%list.
Proof. apply split_go_app_gen. Qed.

Lemma concat_split_go sep cur s : String.concat (String sep "") (split_go sep cur s) = cur +:+ s.
Proof.
  revert cur. induction s as [|c s IH]; intros cur; simpl; [by rewrite string_app_nil_r|].
  destruct (decide (c = sep)) as [->|].
  - assert (Hn : split_go sep "" s <> []) by apply (split_not_nil sep s).
    specialize (IH ""). destruct (split_go sep "" s) as [|x l]; [done|].
    change (cur +:+ String sep (String.concat (String sep "") (x :: l)) = cur +:+ String sep s).
    by rewrite IH.
  - rewrite IH. by rewrite <- string_app_assoc.
Qed.

Lemma components_inj a b : components a = components b -> a = b.
Proof.
  intros Hc. pose proof (concat_split_go "/" "" a) as Ha. pose proof (concat_split_go "/" "" b) as Hb.
  unfold components, split in Hc. rewrite Hc, Hb in Ha. done.
Qed.

Lemma concat_app sep (l : list string) rest :
  l <> [] -> rest <> [] ->
  String.concat sep (l ++ rest) = String.concat sep l +:+ sep +:+ String.concat sep rest.
Proof.
  intros Hl Hr. induction l as [|x l IH]; [done|]. destruct l as [|y l].
  - destruct rest as [|z rest]; [done|]. done.
  - change (x +:+ sep +:+ String.concat sep ((y :: l) ++ rest)
            = (x +:+ sep +:+ String.concat sep (y :: l)) +:+ sep +:+ String.concat sep rest).
    rewrite IH by done. by rewrite <- !string_app_assoc.
Qed.

(** One path lies under another: its components extend the other's. *)
Lemma under_spec a b :
  (a = b \/ String.prefix (b +:+ "/") a = true) <-> components b `prefix_of` components a.
Proof.
  rewrite prefix_spec. split.
  - intros [-> | [rest ->]]; [done|]. exists (components rest).
    rewrite <- string_app_assoc. apply components_app.
  - intros [l Hl]. destruct l as [|x l].
    + left. apply components_inj. by rewrite app_nil_r in Hl.
    + right. exists (String.concat "/" (x :: l)).
      pose proof (concat_split_go "/" "" a) as Ha. fold (components a) in Ha.
      change (split_go "/" "" a) with (components a) in Ha. rewrite Hl in Ha.
      rewrite concat_app in Ha by (done || apply split_not_nil).
      change (components b) with (split_go "/" "" b) in Ha. rewrite concat_split_go in Ha.
      rewrite !string_app_nil_l in Ha. rewrite <- Ha. by rewrite string_app_assoc.
Qed.

Section properties.
Context (to_lowercase : string -> string).

(** The components of a path up to case and trailing slashes. *)
Definition normal_components (p : string) : list string := components (normal_path to_lowercase p).

Lemma paths_overlap_iff a b :
  paths_overlap to_lowercase a b = true <->
  normal_components a `prefix_of` normal_components b \/
  normal_components b `prefix_of` normal_components a.
Proof.
  unfold paths_overlap, normal_components. rewrite !orb_true_iff, bool_decide_eq_true.
  rewrite <- !under_spec. intuition congruence.
Qed.

(** Two paths overlap exactly when one's components, up to case and
    trailing slashes, are a prefix of the other's: a directory overlaps all
    that lies under it, and a path that merely starts with the same letters
    does not. *)
Theorem paths_overlap_components a b :
  paths_overlap to_lowercase a b = true <->
  normal_components a `prefix_of` normal_components b \/
  normal_components b `prefix_of` normal_components a.
Proof. apply paths_overlap_iff. Qed.

Lemma conflicts_pair_sym l r :
  conflicts_pair to_lowercase l r = conflicts_pair to_lowercase r l.
Proof.
  unfold conflicts_pair. rewrite (orb_comm (bool_decide (kind l = All))).
  destruct (_ || _); [done|]. rewrite (andb_comm (bool_decide (kind l = File))).
  destruct (_ && _); [|done]. rewrite (orb_comm (writes l)). destruct (negb _); [done|].
  destruct (path l) as [lp|], (path r) as [rp|]; try done.
  apply eq_true_iff_eq. rewrite !paths_overlap_iff. tauto.
Qed.

Lemma writes_spec a : writes a = true <-> operation a <> Read.
Proof. unfold writes. destruct (operation a); naive_solver. Qed.

Lemma conflicts_pair_spec l r :
  conflicts_pair to_lowercase l r = true <->
  kind l = All \/ kind r = All \/
  kind l = File /\ kind r = File /\ (operation l <> Read \/ operation r <> Read) /\
  forall lp rp, path l = Some lp -> path r = Some rp ->
    normal_components lp `prefix_of` normal_components rp \/
    normal_components rp `prefix_of` normal_components lp.
Proof.
  unfold conflicts_pair. rewrite <- !writes_spec.
  destruct (kind l), (kind r); simpl; try naive_solver.
  destruct (writes l), (writes r); simpl; try naive_solver;
    destruct (path l) as [lp|], (path r) as [rp|]; rewrite ?paths_overlap_iff; naive_solver.
Qed.

Lemma conflicts_spec left right :
  conflicts to_lowercase left right = true <->
  exists l r, l ∈ left /\ r ∈ right /\ conflicts_pair to_lowercase l r = true.
Proof.
  unfold conflicts. rewrite existsb_exists. setoid_rewrite existsb_exists.
  setoid_rewrite <- list_elem_of_In. naive_solver.
Qed.

Lemma conflicts_sym left right :
  conflicts to_lowercase left right = conflicts to_lowercase right left.
Proof.
  apply eq_true_iff_eq. rewrite !conflicts_spec. setoid_rewrite (conflicts_pair_sym) at 1.
  naive_solver.
Qed.

(** What a conflict is: two access lists conflict when a pair of their
    accesses does, whichever comes first; a pair conflicts when one side is a
    global mutex, or both are file accesses, one of them writes, and their
    paths overlap or one is unknown.  Reads never conflict with reads, and a
    search only with a global mutex. *)
Theorem conflicts_exactly left right :
  conflicts to_lowercase left right = conflicts to_lowercase right left /\
  (conflicts to_lowercase left right = true <->
   exists l r, l ∈ left /\ r ∈ right /\
     (kind l = All \/ kind r = All \/
      kind l = File /\ kind r = File /\ (operation l <> Read \/ operation r <> Read) /\
      forall lp rp, path l = Some lp -> path r = Some rp ->
        normal_components lp `prefix_of` normal_components rp \/
        normal_components rp `prefix_of` normal_components lp)).
Proof.
  split; [apply conflicts_sym|]. rewrite conflicts_spec.
  setoid_rewrite conflicts_pair_spec. done.
Qed.
End properties.
