(* ===== verification/PermPolicies.v ===== *)
(** * The permission policies: [mirri-core/src/permission/policies.rs]

    What a policy sees of a tool call, its verdicts, and the policies one by one.
    A policy is a function of the context and of the session services it holds;
    [Pass] leaves the call to the next one. *)
From stdpp Require Import gmap list strings.
From S2P Require Import Prelude RustStd Json NetClass ToolAccess PathSandbox PermRules.
#[local] Open Scope string_scope.
#[local] Open Scope list_scope.
#[local] Open Scope Z_scope.

(** ** Rules, modes and contexts *)

Inductive PermissionMode : Type := Manual | Yolo | Auto.
(** [RuleDecision]: [Allow], [Deny], [Ask]. *)
Inductive RuleDecision : Type := AllowRule | DenyRule | AskRule.
Inductive RuleScope : Type := TurnOverride | SessionRuntime | Project | User.

#[export] Instance PermissionMode_eq_dec : EqDecision PermissionMode.
Proof. solve_decision. Defined.
#[export] Instance RuleDecision_eq_dec : EqDecision RuleDecision.
Proof. solve_decision. Defined.
#[export] Instance RuleScope_eq_dec : EqDecision RuleScope.
Proof. solve_decision. Defined.

Record PermissionRule : Type := mkRule {
  decision : RuleDecision;
  scope : RuleScope;
  pattern : string;
  reason : option string
}.

Record ScheduledTaskCreateDisplay : Type := mkScheduledTaskCreateDisplay {
  sd_cron : string;
  sd_timezone : option string;
  sd_workspace_id : string;
  sd_permission_mode : option string;
  sd_model : option string;
  sd_effort : option string;
  sd_title : option string;
  sd_prompt : string;
  sd_recurring : bool;
  sd_max_fires : option Z;
  sd_reason : option string
}.

Record PlanReviewOption : Type := mkPlanReviewOption {
  po_label : string;
  po_description : option string
}.

(** [ToolInputDisplay] *)
Inductive ToolInputDisplay : Type :=
| CommandDisplay (command : string)
| FileIo (path operation : string)
| Diff (path before after : string)
| SearchDisplay (query : string) (scope : option string)
| UrlFetch (url : string)
| AgentCall (agent_name prompt : string) (background : option bool)
| SkillCall (skill_name : string) (args : option string)
| TodoListDisplay
| BackgroundTask
| TaskStop (task_id : string)
| PlanReview (plan : string) (path : option string) (options : list PlanReviewOption)
| GoalStart (objective : string) (completion_criterion : option string)
| ScheduledTaskCreate (display : ScheduledTaskCreateDisplay)
| Generic (summary : string).

Inductive TurnOriginContext : Type :=
| Interactive
| CronTurn (readonly reject_asks workspace : bool) (task_id : string).

(** [PermissionPolicyContext]; no policy reads its cancel token. *)
Record PermissionPolicyContext : Type := mkContext {
  tool_name : string;
  tool_call_id : string;
  args : json;
  approval_rule : string;
  display : ToolInputDisplay;
  accesses : list ToolAccess;
  mode : PermissionMode;
  rules : list PermissionRule;
  session_approvals : gset string;
  net_class : option (NetClass * list IpAddr);
  turn_origin : TurnOriginContext
}.

Inductive PermissionPolicyResult : Type :=
| Approve (reason : option string)
| Deny (reason message : option string)
| Ask (reason : option string) (grant_dir : option Path) (deny_when_unattended never_auto_approve : bool)
| Pass.

(** [PermissionServices], as the policies read them at an evaluation: whether
    plan mode and swarm mode are active, and the sandbox's verdict on a path. *)
Record PermissionServices : Type := mkServices {
  sv_plan : option bool;
  sv_swarm_mode : option bool;
  sv_workspace_paths : option (Path -> PathClassification)
}.

Definition no_services : PermissionServices := mkServices None None None.

(** The crates the policies call: the glob sets of tool names, the globs of
    paths, the host of a URL; and the Unicode lower-casing. *)
Class PermEnv : Type := {
  glob_set : string -> option (string -> bool);
  path_glob : string -> option (Path -> bool);
  url_host : string -> option string;
  to_lowercase : string -> string
}.

(** ** Helpers *)

Definition OUTSIDE_SANDBOX_DENIAL_CONTRACT : string :=
  "NEVER attempt to access this path through any other means (other tools, shell commands, sub-agents, or alternate path spellings). If the task genuinely requires it, ask the user directly and respect their decision.".

(** A double quote. *)
Definition QUOTE : string := String (ascii_of_nat 34) "".

Definition DEFAULT_APPROVE_TOOLS : list string :=
  ["Read"; "Grep"; "Glob"; "ReadMediaFile"; "TodoList"; "TaskList"; "TaskOutput"; "SetTimer";
   "WebSearch"; "FetchURL"; "Agent"; "AskUserQuestion"; "Skill"; "GetGoal"; "SetGoalBudget";
   "UpdateGoal"; "select_tools"].

Definition PLAN_MODE_ALLOWED_TOOLS : list string :=
  ["enter_plan_mode"; "exit_plan_mode"; "EnterPlanMode"; "ExitPlanMode"; "AskUserQuestion";
   "read"; "glob"; "grep"].

Definition BOUNDARY_TOOLS : list string :=
  ["Read"; "Write"; "Edit"; "Glob"; "Grep"; "ReadMediaFile"].

(** [crate::cron::AGENT_CRON_FIRE_GATE] *)
Definition AGENT_CRON_FIRE_GATE : Z := 3.

Definition user_scopes : list RuleScope := [TurnOverride; Project; User].

Definition plain_ask (reason : string) : PermissionPolicyResult := Ask (Some reason) None false false.

Section policies.
Context `{PermEnv}.

Definition is_sensitive_file (path : string) : bool :=
  let path := to_lowercase path in
  let basename := default path (last (split "/" path)) in
  if String.prefix ".env" basename then
    negb (ends_with ".example" basename) && negb (ends_with ".sample" basename)
    && negb (ends_with ".template" basename)
  else if String.prefix "id_rsa" basename || String.prefix "id_ed25519" basename
          || String.prefix "id_ecdsa" basename then negb (ends_with ".pub" basename)
  else if str_contains "credentials" basename then true
  else str_contains ".aws/credentials" path || str_contains ".gcp/credentials" path.

Definition is_git_control_path (path : string) : bool :=
  bool_decide (".git" ∈ split "/" path).

(** The first rule of a decision, in a user scope, that matches the tool name. *)
Definition user_rule (d : RuleDecision) (ctx : PermissionPolicyContext) : option PermissionRule :=
  find (fun rule => bool_decide (decision rule = d) && bool_decide (scope rule ∈ user_scopes)
                    && match_permission_rule glob_set (pattern rule) (tool_name ctx) None)
    (rules ctx).

(** ** The policies *)

Definition CreateScheduledTaskNeverAutoApprovePolicy (ctx : PermissionPolicyContext)
  : PermissionPolicyResult :=
  if bool_decide (tool_name ctx = "CreateScheduledTask")
  then Ask (Some "workspace scheduled task creation requires user approval") None false true
  else Pass.

Definition AgentSwarmExclusiveDenyPolicy (swarm_mode : option bool) (ctx : PermissionPolicyContext)
  : PermissionPolicyResult :=
  match swarm_mode with
  | Some true =>
    if eq_ignore_ascii_case (tool_name ctx) "agent"
    then Deny (Some "agent-swarm-exclusive-deny")
           (Some "Swarm mode is active: the Agent tool (subagent spawning) is not allowed. Use AgentSwarm to run subagents in swarm mode.")
    else Pass
  | _ => Pass
  end.

Definition AutoModeAskUserQuestionDenyPolicy (ctx : PermissionPolicyContext)
  : PermissionPolicyResult :=
  if bool_decide (mode ctx = Auto) && bool_decide (tool_name ctx = "AskUserQuestion")
  then Deny (Some "auto-mode-ask-user-question") (Some "AskUserQuestion is not allowed in auto mode")
  else Pass.

Definition PlanModeGuardDenyPolicy (plan : option bool) (ctx : PermissionPolicyContext)
  : PermissionPolicyResult :=
  match plan with
  | Some true =>
    if existsb (eq_ignore_ascii_case (tool_name ctx)) PLAN_MODE_ALLOWED_TOOLS then Pass
    else Deny (Some "plan-mode-guard-deny")
           (Some ("Plan mode is active. Only read-only tools (Read, Grep, Glob), AskUserQuestion, and plan-mode controls (EnterPlanMode, ExitPlanMode) are allowed. '"
                  +:+ tool_name ctx +:+ "' is not permitted while in plan mode."))
  | _ => Pass
  end.

Definition UserConfiguredDenyPolicy (ctx : PermissionPolicyContext) : PermissionPolicyResult :=
  match user_rule DenyRule ctx with
  | Some rule => Deny (reason rule) (Some ("Denied by rule: " +:+ pattern rule))
  | None => Pass
  end.

Definition PrivateNetworkFetchDenyPolicy (ctx : PermissionPolicyContext) : PermissionPolicyResult :=
  if negb (bool_decide (tool_name ctx = "FetchURL")) then Pass
  else match net_class ctx with
       | Some (Metadata, ips) =>
         Deny (Some "cloud-metadata-endpoint")
           (Some ("Refusing to fetch cloud metadata endpoint " +:+ QUOTE +:+
              default "" (ip_to_string <$> head ips) +:+ QUOTE +:+ " — permanently blocked to protect credentials. NEVER attempt to reach it through any other means (other tools, shell commands, sub-agents, or alternate spellings). If the task genuinely requires it, ask the user directly and respect their decision."))
       | _ => Pass
       end.

Definition fetch_host_from_ctx (ctx : PermissionPolicyContext) : option string :=
  match strip_prefix "FetchURL(host:" (approval_rule ctx) ≫= strip_suffix ")" with
  | Some host => Some host
  | None => str_field "url" (args ctx) ≫= host_of_url to_lowercase url_host
  end.

Definition summarize_ips (ips : list IpAddr) : string :=
  let head := join ", " (ip_to_string <$> take 3 ips) in
  if bool_decide (3 < length ips)%nat
  then head +:+ " (+" +:+ pretty (length ips - 3)%nat +:+ ")" else head.

(** A user allow rule for the host facet of the call. *)
Definition facet_hit (host : string) (rule : PermissionRule) : bool :=
  bool_decide (decision rule = AllowRule) && bool_decide (scope rule ∈ user_scopes) &&
  match_permission_rule glob_set (pattern rule) "FetchURL"
    (Some (fun arg => bool_decide (arg = "host:" +:+ host))).

Definition PrivateNetworkFetchAskPolicy (ctx : PermissionPolicyContext) : PermissionPolicyResult :=
  if negb (bool_decide (tool_name ctx = "FetchURL")) then Pass
  else match net_class ctx with
       | Some (Askable, ips) =>
         match fetch_host_from_ctx ctx with
         | None => Pass
         | Some host =>
           if bool_decide (approval_rule ctx ∈ session_approvals ctx)
              || bool_decide (("FetchURL(host:" +:+ host +:+ ")") ∈ session_approvals ctx) then Pass
           else if existsb (facet_hit host) (rules ctx) then Pass
           else
             let trigger_ip :=
               match find (fun ip => bool_decide (classify_ip ip = Askable)) ips with
               | Some ip => Some ip
               | None => head ips
               end in
             let class_name :=
               match trigger_ip with Some ip => segment_name ip | None => "private" end in
             Ask (Some ("private-network fetch: host '" +:+ host +:+ "' resolves to " +:+
                    summarize_ips ips +:+ " (" +:+ class_name +:+ ")")) None true false
         end
       | _ => Pass
       end.

Definition agent_cron_gate_denial (declared : option Z) : string :=
  "SetTimer 拒绝：声明的触发预算（" +:+
  match declared with Some max => pretty max +:+ " 次" | None => "无上限" end +:+
  "）超过无人审批安全门槛 " +:+ pretty AGENT_CRON_FIRE_GATE +:+
  " 次（或未声明上限）。当前执行姿态下更高预算不可达成，重试不会改变该结果。改道路径：创建符合门槛（≤ "
  +:+ pretty AGENT_CRON_FIRE_GATE +:+ " 次或一次性）的任务并告知用户，或请用户从管理面直接创建。".

Definition AgentCronBudgetGatePolicy (ctx : PermissionPolicyContext) : PermissionPolicyResult :=
  if negb (bool_decide (tool_name ctx = "SetTimer")) then Pass
  else
    let recurring := default false (jget "recurring" (args ctx) ≫= as_bool) in
    let declared :=
      match jget "max_fires" (args ctx) with
      | Some v => as_u64 v
      | None => jget "maxFires" (args ctx) ≫= as_u64
      end in
    if negb recurring && bool_decide (is_Some declared) then
      Deny (Some "agent-cron-budget-gate:one-shot-with-budget")
        (Some "一次性任务无此参数（one-shot 恰好触发一次，max_fires 仅适用于循环任务）")
    else
      let budget := if recurring then declared else Some 1 in
      let within_gate :=
        match budget with Some budget => budget <=? AGENT_CRON_FIRE_GATE | None => false end in
      if within_gate then Pass
      else
        let plan := default "" (str_field "cron" (args ctx)) in
        match turn_origin ctx with
        | CronTurn _ _ true _ =>
          Deny (Some "agent-cron-budget-gate:workspace-run") (Some (agent_cron_gate_denial declared))
        | _ =>
          match mode ctx with
          | Manual | Yolo =>
            Ask (Some ("SetTimer budget gate: plan '" +:+ plan +:+ "' declares " +:+
                   match declared with Some max => pretty max +:+ " fires" | None => "no cap" end +:+
                   " — over the unattended-safe gate of " +:+ pretty AGENT_CRON_FIRE_GATE +:+
                   " fires (or no cap); approve to allow the full budget")) None true false
          | Auto =>
            Deny (Some "agent-cron-budget-gate:auto-mode") (Some (agent_cron_gate_denial declared))
          end
        end.

Definition AutoModeApprovePolicy (ctx : PermissionPolicyContext) : PermissionPolicyResult :=
  if bool_decide (mode ctx = Auto) then Approve (Some "auto-mode") else Pass.

Definition SessionApprovalHistoryPolicy (ctx : PermissionPolicyContext) : PermissionPolicyResult :=
  if existsb (fun pattern => match_permission_rule glob_set pattern (tool_name ctx) None)
       (elements (session_approvals ctx))
  then Approve (Some "approve for session") else Pass.

Definition UserConfiguredAskPolicy (ctx : PermissionPolicyContext) : PermissionPolicyResult :=
  match user_rule AskRule ctx with
  | Some rule =>
    Ask (match reason rule with Some r => Some r | None => Some ("Ask rule: " +:+ pattern rule) end)
      None false false
  | None => Pass
  end.

Definition UserConfiguredAllowPolicy (ctx : PermissionPolicyContext) : PermissionPolicyResult :=
  match user_rule AllowRule ctx with
  | Some rule => Approve (reason rule)
  | None => Pass
  end.

Definition ExitPlanModeReviewAskPolicy (ctx : PermissionPolicyContext) : PermissionPolicyResult :=
  match display ctx with
  | PlanReview _ _ _ =>
    if bool_decide (tool_name ctx = "ExitPlanMode") && negb (bool_decide (mode ctx = Auto))
    then plain_ask "plan-review" else Pass
  | _ => Pass
  end.

Definition GoalStartReviewAskPolicy (ctx : PermissionPolicyContext) : PermissionPolicyResult :=
  match display ctx with
  | GoalStart _ _ =>
    if bool_decide (tool_name ctx = "CreateGoal") && negb (bool_decide (mode ctx = Auto))
    then plain_ask "goal-start" else Pass
  | _ => Pass
  end.

Definition PlanModeToolApprovePolicy (ctx : PermissionPolicyContext) : PermissionPolicyResult :=
  if bool_decide (tool_name ctx = "EnterPlanMode") || bool_decide (tool_name ctx = "ExitPlanMode")
  then Approve (Some "plan-mode-tool") else Pass.

(** Some access of the call is to a file whose path satisfies [p]. *)
Definition file_access (p : string -> bool) (ctx : PermissionPolicyContext) : bool :=
  existsb (fun access => bool_decide (kind access = File) &&
                         match path access with Some path => p path | None => false end)
    (accesses ctx).

Definition SensitiveFileAccessAskPolicy (ctx : PermissionPolicyContext) : PermissionPolicyResult :=
  if file_access is_sensitive_file ctx then plain_ask "sensitive-file" else Pass.

Definition GitControlPathAccessAskPolicy (ctx : PermissionPolicyContext) : PermissionPolicyResult :=
  if file_access is_git_control_path ctx then plain_ask "git-control-path" else Pass.

Definition YoloModeApprovePolicy (ctx : PermissionPolicyContext) : PermissionPolicyResult :=
  if bool_decide (mode ctx = Yolo) then Approve (Some "yolo-mode") else Pass.

Definition SwarmModeAgentSwarmApprovePolicy (swarm_mode : option bool)
    (ctx : PermissionPolicyContext) : PermissionPolicyResult :=
  match swarm_mode with
  | Some true =>
    if bool_decide (to_ascii_lowercase (tool_name ctx) = "agent-swarm")
       || bool_decide (to_ascii_lowercase (tool_name ctx) = "agentswarm")
    then plain_ask "swarm-mode-agent-swarm" else Pass
  | _ => Pass
  end.

Definition grant_dir_for (tool_name : string) (canonical : Path) : Path :=
  if bool_decide (tool_name ∈ ["Glob"; "Grep"]) then canonical
  else default canonical (parent canonical).

(** A [path:] rule whose glob matches. *)
Definition path_rule (canonical : Path) (rule : PermissionRule) : bool :=
  match strip_prefix "path:" (pattern rule) with
  | None => false
  | Some suffix => match path_glob suffix with Some is_match => is_match canonical | None => false end
  end.

Definition WorkspaceBoundaryPolicy (workspace_paths : option (Path -> PathClassification))
    (ctx : PermissionPolicyContext) : PermissionPolicyResult :=
  match workspace_paths with
  | None => Pass
  | Some classify =>
    if negb (bool_decide (tool_name ctx ∈ BOUNDARY_TOOLS)) then Pass
    else match str_field "path" (args ctx) with
         | None | Some "" => Pass
         | Some path_arg =>
           match classify (components path_arg) with
           | Outside canonical =>
             let grant_dir := grant_dir_for (tool_name ctx) canonical in
             match find (path_rule canonical) (rules ctx) with
             | Some rule =>
               match decision rule with
               | DenyRule =>
                 Deny (Some "outside-sandbox path rule")
                   (Some ("access to paths matching '" +:+ pattern rule +:+ "' is denied by rule. "
                            +:+ OUTSIDE_SANDBOX_DENIAL_CONTRACT))
               | AllowRule => Approve (Some "outside-sandbox path rule")
               | AskRule => Ask (Some "outside-sandbox path rule") (Some grant_dir) false false
               end
             | None =>
               Ask (Some "the path is outside the workspace sandbox") (Some grant_dir) false false
             end
           | _ => Pass
           end
         end
  end.

Definition DefaultToolApprovePolicy (ctx : PermissionPolicyContext) : PermissionPolicyResult :=
  if bool_decide (tool_name ctx ∈ DEFAULT_APPROVE_TOOLS) then Approve (Some "default-approve") else Pass.

Definition GitCwdWriteApprovePolicy (ctx : PermissionPolicyContext) : PermissionPolicyResult :=
  if existsb (fun access => writes access &&
                match path access with Some path => is_git_control_path path | None => false end)
       (accesses ctx)
  then plain_ask "git-cwd-write" else Pass.

Definition FallbackAskPolicy (ctx : PermissionPolicyContext) : PermissionPolicyResult :=
  plain_ask "fallback".
End policies.
