(* ===== verification/PermGate.v ===== *)
(** * The permission gate: [mirri-core/src/permission/mod.rs] and the authorize hook of
      [mirri-core/src/turn_flow/hooks.rs]

    The policy chain in its order, the permission manager with its rules and
    the session's shared approvals, the synchronous translation of a verdict
    and [TurnFlowHooks::authorize_tool_execution], which puts an ask before a
    person.  The theorems say who can let a tool call run. *)
From stdpp Require Import gmap list strings.
From S2P Require Import Prelude RustStd Json NetClass ToolAccess PathSandbox PermRules PermPolicies.
#[local] Open Scope string_scope.
#[local] Open Scope list_scope.
#[local] Open Scope Z_scope.

(** ** The chain *)

Section chain.
Context `{PermEnv}.

(** [create_default_policies] *)
Definition create_default_policies (services : PermissionServices)
  : list (PermissionPolicyContext -> PermissionPolicyResult) :=
  [ CreateScheduledTaskNeverAutoApprovePolicy;
    AgentSwarmExclusiveDenyPolicy (sv_swarm_mode services);
    AutoModeAskUserQuestionDenyPolicy;
    PlanModeGuardDenyPolicy (sv_plan services);
    UserConfiguredDenyPolicy;
    PrivateNetworkFetchDenyPolicy;
    PrivateNetworkFetchAskPolicy;
    AgentCronBudgetGatePolicy;
    AutoModeApprovePolicy;
    SessionApprovalHistoryPolicy;
    UserConfiguredAskPolicy;
    UserConfiguredAllowPolicy;
    ExitPlanModeReviewAskPolicy;
    GoalStartReviewAskPolicy;
    PlanModeToolApprovePolicy;
    SensitiveFileAccessAskPolicy;
    GitControlPathAccessAskPolicy;
    YoloModeApprovePolicy;
    SwarmModeAgentSwarmApprovePolicy (sv_swarm_mode services);
    WorkspaceBoundaryPolicy (sv_workspace_paths services);
    DefaultToolApprovePolicy;
    GitCwdWriteApprovePolicy;
    FallbackAskPolicy ].

(** [PermissionManager::evaluate] over a list of policies *)
Fixpoint evaluate (policies : list (PermissionPolicyContext -> PermissionPolicyResult))
    (ctx : PermissionPolicyContext) : PermissionPolicyResult :=
  match policies with
  | [] => plain_ask "No policy decided"
  | policy :: policies =>
    match policy ctx with
    | Pass => evaluate policies ctx
    | result => result
    end
  end.

Definition decide_call (services : PermissionServices) : PermissionPolicyContext -> PermissionPolicyResult :=
  evaluate (create_default_policies services).
End chain.

(** ** The manager *)

(** The [SessionApprovals] stores, by the identity of the shared object. *)
Notation Stores := (gmap positive (gset string)).

(** The approvals live in the store [pm_store] names, which other managers
    of the session may share. *)
Inductive PermissionManager : Type := mkManager {
  pm_mode : PermissionMode;
  pm_effective_rules : list PermissionRule;
  pm_services : PermissionServices;
  pm_store : positive;
  pm_parent : option PermissionManager;
  pm_headless : bool
}.

Definition patterns (stores : Stores) (store : positive) : gset string := default ∅ (stores !! store).

(** [SessionApprovals::record] *)
Definition record (store : positive) (pattern : string) (stores : Stores) : Stores :=
  <[store := {[pattern]} ∪ patterns stores store]> stores.

Definition with_shared_approvals (mode : PermissionMode) (rules : list PermissionRule)
    (services : PermissionServices) (store : positive) : PermissionManager :=
  mkManager mode rules services store None false.

(** [with_parent]: the store is a fresh one. *)
Definition with_parent (mode : PermissionMode) (rules : list PermissionRule)
    (parent : PermissionManager) (fresh : positive) : PermissionManager :=
  mkManager mode (rules ++ pm_effective_rules parent) no_services fresh (Some parent)
    (pm_headless parent).

Definition set_headless (headless : bool) (m : PermissionManager) : PermissionManager :=
  mkManager (pm_mode m) (pm_effective_rules m) (pm_services m) (pm_store m) (pm_parent m) headless.

Definition set_mode (mode : PermissionMode) (m : PermissionManager) : PermissionManager :=
  mkManager mode (pm_effective_rules m) (pm_services m) (pm_store m) (pm_parent m) (pm_headless m).

Definition set_rules (rules : list PermissionRule) (m : PermissionManager) : PermissionManager :=
  let effective :=
    match pm_parent m with
    | Some parent => rules ++ pm_effective_rules parent
    | None => rules
    end in
  mkManager (pm_mode m) effective (pm_services m) (pm_store m) (pm_parent m) (pm_headless m).

Fixpoint all_session_approvals (stores : Stores) (m : PermissionManager) : gset string :=
  patterns stores (pm_store m) ∪
  match pm_parent m with
  | Some parent => all_session_approvals stores parent
  | None => ∅
  end.

Definition record_approval (m : PermissionManager) (pattern : string) (stores : Stores) : Stores :=
  record (pm_store m) pattern stores.

(** ** Verdicts *)

(** [AuthorizeToolResult]; the gate produces no [Synthetic] result. *)
Inductive AuthorizeToolResult : Type :=
| Approved (metadata : option json)
| Blocked (reason : string).

(** [PermissionResultOutcome] *)
Inductive PermissionResultOutcome : Type :=
| OutcomeApproved
| Rejected (feedback : string)
| OutcomeError (error : string).

Definition into_authorize_tool_result (outcome : PermissionResultOutcome) : AuthorizeToolResult :=
  match outcome with
  | OutcomeApproved => Approved None
  | Rejected feedback => Blocked feedback
  | OutcomeError error => Blocked error
  end.

(** [permission_result_input] *)
Definition permission_result_input (turn_id : Z) (tool_call_id tool_name action : string)
    (outcome : PermissionResultOutcome) : json :=
  JObj ([("turn_id", JNum turn_id); ("tool_call_id", JStr tool_call_id);
         ("tool_name", JStr tool_name); ("action", JStr action);
         ("decision", JStr match outcome with
                           | OutcomeApproved => "approved"
                           | Rejected _ => "rejected"
                           | OutcomeError _ => "error"
                           end)]
        ++ match outcome with
           | OutcomeApproved => []
           | Rejected feedback => [("feedback", JStr feedback)]
           | OutcomeError error => [("error", JStr error)]
           end).

Definition CRON_ASK_DENY_MESSAGE : string :=
  "该定时任务运行声明了「问询即拒」（旧记录姿态），需要用户问询的操作不可用（该操作需要审批而当前运行的记录声明了问询即拒）。请改用不需要用户问询的方式完成该步骤，或请用户调整任务的权限模式后重新运行，或放弃该步骤并在回执中说明。".
Definition READONLY_TOOL_DENY_MESSAGE : string :=
  "本任务处于只读观察模式，写类操作不可用（该工具不属于只读能力类别）。请改用只读工具（Read / Grep / Glob 等）完成该步骤，或放弃该步骤并在回执中说明。".
Definition CRON_LINEAGE_CREATE_DENY_MESSAGE : string :=
  "工作区定时任务不可在定时回合内创建（血统防线）——定时回合派生的执行链不可再创建工作区定时任务（含一次性）。如确需工作区定时任务，请在交互回合发起创建（会触发用户审批），或请用户从任务管理页直接创建。".
Definition NO_APPROVAL_MECHANISM : string := "approval required but no approval mechanism available".

(** A workspace cron run of a record that rejects every ask. *)
Definition rejects_asks (origin : TurnOriginContext) : bool :=
  match origin with CronTurn _ reject_asks workspace _ => workspace && reject_asks | Interactive => false end.

(** A workspace cron run whose asks wait on the gate alone. *)
Definition parks_asks (origin : TurnOriginContext) : bool :=
  match origin with
  | CronTurn _ reject_asks workspace _ => workspace && negb reject_asks
  | Interactive => false
  end.

Definition from_cron (origin : TurnOriginContext) : bool :=
  match origin with CronTurn _ _ _ _ => true | Interactive => false end.

(** [PermissionManager::before_tool_call]; the hook input it fires has the
    turn id 0. *)
Definition before_tool_call `{PermEnv} (m : PermissionManager) (ctx : PermissionPolicyContext)
  : AuthorizeToolResult :=
  match decide_call (pm_services m) ctx with
  | Approve _ => Approved None
  | Deny _ message => Blocked (default "Permission denied" message)
  | Ask _ _ deny_when_unattended never_auto_approve =>
    if never_auto_approve && pm_headless m then
      Blocked "该提议审批需要真实用户决策，任何自动应答路径都不可代批（headless 无审批面）。请等待用户通过审批面处理。"
    else if rejects_asks (turn_origin ctx) then Blocked CRON_ASK_DENY_MESSAGE
    else if deny_when_unattended then
      Blocked "private-network fetch requires user approval; no approver available in headless mode"
    else if pm_headless m then Approved None
    else Blocked NO_APPROVAL_MECHANISM
  | Pass => Approved None
  end.

(** ** The authorize hook *)

(** [ApprovalDecision] of the session's gate *)
Inductive ApprovalDecision : Type :=
| GateApproved
| ApprovedForSession
| Denied (feedback : string)
| Timeout.

(** How a wait on the gate ends: by the decision received, or because the
    turn was cancelled. *)
Inductive GateEnd : Type :=
| Decided (decision : ApprovalDecision)
| TurnCancelled.

(** How the race of the reverse RPC with the gate ends: by the client's reply,
    by a failed delivery, or on the gate's side. *)
Inductive RaceEnd : Type :=
| RpcReply (response : json)
| RpcFailed (error : string)
| GateFirst (gate_end : GateEnd).

(** The answers the call will meet: of the race, and of a wait on the gate
    alone. *)
Record Answers : Type := mkAnswers { race : RaceEnd; gate_wait : GateEnd }.

(** [AskChannel] *)
Inductive AskChannel : Type :=
| Rpc (reply : result string json)
| Gate (decision : ApprovalDecision)
| Cancelled.

(** What the hook does besides answering; a notice for a sink that is not
    attached is dropped by the caller. *)
Inductive Effect : Type :=
| AskedOp (tool decision : string) (reason : option string)
| ApprovalPending (tool_call_id : string)
| ApprovalResolved (tool_call_id : string)
| ApprovalWait (waiting : bool)
| HookPermissionRequest (input : json)
| HookPermissionResult (input : json)
| GateRegister
| GateResolve (decision : ApprovalDecision)
| GateWithdraw
| Suspended
| Resumed
| CallClient (request : json)
| ApplyGrant (dir : Path) (persist : bool)
| RecordResult (record : json)
| RecordApproval (pattern : string).

Record AuthorizeToolContext : Type := mkAuthorize {
  a_tool_name : string;
  a_tool_call_id : string;
  a_turn_id : string;
  a_args : json;
  a_approval_rule : string;
  a_display : ToolInputDisplay;
  a_tool_readonly : bool
}.

(** The parts of [TurnFlowHooks] the hook reads: the manager, whether a client
    answers reverse RPCs, whether the session has an interaction kernel and
    whether that has a grant sink, the turn's origin and the agent's id. *)
Record TurnFlowHooks : Type := mkHooks {
  h_permission_manager : option PermissionManager;
  h_reverse_rpc : bool;
  h_interaction_kernel : option bool;
  h_turn_origin : TurnOriginContext;
  h_agent_id : option string
}.

(** The serialisation of a display, and the [uuid] crate's parser. *)
Class GateEnv : Type := {
  display_json : ToolInputDisplay -> json;
  is_uuid : string -> bool
}.

(** [interpret_approval_response] with the grants it applies *)
Definition interpret_approval_response (response : json) (grant_dir : option Path) (sink : bool)
  : ApprovalDecision * list Effect :=
  if negb (bool_decide (default "rejected" (str_field "decision" response) = "approved")) then
    (Denied (default "denied by user" (str_field "feedback" response)), [])
  else
    (GateApproved,
     match grant_dir, str_field "scope" response with
     | Some dir, Some "session" => if sink then [ApplyGrant dir false] else []
     | Some dir, Some "persist" => if sink then [ApplyGrant dir true] else []
     | _, _ => []
     end).

Definition denial_contract_appended (feedback : string) (grant_dir : option Path) : string :=
  match grant_dir with
  | Some _ => feedback +:+ ". " +:+ OUTSIDE_SANDBOX_DENIAL_CONTRACT
  | None => feedback
  end.

(** [extract_file_accesses] *)
Definition extract_file_accesses (tool_name : string) (args : json) : list ToolAccess :=
  let access (operation : AccessOperation) :=
    match str_field "path" args with
    | Some path => [mkToolAccess File (Some path) operation]
    | None => []
    end in
  if bool_decide (tool_name = "Read") then access Read
  else if bool_decide (tool_name = "Write") || bool_decide (tool_name = "Edit") then access Write
  else [].

(** The member of a full agent id *)
Definition is_member `{GateEnv} (agent_id : option string) : bool :=
  match agent_id ≫= strip_prefix "agent-" with Some tail => is_uuid tail | None => false end.

Definition opt_field (key : string) (v : option json) : list (string * json) :=
  match v with Some v => [(key, v)] | None => [] end.

(** The payload of [approval.ask]; the caller adds the gate's fresh request id. *)
Definition approval_request `{GateEnv} (hooks : TurnFlowHooks) (call : AuthorizeToolContext)
    (reason : option string) (grant_dir : option Path) : json :=
  JObj ([("tool_name", JStr (a_tool_name call));
         ("tool_call_id", JStr (a_tool_call_id call));
         ("action", JStr ("execute " +:+ a_tool_name call));
         ("display", display_json (a_display call));
         ("reason", JStr (default "approval required" reason))]
        ++ opt_field "approval_rule"
             (if bool_decide (a_approval_rule call = "") then None
              else Some (JStr (a_approval_rule call)))
        ++ opt_field "grant" ((fun dir => JObj [("dir", JStr (PathSandbox.display dir))]) <$> grant_dir)
        ++ opt_field "agent_id"
             (if is_member (h_agent_id hooks) then JStr <$> h_agent_id hooks else None)).

(** The reply's words that are kept in the approval record *)
Definition record_result (response : json) : json :=
  JObj (opt_field "decision" (JStr <$> str_field "decision" response)
        ++ opt_field "scope" (JStr <$> str_field "scope" response)
        ++ opt_field "feedback" (JStr <$> str_field "feedback" response)).

(** What the winning channel resolves the ask to: the outcome, the source of an
    approval, and the result to record *)
Definition resolve_channel (channel : AskChannel) (grant_dir : option Path)
  : PermissionResultOutcome * option string * option json :=
  match channel with
  | Rpc (Ok response) =>
    (if bool_decide (default "rejected" (str_field "decision" response) = "approved")
     then (OutcomeApproved, Some "reverse-rpc approved")
     else (Rejected (denial_contract_appended
                       (default "denied by user" (str_field "feedback" response)) grant_dir), None),
     Some (record_result response))
  | Rpc (Err err) => (OutcomeError ("approval request failed: " +:+ err), None, None)
  | Gate GateApproved =>
    (OutcomeApproved, Some "gate approved", Some (JObj [("decision", JStr "approved")]))
  | Gate ApprovedForSession =>
    (OutcomeApproved, Some "gate approved (session scope)",
     Some (JObj [("decision", JStr "approved"); ("scope", JStr "session")]))
  | Gate (Denied feedback) =>
    (Rejected (denial_contract_appended feedback grant_dir), None,
     Some (JObj [("decision", JStr "rejected"); ("feedback", JStr feedback)]))
  | Gate Timeout | Cancelled =>
    (OutcomeError (denial_contract_appended "cancelled by user" grant_dir), None, None)
  end.

(** A wait on the gate: a cancelled turn withdraws the request. *)
Definition gate_channel (gate_end : GateEnd) : AskChannel * list Effect :=
  match gate_end with
  | Decided decision => (Gate decision, [])
  | TurnCancelled => (Cancelled, [GateWithdraw])
  end.

(** The wait of an ask put to a client, with the gate registered first when the
    session has one: [sink] is whether that has a grant sink. *)
Definition ask_client (sink : option bool) (parks : bool) (request : json) (grant_dir : option Path)
    (answers : Answers) : AskChannel * list Effect :=
  match sink with
  | Some sink =>
    let '(channel, effects) :=
      if parks then
        let '(channel, effects) := gate_channel (gate_wait answers) in
        (channel, [ApprovalWait true] ++ effects ++ [ApprovalWait false])
      else
        match race answers with
        | RpcReply response =>
          let '(decision, grants) := interpret_approval_response response grant_dir sink in
          (Rpc (Ok response), [CallClient request] ++ grants ++ [GateResolve decision])
        | RpcFailed _ =>
          let '(channel, effects) := gate_channel (gate_wait answers) in
          (channel, [CallClient request] ++ effects)
        | GateFirst gate_end =>
          let '(channel, effects) := gate_channel gate_end in
          (channel, [CallClient request] ++ effects)
        end in
    (channel, [GateRegister; Suspended] ++ effects ++ [Resumed])
  | None =>
    (* without a gate only the turn's cancellation can come before the reply *)
    (match race answers with
     | RpcReply response => Rpc (Ok response)
     | RpcFailed error => Rpc (Err error)
     | GateFirst _ => Cancelled
     end, [CallClient request])
  end.

(** Persisting the result of an ask and memorizing a session-scoped approval *)
Definition persist_result (call : AuthorizeToolContext) (turn_id : Z) (grant_dir : option Path)
    (result : option json) : list Effect :=
  match result with
  | None => []
  | Some result =>
    let session_approved :=
      bool_decide (str_field "decision" result = Some "approved")
      && bool_decide (str_field "scope" result = Some "session") in
    let memorize := session_approved && negb (bool_decide (is_Some grant_dir)) in
    let entry :=
      JObj ([("turnId", JNum turn_id); ("toolCallId", JStr (a_tool_call_id call));
             ("toolName", JStr (a_tool_name call));
             ("action", JStr ("execute " +:+ a_tool_name call))]
            ++ (if memorize then [("sessionApprovalRule", JStr (a_approval_rule call))] else [])
            ++ [("result", result)]) in
    RecordResult entry :: (if memorize then [RecordApproval (a_approval_rule call)] else [])
  end.

Section authorize.
Context `{PermEnv} `{GateEnv}.
(** The system resolver, under its timeout *)
Variable lookup : string -> option (list IpAddr).

(** The classification of the target of a fetch, through the DNS cache *)
Definition net_class_info (tool_name : string) (args : json) (now : Z) (cache : DnsCache)
  : DnsCache * option (NetClass * list IpAddr) * option string :=
  if negb (bool_decide (tool_name = "FetchURL")) then (cache, None, None)
  else match str_field "url" args ≫= host_of_url to_lowercase url_host with
       | None => (cache, None, None)
       | Some host =>
         match parse_ip host with
         | Some ip => (cache, Some (classify_ip ip, [ip]), Some host)
         | None =>
           match dns_cache_get to_lowercase host now cache with
           | Some cached => (cache, Some cached, Some host)
           | None =>
             let '(cache, resolved) := resolve_and_classify to_lowercase lookup host now cache in
             (match resolved with
              | Some value => dns_cache_put to_lowercase host value now cache
              | None => cache
              end, resolved, Some host)
           end
         end
       end.

(** The context the chain evaluates *)
Definition policy_context (m : PermissionManager) (stores : Stores) (hooks : TurnFlowHooks)
    (call : AuthorizeToolContext) (class : option (NetClass * list IpAddr))
  : PermissionPolicyContext :=
  mkContext (a_tool_name call) (a_tool_call_id call) (a_args call) (a_approval_rule call)
    (a_display call) (extract_file_accesses (a_tool_name call) (a_args call)) (pm_mode m)
    (pm_effective_rules m) (all_session_approvals stores m) class (h_turn_origin hooks).

Definition turn_id_of (call : AuthorizeToolContext) : Z := default 0 (parse_u64 (a_turn_id call)).

(** An ask of the chain *)
Definition resolve_ask (m : PermissionManager) (hooks : TurnFlowHooks) (call : AuthorizeToolContext)
    (answers : Answers) (reason : option string) (grant_dir : option Path)
    (deny_when_unattended never_auto_approve : bool)
  : PermissionResultOutcome * option string * list Effect :=
  let origin := h_turn_origin hooks in
  let id := a_tool_call_id call in
  if bool_decide (a_tool_name call = "CreateScheduledTask") && from_cron origin then
    (Rejected CRON_LINEAGE_CREATE_DENY_MESSAGE, None, [])
  else if never_auto_approve && negb (h_reverse_rpc hooks)
          && negb (bool_decide (is_Some (h_interaction_kernel hooks))) then
    (Rejected "该创建审批需要真实用户决策，当前回合无审批通道（无客户端、无审批门）。请等待用户通过审批面处理。",
     None, [])
  else if rejects_asks origin then (Rejected CRON_ASK_DENY_MESSAGE, None, [])
  else if deny_when_unattended && pm_headless m then
    (Rejected "private-network fetch requires user approval; none available in headless mode", None, [])
  else if bool_decide (is_Some (h_interaction_kernel hooks)) && parks_asks origin then
    let '(channel, effects) := gate_channel (gate_wait answers) in
    let effects :=
      [GateRegister; ApprovalPending id; ApprovalWait true] ++ effects
      ++ [ApprovalResolved id; ApprovalWait false] in
    match channel with
    | Gate GateApproved => (OutcomeApproved, Some "gate approved", effects)
    | Gate ApprovedForSession => (OutcomeApproved, Some "gate approved (session scope)", effects)
    | Gate (Denied feedback) => (Rejected feedback, None, effects)
    | Gate Timeout | Cancelled | Rpc _ => (OutcomeError "cancelled by user", None, effects)
    end
  else if h_reverse_rpc hooks then
    let request := approval_request hooks call reason grant_dir in
    let '(channel, effects) :=
      ask_client (h_interaction_kernel hooks) (parks_asks origin) request grant_dir answers in
    let '(resolved, source, result) := resolve_channel channel grant_dir in
    (resolved, source,
     [ApprovalPending id; HookPermissionRequest (jinsert "tool_input" (a_args call) request)]
     ++ effects ++ [ApprovalResolved id]
     ++ persist_result call (turn_id_of call) grant_dir result)
  else if pm_headless m then
    if never_auto_approve then
      (Rejected "该创建审批需要真实用户决策，任何自动应答路径都不可代批（headless 无审批面）。请等待用户通过审批面处理。",
       None, [])
    else (OutcomeApproved, Some "auto-approved (headless)", [])
  else (Rejected NO_APPROVAL_MECHANISM, None, []).

(** The outcome of the policy's verdict *)
Definition resolve_verdict (m : PermissionManager) (hooks : TurnFlowHooks)
    (call : AuthorizeToolContext) (answers : Answers) (verdict : PermissionPolicyResult)
  : PermissionResultOutcome * option string * list Effect :=
  match verdict with
  | Approve _ => (OutcomeApproved, Some "auto-approved (permission rule)", [])
  | Deny _ message => (Rejected (default "Permission denied" message), None, [])
  | Ask reason grant_dir deny_when_unattended never_auto_approve =>
    resolve_ask m hooks call answers reason grant_dir deny_when_unattended never_auto_approve
  | Pass => (OutcomeApproved, Some "auto-approved (pass-through)", [])
  end.

(** The entry of a cron turn's ledger for an outcome *)
Definition asked_op (call : AuthorizeToolContext) (outcome : PermissionResultOutcome)
    (source : option string) : Effect :=
  match outcome with
  | OutcomeApproved => AskedOp (a_tool_name call) "approved" source
  | Rejected feedback => AskedOp (a_tool_name call) "rejected" (Some feedback)
  | OutcomeError error => AskedOp (a_tool_name call) "error" (Some error)
  end.

(** An approved private-network fetch carries its exemption. *)
Definition exempt (result : AuthorizeToolResult) (class : option (NetClass * list IpAddr))
    (fetch_host : option string) : AuthorizeToolResult :=
  match result, class, fetch_host with
  | Approved _, Some (Askable, ips), Some host =>
    Approved (Some (JObj [("private_network_exemption",
                           JObj [("host", JStr host);
                                 ("approved_ips", JArr (JStr ∘ ip_to_string <$> ips))])]))
  | _, _, _ => result
  end.

Definition authorize_tool_execution (hooks : TurnFlowHooks) (stores : Stores)
    (call : AuthorizeToolContext) (answers : Answers) (now : Z) (cache : DnsCache)
  : DnsCache * AuthorizeToolResult * list Effect :=
  match h_permission_manager hooks with
  | None => (cache, Approved None, [])
  | Some m =>
    let origin := h_turn_origin hooks in
    if match origin with CronTurn readonly _ _ _ => readonly | Interactive => false end
       && negb (a_tool_readonly call) then
      (cache, Blocked READONLY_TOOL_DENY_MESSAGE,
       [AskedOp (a_tool_name call) "rejected"
          (Some "read-only posture: the tool does not declare the read-only capability category")])
    else
      let '(cache, class, fetch_host) := net_class_info (a_tool_name call) (a_args call) now cache in
      let verdict := decide_call (pm_services m) (policy_context m stores hooks call class) in
      let '(outcome, source, effects) := resolve_verdict m hooks call answers verdict in
      let effects :=
        effects
        ++ [HookPermissionResult
              (permission_result_input (turn_id_of call) (a_tool_call_id call) (a_tool_name call)
                 ("execute " +:+ a_tool_name call) outcome)]
        ++ (if from_cron origin then [asked_op call outcome source] else []) in
      (cache, exempt (into_authorize_tool_result outcome) class fetch_host, effects)
  end.

(** The session's stores after the approvals the call recorded *)
Definition stores_after (hooks : TurnFlowHooks) (effects : list Effect) (stores : Stores) : Stores :=
  match h_permission_manager hooks with
  | None => stores
  | Some m =>
    foldl (fun stores effect =>
             match effect with
             | RecordApproval pattern => record_approval m pattern stores
             | _ => stores
             end) stores effects
  end.
End authorize.
