(* ===== verification/PermSafety.v ===== *)
(** * What the permission gate guarantees

    Who can let a tool call run: the denials no answer lifts, the questions no
    mode skips, what manual mode lets through, what an answer of a person
    does and what the session remembers of it.  The predicates the theorems
    are stated with are defined here; the gate is [PermGate]. *)
From stdpp Require Import gmap list strings.
From S2P Require Import Prelude RustStd Json NetClass ToolAccess PathSandbox.
From S2P Require Import PermRules PermPolicies PermGate.
#[local] Open Scope string_scope.
#[local] Open Scope list_scope.
#[local] Open Scope Z_scope.

(** ** The chain, policy by policy *)

Section chain_facts.
Context `{PermEnv}.

Lemma evaluate_cons policy policies ctx result :
  evaluate (policy :: policies) ctx = result ->
  policy ctx = result /\ result <> Pass \/ policy ctx = Pass /\ evaluate policies ctx = result.
Proof. simpl. destruct (policy ctx) eqn:E; naive_solver. Qed.

Lemma evaluate_skip policy policies ctx :
  policy ctx = Pass -> evaluate (policy :: policies) ctx = evaluate policies ctx.
Proof. simpl. by intros ->. Qed.

Lemma evaluate_stop policy policies ctx result :
  policy ctx = result -> result <> Pass -> evaluate (policy :: policies) ctx = result.
Proof. simpl. intros -> ?. by destruct result. Qed.

Lemma evaluate_not_pass policies ctx : evaluate policies ctx <> Pass.
Proof. induction policies as [|p ps IH]; simpl; [done|]. by destruct (p ctx). Qed.
End chain_facts.

(** Walk the chain of a hypothesis on its verdict, one policy at a time: the
    first goal has the policy decide, the second has it pass. *)
Ltac chain_in H E :=
  let Hd := fresh in
  apply evaluate_cons in H as [[E Hd]|[E H]]; [clear Hd|].

(** Case analysis on the conditions of a policy. *)
Ltac policy_cases :=
  repeat (case_match; simplify_eq/=; try done).

Definition is_deny (result : PermissionPolicyResult) : bool :=
  match result with Deny _ _ => true | _ => false end.

(** ** Denials no answer can lift *)

(** A timer whose fires are not within the unattended gate, or a one-shot with
    a budget *)
Definition timer_budget (ctx : PermissionPolicyContext) : option Z :=
  match jget "max_fires" (args ctx) with
  | Some v => as_u64 v
  | None => jget "maxFires" (args ctx) ≫= as_u64
  end.
Definition timer_recurs (ctx : PermissionPolicyContext) : bool :=
  default false (jget "recurring" (args ctx) ≫= as_bool).
Definition over_gate (ctx : PermissionPolicyContext) : bool :=
  timer_recurs ctx &&
  match timer_budget ctx with Some max => AGENT_CRON_FIRE_GATE <? max | None => true end.
Definition one_shot_with_budget (ctx : PermissionPolicyContext) : bool :=
  negb (timer_recurs ctx) && bool_decide (is_Some (timer_budget ctx)).
Definition workspace_run (origin : TurnOriginContext) : bool :=
  match origin with CronTurn _ _ workspace _ => workspace | Interactive => false end.

Definition hard_denied `{PermEnv} (services : PermissionServices) (ctx : PermissionPolicyContext)
  : bool :=
  bool_decide (sv_swarm_mode services = Some true) && eq_ignore_ascii_case (tool_name ctx) "agent"
  || bool_decide (mode ctx = Auto) && bool_decide (tool_name ctx = "AskUserQuestion")
  || bool_decide (sv_plan services = Some true)
     && negb (existsb (eq_ignore_ascii_case (tool_name ctx)) PLAN_MODE_ALLOWED_TOOLS)
  || bool_decide (is_Some (user_rule DenyRule ctx))
  || bool_decide (tool_name ctx = "FetchURL")
     && match net_class ctx with Some (Metadata, _) => true | _ => false end
  || bool_decide (tool_name ctx = "SetTimer")
     && (one_shot_with_budget ctx
         || over_gate ctx && (bool_decide (mode ctx = Auto) || workspace_run (turn_origin ctx))).

Section denials.
Context `{PermEnv}.

Definition denying_policies (services : PermissionServices)
  : list (PermissionPolicyContext -> PermissionPolicyResult) :=
  [ AgentSwarmExclusiveDenyPolicy (sv_swarm_mode services); AutoModeAskUserQuestionDenyPolicy;
    PlanModeGuardDenyPolicy (sv_plan services); UserConfiguredDenyPolicy;
    PrivateNetworkFetchDenyPolicy ].

Lemma denying_policies_deny services policy ctx :
  policy ∈ denying_policies services -> policy ctx = Pass \/ is_deny (policy ctx) = true.
Proof.
  unfold denying_policies. intros Hp.
  repeat (apply elem_of_cons in Hp as [->|Hp]); [..|by apply elem_of_nil in Hp].
  - unfold AgentSwarmExclusiveDenyPolicy. repeat case_match; eauto.
  - unfold AutoModeAskUserQuestionDenyPolicy. repeat case_match; eauto.
  - unfold PlanModeGuardDenyPolicy. repeat case_match; eauto.
  - unfold UserConfiguredDenyPolicy. repeat case_match; eauto.
  - unfold PrivateNetworkFetchDenyPolicy. repeat case_match; eauto.
Qed.

Lemma existsb_denying ctx (policies rest : list (PermissionPolicyContext -> PermissionPolicyResult)) :
  (forall policy, policy ∈ policies -> policy ctx = Pass \/ is_deny (policy ctx) = true) ->
  (existsb (fun policy => is_deny (policy ctx)) policies = true -> is_deny (evaluate (policies ++ rest) ctx) = true)
  /\ (existsb (fun policy => is_deny (policy ctx)) policies = false ->
      evaluate (policies ++ rest) ctx = evaluate rest ctx).
Proof.
  induction policies as [|p ps IH]; intros Hall; simpl; [done|].
  destruct IH as [IH1 IH2]; [intros q Hq; apply Hall; by right|].
  destruct (Hall p) as [E|E]; [left| |]; destruct (p ctx); simpl in *; try done; by split.
Qed.

(** The budget gate denies a timer exactly under the last clause. *)
Lemma budget_gate_verdict ctx :
  AgentCronBudgetGatePolicy ctx = Pass \/
  is_deny (AgentCronBudgetGatePolicy ctx) = true \/
  exists reason, AgentCronBudgetGatePolicy ctx = Ask reason None true false.
Proof.
  unfold AgentCronBudgetGatePolicy.
  destruct (bool_decide (tool_name ctx = "SetTimer")); simpl; [|by left].
  set (rec := default false _). set (declared := match jget "max_fires" _ with Some _ => _ | None => _ end).
  set (plan := default "" _). clearbody rec declared plan.
  destruct (negb rec && bool_decide (is_Some declared)); [by eauto|].
  destruct (match if rec then declared else Some 1 with Some budget => _ | None => _ end); [by left|].
  destruct (turn_origin ctx) as [|? ? [] ?], (mode ctx); eauto.
Qed.

Lemma budget_gate_denies ctx :
  is_deny (AgentCronBudgetGatePolicy ctx) =
  bool_decide (tool_name ctx = "SetTimer")
  && (one_shot_with_budget ctx
      || over_gate ctx && (bool_decide (mode ctx = Auto) || workspace_run (turn_origin ctx))).
Proof.
  unfold AgentCronBudgetGatePolicy, one_shot_with_budget, over_gate, timer_budget, timer_recurs.
  destruct (bool_decide (tool_name ctx = "SetTimer")); simpl; [|done].
  set (rec := default false _). set (declared := match jget "max_fires" _ with Some _ => _ | None => _ end).
  clearbody rec declared.
  destruct rec; simpl.
  - destruct declared as [b|]; simpl.
    + destruct (b <=? AGENT_CRON_FIRE_GATE) eqn:Eb; simpl.
      * assert (AGENT_CRON_FIRE_GATE <? b = false) as -> by lia. done.
      * assert (AGENT_CRON_FIRE_GATE <? b = true) as -> by lia.
        destruct (turn_origin ctx) as [|? ? [] ?], (mode ctx); done.
    + destruct (turn_origin ctx) as [|? ? [] ?], (mode ctx); done.
  - destruct declared as [b|]; simpl; [done|].
    destruct (turn_origin ctx) as [|? ? [] ?], (mode ctx); done.
Qed.

Lemma hard_denied_policies services ctx :
  hard_denied services ctx =
  existsb (fun policy => is_deny (policy ctx)) (denying_policies services)
  || is_deny (AgentCronBudgetGatePolicy ctx).
Proof.
  rewrite budget_gate_denies. unfold hard_denied. f_equal.
  unfold denying_policies. cbn [existsb]. rewrite orb_false_r, !orb_assoc.
  f_equal; [f_equal; [f_equal; [f_equal|]|]|].
  - unfold AgentSwarmExclusiveDenyPolicy. destruct (sv_swarm_mode services) as [[]|]; [|done..].
    rewrite bool_decide_true by done. by destruct (eq_ignore_ascii_case _ _).
  - unfold AutoModeAskUserQuestionDenyPolicy. by destruct (_ && _).
  - unfold PlanModeGuardDenyPolicy. destruct (sv_plan services) as [[]|]; [|done..].
    rewrite bool_decide_true by done. by destruct (existsb _ _).
  - unfold UserConfiguredDenyPolicy. by destruct (user_rule DenyRule ctx).
  - unfold PrivateNetworkFetchDenyPolicy.
    destruct (bool_decide (tool_name ctx = "FetchURL")); simpl; [|done].
    by destruct (net_class ctx) as [[[] ?]|].
Qed.

Lemma create_passes ctx :
  tool_name ctx <> "CreateScheduledTask" -> CreateScheduledTaskNeverAutoApprovePolicy ctx = Pass.
Proof.
  intros. unfold CreateScheduledTaskNeverAutoApprovePolicy. by rewrite bool_decide_false.
Qed.

Lemma private_ask_other_tool ctx :
  tool_name ctx <> "FetchURL" -> PrivateNetworkFetchAskPolicy ctx = Pass.
Proof. intros. unfold PrivateNetworkFetchAskPolicy. by rewrite bool_decide_false. Qed.

(** The chain after the creation policy, split at the five denying policies. *)
Lemma decide_call_rest services ctx :
  tool_name ctx <> "CreateScheduledTask" ->
  hard_denied services ctx = false ->
  decide_call services ctx = evaluate (drop 6 (create_default_policies services)) ctx
  /\ is_deny (AgentCronBudgetGatePolicy ctx) = false.
Proof.
  intros Hn Hd. rewrite hard_denied_policies in Hd. apply orb_false_iff in Hd as [Hd Hb].
  split; [|done]. unfold decide_call, create_default_policies.
  rewrite evaluate_skip by by apply create_passes.
  destruct (existsb_denying ctx (denying_policies services)
              (drop 6 (create_default_policies services))
              (fun policy => denying_policies_deny services policy ctx)) as [_ H2].
  exact (H2 Hd).
Qed.

Lemma hard_denied_denies services ctx :
  tool_name ctx <> "CreateScheduledTask" ->
  hard_denied services ctx = true -> is_deny (decide_call services ctx) = true.
Proof.
  intros Hn Hd. rewrite hard_denied_policies in Hd. unfold decide_call, create_default_policies.
  rewrite evaluate_skip by by apply create_passes.
  destruct (existsb_denying ctx (denying_policies services)
              (drop 6 (create_default_policies services))
              (fun policy => denying_policies_deny services policy ctx)) as [H1 H2].
  destruct (existsb (fun policy => is_deny (policy ctx)) (denying_policies services)); [by apply H1|].
  simpl in Hd. unfold denying_policies, create_default_policies in H2. simpl app in H2. simpl drop in H2.
  rewrite H2 by done. rewrite budget_gate_denies in Hd.
  apply andb_true_iff in Hd as [Ht%bool_decide_eq_true Hd].
  rewrite evaluate_skip; [|apply private_ask_other_tool; by rewrite Ht].
  erewrite evaluate_stop; [|done|].
  - rewrite budget_gate_denies, Ht, Hd. done.
  - intros E. assert (Hx : is_deny (AgentCronBudgetGatePolicy ctx) = false) by by rewrite E.
    rewrite budget_gate_denies, Ht, Hd in Hx. done.
Qed.
End denials.

(** ** Who lets an ask through *)

Definition is_approved (result : AuthorizeToolResult) : bool :=
  match result with Approved _ => true | Blocked _ => false end.

(** The gate's end is a person's yes. *)
Definition gate_yes (gate_end : GateEnd) : bool :=
  match gate_end with
  | Decided GateApproved | Decided ApprovedForSession => true
  | _ => false
  end.

Definition reply_yes (response : json) : bool :=
  bool_decide (str_field "decision" response = Some "approved").

(** A person approves, through the gate of a parked run or through the channel
    that answers a client's ask first. *)
Definition person_approves (hooks : TurnFlowHooks) (answers : Answers) : bool :=
  let gated := bool_decide (is_Some (h_interaction_kernel hooks)) in
  if gated && parks_asks (h_turn_origin hooks) then gate_yes (gate_wait answers)
  else h_reverse_rpc hooks &&
       match race answers with
       | RpcReply response => reply_yes response
       | RpcFailed _ => gated && gate_yes (gate_wait answers)
       | GateFirst gate_end => gated && gate_yes gate_end
       end.

(** No channel puts the ask before a person. *)
Definition nobody_asked (hooks : TurnFlowHooks) : bool :=
  negb (h_reverse_rpc hooks)
  && negb (bool_decide (is_Some (h_interaction_kernel hooks)) && parks_asks (h_turn_origin hooks)).

(** The asks that are refused before anybody is asked *)
Definition refused_unasked (m : PermissionManager) (hooks : TurnFlowHooks)
    (call : AuthorizeToolContext) (deny_when_unattended : bool) : bool :=
  bool_decide (a_tool_name call = "CreateScheduledTask") && from_cron (h_turn_origin hooks)
  || rejects_asks (h_turn_origin hooks)
  || deny_when_unattended && pm_headless m.

(** The asks that go through *)
Definition ask_passes (m : PermissionManager) (hooks : TurnFlowHooks) (call : AuthorizeToolContext)
    (answers : Answers) (deny_when_unattended never_auto_approve : bool) : bool :=
  negb (refused_unasked m hooks call deny_when_unattended)
  && (person_approves hooks answers
      || nobody_asked hooks && pm_headless m && negb never_auto_approve).

(** The turn is in the read-only posture and the tool is not read-only. *)
Definition posture_refuses (origin : TurnOriginContext) (call : AuthorizeToolContext) : bool :=
  match origin with CronTurn readonly _ _ _ => readonly | Interactive => false end
  && negb (a_tool_readonly call).

Lemma reply_yes_default response :
  bool_decide (default "rejected" (str_field "decision" response) = "approved") = reply_yes response.
Proof.
  unfold reply_yes. apply bool_decide_ext. destruct (str_field "decision" response); naive_solver.
Qed.

Lemma gate_channel_yes gate_end grant_dir :
  is_approved (into_authorize_tool_result
                 (fst (fst (resolve_channel (fst (gate_channel gate_end)) grant_dir))))
  = gate_yes gate_end.
Proof. by destruct gate_end as [[]|]. Qed.

Section approvals.
Context `{PermEnv} `{GateEnv}.
Variable lookup : string -> option (list IpAddr).

Lemma ask_client_yes sink request grant_dir answers :
  is_approved (into_authorize_tool_result
                 (fst (fst (resolve_channel (fst (ask_client sink false request grant_dir answers)) grant_dir))))
  = match race answers with
    | RpcReply response => reply_yes response
    | RpcFailed _ => bool_decide (is_Some sink) && gate_yes (gate_wait answers)
    | GateFirst gate_end => bool_decide (is_Some sink) && gate_yes gate_end
    end.
Proof.
  destruct sink as [sink|]; simpl.
  - destruct (race answers) as [response|err|[[]|]]; simpl; try done.
    + destruct (interpret_approval_response response grant_dir sink). simpl.
      rewrite reply_yes_default. by destruct (reply_yes response).
    + by destruct (gate_wait answers) as [[]|].
  - destruct (race answers) as [response|err|[[]|]]; simpl; try done.
    rewrite reply_yes_default. by destruct (reply_yes response).
Qed.

Lemma resolve_ask_passes m hooks call answers reason grant_dir deny never :
  is_approved (into_authorize_tool_result
                 (fst (fst (resolve_ask m hooks call answers reason grant_dir deny never))))
  = ask_passes m hooks call answers deny never.
Proof.
  unfold resolve_ask, ask_passes, refused_unasked, person_approves, nobody_asked.
  destruct (bool_decide (a_tool_name call = _) && from_cron _); [done|]. cbn [orb negb].
  set (gated := bool_decide (is_Some (h_interaction_kernel hooks))).
  destruct (rejects_asks (h_turn_origin hooks)).
  { by destruct (never && _ && _). }
  destruct (deny && pm_headless m).
  { by destruct (never && _ && _). }
  cbn [orb negb andb].
  destruct (gated && parks_asks (h_turn_origin hooks)) eqn:Eg.
  { assert (gated = true) as -> by by destruct gated.
    rewrite andb_false_r. cbn [negb andb]. rewrite andb_false_r, orb_false_r.
    by destruct (gate_wait answers) as [[]|]. }
  rewrite andb_true_r. destruct (h_reverse_rpc hooks); cbn [negb andb].
  - rewrite andb_false_r, orb_false_r. cbn [andb].
    destruct (parks_asks (h_turn_origin hooks)).
    + assert (gated = false) as Hg by (by destruct gated).
      unfold gated in *. apply bool_decide_eq_false in Hg.
      destruct (h_interaction_kernel hooks); [exfalso; eauto|].
      change (ask_client None true) with (ask_client None false).
      rewrite <- (ask_client_yes None (approval_request hooks call reason grant_dir) grant_dir).
      destruct (ask_client None _ _ _ _) as [ch ef]. simpl.
      by destruct (resolve_channel ch grant_dir) as [[]].
    + unfold gated.
      rewrite <- (ask_client_yes (h_interaction_kernel hooks)
                    (approval_request hooks call reason grant_dir) grant_dir).
      destruct (ask_client _ false _ _ _) as [ch ef]. simpl.
      by destruct (resolve_channel ch grant_dir) as [[]].
  - destruct never, gated, (pm_headless m); done.
Qed.

(** What the hook answers, by the verdict of the chain *)
Definition passes (m : PermissionManager) (hooks : TurnFlowHooks) (call : AuthorizeToolContext)
    (answers : Answers) (verdict : PermissionPolicyResult) : bool :=
  match verdict with
  | Approve _ | Pass => true
  | Deny _ _ => false
  | Ask _ _ deny never => ask_passes m hooks call answers deny never
  end.

Lemma resolve_verdict_passes m hooks call answers verdict :
  is_approved (into_authorize_tool_result (fst (fst (resolve_verdict m hooks call answers verdict))))
  = passes m hooks call answers verdict.
Proof. destruct verdict; simpl; try done. apply resolve_ask_passes. Qed.

Lemma exempt_approved result class fetch_host :
  is_approved (exempt result class fetch_host) = is_approved result.
Proof. by destruct result, class as [[[] ?]|], fetch_host. Qed.

(** The classification and the verdict a call meets *)
Definition call_class (call : AuthorizeToolContext) (now : Z) (cache : DnsCache) :=
  snd (fst (net_class_info lookup (a_tool_name call) (a_args call) now cache)).
Definition call_verdict (m : PermissionManager) (stores : Stores) (hooks : TurnFlowHooks)
    (call : AuthorizeToolContext) (now : Z) (cache : DnsCache) : PermissionPolicyResult :=
  decide_call (pm_services m) (policy_context m stores hooks call (call_class call now cache)).

Definition authorized (hooks : TurnFlowHooks) (stores : Stores) (call : AuthorizeToolContext)
    (answers : Answers) (now : Z) (cache : DnsCache) : AuthorizeToolResult :=
  snd (fst (authorize_tool_execution lookup hooks stores call answers now cache)).

Lemma authorized_passes m hooks stores call answers now cache :
  h_permission_manager hooks = Some m ->
  is_approved (authorized hooks stores call answers now cache) =
  negb (posture_refuses (h_turn_origin hooks) call)
  && passes m hooks call answers (call_verdict m stores hooks call now cache).
Proof.
  intros Hm. unfold authorized, authorize_tool_execution, posture_refuses. rewrite Hm.
  destruct (_ && negb (a_tool_readonly call)); [done|]. cbn [negb andb].
  unfold call_verdict, call_class. destruct (net_class_info _ _ _ _ _) as [[cache' class] host]. simpl.
  rewrite <- resolve_verdict_passes.
  destruct (resolve_verdict _ _ _ _ _) as [[outcome source] effects]. simpl.
  by rewrite exempt_approved.
Qed.
End approvals.

(** ** The guarantees of the gate *)

Definition in_mode (m : PermissionMode) (ctx : PermissionPolicyContext) : PermissionPolicyContext :=
  mkContext (tool_name ctx) (tool_call_id ctx) (args ctx) (approval_rule ctx) (display ctx)
    (accesses ctx) m (rules ctx) (session_approvals ctx) (net_class ctx) (turn_origin ctx).

(** An approval of the session that matches the tool *)
Definition remembered `{PermEnv} (ctx : PermissionPolicyContext) : bool :=
  existsb (fun pattern => match_permission_rule glob_set pattern (tool_name ctx) None)
    (elements (session_approvals ctx)).

(** The call's path, when the sandbox puts it outside *)
Definition outside_path (services : PermissionServices) (ctx : PermissionPolicyContext) : option Path :=
  match sv_workspace_paths services, str_field "path" (args ctx) with
  | Some classify, Some path =>
    if bool_decide (tool_name ctx ∈ BOUNDARY_TOOLS) && negb (bool_decide (path = "")) then
      match classify (components path) with Outside canonical => Some canonical | _ => None end
    else None
  | _, _ => None
  end.

(** What lets a private fetch pass without a question: an approval of the
    session for the call's own rule or for the host, or an allow rule of the
    user that matches FetchURL.  A rule need not name the host for that: one
    without an argument matches, and so does a negated one
    ([bare_allow_rule_passes], [negated_allow_rule_passes]). *)
Definition fetch_allowed `{PermEnv} (ctx : PermissionPolicyContext) : bool :=
  match fetch_host_from_ctx ctx with
  | Some host =>
    bool_decide (approval_rule ctx ∈ session_approvals ctx)
    || bool_decide (("FetchURL(host:" +:+ host +:+ ")") ∈ session_approvals ctx)
    || existsb (facet_hit host) (rules ctx)
  | None => false
  end.

Section guarantees.
Context `{PermEnv} `{GateEnv}.
Variable lookup : string -> option (list IpAddr).

Lemma evaluate_agree policies rest c1 c2 :
  Forall (fun policy : PermissionPolicyContext -> PermissionPolicyResult => policy c1 = policy c2) policies ->
  evaluate (policies ++ rest) c1 = evaluate (policies ++ rest) c2 \/
  evaluate (policies ++ rest) c1 = evaluate rest c1 /\ evaluate (policies ++ rest) c2 = evaluate rest c2.
Proof.
  induction 1 as [|p ps Hp _ IH]; simpl; [by right|].
  rewrite Hp. destruct (p c2); [by left..|exact IH].
Qed.

Lemma create_verdict services ctx :
  tool_name ctx = "CreateScheduledTask" ->
  decide_call services ctx = Ask (Some "workspace scheduled task creation requires user approval") None false true.
Proof.
  intros Hn. unfold decide_call, create_default_policies. apply evaluate_stop; [|done].
  unfold CreateScheduledTaskNeverAutoApprovePolicy. by rewrite bool_decide_true.
Qed.

(** C1. What the creation of a scheduled task needs: no mode, no rule, no
    approval of the session and no headless posture lets a call of
    CreateScheduledTask run; a person's yes on an interactive turn does, and
    nothing overrules it: not plan mode and not a deny rule either, although
    the documents say that a deny rule rejects at once in every mode
    ([deny_rule_gives_way], [plan_mode_gives_way]). *)
Theorem scheduled_task_needs_person m hooks stores call answers now cache :
  h_permission_manager hooks = Some m -> a_tool_name call = "CreateScheduledTask" ->
  is_approved (authorized lookup hooks stores call answers now cache) = true <->
  h_turn_origin hooks = Interactive /\ person_approves hooks answers = true.
Proof.
  intros Hm Hn. rewrite (authorized_passes _ m) by done.
  unfold call_verdict. rewrite create_verdict by done.
  simpl. unfold ask_passes, refused_unasked, posture_refuses.
  rewrite bool_decide_true by done. destruct (h_turn_origin hooks) as [|r a w t]; simpl.
  - rewrite andb_false_r, orb_false_r. naive_solver.
  - rewrite andb_false_r. naive_solver.
Qed.

(** C3. The denials no answer lifts: in plan mode a tool outside the allowed list,
    a user's deny rule, a fetch of a metadata endpoint, a subagent in swarm
    mode, an over-gate timer of an unattended turn.  A call of any tool but
    CreateScheduledTask, which a person's yes lets through all of these, is
    blocked whatever the mode, the approvals of the session and the answers.
    The documents have plan mode leave Bash to the rules and the first of the
    matching rules decide; the code does neither ([plan_mode_blocks_allowed],
    [later_deny_wins]). *)
Theorem hard_denials_final m hooks stores call answers now cache :
  h_permission_manager hooks = Some m -> a_tool_name call <> "CreateScheduledTask" ->
  hard_denied (pm_services m)
    (policy_context m stores hooks call (call_class lookup call now cache)) = true ->
  exists reason, authorized lookup hooks stores call answers now cache = Blocked reason.
Proof.
  intros Hm Hn Hd. pose proof (authorized_passes lookup m hooks stores call answers now cache Hm) as E.
  apply hard_denied_denies in Hd; [|done]. unfold call_verdict in E.
  destruct (decide_call _ _); try done. rewrite andb_false_r in E.
  destruct (authorized _ _ _ _ _ _ _); [done|eauto].
Qed.

Lemma net_class_host call now cache cache' class host :
  net_class_info lookup (a_tool_name call) (a_args call) now cache = (cache', class, Some host) ->
  str_field "url" (a_args call) ≫= host_of_url to_lowercase url_host = Some host.
Proof.
  unfold net_class_info. destruct (negb _); [done|].
  destruct (str_field "url" (a_args call) ≫= _) as [h|]; [|done].
  destruct (parse_ip h); [naive_solver|]. destruct (dns_cache_get _ _ _ _); [naive_solver|].
  destruct (resolve_and_classify _ _ _ _ _) as [? [?|]]; naive_solver.
Qed.

Lemma private_ask_verdict services ctx ips :
  tool_name ctx = "FetchURL" -> net_class ctx = Some (Askable, ips) ->
  is_Some (fetch_host_from_ctx ctx) -> fetch_allowed ctx = false ->
  is_deny (decide_call services ctx) = true \/
  exists reason, decide_call services ctx = Ask reason None true false.
Proof.
  intros Hn Hc [host Hh] Ha.
  assert (Hnc : tool_name ctx <> "CreateScheduledTask") by by rewrite Hn.
  destruct (hard_denied services ctx) eqn:Ed; [left; by apply hard_denied_denies|right].
  destruct (decide_call_rest _ _ Hnc Ed) as [-> _].
  assert (exists reason, PrivateNetworkFetchAskPolicy ctx = Ask (Some reason) None true false) as [r Er].
  { unfold PrivateNetworkFetchAskPolicy. rewrite bool_decide_true by done. simpl. rewrite Hc, Hh.
    unfold fetch_allowed in Ha. rewrite Hh in Ha. apply orb_false_iff in Ha as [Ha ->].
    rewrite Ha. eauto. }
  exists (Some r). by apply evaluate_stop.
Qed.

(** C30. A fetch of a host that resolves into a private network runs only on
    somebody's consent, in every mode: a person's answer, an approval of the
    session for the call or its host, or an allow rule of the user that
    matches FetchURL, whether it names the host or not; and it carries the
    exemption for exactly the addresses it was classified by. *)
Theorem private_fetch_needs_consent m hooks stores call answers now cache cache' ips host :
  h_permission_manager hooks = Some m -> a_tool_name call = "FetchURL" ->
  net_class_info lookup (a_tool_name call) (a_args call) now cache
    = (cache', Some (Askable, ips), Some host) ->
  is_approved (authorized lookup hooks stores call answers now cache) = true ->
  (fetch_allowed (policy_context m stores hooks call (Some (Askable, ips))) = true
   \/ person_approves hooks answers = true) /\
  authorized lookup hooks stores call answers now cache =
  Approved (Some (JObj [("private_network_exemption",
                         JObj [("host", JStr host);
                               ("approved_ips", JArr (JStr ∘ ip_to_string <$> ips))])])).
Proof.
  intros Hm Hn Hc Ha. split.
  - rewrite (authorized_passes _ m) in Ha by done. apply andb_true_iff in Ha as [_ Ha].
    unfold call_verdict, call_class in Ha. rewrite Hc in Ha. simpl in Ha.
    set (ctx := policy_context m stores hooks call _) in *.
    destruct (fetch_allowed ctx) eqn:Eh; [by left|right].
    assert (Hh : is_Some (fetch_host_from_ctx ctx)).
    { unfold fetch_host_from_ctx. destruct (_ ≫= strip_suffix ")"); [done|].
      apply net_class_host in Hc. simpl. by rewrite Hc. }
    destruct (private_ask_verdict (pm_services m) ctx ips) as [Hd|[r Hr]]; try done.
    + by destruct (decide_call (pm_services m) ctx).
    + rewrite Hr in Ha. unfold passes, ask_passes, refused_unasked in Ha.
      destruct (person_approves hooks answers); [done|].
      destruct (pm_headless m), (nobody_asked hooks); simpl in Ha; rewrite ?orb_true_r, ?andb_false_r in Ha; done.
  - revert Ha. unfold authorized, authorize_tool_execution. rewrite Hm.
    destruct (_ && negb (a_tool_readonly call)); [done|]. rewrite Hc.
    destruct (resolve_verdict _ _ _ _ _) as [[[] source] effects]; done.
Qed.

Lemma budget_never_asks ctx reason :
  AgentCronBudgetGatePolicy (in_mode Auto ctx) <> Ask reason None true false.
Proof.
  unfold AgentCronBudgetGatePolicy. destruct (negb _); [done|]. simpl.
  set (rec := default false _). set (declared := match jget "max_fires" _ with Some _ => _ | None => _ end).
  clearbody rec declared.
  destruct (negb rec && _); [done|]. destruct (match if rec then _ else _ with Some _ => _ | None => _ end); [done|].
  by destruct (turn_origin ctx) as [|? ? [] ?].
Qed.

Lemma private_ask_shape ctx result :
  PrivateNetworkFetchAskPolicy ctx = result -> result <> Pass ->
  tool_name ctx = "FetchURL" /\ exists reason, result = Ask (Some reason) None true false.
Proof.
  unfold PrivateNetworkFetchAskPolicy. intros <- Hn.
  destruct (decide (tool_name ctx = "FetchURL")) as [Ht|Ht];
    [rewrite bool_decide_true in * by done|by rewrite bool_decide_false in Hn by done].
  simpl in *. destruct (net_class ctx) as [[[] ips]|]; try done.
  destruct (fetch_host_from_ctx ctx) as [host|]; [|done].
  destruct (_ || _); [done|]. destruct (existsb _ _); [done|]. eauto.
Qed.

(** Yolo relaxes manual mode and auto mode leaves no ordinary question: a
    verdict under yolo is the one under manual or an approval; under auto it
    is a denial, an approval, or the very question of the creation of a
    scheduled task or of a private fetch, which manual mode asks as well. *)
Theorem mode_ladder services ctx :
  let verdict md := decide_call services (in_mode md ctx) in
  (verdict Yolo = verdict Manual \/ verdict Yolo = Approve (Some "yolo-mode")) /\
  (is_deny (verdict Auto) = true \/ verdict Auto = Approve (Some "auto-mode") \/
   verdict Auto = verdict Manual /\
   exists reason unattended never, verdict Auto = Ask reason None unattended never /\ unattended || never = true).
Proof.
  intros verdict. split.
  - destruct (evaluate_agree (take 17 (create_default_policies services))
                (drop 17 (create_default_policies services)) (in_mode Yolo ctx) (in_mode Manual ctx))
      as [E|[E _]]; [|by left|right; exact E].
    unfold create_default_policies. simpl. repeat constructor.
  - destruct (decide (tool_name ctx = "CreateScheduledTask")) as [Hn|Hn].
    { right; right. unfold verdict. rewrite !create_verdict by done. split; [done|]. by eexists _, _, _. }
    destruct (hard_denied services (in_mode Auto ctx)) eqn:Ed.
    { left. by apply hard_denied_denies. }
    right. destruct (decide_call_rest services (in_mode Auto ctx) Hn Ed) as [E Eb].
    assert (Hb : AgentCronBudgetGatePolicy (in_mode Auto ctx) = Pass).
    { destruct (budget_gate_verdict (in_mode Auto ctx)) as [?|[?|[r Hr]]]; [done|congruence|].
      by apply budget_never_asks in Hr. }
    destruct (PrivateNetworkFetchAskPolicy (in_mode Auto ctx)) eqn:Ep.
    1,2: by destruct (private_ask_shape _ _ Ep) as (? & ? & ?).
    + right. destruct (private_ask_shape _ _ Ep) as (Hn' & r & Hr); [done|]. injection Hr as -> -> -> ->.
      assert (Hf : tool_name ctx = "FetchURL") by done.
      destruct (decide_call_rest services (in_mode Manual ctx) Hn) as [Em _].
      { revert Ed. unfold hard_denied. simpl. rewrite Hf. simpl. rewrite !orb_false_r.
        by rewrite !orb_false_iff. }
      unfold verdict. rewrite E, Em. split.
      * transitivity (PrivateNetworkFetchAskPolicy (in_mode Auto ctx)).
        -- apply evaluate_stop; [done|]. by rewrite Ep.
        -- symmetry. apply evaluate_stop; [done|]. by rewrite Ep.
      * exists (Some r), true, false. split; [|done]. by apply evaluate_stop.
    + left. unfold verdict. rewrite E. cbn [drop create_default_policies].
      rewrite evaluate_skip by done. rewrite evaluate_skip by done. by apply evaluate_stop.
Qed.

Lemma boundary_verdict services ctx :
  WorkspaceBoundaryPolicy (sv_workspace_paths services) ctx =
  match outside_path services ctx with
  | None => Pass
  | Some canonical =>
    match find (path_rule canonical) (rules ctx) with
    | Some rule =>
      match decision rule with
      | DenyRule =>
        Deny (Some "outside-sandbox path rule")
          (Some ("access to paths matching '" +:+ pattern rule +:+ "' is denied by rule. "
                   +:+ OUTSIDE_SANDBOX_DENIAL_CONTRACT))
      | AllowRule => Approve (Some "outside-sandbox path rule")
      | AskRule =>
        Ask (Some "outside-sandbox path rule") (Some (grant_dir_for (tool_name ctx) canonical)) false false
      end
    | None =>
      Ask (Some "the path is outside the workspace sandbox")
        (Some (grant_dir_for (tool_name ctx) canonical)) false false
    end
  end.
Proof.
  unfold WorkspaceBoundaryPolicy, outside_path.
  destruct (sv_workspace_paths services) as [classify|]; [|done].
  destruct (bool_decide (tool_name ctx ∈ BOUNDARY_TOOLS)); simpl;
    [|by destruct (str_field "path" (args ctx))].
  destruct (str_field "path" (args ctx)) as [[|c path]|]; [done| |done].
  rewrite bool_decide_false by done. simpl. by destruct (classify _).
Qed.

(** What runs without a question in manual mode: a call the session remembers
    or a user's rule allows, the plan-mode switches, and, when it touches no
    sensitive and no git file, a call outside the sandbox that a path rule
    allows or a default tool inside it. *)
Definition manual_grant (services : PermissionServices) (ctx : PermissionPolicyContext) : bool :=
  remembered ctx
  || bool_decide (is_Some (user_rule AllowRule ctx))
  || bool_decide (tool_name ctx ∈ ["EnterPlanMode"; "ExitPlanMode"])
  || negb (file_access is_sensitive_file ctx) && negb (file_access is_git_control_path ctx)
     && match outside_path services ctx with
        | Some canonical =>
          match find (path_rule canonical) (rules ctx) with
          | Some rule => bool_decide (decision rule = AllowRule)
          | None => false
          end
        | None => bool_decide (tool_name ctx ∈ DEFAULT_APPROVE_TOOLS)
        end.

(** In manual mode the chain approves a call by itself only under
    [manual_grant]; everything else is asked or denied. *)
Theorem manual_auto_approvals services ctx reason :
  mode ctx = Manual -> decide_call services ctx = Approve reason ->
  hard_denied services ctx = false /\ manual_grant services ctx = true.
Proof.
  intros Hm Hv. assert (Hn : tool_name ctx <> "CreateScheduledTask").
  { intros Hn. by rewrite create_verdict in Hv. }
  destruct (hard_denied services ctx) eqn:Ed.
  { apply hard_denied_denies in Ed; [|done]. by rewrite Hv in Ed. }
  split; [done|]. destruct (decide_call_rest _ _ Hn Ed) as [E Eb]. rewrite E in Hv.
  cbn [drop create_default_policies] in Hv. unfold manual_grant.
  chain_in Hv Ep. { by destruct (private_ask_shape _ _ Ep) as (_ & ? & ?). }
  chain_in Hv Ep'. { destruct (budget_gate_verdict ctx) as [?|[Hd|[r ?]]]; congruence. }
  chain_in Hv Ea. { unfold AutoModeApprovePolicy in Ea. by rewrite Hm in Ea. }
  chain_in Hv Er. { unfold SessionApprovalHistoryPolicy in Er. fold (remembered ctx) in Er.
                    by destruct (remembered ctx). }
  chain_in Hv Eu. { unfold UserConfiguredAskPolicy in Eu. by destruct (user_rule AskRule ctx). }
  chain_in Hv El. { unfold UserConfiguredAllowPolicy in El.
                    destruct (user_rule AllowRule ctx); [|done]. by rewrite orb_true_r. }
  chain_in Hv Ex. { unfold ExitPlanModeReviewAskPolicy, plain_ask in Ex. by repeat case_match. }
  chain_in Hv Eg. { unfold GoalStartReviewAskPolicy, plain_ask in Eg. by repeat case_match. }
  chain_in Hv Epl. { unfold PlanModeToolApprovePolicy in Epl.
                    destruct (_ || _) eqn:Eo in Epl; [|done]. apply orb_true_iff in Eo.
                    rewrite !bool_decide_eq_true in Eo.
                    rewrite (bool_decide_true (tool_name ctx ∈ _)) by set_solver. by rewrite orb_true_r. }
  chain_in Hv Es. { unfold SensitiveFileAccessAskPolicy in Es. by case_match. }
  chain_in Hv Ec. { unfold GitControlPathAccessAskPolicy in Ec. by case_match. }
  chain_in Hv Ey. { unfold YoloModeApprovePolicy in Ey. by rewrite Hm in Ey. }
  chain_in Hv Ew. { unfold SwarmModeAgentSwarmApprovePolicy, plain_ask in Ew. by repeat case_match. }
  unfold SensitiveFileAccessAskPolicy in Es. destruct (file_access is_sensitive_file ctx); [done|].
  unfold GitControlPathAccessAskPolicy in Ec. destruct (file_access is_git_control_path ctx); [done|].
  simpl. rewrite orb_true_iff. right.
  chain_in Hv Eo.
  { rewrite boundary_verdict in Eo. destruct (outside_path services ctx) as [canonical|]; [|done].
    destruct (find _ _) as [rule|]; [|done]. by destruct (decision rule). }
  rewrite boundary_verdict in Eo. destruct (outside_path services ctx) as [canonical|].
  { destruct (find _ _) as [rule|]; [|done]. by destruct (decision rule). }
  chain_in Hv Et. { unfold DefaultToolApprovePolicy in Et. by destruct (bool_decide _). }
  chain_in Hv Ez. { unfold GitCwdWriteApprovePolicy, plain_ask in Ez. by case_match. }
  by simpl in Hv.
Qed.

(** Where no client and no gate can put a question before anybody, the hook
    and the synchronous translation let the same calls through. *)
Theorem before_tool_call_agrees m hooks stores call answers now cache :
  h_permission_manager hooks = Some m ->
  h_reverse_rpc hooks = false -> h_interaction_kernel hooks = None ->
  posture_refuses (h_turn_origin hooks) call = false ->
  is_approved (authorized lookup hooks stores call answers now cache) =
  is_approved (before_tool_call m
                 (policy_context m stores hooks call (call_class lookup call now cache))).
Proof.
  intros Hm Hr Hk Hp. rewrite (authorized_passes _ m) by done. rewrite Hp. simpl.
  unfold call_verdict, before_tool_call.
  set (ctx := policy_context _ _ _ _ _). change (turn_origin ctx) with (h_turn_origin hooks).
  destruct (decide_call (pm_services m) ctx) as [| |r g d n|] eqn:Ev; try done. simpl.
  unfold ask_passes, refused_unasked, person_approves, nobody_asked. rewrite Hr, Hk. simpl.
  destruct (decide (a_tool_name call = "CreateScheduledTask")) as [Hn|Hn].
  - rewrite create_verdict in Ev by done. injection Ev as <- <- <- <-.
    rewrite bool_decide_true by done. simpl.
    destruct (from_cron _), (rejects_asks _), (pm_headless m); done.
  - rewrite bool_decide_false by done. simpl.
    destruct (rejects_asks _), d, n, (pm_headless m); done.
Qed.

(** ** The memory of the session *)

(** A person approves for the whole session, through a client. *)
Definition session_yes (hooks : TurnFlowHooks) (answers : Answers) : bool :=
  let gated := bool_decide (is_Some (h_interaction_kernel hooks)) in
  let decided gate_end := gated && match gate_end with Decided ApprovedForSession => true | _ => false end in
  match race answers with
  | RpcReply response =>
    reply_yes response && bool_decide (str_field "scope" response = Some "session")
  | RpcFailed _ => decided (gate_wait answers)
  | GateFirst gate_end => decided gate_end
  end.

(** The ask is put to a client. *)
Definition client_asked (m : PermissionManager) (hooks : TurnFlowHooks) (call : AuthorizeToolContext)
    (deny_when_unattended : bool) : bool :=
  h_reverse_rpc hooks && negb (refused_unasked m hooks call deny_when_unattended)
  && negb (bool_decide (is_Some (h_interaction_kernel hooks)) && parks_asks (h_turn_origin hooks)).

Definition records (pattern : string) (effects : list Effect) : Prop := RecordApproval pattern ∈ effects.

Lemma record_result_fields response :
  str_field "decision" (record_result response) = str_field "decision" response /\
  str_field "scope" (record_result response) = str_field "scope" response.
Proof.
  unfold record_result.
  by destruct (str_field "decision" response), (str_field "scope" response), (str_field "feedback" response).
Qed.

Lemma persist_records call turn_id grant_dir result pattern :
  records pattern (persist_result call turn_id grant_dir result) <->
  pattern = a_approval_rule call /\ grant_dir = None /\
  exists r, result = Some r /\ str_field "decision" r = Some "approved" /\ str_field "scope" r = Some "session".
Proof.
  unfold records, persist_result. destruct result as [r|]; [|set_solver].
  destruct (decide (str_field "decision" r = Some "approved")) as [Hd|Hd];
    [rewrite (bool_decide_true (str_field "decision" r = _)) by done
    |rewrite (bool_decide_false (str_field "decision" r = _)) by done]; simpl.
  2: { rewrite elem_of_cons, elem_of_nil. naive_solver. }
  destruct (decide (str_field "scope" r = Some "session")) as [Hs|Hs];
    [rewrite (bool_decide_true (str_field "scope" r = _)) by done
    |rewrite (bool_decide_false (str_field "scope" r = _)) by done]; simpl.
  2: { rewrite elem_of_cons, elem_of_nil. naive_solver. }
  destruct grant_dir as [dir|];
    [rewrite bool_decide_true by eauto
    |rewrite bool_decide_false by (intros [? ?]; done)]; simpl;
    rewrite !elem_of_cons, ?elem_of_nil; naive_solver.
Qed.

Lemma not_recorded pattern effects :
  forallb (fun effect => match effect with RecordApproval _ => false | _ => true end) effects = true ->
  ~ records pattern effects.
Proof.
  unfold records. intros Hf Hin. rewrite forallb_forall in Hf.
  by specialize (Hf _ (proj1 (list_elem_of_In _ _) Hin)).
Qed.

Lemma ask_client_quiet pattern sink parks request grant_dir answers :
  ~ records pattern (snd (ask_client sink parks request grant_dir answers)).
Proof.
  apply not_recorded. destruct sink as [sink|], parks; simpl.
  - by destruct (gate_wait answers).
  - destruct (race answers) as [response|err|[]]; simpl; [|by destruct (gate_wait answers)|done..].
    unfold interpret_approval_response. destruct (negb _); [done|].
    destruct grant_dir as [dir|]; [|done].
    destruct (str_field "scope" response) as [scope|]; [|done].
    by repeat (case_match; try done).
  - done.
  - done.
Qed.

Lemma resolved_session hooks request grant_dir answers r :
  snd (resolve_channel (fst (ask_client (h_interaction_kernel hooks) false request grant_dir answers))
         grant_dir) = Some r ->
  bool_decide (str_field "decision" r = Some "approved")
  && bool_decide (str_field "scope" r = Some "session") = session_yes hooks answers.
Proof.
  unfold session_yes, reply_yes.
  destruct (h_interaction_kernel hooks) as [sink|]; simpl.
  - destruct (race answers) as [response|err|[[]|]]; simpl.
    + destruct (interpret_approval_response _ _ _). simpl. intros [= <-].
      by destruct (record_result_fields response) as [-> ->].
    + destruct (gate_wait answers) as [[]|]; simpl; by intros [= <-].
    + by intros [= <-].
    + by intros [= <-].
    + by intros [= <-].
    + done.
    + done.
  - destruct (race answers) as [response|err|[[]|]]; simpl; try done.
    intros [= <-]. by destruct (record_result_fields response) as [-> ->].
Qed.

Lemma session_yes_resolved hooks request grant_dir answers :
  session_yes hooks answers = true ->
  is_Some (snd (resolve_channel
                  (fst (ask_client (h_interaction_kernel hooks) false request grant_dir answers)) grant_dir)).
Proof.
  unfold session_yes. destruct (h_interaction_kernel hooks) as [sink|]; simpl.
  - destruct (race answers) as [response|err|[[]|]]; simpl; try done.
    + destruct (interpret_approval_response _ _ _). simpl. eauto.
    + by destruct (gate_wait answers) as [[]|]; simpl; eauto.
  - destruct (race answers) as [response|err|[[]|]]; simpl; try done; eauto.
Qed.

Lemma resolve_ask_records m hooks call answers reason grant_dir deny never pattern :
  records pattern (snd (resolve_ask m hooks call answers reason grant_dir deny never)) <->
  pattern = a_approval_rule call /\ grant_dir = None /\
  client_asked m hooks call deny = true /\ session_yes hooks answers = true.
Proof.
  assert (Hno : forall effects,
    forallb (fun effect => match effect with RecordApproval _ => false | _ => true end) effects = true ->
    client_asked m hooks call deny = false ->
    records pattern effects <->
    pattern = a_approval_rule call /\ grant_dir = None /\
    client_asked m hooks call deny = true /\ session_yes hooks answers = true).
  { intros effects He Hc. rewrite Hc. split; [intros Hr; by apply not_recorded in Hr|naive_solver]. }
  unfold resolve_ask, client_asked, refused_unasked in *.
  destruct (bool_decide (a_tool_name call = _) && from_cron _).
  { apply Hno; [done|]. simpl. by rewrite andb_false_r. }
  destruct (h_reverse_rpc hooks) eqn:Er; cbn [andb negb orb] in *.
  2: { rewrite andb_true_r.
       destruct (never && _); [by apply Hno|]. destruct (rejects_asks _); [by apply Hno|].
       destruct (deny && _); [by apply Hno|].
       destruct (_ && parks_asks _); [|by destruct (pm_headless m), never; apply Hno].
       by destruct (gate_wait answers) as [[]|]; apply Hno. }
  rewrite andb_false_r. cbn [andb].
  destruct (rejects_asks _); [by apply Hno|]. destruct (deny && _); [by apply Hno|].
  cbn [orb negb andb] in *. 
  set (gated := bool_decide (is_Some (h_interaction_kernel hooks))) in *.
  destruct (gated && parks_asks (h_turn_origin hooks)) eqn:Eg.
  { destruct (gate_wait answers) as [[]|]; by apply Hno. }
  clear Hno. cbn [negb].
  assert (Ep : ask_client (h_interaction_kernel hooks) (parks_asks (h_turn_origin hooks))
                 (approval_request hooks call reason grant_dir) grant_dir answers
               = ask_client (h_interaction_kernel hooks) false
                 (approval_request hooks call reason grant_dir) grant_dir answers).
  { unfold gated in Eg. destruct (h_interaction_kernel hooks); [|done].
    rewrite bool_decide_true in Eg by eauto. simpl in Eg. by rewrite Eg. }
  rewrite Ep. clear Ep.
  pose proof (ask_client_quiet pattern (h_interaction_kernel hooks) false
                (approval_request hooks call reason grant_dir) grant_dir answers) as Hq.
  pose proof (resolved_session hooks (approval_request hooks call reason grant_dir) grant_dir answers) as Hs.
  pose proof (session_yes_resolved hooks (approval_request hooks call reason grant_dir) grant_dir answers) as Hy.
  destruct (ask_client _ _ _ _ _) as [channel effects]. simpl in *.
  destruct (resolve_channel channel grant_dir) as [[resolved source] result]. simpl in *.
  unfold records. rewrite !elem_of_cons, !elem_of_app, elem_of_cons.
  fold (records pattern effects) (records pattern (persist_result call (turn_id_of call) grant_dir result)).
  rewrite persist_records.
  split.
  - intros [?|[?|[?|[?|(-> & -> & r & -> & Hd & Hsc)]]]]; try done.
    specialize (Hs r eq_refl). by rewrite Hd, Hsc, !bool_decide_true in Hs by done.
  - intros (-> & -> & _ & Hyes). do 4 right. split; [done|]. split; [done|].
    destruct (Hy Hyes) as [r Hr]. exists r. split; [done|]. specialize (Hs r Hr).
    rewrite Hyes in Hs. by rewrite andb_true_iff, !bool_decide_eq_true in Hs.
Qed.

(** What enters the memory of the session: exactly the approval rule of a call
    that was put to a client and approved for the session, and never one of an
    ask about a directory to grant. *)
Theorem approval_memorized m hooks stores call answers now cache pattern :
  h_permission_manager hooks = Some m ->
  records pattern (snd (authorize_tool_execution lookup hooks stores call answers now cache)) <->
  pattern = a_approval_rule call /\ posture_refuses (h_turn_origin hooks) call = false /\
  exists reason unattended never,
    call_verdict lookup m stores hooks call now cache = Ask reason None unattended never /\
    client_asked m hooks call unattended = true /\ session_yes hooks answers = true.
Proof.
  intros Hm. unfold authorize_tool_execution, posture_refuses. rewrite Hm.
  destruct (_ && negb (a_tool_readonly call)); simpl.
  { split; [intros Hr; by apply not_recorded in Hr|naive_solver]. }
  unfold call_verdict, call_class. destruct (net_class_info _ _ _ _ _) as [[cache' class] host]. simpl.
  set (verdict := decide_call _ _).
  assert (E : records pattern (snd (resolve_verdict m hooks call answers verdict)) <->
    pattern = a_approval_rule call /\
    exists reason unattended never,
      verdict = Ask reason None unattended never /\
      client_asked m hooks call unattended = true /\ session_yes hooks answers = true).
  { destruct verdict as [| |reason grant_dir deny never|]; simpl.
    1,2,4: split; [intros Hr; by apply not_recorded in Hr|naive_solver].
    rewrite resolve_ask_records. split.
    - intros (-> & -> & Hc & Hs). split; [done|]. by exists reason, deny, never.
    - intros (-> & r & d & n & [= -> -> -> ->] & Hc & Hs). done. }
  destruct (resolve_verdict m hooks call answers verdict) as [[outcome source] effects]. simpl in *.
  transitivity (records pattern effects); [|rewrite E; naive_solver].
  unfold records. rewrite elem_of_app, elem_of_cons.
  destruct (from_cron (h_turn_origin hooks)), outcome; rewrite ?elem_of_cons, elem_of_nil; naive_solver.
Qed.

Lemma recorded_grows m effects stores store :
  patterns stores store ⊆
  patterns (foldl (fun stores effect => match effect with
                                        | RecordApproval pattern => record_approval m pattern stores
                                        | _ => stores
                                        end) stores effects) store.
Proof.
  revert stores. induction effects as [|e effects IH]; intros stores; simpl; [done|].
  etrans; [|apply IH]. destruct e; try done. unfold record_approval, record, patterns.
  destruct (decide (store = pm_store m)) as [->|Hne].
  - rewrite lookup_insert_eq. simpl. set_solver.
  - by rewrite lookup_insert_ne.
Qed.

Lemma recorded_kept m hooks effects stores pattern :
  h_permission_manager hooks = Some m -> records pattern effects ->
  pattern ∈ patterns (stores_after hooks effects stores) (pm_store m).
Proof.
  unfold records, stores_after. intros -> Hr. revert stores.
  induction effects as [|e effects IH]; intros stores; [by apply elem_of_nil in Hr|].
  apply elem_of_cons in Hr as [<-|Hr]; simpl; [|by apply IH].
  apply (recorded_grows m). unfold record_approval, record, patterns.
  rewrite lookup_insert_eq. simpl. set_solver.
Qed.

Lemma own_approvals stores m : patterns stores (pm_store m) ⊆ all_session_approvals stores m.
Proof. destruct m. simpl. set_solver. Qed.

(** A call the session remembers runs without a question in every mode, save
    the tools with questions of their own. *)
Lemma remembered_approves services ctx :
  tool_name ctx ∉ ["CreateScheduledTask"; "FetchURL"; "SetTimer"] ->
  hard_denied services ctx = false -> remembered ctx = true ->
  exists reason, decide_call services ctx = Approve reason.
Proof.
  intros Hn Hd Hr. destruct (decide_call_rest services ctx) as [-> _]; [set_solver|done|].
  cbn [drop create_default_policies].
  rewrite evaluate_skip by (apply private_ask_other_tool; set_solver).
  rewrite evaluate_skip.
  2: { unfold AgentCronBudgetGatePolicy. rewrite bool_decide_false by set_solver. done. }
  destruct (decide (mode ctx = Auto)) as [Hm|Hm].
  - eexists. apply evaluate_stop; [|done]. unfold AutoModeApprovePolicy. by rewrite bool_decide_true.
  - rewrite evaluate_skip by (unfold AutoModeApprovePolicy; by rewrite bool_decide_false).
    eexists. apply evaluate_stop; [|done]. unfold SessionApprovalHistoryPolicy.
    fold (remembered ctx). by rewrite Hr.
Qed.

(** An approval given for the session to one agent holds for every agent that
    shares the session's store: the tool it names runs without a question, in
    any mode and whatever the answers, unless the call is one of the hard
    denials. *)
Theorem session_memory_shared m hooks stores effects m' hooks' call answers now cache :
  h_permission_manager hooks = Some m -> records (a_tool_name call) effects ->
  h_permission_manager hooks' = Some m' -> pm_store m' = pm_store m ->
  match_permission_rule glob_set (a_tool_name call) (a_tool_name call) None = true ->
  a_tool_name call ∉ ["CreateScheduledTask"; "FetchURL"; "SetTimer"] ->
  posture_refuses (h_turn_origin hooks') call = false ->
  hard_denied (pm_services m')
    (policy_context m' (stores_after hooks effects stores) hooks' call
       (call_class lookup call now cache)) = false ->
  is_approved (authorized lookup hooks' (stores_after hooks effects stores) call answers now cache) = true.
Proof.
  intros Hm Hr Hm' Hst Hg Hn Hp Hd. rewrite (authorized_passes _ m') by done. rewrite Hp. simpl.
  unfold call_verdict. set (ctx := policy_context _ _ _ _ _) in *.
  destruct (remembered_approves (pm_services m') ctx) as [reason ->]; [done..| |done].
  unfold remembered. apply existsb_exists. exists (a_tool_name call). split; [|done].
  apply list_elem_of_In, elem_of_elements, own_approvals. rewrite Hst. by apply recorded_kept.
Qed.

(** ** Rules with an argument pattern *)

Lemma argument_rule_match rule tool parsed arg :
  parse_pattern rule = Some parsed -> p_arg_pattern parsed = Some arg ->
  match_permission_rule glob_set rule tool None = p_negated parsed.
Proof.
  intros Hp Ha. unfold match_permission_rule, matches_positive. rewrite Hp, Ha.
  by destruct (_ && _), (p_negated parsed).
Qed.

(** The name policies look at no argument, so one deny rule that excepts some
    calls of a tool, like [!Write(src/a.rs)], blocks every call. *)
Theorem excepting_deny_blocks_all m hooks stores call answers now cache rule parsed arg :
  h_permission_manager hooks = Some m -> a_tool_name call <> "CreateScheduledTask" ->
  rule ∈ pm_effective_rules m -> decision rule = DenyRule -> scope rule ∈ user_scopes ->
  parse_pattern (pattern rule) = Some parsed -> p_arg_pattern parsed = Some arg ->
  p_negated parsed = true ->
  is_approved (authorized lookup hooks stores call answers now cache) = false.
Proof.
  intros Hm Hn Hin Hdec Hsc Hp Ha Hneg. rewrite (authorized_passes _ m) by done.
  unfold call_verdict. set (ctx := policy_context _ _ _ _ _).
  assert (Hd : hard_denied (pm_services m) ctx = true).
  { rewrite hard_denied_policies. apply orb_true_iff. left. apply existsb_exists.
    exists UserConfiguredDenyPolicy. split; [apply list_elem_of_In; unfold denying_policies; set_solver|].
    unfold UserConfiguredDenyPolicy, user_rule. destruct (find _ _) as [r|] eqn:Ef; [done|].
    exfalso. eapply find_none in Ef; [|by apply list_elem_of_In].
    rewrite Hdec in Ef. rewrite (bool_decide_true (DenyRule = DenyRule)), (bool_decide_true (scope rule ∈ _)) in Ef by done.
    by rewrite (argument_rule_match _ _ _ _ Hp Ha), Hneg in Ef. }
  apply hard_denied_denies in Hd; [|done]. destruct (decide_call _ _); try done. apply andb_false_r.
Qed.
End guarantees.

(** ** Concrete calls *)

(** Names and paths that match themselves only, and the host between the
    scheme and the next slash. *)
Definition sample_env : PermEnv := {|
  glob_set := fun pattern => Some (fun name => bool_decide (name = pattern));
  path_glob := fun pattern => Some (fun p => bool_decide (PathSandbox.display p = pattern));
  url_host := fun url => rest ← strip_prefix "http://" url; head (split "/" rest);
  to_lowercase := to_ascii_lowercase
|}.
Definition sample_gate : GateEnv := {| display_json := fun _ => JObj []; is_uuid := fun _ => false |}.
#[local] Existing Instances sample_env sample_gate.

Definition no_dns (host : string) : option (list IpAddr) := None.
Definition home_dns (host : string) : option (list IpAddr) := Some [V4 192 168 1 7].
Definition sample_manager (md : PermissionMode) (rls : list PermissionRule) : PermissionManager :=
  with_shared_approvals md rls no_services 1%positive.
Definition sample_call (name : string) (input : json) : AuthorizeToolContext :=
  mkAuthorize name "call-1" "7" input name (Generic "t") false.
Definition interactive (m : PermissionManager) : TurnFlowHooks :=
  mkHooks (Some m) true (Some true) Interactive None.
Definition says (decision : string) : Answers :=
  mkAnswers (RpcReply (JObj [("decision", JStr decision); ("scope", JStr "session")])) TurnCancelled.
Definition deny_bash : PermissionRule := mkRule DenyRule User "Bash" None.
Definition fetch_home : json := JObj [("url", JStr "http://router.lan/status")].
Definition planning (m : PermissionManager) : PermissionManager :=
  mkManager (pm_mode m) (pm_effective_rules m) (mkServices (Some true) None None) (pm_store m)
    (pm_parent m) (pm_headless m).

(** Where the code and the documents part *)

(** A deny rule for the creation of scheduled tasks gives way to a person's
    yes, in every mode. *)
Example deny_rule_gives_way :
  forallb (fun md =>
    is_approved (authorized no_dns
      (interactive (sample_manager md [mkRule DenyRule User "CreateScheduledTask" None])) ∅
      (sample_call "CreateScheduledTask" (JObj [])) (says "approved") 0 ∅)) [Manual; Auto; Yolo] = true.
Proof. vm_compute. reflexivity. Qed.

(** So does plan mode, which is to deny scheduling. *)
Example plan_mode_gives_way :
  is_approved (authorized no_dns (interactive (planning (sample_manager Manual []))) ∅
                 (sample_call "CreateScheduledTask" (JObj [])) (says "approved") 0 ∅) = true.
Proof. vm_compute. reflexivity. Qed.

(** In auto mode the creation of a scheduled task is asked about. *)
Example auto_asks_for_tasks :
  is_approved (authorized no_dns (interactive (sample_manager Auto [])) ∅
                 (sample_call "CreateScheduledTask" (JObj [])) (says "rejected") 0 ∅) = false.
Proof. vm_compute. reflexivity. Qed.

(** In plan mode a rule that allows Bash does not let it run, and Write is
    refused whatever file it names. *)
Example plan_mode_blocks_allowed :
  forallb (fun name =>
    negb (is_approved (authorized no_dns
      (interactive (planning (sample_manager Auto [mkRule AllowRule User name None]))) ∅
      (sample_call name (JObj [("path", JStr "plans/plan.md")])) (says "approved") 0 ∅)))
    ["Bash"; "Write"; "Edit"] = true.
Proof. vm_compute. reflexivity. Qed.

(** A deny rule wins over an allow rule that is listed before it. *)
Example later_deny_wins :
  is_approved (authorized no_dns
    (interactive (sample_manager Manual [mkRule AllowRule User "Bash" None; deny_bash])) ∅
    (sample_call "Bash" (JObj [])) (says "approved") 0 ∅) = false.
Proof. vm_compute. reflexivity. Qed.

(** An allow rule for FetchURL that names no host lets a private fetch pass,
    though the person asked says no. *)
Example bare_allow_rule_passes :
  is_approved (authorized home_dns
    (interactive (sample_manager Auto [mkRule AllowRule User "FetchURL" None])) ∅
    (sample_call "FetchURL" fetch_home) (says "rejected") 0 ∅) = true.
Proof. vm_compute. reflexivity. Qed.

(** So does an allow rule for every tool but Bash. *)
Example negated_allow_rule_passes :
  is_approved (authorized home_dns
    (interactive (sample_manager Auto [mkRule AllowRule User "!Bash" None])) ∅
    (sample_call "FetchURL" fetch_home) (says "rejected") 0 ∅) = true.
Proof. vm_compute. reflexivity. Qed.

Lemma scheduled_task_needs_person_witness :
  is_approved (authorized no_dns (interactive (sample_manager Yolo [])) ∅
                 (sample_call "CreateScheduledTask" (JObj [])) (says "approved") 0 ∅) = true <->
  h_turn_origin (interactive (sample_manager Yolo [])) = Interactive /\
  person_approves (interactive (sample_manager Yolo [])) (says "approved") = true.
Proof.
  apply (scheduled_task_needs_person no_dns (sample_manager Yolo [])); reflexivity.
Defined.

Lemma hard_denials_final_witness :
  hard_denied no_services
    (policy_context (sample_manager Auto [deny_bash]) ∅ (interactive (sample_manager Auto [deny_bash]))
       (sample_call "Bash" (JObj [])) None) = true /\
  exists reason, authorized no_dns (interactive (sample_manager Auto [deny_bash])) ∅
                   (sample_call "Bash" (JObj [])) (says "approved") 0 ∅ = Blocked reason.
Proof.
  split; [vm_compute; reflexivity|].
  apply (hard_denials_final no_dns (sample_manager Auto [deny_bash])); [done|done|vm_compute; reflexivity].
Defined.

Lemma private_fetch_needs_consent_witness :
  (fetch_allowed (policy_context (sample_manager Auto []) ∅ (interactive (sample_manager Auto []))
                   (sample_call "FetchURL" fetch_home) (Some (Askable, [V4 192 168 1 7]))) = true
   \/ person_approves (interactive (sample_manager Auto [])) (says "approved") = true) /\
  authorized home_dns (interactive (sample_manager Auto [])) ∅ (sample_call "FetchURL" fetch_home)
    (says "approved") 0 ∅ =
  Approved (Some (JObj [("private_network_exemption",
                         JObj [("host", JStr "router.lan");
                               ("approved_ips", JArr [JStr "192.168.1.7"])])])).
Proof.
  apply (private_fetch_needs_consent home_dns (sample_manager Auto [])
           (interactive (sample_manager Auto [])) ∅ (sample_call "FetchURL" fetch_home) (says "approved")
           0 ∅ (<["router.lan" := (0, (Askable, [V4 192 168 1 7]))]> ∅) [V4 192 168 1 7] "router.lan");
    vm_compute; reflexivity.
Defined.

Lemma manual_auto_approvals_witness :
  decide_call no_services
    (policy_context (sample_manager Manual []) ∅ (interactive (sample_manager Manual []))
       (sample_call "Grep" (JObj [])) None) = Approve (Some "default-approve") /\
  hard_denied no_services
    (policy_context (sample_manager Manual []) ∅ (interactive (sample_manager Manual []))
       (sample_call "Grep" (JObj [])) None) = false /\
  manual_grant no_services
    (policy_context (sample_manager Manual []) ∅ (interactive (sample_manager Manual []))
       (sample_call "Grep" (JObj [])) None) = true.
Proof.
  split; [vm_compute; reflexivity|].
  apply (manual_auto_approvals no_services _ (Some "default-approve")); vm_compute; reflexivity.
Defined.

Lemma before_tool_call_agrees_witness :
  is_approved (authorized no_dns (mkHooks (Some (set_headless true (sample_manager Manual []))) false None
                                    Interactive None) ∅ (sample_call "Bash" (JObj [])) (says "approved") 0 ∅)
  = is_approved (before_tool_call (set_headless true (sample_manager Manual []))
      (policy_context (set_headless true (sample_manager Manual [])) ∅
         (mkHooks (Some (set_headless true (sample_manager Manual []))) false None Interactive None)
         (sample_call "Bash" (JObj [])) None)).
Proof.
  apply (before_tool_call_agrees no_dns (set_headless true (sample_manager Manual []))); reflexivity.
Defined.

Lemma approval_memorized_witness :
  records "Bash" (snd (authorize_tool_execution no_dns (interactive (sample_manager Manual [])) ∅
                         (sample_call "Bash" (JObj [])) (says "approved") 0 ∅)) <->
  "Bash" = "Bash" /\ posture_refuses Interactive (sample_call "Bash" (JObj [])) = false /\
  exists reason unattended never,
    call_verdict no_dns (sample_manager Manual []) ∅ (interactive (sample_manager Manual []))
      (sample_call "Bash" (JObj [])) 0 ∅ = Ask reason None unattended never /\
    client_asked (sample_manager Manual []) (interactive (sample_manager Manual []))
      (sample_call "Bash" (JObj [])) unattended = true /\
    session_yes (interactive (sample_manager Manual [])) (says "approved") = true.
Proof.
  apply (approval_memorized no_dns (sample_manager Manual []) (interactive (sample_manager Manual [])));
    reflexivity.
Defined.

Lemma session_memory_shared_witness :
  is_approved (authorized no_dns (interactive (sample_manager Manual []))
                 (stores_after (interactive (sample_manager Manual [])) [RecordApproval "Bash"] ∅)
                 (sample_call "Bash" (JObj [])) (says "rejected") 0 ∅) = true.
Proof.
  apply (session_memory_shared no_dns (sample_manager Manual []) (interactive (sample_manager Manual []))
           ∅ [RecordApproval "Bash"] (sample_manager Manual []));
    [done| |done|done|vm_compute; reflexivity| |done|vm_compute; reflexivity].
  - unfold records. by left.
  - apply (bool_decide_eq_true_1 (_ ∉ _)). vm_compute. reflexivity.
Defined.

Lemma excepting_deny_blocks_all_witness :
  is_approved (authorized no_dns
    (interactive (sample_manager Manual [mkRule DenyRule User "!Write(src/a.rs)" None])) ∅
    (sample_call "Write" (JObj [("path", JStr "src/a.rs")])) (says "approved") 0 ∅) = false.
Proof.
  apply (excepting_deny_blocks_all no_dns
           (sample_manager Manual [mkRule DenyRule User "!Write(src/a.rs)" None]) _ _ _ _ _ _
           (mkRule DenyRule User "!Write(src/a.rs)" None)
           (mkPattern "Write" (Some "src/a.rs") true) "src/a.rs"); try reflexivity; [done|by left|].
  apply (bool_decide_eq_true_1 (_ ∈ _)). vm_compute. reflexivity.
Defined.
