(* ===== verification/Gates.v ===== *)
(** * The gates of a session: [mirri-core/src/session/gates.rs] and [session/interaction.rs]

    The approval gate and the question gate, which hold the requests a person
    has not answered, the ring of recently resolved ids, and the interaction
    kernel that lists both and routes a response to one.  A requester waits on
    a one-shot channel: the state keeps the channel of every request, so that
    the theorems can say who hears what. *)
From stdpp Require Import gmap list strings.
From S2P Require Import Prelude RustStd Json PathSandbox PermGate.
#[local] Open Scope string_scope.
#[local] Open Scope list_scope.
#[local] Open Scope Z_scope.

(** Request ids and agent ids; the [uuid] crate prints and parses them. *)
Notation Uuid := positive.
Definition nil_uuid : Uuid := 1%positive.
Class UuidText : Type := { uuid_text : Uuid -> string; parse_uuid : string -> option Uuid }.

(** ** The ring of resolved ids *)

Record ResolvedRing : Type := mkRing { ids : list Uuid; dismissed_texts : list string }.
Definition RING_CAPACITY : nat := 256.

Definition push_ring {A} (x : A) (l : list A) : list A :=
  (if (RING_CAPACITY <=? length l)%nat then drop 1 l else l) ++ [x].
Definition ring_record (id : Uuid) (r : ResolvedRing) : ResolvedRing :=
  mkRing (push_ring id (ids r)) (dismissed_texts r).
Definition record_dismissed_text (text : string) (r : ResolvedRing) : ResolvedRing :=
  mkRing (ids r) (push_ring text (dismissed_texts r)).
Definition ring_contains (id : Uuid) (r : ResolvedRing) : bool := bool_decide (id ∈ ids r).
Definition contains_dismissed_text (text : string) (r : ResolvedRing) : bool :=
  bool_decide (text ∈ dismissed_texts r).

(** ** One-shot channels *)

(** [Cut]: the sender was dropped; [GivenUp]: the receiver was. *)
Inductive Channel (A : Type) : Type := Waiting | Delivered (v : A) | Cut | GivenUp.
Arguments Waiting {A}. Arguments Delivered {A} v. Arguments Cut {A}. Arguments GivenUp {A}.

(** [sender.send(v)]: whether the receiver is still there *)
Definition send {A} (v : A) (c : Channel A) : Channel A * bool :=
  match c with Waiting => (Delivered v, true) | _ => (c, false) end.
Definition drop_sender {A} (c : Channel A) : Channel A := match c with Waiting => Cut | _ => c end.
Definition drop_receiver {A} (c : Channel A) : Channel A := match c with Waiting => GivenUp | _ => c end.

(** ** The approval gate *)

Record ApprovalSnapshot : Type := mkApprovalSnapshot {
  as_tool_name : string;
  as_action : string;
  as_display : json;
  as_agent_id : Uuid;
  as_turn_id : option Z;
  as_tool_call_id : option string;
  as_created_at : Z;
  as_approval_rule : option string;
  as_grant_dir : option Path
}.

Inductive SessionEvent : Type :=
| ToolApprovalRequested (agent_id : Uuid) (tool_name : string) (request_id : Uuid)
| ToolApprovalResolved (request_id : Uuid) (approved : bool)
| QuestionAsked (agent_id : Uuid) (questions : json) (request_id : Uuid)
| QuestionAnswered (request_id : Uuid) (answer : string)
| QuestionDismissed (request_id : Uuid).

(** An entry keeps its snapshot and whether a wake-up of the scheduler is
    attached to the decision. *)
Record PendingApproval : Type := mkPendingApproval {
  pa_snapshot : ApprovalSnapshot;
  pa_resume_notify : bool
}.

(** The gate with the channels of its requesters, the events published on its
    bus and the wake-ups it made. *)
Record ApprovalGate : Type := mkApprovalGate {
  a_pending : gmap Uuid PendingApproval;
  a_auto_approve : bool;
  a_event_bus : bool;
  a_closed : bool;
  a_resolved : ResolvedRing;
  a_channels : gmap Uuid (Channel ApprovalDecision);
  a_published : list SessionEvent;
  a_woken : list (Uuid * ApprovalDecision)
}.

Definition new_approval_gate (auto_approve event_bus : bool) : ApprovalGate :=
  mkApprovalGate ∅ auto_approve event_bus false (mkRing [] []) ∅ [] [].

Definition is_approval (decision : ApprovalDecision) : bool :=
  match decision with GateApproved | ApprovedForSession => true | _ => false end.

Definition a_publish (event : SessionEvent) (g : ApprovalGate) : ApprovalGate :=
  if a_event_bus g then
    mkApprovalGate (a_pending g) (a_auto_approve g) (a_event_bus g) (a_closed g) (a_resolved g)
      (a_channels g) (a_published g ++ [event]) (a_woken g)
  else g.

(** The pending map and the channels of the gate changed *)
Definition a_with (pending : gmap Uuid PendingApproval) (channels : gmap Uuid (Channel ApprovalDecision))
    (g : ApprovalGate) : ApprovalGate :=
  mkApprovalGate pending (a_auto_approve g) (a_event_bus g) (a_closed g) (a_resolved g) channels
    (a_published g) (a_woken g).

(** [register_with_resume_notify]; [id] is the minted request id. *)
Definition a_register (id : Uuid) (snapshot : ApprovalSnapshot) (resume_notify : bool)
    (g : ApprovalGate) : ApprovalGate :=
  a_publish (ToolApprovalRequested (as_agent_id snapshot) (as_tool_name snapshot) id)
    (a_with (<[id := mkPendingApproval snapshot resume_notify]> (a_pending g))
       (<[id := Waiting]> (a_channels g)) g).

(** [request_for_agent] up to its wait: the decision it has at once, or the
    request it registered *)
Definition request_for_agent (id agent_id : Uuid) (tool_name : string) (now : Z) (g : ApprovalGate)
  : ApprovalGate * (ApprovalDecision + Uuid) :=
  if a_auto_approve g then (g, inl GateApproved)
  else if a_closed g then (g, inl Timeout)
  else
    (a_register id (mkApprovalSnapshot tool_name ("execute " +:+ tool_name) (JObj []) agent_id None None
                      now None None) false g, inr id).

(** What the requester's wait returns *)
Definition received (c : Channel ApprovalDecision) : option ApprovalDecision :=
  match c with Delivered decision => Some decision | Cut => Some Timeout | _ => None end.

Definition channel_of {A} (id : Uuid) (channels : gmap Uuid (Channel A)) : Channel A :=
  default GivenUp (channels !! id).

Definition a_resolve (id : Uuid) (decision : ApprovalDecision) (g : ApprovalGate) : ApprovalGate * bool :=
  match a_pending g !! id with
  | None => (g, false)
  | Some entry =>
    let '(channel, sent) := send decision (channel_of id (a_channels g)) in
    let g := mkApprovalGate (delete id (a_pending g)) (a_auto_approve g) (a_event_bus g) (a_closed g)
               (ring_record id (a_resolved g)) (<[id := channel]> (a_channels g)) (a_published g)
               (if pa_resume_notify entry then a_woken g ++ [(id, decision)] else a_woken g) in
    (if sent then a_publish (ToolApprovalResolved id (is_approval decision)) g else g, true)
  end.

Definition a_withdraw (id : Uuid) (g : ApprovalGate) : ApprovalGate * bool :=
  match a_pending g !! id with
  | None => (g, false)
  | Some _ =>
    (a_with (delete id (a_pending g)) (<[id := drop_sender (channel_of id (a_channels g))]> (a_channels g)) g,
     true)
  end.

(** The requester gives up, dropping its end of the channel. *)
Definition a_give_up (id : Uuid) (g : ApprovalGate) : ApprovalGate :=
  match a_channels g !! id with
  | None => g
  | Some channel => a_with (a_pending g) (<[id := drop_receiver channel]> (a_channels g)) g
  end.

(** One drained entry *)
Definition a_drain_one (g : ApprovalGate) (id : Uuid) : ApprovalGate :=
  a_publish (ToolApprovalResolved id false)
    (a_with (a_pending g) (<[id := fst (send Timeout (channel_of id (a_channels g)))]> (a_channels g)) g).

Definition a_set_closed (closed : bool) (g : ApprovalGate) : ApprovalGate :=
  mkApprovalGate (a_pending g) (a_auto_approve g) (a_event_bus g) closed (a_resolved g) (a_channels g)
    (a_published g) (a_woken g).

(** [drain]; the entries come in the map's order. *)
Definition a_drain (g : ApprovalGate) : ApprovalGate :=
  let drained := (map_to_list (a_pending g)).*1 in
  foldl a_drain_one (a_with ∅ (a_channels g) (a_set_closed true g)) drained.

Definition a_reopen (g : ApprovalGate) : ApprovalGate := a_set_closed false g.

(** ** The question gate *)

Record QuestionSnapshot : Type := mkQuestionSnapshot {
  qs_questions : json;
  qs_agent_id : Uuid;
  qs_turn_id : option Z;
  qs_tool_call_id : option string;
  qs_created_at : Z
}.

Record QuestionGate : Type := mkQuestionGate {
  q_pending : gmap Uuid QuestionSnapshot;
  q_event_bus : bool;
  q_closed : bool;
  q_resolved : ResolvedRing;
  q_channels : gmap Uuid (Channel string);
  q_published : list SessionEvent
}.

Definition new_question_gate (event_bus : bool) : QuestionGate :=
  mkQuestionGate ∅ event_bus false (mkRing [] []) ∅ [].

Definition q_publish (event : SessionEvent) (g : QuestionGate) : QuestionGate :=
  if q_event_bus g then
    mkQuestionGate (q_pending g) (q_event_bus g) (q_closed g) (q_resolved g) (q_channels g)
      (q_published g ++ [event])
  else g.

Definition q_with (pending : gmap Uuid QuestionSnapshot) (resolved : ResolvedRing)
    (channels : gmap Uuid (Channel string)) (g : QuestionGate) : QuestionGate :=
  mkQuestionGate pending (q_event_bus g) (q_closed g) resolved channels (q_published g).

Definition q_register (id : Uuid) (snapshot : QuestionSnapshot) (g : QuestionGate) : QuestionGate :=
  q_publish (QuestionAsked (qs_agent_id snapshot) (qs_questions snapshot) id)
    (q_with (<[id := snapshot]> (q_pending g)) (q_resolved g) (<[id := Waiting]> (q_channels g)) g).

(** [ask_for_agent] up to its wait *)
Definition ask_for_agent (id agent_id : Uuid) (question : string) (now : Z) (g : QuestionGate)
  : QuestionGate * option Uuid :=
  if q_closed g then (g, None)
  else (q_register id (mkQuestionSnapshot (JArr [JObj [("question", JStr question)]]) agent_id None None now) g,
        Some id).

Definition q_answer (id : Uuid) (answer : string) (g : QuestionGate) : QuestionGate * bool :=
  match q_pending g !! id with
  | None => (g, false)
  | Some _ =>
    (q_publish (QuestionAnswered id answer)
       (q_with (delete id (q_pending g)) (ring_record id (q_resolved g))
          (<[id := fst (send answer (channel_of id (q_channels g)))]> (q_channels g)) g), true)
  end.

(** [question_texts] *)
Definition question_texts (questions : json) : list string :=
  match questions with JArr items => omap (str_field "question") items | _ => [] end.

Definition q_dismiss (id : Uuid) (g : QuestionGate) : QuestionGate * bool :=
  match q_pending g !! id with
  | None => (g, false)
  | Some snapshot =>
    let ring := foldl (fun ring text => record_dismissed_text text ring)
                  (ring_record id (q_resolved g)) (question_texts (qs_questions snapshot)) in
    (q_publish (QuestionDismissed id)
       (q_with (delete id (q_pending g)) ring
          (<[id := drop_sender (channel_of id (q_channels g))]> (q_channels g)) g), true)
  end.

Definition q_withdraw (id : Uuid) (g : QuestionGate) : QuestionGate * bool :=
  match q_pending g !! id with
  | None => (g, false)
  | Some _ =>
    (q_with (delete id (q_pending g)) (q_resolved g)
       (<[id := drop_sender (channel_of id (q_channels g))]> (q_channels g)) g, true)
  end.

Definition q_give_up (id : Uuid) (g : QuestionGate) : QuestionGate :=
  match q_channels g !! id with
  | None => g
  | Some channel => q_with (q_pending g) (q_resolved g) (<[id := drop_receiver channel]> (q_channels g)) g
  end.

Definition q_set_closed (closed : bool) (g : QuestionGate) : QuestionGate :=
  mkQuestionGate (q_pending g) (q_event_bus g) closed (q_resolved g) (q_channels g) (q_published g).

(** [drain]: dropping the entries drops their senders. *)
Definition q_drain (g : QuestionGate) : QuestionGate :=
  q_with ∅ (q_resolved g)
    (map_imap (fun id channel =>
                 Some (if bool_decide (is_Some (q_pending g !! id)) then drop_sender channel else channel))
       (q_channels g)) (q_set_closed true g).

Definition q_reopen (g : QuestionGate) : QuestionGate := q_set_closed false g.

Definition was_recently_dismissed (text : string) (g : QuestionGate) : bool :=
  contains_dismissed_text text (q_resolved g).

(** ** The interaction kernel *)

(** The two gates and the grant sink, whose grants are listed. *)
Record Kernel : Type := mkKernel {
  approval_gate : ApprovalGate;
  question_gate : QuestionGate;
  k_grant_sink : bool;
  k_grants : list (Path * bool)
}.

Inductive InteractionRespondError : Type :=
| NotFound (id : string)
| InvalidParams (message : string).

Section kernel.
Context `{UuidText}.

Definition opt_entry (key : string) (v : option json) : list (string * json) :=
  match v with Some v => [(key, v)] | None => [] end.
Definition agent_entry (agent_id : Uuid) : list (string * json) :=
  opt_entry "agentId" (if bool_decide (agent_id = nil_uuid) then None else Some (JStr (uuid_text agent_id))).

Definition approval_request_row (id : Uuid) (s : ApprovalSnapshot) : json :=
  JObj ([("id", JStr (uuid_text id)); ("toolName", JStr (as_tool_name s));
         ("action", JStr (as_action s)); ("display", as_display s)]
        ++ agent_entry (as_agent_id s)
        ++ opt_entry "turnId" (JNum <$> as_turn_id s)
        ++ opt_entry "toolCallId" (JStr <$> as_tool_call_id s)
        ++ opt_entry "approvalRule" (JStr <$> as_approval_rule s)
        ++ opt_entry "grant" ((fun dir => JObj [("dir", JStr (display dir))]) <$> as_grant_dir s)).

(** One question item in the client's spelling *)
Definition klient_question_item (item : json) : json :=
  match item with
  | JObj fields =>
    let kept := filter (fun field => field.1 <> "multi_select") fields in
    let renamed :=
      match assoc "multi_select" fields with
      | Some multi => assoc_insert "multiSelect" multi kept
      | None => fields
      end in
    JObj (assoc_insert "allowOther" (JBool true) renamed)
  | _ => item
  end.

Definition klient_question_items (questions : json) : json :=
  match questions with JArr items => JArr (klient_question_item <$> items) | _ => questions end.

Definition question_request_row (id : Uuid) (s : QuestionSnapshot) : json :=
  JObj ([("id", JStr (uuid_text id)); ("questions", klient_question_items (qs_questions s))]
        ++ opt_entry "turnId" (JNum <$> qs_turn_id s)
        ++ opt_entry "toolCallId" (JStr <$> qs_tool_call_id s)).

Definition interaction_row (id : Uuid) (kind : string) (payload : json) (agent_id : Uuid)
    (turn_id : option Z) (created_at : Z) : json :=
  JObj [("id", JStr (uuid_text id)); ("kind", JStr kind); ("payload", payload);
        ("origin", JObj (agent_entry agent_id ++ opt_entry "turnId" (JNum <$> turn_id)));
        ("createdAt", JNum created_at)].

Definition approval_list_pending (k : Kernel) : list json :=
  (fun '(id, entry) => approval_request_row id (pa_snapshot entry))
    <$> map_to_list (a_pending (approval_gate k)).

Definition question_list_pending (k : Kernel) : list json :=
  (fun '(id, s) => question_request_row id s) <$> map_to_list (q_pending (question_gate k)).

Definition list_pending (kind : option string) (k : Kernel) : list json :=
  (if bool_decide (kind = None) || bool_decide (kind = Some "approval") then
     (fun '(id, entry) =>
        let s := pa_snapshot entry in
        interaction_row id "approval" (approval_request_row id s) (as_agent_id s) (as_turn_id s)
          (as_created_at s)) <$> map_to_list (a_pending (approval_gate k))
   else [])
  ++ (if bool_decide (kind = None) || bool_decide (kind = Some "question") then
        (fun '(id, s) =>
           interaction_row id "question" (question_request_row id s) (qs_agent_id s) (qs_turn_id s)
             (qs_created_at s)) <$> map_to_list (q_pending (question_gate k))
      else []).

(** The decision an [approvalResponse] stands for *)
Definition respond_decision (decision : string) (response : json)
  : result InteractionRespondError ApprovalDecision :=
  if bool_decide (decision = "approved") then
    Ok (if bool_decide (str_field "scope" response = Some "session") then ApprovedForSession else GateApproved)
  else if bool_decide (decision = "rejected") then
    Ok (Denied (default "denied by user" (str_field "feedback" response)))
  else if bool_decide (decision = "cancelled") then Ok (Denied "cancelled by user")
  else Err (InvalidParams ("unknown approval decision: " +:+ decision)).

(** The grant of a positive answer to an ask about a directory, and the plain
    approval such an answer becomes *)
Definition respond_grant (decision : string) (response : json) (grant_dir : option Path)
    (approval : ApprovalDecision) (sink : bool) : ApprovalDecision * list (Path * bool) :=
  match grant_dir, str_field "scope" response with
  | Some dir, Some scope =>
    if bool_decide (decision = "approved")
       && (bool_decide (scope = "session") || bool_decide (scope = "persist")) then
      (GateApproved, if sink then [(dir, bool_decide (scope = "persist"))] else [])
    else (approval, [])
  | _, _ => (approval, [])
  end.

(** The serialisation of an answer that is neither null nor a string *)
Variable to_string : json -> string.

Definition respond (id : string) (response : json) (k : Kernel)
  : Kernel * result InteractionRespondError unit :=
  match parse_uuid id with
  | None => (k, Err (NotFound id))
  | Some request_id =>
    match a_pending (approval_gate k) !! request_id with
    | Some entry =>
      match str_field "decision" response with
      | None => (k, Err (InvalidParams "approval response requires a 'decision' string"))
      | Some decision =>
        match respond_decision decision response with
        | Err e => (k, Err e)
        | Ok approval =>
          let '(approval, grants) :=
            respond_grant decision response (as_grant_dir (pa_snapshot entry)) approval (k_grant_sink k) in
          let '(gate, resolved) := a_resolve request_id approval (approval_gate k) in
          (mkKernel gate (question_gate k) (k_grant_sink k) (k_grants k ++ grants),
           if resolved then Ok tt else Err (NotFound id))
        end
      end
    | None =>
      match q_pending (question_gate k) !! request_id with
      | Some _ =>
        let answer :=
          match response with JNull => "" | JStr text => text | other => to_string other end in
        let '(gate, answered) := q_answer request_id answer (question_gate k) in
        (mkKernel (approval_gate k) gate (k_grant_sink k) (k_grants k),
         if answered then Ok tt else Err (NotFound id))
      | None => (k, Err (NotFound id))
      end
    end
  end.

Definition is_recently_resolved (id : string) (k : Kernel) : bool :=
  match parse_uuid id with
  | Some request_id =>
    ring_contains request_id (a_resolved (approval_gate k))
    || ring_contains request_id (q_resolved (question_gate k))
  | None => false
  end.
End kernel.

(** ** Runs of a gate *)

(** The operations on an approval gate; a registration carries the id the
    [uuid] crate mints for it. *)
Inductive ApprovalOp : Type :=
| OpRegister (id : Uuid) (snapshot : ApprovalSnapshot) (resume_notify : bool)
| OpResolve (id : Uuid) (decision : ApprovalDecision)
| OpWithdraw (id : Uuid)
| OpGiveUp (id : Uuid)
| OpDrain
| OpReopen.

Definition a_step (op : ApprovalOp) (g : ApprovalGate) : ApprovalGate :=
  match op with
  | OpRegister id snapshot notify => a_register id snapshot notify g
  | OpResolve id decision => fst (a_resolve id decision g)
  | OpWithdraw id => fst (a_withdraw id g)
  | OpGiveUp id => a_give_up id g
  | OpDrain => a_drain g
  | OpReopen => a_reopen g
  end.

(** The gates that operations lead to: a minted id is a new one. *)
Inductive a_reachable (start : ApprovalGate) : ApprovalGate -> Prop :=
| a_start : a_reachable start start
| a_next g op :
    a_reachable start g ->
    (forall id snapshot notify, op = OpRegister id snapshot notify -> a_channels g !! id = None) ->
    a_reachable start (a_step op g).

Inductive QuestionOp : Type :=
| OpAsk (id : Uuid) (snapshot : QuestionSnapshot)
| OpAnswer (id : Uuid) (answer : string)
| OpDismiss (id : Uuid)
| OpWithdrawQuestion (id : Uuid)
| OpGiveUpQuestion (id : Uuid)
| OpDrainQuestions
| OpReopenQuestions.

Definition q_step (op : QuestionOp) (g : QuestionGate) : QuestionGate :=
  match op with
  | OpAsk id snapshot => q_register id snapshot g
  | OpAnswer id answer => fst (q_answer id answer g)
  | OpDismiss id => fst (q_dismiss id g)
  | OpWithdrawQuestion id => fst (q_withdraw id g)
  | OpGiveUpQuestion id => q_give_up id g
  | OpDrainQuestions => q_drain g
  | OpReopenQuestions => q_reopen g
  end.

Inductive q_reachable (start : QuestionGate) : QuestionGate -> Prop :=
| q_start : q_reachable start start
| q_next g op :
    q_reachable start g ->
    (forall id snapshot, op = OpAsk id snapshot -> q_channels g !! id = None) ->
    q_reachable start (q_step op g).

(** ** Who hears what *)

(** The resolutions of a request the bus carried *)
Definition resolutions (id : Uuid) (published : list SessionEvent) : list bool :=
  omap (fun event => match event with
                     | ToolApprovalResolved request_id approved =>
                       if bool_decide (request_id = id) then Some approved else None
                     | _ => None
                     end) published.

(** What the bus may have said of a request, by the end of its channel *)
Definition told (bus : bool) (channel : option (Channel ApprovalDecision)) (said : list bool) : Prop :=
  match channel with
  | Some (Delivered decision) => said = if bus then [is_approval decision] else []
  | Some GivenUp => said = [] \/ said = [false]
  | _ => said = []
  end.

(** A pending request has an open channel or a requester that gave up, a
    waiting requester has a pending request, and the bus said what the
    requester heard. *)
Definition approval_gate_ok (g : ApprovalGate) : Prop :=
  forall id,
    (is_Some (a_pending g !! id) ->
     (a_channels g !! id = Some Waiting \/ a_channels g !! id = Some GivenUp)
     /\ resolutions id (a_published g) = [])
    /\ (a_channels g !! id = Some Waiting -> is_Some (a_pending g !! id))
    /\ told (a_event_bus g) (a_channels g !! id) (resolutions id (a_published g)).

Lemma resolutions_app id l k : resolutions id (l ++ k) = resolutions id l ++ resolutions id k.
Proof. apply omap_app. Qed.

Lemma publish_resolutions id event g :
  resolutions id (a_published (a_publish event g)) =
  resolutions id (a_published g) ++ (if a_event_bus g then resolutions id [event] else []).
Proof.
  unfold a_publish. destruct (a_event_bus g) eqn:Eb; simpl; [by rewrite resolutions_app|].
  by rewrite app_nil_r.
Qed.

Lemma publish_same event g :
  a_pending (a_publish event g) = a_pending g /\ a_channels (a_publish event g) = a_channels g
  /\ a_event_bus (a_publish event g) = a_event_bus g /\ a_resolved (a_publish event g) = a_resolved g.
Proof. unfold a_publish. by destruct (a_event_bus g) eqn:E; rewrite ?E. Qed.

Lemma drain_one_facts id g i :
  a_pending (a_drain_one g i) = a_pending g /\ a_event_bus (a_drain_one g i) = a_event_bus g /\
  a_resolved (a_drain_one g i) = a_resolved g /\
  a_channels (a_drain_one g i) = <[i := fst (send Timeout (channel_of i (a_channels g)))]> (a_channels g) /\
  resolutions id (a_published (a_drain_one g i)) =
  resolutions id (a_published g) ++ (if a_event_bus g && bool_decide (i = id) then [false] else []).
Proof.
  unfold a_drain_one. rewrite publish_resolutions. simpl.
  destruct (publish_same (ToolApprovalResolved i false)
    (a_with (a_pending g) (<[i:=(send Timeout (channel_of i (a_channels g))).1]> (a_channels g)) g))
    as (-> & -> & -> & ->). split; [done|]. split; [done|]. split; [done|]. split; [done|].
  destruct (a_event_bus g); simpl; [|done]. by destruct (bool_decide (i = id)).
Qed.

Lemma drain_fold l g id :
  NoDup l ->
  let g' := foldl a_drain_one g l in
  a_pending g' = a_pending g /\ a_event_bus g' = a_event_bus g /\ a_resolved g' = a_resolved g /\
  a_channels g' !! id =
    (if bool_decide (id ∈ l) then Some (fst (send Timeout (channel_of id (a_channels g)))) else a_channels g !! id) /\
  resolutions id (a_published g') =
    resolutions id (a_published g) ++ (if a_event_bus g && bool_decide (id ∈ l) then [false] else []).
Proof.
  revert g. induction l as [|i l IH]; intros g Hl; cbn [foldl]; cbn zeta.
  - rewrite bool_decide_false by apply not_elem_of_nil. by rewrite andb_false_r, app_nil_r.
  - apply NoDup_cons in Hl as [Hi Hl]. destruct (IH (a_drain_one g i) Hl) as (-> & -> & -> & -> & ->).
    destruct (drain_one_facts id g i) as (-> & -> & -> & -> & ->).
    split; [done|]. split; [done|]. split; [done|].
    destruct (decide (id = i)) as [->|Hne].
    + rewrite (bool_decide_false (i ∈ l)), (bool_decide_true (i ∈ i :: l)), (bool_decide_true (i = i)) by (done || by left).
      rewrite lookup_insert_eq. split; [done|].
      by rewrite andb_false_r, app_nil_r.
    + rewrite (bool_decide_false (i = id)) by done. rewrite andb_false_r, app_nil_r.
      assert (bool_decide (id ∈ i :: l) = bool_decide (id ∈ l)) as ->.
      { apply bool_decide_ext. rewrite elem_of_cons. naive_solver. }
      unfold channel_of. by rewrite lookup_insert_ne.
Qed.

Lemma drained_spec g id :
  let g' := a_drain g in
  a_pending g' = ∅ /\ a_event_bus g' = a_event_bus g /\ a_resolved g' = a_resolved g /\
  a_channels g' !! id =
    (if bool_decide (is_Some (a_pending g !! id))
     then Some (fst (send Timeout (channel_of id (a_channels g)))) else a_channels g !! id) /\
  resolutions id (a_published g') =
    resolutions id (a_published g)
    ++ (if a_event_bus g && bool_decide (is_Some (a_pending g !! id)) then [false] else []).
Proof.
  unfold a_drain. destruct (drain_fold (map_to_list (a_pending g)).*1 (a_with ∅ (a_channels g) (a_set_closed true g)) id)
    as (H1 & H2 & H3 & H4 & H5); [apply NoDup_fst_map_to_list|].
  cbn zeta. rewrite H1, H2, H3, H4, H5. simpl.
  assert (bool_decide (id ∈ (map_to_list (a_pending g)).*1) = bool_decide (is_Some (a_pending g !! id))) as ->.
  { apply bool_decide_ext. rewrite list_elem_of_fmap. split.
    - intros ([i x] & -> & Hx%elem_of_map_to_list). simpl. eauto.
    - intros [x Hx]. exists (id, x). by rewrite elem_of_map_to_list. }
  done.
Qed.

Ltac at_id id i :=
  destruct (decide (id = i)) as [->|?Hne];
  [rewrite ?lookup_insert_eq, ?lookup_delete_eq
  |rewrite ?lookup_insert_ne, ?lookup_delete_ne by congruence].

Lemma ok_register g id snapshot notify :
  approval_gate_ok g -> a_channels g !! id = None -> approval_gate_ok (a_register id snapshot notify g).
Proof.
  intros Hok Hnew i. destruct (Hok i) as (H1 & H2 & H3). unfold a_register.
  rewrite publish_resolutions.
  destruct (publish_same (ToolApprovalRequested (as_agent_id snapshot) (as_tool_name snapshot) id)
    (a_with (<[id:=mkPendingApproval snapshot notify]> (a_pending g)) (<[id:=Waiting]> (a_channels g)) g))
    as (-> & -> & -> & _). simpl.
  assert ((if a_event_bus g then [] else []) = @nil bool) as -> by by destruct (a_event_bus g).
  rewrite app_nil_r. at_id i id; [|done].
  rewrite Hnew in *. simpl in H3. rewrite H3. split; [|split]; simpl; [|eauto|done].
  intros _. split; [by left|done].
Qed.

Lemma ok_resolve g id decision : approval_gate_ok g -> approval_gate_ok (fst (a_resolve id decision g)).
Proof.
  intros Hok i. destruct (Hok i) as (H1 & H2 & H3). unfold a_resolve.
  destruct (a_pending g !! id) as [entry|] eqn:Ep; [|by apply Hok].
  destruct (send decision (channel_of id (a_channels g))) as [channel sent] eqn:Es.
  set (g' := mkApprovalGate _ _ _ _ _ _ _ _).
  assert (Hs : a_pending (fst (if sent then a_publish (ToolApprovalResolved id (is_approval decision)) g' else g', true))
               = delete id (a_pending g) /\
               a_channels (fst (if sent then a_publish (ToolApprovalResolved id (is_approval decision)) g' else g', true))
               = <[id := channel]> (a_channels g) /\
               a_event_bus (fst (if sent then a_publish (ToolApprovalResolved id (is_approval decision)) g' else g', true))
               = a_event_bus g /\
               resolutions i (a_published (fst (if sent then a_publish (ToolApprovalResolved id (is_approval decision)) g' else g', true)))
               = resolutions i (a_published g)
                 ++ (if sent && a_event_bus g && bool_decide (id = i) then [is_approval decision] else [])).
  { destruct sent; simpl; [|by rewrite app_nil_r].
    rewrite publish_resolutions.
    destruct (publish_same (ToolApprovalResolved id (is_approval decision)) g') as (-> & -> & -> & _).
    repeat split. f_equal. simpl. destruct (a_event_bus g); [|done]. simpl.
    by destruct (bool_decide (id = i)). }
  destruct Hs as (-> & -> & -> & ->). at_id i id.
  - destruct H1 as [Hc Hr]; [eauto|]. rewrite Hr. rewrite bool_decide_true by done. rewrite andb_true_r.
    unfold channel_of in Es. destruct Hc as [Hc|Hc]; rewrite Hc in Es; simpl in Es; injection Es as <- <-; simpl.
    + split; [intros [? ?]; done|]. by destruct (a_event_bus g).
    + split; [intros [? ?]; done|]. split; [done|]. by left.
  - rewrite (bool_decide_false (id = i)) by congruence. by rewrite andb_false_r, app_nil_r.
Qed.

Lemma ok_withdraw g id : approval_gate_ok g -> approval_gate_ok (fst (a_withdraw id g)).
Proof.
  intros Hok i. destruct (Hok i) as (H1 & H2 & H3). unfold a_withdraw.
  destruct (a_pending g !! id) as [entry|] eqn:Ep; [|by apply Hok]. simpl. at_id i id; [|done].
  destruct H1 as [Hc Hr]; [eauto|]. unfold channel_of. destruct Hc as [Hc|Hc]; rewrite Hc; simpl.
  - split; [intros [? ?]; done|]. done.
  - split; [intros [? ?]; done|]. split; [done|]. by left.
Qed.

Lemma ok_give_up g id : approval_gate_ok g -> approval_gate_ok (a_give_up id g).
Proof.
  intros Hok i. destruct (Hok i) as (H1 & H2 & H3). unfold a_give_up.
  destruct (a_channels g !! id) as [channel|] eqn:Ec; [|by apply Hok]. simpl. at_id i id; [|done].
  rewrite Ec in *. destruct channel; simpl in *; try done.
  destruct (H2 eq_refl) as [entry He]. destruct H1 as [_ Hr]; [eauto|]. rewrite Hr.
    split; [|split]; [|done|by left]. intros _. split; [by right|done].
Qed.

Lemma ok_drain g : approval_gate_ok g -> approval_gate_ok (a_drain g).
Proof.
  intros Hok i. destruct (Hok i) as (H1 & H2 & H3).
  destruct (drained_spec g i) as (-> & -> & _ & -> & ->). rewrite lookup_empty.
  destruct (a_pending g !! i) as [entry|] eqn:Ep.
  - rewrite bool_decide_true by eauto. destruct H1 as [Hc Hr]; [eauto|]. rewrite Hr, andb_true_r.
    unfold channel_of. destruct Hc as [Hc|Hc]; rewrite Hc; simpl.
    + split; [intros [? ?]; done|]. done.
    + split; [intros [? ?]; done|]. split; [done|]. destruct (a_event_bus g); naive_solver.
  - rewrite bool_decide_false by (intros [? ?]; done). rewrite andb_false_r, app_nil_r. done.
Qed.

Lemma approval_step_ok g op :
  approval_gate_ok g ->
  (forall id snapshot notify, op = OpRegister id snapshot notify -> a_channels g !! id = None) ->
  approval_gate_ok (a_step op g).
Proof.
  intros Hok Hnew. destruct op; simpl.
  - apply ok_register; [done|]. by eapply Hnew.
  - by apply ok_resolve.
  - by apply ok_withdraw.
  - by apply ok_give_up.
  - by apply ok_drain.
  - exact Hok.
Qed.

Lemma approval_reachable_ok auto_approve bus g :
  a_reachable (new_approval_gate auto_approve bus) g -> approval_gate_ok g.
Proof.
  induction 1 as [|g op _ IH Hnew]; [|by apply approval_step_ok].
  intros id. simpl. rewrite !lookup_empty. split; [|split]; [intros [? ?]; done|done|done].
Qed.

(** C29. Nobody waits on a request the gate no longer holds, and the bus tells of
    a request exactly what its requester heard, once: along any operations a
    requester waits only while its request is pending, a decision that was
    delivered was published once with its sense, and nothing is published of
    a request that is open or was withdrawn. *)
Theorem approvals_heard auto_approve bus g id :
  a_reachable (new_approval_gate auto_approve bus) g ->
  (a_channels g !! id = Some Waiting <->
   is_Some (a_pending g !! id) /\ a_channels g !! id <> Some GivenUp) /\
  told (a_event_bus g) (a_channels g !! id) (resolutions id (a_published g)).
Proof.
  intros Hr. destruct (approval_reachable_ok _ _ _ Hr id) as (H1 & H2 & H3). split; [|done].
  split; [intros Hc; split; [by apply H2|by rewrite Hc]|].
  intros [Hp Hn]. by destruct (H1 Hp) as [[?|?] _].
Qed.

(** A request is decided once: what its channel ended with stays, whatever is
    done to the gate afterwards. *)
Lemma approval_final g op id channel :
  a_channels g !! id = Some channel -> channel <> Waiting ->
  (forall i snapshot notify, op = OpRegister i snapshot notify -> a_channels g !! i = None) ->
  approval_gate_ok g -> a_channels (a_step op g) !! id = Some channel.
Proof.
  intros Hc Hn Hnew Hok. assert (Hsend : forall d, fst (send d (channel_of id (a_channels g))) = channel).
  { intros d. unfold channel_of. rewrite Hc. by destruct channel. }
  destruct op as [i snapshot notify|i decision|i|i| |]; simpl.
  - unfold a_register. destruct (publish_same (ToolApprovalRequested (as_agent_id snapshot) (as_tool_name snapshot) i)
      (a_with (<[i:=mkPendingApproval snapshot notify]> (a_pending g)) (<[i:=Waiting]> (a_channels g)) g))
      as (_ & -> & _). simpl. specialize (Hnew i snapshot notify eq_refl).
    rewrite lookup_insert_ne by congruence. done.
  - unfold a_resolve. destruct (a_pending g !! i); [|done]. pose proof (Hsend decision) as Hs.
    destruct (send decision (channel_of i (a_channels g))) as [c sent] eqn:Es.
    assert (Hi : <[i := c]> (a_channels g) !! id = Some channel).
    { at_id id i; [|done]. by rewrite Es in Hs; simpl in Hs; subst. }
    destruct sent; simpl; [|done].
    by match goal with |- a_channels (a_publish ?e ?g') !! _ = _ =>
      destruct (publish_same e g') as (_ & -> & _) end.
  - unfold a_withdraw. destruct (a_pending g !! i); [|done]. simpl. at_id id i; [|done].
    unfold channel_of. rewrite Hc. by destruct channel.
  - unfold a_give_up. destruct (a_channels g !! i) as [c|] eqn:Ei; [|done]. simpl. at_id id i; [|done].
    rewrite Hc in Ei. injection Ei as <-. by destruct channel.
  - destruct (drained_spec g id) as (_ & _ & _ & -> & _).
    destruct (bool_decide _); [|done]. by rewrite Hsend.
  - done.
Qed.

(** Closing a session leaves no requester hanging: after a drain nothing is
    pending and whoever waited has heard the timeout. *)
Theorem drain_releases auto_approve bus g id :
  a_reachable (new_approval_gate auto_approve bus) g ->
  a_pending (a_drain g) !! id = None /\ a_channels (a_drain g) !! id <> Some Waiting /\
  (a_channels g !! id = Some Waiting -> a_channels (a_drain g) !! id = Some (Delivered Timeout)) /\
  (forall channel, a_channels g !! id = Some channel -> channel <> Waiting ->
   a_channels (a_drain g) !! id = Some channel).
Proof.
  intros Hr. pose proof (approval_reachable_ok _ _ _ Hr) as Hok. destruct (Hok id) as (H1 & H2 & H3).
  assert (Hp : a_pending (a_drain g) !! id = None).
  { destruct (drained_spec g id) as (-> & _). apply lookup_empty. }
  split; [done|]. split; [|split].
  - intros Hw. destruct (ok_drain g Hok id) as (_ & Hd & _). destruct (Hd Hw) as [? ?]. congruence.
  - intros Hw. destruct (drained_spec g id) as (_ & _ & _ & -> & _). rewrite bool_decide_true by by apply H2.
    unfold channel_of. by rewrite Hw.
  - intros channel Hc Hn. by apply (approval_final g OpDrain).
Qed.

(** ** The question gate *)

(** How the bus told of the end of a question: the answer, or a dismissal *)
Definition endings (id : Uuid) (published : list SessionEvent) : list (option string) :=
  omap (fun event => match event with
                     | QuestionAnswered request_id answer =>
                       if bool_decide (request_id = id) then Some (Some answer) else None
                     | QuestionDismissed request_id =>
                       if bool_decide (request_id = id) then Some None else None
                     | _ => None
                     end) published.

(** At most one ending is told, and an answer that was heard is. *)
Definition told_question (bus : bool) (channel : option (Channel string)) (said : list (option string)) : Prop :=
  match channel with
  | Some (Delivered answer) => said = if bus then [Some answer] else []
  | Some Cut => said = [] \/ said = [None]
  | Some GivenUp => (length said <= 1)%nat
  | _ => said = []
  end.

Definition question_gate_ok (g : QuestionGate) : Prop :=
  forall id,
    (is_Some (q_pending g !! id) ->
     (q_channels g !! id = Some Waiting \/ q_channels g !! id = Some GivenUp)
     /\ endings id (q_published g) = [])
    /\ (q_channels g !! id = Some Waiting -> is_Some (q_pending g !! id))
    /\ told_question (q_event_bus g) (q_channels g !! id) (endings id (q_published g)).

Lemma q_publish_facts id event g :
  q_pending (q_publish event g) = q_pending g /\ q_channels (q_publish event g) = q_channels g /\
  q_event_bus (q_publish event g) = q_event_bus g /\ q_resolved (q_publish event g) = q_resolved g /\
  endings id (q_published (q_publish event g)) =
  endings id (q_published g) ++ (if q_event_bus g then endings id [event] else []).
Proof.
  unfold q_publish. destruct (q_event_bus g) eqn:E; simpl; rewrite ?E, ?app_nil_r; [|done].
  repeat split. unfold endings. by rewrite omap_app.
Qed.

Ltac q_published id :=
  match goal with |- context [q_publish ?e ?g'] =>
    let H1 := fresh in let H2 := fresh in let H3 := fresh in let H4 := fresh in
    destruct (q_publish_facts id e g') as (H1 & H2 & H3 & _ & H4);
    rewrite ?H1, ?H2, ?H3, ?H4; clear H1 H2 H3 H4 end.

Lemma ok_ask g id snapshot :
  question_gate_ok g -> q_channels g !! id = None -> question_gate_ok (q_register id snapshot g).
Proof.
  intros Hok Hnew i. destruct (Hok i) as (H1 & H2 & H3). unfold q_register. q_published i. simpl.
  assert ((if q_event_bus g then [] else []) = @nil (option string)) as -> by by destruct (q_event_bus g).
  rewrite app_nil_r. at_id i id; [|done]. rewrite Hnew in *. simpl in H3. rewrite H3.
  split; [|split]; simpl; [|eauto|done]. intros _. split; [by left|done].
Qed.

(** A question that ends: it leaves the pending map, its channel is [channel]
    and the bus tells [said]. *)
Lemma ok_end g g' id channel said :
  question_gate_ok g -> is_Some (q_pending g !! id) ->
  q_pending g' = delete id (q_pending g) -> q_channels g' = <[id := channel]> (q_channels g) ->
  q_event_bus g' = q_event_bus g ->
  (forall i, endings i (q_published g') = endings i (q_published g) ++ (if bool_decide (id = i) then said else [])) ->
  (forall c, c = Waiting \/ c = GivenUp -> q_channels g !! id = Some c ->
   told_question (q_event_bus g) (Some channel) said /\ channel <> Waiting) ->
  question_gate_ok g'.
Proof.
  intros Hok Hp Hpe Hch Hbus Hsaid Htold i. destruct (Hok i) as (H1 & H2 & H3).
  rewrite Hpe, Hch, Hbus, Hsaid. at_id i id.
  - rewrite bool_decide_true by done. destruct (H1 Hp) as [Hc ->]. simpl.
    assert (told_question (q_event_bus g) (Some channel) said /\ channel <> Waiting) as [Ht Hw]
      by (destruct Hc as [Hc|Hc]; (eapply Htold; [|exact Hc]); eauto).
    split; [intros [? ?]; done|]. split; [intros [= ->]; done|done].
  - rewrite bool_decide_false by congruence. by rewrite app_nil_r.
Qed.

Lemma ok_answer g id answer : question_gate_ok g -> question_gate_ok (fst (q_answer id answer g)).
Proof.
  intros Hok. unfold q_answer. destruct (q_pending g !! id) as [s|] eqn:Ep; [|done]. simpl.
  set (channel := fst (send _ _)).
  apply (ok_end g _ id channel (if q_event_bus g then [Some answer] else [])); [done|eauto|..].
  1-3: q_published id; done.
  - intros i. q_published i. simpl. f_equal. destruct (q_event_bus g); simpl; [|by destruct (bool_decide _)].
    by destruct (bool_decide (id = i)).
  - unfold channel, channel_of. intros c [-> | ->] ->; simpl; [done|]. split; [|done].
    destruct (q_event_bus g); simpl; lia.
Qed.

Lemma ok_dismiss g id : question_gate_ok g -> question_gate_ok (fst (q_dismiss id g)).
Proof.
  intros Hok. unfold q_dismiss. destruct (q_pending g !! id) as [s|] eqn:Ep; [|done]. simpl.
  set (channel := drop_sender _).
  apply (ok_end g _ id channel (if q_event_bus g then [None] else [])); [done|eauto|..].
  1-3: q_published id; done.
  - intros i. q_published i. simpl. f_equal. destruct (q_event_bus g); simpl; [|by destruct (bool_decide _)].
    by destruct (bool_decide (id = i)).
  - unfold channel, channel_of. intros c [-> | ->] ->; simpl.
    + split; [|done]. destruct (q_event_bus g); eauto.
    + split; [|done]. destruct (q_event_bus g); simpl; lia.
Qed.

Lemma ok_withdraw_question g id : question_gate_ok g -> question_gate_ok (fst (q_withdraw id g)).
Proof.
  intros Hok. unfold q_withdraw. destruct (q_pending g !! id) as [s|] eqn:Ep; [|done]. simpl.
  apply (ok_end g _ id (drop_sender (channel_of id (q_channels g))) []); [done|eauto|done..| |].
  - intros i. by destruct (bool_decide _); rewrite app_nil_r.
  - unfold channel_of. intros c [-> | ->] ->; simpl; (split; [|done]); [by left|lia].
Qed.

Lemma ok_give_up_question g id : question_gate_ok g -> question_gate_ok (q_give_up id g).
Proof.
  intros Hok i. destruct (Hok i) as (H1 & H2 & H3). unfold q_give_up.
  destruct (q_channels g !! id) as [channel|] eqn:Ec; [|by apply Hok]. simpl. at_id i id; [|done].
  rewrite Ec in *. destruct channel; simpl in *; try done.
  destruct (H2 eq_refl) as [entry He]. destruct H1 as [_ Hr]; [eauto|]. rewrite Hr.
  split; [|split]; [|done|simpl; lia]. intros _. split; [by right|done].
Qed.

Lemma ok_drain_questions g : question_gate_ok g -> question_gate_ok (q_drain g).
Proof.
  intros Hok i. destruct (Hok i) as (H1 & H2 & H3). unfold q_drain. simpl.
  rewrite map_lookup_imap, lookup_empty. split; [intros [? ?]; done|].
  destruct (q_pending g !! i) as [s|] eqn:Ep.
  - destruct H1 as [Hc Hr]; [eauto|]. rewrite Hr in *.
    destruct Hc as [Hc|Hc]; rewrite Hc; simpl;
      (split; [done|]); [by left|simpl; lia].
  - destruct (q_channels g !! i) as [c|] eqn:Ec; [|done]. simpl.
    split; [|done]. intros [= ->]. by destruct (H2 eq_refl).
Qed.

Lemma question_reachable_ok bus g : q_reachable (new_question_gate bus) g -> question_gate_ok g.
Proof.
  induction 1 as [|g op _ IH Hnew].
  - intros id. simpl. rewrite !lookup_empty. split; [|split]; [intros [? ?]; done|done|done].
  - destruct op; simpl; auto using ok_answer, ok_dismiss, ok_withdraw_question, ok_give_up_question, ok_drain_questions.
    apply ok_ask; [done|]. by eapply Hnew.
Qed.

(** Along any operations on the question gate an asker waits only while its
    question is pending, at most one ending of a question is told, an answer
    is told when it was heard, and a question that was only withdrawn or
    drained ends without a word or as dismissed. *)
Theorem questions_heard bus g id :
  q_reachable (new_question_gate bus) g ->
  (q_channels g !! id = Some Waiting <->
   is_Some (q_pending g !! id) /\ q_channels g !! id <> Some GivenUp) /\
  told_question (q_event_bus g) (q_channels g !! id) (endings id (q_published g)).
Proof.
  intros Hr. destruct (question_reachable_ok _ _ Hr id) as (H1 & H2 & H3). split; [|done].
  split; [intros Hc; split; [by apply H2|by rewrite Hc]|].
  intros [Hp Hn]. by destruct (H1 Hp) as [[?|?] _].
Qed.

(** ** The window of resolved ids *)

Lemma push_ring_window {A} (l : list A) :
  foldl (fun ring x => push_ring x ring) [] l = drop (length l - RING_CAPACITY) l.
Proof.
  induction l as [|x l IH] using rev_ind; [done|]. rewrite foldl_app, IH. cbn [foldl].
  unfold push_ring. rewrite length_drop, length_app. cbn [length].
  assert (0 < RING_CAPACITY)%nat by (unfold RING_CAPACITY; lia).
  destruct (Nat.leb_spec RING_CAPACITY (length l - (length l - RING_CAPACITY))) as [Hf|Hf].
  - rewrite drop_drop. replace (length l - RING_CAPACITY + 1)%nat with (length l + 1 - RING_CAPACITY)%nat by lia.
    rewrite drop_app_le by lia. done.
  - replace (length l - RING_CAPACITY)%nat with 0%nat by lia.
    by replace (length l + 1 - RING_CAPACITY)%nat with 0%nat by lia.
Qed.

Lemma push_ring_newest {A} (x : A) l : x ∈ push_ring x l.
Proof. unfold push_ring. set_solver. Qed.

(** The texts of the questions that operations dismiss, in order *)
Definition dismissals (ops : list QuestionOp) (g : QuestionGate) : list string :=
  (fix go ops g :=
     match ops with
     | [] => []
     | op :: ops =>
       match op with
       | OpDismiss id => match q_pending g !! id with
                         | Some s => question_texts (qs_questions s)
                         | None => []
                         end
       | _ => []
       end ++ go ops (q_step op g)
     end) ops g.

Lemma dismissals_cons op ops g :
  dismissals (op :: ops) g = dismissals [op] g ++ dismissals ops (q_step op g).
Proof. unfold dismissals. by rewrite app_nil_r. Qed.

Lemma dismiss_ring texts ring :
  dismissed_texts (foldl (fun ring text => record_dismissed_text text ring) ring texts)
  = foldl (fun l text => push_ring text l) (dismissed_texts ring) texts.
Proof. revert ring. induction texts as [|t texts IH]; intros ring; simpl; [done|]. by rewrite IH. Qed.

Lemma step_dismissed g op :
  dismissed_texts (q_resolved (q_step op g)) =
  foldl (fun l text => push_ring text l) (dismissed_texts (q_resolved g)) (dismissals [op] g).
Proof.
  unfold dismissals. rewrite app_nil_r.
  destruct op as [id s|id a|id|id|id| |]; simpl; try done.
  - unfold q_register. by match goal with |- context [q_publish ?e ?g'] =>
      destruct (q_publish_facts 1%positive e g') as (_ & _ & _ & -> & _) end.
  - unfold q_answer. destruct (q_pending g !! id); [|done]. simpl.
    by match goal with |- context [q_publish ?e ?g'] =>
      destruct (q_publish_facts 1%positive e g') as (_ & _ & _ & -> & _) end.
  - unfold q_dismiss. destruct (q_pending g !! id) as [s|]; [|done]. simpl.
    match goal with |- context [q_publish ?e ?g'] =>
      destruct (q_publish_facts 1%positive e g') as (_ & _ & _ & -> & _) end.
    simpl. by rewrite dismiss_ring.
  - unfold q_withdraw. by destruct (q_pending g !! id).
  - unfold q_give_up. by destruct (q_channels g !! id).
Qed.

(** The guard of [AskUserQuestion]: a text is taken for a dismissed one exactly
    when it is among the last 256 texts of dismissed questions; an answer, a
    withdrawal or a drain adds none. *)
Theorem dismissed_window bus ops text :
  let g := foldl (fun g op => q_step op g) (new_question_gate bus) ops in
  let texts := dismissals ops (new_question_gate bus) in
  was_recently_dismissed text g = true <-> text ∈ drop (length texts - RING_CAPACITY) texts.
Proof.
  assert (Hgo : forall ops g, dismissed_texts (q_resolved (foldl (fun g op => q_step op g) g ops)) =
     foldl (fun l t => push_ring t l) (dismissed_texts (q_resolved g)) (dismissals ops g)).
  { clear. induction ops as [|op ops IH]; intros g; [done|]. cbn [foldl]. rewrite IH, step_dismissed.
    rewrite (dismissals_cons op ops), foldl_app. done. }
  cbn zeta. unfold was_recently_dismissed, contains_dismissed_text. rewrite bool_decide_eq_true, Hgo.
  simpl. by rewrite push_ring_window.
Qed.

(** ** Routing a response *)

Section routing.
Context `{UuidText}.
Variable to_string : json -> string.

Definition yes_word (response : json) : bool :=
  bool_decide (str_field "decision" response = Some "approved").

(** What a granting response adds to the session's directories *)
Definition granted (response : json) (grant_dir : option Path) (sink : bool) : list (Path * bool) :=
  match grant_dir with
  | Some dir =>
    if yes_word response && sink then
      if bool_decide (str_field "scope" response = Some "session") then [(dir, false)]
      else if bool_decide (str_field "scope" response = Some "persist") then [(dir, true)]
      else []
    else []
  | None => []
  end.

Definition answer_text (response : json) : string :=
  match response with JNull => "" | JStr text => text | other => to_string other end.

Lemma respond_facts decision response approval entry_dir sink d grants :
  str_field "decision" response = Some decision ->
  respond_decision decision response = Ok approval ->
  respond_grant decision response entry_dir approval sink = (d, grants) ->
  is_approval d = yes_word response /\ (d = ApprovedForSession -> entry_dir = None) /\
  grants = granted response entry_dir sink.
Proof.
  unfold yes_word, granted. intros Ed. unfold yes_word. rewrite Ed. unfold respond_decision, respond_grant.
  destruct (decide (decision = "approved")) as [->|Hd].
  - rewrite !(bool_decide_true ("approved" = "approved")), (bool_decide_true (Some "approved" = _)) by done.
    intros [= <-]. destruct entry_dir as [dir|]; [|intros [= <- <-]; by case_bool_decide].
    destruct (str_field "scope" response) as [scope|]; [|intros [= <- <-]; by destruct sink].
    destruct (decide (scope = "session")) as [->|Hs]; [|destruct (decide (scope = "persist")) as [->|Hp]].
    + intros [= <- <-]. by destruct sink.
    + intros [= <- <-]. by destruct sink.
    + rewrite (bool_decide_false (scope = "session")), (bool_decide_false (scope = "persist")) by done.
      rewrite !bool_decide_false by naive_solver. intros [= <- <-]. by destruct sink.
  - rewrite !(bool_decide_false (decision = "approved")) by done.
    rewrite (bool_decide_false (Some decision = Some "approved")) by naive_solver.
    intros Ha Hg.
    assert (is_approval approval = false /\ approval <> ApprovedForSession) as [Hn Hf].
    { destruct (bool_decide (decision = "rejected")); [by injection Ha as <-|].
      destruct (bool_decide (decision = "cancelled")); [by injection Ha as <-|done]. }
    assert (d = approval /\ grants = []) as [-> ->].
    { by destruct entry_dir as [dir|], (str_field "scope" response); simplify_eq/=. }
    split; [done|]. split; [done|]. by destruct entry_dir.
Qed.

(** A response reaches at most one request, once: an error changes nothing; a
    success takes the addressed request out of its gate, remembers it as
    resolved and delivers it the decision or the answer.  Granting a
    directory happens exactly on a session or persist scope, and such an
    approval is never memorized for the session as well. *)
Theorem respond_outcome id response k k' r :
  respond to_string id response k = (k', r) ->
  match r with
  | Err _ => k' = k
  | Ok _ =>
    exists rid, parse_uuid id = Some rid /\ is_recently_resolved id k' = true /\
    ((exists entry d,
        a_pending (approval_gate k) !! rid = Some entry /\
        a_pending (approval_gate k') !! rid = None /\ question_gate k' = question_gate k /\
        (a_channels (approval_gate k) !! rid = Some Waiting ->
         a_channels (approval_gate k') !! rid = Some (Delivered d)) /\
        is_approval d = yes_word response /\
        (d = ApprovedForSession -> as_grant_dir (pa_snapshot entry) = None) /\
        k_grants k' = k_grants k ++ granted response (as_grant_dir (pa_snapshot entry)) (k_grant_sink k)) \/
     (exists s,
        a_pending (approval_gate k) !! rid = None /\ q_pending (question_gate k) !! rid = Some s /\
        q_pending (question_gate k') !! rid = None /\ approval_gate k' = approval_gate k /\
        (q_channels (question_gate k) !! rid = Some Waiting ->
         q_channels (question_gate k') !! rid = Some (Delivered (answer_text response))) /\
        k_grants k' = k_grants k))
  end.
Proof.
  unfold respond. destruct (parse_uuid id) as [rid|] eqn:Eid; [|by intros [= <- <-]].
  destruct (a_pending (approval_gate k) !! rid) as [entry|] eqn:Ea.
  - destruct (str_field "decision" response) as [decision|] eqn:Ed; [|by intros [= <- <-]].
    destruct (respond_decision decision response) as [approval|e] eqn:Er; [|by intros [= <- <-]].
    destruct (respond_grant _ _ _ _ _) as [d grants] eqn:Eg.
    unfold a_resolve. rewrite Ea.
    destruct (send d (channel_of rid (a_channels (approval_gate k)))) as [channel sent] eqn:Es.
    set (g' := mkApprovalGate _ _ _ _ _ _ _ _).
    assert (Hg : let g'' := if sent then a_publish (ToolApprovalResolved rid (is_approval d)) g' else g' in
                 a_pending g'' = delete rid (a_pending (approval_gate k)) /\
                 a_channels g'' = <[rid := channel]> (a_channels (approval_gate k)) /\
                 a_resolved g'' = ring_record rid (a_resolved (approval_gate k))).
    { destruct sent; [|done].
      by destruct (publish_same (ToolApprovalResolved rid (is_approval d)) g') as (Hp & Hc & _ & Hr). }
    intros [= <- <-]. destruct Hg as (Hp & Hch & Hrs).
    exists rid. split; [done|]. split.
    { unfold is_recently_resolved. rewrite Eid. simpl. rewrite Hrs. unfold ring_contains.
      rewrite bool_decide_true by apply push_ring_newest. done. }
    left. exists entry, d. split; [done|]. simpl. rewrite Hp, Hch, lookup_delete_eq, lookup_insert_eq.
    split; [done|]. split; [done|]. split.
    { intros Hw. unfold channel_of in Es. rewrite Hw in Es. simpl in Es. by injection Es as <- _. }
    destruct (respond_facts _ _ _ _ _ _ _ Ed Er Eg) as (H1 & H2 & ->). done.
  - destruct (q_pending (question_gate k) !! rid) as [s|] eqn:Eq; [|by intros [= <- <-]].
    fold (answer_text response). unfold q_answer. rewrite Eq. intros [= <- <-].
    exists rid. split; [done|]. split.
    { unfold is_recently_resolved. rewrite Eid. simpl.
      match goal with |- context [q_publish ?e ?g'] =>
        destruct (q_publish_facts rid e g') as (_ & _ & _ & -> & _) end.
      simpl. unfold ring_contains.
      rewrite (bool_decide_true (rid ∈ ids (ring_record rid _))) by apply push_ring_newest.
      apply orb_true_r. }
    right. exists s. split; [done|]. split; [done|]. simpl. q_published rid. simpl.
    rewrite lookup_delete_eq, lookup_insert_eq. split; [done|]. split; [done|]. split; [|done].
    intros Hw. unfold channel_of. by rewrite Hw.
Qed.
End routing.

(** ** Concrete runs *)

Definition sample_ask : ApprovalSnapshot :=
  mkApprovalSnapshot "Bash" "execute Bash" (JObj []) nil_uuid None None 0 (Some "Bash") None.
Definition asked_gate : ApprovalGate := a_step (OpRegister 7%positive sample_ask false) (new_approval_gate false true).
Definition sample_question : QuestionSnapshot :=
  mkQuestionSnapshot (JArr [JObj [("question", JStr "continue?")]]) nil_uuid None None 0.
Definition asked_question : QuestionGate := q_step (OpAsk 9%positive sample_question) (new_question_gate true).

Lemma asked_gate_reachable : a_reachable (new_approval_gate false true) asked_gate.
Proof. apply a_next; [apply a_start|]. intros ? ? ? [= <- <- <-]. reflexivity. Defined.

Lemma approvals_heard_witness :
  (a_channels asked_gate !! 7%positive = Some Waiting <->
   is_Some (a_pending asked_gate !! 7%positive) /\ a_channels asked_gate !! 7%positive <> Some GivenUp) /\
  told true (a_channels asked_gate !! 7%positive) (resolutions 7%positive (a_published asked_gate)).
Proof. apply (approvals_heard false true asked_gate 7%positive), asked_gate_reachable. Defined.

Lemma drain_releases_witness :
  a_pending (a_drain asked_gate) !! 7%positive = None /\
  a_channels (a_drain asked_gate) !! 7%positive <> Some Waiting /\
  (a_channels asked_gate !! 7%positive = Some Waiting ->
   a_channels (a_drain asked_gate) !! 7%positive = Some (Delivered Timeout)) /\
  (forall channel, a_channels asked_gate !! 7%positive = Some channel -> channel <> Waiting ->
   a_channels (a_drain asked_gate) !! 7%positive = Some channel).
Proof. apply (drain_releases false true asked_gate 7%positive), asked_gate_reachable. Defined.

Lemma questions_heard_witness :
  (q_channels asked_question !! 9%positive = Some Waiting <->
   is_Some (q_pending asked_question !! 9%positive) /\ q_channels asked_question !! 9%positive <> Some GivenUp) /\
  told_question true (q_channels asked_question !! 9%positive) (endings 9%positive (q_published asked_question)).
Proof.
  apply (questions_heard true asked_question 9%positive).
  apply q_next; [apply q_start|]. intros ? ? [= <- <-]. reflexivity.
Defined.

Definition sample_uuids : UuidText := {|
  uuid_text := pretty;
  parse_uuid := fun text => if bool_decide (text = "7") then Some 7%positive else None
|}.
Definition sample_kernel : Kernel := mkKernel asked_gate asked_question true [].
Definition yes_for_session : json := JObj [("decision", JStr "approved"); ("scope", JStr "session")].

Lemma respond_outcome_witness :
  let k' := fst (@respond sample_uuids (fun _ => "") "7" yes_for_session sample_kernel) in
  snd (@respond sample_uuids (fun _ => "") "7" yes_for_session sample_kernel) = Ok tt /\
  exists rid, @parse_uuid sample_uuids "7" = Some rid /\ @is_recently_resolved sample_uuids "7" k' = true.
Proof.
  pose proof (@respond_outcome sample_uuids (fun _ => "") "7" yes_for_session sample_kernel _ (Ok tt)
                ltac:(vm_compute; reflexivity)) as (rid & Hr & Hc & _).
  split; [vm_compute; reflexivity|]. exists rid. split; [exact Hr|exact Hc].
Defined.
