(* ===== verification/Context.v ===== *)
(** * Messages and the stored history: [mirri-core/src/message.rs], [context.rs], [origin.rs]
      and [media_placeholder.rs]

    The data the projection works on, its options and the anomalies it
    reports, and the texts that stand for a media part that was left out. *)
From stdpp Require Import gmap list strings.
From S2P Require Import Prelude RustStd.
#[local] Open Scope string_scope.
#[local] Open Scope list_scope.

Inductive Role : Type := System | UserRole | Assistant | Tool.
#[export] Instance Role_eq_dec : EqDecision Role. Proof. solve_decision. Defined.

Record ImageUrlData : Type := mkImageUrl {
  url : string;
  image_detail : option string;
  image_id : option string
}.
#[export] Instance ImageUrlData_eq_dec : EqDecision ImageUrlData. Proof. solve_decision. Defined.

(** [ContentPart]; a file's size is a number. *)
Inductive ContentPart : Type :=
| Text (text : string)
| Think (text : string)
| ImageUrl (image_url : ImageUrlData) (detail : option string)
| AudioUrl (audio_url : string)
| VideoUrl (video_url : string)
| FilePart (file_id data name media_type : option string) (size : option Z).
#[export] Instance ContentPart_eq_dec : EqDecision ContentPart. Proof. solve_decision. Defined.

(** [ToolCall] with its [ToolCallFunction] *)
Record ToolCall : Type := mkToolCall {
  tc_id : string;
  call_type : string;
  fn_name : string;
  fn_arguments : string
}.
#[export] Instance ToolCall_eq_dec : EqDecision ToolCall. Proof. solve_decision. Defined.

Record Message : Type := mkMessage {
  role : Role;
  name : option string;
  content : list ContentPart;
  tool_calls : list ToolCall;
  tool_call_id : option string;
  partial : bool
}.
#[export] Instance Message_eq_dec : EqDecision Message. Proof. solve_decision. Defined.

Definition set_content (c : list ContentPart) (m : Message) : Message :=
  mkMessage (role m) (name m) c (tool_calls m) (tool_call_id m) (partial m).
Definition set_tool_calls (calls : list ToolCall) (m : Message) : Message :=
  mkMessage (role m) (name m) (content m) calls (tool_call_id m) (partial m).

(** [PromptOrigin] *)
Inductive PromptOrigin : Type :=
| User
| SkillActivation (activation_id skill_name trigger skill_args skill_path skill_source : option string)
| PluginCommand
| Injection
| ShellCommand
| CompactionSummary
| SystemTrigger
| BackgroundTask (task_id status notification_id : string)
| CronJob
| CronMissed
| HookResult
| HookAdditionalContext
| Retry
| ModelSwitched (from to : string)
| FileReference
| UserSteer.
#[export] Instance PromptOrigin_eq_dec : EqDecision PromptOrigin. Proof. solve_decision. Defined.

(** [ContextMessage], without the attachments no projection reads *)
Record ContextMessage : Type := mkContextMessage {
  message : Message;
  origin : option PromptOrigin;
  is_error : bool;
  note : option string
}.

Definition set_message (m : Message) (c : ContextMessage) : ContextMessage :=
  mkContextMessage m (origin c) (is_error c) (note c).

Record ProjectOptions : Type := mkOptions {
  synthesize_missing : bool;
  drop_orphan_results : bool;
  o_drop_leading_non_user : bool;
  o_merge_consecutive_assistants : bool;
  o_dedupe_duplicate_tool_calls : bool;
  strip_media : bool;
  keep_recent_media : nat;
  micro_compaction_keep_recent : option nat;
  micro_compaction_min_tokens : nat;
  micro_compaction_marker : string;
  format_rejected : bool
}.

Definition MEDIA_DEGRADE_KEEP_RECENT : nat := 2.

Definition normal : ProjectOptions := mkOptions false true false false false false 0 None 0 "" false.
Definition strict : ProjectOptions := mkOptions false true true true true false 0 None 0 "" false.
Definition compaction : ProjectOptions := mkOptions true true false false false false 0 None 0 "" false.
Definition degraded : ProjectOptions :=
  mkOptions false true false false false true MEDIA_DEGRADE_KEEP_RECENT None 0 "" false.
Definition stripped : ProjectOptions := mkOptions false true true true true true 0 None 0 "" false.
Definition stripped_format_rejected : ProjectOptions :=
  mkOptions false true true true true true 0 None 0 "" true.

Inductive ProjectionAnomaly : Type :=
| ToolResultReordered
| ToolResultSynthesized
| OrphanToolResultDropped
| DuplicateToolCallDropped
| DuplicateToolResultDropped
| LeadingNonUserDropped
| ConsecutiveAssistantsMerged
| WhitespaceTextDropped
| InvalidToolArgumentsSanitized.

(** ** The texts for media left out *)

Inductive MediaKind : Type := Image | Video | Audio.
Definition kind_text (k : MediaKind) : string :=
  match k with Image => "image" | Video => "video" | Audio => "audio" end.

Inductive PlaceholderCause : Type :=
| CapabilityGap (kind : MediaKind) (path : option string)
| SizeLimit (kind : MediaKind) (path : option string)
| FormatRejected (kind : MediaKind) (path : option string).

(** [\ ] *)
Definition BACKSLASH : string := String (ascii_of_nat 92) "".
Definition NEWLINE : string := String (ascii_of_nat 10) "".

Definition is_archive_path (path : string) : bool :=
  negb (bool_decide (path = "")) && negb (str_contains "://" path)
  && negb (String.prefix "blobref:" path) && negb (String.prefix "fileref:" path)
  && negb (String.prefix "ms:" path)
  && (str_contains "/" path || str_contains BACKSLASH path).

Definition valid_path (path : option string) : option string :=
  match path with Some p => if is_archive_path p then Some p else None | None => None end.

Definition build_media_placeholder (cause : PlaceholderCause) : string :=
  match cause with
  | CapabilityGap kind path =>
    let kind := kind_text kind in
    match valid_path path with
    | Some path =>
      "[" +:+ kind +:+ " omitted: the current model does not support " +:+ kind
      +:+ " input. The original " +:+ kind +:+ " has been saved to: " +:+ path +:+ NEWLINE
      +:+ "To still use this content, pick one of these options:" +:+ NEWLINE
      +:+ "1. Dispatch a dedicated multimodal subagent (its default model supports " +:+ kind
      +:+ " input — no model override needed) and instruct it to ReadMediaFile the file above." +:+ NEWLINE
      +:+ "2. Dispatch a general subagent with its model parameter set to a model that supports " +:+ kind
      +:+ " input (see the available models list in the Agent tool description) and instruct it to ReadMediaFile the file above."
      +:+ NEWLINE +:+ "3. If no multimodal model is available, tell the user you cannot view this " +:+ kind
      +:+ " and suggest switching to a " +:+ kind +:+ "-capable model or describing the content in text.]"
    | None => "[" +:+ kind +:+ " omitted: the current model does not support " +:+ kind +:+ " input.]"
    end
  | SizeLimit kind path =>
    let kind := kind_text kind in
    match valid_path path with
    | Some path =>
      "[" +:+ kind +:+ " omitted to fit the provider request size limit; the original has been saved to: "
      +:+ path +:+ ". Re-read the file with ReadMediaFile to view it.]"
    | None => "[" +:+ kind +:+ " omitted: dropped to fit the provider request size limit.]"
    end
  | FormatRejected kind path =>
    let kind := kind_text kind in
    match valid_path path with
    | Some path =>
      "[" +:+ kind +:+ " omitted: the provider rejected its format; the original has been saved to: "
      +:+ path +:+ ". Convert it to PNG/JPEG/WebP (e.g. via Bash) and re-attach it.]"
    | None => "[" +:+ kind +:+ " omitted: the provider rejected its format.]"
    end
  end.
