(* ===== verification/EngineError.v ===== *)
(** * The engine's errors: [mirri-core/src/error.rs]

    [EngineError] with its displayed message and the two classifications the
    turn loop reads.  The sources of [Io] and [Json] are given by their message. *)
From stdpp Require Import list strings pretty.
From S2P Require Import Prelude.
#[local] Open Scope string_scope.

Inductive EngineError : Type :=
| MaxStepsExceeded (msg : string)
| ContextOverflow (attempts : Z)
| CompactionFailed (msg : string)
| CompactionUnable (msg : string)
| RequestInvalid (msg : string)
| PermissionDenied (msg : string)
| ToolExecutionFailed (msg : string)
| ProviderError (msg : string)
| ProviderRateLimit (msg : string)
| ProviderAuthError (msg : string) (provider_id : option string)
| ProviderConnectionError (msg : string)
| EmptyLlmResponse
| ProviderQuotaExhausted (msg : string) (retry_after_ms : option Z)
| NotImplemented (msg : string)
| SessionConflict (session_id : string)
| UserCancelled
| EngineAborted (msg : string)
| Internal (msg : string)
| HookBlocked (msg : string)
| Io (msg : string)
| Json (msg : string).
#[export] Instance EngineError_eq_dec : EqDecision EngineError. Proof. solve_decision. Defined.

(** The [Display] of an error *)
Definition error_text (e : EngineError) : string :=
  match e with
  | MaxStepsExceeded m => "Max steps exceeded: " +:+ m
  | ContextOverflow n => "Context overflow after " +:+ pretty n +:+ " compaction attempts"
  | CompactionFailed m => "Compaction failed: " +:+ m
  | CompactionUnable m => "Compaction unable: " +:+ m
  | RequestInvalid m => "Request invalid: " +:+ m
  | PermissionDenied m => "Permission denied: " +:+ m
  | ToolExecutionFailed m => "Tool execution failed: " +:+ m
  | ProviderError m => "Provider error: " +:+ m
  | ProviderRateLimit m => "Provider rate limit: " +:+ m
  | ProviderAuthError m _ => "Provider authentication error: " +:+ m
  | ProviderConnectionError m => "Provider connection error: " +:+ m
  | EmptyLlmResponse =>
    "Model returned an empty response (no text, no thinking, no tool calls) with a natural end-turn stop"
  | ProviderQuotaExhausted m _ => "Provider quota exhausted: " +:+ m
  | NotImplemented m => "Not implemented: " +:+ m
  | SessionConflict id =>
    "session '" +:+ id +:+ "' has concurrent journal updates from another instance; retry after the next follow tick or resume the session"
  | UserCancelled => "Operation cancelled by user"
  | EngineAborted m => "Operation aborted: " +:+ m
  | Internal m => "Internal error: " +:+ m
  | HookBlocked m => "Step blocked by before_step hook: " +:+ m
  | Io m => "I/O error: " +:+ m
  | Json m => "JSON error: " +:+ m
  end.

Definition is_abort (e : EngineError) : bool :=
  match e with UserCancelled | EngineAborted _ => true | _ => false end.

Definition is_user_cancellation (e : EngineError) : bool :=
  match e with UserCancelled => true | _ => false end.
