(* ===== verification/Projector.v ===== *)
(** * The projection of the history: [mirri-core/src/context_memory/projector.rs]

    How the stored history becomes the messages sent to a provider: preparing
    each message, merging adjacent user messages, and the repairs of tool
    exchanges, step by step in the pipeline's order.  The anomalies are
    appended to a list as the code does. *)
From stdpp Require Import gmap list strings.
From S2P Require Import Prelude RustStd EngineError Context.
#[local] Open Scope string_scope.
#[local] Open Scope list_scope.

Definition TOOL_ERROR_STATUS : string := "<system>ERROR: Tool execution failed.</system>".
Definition TOOL_EMPTY_STATUS : string := "<system>Tool output is empty.</system>".
Definition TOOL_EMPTY_ERROR_STATUS : string :=
  "<system>ERROR: Tool execution failed. Tool output is empty.</system>".
Definition TOOL_OUTPUT_EMPTY_TEXT : string := "Tool output is empty.".
Definition SYNTHETIC_TOOL_RESULT_TEXT : string :=
  "Tool result is not available in the current context. Do not assume the tool completed successfully.".


(** ** Media parts *)

Definition is_media_content_part (part : ContentPart) : bool :=
  match part with ImageUrl _ _ | AudioUrl _ | VideoUrl _ => true | _ => false end.

Definition count_media_parts (history : list ContextMessage) : nat :=
  length (List.filter is_media_content_part
            (mjoin ((fun m => content (message m)) <$> List.filter (fun m => negb (partial (message m))) history))).

Definition replace_media_with_text_placeholder (part : ContentPart) (format_rejected : bool) : ContentPart :=
  let cause kind path :=
    if format_rejected then FormatRejected kind path else SizeLimit kind path in
  match part with
  | ImageUrl image_url _ => Text (build_media_placeholder (cause Image (image_id image_url)))
  | AudioUrl _ => Text (build_media_placeholder (cause Audio None))
  | VideoUrl _ => Text (build_media_placeholder (cause Video None))
  | _ => part
  end.

(** The parts of a message with the media before the threshold replaced, and
    the counter past its media *)
Fixpoint strip_parts (format_rejected : bool) (threshold counter : nat) (parts : list ContentPart)
  : list ContentPart * nat :=
  match parts with
  | [] => ([], counter)
  | part :: parts =>
    if is_media_content_part part then
      let part :=
        if (counter <? threshold)%nat then replace_media_with_text_placeholder part format_rejected
        else part in
      let '(parts, counter) := strip_parts format_rejected threshold (S counter) parts in
      (part :: parts, counter)
    else
      let '(parts, counter) := strip_parts format_rejected threshold counter parts in
      (part :: parts, counter)
  end.

(** ** Tool results *)

Definition is_blank (text : string) : bool := bool_decide (trim text = "").
Definition is_empty_output_text (output : string) : bool :=
  is_blank output || bool_decide (trim output = TOOL_OUTPUT_EMPTY_TEXT).
Definition is_empty_equivalent_content_array (parts : list ContentPart) : bool :=
  forallb (fun p => match p with Text text => is_blank text | _ => false end) parts.

Definition render_tool_status (content : list ContentPart) (is_error : bool) : list ContentPart :=
  match content with
  | [Text single] =>
    if is_error then
      if bool_decide (single = "") then [Text TOOL_EMPTY_ERROR_STATUS]
      else [Text (TOOL_ERROR_STATUS +:+ NEWLINE +:+ single)]
    else if is_empty_output_text single then [Text TOOL_EMPTY_STATUS]
    else [Text single]
  | _ =>
    if is_empty_equivalent_content_array content then
      [Text (if is_error then TOOL_EMPTY_ERROR_STATUS else TOOL_EMPTY_STATUS)]
    else if is_error then Text TOOL_ERROR_STATUS :: content
    else content
  end.

Definition render_tool_result_for_model (content : list ContentPart) (note : option string)
    (is_error : bool) : list ContentPart :=
  let rendered := render_tool_status content is_error in
  match note with
  | None | Some "" => rendered
  | Some note =>
    match rendered with
    | [Text text] => [Text (text +:+ NEWLINE +:+ note)]
    | _ => rendered ++ [Text note]
    end
  end.

(** ** Preparing a message *)

Definition is_blank_part (part : ContentPart) : bool :=
  match part with Text text => is_blank text | _ => false end.
Definition is_whitespace_part (part : ContentPart) : bool :=
  match part with Text text => is_blank text && negb (bool_decide (text = "")) | _ => false end.

Section projection.
(** Whether [serde_json] reads a text as an object *)
Variable is_json_object : string -> bool.

Definition sanitize_call (tool_call : ToolCall) : ToolCall :=
  if is_json_object (fn_arguments tool_call) then tool_call
  else mkToolCall (tc_id tool_call) (call_type tool_call) (fn_name tool_call) "{}".

(** [prepare_message_for_projection]: the prepared message, if any, with the
    anomalies and the media counter *)
Definition prepare_message_for_projection (message : ContextMessage) (anomalies : list ProjectionAnomaly)
    (strip_media format_rejected : bool) (media_counter media_threshold : nat)
  : result EngineError (option ContextMessage * list ProjectionAnomaly * nat) :=
  let msg := Context.message message in
  if partial msg then Ok (None, anomalies, media_counter)
  else
    let '(parts, media_counter) :=
      if strip_media then strip_parts format_rejected media_threshold media_counter (content msg)
      else (content msg, media_counter) in
    let parts :=
      if bool_decide (role msg = Tool)
      then render_tool_result_for_model parts (note message) (is_error message) else parts in
    let kept := List.filter (fun part => negb (is_blank_part part)) parts in
    let anomalies :=
      if existsb is_whitespace_part parts then anomalies ++ [WhitespaceTextDropped] else anomalies in
    if bool_decide (role msg = Tool) && bool_decide (kept = []) then
      Err (RequestInvalid "Tool result message content cannot be empty after removing empty text blocks.")
    else
      let calls := tool_calls msg in
      let sanitizes := bool_decide (role msg = Assistant) && existsb (fun c => negb (is_json_object (fn_arguments c))) calls in
      let anomalies := if sanitizes then anomalies ++ [InvalidToolArgumentsSanitized] else anomalies in
      let calls := if bool_decide (role msg = Assistant) then sanitize_call <$> calls else calls in
      if bool_decide (kept = []) && bool_decide (calls = []) then Ok (None, anomalies, media_counter)
      else Ok (Some (set_message (set_tool_calls calls (set_content kept msg)) message), anomalies, media_counter).

(** ** Step 1: merging adjacent user messages *)

Definition can_merge_user_message (msg : ContextMessage) : bool :=
  bool_decide (role (message msg) = UserRole) && bool_decide (origin msg = Some User).

Definition is_text (part : ContentPart) : bool := match part with Text _ => true | _ => false end.
Definition extract_text_only (msg : ContextMessage) : string :=
  String.concat "" (omap (fun p => match p with Text text => Some text | _ => None end) (content (message msg))).

Definition merge_two_user_messages (a b : ContextMessage) : ContextMessage :=
  let merged_text := extract_text_only a +:+ NEWLINE +:+ NEWLINE +:+ extract_text_only b in
  let non_text m := List.filter (fun part => negb (is_text part)) (content (message m)) in
  set_message (set_tool_calls [] (set_content (Text merged_text :: non_text a ++ non_text b) (message a))) a.

(** Pushing a prepared message: onto the last one when both merge *)
Definition push_merged (out : list ContextMessage) (msg : ContextMessage) : list ContextMessage :=
  match last out with
  | Some prev =>
    if can_merge_user_message msg && can_merge_user_message prev
    then removelast out ++ [merge_two_user_messages prev msg]
    else out ++ [msg]
  | None => out ++ [msg]
  end.

Definition is_model_switch (m : ContextMessage) : bool :=
  match origin m with Some (ModelSwitched _ _) => true | _ => false end.

Fixpoint merge_loop (history out : list ContextMessage) (anomalies : list ProjectionAnomaly)
    (strip_media format_rejected : bool) (media_counter media_threshold : nat)
  : result EngineError (list ContextMessage * list ProjectionAnomaly) :=
  match history with
  | [] => Ok (out, anomalies)
  | source :: history =>
    if is_model_switch source then
      merge_loop history out anomalies strip_media format_rejected media_counter media_threshold
    else
      match prepare_message_for_projection source anomalies strip_media format_rejected
              media_counter media_threshold with
      | Err e => Err e
      | Ok (prepared, anomalies, media_counter) =>
        let out := match prepared with Some msg => push_merged out msg | None => out end in
        merge_loop history out anomalies strip_media format_rejected media_counter media_threshold
      end
  end.

(** [strip_context_metadata] *)
Definition strip_context_metadata (msg : ContextMessage) : Message := message msg.

Definition merge_adjacent_user_messages (history : list ContextMessage)
    (anomalies : list ProjectionAnomaly) (strip_media format_rejected : bool) (media_threshold : nat)
  : result EngineError (list Message * list ProjectionAnomaly) :=
  match merge_loop history [] anomalies strip_media format_rejected 0 media_threshold with
  | Err e => Err e
  | Ok (out, anomalies) => Ok (strip_context_metadata <$> out, anomalies)
  end.
End projection.

(** ** Step 2: duplicate tool calls *)

Record Dedupe : Type := mkDedupe {
  seen_tool_call_ids : gset string;
  seen_tool_result_ids : gset string;
  d_out : list Message;
  d_anomalies : list ProjectionAnomaly
}.

(** The calls of a message that were not seen before, in order *)
Fixpoint keep_new_calls (seen : gset string) (anomalies : list ProjectionAnomaly) (calls : list ToolCall)
  : list ToolCall * gset string * list ProjectionAnomaly :=
  match calls with
  | [] => ([], seen, anomalies)
  | tc :: calls =>
    if bool_decide (tc_id tc ∈ seen)
    then keep_new_calls seen (anomalies ++ [DuplicateToolCallDropped]) calls
    else
      let '(kept, seen, anomalies) := keep_new_calls ({[tc_id tc]} ∪ seen) anomalies calls in
      (tc :: kept, seen, anomalies)
  end.

Definition dedupe_step (s : Dedupe) (message : Message) : Dedupe :=
  if bool_decide (role message = Assistant) && negb (bool_decide (tool_calls message = [])) then
    let '(kept, seen, anomalies) :=
      keep_new_calls (seen_tool_call_ids s) (d_anomalies s) (tool_calls message) in
    let out :=
      if (length kept =? length (tool_calls message))%nat then d_out s ++ [message]
      else if negb (bool_decide (kept = [])) || negb (bool_decide (content message = []))
           then d_out s ++ [set_tool_calls kept message]
           else d_out s in
    mkDedupe seen (seen_tool_result_ids s) out anomalies
  else
    match role message, tool_call_id message with
    | Tool, Some tool_call_id =>
      if bool_decide (tool_call_id ∈ seen_tool_result_ids s)
      then mkDedupe (seen_tool_call_ids s) (seen_tool_result_ids s) (d_out s)
             (d_anomalies s ++ [DuplicateToolResultDropped])
      else mkDedupe (seen_tool_call_ids s) ({[tool_call_id]} ∪ seen_tool_result_ids s)
             (d_out s ++ [message]) (d_anomalies s)
    | _, _ => mkDedupe (seen_tool_call_ids s) (seen_tool_result_ids s) (d_out s ++ [message]) (d_anomalies s)
    end.

Definition dedupe_duplicate_tool_calls (messages : list Message) (anomalies : list ProjectionAnomaly)
  : list Message * list ProjectionAnomaly :=
  let s := foldl dedupe_step (mkDedupe ∅ ∅ [] anomalies) messages in (d_out s, d_anomalies s).

(** ** Step 3: the adjacency of tool exchanges *)

(** [Vec::sort] of strings, by their bytes *)
Fixpoint insert_sorted (s : string) (l : list string) : list string :=
  match l with
  | [] => [s]
  | t :: l' => if String.leb s t then s :: l else t :: insert_sorted s l'
  end.
Definition sort_strings (l : list string) : list string := foldr insert_sorted [] l.

Definition call_ids (message : Message) : list string := tc_id <$> tool_calls message.

Definition make_synthetic_tool_result (tool_call_id : string) : Message :=
  mkMessage Tool None [Text SYNTHETIC_TOOL_RESULT_TEXT] [] (Some tool_call_id) false.

(** The state of the loops: the output, the indices moved ahead, the ids still
    without a result, whether another message came between *)
Record Repair : Type := mkRepair {
  r_out : list Message;
  consumed : gset nat;
  pending : gset string;
  foreign_between : bool;
  r_anomalies : list ProjectionAnomaly
}.

(** One [j] of the inner loop, which stops when nothing is pending *)
Definition scan_step (messages : list Message) (s : Repair) (j : nat) : Repair :=
  if bool_decide (pending s = ∅) then s
  else if bool_decide (j ∈ consumed s) then s
  else match messages !! j with
       | None => s
       | Some next =>
         match role next, tool_call_id next with
         | Tool, Some tool_call_id =>
           if bool_decide (tool_call_id ∈ pending s) then
             mkRepair (r_out s ++ [next]) ({[j]} ∪ consumed s) (pending s ∖ {[tool_call_id]})
               (foreign_between s)
               (if foreign_between s then r_anomalies s ++ [ToolResultReordered] else r_anomalies s)
           else mkRepair (r_out s) (consumed s) (pending s) true (r_anomalies s)
         | _, _ => mkRepair (r_out s) (consumed s) (pending s) true (r_anomalies s)
         end
       end.

(** Whether a message that is not a tool result comes after the index *)
Definition is_mid_history (messages : list Message) (i : nat) : bool :=
  existsb (fun m => negb (bool_decide (role m = Tool))) (drop (S i) messages).

Definition is_exchange (message : Message) : bool :=
  bool_decide (role message = Assistant) && negb (bool_decide (tool_calls message = [])).

(** One [i] of the outer loop *)
Definition repair_step (messages : list Message) (synthesize : bool) (s : Repair) (i : nat) : Repair :=
  if bool_decide (i ∈ consumed s) then s
  else match messages !! i with
       | None => s
       | Some message =>
         if negb (is_exchange message) then
           mkRepair (r_out s ++ [message]) (consumed s) (pending s) (foreign_between s) (r_anomalies s)
         else
           let s := mkRepair (r_out s ++ [message]) (consumed s) (list_to_set (call_ids message)) false
                      (r_anomalies s) in
           let s := foldl (scan_step messages) s (seq (S i) (length messages - S i)) in
           if synthesize || is_mid_history messages i then
             let missing := sort_strings (elements (pending s)) in
             mkRepair (r_out s ++ (make_synthetic_tool_result <$> missing)) (consumed s) (pending s)
               (foreign_between s) (r_anomalies s ++ replicate (length missing) ToolResultSynthesized)
           else s
       end.

Definition repair_tool_exchange_adjacency (messages : list Message) (options : ProjectOptions)
    (anomalies : list ProjectionAnomaly) : list Message * list ProjectionAnomaly :=
  let s := foldl (repair_step messages (synthesize_missing options)) (mkRepair [] ∅ ∅ false anomalies)
             (seq 0 (length messages)) in
  (r_out s, r_anomalies s).

(** ** Steps 4 to 6 *)

Definition merge_assistant_step (s : list Message * list ProjectionAnomaly) (message : Message)
  : list Message * list ProjectionAnomaly :=
  let '(out, anomalies) := s in
  match last out with
  | Some prev =>
    if bool_decide (role prev = Assistant) && bool_decide (role message = Assistant) then
      (removelast out ++ [set_tool_calls (tool_calls prev ++ tool_calls message)
                            (set_content (content prev ++ content message) prev)],
       anomalies ++ [ConsecutiveAssistantsMerged])
    else (out ++ [message], anomalies)
  | None => (out ++ [message], anomalies)
  end.

Definition merge_consecutive_assistants (messages : list Message) (anomalies : list ProjectionAnomaly)
  : list Message * list ProjectionAnomaly :=
  foldl merge_assistant_step ([], anomalies) messages.

Definition tool_use_ids (messages : list Message) : list string :=
  mjoin ((fun m => if bool_decide (role m = Assistant) then call_ids m else []) <$> messages).

(** A tool result whose call is in none of the ids *)
Definition is_orphan (ids : list string) (message : Message) : bool :=
  match role message, tool_call_id message with
  | Tool, Some tool_call_id => negb (bool_decide (tool_call_id ∈ ids))
  | _, _ => false
  end.

Definition drop_orphan_tool_results (messages : list Message) (anomalies : list ProjectionAnomaly)
  : list Message * list ProjectionAnomaly :=
  let ids := tool_use_ids messages in
  (List.filter (fun m => negb (is_orphan ids m)) messages,
   anomalies ++ replicate (length (List.filter (is_orphan ids) messages)) OrphanToolResultDropped).

Fixpoint drop_leading_non_user (messages : list Message) (anomalies : list ProjectionAnomaly)
  : list Message * list ProjectionAnomaly :=
  match messages with
  | [] => ([], anomalies)
  | m :: rest =>
    if bool_decide (role m = UserRole) then (messages, anomalies)
    else drop_leading_non_user rest (anomalies ++ [LeadingNonUserDropped])
  end.

(** ** Step 7: micro-compaction *)

Definition text_length (content : list ContentPart) : nat :=
  sum_list (omap (fun p => match p with Text text => Some (String.length text) | _ => None end) content).

Definition apply_micro_compaction (messages : list Message) (keep_recent min_tokens : nat)
    (marker : string) : list Message :=
  if bool_decide (marker = "") then messages
  else
    let cutoff := (length messages - keep_recent)%nat in
    imap (fun i msg =>
            if (i <? cutoff)%nat && bool_decide (role msg = Tool) && bool_decide (is_Some (tool_call_id msg))
               && (min_tokens * 4 <=? text_length (content msg))%nat
            then set_content [Text marker] msg else msg) messages.

(** ** The pipeline *)

(** The index of the first media part that is kept; [usize::MAX], past every
    part, when all are replaced *)
Definition media_threshold (history : list ContextMessage) (options : ProjectOptions) : nat :=
  if strip_media options then
    if (0 <? keep_recent_media options)%nat then count_media_parts history - keep_recent_media options
    else count_media_parts history
  else 0.

Definition when {A} (b : bool) (f : A -> A) (x : A) : A := if b then f x else x.

(** Steps 2 to 7, after the messages are prepared *)
Definition repair_pipeline (options : ProjectOptions) (s : list Message * list ProjectionAnomaly)
  : list Message * list ProjectionAnomaly :=
  let s := when (o_dedupe_duplicate_tool_calls options)
             (fun '(result, anomalies) => dedupe_duplicate_tool_calls result anomalies) s in
  let s := repair_tool_exchange_adjacency s.1 options s.2 in
  let s := when (o_merge_consecutive_assistants options)
             (fun '(result, anomalies) => merge_consecutive_assistants result anomalies) s in
  let s := when (drop_orphan_results options)
             (fun '(result, anomalies) => drop_orphan_tool_results result anomalies) s in
  let s := when (o_drop_leading_non_user options)
             (fun '(result, anomalies) => drop_leading_non_user result anomalies) s in
  match micro_compaction_keep_recent options with
  | Some keep_recent =>
    (apply_micro_compaction s.1 keep_recent (micro_compaction_min_tokens options)
       (micro_compaction_marker options), s.2)
  | None => s
  end.

Definition project_with_anomalies (is_json_object : string -> bool) (history : list ContextMessage)
    (options : ProjectOptions) (anomalies : list ProjectionAnomaly)
  : result EngineError (list Message * list ProjectionAnomaly) :=
  match merge_adjacent_user_messages is_json_object history anomalies (strip_media options)
          (format_rejected options) (media_threshold history options) with
  | Err e => Err e
  | Ok s => Ok (repair_pipeline options s)
  end.

(** [project]; what it adds is logging. *)
Definition project (is_json_object : string -> bool) (history : list ContextMessage)
    (options : ProjectOptions) : result EngineError (list Message) :=
  fst <$> project_with_anomalies is_json_object history options [].
