(* ===== verification/Projection.v ===== *)
(** * What the projection guarantees: preparing the messages

    The error of an empty tool result is never raised, and the degraded
    projection keeps exactly the last media parts. *)
From stdpp Require Import gmap list strings.
From S2P Require Import Prelude RustStd EngineError Context Projector.
#[local] Open Scope string_scope.
#[local] Open Scope list_scope.

(** ** Tool results are never empty *)

Definition visible (part : ContentPart) : bool := negb (is_blank_part part).

Lemma status_visible c s : graphic c = true -> visible (Text (String c s)) = true.
Proof.
  intros Hc. unfold visible, is_blank_part, is_blank. rewrite bool_decide_false; [done|].
  by apply graphic_not_blank.
Qed.

Lemma filter_visible (parts : list ContentPart) part :
  part ∈ parts -> visible part = true -> List.filter visible parts <> [].
Proof.
  intros Hin Hv He. apply list_elem_of_In in Hin.
  assert (Hf : In part (List.filter visible parts)) by by apply filter_In.
  by rewrite He in Hf.
Qed.

Lemma status_has_visible content err : exists part, part ∈ render_tool_status content err /\ visible part = true.
Proof.
  assert (Hmulti : exists part,
    part ∈ (if is_empty_equivalent_content_array content then
              [Text (if err then TOOL_EMPTY_ERROR_STATUS else TOOL_EMPTY_STATUS)]
            else if err then Text TOOL_ERROR_STATUS :: content else content) /\ visible part = true).
  { destruct (is_empty_equivalent_content_array content) eqn:Ee.
    - eexists. split; [by left|]. by destruct err; apply status_visible.
    - destruct err; [eexists; split; [by left|by apply status_visible]|].
      unfold is_empty_equivalent_content_array in Ee.
      assert (exists part, In part content /\ visible part = true) as (p & Hp & Hv).
      { induction content as [|p ps IH]; [done|]. simpl in Ee. apply andb_false_iff in Ee as [E|E].
        - exists p. split; [by left|]. unfold visible, is_blank_part. by destruct p; rewrite ?E.
        - destruct (IH E) as (q & Hq & Hv). exists q. split; [by right|done]. }
      exists p. split; [by apply list_elem_of_In|done]. }
  destruct content as [|[single|?|?|?|?|?] [|? ?]]; try exact Hmulti. simpl. destruct err.
  - case_bool_decide; (eexists; split; [by left|by apply status_visible]).
  - destruct (is_empty_output_text single) eqn:Es; (eexists; split; [by left|]); [by apply status_visible|].
    unfold visible, is_blank_part. unfold is_empty_output_text in Es. apply orb_false_iff in Es as [-> _]. done.
Qed.

Lemma rendered_visible content note err :
  List.filter visible (render_tool_result_for_model content note err) <> [].
Proof.
  destruct (status_has_visible content err) as (p & Hp & Hv). unfold render_tool_result_for_model.
  destruct note as [[|c note]|]; [by eapply filter_visible| |by eapply filter_visible].
  destruct (render_tool_status content err) as [|[text|?|?|?|?|?] [|q ps]]; try (by apply not_elem_of_nil in Hp);
    try (eapply filter_visible; [|exact Hv]; by apply elem_of_app; left).
  apply list_elem_of_singleton in Hp as ->. eapply filter_visible; [by left|].
  unfold visible, is_blank_part, is_blank in *. apply negb_true_iff, bool_decide_eq_false in Hv.
  rewrite bool_decide_false; [done|]. by apply (trim_line text (String c note)).
Qed.

Section prepare.
Variable is_json_object : string -> bool.

Lemma prepare_succeeds m anomalies strip format counter threshold :
  exists r, prepare_message_for_projection is_json_object m anomalies strip format counter threshold = Ok r.
Proof.
  unfold prepare_message_for_projection. destruct (partial (message m)); [eauto|].
  destruct (if strip then _ else _) as [parts counter'].
  destruct (bool_decide (role (message m) = Tool)) eqn:Er; cbn [andb].
  - change (fun part => negb (is_blank_part part)) with visible.
    rewrite (bool_decide_false (List.filter visible _ = [])) by apply rendered_visible.
    cbn iota. repeat case_match; eauto.
  - repeat case_match; eauto.
Qed.

Lemma merge_loop_succeeds history out anomalies strip format counter threshold :
  exists r, merge_loop is_json_object history out anomalies strip format counter threshold = Ok r.
Proof.
  revert out anomalies counter. induction history as [|m history IH]; intros out anomalies counter; simpl; [eauto|].
  destruct (is_model_switch m); [apply IH|].
  destruct (prepare_succeeds m anomalies strip format counter threshold) as [[[prepared an] c] ->].
  apply IH.
Qed.

(** The projection has messages to send. *)
Definition sends (history : list ContextMessage) (options : ProjectOptions) : Prop :=
  exists messages, project is_json_object history options = Ok messages.

(** The projection always succeeds: rendering a tool result leaves a part that
    is not blank, so the error for an empty one is never raised. *)
Theorem project_succeeds history options : sends history options.
Proof.
  unfold sends, project, project_with_anomalies, merge_adjacent_user_messages.
  destruct (merge_loop_succeeds history [] [] (strip_media options) (format_rejected options) 0
              (media_threshold history options)) as [[out an] ->].
  simpl. eauto.
Qed.
End prepare.

(** ** Media parts *)

Definition media (parts : list ContentPart) : list ContentPart := List.filter is_media_content_part parts.
#[local] Arguments media _ : simpl never.
(** The media of prepared messages, in order *)
Definition media_of (ms : list ContextMessage) : list ContentPart :=
  mjoin ((fun m => media (content (message m))) <$> ms).
(** The messages of the history that reach the projection *)
Definition projected (m : ContextMessage) : bool := negb (partial (message m)) && negb (is_model_switch m).

Lemma media_app l k : media (l ++ k) = media l ++ media k.
Proof. apply List.filter_app. Qed.

Lemma media_cons p l : media (p :: l) = if is_media_content_part p then p :: media l else media l.
Proof. reflexivity. Qed.

Lemma media_visible parts : media (List.filter visible parts) = media parts.
Proof.
  induction parts as [|p parts IH]; [done|]. unfold media, visible in *. simpl.
  destruct p as [t|?|?|?|?|?]; simpl; try exact IH; try (f_equal; exact IH).
  destruct (is_blank t); exact IH.
Qed.

Lemma media_rendered parts note err : media (render_tool_result_for_model parts note err) = media parts.
Proof.
  assert (Hs : media (render_tool_status parts err) = media parts).
  { assert (Hmulti : media (if is_empty_equivalent_content_array parts then
                [Text (if err then TOOL_EMPTY_ERROR_STATUS else TOOL_EMPTY_STATUS)]
              else if err then Text TOOL_ERROR_STATUS :: parts else parts) = media parts).
    { destruct (is_empty_equivalent_content_array parts) eqn:Ee; [|by destruct err].
      symmetry. induction parts as [|p parts IH]; [done|]. simpl in Ee. apply andb_true_iff in Ee as [E Ee].
      destruct p; try done. by apply IH. }
    destruct parts as [|[single|?|?|?|?|?] [|? ?]]; try exact Hmulti. simpl.
    by destruct err; [case_bool_decide|destruct (is_empty_output_text single)]. }
  unfold render_tool_result_for_model. destruct note as [[|c note]|]; try exact Hs.
  destruct (render_tool_status parts err) as [|[text|?|?|?|?|?] [|q ps]];
    rewrite ?media_app, <- Hs, ?media_app; simpl; rewrite ?app_nil_r; done.
Qed.

Lemma strip_parts_media format threshold counter parts :
  media (fst (strip_parts format threshold counter parts)) = drop (threshold - counter) (media parts) /\
  snd (strip_parts format threshold counter parts) = (counter + length (media parts))%nat.
Proof.
  revert counter. induction parts as [|p parts IH]; intros counter.
  { split; [by destruct (threshold - counter)%nat|simpl; lia]. }
  rewrite media_cons. cbn [strip_parts]. destruct (is_media_content_part p) eqn:Ep.
  - specialize (IH (S counter)). destruct (strip_parts format threshold (S counter) parts) as [l c].
    simpl in *. destruct IH as [IH1 ->]. rewrite media_cons. split; [|lia].
    destruct (Nat.ltb_spec counter threshold) as [Hc|Hc].
    + assert (is_media_content_part (replace_media_with_text_placeholder p format) = false) as -> by by destruct p.
      rewrite IH1. by replace (threshold - counter)%nat with (S (threshold - S counter)) by lia.
    + rewrite Ep, IH1. replace (threshold - counter)%nat with 0%nat by lia.
      by replace (threshold - S counter)%nat with 0%nat by lia.
  - specialize (IH counter). destruct (strip_parts format threshold counter parts) as [l c].
    simpl in *. by rewrite media_cons, Ep.
Qed.

Section media_kept.
Variable is_json_object : string -> bool.

Lemma prepare_media m anomalies format counter threshold prepared anomalies' counter' :
  prepare_message_for_projection is_json_object m anomalies true format counter threshold
    = Ok (prepared, anomalies', counter') ->
  media_of (option_list prepared) =
    (if partial (message m) then [] else drop (threshold - counter) (media (content (message m)))) /\
  counter' = (counter + if partial (message m) then 0 else length (media (content (message m))))%nat.
Proof.
  unfold prepare_message_for_projection. destruct (partial (message m)).
  { intros [= <- <- <-]. split; [done|lia]. }
  destruct (strip_parts_media format threshold counter (content (message m))) as [Hm Hc].
  destruct (strip_parts _ _ _ _) as [parts c]. simpl in Hm, Hc.
  change (fun part => negb (is_blank_part part)) with visible.
  set (rendered := if bool_decide (role (message m) = Tool) then _ else parts).
  assert (Hr : media (List.filter visible rendered) = media parts).
  { rewrite media_visible. unfold rendered. case_bool_decide; [apply media_rendered|done]. }
  destruct (bool_decide (role (message m) = Tool) && _); [done|].
  set (calls := if bool_decide (role (message m) = Assistant) then _ else _).
  destruct (bool_decide (List.filter visible rendered = []) && bool_decide (calls = [])) eqn:Ed; intros [= <- _ <-].
  - apply andb_true_iff in Ed as [Ed%bool_decide_eq_true _]. rewrite Ed in Hr. rewrite <- Hm, <- Hr. done.
  - unfold media_of. simpl. rewrite app_nil_r, Hr. done.
Qed.

Lemma media_of_app l k : media_of (l ++ k) = media_of l ++ media_of k.
Proof. unfold media_of. by rewrite fmap_app, join_app. Qed.

Lemma media_non_text parts : media (List.filter (fun p => negb (is_text p)) parts) = media parts.
Proof.
  induction parts as [|p parts IH]; [done|]. unfold media in *. simpl. destruct p; simpl; try exact IH; f_equal; exact IH.
Qed.

Lemma push_merged_media out m : media_of (push_merged out m) = media_of out ++ media_of [m].
Proof.
  unfold push_merged. destruct (last out) as [prev|] eqn:El; [|apply media_of_app].
  apply last_Some in El as [init ->].
  destruct (can_merge_user_message m && can_merge_user_message prev); [|apply media_of_app].
  rewrite removelast_last, !media_of_app, <- app_assoc. f_equal. unfold media_of. simpl.
  rewrite !app_nil_r. change (media (Text ?t :: ?l)) with (media l).
  by rewrite media_app, !media_non_text.
Qed.

Lemma merge_loop_media history out anomalies format counter threshold out' anomalies' :
  merge_loop is_json_object history out anomalies true format counter threshold = Ok (out', anomalies') ->
  media_of out' = media_of out ++ drop (threshold - counter) (media_of (List.filter projected history)).
Proof.
  revert out anomalies counter. induction history as [|m history IH]; intros out anomalies counter; cbn [merge_loop List.filter].
  { intros [= <- _]. change (media_of []) with (@nil ContentPart). by rewrite drop_nil, app_nil_r. }
  unfold projected at 1. destruct (is_model_switch m).
  { rewrite andb_false_r. apply IH. }
  rewrite andb_true_r.
  destruct (prepare_message_for_projection _ _ _ _ _ _ _) as [[[prepared an] c]|e] eqn:Ep; [|done].
  apply prepare_media in Ep as [Hp ->]. intros Hl. apply IH in Hl. rewrite Hl.
  assert (Ho : media_of (match prepared with Some msg => push_merged out msg | None => out end)
               = media_of out ++ media_of (option_list prepared)).
  { destruct prepared; simpl; [apply push_merged_media|]. by rewrite app_nil_r. }
  rewrite Ho, Hp, <- app_assoc. f_equal. destruct (partial (message m)); simpl.
  - by rewrite Nat.add_0_r.
  - unfold media_of at 2. simpl. rewrite drop_app. f_equal. f_equal. lia.
Qed.

Lemma count_media history :
  (forall m, m ∈ history -> is_model_switch m = true -> media (content (message m)) = []) ->
  count_media_parts history = length (media_of (List.filter projected history)).
Proof.
  unfold count_media_parts. induction history as [|m history IH]; intros Hs; [done|].
  assert (IH' := IH (fun x Hx => Hs x (list_elem_of_further _ _ _ Hx))). clear IH.
  cbn [List.filter]. unfold projected at 1. destruct (partial (message m)); [exact IH'|]. cbn [negb andb].
  assert (Hj : forall (x : list ContentPart) l, mjoin (x :: l) = x ++ mjoin l) by done.
  rewrite fmap_cons, Hj, List.filter_app, length_app, IH'.
  fold (media (content (message m))). destruct (is_model_switch m) eqn:Em; cbn [negb].
  - by rewrite (Hs m); [|by left|].
  - change (media_of (m :: ?l)) with (media (content (message m)) ++ media_of l). by rewrite length_app.
Qed.

(** The degraded projection keeps exactly the last media parts of the history,
    as many as it was told, in order and unchanged, and replaces the others by
    a text; none is lost in merging or in rendering a tool result.  Markers of
    a model switch, which carry no media, are left out. *)
Theorem recent_media_survive history options out anomalies :
  strip_media options = true ->
  (forall m, m ∈ history -> is_model_switch m = true -> media (content (message m)) = []) ->
  merge_adjacent_user_messages is_json_object history [] true (format_rejected options)
    (media_threshold history options) = Ok (out, anomalies) ->
  mjoin ((fun m => media (content m)) <$> out) =
  let all := media_of (List.filter projected history) in
  drop (length all - keep_recent_media options) all.
Proof.
  intros Hs Hm. unfold merge_adjacent_user_messages.
  destruct (merge_loop _ _ _ _ _ _ _ _) as [[ms an]|e] eqn:El; [|done]. intros [= <- _].
  apply merge_loop_media in El. rewrite <- list_fmap_compose.
  transitivity (media_of ms); [done|]. rewrite El. cbn zeta. simpl. rewrite Nat.sub_0_r.
  unfold media_threshold. rewrite Hs, (count_media _ Hm).
  destruct (Nat.ltb_spec 0 (keep_recent_media options)) as [Hk|Hk]; [done|].
  by replace (keep_recent_media options) with 0%nat by lia; rewrite Nat.sub_0_r.
Qed.
End media_kept.

Definition shot (n : string) : ContentPart := ImageUrl (mkImageUrl n None None) None.
Definition two_shots : list ContextMessage :=
  [mkContextMessage (mkMessage UserRole None [shot "a"; Text "look"] [] None false) (Some User) false None;
   mkContextMessage (mkMessage UserRole None [shot "b"; shot "c"] [] None false) (Some User) false None].

Lemma recent_media_survive_witness :
  exists out anomalies,
    merge_adjacent_user_messages (fun _ => true) two_shots [] true false (media_threshold two_shots degraded)
      = Ok (out, anomalies) /\
    mjoin ((fun m => media (content m)) <$> out) = [shot "b"; shot "c"].
Proof.
  eexists _, _. split; [vm_compute; reflexivity|].
  refine (eq_trans (recent_media_survive (fun _ => true) two_shots degraded _ [] eq_refl _ _) _).
  - intros m Hm. repeat (apply elem_of_cons in Hm as [->|Hm]); [done..|by apply not_elem_of_nil in Hm].
  - vm_compute. reflexivity.
  - vm_compute. reflexivity.
Defined.
