(* ===== verification/Exchanges.v ===== *)
(** * What the projection guarantees: tool exchanges

    The repair loops, specified by a grammar of the messages sent: an exchange
    is a message with tool calls directly followed by their results.  The
    repair brings any history into the grammar without losing a message, it
    changes nothing that already is in it. *)
From stdpp Require Import gmap list sorting.
From S2P Require Import Prelude RustStd EngineError Context Projector.
#[local] Open Scope list_scope.

(** ** The grammar *)

Definition is_tool (m : Message) : Prop := role m = Tool.

(** [rs] are tool results for [ids], in order. *)
Definition results (rs : list Message) (ids : list string) : Prop :=
  Forall is_tool rs /\ tool_call_id <$> rs = Some <$> ids.

(** A sequence of plain messages and exchanges.  The results directly after a
    call answer distinct calls of it, and all of them, unless nothing but tool
    results follows and [open] allows it. *)
Inductive wire (plain : Message -> Prop) (open : bool) : list Message -> Prop :=
| wire_nil : wire plain open []
| wire_plain m l : is_exchange m = false -> plain m -> wire plain open l -> wire plain open (m :: l)
| wire_exchange a rs ids l :
    is_exchange a = true -> results rs ids -> NoDup ids -> ids ⊆ call_ids a ->
    (call_ids a ⊆ ids \/ open = true /\ Forall is_tool l) ->
    wire plain open l -> wire plain open (a :: rs ++ l).

Definition synthetic (m : Message) : Prop := exists id, m = make_synthetic_tool_result id.

Lemma results_app rs ids rs' ids' : results rs ids -> results rs' ids' -> results (rs ++ rs') (ids ++ ids').
Proof. intros [H1 H2] [H3 H4]. split; [by apply Forall_app|]. by rewrite !fmap_app, H2, H4. Qed.

Lemma results_synthetic ids : results (make_synthetic_tool_result <$> ids) ids.
Proof.
  split; [by apply Forall_fmap, Forall_true|]. rewrite <- list_fmap_compose. by apply list_fmap_ext.
Qed.

Lemma elem_of_sort_strings x l : x ∈ sort_strings l <-> x ∈ l.
Proof.
  assert (Hi : forall s l, x ∈ insert_sorted s l <-> x = s \/ x ∈ l).
  { intros s k. induction k as [|t k IH]; simpl; [set_solver|]. destruct (String.leb s t); set_solver. }
  induction l as [|s l IH]; simpl; [done|]. rewrite Hi, IH. set_solver.
Qed.

Lemma sort_strings_perm l : sort_strings l ≡ₚ l.
Proof.
  assert (Hi : forall s l, insert_sorted s l ≡ₚ s :: l).
  { intros s k. induction k as [|t k IH]; simpl; [done|]. destruct (String.leb s t); [done|].
    rewrite IH. apply Permutation_swap. }
  induction l as [|s l IH]; simpl; [done|]. by rewrite Hi, IH.
Qed.

Lemma lookup_init {A} (l : list A) x js :
  Forall (fun j => (j < length l)%nat) js ->
  omap (fun j => (l ++ [x]) !! j) js = omap (fun j => l !! j) js.
Proof.
  induction 1 as [|j js Hj _ IH]; [done|]. simpl. rewrite lookup_app_l by done.
  destruct (l !! j); [f_equal|]; exact IH.
Qed.

Lemma lookup_all {A} (l : list A) : omap (fun j => l !! j) (seq 0 (length l)) = l.
Proof.
  induction l as [|x l IH] using rev_ind; [done|].
  rewrite length_app. cbn [length]. rewrite Nat.add_1_r, seq_S, omap_app. cbn [omap list_omap].
  rewrite lookup_init by (apply Forall_forall; intros j Hj; apply elem_of_seq in Hj; lia).
  rewrite IH. simpl. by rewrite lookup_app_r, Nat.sub_diag by lia.
Qed.

(** ** The inner loop *)

Section repair.
Variable messages : list Message.

(** The messages at some indices *)
Definition at_indices (l : list nat) : list Message := omap (fun j => messages !! j) l.

Lemma scan_spec js s :
  let s' := foldl (scan_step messages) s js in
  exists J ids,
    r_out s' = r_out s ++ at_indices J /\ results (at_indices J) ids /\ NoDup ids /\
    list_to_set ids ⊆ pending s /\ pending s' = pending s ∖ list_to_set ids /\
    NoDup J /\ J ⊆ js /\ (forall j, j ∈ J -> j ∉ consumed s /\ is_Some (messages !! j)) /\
    consumed s' = list_to_set J ∪ consumed s.
Proof.
  revert s. induction js as [|j js IH]; intros s; cbn zeta; cbn [foldl].
  { exists [], []. simpl. rewrite app_nil_r. repeat split; try set_solver; constructor. }
  assert (Hskip : forall s1, r_out s1 = r_out s -> pending s1 = pending s -> consumed s1 = consumed s ->
    exists J ids,
      r_out (foldl (scan_step messages) s1 js) = r_out s ++ at_indices J /\ results (at_indices J) ids /\ NoDup ids /\
      list_to_set ids ⊆ pending s /\ pending (foldl (scan_step messages) s1 js) = pending s ∖ list_to_set ids /\
      NoDup J /\ J ⊆ j :: js /\ (forall j, j ∈ J -> j ∉ consumed s /\ is_Some (messages !! j)) /\
      consumed (foldl (scan_step messages) s1 js) = list_to_set J ∪ consumed s).
  { intros s1 H1 H2 H3. destruct (IH s1) as (J & ids & E1 & E2 & E3 & E4 & E5 & E6 & E7 & E8 & E9).
    rewrite H1, H2, H3 in *. exists J, ids. repeat split; try done; [apply E2|apply E2|set_solver|apply E8|apply E8]; done. }
  unfold scan_step at 2 4 6. case_bool_decide as Hp; [by apply Hskip|].
  case_bool_decide as Hc; [by apply Hskip|].
  destruct (messages !! j) as [next|] eqn:Ej; [|by apply Hskip].
  destruct (role next) eqn:Er; try by apply Hskip.
  destruct (tool_call_id next) as [id|] eqn:Eid; [|by apply Hskip].
  case_bool_decide as Hin; [|by apply Hskip]. clear Hskip.
  match goal with |- context [foldl _ ?s1 js] =>
    destruct (IH s1) as (J & ids & E1 & E2 & E3 & E4 & E5 & E6 & E7 & E8 & E9) end.
  simpl in *. exists (j :: J), (id :: ids).
  assert (Hj : j ∉ J) by (intros Hj; destruct (E8 j Hj) as [Hn _]; set_solver).
  assert (Ha : at_indices (j :: J) = next :: at_indices J) by (unfold at_indices; simpl; by rewrite Ej).
  rewrite Ha, E1, E5, E9, <- app_assoc. split; [done|]. split.
  { apply (results_app [next] [id]); [|done]. split; [by apply Forall_singleton|]. simpl. by rewrite Eid. }
  split; [constructor; [|done]; intros Hid; assert (id ∈ (list_to_set ids : gset string)) by set_solver; set_solver|].
  split; [set_solver|]. split; [set_solver|]. split; [by constructor|]. split; [set_solver|].
  split; [|set_solver]. intros k [->|Hk]%elem_of_cons; [split; [done|by eauto]|].
  destruct (E8 k Hk). split; [set_solver|done].
Qed.

(** ** The outer loop *)

Variable synthesize : bool.

(** What the loop emits at an index: the message, or the exchange it heads *)
Definition block_at (j : nat) (b : list Message) : Prop :=
  exists m, messages !! j = Some m /\
  if is_exchange m then
    exists rs ids, b = m :: rs /\ results rs ids /\ NoDup ids /\ ids ⊆ call_ids m /\
    (synthesize || is_mid_history messages j = true -> call_ids m ⊆ ids)
  else b = [m].

Lemma results_left rs ids (left : gset string) :
  results rs ids -> NoDup ids -> (forall x, x ∈ ids -> x ∉ left) ->
  let missing := sort_strings (elements left) in
  results (rs ++ (make_synthetic_tool_result <$> missing)) (ids ++ missing) /\ NoDup (ids ++ missing).
Proof.
  intros Hr Hn Hd missing. split; [apply results_app; [done|apply results_synthetic]|].
  apply NoDup_app. split; [done|]. split.
  - intros x Hx Hm. unfold missing in Hm. rewrite elem_of_sort_strings, elem_of_elements in Hm. by apply (Hd x).
  - unfold missing. rewrite sort_strings_perm. apply NoDup_elements.
Qed.

(** One step of the outer loop: nothing for a message moved ahead, and else a
    block; the indices it uses up are new ones after it. *)
Lemma repair_step_spec s i :
  let s' := repair_step messages synthesize s i in
  (i ∈ consumed s \/ messages !! i = None) /\ s' = s \/
  i ∉ consumed s /\ exists b J synths,
    block_at i b /\ r_out s' = r_out s ++ b /\ b ≡ₚ at_indices (i :: J) ++ synths /\
    Forall synthetic synths /\
    NoDup J /\ (forall j, j ∈ J -> (i < j < length messages)%nat /\ j ∉ consumed s) /\
    consumed s' = list_to_set J ∪ consumed s.
Proof.
  unfold repair_step. cbn zeta. case_bool_decide as Hc; [left; by eauto|].
  destruct (messages !! i) as [m|] eqn:Em; [|left; by eauto]. right. split; [done|].
  destruct (is_exchange m) eqn:Ee; cbn [negb].
  2: { exists [m], [], []. split; [exists m; by rewrite Ee|].
       unfold at_indices. simpl. rewrite Em. split; [done|]. split; [done|]. split; [constructor|].
       split; [constructor|]. split; [intros j Hj; by apply not_elem_of_nil in Hj|set_solver]. }
  destruct (scan_spec (seq (S i) (length messages - S i))
    (mkRepair (r_out s ++ [m]) (consumed s) (list_to_set (call_ids m)) false (r_anomalies s)))
    as (J & ids & E1 & E2 & E3 & E4 & E5 & E6 & E7 & E8 & E9).
  cbn [r_out pending consumed] in *. set (s1 := foldl _ _ _) in *.
  assert (Hids : ids ⊆ call_ids m) by set_solver.
  assert (HJ : forall j, j ∈ J -> (i < j < length messages)%nat /\ j ∉ consumed s).
  { intros j Hj. destruct (E8 j Hj) as [Hn _]. split; [|done]. apply E7 in Hj. apply elem_of_seq in Hj. lia. }
  assert (Hat : at_indices (i :: J) = m :: at_indices J) by (unfold at_indices; simpl; by rewrite Em).
  destruct (synthesize || is_mid_history messages i) eqn:Es; cbn [r_out consumed].
  - destruct (results_left (at_indices J) ids (pending s1)) as [Hr Hn]; [done|done|set_solver|].
    set (missing := sort_strings (elements (pending s1))) in *.
    exists (m :: at_indices J ++ (make_synthetic_tool_result <$> missing)), J, (make_synthetic_tool_result <$> missing).
    split; [exists m; split; [done|]; rewrite Ee; exists (at_indices J ++ (make_synthetic_tool_result <$> missing)), (ids ++ missing)|].
    + split; [done|]. split; [done|]. split; [done|].
      assert (Hm : forall x, x ∈ missing <-> x ∈ call_ids m /\ x ∉ ids).
      { intros x. unfold missing. rewrite elem_of_sort_strings, elem_of_elements. set_solver. }
      split; [intros x [Hx|Hx]%elem_of_app; [by apply Hids|by apply Hm]|].
      intros _ x Hx. apply elem_of_app. destruct (decide (x ∈ ids)); [by left|right]. by apply Hm.
    + rewrite Hat, E1, <- !app_assoc. split; [done|]. split; [done|]. split; [|done].
      apply Forall_fmap, Forall_true. intros x. by exists x.
  - exists (m :: at_indices J), J, []. split; [exists m; split; [done|]; rewrite Ee; exists (at_indices J), ids; by rewrite Es|].
    rewrite Hat, E1, app_nil_r, <- app_assoc. split; [done|]. split; [done|]. split; [constructor|]. done.
Qed.

(** The state of the loop before an index *)
Definition state_at (anomalies : list ProjectionAnomaly) (i : nat) : Repair :=
  foldl (repair_step messages synthesize) (mkRepair [] ∅ ∅ false anomalies) (seq 0 i).

Lemma state_at_S anomalies i :
  state_at anomalies (S i) = repair_step messages synthesize (state_at anomalies i) i.
Proof. unfold state_at. by rewrite seq_S, foldl_app. Qed.

(** The blocks the loop has emitted, with their indices, none of which had been
    moved ahead ([fresh]), and the indices it has used up *)
Record emitted (fresh : nat -> Prop) (i : nat) (s : Repair) (blocks : list (nat * list Message)) (used : list nat)
    (synths : list Message) : Prop := mkEmitted {
  em_out : r_out s = mjoin (snd <$> blocks);
  em_blocks : Forall (fun '(j, b) => block_at j b /\ (j < i)%nat) blocks;
  em_fresh : Forall (fun '(j, _) => fresh j) blocks;
  em_sorted : StronglySorted lt (fst <$> blocks);
  em_perm : r_out s ≡ₚ at_indices used ++ synths;
  em_synths : Forall synthetic synths;
  em_used : NoDup used;
  em_in : forall j, j ∈ used <-> ((j < i)%nat \/ j ∈ consumed s) /\ (j < length messages)%nat;
  em_consumed : forall j, j ∈ consumed s -> (j < length messages)%nat
}.

Lemma sorted_snoc l (x : nat) : StronglySorted lt l -> Forall (fun y => (y < x)%nat) l -> StronglySorted lt (l ++ [x]).
Proof.
  induction 1 as [|y l Hl IH Hy]; intros Hx; simpl; [by repeat constructor|].
  apply Forall_cons in Hx as [Hyx Hx]. constructor; [by apply IH|]. apply Forall_app. split; [done|by constructor].
Qed.

Lemma emitted_step (fresh : nat -> Prop) i s blocks used synths :
  (i < length messages)%nat -> (i ∉ consumed s -> fresh i) -> emitted fresh i s blocks used synths ->
  exists blocks' used' synths', emitted fresh (S i) (repair_step messages synthesize s i) blocks' used' synths'.
Proof.
  intros Hi Hfresh [H1 H2 Hf H3 H4 H5 H6 H7 H8].
  destruct (repair_step_spec s i) as [[Hc ->]|(Hc & b & J & sy & Hb & Ho & Hp & Hs & Hn & HJ & Hcons)].
  - exists blocks, used, synths. destruct Hc as [Hc|Hc]; [|apply lookup_ge_None in Hc; lia].
    split; try done.
    + eapply Forall_impl; [exact H2|]. intros [j b] [Hb Hj]. split; [done|lia].
    + intros j. rewrite H7. split; intros [[?|?] ?]; (split; [|done]); [left; lia|by right| |by right].
      destruct (decide (j = i)) as [->|]; [by right|left; lia].
  - exists (blocks ++ [(i, b)]), (used ++ i :: J), (synths ++ sy).
    assert (Hiu : i ∉ used) by (rewrite H7; intros [[?|?] ?]; [lia|done]).
    split.
    + by rewrite Ho, H1, fmap_app, join_app; simpl; rewrite app_nil_r.
    + apply Forall_app. split; [|by repeat constructor].
      eapply Forall_impl; [exact H2|]. intros [j b'] [Hb' Hj]. split; [done|lia].
    + apply Forall_app. split; [done|]. by repeat constructor; apply Hfresh.
    + rewrite fmap_app. simpl. apply sorted_snoc; [done|]. apply Forall_fmap.
      eapply Forall_impl; [exact H2|]. intros [j b'] [_ Hj]. simpl. lia.
    + rewrite Ho, Hp, H4. unfold at_indices. rewrite omap_app. solve_Permutation.
    + by apply Forall_app.
    + apply NoDup_app. split; [done|]. split.
      * intros j Hj [->|HjJ]%elem_of_cons; [done|]. destruct (HJ j HjJ) as [? Hnc].
        apply H7 in Hj as [[?|?] ?]; [lia|done].
      * constructor; [|done]. intros HiJ. destruct (HJ i HiJ). lia.
    + intros j. rewrite elem_of_app, elem_of_cons, H7, Hcons, elem_of_union, elem_of_list_to_set. split.
      * intros [[[?|?] ?]|[->|Hj]]; [split; [left; lia|done]|split; [right; by right|done]|split; [left; lia|done]|].
        destruct (HJ j Hj) as [[? ?] ?]. split; [right; by left|lia].
      * intros [[Hji|[Hj|Hj]] Hl]; [|right; by right|left; split; [by right|done]].
        destruct (decide (j = i)) as [->|]; [right; by left|]. left. split; [left; lia|done].
    + intros j. rewrite Hcons, elem_of_union, elem_of_list_to_set. intros [Hj|Hj]; [|by apply H8].
      destruct (HJ j Hj). lia.
Qed.

Lemma emitted_prefix anomalies i :
  (i <= length messages)%nat ->
  exists blocks used synths,
    emitted (fun j => j ∉ consumed (state_at anomalies j)) i (state_at anomalies i) blocks used synths.
Proof.
  induction i as [|i IH]; intros Hi.
  - exists [], [], []. split; simpl; [done|constructor|constructor|constructor|done|constructor|constructor| |set_solver].
    intros j. split; [set_solver|]. intros [[?|?] ?]; [lia|set_solver].
  - destruct IH as (blocks & used & synths & He); [lia|].
    rewrite state_at_S. eapply emitted_step; [lia|done|done].
Qed.

(** ** The output *)

Lemma mid_history_tools j :
  is_mid_history messages j = false ->
  forall k m, (j < k)%nat -> messages !! k = Some m -> is_tool m.
Proof.
  intros Hm k m Hk Hl. unfold is_mid_history in Hm.
  assert (Hd : drop (S j) messages !! (k - S j)%nat = Some m) by (rewrite lookup_drop; by replace (S j + (k - S j))%nat with k by lia).
  destruct (decide (role m = Tool)) as [|Hr]; [done|]. exfalso.
  apply not_true_iff_false in Hm. apply Hm, existsb_exists. exists m.
  split; [by apply list_elem_of_In, (list_elem_of_lookup_2 _ (k - S j)%nat)|]. by rewrite bool_decide_false.
Qed.

Lemma exchange_not_tool m : is_exchange m = true -> ~ is_tool m.
Proof.
  unfold is_exchange, is_tool. intros [Hr%bool_decide_eq_true _]%andb_true_iff. by rewrite Hr.
Qed.

Lemma blocks_wire blocks (plain : Message -> Prop) :
  StronglySorted lt (fst <$> blocks) -> Forall (fun '(j, b) => block_at j b) blocks ->
  (forall j b m, (j, b) ∈ blocks -> messages !! j = Some m -> is_exchange m = false -> plain m) ->
  wire plain (negb synthesize) (mjoin (snd <$> blocks)).
Proof.
  induction blocks as [|[j b] blocks IH]; intros Hs Hb Hp; simpl; [constructor|].
  apply StronglySorted_inv in Hs as [Hs Hj]. apply Forall_cons in Hb as [Hbj Hb].
  assert (Hw : wire plain (negb synthesize) (mjoin (snd <$> blocks))).
  { apply IH; [done|done|]. intros k b' m Hin. apply (Hp k b'). by right. }
  destruct Hbj as (m & Hm & Hblock). destruct (is_exchange m) eqn:Ee.
  - destruct Hblock as (rs & ids & -> & Hr & Hn & Hsub & Hcl). simpl.
    apply (wire_exchange _ _ m rs ids); try done.
    destruct (synthesize || is_mid_history messages j) eqn:Es; [by left; apply Hcl|right].
    apply orb_false_iff in Es as [Esy Emid]. rewrite Esy. split; [done|].
    apply Forall_join, Forall_fmap, Forall_forall. intros [k b'] Hin. simpl.
    rewrite Forall_forall in Hb. specialize (Hb _ Hin). simpl in Hb.
    assert (Hjk : (j < k)%nat).
    { rewrite Forall_forall in Hj. apply Hj. apply list_elem_of_fmap. by exists (k, b'). }
    destruct Hb as (m' & Hm' & Hb'). pose proof (mid_history_tools j Emid k m' Hjk Hm') as Ht.
    destruct (is_exchange m') eqn:Ee'; [by apply exchange_not_tool in Ee'|]. subst b'. by constructor.
  - subst b. simpl. constructor; [done| |done]. apply (Hp j [m]); [by left|done|done].
Qed.

Lemma at_indices_all : at_indices (seq 0 (length messages)) = messages.
Proof. apply lookup_all. Qed.

(** At the end every message is used up once. *)
Lemma emitted_all fresh s blocks used synths :
  emitted fresh (length messages) s blocks used synths -> r_out s ≡ₚ messages ++ synths.
Proof.
  intros [H1 H2 Hf H3 H4 H5 H6 H7 H8]. rewrite H4. apply Permutation_app_tail.
  assert (Hu : used ≡ₚ seq 0 (length messages)).
  { apply NoDup_Permutation; [done|apply NoDup_seq|]. intros j. rewrite H7, elem_of_seq. naive_solver lia. }
  rewrite <- at_indices_all at 1. unfold at_indices. by rewrite Hu.
Qed.
End repair.

Lemma repair_emitted messages options anomalies :
  exists blocks used synths,
    emitted messages (synthesize_missing options)
      (fun j => j ∉ consumed (state_at messages (synthesize_missing options) anomalies j)) (length messages)
      (state_at messages (synthesize_missing options) anomalies (length messages)) blocks used synths.
Proof. by apply emitted_prefix. Qed.

(** The repair loses no message and changes none: its output is the history in
    another order, with synthetic results added. *)
Theorem repair_keeps_messages messages options anomalies :
  exists synths,
    fst (repair_tool_exchange_adjacency messages options anomalies) ≡ₚ messages ++ synths /\
    Forall synthetic synths.
Proof.
  destruct (repair_emitted messages options anomalies) as (blocks & used & synths & Hem).
  exists synths. split; [|by destruct Hem]. exact (emitted_all _ _ _ _ _ _ _ Hem).
Qed.

(** Whatever the history, after the repair every message with tool calls is
    directly followed by results of its calls, one per call and no call left
    out, except in the last exchange, whose missing results may still come
    and are only made up when asked for. *)
Theorem repair_closes_exchanges messages options anomalies :
  wire (fun _ => True) (negb (synthesize_missing options))
    (fst (repair_tool_exchange_adjacency messages options anomalies)).
Proof.
  destruct (repair_emitted messages options anomalies) as (blocks & used & synths & [H1 H2 Hf H3 H4 H5 H6 H7 H8]).
  cbn [fst repair_tool_exchange_adjacency]. unfold state_at in H1. unfold repair_tool_exchange_adjacency. cbn [fst]. rewrite H1. apply (blocks_wire messages); [done| |done].
  eapply Forall_impl; [exact H2|]. by intros [j b] [Hb _].
Qed.

(** ** A well-formed history is left alone *)

(** Scanning past results that directly follow consumes them, and nothing more. *)
Lemma scan_adjacent messages pre rs ids rest out C anomalies (P : gset string) :
  messages = pre ++ rs ++ rest -> results rs ids -> NoDup ids -> P = list_to_set ids ->
  (forall j, (length pre <= j)%nat -> j ∉ C) ->
  foldl (scan_step messages) (mkRepair out C P false anomalies) (seq (length pre) (length rs + length rest)) =
  mkRepair (out ++ rs) (list_to_set (seq (length pre) (length rs)) ∪ C) ∅ false anomalies.
Proof.
  assert (Hdone : forall js s, pending s = ∅ -> foldl (scan_step messages) s js = s).
  { induction js as [|j js IH]; intros s Hs; [done|]. simpl. unfold scan_step at 2.
    rewrite bool_decide_true by done. by apply IH. }
  revert pre ids out C P. induction rs as [|m rs IH]; intros pre ids out C P Hm [Ht Hids] Hn HP HC.
  - destruct ids; [|done]. rewrite Hdone by (simpl; set_solver).
    rewrite app_nil_r. simpl. f_equal; set_solver.
  - destruct ids as [|id ids]; [done|]. injection Hids as Hid Hids.
    apply Forall_cons in Ht as [Hr Ht]. apply NoDup_cons in Hn as [Hnid Hn].
    cbn [length Nat.add seq foldl].
    assert (Hl : messages !! length pre = Some m).
    { rewrite Hm, lookup_app_r, Nat.sub_diag by lia. done. }
    assert (Hstep : scan_step messages (mkRepair out C P false anomalies) (length pre)
                    = mkRepair (out ++ [m]) ({[length pre]} ∪ C) (P ∖ {[id]}) false anomalies).
    { unfold scan_step. simpl. rewrite bool_decide_false by (subst P; set_solver).
      rewrite bool_decide_false by (apply HC; lia). rewrite Hl, Hr, Hid.
      by rewrite bool_decide_true by (subst P; set_solver). }
    rewrite Hstep. replace (S (length pre)) with (length (pre ++ [m])) by (rewrite length_app; simpl; lia).
    rewrite (IH (pre ++ [m]) ids).
    + rewrite <- app_assoc. f_equal. rewrite length_app. simpl.
      replace (length pre + 1)%nat with (S (length pre)) by lia. set_solver.
    + by rewrite <- app_assoc.
    + done.
    + done.
    + subst P. set_solver.
    + intros j. rewrite length_app. simpl. intros Hj Hin.
      apply elem_of_union in Hin as [Hin%elem_of_singleton|Hin]; [lia|]. apply (HC j); [lia|done].
Qed.

Lemma repair_suffix messages synthesize pre suf C P foreign anomalies :
  messages = pre ++ suf -> wire (fun _ => True) false suf ->
  (forall j, (length pre <= j)%nat -> j ∉ C) ->
  exists C' P' foreign',
    foldl (repair_step messages synthesize) (mkRepair pre C P foreign anomalies) (seq (length pre) (length suf))
    = mkRepair messages C' P' foreign' anomalies.
Proof.
  intros Hm Hw. revert pre C P foreign Hm.
  induction Hw as [|m l Hne _ _ IH|a rs ids l Hex Hr Hn Hsub Hcl _ IH]; intros pre C P foreign Hm HC.
  - exists C, P, foreign. simpl. by rewrite Hm, app_nil_r.
  - cbn [length seq foldl].
    assert (Hstep : repair_step messages synthesize (mkRepair pre C P foreign anomalies) (length pre)
                    = mkRepair (pre ++ [m]) C P foreign anomalies).
    { unfold repair_step. simpl. rewrite bool_decide_false by (apply HC; lia).
      rewrite Hm, lookup_app_r, Nat.sub_diag by lia. simpl. by rewrite Hne. }
    rewrite Hstep. replace (S (length pre)) with (length (pre ++ [m])) by (rewrite length_app; simpl; lia).
    apply IH; [by rewrite <- app_assoc|]. intros j. rewrite length_app. simpl. intros Hj. apply HC. lia.
  - destruct Hcl as [Hcl|[? _]]; [|done]. cbn [length seq foldl].
    assert (Hl : messages !! length pre = Some a) by (rewrite Hm, lookup_app_r, Nat.sub_diag by lia; done).
    assert (Hstep : repair_step messages synthesize (mkRepair pre C P foreign anomalies) (length pre)
                    = mkRepair (pre ++ a :: rs) (list_to_set (seq (S (length pre)) (length rs)) ∪ C) ∅ false anomalies).
    { unfold repair_step. cbn [consumed r_out r_anomalies]. rewrite bool_decide_false by (apply HC; lia).
      rewrite Hl, Hex. cbn [negb].
      assert (Hlen : (length messages - S (length pre) = length rs + length l)%nat)
        by (rewrite Hm, !length_app; simpl; rewrite length_app; lia).
      rewrite Hlen. replace (S (length pre)) with (length (pre ++ [a])) by (rewrite length_app; simpl; lia).
      rewrite (scan_adjacent messages (pre ++ [a]) rs ids l); try done.
      - cbn [pending r_out consumed foreign_between r_anomalies].
        rewrite elements_empty. simpl. rewrite !app_nil_r, <- app_assoc.
        by destruct (synthesize || _).
      - by rewrite Hm, <- app_assoc.
      - set_solver.
      - intros j. rewrite length_app. simpl. intros Hj. apply HC. lia. }
    rewrite Hstep. rewrite length_app, seq_app, foldl_app.
    assert (Hskip : forall n s,
      (forall j, (S (length pre) <= j < S (length pre) + n)%nat -> j ∈ consumed s) ->
      foldl (repair_step messages synthesize) s (seq (S (length pre)) n) = s).
    { induction n as [|n IHn]; intros s Hs; [done|]. rewrite seq_S, foldl_app. simpl.
      rewrite IHn by (intros j Hj; apply Hs; lia). unfold repair_step.
      by rewrite bool_decide_true by (apply Hs; lia). }
    rewrite Hskip by (intros j Hj; simpl; apply elem_of_union_l, elem_of_list_to_set, elem_of_seq; lia).
    replace (S (length pre) + length rs)%nat with (length (pre ++ a :: rs)) by (rewrite length_app; simpl; lia).
    apply IH; [by rewrite <- app_assoc|].
    intros j. rewrite length_app. simpl. intros Hj Hin.
    apply elem_of_union in Hin as [Hin|Hin].
    + apply elem_of_list_to_set, elem_of_seq in Hin. lia.
    + apply (HC j); [lia|done].
Qed.

(** The repair is the identity, without an anomaly, on a history whose
    exchanges are all closed: nothing is repaired that is not broken. *)
Theorem repair_leaves_valid messages options anomalies :
  wire (fun _ => True) false messages ->
  repair_tool_exchange_adjacency messages options anomalies = (messages, anomalies).
Proof.
  intros Hw. unfold repair_tool_exchange_adjacency.
  destruct (repair_suffix messages (synthesize_missing options) [] messages ∅ ∅ false anomalies)
    as (C & P & f & E); [done|done|set_solver|]. cbn [length] in E. by rewrite E.
Qed.

Definition closed_history : list Message :=
  [mkMessage Assistant None [] [mkToolCall "c1" "function" "Read" "{}"] None false;
   mkMessage Tool None [Text "done"] [] (Some "c1"%string) false].

Lemma repair_leaves_valid_witness :
  repair_tool_exchange_adjacency closed_history normal [] = (closed_history, []).
Proof.
  apply repair_leaves_valid.
  apply (wire_exchange _ _ _ [mkMessage Tool None [Text "done"] [] (Some "c1"%string) false] ["c1"%string] []);
    [reflexivity|split; [by constructor|reflexivity]|apply NoDup_singleton|done|by left|constructor].
Defined.
