(* ===== verification/StrictProjection.v ===== *)
(** * What the projection guarantees: the strict pipeline

    Deduplication, repair, merging and dropping together: what a provider
    that checks tool exchanges is sent, with an object for the arguments of
    every call. *)
From stdpp Require Import gmap list sorting.
From S2P Require Import Prelude RustStd EngineError Context Projector Exchanges.
#[local] Open Scope list_scope.

(** The call a tool result answers *)
Definition result_id (m : Message) : option string :=
  match role m with Tool => tool_call_id m | _ => None end.

(** No result comes before its call. *)
Fixpoint results_follow (l : list Message) : Prop :=
  match l with
  | [] => True
  | m :: l => (forall id, result_id m = Some id -> id ∉ tool_use_ids l) /\ results_follow l
  end.

Lemma tool_use_ids_app l k : tool_use_ids (l ++ k) = tool_use_ids l ++ tool_use_ids k.
Proof. unfold tool_use_ids. by rewrite fmap_app, join_app. Qed.

Lemma tool_use_ids_cons m l :
  tool_use_ids (m :: l) = (if bool_decide (role m = Assistant) then call_ids m else []) ++ tool_use_ids l.
Proof. done. Qed.

Lemma tool_use_ids_tools l : Forall is_tool l -> tool_use_ids l = [].
Proof.
  induction 1 as [|m l Hm _ IH]; [done|]. rewrite tool_use_ids_cons, IH.
  rewrite bool_decide_false; [done|]. by rewrite Hm.
Qed.

Lemma tool_use_ids_perm l k : l ≡ₚ k -> tool_use_ids l ≡ₚ tool_use_ids k.
Proof.
  induction 1; [done|by rewrite !tool_use_ids_cons; f_equiv| |by etrans].
  rewrite !tool_use_ids_cons. solve_Permutation.
Qed.

(** ** Deduplication *)

(** The second list is the first with messages left out or with fewer calls. *)
Inductive thinned : list Message -> list Message -> Prop :=
| thin_nil : thinned [] []
| thin_drop m l l' : thinned l l' -> thinned (m :: l) l'
| thin_keep m l l' : thinned l l' -> thinned (m :: l) (m :: l')
| thin_calls m calls l l' :
    calls ⊆ tool_calls m -> role m = Assistant -> thinned l l' -> thinned (m :: l) (set_tool_calls calls m :: l').

Lemma thinned_ids l l' : thinned l l' -> tool_use_ids l' ⊆ tool_use_ids l.
Proof.
  induction 1 as [|m l l' _ IH|m l l' _ IH|m calls l l' Hc Hr _ IH]; [done|..].
  - rewrite tool_use_ids_cons. set_solver.
  - rewrite !tool_use_ids_cons. set_solver.
  - rewrite !tool_use_ids_cons. simpl. rewrite Hr, !bool_decide_true by done.
    intros x [Hx|Hx]%elem_of_app; apply elem_of_app; [left|right; by apply IH].
    unfold call_ids in *. simpl in Hx. apply list_elem_of_fmap in Hx as (c & -> & Hc').
    apply list_elem_of_fmap. exists c. split; [done|by apply Hc].
Qed.

Lemma thinned_follow l l' : thinned l l' -> results_follow l -> results_follow l'.
Proof.
  induction 1 as [|m l l' Ht IH|m l l' Ht IH|m calls l l' Hc Hr Ht IH]; simpl; [done|..].
  - intros [_ Hf]. by apply IH.
  - intros [Hm Hf]. split; [|by apply IH]. intros id Hid Hin. by apply (Hm id Hid), (thinned_ids l l' Ht).
  - intros [_ Hf]. split; [|by apply IH]. unfold result_id. simpl. by rewrite Hr.
Qed.

Lemma thinned_app l l' k k' : thinned l l' -> thinned k k' -> thinned (l ++ k) (l' ++ k').
Proof.
  induction 1; simpl; intros; [done|apply thin_drop|apply thin_keep|apply thin_calls]; auto.
Qed.

Lemma keep_new_subset seen an calls kept seen' an' :
  keep_new_calls seen an calls = (kept, seen', an') -> kept ⊆ calls.
Proof.
  revert seen an kept seen' an'. induction calls as [|c calls IH]; intros seen an kept seen' an'; simpl.
  { intros [= <- _ _]. done. }
  case_bool_decide.
  - intros Hk. apply IH in Hk. set_solver.
  - destruct (keep_new_calls _ _ calls) as [[k s] a] eqn:Ek. intros [= <- _ _]. apply IH in Ek. set_solver.
Qed.

Definition result_ids (l : list Message) : list string := omap result_id l.

Lemma dedupe_step_spec s m :
  exists l', d_out (dedupe_step s m) = d_out s ++ l' /\ thinned [m] l' /\
    (NoDup (result_ids (d_out s)) -> list_to_set (result_ids (d_out s)) = seen_tool_result_ids s ->
     NoDup (result_ids (d_out (dedupe_step s m))) /\
     list_to_set (result_ids (d_out (dedupe_step s m))) = seen_tool_result_ids (dedupe_step s m)).
Proof.
  assert (Hnone : forall l, (forall x, x ∈ l -> result_id x = None) ->
            result_ids (d_out s ++ l) = result_ids (d_out s)).
  { intros l Hl. unfold result_ids. rewrite omap_app.
    assert (omap result_id l = []) as ->; [|by rewrite app_nil_r].
    induction l as [|x l IH]; [done|]. simpl. rewrite (Hl x) by by left. apply IH. intros y Hy. apply Hl. by right. }
  assert (Hkeep : result_id m = None -> forall s', d_out s' = d_out s ++ [m] ->
            seen_tool_result_ids s' = seen_tool_result_ids s ->
            exists l', d_out s' = d_out s ++ l' /\ thinned [m] l' /\
              (NoDup (result_ids (d_out s)) -> list_to_set (result_ids (d_out s)) = seen_tool_result_ids s ->
               NoDup (result_ids (d_out s')) /\ list_to_set (result_ids (d_out s')) = seen_tool_result_ids s')).
  { intros Hm s' Ho Hs. exists [m]. split; [done|]. split; [apply thin_keep, thin_nil|].
    rewrite Ho, Hs, Hnone; [by intros|]. intros x ->%list_elem_of_singleton. done. }
  unfold dedupe_step.
  destruct (bool_decide (role m = Assistant)) eqn:Er; cbn [andb].
  - apply bool_decide_eq_true in Er.
    assert (Hm : result_id m = None) by (unfold result_id; by rewrite Er).
    destruct (bool_decide (tool_calls m = [])); cbn [negb].
    { destruct (role m) eqn:E; try done. by apply Hkeep. }
    destruct (keep_new_calls _ _ _) as [[kept seen] an] eqn:Ek. apply keep_new_subset in Ek.
    destruct (length kept =? length (tool_calls m))%nat; [by apply Hkeep|].
    destruct (negb (bool_decide (kept = [])) || negb (bool_decide (content m = []))); simpl.
    + exists [set_tool_calls kept m]. split; [done|]. split; [by repeat constructor|].
      rewrite Hnone; [by intros|]. intros x ->%list_elem_of_singleton. unfold result_id. simpl. by rewrite Er.
    + exists []. split; [by rewrite app_nil_r|]. split; [repeat constructor|by intros].
  - destruct (role m) eqn:E; try (apply Hkeep; [unfold result_id; by rewrite E|done|done]).
    destruct (tool_call_id m) as [id|] eqn:Eid; [|apply Hkeep; [unfold result_id; by rewrite E|done|done]].
    clear Er. case_bool_decide as Hin; simpl.
    + exists []. split; [by rewrite app_nil_r|]. split; [repeat constructor|by intros].
    + exists [m]. split; [done|]. split; [apply thin_keep, thin_nil|]. intros Hn Hs.
      assert (Hr : result_ids (d_out s ++ [m]) = result_ids (d_out s) ++ [id]).
      { unfold result_ids. rewrite omap_app. simpl. unfold result_id at 2. by rewrite E, Eid. }
      rewrite Hr. split; [|rewrite list_to_set_app_L; set_solver].
      apply NoDup_app. split; [done|]. split; [|apply NoDup_singleton].
      intros x Hx ->%list_elem_of_singleton. apply Hin. rewrite <- Hs. by apply elem_of_list_to_set.
Qed.

Lemma dedupe_spec messages anomalies :
  thinned messages (fst (dedupe_duplicate_tool_calls messages anomalies)) /\
  NoDup (result_ids (fst (dedupe_duplicate_tool_calls messages anomalies))).
Proof.
  unfold dedupe_duplicate_tool_calls. cbn [fst].
  assert (Hgo : forall l s, NoDup (result_ids (d_out s)) -> list_to_set (result_ids (d_out s)) = seen_tool_result_ids s ->
    exists l', d_out (foldl dedupe_step s l) = d_out s ++ l' /\ thinned l l' /\
               NoDup (result_ids (d_out (foldl dedupe_step s l)))).
  { induction l as [|m l IH]; intros s Hn Hs.
    - exists []. rewrite app_nil_r. repeat split; [constructor|done].
    - destruct (dedupe_step_spec s m) as (l1 & Ho & Ht & Hk). destruct (Hk Hn Hs) as [Hn' Hs'].
      destruct (IH (dedupe_step s m) Hn' Hs') as (l2 & Ho2 & Ht2 & Hn2).
      exists (l1 ++ l2). simpl. rewrite Ho2, Ho, <- app_assoc. repeat split; [|by rewrite Ho2, Ho, <- app_assoc in Hn2].
      by apply (thinned_app [m] l1). }
  destruct (Hgo messages (mkDedupe ∅ ∅ [] anomalies)) as (l' & Ho & Ht & Hn); [constructor|done|].
  rewrite Ho in *. simpl in *. done.
Qed.

(** ** Repair *)

(** Every result of the history answers a call of its own. *)
Definition unique_results (messages : list Message) : Prop :=
  forall i j m m' id, messages !! i = Some m -> messages !! j = Some m' ->
    result_id m = Some id -> result_id m' = Some id -> i = j.

Lemma unique_from_nodup messages : NoDup (result_ids messages) -> unique_results messages.
Proof.
  induction messages as [|x l IH]; intros Hn i j m m' id Hi Hj Hm Hm'; [done|].
  unfold result_ids in Hn. simpl in Hn.
  assert (Hin : forall k y, l !! k = Some y -> result_id y = Some id -> id ∈ omap result_id l).
  { intros k y Hk Hy. apply list_elem_of_omap. exists y. split; [by eapply list_elem_of_lookup_2|done]. }
  destruct i as [|i], j as [|j]; simpl in Hi, Hj; [done|..].
  - injection Hi as ->. rewrite Hm in Hn. apply NoDup_cons in Hn as [Hn _]. exfalso. eauto.
  - injection Hj as ->. rewrite Hm' in Hn. apply NoDup_cons in Hn as [Hn _]. exfalso. eauto.
  - f_equal. eapply IH; eauto. destruct (result_id x); [|done]. by apply NoDup_cons in Hn as [_ Hn].
Qed.

Section orphans.
Variables (messages : list Message) (synthesize : bool).
Hypothesis Hunique : unique_results messages.

Lemma result_is_tool m id : result_id m = Some id -> role m = Tool /\ tool_call_id m = Some id.
Proof. unfold result_id. by destruct (role m). Qed.

Lemma scan_step_grows s j : consumed s ⊆ consumed (scan_step messages s j).
Proof. unfold scan_step. repeat case_match; simpl; set_solver. Qed.

Lemma scan_grows js s : consumed s ⊆ consumed (foldl (scan_step messages) s js).
Proof.
  revert s. induction js as [|j js IH]; intros s; simpl; [done|]. etrans; [apply scan_step_grows|apply IH].
Qed.

(** A scan over the result of a pending call moves it. *)
Lemma scan_takes js s j m id :
  j ∈ js -> messages !! j = Some m -> result_id m = Some id -> id ∈ pending s ->
  j ∈ consumed (foldl (scan_step messages) s js).
Proof.
  revert s. induction js as [|k js IH]; intros s Hj Hm Hid Hp; [by apply not_elem_of_nil in Hj|].
  destruct (result_is_tool m id Hid) as [Hr Ht]. cbn [foldl].
  destruct (decide (k = j)) as [->|Hne].
  - apply scan_grows. unfold scan_step. rewrite bool_decide_false by set_solver.
    case_bool_decide as Hc; [done|]. rewrite Hm, Hr, Ht. rewrite bool_decide_true by done. simpl. set_solver.
  - apply elem_of_cons in Hj as [?|Hj]; [done|]. apply IH; [done..|].
    unfold scan_step. case_bool_decide; [done|]. case_bool_decide; [done|].
    destruct (messages !! k) as [next|] eqn:Ek; [|done].
    destruct (role next) eqn:Er; try done. destruct (tool_call_id next) as [id'|] eqn:Et; [|done].
    case_bool_decide; [|done]. simpl. apply elem_of_difference. split; [done|].
    intros ->%elem_of_singleton. apply Hne. eapply Hunique; [done..| |done]. unfold result_id. by rewrite Er.
Qed.

Lemma repair_step_grows s i : consumed s ⊆ consumed (repair_step messages synthesize s i).
Proof.
  unfold repair_step. repeat case_match; simpl; try done;
    match goal with |- context [foldl _ ?s0 ?js] => exact (scan_grows js s0) end.
Qed.

(** Only tool results are moved. *)
Definition moves_tools (s : Repair) : Prop :=
  forall j m, j ∈ consumed s -> messages !! j = Some m -> role m = Tool.

Lemma scan_moves_tools js s : moves_tools s -> moves_tools (foldl (scan_step messages) s js).
Proof.
  revert s. induction js as [|k js IH]; intros s Hs; simpl; [done|]. apply IH. clear IH.
  unfold scan_step. case_bool_decide; [done|]. case_bool_decide; [done|].
  destruct (messages !! k) as [next|] eqn:Ek; [|done].
  destruct (role next) eqn:Er; try done. destruct (tool_call_id next) as [id'|] eqn:Et; [|done].
  case_bool_decide; [|done]. intros j m Hj Hm. simpl in Hj.
  apply elem_of_union in Hj as [->%elem_of_singleton|Hj]; [congruence|by eapply Hs].
Qed.

Lemma state_moves_tools anomalies i : moves_tools (state_at messages synthesize anomalies i).
Proof.
  induction i as [|i IH]; [intros j m Hj; set_solver|]. rewrite state_at_S. unfold repair_step.
  case_bool_decide; [done|]. destruct (messages !! i) as [m|]; [|done]. case_match; [done|].
  match goal with |- context [foldl ?f ?s0 ?js] => pose proof (scan_moves_tools js s0 IH) as Hs end.
  by destruct (_ || _).
Qed.

(** The exchanges before an index have moved their results. *)
Lemma answered_before anomalies i k a j m id :
  (k < i)%nat -> messages !! k = Some a -> is_exchange a = true -> id ∈ call_ids a ->
  (k < j)%nat -> messages !! j = Some m -> result_id m = Some id ->
  j ∈ consumed (state_at messages synthesize anomalies i).
Proof.
  intros Hk Ha He Hc Hkj Hm Hid. induction i as [|i IH]; [lia|]. rewrite state_at_S.
  destruct (decide (k = i)) as [->|]; [|apply repair_step_grows, IH; lia]. clear IH.
  set (s := state_at messages synthesize anomalies i).
  assert (Hic : i ∉ consumed s).
  { intros Hic. apply exchange_not_tool in He. by apply He, (state_moves_tools anomalies i i). }
  unfold repair_step. rewrite bool_decide_false by done. rewrite Ha, He. cbn [negb].
  match goal with |- context [foldl ?f ?s0 ?js] => assert (Hin : j ∈ consumed (foldl f s0 js)) end.
  { apply (scan_takes _ _ j m id); [|done|done|simpl; by apply elem_of_list_to_set].
    apply elem_of_seq. apply lookup_lt_Some in Hm. lia. }
  by destruct (_ || _).
Qed.

(** A result the repair leaves on its own answers no call of the history. *)
Lemma left_results_orphan anomalies i m id :
  results_follow messages -> messages !! i = Some m -> result_id m = Some id ->
  i ∉ consumed (state_at messages synthesize anomalies i) -> id ∉ tool_use_ids messages.
Proof.
  intros Hf Hm Hid Hc Hin.
  assert (Hex : exists k a, (k < i)%nat /\ messages !! k = Some a /\ is_exchange a = true /\ id ∈ call_ids a).
  { clear Hc Hunique. revert i Hm Hin. induction messages as [|x l IH]; intros i Hm Hin; [done|].
    destruct Hf as [Hx Hf]. rewrite tool_use_ids_cons in Hin.
    assert (Hx' : id ∈ (if bool_decide (role x = Assistant) then call_ids x else []) ->
                  is_exchange x = true /\ id ∈ call_ids x).
    { unfold is_exchange. case_bool_decide; [|by intros ?%not_elem_of_nil]. intros Hi. split; [|done].
      destruct (tool_calls x) eqn:E; [|done]. unfold call_ids in Hi. rewrite E in Hi. by apply not_elem_of_nil in Hi. }
    destruct i as [|i]; simpl in Hm.
    - injection Hm as ->. apply elem_of_app in Hin as [Hin|Hin]; [|by destruct (Hx id Hid)].
      destruct (Hx' Hin) as [He _]. apply exchange_not_tool in He.
      by destruct (result_is_tool m id Hid) as [Hr _].
    - apply elem_of_app in Hin as [Hin|Hin].
      + destruct (Hx' Hin). exists 0%nat, x. repeat split; [lia|done..].
      + destruct (IH Hf i Hm Hin) as (k & a & Hk & Ha & He & Hi). exists (S k), a. repeat split; [lia|done..]. }
  destruct Hex as (k & a & Hk & Ha & He & Hi). apply Hc. by eapply answered_before.
Qed.
End orphans.

Lemma repair_strict messages options anomalies :
  unique_results messages -> results_follow messages ->
  let out := fst (repair_tool_exchange_adjacency messages options anomalies) in
  wire (fun m => forall id, result_id m = Some id -> id ∉ tool_use_ids out)
    (negb (synthesize_missing options)) out.
Proof.
  intros Hu Hf out.
  destruct (repair_emitted messages options anomalies) as (blocks & used & synths & Hem).
  pose proof Hem as [H1 H2 Hfr H3 H4 H5 H6 H7 H8].
  set (st := state_at messages (synthesize_missing options) anomalies (length messages)) in *.
  change out with (r_out st) in *.
  assert (Hids : forall id, id ∈ tool_use_ids (r_out st) -> id ∈ tool_use_ids messages).
  { intros id. assert (Hp : r_out st ≡ₚ messages ++ synths).
    { by eapply emitted_all. }
    rewrite (tool_use_ids_perm _ _ Hp), tool_use_ids_app.
    rewrite (tool_use_ids_tools synths), app_nil_r; [done|].
    eapply Forall_impl; [exact H5|]. by intros m [x ->]. }
  enough (wire (fun m => forall id, result_id m = Some id -> id ∉ tool_use_ids (r_out st))
            (negb (synthesize_missing options)) (mjoin (snd <$> blocks))) as Hw by by rewrite <- H1 in Hw.
  apply (blocks_wire messages); [done| |].
  - eapply Forall_impl; [exact H2|]. by intros [j b] [Hb _].
  - intros j b m Hin Hm He id Hid Hx. apply Hids in Hx. revert Hx.
    rewrite Forall_forall in Hfr. specialize (Hfr _ Hin). simpl in Hfr.
    by eapply left_results_orphan.
Qed.

(** ** Merging assistants *)

Definition is_assistant (m : Message) : bool := bool_decide (role m = Assistant).
Definition merged (prev m : Message) : Message :=
  set_tool_calls (tool_calls prev ++ tool_calls m) (set_content (content prev ++ content m) prev).

(** The merge as a recursion from the front *)
Fixpoint merge_front (fuel : nat) (l : list Message) : list Message :=
  match fuel, l with
  | S fuel, m :: n :: l =>
    if is_assistant m && is_assistant n then merge_front fuel (merged m n :: l) else m :: merge_front fuel (n :: l)
  | _, _ => l
  end.

Lemma merge_step_app o out an m :
  out <> [] ->
  merge_assistant_step (o ++ out, an) m =
  (o ++ fst (merge_assistant_step (out, an) m), snd (merge_assistant_step (out, an) m)).
Proof.
  intros Hne. unfold merge_assistant_step. destruct (last out) as [prev|] eqn:El.
  2: { by apply last_None in El. }
  apply last_Some in El as [init ->]. rewrite app_assoc, last_snoc.
  destruct (_ && _); simpl; [|by rewrite !app_assoc].
  by rewrite !removelast_last, <- app_assoc.
Qed.

Lemma app_not_nil {A} (l : list A) x : l ++ [x] <> [].
Proof. by destruct l. Qed.

Lemma merge_step_not_nil out an m : fst (merge_assistant_step (out, an) m) <> [].
Proof.
  unfold merge_assistant_step. destruct (last out); [destruct (_ && _)|]; simpl; apply app_not_nil.
Qed.

Lemma merge_fold_app l o out an :
  out <> [] ->
  fst (foldl merge_assistant_step (o ++ out, an) l) = o ++ fst (foldl merge_assistant_step (out, an) l).
Proof.
  revert out an. induction l as [|m l IH]; intros out an Hne; [done|]. cbn [foldl].
  rewrite merge_step_app by done.
  pose proof (merge_step_not_nil out an m) as Hn.
  destruct (merge_assistant_step (out, an) m) as [out' an'] eqn:E. simpl in *. by apply IH.
Qed.

Lemma merge_fold_front fuel l m an :
  (length l <= fuel)%nat -> fst (foldl merge_assistant_step ([m], an) l) = merge_front fuel (m :: l).
Proof.
  revert l m an. induction fuel as [|fuel IH]; intros l m an Hl.
  { destruct l; [done|simpl in Hl; lia]. }
  destruct l as [|n l]; [done|]. cbn [foldl merge_front]. simpl in Hl.
  unfold merge_assistant_step at 2. simpl. unfold is_assistant.
  destruct (bool_decide (role m = Assistant) && bool_decide (role n = Assistant)) eqn:E.
  - rewrite (IH l (merged m n)) by lia. done.
  - change [m; n] with ([m] ++ [n]). rewrite merge_fold_app by done. rewrite (IH l n) by lia. done.
Qed.

Lemma merge_is_front messages an :
  fst (merge_consecutive_assistants messages an) = merge_front (length messages) messages.
Proof.
  unfold merge_consecutive_assistants. destruct messages as [|m l]; [done|]. cbn [foldl length].
  change (merge_assistant_step ([], an) m) with ([m], an). by apply merge_fold_front; lia.
Qed.

Lemma merge_front_fuel f1 f2 l :
  (length l <= f1)%nat -> (length l <= f2)%nat -> merge_front f1 l = merge_front f2 l.
Proof.
  destruct l as [|m l]; [by destruct f1, f2|]. simpl. intros H1 H2.
  rewrite <- (merge_fold_front f1 l m []), <- (merge_fold_front f2 l m []) by lia. done.
Qed.

Lemma merge_front_tools fuel l : Forall is_tool l -> merge_front fuel l = l.
Proof.
  revert l. induction fuel as [|fuel IH]; intros l Hl; [done|]. destruct l as [|m [|n l]]; [done..|].
  cbn [merge_front]. apply Forall_cons in Hl as [Hm Hl].
  unfold is_assistant at 1. rewrite bool_decide_false by by rewrite Hm. cbn [andb]. f_equal. by apply IH.
Qed.

Lemma merge_front_skip fuel rs l :
  Forall is_tool rs -> (length (rs ++ l) <= fuel)%nat ->
  exists fuel', (length l <= fuel')%nat /\ merge_front fuel (rs ++ l) = rs ++ merge_front fuel' l.
Proof.
  revert fuel. induction rs as [|r rs IH]; intros fuel Hr Hl; [by exists fuel|].
  apply Forall_cons in Hr as [Ht Hr]. destruct fuel as [|fuel]; [simpl in Hl; lia|]. simpl in Hl.
  destruct (rs ++ l) as [|n k] eqn:E.
  - apply app_eq_nil in E as [-> ->]. exists 0%nat. split; [done|]. simpl. done.
  - destruct (IH fuel Hr) as (f' & Hf' & Hm); [simpl in *; lia|].
    exists f'. split; [done|]. cbn [app]. rewrite E. cbn [merge_front].
    unfold is_assistant at 1. rewrite bool_decide_false by by rewrite Ht. cbn [andb]. by rewrite Hm.
Qed.

(** Merging keeps the grammar: only assistants without calls are followed by
    another assistant. *)
Lemma merge_front_wire (X : list string) open fuel l :
  (length l <= fuel)%nat ->
  wire (fun m => forall id, result_id m = Some id -> id ∉ X) open l ->
  wire (fun m => forall id, result_id m = Some id -> id ∉ X) open (merge_front fuel l).
Proof.
  revert l. induction fuel as [|fuel IH]; intros l Hl Hw; [done|].
  inversion Hw as [|m k Hne Hp Hk|a rs ids k Hex Hr Hn Hsub Hcl Hk]; subst; [done| |].
  - destruct k as [|n k]; [done|]. cbn [merge_front]. simpl in Hl.
    destruct (is_assistant m && is_assistant n) eqn:E; [|constructor; [done|done|apply IH; [simpl; lia|done]]].
    apply andb_true_iff in E as [Em En]. apply bool_decide_eq_true in Em, En.
    assert (Hcalls : tool_calls m = []).
    { unfold is_exchange in Hne. rewrite bool_decide_true in Hne by done. simpl in Hne.
      by apply negb_false_iff, bool_decide_eq_true in Hne. }
    assert (Hmx : is_exchange (merged m n) = is_exchange n).
    { unfold is_exchange, merged. simpl. by rewrite Hcalls, Em, En. }
    apply IH; [simpl; lia|].
    inversion Hk as [|n' k' Hne' Hp' Hk'|a rs ids k' Hex Hr Hn Hsub Hcl Hk']; subst.
    + constructor; [by rewrite Hmx| |done]. intros id. unfold result_id. simpl. by rewrite Em.
    + assert (Hids : call_ids (merged m n) = call_ids n).
      { unfold call_ids, merged. simpl. by rewrite Hcalls. }
      apply (wire_exchange _ _ (merged m n) rs ids); rewrite ?Hmx, ?Hids; done.
  - destruct fuel as [|fuel].
    { destruct (rs ++ k) as [|n l'] eqn:E; [exact Hw|simpl in Hl; lia]. }
    assert (Hstop : merge_front (S (S fuel)) (a :: rs ++ k) = a :: merge_front (S fuel) (rs ++ k)).
    { destruct (rs ++ k) as [|n l'] eqn:E; [done|]. cbn [merge_front].
      assert (Hn' : is_assistant n = false).
      { destruct rs as [|r rs]; simpl in E; [subst k|injection E as <- <-].
        - destruct Hr as [_ Hids]. destruct ids; [|done].
          unfold is_exchange in Hex. apply andb_true_iff in Hex as [_ Hex].
          destruct Hcl as [Hcl|[_ Hcl]].
          + unfold call_ids in Hcl. destruct (tool_calls a) as [|c cs]; [done|].
            assert (tc_id c ∈ @nil string) by (apply Hcl; by left). by apply not_elem_of_nil in H.
          + apply Forall_cons in Hcl as [Ht _]. unfold is_assistant. rewrite bool_decide_false; [done|]. by rewrite Ht.
        - destruct Hr as [Hr _]. apply Forall_cons in Hr as [Ht _].
          unfold is_assistant. rewrite bool_decide_false; [done|]. by rewrite Ht. }
      by rewrite Hn', andb_false_r. }
    rewrite Hstop. destruct Hr as [Ht Hids]. simpl in Hl.
    destruct (merge_front_skip (S fuel) rs k Ht) as (f' & Hf' & ->); [lia|].
    apply (wire_exchange _ _ a rs ids); try done.
    + destruct Hcl as [Hcl|[Ho Hcl]]; [by left|right]. split; [done|]. by rewrite merge_front_tools.
    + rewrite (merge_front_fuel f' (S fuel)) by (rewrite length_app in Hl; lia).
      apply IH; [rewrite length_app in Hl; lia|done].
Qed.

Lemma merge_front_ids fuel l : tool_use_ids (merge_front fuel l) = tool_use_ids l.
Proof.
  revert l. induction fuel as [|fuel IH]; intros l; [done|]. destruct l as [|m [|n l]]; [done..|].
  cbn [merge_front]. destruct (is_assistant m && is_assistant n) eqn:E.
  - rewrite IH, !tool_use_ids_cons. apply andb_true_iff in E as [Em En]. unfold is_assistant in *.
    simpl. rewrite Em, En, app_assoc. f_equal. unfold call_ids, merged. simpl. by rewrite fmap_app.
  - by rewrite tool_use_ids_cons, IH, !tool_use_ids_cons.
Qed.

(** ** Dropping orphans and leading messages *)

Lemma orphan_spec ids m : is_orphan ids m = true <-> exists id, result_id m = Some id /\ id ∉ ids.
Proof.
  unfold is_orphan, result_id. destruct (role m), (tool_call_id m) as [id|]; try (naive_solver; fail).
  rewrite negb_true_iff, bool_decide_eq_false. naive_solver.
Qed.

Lemma drop_orphans_wire (X : list string) open l :
  tool_use_ids l ⊆ X -> wire (fun m => forall id, result_id m = Some id -> id ∉ X) open l ->
  wire (fun m => result_id m = None) open (List.filter (fun m => negb (is_orphan X m)) l).
Proof.
  intros Hids Hw. induction Hw as [|m l Hne Hp _ IH|a rs ids l Hex Hr Hn Hsub Hcl _ IH]; [constructor| |].
  - simpl. destruct (is_orphan X m) eqn:Eo; simpl; [apply IH; rewrite tool_use_ids_cons in Hids; set_solver|].
    constructor; [done| |apply IH; rewrite tool_use_ids_cons in Hids; set_solver].
    destruct (result_id m) as [id|] eqn:Eid; [|done]. exfalso. apply not_true_iff_false in Eo. apply Eo.
    apply orphan_spec. eauto.
  - rewrite tool_use_ids_cons, tool_use_ids_app in Hids.
    assert (Ha : is_assistant a = true).
    { unfold is_exchange in Hex. by apply andb_true_iff in Hex as [? _]. }
    unfold is_assistant in Ha. rewrite Ha in Hids.
    assert (Hkeep_a : is_orphan X a = false).
    { apply not_true_iff_false. rewrite orphan_spec. intros (id & Hid & _). unfold result_id in Hid.
      apply bool_decide_eq_true in Ha. by rewrite Ha in Hid. }
    assert (Hkeep : List.filter (fun m => negb (is_orphan X m)) rs = rs).
    { destruct Hr as [Ht Heq]. apply forallb_filter_id, forallb_forall. intros m Hm.
      apply negb_true_iff, not_true_iff_false. rewrite orphan_spec. intros (id & Hid & Hx). apply Hx.
      apply list_elem_of_In in Hm. apply result_is_tool in Hid as [_ Hid].
      assert (Hin : Some id ∈ Some <$> ids) by (rewrite <- Heq, <- Hid; by apply list_elem_of_fmap_2).
      apply list_elem_of_fmap in Hin as (y & [= <-] & Hin). apply Hids, elem_of_app. left. by apply Hsub. }
    simpl. rewrite Hkeep_a. simpl. rewrite List.filter_app, Hkeep.
    apply (wire_exchange _ _ a rs ids); try done; [|apply IH; set_solver].
    destruct Hcl as [Hcl|[Ho Hcl]]; [by left|right]. split; [done|].
    rewrite Forall_forall in *. intros m Hm. apply Hcl. apply list_elem_of_In in Hm.
    apply filter_In in Hm as [Hm _]. by apply list_elem_of_In.
Qed.

Lemma drop_leading_skip rs l an :
  Forall is_tool rs -> exists an', drop_leading_non_user (rs ++ l) an = drop_leading_non_user l an'.
Proof.
  intros Hr. revert an. induction Hr as [|m rs Hm _ IH]; intros an; simpl; [by exists an|].
  rewrite bool_decide_false by by rewrite Hm. apply IH.
Qed.

Lemma drop_leading_wire (plain : Message -> Prop) open l an :
  wire plain open l ->
  wire plain open (fst (drop_leading_non_user l an)) /\
  forall m, head (fst (drop_leading_non_user l an)) = Some m -> role m = UserRole.
Proof.
  intros Hw. revert an. induction Hw as [|m l Hne Hp Hw IH|a rs ids l Hex Hr Hn Hsub Hcl Hw IH]; intros an.
  - split; [constructor|done].
  - cbn [drop_leading_non_user]. case_bool_decide as Hu; [|apply IH].
    split; [by constructor|]. by intros ? [= <-].
  - cbn [drop_leading_non_user]. rewrite bool_decide_false.
    + destruct (drop_leading_skip rs l (an ++ [LeadingNonUserDropped])) as [an' ->]; [by destruct Hr|]. apply IH.
    + unfold is_exchange in Hex. apply andb_true_iff in Hex as [Ha%bool_decide_eq_true _]. by rewrite Ha.
Qed.

(** ** The strict projections *)

(** C33. What the strict projections send, for a history in which no result comes
    before its call: the first message is the user's; every message with tool
    calls is directly followed by one result for each of its calls, except
    possibly the last exchange; and there is no other tool result. *)
Theorem strict_sends_valid messages options anomalies :
  options ∈ [strict; stripped; stripped_format_rejected] ->
  results_follow messages ->
  let out := fst (repair_pipeline options (messages, anomalies)) in
  wire (fun m => result_id m = None) true out /\
  forall m, head out = Some m -> role m = UserRole.
Proof.
  intros Ho Hf.
  assert (Hflags : o_dedupe_duplicate_tool_calls options = true /\ o_merge_consecutive_assistants options = true /\
    drop_orphan_results options = true /\ o_drop_leading_non_user options = true /\
    micro_compaction_keep_recent options = None /\ synthesize_missing options = false).
  { repeat (apply elem_of_cons in Ho as [->|Ho]); [done..|by apply not_elem_of_nil in Ho]. }
  destruct Hflags as (E1 & E2 & E3 & E4 & E5 & E6). unfold repair_pipeline. rewrite E1, E2, E3, E4, E5. cbn [when].
  destruct (dedupe_spec messages anomalies) as [Hthin Hnd].
  destruct (dedupe_duplicate_tool_calls messages anomalies) as [ms an]. cbn [fst snd] in *.
  pose proof (repair_strict ms options an (unique_from_nodup _ Hnd) (thinned_follow _ _ Hthin Hf)) as Hw.
  cbn zeta in Hw. rewrite E6 in Hw.
  destruct (repair_tool_exchange_adjacency ms options an) as [out an1]. cbn [fst] in Hw.
  apply (merge_front_wire _ _ (length out)) in Hw; [|done].
  pose proof (merge_is_front out an1) as Hm.
  destruct (merge_consecutive_assistants out an1) as [out2 an2]. cbn [fst] in Hm. rewrite <- Hm in Hw.
  assert (Hids : tool_use_ids out2 = tool_use_ids out) by (rewrite Hm; apply merge_front_ids).
  unfold drop_orphan_tool_results. rewrite Hids.
  apply drop_orphans_wire in Hw; [|by rewrite Hids].
  eapply drop_leading_wire in Hw. exact Hw.
Qed.

(** ** The arguments of the calls *)

Section arguments.
Variable is_json_object : string -> bool.

Definition calls_ok (m : Message) : Prop :=
  role m = Assistant -> Forall (fun c => is_json_object (fn_arguments c) = true) (tool_calls m).

Lemma calls_ok_prepared history out anomalies strip format counter threshold out' anomalies' :
  is_json_object "{}" = true ->
  Forall (fun m => calls_ok (message m)) out ->
  merge_loop is_json_object history out anomalies strip format counter threshold = Ok (out', anomalies') ->
  Forall (fun m => calls_ok (message m)) out'.
Proof.
  intros Hobj. revert out anomalies counter.
  induction history as [|m history IH]; intros out anomalies counter Hout; simpl; [by intros [= <- _]|].
  destruct (is_model_switch m); [by apply IH|].
  destruct (prepare_message_for_projection _ _ _ _ _ _ _) as [[[prepared an] c]|e] eqn:Ep; [|done].
  apply IH. destruct prepared as [msg|]; [|done].
  assert (Hmsg : calls_ok (message msg)).
  { unfold prepare_message_for_projection in Ep. destruct (partial (message m)); [done|].
    destruct (if strip then _ else _) as [parts c1].
    destruct (bool_decide (role (message m) = Tool) && _); [done|].
    set (cs := if bool_decide (role (message m) = Assistant) then _ else _) in Ep.
    destruct (_ && bool_decide (cs = [])); [done|]. injection Ep as <- _ _.
    unfold calls_ok. simpl. intros Hr. unfold cs. rewrite bool_decide_true by done.
    apply Forall_fmap, Forall_forall. intros call _. simpl. unfold sanitize_call.
    by destruct (is_json_object (fn_arguments call)) eqn:E. }
  assert (Happ : Forall (fun m => calls_ok (message m)) (out ++ [msg])).
  { apply Forall_app. split; [done|by constructor]. }
  unfold push_merged. destruct (last out) as [prev|] eqn:El; [|exact Happ].
  apply last_Some in El as [init ->].
  destruct (_ && _); [|exact Happ].
  rewrite removelast_last. apply Forall_app in Hout as [Hi Hp]. apply Forall_app. split; [done|].
  constructor; [|done]. unfold calls_ok. simpl. done.
Qed.

Lemma calls_ok_thinned l l' : thinned l l' -> Forall calls_ok l -> Forall calls_ok l'.
Proof.
  induction 1 as [|m l l' Ht IH|m l l' Ht IH|m calls l l' Hc Hr Ht IH]; [done|..];
    intros [Hm Hl]%Forall_cons; [by apply IH|by constructor; auto|].
  constructor; [|by apply IH]. unfold calls_ok in *. simpl. intros _. specialize (Hm Hr).
  rewrite Forall_forall in *. auto.
Qed.

Lemma calls_ok_merge fuel l : Forall calls_ok l -> Forall calls_ok (merge_front fuel l).
Proof.
  revert l. induction fuel as [|fuel IH]; intros l Hl; [done|]. destruct l as [|m [|n l]]; [done..|].
  apply Forall_cons in Hl as [Hm Hl]. cbn [merge_front].
  destruct (is_assistant m && is_assistant n) eqn:E; [|constructor; [done|by apply IH]].
  apply andb_true_iff in E as [Em%bool_decide_eq_true En%bool_decide_eq_true].
  apply Forall_cons in Hl as [Hn Hl]. apply IH. constructor; [|done].
  intros _. simpl. apply Forall_app. auto.
Qed.

Lemma calls_ok_leading l an : Forall calls_ok l -> Forall calls_ok (fst (drop_leading_non_user l an)).
Proof.
  revert an. induction l as [|m l IH]; intros an Hl; [done|]. simpl.
  case_bool_decide; [done|]. apply IH. by apply Forall_cons in Hl as [_ Hl].
Qed.

Lemma calls_ok_compacted l keep min marker :
  Forall calls_ok l -> Forall calls_ok (apply_micro_compaction l keep min marker).
Proof.
  unfold apply_micro_compaction. case_bool_decide; [done|]. intros Hl.
  apply Forall_lookup. intros i m Hi. rewrite list_lookup_imap in Hi.
  destruct (l !! i) as [x|] eqn:Ex; [|done]. simpl in Hi. injection Hi as <-.
  rewrite Forall_lookup in Hl. specialize (Hl i x Ex). by destruct (_ && _ && _ && _).
Qed.

(** Whatever was stored, every call that is sent has an object for its
    arguments, in every projection. *)
Theorem arguments_are_objects history options out m :
  is_json_object "{}" = true ->
  project is_json_object history options = Ok out -> m ∈ out -> calls_ok m.
Proof.
  intros Hobj. unfold project, project_with_anomalies, merge_adjacent_user_messages.
  destruct (merge_loop _ _ _ _ _ _ _ _) as [[ms an]|e] eqn:El; [|done].
  apply calls_ok_prepared in El; [|done|constructor]. intros [= <-]. revert m. apply Forall_forall.
  assert (Hms : Forall calls_ok (strip_context_metadata <$> ms)) by by apply Forall_fmap.
  revert Hms. generalize (strip_context_metadata <$> ms). clear El ms. intros ms Hms. unfold repair_pipeline.
  assert (H2 : Forall calls_ok (fst (when (o_dedupe_duplicate_tool_calls options)
            (fun '(result, anomalies) => dedupe_duplicate_tool_calls result anomalies) (ms, an)))).
  { destruct (o_dedupe_duplicate_tool_calls options); [|done]. cbn [when].
    eapply calls_ok_thinned; [apply dedupe_spec|done]. }
  destruct (when _ _ (ms, an)) as [l2 an2]. cbn [fst snd] in *.
  assert (H3 : Forall calls_ok (fst (repair_tool_exchange_adjacency l2 options an2))).
  { destruct (repair_emitted l2 options an2) as (blocks & used & synths & Hem).
    change (Forall calls_ok (r_out (state_at l2 (synthesize_missing options) an2 (length l2)))).
    rewrite (emitted_all _ _ _ _ _ _ _ Hem). apply Forall_app. split; [done|].
    eapply Forall_impl; [exact (em_synths _ _ _ _ _ _ _ _ Hem)|]. by intros x [id ->]. }
  destruct (repair_tool_exchange_adjacency l2 options an2) as [l3 an3]. cbn [fst] in H3.
  assert (H4 : Forall calls_ok (fst (when (o_merge_consecutive_assistants options)
            (fun '(result, anomalies) => merge_consecutive_assistants result anomalies) (l3, an3)))).
  { destruct (o_merge_consecutive_assistants options); [|done]. cbn [when].
    rewrite merge_is_front. by apply calls_ok_merge. }
  destruct (when _ _ (l3, an3)) as [l4 an4]. cbn [fst] in H4.
  assert (H5 : Forall calls_ok (fst (when (drop_orphan_results options)
            (fun '(result, anomalies) => drop_orphan_tool_results result anomalies) (l4, an4)))).
  { destruct (drop_orphan_results options); [|done]. cbn [when drop_orphan_tool_results fst].
    rewrite Forall_forall in *. intros x Hx. apply H4. apply list_elem_of_In in Hx.
    apply filter_In in Hx as [Hx _]. by apply list_elem_of_In. }
  destruct (when _ _ (l4, an4)) as [l5 an5]. cbn [fst] in H5.
  assert (H6 : Forall calls_ok (fst (when (o_drop_leading_non_user options)
            (fun '(result, anomalies) => drop_leading_non_user result anomalies) (l5, an5)))).
  { destruct (o_drop_leading_non_user options); [|done]. cbn [when]. by apply calls_ok_leading. }
  destruct (when _ _ (l5, an5)) as [l6 an6]. cbn [fst] in H6.
  destruct (micro_compaction_keep_recent options); [|done]. by apply calls_ok_compacted.
Qed.
End arguments.

(** ** Concrete histories *)

Definition says (r : Role) (text : string) : Message := mkMessage r None [Text text] [] None false.
Definition calls (id : string) : Message :=
  mkMessage Assistant None [] [mkToolCall id "function" "Read" "{}"] None false.
Definition answers (id : string) : Message := mkMessage Tool None [Text "done"] [] (Some id) false.

(** A displaced result is moved back and an orphan dropped. *)
Definition displaced : list Message :=
  [says Assistant "hi"; says UserRole "go"; calls "c1"; says UserRole "and?"; answers "c1"; answers "c9"].

Lemma strict_sends_valid_witness :
  fst (repair_pipeline strict (displaced, [])) =
    [says UserRole "go"; calls "c1"; answers "c1"; says UserRole "and?"] /\
  wire (fun m => result_id m = None) true (fst (repair_pipeline strict (displaced, []))) /\
  forall m, head (fst (repair_pipeline strict (displaced, []))) = Some m -> role m = UserRole.
Proof.
  split; [vm_compute; reflexivity|].
  apply (strict_sends_valid displaced strict []); [by left|].
  simpl. repeat split; try done; intros id Hid; injection Hid as <-; vm_compute; intros Hin; inversion Hin.
Defined.

Lemma arguments_are_objects_witness :
  calls_ok (fun text => bool_decide (text = "{}"%string))
    (mkMessage Assistant None [] [mkToolCall "c1" "function" "Read" "{}"] None false).
Proof.
  apply (arguments_are_objects (fun text => bool_decide (text = "{}"%string))
    [mkContextMessage (mkMessage Assistant None [] [mkToolCall "c1" "function" "Read" "null"] None false) None false None]
    normal [calls "c1"]); [reflexivity|vm_compute; reflexivity|by left].
Defined.

(** A result stored before its call stays before it: the repair only looks
    ahead, makes up a second result after the call, and keeps the first. *)
Example early_result_stays :
  fst (repair_pipeline strict ([says UserRole "go"; answers "c1"; calls "c1"; says UserRole "and?"], [])) =
  [says UserRole "go"; answers "c1"; calls "c1"; make_synthetic_tool_result "c1"; says UserRole "and?"].
Proof. vm_compute. reflexivity. Qed.

(** Assistants are merged before orphans are dropped: two that an orphan result
    separates stay adjacent. *)
Example assistants_left_adjacent :
  fst (repair_pipeline strict ([says UserRole "go"; says Assistant "a"; answers "c9"; says Assistant "b"], [])) =
  [says UserRole "go"; says Assistant "a"; says Assistant "b"].
Proof. vm_compute. reflexivity. Qed.
