(* ===== verification/TokenEstimator.v ===== *)
(** * Token estimates and the cuts of a compaction: [context_memory/token_estimator.rs],
      [context_memory/compaction_input.rs] and [compaction/retention.rs]

    The heuristic size of a text and of a message, the selection of the oldest
    user messages that survive a compaction, and the cut that separates the
    summarised prefix from the tail kept verbatim.  A count of characters fits a
    double and a sum of estimates fits 64 bits, as texts are held in memory. *)
From stdpp Require Import list strings.
From S2P Require Import Prelude RustStd Context.
#[local] Open Scope string_scope.
#[local] Open Scope list_scope.
#[local] Open Scope Z_scope.

(** ** Estimates *)

Definition MEDIA_TOKEN_ESTIMATE : Z := 2000.

Definition is_ascii (c : Z) : bool := c <? 128.

(** Four ASCII characters a token, rounded up; any other character is one. *)
Definition estimate_tokens (text : string) : Z :=
  let ascii_chars := Z.of_nat (length (List.filter is_ascii (chars text))) in
  let non_ascii_chars := Z.of_nat (length (List.filter (fun c => negb (is_ascii c)) (chars text))) in
  (ascii_chars + 3) / 4 + non_ascii_chars.

Definition estimate_part (part : ContentPart) : Z :=
  match part with
  | Text text | Think text => estimate_tokens text
  | ImageUrl _ _ | AudioUrl _ | VideoUrl _ | FilePart _ _ _ _ _ => MEDIA_TOKEN_ESTIMATE
  end.

Definition sum_Z (l : list Z) : Z := foldr Z.add 0 l.

Definition estimate_message_tokens (msg : ContextMessage) : Z :=
  sum_Z (estimate_part <$> content (message msg))
  + sum_Z ((fun call => estimate_tokens (fn_arguments call)) <$> tool_calls (message msg)).

(** A stored message with its number in the session *)
Record Entry : Type := mkEntry { e_msg : ContextMessage; entry_seq : Z }.
Definition e_message (e : Entry) : Message := message (e_msg e).

Definition estimate_messages_tokens (messages : list Entry) : Z :=
  sum_Z ((fun e => estimate_message_tokens (e_msg e)) <$> messages).

(** ** The user messages a compaction keeps *)

Definition COMPACT_USER_MESSAGE_HEAD_TOKENS : Z := 2000.

(** [PromptOrigin::is_real_user_input] *)
Definition is_real_user_input (o : PromptOrigin) : bool :=
  match o with
  | User | SkillActivation _ _ _ _ _ _ | PluginCommand | UserSteer => true
  | _ => false
  end.

Definition is_real (e : Entry) : bool :=
  match origin (e_msg e) with Some o => is_real_user_input o | None => false end.

(** The oldest ones within the budget, up to the first that exceeds what is left *)
Fixpoint head_loop (remaining : Z) (prefix : list Entry) : list Entry :=
  match prefix with
  | [] => []
  | m :: prefix =>
    if is_real m then
      let tokens := estimate_message_tokens (e_msg m) in
      if remaining <? tokens then [] else m :: head_loop (remaining - tokens) prefix
    else head_loop remaining prefix
  end.

Definition select_head_user_messages (prefix : list Entry) (head_tokens : Z) : list Entry * bool :=
  let kept := head_loop head_tokens prefix in
  (kept, (length kept <? length (List.filter is_real prefix))%nat).

(** [Message::user] *)
Definition user_message (text : string) : Message := mkMessage UserRole None [Text text] [] None false.

Definition elision_marker_message : ContextMessage :=
  mkContextMessage
    (user_message ("<system-reminder>" +:+ NEWLINE +:+ "Some of this conversation's earlier user messages were omitted here during compaction: the messages above this note are the oldest user input, the messages below are the most recent, and the content in between is covered by the compaction summary that follows." +:+ NEWLINE +:+ "</system-reminder>"))
    (Some Injection) false None.

(** ** The retention tail *)

Record RetentionCut : Type := mkCut { tail_start : nat; tail_tokens : Z }.

Definition is_role (r : Role) (e : Entry) : bool := bool_decide (role (e_message e) = r).

(** Reading the prefix backwards: do its tool results leave a call above them open? *)
Fixpoint open_exchange (tool_result_count : nat) (backwards : list Entry) : bool :=
  match backwards with
  | [] => false
  | m :: rest =>
    if is_role Tool m then open_exchange (S tool_result_count) rest
    else is_role Assistant m && (tool_result_count <? length (tool_calls (e_message m)))%nat
  end.

Definition prefix_ends_with_open_tool_exchange (history : list Entry) (index : nat) : bool :=
  match history !! index with
  | Some m => is_role Tool m && open_exchange 0 (reverse (take (S index) history))
  | None => false
  end.

Definition can_split_after (history : list Entry) (index : nat) : bool :=
  match history !! index with
  | None => false
  | Some m =>
    if is_role UserRole m then false
    else if is_role Assistant m && negb (bool_decide (tool_calls (e_message m) = [])) then false
    else if match history !! S index with Some next => is_role Tool next | None => false end then false
    else negb (prefix_ends_with_open_tool_exchange history index)
  end.

(** The walk from the newest message to the one that meets the budget; the list
    is the history read backwards. *)
Fixpoint budget_walk (budget_tokens accumulated : Z) (backwards : list Entry) : option (nat * Z) :=
  match backwards with
  | [] => None
  | m :: older =>
    let accumulated := Z.min (accumulated + estimate_message_tokens (e_msg m)) u64_max in
    if budget_tokens <=? accumulated then Some (length older, accumulated)
    else budget_walk budget_tokens accumulated older
  end.

(** The retreat to an older legal cut *)
Fixpoint retreat (history : list Entry) (start : nat) : nat :=
  match start with
  | O => O
  | S i => if can_split_after history i then start else retreat history i
  end.

Definition compute_retention_tail (history : list Entry) (budget_tokens : Z) : option RetentionCut :=
  if bool_decide (history = []) || (budget_tokens =? 0) then None
  else
    match budget_walk budget_tokens 0 (reverse history) with
    | None => None
    | Some (start, accumulated) =>
      match retreat history start with
      | O => None
      | S i => Some (mkCut (S i) accumulated)
      end
    end.
