(* ===== verification/ToolScheduler.v ===== *)
(** * The tool-call scheduler: [mirri-core/src/tool_registry/scheduler.rs]

    [schedule_and_execute] on a batch of tool calls.  Which of the running calls
    finishes next is the environment's choice: the loop is a step relation over
    all choices, and an executable function of a list of them. *)
From S2P Require Import Prelude RustStd F64 Json ToolAccess.
#[local] Open Scope string_scope.
#[local] Open Scope list_scope.

Section scheduler.
Context {ContentPart : Type}.
(** [str::to_lowercase] *)
Context (to_lowercase : string -> string).

(** [ToolOutput] and [ToolResult] *)
Inductive ToolOutput : Type := Text (s : string) | Parts (parts : list ContentPart).

Record ToolResult : Type := mkToolResult {
  output : ToolOutput;
  is_error : bool;
  note : option string;
  stop_turn : bool;
  truncated : bool;
  injection : option string
}.

Definition success (message : string) : ToolResult :=
  mkToolResult (Text message) false None false false None.
Definition error (message : string) : ToolResult :=
  mkToolResult (Text message) true None false false None.

(** What a call's future comes to: a result, or a panic with the message of
    its payload and the captured location, where they are known. *)
Inductive Outcome : Type :=
| Finished (r : ToolResult)
| Panicked (message location : option string).

(** [PendingToolTask], its closure given by what it comes to *)
Record PendingToolTask : Type := mkPendingToolTask {
  tool_call_id : string;
  tool_name : string;
  args : json;
  accesses : list ToolAccess;
  execute : Outcome;
  stop_batch_after_this : bool
}.

Definition execute_with_panic_safety (execute : Outcome) (tool_call_id : string) : ToolResult :=
  match execute with
  | Finished result => result
  | Panicked message location =>
    let message := default "(no panic message)" message in
    let message := match location with
                   | Some location => message +:+ " (panic at " +:+ location +:+ ")"
                   | None => message
                   end in
    error ("Tool '" +:+ tool_call_id +:+ "' panicked: " +:+ message)
  end.

Definition execute_task (task : PendingToolTask) : ToolResult :=
  execute_with_panic_safety (execute task) (tool_call_id task).

Definition skipped : ToolResult :=
  error "Tool execution skipped: a prior tool in this batch set stop_batch_after_this".
Definition not_started : ToolResult :=
  error "Tool execution was not started (scheduler anomaly)".

(** The serial path, for a batch with a global mutex. *)
Fixpoint run_serially (batch_stopped : bool) (tasks : list PendingToolTask) : list ToolResult :=
  match tasks with
  | [] => []
  | task :: tasks =>
    if batch_stopped then skipped :: run_serially batch_stopped tasks
    else execute_task task :: run_serially (stop_batch_after_this task) tasks
  end.

(** The state of the concurrent loop.  [active] are the running futures, with
    the accesses the code keeps beside them. *)
Record Loop : Type := mkLoop {
  pending : list (nat * PendingToolTask);
  active : list (nat * PendingToolTask);
  results : list (option ToolResult);
  batch_stopped : bool
}.

Definition blocked (active : list (nat * PendingToolTask)) (task : PendingToolTask) : bool :=
  existsb (fun a => conflicts to_lowercase (accesses task) (accesses (snd a))) active.

(** One greedy pass over the queue: what still waits, and what runs. *)
Fixpoint start_pass (pending active : list (nat * PendingToolTask))
  : list (nat * PendingToolTask) * list (nat * PendingToolTask) :=
  match pending with
  | [] => ([], active)
  | (idx, task) :: pending =>
    if blocked active task then
      let '(still_pending, active) := start_pass pending active in
      ((idx, task) :: still_pending, active)
    else start_pass pending (active ++ [(idx, task)])
  end.

Definition start (s : Loop) : Loop :=
  if batch_stopped s then s
  else let '(pending, active) := start_pass (pending s) (active s) in
       mkLoop pending active (results s) (batch_stopped s).

(** The call [idx] finishes. *)
Definition complete (idx : nat) (task : PendingToolTask) (s : Loop) : Loop :=
  mkLoop (pending s) (filter (fun a => a.1 <> idx) (active s))
    (<[idx := Some (execute_task task)]> (results s))
    (if stop_batch_after_this task then true else batch_stopped s).

Definition init (tasks : list PendingToolTask) : Loop :=
  mkLoop (imap pair tasks) [] (replicate (length tasks) None) false.

(** The states in which the loop waits for a call to finish. *)
Inductive reachable (tasks : list PendingToolTask) : Loop -> Prop :=
| reachable_init : reachable tasks (start (init tasks))
| reachable_step s idx task :
    reachable tasks s -> (idx, task) ∈ active s -> reachable tasks (start (complete idx task s)).

(** The loop under a list of choices; each names a running call by its place. *)
Fixpoint run_loop (fuel : nat) (choices : list nat) (s : Loop) : Loop :=
  let s := start s in
  match fuel with
  | O => s
  | S fuel =>
    match active s !! (hd 0%nat choices mod length (active s))%nat with
    | None => s
    | Some (idx, task) => run_loop fuel (tl choices) (complete idx task s)
    end
  end.

Definition assemble (tasks : list PendingToolTask) (results : list (option ToolResult))
  : list (string * string * json * ToolResult) :=
  zip_with (fun r task => (tool_call_id task, tool_name task, args task, default not_started r))
    results tasks.

Definition needs_mutex (tasks : list PendingToolTask) : bool :=
  existsb (fun task => existsb (fun a => bool_decide (kind a = All)) (accesses task)) tasks.

Definition schedule_and_execute (choices : list nat) (tasks : list PendingToolTask)
  : list (string * string * json * ToolResult) :=
  match tasks with
  | [] => []
  | [task] => [(tool_call_id task, tool_name task, args task, execute_task task)]
  | _ =>
    if needs_mutex tasks then assemble tasks (Some <$> run_serially false tasks)
    else assemble tasks (results (run_loop (length tasks) choices (init tasks)))
  end.
End scheduler.

Section facts.
Context {ContentPart : Type} (to_lowercase : string -> string).
Notation Task := (@PendingToolTask ContentPart).
Notation start := (@start ContentPart to_lowercase).
Notation reachable := (@reachable ContentPart to_lowercase).

(** No two running calls conflict. *)
Definition exclusive (active : list (nat * Task)) : Prop :=
  forall a b, a ∈ active -> b ∈ active -> a.1 <> b.1 ->
    conflicts to_lowercase (accesses (snd a)) (accesses (snd b)) = false.

Lemma blocked_false active (t : Task) :
  blocked to_lowercase active t = false <->
  forall a, a ∈ active -> conflicts to_lowercase (accesses t) (accesses (snd a)) = false.
Proof.
  unfold blocked. rewrite <- not_true_iff_false, existsb_exists.
  setoid_rewrite <- list_elem_of_In. setoid_rewrite <- not_true_iff_false. naive_solver.
Qed.

Lemma blocked_mono active active' (t : Task) :
  active ⊆ active' -> blocked to_lowercase active t = true -> blocked to_lowercase active' t = true.
Proof.
  unfold blocked. rewrite !existsb_exists. setoid_rewrite <- list_elem_of_In. naive_solver.
Qed.

Lemma start_pass_spec p : forall a p' a',
  start_pass to_lowercase p a = (p', a') ->
  p' ++ a' ≡ₚ p ++ a /\ a ⊆ a' /\
  (exclusive a -> exclusive a') /\ Forall (fun x => blocked to_lowercase a' (snd x) = true) p' /\
  (a = [] -> a' = [] -> p = []).
Proof.
  induction p as [|[i t] p IH]; intros a p' a' Hs.
  { simpl in Hs. simplify_eq. split_and!; done. }
  cbn [start_pass] in Hs. destruct (blocked to_lowercase a t) eqn:Hb.
  - destruct (start_pass to_lowercase p a) as [p1 a1] eqn:Hp. simplify_eq.
    destruct (IH _ _ _ Hp) as (Hperm & Hsub & Hexc & Hblk & _). split_and!; try done.
    + simpl. by f_equiv.
    + constructor; [|done]. by eapply blocked_mono.
    + intros -> _. done.
  - destruct (IH _ _ _ Hs) as (Hperm & Hsub & Hexc & Hblk & _). split_and!; try done.
    + by rewrite Hperm, app_assoc, (Permutation_app_comm _ [(i, t)]).
    + set_solver.
    + intros Ha. apply Hexc. rewrite blocked_false in Hb.
      intros x y Hx Hy Hne. rewrite elem_of_app, list_elem_of_singleton in Hx, Hy.
      destruct Hx as [Hx | ->], Hy as [Hy | ->]; simpl in *; auto; [|done].
      rewrite conflicts_sym. auto.
    + intros -> ->. set_solver.
Qed.

(** What holds whenever the loop waits. *)
Record inv (tasks : list Task) (s : Loop) : Prop := {
  inv_length : length (results s) = length tasks;
  inv_nodup : NoDup ((pending s ++ active s).*1);
  inv_open i t : (i, t) ∈ pending s ++ active s -> tasks !! i = Some t;
  inv_fresh i t : (i, t) ∈ pending s ++ active s -> results s !! i = Some None;
  inv_result i t : tasks !! i = Some t ->
    (i, t) ∈ pending s ++ active s /\ results s !! i = Some None \/
    results s !! i = Some (Some (execute_task t));
  inv_exclusive : exclusive (active s);
  inv_stopped : batch_stopped s = true ->
    exists i t, tasks !! i = Some t /\ stop_batch_after_this t = true /\
      results s !! i = Some (Some (execute_task t))
}.

Lemma start_eq (s : Loop) :
  exists p a, start s = mkLoop p a (results s) (batch_stopped s) /\
    p ++ a ≡ₚ pending s ++ active s /\ (exclusive (active s) -> exclusive a) /\
    active s ⊆ a /\
    (batch_stopped s = false ->
       Forall (fun x => blocked to_lowercase a (snd x) = true) p /\
       (active s = [] -> a = [] -> pending s = [])).
Proof.
  unfold ToolScheduler.start. destruct s as [p a r b]. simpl. destruct b.
  - exists p, a. split_and!; done.
  - destruct (start_pass to_lowercase p a) as [p' a'] eqn:Hp. simpl.
    destruct (start_pass_spec _ _ _ _ Hp) as (? & ? & ? & ? & ?). exists p', a'. split_and!; auto.
Qed.

Lemma start_inv tasks s : inv tasks s -> inv tasks (start s).
Proof.
  intros [H1 H2 H3 Hfr H4 H5 H6]. destruct (start_eq s) as (p & a & -> & Hp & He & _).
  constructor; simpl; auto.
  - rewrite Hp. done.
  - intros i t. rewrite Hp. apply H3.
  - intros i t. rewrite Hp. apply Hfr.
  - intros i t Ht. rewrite Hp. by apply H4.
Qed.

Lemma init_inv (tasks : list Task) : inv tasks (init tasks).
Proof.
  constructor; simpl; try done.
  - by rewrite length_replicate.
  - rewrite app_nil_r, fmap_imap.
    change (NoDup (imap (fun j (_ : Task) => (0 + j)%nat) tasks)).
    rewrite (imap_seq tasks (fun j => j) 0), list_fmap_id. apply NoDup_seq.
  - intros i t. rewrite app_nil_r, elem_of_lookup_imap. naive_solver.
  - intros i t. rewrite app_nil_r, elem_of_lookup_imap. intros (j & u & Hj & Hu). simplify_eq.
    apply lookup_replicate. split; [done|]. by eapply lookup_lt_Some.
  - intros i t Ht. left. rewrite app_nil_r, elem_of_lookup_imap. split; [eauto|].
    apply lookup_replicate. split; [done|]. by eapply lookup_lt_Some.
  - intros a b Ha. set_solver.
Qed.

Lemma complete_inv tasks s idx task :
  inv tasks s -> (idx, task) ∈ active s -> inv tasks (complete idx task s).
Proof.
  intros [H1 H2 H3 Hfr H4 H5 H6] Hin.
  assert (Ht : tasks !! idx = Some task) by (apply H3; set_solver).
  assert (Hlt : (idx < length (results s))%nat) by (rewrite H1; by eapply lookup_lt_Some).
  assert (Hsub : forall a, a ∈ filter (fun a => a.1 <> idx) (active s) -> a ∈ active s)
    by (intros a Ha; by apply list_elem_of_filter in Ha as [_ ?]).
  constructor; simpl.
  - by rewrite length_insert.
  - eapply sublist_NoDup; [exact H2|]. apply fmap_sublist, sublist_app; [done|apply sublist_filter].
  - intros i t Hi. apply H3. rewrite elem_of_app in *. naive_solver.
  - intros i t Hi. rewrite list_lookup_insert_ne.
    + apply (Hfr i t). rewrite elem_of_app in *. naive_solver.
    + intros ->. rewrite elem_of_app, list_elem_of_filter in Hi. destruct Hi as [Hi|[Hi _]]; [|done].
      rewrite fmap_app, NoDup_app in H2. destruct H2 as (_ & H2 & _).
      exact (H2 _ (list_elem_of_fmap_2 fst _ _ Hi) (list_elem_of_fmap_2 fst _ _ Hin)).
  - intros i t Hi. destruct (decide (i = idx)) as [->|Hne].
    + right. rewrite list_lookup_insert_eq by done. congruence.
    + rewrite list_lookup_insert_ne by done. destruct (H4 i t Hi) as [[Ho Hr]|Hr]; [left|by right].
      split; [|done]. rewrite elem_of_app, list_elem_of_filter in *. naive_solver.
  - intros a b Ha Hb. apply H5; auto.
  - destruct (stop_batch_after_this task) eqn:Hst; intros Hb.
    + exists idx, task. split_and!; [done|done|by rewrite list_lookup_insert_eq].
    + destruct (H6 Hb) as (i & t & Hi & Hs & Hr). exists i, t. split_and!; [done|done|].
      rewrite list_lookup_insert_ne; [done|]. intros <-. congruence.
Qed.

Lemma reachable_inv tasks s : reachable tasks s -> inv tasks s.
Proof.
  induction 1 as [|s idx task _ IH Hin]; apply start_inv; [apply init_inv|].
  by apply complete_inv.
Qed.

(** Once the queue has been walked, what waits is blocked by what runs. *)
Definition settled (s : @Loop ContentPart) : Prop :=
  batch_stopped s = false ->
  Forall (fun x => blocked to_lowercase (active s) (snd x) = true) (pending s).

Lemma start_settled s : settled (start s).
Proof.
  destruct (start_eq s) as (p & a & -> & _ & _ & _ & Hb). intros Hs. simpl in *.
  by destruct (Hb Hs).
Qed.

Lemma settled_idle s :
  settled s -> active s = [] -> batch_stopped s = false -> pending s = [].
Proof.
  intros Hs Ha Hb. specialize (Hs Hb). rewrite Ha in Hs.
  destruct (pending s) as [|x l]; [done|]. apply Forall_cons in Hs as [Hs _]. done.
Qed.

(** *** Termination *)

Definition open (s : @Loop ContentPart) : nat := length (pending s ++ active s).

Lemma start_open s : open (start s) = open s.
Proof.
  destruct (start_eq s) as (p & a & -> & Hp & _). unfold open. simpl. by rewrite Hp.
Qed.

Lemma complete_open s idx task :
  (idx, task) ∈ active s -> (open (complete idx task s) < open s)%nat.
Proof.
  intros Hin. unfold open. simpl. rewrite !length_app.
  assert (Hf : (length (filter (fun a : nat * Task => a.1 <> idx) (active s)) < length (active s))%nat)
    by (eapply length_filter_lt; [exact Hin|simpl; auto]).
  lia.
Qed.

Lemma run_loop_final fuel : forall choices s,
  (open s <= fuel)%nat -> active (run_loop to_lowercase fuel choices s) = [].
Proof.
  induction fuel as [|fuel IH]; intros choices s Hf; cbn [run_loop].
  - pose proof (start_open s) as Ho. unfold open in *. rewrite length_app in Ho.
    apply length_zero_iff_nil. lia.
  - destruct (active (start s) !! _) as [[idx task]|] eqn:Hl.
    + apply IH. apply list_elem_of_lookup_2 in Hl. pose proof (complete_open _ _ _ Hl) as Hc.
      rewrite start_open in Hc. lia.
    + destruct (active (start s)) as [|x l] eqn:Ha; [done|]. apply lookup_ge_None in Hl.
      pose proof (Nat.mod_upper_bound (hd 0%nat choices) (length (x :: l))). simpl in *. lia.
Qed.

Lemma run_loop_inv tasks fuel : forall choices s,
  inv tasks s -> let s' := run_loop to_lowercase fuel choices s in inv tasks s' /\ settled s'.
Proof.
  induction fuel as [|fuel IH]; intros choices s Hi; cbn [run_loop].
  - split; [by apply start_inv|apply start_settled].
  - apply start_inv in Hi. destruct (active (start s) !! _) as [[idx task]|] eqn:Hl.
    + apply IH, complete_inv; [done|]. by eapply list_elem_of_lookup_2.
    + split; [done|apply start_settled].
Qed.

(** *** Properties *)

(** C35. Two calls that are running at the same time never conflict, in any
    order of completions; every running call is one of the batch under its own
    index, without a result yet, and no index runs twice. *)
Theorem running_calls_exclusive (tasks : list Task) s :
  reachable tasks s ->
  (forall a b, a ∈ active s -> b ∈ active s -> a.1 <> b.1 ->
     conflicts to_lowercase (accesses (snd a)) (accesses (snd b)) = false) /\
  NoDup (active s).*1 /\
  forall i t, (i, t) ∈ active s -> tasks !! i = Some t /\ results s !! i = Some None.
Proof.
  intros Hr. destruct (reachable_inv tasks s Hr) as [_ Hnd Ho Hf _ He _]. split_and!; [done| |].
  - rewrite fmap_app, NoDup_app in Hnd. tauto.
  - intros i t Hi. split; [apply Ho|apply (Hf i t)]; set_solver.
Qed.

Lemma reachable_settled tasks s : reachable tasks s -> settled s.
Proof. destruct 1; apply start_settled. Qed.

(** The scheduler is greedy: while the batch is not stopped, a call waits
    only because it conflicts with one that is running, so with nothing
    running nothing waits. *)
Theorem no_needless_waiting tasks s i t :
  reachable tasks s -> batch_stopped s = false -> (i, t) ∈ pending s ->
  exists a, a ∈ active s /\ conflicts to_lowercase (accesses t) (accesses (snd a)) = true.
Proof.
  intros Hr Hb Hi. pose proof (reachable_settled tasks s Hr Hb) as Hs.
  rewrite Forall_forall in Hs. specialize (Hs _ Hi). unfold blocked in Hs. simpl in Hs.
  apply existsb_exists in Hs as (a & Ha & Hc). exists a. by rewrite list_elem_of_In.
Qed.

(** The results of the concurrent path. *)
Lemma concurrent_results choices (tasks : list Task) i t :
  tasks !! i = Some t ->
  let s := run_loop to_lowercase (length tasks) choices (init tasks) in
  results s !! i = Some (Some (execute_task t)) \/
  results s !! i = Some None /\
    exists j u, tasks !! j = Some u /\ stop_batch_after_this u = true /\
      results s !! j = Some (Some (execute_task u)).
Proof.
  intros Ht s. destruct (run_loop_inv tasks (length tasks) choices (init tasks) (init_inv tasks))
    as [Hi Hs]. fold s in Hi, Hs.
  assert (Ha : active s = []).
  { apply run_loop_final. unfold open. simpl. rewrite app_nil_r, length_imap. lia. }
  destruct (inv_result tasks s Hi i t Ht) as [[Ho Hr]|Hr]; [right|by left]. split; [done|].
  apply (inv_stopped tasks s Hi). destruct (batch_stopped s) eqn:Hb; [done|].
  rewrite Ha, (settled_idle s Hs Ha Hb) in Ho. set_solver.
Qed.

Lemma run_serially_no_stop (tasks : list Task) :
  Forall (fun t => stop_batch_after_this t = false) tasks ->
  run_serially false tasks = execute_task <$> tasks.
Proof. induction 1 as [|t tasks Ht _ IH]; [done|]. simpl. by rewrite Ht, IH. Qed.

Definition reported (t : Task) (r : @ToolResult ContentPart)
  : string * string * json * @ToolResult ContentPart :=
  (tool_call_id t, tool_name t, args t, r).

Lemma assemble_all (tasks : list Task) rs :
  length rs = length tasks ->
  (forall i t, tasks !! i = Some t -> rs !! i = Some (Some (execute_task t))) ->
  assemble tasks rs = (fun t => reported t (execute_task t)) <$> tasks.
Proof.
  revert rs. induction tasks as [|t tasks IH]; intros [|r rs] Hlen Hr; try done.
  unfold assemble in *. simpl in *. pose proof (Hr 0%nat t eq_refl) as H0. simpl in H0.
  simplify_eq. rewrite IH; [done|lia|]. intros i u Hu. exact (Hr (S i) u Hu).
Qed.

(** Without a stop request a batch is deterministic: whatever the order the
    calls finish in, every call is executed once and its own result is
    reported under its own id, in provider order. *)
Theorem schedule_deterministic choices (tasks : list Task) :
  Forall (fun t => stop_batch_after_this t = false) tasks ->
  schedule_and_execute to_lowercase choices tasks
  = (fun t => reported t (execute_task t)) <$> tasks.
Proof.
  intros Hs. unfold schedule_and_execute. destruct tasks as [|t1 [|t2 tasks]]; [done|done|].
  set (ts := t1 :: t2 :: tasks) in *. destruct (needs_mutex ts); apply assemble_all.
  - by rewrite run_serially_no_stop, !length_fmap.
  - intros i t Ht. by rewrite run_serially_no_stop, !list_lookup_fmap, Ht.
  - apply (inv_length ts), run_loop_inv, init_inv.
  - intros i t Ht. destruct (concurrent_results choices ts i t Ht) as [Hr|(_ & j & u & Hu & Hst & _)];
      [done|]. rewrite Forall_lookup in Hs. specialize (Hs j u Hu). simpl in Hs. congruence.
Qed.

(** The serial path: a batch with a global mutex runs in provider order up
    to and including the first call that asks to stop, and reports the rest as
    skipped. *)
Theorem serial_stop (tasks : list Task) :
  exists k, run_serially false tasks
    = (execute_task <$> take k tasks) ++ replicate (length tasks - k) skipped /\
  (forall i t, tasks !! i = Some t -> (S i < k)%nat -> stop_batch_after_this t = false) /\
  ((k < length tasks)%nat ->
     exists t, tasks !! pred k = Some t /\ stop_batch_after_this t = true /\ (0 < k)%nat).
Proof.
  assert (Hskip : forall l : list Task, run_serially true l = replicate (length l) skipped)
    by (induction l as [|t l IH]; simpl; [done|by rewrite IH]).
  induction tasks as [|t tasks IH].
  { exists 0%nat. split_and!; [done|done|simpl; lia]. }
  simpl. destruct (stop_batch_after_this t) eqn:Ht.
  - exists 1%nat. rewrite Hskip. split_and!.
    + simpl. by rewrite Nat.sub_0_r.
    + intros i u _ Hi. lia.
    + intros _. exists t. split_and!; [done|done|lia].
  - destruct IH as (k & -> & Hno & Hk). exists (S k). split_and!.
    + done.
    + intros [|i] u Hu Hi; [by simpl in Hu; simplify_eq|]. apply (Hno i u Hu). lia.
    + intros Hlt. destruct Hk as (u & Hu & Hsu & Hpos); [lia|]. exists u.
      destruct k as [|k]; [lia|]. split_and!; [done|done|lia].
Qed.

Lemma run_serially_length b (tasks : list Task) : length (run_serially b tasks) = length tasks.
Proof.
  revert b. induction tasks as [|t tasks IH]; intros b; [done|]. simpl.
  destruct b; simpl; by rewrite IH.
Qed.

(** A call of a concurrent batch that is reported without having run is
    reported so only because another call of the batch ran and asked to stop
    (its message says the scheduler failed, which it did not). *)
Theorem unstarted_only_after_stop choices (tasks : list Task) i t :
  (2 <= length tasks)%nat -> needs_mutex tasks = false -> tasks !! i = Some t ->
  schedule_and_execute to_lowercase choices tasks !! i = Some (reported t (execute_task t)) \/
  schedule_and_execute to_lowercase choices tasks !! i = Some (reported t not_started) /\
  exists j u, tasks !! j = Some u /\ stop_batch_after_this u = true /\
    schedule_and_execute to_lowercase choices tasks !! j = Some (reported u (execute_task u)).
Proof.
  intros Hlen Hm Ht. destruct tasks as [|t1 [|t2 tasks]]; simpl in Hlen; [lia|lia|].
  set (ts := t1 :: t2 :: tasks) in *.
  assert (Hsched : schedule_and_execute to_lowercase choices ts
    = assemble ts (results (run_loop to_lowercase (length ts) choices (init ts))))
    by (unfold schedule_and_execute; fold ts; by rewrite Hm).
  rewrite Hsched. unfold assemble. setoid_rewrite lookup_zip_with.
  destruct (concurrent_results choices ts i t Ht) as [-> | [-> (j & u & Hu & Hst & Hr)]];
    rewrite Ht; [by left|]. right. split; [done|]. exists j, u. by rewrite Hu, Hr.
Qed.
End facts.

(** ** Witnesses *)

Definition sample_call (id : string) (op : AccessOperation) (p : string) (stop : bool)
  : @PendingToolTask unit :=
  mkPendingToolTask id "Edit" (JObj []) [mkToolAccess File (Some p) op] (Finished (success id)) stop.

(** Two writes under one directory and a read elsewhere. *)
Definition sample_batch : list (@PendingToolTask unit) :=
  [sample_call "w1" Write "/a" false; sample_call "w2" ReadWrite "/A/b/" false;
   sample_call "r1" Read "/ab" false].

Example sample_started :
  fst <$> active (start to_ascii_lowercase (init sample_batch)) = [0; 2]%nat.
Proof. vm_compute. reflexivity. Qed.

Lemma running_calls_exclusive_witness :
  let s := start to_ascii_lowercase (init sample_batch) in
  reachable to_ascii_lowercase sample_batch s /\ NoDup (active s).*1 /\
  (2, sample_call "r1" Read "/ab" false)%nat ∈ active s.
Proof.
  assert (Hr : reachable to_ascii_lowercase sample_batch
                 (start to_ascii_lowercase (init sample_batch))) by constructor.
  split; [exact Hr|]. split.
  - exact (proj1 (proj2 (running_calls_exclusive to_ascii_lowercase _ _ Hr))).
  - apply list_elem_of_In. vm_compute. auto.
Defined.

Lemma no_needless_waiting_witness :
  let s := start to_ascii_lowercase (init sample_batch) in
  batch_stopped s = false /\ (1, sample_call "w2" ReadWrite "/A/b/" false)%nat ∈ pending s /\
  exists a, a ∈ active s /\
    conflicts to_ascii_lowercase (accesses (sample_call "w2" ReadWrite "/A/b/" false))
      (accesses (snd a)) = true.
Proof.
  assert (Hr : reachable to_ascii_lowercase sample_batch
                 (start to_ascii_lowercase (init sample_batch))) by constructor.
  assert (Hp : (1, sample_call "w2" ReadWrite "/A/b/" false)%nat
               ∈ pending (start to_ascii_lowercase (init sample_batch)))
    by (apply list_elem_of_In; vm_compute; auto).
  split; [vm_compute; reflexivity|]. split; [exact Hp|].
  exact (no_needless_waiting to_ascii_lowercase _ _ _ _ Hr eq_refl Hp).
Defined.

Lemma schedule_deterministic_witness :
  Forall (fun t => stop_batch_after_this t = false) sample_batch /\
  schedule_and_execute to_ascii_lowercase [1; 0; 0]%nat sample_batch
  = (fun t => reported t (execute_task t)) <$> sample_batch.
Proof.
  assert (Hs : Forall (fun t => stop_batch_after_this t = false) sample_batch)
    by (repeat constructor).
  split; [exact Hs|]. exact (schedule_deterministic to_ascii_lowercase [1; 0; 0]%nat _ Hs).
Defined.

(** The first write asks to stop: the second, which waited for it, is reported
    as a scheduler anomaly. *)
Definition stopping_batch : list (@PendingToolTask unit) :=
  [sample_call "w1" Write "/a" true; sample_call "w2" Write "/a" false].

Example stopped_report :
  schedule_and_execute to_ascii_lowercase [] stopping_batch
  = [reported (sample_call "w1" Write "/a" true) (success "w1");
     reported (sample_call "w2" Write "/a" false) not_started].
Proof. vm_compute. reflexivity. Qed.

Lemma unstarted_only_after_stop_witness :
  let t := sample_call "w2" Write "/a" false in
  stopping_batch !! 1%nat = Some t /\
  (schedule_and_execute to_ascii_lowercase [] stopping_batch !! 1%nat
     = Some (reported t (execute_task t)) \/
   schedule_and_execute to_ascii_lowercase [] stopping_batch !! 1%nat
     = Some (reported t not_started) /\
   exists j u, stopping_batch !! j = Some u /\ stop_batch_after_this u = true /\
     schedule_and_execute to_ascii_lowercase [] stopping_batch !! j
     = Some (reported u (execute_task u))).
Proof.
  split; [reflexivity|].
  exact (unstarted_only_after_stop to_ascii_lowercase [] stopping_batch 1 _ ltac:(simpl; lia)
    eq_refl eq_refl).
Defined.
