(* ===== verification/Memory.v ===== *)
(** * The context memory: [mirri-core/src/context_memory/mod.rs]

    The canonical message history: the steps that stream into it, the tool calls
    that wait for their results, the messages deferred meanwhile, the token
    counters, compaction and undo.  The order in which a hash set or map is
    iterated is an argument of the operation that iterates it. *)
From stdpp Require Import gmap list strings sorting.
From S2P Require Import Prelude RustStd F64 Json ToolAccess ToolScheduler EngineError Context TokenEstimator.
#[local] Open Scope string_scope.
#[local] Open Scope list_scope.
#[local] Open Scope Z_scope.

Definition TOOL_INTERRUPTED_ON_RESUME_OUTPUT : string :=
  "Tool execution was interrupted before its result was recorded. Do not assume the tool completed successfully.".

Definition DEFAULT_MAX_HISTORY_MESSAGES : nat := 10000.
Definition DEFAULT_MAX_DEFERRED_MESSAGES : nat := 1000.

(** [LoopEvent] *)
Module LoopEvent.
Inductive t : Type :=
| StepBegin (step_id : string) (entry_seq : option Z)
| ContentPart (step_id text : string)
| ThinkPart (step_id text : string)
| ToolCall (step_id tool_call_id tool_name : string) (args : json)
| ToolResult (tool_call_id : string) (output : ToolOutput (ContentPart := Context.ContentPart))
    (is_error : bool) (note : option string) (entry_seq : option Z)
| StepEnd (step_id : string) (input_tokens output_tokens cache_read_tokens cache_creation_tokens : Z).
End LoopEvent.

(** [u64::saturating_add] and [u64::saturating_sub] *)
Definition sat_add (a b : Z) : Z := Z.min (a + b) u64_max.
Definition sat_sub (a b : Z) : Z := Z.max (a - b) 0.

(** [LoopEvent::context_tokens] *)
Definition context_tokens (event : LoopEvent.t) : Z :=
  match event with
  | LoopEvent.StepEnd _ i o r c => sat_add (sat_add (sat_add i o) r) c
  | _ => 0
  end.

(** ** The state *)

Record ContextMemory : Type := mkMemory {
  history : list Entry;
  open_steps : gmap string nat;
  pending : gset string;
  deferred : list Entry;
  max_history : nat;
  max_deferred : nat;
  token_count : Z;
  covered : nat;
  last_compacted : Z;
  request_overhead : Z;
  next_entry_seq : Z
}.

Definition set_history (x : list Entry) (m : ContextMemory) : ContextMemory :=
  mkMemory x (open_steps m) (pending m) (deferred m) (max_history m) (max_deferred m) (token_count m)
    (covered m) (last_compacted m) (request_overhead m) (next_entry_seq m).
Definition set_open_steps (x : gmap string nat) (m : ContextMemory) : ContextMemory :=
  mkMemory (history m) x (pending m) (deferred m) (max_history m) (max_deferred m) (token_count m)
    (covered m) (last_compacted m) (request_overhead m) (next_entry_seq m).
Definition set_pending (x : gset string) (m : ContextMemory) : ContextMemory :=
  mkMemory (history m) (open_steps m) x (deferred m) (max_history m) (max_deferred m) (token_count m)
    (covered m) (last_compacted m) (request_overhead m) (next_entry_seq m).
Definition set_deferred (x : list Entry) (m : ContextMemory) : ContextMemory :=
  mkMemory (history m) (open_steps m) (pending m) x (max_history m) (max_deferred m) (token_count m)
    (covered m) (last_compacted m) (request_overhead m) (next_entry_seq m).
Definition set_limits (x y : nat) (m : ContextMemory) : ContextMemory :=
  mkMemory (history m) (open_steps m) (pending m) (deferred m) x y (token_count m)
    (covered m) (last_compacted m) (request_overhead m) (next_entry_seq m).
Definition set_token_count (x : Z) (m : ContextMemory) : ContextMemory :=
  mkMemory (history m) (open_steps m) (pending m) (deferred m) (max_history m) (max_deferred m) x
    (covered m) (last_compacted m) (request_overhead m) (next_entry_seq m).
Definition set_covered (x : nat) (m : ContextMemory) : ContextMemory :=
  mkMemory (history m) (open_steps m) (pending m) (deferred m) (max_history m) (max_deferred m)
    (token_count m) x (last_compacted m) (request_overhead m) (next_entry_seq m).
Definition set_last_compacted (x : Z) (m : ContextMemory) : ContextMemory :=
  mkMemory (history m) (open_steps m) (pending m) (deferred m) (max_history m) (max_deferred m)
    (token_count m) (covered m) x (request_overhead m) (next_entry_seq m).
Definition set_request_overhead (x : Z) (m : ContextMemory) : ContextMemory :=
  mkMemory (history m) (open_steps m) (pending m) (deferred m) (max_history m) (max_deferred m)
    (token_count m) (covered m) (last_compacted m) x (next_entry_seq m).
Definition set_next_entry_seq (x : Z) (m : ContextMemory) : ContextMemory :=
  mkMemory (history m) (open_steps m) (pending m) (deferred m) (max_history m) (max_deferred m)
    (token_count m) (covered m) (last_compacted m) (request_overhead m) x.

(** [ContextMemory::with_limits] and [ContextMemory::new] *)
Definition with_limits (max_history max_deferred : nat) : ContextMemory :=
  mkMemory [] ∅ ∅ [] max_history max_deferred 0 0 0 0 0.
Definition new_memory : ContextMemory := with_limits DEFAULT_MAX_HISTORY_MESSAGES DEFAULT_MAX_DEFERRED_MESSAGES.

Definition has_open_tool_exchange (m : ContextMemory) : bool := negb (bool_decide (pending m = ∅)).

Definition token_count_with_pending (m : ContextMemory) : Z :=
  let covered := Nat.min (covered m) (length (history m)) in
  wrap_u64 (token_count m + estimate_messages_tokens (drop covered (history m))).

Definition pop_last_message (m : ContextMemory) : ContextMemory * option Entry :=
  match last (history m) with
  | None => (m, None)
  | Some popped =>
    let m := set_history (removelast (history m)) m in
    (if (length (history m) <? covered m)%nat then set_covered (length (history m)) m else m, Some popped)
  end.

(** ** Appending *)

Definition set_entry_seq (seq : Z) (e : Entry) : Entry := mkEntry (e_msg e) seq.

(** [push_history], and whether the message was stored *)
Definition push_history (msg : Entry) (m : ContextMemory) : ContextMemory * bool :=
  if (max_history m <=? length (history m))%nat then (m, false)
  else
    let msg := if entry_seq msg =? 0 then set_entry_seq (next_entry_seq m) msg else msg in
    (set_history (history m ++ [msg])
       (set_next_entry_seq (Z.max (next_entry_seq m) (sat_add (entry_seq msg) 1)) m), true).

Definition push (m : ContextMemory) (msg : Entry) : ContextMemory := fst (push_history msg m).

Definition append_message (msg : Entry) (m : ContextMemory) : ContextMemory :=
  if has_open_tool_exchange m then
    if (max_deferred m <=? length (deferred m))%nat then m
    else set_deferred (deferred m ++ [msg]) m
  else push m msg.

Definition append_user_message (content : list ContentPart) (origin : PromptOrigin) (m : ContextMemory)
  : ContextMemory :=
  if bool_decide (content = []) then m
  else
    append_message
      (mkEntry (mkContextMessage (mkMessage UserRole None content [] None false) (Some origin) false None) 0) m.

Definition system_reminder (text : string) : Entry :=
  mkEntry (mkContextMessage
    (user_message ("<system-reminder>" +:+ NEWLINE +:+ trim text +:+ NEWLINE +:+ "</system-reminder>"))
    (Some Injection) false None) 0.
Definition append_system_reminder (text : string) : ContextMemory -> ContextMemory :=
  append_message (system_reminder text).

Definition flush_deferred_if_exchange_closed (m : ContextMemory) : ContextMemory :=
  if has_open_tool_exchange m || bool_decide (deferred m = []) then m
  else
    let history_capacity := (max_history m - length (history m))%nat in
    foldl push (set_deferred [] m) (take history_capacity (deferred m)).

(** The tool message of a result *)
Definition result_entry (tool_call_id : string) (content : list ContentPart) (is_error : bool)
    (note : option string) (seq : Z) : Entry :=
  mkEntry (mkContextMessage (mkMessage Tool None content [] (Some tool_call_id) false) None is_error note) seq.

Definition interrupted_result (tool_call_id : string) : Entry :=
  result_entry tool_call_id [Text TOOL_INTERRUPTED_ON_RESUME_OUTPUT] true None 0.

(** [interrupted_ids]: the pending ids in the order the set is drained *)
Definition close_pending_tool_results (interrupted_ids : list string) (m : ContextMemory) : ContextMemory :=
  if bool_decide (pending m = ∅) then m
  else
    flush_deferred_if_exchange_closed
      (foldl (fun m id => push m (interrupted_result id)) (set_pending ∅ m) interrupted_ids).

Definition is_vacuous_content_part (part : ContentPart) : bool :=
  match part with Text text | Think text => bool_decide (trim text = "") | _ => false end.

(** A message that a step leaves behind with nothing to send *)
Definition is_vacuous (e : Entry) : bool :=
  bool_decide (tool_calls (e_message e) = []) && forallb is_vacuous_content_part (content (e_message e)).

Definition on_message (f : Message -> Message) (e : Entry) : Entry :=
  mkEntry (set_message (f (e_message e)) (e_msg e)) (entry_seq e).
Definition set_partial (p : bool) (m : Message) : Message :=
  mkMessage (role m) (name m) (content m) (tool_calls m) (tool_call_id m) p.

(** The open step's message loses its flag, or goes when it has nothing to send. *)
Definition settle (index : nat) (m : ContextMemory) : ContextMemory :=
  match history m !! index with
  | None => m
  | Some e =>
    if is_vacuous e then set_history (delete index (history m)) m
    else set_history (alter (on_message (set_partial false)) index (history m)) m
  end.

(** [history[from..to]] *)
Definition slice (from to : nat) (l : list Entry) : list Entry := drop from (take to l).

Section memory.
(** [serde_json::Value::to_string] *)
Context (to_string : json -> string).

(** What an event of an open step does to its message *)
Definition on_step (step_id : string) (f : Message -> Message) (m : ContextMemory) : ContextMemory :=
  match open_steps m !! step_id with
  | Some index => set_history (alter (on_message f) index (history m)) m
  | None => m
  end.

Definition add_part (part : ContentPart) (msg : Message) : Message :=
  set_content (content msg ++ [part]) msg.
Definition add_call (call : ToolCall) (msg : Message) : Message :=
  set_tool_calls (tool_calls msg ++ [call]) msg.

(** The partial assistant message a step opens *)
Definition step_entry (seq : Z) : Entry :=
  mkEntry (mkContextMessage (mkMessage Assistant None [] [] None true) None false None) seq.

(** The token counters at the end of a step *)
Definition count_step (open_step_index : option nat) (total_usage : Z) (m : ContextMemory) : ContextMemory :=
  let len := length (history m) in
  let covered_count := match open_step_index with Some index => Nat.min (index + 1) len | None => len end in
  let m :=
    if 0 <? total_usage then
      set_request_overhead
        (sat_sub total_usage (estimate_messages_tokens (take covered_count (history m))))
        (set_token_count total_usage m)
    else if (covered m <? covered_count)%nat then
      let end_ := Nat.min covered_count len in
      if (covered m <? end_)%nat then
        set_token_count
          (wrap_u64 (token_count m + estimate_messages_tokens (slice (covered m) end_ (history m)))) m
      else m
    else m in
  set_covered covered_count m.

(** [append_loop_event]; [order] is the order in which the pending ids are
    drained when a step begins while some are left. *)
Definition append_loop_event (order : list string) (event : LoopEvent.t) (m : ContextMemory) : ContextMemory :=
  match event with
  | LoopEvent.StepBegin step_id seq =>
    let m := close_pending_tool_results order m in
    let index := length (history m) in
    let '(m, stored) := push_history (step_entry (default 0 seq)) m in
    if stored then set_open_steps (<[step_id := index]> (open_steps m)) m else m
  | LoopEvent.ContentPart step_id text => on_step step_id (add_part (Text text)) m
  | LoopEvent.ThinkPart step_id text => on_step step_id (add_part (Think text)) m
  | LoopEvent.ToolCall step_id tool_call_id tool_name args =>
    let m := on_step step_id (add_call (mkToolCall tool_call_id "function" tool_name (to_string args))) m in
    set_pending ({[tool_call_id]} ∪ pending m) m
  | LoopEvent.ToolResult tool_call_id output is_error note seq =>
    if bool_decide (tool_call_id ∈ pending m) then
      let content := match output with ToolScheduler.Text s => [Text s] | Parts parts => parts end in
      let m := push m (result_entry tool_call_id content is_error note (default 0 seq)) in
      flush_deferred_if_exchange_closed (set_pending (pending m ∖ {[tool_call_id]}) m)
    else m
  | LoopEvent.StepEnd step_id _ _ _ _ =>
    let open_step_index := open_steps m !! step_id in
    let m := set_open_steps (delete step_id (open_steps m)) m in
    let m := match open_step_index with Some index => settle index m | None => m end in
    flush_deferred_if_exchange_closed (count_step open_step_index (context_tokens event) m)
  end.

(** The two kinds of event [close_interrupted] applies *)
Definition interrupted_event (tool_call_id : string) : LoopEvent.t :=
  LoopEvent.ToolResult tool_call_id (ToolScheduler.Text TOOL_INTERRUPTED_ON_RESUME_OUTPUT) true None None.
Definition settled_event (step_id : string) : LoopEvent.t := LoopEvent.StepEnd step_id 0 0 0 0.

Definition fold_events (events : list LoopEvent.t) (m : ContextMemory) : ContextMemory :=
  foldl (fun m event => append_loop_event [] event m) m events.

(** [close_interrupted], with the orders in which the pending ids and the open
    steps are listed; it returns the events it applied. *)
Definition close_interrupted (pending_ids open_step_ids : list string) (m : ContextMemory)
  : ContextMemory * list LoopEvent.t :=
  let events := (interrupted_event <$> pending_ids) ++ (settled_event <$> open_step_ids) in
  (fold_events events m, events).

(** [settle_open_steps]: from the highest index down *)
Definition settle_from_top (m : ContextMemory) (index : nat) : ContextMemory :=
  match history m !! index with
  | None => m
  | Some e =>
    let m' := settle index m in
    if is_vacuous e && (length (history m') <? covered m')%nat then set_covered (length (history m')) m' else m'
  end.
Definition settle_open_steps (m : ContextMemory) : ContextMemory :=
  let open_indices := reverse (merge_sort le (snd <$> map_to_list (open_steps m))) in
  set_open_steps ∅ (foldl settle_from_top m open_indices).

End memory.

(** ** Compaction *)

Record CompactionInput : Type := mkCompactionInput {
  summary : string;
  context_summary : string;
  compacted_count : Z;
  tokens_before : Z;
  dropped_count : Z;
  retention_tail_start : option nat
}.

Record ApplyOutcome : Type := mkOutcome {
  applied : bool;
  retained_tail_count : nat;
  kept_head_user_message_count : nat;
  elision_message : option ContextMessage
}.
Definition refused : ApplyOutcome := mkOutcome false 0 0 None.

Definition summary_message (context_summary : string) : ContextMessage :=
  mkContextMessage (user_message context_summary) (Some CompactionSummary) false None.

Definition apply_compaction (input : CompactionInput) (m : ContextMemory) : ContextMemory * ApplyOutcome :=
  match retention_tail_start input with
  | None => (m, refused)
  | Some tail_start =>
    let tail_start := Nat.min tail_start (length (history m)) in
    let tokens_before := token_count_with_pending m in
    let prefix := take tail_start (history m) in
    let '(head, elided) := select_head_user_messages prefix COMPACT_USER_MESSAGE_HEAD_TOKENS in
    let head := if elided then head ++ [mkEntry elision_marker_message 0] else head in
    let kept_head := (length head - if elided then 1 else 0)%nat in
    let retained := (length (history m) - tail_start)%nat in
    let new_history :=
      head ++ [mkEntry (summary_message (context_summary input)) 0] ++ drop tail_start (history m) in
    let tokens_after := estimate_messages_tokens new_history in
    if tokens_before <=? tokens_after then (m, refused)
    else
      let summary_index := (length new_history - retained - 1)%nat in
      let seq := next_entry_seq m in
      let '(new_history, seq) :=
        if elided then (alter (set_entry_seq seq) (summary_index - 1)%nat new_history, seq + 1)
        else (new_history, seq) in
      let new_history := alter (set_entry_seq seq) summary_index new_history in
      let m := set_next_entry_seq (seq + 1) (set_history new_history m) in
      let m := set_deferred [] (set_pending ∅ (set_open_steps ∅ m)) in
      let m := set_token_count (wrap_u64 (tokens_after + request_overhead m)) m in
      let m := set_covered (length (history m)) m in
      (set_last_compacted (token_count_with_pending m) m,
       mkOutcome true retained kept_head (if elided then Some elision_marker_message else None))
  end.

(** ** Undo *)

Definition is_undo_anchor (e : Entry) : bool :=
  bool_decide (role (e_message e) = UserRole)
  && match origin (e_msg e) with None => true | Some o => is_real_user_input o end.

Definition has_origin (o : PromptOrigin) (e : Entry) : bool := bool_decide (origin (e_msg e) = Some o).

(** The walk from the tail, on the history read backwards *)
Fixpoint undo_walk (remaining : nat) (cut_index : option nat) (backwards : list Entry) : nat * option nat :=
  match backwards with
  | [] => (remaining, cut_index)
  | e :: older =>
    if (remaining =? 0)%nat then (remaining, cut_index)
    else if has_origin Injection e then undo_walk remaining cut_index older
    else if has_origin CompactionSummary e then (remaining, cut_index)
    else if is_undo_anchor e then undo_walk (remaining - 1)%nat (Some (length older)) older
    else undo_walk remaining cut_index older
  end.

Definition compute_undo_cut (history : list Entry) (count : nat) : option nat :=
  let '(remaining, cut_index) := undo_walk count None (reverse history) in
  if (0 <? remaining)%nat then None else cut_index.

Definition is_hook_message (e : Entry) : bool := has_origin HookAdditionalContext e || has_origin HookResult e.

Fixpoint drop_hooks (history : list Entry) : list Entry :=
  match history with
  | e :: rest => if is_hook_message e then drop_hooks rest else history
  | [] => []
  end.

Definition undo_count (count : nat) (m : ContextMemory) : result EngineError ContextMemory :=
  if (count =? 0)%nat then Ok m
  else
    match compute_undo_cut (history m) count with
    | None => Err (RequestInvalid "Nothing to undo: no user message to undo")
    | Some cut =>
      let m := set_open_steps (filter (fun step => (step.2 < cut)%nat) (open_steps m)) m in
      let m := set_deferred [] (set_pending ∅ m) in
      let m := set_history (drop_hooks (take cut (history m))) m in
      Ok (if (length (history m) <? covered m)%nat then
            set_token_count (wrap_u64 (estimate_messages_tokens (history m) + request_overhead m))
              (set_covered (length (history m)) m)
          else m)
    end.

Definition undo : ContextMemory -> result EngineError ContextMemory := undo_count 1.

Definition clear (m : ContextMemory) : ContextMemory :=
  mkMemory [] ∅ ∅ [] (max_history m) (max_deferred m) 0 0 0 0 0.
