(* ===== verification/MemorySound.v ===== *)
(** * The context memory: what holds whatever is done to it

    The operations as one type, the states they reach, and the invariants no
    operation breaks: the token count never claims messages that are not there,
    nothing waits once the exchange is closed, and the numbers of the messages
    are distinct. *)
From stdpp Require Import gmap list strings sorting.
From stdpp Require Import gmap list strings.
From S2P Require Import Prelude RustStd F64 Json ToolAccess ToolScheduler EngineError Context TokenEstimator Memory.
#[local] Open Scope list_scope.
#[local] Open Scope Z_scope.

(** ** Operations *)

Inductive Op : Type :=
| OpMessage (msg : ContextMessage)
| OpEvent (order : list string) (event : LoopEvent.t)
| OpClosePending (order : list string)
| OpCloseInterrupted (pending_ids open_step_ids : list string)
| OpSettle
| OpPop
| OpCompact (input : CompactionInput)
| OpUndo (count : nat)
| OpLimits (max_history max_deferred : nat)
| OpClear.

Section sound.
Context (to_string : json -> string).

Definition apply_op (op : Op) (m : ContextMemory) : ContextMemory :=
  match op with
  | OpMessage msg => append_message (mkEntry msg 0) m
  | OpEvent order event => append_loop_event to_string order event m
  | OpClosePending order => close_pending_tool_results order m
  | OpCloseInterrupted pending_ids open_step_ids => fst (close_interrupted to_string pending_ids open_step_ids m)
  | OpSettle => settle_open_steps m
  | OpPop => fst (pop_last_message m)
  | OpCompact input => fst (apply_compaction input m)
  | OpUndo count => match undo_count count m with Ok m' => m' | Err _ => m end
  | OpLimits a b => set_limits a b m
  | OpClear => clear m
  end.

(** An event recorded while it happens carries no number. *)
Definition live_event (event : LoopEvent.t) : Prop :=
  match event with
  | LoopEvent.StepBegin _ seq | LoopEvent.ToolResult _ _ _ _ seq => seq = None
  | _ => True
  end.
Definition live (op : Op) : Prop := match op with OpEvent _ event => live_event event | _ => True end.

Inductive reachable (max_history max_deferred : nat) : ContextMemory -> Prop :=
| m_start : reachable max_history max_deferred (with_limits max_history max_deferred)
| m_op m op : reachable max_history max_deferred m -> live op -> reachable max_history max_deferred (apply_op op m).

(** ** Storing a message *)

Lemma push_cases m msg :
  push m msg = m \/
  exists seq,
    push m msg = set_history (history m ++ [set_entry_seq seq msg])
                   (set_next_entry_seq (Z.max (next_entry_seq m) (sat_add seq 1)) m) /\
    (length (history m) < max_history m)%nat /\
    seq = (if entry_seq msg =? 0 then next_entry_seq m else entry_seq msg).
Proof.
  unfold push, push_history. destruct (max_history m <=? length (history m))%nat eqn:E; [by left|]. right.
  apply Nat.leb_gt in E. exists (if entry_seq msg =? 0 then next_entry_seq m else entry_seq msg).
  split_and!; [|done|done]. destruct msg as [msg seq]. simpl. by destruct (seq =? 0).
Qed.

(** Everything but the history and the counter of its numbers *)
Definition same_rest (m m' : ContextMemory) : Prop :=
  open_steps m' = open_steps m /\ pending m' = pending m /\ deferred m' = deferred m /\
  max_history m' = max_history m /\ max_deferred m' = max_deferred m /\ covered m' = covered m.

#[export] Instance same_rest_preorder : PreOrder same_rest.
Proof.
  split; [done|]. intros a b c (H1 & H2 & H3 & H4 & H5 & H6) (G1 & G2 & G3 & G4 & G5 & G6). repeat split; congruence.
Qed.

Lemma push_same m msg : same_rest m (push m msg).
Proof. by destruct (push_cases m msg) as [->|(seq & -> & _)]. Qed.

Lemma push_prefix m msg : history m `prefix_of` history (push m msg).
Proof. destruct (push_cases m msg) as [->|(seq & -> & _)]; [done|]. by eexists. Qed.

Lemma push_all_same l m : same_rest m (foldl push m l).
Proof.
  revert m. induction l as [|msg l IH]; intros m; simpl; [done|]. etrans; [apply push_same|apply IH].
Qed.

Lemma push_all_prefix l m : history m `prefix_of` history (foldl push m l).
Proof.
  revert m. induction l as [|msg l IH]; intros m; simpl; [done|]. etrans; [apply push_prefix|apply IH].
Qed.

Lemma has_open_spec m : has_open_tool_exchange m = true <-> pending m <> ∅.
Proof. unfold has_open_tool_exchange. by rewrite negb_true_iff, bool_decide_eq_false. Qed.

Lemma has_open_false m : has_open_tool_exchange m = false <-> pending m = ∅.
Proof. unfold has_open_tool_exchange. by rewrite negb_false_iff, bool_decide_eq_true. Qed.

(** Flushing: nothing happens while the exchange is open, and afterwards nothing waits. *)
Lemma flush_cases m :
  flush_deferred_if_exchange_closed m = m /\ (pending m <> ∅ \/ deferred m = []) \/
  pending m = ∅ /\
  flush_deferred_if_exchange_closed m
  = foldl push (set_deferred [] m) (take (max_history m - length (history m)) (deferred m)).
Proof.
  unfold flush_deferred_if_exchange_closed. destruct (has_open_tool_exchange m) eqn:E; simpl.
  { left. split; [done|]. left. by apply has_open_spec. }
  apply has_open_false in E. case_bool_decide as Hd; [by left; auto|]. by right.
Qed.

Lemma flush_frame m :
  let m' := flush_deferred_if_exchange_closed m in
  open_steps m' = open_steps m /\ pending m' = pending m /\ max_history m' = max_history m /\
  max_deferred m' = max_deferred m /\ covered m' = covered m /\ history m `prefix_of` history m' /\
  (deferred m' <> [] -> pending m' <> ∅).
Proof.
  cbv zeta. destruct (flush_cases m) as [[-> H]|[H ->]].
  - split_and!; [done..|]. by intros Hd; destruct H.
  - destruct (push_all_same (take (max_history m - length (history m)) (deferred m)) (set_deferred [] m))
      as (H1 & H2 & H3 & H4 & H5 & H6).
    split_and!; [done..| |by rewrite H3]. apply (push_all_prefix _ (set_deferred [] m)).
Qed.

(** ** Nothing waits once the exchange is closed *)

Definition waiting_ok (m : ContextMemory) : Prop := deferred m <> [] -> pending m <> ∅.

Lemma flush_waiting m : waiting_ok (flush_deferred_if_exchange_closed m).
Proof. by destruct (flush_frame m) as (_ & _ & _ & _ & _ & _ & H). Qed.

Lemma append_message_waiting msg m : waiting_ok m -> waiting_ok (append_message msg m).
Proof.
  unfold append_message. intros H. destruct (has_open_tool_exchange m) eqn:E.
  - destruct (max_deferred m <=? length (deferred m))%nat; [done|]. intros _. by apply has_open_spec.
  - destruct (push_same m msg) as (_ & H2 & H3 & _). unfold waiting_ok. by rewrite H2, H3.
Qed.

Lemma alter_keeps {A B} (f : A -> B) (g : A -> A) i (l : list A) :
  (forall x, f (g x) = f x) -> f <$> alter g i l = f <$> l.
Proof.
  intros H. apply list_eq. intros j. rewrite !list_lookup_fmap, list_lookup_alter. case_decide; [subst j|done].
  destruct (l !! i); simpl; [by rewrite H|done].
Qed.

Lemma on_step_frame step_id f m :
  let m' := on_step step_id f m in
  open_steps m' = open_steps m /\ pending m' = pending m /\ deferred m' = deferred m /\
  max_history m' = max_history m /\ max_deferred m' = max_deferred m /\ covered m' = covered m /\
  next_entry_seq m' = next_entry_seq m /\ length (history m') = length (history m) /\
  entry_seq <$> history m' = entry_seq <$> history m.
Proof.
  cbv zeta. unfold on_step. destruct (open_steps m !! step_id) as [i|]; [|done]. simpl.
  split_and!; [done..|by rewrite length_alter|]. apply alter_keeps. by intros [].
Qed.

Lemma close_pending_waiting order m : waiting_ok m -> waiting_ok (close_pending_tool_results order m).
Proof.
  unfold close_pending_tool_results. case_bool_decide; [done|]. intros _. apply flush_waiting.
Qed.

Lemma append_loop_event_waiting order event m :
  waiting_ok m -> waiting_ok (append_loop_event to_string order event m).
Proof.
  intros H. destruct event as [step_id seq|step_id text|step_id text|step_id id n args|id out e n seq|step_id i o r c]; simpl.
  - pose proof (close_pending_waiting order m H) as H1. revert H1. generalize (close_pending_tool_results order m).
    intros m1 H1. pose proof (push_same m1 (step_entry (default 0 seq))) as (_ & E2 & E3 & _). unfold push in *.
    destruct (push_history _ m1) as [m2 stored]. simpl in *. unfold waiting_ok in *.
    destruct stored; simpl; by rewrite E2, E3.
  - destruct (on_step_frame step_id (add_part (Text text)) m) as (_ & E2 & E3 & _). unfold waiting_ok. by rewrite E2, E3.
  - destruct (on_step_frame step_id (add_part (Think text)) m) as (_ & E2 & E3 & _). unfold waiting_ok. by rewrite E2, E3.
  - unfold waiting_ok. simpl. set_solver.
  - case_bool_decide; [|done]. apply flush_waiting.
  - apply flush_waiting.
Qed.

Lemma fold_events_waiting events m : waiting_ok m -> waiting_ok (fold_events to_string events m).
Proof.
  revert m. induction events as [|e events IH]; intros m H; [done|]. apply IH. by apply append_loop_event_waiting.
Qed.

Lemma settle_from_top_frame m i :
  let m' := settle_from_top m i in
  open_steps m' = open_steps m /\ pending m' = pending m /\ deferred m' = deferred m /\
  max_history m' = max_history m /\ max_deferred m' = max_deferred m /\ next_entry_seq m' = next_entry_seq m.
Proof.
  cbv zeta. unfold settle_from_top, settle. destruct (history m !! i) as [e|] eqn:E; [|done].
  destruct (is_vacuous e); simpl; [|done]. destruct (_ <? _)%nat; done.
Qed.

Lemma settle_all_frame l m :
  let m' := foldl settle_from_top m l in
  open_steps m' = open_steps m /\ pending m' = pending m /\ deferred m' = deferred m /\
  max_history m' = max_history m /\ max_deferred m' = max_deferred m /\ next_entry_seq m' = next_entry_seq m.
Proof.
  cbv zeta. revert m. induction l as [|i l IH]; intros m; [done|]. simpl.
  destruct (IH (settle_from_top m i)) as (-> & -> & -> & -> & -> & ->). apply settle_from_top_frame.
Qed.

Lemma apply_op_waiting op m : waiting_ok m -> waiting_ok (apply_op op m).
Proof.
  intros H. destruct op as [msg|order event|order|ps ss| | |input|count|a b|]; simpl; try done.
  - by apply append_message_waiting.
  - by apply append_loop_event_waiting.
  - by apply close_pending_waiting.
  - by apply fold_events_waiting.
  - unfold settle_open_steps, waiting_ok. simpl.
    destruct (settle_all_frame (reverse (merge_sort le (snd <$> map_to_list (open_steps m)))) m)
      as (_ & -> & -> & _). done.
  - unfold pop_last_message. destruct (last (history m)); [|done]. simpl. destruct (_ <? _)%nat; done.
  - unfold apply_compaction. destruct (retention_tail_start input); [|done]. cbv zeta.
    destruct (select_head_user_messages _ _) as [head elided]. destruct (_ <=? _); [done|].
    destruct elided; intros Hd; by destruct Hd.
  - unfold undo_count. destruct (count =? 0)%nat; [done|]. destruct (compute_undo_cut _ _); [|done]. cbv zeta.
    destruct (_ <? _)%nat; intros Hd; by destruct Hd.
  - intros Hd. by destruct Hd.
Qed.

(** ** The numbers of the messages *)

(** Distinct and below the counter, while the counter has not saturated *)
Record numbered (m : ContextMemory) : Prop := {
  n_next : 0 <= next_entry_seq m;
  n_deferred : Forall (fun e => entry_seq e = 0) (deferred m);
  n_seqs : next_entry_seq m < u64_max ->
    NoDup (entry_seq <$> history m) /\ Forall (fun n => 0 <= n < next_entry_seq m) (entry_seq <$> history m)
}.

Lemma numbered_push m msg : entry_seq msg = 0 -> numbered m -> numbered (push m msg).
Proof.
  intros Hm [H1 H2 H3]. destruct (push_cases m msg) as [->|(n & -> & _ & Hn)]; [done|].
  rewrite Hm in Hn. simpl in Hn. subst n. split; simpl; [unfold sat_add; lia|done|]. intros Hlt.
  unfold sat_add in *. destruct H3 as [Hn Hb]; [lia|].
  rewrite fmap_app, Z.max_r, Z.min_l by lia. simpl. split.
  - apply NoDup_app. split_and!; [done| |apply NoDup_singleton].
    intros n Hin ->%list_elem_of_singleton. rewrite Forall_forall in Hb. apply Hb in Hin. lia.
  - apply Forall_app. split; [|by repeat constructor; lia]. eapply Forall_impl; [exact Hb|]. simpl. lia.
Qed.

Lemma numbered_push_all l m : Forall (fun e => entry_seq e = 0) l -> numbered m -> numbered (foldl push m l).
Proof.
  intros Hl. revert m. induction Hl as [|e l He _ IH]; intros m H; [done|]. by apply IH, numbered_push.
Qed.

Lemma numbered_less m m' :
  next_entry_seq m' = next_entry_seq m -> (deferred m' = deferred m \/ deferred m' = []) ->
  entry_seq <$> history m' `sublist_of` entry_seq <$> history m -> numbered m -> numbered m'.
Proof.
  intros En Ed Es [H1 H2 H3]. split; [by rewrite En|by destruct Ed as [-> | ->]|].
  rewrite En. intros Hlt. destruct (H3 Hlt) as [Hn Hb]. split; [by eapply sublist_NoDup|].
  rewrite Forall_forall in Hb |- *. intros n Hin. apply Hb.
  by eapply elem_of_submseteq; [exact Hin|apply sublist_submseteq].
Qed.

Lemma numbered_flush m : numbered m -> numbered (flush_deferred_if_exchange_closed m).
Proof.
  intros H. destruct (flush_cases m) as [[-> _]|[_ ->]]; [done|].
  apply numbered_push_all; [apply Forall_take, H|]. by apply (numbered_less m); [done|auto|done|done].
Qed.

Lemma numbered_append msg m : entry_seq msg = 0 -> numbered m -> numbered (append_message msg m).
Proof.
  intros Hm H. unfold append_message. destruct (has_open_tool_exchange m); [|by apply numbered_push].
  destruct (max_deferred m <=? length (deferred m))%nat; [done|].
  destruct H as [H1 H2 H3]. split; simpl; [done| |done]. apply Forall_app. by repeat constructor.
Qed.

Lemma numbered_close order m : numbered m -> numbered (close_pending_tool_results order m).
Proof.
  intros H. unfold close_pending_tool_results. case_bool_decide; [done|]. apply numbered_flush.
  assert (Hl : forall l m, numbered m -> numbered (foldl (fun m id => push m (interrupted_result id)) m l)).
  { induction l as [|id l IH]; intros m1 H1; [done|]. by apply IH, numbered_push. }
  apply Hl. by apply (numbered_less m); [done|auto|done|done].
Qed.

Lemma sublist_fmap {A B} (f : A -> B) (l k : list A) : l `sublist_of` k -> f <$> l `sublist_of` f <$> k.
Proof. induction 1; simpl; by constructor. Qed.

Lemma settle_sublist i m :
  let m' := settle i m in
  entry_seq <$> history m' `sublist_of` entry_seq <$> history m /\ m' = set_history (history m') m.
Proof.
  cbv zeta. unfold settle. destruct (history m !! i) as [e|] eqn:E; [|by destruct m].
  destruct (is_vacuous e); simpl; (split; [|by destruct m]).
  - apply sublist_fmap, sublist_delete.
  - rewrite alter_keeps; [done|by intros []].
Qed.

Lemma count_step_frame oi t m :
  let m' := count_step oi t m in
  history m' = history m /\ open_steps m' = open_steps m /\ pending m' = pending m /\ deferred m' = deferred m /\
  next_entry_seq m' = next_entry_seq m /\ max_history m' = max_history m /\ max_deferred m' = max_deferred m /\
  (covered m' <= length (history m'))%nat.
Proof.
  cbv zeta. unfold count_step.
  destruct (0 <? t); [|destruct (_ <? _)%nat; [destruct (_ <? _)%nat|]]; simpl;
    (split_and!; [done..|]; destruct oi; lia).
Qed.

Lemma numbered_event order event m :
  live_event event -> numbered m -> numbered (append_loop_event to_string order event m).
Proof.
  intros Hl H.
  assert (Hstep : forall s f, numbered (on_step s f m)).
  { intros s f. destruct (on_step_frame s f m) as (_ & _ & Ed & _ & _ & _ & En & _ & Es).
    eapply numbered_less; [exact En|by left|by rewrite Es|done]. }
  destruct event as [step_id seq|step_id text|step_id text|step_id id n args|id out e n seq|step_id i o r c]; simpl in *.
  - subst seq. apply (numbered_close order) in H. revert H. generalize (close_pending_tool_results order m).
    intros m1 H. apply (numbered_push _ (step_entry 0)) in H; [|done]. unfold push in H. simpl.
    destruct (push_history _ m1) as [m2 stored]. simpl in *. destruct stored; [|done].
    by apply (numbered_less m2); [done|auto|done|done].
  - apply Hstep.
  - apply Hstep.
  - match goal with |- numbered (set_pending _ ?k) => apply (numbered_less k); [done|by left|done|apply Hstep] end.
  - subst seq. case_bool_decide; [|done]. apply numbered_flush.
    match goal with |- numbered (set_pending _ ?k) => apply (numbered_less k); [done|by left|done|by apply numbered_push] end.
  - apply numbered_flush. set (m1 := set_open_steps _ m).
    assert (H1 : numbered m1) by (by apply (numbered_less m); [done|auto|done|done]).
    set (m2 := match open_steps m !! step_id with Some i => settle i m1 | None => m1 end).
    assert (H2 : numbered m2).
    { subst m2. destruct (open_steps m !! step_id) as [j|]; [|done].
      destruct (settle_sublist j m1) as [Hs Heq].
      apply (numbered_less m1); [by rewrite Heq|left; by rewrite Heq|exact Hs|done]. }
    destruct (count_step_frame (open_steps m !! step_id) (sat_add (sat_add (sat_add i o) r) c) m2)
      as (Eh & _ & _ & Ed & En & _).
    eapply numbered_less; [exact En|by left|by rewrite Eh|exact H2].
Qed.

Lemma numbered_events events m :
  Forall live_event events -> numbered m -> numbered (fold_events to_string events m).
Proof.
  intros Hl. revert m. induction Hl as [|e l He _ IH]; intros m H; [done|]. by apply IH, numbered_event.
Qed.

Lemma settle_from_top_sublist i m :
  entry_seq <$> history (settle_from_top m i) `sublist_of` entry_seq <$> history m.
Proof.
  unfold settle_from_top. destruct (settle_sublist i m) as [Hs _].
  destruct (history m !! i); [|done]. by destruct (is_vacuous e && _).
Qed.

Lemma settle_all_sublist l m :
  entry_seq <$> history (foldl settle_from_top m l) `sublist_of` entry_seq <$> history m.
Proof.
  revert m. induction l as [|i l IH]; intros m; [done|]. simpl. etrans; [apply IH|apply settle_from_top_sublist].
Qed.

Lemma number_summary (g : Entry -> Entry) kept y tail :
  let new := kept ++ [y] ++ tail in
  alter g (length new - length tail - 1)%nat new = kept ++ g y :: tail.
Proof.
  cbv zeta. replace (_ - _ - 1)%nat with (length kept + 0)%nat by (rewrite !length_app; simpl; lia).
  by rewrite alter_app_r.
Qed.

Lemma number_marks (f g : Entry -> Entry) kept x y tail :
  let new := (kept ++ [x]) ++ [y] ++ tail in
  let i := (length new - length tail - 1)%nat in
  alter g i (alter f (i - 1)%nat new) = kept ++ [f x] ++ g y :: tail.
Proof.
  cbv zeta. replace (_ - _ - 1 - 1)%nat with (length kept + 0)%nat by (rewrite !length_app; simpl; lia).
  rewrite <- app_assoc, alter_app_r. simpl.
  replace (_ - _ - 1)%nat with (length kept + 1)%nat by (rewrite !length_app; simpl; lia).
  by rewrite alter_app_r.
Qed.

(** What an applied compaction leaves: the kept head, the marker when user input
    was left out, the summary and the tail. *)
Lemma apply_compaction_cases input m :
  apply_compaction input m = (m, refused) \/
  exists (start : nat) (kept : list Entry) (elided : bool) m' out,
    retention_tail_start input = Some start /\ apply_compaction input m = (m', out) /\
    let cut := Nat.min start (length (history m)) in
    let next := next_entry_seq m + (if elided then 1 else 0) in
    select_head_user_messages (take cut (history m)) COMPACT_USER_MESSAGE_HEAD_TOKENS = (kept, elided) /\
    history m' = kept ++ (if elided then [mkEntry elision_marker_message (next_entry_seq m)] else [])
                 ++ mkEntry (summary_message (context_summary input)) next :: drop cut (history m) /\
    next_entry_seq m' = next + 1 /\ deferred m' = [] /\ pending m' = ∅ /\ open_steps m' = ∅ /\
    covered m' = length (history m') /\
    token_count m' = wrap_u64 (estimate_messages_tokens (history m') + request_overhead m) /\
    estimate_messages_tokens (history m') < token_count_with_pending m /\
    out = mkOutcome true (length (history m) - cut) (length kept)
            (if elided then Some elision_marker_message else None).
Proof.
  unfold apply_compaction. destruct (retention_tail_start input) as [start|]; [|by left]. cbv zeta.
  set (cut := Nat.min start (length (history m))).
  destruct (select_head_user_messages _ _) as [kept elided] eqn:Ek.
  destruct (token_count_with_pending m <=? _) eqn:Et; [by left|right].
  apply Z.leb_gt in Et. exists start, kept, elided.
  assert (Hlen : (length (history m) - cut)%nat = length (drop cut (history m))) by (by rewrite length_drop).
  rewrite Hlen in *. destruct elided.
  - rewrite number_marks. do 2 eexists. split; [done|]. split; [reflexivity|]. cbv zeta. simpl.
    unfold set_entry_seq. simpl. unfold estimate_messages_tokens in *. rewrite !fmap_app, !fmap_cons in *. simpl in *.
    rewrite <- app_assoc in Et |- *. simpl in Et |- *. split_and!; try done.
    f_equal; [done|]. rewrite length_app. simpl. lia.
  - rewrite number_summary. do 2 eexists. split; [done|]. split; [reflexivity|]. cbv zeta. simpl.
    unfold set_entry_seq. simpl. unfold estimate_messages_tokens in *. rewrite Z.add_0_r, !fmap_app, !fmap_cons in *. simpl in *.
    split_and!; try done. f_equal; [done|lia].
Qed.

Lemma head_loop_sublist n l : head_loop n l `sublist_of` l.
Proof.
  revert n. induction l as [|e l IH]; intros n; simpl; [done|].
  destruct (is_real e); [|by apply sublist_cons, IH].
  destruct (n <? _); [apply sublist_nil_l|by apply sublist_skip, IH].
Qed.

Lemma numbered_compact input m : numbered m -> numbered (fst (apply_compaction input m)).
Proof.
  intros H. destruct (apply_compaction_cases input m)
    as [->|(start & kept & elided & m' & out & _ & -> & Hk & Eh & En & Ed & _)]; [done|]. simpl.
  set (cut := Nat.min start (length (history m))) in *. set (next := next_entry_seq m) in *.
  destruct H as [H1 H2 H3].
  assert (Hsub : entry_seq <$> kept ++ drop cut (history m) `sublist_of` entry_seq <$> history m).
  { apply sublist_fmap. rewrite <- (take_drop cut (history m)) at 2. apply sublist_app; [|done].
    unfold select_head_user_messages in Hk. injection Hk as <- _. apply head_loop_sublist. }
  rewrite fmap_app in Hsub.
  split; [destruct elided; lia|by rewrite Ed|]. intros Hlt.
  destruct H3 as [Hn Hb]; [destruct elided; lia|].
  assert (Hb' : Forall (fun n => 0 <= n < next) (entry_seq <$> kept ++ drop cut (history m))).
  { rewrite fmap_app. rewrite Forall_forall in Hb |- *. intros n Hin. apply Hb.
    by eapply elem_of_submseteq; [exact Hin|apply sublist_submseteq]. }
  apply (sublist_NoDup _ _ Hn) in Hsub. rewrite fmap_app in Hb'. rewrite Eh, En, !fmap_app, fmap_cons. simpl.
  assert (Hp : forall new : list Z, NoDup new -> Forall (fun n => next <= n < next + (if elided then 1 else 0) + 1) new ->
            NoDup ((entry_seq <$> kept) ++ new ++ (entry_seq <$> drop cut (history m))) /\
            Forall (fun n => 0 <= n < next + (if elided then 1 else 0) + 1)
              ((entry_seq <$> kept) ++ new ++ (entry_seq <$> drop cut (history m)))).
  { intros new Hnew Hfn. split.
    - rewrite (Permutation_app_swap_app _ new). apply NoDup_app. split_and!; [done| |done].
      intros n Hin Hin'. rewrite Forall_forall in Hfn, Hb'. apply Hfn in Hin. apply Hb' in Hin'. lia.
    - rewrite Forall_app in Hb'. rewrite !Forall_app.
      split_and!; [eapply Forall_impl; [apply Hb'|]|eapply Forall_impl; [apply Hfn|]|eapply Forall_impl; [apply Hb'|]];
        simpl; destruct elided; lia. }
  destruct elided; simpl.
  - apply (Hp [next; next + 1]); [|repeat constructor; lia].
    apply NoDup_cons. split; [|apply NoDup_singleton]. intros E%list_elem_of_singleton. lia.
  - apply (Hp [next + 0]); [apply NoDup_singleton|repeat constructor; lia].
Qed.

Lemma drop_hooks_sublist l : drop_hooks l `sublist_of` l.
Proof.
  induction l as [|e l IH]; simpl; [done|]. destruct (is_hook_message e); [|done].
  by apply sublist_cons.
Qed.

(** What an undo that succeeds does *)
Lemma undo_count_cases count m :
  undo_count count m = Ok m /\ count = 0%nat \/
  (exists e, undo_count count m = Err e) /\ compute_undo_cut (history m) count = None \/
  exists cut m',
    (count <> 0)%nat /\ compute_undo_cut (history m) count = Some cut /\ undo_count count m = Ok m' /\
    history m' = drop_hooks (take cut (history m)) /\ next_entry_seq m' = next_entry_seq m /\
    deferred m' = [] /\ pending m' = ∅ /\ (covered m' <= length (history m'))%nat /\
    open_steps m' = filter (fun step => (step.2 < cut)%nat) (open_steps m).
Proof.
  unfold undo_count. destruct (count =? 0)%nat eqn:Ec; [left; by apply Nat.eqb_eq in Ec|right].
  apply Nat.eqb_neq in Ec. destruct (compute_undo_cut _ _) as [cut|]; [right|left; eauto]. cbv zeta.
  exists cut. destruct (_ <? _)%nat eqn:E; eexists; split_and!; try done; simpl in *; try done.
  by apply Nat.ltb_ge in E.
Qed.

Lemma apply_op_numbered op m : live op -> numbered m -> numbered (apply_op op m).
Proof.
  intros Hl H. destruct op as [msg|order event|order|ps ss| | |input|count|a b|]; simpl in *.
  - by apply numbered_append.
  - by apply numbered_event.
  - by apply numbered_close.
  - apply numbered_events; [|done]. apply Forall_app. split; by apply Forall_fmap, Forall_true.
  - destruct (settle_all_frame (reverse (merge_sort le (snd <$> map_to_list (open_steps m)))) m)
      as (_ & _ & Ed & _ & _ & En).
    apply (numbered_less m); [done|by left|apply settle_all_sublist|done].
  - unfold pop_last_message. destruct (last (history m)) as [e|] eqn:E; [|done]. cbv zeta.
    apply (numbered_less m); [by simpl; destruct (_ <? _)%nat|left; by simpl; destruct (_ <? _)%nat| |done].
    apply sublist_fmap. destruct (_ <? _)%nat; simpl; apply last_Some in E as [l ->];
      rewrite removelast_last; by apply sublist_inserts_r.
  - by apply numbered_compact.
  - destruct (undo_count_cases count m) as [[-> _]|[[[e ->] _]|(cut & m' & _ & _ & -> & Eh & En & Ed & _)]]; [done..|].
    apply (numbered_less m); [done|by right| |done]. rewrite Eh. apply sublist_fmap.
    etrans; [apply drop_hooks_sublist|apply sublist_take].
  - by destruct H.
  - split; simpl; [done..|]. intros _. split; constructor.
Qed.

(** ** What the token count covers *)

Definition in_range (m : ContextMemory) : Prop := (covered m <= length (history m))%nat.

Lemma prefix_in_range m m' : covered m' = covered m -> history m `prefix_of` history m' -> in_range m -> in_range m'.
Proof. unfold in_range. intros -> H%prefix_length ?. lia. Qed.

Lemma flush_in_range m : in_range m -> in_range (flush_deferred_if_exchange_closed m).
Proof. destruct (flush_frame m) as (_ & _ & _ & _ & E & Hp & _). by apply prefix_in_range. Qed.

Lemma push_in_range m msg : in_range m -> in_range (push m msg).
Proof. destruct (push_same m msg) as (_ & _ & _ & _ & _ & E). apply prefix_in_range; [done|apply push_prefix]. Qed.

Lemma close_in_range order m : in_range m -> in_range (close_pending_tool_results order m).
Proof.
  intros H. unfold close_pending_tool_results. case_bool_decide; [done|]. apply flush_in_range.
  assert (Hl : forall l m, in_range m -> in_range (foldl (fun m id => push m (interrupted_result id)) m l)).
  { induction l as [|id l IH]; intros m1 H1; [done|]. by apply IH, push_in_range. }
  by apply Hl.
Qed.

Lemma event_in_range order event m : in_range m -> in_range (append_loop_event to_string order event m).
Proof.
  intros H.
  assert (Hstep : forall s f, in_range (on_step s f m)).
  { intros s f. destruct (on_step_frame s f m) as (_ & _ & _ & _ & _ & Ec & _ & El & _).
    unfold in_range. by rewrite Ec, El. }
  destruct event as [step_id seq|step_id text|step_id text|step_id id n args|id out e n seq|step_id i o r c];
    simpl in *; try apply Hstep.
  - apply (close_in_range order) in H. revert H. generalize (close_pending_tool_results order m).
    intros m1 H. apply (push_in_range _ (step_entry (default 0 seq))) in H. unfold push in H.
    destruct (push_history _ m1) as [m2 stored]. by destruct stored.
  - case_bool_decide; [|done]. by apply flush_in_range, (push_in_range m).
  - apply flush_in_range. unfold in_range. eapply count_step_frame.
Qed.

Lemma apply_op_in_range op m : in_range m -> in_range (apply_op op m).
Proof.
  intros H. destruct op as [msg|order event|order|ps ss| | |input|count|a b|]; simpl in *; try done.
  - unfold append_message. destruct (has_open_tool_exchange m); [|by apply push_in_range].
    by destruct (max_deferred m <=? length (deferred m))%nat.
  - by apply event_in_range.
  - by apply close_in_range.
  - generalize ((interrupted_event <$> ps) ++ (settled_event <$> ss)). intros l. revert m H.
    induction l as [|e l IH]; intros m H; [done|]. by apply IH, event_in_range.
  - unfold in_range, settle_open_steps. simpl. generalize (reverse (merge_sort le (snd <$> map_to_list (open_steps m)))).
    intros l. revert m H. induction l as [|i l IH]; intros m H; [done|]. apply IH. unfold settle_from_top, settle.
    destruct (history m !! i) as [e|] eqn:E; [|done]. apply lookup_lt_Some in E. unfold in_range in *.
    destruct (is_vacuous e); simpl; [|by rewrite length_alter].
    destruct (_ <? _)%nat eqn:El; simpl; [done|]. by apply Nat.ltb_ge in El.
  - unfold pop_last_message. destruct (last (history m)) as [e|]; [|done]. cbv zeta. unfold in_range.
    destruct (_ <? _)%nat eqn:El; simpl in *; [done|]. by apply Nat.ltb_ge in El.
  - destruct (apply_compaction_cases input m)
      as [->|(? & ? & ? & m' & out & _ & -> & _ & _ & _ & _ & _ & _ & E & _)]; [done|]. unfold in_range. simpl. by rewrite E.
  - by destruct (undo_count_cases count m) as [[-> _]|[[[e ->] _]|(cut & m' & _ & _ & -> & _ & _ & _ & _ & Hr & _)]].
  - unfold in_range. simpl. lia.
Qed.

(** ** The invariant *)

(** Whatever is done to a memory: its token count covers messages that are there,
    so that no range it is used for can be out of bounds; a message waits only
    while a result is missing; and the messages carry distinct numbers below the
    counter. *)
Theorem memory_sound max_history max_deferred m :
  reachable max_history max_deferred m ->
  (covered m <= length (history m))%nat /\
  (deferred m <> [] -> pending m <> ∅) /\
  (next_entry_seq m < u64_max ->
     NoDup (entry_seq <$> history m) /\ Forall (fun n => 0 <= n < next_entry_seq m) (entry_seq <$> history m)).
Proof.
  intros H. assert (Hall : in_range m /\ waiting_ok m /\ numbered m).
  { induction H as [|m op _ (IH1 & IH2 & IH3) Hl].
    - split_and!; [unfold in_range; simpl; lia|by intros Hd|]. split; simpl; [done|constructor|]. intros _. split; constructor.
    - split_and!; [by apply apply_op_in_range|by apply apply_op_waiting|by apply apply_op_numbered]. }
  destruct Hall as (H1 & H2 & []). done.
Qed.

Definition run (ops : list Op) (m : ContextMemory) : ContextMemory := foldl (fun m op => apply_op op m) m ops.

Lemma memory_run_reachable h d ops m : reachable h d m -> Forall live ops -> reachable h d (run ops m).
Proof.
  intros Hr Hl. revert m Hr. induction Hl as [|op ops Hop _ IH]; intros m Hr; [done|]. by apply IH, m_op.
Qed.
End sound.

(** ** An example: a call with a message that arrives meanwhile *)

Definition no_json (_ : json) : string := "{}".
Definition says (text : string) : ContextMessage := mkContextMessage (user_message text) (Some User) false None.
Definition sample_ops : list Op :=
  [OpMessage (says "hello");
   OpEvent [] (LoopEvent.StepBegin "s1" None);
   OpEvent [] (LoopEvent.ContentPart "s1" "let me look");
   OpEvent [] (LoopEvent.ToolCall "s1" "c1" "Read" JNull);
   OpMessage (says "also this");
   OpEvent [] (LoopEvent.ToolResult "c1" (ToolScheduler.Text "found") false None None);
   OpEvent [] (LoopEvent.StepEnd "s1" 10 5 0 0)].
Definition sample_memory (n : nat) : ContextMemory := run no_json (take n sample_ops) (with_limits 100 10).

Lemma memory_sound_witness :
  deferred (sample_memory 5) <> [] /\ pending (sample_memory 5) <> ∅ /\ NoDup (entry_seq <$> history (sample_memory 7)).
Proof.
  assert (Hr : forall n, reachable no_json 100 10 (sample_memory n)).
  { intros n. apply memory_run_reachable; [constructor|]. apply Forall_take. by repeat constructor. }
  assert (Hd : deferred (sample_memory 5) <> []) by (vm_compute; discriminate).
  split_and!; [done|by apply (memory_sound no_json 100 10 _ (Hr 5%nat))|].
  apply (memory_sound no_json 100 10 _ (Hr 7%nat)). vm_compute. done.
Defined.

(** ** Replaying recorded operations on the memory

    How the operations a turn records act on the context memory, and that writing
    the reminders of a batch of results after the results, instead of between them
    as they were appended, gives the same memory. *)

Section replay.
Context (to_string : json -> string).
Notation append := (append_loop_event to_string []).

(** ** Appending a result and a reminder in either order *)

Lemma push_set_deferred x m msg : push (set_deferred x m) msg = set_deferred x (push m msg).
Proof. unfold push, push_history. simpl. by destruct (_ <=? _)%nat. Qed.
Lemma push_over_pending x m msg : push (set_pending x m) msg = set_pending x (push m msg).
Proof. unfold push, push_history. simpl. by destruct (_ <=? _)%nat. Qed.

Lemma push_full m msg : (max_history m <= length (history m))%nat -> push m msg = m.
Proof. intros H. unfold push, push_history. by rewrite (proj2 (Nat.leb_le _ _) H). Qed.

Lemma push_length m msg :
  (length (history m) < max_history m)%nat -> length (history (push m msg)) = S (length (history m)).
Proof.
  intros H. destruct (push_cases m msg) as [E|(seq & -> & _)].
  - unfold push, push_history in E. rewrite (proj2 (Nat.leb_gt _ _) H) in E.
    apply (f_equal (fun m => length (history m))) in E. simpl in E. rewrite length_app in E. simpl in E. lia.
  - simpl. rewrite length_app. simpl. lia.
Qed.

Lemma push_all_length l m :
  (length (history m) + length l <= max_history m)%nat ->
  length (history (foldl push m l)) = (length (history m) + length l)%nat.
Proof.
  revert m. induction l as [|x l IH]; intros m H; simpl in *; [lia|].
  destruct (push_same m x) as (_ & _ & _ & Em & _). rewrite IH, push_length; rewrite ?push_length, ?Em; lia.
Qed.

(** Pushing until the history is full is pushing what fits. *)
Lemma push_all_take l m :
  foldl push m (take (max_history m - length (history m)) l) = foldl push m l.
Proof.
  revert m. induction l as [|x l IH]; intros m; [by rewrite take_nil|].
  destruct (decide (length (history m) < max_history m)%nat) as [H|H].
  - destruct (max_history m - length (history m))%nat as [|k] eqn:E; [lia|]. simpl.
    destruct (push_same m x) as (_ & _ & _ & Em & _).
    rewrite <- IH, Em, push_length by done. do 2 f_equal. lia.
  - replace (max_history m - length (history m))%nat with O by lia. simpl. rewrite push_full by lia.
    clear IH. induction l as [|y l IH]; simpl; [done|]. by rewrite push_full by lia.
Qed.

Lemma flush_spec m :
  flush_deferred_if_exchange_closed m =
  if has_open_tool_exchange m then m else foldl push (set_deferred [] m) (deferred m).
Proof.
  unfold flush_deferred_if_exchange_closed. destruct (has_open_tool_exchange m); [done|]. simpl.
  case_bool_decide as Hd; [by rewrite Hd; destruct m; simpl in *; subst|].
  apply (push_all_take (deferred m) (set_deferred [] m)).
Qed.

(** A reminder that waits for a result is found behind it just as if it had come
    after it. *)
Lemma result_reminder id out err n seq msg m :
  waiting_ok m -> (length (deferred m) < max_deferred m)%nat ->
  append (LoopEvent.ToolResult id out err n seq) (append_message msg m)
  = append_message msg (append (LoopEvent.ToolResult id out err n seq) m).
Proof.
  intros Hw Hroom. simpl.
  assert (Ep : pending (append_message msg m) = pending m).
  { unfold append_message. destruct (has_open_tool_exchange m); [by destruct (_ <=? _)%nat|].
    by destruct (push_same m msg) as (_ & -> & _). }
  rewrite Ep. case_bool_decide as Hin; [|done].
  assert (Eo : has_open_tool_exchange m = true) by (apply has_open_spec; set_solver).
  set (r := result_entry _ _ _ _ _).
  assert (Ea : append_message msg m = set_deferred (deferred m ++ [msg]) m).
  { unfold append_message. rewrite Eo. by rewrite (proj2 (Nat.leb_gt _ _) Hroom). }
  rewrite Ea, push_set_deferred.
  destruct (push_same m r) as (_ & Ep' & Ed' & Emh & Emd & _). cbn [pending set_deferred]. rewrite Ep'.
  set (P := pending m ∖ {[id]}).
  rewrite !flush_spec. unfold has_open_tool_exchange. cbn [pending set_pending set_deferred].
  case_bool_decide as HP; simpl.
  - rewrite foldl_app. simpl. unfold append_message, has_open_tool_exchange.
    set (m1 := foldl push (set_deferred [] (set_pending P (push m r))) (deferred (push m r))).
    assert (E1 : pending m1 = P).
    { destruct (push_all_same (deferred (push m r)) (set_deferred [] (set_pending P (push m r)))) as (_ & H & _).
      unfold m1. by rewrite H. }
    rewrite E1. rewrite bool_decide_eq_true_2 by done. simpl. unfold m1. rewrite Ed'. done.
  - unfold append_message, has_open_tool_exchange. cbn [pending set_pending].
    rewrite bool_decide_eq_false_2 by done. simpl. rewrite Emd, Ed'.
    by rewrite (proj2 (Nat.leb_gt _ _) Hroom).
Qed.

(** ** What an event does to the open exchange *)

Definition pending_after (event : LoopEvent.t) (P : gset string) : gset string :=
  match event with
  | LoopEvent.StepBegin _ _ => ∅
  | LoopEvent.ToolCall _ id _ _ => {[id]} ∪ P
  | LoopEvent.ToolResult id _ _ _ _ => P ∖ {[id]}
  | _ => P
  end.

Lemma append_event_frame event m :
  pending (append event m) = pending_after event (pending m) /\
  (length (deferred (append event m)) <= length (deferred m))%nat /\
  max_deferred (append event m) = max_deferred m.
Proof.
  assert (Hflush : forall m, pending (flush_deferred_if_exchange_closed m) = pending m /\
            (length (deferred (flush_deferred_if_exchange_closed m)) <= length (deferred m))%nat /\
            max_deferred (flush_deferred_if_exchange_closed m) = max_deferred m).
  { intros m1. rewrite flush_spec. destruct (has_open_tool_exchange m1); [done|].
    destruct (push_all_same (deferred m1) (set_deferred [] m1)) as (_ & -> & -> & _ & -> & _). simpl. split_and!; [done|lia|done]. }
  assert (Hstep : forall s f, pending (on_step s f m) = pending m /\
            (length (deferred (on_step s f m)) <= length (deferred m))%nat /\
            max_deferred (on_step s f m) = max_deferred m).
  { intros s f. destruct (on_step_frame s f m) as (_ & -> & -> & _ & -> & _). done. }
  destruct event as [step_id seq|step_id text|step_id text|step_id id n args|id out e n seq|step_id i o r c]; simpl.
  - assert (Hc : pending (close_pending_tool_results [] m) = ∅ /\
              (length (deferred (close_pending_tool_results [] m)) <= length (deferred m))%nat /\
              max_deferred (close_pending_tool_results [] m) = max_deferred m).
    { unfold close_pending_tool_results. case_bool_decide as Hp; [done|]. simpl. apply (Hflush (set_pending ∅ m)). }
    revert Hc. generalize (close_pending_tool_results [] m). intros m1 (C1 & C2 & C3).
    destruct (push_same m1 (step_entry (default 0 seq))) as (_ & E2 & E3 & _ & E5 & _). unfold push in *.
    destruct (push_history _ m1) as [m2 stored]. simpl in *.
    destruct stored; simpl; rewrite E2, E3, E5; done.
  - apply Hstep.
  - apply Hstep.
  - destruct (Hstep step_id (add_call (mkToolCall id "function" n (to_string args)))) as (E1 & E2 & E3). simpl.
    by rewrite E1.
  - case_bool_decide as Hin; [|split_and!; [set_solver|done|done]].
    set (r := result_entry _ _ _ _ _). destruct (push_same m r) as (_ & E2 & E3 & _ & E5 & _).
    destruct (Hflush (set_pending (pending (push m r) ∖ {[id]}) (push m r))) as (-> & H2 & ->). simpl in *.
    rewrite E2 in H2. rewrite E2, E5, <- E3. split_and!; [done|exact H2|done].
  - set (m1 := match open_steps m !! step_id with Some j => settle j (set_open_steps (delete step_id (open_steps m)) m)
               | None => set_open_steps (delete step_id (open_steps m)) m end).
    assert (Em : pending m1 = pending m /\ deferred m1 = deferred m /\ max_deferred m1 = max_deferred m).
    { subst m1. destruct (open_steps m !! step_id) as [j|]; [|done].
      destruct (settle_sublist j (set_open_steps (delete step_id (open_steps m)) m)) as [_ ->]. done. }
    destruct Em as (E1 & E2 & E3).
    destruct (count_step_frame (open_steps m !! step_id) (sat_add (sat_add (sat_add i o) r) c) m1)
      as (_ & _ & C3 & C4 & _ & _ & C7 & _).
    destruct (Hflush (count_step (open_steps m !! step_id) (sat_add (sat_add (sat_add i o) r) c) m1)) as (-> & H2 & ->).
    rewrite C3, C4, C7, E1, E2, E3 in *. done.
Qed.

Lemma fold_events_frame events m :
  pending (fold_events to_string events m) = foldl (fun P e => pending_after e P) (pending m) events /\
  (length (deferred (fold_events to_string events m)) <= length (deferred m))%nat /\
  max_deferred (fold_events to_string events m) = max_deferred m.
Proof.
  revert m. induction events as [|e events IH]; intros m; [done|]. simpl.
  destruct (append_event_frame e m) as (E1 & E2 & E3). destruct (IH (append e m)) as (-> & H2 & ->).
  rewrite E1, E3. split_and!; [done|lia|done].
Qed.

Lemma fold_events_app a b m :
  fold_events to_string (a ++ b) m = fold_events to_string b (fold_events to_string a m).
Proof. apply foldl_app. Qed.

Lemma reminder_pending t m : pending (append_system_reminder t m) = pending m.
Proof.
  unfold append_system_reminder, append_message. destruct (has_open_tool_exchange m); [by destruct (_ <=? _)%nat|].
  by destruct (push_same m (system_reminder t)) as (_ & -> & _).
Qed.
Lemma reminder_max t m : max_deferred (append_system_reminder t m) = max_deferred m.
Proof.
  unfold append_system_reminder, append_message. destruct (has_open_tool_exchange m); [by destruct (_ <=? _)%nat|].
  by destruct (push_same m (system_reminder t)) as (_ & _ & _ & _ & -> & _).
Qed.
Lemma reminder_deferred t m :
  (length (deferred (append_system_reminder t m)) <= S (length (deferred m)))%nat.
Proof.
  unfold append_system_reminder, append_message. destruct (has_open_tool_exchange m).
  - destruct (_ <=? _)%nat; simpl; [lia|]. rewrite length_app. simpl. lia.
  - destruct (push_same m (system_reminder t)) as (_ & _ & -> & _). lia.
Qed.

(** ** Results and reminders of a batch *)

Definition is_result (e : LoopEvent.t) : Prop := match e with LoopEvent.ToolResult _ _ _ _ _ => True | _ => False end.

Definition remind (reminders : list string) (m : ContextMemory) : ContextMemory :=
  foldl (fun m t => append_system_reminder t m) m reminders.

Lemma results_reminder events t m :
  Forall is_result events -> waiting_ok m -> (length (deferred m) < max_deferred m)%nat ->
  fold_events to_string events (append_system_reminder t m)
  = append_system_reminder t (fold_events to_string events m).
Proof.
  intros He. revert m. induction He as [|e events He _ IH]; intros m Hw Hr; [done|]. simpl.
  destruct e as [| | | |id out err n seq|]; try done. unfold append_system_reminder at 1.
  change (append_loop_event to_string [] (LoopEvent.ToolResult id out err n seq) (append_message (system_reminder t) m))
    with (append (LoopEvent.ToolResult id out err n seq) (append_message (system_reminder t) m)).
  rewrite result_reminder by done. destruct (append_event_frame (LoopEvent.ToolResult id out err n seq) m) as (_ & H2 & H3).
  apply IH; [by apply append_loop_event_waiting|rewrite H3; lia].
Qed.

(** The memory while the results of a batch are recorded, each with the reminder it
    may carry *)
Fixpoint interleaved (l : list (LoopEvent.t * option string)) (m : ContextMemory) : ContextMemory :=
  match l with
  | [] => m
  | (e, reminder) :: l =>
    let m := append e m in
    interleaved l (match reminder with Some t => append_system_reminder t m | None => m end)
  end.

(** It is the one that comes of all the results and then all the reminders. *)
Lemma interleaved_eq l m :
  Forall (fun x => is_result x.1) l -> waiting_ok m ->
  (length (deferred m) + length (omap snd l) <= max_deferred m)%nat ->
  interleaved l m = remind (omap snd l) (fold_events to_string l.*1 m).
Proof.
  intros Hl. revert m. induction Hl as [|[e reminder] l He Hl IH]; intros m Hw Hr; [done|].
  cbn [interleaved fmap list_fmap]. simpl in He.
  destruct (append_event_frame e m) as (_ & H2 & H3).
  assert (Hw1 : waiting_ok (append e m)) by by apply append_loop_event_waiting.
  destruct reminder as [t|];
    [change (omap snd ((e, Some t) :: l)) with (t :: omap snd l) in *; cbn [length] in Hr
    |change (omap snd ((e, None) :: l)) with (omap snd l) in *].
  - rewrite IH.
    + cbn [remind foldl fold_events fst snd]. rewrite results_reminder; [done|by apply Forall_fmap|done|rewrite H3; lia].
    + by apply append_message_waiting.
    + rewrite reminder_max, H3. pose proof (reminder_deferred t (append e m)). lia.
  - rewrite IH; [done|done|rewrite H3; lia].
Qed.
End replay.
