(* ===== verification/MemoryExchange.v ===== *)
(** * The context memory: tool exchanges and deferred messages

    While steps, results and messages come in as the turn loop issues them, every
    tool call is waiting for its result or answered after it, every result
    answers a call before it, and no message is lost, doubled or reordered by
    being deferred. *)
From stdpp Require Import gmap list strings sorting.
From S2P Require Import Prelude RustStd F64 Json ToolAccess ToolScheduler EngineError Context Projector TokenEstimator Memory MemorySound.
#[local] Open Scope list_scope.
#[local] Open Scope Z_scope.

(** ** Exchanges of a history *)

Definition calls (e : Entry) : list string := call_ids (e_message e).
Definition answer (e : Entry) : option string :=
  match role (e_message e) with Tool => Context.tool_call_id (e_message e) | _ => None end.

(** A message that takes no part in an exchange *)
Definition plain (e : Entry) : Prop :=
  role (e_message e) <> Tool /\ role (e_message e) <> Assistant /\
  tool_calls (e_message e) = [] /\ partial (e_message e) = false.

(** The history with its open steps and pending ids *)
Record exchanges (h : list Entry) (O : gmap string nat) (P : gset string) : Prop := {
  x_answered i e c : h !! i = Some e -> c ∈ calls e ->
    c ∈ P \/ exists j e', (i < j)%nat /\ h !! j = Some e' /\ answer e' = Some c;
  x_called j e c : h !! j = Some e -> answer e = Some c ->
    c ∉ P /\ exists i e', (i < j)%nat /\ h !! i = Some e' /\ c ∈ calls e';
  x_pending c : c ∈ P -> exists i e, h !! i = Some e /\ c ∈ calls e;
  x_unique i j e e' c : h !! i = Some e -> h !! j = Some e' -> c ∈ calls e -> c ∈ calls e' -> i = j;
  x_one_answer i j e e' c : h !! i = Some e -> h !! j = Some e' -> answer e = Some c -> answer e' = Some c -> i = j;
  x_open s i : O !! s = Some i ->
    exists e, h !! i = Some e /\ role (e_message e) = Assistant /\ partial (e_message e) = true;
  x_distinct s t i : O !! s = Some i -> O !! t = Some i -> s = t;
  x_partial i e : h !! i = Some e -> partial (e_message e) = true -> exists s, O !! s = Some i
}.

Lemma exchanges_nil : exchanges [] ∅ ∅.
Proof. split; intros; set_solver. Qed.

(** The number of a message takes no part. *)
Lemma plain_parts e : plain e -> calls e = [] /\ answer e = None /\ partial (e_message e) = false.
Proof.
  intros (H1 & H2 & H3 & H4). unfold calls, answer, call_ids. rewrite H3. by destruct (role (e_message e)).
Qed.

Lemma exchanges_plain h O P e : plain e -> exchanges h O P -> exchanges (h ++ [e]) O P.
Proof.
  intros He [H1 H2 H3 H4 H5 H6 H7 H8]. destruct (plain_parts e He) as (Ec & Ea & Ep).
  assert (Hc : forall i e' c, (h ++ [e]) !! i = Some e' -> c ∈ calls e' -> h !! i = Some e').
  { intros i e' c [[_ Hi]|[_ <-]]%lookup_snoc_Some Hin; [done|]. rewrite Ec in Hin. by apply elem_of_nil in Hin. }
  assert (Ha : forall i e' c, (h ++ [e]) !! i = Some e' -> answer e' = Some c -> h !! i = Some e').
  { intros i e' c [[_ Hi]|[_ <-]]%lookup_snoc_Some Hin; [done|]. by rewrite Ea in Hin. }
  assert (Hw : forall i e', h !! i = Some e' -> (h ++ [e]) !! i = Some e') by (intros; by apply lookup_app_l_Some).
  split.
  - intros i e' c Hi Hin. destruct (H1 i e' c) as [?|(j & e2 & ? & ? & ?)]; [by eapply Hc|done|by left|right; eauto 6].
  - intros j e' c Hj Hx. destruct (H2 j e' c) as (? & i & e2 & ? & ? & ?); [by eapply Ha|done|]. eauto 8.
  - intros c Hin. destruct (H3 c Hin) as (i & e2 & ? & ?). eauto.
  - intros i j e1 e2 c Hi Hj C1 C2. by eapply H4; eauto.
  - intros i j e1 e2 c Hi Hj C1 C2. by eapply H5; eauto.
  - intros s i Hs. destruct (H6 s i Hs) as (e2 & ? & ? & ?). eauto 6.
  - done.
  - intros i e' [[_ Hi]|[_ <-]]%lookup_snoc_Some Hp; [by eapply H8|congruence].
Qed.

(** A pending call is answered. *)
Lemma exchanges_answer h O P e c :
  c ∈ P -> answer e = Some c -> calls e = [] -> partial (e_message e) = false ->
  exchanges h O P -> exchanges (h ++ [e]) O (P ∖ {[c]}).
Proof.
  intros HP Ea Ec Ep [H1 H2 H3 H4 H5 H6 H7 H8].
  assert (Hc : forall i e' d, (h ++ [e]) !! i = Some e' -> d ∈ calls e' -> h !! i = Some e').
  { intros i e' d [[_ Hi]|[_ <-]]%lookup_snoc_Some Hin; [done|]. rewrite Ec in Hin. by apply elem_of_nil in Hin. }
  assert (Hw : forall i e', h !! i = Some e' -> (h ++ [e]) !! i = Some e') by (intros; by apply lookup_app_l_Some).
  assert (Hno : forall j e', h !! j = Some e' -> answer e' <> Some c).
  { intros j e' Hj Hx. by destruct (H2 j e' c Hj Hx). }
  split.
  - intros i e' d Hi Hin. pose proof (Hc _ _ _ Hi Hin) as Hi'. destruct (decide (d = c)) as [->|Hd].
    + right. exists (length h), e. split_and!; [by eapply lookup_lt_Some|by apply list_lookup_middle|done].
    + destruct (H1 i e' d Hi' Hin) as [?|(j & e2 & ? & ? & ?)]; [left; set_solver|right; eauto 6].
  - intros j e' d [[_ Hj]|[-> <-]]%lookup_snoc_Some Hx.
    + destruct (H2 j e' d Hj Hx) as (? & i & e2 & ? & ? & ?). split; [set_solver|]. eauto 6.
    + assert (d = c) as -> by congruence. split; [set_solver|].
      destruct (H3 c HP) as (i & e2 & Hi & ?). exists i, e2. split_and!; [by eapply lookup_lt_Some|auto|done].
  - intros d [Hin _]%elem_of_difference. destruct (H3 d Hin) as (i & e2 & ? & ?). eauto.
  - intros i j e1 e2 d Hi Hj C1 C2. by eapply H4; eauto.
  - intros i j e1 e2 d [[_ Hi]|[-> <-]]%lookup_snoc_Some [[_ Hj]|[-> <-]]%lookup_snoc_Some A1 A2.
    + by eapply H5.
    + exfalso. eapply Hno; [exact Hi|congruence].
    + exfalso. eapply Hno; [exact Hj|congruence].
    + done.
  - intros s i Hs. destruct (H6 s i Hs) as (e2 & ? & ? & ?). eauto 6.
  - done.
  - intros i e' [[_ Hi]|[_ <-]]%lookup_snoc_Some Hp; [by eapply H8|congruence].
Qed.

(** What the record speaks of: two histories of the same shape agree on it. *)
Definition shape (e : Entry) : list string * option string * Role * bool :=
  (calls e, answer e, role (e_message e), partial (e_message e)).

Lemma shape_lookup (h h' : list Entry) (i : nat) e :
  shape <$> h' = shape <$> h -> h' !! i = Some e -> exists e', h !! i = Some e' /\ shape e' = shape e.
Proof.
  intros E Hi. assert (H : (shape <$> h') !! i = Some (shape e)) by (by rewrite list_lookup_fmap, Hi).
  rewrite E, list_lookup_fmap in H. destruct (h !! i) as [e'|]; [|done]. exists e'. simpl in H. split; [done|congruence].
Qed.

Lemma exchanges_shape (h h' : list Entry) O P : shape <$> h' = shape <$> h -> exchanges h O P -> exchanges h' O P.
Proof.
  intros E [H1 H2 H3 H4 H5 H6 H7 H8].
  assert (Hin : forall i e, h' !! i = Some e -> exists e', h !! i = Some e' /\ calls e' = calls e /\
            answer e' = answer e /\ role (e_message e') = role (e_message e) /\
            partial (e_message e') = partial (e_message e)).
  { intros i e Hi. destruct (shape_lookup _ _ _ _ E Hi) as (e' & Hi' & Es). exists e'. by injection Es. }
  assert (Hout : forall i e, h !! i = Some e -> exists e', h' !! i = Some e' /\ calls e' = calls e /\
            answer e' = answer e /\ role (e_message e') = role (e_message e) /\
            partial (e_message e') = partial (e_message e)).
  { intros i e Hi. destruct (shape_lookup _ _ _ _ (eq_sym E) Hi) as (e' & Hi' & Es). exists e'. by injection Es. }
  split.
  - intros i e c Hi Hc. destruct (Hin _ _ Hi) as (e' & Hi' & Ec & _). rewrite <- Ec in Hc.
    destruct (H1 _ _ _ Hi' Hc) as [?|(j & e2 & ? & Hj & Hx)]; [by left|right].
    destruct (Hout _ _ Hj) as (e3 & ? & _ & Ea & _). exists j, e3. by rewrite Ea.
  - intros j e c Hj Hx. destruct (Hin _ _ Hj) as (e' & Hj' & _ & Ea & _). rewrite <- Ea in Hx.
    destruct (H2 _ _ _ Hj' Hx) as (? & i & e2 & ? & Hi & Hc). split; [done|].
    destruct (Hout _ _ Hi) as (e3 & ? & Ec & _). exists i, e3. by rewrite Ec.
  - intros c Hc. destruct (H3 c Hc) as (i & e & Hi & Hce). destruct (Hout _ _ Hi) as (e' & ? & Ec & _).
    exists i, e'. by rewrite Ec.
  - intros i j e1 e2 c Hi Hj C1 C2. destruct (Hin _ _ Hi) as (? & ? & Ec1 & _), (Hin _ _ Hj) as (? & ? & Ec2 & _).
    rewrite <- Ec1 in C1. rewrite <- Ec2 in C2. by eapply H4.
  - intros i j e1 e2 c Hi Hj A1 A2. destruct (Hin _ _ Hi) as (? & ? & _ & E1 & _), (Hin _ _ Hj) as (? & ? & _ & E2 & _).
    rewrite <- E1 in A1. rewrite <- E2 in A2. by eapply H5.
  - intros s i Hs. destruct (H6 s i Hs) as (e & Hi & ? & ?). destruct (Hout _ _ Hi) as (e' & ? & _ & _ & Er & Ep).
    exists e'. by rewrite Er, Ep.
  - done.
  - intros i e Hi Hp. destruct (Hin _ _ Hi) as (e' & ? & _ & _ & _ & Ep). rewrite <- Ep in Hp. by eapply H8.
Qed.

Lemma exchanges_begin h O P e s :
  O !! s = None -> calls e = [] -> answer e = None -> role (e_message e) = Assistant ->
  partial (e_message e) = true -> exchanges h O P -> exchanges (h ++ [e]) (<[s := length h]> O) P.
Proof.
  intros Hs Ec Ea Er Ep [H1 H2 H3 H4 H5 H6 H7 H8].
  assert (Hc : forall i e' d, (h ++ [e]) !! i = Some e' -> d ∈ calls e' -> h !! i = Some e').
  { intros i e' d [[_ Hi]|[_ <-]]%lookup_snoc_Some Hin; [done|]. rewrite Ec in Hin. by apply elem_of_nil in Hin. }
  assert (Hx : forall i e' d, (h ++ [e]) !! i = Some e' -> answer e' = Some d -> h !! i = Some e').
  { intros i e' d [[_ Hi]|[_ <-]]%lookup_snoc_Some Hin; [done|]. by rewrite Ea in Hin. }
  assert (Hw : forall i e', h !! i = Some e' -> (h ++ [e]) !! i = Some e') by (intros; by apply lookup_app_l_Some).
  assert (Hlt : forall t i, O !! t = Some i -> (i < length h)%nat).
  { intros t i Ht. destruct (H6 t i Ht) as (? & ? & _). by eapply lookup_lt_Some. }
  split.
  - intros i e' c Hi Hin. destruct (H1 i e' c) as [?|(j & e2 & ? & ? & ?)]; [by eapply Hc|done|by left|right; eauto 6].
  - intros j e' c Hj Hd. destruct (H2 j e' c) as (? & i & e2 & ? & ? & ?); [by eapply Hx|done|]. eauto 8.
  - intros c Hin. destruct (H3 c Hin) as (i & e2 & ? & ?). eauto.
  - intros i j e1 e2 c Hi Hj C1 C2. by eapply H4; eauto.
  - intros i j e1 e2 c Hi Hj C1 C2. by eapply H5; eauto.
  - intros t i [[<- <-]|[Hne Ht]]%lookup_insert_Some.
    + exists e. split; [by apply list_lookup_middle|done].
    + destruct (H6 t i Ht) as (e2 & ? & ? & ?). eauto 6.
  - intros t u i Ht Hu. apply lookup_insert_Some in Ht as [[<- <-]|[? Ht]]; apply lookup_insert_Some in Hu as [[<- E]|[? Hu]]; [done| | |by eapply H7].
    + apply Hlt in Hu. lia.
    + subst i. apply Hlt in Ht. lia.
  - intros i e' [[_ Hi]|[-> <-]]%lookup_snoc_Some Hp.
    + destruct (H8 i e' Hi Hp) as [t Ht]. exists t. rewrite lookup_insert_ne; [done|]. intros ->. congruence.
    + exists s. apply lookup_insert_eq.
Qed.

(** An open step calls a tool under an id of its own. *)
Lemma exchanges_call h O P s i c f :
  O !! s = Some i ->
  (forall e, calls (f e) = calls e ++ [c] /\ answer (f e) = answer e /\
     role (e_message (f e)) = role (e_message e) /\ partial (e_message (f e)) = partial (e_message e)) ->
  (forall j e, h !! j = Some e -> c ∉ calls e) ->
  exchanges h O P -> exchanges (alter f i h) O ({[c]} ∪ P).
Proof.
  intros Hs Hf Hnew [H1 H2 H3 H4 H5 H6 H7 H8].
  destruct (H6 s i Hs) as (e0 & Hi0 & Hr0 & Hp0).
  assert (Hin : forall j e, alter f i h !! j = Some e -> exists e', h !! j = Some e' /\ answer e' = answer e /\
            role (e_message e') = role (e_message e) /\ partial (e_message e') = partial (e_message e) /\
            (forall d, d ∈ calls e <-> d ∈ calls e' \/ j = i /\ d = c)).
  { intros j e Hj. rewrite list_lookup_alter in Hj. case_decide as Eij; [subst j|].
    - rewrite Hi0 in Hj. injection Hj as <-. destruct (Hf e0) as (Ec & ? & ? & ?). exists e0. split_and!; [done..|].
      intros d. rewrite Ec, elem_of_app, list_elem_of_singleton. naive_solver.
    - exists e. split_and!; [done..|]. naive_solver. }
  assert (Hout : forall j e, h !! j = Some e -> exists e', alter f i h !! j = Some e' /\ answer e' = answer e /\
            role (e_message e') = role (e_message e) /\ partial (e_message e') = partial (e_message e) /\
            (forall d, d ∈ calls e -> d ∈ calls e')).
  { intros j e Hj. rewrite list_lookup_alter. case_decide as Eij; [subst j|].
    - rewrite Hj. exists (f e). destruct (Hf e) as (Ec & ? & ? & ?). split_and!; [done..|].
      intros d Hd. rewrite Ec. set_solver.
    - exists e. done. }
  split.
  - intros j e d Hj Hd. destruct (Hin _ _ Hj) as (e' & Hj' & _ & _ & _ & Hdc).
    destruct (proj1 (Hdc d) Hd) as [Hd'|[_ Ed]]; [clear Hd; rename Hd' into Hd|subst d; left; set_solver].
    destruct (H1 _ _ _ Hj' Hd) as [?|(k & e2 & ? & Hk & Hx)]; [left; set_solver|right].
    destruct (Hout _ _ Hk) as (e3 & ? & Ea & _). exists k, e3. by rewrite Ea.
  - intros j e d Hj Hx. destruct (Hin _ _ Hj) as (e' & Hj' & Ea & _). rewrite <- Ea in Hx.
    destruct (H2 _ _ _ Hj' Hx) as (HnP & k & e2 & ? & Hk & Hd). split.
    + intros [->%elem_of_singleton|?]%elem_of_union; [by eapply Hnew|done].
    + destruct (Hout _ _ Hk) as (e3 & ? & _ & _ & _ & Hsub). eauto 8.
  - intros d [->%elem_of_singleton|Hd]%elem_of_union.
    + exists i, (f e0). rewrite list_lookup_alter_eq, Hi0. split; [done|]. destruct (Hf e0) as [-> _]. set_solver.
    + destruct (H3 d Hd) as (k & e2 & Hk & Hd2). destruct (Hout _ _ Hk) as (e3 & ? & _ & _ & _ & Hsub). eauto.
  - intros j k e1 e2 d Hj Hk D1 D2.
    destruct (Hin _ _ Hj) as (e1' & Hj' & _ & _ & _ & Hd1), (Hin _ _ Hk) as (e2' & Hk' & _ & _ & _ & Hd2).
    destruct (proj1 (Hd1 d) D1) as [C1|[I1 F1]], (proj1 (Hd2 d) D2) as [C2|[I2 F2]]; [by eapply H4| | |congruence].
    + subst d. by destruct (Hnew _ _ Hj' C1).
    + subst d. by destruct (Hnew _ _ Hk' C2).
  - intros j k e1 e2 d Hj Hk A1 A2. destruct (Hin _ _ Hj) as (? & ? & E1 & _), (Hin _ _ Hk) as (? & ? & E2 & _).
    rewrite <- E1 in A1. rewrite <- E2 in A2. by eapply H5.
  - intros t k Ht. destruct (H6 t k Ht) as (e & Hk & ? & ?). destruct (Hout _ _ Hk) as (e' & ? & _ & Er & Ep & _).
    exists e'. by rewrite Er, Ep.
  - done.
  - intros k e Hk Hp. destruct (Hin _ _ Hk) as (e' & ? & _ & _ & Ep & _). rewrite <- Ep in Hp. by eapply H8.
Qed.

(** An open step is sealed. *)
Lemma exchanges_seal h O P s i :
  O !! s = Some i -> exchanges h O P ->
  exchanges (alter (on_message (set_partial false)) i h) (delete s O) P.
Proof.
  intros Hs [H1 H2 H3 H4 H5 H6 H7 H8].
  assert (Hin : forall j e, alter (on_message (set_partial false)) i h !! j = Some e ->
            exists e', h !! j = Some e' /\ calls e' = calls e /\ answer e' = answer e /\
              role (e_message e') = role (e_message e) /\
              partial (e_message e) = (if decide (i = j) then false else partial (e_message e'))).
  { intros j e Hj. rewrite list_lookup_alter in Hj. case_decide; [subst j|by exists e].
    destruct (h !! i) as [e'|]; [|done]. injection Hj as <-. by exists e'. }
  assert (Hout : forall j e, h !! j = Some e ->
            exists e', alter (on_message (set_partial false)) i h !! j = Some e' /\ calls e' = calls e /\
              answer e' = answer e /\ role (e_message e') = role (e_message e) /\
              partial (e_message e') = (if decide (i = j) then false else partial (e_message e))).
  { intros j e Hj. rewrite list_lookup_alter. case_decide; [subst j|by exists e]. rewrite Hj. by eexists. }
  split.
  - intros j e c Hj Hc. destruct (Hin _ _ Hj) as (e' & Hj' & Ec & _). rewrite <- Ec in Hc.
    destruct (H1 _ _ _ Hj' Hc) as [?|(k & e2 & ? & Hk & Hx)]; [by left|right].
    destruct (Hout _ _ Hk) as (e3 & ? & _ & Ea & _). exists k, e3. by rewrite Ea.
  - intros j e c Hj Hx. destruct (Hin _ _ Hj) as (e' & Hj' & _ & Ea & _). rewrite <- Ea in Hx.
    destruct (H2 _ _ _ Hj' Hx) as (? & k & e2 & ? & Hk & Hc). split; [done|].
    destruct (Hout _ _ Hk) as (e3 & ? & Ec & _). exists k, e3. by rewrite Ec.
  - intros c Hc. destruct (H3 c Hc) as (k & e & Hk & Hce). destruct (Hout _ _ Hk) as (e' & ? & Ec & _).
    exists k, e'. by rewrite Ec.
  - intros j k e1 e2 c Hj Hk C1 C2. destruct (Hin _ _ Hj) as (? & ? & Ec1 & _), (Hin _ _ Hk) as (? & ? & Ec2 & _).
    rewrite <- Ec1 in C1. rewrite <- Ec2 in C2. by eapply H4.
  - intros j k e1 e2 c Hj Hk A1 A2. destruct (Hin _ _ Hj) as (? & ? & _ & E1 & _), (Hin _ _ Hk) as (? & ? & _ & E2 & _).
    rewrite <- E1 in A1. rewrite <- E2 in A2. by eapply H5.
  - intros t k [Hne Ht]%lookup_delete_Some. destruct (H6 t k Ht) as (e & Hk & ? & ?).
    destruct (Hout _ _ Hk) as (e' & ? & _ & _ & Er & Ep). exists e'. rewrite Er, Ep.
    rewrite decide_False; [done|]. intros <-. apply Hne. by eapply H7.
  - intros t u k [_ Ht]%lookup_delete_Some [_ Hu]%lookup_delete_Some. by eapply H7.
  - intros k e Hk Hp. destruct (Hin _ _ Hk) as (e' & Hk' & _ & _ & _ & Ep). rewrite Hp in Ep.
    case_decide as Eik; [done|]. destruct (H8 k e' Hk' (eq_sym Ep)) as [t Ht]. exists t.
    apply lookup_delete_Some. split; [|done]. intros <-. congruence.
Qed.

(** The youngest open step goes without a trace. *)
Lemma exchanges_drop h O P s i e :
  O !! s = Some i -> h !! i = Some e -> calls e = [] -> (forall t j, O !! t = Some j -> (j <= i)%nat) ->
  exchanges h O P -> exchanges (delete i h) (delete s O) P.
Proof.
  intros Hs Hi0 Ec0 Hmax [H1 H2 H3 H4 H5 H6 H7 H8].
  destruct (H6 s i Hs) as (e0 & Hi1 & Hr0 & Hp0). rewrite Hi0 in Hi1. injection Hi1 as <-.
  assert (Ea0 : answer e = None) by (unfold answer; by rewrite Hr0).
  (* the place of a message before, and after *)
  set (old := fun j : nat => if decide (j < i)%nat then j else S j).
  assert (Hin : forall j, delete i h !! j = h !! old j).
  { intros j. subst old. simpl. case_decide; [by apply list_lookup_delete_lt|by apply list_lookup_delete_ge; lia]. }
  assert (Hmono : forall j k, (j < k)%nat <-> (old j < old k)%nat).
  { intros j k. subst old. simpl. repeat case_decide; lia. }
  assert (Hinj : forall j k, old j = old k -> j = k).
  { intros j k. subst old. simpl. repeat case_decide; lia. }
  assert (Hout : forall j e', h !! j = Some e' -> j <> i -> exists k, old k = j /\ delete i h !! k = Some e').
  { intros j e' Hj Hne. exists (if decide (j < i)%nat then j else (j - 1)%nat).
    assert (E : old (if decide (j < i)%nat then j else (j - 1)%nat) = j) by (subst old; simpl; repeat case_decide; lia).
    split; [done|]. by rewrite Hin, E. }
  assert (Hce : forall j e' c, h !! j = Some e' -> c ∈ calls e' -> j <> i).
  { intros j e' c Hj Hc ->. rewrite Hi0 in Hj. injection Hj as <-. rewrite Ec0 in Hc. by apply elem_of_nil in Hc. }
  assert (Hae : forall j e' c, h !! j = Some e' -> answer e' = Some c -> j <> i).
  { intros j e' c Hj Hc ->. rewrite Hi0 in Hj. injection Hj as <-. congruence. }
  split.
  - intros j e' c Hj Hc. rewrite Hin in Hj. destruct (H1 _ _ _ Hj Hc) as [?|(k & e2 & Hlt & Hk & Hx)]; [by left|right].
    destruct (Hout k e2 Hk (Hae _ _ _ Hk Hx)) as (k' & <- & Hk'). exists k', e2. by rewrite Hmono.
  - intros j e' c Hj Hx. rewrite Hin in Hj. destruct (H2 _ _ _ Hj Hx) as (? & k & e2 & Hlt & Hk & Hc). split; [done|].
    destruct (Hout k e2 Hk (Hce _ _ _ Hk Hc)) as (k' & <- & Hk'). exists k', e2. by rewrite Hmono.
  - intros c Hc. destruct (H3 c Hc) as (k & e2 & Hk & Hc2).
    destruct (Hout k e2 Hk (Hce _ _ _ Hk Hc2)) as (k' & <- & Hk'). eauto.
  - intros j k e1 e2 c Hj Hk C1 C2. rewrite Hin in Hj, Hk. apply Hinj. by eapply H4.
  - intros j k e1 e2 c Hj Hk A1 A2. rewrite Hin in Hj, Hk. apply Hinj. by eapply H5.
  - intros t j [Hne Ht]%lookup_delete_Some. destruct (H6 t j Ht) as (e2 & Hj & ?).
    exists e2. split; [|done]. assert (j < i)%nat.
    { pose proof (Hmax t j Ht). enough (j <> i) by lia. intros ->. apply Hne. by eapply H7. }
    rewrite Hin. subst old. simpl. by rewrite decide_True.
  - intros t u k [_ Ht]%lookup_delete_Some [_ Hu]%lookup_delete_Some. by eapply H7.
  - intros j e2 Hj Hp. rewrite Hin in Hj. destruct (H8 _ _ Hj Hp) as [t Ht]. exists t.
    assert (Hlt : (old j < i)%nat).
    { pose proof (Hmax _ _ Ht). enough (old j <> i) by lia. subst old. simpl. case_decide; lia. }
    assert (old j = j) as E by (revert Hlt; subst old; simpl; case_decide; lia). rewrite E in *.
    apply lookup_delete_Some. split; [|done]. intros <-. rewrite Hs in Ht. injection Ht as ->. lia.
Qed.

(** ** The memory *)

Definition is_other (e : Entry) : bool :=
  negb (bool_decide (role (e_message e) = Tool)) && negb (bool_decide (role (e_message e) = Assistant)).

(** The messages of other roles, in the history or waiting *)
Definition others (m : ContextMemory) : list ContextMessage :=
  e_msg <$> (List.filter is_other (history m) ++ deferred m).

Definition kept (m : ContextMemory) : Prop :=
  exchanges (history m) (open_steps m) (pending m) /\ Forall plain (deferred m).

(** What the memory holds and has promised to hold *)
Definition load (m : ContextMemory) : nat := (length (history m) + length (deferred m) + size (pending m))%nat.

(** A step of the memory that adds [new] and at most [n] to the load *)
Record good (n : nat) (m m' : ContextMemory) (new : list ContextMessage) : Prop := {
  g_kept : kept m';
  g_others : others m' = others m ++ new;
  g_load : (load m' <= load m + n)%nat;
  g_max : max_history m' = max_history m
}.

Lemma good_refl m : kept m -> good 0 m m [].
Proof. intros H. split; [done|by rewrite app_nil_r|lia|done]. Qed.

Lemma good_trans n k m1 m2 m3 l : good n m1 m2 [] -> good k m2 m3 l -> good (n + k) m1 m3 l.
Proof.
  intros [A1 A2 A3 A4] [B1 B2 B3 B4]. split; [done| |lia|congruence]. by rewrite B2, A2, app_nil_r.
Qed.

Lemma push_room m msg :
  (length (history m) < max_history m)%nat ->
  exists e, e_msg e = e_msg msg /\ history (push m msg) = history m ++ [e].
Proof.
  intros H. unfold push, push_history. rewrite (proj2 (Nat.leb_gt _ _) H). simpl.
  eexists. split; [|done]. by destruct (entry_seq msg =? 0).
Qed.

Lemma plain_same e e' : e_msg e = e_msg e' -> plain e' -> plain e.
Proof. unfold plain, e_message. by intros ->. Qed.

Lemma plain_is_other e : plain e -> is_other e = true.
Proof. intros (H1 & H2 & _). unfold is_other. by rewrite !bool_decide_false. Qed.

Lemma filter_app' {A} (f : A -> bool) l k : List.filter f (l ++ k) = List.filter f l ++ List.filter f k.
Proof. induction l as [|x l IH]; simpl; [done|]. destruct (f x); simpl; by rewrite IH. Qed.

(** Plain messages stored at the end *)
Lemma push_all_plain l m :
  Forall plain l -> kept m -> (length (history m) + length l <= max_history m)%nat ->
  exists l', history (foldl push m l) = history m ++ l' /\ e_msg <$> l' = e_msg <$> l /\ Forall plain l' /\
    kept (foldl push m l).
Proof.
  intros Hl. revert m. induction Hl as [|e l He _ IH]; intros m Hk Hlen; simpl in *.
  - exists []. by rewrite app_nil_r.
  - destruct (push_room m e) as (e' & Ee & Eh); [lia|].
    destruct (push_same m e) as (Eo & Ep & Ed & Em & _).
    destruct (IH (push m e)) as (l' & -> & El & Hp & Hk').
    + destruct Hk as [Hx Hd]. split; [|by rewrite Ed]. rewrite Eh, Eo, Ep.
      apply exchanges_plain; [by eapply plain_same|done].
    + rewrite Eh, length_app, Em. simpl. lia.
    + exists (e' :: l'). rewrite Eh, <- app_assoc. split_and!; [done| |constructor; [by eapply plain_same|done]|done].
      by rewrite !fmap_cons, Ee, El.
Qed.

Lemma filter_plain l : Forall plain l -> List.filter is_other l = l.
Proof. induction 1 as [|e l He _ IH]; [done|]. simpl. by rewrite (plain_is_other e He), IH. Qed.

Lemma flush_good m :
  kept m -> (load m <= max_history m)%nat -> good 0 m (flush_deferred_if_exchange_closed m) [].
Proof.
  intros Hk Hl. destruct (flush_cases m) as [[-> _]|[Hp ->]]; [by apply good_refl|]. destruct Hk as [Hx Hd].
  unfold load in Hl. rewrite take_ge by lia.
  destruct (push_all_plain (deferred m) (set_deferred [] m)) as (l' & Eh & El & Hpl & Hk'); [done|by split|simpl; lia|].
  destruct (push_all_same (deferred m) (set_deferred [] m)) as (_ & Ep & Ed & Em & _).
  split; [done| |unfold load|by rewrite Em].
  - unfold others. rewrite Eh, Ed, filter_app', !fmap_app, (filter_plain l') by done. simpl.
    by rewrite El, !app_nil_r.
  - rewrite Eh, Ed, Ep, length_app. simpl. apply (f_equal length) in El. rewrite !length_fmap in El. lia.
Qed.

Lemma push_set_pending x m msg : push (set_pending x m) msg = set_pending x (push m msg).
Proof. unfold push, push_history. simpl. by destruct (_ <=? _)%nat. Qed.

(** A result stored for a pending call *)
Lemma answer_good m msg c :
  kept m -> c ∈ pending m -> answer msg = Some c -> (load m <= max_history m)%nat ->
  tool_calls (e_message msg) = [] -> partial (e_message msg) = false ->
  good 0 m (set_pending (pending m ∖ {[c]}) (push m msg)) [].
Proof.
  intros [Hx Hd] Hc Ha Hl Ht Hp. unfold load in Hl. assert (1 <= size (pending m))%nat.
  { enough (size (pending m) <> 0)%nat by lia. intros E%size_empty_inv. set_solver. }
  destruct (push_room m msg) as (e & Ee & Eh); [lia|]. destruct (push_same m msg) as (Eo & Ep & Ed & Em & _).
  assert (Ems : e_message e = e_message msg) by (unfold e_message; by rewrite Ee).
  assert (Hae : answer e = Some c) by (unfold answer in *; by rewrite Ems).
  split; simpl; [| |unfold load; simpl|done].
  - split; simpl; [|by rewrite Ed]. rewrite Eh, Eo. apply exchanges_answer; [done..| | |done].
    + unfold calls, call_ids. by rewrite Ems, Ht.
    + by rewrite Ems.
  - unfold others. simpl. rewrite Eh, Ed, filter_app', app_nil_r. simpl. assert (Hr : is_other e = false).
    { unfold is_other, answer in *. rewrite Ems in *. by destruct (role (e_message msg)). }
    by rewrite Hr, app_nil_r.
  - rewrite Eh, Ed, length_app, size_difference by set_solver. rewrite size_singleton. simpl. lia.
Qed.

(** The pending calls answered as interrupted, in the order of the list *)
Lemma answer_all_good ids m :
  NoDup ids -> (forall id, id ∈ ids -> id ∈ pending m) -> kept m -> (load m <= max_history m)%nat ->
  good 0 m (foldl (fun m id => push m (interrupted_result id)) (set_pending (pending m ∖ list_to_set ids) m) ids) [].
Proof.
  intros Hn. revert m. induction Hn as [|id ids Hid _ IH]; intros m Hin Hk Hl.
  - simpl. replace (set_pending (pending m ∖ ∅) m) with m; [by apply good_refl|].
    destruct m. unfold set_pending. simpl. f_equal. set_solver.
  - set (m1 := set_pending (pending m ∖ {[id]}) (push m (interrupted_result id))).
    assert (G : good 0 m m1 []) by (apply answer_good; [done|apply Hin; left|done..]).
    assert (E : pending m1 = pending m ∖ {[id]}) by done.
    cbn [foldl]. rewrite push_set_pending.
    replace (set_pending _ (push m (interrupted_result id))) with (set_pending (pending m1 ∖ list_to_set ids) m1).
    2:{ subst m1. simpl. unfold set_pending. simpl. f_equal. set_solver. }
    apply (good_trans 0 0 m m1); [done|]. apply IH.
    + intros x Hx. rewrite E. apply elem_of_difference. split; [apply Hin; by right|]. set_solver.
    + apply G.
    + destruct G as [_ _ G3 G4]. lia.
Qed.

Lemma close_good order m :
  order ≡ₚ elements (pending m) -> kept m -> (load m <= max_history m)%nat ->
  good 0 m (close_pending_tool_results order m) [] /\ pending (close_pending_tool_results order m) = ∅ /\
  open_steps (close_pending_tool_results order m) = open_steps m.
Proof.
  intros Ho Hk Hl. unfold close_pending_tool_results. case_bool_decide as He; [by split_and!; [apply good_refl|..]|].
  assert (G := answer_all_good order m). rewrite Ho in G at 1. specialize (G (NoDup_elements _)).
  assert (Hin : forall id, id ∈ order <-> id ∈ pending m) by (intros id; by rewrite Ho, elem_of_elements).
  specialize (G (fun id => proj1 (Hin id)) Hk Hl).
  replace (pending m ∖ list_to_set order) with (∅ : gset string) in G by (apply leibniz_equiv; set_solver).
  set (m1 := foldl _ (set_pending ∅ m) order) in *.
  assert (E : pending m1 = ∅ /\ open_steps m1 = open_steps m).
  { subst m1. assert (H : forall l m, same_rest m (foldl (fun m id => push m (interrupted_result id)) m l)).
    { induction l as [|id l IH]; intros m'; [done|]. simpl. etrans; [apply push_same|apply IH]. }
    destruct (H order (set_pending ∅ m)) as (-> & -> & _). done. }
  destruct (flush_frame m1) as (Eo & Ep & _). rewrite Eo, Ep. split; [|done].
  apply (good_trans 0 0 m m1); [done|]. destruct G as [G1 _ G3 G4]. apply flush_good; [done|lia].
Qed.

Section runs.
Context (to_string : json -> string).

(** ** How the turn loop issues its events *)

(** No open step is younger. *)
Definition youngest (m : ContextMemory) (step_id : string) : Prop :=
  forall i, open_steps m !! step_id = Some i -> forall t j, open_steps m !! t = Some j -> (j <= i)%nat.

(** A step begins under an id of its own, a call is made in an open step under an
    id of its own, and the youngest step ends first; [order] lists what is drained. *)
Definition orderly_event (order : list string) (event : LoopEvent.t) (m : ContextMemory) : Prop :=
  match event with
  | LoopEvent.StepBegin step_id _ => open_steps m !! step_id = None /\ order ≡ₚ elements (pending m)
  | LoopEvent.ToolCall step_id tool_call_id _ _ =>
    is_Some (open_steps m !! step_id) /\ forall j e, history m !! j = Some e -> tool_call_id ∉ calls e
  | LoopEvent.StepEnd step_id _ _ _ _ => youngest m step_id
  | _ => True
  end.

Lemma filter_alter (f : Entry -> Entry) (l : list Entry) i e :
  l !! i = Some e -> is_other e = false -> is_other (f e) = false ->
  List.filter is_other (alter f i l) = List.filter is_other l.
Proof.
  revert i. induction l as [|x l IH]; intros [|i] Hi H1 H2; try done; simpl in *.
  - injection Hi as ->. by rewrite H1, H2.
  - change (list_alter f i l) with (alter f i l). by rewrite (IH i).
Qed.

Lemma filter_delete (l : list Entry) i e :
  l !! i = Some e -> is_other e = false -> List.filter is_other (delete i l) = List.filter is_other l.
Proof.
  revert i. induction l as [|x l IH]; intros [|i] Hi H1; try done; simpl in *.
  - injection Hi as ->. by rewrite H1.
  - change (list_delete i l) with (delete i l). by rewrite (IH i).
Qed.

Lemma assistant_not_other e : role (e_message e) = Assistant -> is_other e = false.
Proof. intros H. unfold is_other. by rewrite H. Qed.

(** The message of an open step is an assistant's. *)
Lemma open_entry m s i :
  kept m -> open_steps m !! s = Some i ->
  exists e, history m !! i = Some e /\ role (e_message e) = Assistant /\ is_other e = false.
Proof.
  intros [Hx _] Hs. destruct (x_open _ _ _ Hx s i Hs) as (e & Hi & Hr & _). exists e.
  split_and!; [done..|by apply assistant_not_other].
Qed.

Lemma on_step_good s f m :
  (forall e, shape (on_message f e) = shape e) -> kept m -> good 0 m (on_step s f m) [].
Proof.
  intros Hf Hk. unfold on_step. destruct (open_steps m !! s) as [i|] eqn:Es; [|by apply good_refl].
  destruct (open_entry m s i Hk Es) as (e & Hi & Hr & Ho). destruct Hk as [Hx Hd].
  split; simpl; [|unfold others; simpl|unfold load; simpl; rewrite length_alter; lia|done].
  - split; simpl; [|done]. eapply exchanges_shape; [by apply alter_keeps|done].
  - rewrite app_nil_r, (filter_alter _ _ _ e); [done|done|done|]. apply assistant_not_other.
    specialize (Hf e). unfold shape in Hf. injection Hf as _ _ E _. by rewrite E.
Qed.

Lemma call_good s c n args m :
  is_Some (open_steps m !! s) -> (forall j e, history m !! j = Some e -> c ∉ calls e) -> kept m ->
  good 1 m (append_loop_event to_string [] (LoopEvent.ToolCall s c n args) m) [].
Proof.
  intros [i Hs] Hnew Hk. destruct (open_entry m s i Hk Hs) as (e & Hi & Hr & Ho). destruct Hk as [Hx Hd].
  simpl. unfold on_step. rewrite Hs. split; simpl; [|unfold others; simpl|unfold load; simpl|done].
  - split; simpl; [|done]. apply (exchanges_call _ _ _ s i c); [done| |done|done].
    intros e'. unfold calls, call_ids, answer, e_message. simpl. by rewrite fmap_app.
  - by rewrite app_nil_r, (filter_alter _ _ _ e).
  - rewrite length_alter. assert (size (({[c]} : gset string) ∪ pending m) <= 1 + size (pending m))%nat; [|lia].
    rewrite size_union_alt, size_singleton. enough (size (pending m ∖ {[c]}) <= size (pending m))%nat by lia. apply subseteq_size. set_solver.
Qed.

Lemma settle_good s i m :
  open_steps m !! s = Some i -> youngest m s -> kept m ->
  good 0 m (settle i (set_open_steps (delete s (open_steps m)) m)) [].
Proof.
  intros Hs Hy Hk. destruct (open_entry m s i Hk Hs) as (e & Hi & Hr & Ho). destruct Hk as [Hx Hd].
  unfold settle. simpl. rewrite Hi. destruct (is_vacuous e) eqn:Hv.
  - unfold is_vacuous in Hv. apply andb_true_iff in Hv as [Hv%bool_decide_eq_true _].
    split; simpl; [|unfold others; simpl|unfold load; simpl|done].
    + split; simpl; [|done]. apply (exchanges_drop _ _ _ s i e); [done|done| |by apply Hy|done].
      unfold calls, call_ids. by rewrite Hv.
    + by rewrite app_nil_r, (filter_delete _ _ e).
    + rewrite length_delete by by eexists. lia.
  - split; simpl; [|unfold others; simpl|unfold load; simpl|done].
    + split; simpl; [|done]. by apply (exchanges_seal _ _ _ s i).
    + by rewrite app_nil_r, (filter_alter _ _ _ e).
    + rewrite length_alter. lia.
Qed.

Lemma same_good m m' :
  history m' = history m -> open_steps m' = open_steps m -> pending m' = pending m -> deferred m' = deferred m ->
  max_history m' = max_history m -> kept m -> good 0 m m' [].
Proof.
  intros Eh Eo Ep Ed Em [Hx Hd]. split; [|unfold others|unfold load|done].
  - split; by rewrite ?Eh, ?Eo, ?Ep, ?Ed.
  - by rewrite Eh, Ed, app_nil_r.
  - rewrite Eh, Ep, Ed. lia.
Qed.

Lemma step_end_good s i o r c m :
  youngest m s -> kept m -> (load m <= max_history m)%nat ->
  good 0 m (append_loop_event to_string [] (LoopEvent.StepEnd s i o r c) m) [] /\
  open_steps (append_loop_event to_string [] (LoopEvent.StepEnd s i o r c) m) = delete s (open_steps m) /\
  pending (append_loop_event to_string [] (LoopEvent.StepEnd s i o r c) m) = pending m.
Proof.
  intros Hy Hk Hl. cbn [append_loop_event].
  set (m1 := set_open_steps _ m). set (m2 := match open_steps m !! s with Some i => settle i m1 | None => m1 end).
  assert (G : good 0 m m2 [] /\ open_steps m2 = delete s (open_steps m) /\ pending m2 = pending m).
  { subst m1 m2. destruct (open_steps m !! s) as [j|] eqn:Es.
    - split; [by apply settle_good|]. destruct (settle_sublist j (set_open_steps (delete s (open_steps m)) m)) as [_ ->].
      done.
    - split; [|done]. apply same_good; try done. simpl. by rewrite delete_id. }
  destruct G as (G & Eo2 & Ep2). destruct (count_step_frame (open_steps m !! s) (context_tokens (LoopEvent.StepEnd s i o r c)) m2)
    as (Eh & Eo & Ep & Ed & _ & Em & _). set (m3 := count_step _ _ m2) in *.
  assert (G3 : good 0 m2 m3 []) by (apply same_good; [done..|apply G]).
  destruct (flush_frame m3) as (Eo' & Ep' & _). rewrite Eo', Ep', Eo, Ep. split; [|by rewrite Eo2, Ep2].
  assert (G13 := good_trans 0 0 _ _ _ _ G G3). apply (good_trans 0 0 m m3); [done|].
  destruct G13 as [H1 _ H3 H4]. apply flush_good; [done|lia].
Qed.

Lemma result_good c out e n seq m :
  kept m -> (load m <= max_history m)%nat ->
  good 0 m (append_loop_event to_string [] (LoopEvent.ToolResult c out e n seq) m) [] /\
  open_steps (append_loop_event to_string [] (LoopEvent.ToolResult c out e n seq) m) = open_steps m /\
  pending (append_loop_event to_string [] (LoopEvent.ToolResult c out e n seq) m) = pending m ∖ {[c]}.
Proof.
  intros Hk Hl. cbn [append_loop_event]. case_bool_decide as Hc.
  2:{ split_and!; [by apply good_refl|done|set_solver]. }
  set (msg := result_entry c _ e n (default 0 seq)).
  assert (G : good 0 m (set_pending (pending m ∖ {[c]}) (push m msg)) []) by (by apply answer_good).
  destruct (push_same m msg) as (Eo & Ep & _). rewrite Ep.
  set (m1 := set_pending _ _) in *. destruct (flush_frame m1) as (Eo' & Ep' & _). rewrite Eo', Ep'. split; [|done].
  apply (good_trans 0 0 m m1); [done|]. destruct G as [G1 _ G3 G4]. apply flush_good; [done|lia].
Qed.

Lemma begin_good s seq order m :
  open_steps m !! s = None -> order ≡ₚ elements (pending m) -> kept m -> (load m < max_history m)%nat ->
  good 1 m (append_loop_event to_string order (LoopEvent.StepBegin s seq) m) [].
Proof.
  intros Hs Ho Hk Hl. destruct (close_good order m Ho Hk) as (G & Ep & Eo); [lia|]. cbn [append_loop_event].
  set (m1 := close_pending_tool_results order m) in *. destruct G as [G1 G2 G3 G4].
  assert (Hroom : (length (history m1) < max_history m1)%nat) by (rewrite G4; unfold load in *; lia).
  unfold push_history. rewrite (proj2 (Nat.leb_gt _ _) Hroom).
  set (e := if entry_seq _ =? 0 then _ else _).
  assert (Ee : e_msg e = e_msg (step_entry (default 0 seq))) by (subst e; by destruct (entry_seq _ =? 0)).
  destruct G1 as [Hx Hd]. split; simpl; [|unfold others in *; simpl|unfold load in *; simpl|done].
  - split; [|done]. simpl. apply exchanges_begin; [by rewrite Eo| | | | |done];
      unfold calls, answer, e_message; by rewrite Ee.
  - rewrite filter_app'. simpl. rewrite (assistant_not_other e) by (unfold e_message; by rewrite Ee).
    rewrite !app_nil_r in *. done.
  - rewrite length_app. simpl. lia.
Qed.

Lemma event_good order event m :
  orderly_event order event m -> kept m -> (load m < max_history m)%nat ->
  good 1 m (append_loop_event to_string order event m) [].
Proof.
  intros Ho Hk Hl. assert (Hle : (load m <= max_history m)%nat) by lia.
  assert (H01 : forall m', good 0 m m' [] -> good 1 m m' []) by (intros m' [? ? ? ?]; split; [done..|lia|done]).
  destruct event as [s seq|s text|s text|s c n args|c out e n seq|s i o r c]; simpl in Ho.
  - destruct Ho. by apply begin_good.
  - by apply H01, on_step_good.
  - by apply H01, on_step_good.
  - destruct Ho. by apply call_good.
  - apply H01, (result_good c out e n seq m Hk Hle).
  - apply H01, (step_end_good s i o r c m Ho Hk Hle).
Qed.

(** ** Closing an interrupted turn *)

(** The open steps, youngest first *)
Definition youngest_first (m : ContextMemory) (steps : list string) : Prop :=
  StronglySorted (fun s t => forall i j, open_steps m !! s = Some i -> open_steps m !! t = Some j -> (j <= i)%nat) steps.

Lemma fold_results_good ids m :
  kept m -> (load m <= max_history m)%nat ->
  let m' := fold_events to_string (interrupted_event <$> ids) m in
  good 0 m m' [] /\ open_steps m' = open_steps m /\ pending m' = pending m ∖ list_to_set ids.
Proof.
  revert m. induction ids as [|id ids IH]; intros m Hk Hl; cbv zeta.
  - split_and!; [by apply good_refl|done|simpl; set_solver].
  - rewrite fmap_cons. unfold fold_events. cbn [foldl].
    destruct (result_good id (ToolScheduler.Text TOOL_INTERRUPTED_ON_RESUME_OUTPUT) true None None m Hk Hl) as (G & Eo & Ep).
    set (m1 := append_loop_event _ _ _ m) in *. destruct (IH m1) as (G' & Eo' & Ep'); [apply G|destruct G; lia|].
    split_and!; [by apply (good_trans 0 0 m m1)|unfold fold_events in *; congruence|].
    unfold fold_events in *. rewrite Ep', Ep. simpl. set_solver.
Qed.

Lemma fold_ends_good steps m :
  youngest_first m steps -> (forall t i, open_steps m !! t = Some i -> t ∈ steps) ->
  kept m -> (load m <= max_history m)%nat ->
  let m' := fold_events to_string (settled_event <$> steps) m in
  good 0 m m' [] /\ open_steps m' = ∅ /\ pending m' = pending m.
Proof.
  intros Hy. revert m Hy. induction steps as [|s steps IH]; intros m Hy Hin Hk Hl; cbv zeta.
  - split_and!; [by apply good_refl| |done]. simpl. apply map_empty. intros t.
    destruct (open_steps m !! t) as [i|] eqn:E; [|done]. apply Hin in E. by apply elem_of_nil in E.
  - rewrite fmap_cons. unfold fold_events. cbn [foldl]. inversion_clear Hy as [|? ? Hs Hf].
    assert (Hys : youngest m s).
    { intros i Hi t j Ht. destruct (elem_of_cons steps t s) as [[->|Htin] _]; [by eapply Hin| |].
      - rewrite Hi in Ht. by injection Ht as ->.
      - rewrite Forall_forall in Hf. by eapply Hf. }
    destruct (step_end_good s 0 0 0 0 m Hys Hk Hl) as (G & Eo & Ep). unfold settled_event at 2.
    set (m1 := append_loop_event _ _ _ m) in *. destruct (IH m1) as (G' & Eo' & Ep').
    + eapply StronglySorted_ind with (P := fun l => StronglySorted (fun s t => forall i j, open_steps m1 !! s = Some i ->
        open_steps m1 !! t = Some j -> (j <= i)%nat) l); [constructor| |exact Hs].
      intros a l _ IHl Ha. constructor; [done|]. eapply Forall_impl; [exact Ha|]. simpl. intros b Hb i j.
      rewrite Eo. intros [_ Hi]%lookup_delete_Some [_ Hj]%lookup_delete_Some. by eapply Hb.
    + intros t i. rewrite Eo. intros [Hne Ht]%lookup_delete_Some. apply Hin, elem_of_cons in Ht as [->|?]; done.
    + apply G.
    + destruct G; lia.
    + split_and!; [by apply (good_trans 0 0 m m1)|done|unfold fold_events in *; congruence].
Qed.

Lemma close_interrupted_good ps ss m :
  ps ≡ₚ elements (pending m) -> youngest_first m ss -> (forall t i, open_steps m !! t = Some i -> t ∈ ss) ->
  kept m -> (load m <= max_history m)%nat ->
  let m' := fst (close_interrupted to_string ps ss m) in
  good 0 m m' [] /\ open_steps m' = ∅ /\ pending m' = ∅.
Proof.
  intros Hp Hy Hin Hk Hl. cbv zeta. unfold close_interrupted, fold_events. simpl. rewrite foldl_app.
  destruct (fold_results_good ps m Hk Hl) as (G & Eo & Ep). unfold fold_events in *.
  set (m1 := foldl _ m (interrupted_event <$> ps)) in *.
  assert (Ep1 : pending m1 = ∅).
  { rewrite Ep. apply leibniz_equiv. assert (H : forall id, id ∈ ps <-> id ∈ pending m) by (intros id; by rewrite Hp, elem_of_elements).
    set_solver. }
  destruct (fold_ends_good ss m1) as (G' & Eo' & Ep').
  - unfold youngest_first in *. by rewrite Eo.
  - by rewrite Eo.
  - apply G.
  - destruct G; lia.
  - unfold fold_events in *. split_and!; [by apply (good_trans 0 0 m m1)|done|congruence].
Qed.

(** ** Settling the steps a journal left open *)

Lemma settle_from_top_open x m i : settle_from_top (set_open_steps x m) i = set_open_steps x (settle_from_top m i).
Proof.
  unfold settle_from_top, settle. simpl. destruct (history m !! i) as [e|]; [|done].
  destruct (is_vacuous e); simpl; [|done]. by destruct (_ <? _)%nat.
Qed.

Lemma settle_all_open l x m :
  foldl settle_from_top (set_open_steps x m) l = set_open_steps x (foldl settle_from_top m l).
Proof.
  revert m. induction l as [|i l IH]; intros m; [done|]. simpl. by rewrite settle_from_top_open, IH.
Qed.

Lemma settle_top_good s i m :
  open_steps m !! s = Some i -> youngest m s -> kept m ->
  good 0 m (set_open_steps (delete s (open_steps m)) (settle_from_top m i)) [].
Proof.
  intros Hs Hy Hk. rewrite <- settle_from_top_open. set (m1 := set_open_steps _ m).
  assert (G : good 0 m (settle i m1) []) by (by apply settle_good). apply (good_trans 0 0 m (settle i m1)); [done|].
  destruct (settle_sublist i m1) as [_ Es].
  assert (E : forall f : ContextMemory -> list Entry, f = history -> f (settle_from_top m1 i) = f (settle i m1)).
  { intros f ->. unfold settle_from_top, settle. destruct (history m1 !! i) as [e|]; [|done].
    destruct (is_vacuous e); simpl; [|done]. by destruct (_ <? _)%nat. }
  destruct (settle_from_top_frame m1 i) as (F1 & F2 & F3 & F4 & _).
  apply same_good; [by apply E|rewrite F1|rewrite F2|rewrite F3|rewrite F4|apply G]; by rewrite Es.
Qed.

Lemma settle_all_good l m :
  l ≡ₚ (snd <$> map_to_list (open_steps m)) -> StronglySorted ge l -> kept m ->
  good 0 m (set_open_steps ∅ (foldl settle_from_top m l)) [].
Proof.
  intros Hl Hs. revert m Hl. induction Hs as [|i l Hs IH Hf]; intros m Hl Hk.
  - apply Permutation_nil, fmap_nil_inv, map_to_list_empty_iff in Hl.
    simpl. apply same_good; done.
  - assert (Hin : i ∈ (snd <$> map_to_list (open_steps m))) by (rewrite <- Hl; left).
    apply list_elem_of_fmap in Hin as ([s j] & Ei & Hin). simpl in Ei. subst j. apply elem_of_map_to_list in Hin.
    assert (Hall : forall t j, open_steps m !! t = Some j -> (j <= i)%nat).
    { intros t j Ht. apply elem_of_map_to_list in Ht.
      assert (Hj : j ∈ i :: l) by (rewrite Hl; apply list_elem_of_fmap; by exists (t, j)).
      apply elem_of_cons in Hj as [->|Hj]; [done|]. rewrite Forall_forall in Hf. by apply Hf in Hj. }
    assert (G : good 0 m (set_open_steps (delete s (open_steps m)) (settle_from_top m i)) []).
    { apply settle_top_good; [done| |done]. intros k Hk' t j Ht. rewrite Hin in Hk'. injection Hk' as <-. by eapply Hall. }
    cbn [foldl]. set (m1 := set_open_steps _ (settle_from_top m i)) in *.
    replace (set_open_steps ∅ (foldl settle_from_top (settle_from_top m i) l))
      with (set_open_steps ∅ (foldl settle_from_top m1 l)).
    2:{ subst m1. by rewrite settle_all_open. }
    apply (good_trans 0 0 m m1); [done|]. apply IH; [|apply G].
    subst m1. simpl. apply (Permutation_cons_inv (a := i)). rewrite Hl.
    rewrite <- (map_to_list_delete _ _ _ Hin). done.
Qed.

Lemma settle_good_all m : kept m -> good 0 m (settle_open_steps m) [].
Proof.
  intros Hk. unfold settle_open_steps. apply settle_all_good; [| |done].
  - rewrite reverse_Permutation. apply merge_sort_Permutation.
  - apply Sorted_StronglySorted; [intros a b c; lia|].
    apply (Sorted_reverse le), (Sorted_merge_sort le).
Qed.

(** ** Runs *)

Definition orderly (op : Op) (m : ContextMemory) : Prop :=
  match op with
  | OpMessage msg => plain (mkEntry msg 0)
  | OpEvent order event => orderly_event order event m
  | OpClosePending order => order ≡ₚ elements (pending m)
  | OpCloseInterrupted ps ss =>
    ps ≡ₚ elements (pending m) /\ youngest_first m ss /\ forall t i, open_steps m !! t = Some i -> t ∈ ss
  | OpSettle => True
  | OpPop | OpCompact _ | OpUndo _ | OpLimits _ _ | OpClear => False
  end.

(** The caps leave room for one more. *)
Definition room (m : ContextMemory) : Prop :=
  (load m < max_history m)%nat /\ (length (deferred m) < max_deferred m)%nat.

Fixpoint orderly_run (ops : list Op) (m : ContextMemory) : Prop :=
  match ops with
  | [] => True
  | op :: ops => room m /\ orderly op m /\ orderly_run ops (apply_op to_string op m)
  end.

Definition new_messages (op : Op) : list ContextMessage := match op with OpMessage msg => [msg] | _ => [] end.

Lemma message_good msg m :
  plain (mkEntry msg 0) -> waiting_ok m -> room m -> kept m -> good 1 m (append_message (mkEntry msg 0) m) [msg].
Proof.
  intros Hp Hw [Hr1 Hr2] Hk. unfold append_message. destruct (has_open_tool_exchange m) eqn:E.
  - rewrite (proj2 (Nat.leb_gt _ _) Hr2). destruct Hk as [Hx Hd]. split; simpl; [| |unfold load; simpl|done].
    + split; [done|]. simpl. apply Forall_app. split; [done|by apply Forall_singleton].
    + unfold others. simpl. by rewrite !fmap_app, app_assoc.
    + rewrite length_app. simpl. lia.
  - apply has_open_false in E. assert (Ed : deferred m = []).
    { destruct (deferred m) eqn:Ed; [done|]. exfalso. apply Hw; [by rewrite Ed|done]. }
    unfold load in Hr1. destruct (push_all_plain [mkEntry msg 0] m) as (l' & Eh & El & Hpl & Hk'); [by apply Forall_singleton|done|simpl; lia|].
    simpl in *. destruct (push_same m (mkEntry msg 0)) as (_ & Ep & Ed' & Em & _).
    split; [done| | |by rewrite Em].
    + unfold others. rewrite Eh, Ed', Ed, filter_app', (filter_plain l'), !app_nil_r, fmap_app by done. by rewrite El.
    + unfold load. rewrite Eh, Ep, Ed', length_app. apply (f_equal length) in El. rewrite !length_fmap in El. simpl in El. lia.
Qed.

Lemma op_good op m :
  orderly op m -> waiting_ok m -> room m -> kept m -> good 1 m (apply_op to_string op m) (new_messages op).
Proof.
  intros Ho Hw Hr Hk. assert (Hl : (load m <= max_history m)%nat) by (destruct Hr; lia).
  assert (H01 : forall m', good 0 m m' [] -> good 1 m m' []) by (intros m' [? ? ? ?]; split; [done..|lia|done]).
  destruct op as [msg|order event|order|ps ss| | |input|count|a b|]; simpl in *; try done.
  - by apply message_good.
  - apply event_good; [done..|by destruct Hr].
  - by apply H01, (close_good order m).
  - destruct Ho as (? & ? & ?). by apply H01, (close_interrupted_good ps ss m).
  - by apply H01, settle_good_all.
Qed.

Lemma run_good ops m :
  orderly_run ops m -> waiting_ok m -> kept m ->
  kept (run to_string ops m) /\ others (run to_string ops m) = others m ++ flat_map new_messages ops.
Proof.
  revert m. induction ops as [|op ops IH]; intros m Ho Hw Hk; simpl in *; [by rewrite app_nil_r|].
  destruct Ho as (Hr & Hop & Ho). destruct (op_good op m Hop Hw Hr Hk) as [G1 G2 _ _].
  destruct (IH (apply_op to_string op m)) as [H1 H2]; [done|by apply apply_op_waiting|done|].
  unfold run in *. simpl. split; [done|]. by rewrite H2, G2, <- app_assoc.
Qed.

Lemma start_kept h d : kept (with_limits h d).
Proof. split; [apply exchanges_nil|constructor]. Qed.

(** C36. While the turn loop drives the memory (messages, loop events and closings; no
    undo, compaction or clear), the caps leave room for one more at every step, and
    every call is made in an open step under an id that no earlier call of the history
    has; steps begin under ids that are not open and the youngest ends first.  Then every tool
    call is waiting for its result or has exactly one, behind it; every result answers
    an earlier call; the waiting calls are calls of the history; and the partial
    messages are exactly those of the open steps.  An id that is used again gets two
    results behind one call ([reused_id_answers_twice]). *)
Theorem exchanges_kept h d ops :
  orderly_run ops (with_limits h d) ->
  let m := run to_string ops (with_limits h d) in
  exchanges (history m) (open_steps m) (pending m).
Proof.
  intros Ho. cbv zeta. destruct (run_good ops (with_limits h d)) as [[Hx _] _]; [done|by intros Hd|apply start_kept|done].
Qed.

(** Deferring loses, doubles and reorders nothing: the messages given to the
    memory are, in their order and unchanged, those of the history followed by
    those still waiting. *)
Theorem messages_in_order h d ops :
  orderly_run ops (with_limits h d) ->
  others (run to_string ops (with_limits h d)) = flat_map new_messages ops.
Proof.
  intros Ho. by destruct (run_good ops (with_limits h d)) as [_ ->]; [|by intros Hd|apply start_kept|].
Qed.

(** Closing an interrupted turn, or the journal of one when it is resumed, leaves
    every call with a result behind it, no message partial and none waiting; a
    turn is closed so only if the open steps are listed from the youngest, a
    journal in any order. *)
Theorem closing_answers_all m ps ss :
  kept m -> waiting_ok m -> (load m <= max_history m)%nat -> ps ≡ₚ elements (pending m) ->
  let closed m' :=
    pending m' = ∅ /\ deferred m' = [] /\ others m' = others m /\
    (forall i e c, history m' !! i = Some e -> c ∈ calls e ->
       exists j e', (i < j)%nat /\ history m' !! j = Some e' /\ answer e' = Some c) /\
    (forall e, e ∈ history m' -> partial (e_message e) = false) in
  closed (close_pending_tool_results ps (settle_open_steps m)) /\
  (youngest_first m ss -> (forall t i, open_steps m !! t = Some i -> t ∈ ss) ->
   closed (fst (close_interrupted to_string ps ss m))).
Proof.
  intros Hk Hw Hl Hp closed.
  assert (Hclosed : forall m', good 0 m m' [] -> open_steps m' = ∅ -> pending m' = ∅ -> waiting_ok m' -> closed m').
  { intros m' [[Hx _] G2 _ _] Eo Ep Hw'. rewrite app_nil_r in G2. split_and!; [done| |done| |].
    - destruct (deferred m') eqn:E; [done|]. exfalso. apply Hw'; [by rewrite E|done].
    - intros i e c Hi Hc. destruct (x_answered _ _ _ Hx i e c Hi Hc) as [Hin|?]; [set_solver|done].
    - intros e [i Hi]%list_elem_of_lookup. destruct (partial (e_message e)) eqn:E; [|done].
      destruct (x_partial _ _ _ Hx i e Hi E) as [s Hs]. by rewrite Eo in Hs. }
  split.
  - pose proof (settle_good_all m Hk) as G0. pose proof (g_load _ _ _ _ G0) as G3.
    pose proof (g_max _ _ _ _ G0) as G4.
    destruct (settle_all_frame (reverse (merge_sort le (snd <$> map_to_list (open_steps m)))) m) as (_ & Ep & Ed & _).
    destruct (close_good ps (settle_open_steps m)) as (G & E1 & E2);
      [by unfold settle_open_steps; simpl; rewrite Ep|apply G0|lia|].
    apply Hclosed; [by apply (good_trans 0 0 m (settle_open_steps m))|by rewrite E2|done|].
    apply close_pending_waiting. unfold waiting_ok, settle_open_steps. simpl. by rewrite Ep, Ed.
  - intros Hy Hin. destruct (close_interrupted_good ps ss m) as (G & E1 & E2); [done..|].
    apply Hclosed; [done..|]. by apply fold_events_waiting.
Qed.
End runs.

(** ** Examples *)

Lemma youngest_in m step_id i :
  open_steps m !! step_id = Some i -> Forall (fun j => (j <= i)%nat) (snd <$> map_to_list (open_steps m)) ->
  youngest m step_id.
Proof.
  intros Hi Hf i' Hi' t j Ht. rewrite Hi in Hi'. injection Hi' as <-. rewrite Forall_forall in Hf. apply Hf.
  apply list_elem_of_fmap. exists (t, j). by rewrite elem_of_map_to_list.
Qed.

Ltac by_evaluation :=
  vm_compute;
  first [ reflexivity | done | lia | by repeat constructor | by eexists
        | by repeat split; try discriminate
        | intros [|[|[|[|?]]]] ? ?; simplify_eq; vm_compute; by inversion 1 ].

Lemma sample_orderly : orderly_run no_json sample_ops (with_limits 100 10).
Proof.
  repeat match goal with |- orderly_run _ _ _ => unfold sample_ops; cbn [orderly_run] | |- _ /\ _ => split end.
  all: try by_evaluation.
  - split; [vm_compute; by eexists|]. intros j e Hj. apply list_elem_of_lookup_2 in Hj.
    assert (Hn : Forall (fun e => calls e = []) (history (sample_memory 3)))
      by (apply (bool_decide_unpack _); vm_compute; done).
    rewrite Forall_forall in Hn. rewrite (Hn e Hj). apply not_elem_of_nil.
  - apply (youngest_in _ _ 1); vm_compute; [reflexivity|by repeat constructor].
Qed.

Lemma sample_orderly_take n : orderly_run no_json (take n sample_ops) (with_limits 100 10).
Proof.
  destruct sample_orderly as (A1 & B1 & A2 & B2 & A3 & B3 & A4 & B4 & A5 & B5 & A6 & B6 & A7 & B7 & _).
  destruct n as [|[|[|[|[|[|[|n]]]]]]]; cbn [sample_ops take orderly_run];
    rewrite ?take_nil; unfold sample_ops in *; cbn [orderly_run]; repeat (split; [assumption|]); exact I.
Qed.

Lemma exchanges_kept_witness :
  pending (sample_memory 5) <> ∅ /\
  exchanges (history (sample_memory 5)) (open_steps (sample_memory 5)) (pending (sample_memory 5)).
Proof.
  split; [vm_compute; discriminate|]. apply (exchanges_kept no_json 100 10 (take 5 sample_ops) (sample_orderly_take 5)).
Defined.

Lemma messages_in_order_witness :
  others (sample_memory 5) = [says "hello"; says "also this"] /\ length (deferred (sample_memory 5)) = 1%nat.
Proof.
  split; [|reflexivity]. apply (messages_in_order no_json 100 10 (take 5 sample_ops) (sample_orderly_take 5)).
Defined.

Lemma sample_kept n : kept (sample_memory n) /\ waiting_ok (sample_memory n).
Proof.
  split.
  - destruct (run_good no_json (take n sample_ops) (with_limits 100 10)) as [H _];
      [apply sample_orderly_take|by intros Hd|apply start_kept|done].
  - unfold sample_memory, run. generalize (take n sample_ops). intros l.
    assert (Hw : waiting_ok (with_limits 100 10)) by (by intros Hd). revert Hw.
    generalize (with_limits 100 10). induction l as [|op l IH]; intros m Hm; [done|]. apply IH. by apply apply_op_waiting.
Qed.

Lemma closing_answers_all_witness :
  let m := sample_memory 5 in
  pending m <> ∅ /\
  forall e, e ∈ history (fst (close_interrupted no_json ["c1"] ["s1"] m)) -> partial (e_message e) = false.
Proof.
  cbv zeta. split; [vm_compute; discriminate|].
  destruct (sample_kept 5) as [Hk Hw].
  destruct (closing_answers_all no_json (sample_memory 5) ["c1"] ["s1"]) as [_ H];
    [done|done|vm_compute; lia|vm_compute; reflexivity|].
  apply H; [|intros t i Ht].
  - repeat constructor.
  - assert (Hs : Forall (fun '(t, _) => t = "s1") (map_to_list (open_steps (sample_memory 5))))
      by (apply (bool_decide_unpack _); vm_compute; done).
    rewrite Forall_forall in Hs. apply elem_of_map_to_list, Hs in Ht. subst t. by left.
Defined.

(** A failed attempt leaves its step open, and the turn's next attempt opens
    another behind it: listed oldest first, the empty message of the first is
    removed, the second's place is lost and its message stays partial. *)
Definition retried_memory : ContextMemory :=
  run no_json
    [OpMessage (says "hello"); OpEvent [] (LoopEvent.StepBegin "s1" None); OpEvent [] (LoopEvent.StepBegin "s2" None);
     OpEvent [] (LoopEvent.ContentPart "s2" "half an answer")] (with_limits 100 10).

Example oldest_first_stays_partial :
  let closed order := (fun e => (content (e_message e), partial (e_message e))) <$>
                        history (fst (close_interrupted no_json [] order retried_memory)) in
  closed ["s2"; "s1"] = [([Text "hello"], false); ([Text "half an answer"], false)] /\
  closed ["s1"; "s2"] = [([Text "hello"], false); ([Text "half an answer"], true)].
Proof. split; vm_compute; reflexivity. Qed.

(** A call under an id that an earlier step used: the first call has two results
    behind it. *)
Definition reused_memory : ContextMemory :=
  let step s := [OpEvent [] (LoopEvent.StepBegin s None); OpEvent [] (LoopEvent.ToolCall s "c1" "Read" JNull);
                 OpEvent [] (LoopEvent.ToolResult "c1" (ToolScheduler.Text "found") false None None);
                 OpEvent [] (LoopEvent.StepEnd s 1 1 0 0)] in
  run no_json (step "s1" ++ step "s2") (with_limits 100 10).
Example reused_id_answers_twice :
  (fun e => (calls e, answer e)) <$> history reused_memory =
  [(["c1"], None); ([], Some "c1"); (["c1"], None); ([], Some "c1")].
Proof. vm_compute. reflexivity. Qed.

(** A message that comes while a step still streams, before its first call is
    known, is not kept waiting: it lands between the call and its result. *)
Definition streamed_memory : ContextMemory :=
  run no_json
    [OpEvent [] (LoopEvent.StepBegin "s1" None); OpMessage (says "wait");
     OpEvent [] (LoopEvent.ToolCall "s1" "c1" "Read" JNull);
     OpEvent [] (LoopEvent.ToolResult "c1" (ToolScheduler.Text "found") false None None)] (with_limits 100 10).

Example message_splits_the_exchange :
  (fun e => (calls e, answer e, is_other e)) <$> history streamed_memory =
  [(["c1"], None, false); ([], None, true); ([], Some "c1", false)].
Proof. vm_compute. reflexivity. Qed.
