(* ===== verification/SwarmBatch.v ===== *)
(** * The swarm batch scheduler: [mirri-core/src/subagent/swarm_batch.rs]

    One [AgentSwarm] batch: the paced launches, the attempts with their budgets,
    the members that wait for a person, the requeues after a rate limit and the
    cancellation.  [run_swarm_batch] is a state machine: the launch loop, the
    computation of the next wake and the [select] are its phases, and an event is
    what the environment decides: readings of the clock, answers of the host, and
    which future of the [select] is ready.  Instants and durations are nanoseconds. *)
From stdpp Require Import gmap list strings.
From S2P Require Import Prelude RustStd PermPolicies.
#[local] Open Scope list_scope.
#[local] Open Scope Z_scope.

(** ** Constants *)

Definition from_millis (ms : Z) : Z := ms * 10 ^ 6.
Definition as_secs (d : Z) : Z := d / 10 ^ 9.

Definition INITIAL_LAUNCH_LIMIT : nat := 5.
Definition INITIAL_LAUNCH_INTERVAL_MS : Z := 700.
Definition RATE_LIMIT_RETRY_BASE_MS : Z := 3000.
Definition RATE_LIMIT_RETRY_FACTOR : Z := 2.
Definition RATE_LIMIT_CAPACITY_SHRINK_INTERVAL_MS : Z := 2000.
Definition RATE_LIMIT_CAPACITY_RECOVERY_INTERVAL_MS : Z := 180000.
Definition CANCELLED_STARTED_MESSAGE : string :=
  "The user manually interrupted this subagent batch before this subagent finished.".
Definition CANCELLED_NOT_STARTED_MESSAGE : string :=
  "The user manually interrupted this subagent batch before this subagent was started.".

(** ** Members and results *)

Inductive SwarmTaskKind : Type :=
| Spawn (profile_name : string) (model : option string)
| Resume (agent_id : string).

Record SwarmTask : Type := mkSwarmTask {
  kind : SwarmTaskKind;
  prompt : string;
  description : string;
  item : option string;
  swarm_index : Z
}.

Inductive SwarmOutcome : Type := Completed | Failed | Aborted.
Inductive SwarmStartState : Type := Started | NotStarted.

Record SwarmRunResult : Type := mkResult {
  r_task : SwarmTask;
  r_agent_id : option string;
  r_outcome : SwarmOutcome;
  r_state : SwarmStartState;
  r_result : option string;
  r_error : option string
}.

(** [SwarmBatchOptions] with the other arguments of the batch; [registry] is
    whether the members are tracked, [retry_base] the requeue backoff in effect. *)
Record Options : Type := mkOptions {
  max_concurrency : option nat;
  attempt_timeout : option Z;
  retry_base : Z;
  registry : bool;
  o_turn_origin : TurnOriginContext;
  parent_tool_call_id : option string
}.

(** [parse_swarm_max_concurrency] *)
Definition parse_swarm_max_concurrency (raw : option string) : result string (option nat) :=
  match raw with
  | None => Ok None
  | Some raw =>
    let trimmed := trim raw in
    if bool_decide (trimmed = "") then Ok None
    else
      let invalid :=
        Err ("invalid MIRRI_AGENT_SWARM_MAX_CONCURRENCY '" +:+ trimmed +:+ "': must be a positive integer") in
      match parse_u64 trimmed with
      | Some n => if 0 <? n then Ok (Some (Z.to_nat n)) else invalid
      | None => invalid
      end
  end.

(** The ceiling that is configured is never zero. *)
Lemma parsed_ceiling raw m : parse_swarm_max_concurrency raw = Ok m -> m <> Some 0%nat.
Proof.
  intros H. unfold parse_swarm_max_concurrency in H. destruct raw as [raw|]; [|by injection H as <-]. cbv zeta in H.
  destruct (bool_decide (trim raw = "")); [by injection H as <-|]. destruct (parse_u64 _) as [n|]; [|done].
  destruct (0 <? n) eqn:E; [|done]. bsimpl. injection H as <-. intros [= H0]. lia.
Qed.

(** [TaskState]; the activity clock of the attempt is the environment's. *)
Record TaskState : Type := mkTaskState {
  ts_index : nat;
  ts_task : SwarmTask;
  ts_agent_id : option string;
  tracked_task_id : option string;
  retry_count : Z;
  last_seen_activity_ms : option Z;
  retry_ready_at : option Z
}.

(** The host's handle of a launched attempt, with the first reading of its
    activity clock when it has one *)
Record Handle : Type := mkHandle { h_agent_id : string; h_activity : option Z }.

Inductive SubagentError : Type :=
| TurnFailed (msg : string)
| SubagentCancelled
| RateLimitedError (msg : string).

Inductive SuspendCause : Type :=
| Approval (request_id : string) (tool_call_id : option string)
| Question (request_id : string) (tool_call_id : option string)
| RateLimit
| Legacy (reason : string).

Inductive SuspensionNotice : Type := Suspended (cause : SuspendCause) | ResumedNotice.

(** [RateLimitMode] *)
Record RateLimitMode : Type := mkRateLimit {
  capacity : nat;
  last_shrink : Z;
  last_rate_limit_or_recovery : Z;
  launch_gate : option Z
}.

Inductive AttemptOutcome : Type :=
| AttemptCompleted (result : string)
| AttemptFailed (msg : string)
| AttemptRateLimited (msg : string)
| AttemptCancelled.

(** The future of an attempt in [active]: its budget, the deadline set at its
    first poll, and whether it has expired and only awaits its runner. *)
Record Attempt : Type := mkAttempt {
  at_budget : option Z;
  at_polled : option (option Z);
  at_expired : bool
}.

(** ** What the batch does to its surroundings *)

(** The launches carry the member's index; the remaining fields of the requests
    are constants of the code. *)
Inductive Effect : Type :=
| HostSpawn (index : nat) (profile_name prompt description : string) (model : option string)
    (parent_tool_call_id : option string) (swarm_index : Z) (swarm_item : option string)
    (origin : TurnOriginContext)
| HostResume (index : nat) (agent_id prompt : string) (retry : bool)
| Launched (index : nat) (agent_id : string) (retry : bool) (checked_at launched_at : Z)
| Readmitted (index : nat)
| Requeued (index : nat) (retry_count : Z) (at_ : Z)
| NotifySuspended (agent_id : string)
| CancelMember (index : nat)
| TaskRegister (index : nat) (task_id agent_id description : string)
| TaskAttachSignal (task_id : string) (index : nat)
| TaskComplete (task_id : string)
| TaskFail (task_id msg : string)
| TaskStop (task_id : string)
| TaskHeartbeat (task_id : string)
| Progress (agent_id : option string) (last_activity_ms : Z).

(** ** The state *)

(** Where the loop is: about to try a launch, about to compute the next wake,
    waiting in the [select] until it, or done, with the results when each member
    has one (the code panics on a member without). *)
Inductive Phase : Type :=
| Launching
| Waking
| Selecting (wake : option Z)
| Ended (results : option (list SwarmRunResult)).

Record State : Type := mkState {
  pending : list TaskState;
  results : list (option SwarmRunResult);
  active : gmap nat Attempt;
  in_flight : gmap nat TaskState;
  parked_waits : gmap nat (option Z);
  ready_queue : list (nat * option Z);
  launches : nat;
  last_normal_launch : option Z;
  rate_limit : option RateLimitMode;
  completed_count : nat;
  cancelled : bool;
  phase : Phase;
  log : list Effect
}.

Definition set_pending (x : list TaskState) (s : State) : State :=
  mkState x (results s) (active s) (in_flight s) (parked_waits s) (ready_queue s) (launches s)
    (last_normal_launch s) (rate_limit s) (completed_count s) (cancelled s) (phase s) (log s).
Definition set_results (x : list (option SwarmRunResult)) (s : State) : State :=
  mkState (pending s) x (active s) (in_flight s) (parked_waits s) (ready_queue s) (launches s)
    (last_normal_launch s) (rate_limit s) (completed_count s) (cancelled s) (phase s) (log s).
Definition set_active (x : gmap nat Attempt) (s : State) : State :=
  mkState (pending s) (results s) x (in_flight s) (parked_waits s) (ready_queue s) (launches s)
    (last_normal_launch s) (rate_limit s) (completed_count s) (cancelled s) (phase s) (log s).
Definition set_in_flight (x : gmap nat TaskState) (s : State) : State :=
  mkState (pending s) (results s) (active s) x (parked_waits s) (ready_queue s) (launches s)
    (last_normal_launch s) (rate_limit s) (completed_count s) (cancelled s) (phase s) (log s).
Definition set_parked_waits (x : gmap nat (option Z)) (s : State) : State :=
  mkState (pending s) (results s) (active s) (in_flight s) x (ready_queue s) (launches s)
    (last_normal_launch s) (rate_limit s) (completed_count s) (cancelled s) (phase s) (log s).
Definition set_ready_queue (x : list (nat * option Z)) (s : State) : State :=
  mkState (pending s) (results s) (active s) (in_flight s) (parked_waits s) x (launches s)
    (last_normal_launch s) (rate_limit s) (completed_count s) (cancelled s) (phase s) (log s).
Definition set_launches (x : nat) (s : State) : State :=
  mkState (pending s) (results s) (active s) (in_flight s) (parked_waits s) (ready_queue s) x
    (last_normal_launch s) (rate_limit s) (completed_count s) (cancelled s) (phase s) (log s).
Definition set_last_normal_launch (x : option Z) (s : State) : State :=
  mkState (pending s) (results s) (active s) (in_flight s) (parked_waits s) (ready_queue s)
    (launches s) x (rate_limit s) (completed_count s) (cancelled s) (phase s) (log s).
Definition set_rate_limit (x : option RateLimitMode) (s : State) : State :=
  mkState (pending s) (results s) (active s) (in_flight s) (parked_waits s) (ready_queue s)
    (launches s) (last_normal_launch s) x (completed_count s) (cancelled s) (phase s) (log s).
Definition set_completed_count (x : nat) (s : State) : State :=
  mkState (pending s) (results s) (active s) (in_flight s) (parked_waits s) (ready_queue s)
    (launches s) (last_normal_launch s) (rate_limit s) x (cancelled s) (phase s) (log s).
Definition set_cancelled (x : bool) (s : State) : State :=
  mkState (pending s) (results s) (active s) (in_flight s) (parked_waits s) (ready_queue s)
    (launches s) (last_normal_launch s) (rate_limit s) (completed_count s) x (phase s) (log s).
Definition set_phase (x : Phase) (s : State) : State :=
  mkState (pending s) (results s) (active s) (in_flight s) (parked_waits s) (ready_queue s)
    (launches s) (last_normal_launch s) (rate_limit s) (completed_count s) (cancelled s) x (log
    s).
Definition set_log (x : list Effect) (s : State) : State :=
  mkState (pending s) (results s) (active s) (in_flight s) (parked_waits s) (ready_queue s)
    (launches s) (last_normal_launch s) (rate_limit s) (completed_count s) (cancelled s) (phase
    s) x.

Definition emit (effects : list Effect) (s : State) : State := set_log (log s ++ effects) s.

(** [results[index] = Some(..)] *)
Definition put_result (index : nat) (r : SwarmRunResult) (s : State) : State :=
  set_results (<[index := Some r]> (results s)) s.

(** An update of the tracked task of a member, when the batch tracks its members *)
Definition on_row (o : Options) (state : TaskState) (effect : string -> Effect) : list Effect :=
  match tracked_task_id state with
  | Some task_id => if registry o then [effect task_id] else []
  | None => []
  end.

Definition set_agent_id (agent_id : option string) (state : TaskState) : TaskState :=
  mkTaskState (ts_index state) (ts_task state) agent_id (tracked_task_id state) (retry_count state)
    (last_seen_activity_ms state) (retry_ready_at state).

(** ** Capacity *)

Definition effective_capacity (max_concurrency rate_limit_capacity : option nat) : option nat :=
  match max_concurrency, rate_limit_capacity with
  | Some env_cap, Some rl_cap => Some (Nat.min env_cap rl_cap)
  | Some env_cap, None => Some env_cap
  | None, rl_cap => rl_cap
  end.

(** [RateLimitMode::enter] *)
Definition enter (now : Z) (seed : nat) (base : Z) : RateLimitMode :=
  mkRateLimit (Nat.max seed 1) now now (Some (now + base)).

(** The recovery maintenance of the launch loop *)
Definition recover (now : Z) (rl : RateLimitMode) : RateLimitMode :=
  if from_millis RATE_LIMIT_CAPACITY_RECOVERY_INTERVAL_MS <=? now - last_rate_limit_or_recovery rl
  then mkRateLimit (S (capacity rl)) (last_shrink rl) now None
  else rl.

(** What a requeue does to a mode already entered *)
Definition refresh (now base : Z) (rl : RateLimitMode) : RateLimitMode :=
  let shrink :=
    (from_millis RATE_LIMIT_CAPACITY_SHRINK_INTERVAL_MS <=? now - last_shrink rl)
    && (1 <? capacity rl)%nat in
  let next := now + base in
  mkRateLimit (if shrink then Nat.pred (capacity rl) else capacity rl)
    (if shrink then now else last_shrink rl) now
    (Some (match launch_gate rl with Some g => Z.max g next | None => next end)).

(** ** The launch loop *)

(** What one turn of the launch loop meets: the clock at its check, at the
    record of the launch and at the re-arming of the gate, the id a tracked
    task is registered under, and the host's answer. *)
Record LaunchEnv : Type := mkLaunchEnv {
  l_now : Z;
  l_answer : result string Handle;
  l_task_id : string;
  l_launched_at : Z;
  l_gated_at : Z
}.

(** [Option::is_none_or] of a gate *)
Definition gate_passed (now : Z) (gate : option Z) : bool :=
  match gate with Some g => g <=? now | None => true end.

Definition rl_gate_open (now : Z) (s : State) : bool :=
  match rate_limit s with Some rl => gate_passed now (launch_gate rl) | None => true end.

Definition ramp_open (now : Z) (s : State) : bool :=
  (launches s <? INITIAL_LAUNCH_LIMIT)%nat
  || gate_passed now ((fun last => last + from_millis INITIAL_LAUNCH_INTERVAL_MS) <$> last_normal_launch s).

Definition may_launch (now : Z) (s : State) (state : TaskState) : bool :=
  match retry_ready_at state with
  | Some ready => (ready <=? now) && rl_gate_open now s
  | None => rl_gate_open now s && ramp_open now s
  end.

(** [pending.iter().position(..)] with [pending.remove(..)] *)
Fixpoint pick (eligible : TaskState -> bool) (l : list TaskState) : option (TaskState * list TaskState) :=
  match l with
  | [] => None
  | state :: rest =>
    if eligible state then Some (state, rest)
    else match pick eligible rest with
         | Some (found, rest) => Some (found, state :: rest)
         | None => None
         end
  end.

(** The call to the host: a requeued member resumes as a retry of the same
    agent, whose id it always carries. *)
Definition host_call (o : Options) (state : TaskState) : option Effect :=
  let i := ts_index state in
  let task := ts_task state in
  match retry_ready_at state with
  | Some _ => (fun agent_id => HostResume i agent_id "" true) <$> ts_agent_id state
  | None =>
    Some (match kind task with
          | Spawn profile_name model =>
            HostSpawn i profile_name (prompt task) (description task) model (parent_tool_call_id o)
              (swarm_index task) (item task) (o_turn_origin o)
          | Resume agent_id => HostResume i agent_id (prompt task) false
          end)
  end.

(** A launch the host refused *)
Definition launch_failed (error : string) (state : TaskState) (s : State) : State :=
  let agent_id :=
    match ts_agent_id state with
    | Some id => Some id
    | None => match kind (ts_task state) with Resume id => Some id | Spawn _ _ => None end
    end in
  put_result (ts_index state)
    (mkResult (ts_task state) agent_id Failed
       (match agent_id with Some _ => Started | None => NotStarted end) None (Some error)) s.

(** A launch the host accepted *)
Definition launch_accepted (o : Options) (t : LaunchEnv) (handle : Handle) (state : TaskState) (s : State)
  : State :=
  let i := ts_index state in
  let is_retry := bool_decide (is_Some (retry_ready_at state)) in
  let tracked :=
    if registry o && negb is_retry then Some (l_task_id t) else tracked_task_id state in
  let state' :=
    mkTaskState i (ts_task state) (Some (h_agent_id handle)) tracked (retry_count state)
      (h_activity handle) (retry_ready_at state) in
  let effects :=
    (if registry o && negb is_retry
     then [TaskRegister i (l_task_id t) (h_agent_id handle) (description (ts_task state))] else [])
    ++ on_row o state' (fun id => TaskAttachSignal id i)
    ++ [Launched i (h_agent_id handle) is_retry (l_now t) (l_launched_at t)] in
  let s := emit effects s in
  let s := set_active (<[i := mkAttempt (attempt_timeout o) None false]> (active s)) s in
  let s := if is_retry then s
           else set_launches (S (launches s)) (set_last_normal_launch (Some (l_launched_at t)) s) in
  let s := set_rate_limit
             ((fun rl => mkRateLimit (capacity rl) (last_shrink rl) (last_rate_limit_or_recovery rl)
                           (Some (l_gated_at t + retry_base o))) <$> rate_limit s) s in
  set_in_flight (<[i := state']> (in_flight s)) s.

(** One turn of the launch loop, and whether the loop goes on *)
Definition launch_turn (o : Options) (t : LaunchEnv) (s : State) : State * bool :=
  if cancelled s then (s, false)
  else
    let now := l_now t in
    let s := set_rate_limit (recover now <$> rate_limit s) s in
    let cap := effective_capacity (max_concurrency o) (capacity <$> rate_limit s) in
    if match cap with Some c => (c <=? size (active s))%nat | None => false end then (s, false)
    else
      match ready_queue s with
      | (i, remaining) :: rest =>
        (set_active (<[i := mkAttempt remaining None false]> (active s))
           (set_ready_queue rest (emit [Readmitted i] s)), true)
      | [] =>
        match pick (may_launch now s) (pending s) with
        | None => (s, false)
        | Some (state, rest) =>
          let s := emit (option_list (host_call o state)) (set_pending rest s) in
          (match l_answer t with
           | Err error => launch_failed error state s
           | Ok handle => launch_accepted o t handle state s
           end, true)
        end
      end.

(** ** Settling *)

Definition aborted (agent_id : option string) (state : TaskState) : SwarmRunResult :=
  mkResult (ts_task state) agent_id Aborted Started None (Some CANCELLED_STARTED_MESSAGE).

(** [settle_parked_aborted] *)
Definition settle_parked_aborted (o : Options) (index : nat) (s : State) : State :=
  match in_flight s !! index with
  | None => s
  | Some state =>
    put_result index (aborted (ts_agent_id state) state)
      (emit ([CancelMember index] ++ on_row o state TaskStop) (set_in_flight (delete index (in_flight s)) s))
  end.

(** The requeue of a rate-limited member; the clock is read for the backoff and
    again for the mode. *)
Definition requeue (o : Options) (state : TaskState) (ready_from now : Z) (s : State) : State :=
  let count := wrap_u32 (retry_count state + 1) in
  let backoff := retry_base o * wrap_u32 (RATE_LIMIT_RETRY_FACTOR ^ (count - 1)) in
  let state' :=
    mkTaskState (ts_index state) (ts_task state) (ts_agent_id state) (tracked_task_id state) count
      (last_seen_activity_ms state) (Some (ready_from + backoff)) in
  let mode :=
    match rate_limit s with
    | None => enter now (completed_count s + size (in_flight s)) (retry_base o)
    | Some rl => refresh now (retry_base o) rl
    end in
  set_pending (state' :: pending s)
    (set_rate_limit (Some mode)
       (emit [NotifySuspended (default "" (ts_agent_id state)); Requeued (ts_index state) count ready_from] s)).

(** [settle_attempt]; the agent an attempt reports is the one its state holds
    since the launch. *)
Definition settle_attempt (o : Options) (index : nat) (outcome : AttemptOutcome) (ready_from now : Z)
    (s : State) : State :=
  match in_flight s !! index with
  | None => s
  | Some state =>
    let s := set_in_flight (delete index (in_flight s)) s in
    let finish outcome result error effects s :=
      put_result (ts_index state) (mkResult (ts_task state) (ts_agent_id state) outcome Started result error)
        (emit effects s) in
    match outcome with
    | AttemptCompleted result =>
      finish Completed (Some result) None (on_row o state TaskComplete)
        (set_completed_count (S (completed_count s)) s)
    | AttemptFailed msg => finish Failed None (Some msg) (on_row o state (fun id => TaskFail id msg)) s
    | AttemptCancelled =>
      finish Aborted None (Some CANCELLED_STARTED_MESSAGE) (on_row o state TaskStop) s
    | AttemptRateLimited msg =>
      if cancelled s then
        finish Aborted None (Some CANCELLED_STARTED_MESSAGE) (on_row o state TaskStop) s
      else if (length (pending s) + size (in_flight s) =? 0)%nat then
        finish Failed None (Some msg) (on_row o state (fun id => TaskFail id msg)) s
      else requeue o state ready_from now s
    end
  end.

(** The drains after the loop, which only a cancellation leaves members for *)
Definition drained (state : TaskState) : SwarmRunResult :=
  let started := bool_decide (is_Some (ts_agent_id state)) in
  mkResult (ts_task state) (ts_agent_id state) Aborted (if started then Started else NotStarted) None
    (Some (if started then CANCELLED_STARTED_MESSAGE else CANCELLED_NOT_STARTED_MESSAGE)).

Definition drain_pending (o : Options) (state : TaskState) (s : State) : State :=
  put_result (ts_index state) (drained state)
    (emit (if bool_decide (is_Some (ts_agent_id state)) then on_row o state TaskStop else []) s).

Definition finish (o : Options) (s : State) : State :=
  let s := set_pending [] (foldl (fun s state => drain_pending o state s) s (pending s)) in
  let s := set_ready_queue [] (foldl (fun s member => settle_parked_aborted o (fst member) s) s (ready_queue s)) in
  set_phase (Ended (mapM id (results s))) s.

(** The two tests that break the loop *)
Definition loop_done (s : State) : bool :=
  bool_decide (pending s = []) && bool_decide (active s = ∅)
  && bool_decide (ready_queue s = []) && bool_decide (parked_waits s = ∅)
  || cancelled s && bool_decide (active s = ∅) && bool_decide (parked_waits s = ∅).

Definition next_turn (o : Options) (s : State) : State :=
  if loop_done s then finish o s else set_phase Launching s.

(** ** The next wake *)

(** The instants the loop considers *)
Definition deadlines (s : State) : list Z :=
  (match last_normal_launch s with
   | Some last => if (INITIAL_LAUNCH_LIMIT <=? launches s)%nat
                  then [last + from_millis INITIAL_LAUNCH_INTERVAL_MS] else []
   | None => []
   end)
  ++ (match rate_limit s with
      | Some rl =>
        option_list (launch_gate rl)
        ++ (if bool_decide (pending s = []) then []
            else [last_rate_limit_or_recovery rl + from_millis RATE_LIMIT_CAPACITY_RECOVERY_INTERVAL_MS])
      | None => []
      end)
  ++ omap retry_ready_at (pending s).

(** The earliest of those still to come *)
Definition next_wake (now : Z) (s : State) : option Z :=
  foldl (fun wake deadline =>
           if now <? deadline
           then Some (match wake with Some w => Z.min w deadline | None => deadline end)
           else wake) None (deadlines s).

(** ** The attempts *)

(** [is_user_wait] *)
Definition is_user_wait (cause : SuspendCause) : bool :=
  match cause with Approval _ _ | Question _ _ => true | RateLimit | Legacy _ => false end.

Definition attempt_outcome (completion : result SubagentError string) : AttemptOutcome :=
  match completion with
  | Ok text => AttemptCompleted text
  | Err (TurnFailed msg) => AttemptFailed msg
  | Err (RateLimitedError msg) => AttemptRateLimited msg
  | Err SubagentCancelled => AttemptCancelled
  end.

(** The message of an expired attempt names the budget it was armed with. *)
Definition timeout_message (budget : option Z) : string :=
  "Subagent timed out after " +:+ pretty (as_secs (default 0 budget)) +:+ "s.".

(** ** The machine *)

Inductive Event : Type :=
| LaunchTurn (t : LaunchEnv)
| FirstPoll (index : nat) (now : Z)
| AttemptEnds (index : nat) (completion : result SubagentError string) (ready_from now : Z)
| DeadlinePasses (index : nat) (now : Z)
| Notice (index : nat) (notice : SuspensionNotice) (now : Z)
| ParkedNotice (index : nat)
| ParkedCancelled (index : nat)
| BatchCancelled
| WakeUp (now : Z)
| KeepaliveTick (readings : gmap nat Z)
| ComputeWake (now : Z).

(** The keepalive of one member: its clock has moved since the last sample. *)
Definition sample_member (o : Options) (readings : gmap nat Z) (state : TaskState)
  : TaskState * list Effect :=
  match readings !! ts_index state, last_seen_activity_ms state with
  | Some now, Some last =>
    if now =? last then (state, [])
    else
      (mkTaskState (ts_index state) (ts_task state) (ts_agent_id state) (tracked_task_id state)
         (retry_count state) (Some now) (retry_ready_at state),
       on_row o state TaskHeartbeat ++ [Progress (ts_agent_id state) now])
  | _, _ => (state, [])
  end.

(** The members in flight are visited in some order; here by index. *)
Definition keepalive (o : Options) (readings : gmap nat Z) (s : State) : State :=
  emit (flat_map (fun entry => snd (sample_member o readings (snd entry))) (map_to_list (in_flight s)))
    (set_in_flight ((fun state => fst (sample_member o readings state)) <$> in_flight s) s).

(** A future of the [select] is polled only while it is armed; its branch then
    leads to the next turn of the loop.  A poll that starts an attempt's clock,
    and one that expires it, leave the [select] waiting. *)
Definition select (o : Options) (e : Event) (s : State) : option State :=
  match e with
  | FirstPoll i now =>
    match active s !! i with
    | Some (mkAttempt budget None expired) =>
      Some (set_active (<[i := mkAttempt budget (Some ((fun b => now + b) <$> budget)) expired]> (active s)) s)
    | _ => None
    end
  | AttemptEnds i completion ready_from now =>
    match active s !! i with
    | Some (mkAttempt budget (Some _) expired) =>
      let outcome := if expired then AttemptFailed (timeout_message budget) else attempt_outcome completion in
      Some (next_turn o (settle_attempt o i outcome ready_from now (set_active (delete i (active s)) s)))
    | _ => None
    end
  | DeadlinePasses i now =>
    match active s !! i with
    | Some (mkAttempt budget (Some (Some deadline)) false) =>
      if deadline <=? now then
        Some (emit [CancelMember i]
                (set_active (<[i := mkAttempt budget (Some (Some deadline)) true]> (active s)) s))
      else None
    | _ => None
    end
  | Notice i notice now =>
    match active s !! i with
    | Some (mkAttempt _ (Some deadline) false) =>
      match notice with
      | Suspended cause =>
        if is_user_wait cause then
          let remaining := (fun d => Z.max 0 (d - now)) <$> deadline in
          Some (next_turn o (set_parked_waits (<[i := remaining]> (parked_waits s))
                               (set_active (delete i (active s)) s)))
        else Some s
      | ResumedNotice => Some s
      end
    | _ => None
    end
  | ParkedNotice i =>
    match parked_waits s !! i with
    | Some remaining =>
      Some (next_turn o (set_ready_queue (ready_queue s ++ [(i, remaining)])
                           (set_parked_waits (delete i (parked_waits s)) s)))
    | None => None
    end
  | ParkedCancelled i =>
    match parked_waits s !! i with
    | Some _ =>
      Some (next_turn o (settle_parked_aborted o i (set_parked_waits (delete i (parked_waits s)) s)))
    | None => None
    end
  | BatchCancelled => if cancelled s then None else Some (next_turn o (set_cancelled true s))
  | KeepaliveTick readings => Some (next_turn o (keepalive o readings s))
  | WakeUp _ | LaunchTurn _ | ComputeWake _ => None
  end.

Definition step (o : Options) (e : Event) (s : State) : option State :=
  match phase s, e with
  | Launching, LaunchTurn t =>
    let '(s', more) := launch_turn o t s in
    Some (if more then s' else if loop_done s' then finish o s' else set_phase Waking s')
  | Waking, ComputeWake now => Some (set_phase (Selecting (next_wake now s)) s)
  | Selecting (Some w), WakeUp now => if w <=? now then Some (next_turn o s) else None
  | Selecting _, _ => select o e s
  | _, _ => None
  end.

Definition init (tasks : list SwarmTask) : State :=
  mkState (imap (fun i task => mkTaskState i task None None 0 None None) tasks)
    (replicate (length tasks) None) ∅ ∅ ∅ [] 0 None None 0 false Launching [].

(** The states of [run_swarm_batch] *)
Inductive reachable (o : Options) (tasks : list SwarmTask) : State -> Prop :=
| r_start : reachable o tasks (next_turn o (init tasks))
| r_step s e s' : reachable o tasks s -> step o e s = Some s' -> reachable o tasks s'.

(** Driving a batch by a list of events *)
Definition drive (o : Options) (events : list Event) (s : State) : option State :=
  foldl (fun s e => s ≫= step o e) (Some s) events.

Definition run_swarm_batch (o : Options) (tasks : list SwarmTask) (events : list Event) : option State :=
  drive o events (next_turn o (init tasks)).

Lemma drive_app o events events' s : drive o (events ++ events') s = drive o events s ≫= drive o events'.
Proof.
  unfold drive. rewrite foldl_app. destruct (foldl _ (Some s) events) as [s'|]; [done|]. simpl.
  induction events' as [|e events' IH]; simpl; auto.
Qed.

Lemma run_reachable o tasks events s : run_swarm_batch o tasks events = Some s -> reachable o tasks s.
Proof.
  revert s. induction events as [|e events IH] using rev_ind; intros s H.
  - injection H as <-. constructor.
  - unfold run_swarm_batch in *. rewrite drive_app in H.
    destruct (drive o events (next_turn o (init tasks))) as [s'|] eqn:E; [|done].
    econstructor; [by apply IH|]. done.
Qed.

(** ** An example: two members, the first rate limited once and then retried *)

Definition sample_options : Options :=
  mkOptions (Some 2%nat) (Some (600 * 10 ^ 9)) (from_millis RATE_LIMIT_RETRY_BASE_MS) true Interactive None.
Definition sample_task (n : Z) : SwarmTask :=
  mkSwarmTask (Spawn "coder" None) "do it" "batch member" None n.
Definition launch_at (now : Z) (answer : result string Handle) (task_id : string) : Event :=
  LaunchTurn (mkLaunchEnv now answer task_id now now).
Definition handle (agent_id : string) : result string Handle := Ok (mkHandle agent_id None).

(** Two launches at once, the rate limit of the first member, and the wait for
    its backoff, which the second member's end interrupts *)
Definition sample_wait : list Event :=
  [launch_at 0 (handle "a") "t1"; launch_at 0 (handle "b") "t2"; launch_at 0 (handle "") "";
   ComputeWake 0; FirstPoll 0 0; FirstPoll 1 0;
   AttemptEnds 0 (Err (RateLimitedError "429")) 5 5; launch_at 5 (handle "") ""; ComputeWake 5;
   AttemptEnds 1 (Ok "done") 6 6].
Definition sample_events : list Event :=
  sample_wait
  ++ [launch_at 6 (handle "") ""; ComputeWake 6; WakeUp 3000000005;
      launch_at 3000000005 (handle "a") ""; launch_at 3000000005 (handle "") ""; ComputeWake 3000000005;
      FirstPoll 0 3000000005; AttemptEnds 0 (Ok "yes") 3000000006 3000000006].
Definition sample_tasks : list SwarmTask := [sample_task 0; sample_task 1].
Definition sample_run (events : list Event) : State :=
  default (init []) (run_swarm_batch sample_options sample_tasks events).

Example sample_ends :
  phase (sample_run sample_events)
  = Ended (Some [mkResult (sample_task 0) (Some "a") Completed Started (Some "yes") None;
                 mkResult (sample_task 1) (Some "b") Completed Started (Some "done") None]).
Proof. vm_compute. reflexivity. Qed.

(** When the launch of a retry is refused by the host, the row the member was
    tracked under is never settled: nothing is logged of it but its registration
    and the attachment of its signal. *)
Example refused_retry_leaves_row :
  let s := sample_run (sample_wait ++ [launch_at 6 (handle "") ""; ComputeWake 6; WakeUp 3000000005;
                                       launch_at 3000000005 (Err "no such agent") "";
                                       launch_at 3000000005 (handle "") ""]) in
  phase s = Ended (Some [mkResult (sample_task 0) (Some "a") Failed Started None (Some "no such agent");
                         mkResult (sample_task 1) (Some "b") Completed Started (Some "done") None])
  /\ List.filter (fun e => match e with
                           | TaskRegister _ id _ _ | TaskAttachSignal id _ | TaskComplete id
                           | TaskFail id _ | TaskStop id | TaskHeartbeat id => bool_decide (id = "t1")
                           | _ => false
                           end) (log s)
     = [TaskRegister 0 "t1" "a" "batch member"; TaskAttachSignal "t1" 0].
Proof. vm_compute. split; reflexivity. Qed.

(** The clock is read again for the wake: a backoff that ends between the check
    of the launch loop and that reading is considered by neither.  With nothing in
    flight the member then waits for the next keepalive tick or, as here, for the
    capacity to recover, three minutes later. *)
Example backoff_missed_by_the_wake :
  let s := sample_run (sample_wait ++ [launch_at 3000000004 (handle "") ""; ComputeWake 3000000006]) in
  phase s = Selecting (Some 180000000005) /\ length (pending s) = 1%nat /\ active s = ∅ /\ parked_waits s = ∅.
Proof. vm_compute. done. Qed.

(** A member that waited for a person and then ran out of its budget is told the
    remainder it resumed with, not the budget of the attempt. *)
Example timeout_names_the_remainder :
  let events :=
    [launch_at 0 (handle "a") "t1"; launch_at 0 (Err "full") ""; launch_at 0 (handle "") ""; ComputeWake 0;
     FirstPoll 0 0; Notice 0 (Suspended (Approval "r" None)) (590 * 10 ^ 9);
     launch_at (590 * 10 ^ 9) (handle "") ""; ComputeWake (590 * 10 ^ 9);
     ParkedNotice 0; launch_at (700 * 10 ^ 9) (handle "") ""; launch_at (700 * 10 ^ 9) (handle "") "";
     ComputeWake (700 * 10 ^ 9); FirstPoll 0 (700 * 10 ^ 9); DeadlinePasses 0 (710 * 10 ^ 9);
     AttemptEnds 0 (Err SubagentCancelled) (710 * 10 ^ 9) (710 * 10 ^ 9)] in
  phase (sample_run events)
  = Ended (Some [mkResult (sample_task 0) (Some "a") Failed Started None (Some "Subagent timed out after 10s.");
                 mkResult (sample_task 1) None Failed NotStarted None (Some "full")]).
Proof. vm_compute. reflexivity. Qed.
