(* ===== verification/SwarmSettles.v ===== *)
(** * Every member of a swarm batch settles once

    A conservation law of the scheduler's state: each member is in exactly one of
    the pending queue, the in-flight table and the settled results, and a member in
    flight holds exactly one of an attempt, a parked wait and a place in the ready
    queue.  It follows that the batch ends with one result per member, in task
    order, and what the verdict of each member says. *)
From stdpp Require Import gmap list strings.
From S2P Require Import Prelude RustStd PermPolicies SwarmBatch.
#[local] Open Scope list_scope.

(** ** Counting *)

Definition seats (i : nat) (l : list nat) : nat := count_occ Nat.eq_dec l i.
Definition holds {A} (i : nat) (m : gmap nat A) : nat := match m !! i with Some _ => 1 | None => 0 end.
Definition settled (i : nat) (rs : list (option SwarmRunResult)) : nat :=
  match rs !! i with Some (Some _) => 1 | _ => 0 end.

#[local] Arguments seats : simpl never.
#[local] Arguments holds : simpl never.
#[local] Arguments settled : simpl never.

Section counting.
Context {A : Type}.
Implicit Types (m : gmap nat A).

Lemma holds_insert i j x m : holds i (<[j := x]> m) = if decide (i = j) then 1 else holds i m.
Proof. unfold holds. case_decide; subst; by rewrite ?lookup_insert_eq, ?lookup_insert_ne. Qed.

Lemma holds_delete i j m : holds i (delete j m) = if decide (i = j) then 0 else holds i m.
Proof. unfold holds. case_decide; subst; by rewrite ?lookup_delete_eq, ?lookup_delete_ne. Qed.

Lemma holds_some i m x : m !! i = Some x -> holds i m = 1.
Proof. unfold holds. by intros ->. Qed.

Lemma holds_none i m : holds i m = 0 -> m !! i = None.
Proof. unfold holds. by destruct (m !! i). Qed.

Lemma holds_empty i : holds i (∅ : gmap nat A) = 0.
Proof. unfold holds. by rewrite lookup_empty. Qed.

Lemma holds_le i m : holds i m <= 1.
Proof. unfold holds. destruct (m !! i); lia. Qed.

Lemma holds_fmap {B} (f : A -> B) i m : holds i (f <$> m) = holds i m.
Proof. unfold holds. rewrite lookup_fmap. by destruct (m !! i). Qed.
End counting.

Lemma seats_cons i j l : seats i (j :: l) = (if decide (i = j) then 1 else 0) + seats i l.
Proof. unfold seats. simpl. destruct (Nat.eq_dec j i), (decide (i = j)); subst; congruence || lia. Qed.

Lemma seats_app i l l' : seats i (l ++ l') = seats i l + seats i l'.
Proof. apply count_occ_app. Qed.

Lemma seats_perm i l l' : l ≡ₚ l' -> seats i l = seats i l'.
Proof. induction 1; rewrite ?seats_cons; lia. Qed.

Lemma seats_elem i l : i ∈ l <-> 1 <= seats i l.
Proof. unfold seats. rewrite list_elem_of_In, (count_occ_In Nat.eq_dec). lia. Qed.

Lemma settled_insert i j r rs :
  j < length rs -> settled i (<[j := Some r]> rs) = if decide (i = j) then 1 else settled i rs.
Proof.
  intros H. unfold settled. case_decide; subst.
  - by rewrite list_lookup_insert_eq.
  - by rewrite list_lookup_insert_ne.
Qed.

(** ** The law *)

Definition indices (l : list TaskState) : list nat := ts_index <$> l.

(** Over the parts of the state it is about *)
Record sound_parts (tasks : list SwarmTask) (P : list TaskState) (R : list (option SwarmRunResult))
    (A : gmap nat Attempt) (F : gmap nat TaskState) (K : gmap nat (option Z))
    (Q : list (nat * option Z)) : Prop := mkSound {
  s_length : length R = length tasks;
  s_home : forall i, seats i (indices P) + holds i F + settled i R = if decide (i < length tasks) then 1 else 0;
  s_seat : forall i, holds i A + holds i K + seats i (fst <$> Q) = holds i F;
  s_flight : forall i state, F !! i = Some state ->
    ts_index state = i /\ is_Some (ts_agent_id state) /\ tasks !! i = Some (ts_task state);
  s_pending : forall state, state ∈ P ->
    tasks !! ts_index state = Some (ts_task state) /\
    (is_Some (retry_ready_at state) <-> is_Some (ts_agent_id state));
  s_results : forall i r, R !! i = Some (Some r) -> tasks !! i = Some (r_task r)
}.

Definition sound (tasks : list SwarmTask) (s : State) : Prop :=
  sound_parts tasks (pending s) (results s) (active s) (in_flight s) (parked_waits s) (ready_queue s).

Ltac count_up i :=
  repeat match goal with
         | H : forall j : nat, _ = _ |- _ => specialize (H i)
         end;
  unfold indices in *; rewrite ?fmap_app, ?fmap_cons in *; cbn [fst ts_index] in *;
  rewrite ?seats_app, ?seats_cons, ?holds_insert, ?holds_delete, ?holds_empty in *.

Ltac by_count i := count_up i; repeat case_decide; subst; try lia.

Section law.
Context (tasks : list SwarmTask).
Implicit Types (P : list TaskState) (R : list (option SwarmRunResult)) (A : gmap nat Attempt)
  (F : gmap nat TaskState) (K : gmap nat (option Z)) (Q : list (nat * option Z)).

Lemma results_put R i r j r' :
  (forall j r, R !! j = Some (Some r) -> tasks !! j = Some (r_task r)) ->
  tasks !! i = Some (r_task r) ->
  <[i := Some r]> R !! j = Some (Some r') -> tasks !! j = Some (r_task r').
Proof.
  intros H Hr Hj. apply list_lookup_insert_Some in Hj as [(-> & [= ->] & _)|[_ Hj]]; [done|by apply H].
Qed.

(** A member in flight settles: whichever seat it holds is given up with it. *)
Lemma sound_settle P R A F K Q A' K' Q' i state r :
  sound_parts tasks P R A F K Q -> F !! i = Some state -> r_task r = ts_task state ->
  (forall j, holds j A' + holds j K' + seats j (fst <$> Q')
             = if decide (j = i) then 0 else holds j A + holds j K + seats j (fst <$> Q)) ->
  sound_parts tasks P (<[ts_index state := Some r]> R) A' (delete i F) K' Q'.
Proof.
  intros [Hl Hh Hs Hf Hp Hr] HF Hrt Hseat. destruct (Hf _ _ HF) as (-> & Ha & Ht).
  assert (Hi : i < length R) by (rewrite Hl; by eapply lookup_lt_Some).
  pose proof (holds_some _ _ _ HF) as H1. constructor.
  - by rewrite length_insert.
  - intros j. rewrite settled_insert by done. by_count j.
  - intros j. rewrite Hseat. by_count j.
  - intros j st Hj. apply lookup_delete_Some in Hj as [_ Hj]. by apply Hf.
  - done.
  - intros j r'. apply results_put; [done|]. by rewrite Hrt.
Qed.

(** A member leaves the queue with a result. *)
Lemma sound_settle_pending P R A F K Q state r :
  sound_parts tasks (state :: P) R A F K Q -> r_task r = ts_task state ->
  sound_parts tasks P (<[ts_index state := Some r]> R) A F K Q.
Proof.
  intros [Hl Hh Hs Hf Hp Hr] Hrt.
  destruct (Hp state) as [Ht _]; [left|].
  assert (Hi : ts_index state < length R) by (rewrite Hl; by eapply lookup_lt_Some).
  constructor; try done.
  - by rewrite length_insert.
  - intros j. rewrite settled_insert by done. clear Hs. by_count j.
  - intros st Hst. apply Hp. by right.
  - intros j r'. apply results_put; [done|]. by rewrite Hrt.
Qed.

Lemma sound_perm P P' R A F K Q :
  P ≡ₚ P' -> sound_parts tasks P R A F K Q -> sound_parts tasks P' R A F K Q.
Proof.
  intros HP [Hl Hh Hs Hf Hp Hr]. constructor; try done.
  - intros j. rewrite <- Hh. f_equal. f_equal. apply seats_perm. unfold indices. by rewrite HP.
  - intros st Hst. apply Hp. by rewrite HP.
Qed.

(** A member in flight goes back to the queue, or a queued one into flight. *)
Lemma sound_requeue P R A F K Q i state state' :
  sound_parts tasks P R A F K Q -> F !! i = Some state -> A !! i <> None ->
  ts_index state' = ts_index state -> ts_task state' = ts_task state ->
  is_Some (retry_ready_at state') -> is_Some (ts_agent_id state') ->
  sound_parts tasks (state' :: P) R (delete i A) (delete i F) K Q.
Proof.
  intros [Hl Hh Hs Hf Hp Hr] HF HA Hidx Htask H1 H2. destruct (Hf _ _ HF) as (Hi & Ha & Ht).
  pose proof (holds_some _ _ _ HF) as HF1.
  assert (HA1 : holds i A = 1) by (unfold holds; by destruct (A !! i)).
  constructor; try done.
  - intros j. clear Hs. count_up j. rewrite Hidx, Hi. by_count j.
  - intros j. pose proof (Hs j). clear Hh. by_count j.
  - intros j st Hj. apply lookup_delete_Some in Hj as [_ Hj]. by apply Hf.
  - intros st Hst. apply elem_of_cons in Hst as [->|Hst]; [|by apply Hp].
    rewrite Hidx, Htask, Hi. by split.
Qed.

Lemma sound_launch P R A F K Q state state' a :
  sound_parts tasks (state :: P) R A F K Q ->
  ts_index state' = ts_index state -> ts_task state' = ts_task state -> is_Some (ts_agent_id state') ->
  sound_parts tasks P R (<[ts_index state := a]> A) (<[ts_index state := state']> F) K Q.
Proof.
  intros [Hl Hh Hs Hf Hp Hr] Hidx Htask H1. destruct (Hp state) as [Ht _]; [left|].
  assert (HF0 : holds (ts_index state) F = 0) by (clear Hs; by_count (ts_index state)).
  constructor; try done.
  - intros j. clear Hs. by_count j.
  - intros j. clear Hh. pose proof (Hs (ts_index state)). by_count j.
  - intros j st Hj. apply lookup_insert_Some in Hj as [[<- <-]|[_ Hj]]; [|by apply Hf].
    by rewrite Hidx, Htask.
  - intros st Hst. apply Hp. by right.
Qed.
End law.

(** ** The operations keep it *)

Section operations.
Context (o : Options) (tasks : list SwarmTask).

Lemma pick_perm eligible l state rest :
  pick eligible l = Some (state, rest) -> l ≡ₚ state :: rest /\ eligible state = true.
Proof.
  revert rest. induction l as [|st l IH]; simpl; intros rest H; [done|].
  destruct (eligible st) eqn:E; [by injection H as <- <-|].
  destruct (pick eligible l) as [[found l']|]; [|done]. injection H as -> <-.
  destruct (IH l' eq_refl) as [-> He]. split; [|done]. apply Permutation_swap.
Qed.

Lemma launch_turn_sound t s : sound tasks s -> sound tasks (fst (launch_turn o t s)).
Proof.
  intros H. unfold launch_turn. destruct (cancelled s); [done|].
  set (s1 := set_rate_limit _ s). destruct (match _ with Some _ => _ | None => _ end); [done|].
  change (sound tasks s1) in H. destruct (ready_queue s1) as [|[i remaining] rest] eqn:EQ.
  - destruct (pick _ (pending s1)) as [[state rest]|] eqn:Ep; [|done].
    apply pick_perm in Ep as [Hperm _].
    assert (H1 : sound_parts tasks (state :: rest) (results s1) (active s1) (in_flight s1)
                   (parked_waits s1) (ready_queue s1)) by (by eapply sound_perm).
    destruct (l_answer t) as [handle|error].
    + unfold launch_accepted. destruct (bool_decide (is_Some (retry_ready_at state)));
        (eapply sound_launch; [exact H1|done..]).
    + by apply (sound_settle_pending tasks).
  - destruct H as [Hl Hh Hs Hf Hp Hr]. constructor; try done.
    intros j. clear Hh. cbn. rewrite EQ, fmap_cons in Hs.
    pose proof (holds_le j (in_flight s1)) as Hle. subst s1. cbn in EQ, Hs, Hle. by_count j.
Qed.

Lemma launch_turn_frame t s :
  phase (fst (launch_turn o t s)) = phase s /\ cancelled (fst (launch_turn o t s)) = cancelled s.
Proof.
  unfold launch_turn. destruct (cancelled s) eqn:Ec; [done|]. cbv zeta.
  destruct (match effective_capacity _ _ with Some _ => _ | None => _ end); [done|]. simpl.
  destruct (ready_queue s) as [|[i remaining] rest]; [|done].
  destruct (pick _ (pending s)) as [[state rest]|]; [|done].
  destruct (l_answer t) as [handle|error]; [|done]. unfold launch_accepted.
  by destruct (bool_decide _).
Qed.

(** A member that holds an attempt or a parked wait is in flight, and holds
    nothing else. *)
Lemma seat_in_flight s i :
  sound tasks s -> holds i (active s) + holds i (parked_waits s) <> 0 ->
  exists state, in_flight s !! i = Some state /\ ts_index state = i
    /\ holds i (active s) + holds i (parked_waits s) = 1 /\ seats i (fst <$> ready_queue s) = 0.
Proof.
  intros H Hi. pose proof (s_seat _ _ _ _ _ _ _ H i) as Hs. pose proof (holds_le i (in_flight s)).
  destruct (in_flight s !! i) as [state|] eqn:E.
  - exists state. destruct (s_flight _ _ _ _ _ _ _ H _ _ E) as (Hidx & _). split_and!; try done; lia.
  - unfold holds in Hs at 3. rewrite E in Hs. lia.
Qed.

Lemma settle_parked_sound i s :
  sound tasks s -> parked_waits s !! i <> None ->
  sound tasks (settle_parked_aborted o i (set_parked_waits (delete i (parked_waits s)) s)).
Proof.
  intros H HK. destruct (seat_in_flight s i H) as (state & HF & Hidx & H1 & H2).
  { unfold holds at 2. destruct (parked_waits s !! i); [lia|done]. }
  unfold settle_parked_aborted. simpl. rewrite HF. unfold sound. simpl. rewrite <- Hidx at 1.
  eapply sound_settle; [exact H|done..|]. intros j. rewrite holds_delete. case_decide; [|done]. subst j.
  unfold holds at 2 in H1. destruct (parked_waits s !! i); [lia|done].
Qed.

Lemma settle_attempt_sound i outcome ready_from now s :
  sound tasks s -> active s !! i <> None ->
  sound tasks (settle_attempt o i outcome ready_from now (set_active (delete i (active s)) s)).
Proof.
  intros H HA. unfold settle_attempt. simpl.
  destruct (seat_in_flight s i H) as (state & HF & Hidx & H1 & H2).
  { unfold holds at 1. destruct (active s !! i); [lia|done]. }
  rewrite HF.
  assert (Hseat : forall j, holds j (delete i (active s)) + holds j (parked_waits s)
                            + seats j (fst <$> ready_queue s)
                  = if decide (j = i) then 0
                    else holds j (active s) + holds j (parked_waits s) + seats j (fst <$> ready_queue s)).
  { intros j. rewrite holds_delete. case_decide; [|done]. subst j.
    unfold holds at 1 in H1. destruct (active s !! i); [lia|done]. }
  pose proof (fun r Hr => sound_settle tasks _ _ _ _ _ _ _ _ _ i state r H HF Hr Hseat) as Hput.
  destruct outcome; simpl; [by apply Hput..| |by apply Hput].
  destruct (cancelled s); [by apply Hput|]. destruct (_ =? 0); [by apply Hput|].
  unfold requeue. eapply sound_requeue; try done.
  by destruct (s_flight _ _ _ _ _ _ _ H _ _ HF) as (_ & ? & _).
Qed.

Lemma keepalive_sound readings s : sound tasks s -> sound tasks (keepalive o readings s).
Proof.
  intros [Hl Hh Hs Hf Hp Hr]. constructor; try done; simpl.
  - intros j. by rewrite holds_fmap.
  - intros j. by rewrite holds_fmap.
  - intros j st. rewrite lookup_fmap. destruct (in_flight s !! j) as [st'|] eqn:E; [|done].
    intros [= <-]. apply Hf in E. unfold sample_member.
    by destruct (readings !! ts_index st'), (last_seen_activity_ms st'); simpl; try case_match.
Qed.

(** ** The end of the loop *)

Lemma drain_pending_frame P s :
  let s' := foldl (fun s state => drain_pending o state s) s P in
  in_flight s' = in_flight s /\ ready_queue s' = ready_queue s /\ active s' = active s
  /\ parked_waits s' = parked_waits s.
Proof. revert s. induction P as [|state P IH]; simpl; intros s; [done|]. by destruct (IH (drain_pending o state s)) as (-> & -> & -> & ->). Qed.

Lemma parked_frame Q s :
  let s' := foldl (fun s (member : nat * option Z) => settle_parked_aborted o (fst member) s) s Q in
  pending s' = pending s /\ active s' = active s /\ parked_waits s' = parked_waits s.
Proof.
  revert s. induction Q as [|member Q IH]; simpl; intros s; [done|].
  destruct (IH (settle_parked_aborted o (fst member) s)) as (-> & -> & ->).
  unfold settle_parked_aborted. by destruct (in_flight s !! fst member).
Qed.

Lemma drains_sound P R A F K Q s :
  sound_parts tasks P R A F K Q -> results s = R ->
  sound_parts tasks [] (results (foldl (fun s state => drain_pending o state s) s P)) A F K Q.
Proof.
  revert R s. induction P as [|state P IH]; simpl; intros R s H <-; [done|].
  eapply IH; [|done]. by apply sound_settle_pending.
Qed.

Lemma ready_drains_sound R A F K Q s :
  sound_parts tasks [] R A F K Q -> results s = R -> in_flight s = F ->
  let s' := foldl (fun s (member : nat * option Z) => settle_parked_aborted o (fst member) s) s Q in
  sound_parts tasks [] (results s') A (in_flight s') K [].
Proof.
  revert R F s. induction Q as [|[i remaining] Q IH]; simpl; intros R F s H <- <-; [done|].
  assert (Hi : is_Some (in_flight s !! i)).
  { pose proof (s_seat _ _ _ _ _ _ _ H i) as Hi. revert Hi. unfold holds. simpl. rewrite seats_cons.
    case_decide; [|done]. destruct (in_flight s !! i); [done|lia]. }
  destruct Hi as [state Hi]. destruct (s_flight _ _ _ _ _ _ _ H _ _ Hi) as (Hidx & _).
  unfold settle_parked_aborted at 2 4. rewrite Hi. eapply IH; [|done..]. simpl.
  rewrite <- Hidx at 1. eapply sound_settle; try done.
  intros j. pose proof (s_seat _ _ _ _ _ _ _ H j) as Hj. pose proof (holds_le j (in_flight s)).
  rewrite !fmap_cons in *. cbn [fst] in *. rewrite !seats_cons in *. case_decide; subst; lia.
Qed.

Lemma mapM_id_all {A} (l : list (option A)) : (forall i, i < length l -> exists x, l !! i = Some (Some x)) ->
  exists l', mapM id l = Some l' /\ length l' = length l /\ forall i x, l' !! i = Some x -> l !! i = Some (Some x).
Proof.
  induction l as [|x l IH]; intros H; [by exists []|].
  destruct (H 0) as [x' Hx]; [simpl; lia|]. injection Hx as ->.
  destruct IH as (l' & E & Hl & Hall). { intros i Hi. apply (H (S i)). simpl. lia. }
  exists (x' :: l'). simpl. rewrite E. split_and!; [done|by rewrite Hl|]. intros [|i] y; simpl; naive_solver.
Qed.

Lemma all_some {A} (R : list (option A)) l : mapM id R = Some l -> R = Some <$> l.
Proof. intros H. apply mapM_Some in H. induction H as [|x y R l Hx _ IH]; [done|]. unfold id in Hx. by rewrite IH, Hx. Qed.

(** The states the loop ends in *)
Definition ended_well (s : State) : Prop :=
  match phase s with
  | Ended r => exists l, r = Some l /\ r_task <$> l = tasks /\ results s = Some <$> l /\ pending s = [] /\ ready_queue s = []
                 /\ active s = ∅ /\ parked_waits s = ∅
  | _ => True
  end.

Lemma finish_ended s : sound tasks s -> loop_done s = true -> sound tasks (finish o s) /\ ended_well (finish o s).
Proof.
  intros H Hd.
  assert (HAK : active s = ∅ /\ parked_waits s = ∅).
  { unfold loop_done in Hd. apply orb_true_iff in Hd. destruct Hd as [Hd|Hd]; bsimpl; done. }
  destruct HAK as [HA HK].
  pose proof (drains_sound _ _ _ _ _ _ s H eq_refl) as H1.
  destruct (drain_pending_frame (pending s) s) as (EF & EQ & EA & EK).
  assert (H2 := ready_drains_sound _ _ _ _ (ready_queue s)
                  (set_pending [] (foldl (fun s state => drain_pending o state s) s (pending s))) H1 eq_refl EF).
  unfold finish. simpl. rewrite EQ.
  set (s2 := foldl _ _ (ready_queue s)) in *. simpl in H2.
  destruct (parked_frame (ready_queue s) (set_pending [] (foldl (fun s state => drain_pending o state s) s (pending s))))
    as (EP & EA' & EK'). fold s2 in EP, EA', EK'. simpl in EP, EA', EK'.
  assert (Hall : forall i, i < length (results s2) -> exists x, results s2 !! i = Some (Some x)).
  { intros i Hi. pose proof (s_home _ _ _ _ _ _ _ H2 i) as Hh. pose proof (s_seat _ _ _ _ _ _ _ H2 i) as Hs.
    rewrite (s_length _ _ _ _ _ _ _ H2) in Hi. rewrite decide_True in Hh by done.
    rewrite HA, HK in Hs. rewrite !holds_empty in Hs. simpl in Hs, Hh. rewrite <- Hs in Hh.
    unfold settled in Hh. simpl in Hh. destruct (results s2 !! i) as [[x|]|]; [by exists x|done..]. }
  destruct (mapM_id_all _ Hall) as (l & El & Hlen & Hl).
  split.
  - unfold sound. simpl. rewrite EP, EA', EK', EA, EK. exact H2.
  - unfold ended_well. simpl. exists l. split; [done|]. rewrite EA', EK', EA, EK. split_and!; try done; [|by apply all_some].
    apply list_eq_same_length with (n := length tasks); [done|by rewrite length_fmap, Hlen, (s_length _ _ _ _ _ _ _ H2)|].
    intros i x y Hi Hx Hy. rewrite list_lookup_fmap in Hx. destruct (l !! i) as [r|] eqn:Er; [|done].
    injection Hx as <-. apply Hl in Er. apply (s_results _ _ _ _ _ _ _ H2) in Er. congruence.
Qed.

Lemma next_turn_sound s : sound tasks s -> sound tasks (next_turn o s) /\ ended_well (next_turn o s).
Proof.
  intros H. unfold next_turn. destruct (loop_done s) eqn:E; [by apply finish_ended|]. by split.
Qed.

Lemma park_sound i remaining s :
  sound tasks s -> active s !! i <> None ->
  sound tasks (set_parked_waits (<[i := remaining]> (parked_waits s)) (set_active (delete i (active s)) s)).
Proof.
  intros H HA. destruct (seat_in_flight s i H) as (state & HF & _ & H1 & H2).
  { unfold holds at 1. destruct (active s !! i); [lia|done]. }
  destruct H as [Hl Hh Hs Hf Hp Hr]. constructor; try done. cbn. intros j. specialize (Hs j). revert Hs.
  rewrite holds_insert, holds_delete. case_decide; [|done]. subst j.
  rewrite H1. lia.
Qed.

Lemma ready_sound i remaining s :
  sound tasks s -> parked_waits s !! i = Some remaining ->
  sound tasks (set_ready_queue (ready_queue s ++ [(i, remaining)])
                 (set_parked_waits (delete i (parked_waits s)) s)).
Proof.
  intros H HK. apply holds_some in HK. destruct (seat_in_flight s i H) as (state & HF & _ & H1 & H2); [lia|].
  destruct H as [Hl Hh Hs Hf Hp Hr]. constructor; try done. cbn. intros j. specialize (Hs j). revert Hs.
  rewrite fmap_app, seats_app, holds_delete. cbn. rewrite seats_cons.
  change (seats j []) with 0. case_decide; subst; lia.
Qed.

Lemma rearm_sound i attempt s :
  sound tasks s -> active s !! i <> None -> sound tasks (set_active (<[i := attempt]> (active s)) s).
Proof.
  intros [Hl Hh Hs Hf Hp Hr] HA. constructor; try done. cbn. intros j. rewrite <- Hs, holds_insert.
  case_decide; [|done]. subst j. unfold holds at 2. by destruct (active s !! i).
Qed.

Lemma select_sound e s s' :
  sound tasks s -> (forall r, phase s <> Ended r) -> select o e s = Some s' -> sound tasks s' /\ ended_well s'.
Proof.
  intros H Hphase E.
  assert (Hsame : forall s', sound tasks s' -> phase s' = phase s -> sound tasks s' /\ ended_well s').
  { intros s1 H1 Hp. split; [done|]. unfold ended_well. rewrite Hp.
    destruct (phase s) as [| | |r] eqn:E'; try done. by destruct (Hphase r). }
  destruct e as [t|i now|i completion ready_from now|i now|i notice now|i|i| |now|readings|now]; simpl in E; try done.
  - destruct (active s !! i) as [[budget [d|] expired]|] eqn:EA; [done| |done]. injection E as <-.
    apply Hsame; [|done]. apply rearm_sound; [done|by rewrite EA].
  - destruct (active s !! i) as [[budget [d|] expired]|] eqn:EA; [|done..]. injection E as <-.
    apply next_turn_sound, settle_attempt_sound; [done|by rewrite EA].
  - destruct (active s !! i) as [[budget [[d|]|] []]|] eqn:EA; try done. destruct (_ <=? _)%Z; [|done].
    injection E as <-. apply Hsame; [|done].
    change (sound tasks (set_active (<[i := mkAttempt budget (Some (Some d)) true]> (active s)) s)).
    apply rearm_sound; [done|by rewrite EA].
  - destruct (active s !! i) as [[budget [d|] []]|] eqn:EA; try done.
    destruct notice as [cause|]; [destruct (is_user_wait cause)|]; injection E as <-;
      [|by apply Hsame..]. apply next_turn_sound, park_sound; [done|by rewrite EA].
  - destruct (parked_waits s !! i) as [remaining|] eqn:EK; [|done]. injection E as <-.
    by apply next_turn_sound, ready_sound.
  - destruct (parked_waits s !! i) as [remaining|] eqn:EK; [|done]. injection E as <-.
    apply next_turn_sound, settle_parked_sound; [done|by rewrite EK].
  - destruct (cancelled s); [done|]. injection E as <-. by apply next_turn_sound.
  - injection E as <-. apply next_turn_sound. by apply keepalive_sound.
Qed.

Lemma step_sound e s s' : sound tasks s -> step o e s = Some s' -> sound tasks s' /\ ended_well s'.
Proof.
  intros H E. unfold step in E.
  destruct (phase s) as [| |wake|r] eqn:Ep.
  - destruct e as [t| | | | | | | | | |]; try done. pose proof (launch_turn_sound t s H) as H1.
    destruct (launch_turn_frame t s) as [H2 _].
    destruct (launch_turn o t s) as [s1 more]. simpl in H1, H2. injection E as <-.
    destruct more; [|destruct (loop_done s1) eqn:Ed]; [|by apply finish_ended|by split].
    split; [done|]. unfold ended_well. by rewrite H2, Ep.
  - destruct e; try done. injection E as <-. by split.
  - assert (Hsel : select o e s = Some s' -> sound tasks s' /\ ended_well s')
      by (intros Hs; eapply select_sound; [done|by rewrite Ep|done]).
    destruct wake as [w|], e; simpl in E; try done; try by apply Hsel.
    destruct (w <=? now)%Z; [|done]. injection E as <-. by apply next_turn_sound.
  - done.
Qed.
End operations.

(** ** The batch *)

Lemma init_sound tasks : sound tasks (init tasks).
Proof.
  assert (Hidx : indices (pending (init tasks)) = seq 0 (length tasks)).
  { unfold indices. simpl. apply list_eq. intros i. rewrite list_lookup_fmap, list_lookup_imap.
    destruct (tasks !! i) eqn:E; simpl.
    - apply lookup_lt_Some in E. by rewrite lookup_seq_lt.
    - apply lookup_ge_None in E. by rewrite lookup_seq_ge. }
  constructor; simpl.
  - apply length_replicate.
  - intros i. change (imap _ tasks) with (pending (init tasks)). rewrite Hidx, holds_empty.
    assert (Hs : settled i (replicate (length tasks) None) = 0).
    { unfold settled. destruct (_ !! i) as [[r|]|] eqn:E; try done. apply lookup_replicate in E as [? _]. done. }
    rewrite Hs. case_decide as Hi.
    + assert (1 <= seats i (seq 0 (length tasks))) by (apply seats_elem, elem_of_seq; lia).
      assert (seats i (seq 0 (length tasks)) <= 1); [|lia].
      unfold seats. apply (NoDup_count_occ Nat.eq_dec). apply NoDup_ListNoDup, NoDup_seq.
    + destruct (seats i (seq 0 (length tasks))) eqn:E; [done|].
      assert (Hi' : i ∈ seq 0 (length tasks)) by (apply seats_elem; lia). apply elem_of_seq in Hi'. lia.
  - intros i. by rewrite !holds_empty.
  - done.
  - intros state Hst. apply list_elem_of_lookup_1 in Hst as [i Hi]. rewrite list_lookup_imap in Hi.
    destruct (tasks !! i) as [task|] eqn:E; [|done]. injection Hi as <-. simpl. split; [done|].
    split; by intros [? ?].
  - intros i r Hi. apply lookup_replicate in Hi as [? _]. done.
Qed.

Lemma reachable_sound o tasks s : reachable o tasks s -> sound tasks s /\ ended_well tasks s.
Proof.
  induction 1 as [|s e s' _ [IH _] E]; [by apply next_turn_sound, init_sound|by eapply step_sound].
Qed.

(** ** The verdicts of a swarm batch

    What the result of a member says of what happened: each result is written
    once, and its outcome, its texts and its start state are those of the event
    that settled the member. *)

(** ** What settles a member *)

(** A call to the host for member [i] *)
Definition asks_for (i : nat) (call : Effect) : Prop :=
  match call with HostSpawn j _ _ _ _ _ _ _ _ | HostResume j _ _ _ => j = i | _ => False end.
(** This turn of the launch loop, and nothing else in it, asks the host for member [i]. *)
Definition launches_member (o : Options) (t : LaunchEnv) (s : State) (i : nat) : Prop :=
  exists call, asks_for i call /\ log (fst (launch_turn o t s)) = log s ++ [call].

(** The result [r] of member [i] agrees with the event [e] met in state [s]. *)
Definition cause (o : Options) (e : Event) (s : State) (i : nat) (r : SwarmRunResult) : Prop :=
  (r_state r = Started <-> is_Some (r_agent_id r)) /\
  match r_outcome r with
  | Completed => exists text ready_from now,
      e = AttemptEnds i (Ok text) ready_from now /\ r_result r = Some text /\ r_error r = None
  | Failed => r_result r = None /\ exists msg, r_error r = Some msg /\
      ((exists t, e = LaunchTurn t /\ l_answer t = Err msg /\ launches_member o t s i) \/
       (exists err ready_from now, e = AttemptEnds i (Err err) ready_from now /\
          (err = TurnFailed msg \/ err = RateLimitedError msg)) \/
       (exists budget polled, active s !! i = Some (mkAttempt budget polled true) /\
          msg = timeout_message budget))
  | Aborted => r_result r = None /\
      r_error r = Some (match r_state r with
                        | Started => CANCELLED_STARTED_MESSAGE
                        | NotStarted => CANCELLED_NOT_STARTED_MESSAGE
                        end) /\
      (cancelled s = true \/ e = BatchCancelled \/ e = ParkedCancelled i \/
       exists ready_from now, e = AttemptEnds i (Err SubagentCancelled) ready_from now)
  end.

(** From [R] to [R'], open slots may be filled, with results that satisfy [Q]. *)
Definition filled (Q : nat -> SwarmRunResult -> Prop) (R R' : list (option SwarmRunResult)) : Prop :=
  forall i, R' !! i = R !! i \/ (R !! i = Some None /\ exists r, R' !! i = Some (Some r) /\ Q i r).

Lemma filled_refl Q R : filled Q R R.
Proof. intros i. by left. Qed.

Lemma filled_trans Q R1 R2 R3 : filled Q R1 R2 -> filled Q R2 R3 -> filled Q R1 R3.
Proof.
  intros H1 H2 i. destruct (H1 i) as [E1|(E1 & r & E1' & HQ)], (H2 i) as [E2|(E2 & r' & E2' & HQ')];
    [left; congruence|right..]; split; try congruence; eexists; split; eauto; congruence.
Qed.

Lemma filled_put (Q : nat -> SwarmRunResult -> Prop) R i r :
  R !! i = Some None -> Q i r -> filled Q R (<[i := Some r]> R).
Proof.
  intros Hi HQ j. destruct (decide (i = j)) as [<-|Hj].
  - right. split; [done|]. exists r. split; [|done]. apply list_lookup_insert_eq. by eapply lookup_lt_Some.
  - left. by rewrite list_lookup_insert_ne.
Qed.

Lemma filled_keeps Q R R' i r : filled Q R R' -> R !! i = Some (Some r) -> R' !! i = Some (Some r).
Proof. intros H Hi. destruct (H i) as [->|[E _]]; [done|congruence]. Qed.

(** The slot of a queued member and of one in flight are open. *)
Lemma open_slot tasks P R A F K Q i :
  sound_parts tasks P R A F K Q -> 1 <= seats i (indices P) + holds i F -> R !! i = Some None.
Proof.
  intros H H1. pose proof (s_home _ _ _ _ _ _ _ H i) as Hh. pose proof (s_length _ _ _ _ _ _ _ H) as Hl.
  case_decide as Hi; [|lia]. rewrite <- Hl in Hi. unfold settled in Hh.
  apply lookup_lt_is_Some in Hi as [[r|] E]; rewrite E in *; [lia|done].
Qed.

Lemma open_pending tasks P R A F K Q state :
  sound_parts tasks P R A F K Q -> state ∈ P -> R !! ts_index state = Some None.
Proof.
  intros H Hs. eapply open_slot; [done|].
  assert (1 <= seats (ts_index state) (indices P)) by (apply seats_elem; by apply list_elem_of_fmap_2). lia.
Qed.

Lemma open_flight tasks P R A F K Q i state :
  sound_parts tasks P R A F K Q -> F !! i = Some state -> R !! i = Some None.
Proof. intros H Hs. eapply open_slot; [done|]. rewrite (holds_some _ _ _ Hs). lia. Qed.

Section causes.
Context (o : Options) (tasks : list SwarmTask).

Lemma settle_attempt_filled i outcome ready_from now s s0 Q :
  sound tasks s0 -> results s = results s0 -> in_flight s = in_flight s0 ->
  (forall state outcome' result error, is_Some (ts_agent_id state) ->
     match outcome with
     | AttemptCompleted text => outcome' = Completed /\ result = Some text /\ error = None
     | AttemptFailed msg => outcome' = Failed /\ result = None /\ error = Some msg
     | AttemptCancelled => outcome' = Aborted /\ result = None /\ error = Some CANCELLED_STARTED_MESSAGE
     | AttemptRateLimited msg =>
       cancelled s = true /\ outcome' = Aborted /\ result = None /\ error = Some CANCELLED_STARTED_MESSAGE
       \/ outcome' = Failed /\ result = None /\ error = Some msg
     end ->
     Q i (mkResult (ts_task state) (ts_agent_id state) outcome' Started result error)) ->
  filled Q (results s) (results (settle_attempt o i outcome ready_from now s)).
Proof.
  intros H HR HF HQ. unfold settle_attempt. destruct (in_flight s !! i) as [state|] eqn:E; [|apply filled_refl].
  rewrite HF in E. destruct (s_flight _ _ _ _ _ _ _ H _ _ E) as (Hi & Ha & _).
  assert (Hopen : results s !! ts_index state = Some None) by (rewrite HR, Hi; by eapply open_flight).
  rewrite <- Hi in HQ.
  destruct outcome; simpl; try (apply filled_put; [done|]; by apply HQ).
  destruct (cancelled s) eqn:Ec; [apply filled_put; [done|]; apply HQ; [done|by left]|].
  destruct (_ =? 0); [apply filled_put; [done|]; apply HQ; [done|by right]|]. apply filled_refl.
Qed.

Lemma asked_for state :
  (is_Some (retry_ready_at state) -> is_Some (ts_agent_id state)) ->
  exists call, asks_for (ts_index state) call /\ option_list (host_call o state) = [call].
Proof.
  intros Hr. unfold host_call. destruct (retry_ready_at state) as [ready|].
  - destruct (Hr (mk_is_Some _ _ eq_refl)) as [agent_id ->]. eexists. split; [|reflexivity]. done.
  - destruct (kind (ts_task state)); (eexists; split; [|reflexivity]; done).
Qed.

Lemma launch_turn_filled t s :
  sound tasks s -> filled (cause o (LaunchTurn t) s) (results s) (results (fst (launch_turn o t s))).
Proof.
  intros H. unfold launch_turn. destruct (cancelled s) eqn:Ecan; [apply filled_refl|]. cbv zeta.
  destruct (match effective_capacity _ _ with Some _ => _ | None => _ end) eqn:Ecap; [apply filled_refl|]. simpl.
  destruct (ready_queue s) as [|[i remaining] rest] eqn:Eq; [|apply filled_refl].
  destruct (pick _ (pending s)) as [[state rest]|] eqn:Ep; [|apply filled_refl].
  pose proof Ep as Epick. apply pick_perm in Ep as [Hperm _].
  assert (Hin : state ∈ pending s) by (rewrite Hperm; left).
  destruct (l_answer t) as [handle|error] eqn:Ea.
  - unfold launch_accepted. destruct (bool_decide _); apply filled_refl.
  - simpl. apply filled_put; [by eapply open_pending|]. split; simpl.
    + destruct (ts_agent_id state) as [|], (kind (ts_task state)); simpl; split; try done; by intros [? ?].
    + split; [done|]. exists error. split; [done|]. left. exists t. split; [done|]. split; [done|].
      destruct (asked_for state) as (call & Hcall & Hlist); [by apply (s_pending _ _ _ _ _ _ _ H)|].
      exists call. split; [done|]. unfold launch_turn. rewrite Ecan. cbv zeta. rewrite Ecap. simpl.
      by rewrite Eq, Epick, Ea, Hlist.
Qed.

Lemma settle_parked_filled i s s0 Q :
  sound tasks s0 -> results s = results s0 -> in_flight s = in_flight s0 ->
  (forall state, is_Some (ts_agent_id state) -> Q i (aborted (ts_agent_id state) state)) ->
  filled Q (results s) (results (settle_parked_aborted o i s)).
Proof.
  intros H HR HF HQ. unfold settle_parked_aborted. destruct (in_flight s !! i) as [state|] eqn:E;
    [|apply filled_refl].
  rewrite HF in E. destruct (s_flight _ _ _ _ _ _ _ H _ _ E) as (_ & Ha & _). simpl. rewrite HR.
  apply filled_put; [by eapply open_flight|]. by apply HQ.
Qed.

(** The members the loop leaves behind, which it does only when cancelled *)
Lemma drains_filled P R A F K Q s (C : nat -> SwarmRunResult -> Prop) :
  sound_parts tasks P R A F K Q -> results s = R ->
  (forall state, state ∈ P ->
     C (ts_index state) (drained state)) ->
  filled C R (results (foldl (fun s state => drain_pending o state s) s P)).
Proof.
  revert R s. induction P as [|state P IH]; simpl; intros R s H HR HC; [rewrite HR; apply filled_refl|].
  assert (Hput : filled C R (<[ts_index state := Some (drained state)]> R))
    by (apply filled_put; [eapply open_pending; [done|left]|apply HC; left]).
  assert (H1 := sound_settle_pending tasks _ _ _ _ _ _ _ (drained state) H eq_refl).
  eapply filled_trans; [exact Hput|]. eapply IH; [exact H1|by rewrite <- HR|].
  intros st Hst. apply HC. by right.
Qed.

Lemma ready_drains_filled R A F K Q s (C : nat -> SwarmRunResult -> Prop) :
  sound_parts tasks [] R A F K Q -> results s = R -> in_flight s = F ->
  (forall i state, is_Some (ts_agent_id state) -> C i (aborted (ts_agent_id state) state)) ->
  filled C R (results (foldl (fun s (member : nat * option Z) => settle_parked_aborted o (fst member) s) s Q)).
Proof.
  revert R F s. induction Q as [|[i remaining] Q IH]; simpl; intros R F s H HR HF HC;
    [rewrite HR; apply filled_refl|].
  assert (Hone := ready_drains_sound o tasks R A F K [(i, remaining)] s).
  destruct (in_flight s !! i) as [state|] eqn:E.
  - destruct (s_flight _ _ _ _ _ _ _ H i state) as (Hi & Ha & Ht); [by rewrite <- HF|].
    assert (Hput : filled C R (results (settle_parked_aborted o i s))).
    { unfold settle_parked_aborted. rewrite E. simpl. rewrite HR.
      apply filled_put; [eapply open_flight; [exact H|by rewrite <- HF]|by apply HC]. }
    eapply filled_trans; [exact Hput|]. eapply IH; [|done..|done].
    unfold settle_parked_aborted. rewrite E. simpl. rewrite HR, HF. rewrite <- Hi at 1.
    eapply sound_settle; [exact H|by rewrite <- HF|done|].
    intros j. pose proof (s_seat _ _ _ _ _ _ _ H j) as Hj. pose proof (holds_le j F).
    rewrite !fmap_cons in *. cbn [fst] in *. rewrite !seats_cons in *. case_decide; subst; lia.
  - assert (HE : settle_parked_aborted o i s = s) by (unfold settle_parked_aborted; by rewrite E).
    rewrite HE. pose proof (s_seat _ _ _ _ _ _ _ H i) as Hj. unfold holds at 3 in Hj. rewrite <- HF, E in Hj.
    rewrite fmap_cons in Hj. cbn [fst] in Hj. rewrite seats_cons, decide_True in Hj by done. lia.
Qed.

(** Either nobody is left, or the batch was cancelled. *)
Lemma finish_filled s (C : nat -> SwarmRunResult -> Prop) :
  sound tasks s -> loop_done s = true ->
  (cancelled s = true -> forall i state, C i (aborted (ts_agent_id state) state) \/ ts_agent_id state = None) ->
  (cancelled s = true -> forall i state, C i (drained state)) ->
  filled C (results s) (results (finish o s)).
Proof.
  intros H Hd Hready Hpend. unfold finish. simpl.
  destruct (cancelled s) eqn:Ec.
  - destruct (drain_pending_frame o (pending s) s) as (EF & EQ & _ & _). rewrite EQ.
    eapply filled_trans.
    + eapply drains_filled; [exact H|done|]. intros state _. by apply Hpend.
    + eapply (ready_drains_filled _ _ _ _ (ready_queue s) (set_pending [] _));
        [eapply drains_sound; [exact H|done]|done|exact EF|].
      intros i state [a Ha]. destruct (Hready eq_refl i state) as [?|?]; [done|congruence].
  - unfold loop_done in Hd. rewrite Ec, orb_false_r in Hd. bsimpl.
    replace (pending s) with (@nil TaskState) by done. simpl.
    replace (ready_queue s) with (@nil (nat * option Z)) by done. apply filled_refl.
Qed.

Lemma next_turn_filled s (C : nat -> SwarmRunResult -> Prop) :
  sound tasks s ->
  (cancelled s = true -> forall i state, C i (aborted (ts_agent_id state) state) \/ ts_agent_id state = None) ->
  (cancelled s = true -> forall i state, C i (drained state)) ->
  filled C (results s) (results (next_turn o s)).
Proof.
  intros H H1 H2. unfold next_turn. destruct (loop_done s) eqn:E; [by apply finish_filled|apply filled_refl].
Qed.

Lemma cause_aborted e s i state :
  cancelled s = true \/ e = BatchCancelled \/ e = ParkedCancelled i ->
  cause o e s i (aborted (ts_agent_id state) state) \/ ts_agent_id state = None.
Proof.
  intros Hc. destruct (ts_agent_id state) as [a|] eqn:Ea; [|by right]. left.
  split; simpl; [split; eauto|]. split_and!; [done..|]. naive_solver.
Qed.

Lemma cause_drained e s i state :
  cancelled s = true \/ e = BatchCancelled -> cause o e s i (drained state).
Proof.
  intros Hc. unfold drained. case_bool_decide as Ha; (split; simpl; [by split|]); split_and!; try done;
    destruct Hc; auto.
Qed.

Lemma settle_attempt_cancelled i outcome ready_from now s :
  cancelled (settle_attempt o i outcome ready_from now s) = cancelled s.
Proof.
  unfold settle_attempt. destruct (in_flight s !! i) as [state|]; [|done].
  destruct outcome; simpl; try done. destruct (cancelled s) eqn:E; [done|]. by destruct (_ =? 0).
Qed.

Lemma settle_parked_cancelled i s : cancelled (settle_parked_aborted o i s) = cancelled s.
Proof. unfold settle_parked_aborted. by destruct (in_flight s !! i). Qed.

Lemma next_turn_cause e s s1 :
  sound tasks s1 -> filled (cause o e s) (results s) (results s1) ->
  (cancelled s1 = true -> cancelled s = true \/ e = BatchCancelled) ->
  filled (cause o e s) (results s) (results (next_turn o s1)).
Proof.
  intros H HR Hc. eapply filled_trans; [exact HR|]. apply next_turn_filled; [done|..]; intros Hcc i state.
  - apply cause_aborted. destruct (Hc Hcc); auto.
  - apply cause_drained. auto.
Qed.

Lemma attempt_ends_filled i budget polled expired completion ready_from now s :
  sound tasks s -> active s !! i = Some (mkAttempt budget polled expired) ->
  let outcome := if expired then AttemptFailed (timeout_message budget) else attempt_outcome completion in
  filled (cause o (AttemptEnds i completion ready_from now) s) (results s)
    (results (settle_attempt o i outcome ready_from now (set_active (delete i (active s)) s))).
Proof.
  intros H EA. apply (settle_attempt_filled i _ ready_from now (set_active _ s) s); [done..|].
  intros state outcome' result error Ha Hout. split; simpl; [by split|].
  destruct expired; simpl in Hout.
  - destruct Hout as (-> & -> & ->). split; [done|]. eexists. split; [done|]. right; right. by eexists _, _.
  - destruct completion as [text|[msg| |msg]]; simpl in Hout.
    + destruct Hout as (-> & -> & ->). by eexists _, _, _.
    + destruct Hout as (-> & -> & ->). split; [done|]. eexists. split; [done|]. right; left. eauto 10.
    + destruct Hout as (-> & -> & ->). split_and!; [done..|]. right; right; right. by eexists _, _.
    + destruct Hout as [(Hc & -> & -> & ->)|(-> & -> & ->)].
      * split_and!; [done..|]. by left.
      * split; [done|]. eexists. split; [done|]. right; left. eauto 10.
Qed.

Lemma select_filled e s s' :
  sound tasks s -> select o e s = Some s' -> filled (cause o e s) (results s) (results s').
Proof.
  intros H E.
  destruct e as [t|i now|i completion ready_from now|i now|i notice now|i|i| |now|readings|now]; simpl in E; try done.
  - destruct (active s !! i) as [[budget [d|] expired]|]; [done| |done]. injection E as <-. apply filled_refl.
  - destruct (active s !! i) as [[budget [d|] expired]|] eqn:EA; [|done..]. injection E as <-.
    apply next_turn_cause; [apply settle_attempt_sound; [done|by rewrite EA]|by eapply attempt_ends_filled|].
    rewrite settle_attempt_cancelled. by left.
  - destruct (active s !! i) as [[budget [[d|]|] []]|]; try done. destruct (_ <=? _)%Z; [|done].
    injection E as <-. apply filled_refl.
  - destruct (active s !! i) as [[budget [d|] []]|] eqn:EA; try done.
    destruct notice as [cause'|]; [destruct (is_user_wait cause')|]; injection E as <-; [|apply filled_refl..].
    apply next_turn_cause; [apply park_sound; [done|by rewrite EA]|apply filled_refl|by left].
  - destruct (parked_waits s !! i) as [remaining|] eqn:EK; [|done]. injection E as <-.
    apply next_turn_cause; [by apply ready_sound|apply filled_refl|by left].
  - destruct (parked_waits s !! i) as [remaining|] eqn:EK; [|done]. injection E as <-.
    apply next_turn_cause; [apply settle_parked_sound; [done|by rewrite EK]| |].
    + apply (settle_parked_filled i (set_parked_waits _ s) s); [done..|]. intros state Ha.
      destruct (cause_aborted (ParkedCancelled i) s i state) as [?|Hn]; [by right; right|done|].
      rewrite Hn in Ha. by destruct Ha.
    + rewrite settle_parked_cancelled. by left.
  - destruct (cancelled s); [done|]. injection E as <-.
    apply next_turn_cause; [done|apply filled_refl|by right].
  - injection E as <-. apply next_turn_cause; [by apply keepalive_sound|apply filled_refl|by left].
Qed.

Lemma step_filled e s s' :
  sound tasks s -> step o e s = Some s' -> filled (cause o e s) (results s) (results s').
Proof.
  intros H E. unfold step in E. destruct (phase s) as [| |wake|r] eqn:Ep; [| | |done].
  - destruct e as [t| | | | | | | | | |]; try done.
    pose proof (launch_turn_filled t s H) as HR. pose proof (launch_turn_sound o tasks t s H) as H1.
    destruct (launch_turn_frame o t s) as [_ Hc].
    destruct (launch_turn o t s) as [s1 more]. simpl in *. injection E as <-.
    destruct more; [done|]. destruct (loop_done s1) eqn:Ed; [|done].
    eapply filled_trans; [exact HR|]. apply finish_filled; [done..| |]; rewrite Hc; intros Hcc i state.
    + apply cause_aborted. by left.
    + apply cause_drained. by left.
  - destruct e; try done. injection E as <-. apply filled_refl.
  - destruct wake as [w|], e; try done; try by apply select_filled.
    destruct (w <=? now)%Z; [|done]. injection E as <-.
    apply next_turn_cause; [done|apply filled_refl|by left].
Qed.
End causes.

(** ** Runs *)

Section runs.
Context (o : Options) (tasks : list SwarmTask).

Lemma run_snoc events e s' :
  run_swarm_batch o tasks (events ++ [e]) = Some s' <->
  exists s, run_swarm_batch o tasks events = Some s /\ step o e s = Some s'.
Proof.
  unfold run_swarm_batch. rewrite drive_app. destruct (drive o events _) as [s|]; simpl; [|naive_solver].
  split; [by exists s|by intros (? & [= <-] & ?)].
Qed.

Definition same_frame (s s' : State) : Prop :=
  active s' = active s /\ cancelled s' = cancelled s /\ rate_limit s' = rate_limit s.

Lemma finish_frame s : same_frame s (finish o s).
Proof.
  assert (Hd : forall P s, same_frame s (foldl (fun s state => drain_pending o state s) s P)).
  { intros P. induction P as [|state P IH]; simpl; intros s0; [done|]. exact (IH (drain_pending o state s0)). }
  assert (Hone : forall i s, same_frame s (settle_parked_aborted o i s))
    by (intros i s0; unfold settle_parked_aborted; by destruct (in_flight s0 !! i)).
  assert (Hk : forall Q s,
            same_frame s (foldl (fun s (member : nat * option Z) => settle_parked_aborted o (fst member) s) s Q)).
  { intros Q. induction Q as [|member Q IH]; simpl; intros s0; [done|].
    destruct (IH (settle_parked_aborted o (fst member) s0)) as (E1 & E2 & E3), (Hone (fst member) s0) as (F1 & F2 & F3).
    unfold same_frame. by rewrite E1, E2, E3. }
  destruct (Hd (pending s) s) as (E1 & E2 & E3). unfold finish. simpl.
  match goal with |- context [foldl _ ?s0 (ready_queue ?s1)] => destruct (Hk (ready_queue s1) s0) as (F1 & F2 & F3) end.
  unfold same_frame. simpl in *. by rewrite F1, F2, F3.
Qed.

Lemma next_turn_frame s : same_frame s (next_turn o s).
Proof. unfold next_turn. destruct (loop_done s); [apply finish_frame|done]. Qed.

Lemma settle_attempt_active i outcome ready_from now s :
  active (settle_attempt o i outcome ready_from now s) = active s.
Proof.
  unfold settle_attempt. destruct (in_flight s !! i) as [state|]; [|done].
  destruct outcome; simpl; try done. destruct (cancelled s); [done|]. by destruct (_ =? 0).
Qed.

Lemma settle_parked_active i s : active (settle_parked_aborted o i s) = active s.
Proof. unfold settle_parked_aborted. by destruct (in_flight s !! i). Qed.

(** What a step does to the flag and to an expired attempt *)
Definition expired (s : State) (i : nat) : Prop := exists budget polled, active s !! i = Some (mkAttempt budget polled true).

Lemma launch_turn_expired t s i : expired (fst (launch_turn o t s)) i -> expired s i.
Proof.
  unfold launch_turn. destruct (cancelled s); [done|]. cbv zeta.
  destruct (match effective_capacity _ _ with Some _ => _ | None => _ end); [done|]. simpl.
  assert (Hins : forall j a, at_expired a = false ->
            (exists b p, <[j := a]> (active s) !! i = Some (mkAttempt b p true)) -> expired s i).
  { intros j a Ha (b & p & Hi). apply lookup_insert_Some in Hi as [[_ ->]|[_ Hi]]; [done|by exists b, p]. }
  destruct (ready_queue s) as [|[j remaining] rest]; [|by apply Hins].
  destruct (pick _ (pending s)) as [[state rest]|]; [|done].
  destruct (l_answer t) as [handle|error]; [|done]. unfold launch_accepted.
  destruct (bool_decide _); by apply Hins.
Qed.

Definition told (e : Event) (s s' : State) : Prop :=
  (cancelled s' = true -> cancelled s = true \/ e = BatchCancelled) /\
  (forall i, expired s' i -> expired s i \/ exists now, e = DeadlinePasses i now).

Lemma next_turn_told e s s1 :
  cancelled s1 = cancelled s -> (forall i, expired s1 i -> expired s i) -> told e s (next_turn o s1).
Proof.
  intros Hc He. destruct (next_turn_frame s1) as (Ha & Hc' & _). unfold told. rewrite Hc', Hc. split; [by left|].
  intros i. unfold expired at 1. rewrite Ha. left. by apply He.
Qed.

Lemma expired_delete s j i :
  (exists b p, delete j (active s) !! i = Some (mkAttempt b p true)) -> expired s i.
Proof. intros (b & p & Hi). apply lookup_delete_Some in Hi as [_ Hi]. by exists b, p. Qed.

Lemma select_told e s s' : select o e s = Some s' -> told e s s'.
Proof.
  intros E.
  destruct e as [t|j now|j completion ready_from now|j now|j notice now|j|j| |now|readings|now]; simpl in E; try done.
  - destruct (active s !! j) as [[budget [d|] expired']|] eqn:EA; [done| |done]. injection E as <-.
    split; [by left|]. intros i (b & p & Hi). left. simpl in Hi.
    apply lookup_insert_Some in Hi as [[<- [= <- <- ->]]|[_ Hi]]; by eexists _, _.
  - destruct (active s !! j) as [[budget [d|] expired']|] eqn:EA; [|done..]. injection E as <-.
    apply next_turn_told; [by rewrite settle_attempt_cancelled|]. intros i. unfold expired at 1.
    rewrite settle_attempt_active. apply expired_delete.
  - destruct (active s !! j) as [[budget [[d|]|] []]|]; try done. destruct (_ <=? _)%Z; [|done].
    injection E as <-. split; [by left|]. intros i (b & p & Hi). simpl in Hi.
    apply lookup_insert_Some in Hi as [[<- _]|[_ Hi]]; [right; by exists now|left; by exists b, p].
  - destruct (active s !! j) as [[budget [d|] []]|] eqn:EA; try done.
    destruct notice as [cause'|]; [destruct (is_user_wait cause')|]; injection E as <-;
      [|by split; [left|intros i; left]..]. apply next_turn_told; [done|]. intros i. apply expired_delete.
  - destruct (parked_waits s !! j); [|done]. injection E as <-. by apply next_turn_told.
  - destruct (parked_waits s !! j); [|done]. injection E as <-.
    apply next_turn_told; [by rewrite settle_parked_cancelled|]. intros i. unfold expired at 1.
    by rewrite settle_parked_active.
  - destruct (cancelled s); [done|]. injection E as <-. split; [by right|].
    intros i. unfold expired at 1. destruct (next_turn_frame (set_cancelled true s)) as (-> & _). by left.
  - injection E as <-. by apply next_turn_told.
Qed.

Lemma step_told e s s' : step o e s = Some s' -> told e s s'.
Proof.
  intros E. unfold step in E. destruct (phase s) as [| |wake|r]; [| | |done].
  - destruct e as [t| | | | | | | | | |]; try done.
    pose proof (launch_turn_expired t s) as He. destruct (launch_turn_frame o t s) as [_ Hc].
    destruct (launch_turn o t s) as [s1 more]. simpl in *. injection E as <-.
    assert (Hs1 : told (LaunchTurn t) s s1) by (split; rewrite ?Hc; [by left|intros i ?; left; by apply He]).
    destruct more; [done|]. destruct (loop_done s1); [|done].
    destruct (finish_frame s1) as (Ha & Hc' & _). split; [by rewrite Hc', Hc; left|].
    intros i. unfold expired at 1. rewrite Ha. left. by apply He.
  - destruct e; try done. injection E as <-. split; [by left|by left].
  - destruct wake as [w|], e; try done; try by apply select_told.
    destruct (w <=? now)%Z; [|done]. injection E as <-. by apply next_turn_told.
Qed.

(** What the events of a run say of a result *)
Definition verdict (o : Options) (tasks : list SwarmTask) (events : list Event) (i : nat) (r : SwarmRunResult) : Prop :=
  (r_state r = Started <-> is_Some (r_agent_id r)) /\
  match r_outcome r with
  | Completed => exists text ready_from now,
      AttemptEnds i (Ok text) ready_from now ∈ events /\ r_result r = Some text /\ r_error r = None
  | Failed => r_result r = None /\ exists msg, r_error r = Some msg /\
      ((exists t before after s, events = before ++ LaunchTurn t :: after /\ l_answer t = Err msg /\
          run_swarm_batch o tasks before = Some s /\ launches_member o t s i) \/
       (exists err ready_from now, AttemptEnds i (Err err) ready_from now ∈ events /\
          (err = TurnFailed msg \/ err = RateLimitedError msg)) \/
       (exists budget now, DeadlinePasses i now ∈ events /\ msg = timeout_message budget))
  | Aborted => r_result r = None /\
      r_error r = Some (match r_state r with
                        | Started => CANCELLED_STARTED_MESSAGE
                        | NotStarted => CANCELLED_NOT_STARTED_MESSAGE
                        end) /\
      (BatchCancelled ∈ events \/ ParkedCancelled i ∈ events \/
       exists ready_from now, AttemptEnds i (Err SubagentCancelled) ready_from now ∈ events)
  end.

Lemma verdict_mono events e i r : verdict o tasks events i r -> verdict o tasks (events ++ [e]) i r.
Proof.
  intros [H1 H2]. split; [done|].
  destruct (r_outcome r); [repeat setoid_rewrite elem_of_app; naive_solver| |repeat setoid_rewrite elem_of_app; naive_solver].
  destruct H2 as (Hr & msg & He & Hcase). split; [done|]. exists msg. split; [done|].
  destruct Hcase as [(t & before & after & s & -> & Hm)|Hcase].
  - left. exists t, before, (after ++ [e]), s. by rewrite <- app_assoc.
  - right. repeat setoid_rewrite elem_of_app. naive_solver.
Qed.

Lemma cause_verdict events e s i r :
  run_swarm_batch o tasks events = Some s ->
  (cancelled s = true -> BatchCancelled ∈ events) ->
  (expired s i -> exists now, DeadlinePasses i now ∈ events) ->
  cause o e s i r -> verdict o tasks (events ++ [e]) i r.
Proof.
  intros Hrun Hc He [H1 H2]. assert (Hlast : e ∈ events ++ [e]) by (apply elem_of_app; right; left).
  assert (Hmono : forall e', e' ∈ events -> e' ∈ events ++ [e]) by (intros; apply elem_of_app; by left).
  split; [done|]. destruct (r_outcome r).
  - destruct H2 as (text & ready_from & now & -> & ? & ?). eauto 10.
  - destruct H2 as (? & msg & ? & Hcase). split; [done|]. exists msg. split; [done|].
    destruct Hcase as [(t & -> & Hans & Hl)|[(err & rf & now & -> & ?)|(budget & polled & Ha & ->)]].
    { left. by exists t, events, [], s. }
    { right; left. by exists err, rf, now. }
    destruct He as [now Hnow]; [by exists budget, polled|]. eauto 10.
  - destruct H2 as (? & ? & Hcase). split_and!; [done..|].
    destruct Hcase as [?|[->|[->|(rf & now & ->)]]]; eauto 10.
Qed.

Lemma run_told events s :
  run_swarm_batch o tasks events = Some s ->
  (cancelled s = true -> BatchCancelled ∈ events) /\
  (forall i, expired s i -> exists now, DeadlinePasses i now ∈ events).
Proof.
  revert s. induction events as [|e events IH] using rev_ind; intros s E.
  - injection E as <-. destruct (next_turn_frame (init tasks)) as (Ha & Hc & _). rewrite Hc. split; [done|].
    intros i (b & p & Hi). rewrite Ha in Hi. done.
  - apply run_snoc in E as (s0 & E0 & E). destruct (IH _ E0) as [Hc He].
    destruct (step_told _ _ _ E) as [Hc' He']. split.
    + intros H. apply elem_of_app. destruct (Hc' H) as [H1| ->]; [left; auto|right; left].
    + intros i Hi. setoid_rewrite elem_of_app.
      destruct (He' i Hi) as [Hi'|[now ->]]; [destruct (He i Hi'); eauto|exists now; right; left].
Qed.

Lemma run_verdicts events s i r :
  run_swarm_batch o tasks events = Some s -> results s !! i = Some (Some r) -> verdict o tasks events i r.
Proof.
  revert s i r. induction events as [|e events IH] using rev_ind; intros s i r E Hr.
  - injection E as <-. destruct (next_turn_filled o tasks (init tasks) (fun _ _ => False) (init_sound tasks)
      (fun H => False_ind _ (Bool.diff_false_true H)) (fun H => False_ind _ (Bool.diff_false_true H)) i) as [Hi|(? & ? & ? & [])].
    rewrite Hi in Hr. apply lookup_replicate in Hr as [? _]. done.
  - apply run_snoc in E as (s0 & E0 & E). destruct (run_told _ _ E0) as [Hc He].
    destruct (step_filled o tasks e s0 s) with (i := i) as [Hi|(_ & r' & Hr' & HQ)].
    + by apply reachable_sound with (o := o), run_reachable with (events := events).
    + done.
    + apply verdict_mono. apply (IH s0); [done|congruence].
    + assert (r' = r) as -> by congruence. apply (cause_verdict events e s0); auto.
Qed.
End runs.

(** C38. A batch never loses a member and never answers for it twice.  When it ends it
    returns one result per task, in the order of the tasks, and those are the results
    it wrote; a result once written stays; and it says what happened to its own member:
    an output or an error of its attempt, its expired budget, the refusal with which
    the host answered the call for it, or a cancellation. *)
Theorem batch_settles_each o tasks events s :
  run_swarm_batch o tasks events = Some s ->
  (forall r, phase s = Ended r ->
     exists l, r = Some l /\ r_task <$> l = tasks /\ forall i x, l !! i = Some x -> verdict o tasks events i x) /\
  forall i r, results s !! i = Some (Some r) ->
    tasks !! i = Some (r_task r) /\ verdict o tasks events i r /\
    forall more s', drive o more s = Some s' -> results s' !! i = Some (Some r).
Proof.
  intros E. pose proof (reachable_sound _ _ _ (run_reachable _ _ _ _ E)) as [H Hend]. split.
  - intros r Hp. unfold ended_well in Hend. rewrite Hp in Hend. destruct Hend as (l & -> & Ht & Hr & _).
    exists l. split; [done|]. split; [done|]. intros i x Hx. apply (run_verdicts o tasks events s); [done|].
    by rewrite Hr, list_lookup_fmap, Hx.
  - intros i r Hi. split_and!; [by eapply s_results|by eapply run_verdicts|].
    intros more. clear Hend. revert s E H Hi. induction more as [|e more IH] using rev_ind; intros s E H Hi s' Hm.
    + by injection Hm as <-.
    + rewrite drive_app in Hm. destruct (drive o more s) as [s1|] eqn:E1; [|done]. simpl in Hm.
      assert (E2 : run_swarm_batch o tasks (events ++ more) = Some s1)
        by (unfold run_swarm_batch in *; by rewrite drive_app, E).
      eapply filled_keeps; [eapply step_filled; [|exact Hm]|].
      * by apply reachable_sound with (o := o), run_reachable with (events := events ++ more).
      * by eapply IH.
Qed.

Lemma batch_settles_each_witness :
  exists s, run_swarm_batch sample_options sample_tasks sample_events = Some s /\
  (forall r, phase s = Ended r ->
     exists l, r = Some l /\ r_task <$> l = sample_tasks /\
     forall i x, l !! i = Some x -> verdict sample_options sample_tasks sample_events i x).
Proof.
  eexists. split; [vm_compute; reflexivity|].
  apply (batch_settles_each sample_options sample_tasks sample_events). vm_compute. reflexivity.
Defined.
