(* ===== verification/SwarmPacing.v ===== *)
(** * How a swarm batch paces its launches

    What the log of a batch shows: the fresh launches keep the ramp, a retry waits
    for its backoff and resumes the agent it had, no more attempts run than the
    capacity allows, and while the batch waits for its own clock it has set one. *)
From stdpp Require Import gmap list strings.
From S2P Require Import Prelude RustStd PermPolicies SwarmBatch SwarmSettles.
#[local] Open Scope list_scope.
#[local] Open Scope Z_scope.

(** ** Reading the log *)

(** The check and the record of a fresh launch *)
Definition fresh_launch (e : Effect) : option (Z * Z) :=
  match e with Launched _ _ false checked_at launched_at => Some (checked_at, launched_at) | _ => None end.
Definition fresh (l : list Effect) : list (Z * Z) := omap fresh_launch l.

(** The requeues of a member: how many there are, and when *)
Definition requeue_of (i : nat) (e : Effect) : option (Z * Z) :=
  match e with Requeued j count t => if decide (j = i) then Some (count, t) else None | _ => None end.
Definition requeues (i : nat) (l : list Effect) : list (Z * Z) := omap (requeue_of i) l.

(** The agents of a member's launches *)
Definition agent_of (i : nat) (e : Effect) : option string :=
  match e with Launched j agent_id _ _ _ => if decide (j = i) then Some agent_id else None | _ => None end.
Definition agents (i : nat) (l : list Effect) : list string := omap (agent_of i) l.

Definition is_host_call (e : Effect) : bool :=
  match e with HostSpawn _ _ _ _ _ _ _ _ _ | HostResume _ _ _ _ => true | _ => false end.

(** The effects that say nothing of launches and requeues *)
Definition quiet (e : Effect) : bool :=
  match e with
  | HostSpawn _ _ _ _ _ _ _ _ _ | HostResume _ _ _ _ | Launched _ _ _ _ _ | Requeued _ _ _ => false
  | _ => true
  end.

(** The backoff of the n-th requeue *)
Definition backoff (o : Options) (count : Z) : Z := retry_base o * wrap_u32 (RATE_LIMIT_RETRY_FACTOR ^ (count - 1)).

Lemma omap_app' {A B} (f : A -> option B) l l' : omap f (l ++ l') = omap f l ++ omap f l'.
Proof. apply omap_app. Qed.

Lemma omap_quiet {B} (f : Effect -> option B) new :
  (forall e, quiet e = true -> f e = None) -> Forall (fun e => quiet e = true) new -> omap f new = [].
Proof. intros Hf. induction 1 as [|e new He _ IH]; simpl; [done|]. by rewrite Hf. Qed.

Lemma fresh_quiet l new : Forall (fun e => quiet e = true) new -> fresh (l ++ new) = fresh l.
Proof. intros H. unfold fresh. rewrite omap_app', (omap_quiet _ new), app_nil_r; [done| |done]. by intros []. Qed.
Lemma requeues_quiet i l new : Forall (fun e => quiet e = true) new -> requeues i (l ++ new) = requeues i l.
Proof. intros H. unfold requeues. rewrite omap_app', (omap_quiet _ new), app_nil_r; [done| |done]. by intros []. Qed.
Lemma agents_quiet i l new : Forall (fun e => quiet e = true) new -> agents i (l ++ new) = agents i l.
Proof. intros H. unfold agents. rewrite omap_app', (omap_quiet _ new), app_nil_r; [done| |done]. by intros []. Qed.

(** A loud effect of [l ++ new] is one of [l]. *)
Lemma split_quiet l new l1 e l2 :
  Forall (fun e => quiet e = true) new -> quiet e = false -> l ++ new = l1 ++ e :: l2 ->
  exists l2', l = l1 ++ e :: l2'.
Proof.
  intros Hnew He. revert l1. induction l as [|x l IH]; intros l1 H; simpl in H.
  - subst new. apply Forall_app in Hnew as [_ Hnew]. inversion Hnew. congruence.
  - destruct l1 as [|y l1]; injection H as -> H; [by exists l|]. destruct (IH _ H) as [l2' ->]. by exists l2'.
Qed.

Lemma split_snoc {A} (l : list A) x l1 e l2 :
  l ++ [x] = l1 ++ e :: l2 -> (l1 = l /\ e = x /\ l2 = []) \/ exists l2', l2 = l2' ++ [x] /\ l = l1 ++ e :: l2'.
Proof.
  destruct l2 as [|y l2 _] using rev_ind; intros H.
  - apply app_inj_tail in H as [-> ->]. by left.
  - rewrite app_comm_cons, app_assoc in H. apply app_inj_tail in H as [-> ->]. right. by exists l2.
Qed.

Lemma wrap_u32_succ n : wrap_u32 (wrap_u32 n + 1) = wrap_u32 (n + 1).
Proof. unfold wrap_u32. by rewrite Zplus_mod_idemp_l. Qed.

(** ** The invariant *)

Section pacing.
Context (o : Options) (tasks : list SwarmTask).

Definition member_of (P : list TaskState) (F : gmap nat TaskState) (state : TaskState) : Prop :=
  state ∈ P \/ exists i, F !! i = Some state.

Record paced_parts (P : list TaskState) (F : gmap nat TaskState) (lg : list Effect) (n : nat)
    (last_launch : option Z) : Prop := mkPaced {
  p_count : n = length (fresh lg);
  p_last : last_launch = snd <$> last (fresh lg);
  p_ramp : forall k c l c' l', fresh lg !! k = Some (c, l) -> fresh lg !! S k = Some (c', l') ->
    (INITIAL_LAUNCH_LIMIT <= S k)%nat -> l + from_millis INITIAL_LAUNCH_INTERVAL_MS <= c';
  p_member : forall state, member_of P F state ->
    retry_count state = wrap_u32 (Z.of_nat (length (requeues (ts_index state) lg))) /\
    ts_agent_id state = last (agents (ts_index state) lg);
  p_ready : forall state t, state ∈ P -> retry_ready_at state = Some t ->
    exists count at_, last (requeues (ts_index state) lg) = Some (count, at_) /\ t = at_ + backoff o count;
  p_retry : forall l1 i a c l l2, lg = l1 ++ Launched i a true c l :: l2 ->
    exists count at_, last (requeues i l1) = Some (count, at_) /\ at_ + backoff o count <= c;
  p_resume : forall l1 i a p l2, lg = l1 ++ HostResume i a p true :: l2 -> last (agents i l1) = Some a /\ p = "";
  p_requeue : forall l1 i count t l2, lg = l1 ++ Requeued i count t :: l2 ->
    count = wrap_u32 (Z.of_nat (S (length (requeues i l1))))
}.

Definition paced (s : State) : Prop :=
  paced_parts (pending s) (in_flight s) (log s) (launches s) (last_normal_launch s).

(** Members may leave and quiet effects be added. *)
Lemma paced_shrink P F lg n last_launch P' F' new :
  paced_parts P F lg n last_launch -> Forall (fun e => quiet e = true) new ->
  (forall state, state ∈ P' -> state ∈ P) ->
  (forall i state', F' !! i = Some state' -> exists state, F !! i = Some state /\
     ts_index state' = ts_index state /\ retry_count state' = retry_count state /\
     ts_agent_id state' = ts_agent_id state) ->
  paced_parts P' F' (lg ++ new) n last_launch.
Proof.
  intros [Hc Hl Hr Hm Hy Ht Hs Hq] Hnew HP HF. constructor.
  - by rewrite fresh_quiet.
  - by rewrite fresh_quiet.
  - by rewrite fresh_quiet.
  - intros state [Hst|[i Hst]]; rewrite requeues_quiet, agents_quiet by done.
    + apply Hm. left. by apply HP.
    + apply HF in Hst as (st & Hst & -> & -> & ->). apply Hm. right. by exists i.
  - intros state t Hst Hready. rewrite requeues_quiet by done. apply Hy; [by apply HP|done].
  - intros l1 i a c l l2 E. apply split_quiet in E as [l2' ->]; [by eapply Ht|done..].
  - intros l1 i a p l2 E. apply split_quiet in E as [l2' ->]; [by eapply Hs|done..].
  - intros l1 i count t l2 E. apply split_quiet in E as [l2' ->]; [by eapply Hq|done..].
Qed.

Lemma on_row_quiet state effect :
  (forall id, quiet (effect id) = true) -> Forall (fun e => quiet e = true) (on_row o state effect).
Proof.
  intros He. unfold on_row. destruct (tracked_task_id state); [|constructor].
  destruct (registry o); repeat constructor. done.
Qed.

Lemma shrink_delete (F : gmap nat TaskState) (i j : nat) (state' : TaskState) :
  delete i F !! j = Some state' -> exists state, F !! j = Some state /\
     ts_index state' = ts_index state /\ retry_count state' = retry_count state /\
     ts_agent_id state' = ts_agent_id state.
Proof. intros Hj. apply lookup_delete_Some in Hj as [_ Hj]. by exists state'. Qed.

(** A call to the host *)
Lemma paced_call P F lg n last_launch e :
  paced_parts P F lg n last_launch -> is_host_call e = true ->
  (forall i a p, e = HostResume i a p true -> last (agents i lg) = Some a /\ p = "") ->
  paced_parts P F (lg ++ [e]) n last_launch.
Proof.
  intros [Hc Hl Hr Hm Hy Ht Hs Hq] He Hcall.
  assert (Hfresh : fresh (lg ++ [e]) = fresh lg) by (unfold fresh; rewrite omap_app'; destruct e; by rewrite ?app_nil_r).
  assert (Hreq : forall i, requeues i (lg ++ [e]) = requeues i lg)
    by (intros i; unfold requeues; rewrite omap_app'; destruct e; by rewrite ?app_nil_r).
  assert (Hag : forall i, agents i (lg ++ [e]) = agents i lg)
    by (intros i; unfold agents; rewrite omap_app'; destruct e; by rewrite ?app_nil_r).
  constructor; rewrite ?Hfresh; try done.
  - intros state Hst. rewrite Hreq, Hag. by apply Hm.
  - intros state t Hst. rewrite Hreq. by apply Hy.
  - intros l1 i a c l l2 E. apply split_snoc in E as [(-> & <- & _)|(l2' & _ & ->)]; [done|by eapply Ht].
  - intros l1 i a p l2 E. apply split_snoc in E as [(-> & <- & _)|(l2' & _ & ->)]; [by apply Hcall|by eapply Hs].
  - intros l1 i count t l2 E. apply split_snoc in E as [(-> & <- & _)|(l2' & _ & ->)]; [done|by eapply Hq].
Qed.

(** A launch: the queued member goes into flight. *)
Lemma paced_launch P F lg n last_launch state state' a (is_retry : bool) c l :
  paced_parts (state :: P) F lg n last_launch ->
  (forall st, member_of P F st -> ts_index st <> ts_index state) ->
  ts_index state' = ts_index state -> retry_count state' = retry_count state -> ts_agent_id state' = Some a ->
  (if is_retry then exists t, retry_ready_at state = Some t /\ t <= c
   else (n < INITIAL_LAUNCH_LIMIT)%nat \/
        forall last_l, last_launch = Some last_l -> last_l + from_millis INITIAL_LAUNCH_INTERVAL_MS <= c) ->
  paced_parts P (<[ts_index state := state']> F) (lg ++ [Launched (ts_index state) a is_retry c l])
    (if is_retry then n else S n) (if is_retry then last_launch else Some l).
Proof.
  intros [Hc Hl Hr Hm Hy Ht Hs Hq] Hother Hidx Hcount Ha Hgate. set (e := Launched _ _ _ _ _).
  assert (Hfresh : fresh (lg ++ [e]) = fresh lg ++ (if is_retry then [] else [(c, l)]))
    by (unfold fresh; rewrite omap_app'; by destruct is_retry).
  assert (Hreq : forall i, requeues i (lg ++ [e]) = requeues i lg)
    by (intros i; unfold requeues; rewrite omap_app'; simpl; by rewrite app_nil_r).
  assert (Hag : forall i, agents i (lg ++ [e]) = agents i lg ++ (if decide (ts_index state = i) then [a] else []))
    by (intros i; unfold agents; rewrite omap_app'; simpl; by destruct (decide _)).
  constructor.
  - rewrite Hfresh. destruct is_retry; rewrite length_app; simpl; lia.
  - rewrite Hfresh. destruct is_retry; [by rewrite app_nil_r|by rewrite last_snoc].
  - rewrite Hfresh. destruct is_retry; [by rewrite app_nil_r|]. intros k c1 l1 c2 l2 H1 H2 Hk.
    assert (Hlen : (S k < length (fresh lg ++ [(c, l)]))%nat) by (by eapply lookup_lt_Some).
    rewrite length_app in Hlen. simpl in Hlen. rewrite lookup_app_l in H1 by lia.
    destruct (decide (S k < length (fresh lg))%nat) as [Hlt|Hge].
    + rewrite lookup_app_l in H2 by done. by eapply Hr.
    + rewrite lookup_app_r in H2 by lia. replace (S k - length (fresh lg))%nat with 0%nat in H2 by lia.
      injection H2 as <- <-. destruct Hgate as [Hn|Hg]; [lia|]. apply Hg. rewrite Hl, last_lookup.
      replace (Nat.pred (length (fresh lg))) with k by lia. by rewrite H1.
  - intros st [Hst|[i Hi]]; rewrite Hreq, Hag.
    + rewrite decide_False, app_nil_r by (intros E; symmetry in E; revert E; apply Hother; by left).
      apply Hm. left. by right.
    + apply lookup_insert_Some in Hi as [[_ <-]|[_ Hi]].
      * rewrite Hidx, decide_True, last_snoc by done. split; [|done]. rewrite Hcount. apply Hm. left. left.
      * rewrite decide_False, app_nil_r by (intros E; symmetry in E; revert E; apply Hother; right; by exists i).
        apply Hm. right. by exists i.
  - intros st t Hst. rewrite Hreq. apply Hy. by right.
  - intros l1 i a' c' l' l2 E. apply split_snoc in E as [(-> & E & _)|(l2' & _ & ->)]; [|by eapply Ht].
    destruct is_retry; [|done]. injection E as -> -> -> ->. destruct Hgate as (t & Hready & Hle).
    destruct (Hy state t) as (count & u & Hlast & ->); [left|done|]. by exists count, u.
  - intros l1 i a' p l2 E. apply split_snoc in E as [(-> & E & _)|(l2' & _ & ->)]; [done|by eapply Hs].
  - intros l1 i count t l2 E. apply split_snoc in E as [(-> & E & _)|(l2' & _ & ->)]; [done|by eapply Hq].
Qed.

(** A requeue: the member goes back to the queue. *)
Lemma paced_requeue P F lg n last_launch i state state' count u :
  paced_parts P F lg n last_launch -> F !! i = Some state ->
  (forall st, st ∈ P -> ts_index st <> ts_index state) ->
  (forall j st, F !! j = Some st -> j <> i -> ts_index st <> ts_index state) ->
  count = wrap_u32 (retry_count state + 1) ->
  ts_index state' = ts_index state -> retry_count state' = count -> ts_agent_id state' = ts_agent_id state ->
  retry_ready_at state' = Some (u + backoff o count) ->
  paced_parts (state' :: P) (delete i F) (lg ++ [Requeued (ts_index state) count u]) n last_launch.
Proof.
  intros [Hc Hl Hr Hm Hy Ht Hs Hq] HF HP HO Hcount Hidx Hrc Ha Hready. set (e := Requeued _ _ _).
  destruct (Hm state) as [Hrc0 Ha0]; [right; by exists i|].
  assert (Hfresh : fresh (lg ++ [e]) = fresh lg) by (unfold fresh; rewrite omap_app'; simpl; by rewrite app_nil_r).
  assert (Hag : forall j, agents j (lg ++ [e]) = agents j lg)
    by (intros j; unfold agents; rewrite omap_app'; simpl; by rewrite app_nil_r).
  assert (Hreq : forall j, requeues j (lg ++ [e])
                 = requeues j lg ++ (if decide (ts_index state = j) then [(count, u)] else []))
    by (intros j; unfold requeues; rewrite omap_app'; simpl; by destruct (decide _)).
  assert (Hwrap : count = wrap_u32 (Z.of_nat (S (length (requeues (ts_index state) lg))))).
  { rewrite Hcount, Hrc0, Nat2Z.inj_succ. apply wrap_u32_succ. }
  constructor; rewrite ?Hfresh; try done.
  - intros st [Hst|[j Hj]]; rewrite Hreq, Hag.
    + apply elem_of_cons in Hst as [->|Hst].
      * rewrite Hidx, decide_True, length_app, Nat.add_1_r, Hrc, Ha by done. by split.
      * rewrite decide_False, app_nil_r by (intros E; symmetry in E; by revert E; apply HP).
        apply Hm. by left.
    + apply lookup_delete_Some in Hj as [Hne Hj].
      rewrite decide_False, app_nil_r by (intros E; symmetry in E; revert E; by eapply HO).
      apply Hm. right. by exists j.
  - intros st t Hst Hr'. rewrite Hreq. apply elem_of_cons in Hst as [->|Hst].
    + rewrite Hidx, decide_True, last_snoc by done. exists count, u. split; [done|congruence].
    + rewrite decide_False, app_nil_r by (intros E; symmetry in E; by revert E; apply HP). by apply Hy.
  - intros l1 j a c l l2 E. apply split_snoc in E as [(-> & E & _)|(l2' & _ & ->)]; [done|by eapply Ht].
  - intros l1 j a p l2 E. apply split_snoc in E as [(-> & E & _)|(l2' & _ & ->)]; [done|by eapply Hs].
  - intros l1 j count' t l2 E. apply split_snoc in E as [(-> & E & _)|(l2' & _ & ->)]; [|by eapply Hq].
    injection E as -> -> ->. done.
Qed.

(** ** The operations keep it *)

Lemma others P R A F K Q state st :
  sound_parts tasks (state :: P) R A F K Q -> member_of P F st -> ts_index st <> ts_index state.
Proof.
  intros H Hst E. pose proof (s_home _ _ _ _ _ _ _ H (ts_index state)) as Hh.
  unfold indices in Hh. rewrite fmap_cons, seats_cons, decide_True in Hh by done.
  destruct Hst as [Hst|[i Hi]].
  - assert (1 <= seats (ts_index state) (ts_index <$> P))%nat by (apply seats_elem; rewrite <- E; by apply list_elem_of_fmap_2).
    case_decide; lia.
  - destruct (s_flight _ _ _ _ _ _ _ H _ _ Hi) as (Hidx & _). rewrite <- E, Hidx in Hh.
    rewrite (holds_some _ _ _ Hi) in Hh. case_decide; lia.
Qed.

Lemma may_launch_gate now s state :
  may_launch now s state = true ->
  if bool_decide (is_Some (retry_ready_at state)) then exists t, retry_ready_at state = Some t /\ t <= now
  else (launches s < INITIAL_LAUNCH_LIMIT)%nat \/
       forall l, last_normal_launch s = Some l -> l + from_millis INITIAL_LAUNCH_INTERVAL_MS <= now.
Proof.
  unfold may_launch. intros H. destruct (retry_ready_at state) as [t|]; simpl.
  - exists t. bsimpl. by split.
  - apply andb_true_iff in H as [_ H]. unfold ramp_open in H. apply orb_true_iff in H as [H|H].
    + left. by apply Nat.ltb_lt.
    + right. intros l Hl. rewrite Hl in H. simpl in H. by bsimpl.
Qed.

Lemma launch_turn_paced t s : sound tasks s -> paced s -> paced (fst (launch_turn o t s)).
Proof.
  intros H Hp. unfold launch_turn. destruct (cancelled s); [done|]. cbv zeta.
  destruct (match effective_capacity _ _ with Some _ => _ | None => _ end); [done|]. simpl.
  destruct (ready_queue s) as [|[i remaining] rest].
  2:{ apply (paced_shrink _ _ _ _ _ _ _ [Readmitted i] Hp); [by repeat constructor|done|by eauto]. }
  set (s1 := set_rate_limit _ s).
  destruct (pick (may_launch (l_now t) s1) (pending s)) as [[state rest]|] eqn:Ep; [|done].
  apply pick_perm in Ep as [Hperm Hgate]. apply may_launch_gate in Hgate.
  assert (H1 : sound_parts tasks (state :: rest) (results s) (active s) (in_flight s)
                 (parked_waits s) (ready_queue s)) by (by eapply sound_perm).
  assert (Hin : forall st, st ∈ state :: rest -> st ∈ pending s) by (intros st; by rewrite Hperm).
  assert (Hp1 : paced_parts (state :: rest) (in_flight s) (log s ++ option_list (host_call o state))
                  (launches s) (last_normal_launch s)).
  { assert (Hp0 : paced_parts (state :: rest) (in_flight s) (log s ++ []) (launches s) (last_normal_launch s))
      by (apply (paced_shrink _ _ _ _ _ _ _ [] Hp); [constructor|done|by eauto]).
    rewrite app_nil_r in Hp0. destruct (host_call o state) as [call|] eqn:Ec; simpl; [|by rewrite app_nil_r].
    apply paced_call; [done|..]; unfold host_call in Ec.
    - destruct (retry_ready_at state), (ts_agent_id state), (kind (ts_task state)); simpl in Ec; naive_solver.
    - intros i a p ->. destruct (p_member _ _ _ _ _ Hp0 state) as [_ Ha]; [by left; left|].
      destruct (retry_ready_at state), (ts_agent_id state), (kind (ts_task state)); simpl in Ec; naive_solver. }
  destruct (l_answer t) as [handle|error].
  2:{ simpl. unfold paced. simpl. rewrite <- (app_nil_r (log s ++ _)).
      apply (paced_shrink _ _ _ _ _ _ _ [] Hp1); [constructor|by right|by eauto]. }
  unfold launch_accepted, paced. set (is_retry := bool_decide (is_Some (retry_ready_at state))) in *.
  set (new := (if registry o && negb is_retry then _ else [])). set (state' := mkTaskState _ _ _ _ _ _ _).
  set (row := on_row o state' _).
  assert (Hquiet : Forall (fun e => quiet e = true) (new ++ row)).
  { apply Forall_app. split; [unfold new; by destruct (_ && _); repeat constructor|by apply on_row_quiet]. }
  pose proof (paced_shrink _ _ _ _ _ (state :: rest) (in_flight s) _ Hp1 Hquiet ltac:(done) ltac:(by eauto)) as Hp2.
  pose proof (paced_launch _ _ _ _ _ state state' (h_agent_id handle) is_retry (l_now t) (l_launched_at t) Hp2
                (fun st => others _ _ _ _ _ _ _ st H1) eq_refl eq_refl eq_refl Hgate) as Hp3.
  rewrite <- app_assoc, <- (app_assoc new) in Hp3.
  destruct is_retry; exact Hp3.
Qed.

Lemma settle_parked_paced i s s0 :
  paced s0 -> pending s = pending s0 -> in_flight s = in_flight s0 -> log s = log s0 ->
  launches s = launches s0 -> last_normal_launch s = last_normal_launch s0 ->
  paced (settle_parked_aborted o i s).
Proof.
  intros Hp HP HF HL Hn Hl. unfold settle_parked_aborted.
  destruct (in_flight s !! i) as [state|] eqn:E; unfold paced; simpl; rewrite HP, HF, HL, Hn, Hl; [|done].
  apply (paced_shrink _ _ _ _ _ _ _ (CancelMember i :: on_row o state TaskStop) Hp);
    [constructor; [done|by apply on_row_quiet]|done|apply shrink_delete].
Qed.

Lemma settle_attempt_paced i outcome ready_from now s s0 :
  sound tasks s0 -> paced s0 -> pending s = pending s0 -> in_flight s = in_flight s0 -> log s = log s0 ->
  launches s = launches s0 -> last_normal_launch s = last_normal_launch s0 ->
  paced (settle_attempt o i outcome ready_from now s).
Proof.
  intros H Hp HP HF HL Hn Hl. unfold settle_attempt.
  destruct (in_flight s !! i) as [state|] eqn:E; [|by unfold paced; rewrite HP, HF, HL, Hn, Hl].
  assert (Hleave : forall new, Forall (fun e => quiet e = true) new ->
            paced_parts (pending s) (delete i (in_flight s)) (log s ++ new) (launches s) (last_normal_launch s)).
  { intros new Hnew. rewrite HP, HF, HL, Hn, Hl.
    by apply (paced_shrink _ _ _ _ _ _ _ new Hp); [|done|apply shrink_delete]. }
  destruct outcome as [text|msg|msg|]; simpl; try (by apply Hleave, on_row_quiet).
  destruct (cancelled s); [by apply Hleave, on_row_quiet|]. destruct (_ =? 0)%nat; [by apply Hleave, on_row_quiet|].
  unfold requeue, paced. simpl. rewrite HP, HF, HL, Hn, Hl. rewrite HF in E.
  destruct (s_flight _ _ _ _ _ _ _ H _ _ E) as (Hidx & _).
  set (e := NotifySuspended _). rewrite (cons_middle e), app_assoc.
  apply paced_requeue with (state := state); try done.
  - by apply (paced_shrink _ _ _ _ _ _ _ [e] Hp); [repeat constructor|done|eauto].
  - intros st Hst Heq. pose proof (s_home _ _ _ _ _ _ _ H i) as Hh. rewrite (holds_some _ _ _ E) in Hh.
    assert (1 <= seats i (indices (pending s0)))%nat; [|case_decide; lia].
    apply seats_elem. rewrite <- Hidx, <- Heq. by apply list_elem_of_fmap_2.
  - intros j st Hj Hne Heq. destruct (s_flight _ _ _ _ _ _ _ H _ _ Hj) as (Hj' & _). congruence.
Qed.

Lemma keepalive_paced readings s : paced s -> paced (keepalive o readings s).
Proof.
  intros Hp. apply (paced_shrink _ _ _ _ _ _ _ _ Hp); [|done|].
  - apply Forall_forall. intros e He. apply list_elem_of_In, in_flat_map in He as ([i st] & _ & He).
    simpl in He. unfold sample_member in He.
    destruct (readings !! ts_index st), (last_seen_activity_ms st); try done.
    destruct (_ =? _); [done|]. apply list_elem_of_In, elem_of_app in He as [He|He].
    + revert e He. by apply Forall_forall, on_row_quiet.
    + apply list_elem_of_singleton in He as ->. done.
  - intros i state'. simpl. rewrite lookup_fmap. destruct (in_flight s !! i) as [st|]; [|done].
    intros [= <-]. exists st. split; [done|]. unfold sample_member.
    destruct (readings !! ts_index st), (last_seen_activity_ms st); try done. by destruct (_ =? _).
Qed.

Lemma finish_paced s : paced s -> paced (finish o s).
Proof.
  assert (Hd : forall P s, P ⊆ pending s -> paced s ->
            let s' := foldl (fun s state => drain_pending o state s) s P in paced s' /\ pending s' = pending s).
  { intros P. induction P as [|state P IH]; simpl; intros s0 Hsub Hp; [done|].
    apply (IH (drain_pending o state s0)); [set_solver|].
    apply (paced_shrink _ _ _ _ _ _ _ _ Hp); [destruct (bool_decide _); [by apply on_row_quiet|constructor]|done|eauto]. }
  assert (Hk : forall Q s, paced s ->
            paced (foldl (fun s (member : nat * option Z) => settle_parked_aborted o (fst member) s) s Q)).
  { intros Q. induction Q as [|member Q IH]; simpl; intros s0 Hp; [done|]. apply IH. by eapply settle_parked_paced. }
  intros Hp. unfold finish. simpl.
  match goal with |- paced (set_phase _ (set_ready_queue _ ?s1)) => change (paced s1) end.
  apply Hk. destruct (Hd (pending s) s) as [Hp' _]; [done..|]. unfold paced in *. simpl.
  rewrite <- (app_nil_r (log _)). apply (paced_shrink _ _ _ _ _ _ _ [] Hp'); [constructor|set_solver|eauto].
Qed.

Lemma next_turn_paced s : paced s -> paced (next_turn o s).
Proof. intros Hp. unfold next_turn. destruct (loop_done s); [by apply finish_paced|done]. Qed.

Lemma select_paced e s s' : sound tasks s -> paced s -> select o e s = Some s' -> paced s'.
Proof.
  intros H Hp E.
  destruct e as [t|j now|j completion ready_from now|j now|j notice now|j|j| |now|readings|now]; simpl in E; try done.
  - destruct (active s !! j) as [[budget [d|] expired']|] eqn:EA; [done| |done]. by injection E as <-.
  - destruct (active s !! j) as [[budget [d|] expired']|] eqn:EA; [|done..]. injection E as <-.
    by eapply next_turn_paced, settle_attempt_paced.
  - destruct (active s !! j) as [[budget [[d|]|] []]|]; try done. destruct (_ <=? _); [|done].
    injection E as <-. apply (paced_shrink _ _ _ _ _ _ _ [CancelMember j] Hp); [by repeat constructor|done|eauto].
  - destruct (active s !! j) as [[budget [d|] []]|] eqn:EA; try done.
    destruct notice as [cause'|]; [destruct (is_user_wait cause')|]; injection E as <-; [|done..].
    by apply next_turn_paced.
  - destruct (parked_waits s !! j); [|done]. injection E as <-. by apply next_turn_paced.
  - destruct (parked_waits s !! j); [|done]. injection E as <-. by eapply next_turn_paced, settle_parked_paced.
  - destruct (cancelled s); [done|]. injection E as <-. by apply next_turn_paced.
  - injection E as <-. by apply next_turn_paced, keepalive_paced.
Qed.

Lemma step_paced e s s' : sound tasks s -> paced s -> step o e s = Some s' -> paced s'.
Proof.
  intros H Hp E. unfold step in E. destruct (phase s) as [| |wake|r]; [| | |done].
  - destruct e as [t| | | | | | | | | |]; try done. pose proof (launch_turn_paced t s H Hp) as H1.
    destruct (launch_turn o t s) as [s1 more]. simpl in H1. injection E as <-.
    destruct more; [done|]. destruct (loop_done s1); [by apply finish_paced|done].
  - destruct e; try done. by injection E as <-.
  - destruct wake as [w|], e; try done; try by eapply select_paced.
    destruct (w <=? now); [|done]. injection E as <-. by apply next_turn_paced.
Qed.

Lemma init_paced : paced (init tasks).
Proof.
  constructor; try done.
  - intros state [Hst|[i Hi]]; [|done]. apply list_elem_of_lookup_1 in Hst as [i Hi].
    simpl in Hi. rewrite list_lookup_imap in Hi. destruct (tasks !! i); [|done]. by injection Hi as <-.
  - intros state t Hst. apply list_elem_of_lookup_1 in Hst as [i Hi].
    simpl in Hi. rewrite list_lookup_imap in Hi. destruct (tasks !! i); [|done]. by injection Hi as <-.
  - intros [|? ?]; done.
  - intros [|? ?]; done.
  - intros [|? ?]; done.
Qed.

Lemma reachable_paced s : reachable o tasks s -> paced s.
Proof.
  induction 1 as [|s e s' Hr IH E]; [apply next_turn_paced, init_paced|].
  eapply step_paced; [|done..]. by apply reachable_sound with (o := o).
Qed.
End pacing.

(** The count of a requeue is the number of the member's requeues so far. *)
Lemma last_requeue i l count t :
  last (requeues i l) = Some (count, t) ->
  exists l1 l2, l = l1 ++ Requeued i count t :: l2 /\ length (requeues i l) = S (length (requeues i l1)).
Proof.
  induction l as [|e l IH] using rev_ind; [done|]. unfold requeues. rewrite omap_app'. simpl.
  assert (Hkeep : requeue_of i e = None -> last (requeues i l ++ []) = Some (count, t) ->
            exists l1 l2, l ++ [e] = l1 ++ Requeued i count t :: l2 /\
              length (requeues i l ++ []) = S (length (requeues i l1))).
  { rewrite app_nil_r. intros _ H. destruct (IH H) as (l1 & l2 & -> & ?). exists l1, (l2 ++ [e]).
    by rewrite <- app_assoc. }
  destruct (requeue_of i e) as [[c t']|] eqn:E; [|by apply Hkeep].
  rewrite last_snoc. intros [= -> ->]. exists l, []. split; [|by rewrite length_app, Nat.add_1_r].
  destruct e; try done. simpl in E. case_decide; [|done]. injection E as -> ->. by subst.
Qed.

(** The launches keep their pace: from the sixth on, a fresh launch comes at
    least 700 ms after the one before; a retry comes after a backoff that doubles
    with every requeue of the member, and resumes without a prompt the agent the
    member had. *)
Theorem launches_paced o tasks s :
  reachable o tasks s ->
  (forall k c l c' l', fresh (log s) !! k = Some (c, l) -> fresh (log s) !! S k = Some (c', l') ->
     (INITIAL_LAUNCH_LIMIT <= S k)%nat -> l + from_millis INITIAL_LAUNCH_INTERVAL_MS <= c') /\
  (forall l1 i a c l l2, log s = l1 ++ Launched i a true c l :: l2 ->
     let n := Z.of_nat (length (requeues i l1)) in
     exists at_, last (requeues i l1) = Some (wrap_u32 n, at_) /\ at_ + backoff o (wrap_u32 n) <= c) /\
  (forall l1 i a p l2, log s = l1 ++ HostResume i a p true :: l2 -> last (agents i l1) = Some a /\ p = "").
Proof.
  intros H. destruct (reachable_paced _ _ _ H) as [_ _ Hr _ _ Ht Hs Hq]. split_and!; [done| |done].
  intros l1 i a c l l2 E. destruct (Ht _ _ _ _ _ _ E) as (count & u & Hlast & Hle).
  destruct (last_requeue _ _ _ _ Hlast) as (la & lb & -> & Hlen).
  assert (count = wrap_u32 (Z.of_nat (S (length (requeues i la))))) as Hc.
  { eapply (Hq la i count u (lb ++ Launched i a true c l :: l2)). by rewrite E, <- app_assoc. }
  cbv zeta. rewrite Hlen, <- Hc. by exists u.
Qed.

(** ** Capacity *)

Section capacity.
Context (o : Options).

Definition capped (s : State) : Prop :=
  (forall m, max_concurrency o = Some m -> (size (active s) <= m)%nat) /\
  (forall rl, rate_limit s = Some rl -> (size (active s) <= capacity rl)%nat).
Definition open_capacity (s : State) : Prop := forall rl, rate_limit s = Some rl -> (1 <= capacity rl)%nat.

(** A step starts attempts only up to the capacity. *)
Definition admits (s s' : State) : Prop :=
  (open_capacity s -> open_capacity s') /\ ((size (active s') <= size (active s))%nat \/ capped s').

Lemma size_insert_le {A} (m : gmap nat A) i x : (size (<[i := x]> m) <= S (size m))%nat.
Proof. rewrite map_size_insert. destruct (m !! i); simpl; lia. Qed.

Lemma size_rearm {A} (m : gmap nat A) i x y : m !! i = Some y -> size (<[i := x]> m) = size m.
Proof. intros H. by rewrite map_size_insert, H. Qed.

Lemma size_delete_le {A} (m : gmap nat A) i : (size (delete i m) <= size m)%nat.
Proof. rewrite map_size_delete. destruct (m !! i); simpl; lia. Qed.

Lemma recover_capacity now rl : (capacity rl <= capacity (recover now rl))%nat.
Proof. unfold recover. destruct (_ <=? _); simpl; lia. Qed.

Lemma launch_turn_admits t s : admits s (fst (launch_turn o t s)).
Proof.
  unfold launch_turn. destruct (cancelled s); [by split; [|left]|]. cbv zeta.
  set (s1 := set_rate_limit (recover (l_now t) <$> rate_limit s) s).
  assert (Hopen : open_capacity s -> open_capacity s1).
  { intros H rl Hrl. simpl in Hrl. destruct (rate_limit s) as [rl0|] eqn:E; [|done]. injection Hrl as <-.
    pose proof (recover_capacity (l_now t) rl0). pose proof (H rl0 E). lia. }
  destruct (match effective_capacity _ _ with Some _ => _ | None => _ end) eqn:Ecap; [by split; [|left]|].
  assert (Hcap : forall i a, let m := <[i := a]> (active s) in
            (forall m0, max_concurrency o = Some m0 -> (size m <= m0)%nat) /\
            (forall rl, rate_limit s1 = Some rl -> (size m <= capacity rl)%nat)).
  { intros i a. pose proof (size_insert_le (active s) i a). simpl in *.
    destruct (max_concurrency o) as [m0|], (recover (l_now t) <$> rate_limit s) as [rl0|]; simpl in Ecap;
      try apply Nat.leb_gt in Ecap; split; intros ? [= <-]; lia. }
  destruct (ready_queue s1) as [|[i remaining] rest].
  2:{ split; [done|]. right. apply (Hcap i). }
  destruct (pick _ (pending s1)) as [[state rest]|]; [|by split; [|left]].
  destruct (l_answer t) as [handle|error]; [|by split; [|left]].
  destruct (Hcap (ts_index state) (mkAttempt (attempt_timeout o) None false)) as [H1 H2].
  assert (Hfield : forall s', active s' = <[ts_index state := mkAttempt (attempt_timeout o) None false]> (active s) ->
            (capacity <$> rate_limit s') = (capacity <$> rate_limit s1) -> admits s s').
  { intros s' Ha Hr. split.
    - intros Ho rl Hrl. rewrite Hrl in Hr. destruct (rate_limit s1) as [rl1|] eqn:E; [|done].
      injection Hr as ->. by apply (Hopen Ho).
    - right. split; rewrite Ha; [done|]. intros rl Hrl. rewrite Hrl in Hr.
      destruct (rate_limit s1) as [rl1|] eqn:E; [|done]. injection Hr as ->. by apply H2. }
  apply Hfield; unfold launch_accepted; [by destruct (bool_decide _)|].
  unfold s1. destruct (bool_decide _); simpl; by destruct (rate_limit s).
Qed.

Lemma settle_attempt_admits i outcome ready_from now s s0 :
  (size (active s) <= size (active s0))%nat -> rate_limit s = rate_limit s0 ->
  admits s0 (settle_attempt o i outcome ready_from now s).
Proof.
  intros Ha Hr. split; [|left; by rewrite settle_attempt_active].
  unfold open_capacity, settle_attempt. rewrite <- Hr. intros H rl.
  destruct (in_flight s !! i) as [state|]; [|apply H]. destruct outcome as [| |msg|]; simpl; try apply H.
  destruct (cancelled s); [apply H|]. destruct (_ =? 0)%nat; [apply H|]. simpl. intros [= <-].
  destruct (rate_limit s) as [rl0|]; simpl; [|lia]. specialize (H rl0 eq_refl).
  destruct (_ && _) eqn:E; [|done]. apply andb_true_iff in E as [_ E]. apply Nat.ltb_lt in E. lia.
Qed.

Lemma next_turn_admits s s1 : admits s s1 -> admits s (next_turn o s1).
Proof.
  intros [H1 H2]. destruct (next_turn_frame o s1) as (Ea & _ & Er). unfold admits, capped, open_capacity.
  by rewrite Ea, Er.
Qed.

Lemma same_admits s s' :
  (size (active s') <= size (active s))%nat -> rate_limit s' = rate_limit s -> admits s s'.
Proof. intros Ha Hr. split; [|by left]. unfold open_capacity. by rewrite Hr. Qed.

Lemma select_admits e s s' : select o e s = Some s' -> admits s s'.
Proof.
  intros E. pose proof (fun j => size_delete_le (active s) j) as Hdel.
  destruct e as [t|j now|j completion ready_from now|j now|j notice now|j|j| |now|readings|now]; simpl in E; try done.
  - destruct (active s !! j) as [[budget [d|] expired']|] eqn:EA; [done| |done]. injection E as <-.
    apply same_admits; [|done]. simpl. by rewrite (size_rearm _ _ _ _ EA).
  - destruct (active s !! j) as [[budget [d|] expired']|] eqn:EA; [|done..]. injection E as <-.
    apply next_turn_admits, settle_attempt_admits; [apply Hdel|done].
  - destruct (active s !! j) as [[budget [[d|]|] []]|] eqn:EA; try done. destruct (_ <=? _); [|done].
    injection E as <-. apply same_admits; [|done]. simpl. by rewrite (size_rearm _ _ _ _ EA).
  - destruct (active s !! j) as [[budget [d|] []]|] eqn:EA; try done.
    destruct notice as [cause'|]; [destruct (is_user_wait cause')|]; injection E as <-; [|by apply same_admits..].
    apply next_turn_admits, same_admits; [apply Hdel|done].
  - destruct (parked_waits s !! j); [|done]. injection E as <-. by apply next_turn_admits, same_admits.
  - destruct (parked_waits s !! j); [|done]. injection E as <-.
    apply next_turn_admits, same_admits; [by rewrite settle_parked_active|].
    unfold settle_parked_aborted. simpl. by destruct (in_flight s !! j).
  - destruct (cancelled s); [done|]. injection E as <-. by apply next_turn_admits, same_admits.
  - injection E as <-. by apply next_turn_admits, same_admits.
Qed.

Lemma step_admits e s s' : step o e s = Some s' -> admits s s'.
Proof.
  intros E. unfold step in E. destruct (phase s) as [| |wake|r]; [| | |done].
  - destruct e as [t| | | | | | | | | |]; try done. pose proof (launch_turn_admits t s) as H1.
    destruct (launch_turn o t s) as [s1 more]. simpl in H1. injection E as <-.
    destruct more; [done|]. destruct (loop_done s1) eqn:Ed; [|done].
    pose proof (next_turn_admits s s1 H1) as Hn. unfold next_turn in Hn. by rewrite Ed in Hn.
  - destruct e; try done. injection E as <-. by apply same_admits.
  - destruct wake as [w|], e; try done; try by eapply select_admits.
    destruct (w <=? now); [|done]. injection E as <-. by apply next_turn_admits, same_admits.
Qed.
End capacity.

Lemma reachable_open o tasks s :
  reachable o tasks s ->
  (forall m, max_concurrency o = Some m -> (size (active s) <= m)%nat) /\ open_capacity s.
Proof.
  induction 1 as [|s e s' _ [IH1 IH2] E].
  - destruct (next_turn_frame o (init tasks)) as (Ea & _ & Er). unfold open_capacity. rewrite Ea, Er.
    split; [|done]. intros m _. simpl. rewrite map_size_empty. lia.
  - destruct (step_admits _ _ _ _ E) as [Ho [Hle|[Hm _]]]; (split; [|by apply Ho]); [|done].
    intros m Hm. specialize (IH1 m Hm). lia.
Qed.

(** Never more attempts than the configured ceiling, at least one allowed by the
    rate-limit mode, and nothing started beyond its capacity: attempts over it
    are only those that ran when it shrank. *)
Theorem concurrency_bounded o tasks s :
  reachable o tasks s ->
  (forall m, max_concurrency o = Some m -> (size (active s) <= m)%nat) /\
  (forall rl, rate_limit s = Some rl -> (1 <= capacity rl)%nat) /\
  forall e s', step o e s = Some s' -> (size (active s) < size (active s'))%nat -> capped o s'.
Proof.
  intros H. destruct (reachable_open _ _ _ H) as [H1 H2]. split_and!; [done..|]. intros e s' E Hlt.
  destruct (step_admits _ _ _ _ E) as [_ [Hle|Hc]]; [lia|done].
Qed.

(** ** Waking *)

Lemma pick_none eligible l state : pick eligible l = None -> state ∈ l -> eligible state = false.
Proof.
  induction l as [|st l IH]; simpl; intros H Hin; [by apply elem_of_nil in Hin|].
  destruct (eligible st) eqn:E; [done|]. destruct (pick eligible l) as [[found rest]|]; [done|].
  apply elem_of_cons in Hin as [->|Hin]; [done|by apply IH].
Qed.

Lemma next_wake_some now s d :
  d ∈ deadlines s -> now < d -> exists w, next_wake now s = Some w /\ now < w <= d.
Proof.
  unfold next_wake. set (f := fun wake deadline => _).
  assert (Hgen : forall l acc, (forall w, acc = Some w -> now < w) -> (d ∈ l \/ exists w, acc = Some w /\ w <= d) ->
            now < d -> exists w, foldl f acc l = Some w /\ now < w <= d).
  { induction l as [|x l IH]; simpl; intros acc Hacc Hd Hlt.
    - destruct Hd as [Hd|(w & -> & Hw)]; [by apply elem_of_nil in Hd|]. exists w. split; [done|]. by split; [apply Hacc|].
    - apply IH; [|clear IH|done].
      + intros w. unfold f. destruct (now <? x) eqn:E; [|apply Hacc]. bsimpl.
        destruct acc as [w0|]; intros [= <-]; [|done]. specialize (Hacc w0 eq_refl). lia.
      + destruct Hd as [Hd|(w & -> & Hw)].
        * apply elem_of_cons in Hd as [<-|Hd]; [|by left]. right. unfold f. rewrite (proj2 (Z.ltb_lt _ _) Hlt).
          destruct acc as [w0|]; eexists; (split; [done|lia]).
        * right. unfold f. destruct (now <? x); eexists; (split; [done|lia]). }
  intros Hd Hlt. apply Hgen; [done|by left|done].
Qed.

(** A launch that is not allowed now will be at an instant the loop considers. *)
Lemma closed_gate_considered now s state :
  state ∈ pending s -> may_launch now s state = false -> exists d, d ∈ deadlines s /\ now < d.
Proof.
  intros Hin H.
  assert (Hrl : rl_gate_open now s = false -> exists d, d ∈ deadlines s /\ now < d).
  { unfold rl_gate_open, deadlines. destruct (rate_limit s) as [rl|]; [|done].
    destruct (launch_gate rl) as [g|]; [|done]. simpl. intros Hg. bsimpl. exists g. split; [|done].
    apply elem_of_app. right. left. }
  unfold may_launch in H. destruct (retry_ready_at state) as [ready|] eqn:Er.
  - apply andb_false_iff in H as [H|H]; [|by apply Hrl]. bsimpl. exists ready. split; [|done].
    unfold deadlines. rewrite !elem_of_app. right; right. apply list_elem_of_omap. by exists state.
  - apply andb_false_iff in H as [H|H]; [by apply Hrl|]. unfold ramp_open in H. bsimpl.
    apply Nat.ltb_ge in H. unfold gate_passed in *. destruct (last_normal_launch s) as [l|] eqn:El; [|done].
    simpl in *. bsimpl. exists (l + from_millis INITIAL_LAUNCH_INTERVAL_MS). split; [|done].
    unfold deadlines. rewrite El, (proj2 (Nat.leb_le _ _) H). left.
Qed.

(** Nothing runs and nobody waits for a person. *)
Definition idle (s : State) : Prop := active s = ∅ /\ parked_waits s = ∅.

(** C39. The batch never waits for nothing: when the launch loop stops with members
    left, nothing running and nobody waiting for a person, the wake computed at
    that instant is set, to a moment still to come. *)
Theorem wake_is_set o tasks s t s1 s2 :
  reachable o tasks s -> max_concurrency o <> Some 0%nat -> cancelled s = false ->
  step o (LaunchTurn t) s = Some s1 -> step o (ComputeWake (l_now t)) s1 = Some s2 ->
  idle s1 ->
  exists w, phase s2 = Selecting (Some w) /\ l_now t < w.
Proof.
  intros Hr Hmax Hc E1 E2 [HA HK]. destruct (reachable_open _ _ _ Hr) as [_ Hopen].
  unfold open_capacity in Hopen.
  unfold step in E1. destruct (phase s) as [| |[?|]|?] eqn:Eph; try done. unfold launch_turn in E1. rewrite Hc in E1. cbv zeta in E1.
  set (sr := set_rate_limit (recover (l_now t) <$> rate_limit s) s) in *.
  assert (Hgo : forall s', step o (ComputeWake (l_now t)) s' = Some s2 -> phase s' = Waking /\
            s2 = set_phase (Selecting (next_wake (l_now t) s')) s').
  { intros s' E. unfold step in E. destruct (phase s') as [| |[w|]|]; try done. by injection E as <-. }
  destruct (Hgo _ E2) as [Hw ->]. clear Hgo E2. simpl.
  assert (Hbreak : s1 = set_phase Waking sr -> (forall state, state ∈ pending sr -> may_launch (l_now t) sr state = false) ->
            ready_queue sr = [] -> loop_done sr = false ->
            exists w, Selecting (next_wake (l_now t) s1) = Selecting (Some w) /\ l_now t < w).
  { intros -> Hnone HQ Hd. simpl in HA, HK.
    destruct (pending s) as [|state rest] eqn:EP.
    { unfold loop_done in Hd. simpl in Hd, HQ. rewrite EP, HA, HK, HQ in Hd. by rewrite !bool_decide_eq_true_2 in Hd. }
    destruct (closed_gate_considered (l_now t) sr state) as (d & Hd' & Hlt);
      [simpl; rewrite EP; left|apply Hnone; simpl; rewrite EP; left|].
    destruct (next_wake_some (l_now t) sr d Hd' Hlt) as (w & Hnw & ? & _).
    exists w. split; [|done]. change (next_wake (l_now t) (set_phase Waking sr)) with (next_wake (l_now t) sr).
    by rewrite Hnw. }
  destruct (match effective_capacity _ _ with Some _ => _ | None => _ end) eqn:Ecap.
  - exfalso. destruct (loop_done sr) eqn:Ed; injection E1 as <-.
    { unfold finish in Hw. done. }
    simpl in HA, Ecap. rewrite HA, map_size_empty in Ecap.
    destruct (max_concurrency o) as [m|], (rate_limit s) as [rl|] eqn:El; simpl in Ecap; try done;
      apply Nat.leb_le in Ecap; try (specialize (Hopen _ eq_refl); pose proof (recover_capacity (l_now t) rl));
      try lia; destruct m; try done; lia.
  - destruct (ready_queue sr) as [|[i remaining] rest] eqn:EQ.
    + destruct (pick _ (pending sr)) as [[state rest]|] eqn:Ep.
      * exfalso. injection E1 as <-. revert Hw. unfold launch_accepted.
        destruct (l_answer t) as [handle|error]; [destruct (bool_decide _)|]; simpl; by rewrite Eph.
      * destruct (loop_done sr) eqn:Ed; injection E1 as <-; [done|].
        apply Hbreak; [done| |done|done]. intros st Hst. by eapply pick_none.
    + injection E1 as <-. simpl in Hw. congruence.
Qed.

(** ** Cancellation *)

Definition host_calls (l : list Effect) : list Effect := List.filter is_host_call l.

Section cancellation.
Context (o : Options).

Definition calls_nobody (s s' : State) : Prop := host_calls (log s') = host_calls (log s).

Lemma host_calls_quiet l new : Forall (fun e => quiet e = true) new -> host_calls (l ++ new) = host_calls l.
Proof.
  intros H. unfold host_calls. rewrite List.filter_app.
  assert (List.filter is_host_call new = []) as ->; [|by rewrite app_nil_r].
  induction H as [|e new He _ IH]; simpl; [done|]. by destruct e.
Qed.

Lemma settle_parked_calls i s : calls_nobody s (settle_parked_aborted o i s).
Proof.
  unfold calls_nobody, settle_parked_aborted. destruct (in_flight s !! i); [|done]. simpl.
  apply (host_calls_quiet _ (CancelMember i :: _)). constructor; [done|by apply on_row_quiet].
Qed.

Lemma finish_calls s : calls_nobody s (finish o s).
Proof.
  assert (Hd : forall P s, calls_nobody s (foldl (fun s state => drain_pending o state s) s P)).
  { intros P. induction P as [|state P IH]; simpl; intros s0; [done|].
    etrans; [apply IH|]. apply host_calls_quiet. destruct (bool_decide _); [by apply on_row_quiet|constructor]. }
  assert (Hk : forall Q s,
            calls_nobody s (foldl (fun s (member : nat * option Z) => settle_parked_aborted o (fst member) s) s Q)).
  { intros Q. induction Q as [|member Q IH]; simpl; intros s0; [done|]. etrans; [apply IH|apply settle_parked_calls]. }
  unfold finish. simpl. match goal with |- calls_nobody _ (set_phase _ (set_ready_queue _ ?s1)) => change (calls_nobody s s1) end.
  etrans; [apply Hk|apply Hd].
Qed.

Lemma next_turn_calls s s1 : calls_nobody s s1 -> calls_nobody s (next_turn o s1).
Proof. intros H. unfold next_turn. destruct (loop_done s1); [etrans; [apply finish_calls|done]|done]. Qed.

Lemma settle_attempt_calls i outcome ready_from now s : calls_nobody s (settle_attempt o i outcome ready_from now s).
Proof.
  unfold calls_nobody, settle_attempt. destruct (in_flight s !! i) as [state|]; [|done].
  destruct outcome; simpl; try (by apply host_calls_quiet, on_row_quiet).
  destruct (cancelled s); [by apply host_calls_quiet, on_row_quiet|].
  destruct (_ =? 0)%nat; [by apply host_calls_quiet, on_row_quiet|]. simpl. unfold host_calls.
  by rewrite List.filter_app, app_nil_r.
Qed.

Lemma keepalive_calls readings s : calls_nobody s (keepalive o readings s).
Proof.
  apply host_calls_quiet, Forall_forall. intros e He. apply list_elem_of_In, in_flat_map in He as ([i st] & _ & He).
  simpl in He. unfold sample_member in He.
  destruct (readings !! ts_index st), (last_seen_activity_ms st); try done.
  destruct (_ =? _); [done|]. apply list_elem_of_In, elem_of_app in He as [He|He].
  - revert e He. by apply Forall_forall, on_row_quiet.
  - by apply list_elem_of_singleton in He as ->.
Qed.

Lemma select_calls e s s' : select o e s = Some s' -> calls_nobody s s'.
Proof.
  intros E.
  destruct e as [t|j now|j completion ready_from now|j now|j notice now|j|j| |now|readings|now]; simpl in E; try done.
  - destruct (active s !! j) as [[budget [d|] expired']|]; [done| |done]. by injection E as <-.
  - destruct (active s !! j) as [[budget [d|] expired']|]; [|done..]. injection E as <-.
    apply next_turn_calls. etrans; [apply settle_attempt_calls|done].
  - destruct (active s !! j) as [[budget [[d|]|] []]|]; try done. destruct (_ <=? _); [|done].
    injection E as <-. by apply host_calls_quiet; repeat constructor.
  - destruct (active s !! j) as [[budget [d|] []]|]; try done.
    destruct notice as [cause'|]; [destruct (is_user_wait cause')|]; injection E as <-; [|done..].
    by apply next_turn_calls.
  - destruct (parked_waits s !! j); [|done]. injection E as <-. by apply next_turn_calls.
  - destruct (parked_waits s !! j); [|done]. injection E as <-. apply next_turn_calls.
    etrans; [apply settle_parked_calls|done].
  - destruct (cancelled s); [done|]. injection E as <-. by apply next_turn_calls.
  - injection E as <-. apply next_turn_calls, keepalive_calls.
Qed.

Lemma next_turn_keeps s1 : cancelled s1 = true -> cancelled (next_turn o s1) = true.
Proof. by destruct (next_turn_frame o s1) as (_ & -> & _). Qed.

Lemma select_keeps e s s' : select o e s = Some s' -> cancelled s = true -> cancelled s' = true.
Proof.
  intros E Hc.
  destruct e as [t|j now|j completion ready_from now|j now|j notice now|j|j| |now|readings|now]; simpl in E; try done.
  - destruct (active s !! j) as [[budget [d|] expired']|]; [done| |done]. by injection E as <-.
  - destruct (active s !! j) as [[budget [d|] expired']|]; [|done..]. injection E as <-.
    apply next_turn_keeps. by rewrite settle_attempt_cancelled.
  - destruct (active s !! j) as [[budget [[d|]|] []]|]; try done. destruct (_ <=? _); [|done]. by injection E as <-.
  - destruct (active s !! j) as [[budget [d|] []]|]; try done.
    destruct notice as [cause'|]; [destruct (is_user_wait cause')|]; injection E as <-; [|done..].
    by apply next_turn_keeps.
  - destruct (parked_waits s !! j); [|done]. injection E as <-. by apply next_turn_keeps.
  - destruct (parked_waits s !! j); [|done]. injection E as <-. apply next_turn_keeps.
    by rewrite settle_parked_cancelled.
  - by rewrite Hc in E.
  - injection E as <-. by apply next_turn_keeps.
Qed.

Lemma step_calls e s s' : step o e s = Some s' -> cancelled s = true -> calls_nobody s s' /\ cancelled s' = true.
Proof.
  intros E Hc. unfold step in E. destruct (phase s) as [| |wake|r]; [| | |done].
  - destruct e as [t| | | | | | | | | |]; try done. unfold launch_turn in E. rewrite Hc in E.
    injection E as <-. destruct (loop_done s); [|done]. split; [apply finish_calls|].
    by destruct (finish_frame o s) as (_ & -> & _).
  - destruct e; try done. by injection E as <-.
  - destruct wake as [w|], e; try done; try (split; [by eapply select_calls|by eapply select_keeps]).
    destruct (w <=? now); [|done]. injection E as <-. split; [by apply next_turn_calls|by apply next_turn_keeps].
Qed.
End cancellation.

(** Once the batch has noticed its cancellation it asks the host for nothing
    more, in whatever order the members in flight end. *)
Theorem cancelled_launches_nothing o s events s' :
  cancelled s = true -> drive o events s = Some s' ->
  host_calls (log s') = host_calls (log s) /\ cancelled s' = true.
Proof.
  intros Hc. revert s'. induction events as [|e events IH] using rev_ind; intros s' E.
  - by injection E as <-.
  - rewrite drive_app in E. destruct (drive o events s) as [s1|]; [|done]. simpl in E.
    destruct (IH s1 eq_refl) as [IH1 IH2]. destruct (step_calls _ _ _ _ E IH2) as [H1 H2].
    split; [by rewrite H1|done].
Qed.

(** ** Witnesses *)

Lemma sample_reachable events s :
  run_swarm_batch sample_options sample_tasks events = Some s -> reachable sample_options sample_tasks s.
Proof. apply run_reachable. Qed.

Lemma launches_paced_witness :
  let s := sample_run sample_events in
  length (requeues 0 (log s)) = 1%nat /\
  forall l1 i a c l l2, log s = l1 ++ Launched i a true c l :: l2 ->
     let n := Z.of_nat (length (requeues i l1)) in
     exists at_, last (requeues i l1) = Some (wrap_u32 n, at_) /\ at_ + backoff sample_options (wrap_u32 n) <= c.
Proof.
  split; [vm_compute; reflexivity|].
  apply (launches_paced sample_options sample_tasks (sample_run sample_events)).
  apply (sample_reachable sample_events). vm_compute. reflexivity.
Defined.

Lemma concurrency_bounded_witness :
  let s := sample_run (take 6 sample_wait) in
  size (active s) = 2%nat /\ (size (active s) <= 2)%nat.
Proof.
  split; [vm_compute; reflexivity|].
  apply (concurrency_bounded sample_options sample_tasks (sample_run (take 6 sample_wait))); [|reflexivity].
  apply (sample_reachable (take 6 sample_wait)). vm_compute. reflexivity.
Defined.

Lemma wake_is_set_witness :
  exists s2, run_swarm_batch sample_options sample_tasks (sample_wait ++ [launch_at 6 (handle "") ""; ComputeWake 6])
             = Some s2 /\
  exists w, phase s2 = Selecting (Some w) /\ 6 < w.
Proof.
  eexists. split; [vm_compute; reflexivity|].
  apply (wake_is_set sample_options sample_tasks (sample_run sample_wait) (mkLaunchEnv 6 (handle "") "" 6 6)
           (sample_run (sample_wait ++ [launch_at 6 (handle "") ""]))); try (vm_compute; reflexivity); [|done|by split].
  apply (sample_reachable sample_wait). vm_compute. reflexivity.
Defined.

Lemma cancelled_launches_nothing_witness :
  let s := sample_run (take 6 sample_wait ++ [BatchCancelled]) in
  let s' := default s (drive sample_options [launch_at 1 (handle "") ""; ComputeWake 1;
                                             AttemptEnds 0 (Err SubagentCancelled) 2 2] s) in
  host_calls (log s') = host_calls (log s) /\ cancelled s' = true.
Proof.
  intros s s'.
  apply (cancelled_launches_nothing sample_options s [launch_at 1 (handle "") ""; ComputeWake 1;
           AttemptEnds 0 (Err SubagentCancelled) 2 2]); vm_compute; reflexivity.
Defined.
