(* ===== verification/MessagePipeline.v ===== *)
(** * What a model may be shown: [mirri-core/src/message_pipeline.rs]

    The steps every request passes through after its projection: a video becomes
    its reference, and a part of a modality the model does not declare becomes a
    text. *)
From stdpp Require Import list strings.
From S2P Require Import Prelude RustStd Context.
#[local] Open Scope string_scope.
#[local] Open Scope list_scope.

(** [ModelCapability], in [llm.rs] *)
Record ModelCapability : Type := mkCapability {
  image_in : bool;
  video_in : bool;
  audio_in : bool;
  dynamically_loaded_tools : bool
}.

(** [ProjectionStep]: a step is its test of the projection and its work. *)
Record ProjectionStep : Type := mkStep {
  step_name : string;
  applies_to : string -> bool;
  process : list Message -> list Message
}.

(** [MessagePipeline::run] *)
Definition run_pipeline (steps : list ProjectionStep) (projection : string) (messages : list Message)
  : list Message :=
  foldl (fun current step => if applies_to step projection then process step current else current) messages steps.

Definition on_parts (f : ContentPart -> ContentPart) (messages : list Message) : list Message :=
  (fun m => set_content (f <$> content m) m) <$> messages.

Definition video_reference (part : ContentPart) : ContentPart :=
  match part with VideoUrl video_url => Text ("[video: " +:+ video_url +:+ "]") | other => other end.

Definition VideoReferenceResolver (supports_video : bool) : ProjectionStep :=
  mkStep "video_reference_resolver" (fun _ => negb supports_video)
    (fun messages => if supports_video then messages else on_parts video_reference messages).

Definition adapt_part (caps : ModelCapability) (part : ContentPart) : ContentPart :=
  let placeholder kind path := Text (build_media_placeholder (CapabilityGap kind path)) in
  match part with
  | ImageUrl image_url _ => if image_in caps then part else placeholder Image (image_id image_url)
  | VideoUrl _ => if video_in caps then part else placeholder Video None
  | AudioUrl _ => if audio_in caps then part else placeholder Audio None
  | _ => part
  end.

Definition MediaCapabilityAdapter (caps : ModelCapability) : ProjectionStep :=
  mkStep "media_capability_adapter" (fun _ => negb (image_in caps) || negb (video_in caps) || negb (audio_in caps))
    (on_parts (adapt_part caps)).

(** [media_pipeline], in [loop_engine/turn_step.rs] *)
Definition media_pipeline (caps : ModelCapability) : list ProjectionStep :=
  [VideoReferenceResolver (video_in caps); MediaCapabilityAdapter caps].

(** ** What is let through *)

(** A part of a modality the model declares, or of none *)
Definition supported (caps : ModelCapability) (part : ContentPart) : bool :=
  match part with
  | ImageUrl _ _ => image_in caps
  | VideoUrl _ => video_in caps
  | AudioUrl _ => audio_in caps
  | _ => true
  end.

Definition all_supported (caps : ModelCapability) (messages : list Message) : Prop :=
  Forall (fun m => Forall (fun part => supported caps part = true) (content m)) messages.

Definition adapted (caps : ModelCapability) (part : ContentPart) : ContentPart :=
  adapt_part caps (if video_in caps then part else video_reference part).

Lemma on_parts_compose f g messages : on_parts f (on_parts g messages) = on_parts (fun p => f (g p)) messages.
Proof.
  unfold on_parts. rewrite <- list_fmap_compose. apply list_fmap_ext. intros i m _. simpl.
  unfold set_content. simpl. f_equal. by rewrite <- list_fmap_compose.
Qed.

Lemma on_parts_ext f g messages : (forall p, f p = g p) -> on_parts f messages = on_parts g messages.
Proof.
  intros H. unfold on_parts. apply list_fmap_ext. intros i m _. unfold set_content. f_equal. by apply list_fmap_ext.
Qed.

Lemma on_parts_id f messages : (forall p, f p = p) -> on_parts f messages = messages.
Proof.
  intros H. unfold on_parts. rewrite <- (list_fmap_id messages) at 2. apply list_fmap_ext. intros i [] _.
  unfold set_content. simpl. f_equal. rewrite <- (list_fmap_id content) at 2. by apply list_fmap_ext.
Qed.

Lemma adapt_part_all caps p :
  image_in caps = true -> video_in caps = true -> audio_in caps = true -> adapt_part caps p = p.
Proof. intros H1 H2 H3. destruct p; simpl; by rewrite ?H1, ?H2, ?H3. Qed.

(** The pipeline rewrites each part on its own, whatever the projection. *)
Lemma media_pipeline_parts caps label messages :
  run_pipeline (media_pipeline caps) label messages = on_parts (adapted caps) messages.
Proof.
  unfold run_pipeline, media_pipeline, adapted. simpl.
  assert (Hv : (if negb (video_in caps)
                then (if video_in caps then messages else on_parts video_reference messages) else messages)
               = on_parts (fun p => if video_in caps then p else video_reference p) messages).
  { destruct (video_in caps); [by rewrite on_parts_id|done]. }
  rewrite Hv. destruct (negb (image_in caps) || negb (video_in caps) || negb (audio_in caps)) eqn:E;
    [by rewrite on_parts_compose|].
  apply orb_false_iff in E as [[Ei Ev]%orb_false_iff Ea]. apply negb_false_iff in Ei, Ev, Ea.
  apply on_parts_ext. intros p. by rewrite adapt_part_all.
Qed.

Lemma pipeline_supported caps label messages :
  all_supported caps (run_pipeline (media_pipeline caps) label messages).
Proof.
  rewrite media_pipeline_parts. unfold all_supported, on_parts. rewrite Forall_fmap. apply Forall_true. intros m. simpl.
  rewrite Forall_fmap. apply Forall_true. intros p. unfold adapted. destruct p; simpl; repeat (case_match; simpl); congruence.
Qed.

(** Whatever a request holds, what goes out shows the model nothing of a modality
    it does not declare, and leaves a message it can read as it is. *)
Theorem pipeline_only_supported caps label messages :
  all_supported caps (run_pipeline (media_pipeline caps) label messages) /\
  (all_supported caps messages -> run_pipeline (media_pipeline caps) label messages = messages).
Proof.
  split; [apply pipeline_supported|]. intros H. rewrite media_pipeline_parts.
  unfold on_parts. rewrite <- (list_fmap_id messages) at 2. apply list_fmap_ext. intros i m Hm. simpl.
  assert (Hp : adapted caps <$> content m = content m).
  { rewrite <- (list_fmap_id (content m)) at 2. apply list_fmap_ext. intros j p Hp.
      eapply Forall_lookup_1 in Hm; [|exact H]. eapply Forall_lookup_1 in Hp; [|exact Hm].
      unfold adapted. destruct p; simpl in *; by repeat (case_match; simpl). }
  rewrite Hp. by destruct m.
Qed.

(** A picture is replaced for a model that reads text only, and a text is not. *)
Lemma pipeline_only_supported_witness :
  let caps := mkCapability false false false false in
  let picture := mkMessage UserRole None [Text "see"; ImageUrl (mkImageUrl "data:," None None) None] [] None false in
  let question := mkMessage UserRole None [Text "see"] [] None false in
  all_supported caps (run_pipeline (media_pipeline caps) "normal" [picture]) /\
  run_pipeline (media_pipeline caps) "normal" [question] = [question].
Proof.
  cbv zeta. split.
  - apply (pipeline_only_supported (mkCapability false false false false) "normal").
  - apply (pipeline_only_supported (mkCapability false false false false) "normal").
    repeat constructor.
Defined.
