(* ===== verification/Provider.v ===== *)
(** * Provider failures: [mirri-core/src/llm.rs], [loop_engine/retry.rs] and
      [loop_engine/shared.rs]

    What an error message of a provider says (status, type, kind of failure), the
    engine error it becomes, and how long a retry waits. *)
From stdpp Require Import list strings.
From S2P Require Import Prelude RustStd F64 EngineError.
#[local] Open Scope string_scope.
#[local] Open Scope list_scope.
#[local] Open Scope Z_scope.

(** ** Searching a text *)

(** What follows the first occurrence of [pat] *)
Fixpoint after_first (pat s : string) : option string :=
  match strip_prefix pat s with
  | Some rest => Some rest
  | None => match s with EmptyString => None | String _ s => after_first pat s end
  end.

(** What follows the last occurrence *)
Fixpoint after_last (pat s : string) : option string :=
  match s with
  | EmptyString => strip_prefix pat s
  | String _ s' => match after_last pat s' with Some rest => Some rest | None => strip_prefix pat s end
  end.

(** [str::find]: the byte position of the first occurrence *)
Fixpoint find_at (pat s : string) : option nat :=
  if String.prefix pat s then Some O
  else match s with EmptyString => None | String _ s => S <$> find_at pat s end.

(** What comes before the first of the characters [stops], if there is one *)
Fixpoint until (stops : list ascii) (s : string) : option string :=
  match s with
  | EmptyString => None
  | String c s => if bool_decide (c ∈ stops) then Some "" else String c <$> until stops s
  end.

Definition is_digit (c : ascii) : bool := bool_decide (is_Some (digit_of c)).

Definition any_pattern (patterns : list string) (s : string) : bool :=
  existsb (fun pattern => str_contains pattern s) patterns.

(** ** [ProviderErrorInfo] *)

(** A scan for [" error "] and three digits; [fuel] bounds the restarts, each of
    which shortens the text. *)
Fixpoint status_scan (fuel : nat) (rest : string) : option Z :=
  match fuel with
  | O => None
  | S fuel =>
    after ← after_first " error " rest;
    match after with
    | String a (String b (String c more)) =>
      if is_digit a && is_digit b && is_digit c
         && match more with String d _ => negb (is_digit d) | EmptyString => true end
      then digits (String a (String b (String c "")))
      else status_scan fuel after
    | _ => status_scan fuel after
    end
  end.
Definition parse_status_code_from_message (message : string) : option Z :=
  status_scan (S (String.length message)) message.

Definition parse_error_type_from_message (message : string) : option string :=
  after ← after_last "[type: " message;
  value ← until ["]"%char; ","%char] after;
  if bool_decide (value = "") then None else Some value.

Record ProviderErrorInfo : Type := mkProviderError {
  status_code : option Z;
  error_message : string;
  error_type : option string
}.

Definition from_message (message : string) : ProviderErrorInfo :=
  mkProviderError (parse_status_code_from_message message) message (parse_error_type_from_message message).

Definition QUOTA_MESSAGE_PATTERNS : list string :=
  ["exceeded your current quota"; "exceeded your current token quota"; "check your account balance";
   "insufficient balance"; "recharge your account"; "please recharge"; "account in arrears";
   "account is in arrears"].
Definition RATE_LIMIT_PATTERNS : list string :=
  ["too many requests"; "rate limit"; "rate_limit"; "rate-limited"; "max rpm"].
Definition AUTH_PATTERNS : list string :=
  ["unauthorized"; "forbidden"; "invalid api key"; "invalid_api_key"; "authentication failed";
   "authentication error"].
Definition CONNECTION_PATTERNS : list string :=
  ["error sending request"; "error reading sse stream"; "network"; "connect"; "disconnect"; "terminated";
   "timed out"; "timeout"; "deadline"].

Section provider.
(** [str::to_lowercase] *)
Context (to_lowercase : string -> string).

Definition has_status (code : Z) (info : ProviderErrorInfo) : bool := bool_decide (status_code info = Some code).

Definition is_429 (info : ProviderErrorInfo) : bool :=
  has_status 429 info || str_contains "429" (error_message info).

Definition is_quota_exhausted (info : ProviderErrorInfo) : bool :=
  if bool_decide (error_type info = Some "exceeded_current_quota_error") then true
  else is_429 info && any_pattern QUOTA_MESSAGE_PATTERNS (to_lowercase (error_message info)).

Definition is_rate_limited (info : ProviderErrorInfo) : bool :=
  is_429 info || any_pattern RATE_LIMIT_PATTERNS (to_lowercase (error_message info)).

Definition is_auth_failure (info : ProviderErrorInfo) : bool :=
  has_status 401 info || has_status 403 info || any_pattern AUTH_PATTERNS (to_lowercase (error_message info)).

Definition is_connection_failure (info : ProviderErrorInfo) : bool :=
  any_pattern CONNECTION_PATTERNS (to_lowercase (error_message info)).

Definition is_server_error (info : ProviderErrorInfo) : bool :=
  match status_code info with Some code => (500 <=? code) && (code <=? 599) | None => false end.

Definition is_transient_provider_error (info : ProviderErrorInfo) : bool :=
  if is_quota_exhausted info then false
  else is_connection_failure info || is_rate_limited info || has_status 429 info || is_server_error info.

Definition provider_domain_code (info : ProviderErrorInfo) : string :=
  if is_quota_exhausted info then "provider.quota_exhausted"
  else if is_rate_limited info then "provider.rate_limit"
  else if is_auth_failure info then "provider.auth_error"
  else if is_connection_failure info then "provider.connection_error"
  else "provider.api_error".

(** ** [read_retry_after_ms] *)

(** [n / d] in binary64: enough bits of the quotient and a last one for the rest *)
Definition f64_quot (n d : Z) : f64 :=
  let s := Z.max 0 (64 + Z.log2 d - Z.log2 n) in
  let q := n * 2 ^ s / d in
  let sticky := if n * 2 ^ s mod d =? 0 then 0 else 1 in
  f64_round (2 * q + sticky) (- (s + 1)).

(** [str::parse::<f64>] of digits and dots *)
Definition parse_f64 (s : string) : option f64 :=
  match split_once "."%char s with
  | None => f64_of_Z <$> digits s
  | Some (a, b) =>
    if bool_decide (a +:+ b = "") then None
    else n ← digits_go 0 (a +:+ b); Some (f64_quot n (10 ^ Z.of_nat (String.length b)))
  end.

(** [x as u64] of what is not negative *)
Definition as_u64_sat (x : f64) : Z := Z.min (f64_floor x) u64_max.

Fixpoint leading_number (s : string) : string :=
  match s with
  | String c s => if is_digit c || bool_decide (c = "."%char) then String c (leading_number s) else ""
  | EmptyString => ""
  end.

(** A byte that starts a character *)
Definition starts_char (c : ascii) : bool := negb ((128 <=? byte_of c) && (byte_of c <? 192)).

(** [&s[pos..]]: [None] where that panics *)
Fixpoint slice_from (pos : nat) (s : string) : option string :=
  match pos, s with
  | O, String c _ => if starts_char c then Some s else None
  | O, EmptyString => Some s
  | S pos, String _ s => slice_from pos s
  | S _, EmptyString => None
  end.

Definition RETRY_AFTER_PREFIXES : list string :=
  ["retry-after: "; "retry_after: "; "retry-after="; "retry_after="].

(** The position is found in the lowered text and used in the text itself: [Err]
    where that panics. *)
Fixpoint retry_after_loop (prefixes : list string) (lower error_message : string) : result unit (option Z) :=
  match prefixes with
  | [] => Ok None
  | prefix :: prefixes =>
    match find_at prefix lower with
    | None => retry_after_loop prefixes lower error_message
    | Some pos =>
      match slice_from (pos + String.length prefix) error_message with
      | None => Err tt
      | Some after =>
        match parse_f64 (leading_number after) with
        | Some seconds => Ok (Some (as_u64_sat (f64_mul seconds (f64_of_Z 1000))))
        | None => retry_after_loop prefixes lower error_message
        end
      end
    end
  end.
Definition read_retry_after_ms (error_message : string) : result unit (option Z) :=
  retry_after_loop RETRY_AFTER_PREFIXES (to_lowercase error_message) error_message.

(** ** The error that is kept, and the one that surfaces *)

Definition classify_provider_error (error : EngineError) : result unit EngineError :=
  match error with
  | ProviderError message =>
    if is_quota_exhausted (from_message message) then
      match read_retry_after_ms message with
      | Ok retry_after_ms => Ok (ProviderQuotaExhausted message retry_after_ms)
      | Err e => Err e
      end
    else Ok error
  | _ => Ok error
  end.

Definition classify_surface_error (provider_id : option string) (error : EngineError) : EngineError :=
  match error with
  | ProviderError message =>
    let code := provider_domain_code (from_message message) in
    if String.eqb code "provider.rate_limit" then ProviderRateLimit message
    else if String.eqb code "provider.auth_error" then ProviderAuthError message provider_id
    else if String.eqb code "provider.connection_error" then ProviderConnectionError message
    else error
  | _ => error
  end.

(** ** Waiting *)

Definition BASE_DELAY_MS : Z := 500.
Definition MAX_DELAY_MS : Z := 32000.
Definition RETRY_FACTOR : Z := 2.
(** A quarter *)
Definition JITTER_FACTOR : f64 := mkF64 1 (-2).

Definition backoff_base (attempt : Z) : Z :=
  let exponent := Z.max (attempt - 1) 0 in
  Z.min (Z.min (BASE_DELAY_MS * Z.min (RETRY_FACTOR ^ exponent) u64_max) u64_max) MAX_DELAY_MS.

Definition backoff_delay (attempt : Z) (jitter : f64) : Z :=
  let base := backoff_base attempt in
  let jitter_amount := as_u64_sat (f64_mul (f64_mul jitter JITTER_FACTOR) (f64_of_Z base)) in
  base + jitter_amount.

(** [random_jitter], from the nanoseconds of the clock *)
Definition random_jitter (nanos : Z) : f64 := f64_quot nanos 1000000000.

(** The hint [compute_retry_delay] prefers to a backoff *)
Definition retry_after_hint (error : EngineError) : result unit (option Z) :=
  match error with ProviderError msg => read_retry_after_ms msg | _ => Ok None end.
End provider.

(** ** Bounds *)

Lemma quot_mantissa n d :
  0 <= n -> 0 < d ->
  let s := Z.max 0 (64 + Z.log2 d - Z.log2 n) in
  exists m q k, f64_quot n d = mkF64 q (- (s + 1) + k) /\ 0 <= s /\ 0 <= m /\ 0 <= k /\ 0 <= q /\
    q * 2 ^ k * 2 ^ 53 <= m * (2 ^ 53 + 1) /\ m * d <= n * 2 ^ (s + 1) + d.
Proof.
  intros Hn Hd s. unfold f64_quot. fold s.
  assert (Hs : 0 <= s) by lia. assert (Hp2 : 0 < 2 ^ s) by (apply Z.pow_pos_nonneg; lia).
  pose proof (Z.div_mod (n * 2 ^ s) d ltac:(lia)) as Hdm.
  pose proof (Z.mod_pos_bound (n * 2 ^ s) d Hd) as Hr.
  assert (Hp : 0 <= n * 2 ^ s / d) by (apply Z.div_pos; nia).
  set (p := n * 2 ^ s / d) in *. set (r := n * 2 ^ s mod d) in *.
  set (m := 2 * p + (if r =? 0 then 0 else 1)).
  assert (Hm : 0 <= m) by (unfold m; destruct (r =? 0); lia).
  destruct (f64_round_nonneg m (- (s + 1)) Hm) as (q & k & E & Hk & Hq & Hle & _).
  exists m, q, k. split_and!; [done..|]. rewrite Z.pow_add_r by lia. unfold m. destruct (r =? 0); nia.
Qed.

Lemma jitter_amount_le nanos base :
  0 <= nanos < 1000000000 -> 0 <= base < 2 ^ 53 ->
  0 <= f64_floor (f64_mul (f64_mul (random_jitter nanos) JITTER_FACTOR) (f64_of_Z base)) <= base / 4.
Proof.
  intros Hn Hb. unfold random_jitter.
  destruct (quot_mantissa nanos 1000000000) as (m & q1 & k1 & E1 & Hs & Hm & Hk1 & Hq1 & B1 & Bm); [lia..|].
  assert (Hs64 : 64 <= Z.max 0 (64 + Z.log2 1000000000 - Z.log2 nanos)).
  { assert (Z.log2 nanos <= Z.log2 1000000000) by (apply Z.log2_le_mono; lia). lia. }
  set (s := Z.max _ _) in *.
  destruct (f64_round_nonneg (q1 * 1) (- (s + 1) + k1 + -2)) as (q2 & k2 & E2 & Hk2 & Hq2 & B2 & _); [lia|].
  destruct (f64_round_nonneg (q2 * base) (- (s + 1) + k1 + -2 + k2 + 0)) as (q3 & k3 & E3 & Hk3 & Hq3 & B3 & _);
    [nia|].
  assert (E : f64_mul (f64_mul (f64_quot nanos 1000000000) JITTER_FACTOR) (f64_of_Z base)
              = mkF64 q3 (- (s + 1) + k1 + -2 + k2 + 0 + k3)).
  { rewrite E1, f64_of_Z_small by lia. unfold f64_mul, JITTER_FACTOR. cbn [mant expo]. rewrite E2.
    cbn [mant expo]. exact E3. }
  rewrite E. split; [by apply f64_floor_nonneg|].
  apply Z.div_le_lower_bound; [lia|]. apply (f64_floor_le _ (s + 3)); simpl; [lia|lia|lia|].
  replace (s + 3 + (- (s + 1) + k1 + -2 + k2 + 0 + k3)) with (k1 + k2 + k3) by lia.
  replace (s + 3) with (s + 1 + 2) by lia.
  rewrite !Z.pow_add_r by lia. replace (2 ^ s * 2 ^ 1) with (2 ^ (s + 1)) in * by (rewrite Z.pow_add_r; lia).
  assert (HT : 2 ^ 65 <= 2 ^ (s + 1)) by (apply Z.pow_le_mono_r; lia).
  assert (H1 : 0 < 2 ^ k1) by (apply Z.pow_pos_nonneg; lia).
  assert (H2 : 0 < 2 ^ k2) by (apply Z.pow_pos_nonneg; lia).
  assert (H3 : 0 < 2 ^ k3) by (apply Z.pow_pos_nonneg; lia).
  clear E E1 E2 E3. set (T := 2 ^ (s + 1)) in *. clearbody s T.
  set (x1 := 2 ^ k1) in *. set (x2 := 2 ^ k2) in *. set (x3 := 2 ^ k3) in *. clearbody x1 x2 x3.
  assert (C2 : q2 * (x1 * x2) * 2 ^ 106 <= m * (2 ^ 53 + 1) ^ 2).
  { pose proof (Z.mul_le_mono_nonneg_r _ _ (x1 * 2 ^ 53) ltac:(lia) B2).
    pose proof (Z.mul_le_mono_nonneg_r _ _ (2 ^ 53 + 1) ltac:(lia) B1). lia. }
  assert (C3 : q3 * (x1 * x2 * x3) * 2 ^ 159 <= m * base * (2 ^ 53 + 1) ^ 3).
  { pose proof (Z.mul_le_mono_nonneg_r _ _ (x1 * x2 * 2 ^ 106) ltac:(lia) B3).
    pose proof (Z.mul_le_mono_nonneg_r _ _ (base * (2 ^ 53 + 1)) ltac:(lia) C2). lia. }
  assert (C4 : m * (2 ^ 53 + 1) ^ 3 <= T * 2 ^ 159) by nia.
  pose proof (Z.mul_le_mono_nonneg_r _ _ base ltac:(lia) C4). lia.
Qed.

Lemma backoff_base_range attempt : BASE_DELAY_MS <= backoff_base attempt <= MAX_DELAY_MS.
Proof.
  unfold backoff_base, BASE_DELAY_MS, MAX_DELAY_MS, RETRY_FACTOR, u64_max.
  assert (0 < 2 ^ Z.max (attempt - 1) 0) by (apply Z.pow_pos_nonneg; lia). lia.
Qed.

Lemma backoff_base_doubles attempt :
  1 <= attempt <= 64 -> backoff_base attempt = Z.min (500 * 2 ^ (attempt - 1)) 32000.
Proof.
  intros Ha. unfold backoff_base, BASE_DELAY_MS, MAX_DELAY_MS, RETRY_FACTOR, u64_max.
  rewrite Z.max_l by lia. assert (2 ^ (attempt - 1) <= 2 ^ 63) by (apply Z.pow_le_mono_r; lia). lia.
Qed.

(** A retry without a hint of the provider waits the doubled delay, capped at 32
    seconds, and at most a quarter more. *)
Theorem backoff_bounds attempt nanos :
  1 <= attempt <= 64 -> 0 <= nanos < 1000000000 ->
  let base := Z.min (500 * 2 ^ (attempt - 1)) 32000 in
  base <= backoff_delay attempt (random_jitter nanos) <= base + base / 4.
Proof.
  intros Ha Hn base. unfold backoff_delay. rewrite backoff_base_doubles by done. fold base.
  pose proof (backoff_base_range attempt) as Hr. rewrite backoff_base_doubles in Hr by done. fold base in Hr.
  unfold BASE_DELAY_MS, MAX_DELAY_MS in Hr.
  destruct (jitter_amount_le nanos base Hn) as [H1 H2]; [lia|].
  unfold as_u64_sat. assert (base / 4 <= 32000) by (apply Z.div_le_upper_bound; lia). unfold u64_max. lia.
Qed.

Lemma backoff_bounds_witness :
  500 <= backoff_delay 1 (random_jitter 999999999) <= 625 /\ backoff_delay 1 (random_jitter 999999999) = 624.
Proof. split; [apply (backoff_bounds 1 999999999); lia|vm_compute; reflexivity]. Defined.

(** ** Classification *)

(** A quota that is used up is never retried, whatever else the message says. *)
Lemma quota_not_transient to_lowercase info :
  is_quota_exhausted to_lowercase info = true -> is_transient_provider_error to_lowercase info = false.
Proof. unfold is_transient_provider_error. by intros ->. Qed.

(** A failed authentication is retried when its message mentions a connection. *)
Example auth_failure_retried :
  let info := from_message "Anthropic API error 401 Unauthorized: connection rejected" in
  is_auth_failure to_ascii_lowercase info = true /\
  is_transient_provider_error to_ascii_lowercase info = true /\
  provider_domain_code to_ascii_lowercase info = "provider.auth_error".
Proof. vm_compute. done. Qed.

(** A capital I with a dot (two bytes) is lowered to three bytes: the position
    found is beyond the text. *)
Example retry_after_panics to_lowercase :
  let i_dot := String (ascii_of_nat 196) (String (ascii_of_nat 176) "") in
  let i_low := String "i" (String (ascii_of_nat 204) (String (ascii_of_nat 135) "")) in
  let message := i_dot +:+ i_dot +:+ i_dot +:+ " retry-after: 5" in
  to_lowercase message = i_low +:+ i_low +:+ i_low +:+ " retry-after: 5" ->
  read_retry_after_ms to_lowercase message = Err tt.
Proof. cbv zeta. unfold read_retry_after_ms. intros ->. vm_compute. reflexivity. Qed.

Example retry_after_read :
  read_retry_after_ms to_ascii_lowercase "Rate limited (Retry-After: 1.5)" = Ok (Some 1500) /\
  read_retry_after_ms to_ascii_lowercase "retry_after=20s" = Ok (Some 20000) /\
  read_retry_after_ms to_ascii_lowercase "overloaded" = Ok None.
Proof. vm_compute. done. Qed.

Example status_read :
  status_code (from_message "OpenAI API error 429 Too Many Requests: {} [type: rate_limit_error, code: x]") = Some 429 /\
  error_type (from_message "OpenAI API error 429 Too Many Requests: {} [type: rate_limit_error, code: x]")
    = Some "rate_limit_error" /\
  status_code (from_message "an error 1234 and error 503") = Some 503.
Proof. vm_compute. done. Qed.
