(* ===== verification/LlmStream.v ===== *)
(** * The stream of a model's answer: [loop_engine/shared.rs] and the types of
      [mirri-core/src/llm.rs]

    The events of a stream are folded into the collected texts, calls, usage and
    stop reason; the incremental ones only go to the live callback. *)
From stdpp Require Import list strings.
From S2P Require Import Prelude RustStd Json EngineError.
#[local] Open Scope string_scope.
#[local] Open Scope list_scope.
#[local] Open Scope Z_scope.

(** [LlmUsage] *)
Record LlmUsage : Type := mkUsage {
  input_tokens : Z;
  output_tokens : Z;
  cache_read_tokens : Z;
  cache_creation_tokens : Z
}.
#[export] Instance LlmUsage_eq_dec : EqDecision LlmUsage. Proof. solve_decision. Defined.
Definition no_usage : LlmUsage := mkUsage 0 0 0 0.

(** [LlmToolCall] *)
Record LlmToolCall : Type := mkLlmCall { lc_id : string; lc_name : string; lc_args : json }.

Inductive StopReason : Type := EndTurn | MaxTokens | ToolUse | Filtered | Paused | Unknown.
#[export] Instance StopReason_eq_dec : EqDecision StopReason. Proof. solve_decision. Defined.

Module LlmEvent.
Inductive t : Type :=
| TextDelta (text : string)
| ThinkDelta (text : string)
| ToolCallPart (index : Z) (arguments_part : string) (call_id tool_name : option string)
| ToolCall (tool : string) (args : json) (call_id : string)
| TextPart (text : string)
| ThinkPart (text : string)
| Usage (input_tokens output_tokens cache_read_tokens cache_creation_tokens : Z)
| Done (stop_reason : string)
| Error (message : string).
End LlmEvent.

Record CollectedStream : Type := mkCollected {
  text_parts : list string;
  think_parts : list string;
  tool_calls : list LlmToolCall;
  usage : LlmUsage;
  raw_stop_reason : option string;
  stream_error : option string
}.
Definition nothing_collected : CollectedStream := mkCollected [] [] [] no_usage None None.

(** A value that was reported wins over the one before. *)
Definition reported (new old : Z) : Z := if 0 <? new then new else old.
Definition merge_usage (i o r c : Z) (u : LlmUsage) : LlmUsage :=
  mkUsage (reported i (input_tokens u)) (reported o (output_tokens u)) (reported r (cache_read_tokens u))
    (reported c (cache_creation_tokens u)).

Definition collect_llm_event (s : CollectedStream) (event : LlmEvent.t) : CollectedStream :=
  let '(mkCollected texts thinks calls u raw err) := s in
  match event with
  | LlmEvent.TextDelta _ | LlmEvent.ThinkDelta _ | LlmEvent.ToolCallPart _ _ _ _ => s
  | LlmEvent.TextPart text => mkCollected (texts ++ [text]) thinks calls u raw err
  | LlmEvent.ThinkPart text => mkCollected texts (thinks ++ [text]) calls u raw err
  | LlmEvent.ToolCall tool args call_id => mkCollected texts thinks (calls ++ [mkLlmCall call_id tool args]) u raw err
  | LlmEvent.Usage i o r c => mkCollected texts thinks calls (merge_usage i o r c u) raw err
  | LlmEvent.Done stop_reason => mkCollected texts thinks calls u (Some stop_reason) err
  | LlmEvent.Error message => mkCollected texts thinks calls u raw (Some message)
  end.

(** [collect_stream_events] of a stream that ended *)
Definition collect_stream_events (events : list LlmEvent.t) : CollectedStream :=
  foldl collect_llm_event nothing_collected events.

Definition normalize_stop_reason (raw : string) (has_tool_calls : bool) : StopReason :=
  if String.eqb raw "truncated" then MaxTokens
  else if String.eqb raw "filtered" then Filtered
  else if String.eqb raw "paused" then Paused
  else if String.eqb raw "other" then Unknown
  else if String.eqb raw "completed" || String.eqb raw "" then if has_tool_calls then ToolUse else EndTurn
  else if String.eqb raw "tool_calls" then if has_tool_calls then ToolUse else Unknown
  else Unknown.

Definition derived_stop_reason (s : CollectedStream) : StopReason :=
  let has_tool_calls := negb (bool_decide (length (tool_calls s) = 0%nat)) in
  match raw_stop_reason s with
  | Some raw => normalize_stop_reason raw has_tool_calls
  | None => if has_tool_calls then ToolUse else EndTurn
  end.

(** [LlmChatResponse] and [ChatResult] *)
Record LlmChatResponse : Type := mkResponse {
  stop_reason : StopReason;
  text : string;
  r_tool_calls : list LlmToolCall;
  r_usage : LlmUsage
}.
Record ChatResult : Type := mkChatResult {
  response : LlmChatResponse;
  think_text : string;
  interrupted : bool
}.

(** [consume_stream]; [cancelled] is what the token says once the stream ended. *)
Definition consume_stream (events : list LlmEvent.t) (cancelled : bool) : result EngineError ChatResult :=
  let collected := collect_stream_events events in
  match stream_error collected with
  | Some msg =>
    if cancelled then Err (EngineAborted ("cancelled during llm stream: " +:+ msg)) else Err (ProviderError msg)
  | None =>
    let interrupted := cancelled && bool_decide (raw_stop_reason collected = None) in
    Ok (mkChatResult
          (mkResponse (derived_stop_reason collected) (String.concat "" (text_parts collected))
             (tool_calls collected) (usage collected))
          (String.concat "" (think_parts collected)) interrupted)
  end.

(** ** What is collected *)

Definition texts_of (events : list LlmEvent.t) : list string :=
  omap (fun e => match e with LlmEvent.TextPart t => Some t | _ => None end) events.
Definition thinks_of (events : list LlmEvent.t) : list string :=
  omap (fun e => match e with LlmEvent.ThinkPart t => Some t | _ => None end) events.
Definition calls_of (events : list LlmEvent.t) : list LlmToolCall :=
  omap (fun e => match e with LlmEvent.ToolCall t a i => Some (mkLlmCall i t a) | _ => None end) events.
Definition dones_of (events : list LlmEvent.t) : list string :=
  omap (fun e => match e with LlmEvent.Done r => Some r | _ => None end) events.
Definition errors_of (events : list LlmEvent.t) : list string :=
  omap (fun e => match e with LlmEvent.Error m => Some m | _ => None end) events.
(** The values reported for one field of the usage *)
Definition reports_of (field : LlmUsage -> Z) (events : list LlmEvent.t) : list Z :=
  omap (fun e => match e with
                 | LlmEvent.Usage i o r c => if 0 <? field (mkUsage i o r c) then Some (field (mkUsage i o r c)) else None
                 | _ => None end) events.

Lemma collect_snoc events e :
  collect_stream_events (events ++ [e]) = collect_llm_event (collect_stream_events events) e.
Proof. unfold collect_stream_events. by rewrite foldl_app. Qed.

Lemma last_snoc_or {A} (l : list A) (x : option A) :
  last (l ++ match x with Some y => [y] | None => [] end) = match x with Some y => Some y | None => last l end.
Proof. destruct x; [by rewrite last_snoc|by rewrite app_nil_r]. Qed.

(** C37. The collected stream is what its events say: the parts and the calls in their
    order, the last stop reason and error, and for each field of the usage the last
    value that was not zero. *)
Theorem collected_spec events :
  let s := collect_stream_events events in
  text_parts s = texts_of events /\ think_parts s = thinks_of events /\ tool_calls s = calls_of events /\
  raw_stop_reason s = last (dones_of events) /\ stream_error s = last (errors_of events) /\
  input_tokens (usage s) = default 0 (last (reports_of input_tokens events)) /\
  output_tokens (usage s) = default 0 (last (reports_of output_tokens events)) /\
  cache_read_tokens (usage s) = default 0 (last (reports_of cache_read_tokens events)) /\
  cache_creation_tokens (usage s) = default 0 (last (reports_of cache_creation_tokens events)).
Proof.
  cbv zeta. induction events as [|e events IH] using rev_ind; [done|].
  rewrite collect_snoc. destruct (collect_stream_events events) as [texts thinks calls [i o r c] raw err].
  simpl in IH. destruct IH as (E1 & E2 & E3 & E4 & E5 & E6 & E7 & E8 & E9).
  unfold texts_of, thinks_of, calls_of, dones_of, errors_of, reports_of in *.
  rewrite !omap_app.
  destruct e; simpl; rewrite ?app_nil_r, ?last_snoc; split_and!; first [assumption | congruence | idtac].
  all: unfold reported; case_match; rewrite ?app_nil_r, ?last_snoc; first [assumption | done].
Qed.
