(* ===== verification/StepRetry.v ===== *)
(** * Step-level retries: [loop_engine/step_retry.rs]

    The counters of failed steps and drivers, and the decision to run a failed
    step again. *)
From stdpp Require Import gmap list strings.
From S2P Require Import Prelude RustStd EngineError.
#[local] Open Scope string_scope.
#[local] Open Scope list_scope.
#[local] Open Scope Z_scope.

Record StepRetryConfig : Type := mkRetryConfig {
  max_retries_per_step : Z;
  max_retries_per_driver : Z;
  retryable_error_patterns : list string
}.
Definition default_retry_config : StepRetryConfig :=
  mkRetryConfig 2 3 ["timeout"; "connection reset"; "503"; "429"; "rate limit"].

Inductive StepRetryDecision : Type := Retry (attempt max_retries : Z) | GiveUp.
#[export] Instance StepRetryDecision_eq_dec : EqDecision StepRetryDecision. Proof. solve_decision. Defined.

Record StepRetryState : Type := mkRetryState {
  step_attempts : gmap Z Z;
  last_failed_driver_id : option string;
  driver_attempts : gmap string Z
}.
Definition new_retry_state : StepRetryState := mkRetryState ∅ None ∅.

Definition sat_add_u32 (a b : Z) : Z := Z.min (a + b) u32_max.

Definition step_attempt_count (step : Z) (s : StepRetryState) : Z := default 0 (step_attempts s !! step).
Definition driver_attempt_count (driver_id : string) (s : StepRetryState) : Z :=
  default 0 (driver_attempts s !! driver_id).

Definition record_failure (step : Z) (driver_id : string) (max_per_step max_per_driver : Z) (s : StepRetryState)
  : StepRetryState * bool :=
  let step_count := sat_add_u32 (step_attempt_count step s) 1 in
  let driver_count := sat_add_u32 (driver_attempt_count driver_id s) 1 in
  (mkRetryState (<[step := step_count]> (step_attempts s)) (Some driver_id)
     (<[driver_id := driver_count]> (driver_attempts s)),
   negb ((max_per_step <? step_count) || (max_per_driver <? driver_count))).

Definition record_success (step : Z) (driver_id : string) (s : StepRetryState) : StepRetryState :=
  mkRetryState (delete step (step_attempts s))
    (if bool_decide (last_failed_driver_id s = Some driver_id) then None else last_failed_driver_id s)
    (delete driver_id (driver_attempts s)).

Definition reset_for_turn (_ : StepRetryState) : StepRetryState := new_retry_state.
Definition reset_for_step (step : Z) (s : StepRetryState) : StepRetryState :=
  mkRetryState (delete step (step_attempts s)) (last_failed_driver_id s) (driver_attempts s).

Section service.
(** [str::to_lowercase] *)
Context (to_lowercase : string -> string).

Definition is_retryable_error (error : EngineError) (patterns : list string) : bool :=
  let message := to_lowercase (error_text error) in
  existsb (fun pattern => str_contains (to_lowercase pattern) message) patterns.

Definition may_retry (config : StepRetryConfig) (error : EngineError) : bool :=
  match error with
  | ProviderQuotaExhausted _ _ => false
  | EmptyLlmResponse => true
  | _ => is_retryable_error error (retryable_error_patterns config)
  end.

(** [StepRetryService::should_retry] *)
Definition should_retry (config : StepRetryConfig) (step : Z) (driver_id : string) (error : EngineError)
    (s : StepRetryState) : StepRetryState * option StepRetryDecision :=
  if negb (may_retry config error) then (s, None)
  else if max_retries_per_step config <=? step_attempt_count step s then (s, Some GiveUp)
  else if max_retries_per_driver config <=? driver_attempt_count driver_id s then (s, Some GiveUp)
  else
    let s := fst (record_failure step driver_id (max_retries_per_step config) (max_retries_per_driver config) s) in
    (s, Some (Retry (step_attempt_count step s) (max_retries_per_step config))).

(** ** The use of the service *)

Inductive Use : Type :=
| Failed (step : Z) (driver_id : string) (error : EngineError)
| Succeeded (step : Z) (driver_id : string)
| NewTurn
| StepReset (step : Z).

Definition use (config : StepRetryConfig) (u : Use) (s : StepRetryState) : StepRetryState * option StepRetryDecision :=
  match u with
  | Failed step driver_id error => should_retry config step driver_id error s
  | Succeeded step driver_id => (record_success step driver_id s, None)
  | NewTurn => (reset_for_turn s, None)
  | StepReset step => (reset_for_step step s, None)
  end.

(** The uses with the decisions they were given *)
Fixpoint uses (config : StepRetryConfig) (us : list Use) (s : StepRetryState)
  : StepRetryState * list (Use * option StepRetryDecision) :=
  match us with
  | [] => (s, [])
  | u :: us =>
    let '(s, d) := use config u s in
    let '(s, ds) := uses config us s in (s, (u, d) :: ds)
  end.

(** The retries granted to a step, and to a driver, since the last success *)
Definition granted (d : option StepRetryDecision) : bool :=
  match d with Some (Retry _ _) => true | _ => false end.
Definition count_step (step : Z) (n : nat) (x : Use * option StepRetryDecision) : nat :=
  match x with
  | (Failed t _ _, d) => if bool_decide (t = step) && granted d then S n else n
  | (Succeeded t _, _) | (StepReset t, _) => if bool_decide (t = step) then O else n
  | (NewTurn, _) => O
  end.
Definition count_driver (driver_id : string) (n : nat) (x : Use * option StepRetryDecision) : nat :=
  match x with
  | (Failed _ t _, d) => if bool_decide (t = driver_id) && granted d then S n else n
  | (Succeeded _ t, _) => if bool_decide (t = driver_id) then O else n
  | (NewTurn, _) => O
  | (StepReset _, _) => n
  end.

Context (config : StepRetryConfig).
Context (Hstep : 0 <= max_retries_per_step config <= u32_max).
Context (Hdriver : 0 <= max_retries_per_driver config <= u32_max).

(** The counters are the retries granted since the last success, within the limits. *)
Definition counted (ns : Z -> nat) (nd : string -> nat) (s : StepRetryState) : Prop :=
  (forall step, step_attempt_count step s = Z.of_nat (ns step) /\ Z.of_nat (ns step) <= max_retries_per_step config) /\
  (forall d, driver_attempt_count d s = Z.of_nat (nd d) /\ Z.of_nat (nd d) <= max_retries_per_driver config).

Lemma use_counted u ns nd s :
  counted ns nd s ->
  let '(s', d) := use config u s in
  counted (fun step => count_step step (ns step) (u, d)) (fun id => count_driver id (nd id) (u, d)) s'.
Proof.
  intros [Hs Hd]. destruct u as [step id error|step id| |step]; simpl.
  - unfold should_retry. destruct (may_retry config error); simpl;
      [|split; intros ?; rewrite andb_false_r; auto].
    destruct (max_retries_per_step config <=? step_attempt_count step s) eqn:E1;
      [split; intros ?; rewrite andb_false_r; auto|].
    destruct (max_retries_per_driver config <=? driver_attempt_count id s) eqn:E2;
      [split; intros ?; rewrite andb_false_r; auto|].
    apply Z.leb_gt in E1, E2. destruct (Hs step) as [Es Ls], (Hd id) as [Ed Ld].
    split; [intros t|intros t]; unfold step_attempt_count, driver_attempt_count, sat_add_u32 in *; simpl; rewrite andb_true_r.
    + case_bool_decide as Ht; [subst t; rewrite lookup_insert_eq; simpl; lia|].
      rewrite lookup_insert_ne by done. apply Hs.
    + case_bool_decide as Ht; [subst t; rewrite lookup_insert_eq; simpl; lia|].
      rewrite lookup_insert_ne by done. apply Hd.
  - split; intros t; unfold step_attempt_count, driver_attempt_count in *; simpl; case_bool_decide as Ht.
    1, 3: subst t; rewrite lookup_delete_eq; simpl; lia.
    all: rewrite lookup_delete_ne by done; auto.
  - split; intros t; unfold step_attempt_count, driver_attempt_count; simpl; rewrite lookup_empty; simpl; lia.
  - split; [intros t|auto]. unfold step_attempt_count in *. simpl. case_bool_decide as Ht.
    + subst t. rewrite lookup_delete_eq. simpl. lia.
    + rewrite lookup_delete_ne by done. apply Hs.
Qed.

Lemma uses_counted us ns nd s :
  counted ns nd s ->
  let '(s', ds) := uses config us s in
  counted (fun step => foldl (count_step step) (ns step) ds) (fun id => foldl (count_driver id) (nd id) ds) s'.
Proof.
  revert ns nd s. induction us as [|u us IH]; intros ns nd s H; [done|]. simpl.
  pose proof (use_counted u ns nd s H) as Hu. destruct (use config u s) as [s1 d].
  specialize (IH _ _ _ Hu). by destruct (uses config us s1) as [s2 ds].
Qed.

(** However steps fail and succeed, a step is run again at most as often as the
    configuration allows since its last success, and so is a driver, and the
    counters that travel with the session say exactly how often. *)
Theorem retries_bounded us step driver_id :
  let '(s, ds) := uses config us new_retry_state in
  step_attempt_count step s = Z.of_nat (foldl (count_step step) O ds) /\
  Z.of_nat (foldl (count_step step) O ds) <= max_retries_per_step config /\
  driver_attempt_count driver_id s = Z.of_nat (foldl (count_driver driver_id) O ds) /\
  Z.of_nat (foldl (count_driver driver_id) O ds) <= max_retries_per_driver config.
Proof.
  pose proof (uses_counted us (fun _ => O) (fun _ => O) new_retry_state) as H.
  destruct (uses config us new_retry_state) as [s ds].
  destruct H as [Hs Hd]; [split; intros ?; unfold step_attempt_count, driver_attempt_count; simpl; rewrite lookup_empty; simpl; lia|].
  destruct (Hs step), (Hd driver_id). done.
Qed.

(** A retry that is granted counts one more, and no more than the configuration allows. *)
Lemma should_retry_granted step driver_id error s s' attempt max_retries :
  0 <= step_attempt_count step s ->
  should_retry config step driver_id error s = (s', Some (Retry attempt max_retries)) ->
  may_retry config error = true /\ attempt = step_attempt_count step s + 1 /\
  step_attempt_count step s' = attempt /\ attempt <= max_retries /\ max_retries = max_retries_per_step config /\
  driver_attempt_count driver_id s < max_retries_per_driver config.
Proof.
  unfold should_retry. intros H0. destruct (may_retry config error); [|done]. simpl.
  destruct (max_retries_per_step config <=? step_attempt_count step s) eqn:E1; [done|].
  destruct (max_retries_per_driver config <=? driver_attempt_count driver_id s) eqn:E2; [done|].
  apply Z.leb_gt in E1, E2. intros [= <- <- <-]. unfold step_attempt_count, sat_add_u32 in *. simpl.
  rewrite lookup_insert_eq. simpl. split_and!; [done|lia|done|lia|done|done].
Qed.

Lemma should_retry_keeps step driver_id error s s' d :
  should_retry config step driver_id error s = (s', d) -> granted d = false -> s' = s.
Proof.
  unfold should_retry. repeat case_match; simpl; intros [= <- <-]; done.
Qed.
End service.

Lemma retries_bounded_witness :
  let us := [Failed 1 "llm" EmptyLlmResponse; Failed 1 "llm" EmptyLlmResponse; Failed 1 "llm" EmptyLlmResponse] in
  snd <$> snd (uses to_ascii_lowercase default_retry_config us new_retry_state)
    = [Some (Retry 1 2); Some (Retry 2 2); Some GiveUp] /\
  step_attempt_count 1 (fst (uses to_ascii_lowercase default_retry_config us new_retry_state)) <= 2.
Proof.
  cbv zeta. split; [vm_compute; reflexivity|].
  pose proof (retries_bounded to_ascii_lowercase default_retry_config ltac:(unfold u32_max; simpl; lia)
    ltac:(unfold u32_max; simpl; lia)
    [Failed 1 "llm" EmptyLlmResponse; Failed 1 "llm" EmptyLlmResponse; Failed 1 "llm" EmptyLlmResponse] 1 "llm") as H.
  destruct (uses _ _ _ _) as [s ds]. simpl. destruct H as (-> & H & _). exact H.
Defined.
