(* ===== verification/TurnTypes.v ===== *)
(** * The turn loop's data and environment: [loop_engine/mod.rs], [loop_engine/events.rs],
      [mirri-core/src/hooks.rs] and [mirri-core/src/cancel.rs]

    What a turn keeps, what it tells its clients and its journal, and what it asks
    of its surroundings: the model, the hooks, the tool batch, the clock, the
    cancellation token.  The surroundings are a state of their own, [W]; a call
    that is awaited also says what others did to the shared memory meanwhile. *)
From stdpp Require Import gmap list strings pretty.
From S2P Require Import Prelude RustStd Json ToolScheduler EngineError Context TokenEstimator Memory MemorySound MessagePipeline Provider LlmStream StepRetry.
#[local] Open Scope string_scope.
#[local] Open Scope list_scope.
#[local] Open Scope Z_scope.

(** ** Stop reasons and results *)

Module StepStop.
(** [StepStopReason] *)
Inductive t : Type := EndTurn | MaxTokens | ToolUse | Filtered | Paused | Unknown.
#[global] Instance t_eq_dec : EqDecision t. Proof. solve_decision. Defined.
(** Its [Debug] form *)
Definition debug (s : t) : string :=
  match s with
  | EndTurn => "EndTurn" | MaxTokens => "MaxTokens" | ToolUse => "ToolUse"
  | Filtered => "Filtered" | Paused => "Paused" | Unknown => "Unknown"
  end.
End StepStop.

Module TurnStop.
(** [TurnStopReason] *)
Inductive t : Type := EndTurn | MaxTokens | Filtered | Paused | Unknown | Aborted | Stalled | BlockedByHook.
#[global] Instance t_eq_dec : EqDecision t. Proof. solve_decision. Defined.
End TurnStop.

(** [derive_step_stop_reason] *)
Definition derive_step_stop_reason (stop_reason : StopReason) : StepStop.t :=
  match stop_reason with
  | EndTurn => StepStop.EndTurn
  | MaxTokens => StepStop.MaxTokens
  | ToolUse => StepStop.ToolUse
  | Filtered => StepStop.Filtered
  | Paused => StepStop.Paused
  | Unknown => StepStop.Unknown
  end.

(** [map_step_to_turn_stop_reason] *)
Definition map_step_to_turn_stop_reason (step : StepStop.t) : TurnStop.t :=
  match step with
  | StepStop.EndTurn => TurnStop.EndTurn
  | StepStop.MaxTokens => TurnStop.MaxTokens
  | StepStop.Filtered => TurnStop.Filtered
  | StepStop.Paused => TurnStop.Paused
  | StepStop.Unknown => TurnStop.Unknown
  | StepStop.ToolUse => TurnStop.Unknown
  end.

Record StepResult : Type := mkStepResult {
  sr_usage : LlmUsage;
  sr_stop_reason : StepStop.t;
  media_degraded_resend_used : bool;
  media_stripped_resend_used : bool
}.

Record TurnResult : Type := mkTurnResult {
  tr_stop_reason : TurnStop.t;
  tr_steps : Z;
  tr_usage : LlmUsage
}.

(** ** What is told and recorded *)

Module LiveEvent.
Inductive t : Type :=
| TextDelta (text : string)
| ThinkDelta (text : string)
| ToolCallPart (index : Z) (arguments_part : string) (call_id tool_name : option string)
| TurnInterrupted (reason : string) (attempted_steps : Z) (active_step : option Z) (message : option string)
| StepRetrying (failed_attempt next_attempt max_attempts delay_ms : Z)
| ToolCallStarted (tool_name tool_call_id : string) (args : json) (started_at : Z)
| ToolCallCompleted (tool_call_id tool_name : string) (is_error : bool)
    (output : ToolOutput (ContentPart := Context.ContentPart)) (duration_ms : Z).
End LiveEvent.

(** The operations of the wire log a turn writes; a message is the system
    reminder with that text. *)
Module WireOp.
Inductive t : Type :=
| ContextAppendLoopEvent (event : LoopEvent.t)
| ContextAppendReminder (text : string)
| UsageRecord (model : string) (usage : LlmUsage)
| RequestHeaderChanged (reason : string).
End WireOp.

(** ** The surroundings *)

Record ToolDefinition : Type := mkToolDefinition {
  td_name : string;
  td_description : string;
  td_parameters : json;
  td_deferred : bool
}.

Record LlmChatParams : Type := mkParams {
  messages : list Message;
  tools : list ToolDefinition;
  cache_root_id : option string
}.

(** [ToolResult] of a call *)
Notation CallResult := (@ToolScheduler.ToolResult Context.ContentPart).

(** What happens while a batch of calls runs: a call that passed its preflight is
    reported, at that time of the clock, or somebody else uses the memory. *)
Inductive BatchEvent : Type :=
| Dispatched (tool_call_id tool_name : string) (args : json) (at_ms : Z)
| Meanwhile (op : Op).

Record AfterStepContext : Type := mkAfterStep {
  as_step : Z;
  as_usage : LlmUsage;
  as_stop_reason : string
}.

Section turn_types.
Context (W : Type).

(** An awaited call *)
Definition ext (A : Type) : Type := W -> A * list Op * W.
(** A call that returns at once *)
Definition now (A : Type) : Type := W -> A * W.

(** [Llm]: an accepted request gives a stream, which is awaited. *)
Record Llm : Type := mkLlm {
  provider_id : option string;
  model_name : string;
  capability : ModelCapability;
  retryable : ProviderErrorInfo -> bool;
  materialize_media : LlmChatParams -> ext LlmChatParams;
  chat : LlmChatParams -> now (result EngineError (ext (list LlmEvent.t)))
}.

(** The arguments of [run_turn] that are called, and the clock; [drain] is the
    order in which a hash set or map with these keys is read. *)
Record Env : Type := mkEnv {
  is_cancelled : now bool;
  is_user_cancelled : now bool;
  nanos : now Z;
  now_ms : now Z;
  drain : list string -> now (list string);
  sleep : Z -> ext bool;
  turn_abort_guard : option (now bool);
  resolve_with_alias : now (result string (Llm * option string));
  before_step : Z -> ext (result EngineError (bool * option string));
  pre_llm_request : LlmChatParams -> W -> W;
  post_llm_request : LlmChatResponse -> W -> W;
  after_step : AfterStepContext -> ext (result EngineError bool);
  should_continue_after_stop : string -> ext (result EngineError bool);
  record_step_usage : option (LlmUsage -> StepStop.t -> Z -> ext (result EngineError (option bool)));
  loop_tools : now (list ToolDefinition);
  run_tool_batch : list (string * string * string) -> Z -> W -> list BatchEvent * list (string * CallResult) * W;
  new_uuid : now string;
  live_callback : bool;
  wire_recorder : option (WireOp.t -> ext unit)
}.

(** [MessageBuilders]: they read the shared memory, and the stripped one the flag. *)
Definition Builder : Type := ContextMemory -> bool -> result EngineError (list Message).
Record MessageBuilders : Type := mkBuilders {
  normal_builder : Builder;
  media_degraded : option Builder;
  media_stripped : option Builder;
  strict_builder : option Builder
}.

(** [RunTurnConfig] *)
Record RunTurnConfig : Type := mkTurnConfig {
  max_steps : option Z;
  max_retry_attempts : Z;
  step_retry : option StepRetryConfig;
  tc_cache_root_id : option string
}.

(** What a turn changes; [sent] keeps the requests that were made of a model. *)
Record St : Type := mkSt {
  world : W;
  memory : ContextMemory;
  emitted : list LiveEvent.t;
  recorded : list WireOp.t;
  retry_state : StepRetryState;
  format_rejected_flag : bool;
  sent : list (Llm * LlmChatParams)
}.

Definition set_world (x : W) (s : St) : St :=
  mkSt x (memory s) (emitted s) (recorded s) (retry_state s) (format_rejected_flag s) (sent s).
Definition set_memory (x : ContextMemory) (s : St) : St :=
  mkSt (world s) x (emitted s) (recorded s) (retry_state s) (format_rejected_flag s) (sent s).
Definition set_emitted (x : list LiveEvent.t) (s : St) : St :=
  mkSt (world s) (memory s) x (recorded s) (retry_state s) (format_rejected_flag s) (sent s).
Definition set_recorded (x : list WireOp.t) (s : St) : St :=
  mkSt (world s) (memory s) (emitted s) x (retry_state s) (format_rejected_flag s) (sent s).
Definition set_retry_state (x : StepRetryState) (s : St) : St :=
  mkSt (world s) (memory s) (emitted s) (recorded s) x (format_rejected_flag s) (sent s).
Definition set_format_rejected (x : bool) (s : St) : St :=
  mkSt (world s) (memory s) (emitted s) (recorded s) (retry_state s) x (sent s).
Definition set_sent (x : list (Llm * LlmChatParams)) (s : St) : St :=
  mkSt (world s) (memory s) (emitted s) (recorded s) (retry_state s) (format_rejected_flag s) x.

(** ** The monad *)

(** An operation returns a value or an error, panics, or did not end within the fuel. *)
Inductive outcome (A : Type) : Type :=
| Val (a : A)
| Fail (e : EngineError)
| Panics
| OutOfFuel.
Definition M (A : Type) : Type := St -> St * outcome A.

#[global] Instance M_ret : MRet M := fun A a s => (s, Val A a).
#[global] Instance M_bind : MBind M := fun A B f m s =>
  match m s with
  | (s, Val _ a) => f a s
  | (s, Fail _ e) => (s, Fail B e)
  | (s, Panics _) => (s, Panics B)
  | (s, OutOfFuel _) => (s, OutOfFuel B)
  end.
Definition throw {A} (e : EngineError) : M A := fun s => (s, Fail A e).
Definition panic {A} : M A := fun s => (s, Panics A).
Definition out_of_fuel {A} : M A := fun s => (s, OutOfFuel A).
(** The [Result] of an operation *)
Definition catch {A} (m : M A) : M (result EngineError A) := fun s =>
  match m s with
  | (s, Val _ a) => (s, Val _ (Ok a))
  | (s, Fail _ e) => (s, Val _ (Err e))
  | (s, Panics _) => (s, Panics _)
  | (s, OutOfFuel _) => (s, OutOfFuel _)
  end.
Definition get : M St := fun s => (s, Val _ s).
Definition modify (f : St -> St) : M unit := fun s => (f s, Val _ tt).
(** [?] *)
Definition lift {A} (r : result EngineError A) : M A :=
  match r with Ok a => mret a | Err e => throw e end.
Definition unless_panic {A} (r : result unit A) : M A :=
  match r with Ok a => mret a | Err _ => panic end.

Definition call_now {A} (f : now A) : M A := fun s => let '(a, w) := f (world s) in (set_world w s, Val _ a).
End turn_types.

Arguments Val {A}. Arguments Fail {A}. Arguments Panics {A}. Arguments OutOfFuel {A}.
Arguments provider_id {W}. Arguments model_name {W}. Arguments capability {W}. Arguments retryable {W}.
Arguments materialize_media {W}. Arguments chat {W}. Arguments is_cancelled {W}. Arguments is_user_cancelled {W}.
Arguments nanos {W}. Arguments now_ms {W}. Arguments drain {W}. Arguments sleep {W}. Arguments turn_abort_guard {W}.
Arguments resolve_with_alias {W}. Arguments before_step {W}. Arguments pre_llm_request {W}.
Arguments post_llm_request {W}. Arguments after_step {W}. Arguments should_continue_after_stop {W}.
Arguments record_step_usage {W}. Arguments loop_tools {W}. Arguments run_tool_batch {W}. Arguments new_uuid {W}.
Arguments live_callback {W}. Arguments wire_recorder {W}. Arguments world {W}. Arguments memory {W}.
Arguments emitted {W}. Arguments recorded {W}. Arguments retry_state {W}. Arguments format_rejected_flag {W}.
Arguments sent {W}. Arguments set_world {W}. Arguments set_memory {W}. Arguments set_emitted {W}.
Arguments set_recorded {W}. Arguments set_retry_state {W}. Arguments set_format_rejected {W}. Arguments set_sent {W}.
Arguments throw {W A}. Arguments panic {W A}. Arguments out_of_fuel {W A}. Arguments catch {W A}. Arguments get {W}.
Arguments modify {W}. Arguments lift {W A}. Arguments unless_panic {W A}. Arguments call_now {W A}.
