(* ===== verification/TurnLoop.v ===== *)
(** * The turn loop: [loop_engine/retry.rs], [loop_engine/turn_step.rs],
      [loop_engine/tool_call_batch.rs] and [loop_engine/run_turn.rs]

    A request with its retries, the fallback projections, a step from its hooks to
    its tool results, and the turn that repeats steps until it ends. *)
From stdpp Require Import gmap list strings pretty.
From S2P Require Import Prelude RustStd Json ToolScheduler EngineError Context Projector TokenEstimator Memory MemorySound MessagePipeline Provider LlmStream StepRetry TurnTypes.
#[local] Open Scope string_scope.
#[local] Open Scope list_scope.
#[local] Open Scope Z_scope.

Definition TURN_ABORTED_BY_GUARD_MESSAGE : string := "turn aborted by guard".
Definition DEFAULT_MAX_RETRY_ATTEMPTS : Z := 10.
Definition INTERRUPTED_ANCHOR : string := "[Request interrupted]".
Definition INTERRUPTED_ANCHOR_USER : string := "[Request interrupted by user]".
Definition STEP_DRIVER_ID : string := "llm".
Definition EMPTY_RESPONSE_REMINDER : string :=
  "The previous turn ended because the model repeatedly returned an empty response (no text, no thinking, no tool calls). Please re-send your request.".
Definition UNEXECUTED_OUTPUT : string :=
  "This tool call was not executed: the model response ended before tool execution could start.".

(** [Vec::swap_remove] *)
Definition swap_remove {A} (i : nat) (l : list A) : option (A * list A) :=
  x ← l !! i; y ← last l;
  Some (x, if bool_decide (S i = length l) then take i l else <[i := y]> (take (length l - 1) l)).

(** The results in the order of the calls; what belongs to none comes last. *)
Fixpoint sort_results {R} (tool_calls : list LlmToolCall) (results : list (string * R)) : list (string * R) :=
  match tool_calls with
  | [] => results
  | tc :: tool_calls =>
    match list_find (fun r => r.1 = lc_id tc) results with
    | None => sort_results tool_calls results
    | Some (pos, _) =>
      match swap_remove pos results with
      | Some (r, results) => r :: sort_results tool_calls results
      | None => sort_results tool_calls results
      end
    end
  end.

Inductive FallbackLevel : Type := Degraded | Stripped | Strict.
#[export] Instance FallbackLevel_eq_dec : EqDecision FallbackLevel. Proof. solve_decision. Defined.
Definition level_label (level : FallbackLevel) : string :=
  match level with Degraded => "media-degraded" | Stripped => "media-stripped" | Strict => "strict" end.
(** The level and those its [next_level]s lead to *)
Definition chain_from (level : FallbackLevel) : list FallbackLevel :=
  match level with Degraded => [Degraded; Stripped; Strict] | Stripped => [Stripped; Strict] | Strict => [Strict] end.

Definition is_too_large_error (msg : string) : bool :=
  any_pattern ["413"; "too large"; "Too Large"; "payload too large"; "request too large"] msg.
Definition is_structure_error (msg : string) : bool :=
  str_contains "400" msg && any_pattern ["structure"; "invalid"; "adjacent"; "alternating"] msg.

Section turn.
Context (W : Type).
(** [serde_json::Value::to_string], [str::to_lowercase], and whether a text is a JSON object *)
Context (to_string : json -> string) (to_lowercase : string -> string) (is_json_object : string -> bool).
Context (env : Env W) (builders : MessageBuilders) (config : RunTurnConfig).
Notation M := (M W).

Definition is_image_format_error (msg : string) : bool :=
  let lower := to_lowercase msg in
  str_contains "image" lower && (str_contains "format" lower || str_contains "unsupported" lower).

(** [MessageBuilders::from_shared_memory] *)
Definition projected_by (options : ProjectOptions) (m : ContextMemory) : list Message :=
  match project is_json_object (e_msg <$> history m) options with Ok messages => messages | Err _ => [] end.
Definition from_shared_memory : MessageBuilders :=
  mkBuilders
    (fun m _ => Ok (projected_by normal m))
    (Some (fun m _ => Ok (projected_by degraded m)))
    (Some (fun m flag => Ok (projected_by (if flag : bool then stripped_format_rejected else stripped) m)))
    (Some (fun m _ => Ok (projected_by strict m))).

(** ** Primitive operations *)

(** Awaiting a call: what others did to the memory meanwhile is done when it returns. *)
Definition await {A} (f : ext W A) : M A := fun s =>
  let '(a, ops, w) := f (world s) in (set_world w (set_memory (run to_string ops (memory s)) s), Val a).

(** [CancelToken::check] *)
Definition check_cancel : M unit :=
  cancelled ← call_now (is_cancelled env);
  if cancelled : bool then
    user ← call_now (is_user_cancelled env);
    throw (if user : bool then UserCancelled else EngineAborted "operation cancelled")
  else mret tt.

Definition emit (e : LiveEvent.t) : M unit :=
  if live_callback env then modify (fun s => set_emitted (emitted s ++ [e]) s) else mret tt.

Definition record_op (op : WireOp.t) : M unit :=
  match wire_recorder env with
  | None => mret tt
  | Some recorder => modify (fun s => set_recorded (recorded s ++ [op]) s);; await (recorder op)
  end.
Definition record_loop_event_wire (event : LoopEvent.t) : M unit := record_op (WireOp.ContextAppendLoopEvent event).
Fixpoint record_all (ops : list WireOp.t) : M unit :=
  match ops with [] => mret tt | op :: ops => record_op op;; record_all ops end.
Definition record_system_reminders (reminders : list string) : M unit :=
  record_all (WireOp.ContextAppendReminder <$> reminders).

Definition on_memory (f : ContextMemory -> ContextMemory) : M unit := modify (fun s => set_memory (f (memory s)) s).

(** [append_loop_event] on the shared memory; only a beginning step drains. *)
Definition append_event (event : LoopEvent.t) : M unit := on_memory (append_loop_event to_string [] event).
Definition append_step_begin (event : LoopEvent.t) : M unit :=
  s ← get;
  order ← call_now (drain env (elements (pending (memory s))));
  on_memory (append_loop_event to_string order event).

(** ** [chat_with_retry] *)

Definition live_of (event : LlmEvent.t) : option LiveEvent.t :=
  match event with
  | LlmEvent.TextDelta text => Some (LiveEvent.TextDelta text)
  | LlmEvent.ThinkDelta text => Some (LiveEvent.ThinkDelta text)
  | LlmEvent.ToolCallPart index part call_id name => Some (LiveEvent.ToolCallPart index part call_id name)
  | _ => None
  end.
Fixpoint emit_all (events : list LiveEvent.t) : M unit :=
  match events with [] => mret tt | e :: events => emit e;; emit_all events end.

Definition consume (stream : ext W (list LlmEvent.t)) : M ChatResult :=
  events ← await stream;
  emit_all (omap live_of events);;
  cancelled ← call_now (is_cancelled env);
  lift (consume_stream events cancelled).

Definition is_retryable (llm : Llm W) (error : EngineError) : bool :=
  match error with ProviderError msg => retryable llm (from_message msg) | _ => false end.

Definition compute_retry_delay (error : EngineError) (attempt : Z) : M Z :=
  hint ← unless_panic (retry_after_hint to_lowercase error);
  match hint with
  | Some retry_after_ms => mret retry_after_ms
  | None => n ← call_now (nanos env); mret (backoff_delay attempt (random_jitter n))
  end.

Definition cancelable_sleep (delay_ms : Z) : M unit :=
  if delay_ms =? 0 then check_cancel
  else
    elapsed ← await (sleep env delay_ms);
    if elapsed : bool then mret tt else throw (EngineAborted "cancelled during retry delay").

(** A failed attempt: it ends the request, or the wait for the next is over. *)
Definition after_failure (llm : Llm W) (doing : string) (attempt max_attempts : Z) (error : EngineError) : M unit :=
  cancelled ← call_now (is_cancelled env);
  if (cancelled : bool) && negb (is_abort error) then
    throw (EngineAborted ("cancelled during llm " +:+ doing +:+ ": " +:+ error_text error))
  else
    error ← unless_panic (classify_provider_error to_lowercase error);
    if (max_attempts <=? attempt) || negb (is_retryable llm error) then
      throw (classify_surface_error to_lowercase (provider_id llm) error)
    else
      delay ← compute_retry_delay error attempt;
      emit (LiveEvent.StepRetrying attempt (attempt + 1) max_attempts delay);;
      cancelable_sleep delay.

(** [for attempt in 1..=max_attempts], with [remaining] attempts left *)
Fixpoint chat_attempts (llm : Llm W) (params : LlmChatParams) (max_attempts : Z) (remaining : nat) (attempt : Z)
  : M ChatResult :=
  match remaining with
  | O => throw (ProviderError "Retry loop exhausted without returning")
  | S remaining =>
    modify (fun s => set_sent (sent s ++ [(llm, params)]) s);;
    stream_result ← call_now (chat llm params);
    match stream_result with
    | Err error =>
      after_failure llm "chat" attempt max_attempts error;;
      chat_attempts llm params max_attempts remaining (attempt + 1)
    | Ok stream =>
      consumed ← catch (consume stream);
      match consumed with
      | Ok result => mret result
      | Err error =>
        after_failure llm "stream" attempt max_attempts error;;
        chat_attempts llm params max_attempts remaining (attempt + 1)
      end
    end
  end.

Definition effective_attempts (max_attempts : Z) : Z :=
  if max_attempts =? 0 then DEFAULT_MAX_RETRY_ATTEMPTS else max_attempts.

Definition chat_with_retry (llm : Llm W) (params : LlmChatParams) : M ChatResult :=
  let max_attempts := effective_attempts (max_retry_attempts config) in
  params ← await (materialize_media llm params);
  chat_attempts llm params max_attempts (Z.to_nat max_attempts) 1.

(** ** The messages of a step and their fallbacks *)

Definition select_message_builder (media_degraded_active media_stripped_active : bool) : Builder :=
  match (if media_degraded_active then media_degraded builders else None) with
  | Some builder => builder
  | None =>
    match (if media_stripped_active then media_stripped builders else None) with
    | Some builder => builder
    | None => normal_builder builders
    end
  end.

(** A builder reads the memory and the flag. *)
Definition build (builder : Builder) : M (list Message) :=
  s ← get; lift (builder (memory s) (format_rejected_flag s)).

Definition level_builder (level : FallbackLevel) : option Builder :=
  match level with
  | Degraded => media_degraded builders
  | Stripped => media_stripped builders
  | Strict => strict_builder builders
  end.

Definition adapt (llm : Llm W) (label : string) (messages : list Message) : list Message :=
  run_pipeline (media_pipeline (capability llm)) label messages.

Fixpoint walk_chain (llm : Llm W) (step_tools : list ToolDefinition) (levels : list FallbackLevel)
  : M (option (ChatResult * bool * bool)) :=
  match levels with
  | [] => mret None
  | level :: levels =>
    match level_builder level with
    | None => walk_chain llm step_tools levels
    | Some builder =>
      built ← catch (build builder);
      match built with
      | Err _ => walk_chain llm step_tools levels
      | Ok alt_messages =>
        let alt_params := mkParams (adapt llm (level_label level) alt_messages) step_tools (tc_cache_root_id config) in
        answered ← catch (chat_with_retry llm alt_params);
        match answered with
        | Ok result => mret (Some (result, bool_decide (level = Degraded), bool_decide (level = Stripped)))
        | Err _ => walk_chain llm step_tools levels
        end
      end
    end
  end.

(** Where the chain starts for an error of this text *)
Definition fallback_level (error_msg : string) : option FallbackLevel :=
  if is_too_large_error error_msg then Some Degraded
  else if is_image_format_error error_msg then Some Stripped
  else if is_structure_error error_msg then Some Strict
  else None.

Definition try_media_fallback (llm : Llm W) (step_tools : list ToolDefinition) (original_error : EngineError)
  : M (option (ChatResult * bool * bool)) :=
  match fallback_level (error_text original_error) with
  | None => mret None
  | Some level =>
    (if bool_decide (level = Stripped) then modify (set_format_rejected true) else mret tt);;
    walk_chain llm step_tools (chain_from level)
  end.

(** ** The tool batch *)

(** The calls of the batch as they are dispatched: each is appended to the memory
    and told; the recorded events and the start times are kept. *)
Fixpoint dispatch_calls (step_id : string) (batch : list BatchEvent) (starts : gmap string Z)
    (tool_call_events : list LoopEvent.t) : M (gmap string Z * list LoopEvent.t) :=
  match batch with
  | [] => mret (starts, tool_call_events)
  | Meanwhile op :: batch =>
    on_memory (apply_op to_string op);; dispatch_calls step_id batch starts tool_call_events
  | Dispatched tool_call_id tool_name args at_ms :: batch =>
    let event := LoopEvent.ToolCall step_id tool_call_id tool_name args in
    append_event event;;
    emit (LiveEvent.ToolCallStarted tool_name tool_call_id args at_ms);;
    dispatch_calls step_id batch (if live_callback env then <[tool_call_id := at_ms]> starts else starts)
      (tool_call_events ++ [event])
  end.

(** [execute_tool_calls] *)
Definition execute_tool_calls (step_id : string) (tool_calls : list LlmToolCall) (step : Z)
  : M (gmap string Z * list LoopEvent.t * list (string * CallResult)) :=
  let triples := (fun tc => (lc_name tc, to_string (lc_args tc), lc_id tc)) <$> tool_calls in
  '(batch, results) ← (fun s => let '(batch, results, w) := run_tool_batch env triples step (world s) in
                                (set_world w s, Val (batch, results)));
  '(starts, events) ← dispatch_calls step_id batch ∅ [];
  mret (starts, events, sort_results tool_calls results).

Definition result_event (tool_call_id : string) (result : CallResult) : LoopEvent.t :=
  LoopEvent.ToolResult tool_call_id (output result) (ToolScheduler.is_error result) (ToolScheduler.note result) None.

Definition call_names (tool_calls : list LlmToolCall) : gmap string string :=
  foldl (fun names tc => <[lc_id tc := lc_name tc]> names) ∅ tool_calls.

(** Recording the results under one lock: the events, the reminders that tools
    injected, and whether one asked to stop *)
Fixpoint record_results (names : gmap string string) (results : list (string * CallResult)) (starts : gmap string Z)
  : M (list LoopEvent.t * list string * bool) :=
  match results with
  | [] => mret ([], [], false)
  | (tool_call_id, result) :: results =>
    let event := result_event tool_call_id result in
    append_event event;;
    match injection result with Some text => on_memory (append_system_reminder text) | None => mret tt end;;
    starts ← (if live_callback env then
                started ← match starts !! tool_call_id with
                          | Some started => mret started
                          | None => call_now (now_ms env)
                          end;
                ended ← call_now (now_ms env);
                emit (LiveEvent.ToolCallCompleted tool_call_id (default "" (names !! tool_call_id))
                        (ToolScheduler.is_error result) (output result) (Z.max (ended - started) 0));;
                mret (delete tool_call_id starts)
              else mret starts);
    '(events, reminders, stop) ← record_results names results starts;
    mret (event :: events, match injection result with Some text => text :: reminders | None => reminders end,
          stop_turn result || stop)
  end.

(** [record_unexecuted_tool_calls] *)
Definition unexecuted_events (step_id : string) (tc : LlmToolCall) : list LoopEvent.t :=
  [LoopEvent.ToolCall step_id (lc_id tc) (lc_name tc) (lc_args tc);
   LoopEvent.ToolResult (lc_id tc) (ToolScheduler.Text UNEXECUTED_OUTPUT) true None None].
Definition record_unexecuted_tool_calls (step_id : string) (tool_calls : list LlmToolCall) : M (list LoopEvent.t) :=
  let events := mjoin (unexecuted_events step_id <$> tool_calls) in
  on_memory (fold_events to_string events);; mret events.

(** ** [finalize_step] *)

Definition settles_as_completed (r : StepStop.t) : bool :=
  match r with
  | StepStop.EndTurn | StepStop.Unknown | StepStop.MaxTokens | StepStop.Paused => true
  | StepStop.ToolUse | StepStop.Filtered => false
  end.

Definition is_empty_response (result : ChatResult) : bool :=
  bool_decide (text (response result) = "") && bool_decide (think_text result = "")
  && bool_decide (length (r_tool_calls (response result)) = 0%nat).

Definition poll_guard (or : M unit) : M unit :=
  match turn_abort_guard env with
  | None => mret tt
  | Some guard => alive ← call_now guard; if alive : bool then mret tt else or
  end.

Definition has_delivered_output (result : ChatResult) : bool :=
  negb (bool_decide (text (response result) = "")) || negb (bool_decide (think_text result = "")).

(** The events of the answer itself: the thinking, the text, and an anchor where it
    was cut *)
Definition answer_events (step_id : string) (result : ChatResult) (anchor : string) : list LoopEvent.t :=
  let text := text (response result) in
  let think_text := think_text result in
  (if bool_decide (think_text = "") then [] else [LoopEvent.ThinkPart step_id think_text]) ++
  (if bool_decide (text = "") then [] else [LoopEvent.ContentPart step_id text]) ++
  (if interrupted result && has_delivered_output result then [LoopEvent.ContentPart step_id anchor] else []).

Definition record_usage (usage : LlmUsage) (natural_stop : StepStop.t) (step : Z) : M bool :=
  match record_step_usage env with
  | None => mret false
  | Some cb => r ← await (cb usage natural_stop step); stop ← lift r; mret (bool_decide (stop = Some true))
  end.

(** Steps 16 and 17: the calls are run, or recorded as not executed; it returns the
    effective stop reason. *)
Definition run_calls (step_id : string) (step : Z) (tool_calls : list LlmToolCall) (effective : StepStop.t)
  : M StepStop.t :=
  if bool_decide (effective = StepStop.ToolUse) then
    poll_guard (throw (EngineAborted TURN_ABORTED_BY_GUARD_MESSAGE));;
    '(starts, tool_call_events, tool_results) ← execute_tool_calls step_id tool_calls step;
    record_all (WireOp.ContextAppendLoopEvent <$> tool_call_events);;
    '(events, reminders, stop) ← record_results (call_names tool_calls) tool_results starts;
    record_all (WireOp.ContextAppendLoopEvent <$> events);;
    record_system_reminders reminders;;
    mret (if stop : bool then StepStop.EndTurn else effective)
  else if match effective with StepStop.Paused | StepStop.Unknown | StepStop.MaxTokens => true | _ => false end
          && negb (bool_decide (length tool_calls = 0%nat)) then
    events ← record_unexecuted_tool_calls step_id tool_calls;
    record_all (WireOp.ContextAppendLoopEvent <$> events);;
    mret effective
  else mret effective.

Definition step_end_event (step_id : string) (u : LlmUsage) : LoopEvent.t :=
  LoopEvent.StepEnd step_id (input_tokens u) (output_tokens u) (cache_read_tokens u) (cache_creation_tokens u).

(** From step 14 on, with the usage recorded *)
Definition conclude_step (result : ChatResult) (step_id : string) (step : Z) (stop_turn_after_usage : bool)
    (media_degraded_used media_stripped_used : bool) : M StepResult :=
  let usage := r_usage (response result) in
  let tool_calls := r_tool_calls (response result) in
  let natural_stop := derive_step_stop_reason (stop_reason (response result)) in
  modify (fun s => set_world (post_llm_request env (response result) (world s)) s);;
  if negb (interrupted result) && settles_as_completed natural_stop && is_empty_response result then
    throw EmptyLlmResponse
  else
    user ← (if interrupted result && has_delivered_output result then call_now (is_user_cancelled env) else mret false);
    let events :=
      answer_events step_id result (if user : bool then INTERRUPTED_ANCHOR_USER else INTERRUPTED_ANCHOR) in
    on_memory (fold_events to_string events);;
    record_all (WireOp.ContextAppendLoopEvent <$> events);;
    effective ← run_calls step_id step tool_calls
                  (if stop_turn_after_usage && bool_decide (natural_stop = StepStop.ToolUse)
                   then StepStop.EndTurn else natural_stop);
    append_event (step_end_event step_id usage);;
    record_loop_event_wire (step_end_event step_id usage);;
    after ← await (after_step env (mkAfterStep step usage (StepStop.debug effective)));
    stop_turn ← lift after;
    check_cancel;;
    mret (mkStepResult usage
            (if (stop_turn : bool) && bool_decide (effective = StepStop.ToolUse) then StepStop.EndTurn else effective)
            media_degraded_used media_stripped_used).

Definition finalize_step (result : ChatResult) (step_id : string) (step : Z) (usage_model : string)
    (media_degraded_used media_stripped_used : bool) : M StepResult :=
  let usage := r_usage (response result) in
  let natural_stop := derive_step_stop_reason (stop_reason (response result)) in
  stop_turn_after_usage ← record_usage usage natural_stop step;
  record_op (WireOp.UsageRecord usage_model usage);;
  conclude_step result step_id step stop_turn_after_usage media_degraded_used media_stripped_used.

(** ** [execute_loop_step] *)

Definition offered_tools (caps : ModelCapability) (step_tools : list ToolDefinition) : list ToolDefinition :=
  if negb (image_in caps) && negb (video_in caps)
  then List.filter (fun tool => negb (bool_decide (td_name tool = "ReadMediaFile"))) step_tools else step_tools.

Definition projection_label (media_degraded_active media_stripped_active : bool) : string :=
  if media_stripped_active then "media_stripped"
  else if media_degraded_active then "media_degraded" else "normal".

Definition execute_loop_step (llm : Llm W) (model_alias : option string) (step : Z)
    (media_degraded_active media_stripped_active : bool) : M StepResult :=
  let usage_model := default (model_name llm) model_alias in
  before ← await (before_step env step);
  '(block, block_reason) ← lift before;
  (if block : bool then throw (HookBlocked (default "Step blocked by before_step hook" block_reason)) else mret tt);;
  check_cancel;;
  all_tools ← call_now (loop_tools env);
  let step_tools := offered_tools (capability llm) all_tools in
  built ← build (select_message_builder media_degraded_active media_stripped_active);
  let messages := adapt llm (projection_label media_degraded_active media_stripped_active) built in
  check_cancel;;
  step_id ← call_now (new_uuid env);
  append_step_begin (LoopEvent.StepBegin step_id None);;
  record_loop_event_wire (LoopEvent.StepBegin step_id None);;
  let params := mkParams messages step_tools (tc_cache_root_id config) in
  modify (fun s => set_world (pre_llm_request env params (world s)) s);;
  answered ← catch (chat_with_retry llm params);
  match answered with
  | Ok result => finalize_step result step_id step usage_model false false
  | Err error =>
    fallback ← try_media_fallback llm step_tools error;
    match fallback with
    | None => throw error
    | Some (result, degraded, stripped) =>
      (if degraded || stripped then
         record_op (WireOp.RequestHeaderChanged
                      (if degraded : bool then "media_projection_degraded" else "media_projection_stripped"))
       else mret tt);;
      finalize_step result step_id step usage_model degraded stripped
    end
  end.

(** ** [run_turn] *)

Definition close_interrupted_turn : M unit :=
  s ← get;
  pending_ids ← call_now (drain env (elements (pending (memory s))));
  open_step_ids ← call_now (drain env ((map_to_list (open_steps (memory s))).*1));
  let '(m, events) := close_interrupted to_string pending_ids open_step_ids (memory s) in
  on_memory (fun _ => m);;
  record_all (WireOp.ContextAppendLoopEvent <$> events).

Definition close_empty_response_turn (error : EngineError) : M unit :=
  if bool_decide (error = EmptyLlmResponse) then
    on_memory (append_system_reminder EMPTY_RESPONSE_REMINDER);;
    record_system_reminders [EMPTY_RESPONSE_REMINDER]
  else mret tt.

Definition aborted (steps : Z) (active_step : option Z) (message : option string) (usage : LlmUsage) : M TurnResult :=
  close_interrupted_turn;;
  emit (LiveEvent.TurnInterrupted "aborted" steps active_step message);;
  mret (mkTurnResult TurnStop.Aborted steps usage).

(** One step with its step-level retries: its result, or that of the turn it aborts *)
Fixpoint step_with_retries (fuel : nat) (llm : Llm W) (model_alias : option string) (steps : Z)
    (media_degraded_active media_stripped_active : bool) (usage : LlmUsage) : M (StepResult + TurnResult) :=
  match fuel with
  | O => out_of_fuel
  | S fuel =>
    r ← catch (execute_loop_step llm model_alias steps media_degraded_active media_stripped_active);
    match r with
    | Ok result =>
      match step_retry config with
      | Some _ => modify (fun s => set_retry_state (record_success steps STEP_DRIVER_ID (retry_state s)) s)
      | None => mret tt
      end;;
      mret (inl result)
    | Err error =>
      if is_abort error then ended ← aborted steps (Some steps) None usage; mret (inr ended)
      else
        match step_retry config with
        | None => close_empty_response_turn error;; throw error
        | Some retry_config =>
          s ← get;
          let '(retries, decision) := should_retry to_lowercase retry_config steps STEP_DRIVER_ID error (retry_state s) in
          modify (set_retry_state retries);;
          match decision with
          | Some (Retry attempt max_retries) =>
            emit (LiveEvent.StepRetrying attempt (attempt + 1) (max_retries + 1) 0);;
            step_with_retries fuel llm model_alias steps media_degraded_active media_stripped_active usage
          | Some GiveUp | None => close_empty_response_turn error;; throw error
          end
        end
    end
  end.

Definition add_usage (a b : LlmUsage) : LlmUsage :=
  mkUsage (wrap_u64 (input_tokens a + input_tokens b)) (wrap_u64 (output_tokens a + output_tokens b))
    (wrap_u64 (cache_read_tokens a + cache_read_tokens b))
    (wrap_u64 (cache_creation_tokens a + cache_creation_tokens b)).

(** The head of the loop: [Some] message when the turn ends there *)
Definition steps_exceeded (steps : Z) : option Z :=
  match max_steps config with
  | Some max_steps => if (0 <? max_steps) && (max_steps <=? steps) then Some max_steps else None
  | None => None
  end.

Fixpoint turn_loop (fuel retries : nat) (steps : Z) (media_degraded_active media_stripped_active : bool)
    (total_usage : LlmUsage) : M TurnResult :=
  match fuel with
  | O => out_of_fuel
  | S fuel =>
    cancelled ← call_now (is_cancelled env);
    if cancelled : bool then aborted steps None None total_usage
    else
      alive ← match turn_abort_guard env with Some guard => call_now guard | None => mret true end;
      if negb alive then aborted steps None (Some TURN_ABORTED_BY_GUARD_MESSAGE) total_usage
      else
        match steps_exceeded steps with
        | Some max_steps => throw (MaxStepsExceeded (pretty max_steps +:+ " steps"))
        | None =>
          let steps := wrap_u32 (steps + 1) in
          resolved ← call_now (resolve_with_alias env);
          match resolved with
          | Err reason => throw (Internal ("LLM provider resolution failed: " +:+ reason))
          | Ok (llm, model_alias) =>
            r ← step_with_retries retries llm model_alias steps media_degraded_active media_stripped_active total_usage;
            match r with
            | inr result => mret result
            | inl result =>
              let total_usage := add_usage total_usage (sr_usage result) in
              let media_degraded_active := media_degraded_active || media_degraded_resend_used result in
              let media_stripped_active := media_stripped_active || media_stripped_resend_used result in
              if bool_decide (sr_stop_reason result = StepStop.ToolUse) then
                turn_loop fuel retries steps media_degraded_active media_stripped_active total_usage
              else
                continuation ← await (should_continue_after_stop env (StepStop.debug (sr_stop_reason result)));
                continue_turn ← lift continuation;
                if negb continue_turn then
                  mret (mkTurnResult (map_step_to_turn_stop_reason (sr_stop_reason result)) steps total_usage)
                else turn_loop fuel retries steps media_degraded_active media_stripped_active total_usage
            end
          end
        end
  end.

(** [fuel] bounds the steps, [retries] the attempts of each. *)
Definition run_turn (fuel retries : nat) : M TurnResult := turn_loop fuel retries 0 false false no_usage.
End turn.
