(* ===== verification/TurnLogic.v ===== *)
(** * Reasoning about the turn loop

    How the operations of the monad preserve a relation between the state before
    and after, whatever their outcome, and which of them end; and the relation for
    each of the questions that are asked of a turn. *)
From stdpp Require Import gmap list strings pretty.
From S2P Require Import Prelude RustStd Json ToolScheduler EngineError Context Projector TokenEstimator Memory MemorySound MessagePipeline Provider LlmStream StepRetry TurnTypes TurnLoop.
#[local] Open Scope string_scope.
#[local] Open Scope list_scope.
#[local] Open Scope Z_scope.

(** The operations of a turn are stepped through by their rules. *)
Create HintDb turn.

Section logic.
Context {W : Type}.
Implicit Types (s : St W).

(** ** Relations *)

(** Every run of [m] relates the state before to the one after. *)
Definition runs {A} (R : relation (St W)) (m : M W A) : Prop := forall s, R s (fst (m s)).

Section rules.
Context (R : relation (St W)) `{!PreOrder R}.

Lemma runs_ret {A} (a : A) : runs R (mret a).
Proof. intros s. reflexivity. Qed.
Lemma runs_throw {A} e : runs R (throw (A := A) e).
Proof. intros s. reflexivity. Qed.
Lemma runs_panic {A} : runs R (panic (A := A)).
Proof. intros s. reflexivity. Qed.
Lemma runs_out_of_fuel {A} : runs R (out_of_fuel (A := A)).
Proof. intros s. reflexivity. Qed.
Lemma runs_get : runs R get.
Proof. intros s. reflexivity. Qed.
Lemma runs_lift {A} (r : result EngineError A) : runs R (lift r).
Proof. destruct r; [apply runs_ret|apply runs_throw]. Qed.
Lemma runs_unless_panic {A} (r : result unit A) : runs R (unless_panic r).
Proof. destruct r; [apply runs_ret|apply runs_panic]. Qed.
Lemma runs_bind {A B} (m : M W A) (f : A -> M W B) : runs R m -> (forall a, runs R (f a)) -> runs R (m ≫= f).
Proof.
  intros Hm Hf s. unfold mbind, M_bind. specialize (Hm s). destruct (m s) as [s' [a|e| |]]; simpl in *; [|done..].
  etransitivity; [exact Hm|apply Hf].
Qed.
Lemma runs_catch {A} (m : M W A) : runs R m -> runs R (catch m).
Proof. intros Hm s. unfold catch. specialize (Hm s). by destruct (m s) as [s' []]. Qed.
Lemma runs_modify f : (forall s, R s (f s)) -> runs R (modify f).
Proof. intros H s. apply H. Qed.
Lemma runs_call_now {A} (f : now W A) : (forall s w, R s (set_world w s)) -> runs R (call_now f).
Proof. intros H s. unfold call_now. destruct (f (world s)). apply H. Qed.
End rules.

(** One operation after another, on a state *)
Lemma bind_eq {A B} (m : M W A) (f : A -> M W B) s :
  (m ≫= f) s = match m s with
               | (s', Val a) => f a s'
               | (s', Fail e) => (s', Fail e)
               | (s', Panics) => (s', Panics)
               | (s', OutOfFuel) => (s', OutOfFuel)
               end.
Proof. done. Qed.
Lemma catch_eq {A} (m : M W A) s :
  catch m s = match m s with
              | (s', Val a) => (s', Val (Ok a))
              | (s', Fail e) => (s', Val (Err e))
              | (s', Panics) => (s', Panics)
              | (s', OutOfFuel) => (s', OutOfFuel)
              end.
Proof. done. Qed.

(** ** What is returned *)

Definition returns {A} (Q : A -> Prop) (m : M W A) : Prop := forall s a, snd (m s) = Val a -> Q a.

Lemma returns_ret {A} (Q : A -> Prop) a : Q a -> returns Q (mret a).
Proof. intros H s b [= <-]. done. Qed.
Lemma returns_throw {A} (Q : A -> Prop) e : returns Q (throw e).
Proof. done. Qed.
Lemma returns_bind {A B} (Q : B -> Prop) (m : M W A) (f : A -> M W B) :
  (forall a, returns Q (f a)) -> returns Q (m ≫= f).
Proof.
  intros H s b. rewrite bind_eq. destruct (m s) as [s' [a|e| |]]; [apply H|done..].
Qed.

(** ** Ending *)

(** Within the fuel *)
Definition ends {A} (m : M W A) : Prop := forall s, snd (m s) <> OutOfFuel.

Lemma ends_ret {A} (a : A) : ends (mret a).
Proof. done. Qed.
Lemma ends_throw {A} e : ends (throw (A := A) e).
Proof. done. Qed.
Lemma ends_panic {A} : ends (panic (A := A)).
Proof. done. Qed.
Lemma ends_get : ends get.
Proof. done. Qed.
Lemma ends_modify f : ends (modify f).
Proof. done. Qed.
Lemma ends_lift {A} (r : result EngineError A) : ends (lift r).
Proof. by destruct r. Qed.
Lemma ends_unless_panic {A} (r : result unit A) : ends (unless_panic r).
Proof. by destruct r. Qed.
Lemma ends_call_now {A} (f : now W A) : ends (call_now f).
Proof. intros s. unfold call_now. by destruct (f (world s)). Qed.
Lemma ends_bind {A B} (m : M W A) (f : A -> M W B) : ends m -> (forall a, ends (f a)) -> ends (m ≫= f).
Proof.
  intros Hm Hf s. unfold mbind, M_bind. specialize (Hm s). destruct (m s) as [s' [a|e| |]]; simpl in *; [apply Hf|done..].
Qed.
Lemma ends_catch {A} (m : M W A) : ends m -> ends (catch m).
Proof. intros Hm s. unfold catch. specialize (Hm s). by destruct (m s) as [s' []]. Qed.
End logic.

#[export] Hint Resolve runs_ret runs_throw runs_panic runs_out_of_fuel runs_get runs_lift runs_unless_panic : turn.
#[export] Hint Resolve ends_ret ends_throw ends_panic ends_get ends_modify ends_lift ends_unless_panic ends_call_now : turn.

(** One step through an operation: its rule, a case of what it branches on, or a
    lemma of the database *)
Ltac walk_step :=
  lazymatch goal with
  | |- forall _, _ => intros ?
  | |- runs _ (_ ≫= _) => apply (runs_bind _)
  | |- runs _ (catch _) => apply runs_catch
  | |- runs _ (let '_ := ?x in _) => destruct x eqn:?
  | |- runs _ (match ?x with _ => _ end) => destruct x eqn:?
  | |- ends (_ ≫= _) => apply ends_bind
  | |- ends (catch _) => apply ends_catch
  | |- ends (match ?x with _ => _ end) => destruct x eqn:?
  end.
Ltac walk := repeat (first [solve [eauto with turn typeclass_instances] | walk_step]).

(** ** The footprint of the operations *)

Definition is_usage_record (op : WireOp.t) : bool := match op with WireOp.UsageRecord _ _ => true | _ => false end.

Section footprint.
Context {W : Type} (to_string : json -> string) (to_lowercase : string -> string).
Context (env : Env W) (builders : MessageBuilders) (config : RunTurnConfig).
(** A relation that overlooks the surroundings, the memory, the live events, the
    flag and the records of the wire log other than a usage *)
Context (R : relation (St W)) `{!PreOrder R}.
Context (Hworld : forall s w, R s (set_world w s)) (Hmemory : forall s m, R s (set_memory m s)).
Context (Hemitted : forall s l, R s (set_emitted l s)) (Hflag : forall s b, R s (set_format_rejected b s)).
Context (Hrecorded : forall s op, is_usage_record op = false -> R s (set_recorded (recorded s ++ [op]) s)).

Lemma runs_call_now' {A} (f : now W A) : runs R (call_now f).
Proof. by apply (runs_call_now R). Qed.
Hint Resolve runs_call_now' : turn.

Lemma runs_await {A} (f : ext W A) : runs R (await W to_string f).
Proof. intros s. unfold await. destruct (f (world s)) as [[a ops] w]. simpl. etransitivity; [apply Hmemory|apply Hworld]. Qed.
Hint Resolve runs_await : turn.

Lemma runs_check_cancel : runs R (check_cancel W env).
Proof. unfold check_cancel. walk. Qed.
Lemma runs_emit e : runs R (emit W env e).
Proof. unfold emit. destruct (live_callback env); [|apply (runs_ret R)]. apply (runs_modify R). intros s. apply Hemitted. Qed.
Lemma runs_on_memory f : runs R (on_memory W f).
Proof. apply (runs_modify R). intros s. apply Hmemory. Qed.
Hint Resolve runs_check_cancel runs_emit runs_on_memory : turn.

Lemma runs_record_op op : is_usage_record op = false -> runs R (record_op W to_string env op).
Proof.
  intros Hop. unfold record_op. destruct (wire_recorder env); [|apply (runs_ret R)].
  apply (runs_bind R); [|auto with turn]. apply (runs_modify R). intros s. by apply Hrecorded.
Qed.
Lemma runs_record_all ops : Forall (fun op => is_usage_record op = false) ops -> runs R (record_all W to_string env ops).
Proof.
  induction 1; [apply (runs_ret R)|]. simpl. apply (runs_bind R); [by apply runs_record_op|done].
Qed.
Lemma runs_record_events events : runs R (record_all W to_string env (WireOp.ContextAppendLoopEvent <$> events)).
Proof. apply runs_record_all, Forall_fmap, Forall_true. done. Qed.
Lemma runs_record_event event : runs R (record_loop_event_wire W to_string env event).
Proof. by apply runs_record_op. Qed.
Lemma runs_record_reminders l : runs R (record_system_reminders W to_string env l).
Proof. apply runs_record_all, Forall_fmap, Forall_true. done. Qed.
Hint Resolve runs_record_events runs_record_event runs_record_reminders : turn.

Lemma runs_append_event event : runs R (append_event W to_string event).
Proof. apply runs_on_memory. Qed.
Lemma runs_append_step_begin event : runs R (append_step_begin W to_string env event).
Proof. unfold append_step_begin. walk. Qed.
Hint Resolve runs_append_event runs_append_step_begin : turn.

Lemma runs_emit_all l : runs R (emit_all W env l).
Proof. induction l; simpl; walk. Qed.
Hint Resolve runs_emit_all : turn.
Lemma runs_consume stream : runs R (consume W to_string env stream).
Proof. unfold consume. walk. Qed.
Lemma runs_compute_retry_delay e n : runs R (compute_retry_delay W to_lowercase env e n).
Proof. unfold compute_retry_delay. walk. Qed.
Lemma runs_cancelable_sleep d : runs R (cancelable_sleep W to_string env d).
Proof. unfold cancelable_sleep. walk. Qed.
Hint Resolve runs_consume runs_compute_retry_delay runs_cancelable_sleep : turn.
Lemma runs_after_failure llm what a m e : runs R (after_failure W to_string to_lowercase env llm what a m e).
Proof. unfold after_failure. walk. Qed.
Lemma runs_build b : runs R (build W b).
Proof. unfold build. walk. Qed.
Lemma runs_poll_guard m : runs R m -> runs R (poll_guard W env m).
Proof. intros H. unfold poll_guard. walk. Qed.
Lemma runs_record_usage u r n : runs R (record_usage W to_string env u r n).
Proof. unfold record_usage. walk. Qed.
Hint Resolve runs_after_failure runs_build runs_poll_guard runs_record_usage : turn.

Lemma runs_dispatch_calls step_id batch starts events :
  runs R (dispatch_calls W to_string env step_id batch starts events).
Proof. revert starts events. induction batch as [|[] batch IH]; intros; simpl; walk. Qed.
Hint Resolve runs_dispatch_calls : turn.
Lemma runs_execute_tool_calls step_id calls step : runs R (execute_tool_calls W to_string env step_id calls step).
Proof.
  unfold execute_tool_calls. apply (runs_bind R).
  - intros s. destruct (run_tool_batch env _ step (world s)) as [[? ?] ?]. apply Hworld.
  - walk.
Qed.
Lemma runs_record_results names results starts : runs R (record_results W to_string env names results starts).
Proof. revert starts. induction results as [|[id r] results IH]; intros starts; simpl; walk. Qed.
Hint Resolve runs_execute_tool_calls runs_record_results : turn.
Lemma runs_record_unexecuted step_id calls : runs R (record_unexecuted_tool_calls W to_string step_id calls).
Proof. unfold record_unexecuted_tool_calls. walk. Qed.
Hint Resolve runs_record_unexecuted : turn.
Lemma runs_run_calls step_id step calls e : runs R (run_calls W to_string env step_id step calls e).
Proof. unfold run_calls. walk. Qed.
Lemma runs_close_interrupted_turn : runs R (close_interrupted_turn W to_string env).
Proof. unfold close_interrupted_turn. walk. Qed.
Lemma runs_close_empty e : runs R (close_empty_response_turn W to_string env e).
Proof. unfold close_empty_response_turn. walk. Qed.
Hint Resolve runs_run_calls runs_close_interrupted_turn runs_close_empty : turn.
Lemma runs_aborted a b c d : runs R (aborted W to_string env a b c d).
Proof. unfold aborted. walk. Qed.

Lemma runs_conclude_step result id step stop a b :
  runs R (conclude_step W to_string env result id step stop a b).
Proof. unfold conclude_step. walk. apply (runs_modify R). intros s. apply Hworld. Qed.
Hint Resolve runs_conclude_step : turn.

(** The records of a step's usage and of a changed request header *)
Context (Hany : forall s op, R s (set_recorded (recorded s ++ [op]) s)).

Lemma runs_record_any op : runs R (record_op W to_string env op).
Proof.
  unfold record_op. destruct (wire_recorder env); [|apply (runs_ret R)].
  apply (runs_bind R); [|auto with turn]. by apply (runs_modify R).
Qed.
Hint Resolve runs_record_any : turn.
Lemma runs_finalize_step result id step model a b : runs R (finalize_step W to_string env result id step model a b).
Proof.
  unfold finalize_step. walk.
Qed.
End footprint.

(** The requests, for a relation that overlooks them too *)
Section asking.
Context {W : Type} (to_string : json -> string) (to_lowercase : string -> string).
Context (env : Env W) (builders : MessageBuilders) (config : RunTurnConfig).
Context (R : relation (St W)) `{!PreOrder R}.
Context (Hworld : forall s w, R s (set_world w s)) (Hmemory : forall s m, R s (set_memory m s)).
Context (Hemitted : forall s l, R s (set_emitted l s)) (Hflag : forall s b, R s (set_format_rejected b s)).
Context (Hsent : forall s l, R s (set_sent l s)).

Lemma asking_now {A} (f : now W A) : runs R (call_now f).
Proof. by apply (runs_call_now R). Qed.
Lemma asking_await {A} (f : ext W A) : runs R (await W to_string f).
Proof. by apply runs_await. Qed.
Lemma asking_modify_sent llm params :
  runs R (modify (fun s => set_sent (sent s ++ [(llm, params)]) s)).
Proof. apply (runs_modify R). intros s. apply Hsent. Qed.
Lemma asking_consume stream : runs R (consume W to_string env stream).
Proof. by apply runs_consume. Qed.
Lemma asking_after_failure llm what a m e : runs R (after_failure W to_string to_lowercase env llm what a m e).
Proof. by apply runs_after_failure. Qed.
Lemma asking_build b : runs R (build W b).
Proof. by apply runs_build. Qed.
Lemma asking_flag b : runs R (modify (set_format_rejected b)).
Proof. apply (runs_modify R). intros s. apply Hflag. Qed.
Hint Resolve asking_now asking_await asking_modify_sent asking_consume asking_after_failure asking_build asking_flag : turn.

Lemma runs_chat_attempts llm p m n a : runs R (chat_attempts W to_string to_lowercase env llm p m n a).
Proof. revert a. induction n; intros a; simpl; walk. Qed.
Hint Resolve runs_chat_attempts : turn.
Lemma runs_chat llm p : runs R (chat_with_retry W to_string to_lowercase env config llm p).
Proof. unfold chat_with_retry. walk. Qed.
Hint Resolve runs_chat : turn.
Lemma runs_walk_chain llm t l : runs R (walk_chain W to_string to_lowercase env builders config llm t l).
Proof. induction l; simpl; walk. Qed.
Hint Resolve runs_walk_chain : turn.
Lemma runs_fallback llm t e : runs R (try_media_fallback W to_string to_lowercase env builders config llm t e).
Proof. unfold try_media_fallback. walk. Qed.
End asking.

(** ** What always ends *)

Section endings.
Context {W : Type} (to_string : json -> string) (to_lowercase : string -> string).
Context (env : Env W) (builders : MessageBuilders) (config : RunTurnConfig).

Lemma ends_await {A} (f : ext W A) : ends (await W to_string f).
Proof. intros s. unfold await. by destruct (f (world s)) as [[]]. Qed.
Hint Resolve ends_await : turn.
Lemma ends_check_cancel : ends (check_cancel W env).
Proof. unfold check_cancel. walk. Qed.
Lemma ends_emit e : ends (emit W env e).
Proof. unfold emit. walk. Qed.
Lemma ends_on_memory f : ends (on_memory W f).
Proof. done. Qed.
Lemma ends_record_op op : ends (record_op W to_string env op).
Proof. unfold record_op. walk. Qed.
Hint Resolve ends_check_cancel ends_emit ends_on_memory ends_record_op : turn.
Lemma ends_record_all ops : ends (record_all W to_string env ops).
Proof. induction ops; simpl; walk. Qed.
Lemma ends_emit_all l : ends (emit_all W env l).
Proof. induction l; simpl; walk. Qed.
Hint Resolve ends_record_all ends_emit_all : turn.
Lemma ends_record_event e : ends (record_loop_event_wire W to_string env e).
Proof. apply ends_record_op. Qed.
Lemma ends_append_event e : ends (append_event W to_string e).
Proof. done. Qed.
Lemma ends_append_step_begin e : ends (append_step_begin W to_string env e).
Proof. unfold append_step_begin. walk. Qed.
Hint Resolve ends_record_event ends_append_event ends_append_step_begin : turn.
Lemma ends_consume st : ends (consume W to_string env st).
Proof. unfold consume. walk. Qed.
Lemma ends_compute_retry_delay e n : ends (compute_retry_delay W to_lowercase env e n).
Proof. unfold compute_retry_delay. walk. Qed.
Lemma ends_cancelable_sleep d : ends (cancelable_sleep W to_string env d).
Proof. unfold cancelable_sleep. walk. Qed.
Hint Resolve ends_consume ends_compute_retry_delay ends_cancelable_sleep : turn.
Lemma ends_after_failure llm what a m e : ends (after_failure W to_string to_lowercase env llm what a m e).
Proof. unfold after_failure. walk. Qed.
Hint Resolve ends_after_failure : turn.
Lemma ends_chat_attempts llm p m n a : ends (chat_attempts W to_string to_lowercase env llm p m n a).
Proof. revert a. induction n; intros a; simpl; walk. Qed.
Hint Resolve ends_chat_attempts : turn.
Lemma ends_chat llm p : ends (chat_with_retry W to_string to_lowercase env config llm p).
Proof. unfold chat_with_retry. walk. Qed.
Lemma ends_build b : ends (build W b).
Proof. unfold build. walk. Qed.
Hint Resolve ends_chat ends_build : turn.
Lemma ends_walk_chain llm t l : ends (walk_chain W to_string to_lowercase env builders config llm t l).
Proof. induction l; simpl; walk. Qed.
Hint Resolve ends_walk_chain : turn.
Lemma ends_fallback llm t e : ends (try_media_fallback W to_string to_lowercase env builders config llm t e).
Proof. unfold try_media_fallback. walk. Qed.
Lemma ends_dispatch_calls id b st ev : ends (dispatch_calls W to_string env id b st ev).
Proof. revert st ev. induction b as [|[] b IH]; intros; simpl; walk. Qed.
Hint Resolve ends_fallback ends_dispatch_calls : turn.
Lemma ends_execute_tool_calls id c n : ends (execute_tool_calls W to_string env id c n).
Proof.
  unfold execute_tool_calls. apply ends_bind; [|walk]. intros s. by destruct (run_tool_batch env _ n (world s)) as [[]].
Qed.
Lemma ends_record_results names rs st : ends (record_results W to_string env names rs st).
Proof. revert st. induction rs as [|[] rs IH]; intros; simpl; walk. Qed.
Lemma ends_record_usage u r n : ends (record_usage W to_string env u r n).
Proof. unfold record_usage. walk. Qed.
Hint Resolve ends_execute_tool_calls ends_record_results ends_record_usage : turn.
Lemma ends_run_calls id n c e : ends (run_calls W to_string env id n c e).
Proof. unfold run_calls, poll_guard, record_unexecuted_tool_calls, record_system_reminders. walk. Qed.
Hint Resolve ends_run_calls : turn.
Lemma ends_finalize_step r id n model a b : ends (finalize_step W to_string env r id n model a b).
Proof. unfold finalize_step, conclude_step. walk. Qed.
Hint Resolve ends_finalize_step : turn.
Lemma ends_execute_loop_step llm alias n a b :
  ends (execute_loop_step W to_string to_lowercase env builders config llm alias n a b).
Proof. unfold execute_loop_step. walk. Qed.
Lemma ends_close_empty e : ends (close_empty_response_turn W to_string env e).
Proof. unfold close_empty_response_turn, record_system_reminders. walk. Qed.
Lemma ends_aborted a b c d : ends (aborted W to_string env a b c d).
Proof. unfold aborted, close_interrupted_turn. walk. Qed.
End endings.

(** ** A scripted turn

    Surroundings in which the model's answers are a list and the tools do nothing,
    to run the turn loop on. *)

(** The answers that are left, and the number of step ids given out *)
Record Script : Type := mkScript { answers : list (result EngineError (list LlmEvent.t)); ids : nat }.

Definition quietly {A} (a : A) : ext Script A := fun w => (a, [], w).

Definition script_llm : Llm Script :=
  mkLlm Script None "model" (mkCapability false false false false) (fun info => is_transient_provider_error to_ascii_lowercase info)
    (fun params => quietly params)
    (fun _ w => match answers w with
                | [] => (Err (ProviderError "no answer left"), w)
                | Err e :: rest => (Err e, mkScript rest (ids w))
                | Ok events :: rest => (Ok (quietly events), mkScript rest (ids w))
                end).

(** Every call is run; the first one of a batch, if it is a [Skill], answers with
    an instruction. *)
Definition plain_result (call : string * string * string) : string * @ToolScheduler.ToolResult Context.ContentPart :=
  (call.2, mkToolResult (ToolScheduler.Text "done") false None false false None).
Definition skill_result (call : string * string * string) : string * @ToolScheduler.ToolResult Context.ContentPart :=
  (call.2, mkToolResult (ToolScheduler.Text "done") false None false false
             (if String.eqb call.1.1 "Skill" then Some "follow the skill" else None)).
Definition script_results (calls : list (string * string * string)) :
    list (string * @ToolScheduler.ToolResult Context.ContentPart) :=
  match calls with [] => [] | call :: rest => skill_result call :: (plain_result <$> rest) end.

Definition script_env : Env Script :=
  mkEnv Script (fun w => (false, w)) (fun w => (false, w)) (fun w => (0, w)) (fun w => (7, w)) (fun l w => (l, w))
    (fun _ => quietly true) None (fun w => (Ok (script_llm, None), w)) (fun _ => quietly (Ok (false, None)))
    (fun _ w => w) (fun _ w => w) (fun _ => quietly (Ok false)) (fun _ => quietly (Ok false)) None
    (fun w => ([mkToolDefinition "Read" "" JNull false; mkToolDefinition "ReadMediaFile" "" JNull false], w))
    (fun triples _ w => ((fun '(name, _, id) => Dispatched id name JNull 7) <$> triples, script_results triples, w))
    (fun w => ("step-" +:+ pretty (ids w), mkScript (answers w) (S (ids w)))) true (Some (fun _ => quietly tt)).

Definition script_builders : MessageBuilders := from_shared_memory (fun _ => true).
Definition script_config : RunTurnConfig := mkTurnConfig (Some 5) 2 (Some default_retry_config) None.

Definition script_start (script : list (result EngineError (list LlmEvent.t))) : St Script :=
  mkSt Script (mkScript script 0) (run no_json [OpMessage (says "hello")] (with_limits 100 1)) [] [] new_retry_state false [].

(** A step that calls two tools, one that is empty, its repetition, and the end *)
Definition sample_script : list (result EngineError (list LlmEvent.t)) :=
  [Ok [LlmEvent.TextPart "let me see"; LlmEvent.ToolCall "Skill" JNull "c1"; LlmEvent.ToolCall "Read" JNull "c2";
       LlmEvent.Usage 10 0 0 0; LlmEvent.Usage 0 5 0 0; LlmEvent.Done "tool_calls"];
   Ok [LlmEvent.Usage 7 0 0 0; LlmEvent.Done "completed"];
   Err (ProviderError "connection reset");
   Ok [LlmEvent.TextPart "all done"; LlmEvent.Usage 20 3 0 0; LlmEvent.Done "completed"]].

Definition script_run (script : list (result EngineError (list LlmEvent.t))) : St Script * outcome TurnResult :=
  run_turn Script no_json to_ascii_lowercase script_env script_builders script_config 6 3 (script_start script).

Lemma script_run_eq script :
  script_run script = run_turn Script no_json to_ascii_lowercase script_env script_builders script_config 6 3 (script_start script).
Proof. reflexivity. Qed.

Example sample_run_ends :
  snd (script_run sample_script) = Val (mkTurnResult TurnStop.EndTurn 2 (mkUsage 30 8 0 0)) /\
  length (sent (fst (script_run sample_script))) = 4%nat.
Proof. vm_compute. done. Qed.
