(* ===== verification/TurnBounds.v ===== *)
(** * What a turn costs

    How many requests a turn makes of a model, what each of them shows it, and
    that the turn ends. *)
From stdpp Require Import gmap list strings pretty.
From S2P Require Import Prelude RustStd Json ToolScheduler EngineError Context Projector TokenEstimator Memory MemorySound MessagePipeline Provider LlmStream StepRetry TurnTypes TurnLoop TurnLogic.
#[local] Open Scope string_scope.
#[local] Open Scope list_scope.
#[local] Open Scope Z_scope.

Section bounds.
Context {W : Type} (to_string : json -> string) (to_lowercase : string -> string).
Context (env : Env W) (builders : MessageBuilders) (config : RunTurnConfig).
(** A limit of retries is a number of 32 bits. *)
Context (Hconfig : forall c, step_retry config = Some c -> 0 <= max_retries_per_step c <= u32_max).

(** ** Requests *)

(** At most [n] requests are made, each of them one that [P] allows, and the retry
    service is left alone. *)
Definition asks (P : Llm W * LlmChatParams -> Prop) (n : nat) (s s' : St W) : Prop :=
  retry_state s' = retry_state s /\
  exists l, sent s' = sent s ++ l /\ Forall P l /\ (length l <= n)%nat.

Section requests.
Context (P : Llm W * LlmChatParams -> Prop).

#[local] Instance asks_preorder : PreOrder (asks P 0).
Proof.
  split.
  - intros s. split; [done|]. exists []. by rewrite app_nil_r.
  - intros a b c [E1 (l & H1 & H2 & H3)] [E2 (k & G1 & G2 & G3)]. split; [congruence|].
    destruct l, k; simpl in *; [|lia..]. exists []. rewrite G1, H1, !app_nil_r. done.
Qed.

Lemma asks_nothing s s' : retry_state s' = retry_state s -> sent s' = sent s -> asks P 0 s s'.
Proof. intros H1 H2. split; [done|]. exists []. by rewrite app_nil_r. Qed.

Lemma asks_mono n k s s' : (n <= k)%nat -> asks P n s s' -> asks P k s s'.
Proof. intros Hn [E (l & H1 & H2 & H3)]. split; [done|]. exists l. split_and!; [done..|lia]. Qed.

Lemma asks_trans n k a b c : asks P n a b -> asks P k b c -> asks P (n + k) a c.
Proof.
  intros [E1 (l & H1 & H2 & H3)] [E2 (l' & G1 & G2 & G3)]. split; [congruence|].
  exists (l ++ l'). rewrite G1, H1, app_assoc, Forall_app, length_app. split_and!; [done..|lia].
Qed.

Lemma asks_bind {A B} n k (m : M W A) (f : A -> M W B) :
  runs (asks P n) m -> (forall a, runs (asks P k) (f a)) -> runs (asks P (n + k)) (m ≫= f).
Proof.
  intros Hm Hf s. unfold mbind, M_bind. specialize (Hm s). destruct (m s) as [s' [a|e| |]]; simpl in *.
  - eapply asks_trans; [exact Hm|apply Hf].
  - eapply asks_mono; [|exact Hm]. lia.
  - eapply asks_mono; [|exact Hm]. lia.
  - eapply asks_mono; [|exact Hm]. lia.
Qed.

(** What makes no request first *)
Lemma asks_bind0 {A B} k (m : M W A) (f : A -> M W B) :
  runs (asks P 0) m -> (forall a, runs (asks P k) (f a)) -> runs (asks P k) (m ≫= f).
Proof. apply asks_bind. Qed.

Lemma asks_weaken {A} n k (m : M W A) : (n <= k)%nat -> runs (asks P n) m -> runs (asks P k) m.
Proof. intros H Hm s. eapply asks_mono; [exact H|apply Hm]. Qed.

Local Ltac nothing := intros; by apply asks_nothing.

(** Everything but a request itself *)
Lemma asks_footprint {A} (m : M W A) :
  (forall R, PreOrder R -> (forall s w, R s (set_world w s)) -> (forall s m, R s (set_memory m s)) ->
     (forall s l, R s (set_emitted l s)) -> (forall s b, R s (set_format_rejected b s)) ->
     (forall s op, is_usage_record op = false -> R s (set_recorded (recorded s ++ [op]) s)) -> runs R m) ->
  runs (asks P 0) m.
Proof. intros H. apply H; [apply _|nothing..]. Qed.

End requests.

(** ** What a request shows *)

(** Nothing of a modality the model does not declare, nor the tool that would read it *)
Definition fit (llm : Llm W) (params : LlmChatParams) : Prop :=
  all_supported (capability llm) (messages params) /\
  (image_in (capability llm) = false -> video_in (capability llm) = false ->
   Forall (fun tool => td_name tool <> "ReadMediaFile") (tools params)).

(** Materializing media rewrites references: it shows nothing new. *)
Definition materializes (llm : Llm W) : Prop :=
  forall params w, fit llm params -> fit llm (fst (fst (materialize_media llm params w))).

Definition fit_request (r : Llm W * LlmChatParams) : Prop := fit (fst r) (snd r).
#[local] Existing Instance asks_preorder.
Notation asks_fit n := (asks fit_request n).

Definition attempts_allowed : nat := Z.to_nat (effective_attempts (max_retry_attempts config)).

Lemma asks_sent llm params :
  fit llm params -> runs (asks_fit 1) (modify (fun s => set_sent (sent s ++ [(llm, params)]) s)).
Proof.
  intros Hf s. split; [done|]. exists [(llm, params)]. split_and!; [done|by apply Forall_singleton|simpl; lia].
Qed.

Ltac footprint := apply (asks_footprint fit_request); intros R ??????.

Lemma asks_await {A} (f : ext W A) : runs (asks_fit 0) (await W to_string f).
Proof. footprint. by apply runs_await. Qed.
Lemma asks_call_now {A} (f : now W A) : runs (asks_fit 0) (call_now f).
Proof. footprint. by apply (runs_call_now R). Qed.
Lemma asks_after_failure llm what a m e : runs (asks_fit 0) (after_failure W to_string to_lowercase env llm what a m e).
Proof. footprint. by apply runs_after_failure. Qed.
Lemma asks_consume stream : runs (asks_fit 0) (consume W to_string env stream).
Proof. footprint. by apply runs_consume. Qed.
Hint Resolve asks_await asks_call_now asks_after_failure asks_consume asks_sent : turn.

Lemma chat_attempts_asks llm params m n attempt :
  fit llm params -> runs (asks_fit n) (chat_attempts W to_string to_lowercase env llm params m n attempt).
Proof.
  intros Hf. revert attempt. induction n as [|n IH]; intros attempt; simpl; [apply (runs_throw _)|].
  apply (asks_bind fit_request 1 n); [auto with turn|intros _].
  apply asks_bind0; [auto with turn|intros [stream|error]].
  - apply asks_bind0; [by apply runs_catch, asks_consume|intros [result|error]].
    + apply (asks_weaken _ 0); [lia|apply (runs_ret _)].
    + apply asks_bind0; [auto with turn|intros _; apply IH].
  - apply asks_bind0; [auto with turn|intros _; apply IH].
Qed.

Lemma chat_asks llm params :
  materializes llm -> fit llm params ->
  runs (asks_fit attempts_allowed) (chat_with_retry W to_string to_lowercase env config llm params).
Proof.
  intros Hm Hf s. unfold chat_with_retry, mbind, M_bind, await.
  specialize (Hm params (world s) Hf). destruct (materialize_media llm params (world s)) as [[p ops] w]. cbn [fst] in Hm.
  apply (asks_trans fit_request 0 attempts_allowed s (set_world w (set_memory (run to_string ops (memory s)) s)));
    [by apply asks_nothing|exact (chat_attempts_asks llm p _ attempts_allowed 1 Hm _)].
Qed.

(** ** A step *)

Lemma adapt_fit llm label built step_tools :
  (image_in (capability llm) = false -> video_in (capability llm) = false ->
   Forall (fun tool => td_name tool <> "ReadMediaFile") step_tools) ->
  fit llm (mkParams (adapt W llm label built) step_tools (tc_cache_root_id config)).
Proof. intros Ht. split; [apply pipeline_supported|done]. Qed.

Lemma offered_fit caps step_tools :
  image_in caps = false -> video_in caps = false ->
  Forall (fun tool => td_name tool <> "ReadMediaFile") (offered_tools caps step_tools).
Proof.
  intros Hi Hv. unfold offered_tools. rewrite Hi, Hv. simpl. apply List.Forall_forall. intros t Ht.
  apply filter_In in Ht as [_ Ht]. by apply negb_true_iff, bool_decide_eq_false in Ht.
Qed.

Lemma asks_build b : runs (asks_fit 0) (build W b).
Proof. footprint. by apply runs_build. Qed.

Lemma walk_chain_asks llm step_tools levels :
  materializes llm ->
  (image_in (capability llm) = false -> video_in (capability llm) = false ->
   Forall (fun tool => td_name tool <> "ReadMediaFile") step_tools) ->
  runs (asks_fit (length levels * attempts_allowed))
    (walk_chain W to_string to_lowercase env builders config llm step_tools levels).
Proof.
  intros Hm Ht. induction levels as [|level levels IH]; simpl; [apply (runs_ret _)|].
  assert (Hskip : runs (asks_fit (attempts_allowed + length levels * attempts_allowed))
                    (walk_chain W to_string to_lowercase env builders config llm step_tools levels))
    by (eapply asks_weaken; [|exact IH]; lia).
  destruct (level_builder builders level); [|done].
  apply asks_bind0; [by apply runs_catch, asks_build|intros [alt|e]; [|done]].
  apply asks_bind; [by apply runs_catch, chat_asks; [|apply adapt_fit]|].
  intros [result|e]; [|done]. apply (asks_weaken _ 0); [lia|apply (runs_ret _)].
Qed.

Lemma fallback_asks llm step_tools error :
  materializes llm ->
  (image_in (capability llm) = false -> video_in (capability llm) = false ->
   Forall (fun tool => td_name tool <> "ReadMediaFile") step_tools) ->
  runs (asks_fit (3 * attempts_allowed))
    (try_media_fallback W to_string to_lowercase env builders config llm step_tools error).
Proof.
  intros Hm Ht. unfold try_media_fallback. destruct (fallback_level _ _) as [level|];
    [|apply (asks_weaken _ 0); [lia|apply (runs_ret _)]].
  apply asks_bind0.
  - footprint. case_bool_decide; [by apply (runs_modify R)|apply (runs_ret R)].
  - intros _. apply (asks_weaken _ (length (chain_from level) * attempts_allowed)); [destruct level; simpl; lia|].
    by apply walk_chain_asks.
Qed.


Lemma asks_any {A} (m : M W A) :
  (forall R, PreOrder R -> (forall s w, R s (set_world w s)) -> (forall s m, R s (set_memory m s)) ->
     (forall s l, R s (set_emitted l s)) -> (forall s b, R s (set_format_rejected b s)) ->
     (forall s op, R s (set_recorded (recorded s ++ [op]) s)) -> runs R m) ->
  runs (asks_fit 0) m.
Proof. intros H. apply H; [apply _|intros; by apply asks_nothing..]. Qed.

Lemma execute_asks llm alias step degraded stripped :
  materializes llm ->
  runs (asks_fit (4 * attempts_allowed))
    (execute_loop_step W to_string to_lowercase env builders config llm alias step degraded stripped).
Proof.
  intros Hm. unfold execute_loop_step.
  apply asks_bind0; [apply asks_await|intros before].
  apply asks_bind0; [apply (runs_lift _)|intros [block reason]].
  apply asks_bind0; [destruct block; [apply (runs_throw _)|apply (runs_ret _)]|intros _].
  apply asks_bind0; [footprint; by apply runs_check_cancel|intros _].
  apply asks_bind0; [apply asks_call_now|intros all_tools].
  apply asks_bind0; [apply asks_build|intros built].
  apply asks_bind0; [footprint; by apply runs_check_cancel|intros _].
  apply asks_bind0; [apply asks_call_now|intros step_id].
  apply asks_bind0; [footprint; by apply runs_append_step_begin|intros _].
  apply asks_bind0; [footprint; by apply runs_record_event|intros _].
  apply asks_bind0; [footprint; by apply (runs_modify R)|intros _].
  apply (asks_bind fit_request attempts_allowed (3 * attempts_allowed)).
  { apply runs_catch, chat_asks; [done|]. apply adapt_fit, offered_fit. }
  intros [result|error].
  - apply (asks_weaken _ 0); [lia|]. apply asks_any. intros R ??????. by apply runs_finalize_step.
  - rewrite <- (Nat.add_0_r (3 * attempts_allowed)). apply asks_bind; [by apply fallback_asks; [|apply offered_fit]|].
    intros [[[result degraded'] stripped']|]; [|apply (runs_throw _)].
    apply asks_any. intros R ??????. apply (runs_bind R); [|intros _; by apply runs_finalize_step].
    destruct (degraded' || stripped'); [by apply runs_record_any|apply (runs_ret R)].
Qed.

(** ** A step with its retries *)

(** Requests, whatever the retry service counts *)
Definition made (n : nat) (s s' : St W) : Prop :=
  exists l, sent s' = sent s ++ l /\ Forall fit_request l /\ (length l <= n)%nat.

Lemma made_refl n s : made n s s.
Proof. exists []. rewrite app_nil_r. split_and!; [done|constructor|simpl; lia]. Qed.
Lemma made_trans n k a b c : made n a b -> made k b c -> made (n + k) a c.
Proof.
  intros (l & H1 & H2 & H3) (l' & G1 & G2 & G3). exists (l ++ l').
  rewrite G1, H1, app_assoc, Forall_app, length_app. split_and!; [done..|lia].
Qed.
Lemma made_mono n k s s' : (n <= k)%nat -> made n s s' -> made k s s'.
Proof. intros Hn (l & H1 & H2 & H3). exists l. split_and!; [done..|lia]. Qed.
Lemma asks_made n s s' : asks_fit n s s' -> made n s s'.
Proof. intros [_ H]. exact H. Qed.

(** The retries a step still has *)
Definition retries_left (step : Z) (r : StepRetryState) : nat :=
  match step_retry config with
  | Some c => Z.to_nat (max_retries_per_step c - step_attempt_count step r)
  | None => 0
  end.
Definition counts_ok (r : StepRetryState) : Prop := forall step, 0 <= step_attempt_count step r.

Definition retry_limit : nat :=
  match step_retry config with Some c => Z.to_nat (max_retries_per_step c) | None => 0 end.

Lemma retries_left_limit step r : counts_ok r -> (retries_left step r <= retry_limit)%nat.
Proof. intros H. specialize (H step). unfold retries_left, retry_limit. destruct (step_retry config); lia. Qed.

Lemma record_success_ok step d r : counts_ok r -> counts_ok (record_success step d r).
Proof.
  intros H t. specialize (H t). unfold step_attempt_count in *. simpl.
  destruct (decide (t = step)) as [->|]; [by rewrite lookup_delete_eq|by rewrite lookup_delete_ne].
Qed.

(** What is kept from the failure of an attempt to the next *)
Lemma should_retry_left c step error r r' attempt m :
  step_retry config = Some c -> counts_ok r ->
  should_retry to_lowercase c step STEP_DRIVER_ID error r = (r', Some (Retry attempt m)) ->
  counts_ok r' /\ (S (retries_left step r') <= retries_left step r)%nat.
Proof.
  intros Hc Hr H.  pose proof H as G. apply should_retry_granted in G as (_ & Ea & Ec & Hle & Em & _); [|by apply Hconfig|apply Hr].
  split.
  - intros t. unfold should_retry in H. repeat case_match; simplify_eq. specialize (Hr t).
    unfold step_attempt_count, sat_add_u32, u32_max in *. simpl.
    destruct (decide (t = step)) as [->|]; [|by rewrite lookup_insert_ne].
    rewrite lookup_insert_eq. cbn. cbn in Hr. unfold sat_add_u32, step_attempt_count, u32_max. lia.
  - unfold retries_left. rewrite Hc. pose proof (Hr step). lia.
Qed.

Definition step_outcome_ok (n fuel : nat) (s : St W) (r : St W * outcome (StepResult + TurnResult)) : Prop :=
  made (S n * (4 * attempts_allowed)) s (fst r) /\ counts_ok (retry_state (fst r)) /\
  ((n < fuel)%nat -> snd r <> OutOfFuel).

Lemma quiet_end {A} (m : M W A) s s' n :
  runs (asks_fit 0) m -> made n s s' -> counts_ok (retry_state s') ->
  made n s (fst (m s')) /\ counts_ok (retry_state (fst (m s'))).
Proof.
  intros Hm H1 H2. specialize (Hm s'). split; [|by rewrite (proj1 Hm)].
  rewrite <- (Nat.add_0_r n). eapply made_trans; [exact H1|by apply asks_made].
Qed.

Lemma asks_empty error : runs (asks_fit 0) (close_empty_response_turn W to_string env error).
Proof. footprint. by apply runs_close_empty. Qed.
Lemma asks_aborted a b c d : runs (asks_fit 0) (aborted W to_string env a b c d).
Proof. footprint. by apply runs_aborted. Qed.
Lemma asks_emit e : runs (asks_fit 0) (emit W env e).
Proof. footprint. by apply runs_emit. Qed.

Lemma gave_up_ok error n fuel s s' :
  made (S n * (4 * attempts_allowed)) s s' -> counts_ok (retry_state s') ->
  step_outcome_ok n fuel s ((close_empty_response_turn W to_string env error;; throw error) s').
Proof.
  intros H1 H2. assert (Hq : runs (asks_fit 0) (close_empty_response_turn W to_string env error;; throw (A := StepResult + TurnResult) error)).
  { apply asks_bind0; [apply asks_empty|intros _; apply (runs_throw _)]. }
  destruct (quiet_end _ s s' _ Hq H1 H2) as [G1 G2]. split; [done|]. split; [done|]. intros _.
  apply ends_bind; [apply ends_close_empty|done].
Qed.

Lemma step_with_retries_ok fuel llm alias step degraded stripped usage s :
  materializes llm -> counts_ok (retry_state s) ->
  step_outcome_ok (retries_left step (retry_state s)) fuel s
    (step_with_retries W to_string to_lowercase env builders config fuel llm alias step degraded stripped usage s).
Proof.
  intros Hm. pose proof should_retry_left as Hleft. revert s. induction fuel as [|fuel IH]; intros s Hr; simpl.
  { split; [apply made_refl|]. split; [done|lia]. }
  rewrite bind_eq, catch_eq.
  pose proof (execute_asks llm alias step degraded stripped Hm s) as Ha.
  pose proof (ends_execute_loop_step to_string to_lowercase env builders config llm alias step degraded stripped s) as He.
  destruct (execute_loop_step _ _ _ _ _ _ _ _ _ _ _ s) as [s1 o]. simpl in Ha, He.
  pose proof (asks_made _ _ _ Ha) as H1. destruct Ha as [Er _].
  assert (Hr1 : counts_ok (retry_state s1)) by (by rewrite Er).
  set (n := retries_left step (retry_state s)).
  assert (H1' : made (S n * (4 * attempts_allowed)) s s1) by (eapply made_mono; [|exact H1]; lia).
  destruct o as [result|error| |]; [..|done].
  3: by repeat split.
  - destruct (step_retry config); repeat split; simpl; [done|by apply record_success_ok|done|done|done|done].
  - destruct (is_abort error).
    { assert (Hq : runs (asks_fit 0) (ended ← aborted W to_string env step (Some step) None usage;
                                      mret (M := M W) (A := StepResult + TurnResult) (inr ended)))
        by (apply asks_bind0; [apply asks_aborted|intros ?; apply (runs_ret _)]).
      destruct (quiet_end _ s s1 _ Hq H1' Hr1) as [G1 G2]. split; [done|]. split; [done|]. intros _.
      apply ends_bind; [apply ends_aborted|done]. }
    destruct (step_retry config) as [c|] eqn:Ec; [|by apply gave_up_ok].
    rewrite bind_eq. unfold get.
    destruct (should_retry to_lowercase c step STEP_DRIVER_ID error (retry_state s1)) as [r' d] eqn:Ed.
    rewrite bind_eq. unfold modify.
    destruct d as [[attempt m|]|].
    + destruct (Hleft c step error _ _ attempt m eq_refl Hr1 Ed) as [Hr' Hl].
      rewrite bind_eq.
      pose proof (asks_emit (LiveEvent.StepRetrying attempt (attempt + 1) (m + 1) 0) (set_retry_state r' s1)) as He2.
      assert (Hev : exists s2, emit W env (LiveEvent.StepRetrying attempt (attempt + 1) (m + 1) 0) (set_retry_state r' s1)
                = (s2, Val tt)) by (unfold emit; destruct (live_callback env); by eexists).
      destruct Hev as [s2 Hev]. rewrite Hev in *. simpl in He2. destruct He2 as [E2 (l2 & S2 & _ & L2)].
      destruct l2; [|simpl in L2; lia]. rewrite app_nil_r in S2. simpl in S2, E2.
      destruct (IH s2) as (G1 & G2 & G3); [by rewrite E2|]. rewrite E2 in *. rewrite Er in Hl. fold n in Hl.
      split; [|split; [done|intros Hn; apply G3; lia]].
      eapply made_mono; [|eapply (made_trans _ _ s s1); [exact H1|]].
      2:{ destruct G1 as (l & A1 & A2 & A3). exists l. rewrite A1, S2. split_and!; [done..|exact A3]. }
      nia.
    + apply gave_up_ok; [done|]. simpl. by rewrite (should_retry_keeps _ _ _ _ _ _ _ _ Ed eq_refl).
    + apply gave_up_ok; [done|]. simpl. by rewrite (should_retry_keeps _ _ _ _ _ _ _ _ Ed eq_refl).
Qed.

(** ** A turn *)

(** The models a turn is given only materialize. *)
Context (Hmodels : forall w llm alias w', resolve_with_alias env w = (Ok (llm, alias), w') -> materializes llm).

(** The requests of one step, with its retries and its fallbacks *)
Definition step_requests : nat := S retry_limit * (4 * attempts_allowed).

Definition turn_outcome_ok (m steps : Z) (fuel retries : nat) (s : St W) (r : St W * outcome TurnResult) : Prop :=
  made (Z.to_nat (m - steps) * step_requests) s (fst r) /\ counts_ok (retry_state (fst r)) /\
  ((Z.to_nat (m - steps) < fuel)%nat -> (retry_limit < retries)%nat -> snd r <> OutOfFuel) /\
  (forall result, snd r = Val result -> steps <= tr_steps result <= m).

Lemma turn_quiet m steps fuel retries (q : M W TurnResult) s s' :
  runs (asks_fit 0) q -> ends q -> made 0 s s' -> counts_ok (retry_state s') ->
  (forall r, snd (q s') = Val r -> steps <= tr_steps r <= m) ->
  turn_outcome_ok m steps fuel retries s (q s').
Proof.
  intros Hq He H1 H2 Hv. destruct (quiet_end q s s' 0 Hq H1 H2) as [G1 G2].
  split; [eapply made_mono; [|exact G1]; apply Nat.le_0_l|]. split; [done|]. split; [intros _ _; apply He|exact Hv].
Qed.

Lemma aborted_steps steps a b u s r : snd (aborted W to_string env steps a b u s) = Val r -> tr_steps r = steps.
Proof.
  unfold aborted, mbind, M_bind. destruct (close_interrupted_turn W to_string env s) as [s1 [|?| |]]; [|done..].
  destruct (emit W env _ s1) as [s2 [|?| |]]; [|done..]. by intros [= <-].
Qed.

(** The step and the turn it ends have the same number. *)
Lemma step_with_retries_steps fuel llm alias steps d st u s r :
  snd (step_with_retries W to_string to_lowercase env builders config fuel llm alias steps d st u s) = Val (inr r) ->
  tr_steps r = steps.
Proof.
  revert s. induction fuel as [|fuel IH]; intros s; [done|]. simpl. rewrite bind_eq, catch_eq.
  destruct (execute_loop_step _ _ _ _ _ _ _ _ _ _ _ s) as [s1 [result|error| |]]; [..|done|done].
  - unfold mbind, M_bind. by destruct (step_retry config).
  - destruct (is_abort error).
    { unfold mbind, M_bind. destruct (aborted W to_string env steps (Some steps) None u s1) as [s2 [x|?| |]] eqn:E; try done.
      intros [= <-]. eapply aborted_steps. by rewrite E. }
    assert (Hgone : forall s, snd ((close_empty_response_turn W to_string env error;;
                                    throw (A := StepResult + TurnResult) error) s) <> Val (inr r)).
    { intros s2. unfold mbind, M_bind. by destruct (close_empty_response_turn W to_string env error s2) as [? []]. }
    destruct (step_retry config) as [c|]; [|intros H; by destruct (Hgone s1)].
    rewrite bind_eq. unfold get.
    destruct (should_retry to_lowercase c steps STEP_DRIVER_ID error (retry_state s1)) as [r' d'].
    rewrite bind_eq. unfold modify.
    destruct d' as [[attempt m|]|]; [|intros H; by destruct (Hgone (set_retry_state r' s1))..].
    rewrite bind_eq. unfold emit. destruct (live_callback env); apply IH.
Qed.

Lemma turn_loop_ok m fuel retries steps degraded stripped usage s :
  max_steps config = Some m -> 0 < m <= u32_max -> 0 <= steps <= m -> counts_ok (retry_state s) ->
  turn_outcome_ok m steps fuel retries s
    (turn_loop W to_string to_lowercase env builders config fuel retries steps degraded stripped usage s).
Proof.
  intros Hc Hm. revert steps degraded stripped usage s.
  induction fuel as [|fuel IH]; intros steps degraded stripped usage s Hs Hr; simpl.
  { split; [eapply made_mono; [|apply made_refl]; apply Nat.le_0_l|]. split; [done|]. split; [lia|done]. }
  assert (Habort : forall a b s1, made 0 s s1 -> counts_ok (retry_state s1) ->
            turn_outcome_ok m steps (S fuel) retries s (aborted W to_string env steps a b usage s1)).
  { intros a b s1 H1 H2. apply turn_quiet; [apply asks_aborted|apply ends_aborted|done..|].
    intros r Hv. apply aborted_steps in Hv. lia. }
  rewrite bind_eq. unfold call_now at 1. destruct (is_cancelled env (world s)) as [cancelled w1].
  destruct cancelled; [by apply Habort; [exists []; rewrite app_nil_r; split_and!; [done|constructor|simpl; lia]|]|].
  assert (Hguard : exists alive w2, (match turn_abort_guard env with Some guard => call_now guard | None => mret true end)
                                       (set_world w1 s) = (set_world w2 s, Val alive)).
  { destruct (turn_abort_guard env) as [guard|]; [|by eexists _, _].
    unfold call_now. simpl. destruct (guard w1) as [alive w2]. by exists alive, w2. }
  destruct Hguard as (alive & w2 & Hguard). rewrite bind_eq. rewrite Hguard.
  assert (Hm2 : forall w, made 0 s (set_world w s))
    by (intros w; exists []; rewrite app_nil_r; split_and!; [done|constructor|simpl; lia]).
  destruct alive; cbn [negb]; cbv iota; [|by apply Habort].
  unfold steps_exceeded. rewrite Hc. destruct ((0 <? m) && (m <=? steps)) eqn:Eb; cbv beta iota.
  { split; [eapply made_mono; [|apply (Hm2 w2)]; apply Nat.le_0_l|]. repeat split; [done|done|done|done]. }
  assert (Hlt : steps < m) by (apply andb_false_iff in Eb as [Eb|Eb]; bsimpl; lia).
  assert (Hwrap : wrap_u32 (steps + 1) = steps + 1) by (apply wrap_u32_small; unfold u32_max in *; lia).
  rewrite Hwrap. rewrite bind_eq. unfold call_now at 1.
  destruct (resolve_with_alias env (world (set_world w2 s))) as [resolved w3] eqn:Er. cbv beta iota.
  destruct resolved as [[llm alias]|reason].
  2:{ split; [eapply made_mono; [|apply (Hm2 w3)]; apply Nat.le_0_l|]. repeat split; [done|done|done|done]. }
  rewrite bind_eq.
  pose proof (step_with_retries_ok retries llm alias (steps + 1) degraded stripped usage (set_world w3 (set_world w2 s))
                (Hmodels _ _ _ _ Er) Hr) as Hstep.
  pose proof (fun r => step_with_retries_steps retries llm alias (steps + 1) degraded stripped usage
                (set_world w3 (set_world w2 s)) r) as Hsteps.
  destruct (step_with_retries _ _ _ _ _ _ _ _ _ _ _ _ _ _) as [s4 o]. destruct Hstep as (G1 & G2 & G3).
  cbn [fst snd] in *.
  assert (Hmade : made step_requests s s4).
  { destruct G1 as (l & A1 & A2 & A3). exists l. split_and!; [done..|]. etransitivity; [exact A3|].
    apply Nat.mul_le_mono_r, le_n_S. exact (retries_left_limit (steps + 1) _ Hr). }
  assert (Hn : Z.to_nat (m - steps) = S (Z.to_nat (m - (steps + 1)))) by lia.
  assert (Hone : (step_requests <= Z.to_nat (m - steps) * step_requests)%nat) by (rewrite Hn; apply Nat.le_add_r).
  assert (Hret : (retry_limit < retries)%nat -> o <> OutOfFuel).
  { intros H. apply G3. pose proof (retries_left_limit (steps + 1) _ Hr). simpl in *. lia. }
  assert (Hdone : forall o' : outcome TurnResult, (o' = OutOfFuel -> o = OutOfFuel) ->
            (forall r, o' = Val r -> steps <= tr_steps r <= m) -> turn_outcome_ok m steps (S fuel) retries s (s4, o')).
  { intros o' Ho Hv. split; [eapply made_mono; [exact Hone|done]|]. split; [done|]. split; [|done].
    intros _ H E. simpl in E. by apply Hret, Ho. }
  destruct o as [[result|result]|e| |]; [..|by apply Hdone|by apply Hdone|by apply Hdone].
  2:{ apply Hdone; [done|]. intros r [= ->]. specialize (Hsteps r eq_refl). lia. }
  assert (Hnext : forall d st u s5, made 0 s4 s5 -> counts_ok (retry_state s5) ->
            turn_outcome_ok m steps (S fuel) retries s
              (turn_loop W to_string to_lowercase env builders config fuel retries (steps + 1) d st u s5)).
  { intros d st u s5 H5 R5. destruct (IH (steps + 1) d st u s5) as (I1 & I2 & I3 & I4); [lia|done|].
    split; [|split; [done|split]].
    - rewrite Hn. cbn [Nat.mul]. eapply made_trans; [|exact I1].
      rewrite <- (Nat.add_0_r step_requests). by eapply made_trans.
    - intros F1 F2. apply I3; lia.
    - intros r Hv. specialize (I4 r Hv). lia. }
  case_bool_decide; [by apply Hnext; [apply made_refl|]|].
  rewrite bind_eq. unfold await. destruct (should_continue_after_stop env _ (world s4)) as [[continuation ops] w5].
  destruct continuation as [continue_turn|e].
  - rewrite bind_eq. unfold lift, mret, M_ret. cbv beta iota. destruct continue_turn; cbn [negb]; cbv iota.
    + apply Hnext; [|done]. exists []. rewrite app_nil_r. split_and!; [done|constructor|simpl; lia].
    + split; [eapply made_mono; [exact Hone|]; done|]. split; [done|]. split; [done|]. intros r [= <-]. simpl. lia.
  - split; [eapply made_mono; [exact Hone|]; done|]. repeat split; [done|done|done|done].
Qed.

(** C17. A turn with a limit of steps ends, whatever the model, the hooks and the tools
    do: within one step more than the limit, each with its retries; and it never
    takes more steps. *)
Theorem turn_ends m fuel retries s :
  max_steps config = Some m -> 0 < m <= u32_max -> retry_state s = new_retry_state ->
  (Z.to_nat m < fuel)%nat -> (retry_limit < retries)%nat ->
  let r := run_turn W to_string to_lowercase env builders config fuel retries s in
  snd r <> OutOfFuel /\ (forall result, snd r = Val result -> 0 <= tr_steps result <= m).
Proof.
  intros Hc Hm Hr Hf Hret. cbv zeta. unfold run_turn.
  destruct (turn_loop_ok m fuel retries 0 false false no_usage s Hc Hm) as (_ & _ & H3 & H4); [lia| |].
  { rewrite Hr. intros t. unfold step_attempt_count. simpl. by rewrite lookup_empty. }
  rewrite Z.sub_0_r in H3. split; [by apply H3|done].
Qed.

(** The requests of a turn are bounded by its limits, a step's at most four times
    the attempts of a request, with its retries; and none shows the model a
    modality it does not declare, or offers it the tool that would. *)
Theorem turn_requests m fuel retries s :
  max_steps config = Some m -> 0 < m <= u32_max -> retry_state s = new_retry_state ->
  exists l, sent (fst (run_turn W to_string to_lowercase env builders config fuel retries s)) = sent s ++ l /\
    Forall fit_request l /\ (length l <= Z.to_nat m * (S retry_limit * (4 * attempts_allowed)))%nat.
Proof.
  intros Hc Hm Hr. unfold run_turn.
  destruct (turn_loop_ok m fuel retries 0 false false no_usage s Hc Hm) as (H1 & _); [lia| |].
  { rewrite Hr. intros t. unfold step_attempt_count. simpl. by rewrite lookup_empty. }
  rewrite Z.sub_0_r in H1. exact H1.
Qed.
End bounds.

(** ** Examples *)

Lemma script_materializes llm alias w w' :
  resolve_with_alias script_env w = (Ok (llm, alias), w') -> materializes llm.
Proof. by intros [= <- <- <-] params v H. Qed.

Lemma script_config_ok c : step_retry script_config = Some c -> 0 <= max_retries_per_step c <= u32_max.
Proof. intros [= <-]. unfold u32_max. simpl. lia. Qed.

Lemma turn_ends_witness :
  snd (script_run sample_script) <> OutOfFuel /\
  (forall result, snd (script_run sample_script) = Val result -> 0 <= tr_steps result <= 5).
Proof.
  apply (turn_ends no_json to_ascii_lowercase script_env script_builders script_config script_config_ok
           (fun w llm alias w' => script_materializes llm alias w w') 5 6 3 (script_start sample_script));
    [reflexivity|unfold u32_max; lia|reflexivity|simpl; lia|vm_compute; lia].
Defined.

Lemma turn_requests_witness :
  exists l, sent (fst (script_run sample_script)) = l /\ Forall fit_request l /\ (length l <= 120)%nat.
Proof.
  destruct (turn_requests no_json to_ascii_lowercase script_env script_builders script_config script_config_ok
              (fun w llm alias w' => script_materializes llm alias w w') 5 6 3 (script_start sample_script))
    as (l & H1 & H2 & H3); [reflexivity|unfold u32_max; lia|reflexivity|].
  exists l. split; [exact H1|]. split; [exact H2|]. exact H3.
Defined.

(** ** What a turn reports to have used

    The usage of a turn's result against the usages written to the wire log. *)

(** The usages of a log, in order *)
Definition usage_records (ops : list WireOp.t) : list LlmUsage :=
  omap (fun op => match op with WireOp.UsageRecord _ u => Some u | _ => None end) ops.

Lemma usage_records_app a b : usage_records (a ++ b) = usage_records a ++ usage_records b.
Proof. apply omap_app. Qed.

Section usage.
Context {W : Type} (to_string : json -> string) (to_lowercase : string -> string).
Context (env : Env W) (builders : MessageBuilders) (config : RunTurnConfig).
(** The wire log is kept. *)
Context (recorder : WireOp.t -> ext W unit) (Hrecorder : wire_recorder env = Some recorder).

(** [us] are recorded from [s] to [s']. *)
Definition used (us : list LlmUsage) (s s' : St W) : Prop :=
  usage_records (recorded s') = usage_records (recorded s) ++ us.

#[local] Instance used_preorder : PreOrder (used []).
Proof. split; [intros s; unfold used; by rewrite app_nil_r|]. intros a b c. unfold used. rewrite !app_nil_r. congruence. Qed.

Lemma used_trans a b s1 s2 s3 : used a s1 s2 -> used b s2 s3 -> used (a ++ b) s1 s3.
Proof. unfold used. intros H1 H2. by rewrite H2, H1, app_assoc. Qed.
Lemma used_refl s : used [] s s.
Proof. reflexivity. Qed.
Lemma used_kept s s' : recorded s' = recorded s -> used [] s s'.
Proof. unfold used. intros ->. by rewrite app_nil_r. Qed.
Lemma used_other s op : is_usage_record op = false -> used [] s (set_recorded (recorded s ++ [op]) s).
Proof. unfold used. intros H. rewrite app_nil_r. simpl. rewrite usage_records_app. destruct op; simpl in *; by rewrite ?app_nil_r. Qed.
Hint Resolve used_kept used_other : turn.

Ltac unused := intros; first [by apply used_kept | by apply used_other].

Lemma record_op_used model u s :
  exists s', record_op W to_string env (WireOp.UsageRecord model u) s = (s', Val tt) /\ used [u] s s'.
Proof.
  unfold record_op. rewrite Hrecorder, bind_eq. unfold modify, await. simpl.
  destruct (recorder _ (world s)) as [[[] ops] w]. eexists. split; [done|].
  unfold used. simpl. by rewrite usage_records_app.
Qed.

(** A step's answer is recorded at most once, and once when it has a result: that
    usage. *)
Definition step_used (s : St W) (r : St W * outcome StepResult) : Prop :=
  (used [] s (fst r) /\ forall x, snd r <> Val x) \/
  (exists u, used [u] s (fst r) /\ forall x, snd r = Val x -> sr_usage x = u).

Lemma finalize_used result id step model a b s :
  step_used s (finalize_step W to_string env result id step model a b s).
Proof.
  unfold finalize_step. rewrite bind_eq.
  assert (Hu : runs (used []) (record_usage W to_string env (r_usage (response result))
                 (derive_step_stop_reason (stop_reason (response result))) step))
    by (apply runs_record_usage; [apply _|unused..]).
  specialize (Hu s). destruct (record_usage _ _ _ _ _ _ s) as [s1 [stop|e| |]]; simpl in Hu; [|by left..].
  right. exists (r_usage (response result)). rewrite bind_eq.
  destruct (record_op_used model (r_usage (response result)) s1) as (s2 & -> & Hr).
  assert (Hc : runs (used []) (conclude_step W to_string env result id step stop a b))
    by (apply runs_conclude_step; [apply _|unused..]).
  split.
  - rewrite <- (app_nil_r [_]). apply (used_trans _ _ s s2); [|apply Hc].
    exact (used_trans [] [_] s s1 s2 Hu Hr).
  - intros x. assert (Hret : returns (fun x => sr_usage x = r_usage (response result))
                               (conclude_step W to_string env result id step stop a b)).
    { unfold conclude_step. apply returns_bind. intros _.
      destruct (negb _ && _ && _); [apply returns_throw|]. repeat (apply returns_bind; intros ?). by apply returns_ret. }
    apply Hret.
Qed.

Lemma step_used_after {A} (m : M W A) (f : A -> M W StepResult) s :
  runs (used []) m -> (forall a s, step_used s (f a s)) -> step_used s ((m ≫= f) s).
Proof.
  intros Hm Hf. rewrite bind_eq. specialize (Hm s). destruct (m s) as [s1 [a|e| |]]; simpl in Hm; [|by left..].
  destruct (Hf a s1) as [[H1 H2]|(u & H1 & H2)]; [left|right; exists u]; split; [|done| |done].
  - exact (used_trans [] [] s s1 _ Hm H1).
  - exact (used_trans [] [u] s s1 _ Hm H1).
Qed.

Lemma step_used_throw e s : step_used s (throw e s).
Proof. left. split; [apply used_refl|done]. Qed.

Lemma execute_used llm alias step a b s :
  step_used s (execute_loop_step W to_string to_lowercase env builders config llm alias step a b s).
Proof.
  unfold execute_loop_step. revert s.
  assert (Hb : forall {A} (m : M W A) f, runs (used []) m -> (forall a s, step_used s (f a s)) -> forall s, step_used s ((m ≫= f) s))
    by (intros; by apply step_used_after).
  apply Hb; [apply runs_await; [apply _|unused..]|intros before].
  apply Hb; [apply (runs_lift _)|intros [block reason]].
  apply Hb; [destruct block; [apply (runs_throw _)|apply (runs_ret _)]|intros _].
  apply Hb; [apply runs_check_cancel; [apply _|unused..]|intros _].
  apply Hb; [apply (runs_call_now _); unused|intros all_tools].
  apply Hb; [apply runs_build; apply _|intros built].
  apply Hb; [apply runs_check_cancel; [apply _|unused..]|intros _].
  apply Hb; [apply (runs_call_now _); unused|intros step_id].
  apply Hb; [apply runs_append_step_begin; [apply _|unused..]|intros _].
  apply Hb; [apply runs_record_event; [apply _|unused..]|intros _].
  apply Hb; [apply (runs_modify _); unused|intros _].
  apply Hb; [apply runs_catch, runs_chat; [apply _|unused..]|intros [result|error]; [apply finalize_used|]].
  apply Hb; [apply runs_fallback; [apply _|unused..]|intros [[[result degraded] stripped]|]; [|apply step_used_throw]].
  apply Hb; [|intros _; apply finalize_used].
  destruct (degraded || stripped); [|apply (runs_ret _)].
  apply runs_record_op; [apply _|unused..|done].
Qed.

(** ** A step with its retries *)

(** [us] are recorded; a step that has a result recorded its usage last, and only
    that when no attempt is repeated. *)
Definition attempts_used (usage : LlmUsage) (s : St W) (r : St W * outcome (StepResult + TurnResult)) : Prop :=
  exists us, used us s (fst r) /\
    (forall x, snd r = Val (inl x) -> last us = Some (sr_usage x) /\ (step_retry config = None -> us = [sr_usage x])) /\
    (forall t, snd r = Val (inr t) -> tr_usage t = usage /\ tr_stop_reason t = TurnStop.Aborted).

Lemma aborted_used steps a b u s :
  used [] s (fst (aborted W to_string env steps a b u s)) /\
  forall t, snd (aborted W to_string env steps a b u s) = Val t -> tr_usage t = u /\ tr_stop_reason t = TurnStop.Aborted.
Proof.
  split; [apply runs_aborted; [apply _|unused..]|].
  assert (H : returns (fun t => tr_usage t = u /\ tr_stop_reason t = TurnStop.Aborted) (aborted W to_string env steps a b u)).
  { unfold aborted. repeat (apply returns_bind; intros ?). by apply returns_ret. }
  apply H.
Qed.

Lemma gave_up_used usage error s s1 us :
  used us s s1 ->
  attempts_used usage s ((close_empty_response_turn W to_string env error;; throw error) s1).
Proof.
  intros Hu. exists us. split.
  - rewrite <- (app_nil_r us). apply (used_trans us [] s s1); [done|].
    assert (H : runs (used []) (close_empty_response_turn W to_string env error;; throw (A := StepResult + TurnResult) error)).
    { apply (runs_bind _); [apply runs_close_empty; [apply _|unused..]|intros _; apply (runs_throw _)]. }
    apply H.
  - rewrite bind_eq. split; intros x; by destruct (close_empty_response_turn W to_string env error s1) as [? []].
Qed.

Lemma step_with_retries_used fuel llm alias step a b usage s :
  attempts_used usage s
    (step_with_retries W to_string to_lowercase env builders config fuel llm alias step a b usage s).
Proof.
  revert s. induction fuel as [|fuel IH]; intros s.
  { exists []. split; [apply used_refl|done]. }
  cbn [step_with_retries]. rewrite bind_eq, catch_eq.
  pose proof (execute_used llm alias step a b s) as He.
  destruct (execute_loop_step _ _ _ _ _ _ _ _ _ _ _ s) as [s1 o]. unfold step_used in He. simpl in He.
  assert (Hus : exists us, used us s s1 /\ forall x, o = Val x -> us = [sr_usage x]).
  { destruct He as [[H1 H2]|(u & H1 & H2)]; [exists []|exists [u]]; split; [done| |done|].
    - intros x ->. by destruct (H2 x).
    - intros x ->. by rewrite (H2 x). }
  destruct Hus as (us & Hus & Hval). destruct o as [result|error| |]; [| |by exists us|by exists us].
  - rewrite (Hval result eq_refl) in Hus.
    exists [sr_usage result]. rewrite bind_eq. destruct (step_retry config); simpl; (split; [exact Hus|]);
      (split; [intros x [= <-]; done|done]).
  - destruct (is_abort error).
    { rewrite bind_eq. destruct (aborted_used step (Some step) None usage s1) as [H1 H2].
      exists us. destruct (aborted W to_string env step (Some step) None usage s1) as [s2 [t|e| |]]; simpl in *;
        (split; [rewrite <- (app_nil_r us); by apply (used_trans us [] s s1)|split; [done|]]); [|done..].
      intros t' [= <-]. by apply H2. }
    destruct (step_retry config) as [c|] eqn:Ec; [|by apply (gave_up_used usage error s s1 us)].
    rewrite bind_eq. unfold get.
    destruct (should_retry to_lowercase c step STEP_DRIVER_ID error (retry_state s1)) as [r' d].
    rewrite bind_eq. unfold modify.
    assert (Hu1 : used us s (set_retry_state r' s1)) by exact Hus.
    destruct d as [[attempt m|]|]; [|by apply (gave_up_used usage error s _ us)..].
    rewrite bind_eq.
    assert (Hev : exists s2, emit W env (LiveEvent.StepRetrying attempt (attempt + 1) (m + 1) 0) (set_retry_state r' s1)
                = (s2, Val tt) /\ used us s s2).
    { unfold emit. destruct (live_callback env); by eexists. }
    destruct Hev as (s2 & -> & Hu2). destruct (IH s2) as (us2 & G1 & G2 & G3).
    exists (us ++ us2). split; [by apply (used_trans us us2 s s2)|]. split; [|done].
    intros x Hx. destruct (G2 x Hx) as [Hl _]. split; [by rewrite last_app, Hl|]. by rewrite Ec.
Qed.

(** ** A turn *)

(** The result of a turn: the usages it reports, [kept], are among those recorded. *)
Definition turn_used (usage : LlmUsage) (s : St W) (r : St W * outcome TurnResult) : Prop :=
  exists us kept, used us s (fst r) /\ kept `sublist_of` us /\
    (forall t, snd r = Val t -> tr_usage t = foldl add_usage usage kept) /\
    (forall t, snd r = Val t -> step_retry config = None -> tr_stop_reason t <> TurnStop.Aborted -> kept = us).

Lemma turn_used_end usage s s1 o us :
  used us s s1 -> (forall t, o = Val t -> tr_usage t = usage /\ tr_stop_reason t = TurnStop.Aborted) ->
  turn_used usage s (s1, o).
Proof.
  intros Hu Ho. exists us, []. split; [done|]. split; [apply sublist_nil_l|].
  split; intros t Ht; simpl in Ht; destruct (Ho t Ht) as [H1 H2]; [done|]. by intros _ [].
Qed.

Lemma turn_loop_used fuel retries steps a b usage s :
  turn_used usage s
    (turn_loop W to_string to_lowercase env builders config fuel retries steps a b usage s).
Proof.
  revert steps a b usage s. induction fuel as [|fuel IH]; intros steps a b usage s.
  { by apply (turn_used_end usage s s _ []); [apply used_refl|]. }
  assert (Habort : forall x y s1, used [] s s1 -> turn_used usage s (aborted W to_string env steps x y usage s1)).
  { intros x y s1 H. destruct (aborted_used steps x y usage s1) as [H1 H2].
    destruct (aborted W to_string env steps x y usage s1) as [s2 o]. apply (turn_used_end usage s s2 o []); [|done].
    exact (used_trans [] [] s s1 s2 H H1). }
  cbn [turn_loop]. rewrite bind_eq. unfold call_now at 1. destruct (is_cancelled env (world s)) as [cancelled w1].
  destruct cancelled; [apply Habort; unused|].
  assert (Hguard : exists alive w2, (match turn_abort_guard env with Some guard => call_now guard | None => mret true end)
                                       (set_world w1 s) = (set_world w2 s, Val alive)).
  { destruct (turn_abort_guard env) as [guard|]; [|by eexists _, _].
    unfold call_now. simpl. destruct (guard w1) as [alive w2]. by exists alive, w2. }
  destruct Hguard as (alive & w2 & Hguard). rewrite bind_eq, Hguard.
  destruct alive; cbn [negb]; cbv iota; [|apply Habort; unused].
  destruct (steps_exceeded config steps) as [m|].
  { apply (turn_used_end usage s (set_world w2 s) _ []); [unused|done]. }
  rewrite bind_eq. unfold call_now at 1. destruct (resolve_with_alias env (world (set_world w2 s))) as [resolved w3].
  destruct resolved as [[llm alias]|reason].
  2:{ apply (turn_used_end usage s (set_world w3 (set_world w2 s)) _ []); [unused|done]. }
  rewrite bind_eq.
  pose proof (step_with_retries_used retries llm alias (wrap_u32 (steps + 1)) a b usage (set_world w3 (set_world w2 s)))
    as (us & G1 & G2 & G3).
  destruct (step_with_retries _ _ _ _ _ _ _ _ _ _ _ _ _ _) as [s4 o]. cbn [fst snd] in G1, G2, G3.
  assert (Hu : used us s s4) by exact (used_trans [] us s _ s4 (used_kept s _ eq_refl) G1).
  destruct o as [[result|t]|e| |]; [| |by apply (turn_used_end usage s s4 _ us)..].
  2:{ apply (turn_used_end usage s s4 _ us); [done|]. intros t' [= <-]. by apply G3. }
  destruct (G2 result eq_refl) as [Hlast Hone].
  assert (Hsub : [sr_usage result] `sublist_of` us).
  { apply last_Some in Hlast as [l ->]. by apply sublist_inserts_l. }
  assert (Hend : forall s5 o', used [] s4 s5 -> (forall t, o' = Val t -> tr_usage t = add_usage usage (sr_usage result)) ->
            turn_used usage s (s5, o')).
  { intros s5 o' H5 Ho. exists us, [sr_usage result]. split; [rewrite <- (app_nil_r us); by apply (used_trans us [] s s4)|].
    split; [done|]. split; [by intros t Ht; apply Ho|]. intros t _ Hn _. by rewrite Hone. }
  assert (Hnext : forall a b s5, used [] s4 s5 ->
            turn_used usage s
              (turn_loop W to_string to_lowercase env builders config fuel retries (wrap_u32 (steps + 1)) a b
                 (add_usage usage (sr_usage result)) s5)).
  { intros a' b' s5 H5. destruct (IH (wrap_u32 (steps + 1)) a' b' (add_usage usage (sr_usage result)) s5)
      as (us2 & kept & I1 & I2 & I3 & I4).
    exists (us ++ us2), (sr_usage result :: kept). split; [|split; [|split]].
    - rewrite <- (app_nil_r us) at 1. apply (used_trans _ us2 s s5); [by apply (used_trans us [] s s4)|done].
    - change (sr_usage result :: kept) with ([sr_usage result] ++ kept). by apply sublist_app.
    - intros t Ht. by apply I3.
    - intros t Ht Hn Ha. rewrite (I4 t Ht Hn Ha), (Hone Hn). done. }
  case_bool_decide; [apply Hnext, used_refl|].
  rewrite bind_eq. unfold await. destruct (should_continue_after_stop env _ (world s4)) as [[continuation ops] w5].
  destruct continuation as [continue_turn|e].
  - rewrite bind_eq. unfold lift, mret, M_ret. cbv beta iota. destruct continue_turn; cbn [negb]; cbv iota.
    + apply Hnext. unused.
    + apply Hend; [unused|]. by intros t [= <-].
  - apply Hend; [unused|done].
Qed.

(** The usage a turn returns is the sum of usages it wrote to the wire log, none
    counted twice; and of all of them, in order, when steps are not retried and the
    turn was not aborted. *)
Theorem turn_usage fuel retries s :
  let r := run_turn W to_string to_lowercase env builders config fuel retries s in
  exists us kept, usage_records (recorded (fst r)) = usage_records (recorded s) ++ us /\ kept `sublist_of` us /\
    (forall t, snd r = Val t -> tr_usage t = foldl add_usage no_usage kept) /\
    (forall t, snd r = Val t -> step_retry config = None -> tr_stop_reason t <> TurnStop.Aborted -> kept = us).
Proof. apply turn_loop_used. Qed.
End usage.

(** ** Examples *)

(** The answer that was empty is in the log and not in the result. *)
Lemma turn_usage_witness :
  usage_records (recorded (fst (script_run sample_script)))
    = [mkUsage 10 5 0 0; mkUsage 7 0 0 0; mkUsage 20 3 0 0] /\
  exists kept, kept `sublist_of` [mkUsage 10 5 0 0; mkUsage 7 0 0 0; mkUsage 20 3 0 0] /\
    mkUsage 30 8 0 0 = foldl add_usage no_usage kept.
Proof.
  assert (E : usage_records (recorded (fst (script_run sample_script)))
              = [mkUsage 10 5 0 0; mkUsage 7 0 0 0; mkUsage 20 3 0 0]) by (vm_compute; reflexivity).
  split; [exact E|]. rewrite script_run_eq in E.
  destruct (turn_usage no_json to_ascii_lowercase script_env script_builders script_config _ eq_refl 6 3
              (script_start sample_script)) as (us & kept & H1 & H2 & H3 & _).
  rewrite E in H1. assert (E0 : recorded (script_start sample_script) = []) by reflexivity.
  rewrite E0 in H1. clear E E0. assert (Hus : us = [mkUsage 10 5 0 0; mkUsage 7 0 0 0; mkUsage 20 3 0 0]) by (symmetry; exact H1).
  rewrite Hus in H2. exists kept. split; [exact H2|].
  assert (R : snd (script_run sample_script) = Val (mkTurnResult TurnStop.EndTurn 2 (mkUsage 30 8 0 0)))
    by (vm_compute; reflexivity).
  rewrite script_run_eq in R. exact (H3 _ R).
Defined.
