(* ===== verification/TurnReplay.v ===== *)
(** * The wire log of a turn replays to its memory

    What a turn leaves in the context memory is what the operations it recorded
    make of the memory it started with, whatever way it ends. *)
From stdpp Require Import gmap list strings pretty.
From S2P Require Import Prelude RustStd Json ToolScheduler EngineError Context Projector TokenEstimator Memory MemorySound MessagePipeline Provider LlmStream StepRetry TurnTypes TurnLoop TurnLogic.
#[local] Open Scope string_scope.
#[local] Open Scope list_scope.
#[local] Open Scope Z_scope.

Section replaying.
Context {W : Type} (to_string : json -> string) (to_lowercase : string -> string).
Context (env : Env W) (builders : MessageBuilders) (config : RunTurnConfig).

(** One recorded operation on a memory that is restored *)
Definition replay_op (m : ContextMemory) (op : WireOp.t) : ContextMemory :=
  match op with
  | WireOp.ContextAppendLoopEvent event => append_loop_event to_string [] event m
  | WireOp.ContextAppendReminder text => append_system_reminder text m
  | WireOp.UsageRecord _ _ | WireOp.RequestHeaderChanged _ => m
  end.
Definition replay (ops : list WireOp.t) (m : ContextMemory) : ContextMemory := foldl replay_op m ops.

Lemma replay_ops_app a b m : replay (a ++ b) m = replay b (replay a m).
Proof. apply foldl_app. Qed.
Lemma replay_events events m :
  replay (WireOp.ContextAppendLoopEvent <$> events) m = fold_events to_string events m.
Proof. revert m. induction events as [|e events IH]; intros m; [done|apply IH]. Qed.
Lemma replay_reminders l m : replay (WireOp.ContextAppendReminder <$> l) m = remind l m.
Proof. revert m. induction l as [|t l IH]; intros m; [done|apply IH]. Qed.

(** The calls that are left pending by an operation *)
Definition after_op (P : gset string) (op : WireOp.t) : gset string :=
  match op with WireOp.ContextAppendLoopEvent event => pending_after event P | _ => P end.
Lemma replay_pending ops m : pending (replay ops m) = foldl after_op (pending m) ops.
Proof.
  revert m. induction ops as [|op ops IH]; intros m; [done|]. unfold replay in *. simpl. rewrite IH. f_equal.
  destruct op; try done; [apply append_event_frame|apply reminder_pending].
Qed.

(** Every step begins with no call left pending. *)
Fixpoint closed_begins (P : gset string) (ops : list WireOp.t) : Prop :=
  match ops with
  | [] => True
  | op :: ops =>
    match op with WireOp.ContextAppendLoopEvent (LoopEvent.StepBegin _ _) => P = ∅ | _ => True end /\
    closed_begins (after_op P op) ops
  end.
Lemma closed_begins_app P a b : closed_begins P (a ++ b) <-> closed_begins P a /\ closed_begins (foldl after_op P a) b.
Proof. revert P. induction a as [|op a IH]; intros P; simpl; [tauto|]. rewrite IH. tauto. Qed.
Lemma closed_reminders P l : closed_begins P (WireOp.ContextAppendReminder <$> l).
Proof. revert P. induction l as [|t l IH]; intros P; [done|]. by split. Qed.

Definition no_begin (event : LoopEvent.t) : Prop := match event with LoopEvent.StepBegin _ _ => False | _ => True end.
Lemma closed_events P events : Forall no_begin events -> closed_begins P (WireOp.ContextAppendLoopEvent <$> events).
Proof.
  intros H. revert P. induction H as [|event events He _ IH]; intros P; [done|]. split; [by destruct event|apply IH].
Qed.

(** ** A turn that has the memory for itself *)

Definition alone {A} (f : ext W A) : Prop := forall w, snd (fst (f w)) = [].

Record alone_llm (llm : Llm W) : Prop := {
  a_materialize : forall params, alone (materialize_media llm params);
  a_chat : forall params w stream w', chat llm params w = (Ok stream, w') -> alone stream
}.

(** The calls and the results of a batch: nobody else uses the memory, every
    dispatched call has a result, and at most [n] results carry a reminder. *)
Definition dispatched_ids (batch : list BatchEvent) : list string :=
  omap (fun e => match e with Dispatched id _ _ _ => Some id | Meanwhile _ => None end) batch.
Definition injections (results : list (string * CallResult)) : list string :=
  omap (fun r => injection r.2) results.
Definition batch_answered (n : nat) (batch : list BatchEvent) (results : list (string * CallResult)) : Prop :=
  Forall (fun e => match e with Dispatched _ _ _ _ => True | Meanwhile _ => False end) batch /\
  (forall id, id ∈ dispatched_ids batch -> id ∈ results.*1) /\
  (length (injections results) <= n)%nat.

Record alone_env (n : nat) : Prop := {
  a_sleep : forall d, alone (sleep env d);
  a_before : forall step, alone (before_step env step);
  a_after : forall c, alone (after_step env c);
  a_continue : forall r, alone (should_continue_after_stop env r);
  a_usage : forall cb u r k, record_step_usage env = Some cb -> alone (cb u r k);
  a_record : forall recorder op, wire_recorder env = Some recorder -> alone (recorder op);
  a_models : forall w llm alias w', resolve_with_alias env w = (Ok (llm, alias), w') -> alone_llm llm;
  a_batch : forall triples step w,
    batch_answered n (fst (fst (run_tool_batch env triples step w))) (snd (fst (run_tool_batch env triples step w)))
}.

(** ** What leaves memory and log alone *)

Definition same (s s' : St W) : Prop := memory s' = memory s /\ recorded s' = recorded s.
#[local] Instance same_preorder : PreOrder same.
Proof. split; [done|]. intros a b c [A1 A2] [B1 B2]. split; congruence. Qed.

Context (D : nat) (Halone : alone_env D).

Lemma same_now {A} (f : now W A) : runs same (call_now f).
Proof. by apply (runs_call_now same). Qed.
Lemma same_await {A} (f : ext W A) : alone f -> runs same (await W to_string f).
Proof.
  intros H s. unfold await. specialize (H (world s)). destruct (f (world s)) as [[a ops] w]. simpl in H. by subst ops.
Qed.
Lemma same_modify f : (forall s, same s (f s)) -> runs same (modify f).
Proof. apply (runs_modify same). Qed.
Lemma same_emit e : runs same (emit W env e).
Proof. unfold emit. destruct (live_callback env); [by apply same_modify|apply (runs_ret same)]. Qed.
Hint Resolve same_now same_emit : turn.
Lemma same_emit_all l : runs same (emit_all W env l).
Proof. induction l; simpl; walk. Qed.
Lemma same_check_cancel : runs same (check_cancel W env).
Proof. unfold check_cancel. walk. Qed.
Hint Resolve same_emit_all same_check_cancel : turn.
Lemma same_sleep d : runs same (await W to_string (sleep env d)).
Proof. apply same_await, Halone. Qed.
Hint Resolve same_sleep : turn.
Lemma same_consume stream : alone stream -> runs same (consume W to_string env stream).
Proof. intros H. unfold consume. apply (runs_bind same); [by apply same_await|]. walk. Qed.
Lemma same_compute_retry_delay e n : runs same (compute_retry_delay W to_lowercase env e n).
Proof. unfold compute_retry_delay. walk. Qed.
Lemma same_cancelable_sleep d : runs same (cancelable_sleep W to_string env d).
Proof. unfold cancelable_sleep. walk. Qed.
Hint Resolve same_compute_retry_delay same_cancelable_sleep : turn.
Lemma same_after_failure llm what a m e : runs same (after_failure W to_string to_lowercase env llm what a m e).
Proof. unfold after_failure. walk. Qed.
Hint Resolve same_after_failure : turn.

Lemma same_chat_attempts llm p m n a :
  alone_llm llm -> runs same (chat_attempts W to_string to_lowercase env llm p m n a).
Proof.
  intros Hl. revert a. induction n as [|n IH]; intros a; [apply (runs_throw same)|]. cbn [chat_attempts].
  apply (runs_bind same); [by apply same_modify|intros _]. intros s. rewrite bind_eq. unfold call_now.
  destruct (chat llm p (world s)) as [[stream|error] w] eqn:E.
  - pose proof (a_chat llm Hl _ _ _ _ E) as Hs. change (same s) with (same (set_world w s)).
    revert s E. intros s _. generalize (set_world w s). clear s.
    apply (runs_bind same); [by apply runs_catch, same_consume|]. walk.
  - change (same s) with (same (set_world w s)). generalize (set_world w s). clear s E.
    apply (runs_bind same); [auto with turn|]. intros _. apply IH.
Qed.
Lemma same_chat llm p : alone_llm llm -> runs same (chat_with_retry W to_string to_lowercase env config llm p).
Proof.
  intros Hl. unfold chat_with_retry. apply (runs_bind same); [apply same_await, Hl|]. intros p'. by apply same_chat_attempts.
Qed.
Lemma same_build b : runs same (build W b).
Proof. unfold build. walk. Qed.
Hint Resolve same_build same_chat : turn.
Lemma same_walk_chain llm t l : alone_llm llm -> runs same (walk_chain W to_string to_lowercase env builders config llm t l).
Proof. intros Hl. induction l; simpl; walk. Qed.
Hint Resolve same_walk_chain : turn.
Lemma same_fallback llm t e : alone_llm llm -> runs same (try_media_fallback W to_string to_lowercase env builders config llm t e).
Proof. intros Hl. unfold try_media_fallback. walk. by apply same_modify. Qed.
Lemma same_record_usage u r n : runs same (record_usage W to_string env u r n).
Proof.
  unfold record_usage. destruct (record_step_usage env) as [cb|] eqn:E; [|apply (runs_ret same)].
  apply (runs_bind same); [apply same_await; by eapply a_usage|]. walk.
Qed.
Lemma same_poll_guard m : runs same m -> runs same (poll_guard W env m).
Proof. intros H. unfold poll_guard. walk. Qed.

(** ** The log lags behind by what is owed to it *)

Context (recorder : WireOp.t -> ext W unit) (Hrecorder : wire_recorder env = Some recorder).
(** The log and the memory the turn started with *)
Context (base : list WireOp.t) (m0 : ContextMemory).

Definition owing (owed : list WireOp.t) (s : St W) : Prop :=
  exists ops, recorded s = base ++ ops /\ replay (ops ++ owed) m0 = memory s /\
    closed_begins (pending m0) (ops ++ owed).

(** Between the steps nothing is owed and no exchange is open. *)
Definition settled (s : St W) : Prop :=
  owing [] s /\ pending (memory s) = ∅ /\ deferred (memory s) = [] /\ max_deferred (memory s) = D.

Lemma owing_same owed s s' : same s s' -> owing owed s -> owing owed s'.
Proof. intros [E1 E2] (ops & H1 & H2). exists ops. by rewrite E2, E1. Qed.
Lemma settled_same s s' : same s s' -> settled s -> settled s'.
Proof. intros H (H1 & H2 & H3 & H4). pose proof H as [E _]. split; [by eapply owing_same|]. by rewrite E. Qed.

Lemma owing_memory owed more m s :
  replay more (memory s) = m -> closed_begins (pending (memory s)) more -> owing owed s ->
  owing (owed ++ more) (set_memory m s).
Proof.
  intros Hm Hc (ops & H1 & H2 & H3). exists ops. rewrite app_assoc, replay_ops_app, H2, Hm. split_and!; [done|done|].
  apply closed_begins_app. split; [done|]. by rewrite <- replay_pending, H2.
Qed.

Lemma record_op_pays op owed s :
  owing (op :: owed) s ->
  exists s', record_op W to_string env op s = (s', Val tt) /\ owing owed s' /\ memory s' = memory s.
Proof.
  intros (ops & H1 & H2 & H3). unfold record_op. rewrite Hrecorder, bind_eq. unfold modify, await. simpl.
  pose proof (a_record D Halone recorder op Hrecorder (world s)) as Ha.
  destruct (recorder op (world s)) as [[[] l] w]. simpl in Ha. subst l. eexists. split; [done|]. split; [|done].
  exists (ops ++ [op]). rewrite <- (app_assoc ops). simpl. by rewrite H1, <- app_assoc.
Qed.

Lemma record_all_pays owed more s :
  owing (owed ++ more) s ->
  exists s', record_all W to_string env owed s = (s', Val tt) /\ owing more s' /\ memory s' = memory s.
Proof.
  revert s. induction owed as [|op owed IH]; intros s H; [by eexists|]. simpl. rewrite bind_eq.
  destruct (record_op_pays op (owed ++ more) s H) as (s1 & -> & H1 & E1).
  destruct (IH s1 H1) as (s2 & -> & H2 & E2). exists s2. by rewrite E2, E1.
Qed.

(** Events that leave the exchange closed are appended and recorded. *)
Lemma events_settle events s :
  foldl (fun P e => pending_after e P) ∅ events = ∅ ->
  closed_begins (pending (memory s)) (WireOp.ContextAppendLoopEvent <$> events) -> settled s ->
  exists s', (on_memory W (fold_events to_string events);; record_all W to_string env (WireOp.ContextAppendLoopEvent <$> events)) s
             = (s', Val tt) /\ settled s'.
Proof.
  intros He Hb (H1 & H2 & H3 & H4). rewrite bind_eq. unfold on_memory, modify.
  assert (Ho : owing ((WireOp.ContextAppendLoopEvent <$> events) ++ []) (set_memory (fold_events to_string events (memory s)) s)).
  { rewrite app_nil_r. apply (owing_memory []); [apply replay_events|done..]. }
  destruct (record_all_pays _ [] _ Ho) as (s' & -> & H' & E'). exists s'. split; [done|].
  destruct (fold_events_frame to_string events (memory s)) as (Fp & Fd & Fm). cbn [memory set_memory] in E'.
  split; [done|]. rewrite E', Fp, Fm, H2. split_and!; [done| |done].
  rewrite H3 in Fd. apply length_zero_iff_nil. cbn [length] in Fd. lia.
Qed.

(** The same event by event *)
Lemma event_settles event s :
  pending_after event ∅ = ∅ -> settled s ->
  exists s', (append_event W to_string event;; record_loop_event_wire W to_string env event) s = (s', Val tt) /\ settled s'.
Proof.
  intros He Hs. assert (Hb : closed_begins (pending (memory s)) [WireOp.ContextAppendLoopEvent event]).
  { destruct Hs as (_ & -> & _). by destruct event. }
  destruct (events_settle [event] s He Hb Hs) as (s' & H & H'). exists s'. split; [|done].
  rewrite bind_eq in H |- *. unfold on_memory, modify in H. unfold append_event, on_memory, modify.
  simpl in H. rewrite bind_eq in H. unfold record_loop_event_wire.
  change (set_memory (append_loop_event to_string [] event (memory s)) s) with
    (set_memory (fold_events to_string [event] (memory s)) s).
  destruct (record_op W to_string env _ _) as [s1 [[]|e| |]]; simplify_eq; done.
Qed.

Lemma begin_settles step_id s :
  settled s ->
  exists s', (append_step_begin W to_string env (LoopEvent.StepBegin step_id None);;
              record_loop_event_wire W to_string env (LoopEvent.StepBegin step_id None)) s = (s', Val tt) /\ settled s'.
Proof.
  intros Hs. rewrite bind_eq. unfold append_step_begin. rewrite bind_eq. unfold get. rewrite bind_eq. unfold call_now.
  destruct (drain env (elements (pending (memory s))) (world s)) as [order w]. unfold on_memory, modify.
  assert (E : append_loop_event to_string order (LoopEvent.StepBegin step_id None) (memory (set_world w s))
              = append_loop_event to_string [] (LoopEvent.StepBegin step_id None) (memory (set_world w s))).
  { simpl. unfold close_pending_tool_results. destruct Hs as (_ & Hp & _). by rewrite bool_decide_eq_true_2. }
  rewrite E. apply (event_settles (LoopEvent.StepBegin step_id None) (set_world w s)); [done|]. by eapply settled_same.
Qed.

(** ** The tool batch *)

Definition call_events (step_id : string) (batch : list BatchEvent) : list LoopEvent.t :=
  omap (fun e => match e with
                 | Dispatched id name args _ => Some (LoopEvent.ToolCall step_id id name args)
                 | Meanwhile _ => None
                 end) batch.

Lemma on_memory_eq f s : on_memory W f s = (set_memory (f (memory s)) s, Val tt).
Proof. done. Qed.

Lemma emit_val e s : exists s', emit W env e s = (s', Val tt) /\ same s s'.
Proof. unfold emit. destruct (live_callback env); by eexists. Qed.

Lemma dispatch_calls_eq step_id batch starts events s :
  Forall (fun e => match e with Dispatched _ _ _ _ => True | Meanwhile _ => False end) batch ->
  exists s' starts', dispatch_calls W to_string env step_id batch starts events s
    = (s', Val (starts', events ++ call_events step_id batch)) /\
    same (set_memory (fold_events to_string (call_events step_id batch) (memory s)) s) s'.
Proof.
  intros Hb. revert starts events s. induction Hb as [|e batch He _ IH]; intros starts events s.
  { exists s, starts. rewrite app_nil_r. by split. }
  destruct e as [id name args at_ms|op]; [|done]. cbn [dispatch_calls]. rewrite bind_eq. unfold append_event, on_memory, modify.
  rewrite bind_eq. set (s1 := set_memory _ s).
  destruct (emit_val (LiveEvent.ToolCallStarted name id args at_ms) s1) as (s2 & -> & [E1 E2]).
  destruct (IH (if live_callback env then <[id := at_ms]> starts else starts)
              (events ++ [LoopEvent.ToolCall step_id id name args]) s2) as (s3 & st3 & -> & [F1 F2]).
  exists s3, st3. split; [by rewrite <- app_assoc|]. split; [|exact (eq_trans F2 E2)]. rewrite F1. cbn [memory set_memory]. by rewrite E1.
Qed.

Lemma record_results_eq names results starts s :
  exists s' stop, record_results W to_string env names results starts s
    = (s', Val ((fun r => result_event r.1 r.2) <$> results, injections results, stop)) /\
    same (set_memory (interleaved to_string ((fun r => (result_event r.1 r.2, injection r.2)) <$> results) (memory s)) s) s'.
Proof.
  revert starts s. induction results as [|[id r] results IH]; intros starts s; [by exists s, false|].
  cbn [record_results]. rewrite bind_eq. unfold append_event. rewrite on_memory_eq.
  set (s1 := set_memory _ s). rewrite bind_eq.
  assert (H2 : exists s2, (match injection r with
                           | Some text => on_memory W (append_system_reminder text)
                           | None => mret (M := M W) tt end) s1 = (s2, Val tt) /\
                          same (set_memory (match injection r with
                                            | Some t => append_system_reminder t (memory s1) | None => memory s1 end) s) s2)
    by (destruct (injection r); by eexists).
  destruct H2 as (s2 & -> & [E1 E2]). rewrite bind_eq.
  match goal with |- context [(if live_callback env then ?m else ?k) s2] =>
    assert (H3 : exists s3 st3, (if live_callback env then m else k) s2 = (s3, Val st3) /\ same s2 s3) end.
  { destruct (live_callback env); [|by eexists _, _]. rewrite bind_eq.
    assert (Hn : exists s4 z, (match starts !! id with Some started => mret started | None => call_now (now_ms env) end) s2
                              = (s4, Val z) /\ same s2 s4).
    { destruct (starts !! id); [by eexists _, _|]. unfold call_now. destruct (now_ms env (world s2)). by eexists _, _. }
    destruct Hn as (s4 & z & -> & E4). rewrite bind_eq. unfold call_now. destruct (now_ms env (world s4)) as [z2 w2].
    rewrite bind_eq.
    match goal with |- context [emit W env ?e ?s] => destruct (emit_val e s) as (s5 & -> & E5) end.
    eexists _, _. split; [done|]. etransitivity; [exact E4|]. etransitivity; [|exact E5]. done. }
  destruct H3 as (s3 & st3 & -> & [G1 G2]). rewrite bind_eq.
  destruct (IH st3 s3) as (s6 & stop & -> & [F1 F2]). eexists s6, _. split.
  - unfold injections. cbn [omap list_omap snd fst fmap list_fmap]. by destruct (injection r).
  - split; [|exact (eq_trans F2 (eq_trans G2 E2))]. rewrite F1. cbn [memory set_memory]. rewrite G1, E1.
    cbn [memory set_memory fmap list_fmap interleaved fst snd]. by destruct (injection r).
Qed.

(** *** The order of the results *)

Lemma swap_remove_perm {A} i (l : list A) x l' : swap_remove i l = Some (x, l') -> l ≡ₚ x :: l'.
Proof.
  unfold swap_remove. destruct (l !! i) as [y|] eqn:Ei; [|done]. simpl. destruct (last l) as [z|] eqn:El; [|done]. simpl.
  intros [= <- <-]. apply last_Some in El as [k ->]. pose proof (lookup_lt_Some _ _ _ Ei) as Hi. rewrite length_app in *. simpl in *.
  case_bool_decide as Hd.
  - rewrite take_app_length' by lia. assert (y = z) as ->; [|by rewrite Permutation_app_comm].
    replace i with (length k) in Ei by lia. rewrite lookup_app_r, Nat.sub_diag in Ei by done. by injection Ei.
  - replace (length k + 1 - 1)%nat with (length k) by lia. rewrite take_app_length.
    rewrite lookup_app_l in Ei by lia. rewrite Permutation_app_comm. simpl.
    rewrite <- (take_drop_middle k i y Ei) at 1. rewrite (insert_take_drop k i z) by lia.
    rewrite <- !Permutation_middle. apply perm_swap.
Qed.

Lemma sort_results_perm {R} calls (results : list (string * R)) : sort_results calls results ≡ₚ results.
Proof.
  revert results. induction calls as [|tc calls IH]; intros results; [done|]. simpl.
  destruct (list_find _ results) as [[pos r]|] eqn:Ef; [|apply IH].
  destruct (swap_remove pos results) as [[x rest]|] eqn:Es; [|apply IH].
  rewrite IH. symmetry. by apply swap_remove_perm in Es.
Qed.

(** *** The batch as a whole *)

Lemma waiting_settled m : pending m = ∅ -> waiting_ok m -> deferred m = [].
Proof. intros Hp Hw. destruct (deferred m) eqn:E; [done|]. exfalso. apply Hw; [by rewrite E|done]. Qed.

Lemma remind_frame l m :
  pending (remind l m) = pending m /\ max_deferred (remind l m) = max_deferred m /\
  (waiting_ok m -> waiting_ok (remind l m)).
Proof.
  revert m. induction l as [|t l IH]; intros m; [done|]. simpl. destruct (IH (append_system_reminder t m)) as (-> & -> & H3).
  split; [apply reminder_pending|]. split; [apply reminder_max|]. intros Hw. by apply H3, append_message_waiting.
Qed.

Lemma calls_pending step_id batch P :
  foldl (fun P e => pending_after e P) P (call_events step_id batch) = list_to_set (dispatched_ids batch) ∪ P.
Proof.
  unfold call_events, dispatched_ids. revert P. induction batch as [|[id name args at_ms|op] batch IH]; intros P; simpl; [set_solver| |done].
  rewrite IH. set_solver.
Qed.

Lemma call_no_begin step_id batch : Forall no_begin (call_events step_id batch).
Proof. unfold call_events. induction batch as [|[] batch IH]; [done| |done]. by constructor. Qed.

Lemma results_pending (results : list (string * CallResult)) P :
  foldl (fun P e => pending_after e P) P ((fun r => result_event r.1 r.2) <$> results)
  = P ∖ list_to_set results.*1.
Proof. revert P. induction results as [|[id r] results IH]; intros P; simpl; [set_solver|]. rewrite IH. set_solver. Qed.

Lemma batch_settles step_id batch results s :
  batch_answered D batch results -> settled s ->
  let s1 := set_memory (fold_events to_string (call_events step_id batch) (memory s)) s in
  let m2 := interleaved to_string ((fun r => (result_event r.1 r.2, injection r.2)) <$> results) (memory s1) in
  owing (WireOp.ContextAppendLoopEvent <$> call_events step_id batch) s1 /\
  (forall s2, memory s2 = memory s1 -> owing [] s2 ->
     owing ((WireOp.ContextAppendLoopEvent <$> ((fun r => result_event r.1 r.2) <$> results))
            ++ (WireOp.ContextAppendReminder <$> injections results)) (set_memory m2 s2)) /\
  pending m2 = ∅ /\ deferred m2 = [] /\ max_deferred m2 = D.
Proof.
  intros (_ & Hids & Hn) (H1 & H2 & H3 & H4). cbv zeta. cbn [memory set_memory].
  set (m1 := fold_events to_string (call_events step_id batch) (memory s)).
  set (l := (fun r : string * CallResult => (result_event r.1 r.2, injection r.2)) <$> results).
  destruct (fold_events_frame to_string (call_events step_id batch) (memory s)) as (F1 & F2 & F3). fold m1 in F1, F2, F3.
  assert (Ed : deferred m1 = []).
  { rewrite H3 in F2. apply length_zero_iff_nil. cbn [length] in F2. lia. }
  assert (Hw : waiting_ok m1) by (intros Hd; by destruct Hd).
  assert (El1 : l.*1 = (fun r => result_event r.1 r.2) <$> results) by (unfold l; by rewrite <- list_fmap_compose).
  assert (El2 : omap snd l = injections results).
  { unfold l, injections. clear. induction results as [|r results IH]; [done|]. cbn. destruct (injection r.2); [f_equal|]; exact IH. }
  assert (Ei : interleaved to_string l m1 = remind (injections results) (fold_events to_string l.*1 m1)).
  { rewrite <- El2. apply interleaved_eq; [|done|rewrite F3, H4, El2, Ed; simpl; lia].
    unfold l. rewrite Forall_fmap. by apply Forall_true. }
  split; [|split; [|]].
  - apply (owing_memory []); [apply replay_events| |done]. by apply closed_events, call_no_begin.
  - intros s2 E2 Ho. apply (owing_memory []); [| |done].
    + by rewrite replay_ops_app, replay_events, replay_reminders, E2, Ei, El1.
    + apply closed_begins_app. split; [|apply closed_reminders]. apply closed_events. rewrite Forall_fmap. by apply Forall_true.
  - destruct (fold_events_frame to_string l.*1 m1) as (G1 & G2 & G3).
    destruct (remind_frame (injections results) (fold_events to_string l.*1 m1)) as (R1 & R2 & R3).
    rewrite Ei. assert (Ep : pending (remind (injections results) (fold_events to_string l.*1 m1)) = ∅).
    { rewrite R1, G1, F1, H2, El1, calls_pending, results_pending. apply leibniz_equiv. intros id.
      rewrite elem_of_difference, elem_of_union, !elem_of_list_to_set. split; [|set_solver].
      intros [[Hd|Hd] Hr]; [destruct (Hr (Hids id Hd))|set_solver]. }
    split; [done|]. split; [|by rewrite R2, G3, F3].
    apply waiting_settled; [done|]. apply R3. by apply fold_events_waiting.
Qed.

Lemma unexecuted_pending step_id calls :
  foldl (fun P e => pending_after e P) ∅ (mjoin (unexecuted_events step_id <$> calls)) = ∅.
Proof.
  induction calls as [|tc calls IH]; [done|]. simpl. rewrite union_empty_r_L, difference_diag_L. exact IH.
Qed.

Lemma unexecuted_no_begin step_id calls : Forall no_begin (mjoin (unexecuted_events step_id <$> calls)).
Proof. induction calls as [|tc calls IH]; [done|]. simpl. by repeat constructor. Qed.

Lemma same_val {A} (m : M W A) s s' a : runs same m -> m s = (s', Val a) -> same s s'.
Proof. intros H E. specialize (H s). by rewrite E in H. Qed.

Lemma settled_runs {A} (m : M W A) s : runs same m -> settled s -> settled (fst (m s)).
Proof. intros H Hs. eapply settled_same; [apply H|done]. Qed.

Lemma run_calls_settles step_id step calls effective s :
  settled s -> settled (fst (run_calls W to_string env step_id step calls effective s)).
Proof.
  intros Hs. unfold run_calls. case_bool_decide.
  - rewrite bind_eq.
    assert (Hg : runs same (poll_guard W env (throw (EngineAborted TURN_ABORTED_BY_GUARD_MESSAGE))))
      by (apply same_poll_guard, (runs_throw same)).
    pose proof (settled_runs _ s Hg Hs) as Hs1.
    destruct (poll_guard W env _ s) as [s1 [[]|e| |]]; [|done..]. cbn [fst] in Hs1. clear s Hs Hg.
    rewrite bind_eq. unfold execute_tool_calls. rewrite bind_eq.
    match goal with |- context [run_tool_batch env ?t step (world s1)] =>
      pose proof (a_batch D Halone t step (world s1)) as Hb;
      destruct (run_tool_batch env t step (world s1)) as [[batch results] w] end.
    cbn [fst snd] in Hb. rewrite bind_eq. pose proof Hb as (Hd & _ & _).
    destruct (dispatch_calls_eq step_id batch ∅ [] (set_world w s1) Hd) as (s2 & starts & -> & [E1 E2]).
    cbn [app]. unfold mret, M_ret. cbv beta iota.
    set (rs := sort_results calls results).
    assert (Hb' : batch_answered D batch rs).
    { destruct Hb as (? & Hids & Hn). split; [done|]. unfold rs, injections. split.
      - intros id Hid. rewrite sort_results_perm. by apply Hids.
      - by rewrite sort_results_perm. }
    assert (Hs1' : settled (set_world w s1)) by (by eapply settled_same).
    destruct (batch_settles step_id batch rs (set_world w s1) Hb' Hs1') as (B1 & B2 & B3 & B4 & B5).
    rewrite bind_eq. destruct (record_all_pays (WireOp.ContextAppendLoopEvent <$> call_events step_id batch) [] s2)
      as (s3 & -> & O3 & M3).
    { rewrite app_nil_r. eapply owing_same; [|exact B1]. by split. }
    rewrite bind_eq. destruct (record_results_eq (call_names calls) rs starts s3) as (s4 & stop & -> & [E3 E4]).
    assert (M3' : memory s3 = memory (set_memory (fold_events to_string (call_events step_id batch)
                    (memory (set_world w s1))) (set_world w s1))) by (by rewrite M3, E1).
    specialize (B2 s3 M3' O3). rewrite M3' in E3, E4.
    rewrite bind_eq. destruct (record_all_pays (WireOp.ContextAppendLoopEvent <$> ((fun r => result_event r.1 r.2) <$> rs))
                        (WireOp.ContextAppendReminder <$> injections rs) s4) as (s5 & -> & O5 & M5).
    { eapply owing_same; [|exact B2]. by split. }
    rewrite bind_eq. unfold record_system_reminders.
    destruct (record_all_pays (WireOp.ContextAppendReminder <$> injections rs) [] s5) as (s6 & -> & O6 & M6);
      [by rewrite app_nil_r|].
    cbn [fst]. split; [done|]. by rewrite M6, M5, E3.
  - destruct (_ && _); [|done]. rewrite bind_eq. unfold record_unexecuted_tool_calls. rewrite bind_eq, on_memory_eq.
    destruct (events_settle (mjoin (unexecuted_events step_id <$> calls)) s (unexecuted_pending step_id calls)
                (closed_events _ _ (unexecuted_no_begin step_id calls)) Hs)
      as (s' & H1 & H2). rewrite bind_eq, on_memory_eq in H1.
    unfold mret, M_ret. cbv beta iota. rewrite bind_eq, H1. done.
Qed.

(** ** A step *)

Lemma after_settled {A B} (m : M W A) (f : A -> M W B) s :
  settled s -> settled (fst (m s)) -> (forall a s, settled s -> settled (fst (f a s))) -> settled (fst ((m ≫= f) s)).
Proof. intros _ Hm Hf. rewrite bind_eq. destruct (m s) as [s' [a|e| |]]; [by apply Hf|done..]. Qed.

(** [m] leaves the turn settled. *)
Notation settles m := (forall s, settled s -> settled (fst (m s))).

Lemma settles_bind {A B} (m : M W A) (f : A -> M W B) : settles m -> (forall a, settles (f a)) -> settles (m ≫= f).
Proof. intros Hm Hf s Hs. apply after_settled; [done|by apply Hm|]. intros a s' Hs'. by apply Hf. Qed.
Lemma settles_same {A} (m : M W A) : runs same m -> settles m.
Proof. intros H s Hs. by apply settled_runs. Qed.
Lemma settles_ret {A} (a : A) : settles (mret (M := M W) a).
Proof. done. Qed.
Lemma settles_throw {A} e : settles (throw (W := W) (A := A) e).
Proof. done. Qed.
Lemma settles_lift {A} (r : result EngineError A) : settles (lift (W := W) r).
Proof. by destruct r. Qed.

Lemma settles_catch {A} (m : M W A) : settles m -> settles (catch m).
Proof. intros H s Hs. rewrite catch_eq. specialize (H s Hs). by destruct (m s) as [s' []]. Qed.

(** Two operations that settle together *)
Lemma settles_pair {A} (m k : M W unit) (f : M W A) :
  (forall s, settled s -> exists s', (m;; k) s = (s', Val tt) /\ settled s') -> settles f -> settles (m;; (k;; f)).
Proof.
  intros Hmk Hf s Hs. destruct (Hmk s Hs) as (s' & H & H'). rewrite bind_eq in H. rewrite bind_eq.
  destruct (m s) as [s1 [[]|e| |]]; [|done..]. rewrite bind_eq. rewrite H. by apply Hf.
Qed.

Lemma record_inert op s :
  (forall m, replay_op m op = m) -> (forall P, closed_begins P [op]) -> settled s -> settled (fst (record_op W to_string env op s)).
Proof.
  intros Hop Hb (H1 & H2 & H3 & H4). destruct (record_op_pays op [] s) as (s' & -> & O & E).
  - destruct H1 as (ops & R1 & R2 & R3). rewrite app_nil_r in R2, R3. exists ops. split; [done|]. rewrite replay_ops_app.
    simpl. rewrite Hop. split; [exact R2|]. apply closed_begins_app. split; [exact R3|apply Hb].
  - cbn [fst]. split; [done|]. by rewrite E.
Qed.

Lemma answer_pending step_id result anchor :
  foldl (fun P e => pending_after e P) ∅ (answer_events step_id result anchor) = ∅.
Proof. unfold answer_events. by repeat case_match. Qed.

Lemma conclude_settles result id step stop a b : settles (conclude_step W to_string env result id step stop a b).
Proof.
  unfold conclude_step. apply settles_bind; [by apply settles_same, same_modify|intros _].
  destruct (negb _ && _ && _); [apply settles_throw|].
  apply settles_bind; [apply settles_same; destruct (_ && _); [apply same_now|apply (runs_ret same)]|intros user].
  apply settles_pair; [intros s Hs; apply events_settle; [apply answer_pending| |done]|].
  { apply closed_events. unfold answer_events. repeat case_match; by repeat constructor. }
  apply settles_bind; [intros s Hs; by apply run_calls_settles|intros effective].
  apply settles_pair; [intros s Hs; by apply event_settles|].
  apply settles_bind; [by apply settles_same, same_await, a_after with D|intros after].
  apply settles_bind; [apply settles_lift|intros stop_turn].
  apply settles_bind; [apply settles_same, same_check_cancel|intros _]. apply settles_ret.
Qed.

Lemma finalize_settles result id step model a b : settles (finalize_step W to_string env result id step model a b).
Proof.
  unfold finalize_step. apply settles_bind; [apply settles_same, same_record_usage|intros stop].
  apply settles_bind; [intros s Hs; by apply record_inert|intros _]. apply conclude_settles.
Qed.

Lemma execute_settles llm alias step a b :
  alone_llm llm -> settles (execute_loop_step W to_string to_lowercase env builders config llm alias step a b).
Proof.
  intros Hl. unfold execute_loop_step.
  apply settles_bind; [by apply settles_same, same_await, a_before with D|intros before].
  apply settles_bind; [apply settles_lift|intros [block reason]].
  apply settles_bind; [destruct block; [apply settles_throw|apply settles_ret]|intros _].
  apply settles_bind; [apply settles_same, same_check_cancel|intros _].
  apply settles_bind; [apply settles_same, same_now|intros all_tools].
  apply settles_bind; [apply settles_same, same_build|intros built].
  apply settles_bind; [apply settles_same, same_check_cancel|intros _].
  apply settles_bind; [apply settles_same, same_now|intros step_id].
  apply settles_pair; [intros s Hs; by apply begin_settles|].
  apply settles_bind; [by apply settles_same, same_modify|intros _].
  apply settles_bind; [by apply settles_catch, settles_same, same_chat|intros [result|error]; [apply finalize_settles|]].
  apply settles_bind; [by apply settles_same, same_fallback|intros [[[result degraded] stripped]|]; [|apply settles_throw]].
  apply settles_bind; [|intros _; apply finalize_settles].
  destruct (degraded || stripped); [intros s Hs; by apply record_inert|apply settles_ret].
Qed.

(** ** A turn *)

Lemma closing_pending P ps ss :
  P = ∅ ->
  foldl (fun P e => pending_after e P) P ((interrupted_event <$> ps) ++ (settled_event <$> ss)) = ∅.
Proof.
  intros ->. rewrite foldl_app. assert (E : foldl (fun P e => pending_after e P) ∅ (interrupted_event <$> ps) = ∅).
  { induction ps as [|id ps IH]; [done|]. simpl. by rewrite difference_empty_L || rewrite empty_difference_L. }
  rewrite E. by induction ss.
Qed.

Lemma closing_no_begin ps ss : Forall no_begin ((interrupted_event <$> ps) ++ (settled_event <$> ss)).
Proof. apply Forall_app. rewrite !Forall_fmap. split; by apply Forall_true. Qed.

Lemma close_interrupted_settles : settles (close_interrupted_turn W to_string env).
Proof.
  intros s Hs. unfold close_interrupted_turn. rewrite bind_eq. unfold get. rewrite bind_eq. unfold call_now.
  destruct (drain env (elements (pending (memory s))) (world s)) as [ps w1]. rewrite bind_eq.
  destruct (drain env (map_to_list (open_steps (memory s))).*1 (world (set_world w1 s))) as [ss w2].
  unfold close_interrupted.
  assert (Hs2 : settled (set_world w2 (set_world w1 s))) by (by eapply settled_same).
  destruct (events_settle ((interrupted_event <$> ps) ++ (settled_event <$> ss)) _ (closing_pending ∅ ps ss eq_refl) (closed_events _ _ (closing_no_begin ps ss)) Hs2)
    as (s' & H & H'). rewrite bind_eq, on_memory_eq in H |- *. cbn [memory set_memory set_world] in *. by rewrite H.
Qed.

Lemma close_empty_settles e : settles (close_empty_response_turn W to_string env e).
Proof.
  unfold close_empty_response_turn. case_bool_decide; [|apply settles_ret].
  intros s (H1 & H2 & H3 & H4). rewrite bind_eq, on_memory_eq. unfold record_system_reminders.
  destruct (record_all_pays (WireOp.ContextAppendReminder <$> [EMPTY_RESPONSE_REMINDER]) []
              (set_memory (append_system_reminder EMPTY_RESPONSE_REMINDER (memory s)) s)) as (s' & -> & O & E).
  { rewrite app_nil_r. by apply (owing_memory []). }
  cbn [fst]. split; [done|]. rewrite E. cbn [memory set_memory].
  rewrite reminder_pending, reminder_max. split; [done|]. split; [|done]. apply waiting_settled; [by rewrite reminder_pending|].
  apply append_message_waiting. intros Hd. by rewrite H3 in Hd.
Qed.

Lemma aborted_settles a b c d : settles (aborted W to_string env a b c d).
Proof.
  unfold aborted. apply settles_bind; [apply close_interrupted_settles|intros _].
  apply settles_bind; [apply settles_same, same_emit|intros _]. apply settles_ret.
Qed.

Lemma step_with_retries_settles fuel llm alias step a b u :
  alone_llm llm ->
  settles (step_with_retries W to_string to_lowercase env builders config fuel llm alias step a b u).
Proof.
  intros Hl. assert (Hend : forall e, settles (close_empty_response_turn W to_string env e;;
                                                throw (A := StepResult + TurnResult) e)).
  { intros e. apply settles_bind; [apply close_empty_settles|intros _; apply settles_throw]. }
  induction fuel as [|fuel IH]; [done|]. cbn [step_with_retries].
  apply settles_bind; [by apply settles_catch, execute_settles|intros [result|error]].
  - apply settles_bind; [|intros _; apply settles_ret].
    destruct (step_retry config); [by apply settles_same, same_modify|apply settles_ret].
  - destruct (is_abort error).
    { apply settles_bind; [apply aborted_settles|intros ended; apply settles_ret]. }
    destruct (step_retry config) as [c|]; [|apply Hend].
    apply settles_bind; [done|intros s0].
    destruct (should_retry to_lowercase c step STEP_DRIVER_ID error (retry_state s0)) as [r' d].
    apply settles_bind; [by apply settles_same, same_modify|intros _].
    destruct d as [[attempt m|]|]; [|apply Hend..].
    apply settles_bind; [apply settles_same, same_emit|intros _; exact IH].
Qed.

Lemma turn_loop_settles fuel retries steps a b u :
  settles (turn_loop W to_string to_lowercase env builders config fuel retries steps a b u).
Proof.
  revert steps a b u. induction fuel as [|fuel IH]; intros steps a b u; [done|]. cbn [turn_loop].
  apply settles_bind; [apply settles_same, same_now|intros [|]; [apply aborted_settles|]].
  apply settles_bind.
  { destruct (turn_abort_guard env); [apply settles_same, same_now|apply settles_ret]. }
  intros alive. destruct (negb alive); [apply aborted_settles|].
  destruct (steps_exceeded config steps); [apply settles_throw|].
  intros s Hs. rewrite bind_eq. unfold call_now at 1.
  destruct (resolve_with_alias env (world s)) as [resolved w] eqn:Er. cbv beta iota.
  assert (Hs1 : settled (set_world w s)) by (by eapply settled_same).
  destruct resolved as [[llm alias]|reason]; [|done].
  pose proof (a_models D Halone _ _ _ _ Er) as Hl. revert Hs1. generalize (set_world w s). clear s Hs Er w.
  apply settles_bind; [by apply step_with_retries_settles|intros [result|result]; [|apply settles_ret]].
  case_bool_decide; [apply IH|].
  apply settles_bind; [by apply settles_same, same_await, a_continue with D|intros continuation].
  apply settles_bind; [apply settles_lift|intros continue_turn].
  destruct (negb continue_turn); [apply settles_ret|apply IH].
Qed.
End replaying.

Section theorem.
Context {W : Type} (to_string : json -> string) (to_lowercase : string -> string).
Context (env : Env W) (builders : MessageBuilders) (config : RunTurnConfig).

(** However a turn ends (with a result, an error, a panic), the operations it wrote
    to the wire log, replayed on the memory it started with, give the memory it
    leaves, with no exchange open. *)
Theorem turn_replays recorder fuel retries s :
  alone_env env (max_deferred (memory s)) -> wire_recorder env = Some recorder ->
  pending (memory s) = ∅ -> deferred (memory s) = [] ->
  let s' := fst (run_turn W to_string to_lowercase env builders config fuel retries s) in
  exists ops, recorded s' = recorded s ++ ops /\ replay to_string ops (memory s) = memory s' /\
    pending (memory s') = ∅ /\ deferred (memory s') = [].
Proof.
  intros Ha Hr Hp Hd.
  destruct (turn_loop_settles to_string to_lowercase env builders config (max_deferred (memory s)) Ha recorder Hr
              (recorded s) (memory s) fuel retries 0 false false no_usage s) as ((ops & H1 & H2 & _) & H3 & H4 & _).
  { split; [|done]. exists []. by rewrite app_nil_r. }
  exists ops. rewrite app_nil_r in H2. done.
Qed.
End theorem.

(** ** Examples *)

Lemma script_batch triples :
  batch_answered 1 ((fun '(name, _, id) => Dispatched id name JNull 7) <$> triples) (script_results triples).
Proof.
  split; [|split].
  - rewrite Forall_fmap. apply Forall_true. by intros [[? ?] ?].
  - intros id. replace (script_results triples).*1 with (snd <$> triples).
    + unfold dispatched_ids. induction triples as [|[[name args] c] triples IH]; simpl; [done|].
      rewrite !elem_of_cons. intros [->|H]; [by left|right; by apply IH].
    + destruct triples as [|[[name args] c] triples]; [done|]. simpl. f_equal.
      induction triples as [|[[? ?] ?] triples IH]; [done|]. simpl. by f_equal.
  - destruct triples as [|call triples]; [simpl; lia|].
    assert (H : injections (plain_result <$> triples) = []) by (by induction triples).
    change (length (match (if String.eqb call.1.1 "Skill" then Some "follow the skill" else None) with
                    | Some text => text :: injections (plain_result <$> triples)
                    | None => injections (plain_result <$> triples) end) <= 1)%nat.
    rewrite H. destruct (String.eqb call.1.1 "Skill"); simpl; lia.
Qed.

Lemma script_alone : alone_env script_env 1.
Proof.
  split; try (intros; done).
  - intros recorder op H. injection H as <-. done.
  - intros w llm alias w' H. injection H as <- _ _. split; [done|]. intros params [answers ids] stream w2. simpl.
    destruct answers as [|[events|error] rest]; intros [=]. by subst stream.
  - intros triples step w. apply script_batch.
Qed.

(** The sample's turn, with room for one deferred message *)
Lemma turn_replays_witness :
  exists ops, recorded (fst (script_run sample_script)) = [] ++ ops /\
    replay no_json ops (memory (script_start sample_script)) = memory (fst (script_run sample_script)).
Proof.
  rewrite script_run_eq.
  destruct (turn_replays no_json to_ascii_lowercase script_env script_builders script_config
              (fun _ => quietly tt) 6 3 (script_start sample_script)) as (ops & H1 & H2 & _ & _).
  - exact script_alone.
  - reflexivity.
  - vm_compute. reflexivity.
  - vm_compute. reflexivity.
  - exists ops. split; [exact H1|exact H2].
Defined.
