(* ===== verification/ToolManager.v ===== *)
(** * The tool registry: [mirri-core/src/tool_registry/mod.rs]

    [ToolManager]: the builtin tools, those of the user and those of MCP servers,
    which of them are active, and the table of definitions a request carries,
    recomputed by every operation that changes any of this. *)
From stdpp Require Import gmap strings list sorting.
From S2P Require Import Prelude RustStd Json TurnTypes.
#[local] Open Scope string_scope.
#[local] Open Scope list_scope.

(** What the registry asks of a [Tool] *)
Class ToolTrait (T : Type) := {
  tool_name : T -> string;
  tool_description : T -> string;
  tool_parameters : T -> json;
  tool_readonly : T -> bool;
  tool_deferred : T -> bool
}.

(** [Vec::dedup]: of a run of equal names the first is kept. *)
Fixpoint dedup (l : list string) : list string :=
  match l with
  | x :: (y :: _) as rest => if decide (x = y) then dedup rest else x :: dedup rest
  | _ => l
  end.

(** [Vec::sort] on names *)
Definition sorted_names (l : list string) : list string := sort_by_key (fun name => name) l.

(** Whether one entry of an explicit whitelist admits the name *)
Definition whitelist_entry_matches (entry tool_name : string) : bool :=
  if bool_decide (entry = tool_name) then true
  else match strip_suffix "*" entry with
       | Some prefix => String.prefix "mcp__" prefix && String.prefix prefix tool_name
       | None => false
       end.

Section registry.
Context {T : Type} `{!ToolTrait T}.

Record McpToolEntry : Type := mkMcpToolEntry { server : string; tool : T; loaded : bool }.

Record ToolManager : Type := mkToolManager {
  builtin_tools : gmap string T;
  user_tools : gmap string T;
  mcp_tools : gmap string McpToolEntry;
  enabled_tools : list string;
  enabled_tools_explicit : bool;
  builtin_disabled : gset string;
  disclosure_enabled : bool;
  loaded_mcp_tools : list string;
  cached_table : list ToolDefinition
}.

Definition new_manager : ToolManager := mkToolManager ∅ ∅ ∅ [] false ∅ false [] [].

Definition set_builtins (x : gmap string T) (s : ToolManager) : ToolManager :=
  mkToolManager x (user_tools s) (mcp_tools s) (enabled_tools s) (enabled_tools_explicit s)
    (builtin_disabled s) (disclosure_enabled s) (loaded_mcp_tools s) (cached_table s).
Definition set_users (x : gmap string T) (s : ToolManager) : ToolManager :=
  mkToolManager (builtin_tools s) x (mcp_tools s) (enabled_tools s) (enabled_tools_explicit s)
    (builtin_disabled s) (disclosure_enabled s) (loaded_mcp_tools s) (cached_table s).
Definition set_mcps (x : gmap string McpToolEntry) (s : ToolManager) : ToolManager :=
  mkToolManager (builtin_tools s) (user_tools s) x (enabled_tools s) (enabled_tools_explicit s)
    (builtin_disabled s) (disclosure_enabled s) (loaded_mcp_tools s) (cached_table s).
Definition set_enabled (x : list string) (s : ToolManager) : ToolManager :=
  mkToolManager (builtin_tools s) (user_tools s) (mcp_tools s) x (enabled_tools_explicit s)
    (builtin_disabled s) (disclosure_enabled s) (loaded_mcp_tools s) (cached_table s).
Definition set_explicit (x : bool) (s : ToolManager) : ToolManager :=
  mkToolManager (builtin_tools s) (user_tools s) (mcp_tools s) (enabled_tools s) x
    (builtin_disabled s) (disclosure_enabled s) (loaded_mcp_tools s) (cached_table s).
Definition set_disabled (x : gset string) (s : ToolManager) : ToolManager :=
  mkToolManager (builtin_tools s) (user_tools s) (mcp_tools s) (enabled_tools s) (enabled_tools_explicit s)
    x (disclosure_enabled s) (loaded_mcp_tools s) (cached_table s).
Definition set_disclosed (x : bool) (s : ToolManager) : ToolManager :=
  mkToolManager (builtin_tools s) (user_tools s) (mcp_tools s) (enabled_tools s) (enabled_tools_explicit s)
    (builtin_disabled s) x (loaded_mcp_tools s) (cached_table s).
Definition set_loaded (x : list string) (s : ToolManager) : ToolManager :=
  mkToolManager (builtin_tools s) (user_tools s) (mcp_tools s) (enabled_tools s) (enabled_tools_explicit s)
    (builtin_disabled s) (disclosure_enabled s) x (cached_table s).
Definition set_table (x : list ToolDefinition) (s : ToolManager) : ToolManager :=
  mkToolManager (builtin_tools s) (user_tools s) (mcp_tools s) (enabled_tools s) (enabled_tools_explicit s)
    (builtin_disabled s) (disclosure_enabled s) (loaded_mcp_tools s) x.

(** [HashMap::keys], in some order; the names are sorted before anyone sees them. *)
Definition keys {A} (m : gmap string A) : list string := (map_to_list m).*1.

(** Builtin, then user, then MCP *)
Definition find_tool (name : string) (s : ToolManager) : option T :=
  match builtin_tools s !! name with
  | Some t => Some t
  | None => match user_tools s !! name with
            | Some t => Some t
            | None => tool <$> mcp_tools s !! name
            end
  end.

Definition definition_of (t : T) : ToolDefinition :=
  mkToolDefinition (tool_name t) (tool_description t) (tool_parameters t) (tool_deferred t).

(** Whether the explicit whitelist admits an MCP tool *)
Definition whitelisted (name : string) (s : ToolManager) : bool :=
  existsb (fun enabled => whitelist_entry_matches enabled name) (enabled_tools s).

Definition table_names (s : ToolManager) : list string :=
  let names := List.filter (fun name => negb (bool_decide (name ∈ builtin_disabled s))) (enabled_tools s) in
  let mcp_names := if disclosure_enabled s then keys (filter (fun e => loaded e.2 = true) (mcp_tools s))
                   else keys (mcp_tools s) in
  let names := names ++ (if enabled_tools_explicit s then List.filter (fun name => whitelisted name s) mcp_names
                         else mcp_names) in
  dedup (sorted_names (if disclosure_enabled s then names ++ ["select_tools"] else names)).

(** The row of a name in the table, if a tool is registered under it *)
Definition table_row (s : ToolManager) (name : string) : option ToolDefinition :=
  (fun t => let def := definition_of t in
            if disclosure_enabled s && bool_decide (is_Some (mcp_tools s !! name))
            then mkToolDefinition (td_name def) (td_description def) (td_parameters def) true else def)
    <$> find_tool name s.

Definition recompute_table (s : ToolManager) : ToolManager := set_table (omap (table_row s) (table_names s)) s.

Definition register_builtin (t : T) (s : ToolManager) : ToolManager :=
  recompute_table (set_builtins (<[tool_name t := t]> (builtin_tools s)) s).

Definition register_user_tool (t : T) (s : ToolManager) : ToolManager :=
  let s := set_users (<[tool_name t := t]> (user_tools s)) s in
  let s := if negb (enabled_tools_explicit s) && negb (bool_decide (tool_name t ∈ enabled_tools s))
           then set_enabled (enabled_tools s ++ [tool_name t]) s else s in
  recompute_table s.

Definition without (name : string) (l : list string) : list string :=
  List.filter (fun n => negb (bool_decide (n = name))) l.

Definition set_user_tool_enabled (name : string) (enabled : bool) (s : ToolManager) : ToolManager * bool :=
  match user_tools s !! name with
  | None => (s, false)
  | Some _ =>
    let s := if enabled then
               if bool_decide (name ∈ enabled_tools s) then s else set_enabled (enabled_tools s ++ [name]) s
             else set_enabled (without name (enabled_tools s)) s in
    (recompute_table s, true)
  end.

Definition set_builtin_tool_enabled (name : string) (enabled : bool) (s : ToolManager) : ToolManager * bool :=
  match builtin_tools s !! name with
  | None => (s, false)
  | Some _ =>
    let s := if enabled then
               let s := set_disabled (builtin_disabled s ∖ {[name]}) s in
               if bool_decide (name ∈ enabled_tools s) then s
               else set_enabled (sorted_names (enabled_tools s ++ [name])) s
             else set_enabled (without name (enabled_tools s)) (set_disabled ({[name]} ∪ builtin_disabled s) s) in
    (recompute_table s, true)
  end.

Definition remove_user_tool (name : string) (s : ToolManager) : ToolManager * bool :=
  match user_tools s !! name with
  | Some _ => (recompute_table (set_enabled (without name (enabled_tools s)) (set_users (delete name (user_tools s)) s)), true)
  | None => (s, false)
  end.

Definition register_mcp_tool (server : string) (t : T) (s : ToolManager) : ToolManager :=
  recompute_table (set_mcps (<[tool_name t := mkMcpToolEntry server t false]> (mcp_tools s)) s).

Definition remove_mcp_tools_by_server (name : string) (s : ToolManager) : ToolManager * nat :=
  let kept := filter (fun e => server e.2 <> name) (mcp_tools s) in
  let removed := (size (mcp_tools s) - size kept)%nat in
  let s := set_mcps kept s in
  (if (0 <? removed)%nat then recompute_table s else s, removed).

Definition set_active_tools (tools : list string) (s : ToolManager) : ToolManager :=
  recompute_table (set_explicit true (set_enabled tools s)).

Definition enable_all_registered (s : ToolManager) : ToolManager :=
  let names := List.filter (fun name => negb (bool_decide (name ∈ builtin_disabled s))) (keys (builtin_tools s))
               ++ keys (user_tools s) in
  recompute_table (set_explicit false (set_enabled (sorted_names names) s)).

Definition set_disclosure (enabled : bool) (s : ToolManager) : ToolManager := recompute_table (set_disclosed enabled s).

Definition load_mcp_tool (name : string) (s : ToolManager) : ToolManager :=
  let s := set_mcps (alter (fun e => mkMcpToolEntry (server e) (tool e) true) name (mcp_tools s)) s in
  let s := if bool_decide (name ∈ loaded_mcp_tools s) then s else set_loaded (loaded_mcp_tools s ++ [name]) s in
  recompute_table s.

Definition is_tool_active (name : string) (s : ToolManager) : bool := bool_decide (name ∈ enabled_tools s).
Definition loop_tools (s : ToolManager) : list ToolDefinition := cached_table s.
Definition all_tool_names (s : ToolManager) : list string :=
  sorted_names (keys (builtin_tools s) ++ keys (user_tools s) ++ keys (mcp_tools s)).
Definition loadable_dynamic_tool_names (s : ToolManager) : list string :=
  let names := keys (mcp_tools s) in
  sorted_names (if enabled_tools_explicit s then List.filter (fun name => whitelisted name s) names else names).
End registry.
Arguments ToolManager : clear implicits.
Arguments McpToolEntry : clear implicits.

(** ** The operations *)

Inductive ToolOp (T : Type) : Type :=
| RegisterBuiltin (t : T)
| RegisterUser (t : T)
| SetUserEnabled (name : string) (enabled : bool)
| SetBuiltinEnabled (name : string) (enabled : bool)
| RemoveUser (name : string)
| RegisterMcp (server : string) (t : T)
| RemoveMcpServer (name : string)
| SetActive (names : list string)
| EnableAll
| SetDisclosure (enabled : bool)
| LoadMcp (name : string).
Arguments RegisterBuiltin {T}. Arguments RegisterUser {T}. Arguments SetUserEnabled {T}.
Arguments SetBuiltinEnabled {T}. Arguments RemoveUser {T}. Arguments RegisterMcp {T}.
Arguments RemoveMcpServer {T}. Arguments SetActive {T}. Arguments EnableAll {T}.
Arguments SetDisclosure {T}. Arguments LoadMcp {T}.

Section facts.
Context {T : Type} `{!ToolTrait T}.
Implicit Types (s : ToolManager T) (name : string).

Definition apply_op (s : ToolManager T) (op : ToolOp T) : ToolManager T :=
  match op with
  | RegisterBuiltin t => register_builtin t s
  | RegisterUser t => register_user_tool t s
  | SetUserEnabled name enabled => fst (set_user_tool_enabled name enabled s)
  | SetBuiltinEnabled name enabled => fst (set_builtin_tool_enabled name enabled s)
  | RemoveUser name => fst (remove_user_tool name s)
  | RegisterMcp server t => register_mcp_tool server t s
  | RemoveMcpServer name => fst (remove_mcp_tools_by_server name s)
  | SetActive names => set_active_tools names s
  | EnableAll => enable_all_registered s
  | SetDisclosure enabled => set_disclosure enabled s
  | LoadMcp name => load_mcp_tool name s
  end.

(** ** What the table is for *)

(** A name the model is offered, if a tool is registered under it *)
Definition visible s name : Prop :=
  (name ∈ enabled_tools s /\ name ∉ builtin_disabled s) \/
  (exists e, mcp_tools s !! name = Some e /\ (disclosure_enabled s = true -> loaded e = true) /\
             (enabled_tools_explicit s = true -> whitelisted name s = true)) \/
  (disclosure_enabled s = true /\ name = "select_tools").

(** Every tool stands under its own name. *)
Definition well_named s : Prop :=
  map_Forall (fun name t => tool_name t = name) (builtin_tools s) /\
  map_Forall (fun name t => tool_name t = name) (user_tools s) /\
  map_Forall (fun name e => tool_name (tool e) = name) (mcp_tools s).

(** The table is that of the state it stands in. *)
Definition current s : Prop := cached_table s = omap (table_row s) (table_names s).

Lemma dedup_cons x y l : dedup (x :: y :: l) = if decide (x = y) then dedup (y :: l) else x :: dedup (y :: l).
Proof. done. Qed.

Lemma elem_of_dedup_names x l : x ∈ dedup l <-> x ∈ l.
Proof.
  induction l as [|y l IH]; [done|]. destruct l as [|z l]; [done|]. rewrite dedup_cons.
  destruct (decide (y = z)) as [->|Hyz]; [|by rewrite !(elem_of_cons _ x y), IH].
  rewrite IH, !elem_of_cons. tauto.
Qed.

Lemma dedup_sorted l :
  StronglySorted string_le l -> StronglySorted string_le (dedup l) /\ NoDup (dedup l).
Proof.
  induction l as [|y l IH]; [split; constructor|]. intros Hs. inversion Hs as [|? ? Hl Hy]; subst.
  destruct l as [|z l]; [split; [by constructor|apply NoDup_singleton]|].
  destruct (IH Hl) as [H1 H2]. rewrite dedup_cons. destruct (decide (y = z)) as [->|Hyz]; [done|]. split.
  - constructor; [done|]. apply Forall_forall. intros x Hx. rewrite elem_of_dedup_names in Hx.
    rewrite Forall_forall in Hy. by apply Hy.
  - constructor; [|done]. rewrite elem_of_dedup_names. intros Hin.
    apply Hyz, (anti_symm string_le); [apply (Forall_inv Hy)|].
    apply elem_of_cons in Hin as [->|Hin]; [done|]. inversion Hl as [|? ? ? Hz]; subst.
    rewrite Forall_forall in Hz. by apply Hz.
Qed.

Lemma sorted_names_sorted l : StronglySorted string_le (sorted_names l).
Proof. apply sort_by_key_sorted. Qed.
Lemma elem_of_sorted_names x l : x ∈ sorted_names l <-> x ∈ l.
Proof. unfold sorted_names. by rewrite sort_by_key_perm. Qed.

Lemma elem_of_keys {A} (m : gmap string A) x : x ∈ keys m <-> is_Some (m !! x).
Proof.
  unfold keys. rewrite list_elem_of_fmap. split.
  - intros ([k a] & -> & H). apply elem_of_map_to_list in H. by eexists.
  - intros [a H]. exists (x, a). split; [done|]. by apply elem_of_map_to_list.
Qed.

Lemma elem_of_list_filter {A} (f : A -> bool) x (l : list A) : x ∈ List.filter f l <-> f x = true /\ x ∈ l.
Proof. rewrite !list_elem_of_In, filter_In. tauto. Qed.

Lemma elem_of_table_names s name : name ∈ table_names s <-> visible s name.
Proof.
  unfold table_names, visible. rewrite elem_of_dedup_names, elem_of_sorted_names.
  set (shown := List.filter _ _).
  set (mcps := if disclosure_enabled s then keys _ else keys _).
  assert (H1 : name ∈ shown <-> name ∈ enabled_tools s /\ name ∉ builtin_disabled s).
  { unfold shown. rewrite elem_of_list_filter, negb_true_iff, bool_decide_eq_false. tauto. }
  assert (H2 : name ∈ mcps <->
               exists e, mcp_tools s !! name = Some e /\ (disclosure_enabled s = true -> loaded e = true)).
  { unfold mcps. destruct (disclosure_enabled s); rewrite elem_of_keys; unfold is_Some.
    - setoid_rewrite map_lookup_filter_Some. simpl. naive_solver.
    - naive_solver. }
  assert (H3 : name ∈ (if enabled_tools_explicit s then List.filter (fun name => whitelisted name s) mcps else mcps)
               <-> exists e, mcp_tools s !! name = Some e /\ (disclosure_enabled s = true -> loaded e = true) /\
                             (enabled_tools_explicit s = true -> whitelisted name s = true)).
  { destruct (enabled_tools_explicit s); [rewrite elem_of_list_filter|]; rewrite H2; naive_solver. }
  destruct (disclosure_enabled s); rewrite ?elem_of_app, H1, H3; [|naive_solver].
  rewrite list_elem_of_singleton. naive_solver.
Qed.

Lemma table_names_sorted s : StronglySorted string_le (table_names s) /\ NoDup (table_names s).
Proof. apply dedup_sorted. destruct (disclosure_enabled s); apply sorted_names_sorted. Qed.

Lemma recompute_current s : current (recompute_table s).
Proof. done. Qed.

Lemma set_mcps_id s : set_mcps (mcp_tools s) s = s.
Proof. by destruct s. Qed.

Lemma apply_op_current s op : current s -> current (apply_op s op).
Proof.
  intros Hc. destruct op; simpl; try apply recompute_current.
  - unfold set_user_tool_enabled. by case_match.
  - unfold set_builtin_tool_enabled. by case_match.
  - unfold remove_user_tool. by case_match.
  - unfold remove_mcp_tools_by_server. set (kept := filter _ (mcp_tools s)). simpl.
    case_match eqn:E; [done|]. apply Nat.ltb_ge in E.
    assert (kept = mcp_tools s) as -> by (apply map_subseteq_size_eq; [apply map_filter_subseteq|lia]).
    by rewrite set_mcps_id.
Qed.

Lemma apply_op_well_named s op : well_named s -> well_named (apply_op s op).
Proof.
  intros (H1 & H2 & H3). destruct op; simpl; repeat split; simpl; try done.
  all: unfold register_user_tool, set_user_tool_enabled, set_builtin_tool_enabled, remove_user_tool,
         remove_mcp_tools_by_server, load_mcp_tool.
  all: repeat case_match; simpl; try done.
  all: try (by apply map_Forall_insert_2); try (by apply map_Forall_delete).
  all: intros k e He;
    first [apply lookup_alter_Some in He as [(-> & e0 & He & ->)|[_ He]]
          |apply map_lookup_filter_Some in He as [He _]]; by apply H3 in He.
Qed.

Lemma sound ops : forall s, well_named s -> current s ->
  let s' := foldl apply_op s ops in well_named s' /\ current s'.
Proof.
  induction ops as [|op ops IH]; intros s H1 H2; [done|]. simpl.
  apply IH; [by apply apply_op_well_named|by apply apply_op_current].
Qed.

Lemma new_well_named : well_named (new_manager : ToolManager T).
Proof. repeat split; apply map_Forall_empty. Qed.

Lemma find_tool_name s name t : well_named s -> find_tool name s = Some t -> tool_name t = name.
Proof.
  intros (H1 & H2 & H3). unfold find_tool. repeat case_match; intros E; simplify_eq/=; eauto.
  apply fmap_Some in E as (e & He & ->). by apply H3 in He.
Qed.

Lemma table_row_name s name def : well_named s -> table_row s name = Some def -> td_name def = name.
Proof.
  intros Hw H. apply fmap_Some in H as (t & Ht & ->). apply find_tool_name in Ht; [|done].
  by destruct (_ && _).
Qed.

(** The rows keep the order of the names. *)
Lemma rows_sublist s l : well_named s -> td_name <$> omap (table_row s) l `sublist_of` l.
Proof.
  intros Hw. induction l as [|name l IH]; [done|]. simpl. destruct (table_row s name) as [def|] eqn:E; simpl.
  - rewrite (table_row_name _ _ _ Hw E). by apply sublist_skip.
  - by apply sublist_cons.
Qed.

Lemma sorted_sublist (l k : list string) :
  l `sublist_of` k -> StronglySorted string_le k -> StronglySorted string_le l.
Proof.
  induction 1 as [|x l k Hl IH|x l k Hl IH]; intros Hs; [constructor| |]; inversion Hs as [|? ? Hk Hx]; subst.
  - constructor; [by apply IH|]. rewrite Forall_forall in Hx |- *. intros y Hy. apply Hx.
    by eapply elem_of_sublist.
  - by apply IH.
Qed.
End facts.

Section theorems.
Context {T : Type} `{!ToolTrait T}.

(** C22. However the registry is used, every tool stands under its own name, and the
    table is sorted by name, without repetition, and holds exactly the definitions
    of the visible registered tools, those of MCP servers marked deferred while
    tools are disclosed step by step. *)
Theorem table_current (ops : list (ToolOp T)) :
  let s := foldl apply_op new_manager ops in
  well_named s /\ StronglySorted string_le (td_name <$> loop_tools s) /\ NoDup (td_name <$> loop_tools s) /\
  forall def, def ∈ loop_tools s <->
    exists t, visible s (tool_name t) /\ find_tool (tool_name t) s = Some t /\
      def = mkToolDefinition (tool_name t) (tool_description t) (tool_parameters t)
              (tool_deferred t || (disclosure_enabled s && bool_decide (is_Some (mcp_tools s !! tool_name t)))).
Proof.
  cbv zeta. destruct (sound ops new_manager new_well_named eq_refl) as [Hw Hc].
  set (s := foldl apply_op new_manager ops) in *. unfold loop_tools. rewrite Hc.
  destruct (table_names_sorted s) as [H1 H2]. pose proof (rows_sublist s (table_names s) Hw) as Hr.
  split; [done|]. split; [by eapply sorted_sublist|]. split; [by eapply sublist_NoDup|].
  intros def. rewrite ?Hc, list_elem_of_omap. split.
  - intros (name & Hn & Hd). apply elem_of_table_names in Hn. apply fmap_Some in Hd as (t & Ht & ->).
    pose proof (find_tool_name _ _ _ Hw Ht) as <-. exists t. split; [done|]. split; [done|].
    destruct (_ && bool_decide _); simpl; by rewrite ?orb_true_r, ?orb_false_r.
  - intros (t & Hv & Ht & ->). exists (tool_name t). split; [by apply elem_of_table_names|].
    unfold table_row. rewrite Ht. simpl. destruct (_ && bool_decide _); simpl; by rewrite ?orb_true_r, ?orb_false_r.
Qed.

(** The operations that do not widen an explicit whitelist by themselves *)
Definition narrow (op : ToolOp T) : bool :=
  match op with
  | SetActive _ | EnableAll | SetUserEnabled _ true | SetBuiltinEnabled _ true => false
  | _ => true
  end.

Lemma narrow_enabled s op : narrow op = true -> enabled_tools_explicit s = true ->
  enabled_tools_explicit (apply_op s op) = true /\ enabled_tools (apply_op s op) ⊆ enabled_tools s.
Proof.
  assert (Hw : forall name l, without name l ⊆ l).
  { intros name l x. unfold without. rewrite elem_of_list_filter. tauto. }
  intros Hn He. destruct op as [| |name [|]|name [|]| | | | | | |]; try done; simpl.
  all: unfold register_user_tool, set_user_tool_enabled, set_builtin_tool_enabled, remove_user_tool,
         remove_mcp_tools_by_server, load_mcp_tool; simpl; rewrite ?He; simpl.
  all: repeat case_match; simpl; split; first [done | apply Hw].
Qed.

Lemma narrow_kept ops : forall s, forallb narrow ops = true -> enabled_tools_explicit s = true ->
  let s' := foldl apply_op s ops in
  enabled_tools_explicit s' = true /\ enabled_tools s' ⊆ enabled_tools s.
Proof.
  induction ops as [|op ops IH]; intros s Hn He; [done|]. simpl in *. apply andb_true_iff in Hn as [Hn1 Hn2].
  destruct (narrow_enabled s op Hn1 He) as [H1 H2]. destruct (IH _ Hn2 H1) as [H3 H4].
  split; [done|by etrans].
Qed.

Lemma in_table s def : well_named s -> current s -> def ∈ loop_tools s -> visible s (td_name def).
Proof.
  intros Hw Hc. unfold loop_tools. rewrite Hc, list_elem_of_omap. intros (name & Hn & Hd).
  rewrite (table_row_name _ _ _ Hw Hd). by apply elem_of_table_names.
Qed.

(** C21. Under an explicit whitelist no registration, removal, disclosure or loading
    lets the model see a tool the whitelist does not admit, apart from the one
    that discloses the others. *)
Theorem whitelist_holds before (names : list string) (ops : list (ToolOp T)) def :
  forallb narrow ops = true ->
  let s := foldl apply_op (set_active_tools names (foldl apply_op new_manager before)) ops in
  def ∈ loop_tools s ->
  existsb (fun entry => whitelist_entry_matches entry (td_name def)) names = true \/
  (disclosure_enabled s = true /\ td_name def = "select_tools").
Proof.
  intros Hn. cbv zeta. destruct (sound before new_manager new_well_named eq_refl) as [Hw0 Hc0].
  set (s0 := foldl apply_op new_manager before) in *.
  destruct (sound (SetActive names :: ops) s0 Hw0 Hc0) as [Hw Hc]. simpl in Hw, Hc.
  destruct (narrow_kept ops (set_active_tools names s0) Hn eq_refl) as [He Hs].
  set (s := foldl apply_op _ ops) in *. intros Hd.
  assert (Hin : forall entry name, entry ∈ enabled_tools s -> whitelist_entry_matches entry name = true ->
                existsb (fun entry => whitelist_entry_matches entry name) names = true).
  { intros entry name H1 H2. apply existsb_exists. exists entry. split; [|done].
    apply list_elem_of_In. by apply Hs in H1. }
  destruct (in_table s def Hw Hc Hd) as [[H _]|[(e & _ & _ & H)|[H1 H2]]]; [left|left|by right].
  - eapply Hin; [exact H|]. unfold whitelist_entry_matches. by rewrite bool_decide_eq_true_2.
  - specialize (H He). apply existsb_exists in H as (entry & H1 & H2). eapply Hin; [|exact H2].
    by apply list_elem_of_In.
Qed.

(** A builtin tool that a mode hides is not shown, whatever the active set says,
    unless the tool of a server carries its name. *)
Lemma disabled_hidden s def :
  well_named s -> current s -> def ∈ loop_tools s -> td_name def ∈ builtin_disabled s ->
  is_Some (mcp_tools s !! td_name def) \/ td_name def = "select_tools".
Proof.
  intros Hw Hc Hd Hh. destruct (in_table s def Hw Hc Hd) as [[_ H]|[(e & H & _)|[_ H]]]; [done|left|by right].
  by eexists.
Qed.
End theorems.

(** ** Examples *)

(** A tool by its name alone *)
#[local] Instance named_tool : ToolTrait string := {|
  tool_name := fun t => t; tool_description := fun _ => ""; tool_parameters := fun _ => JNull;
  tool_readonly := fun _ => false; tool_deferred := fun _ => false
|}.

Definition sample_ops : list (ToolOp string) :=
  [RegisterBuiltin "Write"; RegisterBuiltin "Read"; EnableAll; RegisterMcp "files" "mcp__files__list";
   RegisterMcp "web" "mcp__web__get"; RegisterUser "deploy"].

Example sample_table : td_name <$> loop_tools (foldl apply_op new_manager sample_ops)
  = ["Read"; "Write"; "deploy"; "mcp__files__list"; "mcp__web__get"].
Proof. vm_compute. reflexivity. Qed.

(** A server's tool that is registered again is hidden until it is loaded again,
    though it stays in the list of the loaded ones. *)
Example reconnect_hides :
  let s := foldl apply_op new_manager
             [RegisterMcp "web" "mcp__web__get"; SetDisclosure true; LoadMcp "mcp__web__get";
              RemoveMcpServer "web"; RegisterMcp "web" "mcp__web__get"] in
  loop_tools s = [] /\ loaded_mcp_tools s = ["mcp__web__get"].
Proof. vm_compute. done. Qed.

Lemma whitelist_holds_witness :
  let s := foldl apply_op (set_active_tools ["Read"; "mcp__web__*"] (foldl apply_op new_manager sample_ops))
             [RegisterMcp "files" "mcp__files__stat"; RegisterMcp "web" "mcp__web__post"; RegisterUser "undo"] in
  td_name <$> loop_tools s = ["Read"; "mcp__web__get"; "mcp__web__post"] /\
  existsb (fun entry => whitelist_entry_matches entry "mcp__web__post") ["Read"; "mcp__web__*"] = true.
Proof.
  cbv zeta. split; [vm_compute; reflexivity|].
  destruct (whitelist_holds sample_ops ["Read"; "mcp__web__*"]
              [RegisterMcp "files" "mcp__files__stat"; RegisterMcp "web" "mcp__web__post"; RegisterUser "undo"]
              (mkToolDefinition "mcp__web__post" "" JNull false)) as [H|[_ H]].
  - reflexivity.
  - vm_compute. set_solver.
  - exact H.
  - discriminate H.
Defined.
