(* ===== verification/ToolArgs.v ===== *)
(** * Arguments of tool calls: [mirri-core/src/tool_registry/arg_converter.rs] and
    [args_validator.rs]

    What is done to the arguments of a call before its tool sees them: names a
    model tends to confuse are mapped, numbers written as text are read, and the
    result is checked against the schema of the tool by the [jsonschema] crate,
    which is a parameter here with the errors the code reads from it. *)
From stdpp Require Import gmap strings list.
From S2P Require Import Prelude RustStd F64 Json ToolManager.
#[local] Open Scope string_scope.
#[local] Open Scope list_scope.
#[local] Open Scope Z_scope.

Definition PARAMETER_ALIASES : list (string * string) :=
  [("offset", "line_offset"); ("limit", "n_lines"); ("pattern", "regex"); ("path", "glob"); ("query", "pattern")].

Definition assoc_remove {A} (key : string) (l : list (string * A)) : list (string * A) :=
  List.filter (fun e => negb (bool_decide (e.1 = key))) l.

(** One row of the aliases: [obj.remove(alias)], then [entry(canonical).or_insert] *)
Definition remap (schema_keys : list string) (obj : list (string * json)) (row : string * string)
  : list (string * json) :=
  let '(alias, canonical) := row in
  if bool_decide (canonical ∈ schema_keys) && negb (bool_decide (alias ∈ schema_keys)) then
    match assoc alias obj with
    | Some val =>
      let obj := assoc_remove alias obj in
      match assoc canonical obj with Some _ => obj | None => obj ++ [(canonical, val)] end
    | None => obj
    end
  else obj.

Definition parameter_alias_convert (schema args : json) : json :=
  match args, jget "properties" schema with
  | JObj obj, Some (JObj props) => JObj (foldl (remap props.*1) obj PARAMETER_ALIASES)
  | _, _ => args
  end.

(** [str::parse::<i64>] *)
Definition parse_i64 (s : string) : option Z :=
  v ← match s with
      | String "-" s' => Z.opp <$> digits s'
      | String "+" s' => digits s'
      | _ => digits s
      end;
  if (- 2 ^ 63 <=? v) && (v <? 2 ^ 63) then Some v else None.

Section args.
(** [json!(s.parse::<f64>()?)]: infinities and what is not a number become null. *)
Context (parse_number : string -> option json).

Definition coerce (props : list (string * json)) (entry : string * json) : string * json :=
  let '(key, val) := entry in
  match assoc key props ≫= str_field "type", val with
  | Some "number", JStr s => (key, default val (parse_number s))
  | Some "integer", JStr s => (key, default val (JNum <$> parse_i64 s))
  | _, _ => (key, val)
  end.

Definition numeric_string_convert (schema args : json) : json :=
  match args, jget "properties" schema with
  | JObj obj, Some (JObj props) => JObj (coerce props <$> obj)
  | _, _ => args
  end.

Definition convert_tool_args (schema args : json) : json :=
  numeric_string_convert schema (parameter_alias_convert schema args).
End args.

(** ** Validation *)

(** What the code reads of a [jsonschema::ValidationError] *)
Record ValidationError : Type := mkValidationError {
  schema_path : string;
  instance_path : string;
  instance : json;
  unexpected : option (list string);
  display : string
}.

(** [s.trim_start_matches('/')] *)
Fixpoint trim_start_slashes (s : string) : string :=
  match s with
  | String "/" s => trim_start_slashes s
  | _ => s
  end.

Definition additional_property (unexpected : list string) : string :=
  "must NOT have additional property '" +:+ default "value" (head unexpected) +:+ "'".

Definition format_validation_error (err : ValidationError) : string :=
  if ends_with "/required" (schema_path err) then
    let missing := trim_start_slashes (instance_path err) in
    let missing := if bool_decide (missing = "") then default "value" (as_str (instance err)) else missing in
    "must have required property '" +:+ missing +:+ "'"
  else match ends_with "/additionalProperties" (schema_path err), unexpected err with
       | true, Some unexpected => additional_property unexpected
       | _, _ => display err
       end.

Definition format_validation_error_with_known (err : ValidationError) (known : list string) : string :=
  match ends_with "/additionalProperties" (schema_path err), unexpected err with
  | true, Some unexpected =>
    match known with
    | [] => additional_property unexpected
    | _ => additional_property unexpected +:+ ". Known arguments: " +:+ String.concat ", " known +:+ "."
    end
  | _, _ => format_validation_error err
  end.

Section validation.
Context {Validator : Type}.
(** [Validator::new] and [Validator::validate] of the crate *)
Class JsonSchema : Type := {
  compile : json -> result string Validator;
  check : Validator -> json -> option ValidationError
}.
Context `{!JsonSchema}.

Record ToolArgsValidator : Type := mkValidator { validator : Validator; known_properties : list string }.

Definition new_validator (schema : json) : result string ToolArgsValidator :=
  match compile schema with
  | Err e => Err e
  | Ok v => Ok (mkValidator v (match jget "properties" schema with
                               | Some (JObj props) => sorted_names props.*1
                               | _ => []
                               end))
  end.

Definition validate (v : ToolArgsValidator) (args : json) : result string unit :=
  match check (validator v) args with
  | None => Ok tt
  | Some err => Err (format_validation_error_with_known err (known_properties v))
  end.

Definition ValidatorCache : Type := gmap string ToolArgsValidator.

Definition get_or_create (tool_name : string) (schema : json) (cache : ValidatorCache)
  : ValidatorCache * result string ToolArgsValidator :=
  match cache !! tool_name with
  | Some v => (cache, Ok v)
  | None => match new_validator schema with
            | Err e => (cache, Err e)
            | Ok v => (<[tool_name := v]> cache, Ok v)
            end
  end.
End validation.
Arguments JsonSchema : clear implicits.
Arguments ToolArgsValidator : clear implicits.
Arguments ValidatorCache : clear implicits.

(** ** What the conversion keeps *)

Lemma assoc_remove_ne {A} key alias (l : list (string * A)) :
  key <> alias -> assoc key (assoc_remove alias l) = assoc key l.
Proof.
  intros Hne. induction l as [|[k v] l IH]; [done|]. simpl. case_bool_decide as Hk; simpl; [subst k|].
  - rewrite decide_False by done. exact IH.
  - by rewrite IH.
Qed.

Lemma assoc_app {A} key (l k : list (string * A)) :
  assoc key (l ++ k) = match assoc key l with Some v => Some v | None => assoc key k end.
Proof. induction l as [|[x v] l IH]; [done|]. simpl. by destruct (decide (x = key)). Qed.

Lemma remap_declared keys obj row key v :
  key ∈ keys -> assoc key obj = Some v -> assoc key (remap keys obj row) = Some v.
Proof.
  intros Hk Hv. destruct row as [alias canonical]. unfold remap.
  case_bool_decide as Hc; simpl; [|done]. case_bool_decide as Ha; simpl; [done|].
  destruct (assoc alias obj) as [val|] eqn:E; [|done].
  assert (H : assoc key (assoc_remove alias obj) = Some v) by (rewrite assoc_remove_ne; [done|by intros ->]).
  destruct (assoc canonical _); [done|]. by rewrite assoc_app, H.
Qed.

#[local] Arguments coerce : simpl never.
Lemma coerce_key parse props l key v :
  assoc key l = Some v -> assoc key (coerce parse props <$> l) = Some ((coerce parse props (key, v)).2).
Proof.
  induction l as [|[k w] l IH]; [done|]. simpl.
  assert (Hf : forall w, (coerce parse props (k, w)).1 = k).
  { intros x. unfold coerce. repeat case_match; done. }
  destruct (coerce parse props (k, w)) as [k' w'] eqn:E. specialize (Hf w). rewrite E in Hf. simpl in Hf. subst k'.
  destruct (decide (k = key)) as [->|]; [|done]. intros [= ->]. by rewrite E.
Qed.

(** An argument the schema declares keeps its value, read as a number when the
    schema asks for one and it is the text of one; the aliases take nothing away. *)
Theorem declared_args_kept parse_number schema obj props key v :
  jget "properties" schema = Some (JObj props) -> key ∈ props.*1 -> assoc key obj = Some v ->
  jget key (convert_tool_args parse_number schema (JObj obj)) = Some ((coerce parse_number props (key, v)).2).
Proof.
  intros Hp Hk Hv. unfold convert_tool_args, parameter_alias_convert, numeric_string_convert. rewrite !Hp.
  apply coerce_key. revert obj Hv. generalize PARAMETER_ALIASES as rows.
  induction rows as [|row rows IH]; intros obj Hv; [exact Hv|].
  simpl. apply IH. by apply remap_declared.
Qed.

Lemma declared_args_kept_witness :
  let schema := JObj [("properties", JObj [("line_offset", JObj [("type", JStr "integer")]);
                                           ("path", JObj [("type", JStr "string")])])] in
  let args := JObj [("path", JStr "a.rs"); ("line_offset", JStr "12"); ("offset", JNum 3)] in
  convert_tool_args (fun _ => None) schema args = JObj [("path", JStr "a.rs"); ("line_offset", JNum 12)] /\
  jget "path" (convert_tool_args (fun _ => None) schema args) = Some (JStr "a.rs").
Proof.
  cbv zeta. split; [vm_compute; reflexivity|].
  apply (declared_args_kept (fun _ => None) _ _ [("line_offset", JObj [("type", JStr "integer")]); ("path", JObj [("type", JStr "string")])]
           "path" (JStr "a.rs")); [reflexivity| |reflexivity]. vm_compute. set_solver.
Defined.
