(* ===== verification/ToolBatch.v ===== *)
(** * A batch of tool calls: [mirri-core/src/tool_registry/execution.rs]

    What happens to the calls of one answer between the model and the memory: each
    is looked up and its arguments checked, the hooks of the host decide on it, the
    calls that may run are scheduled, and every result goes through the last hook.
    The hooks, the tools and the running of their closures are the environment. *)
From stdpp Require Import gmap strings list.
From S2P Require Import Prelude RustStd Json ToolAccess EngineError Context Memory ToolScheduler TurnTypes ToolManager ToolArgs.
#[local] Open Scope string_scope.
#[local] Open Scope list_scope.
#[local] Open Scope Z_scope.

Definition quoted (s : string) : string :=
  let quote := String (ascii_of_nat 34) "" in quote +:+ s +:+ quote.

(** [PrepareToolResult] and [AuthorizeToolResult] *)
Inductive PrepareVerdict : Type :=
| Allowed
| PrepareBlocked (reason : string)
| PrepareSynthetic (result : CallResult)
| Rewritten (args : json).

Inductive AuthorizeVerdict : Type :=
| Approved (metadata : option json)
| AuthorizeBlocked (reason : string)
| AuthorizeSynthetic (result : CallResult).

Record ExecutionPlan : Type := mkPlan {
  plan_accesses : list ToolAccess;
  plan_display : json;
  approval_rule : string;
  plan_stop_batch : bool
}.

(** [ToolExecution]; [E] is the type of the closures. *)
Inductive ToolExecution (E : Type) : Type :=
| Runnable (plan : ExecutionPlan) (execute : E)
| ToolError (message : string).
Arguments Runnable {E}. Arguments ToolError {E}.

Record PreparedToolCall (E : Type) : Type := mkPrepared {
  p_id : string;
  p_name : string;
  p_args : json;
  p_plan : ExecutionPlan;
  p_execute : E;
  approval_metadata : option json
}.
Arguments mkPrepared {E}. Arguments p_id {E}. Arguments p_name {E}. Arguments p_args {E}.
Arguments p_plan {E}. Arguments p_execute {E}. Arguments approval_metadata {E}.

Record BlockedToolCall : Type := mkBlocked { b_id : string; b_name : string; b_args : json; b_reason : string }.
Record SyntheticToolCall : Type := mkSynthetic { s_id : string; s_name : string; s_args : json; s_result : CallResult }.

Inductive PrepareResult (E : Type) : Type :=
| Ready (p : PreparedToolCall E)
| Blocked (b : BlockedToolCall)
| Synthetic (s : SyntheticToolCall).
Arguments Ready {E}. Arguments Blocked {E}. Arguments Synthetic {E}.

Section batch.
Context {W T E Validator : Type} `{!ToolTrait T} `{!JsonSchema Validator}.
Context (to_lowercase : string -> string).

(** The environment of a batch.  [run_ready] runs the closures of the calls that
    may run: what each comes to, and which of the running ones ends next. *)
Record BatchEnv : Type := mkBatchEnv {
  parse_json : string -> option json;
  parse_number : string -> option json;
  prepare_tool_execution : Z -> string -> string -> json -> ext W (result EngineError PrepareVerdict);
  rewrite_tool_input : string -> json -> now W (result EngineError json);
  resolve_execution : T -> json -> now W (result EngineError (ToolExecution E));
  be_cancelled : now W bool;
  authorize_tool_execution : Z -> string -> string -> bool -> json -> ExecutionPlan ->
                             ext W (result EngineError AuthorizeVerdict);
  run_ready : list (PreparedToolCall E) -> ext W (list nat * list (@Outcome ContentPart));
  finalize_tool_result : Z -> string -> string -> json -> CallResult ->
                         ext W (result EngineError bool * CallResult);
  be_now_ms : now W Z
}.

(** What the batch changes; [asked] and [started] keep the verdicts of the
    permission gate and the calls that were handed to the scheduler. *)
Record BatchState : Type := mkBatch {
  bs_world : W;
  validators : ValidatorCache Validator;
  events : list BatchEvent;
  asked : list (string * string * json * result EngineError AuthorizeVerdict);
  started : list (PreparedToolCall E)
}.

Definition B (A : Type) : Type := BatchState -> BatchState * A.
#[global] Instance B_ret : MRet B := fun A a s => (s, a).
#[global] Instance B_bind : MBind B := fun A C f m s => let '(s, a) := m s in f a s.

Definition set_bs_world (w : W) (s : BatchState) : BatchState :=
  mkBatch w (validators s) (events s) (asked s) (started s).
Definition set_validators (v : ValidatorCache Validator) (s : BatchState) : BatchState :=
  mkBatch (bs_world s) v (events s) (asked s) (started s).
Definition add_events (l : list BatchEvent) (s : BatchState) : BatchState :=
  mkBatch (bs_world s) (validators s) (events s ++ l) (asked s) (started s).
Definition add_asked (x : string * string * json * result EngineError AuthorizeVerdict) (s : BatchState) : BatchState :=
  mkBatch (bs_world s) (validators s) (events s) (asked s ++ [x]) (started s).
Definition add_started (l : list (PreparedToolCall E)) (s : BatchState) : BatchState :=
  mkBatch (bs_world s) (validators s) (events s) (asked s) (started s ++ l).

Definition b_now {A} (f : now W A) : B A := fun s => let '(a, w) := f (bs_world s) in (set_bs_world w s, a).
Definition b_await {A} (f : ext W A) : B A := fun s =>
  let '(a, ops, w) := f (bs_world s) in (add_events (Meanwhile <$> ops) (set_bs_world w s), a).

Definition note_asked (x : string * string * json * result EngineError AuthorizeVerdict) : B unit :=
  fun s => (add_asked x s, tt).

Definition note_started (l : list (PreparedToolCall E)) : B unit := fun s => (add_started l s, tt).

Context (env : BatchEnv) (manager : ToolManager T).

(** The tool of a call and its arguments, or what is wrong with it *)
Definition preflight_tool_call (tool_name raw_args : string) : B (result string (T * json)) := fun s =>
  let args := default (JObj []) (parse_json env raw_args) in
  match find_tool tool_name manager with
  | None => (s, Err ("Tool " +:+ quoted tool_name +:+ " not found"))
  | Some tool =>
    let args := convert_tool_args (parse_number env) (tool_parameters tool) args in
    let '(cache, v) := get_or_create tool_name (tool_parameters tool) (validators s) in
    (set_validators cache s,
     match v with
     | Ok v => match validate v args with
               | Ok _ => Ok (tool, args)
               | Err e => Err ("Invalid args for tool " +:+ tool_name +:+ ": " +:+ e)
               end
     | Err _ => Ok (tool, args)
     end)
  end.

(** The second half of [prepare_tool_call]: the plan of the tool, the cancellation
    check and the permission gate *)
Definition authorize_call (step : Z) (tool : T) (effective_args : json) (id : string)
  : B (result EngineError (PrepareResult E)) :=
  let name := tool_name tool in
  execution ← b_now (resolve_execution env tool effective_args);
  match execution with
  | Err e => mret (Err (ToolExecutionFailed ("Tool " +:+ name +:+ " failed to resolve execution: " +:+ error_text e)))
  | Ok (ToolError message) => mret (Ok (Synthetic (mkSynthetic id name effective_args (error message))))
  | Ok (Runnable plan execute) =>
    cancelled ← b_now (be_cancelled env);
    if cancelled : bool then
      mret (Ok (Synthetic (mkSynthetic id name effective_args (error "Tool execution was cancelled"))))
    else
      answer ← b_await (authorize_tool_execution env step id name (tool_readonly tool) effective_args plan);
      note_asked (id, name, effective_args, answer);;
      match answer with
      | Err e => mret (Err e)
      | Ok (AuthorizeBlocked reason) => mret (Ok (Blocked (mkBlocked id name effective_args reason)))
      | Ok (AuthorizeSynthetic result) => mret (Ok (Synthetic (mkSynthetic id name effective_args result)))
      | Ok (Approved metadata) => mret (Ok (Ready (mkPrepared id name effective_args plan execute metadata)))
      end
  end.

Definition prepare_tool_call (step : Z) (tool : T) (args : json) (id : string)
  : B (result EngineError (PrepareResult E)) :=
  let name := tool_name tool in
  verdict ← b_await (prepare_tool_execution env step id name args);
  match verdict with
  | Err e => mret (Err e)
  | Ok (PrepareBlocked reason) => mret (Ok (Blocked (mkBlocked id name args reason)))
  | Ok (PrepareSynthetic result) => mret (Ok (Synthetic (mkSynthetic id name args result)))
  | Ok verdict =>
    let effective_args := match verdict with Rewritten args => args | _ => args end in
    rewritten ← b_now (rewrite_tool_input env name effective_args);
    match rewritten with
    | Err e => mret (Err e)
    | Ok effective_args =>
      authorize_call step tool effective_args id
    end
  end.

Definition finalize_result (step : Z) (id name : string) (args : json) (result : CallResult) : B CallResult :=
  '(verdict, result) ← b_await (finalize_tool_result env step id name args result);
  match verdict with
  | Ok stop => mret (if stop : bool then mkToolResult (output result) (ToolScheduler.is_error result)
                                           (ToolScheduler.note result) true (truncated result) (injection result)
                     else result)
  | Err _ => mret (error "Tool result finalization failed")
  end.

Fixpoint finalize_all (step : Z) (l : list (string * string * json * CallResult)) : B (list (string * CallResult)) :=
  match l with
  | [] => mret []
  | (id, name, args, result) :: l =>
    result ← finalize_result step id name args result;
    rest ← finalize_all step l;
    mret ((id, result) :: rest)
  end.

(** The task of a call, its closure given by what it comes to *)
Definition task_of (p : PreparedToolCall E) (execute : @Outcome ContentPart) : @PendingToolTask ContentPart :=
  mkPendingToolTask (p_id p) (p_name p) (p_args p) (plan_accesses (p_plan p)) execute (plan_stop_batch (p_plan p)).

Definition execute_tool_batch (step : Z) (ready : list (PreparedToolCall E)) (blocked : list BlockedToolCall)
    (synthetic : list SyntheticToolCall) : B (list (string * CallResult)) :=
  refused ← finalize_all step ((fun b => (b_id b, b_name b, b_args b, error (b_reason b))) <$> blocked);
  made_up ← finalize_all step ((fun s => (s_id s, s_name s, s_args s, s_result s)) <$> synthetic);
  note_started ready;;
  '(choices, outcomes) ← b_await (run_ready env ready);
  executed ← finalize_all step (schedule_and_execute to_lowercase choices (zip_with task_of ready outcomes));
  mret (refused ++ made_up ++ executed).

(** [notify_dispatched] *)
Definition notify (id name : string) (args : json) : B unit := fun s =>
  let '(at_ms, w) := be_now_ms env (bs_world s) in
  (add_events [Dispatched id name args at_ms] (set_bs_world w s), tt).

(** One call of the batch: what becomes of it *)
Definition settle_call (step : Z) (call : string * string * string) : B (PrepareResult E) :=
  let '(name, raw_args, id) := call in
  checked ← preflight_tool_call name raw_args;
  match checked with
  | Err e => mret (Synthetic (mkSynthetic id name (default (JObj []) (parse_json env raw_args)) (error e)))
  | Ok (tool, call_args) =>
    prepared ← prepare_tool_call step tool call_args id;
    match prepared with
    | Ok r => mret r
    | Err e => mret (Synthetic (mkSynthetic id name call_args (error (error_text e))))
    end
  end.

Fixpoint settle_calls (step : Z) (tool_calls : list (string * string * string))
  : B (list (PreparedToolCall E) * list BlockedToolCall * list SyntheticToolCall) :=
  match tool_calls with
  | [] => mret ([], [], [])
  | call :: tool_calls =>
    settled ← settle_call step call;
    match settled with
    | Ready p => notify (p_id p) (p_name p) (p_args p)
    | Blocked b => notify (b_id b) (b_name b) (b_args b)
    | Synthetic s => notify (s_id s) (s_name s) (s_args s)
    end;;
    '(ready, blocked, synthetic) ← settle_calls step tool_calls;
    mret (match settled with
          | Ready p => (p :: ready, blocked, synthetic)
          | Blocked b => (ready, b :: blocked, synthetic)
          | Synthetic s => (ready, blocked, s :: synthetic)
          end)
  end.

Definition run_tool_batch (tool_calls : list (string * string * string)) (step : Z) : B (list (string * CallResult)) :=
  '(ready, blocked, synthetic) ← settle_calls step tool_calls;
  execute_tool_batch step ready blocked synthetic.
End batch.
