(* ===== verification/BatchSound.v ===== *)
(** * What holds of a batch of tool calls *)
From stdpp Require Import gmap strings list.
From S2P Require Import Prelude RustStd Json ToolAccess EngineError Context Memory MemorySound ToolScheduler TurnTypes ToolManager ToolArgs ToolBatch.
#[local] Open Scope string_scope.
#[local] Open Scope list_scope.

(** ** The scheduler reports every task under its id *)

Section ids.
Context (to_lowercase : string -> string).
Notation Task := (@PendingToolTask ContentPart).

Definition result_id (q : string * string * json * CallResult) : string := q.1.1.1.

Lemma assemble_ids (tasks : list Task) rs :
  length rs = length tasks -> result_id <$> assemble tasks rs = tool_call_id <$> tasks.
Proof.
  revert rs. induction tasks as [|t tasks IH]; intros [|r rs]; try done. intros [= H]. simpl. f_equal. by apply IH.
Qed.

Lemma start_results (s : @Loop ContentPart) : results (start to_lowercase s) = results s.
Proof. unfold start. destruct (batch_stopped s); [done|]. by destruct (start_pass _ _ _). Qed.

Lemma run_loop_length fuel : forall choices (s : @Loop ContentPart),
  length (results (run_loop to_lowercase fuel choices s)) = length (results s).
Proof.
  induction fuel as [|fuel IH]; intros choices s; cbn [run_loop]; [by rewrite start_results|].
  case_match; [|by rewrite start_results]. case_match.
  rewrite IH. unfold complete. simpl. by rewrite length_insert, start_results.
Qed.

Lemma schedule_ids choices (tasks : list Task) :
  result_id <$> schedule_and_execute to_lowercase choices tasks = tool_call_id <$> tasks.
Proof.
  unfold schedule_and_execute. destruct tasks as [|t [|t' tasks]]; [done|done|].
  destruct (needs_mutex _); apply assemble_ids.
  - by rewrite length_fmap, run_serially_length.
  - by rewrite run_loop_length; unfold init; simpl; rewrite length_replicate.
Qed.
End ids.

Section batch.
Context {W T E Validator : Type} `{!ToolTrait T} `{!JsonSchema Validator}.
Context (to_lowercase : string -> string).
Notation BatchState := (@BatchState W E Validator).
Notation BatchEnv := (@BatchEnv W T E).
Context (env : BatchEnv) (manager : ToolManager T).
Implicit Types s : BatchState.

Lemma b_bind_eq {A C} (m : B A) (f : A -> B C) s :
  (m ≫= f) s = (let '(s, a) := m s in f a s).
Proof. done. Qed.

(** What the hooks and the tools do to the memory of the session *)
Context (P : Op -> Prop).
Definition only {A} (f : ext W A) : Prop := forall w, Forall P (f w).1.2.
Record hooks_only : Prop := {
  h_prepare : forall step id name args, only (prepare_tool_execution env step id name args);
  h_authorize : forall step id name readonly args plan, only (authorize_tool_execution env step id name readonly args plan);
  h_run : forall ready, only (run_ready env ready);
  h_finalize : forall step id name args result, only (finalize_tool_result env step id name args result)
}.
Context (Honly : hooks_only).

(** ** What the hooks leave behind *)

(** Nothing was dispatched or started, and these questions were asked. *)
Definition quiet (s s' : BatchState) (l : list (string * string * json * result EngineError AuthorizeVerdict)) : Prop :=
  started s' = started s /\ (exists ops, events s' = events s ++ (Meanwhile <$> ops) /\ Forall P ops) /\ asked s' = asked s ++ l.

Ltac quietly := split_and!; [done|exists []; by rewrite app_nil_r|by rewrite app_nil_r].
Lemma quiet_refl s : quiet s s [].
Proof. quietly. Qed.
Lemma quiet_trans s1 s2 s3 l k : quiet s1 s2 l -> quiet s2 s3 k -> quiet s1 s3 (l ++ k).
Proof.
  intros (A1 & (o1 & A2 & P1) & A3) (B1 & (o2 & B2 & P2) & B3). split_and!; [congruence|exists (o1 ++ o2)|].
  - split; [by rewrite B2, A2, fmap_app, app_assoc|by apply Forall_app].
  - by rewrite B3, A3, app_assoc.
Qed.
Lemma quiet_trans_nil s1 s2 s3 l : quiet s1 s2 [] -> quiet s2 s3 l -> quiet s1 s3 l.
Proof. apply (quiet_trans _ _ _ []). Qed.

Lemma b_now_quiet {A} (f : now W A) s s' a : b_now f s = (s', a) -> quiet s s' [].
Proof. unfold b_now. destruct (f _) as [x w]. intros [= <- _]. quietly. Qed.
Lemma b_await_quiet {A} (f : ext W A) s s' a : only f -> b_await f s = (s', a) -> quiet s s' [].
Proof.
  intros Hf. specialize (Hf (bs_world s)). unfold b_await. destruct (f _) as [[x ops] w]. intros [= <- _].
  split_and!; [done|by exists ops|by rewrite app_nil_r].
Qed.
Ltac by_hooks := solve [destruct Honly; auto].

Definition call_of (r : PrepareResult E) : string * string * json :=
  match r with
  | Ready p => (p_id p, p_name p, p_args p)
  | Blocked b => (b_id b, b_name b, b_args b)
  | Synthetic s => (s_id s, s_name s, s_args s)
  end.
Definition call_id (r : PrepareResult E) : string := (call_of r).1.1.

(** A call that is ready was approved, with the arguments it will run with. *)
Definition approved (l : list (string * string * json * result EngineError AuthorizeVerdict)) (r : PrepareResult E) : Prop :=
  match r with
  | Ready p => (p_id p, p_name p, p_args p, Ok (Approved (approval_metadata p))) ∈ l
  | _ => True
  end.

Lemma preflight_quiet name raw s s' r : preflight_tool_call env manager name raw s = (s', r) -> quiet s s' [].
Proof.
  unfold preflight_tool_call. destruct (find_tool _ _); [|by intros [= <- _]; quietly].
  destruct (get_or_create _ _ _) as [cache v]. intros [= <- _]. quietly.
Qed.

(** One awaited or immediate call: name its outcome and what it leaves. *)
Ltac hook := rewrite b_bind_eq;
  match goal with
  | |- context [b_await ?f ?s] => let s1 := fresh "s" in let a := fresh "a" in let H := fresh "Q" in
      destruct (b_await f s) as [s1 a] eqn:H; apply b_await_quiet in H; [|by_hooks]
  | |- context [b_now ?f ?s] => let s1 := fresh "s" in let a := fresh "a" in let H := fresh "Q" in
      destruct (b_now f s) as [s1 a] eqn:H; apply b_now_quiet in H
  end; cbv beta iota.

(** What came before left nothing to note. *)
Ltac settled :=
  intros [= <- <-]; exists []; split;
  [repeat first [eassumption | eapply quiet_trans_nil; [eassumption|]]; apply quiet_refl
  |intros ? Hr; simplify_eq/=; done].

Lemma prepare_spec step tool args id s s' r :
  prepare_tool_call env step tool args id s = (s', r) ->
  exists l, quiet s s' l /\ (forall p, r = Ok p -> call_id p = id /\ approved l p).
Proof.
  assert (Hgo : forall args s0 s' r, quiet s s0 [] ->
    (rewritten ← b_now (rewrite_tool_input env (tool_name tool) args);
     match rewritten with
     | Err e => mret (Err e)
     | Ok effective_args => authorize_call env step tool effective_args id
     end) s0 = (s', r) ->
    exists l, quiet s s' l /\ (forall p, r = Ok p -> call_id p = id /\ approved l p)).
  { intros args' s0 s1 r1 Q0. hook. destruct a as [effective|e]; [|settled]. unfold authorize_call.
    hook. destruct a as [[plan execute|message]|e]; [|settled..].
    hook. destruct a; [settled|]. hook. rewrite b_bind_eq. unfold note_asked. cbv beta iota.
    set (l := [(id, tool_name tool, effective, a)]). set (s6 := add_asked _ _).
    assert (Q6 : quiet s s6 l).
    { do 5 (eapply quiet_trans_nil; [eassumption|]). split_and!; [done|exists []; by rewrite app_nil_r|done]. }
    destruct a as [[metadata|reason|result]|e]; intros [= <- <-]; exists l; (split; [exact Q6|]);
      intros p Hp; simplify_eq/=; (split; [done|]); simpl; try done. unfold l. set_solver. }
  unfold prepare_tool_call. hook. destruct a as [[|reason|result|args']|e]; [by apply Hgo|settled|settled|by apply Hgo|settled].
Qed.

Lemma settle_call_spec step name raw id s s' r :
  settle_call env manager step (name, raw, id) s = (s', r) ->
  exists l, quiet s s' l /\ call_id r = id /\ approved l r.
Proof.
  unfold settle_call. rewrite b_bind_eq.
  destruct (preflight_tool_call _ _ _ _ _) as [s1 [[tool args]|e]] eqn:E1; apply preflight_quiet in E1.
  2:{ intros [= <- <-]. by exists []. }
  rewrite b_bind_eq. destruct (prepare_tool_call _ _ _ _ _ _) as [s2 [p|e]] eqn:E2;
    apply prepare_spec in E2 as (l & Q & Hp); intros [= <- <-]; exists l;
    (split; [by eapply quiet_trans_nil|]); [by apply Hp|done].
Qed.

(** The calls a batch reported, in their order *)
Definition reported_calls (l : list BatchEvent) : list (string * string * json) :=
  omap (fun e => match e with Dispatched id name args _ => Some (id, name, args) | Meanwhile _ => None end) l.

Lemma reported_meanwhile ops : reported_calls (Meanwhile <$> ops) = [].
Proof. by induction ops. Qed.

Definition within (e : BatchEvent) : Prop := match e with Meanwhile op => P op | Dispatched _ _ _ _ => True end.
Lemma within_meanwhile ops : Forall P ops -> Forall within (Meanwhile <$> ops).
Proof. intros H. rewrite Forall_fmap. by eapply Forall_impl. Qed.

(** What the first phase of a batch leaves *)
Definition settled (s s' : BatchState) (rs : list (PrepareResult E)) : Prop :=
  started s' = started s /\
  (exists l, events s' = events s ++ l /\ reported_calls l = call_of <$> rs /\ Forall within l) /\
  exists l, asked s' = asked s ++ l /\ Forall (approved l) rs.

Lemma approved_app l k r : approved l r \/ approved k r -> approved (l ++ k) r.
Proof. destruct r; simpl; [|done..]. rewrite elem_of_app. tauto. Qed.

Definition ready_of (r : PrepareResult E) : option (PreparedToolCall E) := match r with Ready p => Some p | _ => None end.
Definition blocked_of (r : PrepareResult E) : option BlockedToolCall := match r with Blocked b => Some b | _ => None end.
Definition synthetic_of (r : PrepareResult E) : option SyntheticToolCall := match r with Synthetic s => Some s | _ => None end.

Lemma settled_one s s1 s2 r rs l w at_ms :
  quiet s s1 l -> approved l r ->
  settled (add_events [Dispatched (call_of r).1.1 (call_of r).1.2 (call_of r).2 at_ms] (set_bs_world w s1)) s2 rs ->
  settled s s2 (r :: rs).
Proof.
  intros (Q1 & (ops & Q2 & Qp) & Q3) Ha (S1 & (k & S2 & S3 & Sp) & l3 & S4 & S5). simpl in S1, S2, S4. split_and!.
  - by rewrite S1.
  - eexists. split; [by rewrite S2, Q2, <- !app_assoc|]. split.
    2:{ apply Forall_app. split; [by apply within_meanwhile|]. by constructor. }
    unfold reported_calls. rewrite !omap_app. fold (reported_calls (Meanwhile <$> ops)).
    rewrite reported_meanwhile. simpl. fold (reported_calls k). rewrite S3. by destruct (call_of r) as [[? ?] ?].
  - exists (l ++ l3). split; [by rewrite S4, Q3, app_assoc|]. constructor.
    + apply approved_app. by left.
    + eapply Forall_impl; [exact S5|]. intros p Hp. apply approved_app. by right.
Qed.

Lemma settle_calls_spec step calls : forall s,
  exists s' (rs : list (PrepareResult E)),
    settle_calls env manager step calls s = (s', (omap ready_of rs, omap blocked_of rs, omap synthetic_of rs)) /\
    call_id <$> rs = snd <$> calls /\ settled s s' rs.
Proof.
  induction calls as [|[[name raw] id] calls IH]; intros s.
  - exists s, []. split; [done|]. split; [done|].
    split_and!; [done|by exists []; rewrite app_nil_r|by exists []; rewrite app_nil_r].
  - cbn [settle_calls]. rewrite b_bind_eq.
    destruct (settle_call _ _ _ _ _) as [s1 r] eqn:E1. apply settle_call_spec in E1 as (l1 & Q & Hid & Ha).
    rewrite b_bind_eq. set (told := match r with Ready p => _ | Blocked b => _ | Synthetic s => _ end).
    assert (Ht : exists w at_ms, told s1 = (add_events [Dispatched (call_of r).1.1 (call_of r).1.2 (call_of r).2 at_ms]
                                              (set_bs_world w s1), tt)).
    { unfold told, notify. destruct r; simpl; destruct (be_now_ms env (bs_world s1)) as [a w]; by exists w, a. }
    destruct Ht as (w & at_ms & ->). rewrite b_bind_eq.
    destruct (IH (add_events [Dispatched (call_of r).1.1 (call_of r).1.2 (call_of r).2 at_ms] (set_bs_world w s1)))
      as (s3 & rs & -> & Hids & Hs).
    exists s3, (r :: rs). split; [by destruct r|]. split; [simpl; by f_equal|]. by eapply settled_one.
Qed.

(** ** The second phase *)

Lemma finalize_one step id name args result s s' r :
  finalize_result env step id name args result s = (s', r) -> quiet s s' [].
Proof.
  unfold finalize_result. rewrite b_bind_eq.
  destruct (b_await _ s) as [s1 [v res]] eqn:E1. apply b_await_quiet in E1; [|by_hooks].
  destruct v as [b|e]; intros [= <- _]; done.
Qed.

Lemma finalize_all_spec step l : forall s,
  exists s' rs, finalize_all env step l s = (s', rs) /\ rs.*1 = result_id <$> l /\ quiet s s' [].
Proof.
  induction l as [|[[[id name] args] result] l IH]; intros s; [exists s, []; split_and!; [done|done|apply quiet_refl..]|].
  cbn [finalize_all]. rewrite b_bind_eq. destruct (finalize_result _ _ _ _ _ _ _) as [s1 r] eqn:E1.
  apply finalize_one in E1. rewrite b_bind_eq. destruct (IH s1) as (s2 & rs & -> & Hi & Q).
  exists s2, ((id, r) :: rs). split_and!; [done|simpl; by f_equal|by eapply quiet_trans_nil].
Qed.

(** Every closure comes to something. *)
Definition runs_all : Prop := forall l w, length (run_ready env l w).1.1.2 = length l.

Lemma tasks_ids (ready : list (PreparedToolCall E)) outcomes :
  length outcomes = length ready -> tool_call_id <$> zip_with task_of ready outcomes = p_id <$> ready.
Proof.
  revert outcomes. induction ready as [|p ready IH]; intros [|o outcomes]; try done. intros [= H]. simpl. f_equal. by apply IH.
Qed.

Lemma execute_spec step ready blocked synthetic s :
  runs_all ->
  exists s' results, execute_tool_batch to_lowercase env step ready blocked synthetic s = (s', results) /\
    results.*1 = (b_id <$> blocked) ++ (s_id <$> synthetic) ++ (p_id <$> ready) /\
    started s' = started s ++ ready /\ (exists ops, events s' = events s ++ (Meanwhile <$> ops) /\ Forall P ops) /\
    asked s' = asked s.
Proof.
  intros Hall. unfold execute_tool_batch. rewrite b_bind_eq.
  destruct (finalize_all_spec step ((fun b => (b_id b, b_name b, b_args b, error (b_reason b))) <$> blocked) s)
    as (s1 & r1 & -> & I1 & Q1). rewrite b_bind_eq.
  destruct (finalize_all_spec step ((fun y => (s_id y, s_name y, s_args y, s_result y)) <$> synthetic) s1)
    as (s2 & r2 & -> & I2 & Q2). rewrite b_bind_eq. unfold note_started. cbv beta iota. rewrite b_bind_eq.
  destruct (b_await (run_ready env ready) (add_started ready s2)) as [s3 [choices outcomes]] eqn:E3.
  assert (Hl : length outcomes = length ready).
  { unfold b_await in E3. specialize (Hall ready (bs_world (add_started ready s2))).
    destruct (run_ready env ready _) as [[[c o] ops] w]. by injection E3 as <- <- <-. }
  apply b_await_quiet in E3; [|by_hooks]. cbv beta iota. rewrite b_bind_eq.
  destruct (finalize_all_spec step (schedule_and_execute to_lowercase choices (zip_with task_of ready outcomes)) s3)
    as (s4 & r3 & -> & I3 & Q4).
  exists s4, (r1 ++ r2 ++ r3). split; [done|]. split.
  { rewrite !fmap_app, I1, I2, I3, schedule_ids, tasks_ids by done. by rewrite <- !list_fmap_compose. }
  pose proof (quiet_trans_nil _ _ _ _ Q1 Q2) as (A1 & (o1 & A2 & P1) & A3).
  pose proof (quiet_trans_nil _ _ _ _ E3 Q4) as (B1 & (o2 & B2 & P2) & B3). simpl in *.
  split_and!; [by rewrite B1, A1|exists (o1 ++ o2); split; [by rewrite B2, A2, fmap_app, app_assoc|by apply Forall_app]|].
  by rewrite B3, A3, !app_nil_r.
Qed.

Lemma split_permutation (rs : list (PrepareResult E)) :
  (b_id <$> omap blocked_of rs) ++ (s_id <$> omap synthetic_of rs) ++ (p_id <$> omap ready_of rs) ≡ₚ call_id <$> rs.
Proof.
  induction rs as [|[p|b|y] rs IH]; simpl; [done|..].
  - rewrite <- !Permutation_middle. by constructor.
  - by constructor.
  - rewrite <- Permutation_middle. by constructor.
Qed.

(** The whole of a batch *)
Lemma run_spec calls step s :
  runs_all ->
  exists s' results rs l asking, run_tool_batch to_lowercase env manager calls step s = (s', results) /\
    results.*1 ≡ₚ snd <$> calls /\ call_id <$> rs = snd <$> calls /\
    events s' = events s ++ l /\ reported_calls l = call_of <$> rs /\ Forall within l /\
    started s' = started s ++ omap ready_of rs /\ asked s' = asked s ++ asking /\ Forall (approved asking) rs.
Proof.
  intros Hall. unfold run_tool_batch. rewrite b_bind_eq.
  destruct (settle_calls_spec step calls s) as (s1 & rs & -> & Hids & S1 & (l & S2 & S3 & Sp) & asking & S4 & S5). cbv beta iota.
  destruct (execute_spec step (omap ready_of rs) (omap blocked_of rs) (omap synthetic_of rs) s1 Hall)
    as (s2 & results & -> & Hr & Hst & (ops & He & Hp) & Ha).
  exists s2, results, rs, (l ++ (Meanwhile <$> ops)), asking.
  split_and!; [done|by rewrite Hr, split_permutation, Hids|done|by rewrite He, S2, app_assoc| | |by rewrite Hst, S1|by rewrite Ha, S4|done].
  - unfold reported_calls. rewrite omap_app. fold (reported_calls (Meanwhile <$> ops)). rewrite reported_meanwhile.
    by rewrite app_nil_r.
  - apply Forall_app. split; [done|by apply within_meanwhile].
Qed.
End batch.

Section theorems.
Context {W T E Validator : Type} `{!ToolTrait T} `{!JsonSchema Validator}.
Context (to_lowercase : string -> string).
Context (env : @BatchEnv W T E) (manager : ToolManager T).

Lemma hooks_any : hooks_only env (fun _ => True).
Proof. split; intros; intros w; by apply Forall_true. Qed.

(** C20. Every call of a batch is reported once, in the order of the answer, and has one
    result, whatever the hooks and the tools do. *)
Theorem batch_answers calls step (s : @BatchState W E Validator) :
  runs_all env ->
  let '(s', results) := run_tool_batch to_lowercase env manager calls step s in
  results.*1 ≡ₚ snd <$> calls /\
  exists l, events s' = events s ++ l /\ (fun c => c.1.1) <$> reported_calls l = snd <$> calls.
Proof.
  intros Hall.
  destruct (run_spec to_lowercase env manager _ hooks_any calls step s Hall)
    as (s' & results & rs & l & asking & -> & Hr & Hids & He & Hl & _).
  split; [done|]. exists l. split; [done|]. by rewrite Hl, <- Hids, <- list_fmap_compose.
Qed.

(** C18. Nothing runs that the permission gate did not approve with exactly those
    arguments, and what runs was reported with them. *)
Theorem only_approved_runs calls step (s : @BatchState W E Validator) :
  runs_all env ->
  let '(s', _) := run_tool_batch to_lowercase env manager calls step s in
  exists ran asking l, started s' = started s ++ ran /\ asked s' = asked s ++ asking /\ events s' = events s ++ l /\
    Forall (fun p => (p_id p, p_name p, p_args p, Ok (Approved (approval_metadata p))) ∈ asking /\
                     (p_id p, p_name p, p_args p) ∈ reported_calls l /\ p_id p ∈ snd <$> calls) ran.
Proof.
  intros Hall.
  destruct (run_spec to_lowercase env manager _ hooks_any calls step s Hall)
    as (s' & results & rs & l & asking & -> & _ & Hids & He & Hl & _ & Hst & Ha & Hap).
  exists (omap ready_of rs), asking, l. split_and!; [done..|].
  apply Forall_forall. intros p Hp. apply list_elem_of_omap in Hp as (r & Hr & Hrp).
  destruct r as [q| |]; simplify_eq/=. rewrite Forall_forall in Hap. split; [by apply (Hap (Ready p))|].
  rewrite Hl, <- Hids. split.
  - by apply (list_elem_of_fmap_2 call_of _ (Ready p)).
  - by apply (list_elem_of_fmap_2 call_id _ (Ready p)).
Qed.
End theorems.

(** ** A sample registry

    Three tools and a host, on which batches and turns of calls are run. *)

#[local] Open Scope Z_scope.

(** A tool is its name, and so is its closure; every schema accepts everything. *)
#[export] Instance plain_tool : ToolTrait string := {|
  tool_name := fun t => t; tool_description := fun _ => ""; tool_parameters := fun _ => JNull;
  tool_readonly := fun t => String.eqb t "Read"; tool_deferred := fun _ => false
|}.
#[export] Instance any_schema : JsonSchema unit := {| compile := fun _ => Ok tt; check := fun _ _ => None |}.

Section sample.
Context {W : Type}.

Definition plainly {A} (a : A) : ext W A := fun w => (a, [], w).

(** The host rewrites what is written and refuses the shell; results are passed on
    without the instructions they may carry. *)
Definition sample_tools : @BatchEnv W string string :=
  mkBatchEnv (fun text => if String.eqb text "{}" then Some (JObj []) else None) (fun _ => None)
    (fun _ _ name _ => plainly (Ok (if String.eqb name "Write" then Rewritten (JObj [("path", JStr "b.rs")]) else Allowed)))
    (fun _ args w => (Ok args, w))
    (fun t _ w => (Ok (Runnable (mkPlan [] JNull t false) t), w))
    (fun w => (false, w))
    (fun _ _ name _ _ _ => plainly (Ok (if String.eqb name "Bash" then AuthorizeBlocked "not here" else Approved None)))
    (fun ready => plainly ([1%nat], (fun p => Finished (success (p_execute p))) <$> ready))
    (fun _ _ _ _ result => plainly (Ok false, mkToolResult (output result) (ToolScheduler.is_error result)
                                                (ToolScheduler.note result) (stop_turn result) (truncated result) None))
    (fun w => (7, w)).

Definition sample_manager : ToolManager string :=
  foldl apply_op new_manager [RegisterBuiltin "Read"; RegisterBuiltin "Write"; RegisterBuiltin "Bash"; EnableAll].

Definition sample_calls : list (string * string * string) :=
  [("Bash", "{}", "c1"); ("Write", "{}", "c2"); ("Nope", "{}", "c3"); ("Read", "{", "c4")].

Lemma sample_runs_all : runs_all sample_tools.
Proof. intros l w. simpl. by rewrite length_fmap. Qed.
End sample.

Notation sample_run := (ToolBatch.run_tool_batch to_ascii_lowercase sample_tools sample_manager sample_calls 1
                          (mkBatch (W := unit) (Validator := unit) (E := string) tt ∅ [] [] [])).

Example sample_batch :
  (fun r => (r.1, output r.2)) <$> snd sample_run
    = [("c1", ToolScheduler.Text "not here"); ("c3", ToolScheduler.Text ("Tool " +:+ quoted "Nope" +:+ " not found"));
       ("c2", ToolScheduler.Text "Write"); ("c4", ToolScheduler.Text "Read")] /\
  reported_calls (events (fst sample_run))
    = [("c1", "Bash", JObj []); ("c2", "Write", JObj [("path", JStr "b.rs")]); ("c3", "Nope", JObj []); ("c4", "Read", JObj [])].
Proof. vm_compute. done. Qed.

Lemma batch_answers_witness :
  (snd sample_run).*1 ≡ₚ ["c1"; "c2"; "c3"; "c4"].
Proof.
  pose proof (batch_answers to_ascii_lowercase sample_tools sample_manager sample_calls 1
                (mkBatch (W := unit) (Validator := unit) (E := string) tt ∅ [] [] []) sample_runs_all) as H.
  destruct sample_run as [s results]. exact (proj1 H).
Defined.

(** Of the four calls two run. *)
Lemma only_approved_runs_witness :
  exists ran (asking : list (string * string * json * result EngineError AuthorizeVerdict)), started (fst sample_run) = [] ++ ran /\ p_name <$> ran = ["Write"; "Read"] /\
    Forall (fun p => (p_id p, p_name p, p_args p, Ok (Approved (approval_metadata p))) ∈ asking) ran.
Proof.
  assert (E : p_name <$> started (fst sample_run) = ["Write"; "Read"]) by (vm_compute; reflexivity).
  pose proof (only_approved_runs to_ascii_lowercase sample_tools sample_manager sample_calls 1
                (mkBatch (W := unit) (Validator := unit) (E := string) tt ∅ [] [] []) sample_runs_all) as H.
  destruct sample_run as [s results]. destruct H as (ran & asking & l & H1 & _ & _ & H2).
  exists ran, asking. split; [exact H1|]. simpl in E, H1. rewrite H1 in E. split; [exact E|].
  eapply Forall_impl; [exact H2|]. intros p Hp. exact (proj1 Hp).
Defined.
