(* ===== verification/TurnTools.v ===== *)
(** * The turn loop on the tool registry

    [TurnLoop] asks its environment to run a batch of calls; [ToolBatch] does.  The
    environment with the batch of the registry in that place keeps the promises
    the turn loop relies on. *)
From stdpp Require Import gmap strings list.
From S2P Require Import Prelude RustStd Json ToolScheduler EngineError Context TokenEstimator Memory MemorySound MessagePipeline Provider LlmStream StepRetry TurnTypes TurnLoop TurnLogic TurnReplay ToolManager ToolArgs ToolBatch BatchSound.
#[local] Open Scope string_scope.
#[local] Open Scope list_scope.

Section tools.
Context {W T E Validator : Type} `{!ToolTrait T} `{!JsonSchema Validator}.
Context (to_lowercase : string -> string).
(** What a turn carries through its steps: the world and the compiled schemas *)
Notation World := (W * ValidatorCache Validator)%type.

(** What is called by a turn does not see the schemas. *)
Definition over_now {A} (f : now W A) : now World A := fun w =>
  let '(a, w1) := f w.1 in (a, (w1, w.2)).
Definition over {A} (f : ext W A) : ext World A := fun w =>
  let '(a, ops, w1) := f w.1 in (a, ops, (w1, w.2)).
Definition over_llm (llm : Llm W) : Llm World :=
  mkLlm World (provider_id llm) (model_name llm) (capability llm) (retryable llm)
    (fun params => over (materialize_media llm params))
    (fun params w => let '(r, w1) := chat llm params w.1 in
                     (match r with Ok stream => Ok (over stream) | Err e => Err e end, (w1, w.2))).

Context (env : Env W) (tools : @BatchEnv W T E) (manager : ToolManager T).

Definition registry_batch (triples : list (string * string * string)) (step : Z) (w : World)
  : list BatchEvent * list (string * CallResult) * World :=
  let '(s, results) := ToolBatch.run_tool_batch to_lowercase tools manager triples step (mkBatch w.1 w.2 [] [] []) in
  (events s, results, (bs_world s, validators s)).

(** [run_turn] on a frozen copy of the registry: [loop_tools] and the batch are its own. *)
Definition with_registry : Env World :=
  mkEnv World (over_now (is_cancelled env)) (over_now (is_user_cancelled env)) (over_now (nanos env))
    (over_now (now_ms env)) (fun l => over_now (drain env l)) (fun d => over (sleep env d))
    (over_now <$> turn_abort_guard env)
    (over_now (fun w => let '(r, w1) := resolve_with_alias env w in
                        (match r with Ok (llm, alias) => Ok (over_llm llm, alias) | Err e => Err e end, w1)))
    (fun step => over (before_step env step)) (fun params w => (pre_llm_request env params w.1, w.2))
    (fun response w => (post_llm_request env response w.1, w.2)) (fun c => over (after_step env c))
    (fun reason => over (should_continue_after_stop env reason))
    ((fun cb usage stop step => over (cb usage stop step)) <$> record_step_usage env)
    (fun w => (loop_tools manager, w)) registry_batch (over_now (new_uuid env)) (live_callback env)
    ((fun recorder op => over (recorder op)) <$> wire_recorder env).

(** The hooks and the tools leave the memory of the session alone. *)
Record alone_tools : Prop := {
  a_prepare : forall step id name args, alone (prepare_tool_execution tools step id name args);
  a_authorize : forall step id name readonly args plan, alone (authorize_tool_execution tools step id name readonly args plan);
  a_run : forall ready, alone (run_ready tools ready);
  a_finalize : forall step id name args result, alone (finalize_tool_result tools step id name args result)
}.

Lemma alone_only : alone_tools -> hooks_only tools (fun _ => False).
Proof. intros [H1 H2 H3 H4]. split; intros; intros w; by rewrite ?H1, ?H2, ?H3, ?H4. Qed.

Lemma only_dispatched l :
  Forall (within (fun _ => False)) l ->
  Forall (fun e => match e with Dispatched _ _ _ _ => True | Meanwhile _ => False end) l /\
  dispatched_ids l = (fun c => c.1.1) <$> reported_calls l.
Proof.
  intros H. split.
  - eapply Forall_impl; [exact H|]. by intros [].
  - induction H as [|[id name args at_ms|op] l He _ IH]; [done| |done].
    unfold dispatched_ids, reported_calls in *. simpl. f_equal. exact IH.
Qed.

(** A batch of the registry answers what it dispatched. *)
Lemma registry_batch_answered n triples step w :
  alone_tools -> runs_all tools ->
  (length (injections (snd (fst (registry_batch triples step w)))) <= n)%nat ->
  batch_answered n (fst (fst (registry_batch triples step w))) (snd (fst (registry_batch triples step w))).
Proof.
  intros Ha Hall. unfold registry_batch.
  destruct (run_spec to_lowercase tools manager _ (alone_only Ha) triples step (mkBatch w.1 w.2 [] [] []) Hall)
    as (s' & results & rs & l & asking & -> & Hr & Hids & He & Hl & Hw & _). simpl in *.
  intros Hn. rewrite He. apply only_dispatched in Hw as [H1 H2].
  split; [done|]. split; [|done]. intros id Hid. rewrite Hr, <- Hids. rewrite H2, Hl, <- list_fmap_compose in Hid. done.
Qed.

Lemma over_alone {A} (f : ext W A) : alone f -> alone (over f).
Proof. intros H [w v]. specialize (H w). unfold over. simpl. destruct (f w) as [[a ops] w1]. exact H. Qed.

(** With the registry in the place of the batch the environment still leaves the
    session to the turn. *)
Lemma with_registry_alone n :
  alone_env env n -> alone_tools -> runs_all tools ->
  (forall triples step w, (length (injections (snd (fst (registry_batch triples step w)))) <= n)%nat) ->
  alone_env with_registry n.
Proof.
  intros H Ha Hall Hn. split; simpl; try (intros; apply over_alone, H).
  - intros cb u r k Hcb. apply fmap_Some in Hcb as (f & Hf & ->). by apply over_alone, (a_usage _ _ H).
  - intros recorder op Hrec. apply fmap_Some in Hrec as (f & Hf & ->). by apply over_alone, (a_record _ _ H).
  - intros [w v] llm alias w'. unfold over_now. simpl.
    destruct (resolve_with_alias env w) as [[[llm0 alias0]|e] w1] eqn:E1; intros [= <- <- <-].
    destruct (a_models _ _ H _ _ _ _ E1) as [H1 H2]. split; [intros params; by apply over_alone|].
    intros params [w2 v2] stream w3. simpl. destruct (chat llm0 params w2) as [[stream0|e] w4] eqn:E2; intros [= <- <-].
    apply over_alone. by eapply H2.
  - intros triples step w. by apply registry_batch_answered.
Qed.

Context (to_string : json -> string) (builders : MessageBuilders) (config : RunTurnConfig).

(** C19. A turn on the registry, whose hooks and tools leave the session to it: however
    it ends, its log replays to the memory it leaves, and no exchange is open. *)
Theorem registry_turn_replays recorder fuel retries s :
  alone_env env (max_deferred (memory s)) -> alone_tools -> runs_all tools ->
  (forall triples step w, (length (injections (snd (fst (registry_batch triples step w)))) <= max_deferred (memory s))%nat) ->
  wire_recorder env = Some recorder -> pending (memory s) = ∅ -> deferred (memory s) = [] ->
  let s' := fst (run_turn World to_string to_lowercase with_registry builders config fuel retries s) in
  exists ops, recorded s' = recorded s ++ ops /\ replay to_string ops (memory s) = memory s' /\
    pending (memory s') = ∅ /\ deferred (memory s') = [].
Proof.
  intros Ha Ht Hall Hn Hr Hp Hd.
  pose proof (with_registry_alone _ Ha Ht Hall Hn) as Halone.
  assert (Hr' : wire_recorder with_registry = Some (fun op => over (recorder op))) by (simpl; by rewrite Hr).
  destruct (turn_loop_settles to_string to_lowercase with_registry builders config (max_deferred (memory s)) Halone _
              Hr' (recorded s) (memory s) fuel retries 0%Z false false no_usage s) as ((ops & H1 & H2 & _) & H3 & H4 & _).
  { split; [|done]. exists []. by rewrite app_nil_r. }
  exists ops. rewrite app_nil_r in H2. done.
Qed.
End tools.

(** ** Examples *)

Section injections.
Context {W : Type}.
Lemma sample_finalize_none step l : forall s : @BatchState W string unit,
  injections (finalize_all sample_tools step l s).2 = [].
Proof.
  induction l as [|[[[id name] args] result] l IH]; intros s; [done|]. cbn [finalize_all].
  unfold finalize_result, mbind, B_bind. simpl. specialize (IH (add_events [] (set_bs_world (bs_world s) s))).
  destruct (finalize_all sample_tools step l _) as [s2 rs]. exact IH.
Qed.

Lemma sample_batch_none triples step w :
  injections (snd (fst (registry_batch (W := W) (Validator := unit) to_ascii_lowercase sample_tools sample_manager triples step w))) = [].
Proof.
  unfold registry_batch, ToolBatch.run_tool_batch. rewrite b_bind_eq. destruct (settle_calls _ _ _ _ _) as [s1 [[ready blocked] synthetic]].
  unfold execute_tool_batch. rewrite b_bind_eq.
  pose proof (sample_finalize_none step ((fun b => (b_id b, b_name b, b_args b, error (b_reason b))) <$> blocked) s1) as N1.
  destruct (finalize_all _ _ _ s1) as [s2 r1]. rewrite b_bind_eq.
  pose proof (sample_finalize_none step ((fun y => (s_id y, s_name y, s_args y, s_result y)) <$> synthetic) s2) as N2.
  destruct (finalize_all _ _ _ s2) as [s3 r2]. rewrite b_bind_eq. unfold note_started. cbv beta iota. rewrite b_bind_eq.
  destruct (b_await _ _) as [s4 [choices outcomes]]. rewrite b_bind_eq.
  pose proof (sample_finalize_none step (schedule_and_execute to_ascii_lowercase choices (zip_with task_of ready outcomes)) s4) as N3.
  destruct (finalize_all _ _ _ s4) as [s5 r3]. simpl in *. unfold injections in *.
  by rewrite !omap_app, N1, N2, N3.
Qed.

Lemma sample_alone_tools : alone_tools (W := W) sample_tools.
Proof. done. Qed.
End injections.

(** The scripted turn on the sample registry *)
Definition registry_start (script : list (result EngineError (list LlmEvent.t))) : St (Script * ValidatorCache unit) :=
  let s := script_start script in
  mkSt (Script * ValidatorCache unit) (world s, ∅) (memory s) [] [] new_retry_state false [].

Definition registry_script : list (result EngineError (list LlmEvent.t)) :=
  [Ok [LlmEvent.ToolCall "Bash" JNull "c1"; LlmEvent.ToolCall "Write" JNull "c2"; LlmEvent.ToolCall "Nope" JNull "c3";
       LlmEvent.Usage 10 5 0 0; LlmEvent.Done "tool_calls"];
   Ok [LlmEvent.TextPart "all done"; LlmEvent.Usage 20 3 0 0; LlmEvent.Done "completed"]].

Definition registry_env : Env (Script * ValidatorCache unit) :=
  with_registry to_ascii_lowercase script_env sample_tools sample_manager.

Example registry_turn_runs :
  snd (run_turn _ no_json to_ascii_lowercase registry_env script_builders script_config 6 3 (registry_start registry_script))
    = Val (mkTurnResult TurnStop.EndTurn 2 (mkUsage 30 8 0 0)).
Proof. vm_compute. reflexivity. Qed.

Lemma registry_turn_replays_witness :
  exists ops,
    recorded (fst (run_turn _ no_json to_ascii_lowercase registry_env script_builders script_config 6 3 (registry_start registry_script)))
      = [] ++ ops /\
    replay no_json ops (memory (registry_start registry_script))
      = memory (fst (run_turn _ no_json to_ascii_lowercase registry_env script_builders script_config 6 3
                       (registry_start registry_script))).
Proof.
  destruct (registry_turn_replays to_ascii_lowercase script_env sample_tools sample_manager no_json script_builders
              script_config (fun _ => quietly tt) 6 3 (registry_start registry_script)) as (ops & H1 & H2 & _).
  - exact script_alone.
  - exact sample_alone_tools.
  - exact sample_runs_all.
  - intros triples step w. rewrite sample_batch_none. apply Nat.le_0_l.
  - reflexivity.
  - vm_compute. reflexivity.
  - vm_compute. reflexivity.
  - exists ops. split; [exact H1|exact H2].
Defined.
