(* ===== verification/LoopWire.v ===== *)
(** * The conversation on the wire: [to_wire_value] of [context_memory/mod.rs], [message.rs],
      [origin.rs], [system_reminder_wire.rs] and the readers of [session/replay.rs]

    How loop events and messages are written to the wire log and read back.  What
    [serde] derives to write a part or an origin is given by its attributes; how it
    reads one is a parameter that reads back what was written. *)
From stdpp Require Import gmap list strings.
From S2P Require Import Prelude RustStd F64 Json ToolScheduler Context TokenEstimator Memory.
#[local] Open Scope string_scope.
#[local] Open Scope list_scope.
#[local] Open Scope Z_scope.

(** ** Writing *)

(** A field that is skipped when it is [None] *)
Definition opt_field {A} (key : string) (f : A -> json) (o : option A) : list (string * json) :=
  match o with Some a => [(key, f a)] | None => [] end.

Definition image_to_value (image : ImageUrlData) : json :=
  JObj ([("url", JStr (url image))] ++ opt_field "detail" JStr (image_detail image) ++ opt_field "id" JStr (image_id image)).

Definition part_to_value (part : ContentPart) : json :=
  JObj (match part with
        | Text text => [("type", JStr "text"); ("text", JStr text)]
        | Think text => [("type", JStr "think"); ("text", JStr text)]
        | ImageUrl image detail =>
          [("type", JStr "image_url"); ("image_url", image_to_value image)] ++ opt_field "detail" JStr detail
        | AudioUrl u => [("type", JStr "audio_url"); ("audio_url", JStr u)]
        | VideoUrl u => [("type", JStr "video_url"); ("video_url", JStr u)]
        | FilePart file_id data name media_type size =>
          [("type", JStr "file")] ++ opt_field "file_id" JStr file_id ++ opt_field "data" JStr data ++
          opt_field "name" JStr name ++ opt_field "media_type" JStr media_type ++ opt_field "size" JNum size
        end).

Definition origin_to_value (origin : PromptOrigin) : json :=
  JObj (match origin with
        | User => [("kind", JStr "user")]
        | SkillActivation activation_id skill_name trigger skill_args skill_path skill_source =>
          [("kind", JStr "skill_activation")] ++ opt_field "activationId" JStr activation_id ++
          opt_field "skillName" JStr skill_name ++ opt_field "trigger" JStr trigger ++
          opt_field "skillArgs" JStr skill_args ++ opt_field "skillPath" JStr skill_path ++
          opt_field "skillSource" JStr skill_source
        | PluginCommand => [("kind", JStr "plugin_command")]
        | Injection => [("kind", JStr "injection")]
        | ShellCommand => [("kind", JStr "shell_command")]
        | CompactionSummary => [("kind", JStr "compaction_summary")]
        | SystemTrigger => [("kind", JStr "system_trigger")]
        | BackgroundTask task_id status notification_id =>
          [("kind", JStr "background_task"); ("taskId", JStr task_id); ("status", JStr status);
           ("notificationId", JStr notification_id)]
        | CronJob => [("kind", JStr "cron_job")]
        | CronMissed => [("kind", JStr "cron_missed")]
        | HookResult => [("kind", JStr "hook_result")]
        | HookAdditionalContext => [("kind", JStr "hook_additional_context")]
        | Retry => [("kind", JStr "retry")]
        | ModelSwitched from to => [("kind", JStr "model_switched"); ("from", JStr from); ("to", JStr to)]
        | FileReference => [("kind", JStr "file_reference")]
        | UserSteer => [("kind", JStr "user_steer")]
        end).

(** [LoopEvent::to_wire_value] *)
Definition to_wire_value (event : LoopEvent.t) : json :=
  JObj (match event with
        | LoopEvent.StepBegin step_id _ => [("type", JStr "step.begin"); ("uuid", JStr step_id)]
        | LoopEvent.ContentPart step_id text =>
          [("type", JStr "content.part"); ("uuid", JStr step_id);
           ("part", JObj [("type", JStr "text"); ("text", JStr text)])]
        | LoopEvent.ThinkPart step_id text =>
          [("type", JStr "think.part"); ("uuid", JStr step_id);
           ("part", JObj [("type", JStr "think"); ("text", JStr text)])]
        | LoopEvent.ToolCall step_id tool_call_id tool_name args =>
          [("type", JStr "tool.call"); ("uuid", JStr step_id); ("callId", JStr tool_call_id);
           ("name", JStr tool_name); ("input", args)]
        | LoopEvent.ToolResult tool_call_id output is_error note _ =>
          let output_parts := match output with
                              | ToolScheduler.Text s => JArr [JObj [("type", JStr "text"); ("text", JStr s)]]
                              | Parts parts => JArr (part_to_value <$> parts)
                              end in
          [("type", JStr "tool.result"); ("callId", JStr tool_call_id); ("result", JObj [("output", output_parts)]);
           ("isError", JBool is_error); ("note", match note with Some n => JStr n | None => JNull end)]
        | LoopEvent.StepEnd step_id i o r c =>
          [("type", JStr "step.end"); ("uuid", JStr step_id);
           ("usage", JObj [("inputTokens", JNum i); ("outputTokens", JNum o); ("cacheReadTokens", JNum r);
                           ("cacheCreationTokens", JNum c)])]
        end).

(** The record of a message of the user's side, as the steer and reminder writers
    build it *)
Definition user_record (content : list ContentPart) (origin : PromptOrigin) : json :=
  JObj [("role", JStr "user"); ("content", JArr (part_to_value <$> content)); ("origin", origin_to_value origin)].

Definition system_reminder_text (text : string) : string :=
  "<system-reminder>" +:+ NEWLINE +:+ trim text +:+ NEWLINE +:+ "</system-reminder>".
Definition system_reminder_op (text : string) : json := user_record [Text (system_reminder_text text)] Injection.

(** ** Reading *)

(** The numbers a [u64] holds *)
Definition u64_ok (n : Z) : Prop := 0 <= n <= u64_max.
Definition part_ok (part : ContentPart) : Prop :=
  match part with FilePart _ _ _ _ (Some size) => u64_ok size | _ => True end.

(** [serde_json::from_value] on the types the readers ask for *)
Class Serde : Type := {
  part_of_value : json -> option ContentPart;
  origin_of_value : json -> option PromptOrigin;
  role_of_value : json -> option Role;
  part_read_back part : part_ok part -> part_of_value (part_to_value part) = Some part;
  origin_read_back origin : origin_of_value (origin_to_value origin) = Some origin;
  user_read_back : role_of_value (JStr "user") = Some UserRole
}.

Section reading.
Context `{Hserde : !Serde}.
(** [serde_json::Value::to_string] *)
Context (to_string : json -> string).

Definition or_get (a b : string) (raw : json) : option json :=
  match jget a raw with Some v => Some v | None => jget b raw end.

(** Text wherever it is found; the arrays are those of [Some] texts. *)
Fixpoint object_text (value : json) : option string :=
  match value with
  | JStr text => Some text
  | JObj object =>
    match str_field "text" value with
    | Some text => Some text
    | None => (fix output (l : list (string * json)) : option string :=
                 match l with
                 | [] => None
                 | (k, v) :: l => if decide (k = "output") then object_text v else output l
                 end) object
    end
  | JArr parts =>
    let texts := omap (fun part => match part with JStr text => Some text | _ => str_field "text" part end) parts in
    match texts with [] => None | _ => Some (String.concat NEWLINE texts) end
  | _ => None
  end.

Definition is_text (part : ContentPart) : bool := match part with Text _ => true | _ => false end.
Definition text_of (part : ContentPart) : option string := match part with Text text => Some text | _ => None end.

Fixpoint parse_tool_output (value : json) : option (ToolOutput (ContentPart := ContentPart)) :=
  match value with
  | JStr s => Some (ToolScheduler.Text s)
  | JObj object =>
    match str_field "text" value with
    | Some text => Some (ToolScheduler.Text text)
    | None =>
      (fix output (l : list (string * json)) : option (ToolOutput (ContentPart := ContentPart)) :=
         match l with
         | [] => (fun part => Parts [part]) <$> part_of_value value
         | (k, v) :: l => if decide (k = "output") then parse_tool_output v else output l
         end) object
    end
  | JArr [] => Some (ToolScheduler.Text "")
  | JArr parts =>
    match mapM part_of_value parts with
    | Some content_parts =>
      Some (if forallb is_text content_parts then ToolScheduler.Text (String.concat "" (omap text_of content_parts))
            else Parts content_parts)
    | None => ToolScheduler.Text <$> object_text value
    end
  | _ => None
  end.

Definition step_id_value (raw : json) : option string := or_get "uuid" "stepId" raw ≫= as_str.
Definition entry_seq_value (raw : json) : option Z := or_get "entrySeq" "entry_seq" raw ≫= as_u64.
Definition call_id_value (raw : json) : option string := or_get "callId" "toolCallId" raw ≫= as_str.
Definition text_part (part : json) : option string :=
  match part with JStr text => Some text | _ => object_text part end.

Definition parse_loop_event (raw : json) : option LoopEvent.t :=
  event_type ← str_field "type" raw;
  if String.eqb event_type "step.begin" then
    step_id ← step_id_value raw; Some (LoopEvent.StepBegin step_id (entry_seq_value raw))
  else if String.eqb event_type "content.part" then
    part ← jget "part" raw;
    let is_think := bool_decide (str_field "type" part = Some "think") in
    text ← text_part part;
    step_id ← step_id_value raw;
    Some (if is_think then LoopEvent.ThinkPart step_id text else LoopEvent.ContentPart step_id text)
  else if String.eqb event_type "think.part" then
    step_id ← step_id_value raw; part ← jget "part" raw; text ← text_part part; Some (LoopEvent.ThinkPart step_id text)
  else if String.eqb event_type "tool.call" then
    tool_call_id ← call_id_value raw;
    tool_name ← str_field "name" raw;
    let args := default JNull (or_get "input" "arguments" raw) in
    step_id ← step_id_value raw;
    Some (LoopEvent.ToolCall step_id tool_call_id tool_name args)
  else if String.eqb event_type "tool.result" then
    tool_call_id ← call_id_value raw;
    output_val ← or_get "output" "result" raw;
    let output := default (ToolScheduler.Text (default "" (object_text output_val))) (parse_tool_output output_val) in
    Some (LoopEvent.ToolResult tool_call_id output (default false (jget "isError" raw ≫= as_bool))
            (str_field "note" raw) (entry_seq_value raw))
  else if String.eqb event_type "step.end" then
    let tokens (key : string) : Z := default 0 (usage ← jget "usage" raw; n ← jget key usage; as_u64 n) in
    step_id ← step_id_value raw;
    Some (LoopEvent.StepEnd step_id (tokens "inputTokens") (tokens "outputTokens") (tokens "cacheReadTokens")
            (tokens "cacheCreationTokens"))
  else None.

(** [parse_content_parts], without a blob service *)
Definition parse_content_parts (value : option json) : list ContentPart :=
  match value with
  | Some (JStr text) => [Text text]
  | Some (JArr parts) => omap part_of_value parts
  | _ => []
  end.

Definition parse_tool_call (call : json) : option ToolCall :=
  if is_obj call then
    id ← str_field "id" call;
    function ← jget "function" call;
    if is_obj function then
      name ← str_field "name" function;
      let arguments := match jget "arguments" function with
                       | Some (JStr arguments) => arguments
                       | Some other => to_string other
                       | None => ""
                       end in
      Some (mkToolCall id "function" name arguments)
    else None
  else None.
Definition parse_tool_calls (value : option json) : list ToolCall :=
  match value with Some (JArr calls) => omap parse_tool_call calls | _ => [] end.

Definition parse_context_message (raw : json) : option Entry :=
  if is_obj raw then
    role ← jget "role" raw ≫= role_of_value;
    Some (mkEntry
      (mkContextMessage
        (mkMessage role (str_field "name" raw) (parse_content_parts (jget "content" raw))
           (parse_tool_calls (or_get "toolCalls" "tool_calls" raw))
           (or_get "toolCallId" "tool_call_id" raw ≫= as_str)
           (default false (jget "partial" raw ≫= as_bool)))
        (jget "origin" raw ≫= origin_of_value)
        (default false (or_get "isError" "is_error" raw ≫= as_bool))
        (str_field "note" raw))
      (default 0 (entry_seq_value raw)))
  else None.
End reading.

(** ** Reading what was written *)

Section roundtrip.
Context `{Hserde : !Serde}.

(** What the log keeps of an output: parts that are all text become one text. *)
Definition flatten (output : ToolOutput (ContentPart := ContentPart)) : ToolOutput (ContentPart := ContentPart) :=
  match output with
  | Parts parts => if forallb is_text parts then ToolScheduler.Text (String.concat "" (omap text_of parts)) else output
  | _ => output
  end.

(** What the log keeps of an event *)
Definition logged (event : LoopEvent.t) : LoopEvent.t :=
  match event with
  | LoopEvent.StepBegin step_id _ => LoopEvent.StepBegin step_id None
  | LoopEvent.ToolResult id output is_error note _ => LoopEvent.ToolResult id (flatten output) is_error note None
  | _ => event
  end.

Definition output_ok (output : ToolOutput (ContentPart := ContentPart)) : Prop :=
  match output with Parts parts => Forall part_ok parts | _ => True end.
Definition event_ok (event : LoopEvent.t) : Prop :=
  match event with
  | LoopEvent.ToolResult _ output _ _ _ => output_ok output
  | LoopEvent.StepEnd _ i o r c => u64_ok i /\ u64_ok o /\ u64_ok r /\ u64_ok c
  | _ => True
  end.

Lemma parts_read_back parts : Forall part_ok parts -> mapM part_of_value (part_to_value <$> parts) = Some parts.
Proof.
  induction 1 as [|part parts Hp _ IH]; [done|]. cbn [fmap list_fmap mapM]. rewrite (part_read_back part Hp). simpl.
  by rewrite IH.
Qed.

Lemma output_read_back output :
  output_ok output ->
  parse_tool_output (JArr (match output with
                           | ToolScheduler.Text s => [JObj [("type", JStr "text"); ("text", JStr s)]]
                           | Parts parts => part_to_value <$> parts end)) = Some (flatten output).
Proof.
  destruct output as [s|parts]; intros Hok.
  - pose proof (parts_read_back [Text s]) as Hr. cbn [fmap list_fmap] in Hr. cbn [parse_tool_output].
    unfold part_to_value in Hr. rewrite Hr by (by repeat constructor). simpl. done.
  - destruct parts as [|part parts]; [done|]. pose proof (parts_read_back _ Hok) as Hr.
    cbn [fmap list_fmap] in *. cbn [parse_tool_output]. rewrite Hr. simpl. by destruct (_ && _).
Qed.

Lemma as_u64_ok n : u64_ok n -> as_u64 (JNum n) = Some n.
Proof.
  intros [H1 H2]. unfold as_u64. unfold u64_max in H2.
  rewrite (proj2 (Z.leb_le _ _) H1), (proj2 (Z.ltb_lt n (2 ^ 64))) by lia. done.
Qed.

Lemma result_read id output is_error note seq :
  parse_loop_event (to_wire_value (LoopEvent.ToolResult id output is_error note seq)) =
  let parts := JArr (match output with
                     | ToolScheduler.Text s => [JObj [("type", JStr "text"); ("text", JStr s)]]
                     | Parts parts => part_to_value <$> parts end) in
  Some (LoopEvent.ToolResult id (default (ToolScheduler.Text (default "" (object_text parts))) (parse_tool_output parts))
          is_error note None).
Proof. destruct output, note; reflexivity. Qed.

(** An event that was written is read back, up to its number and to the joining of
    texts: every kind, whatever its strings, arguments and parts. *)
Lemma event_read_back event :
  event_ok event -> parse_loop_event (to_wire_value event) = Some (logged event).
Proof.
  destruct event as [id seq|id text|id text|id call name args|id output is_error note seq|id i o r c]; intros Hok; try reflexivity.
  - rewrite result_read. cbv zeta. by rewrite (output_read_back output Hok).
  - destruct Hok as (Hi & Ho & Hr & Hc).
    change (parse_loop_event (to_wire_value (LoopEvent.StepEnd id i o r c)))
      with (Some (LoopEvent.StepEnd id (default 0 (as_u64 (JNum i))) (default 0 (as_u64 (JNum o)))
                    (default 0 (as_u64 (JNum r))) (default 0 (as_u64 (JNum c))))).
    by rewrite !as_u64_ok.
Qed.

(** ** Messages *)

(** A message of the user's side *)
Definition user_entry (content : list ContentPart) (origin : PromptOrigin) : Entry :=
  mkEntry (mkContextMessage (mkMessage UserRole None content [] None false) (Some origin) false None) 0.

Lemma omap_read_back parts : Forall part_ok parts -> omap part_of_value (part_to_value <$> parts) = parts.
Proof.
  induction 1 as [|part parts Hp _ IH]; [done|]. cbn [fmap list_fmap omap list_omap].
  by rewrite (part_read_back part Hp), IH.
Qed.

Lemma user_record_read to_string content origin :
  Forall part_ok content ->
  parse_context_message to_string (user_record content origin) = Some (user_entry content origin).
Proof.
  intros Hok. unfold user_entry. rewrite <- (omap_read_back content Hok) at 2.
  rewrite <- (origin_read_back origin).
  unfold parse_context_message.
  change (jget "role" (user_record content origin) ≫= role_of_value) with (role_of_value (JStr "user")).
  rewrite user_read_back. reflexivity.
Qed.

(** A reminder is read back as the memory stored it. *)
Lemma reminder_read to_string text :
  parse_context_message to_string (system_reminder_op text) = Some (system_reminder text).
Proof. unfold system_reminder_op. rewrite user_record_read by (by repeat constructor). reflexivity. Qed.
End roundtrip.

(** ** Examples *)

(** A reader of the written forms *)
Definition read_part (v : json) : option ContentPart :=
  kind ← str_field "type" v;
  if String.eqb kind "text" then Text <$> str_field "text" v
  else if String.eqb kind "think" then Think <$> str_field "text" v
  else if String.eqb kind "image_url" then
    image ← jget "image_url" v; u ← str_field "url" image;
    Some (ImageUrl (mkImageUrl u (str_field "detail" image) (str_field "id" image)) (str_field "detail" v))
  else if String.eqb kind "audio_url" then AudioUrl <$> str_field "audio_url" v
  else if String.eqb kind "video_url" then VideoUrl <$> str_field "video_url" v
  else if String.eqb kind "file" then
    Some (FilePart (str_field "file_id" v) (str_field "data" v) (str_field "name" v) (str_field "media_type" v)
            (jget "size" v ≫= as_u64))
  else None.

Definition read_origin (v : json) : option PromptOrigin :=
  let field key := default "" (str_field key v) in
  kind ← str_field "kind" v;
  if String.eqb kind "skill_activation" then
    Some (SkillActivation (str_field "activationId" v) (str_field "skillName" v) (str_field "trigger" v)
            (str_field "skillArgs" v) (str_field "skillPath" v) (str_field "skillSource" v))
  else if String.eqb kind "background_task" then Some (BackgroundTask (field "taskId") (field "status") (field "notificationId"))
  else if String.eqb kind "model_switched" then Some (ModelSwitched (field "from") (field "to"))
  else assoc kind [("user", User); ("plugin_command", PluginCommand); ("injection", Injection);
                   ("shell_command", ShellCommand); ("compaction_summary", CompactionSummary);
                   ("system_trigger", SystemTrigger); ("cron_job", CronJob); ("cron_missed", CronMissed);
                   ("hook_result", HookResult); ("hook_additional_context", HookAdditionalContext); ("retry", Retry);
                   ("file_reference", FileReference); ("user_steer", UserSteer)].

Definition read_role (v : json) : option Role :=
  kind ← as_str v; assoc kind [("system", System); ("user", UserRole); ("assistant", Assistant); ("tool", Tool)].

Lemma read_part_back part : part_ok part -> read_part (part_to_value part) = Some part.
Proof.
  destruct part as [text|text|[u d i] detail|u|u|f d n m size]; try reflexivity.
  - intros _. destruct d, i, detail; reflexivity.
  - intros Hok. destruct size as [size|]; [|destruct f, d, n, m; reflexivity].
    transitivity (Some (FilePart f d n m (as_u64 (JNum size)))); [destruct f, d, n, m; reflexivity|].
    by rewrite (as_u64_ok size Hok).
Qed.

Lemma read_origin_back origin : read_origin (origin_to_value origin) = Some origin.
Proof. destruct origin as [|[] [] [] [] [] []| | | | | | | | | | | | | |]; reflexivity. Qed.

#[export] Instance plain_serde : Serde := {|
  part_of_value := read_part; origin_of_value := read_origin; role_of_value := read_role;
  part_read_back := read_part_back; origin_read_back := read_origin_back; user_read_back := eq_refl
|}.

