(* ===== verification/Materialize.v ===== *)
(** * The fold of a compacted conversation: [mirri-proto/src/reducer.rs], the slot simulation
      and the rebuild of a compaction

    A wire log keeps raw messages and loop events with the order they were written
    in.  To apply a compaction to them the reducer must know which of them the live
    memory held at that moment, in which order and under which numbers: it walks
    the log by the rules of [ContextMemory] and rebuilds what the compaction kept. *)
From stdpp Require Import gmap list strings sorting.
From S2P Require Import Prelude RustStd Json.
#[local] Open Scope string_scope.
#[local] Open Scope list_scope.
#[local] Open Scope Z_scope.

(** ** The conversation of a session *)

Inductive TimelineEntry : Type :=
| TMessage (index : nat)
| TLoopEvent (index : nat).

Record ConversationState : Type := mkConversation {
  messages : list json;
  loop_events : list json;
  timeline : list TimelineEntry;
  summary : option string;
  summary_tokens : Z;
  last_compaction_op : Z
}.
Definition new_conversation : ConversationState := mkConversation [] [] [] None 0 0.

Definition set_entries (ms es : list json) (tl : list TimelineEntry) (c : ConversationState) : ConversationState :=
  mkConversation ms es tl (summary c) (summary_tokens c) (last_compaction_op c).

(** The raw record of an entry *)
Definition raw_of (c : ConversationState) (e : TimelineEntry) : option json :=
  match e with TMessage i => messages c !! i | TLoopEvent i => loop_events c !! i end.

Definition or_field (a b : string) (raw : json) : option json :=
  match jget a raw with Some v => Some v | None => jget b raw end.

(** The number a raw record carries *)
Definition stamped (raw : json) : option Z := or_field "entrySeq" "entry_seq" raw ≫= as_u64.
Definition carries_entry_seq (raw : json) : bool := bool_decide (is_Some (stamped raw)).
Definition stamp_entry_seq (seq : Z) (raw : json) : json := jinsert "entrySeq" (JNum seq) raw.
Definition raw_step_id (raw : json) : option string := or_field "uuid" "stepId" raw ≫= as_str.
Definition raw_call_id (raw : json) : option string := or_field "callId" "toolCallId" raw ≫= as_str.

(** A text part that says nothing *)
Definition is_vacuous_part (part : json) : bool :=
  let blank text := match text with Some text => bool_decide (trim text = "") | None => true end in
  match str_field "type" part with
  | Some "text" => blank (str_field "text" part)
  | Some "think" => blank (or_field "think" "text" part ≫= as_str)
  | _ => false
  end.

(** ** The simulation *)

Definition MAX_HISTORY_MESSAGES : nat := 10000.
Definition MAX_DEFERRED_MESSAGES : nat := 1000.
Record ReplayLimits : Type := mkLimits { max_history_messages : nat; max_deferred_messages : nat }.

Record MaterializationPlan : Type := mkMaterialization {
  entry_slot : list (option nat);
  slot_survives : list bool;
  slot_entry_seq : list Z;
  next_entry_seq : Z
}.

Record OpenStep : Type := mkOpenStep { os_slot : nat; has_content : bool; has_tool_call : bool }.

(** [SlotLedger]; the next slot is the number of those handed out. *)
Record Ledger : Type := mkLedger {
  surviving : nat;
  l_survives : list bool;
  l_entry_seq : list Z;
  l_next_seq : Z
}.

Definition create (stamp : option Z) (l : Ledger) : Ledger * nat :=
  let '(seq, next) := match stamp with
                      | Some seq => (seq, l_next_seq l)
                      | None => (l_next_seq l, wrap_u64 (l_next_seq l + 1))
                      end in
  (mkLedger (S (surviving l)) (l_survives l ++ [true]) (l_entry_seq l ++ [seq]) next, length (l_survives l)).

Record Sim : Type := mkSim {
  s_pending : gset string;
  s_deferred : list (nat * option Z);
  s_open : gmap string OpenStep;
  orphan_calls : gmap string nat;
  s_slots : list (option nat);
  ledger : Ledger
}.

Definition set_open (x : gmap string OpenStep) (s : Sim) : Sim :=
  mkSim (s_pending s) (s_deferred s) x (orphan_calls s) (s_slots s) (ledger s).
Definition set_ledger (x : Ledger) (s : Sim) : Sim :=
  mkSim (s_pending s) (s_deferred s) (s_open s) (orphan_calls s) (s_slots s) x.

(** [flush_deferred]: up to the capacity the waiting messages get their slots. *)
Fixpoint place_deferred (waiting : list (nat * option Z)) (slots : list (option nat)) (l : Ledger)
  : list (option nat) * Ledger :=
  match waiting with
  | [] => (slots, l)
  | (pos, stamp) :: waiting =>
    let '(l, slot) := create stamp l in place_deferred waiting (<[pos := Some slot]> slots) l
  end.
Definition flush_deferred (max_history : nat) (s : Sim) : Sim :=
  let capacity := (max_history - surviving (ledger s))%nat in
  let '(slots, l) := place_deferred (take capacity (s_deferred s)) (s_slots s) (ledger s) in
  mkSim (s_pending s) [] (s_open s) (orphan_calls s) slots l.
Definition flush_if_closed (max_history : nat) (s : Sim) : Sim :=
  if bool_decide (s_pending s = ∅) then flush_deferred max_history s else s.

(** The entry's own slot comes last. *)
Definition give (slot : option nat) (s : Sim) : Sim :=
  mkSim (s_pending s) (s_deferred s) (s_open s) (orphan_calls s) (s_slots s ++ [slot]) (ledger s).

Definition simulate_message (max_history max_deferred : nat) (raw : json) (s : Sim) : Sim * option nat :=
  if bool_decide (s_pending s = ∅) then
    if (surviving (ledger s) <? max_history)%nat then
      let '(l, slot) := create (stamped raw) (ledger s) in (set_ledger l s, Some slot)
    else (s, None)
  else if (length (s_deferred s) <? max_deferred)%nat then
    (mkSim (s_pending s) (s_deferred s ++ [(length (s_slots s), stamped raw)]) (s_open s) (orphan_calls s)
       (s_slots s) (ledger s), None)
  else (s, None).

Definition simulate_event (max_history : nat) (raw : json) (s : Sim) : Sim * option nat :=
  let event_type := default "" (str_field "type" raw) in
  let step := id ← raw_step_id raw; step ← s_open s !! id; Some (id, step) in
  if String.eqb event_type "step.begin" then
    if (surviving (ledger s) <? max_history)%nat then
      let '(l, slot) := create (stamped raw) (ledger s) in
      let s := set_ledger l s in
      (match raw_step_id raw with
       | Some id => set_open (<[id := mkOpenStep slot false false]> (s_open s)) s
       | None => s
       end, Some slot)
    else (s, None)
  else if String.eqb event_type "tool.call" then
    let '(s, slot) := match step with
                      | Some (id, step) =>
                        (set_open (<[id := mkOpenStep (os_slot step) (has_content step) true]> (s_open s)) s, Some (os_slot step))
                      | None => (s, None)
                      end in
    (match raw_call_id raw with
     | Some id =>
       mkSim ({[id]} ∪ s_pending s) (s_deferred s) (s_open s)
         (match slot with Some _ => orphan_calls s | None => <[id := length (s_slots s)]> (orphan_calls s) end)
         (s_slots s) (ledger s)
     | None => s
     end, slot)
  else if String.eqb event_type "content.part" || String.eqb event_type "think.part" then
    match step with
    | Some (id, step) =>
      let vacuous := match jget "part" raw with Some part => is_vacuous_part part | None => true end in
      (set_open (<[id := mkOpenStep (os_slot step) (has_content step || negb vacuous) (has_tool_call step)]> (s_open s)) s,
       Some (os_slot step))
    | None => (s, None)
    end
  else if String.eqb event_type "tool.result" then
    let '(s, slot) :=
      match raw_call_id raw with
      | Some id =>
        if bool_decide (id ∈ s_pending s) then
          let s := mkSim (s_pending s ∖ {[id]}) (s_deferred s) (s_open s) (orphan_calls s) (s_slots s) (ledger s) in
          if (surviving (ledger s) <? max_history)%nat then
            let '(l, slot) := create (stamped raw) (ledger s) in
            (mkSim (s_pending s) (s_deferred s) (s_open s) (delete id (orphan_calls s))
               (match orphan_calls s !! id with Some pos => <[pos := Some slot]> (s_slots s) | None => s_slots s end) l,
             Some slot)
          else (s, None)
        else (s, None)
      | None => (s, None)
      end in
    (flush_if_closed max_history s, slot)
  else if String.eqb event_type "step.end" then
    let '(s, slot) :=
      match step with
      | Some (id, step) =>
        let s := set_open (delete id (s_open s)) s in
        (if negb (has_content step) && negb (has_tool_call step)
         then set_ledger (mkLedger (surviving (ledger s) - 1) (<[os_slot step := false]> (l_survives (ledger s)))
                            (l_entry_seq (ledger s)) (l_next_seq (ledger s))) s
         else s, Some (os_slot step))
      | None => (s, None)
      end in
    (flush_if_closed max_history s, slot)
  else (s, None).

Definition simulate_entry (c : ConversationState) (max_history max_deferred : nat) (s : Sim) (entry : TimelineEntry) : Sim :=
  let '(s, slot) := match entry, raw_of c entry with
                    | TMessage _, Some raw => simulate_message max_history max_deferred raw s
                    | TLoopEvent _, Some raw => simulate_event max_history raw s
                    | _, None => (s, None)
                    end in
  give slot s.

(** The counter starts past the numbers the messages carry. *)
Definition first_fresh_seq (ms : list json) : Z :=
  foldr Z.max 0 ((fun seq => Z.min (seq + 1) u64_max) <$> omap stamped ms).

Definition sim_start (ms : list json) : Sim := mkSim ∅ [] ∅ ∅ [] (mkLedger 0 [] [] (first_fresh_seq ms)).

Definition plan_materialization_with_limits (c : ConversationState) (max_history max_deferred : nat) : MaterializationPlan :=
  let s := foldl (simulate_entry c max_history max_deferred) (sim_start (messages c)) (timeline c) in
  mkMaterialization (s_slots s) (l_survives (ledger s)) (l_entry_seq (ledger s)) (l_next_seq (ledger s)).

Definition plan_materialization (c : ConversationState) (replay_limits : option ReplayLimits) : MaterializationPlan :=
  match replay_limits with
  | Some limits => plan_materialization_with_limits c (max_history_messages limits) (max_deferred_messages limits)
  | None => plan_materialization_with_limits c MAX_HISTORY_MESSAGES MAX_DEFERRED_MESSAGES
  end.
