(* ===== verification/CompactionFold.v ===== *)
(** * Rebuilding a compacted conversation: [mirri-proto/src/reducer.rs]

    The three shapes of a compaction record, each rebuilt over the layout the
    simulation of [Materialize] gives: the head essence, the elision marker and the
    summary around a retained tail; the kept messages of the user around the summary;
    the summary before a verbatim tail. *)
From stdpp Require Import gmap list strings sorting pretty.
From S2P Require Import Prelude RustStd Json Materialize.
#[local] Open Scope string_scope.
#[local] Open Scope list_scope.
#[local] Open Scope Z_scope.

(** ** The layout *)

Record FoldedLayout : Type := mkLayout {
  plan : MaterializationPlan;
  placed : list (nat * nat);
  total_surviving : nat
}.

(** The place of each surviving slot among the survivors, from the [n]-th on *)
Fixpoint final_position (n : nat) (survives : list bool) : list (option nat) :=
  match survives with
  | [] => []
  | true :: survives => Some n :: final_position (S n) survives
  | false :: survives => None :: final_position n survives
  end.

(** The entries with a place, by place and by wire index *)
Definition place_le (a b : nat * nat) : Prop := (a.1 < b.1)%nat \/ a.1 = b.1 /\ (a.2 <= b.2)%nat.
#[export] Instance place_le_dec : RelDecision place_le.
Proof. intros a b. unfold place_le. apply _. Defined.
#[export] Instance place_le_trans : Transitive place_le.
Proof. intros a b c. unfold place_le. lia. Qed.
#[export] Instance place_le_total : Total place_le.
Proof. intros a b. unfold place_le. lia. Qed.

Definition placed_entries (entry_slots final : list (option nat)) : list (nat * nat) :=
  merge_sort place_le
    (omap (fun '(wire, slot) => slot ← slot; pos ← mjoin (final !! slot); Some (pos, wire)) (imap pair entry_slots)).

Definition folded_layout (c : ConversationState) (replay_limits : option ReplayLimits) : FoldedLayout :=
  let plan := plan_materialization c replay_limits in
  let final := final_position 0 (slot_survives plan) in
  mkLayout plan (placed_entries (entry_slot plan) final) (length (omap id final)).

Definition corrected_seq (layout : FoldedLayout) (raw : json) (wire : nat) (offset : Z) : option Z :=
  slot ← mjoin (entry_slot (plan layout) !! wire);
  sim ← slot_entry_seq (plan layout) !! slot;
  Some (if carries_entry_seq raw then sim else wrap_u64 (sim + offset)).
Definition stamp_corrected (layout : FoldedLayout) (wire : nat) (offset : Z) (raw : json) : json :=
  match corrected_seq layout raw wire offset with Some seq => stamp_entry_seq seq raw | None => raw end.

(** ** The messages a rebuild writes *)

Definition compaction_summary_message (summary_text : string) : json :=
  JObj [("role", JStr "user"); ("content", JArr [JObj [("type", JStr "text"); ("text", JStr summary_text)]]);
        ("origin", JObj [("kind", JStr "compaction_summary")])].

Definition newline : string := String (Ascii.ascii_of_nat 10) "".
Definition ts_elision_marker_message (omitted_tokens : Z) : json :=
  let text := String.concat newline
    ["<system-reminder>";
     "Some of this conversation's user messages were omitted here during compaction: the messages above this note are the oldest user input, the messages below are the most recent, and roughly " +:+ pretty omitted_tokens +:+
     " tokens in between were dropped. The omitted content is covered by the compaction summary at the end of the conversation.";
     "</system-reminder>"] in
  JObj [("role", JStr "user"); ("content", JArr [JObj [("type", JStr "text"); ("text", JStr text)]]);
        ("origin", JObj [("kind", JStr "injection"); ("variant", JStr "compaction_elision")])].

Definition origin_kind (raw : json) : option string := jget "origin" raw ≫= str_field "kind".
Definition real_user (raw : json) : bool :=
  match origin_kind raw with
  | Some kind => bool_decide (kind ∈ ["user"; "user_steer"; "skill_activation"; "plugin_command"])
  | None => false
  end.

Definition ts_compactable_user (raw : json) : bool :=
  bool_decide (str_field "role" raw = Some "user") &&
  match jget "origin" raw with
  | None | Some JNull => true
  | Some origin =>
    match str_field "kind" origin with
    | Some kind =>
      if String.eqb kind "user" then true
      else if String.eqb kind "skill_activation" || String.eqb kind "plugin_command"
      then bool_decide (str_field "trigger" origin = Some "user-slash")
      else false
    | None => false
    end
  end.

Definition text_len (raw : json) : Z :=
  match jget "content" raw with
  | Some (JStr text) => Z.of_nat (String.length text)
  | Some (JArr parts) =>
    foldl Z.add 0
      (omap (fun part => if bool_decide (str_field "type" part = Some "text")
                         then (fun text => Z.of_nat (String.length text)) <$> str_field "text" part else None) parts)
  | _ => 0
  end.
Definition estimate_user_message_tokens (c : ConversationState) (wire : nat) : Z :=
  match timeline c !! wire with
  | Some (TMessage index) => default 0 ((fun raw => (text_len raw + 3) / 4) <$> messages c !! index)
  | _ => 0
  end.

(** ** Collecting the new records *)

Record Rebuilt : Type := mkRebuilt {
  new_messages : list json;
  new_loop_events : list json;
  new_timeline : list TimelineEntry
}.
Definition nothing : Rebuilt := mkRebuilt [] [] [].
Definition push_message (raw : json) (r : Rebuilt) : Rebuilt :=
  mkRebuilt (new_messages r ++ [raw]) (new_loop_events r) (new_timeline r ++ [TMessage (length (new_messages r))]).
Definition push_event (raw : json) (r : Rebuilt) : Rebuilt :=
  mkRebuilt (new_messages r) (new_loop_events r ++ [raw]) (new_timeline r ++ [TLoopEvent (length (new_loop_events r))]).
Definition install (r : Rebuilt) : ConversationState -> ConversationState :=
  set_entries (new_messages r) (new_loop_events r) (new_timeline r).
Definition cleared : ConversationState -> ConversationState := install nothing.

(** The entries from [tail_start] on, each slot's creator with its number *)
Definition keep_entry (c : ConversationState) (layout : FoldedLayout) (tail_start : nat) (offset : Z)
  (r : Rebuilt) (place : nat * nat) : Rebuilt :=
  let '(pos, wire) := place in
  if (pos <? tail_start)%nat then r
  else match timeline c !! wire with
       | Some (TMessage index) =>
         match messages c !! index with
         | Some raw => push_message (stamp_corrected layout wire offset raw) r
         | None => r
         end
       | Some (TLoopEvent index) =>
         match loop_events c !! index with
         | Some raw =>
           let creates_slot := match str_field "type" raw with
                               | Some kind => bool_decide (kind ∈ ["step.begin"; "tool.result"])
                               | None => false
                               end in
           push_event (if creates_slot then stamp_corrected layout wire offset raw else raw) r
         | None => r
         end
       | None => r
       end.
Definition keep_tail (c : ConversationState) (layout : FoldedLayout) (tail_start : nat) (offset : Z) (r : Rebuilt) : Rebuilt :=
  foldl (keep_entry c layout tail_start offset) r (placed layout).

(** ** A record of this kernel *)

(** The smallest and the largest number of the replaced slots *)
Definition sim_bracket (layout : FoldedLayout) (tail_start : nat) : option (Z * Z) :=
  let seqs := omap (fun '(pos, wire) =>
                      if (pos <? tail_start)%nat
                      then slot ← mjoin (entry_slot (plan layout) !! wire); slot_entry_seq (plan layout) !! slot
                      else None) (placed layout) in
  match seqs with [] => None | _ => Some (foldl Z.min u64_max seqs, foldl Z.max 0 seqs) end.

Definition gap_offsets (layout : FoldedLayout) (tail_start : nat) (first_replaced last_replaced : option Z) : Z * Z :=
  match first_replaced, last_replaced with
  | Some first, Some last =>
    match sim_bracket layout tail_start with
    | Some (sim_first, sim_last) =>
      if (first <? sim_first) || (last <? sim_last) then (0, 0) else (first - sim_first, last - sim_last)
    | None => (0, 0)
    end
  | _, _ => (0, 0)
  end.

(** The first messages of the user before the tail *)
Fixpoint head_essence (c : ConversationState) (layout : FoldedLayout) (tail_start : nat) (offset : Z) (wanted : nat)
  (places : list (nat * nat)) (r : Rebuilt) : Rebuilt :=
  match places with
  | [] => r
  | (pos, wire) :: places =>
    if (wanted =? 0)%nat || (tail_start <=? pos)%nat then r
    else match (match timeline c !! wire with Some (TMessage index) => messages c !! index | _ => None end) with
         | Some raw =>
           if real_user raw
           then head_essence c layout tail_start offset (wanted - 1) places
                  (push_message (stamp_corrected layout wire offset raw) r)
           else head_essence c layout tail_start offset wanted places r
         | None => head_essence c layout tail_start offset wanted places r
         end
  end.

Definition push_summary (seq : Z) (summary_text : string) : Rebuilt -> Rebuilt :=
  push_message (stamp_entry_seq seq (compaction_summary_message summary_text)).

Definition reconstruct_compacted_conversation (retained_tail_count kept_head_user_message_count : nat)
  (elision_message : option json) (summary_text : string) (replay_limits : option ReplayLimits)
  (first_replaced last_replaced : option Z) (c : ConversationState) : ConversationState :=
  if (retained_tail_count =? 0)%nat then cleared c
  else
    let layout := folded_layout c replay_limits in
    if (total_surviving layout <? retained_tail_count)%nat then cleared c
    else
      let tail_start := (total_surviving layout - retained_tail_count)%nat in
      let '(head_offset, tail_offset) := gap_offsets layout tail_start first_replaced last_replaced in
      let elision_seq := wrap_u64 (next_entry_seq (plan layout) + tail_offset) in
      let head := head_essence c layout tail_start head_offset kept_head_user_message_count (placed layout) nothing in
      let '(marked, summary_seq) := match elision_message with
                                    | Some marker => (push_message (stamp_entry_seq elision_seq marker) head, wrap_u64 (elision_seq + 1))
                                    | None => (head, elision_seq)
                                    end in
      install (keep_tail c layout tail_start tail_offset (push_summary summary_seq summary_text marked)) c.

(** ** A record of the TypeScript kernel *)

Definition compactable_entries (c : ConversationState) (layout : FoldedLayout) : list nat :=
  omap (fun '(_, wire) => match timeline c !! wire with
                          | Some (TMessage index) =>
                            raw ← messages c !! index; if ts_compactable_user raw then Some wire else None
                          | _ => None
                          end) (placed layout).

Definition kept_raw (c : ConversationState) (layout : FoldedLayout) (wire : nat) : option json :=
  match timeline c !! wire with
  | Some (TMessage index) => stamp_corrected layout wire 0 <$> messages c !! index
  | _ => None
  end.

Definition reconstruct_ts_newer_compaction (kept_user_message_count : nat) (kept_head : option nat) (summary_text : string)
  (replay_limits : option ReplayLimits) (c : ConversationState) : ConversationState :=
  let layout := folded_layout c replay_limits in
  let compactable := compactable_entries c layout in
  let kept_start := (length compactable - kept_user_message_count)%nat in
  let kept := drop kept_start compactable in
  let head_count := match kept_head with Some count => Nat.min count (length kept) | None => 0%nat end in
  let omitted_tokens := foldl Z.add 0 (estimate_user_message_tokens c <$> take kept_start compactable) in
  let elision_seq := next_entry_seq (plan layout) in
  let '(marker, summary_seq) := match kept_head with
                                | Some _ => ([stamp_entry_seq elision_seq (ts_elision_marker_message omitted_tokens)],
                                             wrap_u64 (elision_seq + 1))
                                | None => ([], elision_seq)
                                end in
  let rebuilt := omap (kept_raw c layout) (take head_count kept) ++ marker ++ omap (kept_raw c layout) (drop head_count kept) ++
                 [stamp_entry_seq summary_seq (compaction_summary_message summary_text)] in
  set_entries rebuilt [] (TMessage <$> seq 0 (length rebuilt)) c.

Definition reconstruct_ts_legacy_compaction (compacted_count : nat) (summary_text : string)
  (replay_limits : option ReplayLimits) (c : ConversationState) : ConversationState :=
  let layout := folded_layout c replay_limits in
  install (keep_tail c layout compacted_count 0
             (push_summary (next_entry_seq (plan layout)) summary_text nothing)) c.
