(* ===== verification/SessionState.v ===== *)
(** * The state of a session: [mirri-proto/src/state.rs], [wire.rs] and [reducer.rs]

    [AgentState] is everything the wire log of an agent says, and
    [apply_with_limits] the fold of one operation into it.  The cron domain is that
    of [CronReplay], the compaction of the conversation that of [CompactionFold]. *)
From stdpp Require Import gmap list strings sorting.
From S2P Require Import Prelude RustStd F64 Json CronWire CronReplay Materialize CompactionFold.
#[local] Open Scope string_scope.
#[local] Open Scope list_scope.
#[local] Open Scope Z_scope.

(** ** The operations of the log *)

Record CompactionRecord : Type := mkCompactionRecord {
  cr_summary : string;
  compacted_count : nat;
  tokens_before : option Z;
  context_summary : option string;
  retained_tail_count : option nat;
  kept_user_message_count : option nat;
  kept_head_user_message_count : option nat;
  elision_message : option json;
  first_replaced_entry_seq : option Z;
  last_replaced_entry_seq : option Z
}.

Record SubagentRegistration : Type := mkSubagent {
  agent_id : string;
  sub_profile_name : string;
  sub_model : option string;
  thinking_effort : option string;
  parent_agent_id : option string;
  swarm_item : option string;
  parent_tool_call_id : option string;
  swarm_index : option Z
}.

(** [WireOp]; a field no arm of the fold reads is left out, and the operations that
    fold to nothing are [Other]. *)
Module WireOp.
Inductive t : Type :=
| ContextAppendMessage (message : json)
| ContextAppendLoopEvent (event : json)
| ContextClear
| ContextApplyCompaction (record : CompactionRecord)
| ContextUndo (count : nat)
| TurnPrompt (input origin : json)
| TurnSteer (input origin : json)
| TurnSteerFlushed (count : nat)
| TurnCancel (turn_id : option Z) (target reason : option string)
| TurnEnded (turn_id : Z) (reason : string) (error : option json)
| GoalCreate (goal_id objective : string) (completion_criterion status : option string) (budget_limits : option json)
| GoalUpdate (goal_id status reason : option string) (turns_used tokens_used : option Z) (budget_limits : option json)
| GoalClear
| PlanModeEnter (id : string) (plan_text : option string)
| PlanModeCancel
| PlanModeExit
| PlanRevision (id : string) (version : Z) (plan_text : option string)
| ProfileBind (model_alias profile_name : option string) (active_tool_names : option (list string))
| ConfigUpdate (model_alias profile_name : option string)
| ToolsSetActiveTools (names : list string)
| ToolsResetActiveTools
| ToolsRegisterUserTool (registration : json)
| ToolsUnregisterUserTool (name : string)
| ToolsSetUserToolEnabled (name : string) (enabled : bool)
| ToolsUpdateStore (key : string) (value : json)
| PermissionSetMode (mode : string)
| PermissionRecordApprovalResult (record : json)
| RequestHeaderChanged (reason : string)
| McpToolsDiscovered (server_name : string) (tools : json)
| FullCompactionBegin (data : json)
| FullCompactionCancel
| FullCompactionComplete
| UsageRecord (model : string) (usage : json)
| TaskStarted (info : json)
| TaskTerminated (info : json)
| SwarmModeEnter (trigger : json)
| SwarmModeExit
| InterruptionReminderRecorded (turn_id : Z)
| Cron (op : CronWire.WireOp)
| CollaborationStart (session_id task : string)
| CollaborationEnd (session_id : string)
| CollaborationMessage (session_id : string) (message : json)
| SubagentRegistered (registration : SubagentRegistration)
| Other.
End WireOp.

(** [DomainEvent], as far as the fold emits it *)
Module DomainEvent.
Inductive t : Type :=
| MessageAdded (role : string)
| LoopEventAdded (event_type : string)
| ContextCleared
| ContextUndone (count : nat)
| CompactionApplied (summary_tokens : Z)
| TurnStarted (turn_id : Z)
| TurnCompleted (turn_id : Z)
| TurnCancelled (turn_id : Z) (reason : string)
| TurnFailed (turn_id : Z) (error : string)
| GoalStarted (objective : string)
| GoalPaused (reason : string)
| GoalResumed
| GoalCompleted
| GoalBlocked (reason : string)
| GoalUpdated (status : string)
| GoalCleared
| PermissionModeChanged (old_mode new_mode : string)
| UsageRecorded (model : string) (input output cache_read cache_creation : Z)
| PlanModeEntered (plan_id : string)
| PlanModeExited
| PlanModeCancelled
| PlanRevision (plan_id : string) (version : Z)
| ProfileBound (profile_name : string)
| ConfigUpdated (model_alias : option string)
| McpToolsDiscovered (server_name : string) (tool_count : Z)
| CompactionStarted (from_op message_count : Z)
| CompactionCompleted
| CompactionFailed (reason : string)
| BackgroundTaskStarted (task_id description : string)
| BackgroundTaskCompleted (task_id : string) (exit_code : option Z)
| Cron (event : CronEvent)
| CollaborationSessionStarted (session_id task : string)
| CollaborationSessionEnded (session_id : string)
| CollaborationMessageSent (session_id : string) (from : option string)
| RequestHeaderChanged (reason : string).
End DomainEvent.

(** ** The state *)

Record PermissionState : Type := mkPermission { mode : string; session_approval_patterns : list string }.
Record GoalState : Type := mkGoal {
  goal_id : string;
  objective : string;
  completion_criterion : option string;
  status : string;
  turns_used : option Z;
  tokens_used : option Z;
  budget_limits : option json
}.
Record TokenCounts : Type := mkCounts { input_tokens : Z; output_tokens : Z; cache_read_tokens : Z; cache_creation_tokens : Z }.
Record UsageState : Type := mkUsage { totals : TokenCounts; first_call : option TokenCounts }.
Record ToolsState : Type := mkTools {
  active : option (list string);
  user_registrations : list json;
  disabled_user_tools : list string;
  store : gmap string json;
  todo_checkpoints : list json
}.
Record RequestHeaderState : Type := mkHeader { change_count : Z; last_reason : string }.

Record AgentState : Type := mkAgent {
  conversation : ConversationState;
  permission : PermissionState;
  goal : option GoalState;
  usage : UsageState;
  turn_counter : Z;
  plan_mode : option string;
  plan_text : option string;
  cron : CronState;
  tools : ToolsState;
  profile_name : option string;
  model : option string;
  subagents : list SubagentRegistration;
  request_header : option RequestHeaderState;
  steer_pending : list json;
  interruption_pending : list Z;
  swarm_trigger : option json
}.

Definition no_counts : TokenCounts := mkCounts 0 0 0 0.
Definition no_tools : ToolsState := mkTools None [] [] ∅ [].
Definition new_state : AgentState :=
  mkAgent new_conversation (mkPermission "manual" []) None (mkUsage no_counts None) 0 None None empty_cron_state no_tools
    None None [] None [] [] None.

Definition set_conversation (x : ConversationState) (s : AgentState) : AgentState :=
  mkAgent x (permission s) (goal s) (usage s) (turn_counter s) (plan_mode s) (plan_text s) (cron s) (tools s) (profile_name s) (model s) (subagents s) (request_header s) (steer_pending s) (interruption_pending s) (swarm_trigger s).
Definition set_permission (x : PermissionState) (s : AgentState) : AgentState :=
  mkAgent (conversation s) x (goal s) (usage s) (turn_counter s) (plan_mode s) (plan_text s) (cron s) (tools s) (profile_name s) (model s) (subagents s) (request_header s) (steer_pending s) (interruption_pending s) (swarm_trigger s).
Definition set_goal (x : option GoalState) (s : AgentState) : AgentState :=
  mkAgent (conversation s) (permission s) x (usage s) (turn_counter s) (plan_mode s) (plan_text s) (cron s) (tools s) (profile_name s) (model s) (subagents s) (request_header s) (steer_pending s) (interruption_pending s) (swarm_trigger s).
Definition set_usage (x : UsageState) (s : AgentState) : AgentState :=
  mkAgent (conversation s) (permission s) (goal s) x (turn_counter s) (plan_mode s) (plan_text s) (cron s) (tools s) (profile_name s) (model s) (subagents s) (request_header s) (steer_pending s) (interruption_pending s) (swarm_trigger s).
Definition set_turn_counter (x : Z) (s : AgentState) : AgentState :=
  mkAgent (conversation s) (permission s) (goal s) (usage s) x (plan_mode s) (plan_text s) (cron s) (tools s) (profile_name s) (model s) (subagents s) (request_header s) (steer_pending s) (interruption_pending s) (swarm_trigger s).
Definition set_plan_mode (x : option string) (s : AgentState) : AgentState :=
  mkAgent (conversation s) (permission s) (goal s) (usage s) (turn_counter s) x (plan_text s) (cron s) (tools s) (profile_name s) (model s) (subagents s) (request_header s) (steer_pending s) (interruption_pending s) (swarm_trigger s).
Definition set_plan_text (x : option string) (s : AgentState) : AgentState :=
  mkAgent (conversation s) (permission s) (goal s) (usage s) (turn_counter s) (plan_mode s) x (cron s) (tools s) (profile_name s) (model s) (subagents s) (request_header s) (steer_pending s) (interruption_pending s) (swarm_trigger s).
Definition set_cron (x : CronState) (s : AgentState) : AgentState :=
  mkAgent (conversation s) (permission s) (goal s) (usage s) (turn_counter s) (plan_mode s) (plan_text s) x (tools s) (profile_name s) (model s) (subagents s) (request_header s) (steer_pending s) (interruption_pending s) (swarm_trigger s).
Definition set_tools (x : ToolsState) (s : AgentState) : AgentState :=
  mkAgent (conversation s) (permission s) (goal s) (usage s) (turn_counter s) (plan_mode s) (plan_text s) (cron s) x (profile_name s) (model s) (subagents s) (request_header s) (steer_pending s) (interruption_pending s) (swarm_trigger s).
Definition set_profile_name (x : option string) (s : AgentState) : AgentState :=
  mkAgent (conversation s) (permission s) (goal s) (usage s) (turn_counter s) (plan_mode s) (plan_text s) (cron s) (tools s) x (model s) (subagents s) (request_header s) (steer_pending s) (interruption_pending s) (swarm_trigger s).
Definition set_model (x : option string) (s : AgentState) : AgentState :=
  mkAgent (conversation s) (permission s) (goal s) (usage s) (turn_counter s) (plan_mode s) (plan_text s) (cron s) (tools s) (profile_name s) x (subagents s) (request_header s) (steer_pending s) (interruption_pending s) (swarm_trigger s).
Definition set_subagents (x : list SubagentRegistration) (s : AgentState) : AgentState :=
  mkAgent (conversation s) (permission s) (goal s) (usage s) (turn_counter s) (plan_mode s) (plan_text s) (cron s) (tools s) (profile_name s) (model s) x (request_header s) (steer_pending s) (interruption_pending s) (swarm_trigger s).
Definition set_request_header (x : option RequestHeaderState) (s : AgentState) : AgentState :=
  mkAgent (conversation s) (permission s) (goal s) (usage s) (turn_counter s) (plan_mode s) (plan_text s) (cron s) (tools s) (profile_name s) (model s) (subagents s) x (steer_pending s) (interruption_pending s) (swarm_trigger s).
Definition set_steer_pending (x : list json) (s : AgentState) : AgentState :=
  mkAgent (conversation s) (permission s) (goal s) (usage s) (turn_counter s) (plan_mode s) (plan_text s) (cron s) (tools s) (profile_name s) (model s) (subagents s) (request_header s) x (interruption_pending s) (swarm_trigger s).
Definition set_interruption_pending (x : list Z) (s : AgentState) : AgentState :=
  mkAgent (conversation s) (permission s) (goal s) (usage s) (turn_counter s) (plan_mode s) (plan_text s) (cron s) (tools s) (profile_name s) (model s) (subagents s) (request_header s) (steer_pending s) x (swarm_trigger s).
Definition set_swarm_trigger (x : option json) (s : AgentState) : AgentState :=
  mkAgent (conversation s) (permission s) (goal s) (usage s) (turn_counter s) (plan_mode s) (plan_text s) (cron s) (tools s) (profile_name s) (model s) (subagents s) (request_header s) (steer_pending s) (interruption_pending s) x.
Definition on_tools (f : ToolsState -> ToolsState) (s : AgentState) : AgentState := set_tools (f (tools s)) s.
Definition on_conversation (f : ConversationState -> ConversationState) (s : AgentState) : AgentState :=
  set_conversation (f (conversation s)) s.
Definition set_active (x : option (list string)) (t : ToolsState) : ToolsState :=
  mkTools x (user_registrations t) (disabled_user_tools t) (store t) (todo_checkpoints t).
Definition set_user_registrations (x : list json) (t : ToolsState) : ToolsState :=
  mkTools (active t) x (disabled_user_tools t) (store t) (todo_checkpoints t).
Definition set_disabled_user_tools (x : list string) (t : ToolsState) : ToolsState :=
  mkTools (active t) (user_registrations t) x (store t) (todo_checkpoints t).
Definition set_store (x : gmap string json) (t : ToolsState) : ToolsState :=
  mkTools (active t) (user_registrations t) (disabled_user_tools t) x (todo_checkpoints t).
Definition set_todo_checkpoints (x : list json) (t : ToolsState) : ToolsState :=
  mkTools (active t) (user_registrations t) (disabled_user_tools t) (store t) x.

(** ** The records the fold looks into *)

Definition derive_session_approval_pattern (record : json) : option string :=
  match jget "sessionApprovalRule" record with
  | Some (JStr pattern) =>
    result ← jget "result" record;
    if bool_decide (str_field "decision" result = Some "approved") && bool_decide (str_field "scope" result = Some "session")
    then Some pattern else None
  | Some (JObj _ as rule) =>
    match jget "result" record with
    | Some _ => None
    | None =>
      let allows := bool_decide (str_field "rule" rule ∈ [Some "allow"; Some "allowAll"]) in
      tool_name ← str_field "toolName" rule; if allows then Some tool_name else None
    end
  | _ => None
  end.

Definition is_undo_anchor_message (message : json) : bool :=
  bool_decide (str_field "role" message = Some "user") &&
  match jget "origin" message with
  | None | Some JNull => true
  | Some origin =>
    bool_decide (str_field "kind" origin ∈ [Some "user"; Some "user_steer"; Some "skill_activation"; Some "plugin_command"])
  end.

Definition parse_todo_item (item : json) : option (string * string) :=
  title ← str_field "title" item;
  if String.eqb title "" then None
  else
    status ← to_ascii_lowercase <$> str_field "status" item;
    if bool_decide (status ∈ ["pending"; "in_progress"; "done"]) then Some (title, status) else None.
Definition parse_todo_items (value : json) : option (list (string * string)) :=
  match value with JArr items => mapM parse_todo_item items | _ => None end.

Definition is_swarm_enter_reminder_text (text : string) : bool :=
  String.prefix ("## Swarm Mode" +:+ newline)
    (default text (strip_prefix ("<system-reminder>" +:+ newline) text)).
Definition is_swarm_enter_reminder (msg : json) : bool :=
  let text := match jget "content" msg with Some (JArr (part :: _)) => str_field "text" part | _ => None end in
  bool_decide (origin_kind msg = Some "injection") &&
  match text with Some text => is_swarm_enter_reminder_text text | None => false end.

(** ** The conversation *)

Definition append_message (message : json) (c : ConversationState) : ConversationState :=
  set_entries (messages c ++ [message]) (loop_events c) (timeline c ++ [TMessage (length (messages c))]) c.
Definition append_loop_event (event : json) (c : ConversationState) : ConversationState :=
  set_entries (messages c) (loop_events c ++ [event]) (timeline c ++ [TLoopEvent (length (loop_events c))]) c.

(** The list before the first element that satisfies [p] *)
Fixpoint cut_at {A} (p : A -> bool) (l : list A) : list A :=
  match l with [] => [] | a :: l => if p a then [] else a :: cut_at p l end.
(** The list without the last element that satisfies [p] *)
Fixpoint remove_last {A} (p : A -> bool) (l : list A) : list A :=
  match l with
  | [] => []
  | a :: l => if existsb p l then a :: remove_last p l else if p a then l else a :: l
  end.

Definition message_from (n : nat) (entry : TimelineEntry) : bool :=
  match entry with TMessage index => (n <=? index)%nat | TLoopEvent _ => false end.
Definition is_message (n : nat) (entry : TimelineEntry) : bool :=
  match entry with TMessage index => (index =? n)%nat | TLoopEvent _ => false end.

Definition undo_messages (count : nat) (c : ConversationState) : ConversationState :=
  if (count <=? length (messages c))%nat then
    let new_len := (length (messages c) - count)%nat in
    set_entries (take new_len (messages c)) (loop_events c) (cut_at (message_from new_len) (timeline c)) c
  else c.

Definition retract_swarm_reminder (c : ConversationState) : ConversationState :=
  match last (messages c) with
  | Some msg =>
    if is_swarm_enter_reminder msg then
      let popped_index := (length (messages c) - 1)%nat in
      set_entries (take popped_index (messages c)) (loop_events c) (remove_last (is_message popped_index) (timeline c)) c
    else c
  | None => c
  end.

(** The compaction of each dialect *)
Definition compact (replay_limits : option ReplayLimits) (r : CompactionRecord) (c : ConversationState) : ConversationState :=
  let c := mkConversation (messages c) (loop_events c) (timeline c) (Some (cr_summary r))
             (wrap_u32 (default 0 (tokens_before r))) (last_compaction_op c) in
  let summary_text := default (cr_summary r) (context_summary r) in
  match retained_tail_count r, kept_head_user_message_count r with
  | Some tail_count, Some head_count =>
    reconstruct_compacted_conversation tail_count head_count (elision_message r) summary_text replay_limits
      (first_replaced_entry_seq r) (last_replaced_entry_seq r) c
  | Some _, None => cleared c
  | None, _ =>
    match kept_user_message_count r with
    | Some kept_count => reconstruct_ts_newer_compaction kept_count (kept_head_user_message_count r) summary_text replay_limits c
    | None => reconstruct_ts_legacy_compaction (compacted_count r) summary_text replay_limits c
    end
  end.

(** ** The tools *)

Definition named (name : string) (registration : json) : bool := bool_decide (str_field "name" registration = Some name).
Definition upsert {A} (p : A -> bool) (a : A) (l : list A) : list A := default (l ++ [a]) (update_first p (fun _ => a) l).
Definition without (name : string) (names : list string) : list string := filter (fun other => other <> name) names.
Definition with_name (name : string) (names : list string) : list string :=
  if bool_decide (name ∈ names) then names else names ++ [name].

Definition register_user_tool (registration : json) (t : ToolsState) : ToolsState :=
  match str_field "name" registration with
  | Some name =>
    set_disabled_user_tools (without name (disabled_user_tools t))
      (set_user_registrations (upsert (named name) registration (user_registrations t)) t)
  | None => t
  end.
Definition unregister_user_tool (name : string) (t : ToolsState) : ToolsState :=
  set_user_registrations (filter (fun registration => str_field "name" registration <> Some name) (user_registrations t)) t.
Definition set_user_tool_enabled (name : string) (enabled : bool) (t : ToolsState) : ToolsState :=
  if enabled
  then set_active (with_name name <$> active t) (set_disabled_user_tools (without name (disabled_user_tools t)) t)
  else set_active (without name <$> active t) (set_disabled_user_tools (with_name name (disabled_user_tools t)) t).
Definition update_store (key : string) (value : json) (t : ToolsState) : ToolsState :=
  if String.eqb key "todo" && bool_decide (parse_todo_items value = None) then t
  else set_store (<[key := value]> (store t)) t.

(** *** The todo list and its checkpoints *)

Definition push_checkpoint (t : ToolsState) : ToolsState :=
  set_todo_checkpoints (todo_checkpoints t ++ [default (JArr []) (store t !! "todo")]) t.
Definition pop_checkpoint (count : nat) (t : ToolsState) : ToolsState :=
  if ((0 <? count) && (count <=? length (todo_checkpoints t)))%nat then
    let idx := (length (todo_checkpoints t) - count)%nat in
    set_todo_checkpoints (take idx (todo_checkpoints t))
      (match todo_checkpoints t !! idx with Some restored => set_store (<["todo" := restored]> (store t)) t | None => t end)
  else t.

(** ** The other domains *)

Definition token_field (key : string) (usage : json) : Z := default 0 (jget key usage ≫= as_u64).
Definition read_counts (usage : json) : TokenCounts :=
  mkCounts (token_field "inputTokens" usage) (token_field "outputTokens" usage) (token_field "cacheReadTokens" usage)
    (token_field "cacheCreationTokens" usage).
Definition add_counts (a b : TokenCounts) : TokenCounts :=
  mkCounts (wrap_u64 (input_tokens a + input_tokens b)) (wrap_u64 (output_tokens a + output_tokens b))
    (wrap_u64 (cache_read_tokens a + cache_read_tokens b)) (wrap_u64 (cache_creation_tokens a + cache_creation_tokens b)).
#[export] Instance counts_eq_dec : EqDecision TokenCounts.
Proof. solve_decision. Defined.
Definition record_usage (c : TokenCounts) (u : UsageState) : UsageState :=
  mkUsage (add_counts (totals u) c)
    (match first_call u with
     | Some first => Some first
     | None => if decide (totals u = no_counts) then Some c else None
     end).

Definition update_goal (goal_id' status' : option string) (turns_used' tokens_used' : option Z) (budget_limits' : option json)
  (g : GoalState) : GoalState :=
  mkGoal (default (goal_id g) goal_id') (objective g) (completion_criterion g) (default (status g) status')
    (match turns_used' with Some n => Some n | None => turns_used g end)
    (match tokens_used' with Some n => Some n | None => tokens_used g end)
    (match budget_limits' with Some b => Some b | None => budget_limits g end).
Definition goal_event (status : string) (reason : option string) : DomainEvent.t :=
  if String.eqb status "paused" then DomainEvent.GoalPaused (default "" reason)
  else if String.eqb status "resumed" then DomainEvent.GoalResumed
  else if String.eqb status "completed" then DomainEvent.GoalCompleted
  else if String.eqb status "blocked" then DomainEvent.GoalBlocked (default "" reason)
  else DomainEvent.GoalUpdated status.

Definition turn_ended (turn_id : Z) (reason : string) (error : option json) : DomainEvent.t :=
  if String.eqb reason "cancelled" then DomainEvent.TurnCancelled turn_id reason
  else if String.eqb reason "stalled"
  then DomainEvent.TurnFailed turn_id "turn stalled: no progress within the inactivity window"
  else if String.eqb reason "failed" then DomainEvent.TurnFailed turn_id (default "" (error ≫= as_str))
  else DomainEvent.TurnCompleted turn_id.

Definition park_interruption (turn_id : Z) (target reason : option string) (pending : list Z) : list Z :=
  if bool_decide (target = Some "active") && bool_decide (reason = Some "user_cancelled") &&
     negb (bool_decide (turn_id ∈ pending))
  then merge_sort Z.le (pending ++ [turn_id]) else pending.

(** ** The fold *)

Definition apply_with_limits (replay_limits : option ReplayLimits) (op : WireOp.t) (s : AgentState)
  : AgentState * list DomainEvent.t :=
  match op with
  | WireOp.ContextAppendMessage message =>
    let s := on_conversation (append_message message) s in
    let s := if is_undo_anchor_message message then on_tools push_checkpoint s else s in
    (s, [DomainEvent.MessageAdded (default "" (str_field "role" message))])
  | WireOp.ContextAppendLoopEvent event =>
    (on_conversation (append_loop_event event) s, [DomainEvent.LoopEventAdded (default "" (str_field "type" event))])
  | WireOp.ContextClear =>
    (on_tools (set_todo_checkpoints []) (on_conversation cleared s), [DomainEvent.ContextCleared])
  | WireOp.ContextApplyCompaction r =>
    (on_tools (set_todo_checkpoints []) (on_conversation (compact replay_limits r) s),
     [DomainEvent.CompactionApplied (wrap_u32 (default 0 (tokens_before r)))])
  | WireOp.ContextUndo count =>
    (on_tools (pop_checkpoint count) (on_conversation (undo_messages count) s), [DomainEvent.ContextUndone count])
  | WireOp.TurnPrompt _ _ =>
    let counter := wrap_u64 (turn_counter s + 1) in
    (set_turn_counter counter s, [DomainEvent.TurnStarted counter])
  | WireOp.TurnSteer input origin =>
    (set_steer_pending (steer_pending s ++ [JObj [("input", input); ("origin", origin)]]) s, [])
  | WireOp.TurnSteerFlushed count => (set_steer_pending (drop count (steer_pending s)) s, [])
  | WireOp.TurnCancel (Some turn_id) target reason =>
    (set_interruption_pending (park_interruption turn_id target reason (interruption_pending s)) s,
     [DomainEvent.TurnCancelled turn_id (default "" reason)])
  | WireOp.TurnCancel None _ _ => (s, [])
  | WireOp.TurnEnded turn_id reason error => (s, [turn_ended turn_id reason error])
  | WireOp.GoalCreate goal_id objective criterion status limits =>
    (set_goal (Some (mkGoal goal_id objective criterion (default "active" status) None None limits)) s,
     [DomainEvent.GoalStarted objective])
  | WireOp.GoalUpdate goal_id status reason turns_used tokens_used limits =>
    (set_goal (update_goal goal_id status turns_used tokens_used limits <$> goal s) s,
     match status with Some status => [goal_event status reason] | None => [] end)
  | WireOp.GoalClear => (set_goal None s, [DomainEvent.GoalCleared])
  | WireOp.PermissionSetMode new_mode =>
    (set_permission (mkPermission new_mode (session_approval_patterns (permission s))) s,
     [DomainEvent.PermissionModeChanged (mode (permission s)) new_mode])
  | WireOp.PermissionRecordApprovalResult record =>
    (match derive_session_approval_pattern record with
     | Some pattern =>
       set_permission (mkPermission (mode (permission s)) (with_name pattern (session_approval_patterns (permission s)))) s
     | None => s
     end, [])
  | WireOp.UsageRecord model usage' =>
    let c := read_counts usage' in
    (set_usage (record_usage c (usage s)) s,
     [DomainEvent.UsageRecorded model (input_tokens c) (output_tokens c) (cache_read_tokens c) (cache_creation_tokens c)])
  | WireOp.PlanModeEnter id text =>
    let s := set_plan_mode (Some id) s in
    (match text with Some text => set_plan_text (Some text) s | None => s end, [DomainEvent.PlanModeEntered id])
  | WireOp.PlanModeExit => (set_plan_mode None s, [DomainEvent.PlanModeExited])
  | WireOp.PlanModeCancel => (set_plan_text None (set_plan_mode None s), [DomainEvent.PlanModeCancelled])
  | WireOp.PlanRevision id version text =>
    (match text with Some text => set_plan_text (Some text) s | None => s end, [DomainEvent.PlanRevision id version])
  | WireOp.ProfileBind alias name names =>
    let s := match name with Some name => set_profile_name (Some name) s | None => s end in
    let s := match alias with Some alias => set_model (Some alias) s | None => s end in
    (on_tools (set_active names) s, match name with Some name => [DomainEvent.ProfileBound name] | None => [] end)
  | WireOp.ConfigUpdate alias name =>
    let s := match name with Some name => set_profile_name (Some name) s | None => s end in
    (match alias with Some alias => set_model (Some alias) s | None => s end, [DomainEvent.ConfigUpdated alias])
  | WireOp.ToolsSetActiveTools names =>
    (on_tools (fun t => set_disabled_user_tools [] (set_active (Some names) t)) s, [])
  | WireOp.ToolsResetActiveTools => (on_tools (fun t => set_disabled_user_tools [] (set_active None t)) s, [])
  | WireOp.ToolsRegisterUserTool registration => (on_tools (register_user_tool registration) s, [])
  | WireOp.ToolsUnregisterUserTool name => (on_tools (unregister_user_tool name) s, [])
  | WireOp.ToolsSetUserToolEnabled name enabled => (on_tools (set_user_tool_enabled name enabled) s, [])
  | WireOp.ToolsUpdateStore key value => (on_tools (update_store key value) s, [])
  | WireOp.SubagentRegistered registration =>
    (set_subagents (upsert (fun r => String.eqb (agent_id r) (agent_id registration)) registration (subagents s)) s, [])
  | WireOp.McpToolsDiscovered server_name tools' =>
    (s, [DomainEvent.McpToolsDiscovered server_name
           (match tools' with JArr a => wrap_u32 (Z.of_nat (length a)) | _ => 0 end)])
  | WireOp.FullCompactionBegin data =>
    (s, [DomainEvent.CompactionStarted (token_field "fromOp" data) (token_field "messageCount" data)])
  | WireOp.FullCompactionComplete => (s, [DomainEvent.CompactionCompleted])
  | WireOp.FullCompactionCancel => (s, [DomainEvent.CompactionFailed "cancelled"])
  | WireOp.TaskStarted info =>
    (s, [DomainEvent.BackgroundTaskStarted (default "" (str_field "taskId" info)) (default "" (str_field "description" info))])
  | WireOp.TaskTerminated info =>
    (s, [DomainEvent.BackgroundTaskCompleted (default "" (str_field "taskId" info))
           (wrap_i32 <$> (jget "exitCode" info ≫= as_i64))])
  | WireOp.Cron op =>
    let '(c, events) := CronReplay.reduce (cron s) op in (set_cron c s, DomainEvent.Cron <$> events)
  | WireOp.CollaborationStart session_id task => (s, [DomainEvent.CollaborationSessionStarted session_id task])
  | WireOp.CollaborationEnd session_id => (s, [DomainEvent.CollaborationSessionEnded session_id])
  | WireOp.CollaborationMessage session_id message =>
    (s, [DomainEvent.CollaborationMessageSent session_id (str_field "from" message)])
  | WireOp.RequestHeaderChanged reason =>
    let count := match request_header s with Some header => change_count header | None => 0 end in
    (set_request_header (Some (mkHeader (wrap_u64 (count + 1)) reason)) s, [DomainEvent.RequestHeaderChanged reason])
  | WireOp.InterruptionReminderRecorded turn_id =>
    (set_interruption_pending (filter (fun id => id <> turn_id) (interruption_pending s)) s, [])
  | WireOp.SwarmModeEnter trigger => (set_swarm_trigger (Some trigger) s, [])
  | WireOp.SwarmModeExit => (on_conversation retract_swarm_reminder (set_swarm_trigger None s), [])
  | WireOp.Other => (s, [])
  end.

Definition reduce : WireOp.t -> AgentState -> AgentState * list DomainEvent.t := apply_with_limits None.

(** A whole log, from an empty session *)
Definition fold_log (replay_limits : option ReplayLimits) (log : list WireOp.t) (s : AgentState) : AgentState :=
  foldl (fun s op => fst (apply_with_limits replay_limits op s)) s log.
