(* ===== verification/SessionOrder.v ===== *)
(** * The order of a session's records: the invariant of [ConversationState::timeline]
      and [timeline_covers_entries] of [session/replay.rs]

    The timeline of a folded conversation names every message once, in order; it
    names every loop event in order, all of them unless an undo cut some off. *)
From stdpp Require Import gmap list strings sorting.
From S2P Require Import Prelude RustStd Json CronReplay Materialize CompactionFold SessionState.
#[local] Open Scope string_scope.
#[local] Open Scope list_scope.

(** ** The reader's check *)

(** A place is taken once. *)
Definition cover (covered : list bool) (index : nat) : option (list bool) :=
  match covered !! index with Some false => Some (<[index := true]> covered) | _ => None end.

Definition cover_entry (covered : list bool * list bool) (entry : TimelineEntry) : option (list bool * list bool) :=
  let '(messages_covered, events_covered) := covered in
  match entry with
  | TMessage index => (fun m => (m, events_covered)) <$> cover messages_covered index
  | TLoopEvent index => (fun e => (messages_covered, e)) <$> cover events_covered index
  end.

Fixpoint cover_all (covered : list bool * list bool) (tl : list TimelineEntry) : option (list bool * list bool) :=
  match tl with
  | [] => Some covered
  | entry :: tl => covered ← cover_entry covered entry; cover_all covered tl
  end.

Definition timeline_covers_entries (c : ConversationState) : bool :=
  match timeline c with
  | [] => false
  | tl => match cover_all (replicate (length (messages c)) false, replicate (length (loop_events c)) false) tl with
          | Some (messages_covered, events_covered) => forallb id messages_covered && forallb id events_covered
          | None => false
          end
  end.

(** The order in which the entries are replayed *)
Definition replay_order (c : ConversationState) : list TimelineEntry :=
  if timeline_covers_entries c then timeline c
  else (TMessage <$> seq 0 (length (messages c))) ++ (TLoopEvent <$> seq 0 (length (loop_events c))).

(** ** The invariant *)

Definition message_index (entry : TimelineEntry) : option nat :=
  match entry with TMessage index => Some index | TLoopEvent _ => None end.
Definition event_index (entry : TimelineEntry) : option nat :=
  match entry with TMessage _ => None | TLoopEvent index => Some index end.
Notation message_indices tl := (omap message_index tl).
Notation event_indices tl := (omap event_index tl).

Definition in_order (c : ConversationState) : Prop :=
  message_indices (timeline c) = seq 0 (length (messages c)) /\
  (event_indices (timeline c)) `sublist_of` seq 0 (length (loop_events c)).
Definition complete (c : ConversationState) : Prop :=
  message_indices (timeline c) = seq 0 (length (messages c)) /\
  event_indices (timeline c) = seq 0 (length (loop_events c)).

Lemma complete_in_order c : complete c -> in_order c.
Proof. intros [H1 H2]. split; [done|]. by rewrite H2. Qed.

Lemma seq_snoc n : seq 0 (S n) = seq 0 n ++ [n].
Proof. apply seq_S. Qed.

Lemma append_message_in_order m c : in_order c -> in_order (append_message m c).
Proof.
  intros [H1 H2]. split; simpl; rewrite omap_app; simpl.
  - by rewrite H1, length_app, Nat.add_1_r, seq_snoc.
  - by rewrite app_nil_r.
Qed.
Lemma append_loop_event_in_order e c : in_order c -> in_order (append_loop_event e c).
Proof.
  intros [H1 H2]. split; simpl; rewrite omap_app; simpl.
  - by rewrite app_nil_r.
  - rewrite length_app, Nat.add_1_r, seq_snoc. by apply sublist_app.
Qed.
Lemma append_message_complete m c : complete c -> complete (append_message m c).
Proof.
  intros [H1 H2]. split; simpl; rewrite omap_app; simpl.
  - by rewrite H1, length_app, Nat.add_1_r, seq_snoc.
  - by rewrite app_nil_r.
Qed.
Lemma append_loop_event_complete e c : complete c -> complete (append_loop_event e c).
Proof.
  intros [H1 H2]. split; simpl; rewrite omap_app; simpl.
  - by rewrite app_nil_r.
  - by rewrite H2, length_app, Nat.add_1_r, seq_snoc.
Qed.

(** *** A rebuilt conversation is complete. *)

Definition built (r : Rebuilt) : Prop := complete (install r new_conversation).

Lemma install_complete r c : built r -> complete (install r c).
Proof. done. Qed.
Lemma nothing_built : built nothing.
Proof. done. Qed.
Lemma push_message_built raw r : built r -> built (push_message raw r).
Proof. exact (append_message_complete raw (install r new_conversation)). Qed.
Lemma push_event_built raw r : built r -> built (push_event raw r).
Proof. exact (append_loop_event_complete raw (install r new_conversation)). Qed.
#[export] Hint Resolve nothing_built push_message_built push_event_built install_complete : order.

Lemma keep_tail_built c layout start offset r : built r -> built (keep_tail c layout start offset r).
Proof.
  unfold keep_tail. generalize (placed layout). intros places. revert r.
  induction places as [|[pos wire] places IH]; intros r Hr; [done|]. simpl. apply IH. unfold keep_entry.
  destruct (_ <? _)%nat; [done|]. destruct (timeline c !! wire) as [[i|i]|]; [| |done].
  - destruct (messages c !! i); auto with order.
  - destruct (loop_events c !! i); auto with order.
Qed.

Lemma head_essence_built c layout start offset places n r :
  built r -> built (head_essence c layout start offset n places r).
Proof.
  revert n r. induction places as [|[pos wire] places IH]; intros n r Hr; [done|]. simpl.
  destruct (_ || _); [done|]. destruct (match timeline c !! wire with Some _ => _ | None => _ end); [|by apply IH].
  destruct (real_user _); apply IH; auto with order.
Qed.
#[export] Hint Resolve keep_tail_built head_essence_built : order.

Lemma message_indices_messages (l : list nat) : message_indices (TMessage <$> l) = l.
Proof. induction l as [|i l IH]; [done|]. simpl. by f_equal. Qed.
Lemma event_indices_messages (l : list nat) : event_indices (TMessage <$> l) = @nil nat.
Proof. by induction l. Qed.

Lemma compact_complete limits r c : complete (compact limits r c).
Proof.
  assert (Hc : forall c', complete (cleared c')) by done.
  unfold compact. set (c' := mkConversation _ _ _ _ _ _). generalize c'. clear c c'. intros c.
  destruct (retained_tail_count r) as [tail|].
  - destruct (kept_head_user_message_count r) as [head|]; [|done]. unfold reconstruct_compacted_conversation.
    destruct (_ =? _)%nat; [done|]. destruct (_ <? _)%nat; [done|]. destruct (gap_offsets _ _ _ _) as [a b].
    destruct (elision_message r); unfold push_summary; auto 9 with order.
  - destruct (kept_user_message_count r) as [kept|].
    + unfold reconstruct_ts_newer_compaction. destruct (kept_head_user_message_count r);
        (split; cbn [set_entries timeline messages loop_events]; [apply message_indices_messages|apply event_indices_messages]).
    + unfold reconstruct_ts_legacy_compaction, push_summary. auto 9 with order.
Qed.

(** *** Cutting the tail *)

Lemma cut_at_sublist {A} (p : A -> bool) l : cut_at p l `sublist_of` l.
Proof.
  induction l as [|a l IH]; [done|]. simpl. destruct (p a); [apply sublist_nil_l|]. by constructor.
Qed.
Lemma cut_at_messages n k tl :
  forall len, message_indices tl = seq k len ->
  message_indices (cut_at (message_from n) tl) = take (n - k) (seq k len).
Proof.
  revert k. induction tl as [|[i|i] tl IH]; intros k len H; simpl in *.
  - destruct len; [|done]. by destruct (n - k)%nat.
  - destruct len as [|len]; [done|]. cbn [seq] in H. injection H as -> H. cbn [seq].
    destruct (Nat.leb_spec n k).
    + by rewrite (proj2 (Nat.sub_0_le n k)).
    + replace (n - k)%nat with (S (n - S k)) by lia. simpl. f_equal. exact (IH (S k) len H).
  - by apply IH.
Qed.
Lemma omap_sublist {A B} (f : A -> option B) l k : l `sublist_of` k -> omap f l `sublist_of` omap f k.
Proof.
  induction 1 as [|x l k Hs IH|x l k Hs IH]; simpl; [done| |]; destruct (f x); try done; by constructor.
Qed.

Lemma undo_in_order count c : in_order c -> in_order (undo_messages count c).
Proof.
  intros [H1 H2]. unfold undo_messages. destruct (Nat.leb_spec count (length (messages c))); [|done]. split; simpl.
  - rewrite (cut_at_messages _ 0 _ _ H1), Nat.sub_0_r, take_seq, length_take. done.
  - etrans; [|exact H2]. apply omap_sublist, cut_at_sublist.
Qed.

Lemma remove_last_none {A} (p : A -> bool) l : existsb p l = false -> remove_last p l = l.
Proof.
  induction l as [|a l IH]; [done|]. simpl. rewrite orb_false_iff. intros [-> ->]. done.
Qed.
Lemma message_indices_cons entry tl :
  message_indices (entry :: tl) = match entry with TMessage i => i :: message_indices tl | TLoopEvent _ => message_indices tl end.
Proof. by destruct entry. Qed.
Lemma event_indices_cons entry tl :
  event_indices (entry :: tl) = match entry with TMessage _ => event_indices tl | TLoopEvent i => i :: event_indices tl end.
Proof. by destruct entry. Qed.

Lemma existsb_message n tl : existsb (is_message n) tl = bool_decide (n ∈ message_indices tl).
Proof.
  induction tl as [|[i|i] tl IH]; [done| |]; cbn [existsb]; rewrite IH, message_indices_cons; [|done]. cbn [is_message].
  destruct (Nat.eqb_spec i n) as [->|Hi]; symmetry; [apply bool_decide_eq_true; set_solver|].
  simpl. apply bool_decide_ext. set_solver.
Qed.
Lemma remove_last_messages k n tl :
  message_indices tl = seq k (S n) -> message_indices (remove_last (is_message (k + n)) tl) = seq k n /\
  event_indices (remove_last (is_message (k + n)) tl) = event_indices tl.
Proof.
  revert k n. induction tl as [|[i|i] tl IH]; intros k n H; [done| |]; rewrite message_indices_cons in H;
    cbn [remove_last]; rewrite existsb_message.
  - cbn [seq] in H. injection H as -> H. rewrite H. destruct n as [|n].
    + rewrite bool_decide_eq_false_2 by apply not_elem_of_nil. cbn [is_message]. rewrite Nat.add_0_r, Nat.eqb_refl. done.
    + rewrite bool_decide_eq_true_2 by (rewrite elem_of_seq; lia). rewrite message_indices_cons, !event_indices_cons.
      rewrite Nat.add_succ_r. destruct (IH (S k) n H) as [E1 E2]. simpl in E1, E2. rewrite E1. done.
  - rewrite H, bool_decide_eq_true_2 by (rewrite elem_of_seq; lia). rewrite message_indices_cons, !event_indices_cons.
    destruct (IH k n H) as [E1 E2]. by rewrite E1, E2.
Qed.

Lemma retract_orders c :
  message_indices (timeline c) = seq 0 (length (messages c)) ->
  let c' := retract_swarm_reminder c in
  message_indices (timeline c') = seq 0 (length (messages c')) /\ event_indices (timeline c') = event_indices (timeline c) /\
  loop_events c' = loop_events c.
Proof.
  intros H. unfold retract_swarm_reminder. destruct (last (messages c)) as [msg|] eqn:Hl; [|done].
  destruct (is_swarm_enter_reminder msg); [|done]. simpl.
  apply last_Some in Hl as [ms Hms]. rewrite Hms, length_app in *. simpl in *. rewrite Nat.add_1_r in H.
  replace (length ms + 1 - 1)%nat with (length ms) by lia.
  destruct (remove_last_messages 0 (length ms) (timeline c) H) as [E1 E2]. simpl in E1, E2.
  rewrite E1, E2, take_app_length. done.
Qed.

(** *** Every operation *)

Definition is_undo (op : WireOp.t) : Prop := match op with WireOp.ContextUndo _ => True | _ => False end.

Lemma conversation_frame limits op s :
  match op with
  | WireOp.ContextAppendMessage _ | WireOp.ContextAppendLoopEvent _ | WireOp.ContextClear
  | WireOp.ContextApplyCompaction _ | WireOp.ContextUndo _ | WireOp.SwarmModeExit => True
  | _ => conversation (fst (apply_with_limits limits op s)) = conversation s
  end.
Proof.
  destruct op; try exact I; try reflexivity; simpl.
  - by destruct turn_id.
  - by destruct plan_text.
  - by destruct plan_text.
  - by destruct profile_name, model_alias.
  - by destruct profile_name, model_alias.
  - by destruct (derive_session_approval_pattern record).
  - by destruct (CronReplay.reduce (cron s) op).
Qed.

Lemma apply_in_order limits op s :
  in_order (conversation s) -> in_order (conversation (fst (apply_with_limits limits op s))).
Proof.
  intros H. pose proof (conversation_frame limits op s) as Hf.
  destruct op; try (by rewrite Hf); clear Hf; simpl.
  - destruct (is_undo_anchor_message message); by apply append_message_in_order.
  - by apply append_loop_event_in_order.
  - done.
  - apply complete_in_order, compact_complete.
  - by apply undo_in_order.
  - destruct (retract_orders (conversation s)) as (E1 & E2 & E3); [apply H|]. split; [done|]. rewrite E2, E3. apply H.
Qed.
Lemma apply_complete limits op s :
  ~ is_undo op -> complete (conversation s) -> complete (conversation (fst (apply_with_limits limits op s))).
Proof.
  intros Hu H. pose proof (conversation_frame limits op s) as Hf.
  destruct op; try (by rewrite Hf); clear Hf; simpl.
  - destruct (is_undo_anchor_message message); by apply append_message_complete.
  - by apply append_loop_event_complete.
  - done.
  - apply compact_complete.
  - by destruct Hu.
  - destruct (retract_orders (conversation s)) as (E1 & E2 & E3); [apply H|]. split; [done|]. rewrite E2, E3. apply H.
Qed.

Lemma fold_in_order limits log s : in_order (conversation s) -> in_order (conversation (fold_log limits log s)).
Proof. revert s. induction log as [|op log IH]; intros s H; [done|]. by apply IH, apply_in_order. Qed.
Lemma fold_complete limits log s :
  Forall (fun op => ~ is_undo op) log -> complete (conversation s) -> complete (conversation (fold_log limits log s)).
Proof.
  intros Hl. revert s. induction Hl as [|op log Hop _ IH]; intros s H; [done|]. by apply IH, apply_complete.
Qed.

(** ** The check finds the complete timelines *)

Fixpoint cover_list (covered : list bool) (indices : list nat) : option (list bool) :=
  match indices with [] => Some covered | index :: indices => covered ← cover covered index; cover_list covered indices end.

Lemma cover_all_lists ms es tl :
  cover_all (ms, es) tl =
  ms ← cover_list ms (message_indices tl); es ← cover_list es (event_indices tl); Some (ms, es).
Proof.
  revert ms es. induction tl as [|[i|i] tl IH]; intros ms es; [done| |]; cbn [cover_all cover_entry];
    rewrite message_indices_cons, event_indices_cons; cbn [cover_list].
  - destruct (cover ms i); simpl; [apply IH|done].
  - destruct (cover es i); simpl; [apply IH|]. by destruct (cover_list ms _).
Qed.

Lemma cover_list_spec covered indices :
  NoDup indices -> (forall i, i ∈ indices -> covered !! i = Some false) ->
  exists covered', cover_list covered indices = Some covered' /\ length covered' = length covered /\
    forall i, covered' !! i = if decide (i ∈ indices) then Some true else covered !! i.
Proof.
  revert covered. induction indices as [|i indices IH]; intros covered Hn Hf.
  - by exists covered.
  - apply NoDup_cons in Hn as [Hi Hn]. cbn [cover_list]. unfold cover. rewrite (Hf i) by set_solver. simpl.
    destruct (IH (<[i := true]> covered) Hn) as (covered' & E & El & Es).
    { intros j Hj. rewrite list_lookup_insert_ne by set_solver. apply Hf. set_solver. }
    exists covered'. split; [done|]. split; [by rewrite El, length_insert|]. intros j. rewrite Es.
    destruct (decide (j = i)) as [->|Hj].
    + rewrite decide_False by done. rewrite decide_True by set_solver. apply list_lookup_insert_eq.
      apply lookup_lt_Some with false, Hf. set_solver.
    + rewrite list_lookup_insert_ne by done. do 2 case_decide; try done; set_solver.
Qed.

Lemma sublist_full {A} (l k : list A) : l `sublist_of` k -> (length k <= length l)%nat -> l = k.
Proof.
  induction 1 as [|x l k Hs IH|x l k Hs IH]; simpl; intros Hl; [done|f_equal; apply IH; lia|].
  apply sublist_length in Hs. lia.
Qed.

Lemma cover_list_full n indices :
  indices `sublist_of` seq 0 n ->
  exists covered, cover_list (replicate n false) indices = Some covered /\
    (forallb id covered = true <-> indices = seq 0 n).
Proof.
  intros Hs. destruct (cover_list_spec (replicate n false) indices) as (covered & E & El & Ei).
  { exact (sublist_NoDup _ _ (NoDup_seq 0 n) Hs). }
  { intros i Hi. apply lookup_replicate_2. apply (elem_of_sublist _ _ _ Hi) in Hs. apply elem_of_seq in Hs. lia. }
  exists covered. split; [done|].
  assert (Hall : forallb id covered = true <-> forall i b, covered !! i = Some b -> b = true).
  { rewrite forallb_forall. setoid_rewrite <- list_elem_of_In. setoid_rewrite list_elem_of_lookup. naive_solver. }
  rewrite Hall. setoid_rewrite Ei. rewrite length_replicate in El. clear Hall. split.
  - intros Hall. apply sublist_full; [done|]. apply submseteq_length, NoDup_submseteq; [apply NoDup_seq|].
    intros i Hi. apply elem_of_seq in Hi. specialize (Hall i false). case_decide as Hd; [done|].
    discriminate Hall. apply lookup_replicate_2. lia.
  - intros ->. intros i b. case_decide as Hd; [by intros [= <-]|].
    intros Hb%lookup_replicate_1. destruct Hd. apply elem_of_seq. lia.
Qed.

Lemma covers_complete c :
  in_order c -> timeline_covers_entries c = true <-> timeline c <> [] /\ complete c.
Proof.
  intros [H1 H2]. unfold timeline_covers_entries. destruct (timeline c) as [|entry tl] eqn:Ht; [naive_solver|].
  rewrite cover_all_lists. destruct (cover_list_full (length (messages c)) (message_indices (entry :: tl))) as (ms & -> & Hm);
    [by rewrite H1|]. destruct (cover_list_full _ _ H2) as (es & -> & He). simpl.
  rewrite andb_true_iff, Hm, He. unfold complete. rewrite Ht. naive_solver.
Qed.

Lemma complete_replay_order c : complete c -> replay_order c = timeline c.
Proof.
  intros Hc. unfold replay_order. destruct (timeline_covers_entries c) eqn:E; [done|].
  destruct (timeline c) as [|entry tl] eqn:Ht.
  - destruct Hc as [H1 H2]. rewrite Ht in H1, H2. simpl in H1, H2. by rewrite <- H1, <- H2.
  - rewrite (proj2 (covers_complete c (complete_in_order c Hc))) in E; [done|]. by rewrite Ht.
Qed.

Lemma incomplete_replay_order c :
  in_order c -> ~ complete c ->
  replay_order c = (TMessage <$> seq 0 (length (messages c))) ++ (TLoopEvent <$> seq 0 (length (loop_events c))).
Proof.
  intros Ho Hc. unfold replay_order. destruct (timeline_covers_entries c) eqn:E; [|done].
  apply (covers_complete c Ho) in E. naive_solver.
Qed.

(** C15. The timeline of a replayed log names every message once and in order and the
    loop events in order; when no undo is in the log it names all of them, and they
    are restored in the order in which they were written. *)
Theorem log_in_order limits log :
  let c := conversation (fold_log limits log new_state) in
  in_order c /\ (Forall (fun op => ~ is_undo op) log -> complete c /\ replay_order c = timeline c).
Proof.
  cbv zeta. split; [by apply fold_in_order|]. intros Hl.
  assert (Hc : complete (conversation (fold_log limits log new_state))) by (by apply fold_complete).
  split; [done|]. by apply complete_replay_order.
Qed.

(** ** Examples *)

Definition ordered_log : list WireOp.t :=
  [WireOp.ContextAppendMessage (JObj [("role", JStr "user"); ("origin", JObj [("kind", JStr "user")])]);
   WireOp.ContextAppendLoopEvent (JObj [("type", JStr "step.begin"); ("uuid", JStr "s1")]);
   WireOp.ContextAppendLoopEvent (JObj [("type", JStr "content.part"); ("uuid", JStr "s1");
     ("part", JObj [("type", JStr "text"); ("text", JStr "one")])]);
   WireOp.ContextApplyCompaction (mkCompactionRecord "S" 1 None None (Some 1%nat) None (Some 1%nat) None None None);
   WireOp.SwarmModeEnter JNull; WireOp.ContextAppendMessage (JObj [("role", JStr "user")])].

Lemma log_in_order_witness :
  replay_order (conversation (fold_log None ordered_log new_state)) =
    [TMessage 0; TMessage 1; TLoopEvent 0; TLoopEvent 1; TMessage 2].
Proof.
  transitivity (timeline (conversation (fold_log None ordered_log new_state))); [|vm_compute; reflexivity].
  apply (log_in_order None ordered_log). repeat constructor; by intros [].
Defined.
