(* ===== verification/SessionReplay.v ===== *)
(** * Restoring the memory of a session: [reconstruct_context_memory] of [session/replay.rs]

    The context memory of a resumed session is rebuilt from the folded state: every
    record is read back and applied in the order of the timeline, and what the log
    left open is closed. *)
From stdpp Require Import gmap list strings sorting.
From S2P Require Import Prelude RustStd F64 Json ToolScheduler Context TokenEstimator Memory LoopWire CronReplay Materialize CompactionFold SessionState SessionOrder.
#[local] Open Scope string_scope.
#[local] Open Scope list_scope.
#[local] Open Scope Z_scope.

Section restoring.
Context `{Hserde : !Serde} (to_string : json -> string).
(** The order in which a set of pending calls is drained *)
Context (drain : gset string -> list string).

Definition append_event (event : LoopEvent.t) (m : ContextMemory) : ContextMemory :=
  Memory.append_loop_event to_string (drain (pending m)) event m.

Definition replay_message (raw : json) (m : ContextMemory) : ContextMemory :=
  match parse_context_message to_string raw with Some message => Memory.append_message message m | None => m end.
Definition replay_event (raw : json) (m : ContextMemory) : ContextMemory :=
  match parse_loop_event raw with Some event => append_event event m | None => m end.

Definition replay_entry (c : ConversationState) (m : ContextMemory) (entry : TimelineEntry) : ContextMemory :=
  match entry with
  | TMessage index => match messages c !! index with Some raw => replay_message raw m | None => m end
  | TLoopEvent index => match loop_events c !! index with Some raw => replay_event raw m | None => m end
  end.

Definition summary_embedded (c : ConversationState) : bool :=
  existsb (fun raw => bool_decide (origin_kind raw = Some "compaction_summary")) (messages c).

(** The memory the replay of the records starts from *)
Definition replay_base (c : ConversationState) : ContextMemory :=
  match Materialize.summary c with
  | Some summary =>
    if summary_embedded c then new_memory
    else Memory.append_message (mkEntry (summary_message summary) 0) new_memory
  | None => new_memory
  end.

(** What the log left open *)
Definition close_open (m : ContextMemory) : ContextMemory :=
  let m := settle_open_steps m in close_pending_tool_results (drain (pending m)) m.

Definition replay_records (c : ConversationState) : ContextMemory :=
  foldl (replay_entry c) (replay_base c) (replay_order c).
Definition reconstruct_context_memory (s : AgentState) : ContextMemory := close_open (replay_records (conversation s)).

(** ** What a log is written from *)

Inductive Recorded : Type :=
| UserMessage (content : list ContentPart) (origin : PromptOrigin)
| Event (event : LoopEvent.t).

Definition recorded_ok (r : Recorded) : Prop :=
  match r with UserMessage content _ => Forall part_ok content | Event event => event_ok event end.
Definition record_op (r : Recorded) : WireOp.t :=
  match r with
  | UserMessage content origin => WireOp.ContextAppendMessage (user_record content origin)
  | Event event => WireOp.ContextAppendLoopEvent (to_wire_value event)
  end.
Definition perform (m : ContextMemory) (r : Recorded) : ContextMemory :=
  match r with
  | UserMessage content origin => Memory.append_message (user_entry content origin) m
  | Event event => append_event event m
  end.
(** What the log keeps of it *)
Definition kept (r : Recorded) : Recorded := match r with Event event => Event (logged event) | _ => r end.

Definition concerns_conversation (op : WireOp.t) : bool :=
  match op with
  | WireOp.ContextAppendMessage _ | WireOp.ContextAppendLoopEvent _ | WireOp.ContextClear
  | WireOp.ContextApplyCompaction _ | WireOp.ContextUndo _ | WireOp.SwarmModeExit => true
  | _ => false
  end.

(** A log in which [rs] was recorded, among operations of the other domains *)
Inductive logs : list Recorded -> list WireOp.t -> Prop :=
| logs_nil : logs [] []
| logs_record r rs log : logs rs log -> logs (r :: rs) (record_op r :: log)
| logs_other op rs log : concerns_conversation op = false -> logs rs log -> logs rs (op :: log).

Lemma frame limits op s :
  concerns_conversation op = false -> conversation (fst (apply_with_limits limits op s)) = conversation s.
Proof. pose proof (conversation_frame limits op s) as H. by destruct op. Qed.

Lemma replay_entries_app c m a b :
  foldl (replay_entry c) m (a ++ b) = foldl (replay_entry c) (foldl (replay_entry c) m a) b.
Proof. apply foldl_app. Qed.

(** More records do not change what the entries so far say. *)
Lemma replay_entry_prefix c c' m entry :
  messages c `prefix_of` messages c' -> loop_events c `prefix_of` loop_events c' ->
  (forall i, entry = TMessage i -> (i < length (messages c))%nat) ->
  (forall i, entry = TLoopEvent i -> (i < length (loop_events c))%nat) ->
  replay_entry c' m entry = replay_entry c m entry.
Proof.
  intros [ms Em] [es Ee] Hm He. destruct entry as [i|i]; simpl.
  - by rewrite Em, lookup_app_l by eauto.
  - by rewrite Ee, lookup_app_l by eauto.
Qed.

Definition within (c : ConversationState) : Prop :=
  Forall (fun entry => match entry with
                       | TMessage i => (i < length (messages c))%nat
                       | TLoopEvent i => (i < length (loop_events c))%nat
                       end) (timeline c).

Lemma complete_within c : complete c -> within c.
Proof.
  intros [H1 H2]. apply Forall_forall. intros entry He. destruct entry as [i|i].
  - assert (Hi : i ∈ message_indices (timeline c)) by (apply list_elem_of_omap; by exists (TMessage i)).
    rewrite H1, elem_of_seq in Hi. lia.
  - assert (Hi : i ∈ event_indices (timeline c)) by (apply list_elem_of_omap; by exists (TLoopEvent i)).
    rewrite H2, elem_of_seq in Hi. lia.
Qed.

Lemma replay_entries_prefix c c' m :
  messages c `prefix_of` messages c' -> loop_events c `prefix_of` loop_events c' -> within c ->
  foldl (replay_entry c') m (timeline c) = foldl (replay_entry c) m (timeline c).
Proof.
  intros Hm He. unfold within. intros Hw. revert m. induction Hw as [|entry tl Hen _ IH]; intros m; [done|]. simpl.
  rewrite (replay_entry_prefix c c') by (naive_solver). apply IH.
Qed.

(** The records of a conversation, applied to a memory *)
Definition replayed (c : ConversationState) (m : ContextMemory) : ContextMemory := foldl (replay_entry c) m (timeline c).

Lemma replayed_message raw c m :
  within c -> replayed (SessionState.append_message raw c) m = replay_message raw (replayed c m).
Proof.
  intros Hw. unfold replayed. simpl. rewrite replay_entries_app.
  rewrite (replay_entries_prefix c) by (try done; by eexists). simpl.
  by rewrite lookup_app_r, Nat.sub_diag by lia.
Qed.
Lemma replayed_event raw c m :
  within c -> replayed (SessionState.append_loop_event raw c) m = replay_event raw (replayed c m).
Proof.
  intros Hw. unfold replayed. simpl. rewrite replay_entries_app.
  rewrite (replay_entries_prefix c) by (try done; by eexists). simpl.
  by rewrite lookup_app_r, Nat.sub_diag by lia.
Qed.

Lemma replayed_record limits r s m :
  recorded_ok r -> complete (conversation s) ->
  let c' := conversation (fst (apply_with_limits limits (record_op r) s)) in
  complete c' /\ replayed c' m = perform (replayed (conversation s) m) (kept r).
Proof.
  intros Hr Hc. pose proof (complete_within _ Hc) as Hw. cbv zeta. split; [apply apply_complete; [destruct r; by intros []|done]|].
  destruct r as [content origin|event]; simpl.
  - assert (E : forall b : bool, conversation (if b then on_tools push_checkpoint (on_conversation
                  (SessionState.append_message (user_record content origin)) s)
                else on_conversation (SessionState.append_message (user_record content origin)) s)
              = SessionState.append_message (user_record content origin) (conversation s)) by (by intros []).
    rewrite E, replayed_message by done. unfold replay_message. by rewrite user_record_read.
  - rewrite replayed_event by done. unfold replay_event. by rewrite event_read_back.
Qed.

Lemma replayed_log limits rs log s m :
  logs rs log -> Forall recorded_ok rs -> complete (conversation s) ->
  let c' := conversation (fold_log limits log s) in
  complete c' /\ replayed c' m = foldl perform (replayed (conversation s) m) (kept <$> rs).
Proof.
  intros Hl. revert s. induction Hl as [|r rs log Hl IH|op rs log Hop Hl IH]; intros s Hr Hc; [done| |].
  - apply Forall_cons in Hr as [Hr Hrs]. destruct (replayed_record limits r s m Hr Hc) as [H1 H2].
    destruct (IH _ Hrs H1) as [H3 H4]. split; [exact H3|]. cbn [fold_log foldl fmap list_fmap]. rewrite <- H2. exact H4.
  - pose proof (frame limits op s Hop) as E. destruct (IH (fst (apply_with_limits limits op s)) Hr) as [H1 H2];
      [by rewrite E|]. split; [exact H1|]. rewrite E in H2. exact H2.
Qed.
End restoring.
