(* ===== verification/SessionTurn.v ===== *)
(** * Resuming a session after a turn

    The log of a turn as it is written, folded by the reducer and read back by the
    replay, restores the memory the turn left. *)
From stdpp Require Import gmap list strings sorting.
From S2P Require Import Prelude RustStd F64 Json ToolScheduler EngineError Context Projector TokenEstimator Memory MemorySound MessagePipeline Provider LlmStream StepRetry TurnTypes TurnLoop TurnLogic TurnReplay LoopWire CronReplay Materialize CompactionFold SessionState SessionOrder SessionReplay.
#[local] Open Scope string_scope.
#[local] Open Scope list_scope.
#[local] Open Scope Z_scope.

(** ** What the recorder of a turn writes *)

Definition usage_to_value (usage : LlmUsage) : json :=
  JObj [("inputTokens", JNum (LlmStream.input_tokens usage)); ("outputTokens", JNum (LlmStream.output_tokens usage));
        ("cacheReadTokens", JNum (LlmStream.cache_read_tokens usage)); ("cacheCreationTokens", JNum (LlmStream.cache_creation_tokens usage))].

Definition session_op (op : TurnTypes.WireOp.t) : SessionState.WireOp.t :=
  match op with
  | TurnTypes.WireOp.ContextAppendLoopEvent event => SessionState.WireOp.ContextAppendLoopEvent (to_wire_value event)
  | TurnTypes.WireOp.ContextAppendReminder text => SessionState.WireOp.ContextAppendMessage (system_reminder_op text)
  | TurnTypes.WireOp.UsageRecord model usage => SessionState.WireOp.UsageRecord model (usage_to_value usage)
  | TurnTypes.WireOp.RequestHeaderChanged reason => SessionState.WireOp.RequestHeaderChanged reason
  end.

Definition recorded_of (op : TurnTypes.WireOp.t) : option Recorded :=
  match op with
  | TurnTypes.WireOp.ContextAppendLoopEvent event => Some (Event event)
  | TurnTypes.WireOp.ContextAppendReminder text => Some (UserMessage [Context.Text (system_reminder_text text)] Injection)
  | _ => None
  end.

Lemma turn_logs ops : logs (omap recorded_of ops) (session_op <$> ops).
Proof.
  induction ops as [|op ops IH]; [constructor|]. destruct op as [event|text|model usage|reason]; cbn [omap list_omap fmap list_fmap recorded_of].
  - by apply (logs_record (Event event)).
  - by apply (logs_record (UserMessage [Context.Text (system_reminder_text text)] Injection)).
  - by apply logs_other.
  - by apply logs_other.
Qed.

Lemma logs_app rs1 log1 rs2 log2 : logs rs1 log1 -> logs rs2 log2 -> logs (rs1 ++ rs2) (log1 ++ log2).
Proof. intros H1 H2. induction H1; [done|by constructor|by constructor]. Qed.

(** What a turn writes is kept as it is: no two texts are joined. *)
Definition plain (r : Recorded) : Prop := recorded_ok r /\ kept r = r.

Section resuming.
Context `{Hserde : !Serde} (to_string : json -> string) (drain : gset string -> list string).

Lemma perform_closed ops m :
  closed_begins (pending m) ops ->
  foldl (perform to_string drain) m (omap recorded_of ops) = TurnReplay.replay to_string ops m.
Proof.
  revert m. induction ops as [|op ops IH]; intros m; [done|]. intros [Hb Hc]. unfold TurnReplay.replay in *.
  destruct op as [event|text|model usage|reason]; cbn [omap list_omap recorded_of foldl replay_op].
  - assert (E : perform to_string drain m (Event event) = Memory.append_loop_event to_string [] event m).
    { destruct event; try done. simpl in Hb. cbn [perform append_event Memory.append_loop_event].
      unfold append_event. simpl. unfold close_pending_tool_results. by rewrite bool_decide_eq_true_2. }
    rewrite <- IH; [by rewrite E|]. destruct (append_event_frame to_string event m) as [-> _]. exact Hc.
  - rewrite <- IH; [reflexivity|]. rewrite reminder_pending. exact Hc.
  - by apply IH.
  - by apply IH.
Qed.

Lemma close_open_closed m : pending m = ∅ -> open_steps m = ∅ -> close_open drain m = m.
Proof.
  intros Hp Ho. unfold close_open, settle_open_steps. rewrite Ho, map_to_list_empty. simpl.
  assert (E : set_open_steps ∅ m = m) by (destruct m; simpl in *; by subst). rewrite E.
  unfold close_pending_tool_results. by rewrite bool_decide_eq_true_2.
Qed.

Lemma no_summary limits rs log s :
  logs rs log -> Materialize.summary (conversation s) = None -> Materialize.summary (conversation (fold_log limits log s)) = None.
Proof.
  intros Hl. revert s. induction Hl as [|r rs log _ IH|op rs log Hop _ IH]; intros s Hs; [done| |]; apply IH.
  - destruct r; simpl; [|done]. by destruct (is_undo_anchor_message _).
  - by rewrite frame.
Qed.

(** A session without compaction, undo or clearing: what is restored. *)
Lemma restored limits rs log :
  logs rs log -> Forall recorded_ok rs ->
  replay_records to_string drain (conversation (fold_log limits log new_state))
  = foldl (perform to_string drain) new_memory (kept <$> rs).
Proof.
  intros Hl Hr.
  destruct (replayed_log to_string drain limits rs log new_state new_memory Hl Hr) as [H1 H2]; [done|].
  unfold replay_records. rewrite (complete_replay_order _ H1). unfold replay_base.
  rewrite (no_summary limits rs log new_state Hl) by done. exact H2.
Qed.

Lemma plain_kept rs : Forall plain rs -> Forall recorded_ok rs /\ kept <$> rs = rs.
Proof.
  induction 1 as [|r rs [H1 H2] _ [IH1 IH2]]; [done|]. split; [by constructor|]. cbn [fmap list_fmap]. rewrite H2. by f_equal.
Qed.
End resuming.

Section theorem.
Context `{Hserde : !Serde} {W : Type} (to_string : json -> string) (to_lowercase : string -> string).
Context (drain : gset string -> list string).
Context (env : Env W) (builders : MessageBuilders) (config : RunTurnConfig).

(** C4. A session without undo, clear or compaction that is resumed after a turn has the
    memory the turn left: the log of the session so far and of the turn, written as
    JSON, folded by the reducer (whatever its capacities) and read back gives that
    memory, with what was left open closed, and the memory itself when no step was left
    open.  It is a turn that starts with no call pending and nothing deferred, in a
    memory that its log describes; whose hooks, provider and tools leave the memory and
    the log to it, apart from injected reminders within the room for deferred messages;
    and session and turn recorded only what the log keeps as it is: counts in their
    width and no output of several text parts, which are joined when they are read
    back.  Without these the statement fails ([undone_answer_restored],
    [cleared_summary_restored]). *)
Theorem turn_resumes limits recorder fuel retries rs0 log0 s :
  logs rs0 log0 -> Forall plain rs0 -> memory s = foldl (perform to_string drain) new_memory rs0 ->
  alone_env env (max_deferred (memory s)) -> wire_recorder env = Some recorder ->
  pending (memory s) = ∅ -> deferred (memory s) = [] ->
  let s' := fst (run_turn W to_string to_lowercase env builders config fuel retries s) in
  forall ops, recorded s' = recorded s ++ ops -> Forall plain (omap recorded_of ops) ->
  let restored := reconstruct_context_memory to_string drain (fold_log limits (log0 ++ (session_op <$> ops)) new_state) in
  restored = close_open drain (memory s') /\ (open_steps (memory s') = ∅ -> restored = memory s').
Proof.
  intros Hl Hp0 Hm Ha Hr Hp Hd s' ops Hops Hplain. cbv zeta.
  destruct (turn_loop_settles to_string to_lowercase env builders config (max_deferred (memory s)) Ha recorder Hr
              (recorded s) (memory s) fuel retries 0 false false no_usage s) as ((ops' & H1 & H2 & H3) & H4 & _).
  { split; [|done]. exists []. by rewrite app_nil_r. }
  rewrite app_nil_r in H2, H3. change (recorded s' = recorded s ++ ops') in H1.
  change (TurnReplay.replay to_string ops' (memory s) = memory s') in H2. change (pending (memory s') = ∅) in H4.
  rewrite H1 in Hops. apply app_inv_head in Hops as ->.
  assert (E : replay_records to_string drain (conversation (fold_log limits (log0 ++ (session_op <$> ops)) new_state)) = memory s').
  { destruct (plain_kept _ Hp0) as [Hok0 Hk0]. destruct (plain_kept _ Hplain) as [Hok Hk].
    rewrite (restored to_string drain limits _ _ (logs_app _ _ _ _ Hl (turn_logs ops))) by (by apply Forall_app).
    rewrite fmap_app, Hk0, Hk, foldl_app, <- Hm, <- H2. by apply perform_closed. }
  unfold reconstruct_context_memory. rewrite E. split; [done|]. intros Ho. by apply close_open_closed.
Qed.
End theorem.

(** ** Examples *)

Lemma alone_more {W} (env : Env W) n k : (n <= k)%nat -> alone_env env n -> alone_env env k.
Proof.
  intros Hn H. split; try apply H. intros triples step w. destruct (a_batch _ _ H triples step w) as (H1 & H2 & H3).
  split_and!; [done|done|lia].
Qed.

(** The sample's turn in a session that begins with a message *)
Definition resumed_before : list Recorded := [UserMessage [Context.Text "hello"] User].
Definition resumed_log : list SessionState.WireOp.t :=
  [SessionState.WireOp.TurnPrompt (JStr "hello") JNull; SessionState.WireOp.ContextAppendMessage (user_record [Context.Text "hello"] User)].
Definition resumed_start : St Script :=
  mkSt Script (mkScript sample_script 0) (foldl (perform no_json elements) new_memory resumed_before) [] [] new_retry_state false [].
Definition resumed_ops : list TurnTypes.WireOp.t :=
  Eval vm_compute in recorded (fst (run_turn Script no_json to_ascii_lowercase script_env script_builders script_config 6 3 resumed_start)).
Lemma resumed_ops_eq :
  recorded (fst (run_turn Script no_json to_ascii_lowercase script_env script_builders script_config 6 3 resumed_start)) = resumed_ops.
Proof. vm_compute. reflexivity. Qed.

Lemma resumed_logs : logs resumed_before resumed_log.
Proof. apply logs_other; [reflexivity|]. apply (logs_record (UserMessage [Context.Text "hello"] User)), logs_nil. Qed.
Lemma resumed_before_plain : Forall plain resumed_before.
Proof. apply Forall_singleton. split; [apply Forall_singleton; exact I|reflexivity]. Qed.
Lemma resumed_plain : Forall plain (omap recorded_of resumed_ops).
Proof.
  cbn [resumed_ops omap list_omap recorded_of]. repeat (apply Forall_cons; split); try apply Forall_nil_2; (split; [|reflexivity]);
    cbn [recorded_ok event_ok output_ok]; try exact I; try (apply Forall_singleton; exact I).
  all: unfold u64_ok, u64_max; lia.
Qed.

Lemma turn_resumes_witness :
  reconstruct_context_memory no_json elements
    (fold_log None (resumed_log ++ (session_op <$> resumed_ops)) new_state)
  = close_open elements
      (memory (fst (run_turn Script no_json to_ascii_lowercase script_env script_builders script_config 6 3 resumed_start))).
Proof.
  destruct (turn_resumes no_json to_ascii_lowercase elements script_env script_builders script_config None (fun _ => quietly tt) 6 3
              resumed_before resumed_log resumed_start resumed_logs resumed_before_plain eq_refl
              (alone_more script_env 1 1000 (proj1 (Nat.leb_le 1 1000) eq_refl) script_alone) eq_refl eq_refl eq_refl
              resumed_ops resumed_ops_eq resumed_plain) as [E _].
  exact E.
Defined.

(** *** Where the restored memory differs from the live one *)

Definition said_texts (m : ContextMemory) : list string :=
  mjoin ((fun e => omap text_of (content (e_message e))) <$> history m).
Definition answer_ops (step_id text : string) : list SessionState.WireOp.t :=
  record_op <$> [Event (LoopEvent.StepBegin step_id None); Event (LoopEvent.ContentPart step_id text);
                 Event (LoopEvent.StepEnd step_id 1 1 0 0)].
Definition prompt_op (text : string) : SessionState.WireOp.t := record_op (UserMessage [Context.Text text] User).
Definition restore (log : list SessionState.WireOp.t) : ContextMemory :=
  reconstruct_context_memory no_json elements (fold_log None log new_state).

(** The empty answer of the sample, before its step is tried again, stays in the live
    memory as an open step. *)
Example empty_attempt_stays :
  let m := memory (fst (run_turn Script no_json to_ascii_lowercase script_env script_builders script_config 6 3 resumed_start)) in
  open_steps m = {[ "step-1" := 5%nat ]} /\
  (fun e => (content (e_message e), partial (e_message e))) <$> (history m !! 5%nat) = Some ([], true).
Proof. vm_compute. done. Qed.

(** An undo in the log cuts the timeline and not the events: the undone answer is
    restored. *)
Example undone_answer_restored :
  said_texts (restore ([prompt_op "a"] ++ answer_ops "s1" "one" ++ [prompt_op "b"] ++ answer_ops "s2" "two")) = ["a"; "one"; "b"; "two"] /\
  said_texts (restore ([prompt_op "a"] ++ answer_ops "s1" "one" ++ [prompt_op "b"] ++ answer_ops "s2" "two" ++
                       [SessionState.WireOp.ContextUndo 1])) = ["a"; "one"; "two"].
Proof. vm_compute. done. Qed.

(** A cleared conversation is restored with the summary of the compaction before. *)
Example cleared_summary_restored :
  said_texts (restore ([prompt_op "a"] ++ answer_ops "s1" "one" ++
    [SessionState.WireOp.ContextApplyCompaction (mkCompactionRecord "the summary" 2 None None None (Some 1%nat) None None None None);
     SessionState.WireOp.ContextClear])) = ["the summary"].
Proof. vm_compute. done. Qed.
