(* ===== verification/Todo.v ===== *)
(** * The todo list of a session: [todo.rs], [tools/todo_list.rs] and [restore_todo_from_state]

    The live list with its undo checkpoints, the tool that writes it, and the
    restore of both from the folded log.  The live list follows the fold. *)
From stdpp Require Import gmap list strings.
From S2P Require Import Prelude RustStd Json Materialize CompactionFold SessionState.
#[local] Open Scope string_scope.
#[local] Open Scope list_scope.

Inductive TodoStatus : Type := Pending | InProgress | Done.
Definition as_str (status : TodoStatus) : string :=
  match status with Pending => "pending" | InProgress => "in_progress" | Done => "done" end.
Definition from_str (value : string) : result string TodoStatus :=
  let other := to_ascii_lowercase value in
  if String.eqb other "pending" then Ok Pending
  else if String.eqb other "in_progress" then Ok InProgress
  else if String.eqb other "done" then Ok Done
  else Err ("invalid todo status '" +:+ other +:+ "' (expected 'pending', 'in_progress', or 'done')").

Record TodoItem : Type := mkTodo { title : string; status : TodoStatus }.
Record TodoList : Type := mkTodoList { items : list TodoItem; checkpoints : list (list TodoItem) }.
Definition new_list : TodoList := mkTodoList [] [].

Definition set (new : list TodoItem) (l : TodoList) : TodoList := mkTodoList new (checkpoints l).
Definition push_items_checkpoint (snapshot : list TodoItem) (l : TodoList) : TodoList :=
  mkTodoList (items l) (checkpoints l ++ [snapshot]).
Definition push_checkpoint (l : TodoList) : TodoList := push_items_checkpoint (items l) l.
Definition clear_checkpoints (l : TodoList) : TodoList := mkTodoList (items l) [].
(** ... and how many depths were applied *)
Definition pop_checkpoint (n : nat) (l : TodoList) : TodoList * nat :=
  if (n =? 0)%nat then (l, 0)%nat
  else if (length (checkpoints l) <? n)%nat then (l, 0)%nat
  else
    let idx := (length (checkpoints l) - n)%nat in
    match checkpoints l !! idx with
    | Some restored => (mkTodoList restored (take idx (checkpoints l)), n)
    | None => (l, 0)%nat
    end.

Definition render_todo_list (l : list TodoItem) : string :=
  match l with
  | [] => "Todo list is empty."
  | _ => String.concat newline
           ("Current todo list:" :: ((fun item => "  [" +:+ as_str (status item) +:+ "] " +:+ title item) <$> l))
  end.

(** ** The tool *)

Definition TODO_LIST_WRITE_REMINDER : string :=
  "Ensure that you continue to use the todo list to track progress. Mark tasks done immediately after finishing them, and keep exactly one task in_progress when work is underway.".

Section tool.
(** [serde_json::Value]'s display *)
Context (display : json -> string).

Definition read_todo (raw_item : json) : result string TodoItem :=
  match str_field "title" raw_item, str_field "status" raw_item with
  | Some title, Some status =>
    match from_str status with
    | Ok status => Ok (mkTodo title status)
    | Err error => Err ("TodoList: " +:+ error)
    end
  | _, _ => Err ("TodoList item missing 'title' or 'status': " +:+ display raw_item)
  end.
Fixpoint read_todos (todos : list json) : result string (list TodoItem) :=
  match todos with
  | [] => Ok []
  | raw_item :: todos =>
    match read_todo raw_item with
    | Err e => Err e
    | Ok item => match read_todos todos with Ok items => Ok (item :: items) | Err e => Err e end
    end
  end.

(** [resolve_execution]: a reading, a writing, or a refusal *)
Inductive TodoExecution : Type := Query | Write (new : list TodoItem) | Refused (error : string).
Definition resolve_execution (input : json) : TodoExecution :=
  match jget "todos" input with
  | None => Query
  | Some (JArr todos) => match read_todos todos with Ok items => Write items | Err e => Refused e end
  | Some _ => Refused "TodoList 'todos' must be an array"
  end.
End tool.

Definition item_to_value (item : TodoItem) : json :=
  JObj [("title", JStr (title item)); ("status", JStr (as_str (status item)))].
Definition update_op (new : list TodoItem) : WireOp.t := WireOp.ToolsUpdateStore "todo" (JArr (item_to_value <$> new)).

(** The execution: the operation it records first, the list and the answer *)
Definition execute (e : TodoExecution) (l : TodoList) : TodoList * list WireOp.t * string :=
  match e with
  | Query => (l, [], render_todo_list (items l))
  | Write new =>
    let l := set new l in
    (l, [update_op new],
     match items l with
     | [] => "Todo list cleared."
     | stored => "Todo list updated." +:+ newline +:+ render_todo_list stored +:+ newline +:+ newline +:+ TODO_LIST_WRITE_REMINDER
     end)
  | Refused error => (l, [], error)
  end.

(** ** The restore *)

Definition item_of (parsed : string * string) : option TodoItem :=
  match from_str parsed.2 with Ok status => Some (mkTodo parsed.1 status) | Err _ => None end.
Definition items_of_value (value : json) : option (list TodoItem) := parse_todo_items value ≫= mapM item_of.

Definition restore_todo_from_state (s : AgentState) (l : TodoList) : TodoList :=
  let l := foldl (fun l checkpoint => match items_of_value checkpoint with
                                      | Some snapshot => push_items_checkpoint snapshot l
                                      | None => l
                                      end) (clear_checkpoints l) (todo_checkpoints (tools s)) in
  match store (tools s) !! "todo" with
  | Some value => match items_of_value value with Some new => set new l | None => l end
  | None => l
  end.

(** ** The live list follows the log. *)

(** A title the fold accepts *)
Definition titled (item : TodoItem) : Prop := title item <> "".

Lemma item_read_back item : titled item -> parse_todo_item (item_to_value item) = Some (title item, as_str (status item)).
Proof.
  destruct item as [t st]. intros Ht. unfold parse_todo_item.
  change (str_field "title" (item_to_value (mkTodo t st))) with (Some t).
  change (str_field "status" (item_to_value (mkTodo t st))) with (Some (as_str st)). simpl.
  destruct (String.eqb_spec t ""); [done|]. destruct st; reflexivity.
Qed.
Lemma items_read_back new : Forall titled new -> items_of_value (JArr (item_to_value <$> new)) = Some new.
Proof.
  intros Hn. unfold items_of_value. cbn [parse_todo_items].
  assert (E : mapM parse_todo_item (item_to_value <$> new) = Some ((fun item => (title item, as_str (status item))) <$> new)).
  { induction Hn as [|item new Hi _ IH]; [done|]. cbn [fmap list_fmap mapM]. rewrite item_read_back by done. simpl.
    by rewrite IH. }
  rewrite E. clear E Hn. simpl. induction new as [|[t st] new IH]; [done|]. cbn [fmap list_fmap mapM].
  assert (E : item_of (t, as_str st) = Some (mkTodo t st)) by (by destruct st). cbn [title status]. rewrite E. simpl.
  by rewrite IH.
Qed.

(** What a folded store and stack say *)
Definition stored_items (t : ToolsState) : option (list TodoItem) :=
  match store t !! "todo" with Some value => items_of_value value | None => Some [] end.
Definition follows (l : TodoList) (t : ToolsState) : Prop :=
  stored_items t = Some (items l) /\ mapM items_of_value (todo_checkpoints t) = Some (checkpoints l).

Lemma items_of_empty : items_of_value (JArr []) = Some [].
Proof. done. Qed.

Lemma restore_follows l s : follows l (tools s) -> restore_todo_from_state s new_list = l.
Proof.
  intros [H1 H2]. unfold restore_todo_from_state, stored_items in *.
  assert (E : forall l0, foldl (fun l checkpoint => match items_of_value checkpoint with
                    | Some snapshot => push_items_checkpoint snapshot l | None => l end) l0 (todo_checkpoints (tools s))
              = mkTodoList (items l0) (checkpoints l0 ++ checkpoints l)).
  { revert H2. generalize (checkpoints l). induction (todo_checkpoints (tools s)) as [|v vs IH]; intros stack Hs l0.
    - injection Hs as <-. rewrite app_nil_r. by destruct l0.
    - apply mapM_Some in Hs. apply Forall2_cons_inv_l in Hs as (x & xs & Hx & Hxs & ->). cbn [foldl]. rewrite Hx.
      apply mapM_Some in Hxs. rewrite (IH xs Hxs). simpl. by rewrite <- app_assoc. }
  rewrite E. destruct l as [its stack]. simpl in *.
  destruct (store (tools s) !! "todo"); [|by injection H1 as <-]. rewrite H1. done.
Qed.

(** *** Operation by operation *)

Lemma update_follows l t new : Forall titled new -> follows l t ->
  follows (set new l) (update_store "todo" (JArr (item_to_value <$> new)) t).
Proof.
  intros Hn [H1 H2]. pose proof (items_read_back new Hn) as E. unfold update_store.
  rewrite String.eqb_refl, bool_decide_eq_false_2; [|intros Hnone; unfold items_of_value in E; by rewrite Hnone in E].
  split; [|done]. unfold stored_items. simpl. by rewrite lookup_insert_eq.
Qed.
Lemma checkpoint_follows l t : follows l t -> follows (push_checkpoint l) (SessionState.push_checkpoint t).
Proof.
  intros [H1 H2]. split; [done|]. simpl. unfold stored_items in H1.
  apply mapM_Some. apply mapM_Some in H2. apply Forall2_app; [done|]. constructor; [|done].
  destruct (store t !! "todo"); exact H1.
Qed.
(** The fold of a recorded undo pops what the live list pops. *)
Lemma pop_follows n l t : follows l t -> follows (fst (pop_checkpoint n l)) (SessionState.pop_checkpoint n t).
Proof.
  intros [H1 H2]. unfold pop_checkpoint, SessionState.pop_checkpoint. apply mapM_Some in H2 as HF.
  rewrite <- (Forall2_length _ _ _ HF). destruct (Nat.eqb_spec n 0) as [->|Hn]; [done|].
  rewrite (proj2 (Nat.ltb_lt 0 n)) by lia. rewrite andb_true_l, (Nat.leb_antisym). destruct (Nat.ltb_spec (length (todo_checkpoints t)) n) as [Hl|Hl]; [done|].
  simpl. set (idx := (length (todo_checkpoints t) - n)%nat).
  assert (Hi : (idx < length (todo_checkpoints t))%nat) by (subst idx; lia).
  destruct (lookup_lt_is_Some_2 _ _ Hi) as [v Hv]. destruct (Forall2_lookup_l _ _ _ _ _ HF Hv) as (snapshot & Hs & Ev).
  rewrite Hv, Hs. split.
  - unfold stored_items. simpl. by rewrite lookup_insert_eq.
  - simpl. apply mapM_Some. by apply Forall2_take.
Qed.
Lemma clear_follows l t : follows l t -> follows (clear_checkpoints l) (set_todo_checkpoints [] t).
Proof. intros [H1 H2]. done. Qed.

(** *** A session *)

Inductive TodoOp : Type :=
| OpTool (input : json)
| OpMessage (message : json)
| OpUndo (count : nat)
| OpClear
| OpCompaction (record : CompactionRecord)
| OpOther (op : WireOp.t).

(** The operations that touch neither the list nor its checkpoints *)
Definition leaves_todo (op : WireOp.t) : bool :=
  match op with
  | WireOp.ContextAppendMessage _ | WireOp.ContextClear | WireOp.ContextApplyCompaction _ | WireOp.ContextUndo _ => false
  | WireOp.ToolsUpdateStore key _ => negb (String.eqb key "todo")
  | _ => true
  end.

(** What the live side does, and what it writes.  [session.undo] pops a
    checkpoint and [session.clearContext] clears the memory, and neither writes
    anything; nothing writes the [context.undo] that the fold knows. *)
Definition live_step (display : json -> string) (op : TodoOp) (l : TodoList) : TodoList * list WireOp.t :=
  match op with
  | OpTool input => fst (execute (resolve_execution display input) l)
  | OpMessage message =>
    (if is_undo_anchor_message message then push_checkpoint l else l, [WireOp.ContextAppendMessage message])
  | OpUndo count => (fst (pop_checkpoint count l), [])
  | OpClear => (l, [])
  | OpCompaction record => (clear_checkpoints l, [WireOp.ContextApplyCompaction record])
  | OpOther op => (l, [op])
  end.
Definition live_run (display : json -> string) (ops : list TodoOp) (l : TodoList) : TodoList * list WireOp.t :=
  foldl (fun '(l, log) op => let '(l', more) := live_step display op l in (l', log ++ more)) (l, []) ops.

Definition op_ok (display : json -> string) (op : TodoOp) : Prop :=
  match op with
  | OpTool input => match resolve_execution display input with Write new => Forall titled new | _ => True end
  | OpOther op => leaves_todo op = true
  | _ => True
  end.

Lemma todo_frame limits op s :
  leaves_todo op = true ->
  store (tools (fst (apply_with_limits limits op s))) !! "todo" = store (tools s) !! "todo" /\
  todo_checkpoints (tools (fst (apply_with_limits limits op s))) = todo_checkpoints (tools s).
Proof.
  destruct op; try discriminate; intros Hl; try (split; reflexivity); simpl.
  - by destruct turn_id.
  - by destruct plan_text.
  - by destruct plan_text.
  - by destruct profile_name, model_alias.
  - by destruct profile_name, model_alias.
  - unfold register_user_tool. by destruct (str_field "name" registration).
  - unfold set_user_tool_enabled. by destruct enabled.
  - unfold update_store. simpl in Hl. apply negb_true_iff in Hl. rewrite Hl. simpl. split; [|done].
    apply lookup_insert_ne. intros ->. by rewrite String.eqb_refl in Hl.
  - by destruct (derive_session_approval_pattern record).
  - by destruct (CronReplay.reduce (cron s) op).
Qed.

(** Everything but an undo *)
Definition recorded (op : TodoOp) : bool := match op with OpUndo _ => false | _ => true end.

Lemma step_follows display limits op l s :
  recorded op = true -> op_ok display op -> follows l (tools s) ->
  follows (fst (live_step display op l)) (tools (fold_log limits (snd (live_step display op l)) s)).
Proof.
  intros Hr Hok H. destruct op as [input|message|count| |record|op]; cbn [live_step]; [| |done|done| |].
  - simpl in Hok. destruct (resolve_execution display input) as [|new|error]; [done| |done].
    cbn [execute fst snd fold_log foldl update_op apply_with_limits]. by apply update_follows.
  - cbn [fst snd fold_log foldl apply_with_limits]. destruct (is_undo_anchor_message message); [|done].
    by apply checkpoint_follows.
  - by apply clear_follows.
  - cbn [fst snd fold_log foldl]. destruct (todo_frame limits op s Hok) as [E1 E2]. destruct H as [H1 H2].
    split; [|by rewrite E2]. unfold stored_items in *. by rewrite E1.
Qed.

Lemma fold_log_app limits a b s : fold_log limits (a ++ b) s = fold_log limits b (fold_log limits a s).
Proof. apply foldl_app. Qed.

(** What is written does not depend on the list. *)
Lemma written_alike display op l l' : snd (live_step display op l) = snd (live_step display op l').
Proof. destruct op as [input| | | | |]; try done. simpl. by destruct (resolve_execution display input). Qed.

Lemma live_run_snoc display ops op l :
  live_run display (ops ++ [op]) l =
  (fst (live_step display op (live_run display ops l).1),
   (live_run display ops l).2 ++ snd (live_step display op (live_run display ops l).1)).
Proof.
  unfold live_run. rewrite foldl_snoc. destruct (foldl _ _ ops) as [l' log]. simpl.
  by destruct (live_step display op l').
Qed.

Lemma all_recorded ops : Forall (fun op => recorded op = true) ops -> filter recorded ops = ops.
Proof. induction 1 as [|op ops Hr _ IH]; [done|]. rewrite filter_cons_True by (by apply Is_true_true). by rewrite IH. Qed.

(** The log of a run is the log of the run without its undos. *)
Lemma log_without_undos display ops l :
  (live_run display ops l).2 = (live_run display (filter recorded ops) l).2.
Proof.
  induction ops as [|op ops IH] using rev_ind; [done|].
  rewrite filter_app, live_run_snoc. cbn [snd]. rewrite IH.
  destruct (recorded op) eqn:Hr.
  - rewrite (list.filter_singleton_True _ op []), live_run_snoc by (by apply Is_true_true). cbn [snd]. f_equal. apply written_alike.
  - rewrite (list.filter_singleton_False _ op []), app_nil_r by (by rewrite Hr; intros []). destruct op; try done. apply app_nil_r.
Qed.

Lemma run_follows display limits ops l s :
  Forall (fun op => recorded op = true) ops -> Forall (op_ok display) ops -> follows l (tools s) ->
  follows (fst (live_run display ops l)) (tools (fold_log limits (snd (live_run display ops l)) s)).
Proof.
  induction ops as [|op ops IH] using rev_ind; [done|]. rewrite !Forall_app, !Forall_singleton.
  intros [Hr Hrop] [Hok Hop] H. rewrite live_run_snoc. cbn [fst snd]. rewrite fold_log_app.
  by apply step_follows; [| |apply IH].
Qed.


(** ** Examples *)

Definition write_input (titles : list string) : json :=
  JObj [("todos", JArr ((fun t => JObj [("title", JStr t); ("status", JStr "Pending")]) <$> titles))].
Definition todo_sample : list TodoOp :=
  [OpTool (write_input ["a"; "b"]); OpMessage (JObj [("role", JStr "user")]); OpTool (write_input ["c"]);
   OpOther (WireOp.ToolsUpdateStore "other" JNull); OpTool (JObj [("todos", JNull)]); OpUndo 1; OpClear;
   OpMessage (JObj [("role", JStr "user")]); OpTool (write_input ["d"])].
Definition todo_sample_list : TodoList :=
  mkTodoList [mkTodo "d" Pending] [[mkTodo "a" Pending; mkTodo "b" Pending]; [mkTodo "c" Pending]].


(** After an undo the session has the list from before; when it is opened
    again it has the undone one. *)
Example undone_list_returns :
  let '(live, log) := live_run (fun _ => "")
    [OpTool (write_input ["a"]); OpMessage (JObj [("role", JStr "user")]); OpTool (write_input ["b"]); OpUndo 1] new_list in
  live = mkTodoList [mkTodo "a" Pending] [] /\
  restore_todo_from_state (fold_log None log new_state) new_list
  = mkTodoList [mkTodo "b" Pending] [[mkTodo "a" Pending]].
Proof. vm_compute. done. Qed.

(** The tool takes an item without a title; the fold does not, and the resumed
    session has the list from before. *)
Example untitled_item_lost :
  let '(live, log) := live_run (fun _ => "") [OpTool (write_input ["a"]); OpTool (write_input [""; "b"])] new_list in
  items live = [mkTodo "" Pending; mkTodo "b" Pending] /\
  items (restore_todo_from_state (fold_log None log new_state) new_list) = [mkTodo "a" Pending].
Proof. vm_compute. done. Qed.
