(* ===== verification/SessionUndo.v ===== *)
(** * Undoing turns: [undo_service.rs] and [dispatch_undo_history] of
      [embedded_server/session_handlers.rs]

    How many turns can be undone, that exactly those are, and what else the undo of a
    session takes back: the todo list, and the delivery of the notifications that went
    with the removed messages. *)
From stdpp Require Import gmap list strings.
From S2P Require Import Prelude RustStd Json ToolScheduler EngineError Context TokenEstimator Memory LoopWire CronReplay Materialize CompactionFold SessionState SessionOrder SessionReplay Todo.
#[local] Open Scope string_scope.
#[local] Open Scope list_scope.

(** ** The undo service *)

Record UndoAvailability : Type := mkAvailability { max_turns : nat; stopped_at_compaction : bool }.

(** The anchors in reach, on the history read backwards, and whether a compaction
    ends them *)
Fixpoint available (backwards : list Entry) : nat * bool :=
  match backwards with
  | [] => (0%nat, false)
  | e :: older =>
    if has_origin Injection e then available older
    else if has_origin CompactionSummary e then (0%nat, true)
    else let '(count, stopped) := available older in ((if is_undo_anchor e then S count else count), stopped)
  end.

Record ConversationUndoService : Type := mkUndoService { is_idle : bool; max_undo_turns : nat }.
Definition availability (service : ConversationUndoService) (m : ContextMemory) : UndoAvailability :=
  let '(count, stopped) := available (reverse (history m)) in mkAvailability (Nat.min count (max_undo_turns service)) stopped.

(** [UndoResult]: the turns undone and whether a compaction limits the rest *)
Definition undo (service : ConversationUndoService) (turns : nat) (m : ContextMemory) : ContextMemory * (nat * bool) :=
  if negb (is_idle service) then (m, (0%nat, false))
  else
    let a := availability service m in
    let to_undo := Nat.min turns (max_turns a) in
    if (to_undo =? 0)%nat then (m, (0%nat, stopped_at_compaction a))
    else match undo_count to_undo m with
         | Ok m => (m, (to_undo, stopped_at_compaction a))
         | Err _ => (m, (0%nat, stopped_at_compaction a))
         end.

(** ** What is undone *)

Lemma walk_none cut_index backwards : undo_walk 0 cut_index backwards = (0%nat, cut_index).
Proof. by destruct backwards. Qed.

Lemma walk_short n cut_index backwards :
  (fst (available backwards) < n)%nat -> fst (undo_walk n cut_index backwards) = (n - fst (available backwards))%nat.
Proof.
  revert n cut_index. induction backwards as [|e older IH]; intros n c; simpl; [lia|].
  destruct (Nat.eqb_spec n 0) as [->|Hn]; [lia|]. destruct (has_origin Injection e); [apply IH|].
  destruct (has_origin CompactionSummary e); [simpl; lia|]. specialize (IH (if is_undo_anchor e then n - 1 else n)%nat).
  destruct (available older) as [count stopped]. simpl in *. destruct (is_undo_anchor e); intros H; rewrite IH; lia.
Qed.

(** The walk stops at the [n]-th anchor; those behind it are still available. *)
Lemma walk_cut n cut_index backwards :
  (0 < n <= fst (available backwards))%nat ->
  exists newer e older, backwards = newer ++ e :: older /\ is_undo_anchor e = true /\
    undo_walk n cut_index backwards = (0%nat, Some (length older)) /\
    fst (available older) = (fst (available backwards) - n)%nat.
Proof.
  revert n cut_index. induction backwards as [|e older IH]; intros n c Hn; simpl in Hn; [lia|]. simpl.
  destruct (Nat.eqb_spec n 0) as [->|_]; [lia|].
  assert (Hskip : forall c', (0 < n <= fst (available older))%nat ->
            exists newer e' older', e :: older = newer ++ e' :: older' /\ is_undo_anchor e' = true /\
              undo_walk n c' older = (0%nat, Some (length older')) /\ fst (available older') = (fst (available older) - n)%nat).
  { intros c' H'. destruct (IH n c' H') as (newer & e' & older' & -> & Ha & Hw & Hv). by exists (e :: newer), e', older'. }
  destruct (has_origin Injection e); [by apply Hskip|]. destruct (has_origin CompactionSummary e); [simpl in Hn; lia|].
  destruct (is_undo_anchor e) eqn:Ea; [|destruct (available older); by apply Hskip].
  destruct (Nat.eq_dec n 1) as [->|Hn1].
  - exists [], e, older. rewrite walk_none. destruct (available older). simpl. split_and!; try done. lia.
  - destruct (IH (n - 1)%nat (Some (length older))) as (newer & e' & older' & E & Ha & Hw & Hv).
    { destruct (available older). simpl in *. lia. }
    exists (e :: newer), e', older'. rewrite Hw, Hv, E. split_and!; try done. destruct (available (newer ++ e' :: older')).
    simpl in *. lia.
Qed.

Lemma available_snoc_hook l e : is_hook_message e = true -> fst (available (l ++ [e])) = fst (available l).
Proof.
  intros He. induction l as [|e' l IH]; simpl.
  - unfold is_hook_message, has_origin, is_undo_anchor in *. apply orb_true_iff in He.
    destruct (origin (e_msg e)) as [o|]; [|by destruct He].
    assert (Ho : o = HookAdditionalContext \/ o = HookResult).
    { destruct He as [He|He]; apply bool_decide_eq_true in He; injection He; auto. }
    by destruct Ho as [-> | ->]; simpl; rewrite andb_false_r.
  - destruct (has_origin Injection e'); [done|]. destruct (has_origin CompactionSummary e'); [done|].
    destruct (available (l ++ [e])), (available l). simpl in *. by destruct (is_undo_anchor e'); rewrite IH.
Qed.
Lemma available_drop_hooks h : fst (available (reverse (drop_hooks h))) = fst (available (reverse h)).
Proof.
  induction h as [|e h IH]; [done|]. simpl. destruct (is_hook_message e) eqn:He; [|done].
  by rewrite IH, reverse_cons, available_snoc_hook.
Qed.

(** The cut: a message of the user's, with the asked number of them after it *)
Lemma cut_spec count h :
  (0 < count <= fst (available (reverse h)))%nat ->
  exists older e newer, h = older ++ e :: newer /\ is_undo_anchor e = true /\
    compute_undo_cut h count = Some (length older) /\
    fst (available (reverse older)) = (fst (available (reverse h)) - count)%nat.
Proof.
  intros Hc. destruct (walk_cut count None (reverse h) Hc) as (newer & e & older & E & Ha & Hw & Hv).
  exists (reverse older), e, (reverse newer). unfold compute_undo_cut. rewrite Hw, reverse_involutive, length_reverse.
  split_and!; try done. rewrite <- (reverse_involutive h), E, reverse_app, reverse_cons, <- app_assoc. done.
Qed.

Lemma undo_count_history count m :
  (0 < count <= fst (available (reverse (history m))))%nat ->
  exists m' older e newer, undo_count count m = Ok m' /\ history m = older ++ e :: newer /\ is_undo_anchor e = true /\
    history m' = drop_hooks older /\ fst (available (reverse older)) = (fst (available (reverse (history m))) - count)%nat.
Proof.
  intros Hc. destruct (cut_spec count (history m) Hc) as (older & e & newer & E & Ha & Hcut & Hv).
  unfold undo_count. rewrite (proj2 (Nat.eqb_neq count 0)) by lia. rewrite Hcut.
  eexists _, older, e, newer. split; [done|]. split; [done|]. split; [done|]. split; [|done].
  assert (Et : take (length older) (history m) = older) by (by rewrite E, take_app_length).
  case_match; simpl; by rewrite Et.
Qed.

(** C16. An undo takes back exactly the turns it says: an idle service undoes the
    turns asked for, up to its limit and to what is available before a compaction;
    as many fewer are available afterwards, and what is left is a part of the
    history that ended before a message of the user's. *)
Theorem undo_exact service turns m :
  let '(m', (undone, _)) := undo service turns m in
  undone = (if is_idle service then Nat.min turns (Nat.min (fst (available (reverse (history m)))) (max_undo_turns service)) else 0%nat) /\
  fst (available (reverse (history m'))) = (fst (available (reverse (history m))) - undone)%nat /\
  (undone = 0%nat -> m' = m) /\
  ((0 < undone)%nat -> exists older e newer, history m = older ++ e :: newer /\ is_undo_anchor e = true /\ history m' = drop_hooks older).
Proof.
  unfold undo, availability. destruct (is_idle service); [|simpl; split_and!; [done|lia|done|intros ?; lia]]. simpl.
  pose proof (undo_count_history (Nat.min turns (Nat.min (fst (available (reverse (history m)))) (max_undo_turns service))) m) as H.
  destruct (available (reverse (history m))) as [count stopped] eqn:Eav. simpl in *. set (n := Nat.min turns _) in *.
  destruct (Nat.eqb_spec n 0) as [E|Hn].
  - rewrite E, Eav. simpl. split_and!; [done|lia|done|intros ?; lia].
  - destruct H as (m' & older & e & newer & E & Eh & Ha & Eh' & Hv); [lia|]. rewrite E. split_and!; [done| |intros ?; lia|].
    + by rewrite Eh', available_drop_hooks, Hv.
    + intros _. by exists older, e, newer.
Qed.

(** ** The undo of a session *)

Record UndoSession : Type := mkUndoSession {
  u_memory : ContextMemory;
  u_todo : TodoList;
  (** the tasks whose notification counts as delivered *)
  u_delivered : gset string
}.

Definition notification (o : option PromptOrigin) : option string :=
  match o with Some (BackgroundTask task_id _ _) => Some task_id | _ => None end.
Definition origins (h : list Entry) : list (option PromptOrigin) := (fun e => origin (e_msg e)) <$> h.

Fixpoint common_prefix {A} `{EqDecision A} (a b : list A) : nat :=
  match a, b with x :: a, y :: b => if decide (x = y) then S (common_prefix a b) else 0%nat | _, _ => 0%nat end.
Definition removed_notification_task_ids (before after : list (option PromptOrigin)) : list string :=
  let common := common_prefix (reverse before) (reverse after) in
  omap notification (take (length before - common) before).

Definition dispatch_undo_history (count : nat) (s : UndoSession) : result EngineError UndoSession :=
  match undo_count count (u_memory s) with
  | Err e => Err e
  | Ok m =>
    let todo := fst (pop_checkpoint count (u_todo s)) in
    let removed := removed_notification_task_ids (origins (history (u_memory s))) (origins (history m)) in
    Ok (mkUndoSession m todo (u_delivered s ∖ list_to_set removed))
  end.

Lemma common_prefix_lookup {A} `{EqDecision A} (a b : list A) i :
  (i < common_prefix a b)%nat -> exists x, a !! i = Some x /\ b !! i = Some x.
Proof.
  revert b i. induction a as [|x a IH]; intros [|y b] i; simpl; try lia.
  destruct (decide (x = y)) as [->|]; [|simpl; lia]. destruct i as [|i]; [by exists y|].
  intros Hi. apply (IH b i). lia.
Qed.

Lemma omap_take_elem {A B} (f : A -> option B) (l : list A) n i a b :
  l !! i = Some a -> (i < n)%nat -> f a = Some b -> b ∈ omap f (take n l).
Proof.
  intros Hl Hi Hf. apply list_elem_of_omap. exists a. split; [|done].
  apply list_elem_of_lookup_2 with i. by rewrite lookup_take_lt.
Qed.

(** Among distinct notifications, one that is gone is found. *)
Lemma removed_found (before after : list (option PromptOrigin)) j o task_id :
  before !! j = Some o -> notification o = Some task_id -> o ∉ after ->
  task_id ∈ removed_notification_task_ids before after.
Proof.
  intros Hj Hn Hout. unfold removed_notification_task_ids. set (common := common_prefix _ _).
  eapply omap_take_elem; [exact Hj| |exact Hn].
  destruct (Nat.lt_ge_cases j (length before - common)) as [H|H]; [done|]. exfalso.
  pose proof (lookup_lt_Some _ _ _ Hj) as Hlen.
  destruct (common_prefix_lookup (reverse before) (reverse after) (length before - S j)%nat) as (x & Hb & Ha); [unfold common in *; lia|].
  rewrite reverse_lookup in Hb by lia. replace (length before - S (length before - S j))%nat with j in Hb by lia.
  rewrite Hj in Hb. injection Hb as <-. apply Hout. apply list_elem_of_lookup_2 in Ha. by rewrite elem_of_reverse in Ha.
Qed.

(** An undo re-arms the notifications it removes: a background task whose
    notification leaves the history with the undone turns no longer counts as
    delivered. *)
Theorem undo_rearms count s s' e task_id :
  dispatch_undo_history count s = Ok s' ->
  e ∈ history (u_memory s) -> notification (origin (e_msg e)) = Some task_id ->
  origin (e_msg e) ∉ origins (history (u_memory s')) ->
  task_id ∉ u_delivered s'.
Proof.
  unfold dispatch_undo_history. destruct (undo_count count (u_memory s)) as [m|err]; [|done]. intros [= <-] He Hn Hout.
  apply list_elem_of_lookup in He as [j Hj]. simpl in *. rewrite elem_of_difference, elem_of_list_to_set. intros [_ Hr].
  apply Hr. eapply (removed_found _ _ j); [|exact Hn|exact Hout]. unfold origins. by rewrite list_lookup_fmap, Hj.
Qed.

(** ** Examples *)

Definition told (o : PromptOrigin) (text : string) : Entry := user_entry [Context.Text text] o.
Definition said (text : string) : Entry :=
  mkEntry (mkContextMessage (mkMessage Assistant None [Context.Text text] [] None false) None false None) 0%Z.
Definition notified (task_id : string) : Entry := told (BackgroundTask task_id "completed" task_id) "done".
Definition undo_session (h : list Entry) (delivered : list string) : UndoSession :=
  mkUndoSession (foldl push new_memory h) new_list (list_to_set delivered).

Lemma undo_rearms_witness :
  let s := undo_session [told User "a"; said "b"; told User "c"; notified "t1"; said "d"] ["t1"] in
  exists s', dispatch_undo_history 1 s = Ok s' /\ length (history (u_memory s')) = 2%nat /\ "t1" ∉ u_delivered s'.
Proof.
  cbv zeta. eexists. split; [vm_compute; reflexivity|]. split; [vm_compute; reflexivity|].
  refine (undo_rearms 1 (undo_session [told User "a"; said "b"; told User "c"; notified "t1"; said "d"] ["t1"]) _
            (set_entry_seq 3 (notified "t1")) "t1" _ _ _ _).
  - vm_compute. reflexivity.
  - vm_compute. repeat (first [apply list_elem_of_here | apply list_elem_of_further]).
  - reflexivity.
  - vm_compute. intros H. repeat (apply elem_of_cons in H as [H|H]; [discriminate|]). by apply not_elem_of_nil in H.
Defined.

(** A notification that stays in the history is re-armed with the one that goes: the
    origins are compared from their ends, where the shortened history does not match. *)
Example kept_notification_rearmed :
  let s := undo_session [told User "a"; notified "t0"; said "b"; told User "c"; notified "t1"; said "d"] ["t0"; "t1"] in
  exists s', dispatch_undo_history 1 s = Ok s' /\
    origin (e_msg (notified "t0")) ∈ origins (history (u_memory s')) /\ "t0" ∉ u_delivered s'.
Proof.
  cbv zeta. eexists. split; [vm_compute; reflexivity|]. split.
  - vm_compute. repeat (first [apply list_elem_of_here | apply list_elem_of_further]).
  - refine (bool_decide_unpack _ _). vm_compute. exact I.
Qed.
