(* ===== verification/TaskManager.v ===== *)
(** * Background tasks: [mirri-core/src/task.rs] and [task_persist.rs]

    The long-running work of a session: shell commands, subagents and questions, each
    a record with a status, an output and an optional mirror on disk.  A foreground
    run can be turned into a background one while it runs; a background task ends
    once, by itself, by a stop, by its deadline or with the session.

    Clocks, minted ids and the outcome of each write are arguments.  The objects the
    code shares through [Arc] are kept in the state: the cancel tokens that fired and
    the registrations a foreground tool waits on. *)
From stdpp Require Import gmap strings list sorting.
From S2P Require Import Prelude RustStd.
#[local] Open Scope string_scope.
#[local] Open Scope list_scope.
#[local] Open Scope Z_scope.

Definition MAX_TASK_OUTPUT_BYTES : nat := N.to_nat (1024 * 1024).
Definition TASK_OUTPUT_PREVIEW_CHARS : nat := 2000.
Definition TASK_TIMEOUT_MESSAGE : string := "task exceeded its configured timeout".
Definition TASK_CAPACITY_MESSAGE : string := "Too many background tasks are already running.".

(** ** Tasks *)

Inductive TaskStatus : Type := Running | Completed (exit_code : Z) | Failed (reason : string) | Stopped.
#[export] Instance TaskStatus_eq_dec : EqDecision TaskStatus. Proof. solve_decision. Defined.
Definition is_terminal (s : TaskStatus) : bool := match s with Running => false | _ => true end.

Inductive TaskKind : Type :=
| Process (command dispatcher : option string)
| Agent (agent_id subagent_type parent_tool_call_id : option string) (swarm_index : option Z) (model : option string)
| Question (question_count : Z).
#[export] Instance TaskKind_eq_dec : EqDecision TaskKind. Proof. solve_decision. Defined.
Definition is_process (k : TaskKind) : bool := match k with Process _ _ => true | _ => false end.
Definition kind_agent_id (k : TaskKind) : option string := match k with Agent a _ _ _ _ => a | _ => None end.

(** [ProcessFingerprint] of [mirri-os] *)
Record Fingerprint : Type := mkFingerprint { pid : Z; pgid : option Z; start_time : string }.
#[export] Instance Fingerprint_eq_dec : EqDecision Fingerprint. Proof. solve_decision. Defined.

(** [AgentTask]; wall-clock instants in nanoseconds, the deadline on the monotonic
    clock *)
Record AgentTask : Type := mkTask {
  id : string;
  description : string;
  kind : TaskKind;
  status : TaskStatus;
  created_at : Z;
  ended_at : option Z;
  output : string;
  session_id : string;
  deadline : option Z;
  detached : bool;
  notification_suppressed : bool;
  notification_delivered_at : option Z;
  fingerprint : option Fingerprint;
  lifetime_exempt : bool
}.
#[export] Instance AgentTask_eq_dec : EqDecision AgentTask. Proof. solve_decision. Defined.

Definition with_status (s : TaskStatus) (ended : option Z) (t : AgentTask) : AgentTask :=
  mkTask (id t) (description t) (kind t) s (created_at t) ended (output t) (session_id t) (deadline t)
    (detached t) (notification_suppressed t) (notification_delivered_at t) (fingerprint t) (lifetime_exempt t).
Definition with_output (o : string) (t : AgentTask) : AgentTask :=
  mkTask (id t) (description t) (kind t) (status t) (created_at t) (ended_at t) o (session_id t) (deadline t)
    (detached t) (notification_suppressed t) (notification_delivered_at t) (fingerprint t) (lifetime_exempt t).
Definition with_deadline (d : option Z) (t : AgentTask) : AgentTask :=
  mkTask (id t) (description t) (kind t) (status t) (created_at t) (ended_at t) (output t) (session_id t) d
    (detached t) (notification_suppressed t) (notification_delivered_at t) (fingerprint t) (lifetime_exempt t).
Definition with_detached (b : bool) (t : AgentTask) : AgentTask :=
  mkTask (id t) (description t) (kind t) (status t) (created_at t) (ended_at t) (output t) (session_id t) (deadline t)
    b (notification_suppressed t) (notification_delivered_at t) (fingerprint t) (lifetime_exempt t).
Definition with_suppressed (b : bool) (t : AgentTask) : AgentTask :=
  mkTask (id t) (description t) (kind t) (status t) (created_at t) (ended_at t) (output t) (session_id t) (deadline t)
    (detached t) b (notification_delivered_at t) (fingerprint t) (lifetime_exempt t).
Definition with_delivered (d : option Z) (t : AgentTask) : AgentTask :=
  mkTask (id t) (description t) (kind t) (status t) (created_at t) (ended_at t) (output t) (session_id t) (deadline t)
    (detached t) (notification_suppressed t) d (fingerprint t) (lifetime_exempt t).
Definition with_fingerprint (f : option Fingerprint) (t : AgentTask) : AgentTask :=
  mkTask (id t) (description t) (kind t) (status t) (created_at t) (ended_at t) (output t) (session_id t) (deadline t)
    (detached t) (notification_suppressed t) (notification_delivered_at t) f (lifetime_exempt t).
Definition with_exempt (b : bool) (t : AgentTask) : AgentTask :=
  mkTask (id t) (description t) (kind t) (status t) (created_at t) (ended_at t) (output t) (session_id t) (deadline t)
    (detached t) (notification_suppressed t) (notification_delivered_at t) (fingerprint t) b.

Record BackgroundTaskInfo : Type := mkInfo {
  i_kind : TaskKind;
  i_task_id : string;
  i_description : string;
  i_status : string;
  i_started_at : Z;
  i_ended_at : option Z;
  i_stop_reason : option string;
  i_agent_id : option string;
  i_exit_code : option Z
}.

(** [DateTime::timestamp_millis] *)
Definition timestamp_millis (at_ns : Z) : Z := at_ns / 1000000.

Definition background_task_info (t : AgentTask) : BackgroundTaskInfo :=
  let '(word, stop_reason, exit_code) :=
    match status t with
    | Running => ("running", None, None)
    | Completed code => ("completed", None, Some code)
    | Failed reason => ("failed", Some reason, None)
    | Stopped => ("killed", None, None)
    end in
  mkInfo (kind t) (id t) (description t) word (timestamp_millis (created_at t)) (timestamp_millis <$> ended_at t)
    stop_reason (kind_agent_id (kind t)) exit_code.

Inductive WaitResult : Type := WaitCompleted | TimedOut | NotFound | Cancelled.
Inductive ForegroundReleaseReason : Type := Detached | Terminal.
#[export] Instance ForegroundReleaseReason_eq_dec : EqDecision ForegroundReleaseReason. Proof. solve_decision. Defined.

(** [ForegroundRegistration] with its [ForegroundReleaseState]: a waiter is let go
    exactly when the reason is there, since [fire] stores it before the permit. *)
Record ForegroundRegistration : Type := mkRegistration { task_id : string; reason : option ForegroundReleaseReason }.
Definition fire (r : ForegroundReleaseReason) (reg : ForegroundRegistration) : ForegroundRegistration :=
  match reason reg with Some _ => reg | None => mkRegistration (task_id reg) (Some r) end.
Definition released (reg : ForegroundRegistration) : option ForegroundReleaseReason := reason reg.

Inductive SessionEvent : Type :=
| BackgroundTaskStarted (info : BackgroundTaskInfo)
| BackgroundTaskTerminated (info : BackgroundTaskInfo).

(** ** The mirror on disk *)

(** The files of a [TaskPersistence]: each record by the stem of its file, [None]
    where the file does not read back, each output log, and how many writes were
    tried. *)
Record Disk : Type := mkDisk {
  tasks_dir : string;
  archive : gmap string (option AgentTask);
  logs : gmap string string;
  writes : nat
}.

Fixpoint all_chars (p : ascii -> bool) (s : string) : bool :=
  match s with EmptyString => true | String c s => p c && all_chars p s end.
Definition is_alphanumeric_or_hyphen (c : ascii) : bool :=
  let b := byte_of c in
  ((48 <=? b) && (b <=? 57)) || ((65 <=? b) && (b <=? 90)) || ((97 <=? b) && (b <=? 122)) || (b =? 45).
Definition validate_task_id (task_id : string) : bool :=
  negb ((String.length task_id =? 0)%nat || (128 <? String.length task_id)%nat) && all_chars is_alphanumeric_or_hyphen task_id.

(** What a record reads back as: the deadline is not written. *)
Definition archived (t : AgentTask) : AgentTask := with_deadline None t.

Section tasks.
(** Whether the n-th write goes through; one that does not leaves the file as it was. *)
Context (io_ok : nat -> bool).

Definition save_task (t : AgentTask) (d : Disk) : Disk :=
  if validate_task_id (id t) then
    mkDisk (tasks_dir d) (if io_ok (writes d) then <[id t := Some (archived t)]> (archive d) else archive d) (logs d) (S (writes d))
  else d.

Definition or_empty (s : option string) : string := match s with Some s => s | None => "" end.
Definition disk_append (task_id chunk : string) (d : Disk) : Disk :=
  if validate_task_id task_id then
    mkDisk (tasks_dir d) (archive d)
      (if io_ok (writes d) then <[task_id := or_empty (logs d !! task_id) +:+ chunk]> (logs d) else logs d) (S (writes d))
  else d.

(** [load_tasks]: the files in the order of the directory, sorted by their date, the
    unreadable ones left out *)
Definition created_le (a b : AgentTask) : Prop := created_at a <= created_at b.
#[global] Instance created_le_dec : RelDecision created_le := fun a b => decide (created_at a <= created_at b).
Definition load_tasks (directory : gmap string (option AgentTask) -> list (option AgentTask)) (d : Disk) : list AgentTask :=
  merge_sort created_le (omap (fun file => file) (directory (archive d))).

Definition output_log_path (task_id : string) (d : Disk) : string :=
  tasks_dir d +:+ "/" +:+ task_id +:+ "/output.log".

(** ** The manager *)

Record TaskManager : Type := mkManager {
  tasks : gmap string AgentTask;
  truncated : gset string;
  persistence : option Disk;
  heartbeat_interval : option Z;
  last_heartbeat : gmap string Z;
  agent_timeout : option Z;
  max_running_tasks : nat;
  background_ids : gset string;
  event_bus : option (list SessionEvent);
  signals : gmap string nat;
  foreground_releases : gmap string nat;
  tool_call_ids : gmap string string;
  (** the tokens that were cancelled, and the registrations handed out, by the place
      the tables name *)
  cancelled : gset nat;
  registrations : list ForegroundRegistration
}.
Definition set_tasks (v : gmap string AgentTask) (m : TaskManager) : TaskManager :=
  mkManager v (truncated m) (persistence m) (heartbeat_interval m) (last_heartbeat m) (agent_timeout m) (max_running_tasks m)
    (background_ids m) (event_bus m) (signals m) (foreground_releases m) (tool_call_ids m) (cancelled m) (registrations m).
Definition set_truncated (v : gset string) (m : TaskManager) : TaskManager :=
  mkManager (tasks m) v (persistence m) (heartbeat_interval m) (last_heartbeat m) (agent_timeout m) (max_running_tasks m)
    (background_ids m) (event_bus m) (signals m) (foreground_releases m) (tool_call_ids m) (cancelled m) (registrations m).
Definition set_persistence (v : option Disk) (m : TaskManager) : TaskManager :=
  mkManager (tasks m) (truncated m) v (heartbeat_interval m) (last_heartbeat m) (agent_timeout m) (max_running_tasks m)
    (background_ids m) (event_bus m) (signals m) (foreground_releases m) (tool_call_ids m) (cancelled m) (registrations m).
Definition set_heartbeat_interval_field (v : option Z) (m : TaskManager) : TaskManager :=
  mkManager (tasks m) (truncated m) (persistence m) v (last_heartbeat m) (agent_timeout m) (max_running_tasks m)
    (background_ids m) (event_bus m) (signals m) (foreground_releases m) (tool_call_ids m) (cancelled m) (registrations m).
Definition set_last_heartbeat (v : gmap string Z) (m : TaskManager) : TaskManager :=
  mkManager (tasks m) (truncated m) (persistence m) (heartbeat_interval m) v (agent_timeout m) (max_running_tasks m)
    (background_ids m) (event_bus m) (signals m) (foreground_releases m) (tool_call_ids m) (cancelled m) (registrations m).
Definition set_agent_timeout (v : option Z) (m : TaskManager) : TaskManager :=
  mkManager (tasks m) (truncated m) (persistence m) (heartbeat_interval m) (last_heartbeat m) v (max_running_tasks m)
    (background_ids m) (event_bus m) (signals m) (foreground_releases m) (tool_call_ids m) (cancelled m) (registrations m).
Definition set_max_running_tasks_field (v : nat) (m : TaskManager) : TaskManager :=
  mkManager (tasks m) (truncated m) (persistence m) (heartbeat_interval m) (last_heartbeat m) (agent_timeout m) v
    (background_ids m) (event_bus m) (signals m) (foreground_releases m) (tool_call_ids m) (cancelled m) (registrations m).
Definition set_background_ids (v : gset string) (m : TaskManager) : TaskManager :=
  mkManager (tasks m) (truncated m) (persistence m) (heartbeat_interval m) (last_heartbeat m) (agent_timeout m) (max_running_tasks m)
    v (event_bus m) (signals m) (foreground_releases m) (tool_call_ids m) (cancelled m) (registrations m).
Definition set_event_bus_field (v : option (list SessionEvent)) (m : TaskManager) : TaskManager :=
  mkManager (tasks m) (truncated m) (persistence m) (heartbeat_interval m) (last_heartbeat m) (agent_timeout m) (max_running_tasks m)
    (background_ids m) v (signals m) (foreground_releases m) (tool_call_ids m) (cancelled m) (registrations m).
Definition set_signals (v : gmap string nat) (m : TaskManager) : TaskManager :=
  mkManager (tasks m) (truncated m) (persistence m) (heartbeat_interval m) (last_heartbeat m) (agent_timeout m) (max_running_tasks m)
    (background_ids m) (event_bus m) v (foreground_releases m) (tool_call_ids m) (cancelled m) (registrations m).
Definition set_foreground_releases (v : gmap string nat) (m : TaskManager) : TaskManager :=
  mkManager (tasks m) (truncated m) (persistence m) (heartbeat_interval m) (last_heartbeat m) (agent_timeout m) (max_running_tasks m)
    (background_ids m) (event_bus m) (signals m) v (tool_call_ids m) (cancelled m) (registrations m).
Definition set_tool_call_ids (v : gmap string string) (m : TaskManager) : TaskManager :=
  mkManager (tasks m) (truncated m) (persistence m) (heartbeat_interval m) (last_heartbeat m) (agent_timeout m) (max_running_tasks m)
    (background_ids m) (event_bus m) (signals m) (foreground_releases m) v (cancelled m) (registrations m).
Definition set_cancelled (v : gset nat) (m : TaskManager) : TaskManager :=
  mkManager (tasks m) (truncated m) (persistence m) (heartbeat_interval m) (last_heartbeat m) (agent_timeout m) (max_running_tasks m)
    (background_ids m) (event_bus m) (signals m) (foreground_releases m) (tool_call_ids m) v (registrations m).
Definition set_registrations (v : list ForegroundRegistration) (m : TaskManager) : TaskManager :=
  mkManager (tasks m) (truncated m) (persistence m) (heartbeat_interval m) (last_heartbeat m) (agent_timeout m) (max_running_tasks m)
    (background_ids m) (event_bus m) (signals m) (foreground_releases m) (tool_call_ids m) (cancelled m) v.

Definition new : TaskManager :=
  mkManager ∅ ∅ None None ∅ None 0 ∅ None ∅ ∅ ∅ ∅ [].
Definition set_event_bus (m : TaskManager) : TaskManager := set_event_bus_field (Some []) m.
Definition set_heartbeat_interval (interval : Z) (m : TaskManager) : TaskManager :=
  set_heartbeat_interval_field (Some interval) m.
Definition with_agent_timeout (timeout : Z) (m : TaskManager) : TaskManager := set_agent_timeout (Some timeout) m.
Definition set_max_running_tasks (limit : nat) (m : TaskManager) : TaskManager := set_max_running_tasks_field limit m.

Definition publish_event (e : SessionEvent) (m : TaskManager) : TaskManager :=
  match event_bus m with Some events => set_event_bus_field (Some (events ++ [e])) m | None => m end.
Definition persist_task (t : AgentTask) (m : TaskManager) : TaskManager :=
  match persistence m with Some d => set_persistence (Some (save_task t d)) m | None => m end.

(** [with_persistence]: a running record without a fingerprint was lost with its
    process. *)
Definition reconcile (now : Z) (t : AgentTask) : option AgentTask :=
  if bool_decide (status t = Running) && bool_decide (fingerprint t = None) then Some (with_status Stopped (Some now) t) else None.
Definition load_one (now : Z) (m : TaskManager) (t : AgentTask) : TaskManager :=
  match reconcile now t with
  | Some t' => set_tasks (<[id t' := t']> (tasks m)) (persist_task t' m)
  | None => set_tasks (<[id t := t]> (tasks m)) m
  end.
Definition with_persistence (directory : gmap string (option AgentTask) -> list (option AgentTask)) (readable : bool) (now : Z) (d : Disk)
  : TaskManager :=
  let m := set_persistence (Some d) new in
  if readable then foldl (load_one now) m (load_tasks directory d) else m.

(** *** Registration *)

Definition fresh_task (task_id : string) (k : TaskKind) (text session : string) (now instant : Z) (timeout : option Z) (background : bool)
  : AgentTask :=
  mkTask task_id text k Running now None "" session ((fun t => instant + t) <$> timeout) background false None None false.

Definition insert_task (t : AgentTask) (instant : Z) (publish_started : bool) (m : TaskManager) : TaskManager :=
  let m := set_tasks (<[id t := t]> (tasks m)) m in
  let m := set_last_heartbeat (<[id t := instant]> (last_heartbeat m)) m in
  let m := persist_task t m in
  if publish_started then publish_event (BackgroundTaskStarted (background_task_info t)) m else m.

Definition register_inner (task_id : string) (k : TaskKind) (text session : string) (now instant : Z) (timeout : option Z) (background : bool)
    (m : TaskManager) : TaskManager :=
  insert_task (fresh_task task_id k text session now instant timeout background) instant true m.
Definition register_with_timeout (task_id : string) (k : TaskKind) (text session : string) (now instant : Z) (timeout : option Z)
    (m : TaskManager) : TaskManager := register_inner task_id k text session now instant timeout false m.
Definition register (task_id : string) (k : TaskKind) (text session : string) (now instant : Z) (m : TaskManager) : TaskManager :=
  register_inner task_id k text session now instant None false m.

Definition is_running (m : TaskManager) (task_id : string) : bool :=
  match tasks m !! task_id with Some t => bool_decide (status t = Running) | None => false end.
Definition running_background_count (m : TaskManager) : nat :=
  size (filter (fun task_id => is_running m task_id = true) (background_ids m)).
Definition can_register_background (m : TaskManager) : bool :=
  (max_running_tasks m =? 0)%nat || (running_background_count m <? max_running_tasks m)%nat.

Definition register_background (task_id : string) (k : TaskKind) (text session : string) (now instant : Z) (timeout : option Z)
    (m : TaskManager) : TaskManager * result string string :=
  if (0 <? max_running_tasks m)%nat && (max_running_tasks m <=? running_background_count m)%nat then (m, Err TASK_CAPACITY_MESSAGE)
  else
    let m := register_inner task_id k text session now instant timeout true m in
    (set_background_ids ({[task_id]} ∪ background_ids m) m, Ok task_id).

(** The registration is named by its place in [registrations]. *)
Definition register_foreground (task_id : string) (k : TaskKind) (text session : string) (now instant : Z) (tool_call_id : option string)
    (m : TaskManager) : TaskManager * nat :=
  let place := length (registrations m) in
  let m := set_registrations (registrations m ++ [mkRegistration task_id None]) m in
  let m := set_foreground_releases (<[task_id := place]> (foreground_releases m)) m in
  let m := match tool_call_id with Some call => set_tool_call_ids (<[call := task_id]> (tool_call_ids m)) m | None => m end in
  (insert_task (fresh_task task_id k text session now instant None false) instant false m, place).

Definition register_with_id (task_id : string) (k : TaskKind) (text session : string) (now instant : Z) (m : TaskManager)
  : TaskManager * AgentTask :=
  let t := fresh_task task_id k text session now instant None true in (insert_task t instant true m, t).

Definition fire_at (r : ForegroundReleaseReason) (place : nat) (m : TaskManager) : TaskManager :=
  set_registrations (alter (fire r) place (registrations m)) m.

(** [detach_foreground] in its two parts: the flip under the lock of the tasks, then
    the slot, the record, the event and the release *)
Definition detach_mark (task_id : string) (m : TaskManager) : TaskManager * option (nat * AgentTask) :=
  match foreground_releases m !! task_id with
  | None => (m, None)
  | Some place =>
    match tasks m !! task_id with
    | None => (m, None)
    | Some t =>
      if is_terminal (status t) || detached t then (m, None)
      else let t' := with_detached true t in (set_tasks (<[task_id := t']> (tasks m)) m, Some (place, t'))
    end
  end.
Definition detach_finish (task_id : string) (place : nat) (t : AgentTask) (m : TaskManager) : TaskManager :=
  let m := set_background_ids ({[task_id]} ∪ background_ids m) m in
  let m := persist_task t m in
  let m := publish_event (BackgroundTaskStarted (background_task_info t)) m in
  fire_at Detached place m.
Definition detach_foreground (task_id : string) (m : TaskManager) : TaskManager * option AgentTask :=
  match detach_mark task_id m with
  | (m, None) => (m, None)
  | (m, Some (place, t)) => (detach_finish task_id place t m, Some t)
  end.
Definition detach_foreground_by_tool_call (tool_call_id : string) (m : TaskManager) : TaskManager * option AgentTask :=
  match tool_call_ids m !! tool_call_id with
  | None => (m, None)
  | Some task_id => detach_foreground task_id m
  end.

(** *** The end of a task *)

Definition attach_signal (task_id : string) (token : nat) (m : TaskManager) : TaskManager :=
  set_signals (<[task_id := token]> (signals m)) m.
Definition cancel (token : nat) (m : TaskManager) : TaskManager := set_cancelled ({[token]} ∪ cancelled m) m.
Definition is_cancelled (m : TaskManager) (token : option nat) : bool :=
  match token with Some k => bool_decide (k ∈ cancelled m) | None => false end.
Definition fire_signal (task_id : string) (m : TaskManager) : TaskManager :=
  match signals m !! task_id with Some token => cancel token m | None => m end.
Definition has_signal (m : TaskManager) (task_id : string) : bool := bool_decide (is_Some (signals m !! task_id)).

(** [transition] in its two parts: the status under the lock of the tasks ([None]
    leaves everything), then the registries, the record and the event *)
Definition transition_mark (task_id : string) (s : TaskStatus) (now : Z) (m : TaskManager) : option (TaskManager * option AgentTask) :=
  match tasks m !! task_id with
  | Some t =>
    if is_terminal (status t) then None
    else let t' := with_status s (Some now) t in Some (set_tasks (<[task_id := t']> (tasks m)) m, Some t')
  | None => Some (m, None)
  end.
Definition prune (task_id : string) (m : TaskManager) : TaskManager :=
  let m := set_signals (delete task_id (signals m)) m in
  let m := set_background_ids (background_ids m ∖ {[task_id]}) m in
  let m :=
    match foreground_releases m !! task_id with
    | Some place => fire_at Terminal place (set_foreground_releases (delete task_id (foreground_releases m)) m)
    | None => m
    end in
  set_tool_call_ids (filter (fun call => call.2 <> task_id) (tool_call_ids m)) m.
Definition transition_finish (task_id : string) (updated : option AgentTask) (m : TaskManager) : TaskManager :=
  let m := prune task_id m in
  match updated with
  | Some t => publish_event (BackgroundTaskTerminated (background_task_info t)) (persist_task t m)
  | None => m
  end.
Definition transition (task_id : string) (s : TaskStatus) (now : Z) (m : TaskManager) : TaskManager :=
  match transition_mark task_id s now m with
  | None => m
  | Some (m, updated) => transition_finish task_id updated m
  end.

Definition complete (task_id : string) (exit_code now : Z) (m : TaskManager) : TaskManager :=
  transition task_id (Completed exit_code) now m.
Definition fail (task_id error : string) (now : Z) (m : TaskManager) : TaskManager := transition task_id (Failed error) now m.
Definition stop (task_id : string) (now : Z) (m : TaskManager) : TaskManager :=
  transition task_id Stopped now (fire_signal task_id m).

(** *** Output *)

(** [str::is_char_boundary] *)
Definition is_continuation (c : ascii) : bool := (128 <=? byte_of c) && (byte_of c <? 192).
Definition is_char_boundary (s : string) (index : nat) : bool :=
  match index with
  | O => true
  | _ => match String.get index s with Some c => negb (is_continuation c) | None => (index =? String.length s)%nat end
  end.
Fixpoint drop_bytes (n : nat) (s : string) : string :=
  match n, s with S n, String _ s => drop_bytes n s | _, _ => s end.

(** [tail_bytes]: the cut moves back to a boundary. *)
Fixpoint cut_boundary (s : string) (cut : nat) : nat :=
  match cut with
  | O => O
  | S cut' => if is_char_boundary s cut then cut else cut_boundary s cut'
  end.
Definition tail_bytes (s : string) (max : nat) : string :=
  if (String.length s <=? max)%nat then s else drop_bytes (cut_boundary s (String.length s - max)) s.

(** An operation returns, or panics with the state it had reached. *)
Inductive Ran : Type := Returned (m : TaskManager) | Panicked (m : TaskManager).
Definition ran_state (r : Ran) : TaskManager := match r with Returned m | Panicked m => m end.
Definition ran_bind (r : Ran) (k : TaskManager -> Ran) : Ran := match r with Returned m => k m | Panicked m => Panicked m end.

(** What the retained output becomes and whether its head was dropped; [None] where
    [String::drain] panics, which it does off a character boundary *)
Definition retain_output (retained chunk : string) : option (string * bool) :=
  if (String.length retained + String.length chunk <=? MAX_TASK_OUTPUT_BYTES)%nat then Some (retained +:+ chunk, false)
  else
    let chunk := tail_bytes chunk MAX_TASK_OUTPUT_BYTES in
    let keep := (MAX_TASK_OUTPUT_BYTES - String.length chunk)%nat in
    if (keep <? String.length retained)%nat then
      let n := (String.length retained - keep)%nat in
      if is_char_boundary retained n then Some (drop_bytes n retained +:+ chunk, true) else None
    else Some (retained +:+ chunk, true).

Definition append_output (task_id text : string) (m : TaskManager) : Ran :=
  if (String.length text =? 0)%nat then Returned m
  else
    match tasks m !! task_id with
    | None => Returned m
    | Some t =>
      match retain_output (output t) text with
      | None => Panicked m
      | Some (retained, dropped) =>
        let m := set_tasks (<[task_id := with_output retained t]> (tasks m)) m in
        let m := if dropped then set_truncated ({[task_id]} ∪ truncated m) m else m in
        Returned (match persistence m with Some d => set_persistence (Some (disk_append task_id text d)) m | None => m end)
      end
    end.

Definition settle_background_cancelled (task_id text : string) (now : Z) (m : TaskManager) : Ran :=
  ran_bind (append_output task_id text m) (fun m => Returned (stop task_id now m)).

(** [settle_background_run]; a run that ended has its exit code and its two streams. *)
Definition settle_background_run (task_id : string) (signal : option nat) (run : result string (Z * string * string)) (now : Z)
    (m : TaskManager) : Ran :=
  let was_cancelled := is_cancelled m signal in
  match run with
  | Ok (exit_code, stdout, stderr) =>
    ran_bind (append_output task_id stdout m) (fun m =>
    ran_bind (append_output task_id stderr m) (fun m =>
    Returned (if was_cancelled then stop task_id now m else complete task_id exit_code now m)))
  | Err error => Returned (if was_cancelled then stop task_id now m else fail task_id error now m)
  end.

(** [spawn_with_signal], [spawn_background_with_signal] and
    [spawn_background_detached] up to the spawn; the run they start ends in
    [settle_background_run]. *)
Definition spawn_with_signal (task_id : string) (k : TaskKind) (text session : string) (now instant : Z) (token : nat) (m : TaskManager)
  : TaskManager := attach_signal task_id token (register task_id k text session now instant m).
Definition spawn_background_with_signal (task_id : string) (k : TaskKind) (text session : string) (now instant : Z) (token : nat)
    (m : TaskManager) : TaskManager * result string string :=
  match register_background task_id k text session now instant None m with
  | (m, Ok task_id) => (attach_signal task_id token m, Ok task_id)
  | r => r
  end.
Definition spawn_background_detached (task_id : string) (k : TaskKind) (text session : string) (now instant : Z) (m : TaskManager)
  : TaskManager * result string string := register_background task_id k text session now instant None m.

(** *** Marks *)

(** A mark set once: the record is written when it changes. *)
Definition mark (change : AgentTask -> option AgentTask) (task_id : string) (m : TaskManager) : TaskManager :=
  match tasks m !! task_id with
  | None => m
  | Some t =>
    match change t with
    | None => m
    | Some t' => persist_task t' (set_tasks (<[task_id := t']> (tasks m)) m)
    end
  end.
Definition suppressed (t : AgentTask) : option AgentTask :=
  if notification_suppressed t then None else Some (with_suppressed true t).
Definition exempted (t : AgentTask) : option AgentTask :=
  if lifetime_exempt t then None else Some (with_exempt true t).
Definition suppress_terminal_notification (task_id : string) (m : TaskManager) : TaskManager := mark suppressed task_id m.
Definition mark_notification_delivered (task_id : string) (now : Z) (m : TaskManager) : TaskManager :=
  mark (fun t => match notification_delivered_at t with Some _ => None | None => Some (with_delivered (Some now) t) end) task_id m.
Definition clear_notification_delivered (task_id : string) (m : TaskManager) : TaskManager :=
  mark (fun t => match notification_delivered_at t with None => None | Some _ => Some (with_delivered None t) end) task_id m.
Definition set_fingerprint (task_id : string) (f : Fingerprint) (m : TaskManager) : TaskManager :=
  mark (fun t => Some (with_fingerprint (Some f) t)) task_id m.
Definition set_lifetime_exempt (task_id : string) (m : TaskManager) : TaskManager := mark exempted task_id m.

(** *** All running tasks at once

    The tables are hash maps; [hash_order] is the order they are walked in. *)
Context (hash_order : gmap string AgentTask -> list AgentTask).

Definition mark_running (change : AgentTask -> option AgentTask) (m : TaskManager) : TaskManager :=
  let changed := omap (fun t => if bool_decide (status t = Running) then change t else None) (hash_order (tasks m)) in
  let m := set_tasks (foldl (fun ts t => <[id t := t]> ts) (tasks m) changed) m in
  foldl (fun m t => persist_task t m) m changed.
Definition suppress_all_active (m : TaskManager) : TaskManager := mark_running suppressed m.
Definition mark_all_running_lifetime_exempt (m : TaskManager) : TaskManager := mark_running exempted m.

Definition cancel_all_signals (m : TaskManager) : TaskManager :=
  set_cancelled (list_to_set (map_to_list (signals m)).*2 ∪ cancelled m) m.
Definition stopped_at (now : Z) (t : AgentTask) : option AgentTask :=
  if bool_decide (status t = Running) then Some (with_status Stopped (Some now) t) else None.
Definition stop_all (now : Z) (m : TaskManager) : TaskManager :=
  let m := cancel_all_signals m in
  let stopped := omap (stopped_at now) (hash_order (tasks m)) in
  let m := set_tasks (foldl (fun ts t => <[id t := t]> ts) (tasks m) stopped) m in
  let m := set_signals ∅ m in
  let places := (map_to_list (foreground_releases m)).*2 in
  let m := set_foreground_releases ∅ m in
  let m := set_tool_call_ids ∅ m in
  let m := foldl (fun m place => fire_at Terminal place m) m places in
  foldl (fun m t => publish_event (BackgroundTaskTerminated (background_task_info t)) (persist_task t m)) m stopped.

(** [signed_duration_since(created).to_std()] *)
Definition elapsed_since (now created : Z) : option Z := if created <=? now then Some (now - created) else None.
Definition is_expired (m : TaskManager) (now instant : Z) (t : AgentTask) : bool :=
  bool_decide (status t = Running) &&
  match deadline t with
  | Some d => d <=? instant
  | None =>
    match agent_timeout m with
    | Some timeout => match elapsed_since now (created_at t) with Some elapsed => timeout <=? elapsed | None => false end
    | None => false
    end
  end.
Definition terminate_one (now : Z) (m : TaskManager) (task_id : string) : TaskManager :=
  transition task_id (Failed TASK_TIMEOUT_MESSAGE) now (fire_signal task_id m).
Definition terminate_expired (now instant : Z) (m : TaskManager) : TaskManager * list string :=
  let expired := id <$> base.filter (fun t => is_expired m now instant t = true) (hash_order (tasks m)) in
  (foldl (terminate_one now) m expired, expired).

(** [stop_with_grace] and [stop_all_with_grace]: [window] is what the rest of the
    program does until the wait for a settlement ends. *)
Definition settled (m : TaskManager) (ids : list string) : bool :=
  forallb (fun task_id => match tasks m !! task_id with Some t => is_terminal (status t) | None => true end) ids.
Definition stop_with_grace (window : TaskManager -> TaskManager) (task_id : string) (now : Z) (m : TaskManager) : TaskManager :=
  let m := fire_signal task_id m in
  if settled m [task_id] then m
  else if has_signal m task_id then
    let m := window m in if settled m [task_id] then m else stop task_id now m
  else stop task_id now m.
Definition stop_all_with_grace (window : TaskManager -> TaskManager) (now : Z) (m : TaskManager) : TaskManager :=
  let running := id <$> base.filter (fun t => status t = Running) (hash_order (tasks m)) in
  if bool_decide (running = []) then m
  else
    let m := cancel_all_signals m in
    let signaled := base.filter (fun i => has_signal m i = true) running in
    let unsignaled := base.filter (fun i => has_signal m i = false) running in
    let m := foldl (fun m i => stop i now m) m unsignaled in
    let m := window m in
    if settled m signaled then m else foldl (fun m i => stop i now m) m signaled.

(** ** Reading *)

Definition get (m : TaskManager) (task_id : string) : option AgentTask := tasks m !! task_id.
Definition list_tasks (m : TaskManager) : list AgentTask := sorted_values id (tasks m).

(** [Uuid::parse_str] and the text of what it reads are those of the [uuid] crate. *)
Context (normalize_uuid : string -> option string).
Definition resolve_id (m : TaskManager) (task_id : string) : option string :=
  match get m task_id with
  | Some _ => Some task_id
  | None =>
    match normalize_uuid task_id with
    | None => None
    | Some normalized =>
      let prefixed := "task-" +:+ normalized in
      match get m prefixed with Some _ => Some prefixed | None => None end
    end
  end.

(** The order the rows of one agent are tried in: a live one first, then the latest *)
Definition candidate_le (a b : AgentTask) : Prop :=
  (is_terminal (status a) = false /\ is_terminal (status b) = true) \/
  (is_terminal (status a) = is_terminal (status b) /\ created_at b <= created_at a).
#[global] Instance candidate_le_dec : RelDecision candidate_le.
Proof. intros a b. unfold candidate_le. apply _. Defined.
Definition resolve_agent_task_id (m : TaskManager) (i : string) : option string :=
  match tasks m !! i with
  | Some _ => Some i
  | None =>
    id <$> head (merge_sort candidate_le (base.filter (fun t => kind_agent_id (kind t) = Some i) (hash_order (tasks m))))
  end.

Record TaskOutput : Type := mkOutput { preview : string; full_output : string; is_truncated : bool }.

(** The characters of a text, each the bytes it is written with *)
Fixpoint utf8_chars (s : string) : list string :=
  match s with
  | EmptyString => []
  | String c s' =>
    match utf8_chars s' with
    | (String c' _ as first) :: rest => if is_continuation c' then String c first :: rest else String c "" :: first :: rest
    | l => String c "" :: l
    end
  end.
Definition text_of_chars (l : list string) : string := String.concat "" l.
Definition last_n {A} (n : nat) (l : list A) : list A := drop (length l - n) l.
Definition build_preview (text : string) (cut : bool) : string :=
  if cut then
    text_of_chars (take TASK_OUTPUT_PREVIEW_CHARS (utf8_chars text)) +:+
    String (ascii_of_nat 10) ("… [output truncated] …" +:+ String (ascii_of_nat 10) "") +:+
    text_of_chars (last_n TASK_OUTPUT_PREVIEW_CHARS (utf8_chars text))
  else text.

Definition task_output (m : TaskManager) (task_id : string) (t : AgentTask) : TaskOutput :=
  let cut := bool_decide (task_id ∈ truncated m) in mkOutput (build_preview (output t) cut) (output t) cut.
Definition output_of (m : TaskManager) (task_id : string) : option TaskOutput :=
  match tasks m !! task_id with Some t => Some (task_output m task_id t) | None => None end.
Definition output_for_session (m : TaskManager) (task_id session : string) : option TaskOutput :=
  match tasks m !! task_id with
  | Some t => if bool_decide (session_id t = session) then Some (task_output m task_id t) else None
  | None => None
  end.

(** [String::from_utf8_lossy]: the sequence a text starts with, by its length and
    whether it is well formed; one that is not becomes U+FFFD. *)
Definition byte_in (lo hi : Z) (c : ascii) : bool := (lo <=? byte_of c) && (byte_of c <=? hi).
Fixpoint continues (ranges : list (Z * Z)) (s : string) : nat * bool :=
  match ranges, s with
  | [], _ => (O, true)
  | (lo, hi) :: ranges, String c s => if byte_in lo hi c then let '(n, ok) := continues ranges s in (S n, ok) else (O, false)
  | _, EmptyString => (O, false)
  end.
Definition continuation_ranges (b : Z) : option (list (Z * Z)) :=
  let any := (128, 191) in
  if b <? 128 then Some []
  else if (194 <=? b) && (b <=? 223) then Some [any]
  else if b =? 224 then Some [(160, 191); any]
  else if b =? 237 then Some [(128, 159); any]
  else if (225 <=? b) && (b <=? 239) then Some [any; any]
  else if b =? 240 then Some [(144, 191); any; any]
  else if (241 <=? b) && (b <=? 243) then Some [any; any; any]
  else if b =? 244 then Some [(128, 143); any; any]
  else None.
Definition REPLACEMENT_CHARACTER : string := "�".
Fixpoint lossy_go (skip : nat) (copy : bool) (s : string) : string :=
  match s with
  | EmptyString => ""
  | String c s' =>
    match skip with
    | S skip => if copy then String c (lossy_go skip copy s') else lossy_go skip copy s'
    | O =>
      match continuation_ranges (byte_of c) with
      | None => REPLACEMENT_CHARACTER +:+ lossy_go O false s'
      | Some ranges =>
        let '(n, ok) := continues ranges s' in
        if ok then String c (lossy_go n true s') else REPLACEMENT_CHARACTER +:+ lossy_go n false s'
      end
    end
  end.
Definition from_utf8_lossy (s : string) : string := lossy_go O true s.

Record TaskOutputSnapshot : Type := mkSnapshot {
  output_path : option string;
  output_size_bytes : nat;
  s_truncated : bool;
  full_output_available : bool;
  s_preview : string
}.
Definition from_retained (o : TaskOutput) : TaskOutputSnapshot :=
  mkSnapshot None (String.length (full_output o)) (is_truncated o) false (preview o).

Fixpoint take_bytes (n : nat) (s : string) : string :=
  match n, s with S n, String c s => String c (take_bytes n s) | _, _ => "" end.
(** [read_output]; [None] when the read fails *)
Definition read_output (task_id : string) (offset max_bytes : nat) (readable : bool) (d : Disk) : option string :=
  match logs d !! task_id with
  | None => Some ""
  | Some log => if readable then Some (from_utf8_lossy (take_bytes max_bytes (drop_bytes offset log))) else None
  end.
Definition output_snapshot (m : TaskManager) (task_id : string) (max_preview_bytes : nat) (stat_ok readable : bool)
  : option TaskOutputSnapshot :=
  match output_of m task_id with
  | None => None
  | Some retained =>
    match persistence m with
    | None => Some (from_retained retained)
    | Some d =>
      match (if validate_task_id task_id then logs d !! task_id else None) with
      | None => Some (from_retained retained)
      | Some log =>
        let size := if stat_ok then String.length log else O in
        let offset := (size - max_preview_bytes)%nat in
        match read_output task_id offset max_preview_bytes readable d with
        | None => Some (from_retained retained)
        | Some text => Some (mkSnapshot (Some (output_log_path task_id d)) size (0 <? offset)%nat true text)
        end
      end
    end
  end.

(** *** Liveness *)

Definition heartbeat (task_id : string) (instant : Z) (m : TaskManager) : TaskManager :=
  match tasks m !! task_id with
  | Some _ => set_last_heartbeat (<[task_id := instant]> (last_heartbeat m)) m
  | None => m
  end.
Definition is_stale (m : TaskManager) (task_id : string) (instant : Z) : bool :=
  match heartbeat_interval m with
  | None => false
  | Some interval => match last_heartbeat m !! task_id with Some last => interval <? instant - last | None => true end
  end.
Definition current_heartbeat (m : TaskManager) (task_id : string) : option Z :=
  match heartbeat_interval m with Some _ => last_heartbeat m !! task_id | None => None end.

(** One round of [wait_for_completion_with]: the verdict if the wait ends here, whether
    the listener hears that the task is alive, and the heartbeat last reported.
    [settled_meanwhile] is whether the second look of a cancelled wait finds the task
    ended. *)
Definition option_lt (a b : option Z) : bool :=
  match a, b with None, Some _ => true | Some x, Some y => x <? y | _, None => false end.
Definition wait_round (m : TaskManager) (task_id : string) (was_cancelled settled_meanwhile : bool) (instant wait_deadline : Z)
    (last : option Z) : option WaitResult * bool * option Z :=
  match tasks m !! task_id with
  | None => (Some NotFound, false, last)
  | Some t =>
    if is_terminal (status t) then (Some WaitCompleted, false, last)
    else if was_cancelled then (Some (if settled_meanwhile then WaitCompleted else Cancelled), false, last)
    else
      let '(alive, last) :=
        match heartbeat_interval m, current_heartbeat m task_id with
        | None, _ => (true, last)
        | Some _, Some beat => if option_lt last (Some beat) then (true, Some beat) else (false, last)
        | Some _, None => (false, last)
        end in
      (if wait_deadline <=? instant then Some TimedOut else None, alive, last)
  end.
End tasks.
