(* ===== verification/TaskSound.v ===== *)
(** * What holds of background tasks

    Along any operations on the manager a task starts once and ends once, the bus says
    so in that order, and a foreground tool that waits for its release is let go
    exactly when its task is detached or over. *)
From stdpp Require Import gmap strings list sorting.
From S2P Require Import Prelude RustStd TaskManager.
#[local] Open Scope string_scope.
#[local] Open Scope list_scope.
#[local] Open Scope Z_scope.

(** ** The operations *)

Inductive TaskOp : Type :=
| OpRegister (task_id : string) (k : TaskKind) (text session : string) (now instant : Z) (timeout : option Z)
| OpRegisterBackground (task_id : string) (k : TaskKind) (text session : string) (now instant : Z) (timeout : option Z)
| OpRegisterForeground (task_id : string) (k : TaskKind) (text session : string) (now instant : Z) (tool_call_id : option string)
| OpRegisterWithId (task_id : string) (k : TaskKind) (text session : string) (now instant : Z)
| OpDetach (task_id : string)
| OpDetachByToolCall (tool_call_id : string)
| OpAttachSignal (task_id : string) (token : nat)
| OpCancel (token : nat)
| OpFireSignal (task_id : string)
| OpHeartbeat (task_id : string) (instant : Z)
| OpAppend (task_id text : string)
| OpComplete (task_id : string) (exit_code now : Z)
| OpFail (task_id error : string) (now : Z)
| OpStop (task_id : string) (now : Z)
| OpSettle (task_id : string) (signal : option nat) (run : result string (Z * string * string)) (now : Z)
| OpSettleCancelled (task_id text : string) (now : Z)
| OpSuppress (task_id : string)
| OpDelivered (task_id : string) (now : Z)
| OpClearDelivered (task_id : string)
| OpFingerprint (task_id : string) (f : Fingerprint)
| OpExempt (task_id : string)
| OpSuppressAll
| OpExemptAll
| OpStopAll (now : Z)
| OpTerminateExpired (now instant : Z).

Section sound.
Context (io_ok : nat -> bool) (hash_order : gmap string AgentTask -> list AgentTask).
Context (Horder : forall ts, hash_order ts ≡ₚ (map_to_list ts).*2).

Definition perform (op : TaskOp) (m : TaskManager) : TaskManager :=
  match op with
  | OpRegister i k text session now instant timeout => register_with_timeout io_ok i k text session now instant timeout m
  | OpRegisterBackground i k text session now instant timeout => fst (register_background io_ok i k text session now instant timeout m)
  | OpRegisterForeground i k text session now instant call => fst (register_foreground io_ok i k text session now instant call m)
  | OpRegisterWithId i k text session now instant => fst (register_with_id io_ok i k text session now instant m)
  | OpDetach i => fst (detach_foreground io_ok i m)
  | OpDetachByToolCall call => fst (detach_foreground_by_tool_call io_ok call m)
  | OpAttachSignal i token => attach_signal i token m
  | OpCancel token => cancel token m
  | OpFireSignal i => fire_signal i m
  | OpHeartbeat i instant => heartbeat i instant m
  | OpAppend i text => ran_state (append_output io_ok i text m)
  | OpComplete i code now => complete io_ok i code now m
  | OpFail i error now => fail io_ok i error now m
  | OpStop i now => stop io_ok i now m
  | OpSettle i signal run now => ran_state (settle_background_run io_ok i signal run now m)
  | OpSettleCancelled i text now => ran_state (settle_background_cancelled io_ok i text now m)
  | OpSuppress i => suppress_terminal_notification io_ok i m
  | OpDelivered i now => mark_notification_delivered io_ok i now m
  | OpClearDelivered i => clear_notification_delivered io_ok i m
  | OpFingerprint i f => set_fingerprint io_ok i f m
  | OpExempt i => set_lifetime_exempt io_ok i m
  | OpSuppressAll => suppress_all_active io_ok hash_order m
  | OpExemptAll => mark_all_running_lifetime_exempt io_ok hash_order m
  | OpStopAll now => stop_all io_ok hash_order now m
  | OpTerminateExpired now instant => fst (terminate_expired io_ok hash_order now instant m)
  end.

(** A minted id is new. *)
Definition minted (op : TaskOp) : option string :=
  match op with
  | OpRegister i _ _ _ _ _ _ | OpRegisterBackground i _ _ _ _ _ _ | OpRegisterForeground i _ _ _ _ _ _
  | OpRegisterWithId i _ _ _ _ _ => Some i
  | _ => None
  end.
Definition allowed (op : TaskOp) (m : TaskManager) : Prop :=
  match minted op with Some i => tasks m !! i = None | None => True end.
Fixpoint all_allowed (ops : list TaskOp) (m : TaskManager) : Prop :=
  match ops with [] => True | op :: ops => allowed op m /\ all_allowed ops (perform op m) end.
Definition performs (ops : list TaskOp) (m : TaskManager) : TaskManager := foldl (fun m op => perform op m) m ops.

(** ** The invariant *)

Definition event_task (e : SessionEvent) : string :=
  match e with BackgroundTaskStarted i | BackgroundTaskTerminated i => i_task_id i end.
Definition events_of (m : TaskManager) : list SessionEvent := match event_bus m with Some events => events | None => [] end.
Definition about (i : string) (events : list SessionEvent) : list SessionEvent :=
  base.filter (fun e => event_task e = i) events.

Definition live (t : AgentTask) : AgentTask := with_status Running None t.
Definition started_event (t : AgentTask) : SessionEvent := BackgroundTaskStarted (background_task_info (live t)).
Definition ending (t : AgentTask) : list SessionEvent :=
  if is_terminal (status t) then [BackgroundTaskTerminated (background_task_info t)] else [].

(** What the bus has said of a task: its start, at once for one in the background, and
    its end *)
Definition told (t : AgentTask) (events : list SessionEvent) : Prop :=
  events = started_event t :: ending t \/ (detached t = false /\ events = ending t).
Definition has_ended (t : AgentTask) : bool := match ended_at t with Some _ => true | None => false end.
Definition release_of (t : AgentTask) : option ForegroundReleaseReason :=
  if detached t then Some Detached else if is_terminal (status t) then Some Terminal else None.

Record sound (m : TaskManager) : Prop := {
  s_keyed : keyed_table id (tasks m);
  s_ended : map_Forall (fun _ t => is_terminal (status t) = has_ended t) (tasks m);
  s_told : event_bus m <> None -> forall i t, tasks m !! i = Some t -> told t (about i (events_of m));
  s_quiet : forall i, tasks m !! i = None -> about i (events_of m) = [];
  s_release : forall i place, foreground_releases m !! i = Some place ->
    exists t reg, tasks m !! i = Some t /\ is_terminal (status t) = false /\ registrations m !! place = Some reg /\ task_id reg = i /\
      (detached t = false -> about i (events_of m) = []);
  s_waiting : forall place reg, registrations m !! place = Some reg ->
    exists t, tasks m !! task_id reg = Some t /\ released reg = release_of t /\
      (is_terminal (status t) = false -> foreground_releases m !! task_id reg = Some place);
  s_calls : forall call i, tool_call_ids m !! call = Some i -> is_Some (foreground_releases m !! i);
  s_slots : forall i, i ∈ background_ids m -> exists t, tasks m !! i = Some t /\ detached t = true
}.

(** *** Updates the invariant does not see *)

Definition same_core (m m' : TaskManager) : Prop :=
  tasks m' = tasks m /\ event_bus m' = event_bus m /\ foreground_releases m' = foreground_releases m /\
  registrations m' = registrations m /\ tool_call_ids m' = tool_call_ids m /\ background_ids m' = background_ids m.
Lemma same_core_refl m : same_core m m.
Proof. done. Qed.
Lemma same_core_trans m1 m2 m3 : same_core m1 m2 -> same_core m2 m3 -> same_core m1 m3.
Proof. unfold same_core. intuition congruence. Qed.

Lemma sound_core m m' : same_core m m' -> sound m -> sound m'.
Proof.
  intros (Et & Ee & Ef & Er & Ec & Eb) [H1 H2 H3 H4 H5 H6 H7 H8].
  assert (Ev : events_of m' = events_of m) by (unfold events_of; by rewrite Ee).
  constructor; rewrite ?Et, ?Ee, ?Ef, ?Er, ?Ec, ?Eb, ?Ev; done.
Qed.

Lemma core_persist t m : same_core m (persist_task io_ok t m).
Proof. unfold persist_task. by destruct (persistence m). Qed.
Lemma core_cancel token m : same_core m (cancel token m).
Proof. done. Qed.
Lemma core_fire_signal i m : same_core m (fire_signal i m).
Proof. unfold fire_signal. by destruct (signals m !! i). Qed.
Lemma core_attach i token m : same_core m (attach_signal i token m).
Proof. done. Qed.
Lemma core_heartbeat i instant m : same_core m (heartbeat i instant m).
Proof. unfold heartbeat. by destruct (tasks m !! i). Qed.
Lemma core_persist_all ts m : same_core m (foldl (fun m t => persist_task io_ok t m) m ts).
Proof.
  revert m. induction ts as [|t ts IH]; intros m; [done|]. simpl.
  eapply same_core_trans; [apply (core_persist t)|apply IH].
Qed.

(** *** Updates of the records that keep what was told *)

(** [t'] is [t] up to what the events and the waiters do not read. *)
Definition kept_task (t t' : AgentTask) : Prop :=
  id t' = id t /\ status t' = status t /\ ended_at t' = ended_at t /\ detached t' = detached t /\
  background_task_info t' = background_task_info t /\ background_task_info (live t') = background_task_info (live t).
Lemma kept_task_refl t : kept_task t t.
Proof. done. Qed.

Lemma told_kept t t' events : kept_task t t' -> told t events -> told t' events.
Proof.
  intros (_ & Es & _ & Ed & Ei & El) H. unfold told, ending, started_event in *. by rewrite Es, Ed, Ei, El.
Qed.
Lemma release_kept t t' : kept_task t t' -> release_of t' = release_of t.
Proof. intros (_ & Es & _ & Ed & _). unfold release_of. by rewrite Es, Ed. Qed.

Lemma sound_kept ts m :
  (forall i, option_relation kept_task (fun _ => False) (fun _ => False) (tasks m !! i) (ts !! i)) ->
  sound m -> sound (set_tasks ts m).
Proof.
  intros Hk [H1 H2 H3 H4 H5 H6 H7 H8].
  assert (Hback : forall i t', ts !! i = Some t' -> exists t, tasks m !! i = Some t /\ kept_task t t').
  { intros i t' Ht. specialize (Hk i). rewrite Ht in Hk. destruct (tasks m !! i) as [t|]; [by exists t|done]. }
  assert (Hforth : forall i t, tasks m !! i = Some t -> exists t', ts !! i = Some t' /\ kept_task t t').
  { intros i t Ht. specialize (Hk i). rewrite Ht in Hk. destruct (ts !! i) as [t'|]; [by exists t'|done]. }
  constructor; simpl.
  - intros i t' Ht. destruct (Hback i t' Ht) as (t & E & (Ei & _)). rewrite Ei. exact (H1 i t E).
  - intros i t' Ht. destruct (Hback i t' Ht) as (t & E & (_ & Es & Ee & _)). unfold has_ended. rewrite Es, Ee. exact (H2 i t E).
  - intros Hb i t' Ht. destruct (Hback i t' Ht) as (t & E & Hkept). apply (told_kept t); [done|]. exact (H3 Hb i t E).
  - intros i Ht. apply H4. specialize (Hk i). rewrite Ht in Hk. by destruct (tasks m !! i).
  - intros i place Hp. destruct (H5 i place Hp) as (t & reg & E & Hr & Hreg). destruct (Hforth i t E) as (t' & E' & Hkept).
    exists t', reg. split; [done|]. destruct Hkept as (_ & Es & _ & Ed & _). by rewrite Es, Ed.
  - intros place reg Hreg. destruct (H6 place reg Hreg) as (t & E & Hr & Hw). destruct (Hforth _ t E) as (t' & E' & Hkept).
    exists t'. split; [done|]. split; [by rewrite (release_kept t t')|]. destruct Hkept as (_ & Es & _). by rewrite Es.
  - exact H7.
  - intros i Hi. destruct (H8 i Hi) as (t & E & Hd). destruct (Hforth i t E) as (t' & E' & (_ & _ & _ & Ed & _)).
    exists t'. by rewrite Ed.
Qed.

Lemma sound_kept_one i t t' m :
  tasks m !! i = Some t -> kept_task t t' -> sound m -> sound (set_tasks (<[i := t']> (tasks m)) m).
Proof.
  intros Ht Hk. apply sound_kept. intros j. destruct (decide (j = i)) as [->|Hj].
  - rewrite Ht, lookup_insert_eq. exact Hk.
  - rewrite lookup_insert_ne by done. destruct (tasks m !! j); [apply kept_task_refl|done].
Qed.

(** *** The bus *)

Lemma about_snoc i events e :
  about i (events ++ [e]) = about i events ++ (if decide (event_task e = i) then [e] else []).
Proof. unfold about. rewrite filter_app, filter_cons, filter_nil. by destruct (decide (event_task e = i)). Qed.
Lemma events_publish e m : event_bus m <> None -> events_of (publish_event e m) = events_of m ++ [e].
Proof. unfold publish_event, events_of. by destruct (event_bus m). Qed.
Lemma bus_publish e m : event_bus (publish_event e m) <> None <-> event_bus m <> None.
Proof. unfold publish_event. destruct (event_bus m) eqn:E; simpl; rewrite ?E; split; congruence. Qed.
Lemma publish_silent e m : event_bus m = None -> publish_event e m = m.
Proof. intros E. unfold publish_event. by rewrite E. Qed.
Lemma quiet_publish i e m : about i (events_of m) = [] -> event_task e <> i -> about i (events_of (publish_event e m)) = [].
Proof.
  intros Ha He. destruct (event_bus m) eqn:E; [|by rewrite publish_silent].
  rewrite events_publish by (by rewrite E). rewrite about_snoc, Ha. by rewrite decide_False.
Qed.
Lemma core_publish e m :
  tasks (publish_event e m) = tasks m /\ foreground_releases (publish_event e m) = foreground_releases m /\
  registrations (publish_event e m) = registrations m /\ tool_call_ids (publish_event e m) = tool_call_ids m /\
  background_ids (publish_event e m) = background_ids m.
Proof. unfold publish_event. by destruct (event_bus m). Qed.

(** *** Registration *)

Lemma event_started t : event_task (BackgroundTaskStarted (background_task_info t)) = id t.
Proof. unfold background_task_info. simpl. by destruct (status t). Qed.
Lemma event_terminated t : event_task (BackgroundTaskTerminated (background_task_info t)) = id t.
Proof. unfold background_task_info. simpl. by destruct (status t). Qed.
Lemma live_running t : status t = Running -> ended_at t = None -> live t = t.
Proof. destruct t. simpl. intros -> ->. done. Qed.

Definition publish_if (b : bool) (e : SessionEvent) (m : TaskManager) : TaskManager := if b then publish_event e m else m.
Lemma core_publish_if b e m :
  tasks (publish_if b e m) = tasks m /\ foreground_releases (publish_if b e m) = foreground_releases m /\
  registrations (publish_if b e m) = registrations m /\ tool_call_ids (publish_if b e m) = tool_call_ids m /\
  background_ids (publish_if b e m) = background_ids m.
Proof. destruct b; [apply core_publish|done]. Qed.
Lemma about_publish_if b e m i :
  about i (events_of (publish_if b e m)) =
  about i (events_of m) ++ (if b then match event_bus m with Some _ => if decide (event_task e = i) then [e] else [] | None => [] end else []).
Proof.
  destruct b; [|by rewrite app_nil_r]. simpl. destruct (event_bus m) eqn:E; [|rewrite publish_silent by done; by rewrite app_nil_r].
  by rewrite events_publish, about_snoc by (by rewrite E).
Qed.
Lemma bus_publish_if b e m : event_bus (publish_if b e m) <> None <-> event_bus m <> None.
Proof. destruct b; [apply bus_publish|done]. Qed.

Lemma sound_add b t m :
  tasks m !! id t = None -> status t = Running -> ended_at t = None -> b = true \/ detached t = false -> sound m ->
  sound (publish_if b (BackgroundTaskStarted (background_task_info t)) (set_tasks (<[id t := t]> (tasks m)) m)).
Proof.
  intros Hn Hs He Hd [H1 H2 H3 H4 H5 H6 H7 H8]. set (m1 := set_tasks (<[id t := t]> (tasks m)) m).
  destruct (core_publish_if b (BackgroundTaskStarted (background_task_info t)) m1) as (Et & Ef & Er & Ec & Eb).
  assert (Hother : forall i, i <> id t -> about i (events_of (publish_if b (BackgroundTaskStarted (background_task_info t)) m1)) = about i (events_of m)).
  { intros i Hi. rewrite about_publish_if, event_started. destruct b; [|by rewrite app_nil_r].
    case_match; [|by rewrite app_nil_r]. rewrite decide_False by done. by rewrite app_nil_r. }
  constructor; rewrite ?Et, ?Ef, ?Er, ?Ec, ?Eb; simpl.
  - by apply keyed_insert.
  - apply map_Forall_insert_2; [|done]. unfold has_ended. by rewrite Hs, He.
  - intros Hb i t' Ht. rewrite bus_publish_if in Hb. destruct (decide (i = id t)) as [->|Hi].
    + rewrite lookup_insert_eq in Ht. injection Ht as <-. rewrite about_publish_if, event_started.
      replace (about (id t) (events_of m1)) with (@nil SessionEvent) by (symmetry; by apply H4). simpl.
      unfold told, ending, started_event. rewrite Hs, (live_running t) by done. simpl in Hb.
      destruct b; [left|destruct Hd as [Hd|Hd]; [done|by right]]. simpl. destruct (event_bus m); [|done]. by rewrite decide_True.
    + rewrite lookup_insert_ne in Ht by done. rewrite Hother by done. exact (H3 Hb i t' Ht).
  - intros i Hi. destruct (decide (i = id t)) as [->|Hne]; [by rewrite lookup_insert_eq in Hi|].
    rewrite lookup_insert_ne in Hi by done. rewrite Hother by done. by apply H4.
  - intros i place Hp. destruct (H5 i place Hp) as (t' & reg & E & Hr & Hreg & Hid & Hq). assert (i <> id t) by congruence.
    exists t', reg. rewrite lookup_insert_ne, Hother by done. done.
  - intros place reg Hr. destruct (H6 place reg Hr) as (t' & E & H). exists t'. split; [|done].
    rewrite lookup_insert_ne; [done|]. congruence.
  - exact H7.
  - intros i Hi. destruct (H8 i Hi) as (t' & E & H). exists t'. split; [|done]. rewrite lookup_insert_ne; [done|]. congruence.
Qed.

(** What [insert_task] leaves, up to what the invariant does not see *)
Lemma insert_core t instant b m :
  same_core (publish_if b (BackgroundTaskStarted (background_task_info t)) (set_tasks (<[id t := t]> (tasks m)) m))
    (insert_task io_ok t instant b m).
Proof.
  unfold insert_task, publish_if, publish_event, persist_task, same_core. destruct b, (event_bus m) eqn:E, (persistence m) eqn:P;
    simpl; rewrite ?E, ?P; simpl; rewrite ?E; done.
Qed.

Lemma sound_insert t instant b m :
  tasks m !! id t = None -> status t = Running -> ended_at t = None -> b = true \/ detached t = false -> sound m ->
  sound (insert_task io_ok t instant b m).
Proof. intros. eapply sound_core; [apply insert_core|]. by apply sound_add. Qed.

Lemma sound_slot i t m :
  tasks m !! i = Some t -> detached t = true -> sound m -> sound (set_background_ids ({[i]} ∪ background_ids m) m).
Proof.
  intros Ht Hd [H1 H2 H3 H4 H5 H6 H7 H8]. constructor; simpl; try done.
  intros j Hj. apply elem_of_union in Hj as [Hj|Hj]; [|by apply H8]. apply elem_of_singleton in Hj as ->. by exists t.
Qed.

(** A registration a tool waits on, for a running task nobody waits on *)
Lemma sound_registration i t call m :
  tasks m !! i = Some t -> is_terminal (status t) = false -> detached t = false -> about i (events_of m) = [] ->
  (forall place reg, registrations m !! place = Some reg -> task_id reg <> i) -> sound m ->
  let m1 := set_registrations (registrations m ++ [mkRegistration i None]) m in
  let m2 := set_foreground_releases (<[i := length (registrations m)]> (foreground_releases m)) m1 in
  sound (match call with Some c => set_tool_call_ids (<[c := i]> (tool_call_ids m)) m2 | None => m2 end).
Proof.
  intros Ht Hr Hd Hq Hno [H1 H2 H3 H4 H5 H6 H7 H8] m1 m2.
  assert (Hold : forall place reg, registrations m !! place = Some reg -> (registrations m ++ [mkRegistration i None]) !! place = Some reg).
  { intros place reg E. by apply lookup_app_l_Some. }
  assert (H : sound m2 /\ foreground_releases m2 !! i = Some (length (registrations m))).
  { split; [|apply lookup_insert_eq]. constructor; simpl; try done.
    - intros j place Hp. destruct (decide (j = i)) as [->|Hj].
      + rewrite lookup_insert_eq in Hp. injection Hp as <-. exists t, (mkRegistration i None). split_and!; try done.
        rewrite lookup_app_r, Nat.sub_diag by done. done.
      + rewrite lookup_insert_ne in Hp by done. destruct (H5 j place Hp) as (t' & reg & E & Hr' & Hreg & H).
        exists t', reg. split; [done|]. split; [done|]. split; [by apply Hold|done].
    - intros place reg Hp. apply lookup_app_Some in Hp as [Hp|[Hlen Hp]].
      + destruct (H6 place reg Hp) as (t' & E & Hrel & Hw). exists t'. split; [done|]. split; [done|]. intros Hrun.
        rewrite lookup_insert_ne by (intros E'; by apply (Hno _ _ Hp)). by apply Hw.
      + apply list_lookup_singleton_Some in Hp as [Hp <-]. simpl. exists t. split; [done|]. unfold release_of. rewrite Hd, Hr.
        split; [done|]. intros _. rewrite lookup_insert_eq. f_equal. lia.
    - intros c j Hc. destruct (decide (j = i)) as [->|Hj]; [rewrite lookup_insert_eq; by eexists|].
      rewrite lookup_insert_ne by done. by eapply H7. }
  destruct call as [c|]; [|apply H]. destruct H as [[? ? ? ? ? ? H7' ?] Hi]. constructor; simpl in *; try done.
  intros c' j Hc. destruct (decide (c' = c)) as [->|Hne].
  - rewrite lookup_insert_eq in Hc. injection Hc as <-. rewrite lookup_insert_eq. by eexists.
  - rewrite lookup_insert_ne in Hc by done. by eapply H7'.
Qed.

(** *** The end of a task *)

(** Ending a set of running tasks at once: the records, the releases and what the bus
    hears of each; [transition] ends one, [stop_all] every one. *)
Record ended_tasks (over : string -> option AgentTask) (m m' : TaskManager) : Prop := {
  e_over : forall i t', over i = Some t' -> exists t s now, tasks m !! i = Some t /\ is_terminal (status t) = false /\
    is_terminal s = true /\ t' = with_status s (Some now) t;
  e_tasks : forall i, tasks m' !! i = match over i with Some t' => Some t' | None => tasks m !! i end;
  e_bus : event_bus m' = None <-> event_bus m = None;
  e_events : forall i, event_bus m <> None -> about i (events_of m') =
    about i (events_of m) ++ match over i with Some t' => [BackgroundTaskTerminated (background_task_info t')] | None => [] end;
  e_releases : forall i, foreground_releases m' !! i = match over i with Some _ => None | None => foreground_releases m !! i end;
  e_waiting : forall place, registrations m' !! place =
    (fun reg => match over (task_id reg) with Some _ => fire Terminal reg | None => reg end) <$> registrations m !! place;
  e_calls : forall call i, tool_call_ids m' !! call = Some i -> tool_call_ids m !! call = Some i /\ over i = None;
  e_slots : forall i, i ∈ background_ids m' -> i ∈ background_ids m
}.

Lemma events_silent m : event_bus m = None -> events_of m = [].
Proof. unfold events_of. by intros ->. Qed.

Lemma sound_ended over m m' : ended_tasks over m m' -> sound m -> sound m'.
Proof.
  intros [Ho Ht Hb He Hf Hw Hc Hs] [H1 H2 H3 H4 H5 H6 H7 H8].
  assert (Hev : forall i, over i = None -> about i (events_of m') = about i (events_of m)).
  { intros i Hi. destruct (event_bus m) eqn:E; [rewrite He by congruence; rewrite Hi; by rewrite app_nil_r|].
    rewrite !events_silent by (done || by apply Hb). done. }
  constructor.
  - intros i t Hi. rewrite Ht in Hi. destruct (over i) as [t'|] eqn:E; [|exact (H1 i t Hi)].
    destruct (Ho i t' E) as (t0 & s & now & E0 & _ & _ & ->). injection Hi as <-. exact (H1 i t0 E0).
  - intros i t Hi. rewrite Ht in Hi. destruct (over i) as [t'|] eqn:E; [|exact (H2 i t Hi)].
    destruct (Ho i t' E) as (t0 & s & now & E0 & _ & Hterm & ->). injection Hi as <-. exact Hterm.
  - intros Hb' i t Hi. assert (Hbus : event_bus m <> None) by (intros E; by apply Hb', Hb). rewrite He by done. rewrite Ht in Hi.
    destruct (over i) as [t'|] eqn:E; [|rewrite app_nil_r; exact (H3 Hbus i t Hi)].
    destruct (Ho i t' E) as (t0 & s & now & E0 & Hrun & Hterm & ->). injection Hi as <-.
    specialize (H3 Hbus i t0 E0). unfold told, ending in *. rewrite Hrun in H3. simpl. rewrite Hterm.
    destruct H3 as [-> | [Hd ->]]; [by left|by right].
  - intros i Hi. rewrite Ht in Hi. destruct (over i) eqn:E; [done|]. rewrite Hev by done. by apply H4.
  - intros i place Hp. rewrite Hf in Hp. destruct (over i) eqn:E; [done|].
    destruct (H5 i place Hp) as (t & reg & E0 & Hrun & Hreg & Hid & Hq). exists t, reg.
    rewrite Ht, E, Hw, Hreg, (Hev i) by done. simpl. by rewrite Hid, E.
  - intros place reg Hp. rewrite Hw in Hp. apply fmap_Some in Hp as (reg0 & Hp & ->).
    destruct (H6 place reg0 Hp) as (t & E0 & Hrel & Hwait).
    assert (Hid : task_id (match over (task_id reg0) with Some _ => fire Terminal reg0 | None => reg0 end) = task_id reg0).
    { unfold fire. destruct (over _), (reason reg0); done. }
    rewrite Hid, Ht. destruct (over (task_id reg0)) as [t'|] eqn:E; [|exists t; by rewrite Hf, E].
    destruct (Ho _ t' E) as (t0 & s & now & E1 & Hrun & Hterm & ->). rewrite E0 in E1. injection E1 as <-. eexists. split; [done|].
    split; [|intros Hn; simpl in Hn; congruence]. unfold released, release_of, fire in *. simpl. rewrite Hterm. rewrite Hrun in Hrel.
    rewrite Hrel. by destruct (detached t).
  - intros call i Hi. destruct (Hc call i Hi) as [Hi' E]. rewrite Hf, E. by eapply H7.
  - intros i Hi. destruct (H8 i (Hs i Hi)) as (t & E0 & Hd). rewrite Ht. destruct (over i) as [t'|] eqn:E; [|by exists t].
    destruct (Ho i t' E) as (t0 & s & now & E1 & _ & _ & ->). exists (with_status s (Some now) t0). split; [done|]. simpl. congruence.
Qed.

Lemma prune_absent i m : tasks m !! i = None -> sound m -> same_core m (prune i m).
Proof.
  intros Hn [H1 H2 H3 H4 H5 H6 H7 H8].
  assert (Hf : foreground_releases m !! i = None).
  { destruct (foreground_releases m !! i) as [place|] eqn:E; [|done]. destruct (H5 i place E) as (t & _ & E' & _). congruence. }
  unfold prune, same_core. simpl. rewrite Hf. simpl. split_and!; try done.
  - apply map_filter_id. intros call j Hj. simpl. intros ->. destruct (H7 call i Hj). congruence.
  - apply set_eq. intros j. rewrite elem_of_difference, elem_of_singleton. split; [by intros []|].
    intros Hj. split; [done|]. intros ->. destruct (H8 i Hj) as (t & E & _). congruence.
Qed.

Lemma ended_transition i t s now m :
  tasks m !! i = Some t -> is_terminal (status t) = false -> is_terminal s = true -> sound m ->
  ended_tasks (fun j => if decide (j = i) then Some (with_status s (Some now) t) else None) m (transition io_ok i s now m).
Proof.
  intros Ht Hrun Hterm Hsound. pose proof (s_keyed m Hsound i t Ht) as Hid. destruct Hsound as [H1 H2 H3 H4 H5 H6 H7 H8].
  unfold transition, transition_mark. rewrite Ht, Hrun. unfold transition_finish.
  set (t' := with_status s (Some now) t). set (m1 := set_tasks (<[i := t']> (tasks m)) m). set (m2 := prune i m1).
  set (e := BackgroundTaskTerminated (background_task_info t')).
  destruct (core_persist t' m2) as (Et & Ee & Ef & Er & Ec & Eb). set (m3 := persist_task io_ok t' m2) in *.
  destruct (core_publish e m3) as (Et' & Ef' & Er' & Ec' & Eb').
  assert (Ebus : event_bus m3 = event_bus m).
  { rewrite Ee. unfold m2, prune. simpl. by destruct (foreground_releases m !! i). }
  assert (Ev : events_of m3 = events_of m) by (unfold events_of; by rewrite Ebus).
  assert (Etk : tasks m2 = <[i := t']> (tasks m)) by (unfold m2, prune; simpl; by destruct (foreground_releases m !! i)).
  assert (Erl : forall j, foreground_releases m2 !! j = if decide (j = i) then None else foreground_releases m !! j).
  { intros j. unfold m2, prune. simpl. destruct (foreground_releases m !! i) as [place|] eqn:E; simpl.
    - destruct (decide (j = i)) as [->|Hj]; [by rewrite lookup_delete_eq|by rewrite lookup_delete_ne].
    - destruct (decide (j = i)) as [->|Hj]; done. }
  constructor.
  - intros j t'' Hj. destruct (decide (j = i)) as [->|]; [|done]. injection Hj as <-. by exists t, s, now.
  - intros j. rewrite Et', Et, Etk. destruct (decide (j = i)) as [->|Hj]; [by rewrite lookup_insert_eq|by rewrite lookup_insert_ne].
  - rewrite <- Ebus. unfold publish_event. destruct (event_bus m3) eqn:E; simpl; by rewrite ?E.
  - intros j Hb. rewrite events_publish, about_snoc, Ev by (by rewrite Ebus). f_equal. unfold e. rewrite event_terminated. simpl.
    rewrite Hid. destruct (decide (i = j)), (decide (j = i)); congruence.
  - intros j. rewrite Ef', Ef. rewrite Erl. by destruct (decide (j = i)).
  - intros place. rewrite Er', Er. unfold m2, prune. simpl. destruct (foreground_releases m !! i) as [p|] eqn:E; simpl.
    + destruct (H5 i p E) as (t0 & reg0 & E0 & _ & Hreg0 & Hid0 & _). destruct (decide (place = p)) as [->|Hp].
      * rewrite list_lookup_alter_eq, Hreg0. simpl. rewrite Hid0. by destruct (decide (i = i)).
      * rewrite list_lookup_alter_ne by done. destruct (registrations m !! place) as [reg|] eqn:Hr; [|done]. simpl. f_equal.
        destruct (decide (task_id reg = i)) as [Hti|]; [|done]. destruct (H6 place reg Hr) as (t1 & E1 & _ & Hw).
        rewrite Hti in E1, Hw. rewrite Ht in E1. injection E1 as <-. specialize (Hw Hrun). congruence.
    + destruct (registrations m !! place) as [reg|] eqn:Hr; [|done]. simpl. f_equal.
      destruct (decide (task_id reg = i)) as [Hti|]; [|done]. destruct (H6 place reg Hr) as (t1 & E1 & _ & Hw).
      rewrite Hti in E1, Hw. rewrite Ht in E1. injection E1 as <-. specialize (Hw Hrun). congruence.
  - intros call j Hj. rewrite Ec', Ec in Hj. unfold m2, prune in Hj. simpl in Hj.
    destruct (foreground_releases m !! i); simpl in Hj; apply map_lookup_filter_Some in Hj as [Hj Hn]; simpl in Hn;
      (split; [done|by rewrite decide_False]).
  - intros j Hj. rewrite Eb', Eb in Hj. unfold m2, prune in Hj. simpl in Hj.
    destruct (foreground_releases m !! i); simpl in Hj; by apply elem_of_difference in Hj as [Hj _].
Qed.

Lemma sound_transition i s now m : is_terminal s = true -> sound m -> sound (transition io_ok i s now m).
Proof.
  intros Hterm Hs. destruct (tasks m !! i) as [t|] eqn:Ht.
  - destruct (is_terminal (status t)) eqn:Hrun; [unfold transition, transition_mark; by rewrite Ht, Hrun|].
    eapply sound_ended; [by apply ended_transition|done].
  - unfold transition, transition_mark. rewrite Ht. simpl. eapply sound_core; [by apply prune_absent|done].
Qed.

Lemma sound_stop i now m : sound m -> sound (stop io_ok i now m).
Proof. intros Hs. apply sound_transition; [done|]. eapply sound_core; [apply core_fire_signal|done]. Qed.
Lemma sound_terminate now m i : sound m -> sound (terminate_one io_ok now m i).
Proof. intros Hs. apply sound_transition; [done|]. eapply sound_core; [apply core_fire_signal|done]. Qed.

Lemma foldl_sound {A} (f : TaskManager -> A -> TaskManager) l m :
  (forall m a, sound m -> sound (f m a)) -> sound m -> sound (foldl f m l).
Proof. intros Hf. revert m. induction l as [|a l IH]; intros m Hm; [done|]. simpl. by apply IH, Hf. Qed.

(** *** All running tasks *)

Lemma order_elem ts t : keyed_table id ts -> t ∈ hash_order ts <-> ts !! id t = Some t.
Proof. intros Hk. rewrite Horder. apply (elem_of_table_values id ts t Hk). Qed.
Lemma order_NoDup ts : keyed_table id ts -> NoDup (id <$> hash_order ts).
Proof. intros Hk. rewrite Horder. by apply table_values_NoDup. Qed.

(** Rewriting some records of a keyed table *)
Lemma rewrite_lookup (change : AgentTask -> option AgentTask) (ts : gmap string AgentTask) i :
  keyed_table id ts -> (forall t t', change t = Some t' -> id t' = id t) ->
  foldl (fun ts t => <[id t := t]> ts) ts (omap change (hash_order ts)) !! i =
  match ts !! i with Some t => match change t with Some t' => Some t' | None => Some t end | None => None end.
Proof.
  intros Hk Hid.
  assert (Hgo : forall l (acc : gmap string AgentTask), NoDup (id <$> l) -> (forall t, t ∈ l -> ts !! id t = Some t) ->
    foldl (fun ts t => <[id t := t]> ts) acc (omap change l) !! i =
    match ts !! i with
    | Some t => if decide (t ∈ l) then match change t with Some t' => Some t' | None => acc !! i end else acc !! i
    | None => acc !! i
    end).
  { intros l. induction l as [|a l IH]; intros acc Hnd Hin; [by destruct (ts !! i)|].
    assert (Ha : ts !! id a = Some a) by (apply Hin; set_solver).
    rewrite fmap_cons in Hnd. apply NoDup_cons in Hnd as [Hna Hnd].
    assert (IH' := fun acc => IH acc Hnd (fun t Ht => Hin t (list_elem_of_further _ _ _ Ht))). clear IH.
    cbn [omap list_omap]. destruct (change a) as [a'|] eqn:Ea; simpl; rewrite IH'.
    - destruct (ts !! i) as [t|] eqn:Et.
      + destruct (decide (i = id a)) as [->|Hi].
        * assert (t = a) by congruence. subst t.
          rewrite (decide_True (P := a ∈ a :: l)) by set_solver. rewrite Ea. rewrite (Hid _ _ Ea), lookup_insert_eq.
          by destruct (decide (a ∈ l)).
        * rewrite (Hid _ _ Ea), lookup_insert_ne by done. destruct (decide (t ∈ l)) as [Hl|Hl].
          -- rewrite decide_True by set_solver. done.
          -- rewrite decide_False; [done|]. intros [-> |Ht]%elem_of_cons; [|done]. apply Hi. symmetry. exact (Hk i a Et).
      + rewrite (Hid _ _ Ea), lookup_insert_ne; [done|]. intros <-. congruence.
    - destruct (ts !! i) as [t|] eqn:Et; [|done]. destruct (decide (t ∈ l)) as [Hl|Hl].
      + rewrite decide_True by set_solver. done.
      + destruct (decide (t ∈ a :: l)) as [[-> |Ht]%elem_of_cons|]; [by rewrite Ea|done|done]. }
  rewrite Hgo.
  - destruct (ts !! i) as [t|] eqn:Et; [|done]. rewrite decide_True; [done|]. apply order_elem; [done|].
    by rewrite (Hk i t Et : id t = i).
  - by apply order_NoDup.
  - intros t. by apply order_elem.
Qed.

Lemma sound_mark_running change m :
  (forall t t', change t = Some t' -> kept_task t t') -> sound m -> sound (mark_running io_ok hash_order change m).
Proof.
  intros Hc Hs. unfold mark_running. eapply sound_core; [apply core_persist_all|]. apply sound_kept; [|done].
  intros i. rewrite (rewrite_lookup (fun t => if bool_decide (status t = Running) then change t else None)).
  - destruct (tasks m !! i) as [t|]; [|done]. case_bool_decide; [|apply kept_task_refl].
    destruct (change t) as [t'|] eqn:E; [by apply Hc|apply kept_task_refl].
  - apply Hs.
  - intros t t'. case_bool_decide; [|done]. intros E. apply (Hc t t' E).
Qed.

Lemma sound_mark change i m :
  (forall t t', change t = Some t' -> kept_task t t') -> sound m -> sound (mark io_ok change i m).
Proof.
  intros Hc Hs. unfold mark. destruct (tasks m !! i) as [t|] eqn:Ht; [|done]. destruct (change t) as [t'|] eqn:E; [|done].
  eapply sound_core; [apply core_persist|]. apply (sound_kept_one i t); [done|by apply Hc|done].
Qed.

Lemma sound_append i text m : sound m -> sound (ran_state (append_output io_ok i text m)).
Proof.
  intros Hs. unfold append_output. destruct (_ =? 0)%nat; [done|]. destruct (tasks m !! i) as [t|] eqn:Ht; [|done].
  destruct (retain_output (output t) text) as [[retained dropped]|]; [|done]. simpl.
  apply (sound_core (set_tasks (<[i := with_output retained t]> (tasks m)) m)); [|by apply (sound_kept_one i t)].
  destruct dropped; simpl; destruct (persistence m) eqn:E; simpl; rewrite ?E; done.
Qed.

Lemma core_fire_all places m :
  let m' := foldl (fun m place => fire_at Terminal place m) m places in
  tasks m' = tasks m /\ event_bus m' = event_bus m /\ foreground_releases m' = foreground_releases m /\
  tool_call_ids m' = tool_call_ids m /\ background_ids m' = background_ids m /\
  forall place, registrations m' !! place = (fun reg => if decide (place ∈ places) then fire Terminal reg else reg) <$> registrations m !! place.
Proof.
  clear io_ok hash_order Horder.
  revert m. induction places as [|p places IH]; intros m; simpl.
  - split_and!; try done. intros place. by destruct (registrations m !! place).
  - destruct (IH (fire_at Terminal p m)) as (Et & Ee & Ef & Ec & Eb & Er). split_and!; try done.
    intros place. rewrite Er. simpl. destruct (decide (place = p)) as [->|Hp].
    + rewrite list_lookup_alter_eq. destruct (registrations m !! p) as [reg|]; [|done]. simpl. f_equal.
      rewrite (decide_True (P := p ∈ p :: places)) by set_solver. destruct (decide (p ∈ places)); [|done].
      unfold fire. by destruct (reason reg) eqn:E; simpl; rewrite ?E.
    + rewrite list_lookup_alter_ne by done. destruct (registrations m !! place); [|done]. simpl. f_equal.
      destruct (decide (place ∈ places)), (decide (place ∈ p :: places)); set_solver.
Qed.

Lemma events_publish_all ts m i :
  let m' := foldl (fun m t => publish_event (BackgroundTaskTerminated (background_task_info t)) (persist_task io_ok t m)) m ts in
  tasks m' = tasks m /\ foreground_releases m' = foreground_releases m /\ registrations m' = registrations m /\
  tool_call_ids m' = tool_call_ids m /\ background_ids m' = background_ids m /\ (event_bus m' = None <-> event_bus m = None) /\
  (event_bus m <> None -> about i (events_of m') =
    about i (events_of m) ++ ((fun t => BackgroundTaskTerminated (background_task_info t)) <$> base.filter (fun t => id t = i) ts)).
Proof.
  revert m. induction ts as [|t ts IH]; intros m; simpl; [split_and!; try done; intros _; by rewrite app_nil_r|].
  set (e := BackgroundTaskTerminated (background_task_info t)).
  destruct (core_persist t m) as (Et & Ee & Ef & Er & Ec & Eb). set (m1 := persist_task io_ok t m) in *.
  destruct (core_publish e m1) as (Et' & Ef' & Er' & Ec' & Eb').
  destruct (IH (publish_event e m1)) as (It & If & Ir & Ic & Ib & In & Ie). split_and!; try congruence.
  - rewrite In, <- Ee. unfold publish_event. destruct (event_bus m1) eqn:E; simpl; rewrite ?E; done.
  - intros Hb. rewrite Ie by (by apply bus_publish; rewrite Ee). rewrite events_publish, about_snoc by (by rewrite Ee).
    assert (Ev : events_of m1 = events_of m) by (unfold events_of; by rewrite Ee). rewrite Ev, <- app_assoc. f_equal.
    unfold e. rewrite event_terminated, filter_cons. by destruct (decide (id t = i)).
Qed.

Definition over_all (now : Z) (m : TaskManager) (i : string) : option AgentTask :=
  match tasks m !! i with Some t => stopped_at now t | None => None end.

Lemma filter_stopped now m i :
  keyed_table id (tasks m) ->
  base.filter (fun t => id t = i) (omap (stopped_at now) (hash_order (tasks m))) = option_list (over_all now m i).
Proof.
  intros Hk.
  assert (Hid : forall t t', stopped_at now t = Some t' -> id t' = id t).
  { intros t t'. unfold stopped_at. case_bool_decide; [|done]. by intros [= <-]. }
  assert (Hgo : forall l, NoDup (id <$> l) -> base.filter (fun t => id t = i) (omap (stopped_at now) l) =
    match base.filter (fun t => id t = i) l with t :: _ => option_list (stopped_at now t) | [] => [] end).
  { intros l. induction l as [|a l IH]; intros Hnd; [done|]. rewrite fmap_cons in Hnd. apply NoDup_cons in Hnd as [Hna Hnd].
    cbn [omap list_omap]. rewrite filter_cons. destruct (decide (id a = i)) as [Hi|Hi].
    - assert (E : base.filter (fun t => id t = i) l = []).
      { destruct (base.filter _ l) as [|b l'] eqn:E; [done|]. exfalso. apply Hna.
        assert (Hb : b ∈ base.filter (fun t => id t = i) l) by (rewrite E; set_solver).
        apply list_elem_of_filter in Hb as [Hb Hin]. apply list_elem_of_fmap. exists b. split; [congruence|done]. }
      specialize (IH Hnd). rewrite E in IH. destruct (stopped_at now a) as [a'|] eqn:Ea; simpl; [|by rewrite IH].
      rewrite filter_cons, decide_True by (rewrite (Hid _ _ Ea); done). by rewrite IH.
    - destruct (stopped_at now a) as [a'|] eqn:Ea; [|by apply IH]. rewrite filter_cons, decide_False; [by apply IH|].
      by rewrite (Hid _ _ Ea). }
  rewrite Hgo by (by apply order_NoDup). unfold over_all.
  destruct (tasks m !! i) as [t|] eqn:Et.
  - assert (Hin : t ∈ base.filter (fun t => id t = i) (hash_order (tasks m))).
    { apply list_elem_of_filter. split; [exact (Hk i t Et)|]. apply order_elem; [done|]. by rewrite (Hk i t Et : id t = i). }
    destruct (base.filter _ _) as [|b l] eqn:E; [set_solver|]. f_equal.
    assert (Hb : b ∈ base.filter (fun t => id t = i) (hash_order (tasks m))) by (rewrite E; set_solver).
    apply list_elem_of_filter in Hb as [Hb Hin']. apply order_elem in Hin'; [|done].
    rewrite Hb, Et in Hin'. congruence.
  - destruct (base.filter _ _) as [|b l] eqn:E; [done|]. exfalso.
    assert (Hb : b ∈ base.filter (fun t => id t = i) (hash_order (tasks m))) by (rewrite E; set_solver).
    apply list_elem_of_filter in Hb as [Hb Hin']. apply order_elem in Hin'; [|done]. congruence.
Qed.

Lemma stopped_lookup now m i :
  keyed_table id (tasks m) ->
  foldl (fun ts t => <[id t := t]> ts) (tasks m) (omap (stopped_at now) (hash_order (tasks m))) !! i =
  match over_all now m i with Some t' => Some t' | None => tasks m !! i end.
Proof.
  intros Hk. rewrite rewrite_lookup; [|done|].
  - unfold over_all. destruct (tasks m !! i) as [t|]; [|done]. by destruct (stopped_at now t).
  - intros t t'. unfold stopped_at. case_bool_decide; [|done]. by intros [= <-].
Qed.

Lemma ended_stop_all now m : sound m -> ended_tasks (over_all now m) m (stop_all io_ok hash_order now m).
Proof.
  intros [H1 H2 H3 H4 H5 H6 H7 H8]. unfold stop_all.
  set (stopped := omap (stopped_at now) (hash_order (tasks (cancel_all_signals m)))).
  set (m1 := set_tool_call_ids _ _). set (places := (map_to_list (foreground_releases _)).*2).
  destruct (core_fire_all places m1) as (Et & Ee & Ef & Ec & Eb & Er). set (m2 := foldl _ m1 places) in *.
  pose proof (fun i => events_publish_all stopped m2 i) as Hev.
  assert (Hover : forall i t', over_all now m i = Some t' -> exists t, tasks m !! i = Some t /\ status t = Running /\ t' = with_status Stopped (Some now) t).
  { intros i t'. unfold over_all, stopped_at. destruct (tasks m !! i) as [t|]; [|done]. case_bool_decide; [|done].
    intros [= <-]. by exists t. }
  assert (Hplaces : forall i place, foreground_releases m !! i = Some place -> place ∈ places).
  { intros i place Hi. unfold places. simpl. apply list_elem_of_fmap. exists (i, place). split; [done|]. by apply elem_of_map_to_list. }
  constructor.
  - intros i t' Hi. destruct (Hover i t' Hi) as (t & E & Hs & ->). exists t, Stopped, now. by rewrite Hs.
  - intros i. destruct (Hev i) as (-> & _). rewrite Et. exact (stopped_lookup now m i H1).
  - destruct (Hev "") as (_ & _ & _ & _ & _ & -> & _). by rewrite Ee.
  - intros i Hb. destruct (Hev i) as (_ & _ & _ & _ & _ & _ & ->); [|by rewrite Ee].
    unfold events_of. rewrite Ee. f_equal. rewrite (filter_stopped now m i H1 : _ stopped = _). by destruct (over_all now m i).
  - intros i. destruct (Hev i) as (_ & -> & _). rewrite Ef. unfold m1. simpl. rewrite lookup_empty.
    destruct (foreground_releases m !! i) as [place|] eqn:E; [|by destruct (over_all now m i)].
    destruct (H5 i place E) as (t & reg & Etk & Hrun & _). unfold over_all, stopped_at. rewrite Etk.
    rewrite bool_decide_eq_true_2; [done|]. by destruct (status t).
  - intros place. destruct (Hev "") as (_ & _ & -> & _). rewrite Er. unfold m1. simpl.
    destruct (registrations m !! place) as [reg|] eqn:Hreg; [|done]. simpl. f_equal.
    destruct (H6 place reg Hreg) as (t & Etk & Hrel & Hw). unfold over_all, stopped_at. rewrite Etk. case_bool_decide as Hs.
    + rewrite decide_True; [done|]. apply (Hplaces (task_id reg)). apply Hw. by rewrite Hs.
    + case_decide as Hin; [|done]. unfold places in Hin. simpl in Hin. apply list_elem_of_fmap in Hin as ([j p] & -> & Hin).
      apply elem_of_map_to_list in Hin. simpl in Hreg. destruct (H5 j p Hin) as (t' & reg' & Etk' & Hrun & Hreg' & Hid & _).
      rewrite Hreg in Hreg'. injection Hreg' as <-. rewrite Hid in Etk. rewrite Etk in Etk'. injection Etk' as <-.
      by destruct (status t).
  - intros call i. destruct (Hev "") as (_ & _ & _ & -> & _). rewrite Ec. unfold m1. simpl. by rewrite lookup_empty.
  - intros i. destruct (Hev "") as (_ & _ & _ & _ & -> & _). by rewrite Eb.
Qed.

(** *** Detaching *)

Lemma sound_detach i m : sound m -> sound (fst (detach_foreground io_ok i m)).
Proof.
  intros Hs. unfold detach_foreground, detach_mark. destruct (foreground_releases m !! i) as [place|] eqn:Hp; [|done].
  destruct (tasks m !! i) as [t|] eqn:Ht; [|done].
  destruct (is_terminal (status t)) eqn:Hrun; [done|]. destruct (detached t) eqn:Hd; [done|]. simpl.
  destruct Hs as [H1 H2 H3 H4 H5 H6 H7 H8]. pose proof (H1 i t Ht) as Hid.
  destruct (H5 i place Hp) as (t0 & reg & E0 & _ & Hreg & Hrid & Hq). rewrite Ht in E0. injection E0 as <-. specialize (Hq Hd).
  set (t' := with_detached true t). unfold detach_finish.
  set (m1 := set_background_ids _ _). set (e := BackgroundTaskStarted (background_task_info t')).
  destruct (core_persist t' m1) as (Et & Ee & Ef & Er & Ec & Eb). set (m2 := persist_task io_ok t' m1) in *.
  destruct (core_publish e m2) as (Et' & Ef' & Er' & Ec' & Eb'). set (m3 := publish_event e m2) in *.
  assert (Hev : forall j, event_bus m <> None -> about j (events_of m3) = about j (events_of m) ++ (if decide (i = j) then [e] else [])).
  { intros j Hb. unfold m3. rewrite events_publish, about_snoc by (by rewrite Ee). rewrite (event_started t' : event_task e = id t).
    rewrite Hid. f_equal. unfold events_of. by rewrite Ee. }
  assert (Hbus : event_bus m3 <> None <-> event_bus m <> None) by (unfold m3; rewrite bus_publish, Ee; done).
  assert (Hother : forall j, j <> i -> about j (events_of m3) = about j (events_of m)).
  { intros j Hj. destruct (event_bus m) eqn:E; [rewrite Hev by congruence; rewrite decide_False by done; by rewrite app_nil_r|].
    rewrite !events_silent by (done || (unfold m3; rewrite publish_silent by (by rewrite Ee); by rewrite Ee)). done. }
  assert (Hrunning : status t = Running) by (by destruct (status t)).
  assert (Hnoend : ended_at t = None).
  { specialize (H2 i t Ht). unfold has_ended in H2. rewrite Hrun in H2. by destruct (ended_at t). }
  constructor; simpl; rewrite ?Et', ?Ef', ?Er', ?Ec', ?Eb', ?Et, ?Ef, ?Er, ?Ec, ?Eb; simpl.
  - intros j t1 Hj. destruct (decide (j = i)) as [->|Hji]; [|rewrite lookup_insert_ne in Hj by done; exact (H1 j t1 Hj)].
    rewrite lookup_insert_eq in Hj. injection Hj as <-. exact Hid.
  - apply map_Forall_insert_2; [exact (H2 i t Ht)|done].
  - intros Hb j t1 Hj. apply Hbus in Hb. destruct (decide (j = i)) as [->|Hji].
    + rewrite lookup_insert_eq in Hj. injection Hj as <-. left. change (events_of (fire_at Detached place m3)) with (events_of m3).
      rewrite Hev, Hq, decide_True by done. unfold ending, started_event, e. simpl. rewrite Hrun. simpl. do 2 f_equal.
      by rewrite (live_running t').
    + rewrite lookup_insert_ne in Hj by done. change (events_of (fire_at Detached place m3)) with (events_of m3).
      rewrite Hother by done. exact (H3 Hb j t1 Hj).
  - intros j Hj. change (events_of (fire_at Detached place m3)) with (events_of m3).
    destruct (decide (j = i)) as [->|Hji]; [by rewrite lookup_insert_eq in Hj|]. rewrite lookup_insert_ne in Hj by done.
    rewrite Hother by done. by apply H4.
  - intros j p Hj. change (events_of (fire_at Detached place m3)) with (events_of m3). destruct (decide (j = i)) as [->|Hji].
    + rewrite Hp in Hj. injection Hj as <-. exists t', (fire Detached reg). rewrite lookup_insert_eq, list_lookup_alter_eq, Hreg.
      split_and!; try done. unfold fire. by destruct (reason reg).
    + destruct (H5 j p Hj) as (t1 & reg1 & E1 & Hr1 & Hreg1 & Hid1 & Hq1). exists t1, reg1. rewrite lookup_insert_ne by done.
      rewrite Hother by done. split_and!; try done. rewrite list_lookup_alter_ne; [done|]. intros ->. congruence.
  - intros p reg1 Hp1. destruct (decide (p = place)) as [->|Hpp].
    + rewrite list_lookup_alter_eq, Hreg in Hp1. simpl in Hp1. injection Hp1 as <-.
      destruct (H6 place reg Hreg) as (t1 & E1 & Hrel & Hw). rewrite Hrid, Ht in E1. injection E1 as <-.
      unfold released, release_of in Hrel. rewrite Hd, Hrun in Hrel. unfold fire. rewrite Hrel. simpl. rewrite Hrid, lookup_insert_eq.
      exists t'. split_and!; done.
    + rewrite list_lookup_alter_ne in Hp1 by done. destruct (H6 p reg1 Hp1) as (t1 & E1 & Hrel & Hw).
      assert (task_id reg1 <> i).
      { intros E. rewrite E, Ht in E1. injection E1 as <-. rewrite E in Hw. specialize (Hw Hrun). congruence. }
      exists t1. by rewrite lookup_insert_ne.
  - exact H7.
  - intros j Hj. apply elem_of_union in Hj as [Hj%elem_of_singleton|Hj].
    + subst j. exists t'. by rewrite lookup_insert_eq.
    + destruct (H8 j Hj) as (t1 & E1 & Hd1). assert (j <> i) by congruence. exists t1. by rewrite lookup_insert_ne.
Qed.

(** *** Every operation *)

Lemma sound_new : sound new.
Proof.
  constructor; unfold new; simpl; try done; intros *; by rewrite lookup_empty.
Qed.

Lemma sound_foreground i k text session now instant call m :
  tasks m !! i = None -> sound m -> sound (fst (register_foreground io_ok i k text session now instant call m)).
Proof.
  intros Hn Hs. set (t := fresh_task i k text session now instant None false).
  set (m0 := set_tasks (<[i := t]> (tasks m)) m).
  assert (H0 : sound m0) by (apply (sound_add false t); [exact Hn|done|done|by right|done]).
  assert (Hno : forall place reg, registrations m !! place = Some reg -> task_id reg <> i).
  { intros place reg Hr E. destruct (s_waiting m Hs place reg Hr) as (t' & E' & _). congruence. }
  pose proof (sound_registration i t call m0 (lookup_insert_eq _ _ _) eq_refl eq_refl (s_quiet m Hs i Hn) Hno H0) as H.
  eapply sound_core; [|exact H]. unfold register_foreground, insert_task, persist_task, same_core.
  destruct call; simpl; destruct (persistence m); done.
Qed.

Lemma sound_settle_run i signal run now m : sound m -> sound (ran_state (settle_background_run io_ok i signal run now m)).
Proof.
  intros Hs. unfold settle_background_run. destruct run as [[[code stdout] stderr]|error].
  - pose proof (sound_append i stdout m Hs) as H1. destruct (append_output io_ok i stdout m) as [m1|m1]; simpl in *; [|done].
    pose proof (sound_append i stderr m1 H1) as H2. destruct (append_output io_ok i stderr m1) as [m2|m2]; simpl in *; [|done].
    destruct (is_cancelled m signal); [by apply sound_stop|by apply sound_transition].
  - simpl. destruct (is_cancelled m signal); [by apply sound_stop|by apply sound_transition].
Qed.

Lemma sound_settle_cancelled i text now m : sound m -> sound (ran_state (settle_background_cancelled io_ok i text now m)).
Proof.
  intros Hs. unfold settle_background_cancelled. pose proof (sound_append i text m Hs) as H1.
  destruct (append_output io_ok i text m); simpl in *; [by apply sound_stop|done].
Qed.

Lemma inserted_lookup t instant b m : tasks (insert_task io_ok t instant b m) !! id t = Some t.
Proof.
  destruct (insert_core t instant b m) as (E & _). rewrite E.
  destruct (core_publish_if b (BackgroundTaskStarted (background_task_info t)) (set_tasks (<[id t := t]> (tasks m)) m)) as (E' & _).
  rewrite E'. apply lookup_insert_eq.
Qed.
Lemma sound_register_background i k text session now instant timeout m :
  tasks m !! i = None -> sound m -> sound (fst (register_background io_ok i k text session now instant timeout m)).
Proof.
  intros Hn Hs. unfold register_background. case_match; [done|]. simpl.
  apply (sound_slot i (fresh_task i k text session now instant timeout true)); [apply inserted_lookup|done|].
  apply sound_insert; [exact Hn|done|done|by left|done].
Qed.

Lemma sound_perform op m : allowed op m -> sound m -> sound (perform op m).
Proof.
  intros Ha Hs. destruct op; unfold allowed in Ha; cbn [minted] in Ha; cbn [perform].
  - apply sound_insert; [exact Ha|done|done|by left|done].
  - by apply sound_register_background.
  - by apply sound_foreground.
  - unfold register_with_id. cbn [fst]. apply sound_insert; [exact Ha|done|done|by left|done].
  - by apply sound_detach.
  - unfold detach_foreground_by_tool_call. destruct (tool_call_ids m !! tool_call_id); [by apply sound_detach|done].
  - eapply sound_core; [apply core_attach|done].
  - eapply sound_core; [apply core_cancel|done].
  - eapply sound_core; [apply core_fire_signal|done].
  - eapply sound_core; [apply core_heartbeat|done].
  - by apply sound_append.
  - by apply sound_transition.
  - by apply sound_transition.
  - by apply sound_stop.
  - by apply sound_settle_run.
  - by apply sound_settle_cancelled.
  - apply sound_mark; [|done]. intros t t'. unfold suppressed. case_match; [done|]. by intros [= <-].
  - apply sound_mark; [|done]. intros t t'. case_match; [done|]. by intros [= <-].
  - apply sound_mark; [|done]. intros t t'. case_match; [|done]. by intros [= <-].
  - apply sound_mark; [|done]. intros t t'. by intros [= <-].
  - apply sound_mark; [|done]. intros t t'. unfold exempted. case_match; [done|]. by intros [= <-].
  - apply sound_mark_running; [|done]. intros t t'. unfold suppressed. case_match; [done|]. by intros [= <-].
  - apply sound_mark_running; [|done]. intros t t'. unfold exempted. case_match; [done|]. by intros [= <-].
  - eapply sound_ended; [by apply ended_stop_all|done].
  - unfold terminate_expired. simpl. apply foldl_sound; [apply sound_terminate|done].
Qed.

Lemma sound_performs ops m : all_allowed ops m -> sound m -> sound (performs ops m).
Proof. revert m. induction ops as [|op ops IH]; intros m; [done|]. intros [Ha Hops] Hs. apply IH; [done|]. by apply sound_perform. Qed.

(** A manager of a session, with its bus and its settings *)
Definition session_manager (limit : nat) (timeout : option Z) (disk : option Disk) : TaskManager :=
  set_persistence disk (set_agent_timeout timeout (set_max_running_tasks limit (set_event_bus new))).
Lemma sound_session limit timeout disk : sound (session_manager limit timeout disk).
Proof.
  constructor; unfold session_manager, set_event_bus, new; simpl; try done; intros *; by rewrite lookup_empty.
Qed.
Lemma allowed_app ops1 ops2 m : all_allowed (ops1 ++ ops2) m <-> all_allowed ops1 m /\ all_allowed ops2 (performs ops1 m).
Proof. revert m. induction ops1 as [|op ops IH]; intros m; simpl; [naive_solver|]. rewrite IH. naive_solver. Qed.
Lemma performs_app ops1 ops2 m : performs (ops1 ++ ops2) m = performs ops2 (performs ops1 m).
Proof. apply foldl_app. Qed.

(** ** How the records move *)

(** A task stays, what it is stays, it does not leave the background, and once it is
    over it stays as it ended; nothing new takes a slot of the background. *)
Definition advanced (t t' : AgentTask) : Prop :=
  kind t' = kind t /\ created_at t' = created_at t /\ session_id t' = session_id t /\
  (detached t = true -> detached t' = true) /\
  (is_terminal (status t) = true -> status t' = status t /\ ended_at t' = ended_at t).
Definition slots (m : TaskManager) : gset string := filter (fun i => is_running m i = true) (background_ids m).
Record advances (m m' : TaskManager) : Prop := {
  a_tasks : forall i t, tasks m !! i = Some t -> exists t', tasks m' !! i = Some t' /\ advanced t t';
  a_slots : slots m' ⊆ slots m
}.

Lemma advanced_refl t : advanced t t.
Proof. done. Qed.
Lemma advanced_trans t1 t2 t3 : advanced t1 t2 -> advanced t2 t3 -> advanced t1 t3.
Proof.
  intros (K1 & C1 & S1 & D1 & T1) (K2 & C2 & S2 & D2 & T2). split_and!; try congruence; [by auto|].
  intros H. destruct (T1 H) as [E1 E2]. destruct T2 as [E3 E4]; [congruence|]. split; congruence.
Qed.
Lemma advances_refl m : advances m m.
Proof. split; [|done]. intros i t Ht. exists t. split; [done|apply advanced_refl]. Qed.
Lemma advances_trans m1 m2 m3 : advances m1 m2 -> advances m2 m3 -> advances m1 m3.
Proof.
  intros [T1 S1] [T2 S2]. split; [|by etrans]. intros i t Ht. destruct (T1 i t Ht) as (t2 & H2 & A2).
  destruct (T2 i t2 H2) as (t3 & H3 & A3). exists t3. split; [done|by eapply advanced_trans].
Qed.
Lemma elem_of_slots m i : i ∈ slots m <-> is_running m i = true /\ i ∈ background_ids m.
Proof. unfold slots. by rewrite elem_of_filter. Qed.

Lemma advances_core m m' : same_core m m' -> advances m m'.
Proof.
  intros (Et & _ & _ & _ & _ & Eb). split.
  - intros i t Ht. exists t. rewrite Et. split; [done|apply advanced_refl].
  - intros i. rewrite !elem_of_slots. unfold is_running. by rewrite Et, Eb.
Qed.
Lemma advances_ended over m m' : ended_tasks over m m' -> advances m m'.
Proof.
  intros [Ho Ht _ _ _ _ _ Hs]. split.
  - intros i t Hi. rewrite Ht. destruct (over i) as [t'|] eqn:E; [|exists t; split; [done|apply advanced_refl]].
    destruct (Ho i t' E) as (t0 & s & now & E0 & Hrun & _ & ->). rewrite Hi in E0. injection E0 as <-.
    eexists. split; [done|]. split_and!; try done. simpl. congruence.
  - intros i. rewrite !elem_of_slots. unfold is_running. rewrite Ht. destruct (over i) as [t'|] eqn:E; [|by intros [? ?%Hs]].
    destruct (Ho i t' E) as (t0 & s & now & E0 & _ & Hterm & ->). intros [Hr _]. simpl in Hr.
    apply bool_decide_eq_true in Hr. by rewrite Hr in Hterm.
Qed.
Lemma advances_tasks ts m :
  (forall i, option_relation (fun t t' => advanced t t' /\ status t' = status t) (fun _ => False) (fun _ => False) (tasks m !! i) (ts !! i)) ->
  advances m (set_tasks ts m).
Proof.
  intros Hk. split.
  - intros i t Ht. specialize (Hk i). rewrite Ht in Hk. simpl. destruct (ts !! i) as [t'|]; [|done]. destruct Hk. by exists t'.
  - intros i. rewrite !elem_of_slots. unfold is_running. simpl. specialize (Hk i).
    destruct (tasks m !! i), (ts !! i); try done. destruct Hk as [_ ->]. done.
Qed.
Lemma advances_one i t t' m :
  tasks m !! i = Some t -> advanced t t' -> status t' = status t -> advances m (set_tasks (<[i := t']> (tasks m)) m).
Proof.
  intros Ht Ha Es. apply advances_tasks. intros j. destruct (decide (j = i)) as [->|Hj].
  - rewrite Ht, lookup_insert_eq. done.
  - rewrite lookup_insert_ne by done. destruct (tasks m !! j); [split; [apply advanced_refl|done]|done].
Qed.

Lemma advances_transition i s now m : is_terminal s = true -> sound m -> advances m (transition io_ok i s now m).
Proof.
  intros Hterm Hs. destruct (tasks m !! i) as [t|] eqn:Ht.
  - destruct (is_terminal (status t)) eqn:Hrun; [unfold transition, transition_mark; rewrite Ht, Hrun; apply advances_refl|].
    eapply advances_ended. by apply ended_transition.
  - unfold transition, transition_mark. rewrite Ht. simpl. apply advances_core. by apply prune_absent.
Qed.
Lemma advances_fired i s now m : is_terminal s = true -> sound m -> advances m (transition io_ok i s now (fire_signal i m)).
Proof.
  intros Hterm Hs. eapply advances_trans; [apply advances_core, core_fire_signal|]. apply advances_transition; [done|].
  eapply sound_core; [apply core_fire_signal|done].
Qed.
Lemma advances_append i text m : advances m (ran_state (append_output io_ok i text m)).
Proof.
  unfold append_output. destruct (_ =? 0)%nat; [apply advances_refl|]. destruct (tasks m !! i) as [t|] eqn:Ht; [|apply advances_refl].
  destruct (retain_output (output t) text) as [[retained dropped]|]; [|apply advances_refl]. simpl.
  apply (advances_trans _ (set_tasks (<[i := with_output retained t]> (tasks m)) m)); [apply (advances_one i t); [done|by repeat split|done]|].
  apply advances_core. destruct dropped; simpl; destruct (persistence m) eqn:E; simpl; rewrite ?E; done.
Qed.
Lemma advances_settle i signal run now m : sound m -> advances m (ran_state (settle_background_run io_ok i signal run now m)).
Proof.
  intros Hs. unfold settle_background_run. destruct run as [[[code stdout] stderr]|error].
  - pose proof (sound_append i stdout m Hs) as H1. pose proof (advances_append i stdout m) as A1.
    destruct (append_output io_ok i stdout m) as [m1|m1]; simpl in *; [|done].
    pose proof (sound_append i stderr m1 H1) as H2. pose proof (advances_append i stderr m1) as A2.
    destruct (append_output io_ok i stderr m1) as [m2|m2]; simpl in *; [|by eapply advances_trans].
    eapply advances_trans; [exact A1|]. eapply advances_trans; [exact A2|].
    destruct (is_cancelled m signal); [by apply advances_fired|by apply advances_transition].
  - simpl. destruct (is_cancelled m signal); [by apply advances_fired|by apply advances_transition].
Qed.
Lemma advances_mark change i m :
  (forall t t', change t = Some t' -> advanced t t' /\ status t' = status t) -> advances m (mark io_ok change i m).
Proof.
  intros Hc. unfold mark. destruct (tasks m !! i) as [t|] eqn:Ht; [|apply advances_refl].
  destruct (change t) as [t'|] eqn:E; [|apply advances_refl]. destruct (Hc t t' E).
  eapply advances_trans; [by eapply (advances_one i t)|]. apply advances_core, core_persist.
Qed.
Lemma advances_mark_running change m :
  (forall t t', change t = Some t' -> kept_task t t' /\ advanced t t') -> sound m -> advances m (mark_running io_ok hash_order change m).
Proof.
  intros Hc Hs. unfold mark_running. eapply advances_trans; [|apply advances_core, core_persist_all]. apply advances_tasks.
  intros i. rewrite (rewrite_lookup (fun t => if bool_decide (status t = Running) then change t else None)).
  - destruct (tasks m !! i) as [t|]; [|done]. case_bool_decide; [|split; [apply advanced_refl|done]].
    destruct (change t) as [t'|] eqn:E; [|split; [apply advanced_refl|done]]. destruct (Hc t t' E) as [(_ & Es & _) Ha]. done.
  - apply Hs.
  - intros t t'. case_bool_decide; [|done]. intros E. by destruct (Hc t t' E) as [(Ei & _) _].
Qed.

(** The background slots an operation takes: a registration takes one, a detach one. *)
Definition converts (op : TaskOp) : nat := match op with OpDetach _ | OpDetachByToolCall _ => 1 | _ => 0 end.

(** A new task, registered in the background or not *)
Lemma advances_added i m m' :
  tasks m !! i = None -> (exists t, tasks m' = <[i := t]> (tasks m)) -> sound m ->
  (forall j t, tasks m !! j = Some t -> exists t', tasks m' !! j = Some t' /\ advanced t t') /\
  (background_ids m' = background_ids m -> slots m' ⊆ slots m) /\
  (background_ids m' = {[i]} ∪ background_ids m -> slots m' ⊆ {[i]} ∪ slots m).
Proof.
  intros Hn [t Ht] Hs. split_and!.
  - intros j t0 Hj. exists t0. rewrite Ht, lookup_insert_ne by congruence. split; [done|apply advanced_refl].
  - intros Hb j. rewrite !elem_of_slots. unfold is_running. rewrite Ht, Hb. intros [Hr Hj].
    destruct (s_slots m Hs j Hj) as (t0 & E & _). rewrite lookup_insert_ne in Hr by congruence. done.
  - intros Hb j. rewrite elem_of_union, !elem_of_slots. unfold is_running. rewrite Ht, Hb. intros [Hr [Hj|Hj]%elem_of_union]; [by left|].
    right. destruct (s_slots m Hs j Hj) as (t0 & E & _). rewrite lookup_insert_ne in Hr by congruence. done.
Qed.

Lemma inserted t instant b m :
  tasks (insert_task io_ok t instant b m) = <[id t := t]> (tasks m) /\ background_ids (insert_task io_ok t instant b m) = background_ids m.
Proof.
  destruct (insert_core t instant b m) as (E & _ & _ & _ & _ & Eb). rewrite E, Eb.
  destruct (core_publish_if b (BackgroundTaskStarted (background_task_info t)) (set_tasks (<[id t := t]> (tasks m)) m)) as (E' & _ & _ & _ & Eb').
  by rewrite E', Eb'.
Qed.

Lemma detach_moves i m :
  (forall j t, tasks m !! j = Some t -> exists t', tasks (fst (detach_foreground io_ok i m)) !! j = Some t' /\ advanced t t') /\
  slots (fst (detach_foreground io_ok i m)) ⊆ {[i]} ∪ slots m.
Proof.
  unfold detach_foreground, detach_mark.
  destruct (foreground_releases m !! i) as [place|]; [|split; [intros j t Ht; exists t; split; [done|apply advanced_refl]|set_solver]].
  destruct (tasks m !! i) as [t|] eqn:Ht; [|split; [intros j t Hj; exists t; split; [done|apply advanced_refl]|set_solver]].
  destruct (is_terminal (status t) || detached t) eqn:E; [split; [intros j t' Hj; exists t'; split; [done|apply advanced_refl]|set_solver]|].
  simpl. unfold detach_finish. set (m1 := set_background_ids _ _). set (t' := with_detached true t).
  destruct (core_persist t' m1) as (Et & _ & _ & _ & _ & Eb).
  destruct (core_publish (BackgroundTaskStarted (background_task_info t')) (persist_task io_ok t' m1)) as (Et' & _ & _ & _ & Eb'). split.
  - intros j t0 Hj. simpl. rewrite Et', Et. simpl. destruct (decide (j = i)) as [->|Hji].
    + rewrite lookup_insert_eq. rewrite Ht in Hj. injection Hj as <-. exists t'. split; [done|by repeat split].
    + rewrite lookup_insert_ne by done. exists t0. split; [done|apply advanced_refl].
  - intros j. rewrite elem_of_union, !elem_of_slots. unfold is_running. simpl. rewrite Et', Et, Eb', Eb. simpl.
    intros [Hr [Hj|Hj]%elem_of_union]; [by left|]. destruct (decide (j = i)) as [->|Hji]; [left; set_solver|].
    right. by rewrite lookup_insert_ne in Hr.
Qed.

(** What an operation does to the records and the slots *)
Definition moves (op : TaskOp) (m m' : TaskManager) : Prop :=
  (forall j t, tasks m !! j = Some t -> exists t', tasks m' !! j = Some t' /\ advanced t t') /\
  (slots m' ⊆ slots m \/ exists i, slots m' ⊆ {[i]} ∪ slots m /\
    (converts op = 1%nat \/ max_running_tasks m = 0%nat \/ (size (slots m) < max_running_tasks m)%nat)).
Lemma moves_advances op m m' : advances m m' -> moves op m m'.
Proof. intros [H1 H2]. split; [done|by left]. Qed.

Lemma advances_settle_cancelled i text now m : sound m -> advances m (ran_state (settle_background_cancelled io_ok i text now m)).
Proof.
  intros Hs. unfold settle_background_cancelled. pose proof (sound_append i text m Hs) as H1. pose proof (advances_append i text m) as A1.
  destruct (append_output io_ok i text m); simpl in *; [|done]. eapply advances_trans; [exact A1|by apply advances_fired].
Qed.
Lemma advances_expired now instant m : sound m -> advances m (fst (terminate_expired io_ok hash_order now instant m)).
Proof.
  unfold terminate_expired. simpl. generalize (id <$> base.filter (fun t => is_expired m now instant t = true) (hash_order (tasks m))).
  intros l Hs. revert m Hs. induction l as [|i l IH]; intros m Hs; [apply advances_refl|]. simpl.
  eapply advances_trans; [|apply IH; by apply sound_terminate]. by apply advances_fired.
Qed.

Lemma moves_register_background i k text session now instant timeout m :
  tasks m !! i = None -> sound m ->
  moves (OpRegisterBackground i k text session now instant timeout) m (fst (register_background io_ok i k text session now instant timeout m)).
Proof.
  intros Hn Hs. unfold register_background. destruct (_ && _) eqn:Efull; [apply moves_advances, advances_refl|].
  cbn [fst]. destruct (inserted (fresh_task i k text session now instant timeout true) instant true m) as [Et Eb].
  set (m1 := register_inner _ _ _ _ _ _ _ _ _ m) in *. change (insert_task _ _ _ _ _) with m1 in Et, Eb.
  destruct (advances_added i m (set_background_ids ({[i]} ∪ background_ids m1) m1) Hn (ex_intro _ _ Et) Hs) as (H1 & _ & H3).
  split; [exact H1|]. right. exists i. split; [apply H3; simpl; by rewrite Eb|]. right.
  apply andb_false_iff in Efull as [Efull|Efull]; [apply Nat.ltb_ge in Efull; left; lia|apply Nat.leb_gt in Efull; by right].
Qed.
Lemma advances_foreground i k text session now instant call m :
  tasks m !! i = None -> sound m -> advances m (fst (register_foreground io_ok i k text session now instant call m)).
Proof.
  intros Hn Hs. unfold register_foreground. cbn [fst]. set (m2 := match call with Some _ => _ | None => _ end).
  assert (E2 : tasks m2 = tasks m /\ background_ids m2 = background_ids m) by (unfold m2; by destruct call).
  destruct (inserted (fresh_task i k text session now instant None false) instant false m2) as [Et Eb].
  destruct E2 as [E2 E2']. rewrite E2 in Et. rewrite E2' in Eb.
  destruct (advances_added i m _ Hn (ex_intro _ _ Et) Hs) as (H1 & H2 & _). split; [exact H1|by apply H2].
Qed.
Lemma advances_insert t instant b m : tasks m !! id t = None -> sound m -> advances m (insert_task io_ok t instant b m).
Proof.
  intros Hn Hs. destruct (inserted t instant b m) as [Et Eb].
  destruct (advances_added (id t) m _ Hn (ex_intro _ _ Et) Hs) as (H1 & H2 & _). split; [exact H1|by apply H2].
Qed.
Lemma moves_detach op i m : converts op = 1%nat -> moves op m (fst (detach_foreground io_ok i m)).
Proof. intros Hc. destruct (detach_moves i m) as [H1 H2]. split; [exact H1|]. right. exists i. split; [exact H2|by left]. Qed.

Lemma perform_moves op m : allowed op m -> sound m -> moves op m (perform op m).
Proof.
  intros Ha Hs. destruct op; unfold allowed in Ha; cbn [minted] in Ha; cbn [perform].
  all: try (by apply moves_register_background); try (by apply moves_detach).
  all: try (unfold detach_foreground_by_tool_call; destruct (tool_call_ids m !! _); [by apply moves_detach|apply moves_advances, advances_refl]).
  all: apply moves_advances.
  all: try (by apply advances_insert); try (by apply advances_transition); try (by apply advances_fired).
  - by apply advances_foreground.
  - apply advances_core, core_attach.
  - apply advances_core, core_cancel.
  - apply advances_core, core_fire_signal.
  - apply advances_core, core_heartbeat.
  - apply advances_append.
  - by apply advances_settle.
  - by apply advances_settle_cancelled.
  - apply advances_mark. intros t t'. unfold suppressed. case_match; [done|]. by intros [= <-].
  - apply advances_mark. intros t t'. case_match; [done|]. by intros [= <-].
  - apply advances_mark. intros t t'. case_match; [|done]. by intros [= <-].
  - apply advances_mark. intros t t'. by intros [= <-].
  - apply advances_mark. intros t t'. unfold exempted. case_match; [done|]. by intros [= <-].
  - apply advances_mark_running; [|done]. intros t t'. unfold suppressed. case_match; [done|]. by intros [= <-].
  - apply advances_mark_running; [|done]. intros t t'. unfold exempted. case_match; [done|]. by intros [= <-].
  - eapply advances_ended. by apply ended_stop_all.
  - by apply advances_expired.
Qed.

(** What is set before a session starts: the limit, and whether there is a bus *)
Definition settings (m : TaskManager) : nat * bool :=
  (max_running_tasks m, match event_bus m with Some _ => true | None => false end).
Lemma settings_persist t m : settings (persist_task io_ok t m) = settings m.
Proof. unfold persist_task. by destruct (persistence m). Qed.
Lemma settings_publish e m : settings (publish_event e m) = settings m.
Proof. unfold publish_event, settings. destruct (event_bus m) eqn:E; simpl; by rewrite ?E. Qed.
Lemma settings_fire_signal i m : settings (fire_signal i m) = settings m.
Proof. unfold fire_signal. by destruct (signals m !! i). Qed.
Lemma settings_transition i s now m : settings (transition io_ok i s now m) = settings m.
Proof.
  assert (Hp : forall m, settings (prune i m) = settings m).
  { intros m0. unfold prune. simpl. by destruct (foreground_releases m0 !! i). }
  unfold transition, transition_mark, transition_finish. destruct (tasks m !! i) as [t|]; [|apply Hp].
  destruct (is_terminal (status t)); [done|]. by rewrite settings_publish, settings_persist, Hp.
Qed.
Lemma settings_stop i now m : settings (stop io_ok i now m) = settings m.
Proof. unfold stop. by rewrite settings_transition, settings_fire_signal. Qed.
Lemma settings_insert t instant b m : settings (insert_task io_ok t instant b m) = settings m.
Proof. unfold insert_task. destruct b; by rewrite ?settings_publish, settings_persist. Qed.
Lemma settings_append i text m : settings (ran_state (append_output io_ok i text m)) = settings m.
Proof.
  unfold append_output. destruct (_ =? 0)%nat; [done|]. destruct (tasks m !! i); [|done].
  destruct (retain_output _ _) as [[retained dropped]|]; [|done]. destruct dropped; simpl; destruct (persistence m) eqn:E; simpl; by rewrite ?E.
Qed.
Lemma settings_mark change i m : settings (mark io_ok change i m) = settings m.
Proof. unfold mark. destruct (tasks m !! i) as [t|]; [|done]. destruct (change t); [by rewrite settings_persist|done]. Qed.
Lemma settings_detach i m : settings (fst (detach_foreground io_ok i m)) = settings m.
Proof.
  unfold detach_foreground, detach_mark. destruct (foreground_releases m !! i); [|done]. destruct (tasks m !! i) as [t|]; [|done].
  destruct (_ || _); [done|]. cbn [fst]. unfold detach_finish. cbv zeta.
  change (settings (fire_at ?r ?p ?m)) with (settings m). by rewrite settings_publish, settings_persist.
Qed.
Lemma settings_foldl {A} (f : TaskManager -> A -> TaskManager) l m :
  (forall m a, settings (f m a) = settings m) -> settings (foldl f m l) = settings m.
Proof. intros Hf. revert m. induction l as [|a l IH]; intros m; [done|]. simpl. by rewrite IH, Hf. Qed.

Lemma settings_kept op m : settings (perform op m) = settings m.
Proof.
  destruct op; cbn [perform]; rewrite ?settings_mark, ?settings_detach, ?settings_append, ?settings_fire_signal; try done.
  all: try apply settings_insert; try apply settings_transition; try apply settings_stop; try apply settings_mark.
  all: try (by unfold suppress_all_active, mark_all_running_lifetime_exempt, mark_running; cbv zeta; rewrite settings_foldl by (intros; apply settings_persist)).
  - unfold register_background. case_match; [done|]. apply settings_insert.
  - unfold register_foreground. cbn [fst]. rewrite settings_insert. by destruct tool_call_id.
  - unfold detach_foreground_by_tool_call. destruct (tool_call_ids m !! _); [apply settings_detach|done].
  - unfold heartbeat. by destruct (tasks m !! _).
  - unfold settle_background_run. destruct run as [[[code stdout] stderr]|error].
    + pose proof (settings_append task_id stdout m) as H1. destruct (append_output io_ok task_id stdout m) as [m1|m1]; simpl in *; [|done].
      pose proof (settings_append task_id stderr m1) as H2. destruct (append_output io_ok task_id stderr m1) as [m2|m2]; simpl in *; [|congruence].
      destruct (is_cancelled m signal); rewrite ?settings_stop; unfold complete; rewrite ?settings_transition; congruence.
    + simpl. destruct (is_cancelled m signal); [apply settings_stop|apply settings_transition].
  - unfold settle_background_cancelled. pose proof (settings_append task_id text m) as H1.
    destruct (append_output io_ok task_id text m); simpl in *; [by rewrite settings_stop|done].
  - unfold stop_all. cbv zeta. rewrite settings_foldl by (intros; by rewrite settings_publish, settings_persist). by rewrite settings_foldl.
  - unfold terminate_expired. cbn [fst]. apply settings_foldl. intros m' i. unfold terminate_one. by rewrite settings_transition, settings_fire_signal.
Qed.

Definition conversions (ops : list TaskOp) : nat := sum_list (converts <$> ops).

Lemma slots_size m i (X : gset string) : X ⊆ {[i]} ∪ slots m -> (size X <= S (size (slots m)))%nat.
Proof.
  intros HX. apply subseteq_size in HX. pose proof (size_union_alt ({[i]} : gset string) (slots m)) as E. rewrite size_singleton in E.
  assert (size (slots m ∖ {[i]}) <= size (slots m))%nat by (apply subseteq_size; set_solver). lia.
Qed.

Lemma slots_performs ops m :
  all_allowed ops m -> sound m -> (0 < max_running_tasks m)%nat ->
  (size (slots (performs ops m)) <= Nat.max (size (slots m)) (max_running_tasks m) + conversions ops)%nat.
Proof.
  revert m. induction ops as [|op ops IH]; intros m; [simpl; intros; lia|]. intros [Ha Hops] Hs Hmax.
  specialize (IH (perform op m) Hops (sound_perform op m Ha Hs)). rewrite (f_equal fst (settings_kept op m) : max_running_tasks _ = max_running_tasks m) in IH. specialize (IH Hmax).
  change (performs (op :: ops) m) with (performs ops (perform op m)). unfold conversions in *. rewrite fmap_cons. simpl.
  destruct (perform_moves op m Ha Hs) as [_ [Hsub|(i & Hsub & Hroom)]].
  - apply subseteq_size in Hsub. lia.
  - apply slots_size in Hsub. lia.
Qed.

Lemma advanced_performs ops m i t :
  all_allowed ops m -> sound m -> tasks m !! i = Some t -> exists t', tasks (performs ops m) !! i = Some t' /\ advanced t t'.
Proof.
  revert m t. induction ops as [|op ops IH]; intros m t; [intros _ _ Ht; exists t; split; [done|apply advanced_refl]|].
  intros [Ha Hops] Hs Ht. destruct (perform_moves op m Ha Hs) as [Hmove _]. destruct (Hmove i t Ht) as (t1 & Ht1 & A1).
  destruct (IH _ t1 Hops (sound_perform op m Ha Hs) Ht1) as (t2 & Ht2 & A2). exists t2. split; [done|]. by eapply advanced_trans.
Qed.

Lemma bus_kept ops m : event_bus m <> None -> event_bus (performs ops m) <> None.
Proof.
  revert m. induction ops as [|op ops IH]; intros m Hm; [done|]. apply IH. pose proof (f_equal snd (settings_kept op m)) as E.
  unfold settings in E. simpl in E. by destruct (event_bus (perform op m)), (event_bus m).
Qed.

(** ** What a session relies on *)

(** C7. A task ends once: along any operations on the manager of a session, one after the
    other, each taken whole and each registration under an id that is not in the table, a
    task that is over keeps the status and the instant it ended with, and the bus has
    told of each task its start and then, when it is over, that end, once each and
    nothing else; only a foreground run that was not detached has no start.  A
    registration under an id in use replaces the task, as its documentation says, and a
    task that ends between the two parts of its detach has its end told first
    ([detach_races_with_the_end]). *)
Theorem task_ends_once limit timeout disk ops more i t :
  let start := session_manager limit timeout disk in
  all_allowed (ops ++ more) start ->
  tasks (performs ops start) !! i = Some t ->
  exists t', tasks (performs (ops ++ more) start) !! i = Some t' /\
    (is_terminal (status t) = true -> status t' = status t /\ ended_at t' = ended_at t) /\
    (about i (events_of (performs (ops ++ more) start)) = started_event t' :: ending t' \/
     (detached t' = false /\ about i (events_of (performs (ops ++ more) start)) = ending t')).
Proof.
  intros start Hops Ht. pose proof (sound_session limit timeout disk) as H0. fold start in H0.
  pose proof (sound_performs _ _ Hops H0) as Hend. rewrite allowed_app in Hops. destruct Hops as [Hops Hmore].
  pose proof (sound_performs _ _ Hops H0) as Hmid. rewrite performs_app in *.
  destruct (advanced_performs more _ i t Hmore Hmid Ht) as (t' & Ht' & (_ & _ & _ & _ & Hover)).
  exists t'. split; [done|]. split; [done|]. apply (s_told _ Hend); [|done].
  apply bus_kept. by apply bus_kept.
Qed.

(** A foreground tool that waits for its release is let go exactly when its task
    leaves the foreground: as detached when the task was turned into a background one
    while it ran, as terminal when the task is over otherwise, and never before. *)
Theorem foreground_released limit timeout disk ops place reg :
  let m := performs ops (session_manager limit timeout disk) in
  all_allowed ops (session_manager limit timeout disk) ->
  registrations m !! place = Some reg ->
  exists t, tasks m !! task_id reg = Some t /\
    released reg = (if detached t then Some Detached else if is_terminal (status t) then Some Terminal else None).
Proof.
  intros m Hops Hreg. pose proof (sound_performs _ _ Hops (sound_session limit timeout disk)) as Hs.
  destruct (s_waiting m Hs place reg Hreg) as (t & Ht & Hrel & _). by exists t.
Qed.

(** C28. The capacity holds: however tasks come and go, no more background tasks run
    than the limit allows, apart from one for each foreground run that was turned into
    a background one, which takes its slot without asking. *)
Theorem capacity_holds limit timeout disk ops :
  let m := performs ops (session_manager limit timeout disk) in
  all_allowed ops (session_manager limit timeout disk) -> (0 < limit)%nat ->
  (running_background_count m <= limit + conversions ops)%nat.
Proof.
  intros m Hops Hlimit.
  pose proof (slots_performs ops _ Hops (sound_session limit timeout disk) Hlimit) as H.
  assert (E : size (slots (session_manager limit timeout disk)) = 0%nat) by (apply size_empty_iff; set_solver).
  change (max_running_tasks (session_manager limit timeout disk)) with limit in H. rewrite E in H.
  etrans; [exact H|]. lia.
Qed.
End sound.

(** ** Witnesses *)

Definition writes_succeed : nat -> bool := fun _ => true.
Definition listed (ts : gmap string AgentTask) : list AgentTask := (map_to_list ts).*2.
Definition build : TaskKind := Process (Some "make") None.

Definition sample_ops : list TaskOp :=
  [OpRegisterBackground "task-1" build "build" "s" 10 0 None; OpRegisterForeground "task-2" build "tests" "s" 20 0 (Some "call-2");
   OpAppend "task-1" "ok"; OpComplete "task-1" 0 30; OpDetachByToolCall "call-2"].
Definition sample_more : list TaskOp := [OpStop "task-1" 40; OpStopAll 50].

Lemma task_ends_once_witness :
  let m := performs writes_succeed listed (sample_ops ++ sample_more) (session_manager 2 None None) in
  exists t', tasks m !! "task-1" = Some t' /\ status t' = Completed 0 /\ ended_at t' = Some 30 /\
    about "task-1" (events_of m) = [started_event t'; BackgroundTaskTerminated (background_task_info t')].
Proof.
  destruct (task_ends_once writes_succeed listed (fun _ => reflexivity _) 2 None None sample_ops sample_more "task-1"
    (with_output "ok" (with_status (Completed 0) (Some 30) (fresh_task "task-1" build "build" "s" 10 0 None true))))
    as (t' & Ht & Hstays & Htold).
  - vm_compute. by repeat split.
  - vm_compute. reflexivity.
  - exists t'. destruct (Hstays eq_refl) as [Es Ee]. split; [exact Ht|]. split; [exact Es|]. split; [exact Ee|].
    destruct Htold as [E|[Hd _]]; [|vm_compute in Ht; injection Ht as <-; discriminate Hd].
    rewrite E. unfold ending. rewrite Es. reflexivity.
Defined.

Lemma foreground_released_witness :
  exists reg t, registrations (performs writes_succeed listed sample_ops (session_manager 2 None None)) !! 0%nat = Some reg /\
    tasks (performs writes_succeed listed sample_ops (session_manager 2 None None)) !! task_id reg = Some t /\ released reg = Some Detached.
Proof.
  destruct (foreground_released writes_succeed listed (fun _ => reflexivity _) 2 None None sample_ops 0 (mkRegistration "task-2" (Some Detached)))
    as (t & Ht & Hr).
  - vm_compute. by repeat split.
  - vm_compute. reflexivity.
  - exists (mkRegistration "task-2" (Some Detached)), t. split; [vm_compute; reflexivity|]. split; [exact Ht|reflexivity].
Defined.

Lemma capacity_holds_witness :
  (running_background_count (performs writes_succeed listed sample_ops (session_manager 2 None None)) <= 2 + conversions sample_ops)%nat.
Proof.
  apply (capacity_holds writes_succeed listed (fun _ => reflexivity _) 2 None None sample_ops); [vm_compute; by repeat split|lia].
Defined.

(** A detach takes a slot whether there is one or not: with a limit of one, two tasks
    run in the background. *)
Example detach_exceeds_capacity :
  running_background_count (performs writes_succeed listed
    [OpRegisterBackground "task-1" build "build" "s" 10 0 None; OpRegisterForeground "task-2" build "tests" "s" 20 0 None; OpDetach "task-2"]
    (session_manager 1 None None)) = 2%nat.
Proof. vm_compute. reflexivity. Qed.

(** A foreground run that ends in the foreground tells its end without a start. *)
Example foreground_end_told :
  about "task-2" (events_of (performs writes_succeed listed
    [OpRegisterForeground "task-2" build "tests" "s" 20 0 None; OpComplete "task-2" 0 30] (session_manager 1 None None))) =
  [BackgroundTaskTerminated (mkInfo build "task-2" "tests" "completed" 0 (Some 0) None None (Some 0))].
Proof. vm_compute. reflexivity. Qed.

(** ** Operations that interleave

    A record is written, and an event published, after the lock of the tasks is
    released.  A task that ends between the two parts of its detach has its end
    published before its start, its record on disk says it still runs, and its slot of
    the background stays taken in the table of slots. *)
Definition event_word (e : SessionEvent) : string :=
  match e with BackgroundTaskStarted _ => "started" | BackgroundTaskTerminated _ => "terminated" end.
Definition archived_status (m : TaskManager) (i : string) : option TaskStatus :=
  d ← persistence m; file ← archive d !! i; status <$> file.
Definition detach_race : option (list string * option TaskStatus * option TaskStatus) :=
  let start := performs writes_succeed listed [OpRegisterForeground "task-1" build "tests" "s" 0 0 None]
    (session_manager 1 None (Some (mkDisk "tasks" ∅ ∅ 0))) in
  match detach_mark "task-1" start with
  | (m, Some (place, t)) =>
    let m := detach_finish writes_succeed "task-1" place t (complete writes_succeed "task-1" 0 2000000 m) in
    Some (event_word <$> events_of m, status <$> tasks m !! "task-1", archived_status m "task-1")
  | _ => None
  end.
Example detach_races_with_the_end :
  detach_race = Some (["terminated"; "started"], Some (Completed 0), Some Running).
Proof. vm_compute. reflexivity. Qed.
