(* ===== verification/TaskOutput.v ===== *)
(** * The output of background tasks

    What is kept of a task's output in memory and on disk, that it is the end of what
    was appended, and where appending panics. *)
From stdpp Require Import gmap strings list.
From S2P Require Import Prelude RustStd TaskManager TaskSound.
#[local] Open Scope string_scope.
#[local] Open Scope list_scope.

(** ** Texts *)

(** Well-formed UTF-8, character by character *)
Inductive Utf8 : string -> Prop :=
| U_nil : Utf8 ""
| U_char c ranges rest :
  continuation_ranges (byte_of c) = Some ranges -> continues ranges rest = (length ranges, true) ->
  Utf8 (drop_bytes (length ranges) rest) -> Utf8 (String c rest).

Lemma string_length_app (a b : string) : String.length (a +:+ b) = (String.length a + String.length b)%nat.
Proof. induction a as [|c a IH]; [done|]. change (S (String.length (a +:+ b)) = S (String.length a + String.length b)). by rewrite IH. Qed.
Lemma drop_bytes_0 s : drop_bytes 0 s = s.
Proof. by destruct s. Qed.
Lemma drop_bytes_length n s : String.length (drop_bytes n s) = (String.length s - n)%nat.
Proof. revert s. induction n as [|n IH]; intros s; [rewrite drop_bytes_0; lia|]. destruct s; simpl; [done|apply IH]. Qed.
Lemma drop_bytes_suffix n s : exists front, s = front +:+ drop_bytes n s.
Proof.
  revert s. induction n as [|n IH]; intros s; [exists ""; by rewrite drop_bytes_0|]. destruct s as [|c s]; [by exists ""|].
  destruct (IH s) as [front E]. exists (String c front). change (String c s = String c (front +:+ drop_bytes n s)). by rewrite <- E.
Qed.
Lemma get_drop n i s : String.get i (drop_bytes n s) = String.get (n + i) s.
Proof. revert s. induction n as [|n IH]; intros s; [by rewrite drop_bytes_0|]. destruct s as [|c s]; [simpl; by destruct i|]. simpl. apply IH. Qed.
Lemma get_overflow i s : (String.length s <= i)%nat -> String.get i s = None.
Proof. revert i. induction s as [|c s IH]; intros i Hi; [done|]. destruct i as [|i]; simpl in *; [lia|]. apply IH. lia. Qed.

Lemma continues_length ranges s n : continues ranges s = (n, true) -> n = length ranges /\ (n <= String.length s)%nat.
Proof.
  revert s n. induction ranges as [|[lo hi] ranges IH]; intros s n; simpl; [intros [= <-]; simpl; lia|].
  destruct s as [|c s]; [done|]. destruct (byte_in lo hi c); [|done]. destruct (continues ranges s) as [k ok] eqn:E.
  intros [= <- ->]. destruct (IH s k E) as [-> ?]. simpl. lia.
Qed.
Lemma ranges_short b ranges : continuation_ranges b = Some ranges -> (length ranges <= 3)%nat.
Proof. unfold continuation_ranges. repeat case_match; intros; simplify_eq; simpl; lia. Qed.
Lemma lead_byte c ranges : continuation_ranges (byte_of c) = Some ranges -> is_continuation c = false.
Proof.
  unfold continuation_ranges, is_continuation. intros H. destruct (Z.leb_spec 128 (byte_of c)), (Z.ltb_spec (byte_of c) 192); try done.
  exfalso. repeat case_match; simplify_eq; bsimpl; lia.
Qed.
Lemma utf8_starts s c : Utf8 s -> String.get 0 s = Some c -> is_continuation c = false.
Proof. intros H. destruct H as [|c' ranges rest Hr _ _]; [done|]. intros [= <-]. by eapply lead_byte. Qed.

Lemma boundary_S s j :
  is_char_boundary s (S j) = match String.get (S j) s with Some c => negb (is_continuation c) | None => (S j =? String.length s)%nat end.
Proof. reflexivity. Qed.

(** A boundary is at most three bytes back. *)
Lemma utf8_boundary s i :
  Utf8 s -> (i <= String.length s)%nat -> exists j, (j <= i <= j + 3)%nat /\ is_char_boundary s j = true.
Proof.
  intros Hs. revert i. induction Hs as [|c ranges rest Hr Hc Hs IH]; intros i Hi; [exists 0; simpl in Hi; split; [lia|done]|].
  pose proof (ranges_short _ _ Hr) as H3. destruct (continues_length _ _ _ Hc) as [_ Hlen]. simpl in Hi.
  destruct (Nat.le_gt_cases i 3) as [Hle|Hgt]; [exists 0; split; [lia|done]|].
  destruct (IH (i - S (length ranges))%nat) as (j & Hj & Hb); [rewrite drop_bytes_length; lia|].
  exists (S (length ranges) + j)%nat. split; [lia|].
  change (S (length ranges) + j)%nat with (S (length ranges + j)). rewrite boundary_S. cbn [String.get String.length]. rewrite <- get_drop.
  destruct j as [|j].
  - destruct (String.get 0 (drop_bytes (length ranges) rest)) as [c'|] eqn:E; [by rewrite (utf8_starts _ _ Hs E)|].
    assert (Hend : String.length (drop_bytes (length ranges) rest) = 0%nat) by (by destruct (drop_bytes (length ranges) rest)).
    rewrite drop_bytes_length in Hend. apply Nat.eqb_eq. lia.
  - rewrite boundary_S in Hb. destruct (String.get (S j) (drop_bytes (length ranges) rest)); [done|].
    rewrite drop_bytes_length in Hb. apply Nat.eqb_eq in Hb. apply Nat.eqb_eq. lia.
Qed.

Lemma cut_boundary_le s cut : (cut_boundary s cut <= cut)%nat.
Proof. induction cut as [|cut IH]; [done|]. cbn [cut_boundary]. destruct (is_char_boundary s (S cut)); lia. Qed.
Lemma cut_boundary_ge s cut j : (j <= cut)%nat -> is_char_boundary s j = true -> (j <= cut_boundary s cut)%nat.
Proof.
  induction cut as [|cut IH]; intros Hj Hb; [lia|]. cbn [cut_boundary]. destruct (is_char_boundary s (S cut)) eqn:E; [lia|].
  apply IH; [|done]. destruct (decide (j = S cut)) as [->|]; [congruence|lia].
Qed.

Lemma length_zero s : String.length s = 0%nat -> s = "".
Proof. by destruct s. Qed.
Lemma tail_whole s max : (String.length s <= max)%nat -> tail_bytes s max = s.
Proof. intros H. unfold tail_bytes. by rewrite (proj2 (Nat.leb_le _ _) H). Qed.
Lemma tail_long s max : (max < String.length s)%nat -> (max <= String.length (tail_bytes s max))%nat.
Proof.
  intros H. unfold tail_bytes. rewrite (proj2 (Nat.leb_gt _ _) H), drop_bytes_length.
  pose proof (cut_boundary_le s (String.length s - max)). lia.
Qed.
Lemma tail_suffix s max : exists front, s = front +:+ tail_bytes s max.
Proof. unfold tail_bytes. case_match; [by exists ""|apply drop_bytes_suffix]. Qed.
Lemma tail_length s max : Utf8 s -> (String.length (tail_bytes s max) <= max + 3)%nat.
Proof.
  intros Hs. unfold tail_bytes. destruct (Nat.leb_spec (String.length s) max); [lia|]. rewrite drop_bytes_length.
  destruct (utf8_boundary s (String.length s - max) Hs) as (j & Hj & Hb); [lia|].
  assert (j <= cut_boundary s (String.length s - max))%nat by (apply cut_boundary_ge; [lia|done]). lia.
Qed.

(** ** What is kept *)

Lemma retain_fits retained chunk :
  (String.length retained + String.length chunk <= MAX_TASK_OUTPUT_BYTES)%nat ->
  retain_output retained chunk = Some (retained +:+ chunk, false).
Proof. unfold retain_output. generalize MAX_TASK_OUTPUT_BYTES. intros cap H. by rewrite (proj2 (Nat.leb_le _ _) H). Qed.
Lemma retain_cuts retained chunk :
  (MAX_TASK_OUTPUT_BYTES < String.length retained + String.length chunk)%nat ->
  retain_output retained chunk =
  let chunk := tail_bytes chunk MAX_TASK_OUTPUT_BYTES in
  let keep := (MAX_TASK_OUTPUT_BYTES - String.length chunk)%nat in
  if (keep <? String.length retained)%nat then
    if is_char_boundary retained (String.length retained - keep) then Some (drop_bytes (String.length retained - keep) retained +:+ chunk, true) else None
  else Some (retained +:+ chunk, true).
Proof. unfold retain_output. generalize MAX_TASK_OUTPUT_BYTES. intros cap H. by rewrite (proj2 (Nat.leb_gt _ _) H). Qed.

Lemma retain_spec retained chunk kept dropped :
  Utf8 chunk -> (String.length retained <= MAX_TASK_OUTPUT_BYTES + 3)%nat -> retain_output retained chunk = Some (kept, dropped) ->
  (exists front, retained +:+ chunk = front +:+ kept /\ (dropped = false -> front = "")) /\
  (String.length kept <= MAX_TASK_OUTPUT_BYTES + 3)%nat.
Proof.
  intros Hu Hlen. unfold retain_output. generalize dependent MAX_TASK_OUTPUT_BYTES. intros cap Hlen.
  destruct (Nat.leb_spec (String.length retained + String.length chunk) cap) as [Hfit|Hover].
  - intros [= <- <-]. split; [by exists ""|]. rewrite string_length_app. lia.
  - pose proof (tail_length chunk cap Hu) as Ht. destruct (tail_suffix chunk cap) as [front Ef].
    destruct (Nat.ltb_spec (cap - String.length (tail_bytes chunk cap)) (String.length retained)) as [Hcut|Hkeep].
    + destruct (is_char_boundary _ _); [|done]. intros [= <- <-]. split; [|rewrite string_length_app, drop_bytes_length; lia].
      destruct (drop_bytes_suffix (String.length retained - (cap - String.length (tail_bytes chunk cap))) retained) as [head Eh].
      destruct (Nat.le_gt_cases (String.length chunk) cap) as [Hc|Hc].
      * rewrite (tail_whole chunk cap Hc) in *. exists head. split; [|done]. rewrite Eh at 1. by rewrite string_app_assoc.
      * pose proof (tail_long chunk cap Hc) as Hl. exists (retained +:+ front). split; [|done].
        replace (drop_bytes _ retained) with "".
        { rewrite Ef at 1. simpl. by rewrite string_app_assoc. }
        symmetry. apply length_zero. rewrite drop_bytes_length. lia.
    + intros [= <- <-]. destruct (Nat.le_gt_cases (String.length chunk) cap) as [Hc|Hc]; [rewrite (tail_whole chunk cap Hc) in *; lia|].
      pose proof (tail_long chunk cap Hc) as Hl. assert (retained = "") as -> by (apply length_zero; lia). split; [|done].
      exists front. by split.
Qed.

(** *** Texts of one-byte characters *)

Definition plain (s : string) : Prop := all_chars (fun c => negb (is_continuation c)) s = true.
Lemma all_chars_cat p a b : all_chars p (a +:+ b) = all_chars p a && all_chars p b.
Proof. induction a as [|c a IH]; [done|]. change (String c a +:+ b) with (String c (a +:+ b)). simpl. by rewrite IH, andb_assoc. Qed.
Lemma plain_app a b : plain (a +:+ b) <-> plain a /\ plain b.
Proof. unfold plain. rewrite all_chars_cat, andb_true_iff. done. Qed.
Lemma plain_drop n s : plain s -> plain (drop_bytes n s).
Proof. intros Hs. destruct (drop_bytes_suffix n s) as [front E]. rewrite E in Hs. by apply plain_app in Hs as [_ ?]. Qed.
Lemma plain_tail s max : plain s -> plain (tail_bytes s max).
Proof. intros Hs. destruct (tail_suffix s max) as [front E]. rewrite E in Hs. by apply plain_app in Hs as [_ ?]. Qed.
Lemma plain_boundary s n : plain s -> (n <= String.length s)%nat -> is_char_boundary s n = true.
Proof.
  destruct n as [|n]; [done|]. unfold is_char_boundary. remember (S n) as k eqn:Ek. clear n Ek. revert k.
  unfold plain. induction s as [|c s IH]; intros k Hs Hk.
  - simpl in *. destruct k; [done|lia].
  - simpl in Hs. apply andb_true_iff in Hs as [Hc Hs]. destruct k as [|k]; [done|]. simpl. apply IH; [done|]. simpl in Hk. lia.
Qed.
Lemma retain_plain retained chunk :
  plain retained -> plain chunk -> exists kept dropped, retain_output retained chunk = Some (kept, dropped) /\ plain kept.
Proof.
  intros Hr Hc. unfold retain_output. generalize MAX_TASK_OUTPUT_BYTES. intros cap. pose proof (plain_tail chunk cap Hc) as Ht.
  destruct (_ <=? _)%nat; [eexists _, _; split; [done|by apply plain_app]|].
  destruct (_ <? _)%nat; [|eexists _, _; split; [done|by apply plain_app]].
  rewrite plain_boundary by (done || lia). eexists _, _. split; [done|]. apply plain_app. split; [by apply plain_drop|done].
Qed.

Lemma MAX_value : MAX_TASK_OUTPUT_BYTES = N.to_nat (1024 * 1024).
Proof. reflexivity. Qed.
#[local] Opaque MAX_TASK_OUTPUT_BYTES retain_output.

Section appending.
Context (io_ok : nat -> bool).

(** A run that hands its output over in pieces *)
Fixpoint append_all (task_id : string) (chunks : list string) (m : TaskManager) : Ran :=
  match chunks with
  | [] => Returned m
  | chunk :: chunks => ran_bind (append_output io_ok task_id chunk m) (append_all task_id chunks)
  end.
Definition joined (chunks : list string) : string := String.concat "" chunks.

(** The log a task has on disk *)
Definition log_of (m : TaskManager) (task_id : string) : option string := d ← persistence m; logs d !! task_id.

(** What is kept of [said]: its end, all of it unless the task is marked, and no more
    than three bytes over the cap *)
Definition keeps (m : TaskManager) (task_id said : string) : Prop :=
  exists t front, tasks m !! task_id = Some t /\ said = front +:+ output t /\ (task_id ∉ truncated m -> front = "") /\
    (String.length (output t) <= MAX_TASK_OUTPUT_BYTES + 3)%nat.

Lemma joined_cons chunk chunks : joined (chunk :: chunks) = chunk +:+ joined chunks.
Proof. unfold joined. destruct chunks; simpl; [by rewrite string_app_nil_r|done]. Qed.

Lemma append_keeps i chunk said m m' :
  Utf8 chunk -> keeps m i said -> append_output io_ok i chunk m = Returned m' -> keeps m' i (said +:+ chunk).
Proof.
  intros Hu (t & front & Ht & -> & Hf & Hlen). unfold append_output. destruct (Nat.eqb_spec (String.length chunk) 0) as [E|_].
  - intros [= <-]. rewrite (length_zero chunk E). exists t, front. rewrite string_app_nil_r. done.
  - rewrite Ht. destruct (retain_output (output t) chunk) as [[kept dropped]|] eqn:Er; [|done].
    destruct (retain_spec _ _ _ _ Hu Hlen Er) as [(head & Eh & Hd) Hk]. intros [= <-].
    exists (with_output kept t), (front +:+ head). split.
    { destruct dropped; simpl; case_match; simpl; apply lookup_insert_eq. }
    split; [by rewrite <- string_app_assoc, Eh, string_app_assoc|]. split; [|done].
    assert (Etr : forall d : bool, truncated (if d then set_truncated ({[i]} ∪ truncated m) (set_tasks (<[i := with_output kept t]> (tasks m)) m)
        else set_tasks (<[i := with_output kept t]> (tasks m)) m) = if d then {[i]} ∪ truncated m else truncated m) by (by intros []).
    intros Hn.
    assert (Hn' : i ∉ (if dropped then {[i]} ∪ truncated m else truncated m)).
    { rewrite <- Etr. revert Hn. destruct dropped; simpl; case_match; done. }
    destruct dropped; [set_solver|]. by rewrite Hf, Hd by done.
Qed.

Lemma append_log i chunk m m' :
  (forall n, io_ok n = true) -> validate_task_id i = true -> is_Some (tasks m !! i) -> persistence m <> None ->
  append_output io_ok i chunk m = Returned m' ->
  is_Some (tasks m' !! i) /\ persistence m' <> None /\ or_empty (log_of m' i) = or_empty (log_of m i) +:+ chunk.
Proof.
  intros Hio Hid [t Ht] Hp. unfold append_output. destruct (Nat.eqb_spec (String.length chunk) 0) as [E|_].
  - intros [= <-]. rewrite (length_zero chunk E), string_app_nil_r, Ht. split_and!; [by eexists|done|done].
  - rewrite Ht. destruct (retain_output (output t) chunk) as [[kept dropped]|]; [|done]. intros [= <-].
    unfold log_of. destruct (persistence m) as [d|] eqn:Ed; [|done].
    destruct dropped; simpl; rewrite Ed; simpl; unfold disk_append; rewrite Hid, Hio; simpl; rewrite !lookup_insert_eq;
      (split_and!; [by eexists|done|done]).
Qed.

(** What an append leaves of a task, when it returns *)
Lemma append_task i chunk m t kept dropped :
  tasks m !! i = Some t -> retain_output (output t) chunk = Some (kept, dropped) ->
  exists m' t', append_output io_ok i chunk m = Returned m' /\ tasks m' !! i = Some t' /\
    output t' = if (String.length chunk =? 0)%nat then output t else kept.
Proof.
  intros Ht Er. unfold append_output. destruct (_ =? 0)%nat; [by exists m, t|]. rewrite Ht, Er. eexists _, (with_output kept t).
  split; [done|]. split; [|done]. destruct dropped; simpl; case_match; simpl; apply lookup_insert_eq.
Qed.
Lemma append_all_fits i chunks m t :
  tasks m !! i = Some t -> (String.length (output t) + String.length (joined chunks) <= MAX_TASK_OUTPUT_BYTES)%nat ->
  exists m', append_all i chunks m = Returned m'.
Proof.
  revert m t. induction chunks as [|chunk chunks IH]; intros m t Ht Hl; simpl; [by exists m|].
  rewrite joined_cons, string_length_app in Hl. destruct (append_task i chunk m t _ _ Ht (retain_fits (output t) chunk ltac:(lia))) as (m1 & t1 & -> & Ht1 & Eo).
  simpl. apply (IH m1 t1 Ht1). rewrite Eo. destruct (Nat.eqb_spec (String.length chunk) 0); [lia|]. rewrite string_length_app. lia.
Qed.
Lemma append_all_plain i chunks m t :
  tasks m !! i = Some t -> plain (output t) -> Forall plain chunks -> exists m', append_all i chunks m = Returned m'.
Proof.
  revert m t. induction chunks as [|chunk chunks IH]; intros m t Ht Ho Hp; simpl; [by exists m|]. apply Forall_cons in Hp as [Hc Hp].
  destruct (retain_plain (output t) chunk Ho Hc) as (kept & dropped & Er & Hk).
  destruct (append_task i chunk m t _ _ Ht Er) as (m1 & t1 & -> & Ht1 & Eo). simpl. apply (IH m1 t1 Ht1); [|done].
  rewrite Eo. by destruct (_ =? 0)%nat.
Qed.

(** C26. The output of a task is the end of what it said: a run that says no more than
    the cap, or only one-byte characters, hands over its text without a panic; and
    however a run hands over its text, what is kept in memory is the end of it, all of
    it unless the task is marked as truncated, at most three bytes over the cap, and
    the log on disk has the whole when the writes go through. *)
Theorem output_is_the_end i chunks m t :
  Forall Utf8 chunks -> tasks m !! i = Some t -> output t = "" ->
  ((String.length (joined chunks) <= MAX_TASK_OUTPUT_BYTES)%nat \/ Forall plain chunks -> exists m', append_all i chunks m = Returned m') /\
  forall m', append_all i chunks m = Returned m' ->
  (exists t' front, tasks m' !! i = Some t' /\ joined chunks = front +:+ output t' /\ (i ∉ truncated m' -> front = "") /\
    (String.length (output t') <= MAX_TASK_OUTPUT_BYTES + 3)%nat) /\
  ((forall n, io_ok n = true) -> validate_task_id i = true -> persistence m <> None ->
    or_empty (log_of m' i) = or_empty (log_of m i) +:+ joined chunks).
Proof.
  intros Hu Ht Ho. split.
  { intros [Hl|Hp]; [apply (append_all_fits i chunks m t Ht); by rewrite Ho|apply (append_all_plain i chunks m t Ht); [by rewrite Ho|done]]. }
  intros m' Hrun. split.
  - assert (Hgo : forall chunks said m, Forall Utf8 chunks -> keeps m i said -> append_all i chunks m = Returned m' -> keeps m' i (said +:+ joined chunks)).
    { clear. intros chunks. induction chunks as [|chunk chunks IH]; intros said m Hu Hk; simpl.
      - intros [= <-]. by rewrite string_app_nil_r.
      - apply Forall_cons in Hu as [Hu Hus]. destruct (append_output io_ok i chunk m) as [m1|m1] eqn:E; simpl; [|done].
        rewrite joined_cons, string_app_assoc. apply IH; [done|]. by eapply append_keeps. }
    apply (Hgo chunks "" m Hu); [|done]. exists t, "". rewrite Ho. split_and!; [done|done|done|simpl; lia].
  - intros Hio Hid Hp. assert (His : is_Some (tasks m !! i)) by (by eexists). clear Ht Ho Hu. revert m His Hp Hrun.
    induction chunks as [|chunk chunks IH]; intros m His Hp; simpl; [intros [= <-]; by rewrite string_app_nil_r|].
    destruct (append_output io_ok i chunk m) as [m1|m1] eqn:E; simpl; [|done]. intros Hrun.
    destruct (append_log i chunk m m1 Hio Hid His Hp E) as (His1 & Hp1 & El). rewrite (IH m1 His1 Hp1 Hrun), El.
    by rewrite joined_cons, string_app_assoc.
Qed.
End appending.

Lemma output_is_the_end_witness :
  exists t', (fun d => logs d !! "task-1") <$> persistence (ran_state (append_all writes_succeed "task-1" ["été "; "fini"]
    (performs writes_succeed listed [OpRegister "task-1" build "build" "s" 0 0 None] (session_manager 0 None (Some (mkDisk "tasks" ∅ ∅ 0)))))) =
    Some (Some "été fini") /\ output t' = "été fini".
Proof.
  set (m := performs writes_succeed listed [OpRegister "task-1" build "build" "s" 0 0 None] (session_manager 0 None (Some (mkDisk "tasks" ∅ ∅ 0)))).
  assert (Hu : Forall Utf8 ["été "; "fini"]).
  { repeat constructor. all: repeat (eapply U_char; [vm_compute; reflexivity|vm_compute; reflexivity|cbn [length drop_bytes]]). all: apply U_nil. }
  destruct (output_is_the_end writes_succeed "task-1" ["été "; "fini"] m (fresh_task "task-1" build "build" "s" 0 0 None false)
    Hu ltac:(vm_compute; reflexivity) eq_refl) as [_ Hend].
  destruct (Hend (ran_state (append_all writes_succeed "task-1" ["été "; "fini"] m)) ltac:(vm_compute; reflexivity)) as [(t' & front & Ht & E & Hf & _) _].
  exists t'. split; [vm_compute; reflexivity|]. rewrite Hf in E; [by symmetry|]. vm_compute. intros H. inversion H.
Defined.

(** ** Where appending panics

    The head is dropped at a byte count, and [String::drain] panics inside a character:
    a background run whose standard output is one megabyte of two-byte characters and
    which writes one byte to its error stream panics while it settles, and its task is
    never over. *)
Fixpoint repeat_text (n : nat) (s : string) : string := match n with O => "" | S n => s +:+ repeat_text n s end.
Lemma repeat_length n s : String.length (repeat_text n s) = (n * String.length s)%nat.
Proof. induction n as [|n IH]; [done|]. simpl. by rewrite string_length_app, IH. Qed.

Definition megabyte : string := repeat_text (N.to_nat 524288) "é".
Lemma megabyte_length : String.length megabyte = MAX_TASK_OUTPUT_BYTES.
Proof. rewrite MAX_value. unfold megabyte. rewrite repeat_length. change (String.length "é") with 2%nat. lia. Qed.
Lemma megabyte_inside : is_char_boundary megabyte 1 = false.
Proof. unfold megabyte. destruct (N.to_nat 524288) as [|n] eqn:E; [lia|]. reflexivity. Qed.

Lemma megabyte_inside_more : is_char_boundary (megabyte +:+ "!") 1 = false.
Proof. unfold megabyte. destruct (N.to_nat 524288) as [|n] eqn:E; [lia|]. reflexivity. Qed.
#[local] Opaque megabyte.

Example settling_panics io_ok i t m now :
  tasks m !! i = Some t -> output t = "" -> truncated m = ∅ -> persistence m = None ->
  exists m', settle_background_run io_ok i None (Ok (0%Z, megabyte, "!")) now m = Panicked m' /\
    status <$> tasks m' !! i = Some (status t).
Proof.
  intros Ht Ho _ Hp. set (m1 := set_tasks (<[i := with_output megabyte t]> (tasks m)) m). exists m1.
  assert (H1 : append_output io_ok i megabyte m = Returned m1).
  { unfold append_output. rewrite megabyte_length. destruct (Nat.eqb_spec MAX_TASK_OUTPUT_BYTES 0) as [E|_]; [rewrite MAX_value in E; lia|].
    rewrite Ht, Ho, retain_fits by (rewrite megabyte_length; simpl String.length; lia). simpl. by rewrite Hp. }
  assert (H2 : append_output io_ok i "!" m1 = Panicked m1).
  { unfold append_output. simpl. rewrite lookup_insert_eq. cbn [output with_output].
    rewrite retain_cuts by (rewrite megabyte_length; simpl String.length; lia).
    rewrite tail_whole by (rewrite MAX_value; simpl String.length; lia). rewrite megabyte_length. cbv zeta. change (String.length "!") with 1%nat.
    assert (H : (MAX_TASK_OUTPUT_BYTES - 1 < MAX_TASK_OUTPUT_BYTES)%nat) by (rewrite MAX_value; lia).
    rewrite (proj2 (Nat.ltb_lt _ _) H). replace (MAX_TASK_OUTPUT_BYTES - (MAX_TASK_OUTPUT_BYTES - 1))%nat with 1%nat by lia.
    by rewrite megabyte_inside. }
  unfold settle_background_run. rewrite H1. simpl. rewrite H2. split; [done|]. unfold m1. simpl. by rewrite lookup_insert_eq.
Qed.

(** A first piece of one byte over the cap whose cut falls inside a character is kept
    whole, though it is over the cap, and marked as truncated. *)
Example over_the_cap :
  retain_output "" (megabyte +:+ "!") = Some (megabyte +:+ "!", true) /\
  String.length (megabyte +:+ "!") = S MAX_TASK_OUTPUT_BYTES.
Proof.
  assert (Hl : String.length (megabyte +:+ "!") = S MAX_TASK_OUTPUT_BYTES) by (rewrite string_length_app, megabyte_length; simpl; lia).
  assert (Ht : tail_bytes (megabyte +:+ "!") MAX_TASK_OUTPUT_BYTES = megabyte +:+ "!").
  { unfold tail_bytes. rewrite Hl. generalize MAX_TASK_OUTPUT_BYTES. intros cap. rewrite (proj2 (Nat.leb_gt (S cap) cap)) by lia. replace (S cap - cap)%nat with 1%nat by lia.
    cbn [cut_boundary]. rewrite megabyte_inside_more. apply drop_bytes_0. }
  split; [|done]. rewrite retain_cuts by (rewrite Hl; simpl String.length; lia). cbv zeta. rewrite Ht, Hl.
  generalize MAX_TASK_OUTPUT_BYTES. intros cap. cbn [String.length]. by rewrite (proj2 (Nat.ltb_ge (cap - S cap) 0)), string_app_nil_l by lia.
Qed.
