(* ===== verification/TaskRestart.v ===== *)
(** * Restarting a session with its background tasks

    While the writes go through, the records on disk are those in memory up to the
    output, which has its own log; a manager opened on them has the same tasks, with
    those that were lost with their process stopped. *)
From stdpp Require Import gmap strings list sorting.
From S2P Require Import Prelude RustStd TaskManager TaskSound TaskOutput.
#[local] Open Scope string_scope.
#[local] Open Scope list_scope.
#[local] Open Scope Z_scope.

(** What a record says apart from the output *)
Definition record_of (t : AgentTask) : AgentTask := with_output "" (archived t).
Definition mirrored (ts : gmap string AgentTask) (files : gmap string (option AgentTask)) : Prop :=
  (fun file => record_of <$> file) <$> files = (fun t => Some (record_of t)) <$> ts.

Lemma mirrored_insert ts files t i : mirrored ts files -> mirrored (<[i := t]> ts) (<[i := Some (archived t)]> files).
Proof. unfold mirrored. rewrite !fmap_insert. intros ->. done. Qed.
Lemma mirrored_output ts files i t o : mirrored ts files -> ts !! i = Some t -> mirrored (<[i := with_output o t]> ts) files.
Proof.
  unfold mirrored. intros -> Ht. rewrite fmap_insert. symmetry. apply insert_id. rewrite lookup_fmap, Ht. done.
Qed.
Lemma mirrored_lookup ts files i :
  mirrored ts files ->
  match ts !! i with
  | Some t => exists t', files !! i = Some (Some t') /\ record_of t' = record_of t
  | None => files !! i = None
  end.
Proof.
  unfold mirrored. intros E. apply (f_equal (fun f => f !! i)) in E. rewrite !lookup_fmap in E.
  destruct (ts !! i) as [t|], (files !! i) as [[t'|]|]; cbn in E; try discriminate E; [|done].
  exists t'. split; [done|]. by apply (inj Some), (inj Some) in E.
Qed.

Section restart.
Context (io_ok : nat -> bool) (hash_order : gmap string AgentTask -> list AgentTask).
Context (Horder : forall ts, hash_order ts ≡ₚ (map_to_list ts).*2).
Context (Hio : forall n, io_ok n = true).

Record on_disk (m : TaskManager) : Prop := {
  d_mirror : exists d, persistence m = Some d /\ mirrored (tasks m) (archive d);
  d_valid : map_Forall (fun i _ => validate_task_id i = true) (tasks m)
}.

Lemma on_disk_same m m' : tasks m' = tasks m -> persistence m' = persistence m -> on_disk m -> on_disk m'.
Proof. intros Et Ep [H1 H2]. constructor; by rewrite ?Et, ?Ep. Qed.

Lemma persist_mirror t m d :
  persistence m = Some d -> validate_task_id (id t) = true ->
  exists d', persistence (persist_task io_ok t m) = Some d' /\ archive d' = <[id t := Some (archived t)]> (archive d).
Proof. intros Hd Hv. unfold persist_task, save_task. rewrite Hd, Hv, Hio. simpl. by eexists. Qed.
Lemma persist_tasks t m : tasks (persist_task io_ok t m) = tasks m.
Proof. apply (core_persist io_ok t m). Qed.
Lemma event_publish_same e m : tasks (publish_event e m) = tasks m /\ persistence (publish_event e m) = persistence m.
Proof. unfold publish_event. by destruct (event_bus m). Qed.

Lemma persist_same t a b : persistence a = persistence b -> persistence (persist_task io_ok t a) = persistence (persist_task io_ok t b).
Proof. intros E. unfold persist_task. rewrite E. destruct (persistence b) eqn:Eb; simpl; congruence. Qed.

(** A record written as it changes *)
Lemma on_disk_write i t m m' :
  id t = i -> validate_task_id i = true -> tasks m' = <[i := t]> (tasks m) -> persistence m' = persistence (persist_task io_ok t m) ->
  on_disk m -> on_disk m'.
Proof.
  intros <- Hv Et Ep [(d & Hd & Hm) Hval]. destruct (persist_mirror t m d Hd Hv) as (d' & Ed & Ea). constructor.
  - exists d'. rewrite Ep, Et. split; [done|]. rewrite Ea. by apply mirrored_insert.
  - rewrite Et. by apply map_Forall_insert_2.
Qed.

Lemma persist_all_same ts a b :
  persistence a = persistence b ->
  persistence (foldl (fun m t => persist_task io_ok t m) a ts) = persistence (foldl (fun m t => persist_task io_ok t m) b ts).
Proof.
  revert a b. induction ts as [|t ts IH]; intros a b E; [done|]. simpl. by apply IH, persist_same.
Qed.

(** Many records changed, then written one after another *)
Lemma on_disk_writes ts m m' :
  Forall (fun t => validate_task_id (id t) = true) ts ->
  tasks m' = foldl (fun acc t => <[id t := t]> acc) (tasks m) ts ->
  persistence m' = persistence (foldl (fun m t => persist_task io_ok t m) m ts) ->
  on_disk m -> on_disk m'.
Proof.
  revert m. induction ts as [|t ts IH]; intros m Hv Et Ep Hd; [by apply (on_disk_same m)|].
  apply Forall_cons in Hv as [Hv Hvs]. simpl in *.
  apply (IH (set_tasks (<[id t := t]> (tasks m)) (persist_task io_ok t m))); [done|done| |].
  - rewrite Ep. by apply persist_all_same.
  - by apply (on_disk_write (id t) t m).
Qed.

Lemma on_disk_insert t instant b m : validate_task_id (id t) = true -> on_disk m -> on_disk (insert_task io_ok t instant b m).
Proof.
  intros Hv Hd. destruct (inserted io_ok t instant b m) as [Et _].
  apply (on_disk_write (id t) t m); [done|done|done| |done]. unfold insert_task.
  destruct b; rewrite ?(proj2 (event_publish_same _ _)); by apply persist_same.
Qed.

Lemma on_disk_transition i s now m : keyed_table id (tasks m) -> on_disk m -> on_disk (transition io_ok i s now m).
Proof.
  intros Hk Hd.
  assert (Hp : forall m, tasks (prune i m) = tasks m /\ persistence (prune i m) = persistence m).
  { intros m0. unfold prune. simpl. by destruct (foreground_releases m0 !! i). }
  unfold transition, transition_mark, transition_finish. destruct (tasks m !! i) as [t|] eqn:Ht.
  - destruct (is_terminal (status t)); [done|]. set (t' := with_status s (Some now) t).
    assert (Hv : validate_task_id i = true) by exact (d_valid m Hd i t Ht).
    apply (on_disk_write i t' m); [exact (Hk i t Ht)|done| | |done].
    + rewrite (proj1 (event_publish_same _ _)), persist_tasks, (proj1 (Hp _)). done.
    + rewrite (proj2 (event_publish_same _ _)). apply persist_same. by rewrite (proj2 (Hp _)).
  - apply (on_disk_same m); [apply Hp|apply Hp|done].
Qed.
Lemma on_disk_fired i s now m : keyed_table id (tasks m) -> on_disk m -> on_disk (transition io_ok i s now (fire_signal i m)).
Proof.
  intros Hk Hd. assert (E : tasks (fire_signal i m) = tasks m) by apply core_fire_signal.
  apply on_disk_transition; [by rewrite E|]. apply (on_disk_same m); [done| |done]. unfold fire_signal. by destruct (signals m !! i).
Qed.

Lemma on_disk_mark change i m :
  keyed_table id (tasks m) -> (forall t t', change t = Some t' -> id t' = id t) -> on_disk m -> on_disk (mark io_ok change i m).
Proof.
  intros Hk Hc Hd. unfold mark. destruct (tasks m !! i) as [t|] eqn:Ht; [|done]. destruct (change t) as [t'|] eqn:E; [|done].
  apply (on_disk_write i t' m); [rewrite (Hc _ _ E); exact (Hk i t Ht)|exact (d_valid m Hd i t Ht)|by rewrite persist_tasks| |done].
  by apply persist_same.
Qed.

Lemma changed_valid (change : AgentTask -> option AgentTask) m :
  keyed_table id (tasks m) -> on_disk m -> (forall t t', change t = Some t' -> id t' = id t) ->
  Forall (fun t => validate_task_id (id t) = true) (omap change (hash_order (tasks m))).
Proof.
  intros Hk Hd Hc. apply Forall_forall. intros t' Ht'. apply list_elem_of_omap in Ht' as (t & Ht & E). rewrite (Hc _ _ E).
  apply (order_elem hash_order Horder) in Ht; [|done]. exact (d_valid m Hd _ _ Ht).
Qed.

Lemma on_disk_mark_running change m :
  keyed_table id (tasks m) -> (forall t t', change t = Some t' -> id t' = id t) -> on_disk m ->
  on_disk (mark_running io_ok hash_order change m).
Proof.
  intros Hk Hc Hd. unfold mark_running. set (ts := omap _ _).
  apply (on_disk_writes ts m); [| |by apply persist_all_same|done].
  - apply changed_valid; [done|done|]. intros t t'. case_bool_decide; [apply Hc|done].
  - destruct (core_persist_all io_ok ts (set_tasks (foldl (fun acc t => <[id t := t]> acc) (tasks m) ts) m)) as (E & _). exact E.
Qed.

Lemma on_disk_append i text m : on_disk m -> on_disk (ran_state (append_output io_ok i text m)).
Proof.
  intros Hd. unfold append_output. destruct (_ =? 0)%nat; [done|]. destruct (tasks m !! i) as [t|] eqn:Ht; [|done].
  destruct (retain_output (output t) text) as [[kept dropped]|]; [|done]. destruct Hd as [(d & Ed & Hm) Hv]. simpl.
  set (m1 := if dropped then _ else _). assert (E : tasks m1 = <[i := with_output kept t]> (tasks m) /\ persistence m1 = Some d) by (unfold m1; destruct dropped; done).
  destruct E as [Et Ep]. rewrite Ep. constructor; simpl.
  - eexists. split; [done|]. rewrite Et. unfold disk_append. destruct (validate_task_id i); simpl; by apply mirrored_output.
  - rewrite Et. apply map_Forall_insert_2; [exact (Hv i t Ht)|done].
Qed.

Lemma fire_all_disk places m : persistence (foldl (fun m place => fire_at Terminal place m) m places) = persistence m.
Proof. revert m. induction places as [|p places IH]; intros m; [done|]. simpl. by rewrite IH. Qed.

Lemma on_disk_stop_all now m : keyed_table id (tasks m) -> on_disk m -> on_disk (stop_all io_ok hash_order now m).
Proof.
  intros Hk Hd. unfold stop_all. cbv zeta. set (ts := omap _ _). set (m1 := set_tool_call_ids _ _).
  set (places := (map_to_list _).*2). destruct (core_fire_all places m1) as (Et & _). set (m2 := foldl _ m1 places) in *.
  assert (Ep : persistence m2 = persistence m) by apply (fire_all_disk places m1).
  assert (Hfold : forall ts a b, persistence a = persistence b ->
    persistence (foldl (fun m t => publish_event (BackgroundTaskTerminated (background_task_info t)) (persist_task io_ok t m)) a ts) =
    persistence (foldl (fun m t => persist_task io_ok t m) b ts)).
  { clear. intros ts. induction ts as [|t ts IH]; intros a b E; [done|]. simpl. apply IH. rewrite (proj2 (event_publish_same _ _)).
    by apply persist_same. }
  apply (on_disk_writes ts m); [| |by apply Hfold|done].
  - apply (changed_valid (stopped_at now) m Hk Hd). intros t t'. unfold stopped_at. case_bool_decide; [|done]. by intros [= <-].
  - destruct (events_publish_all io_ok ts m2 "") as (E & _). rewrite E, Et. reflexivity.
Qed.

Lemma on_disk_detach i m : keyed_table id (tasks m) -> on_disk m -> on_disk (fst (detach_foreground io_ok i m)).
Proof.
  intros Hk Hd. unfold detach_foreground, detach_mark. destruct (foreground_releases m !! i) as [place|]; [|done].
  destruct (tasks m !! i) as [t|] eqn:Ht; [|done]. destruct (_ || _); [done|]. cbn [fst]. unfold detach_finish. cbv zeta.
  apply (on_disk_write i (with_detached true t) m); [exact (Hk i t Ht)|exact (d_valid m Hd i t Ht)| | |done].
  - change (tasks (fire_at ?r ?p ?m)) with (tasks m). rewrite (proj1 (event_publish_same _ _)), persist_tasks. done.
  - change (persistence (fire_at ?r ?p ?m)) with (persistence m). rewrite (proj2 (event_publish_same _ _)). by apply persist_same.
Qed.

(** An operation mints ids that can be names of files. *)
Definition mints_valid (op : TaskOp) : Prop := match minted op with Some i => validate_task_id i = true | None => True end.

Lemma on_disk_settle i signal run now m : sound m -> on_disk m -> on_disk (ran_state (settle_background_run io_ok i signal run now m)).
Proof.
  intros Hs Hd. unfold settle_background_run. destruct run as [[[code stdout] stderr]|error].
  - pose proof (sound_append io_ok i stdout m Hs) as S1. pose proof (on_disk_append i stdout m Hd) as H1.
    destruct (append_output io_ok i stdout m) as [m1|m1]; simpl in *; [|done].
    pose proof (sound_append io_ok i stderr m1 S1) as S2. pose proof (on_disk_append i stderr m1 H1) as H2.
    destruct (append_output io_ok i stderr m1) as [m2|m2]; simpl in *; [|done].
    destruct (is_cancelled m signal); [apply on_disk_fired; [apply S2|exact H2]|apply on_disk_transition; [apply S2|exact H2]].
  - simpl. destruct (is_cancelled m signal); [apply on_disk_fired; [apply Hs|exact Hd]|apply on_disk_transition; [apply Hs|exact Hd]].
Qed.

Lemma on_disk_perform op m : mints_valid op -> sound m -> on_disk m -> on_disk (perform io_ok hash_order op m).
Proof.
  intros Hv Hs Hd. pose proof (s_keyed m Hs) as Hk. destruct op; unfold mints_valid in Hv; cbn [minted] in Hv; cbn [perform].
  all: try (by apply on_disk_insert); try (by apply on_disk_detach); try (by apply on_disk_transition); try (by apply on_disk_fired).
  all: try (by apply on_disk_append); try (by apply on_disk_settle); try (by apply on_disk_stop_all).
  - unfold register_background. case_match; [done|]. cbn [fst]. apply (on_disk_same (register_inner io_ok task_id k text session now instant timeout true m)); [done|done|].
    by apply on_disk_insert.
  - unfold register_foreground. cbn [fst]. apply on_disk_insert; [done|]. apply (on_disk_same m); by destruct tool_call_id.
  - unfold detach_foreground_by_tool_call. destruct (tool_call_ids m !! _); [by apply on_disk_detach|done].
  - by apply (on_disk_same m).
  - by apply (on_disk_same m).
  - unfold fire_signal. by destruct (signals m !! _); apply (on_disk_same m).
  - unfold heartbeat. by destruct (tasks m !! _); apply (on_disk_same m).
  - unfold settle_background_cancelled. pose proof (sound_append io_ok task_id text m Hs) as S1. pose proof (on_disk_append task_id text m Hd) as H1.
    destruct (append_output io_ok task_id text m); simpl in *; [apply on_disk_fired; [apply S1|exact H1]|done].
  - apply on_disk_mark; [done| |done]. intros t t'. unfold suppressed. case_match; [done|]. by intros [= <-].
  - apply on_disk_mark; [done| |done]. intros t t'. case_match; [done|]. by intros [= <-].
  - apply on_disk_mark; [done| |done]. intros t t'. case_match; [|done]. by intros [= <-].
  - apply on_disk_mark; [done| |done]. intros t t'. by intros [= <-].
  - apply on_disk_mark; [done| |done]. intros t t'. unfold exempted. case_match; [done|]. by intros [= <-].
  - apply on_disk_mark_running; [done| |done]. intros t t'. unfold suppressed. case_match; [done|]. by intros [= <-].
  - apply on_disk_mark_running; [done| |done]. intros t t'. unfold exempted. case_match; [done|]. by intros [= <-].
  - unfold terminate_expired. cbn [fst]. generalize (id <$> base.filter (fun t => is_expired m now instant t = true) (hash_order (tasks m))).
    intros l. clear Hk. revert m Hs Hd. induction l as [|i l IH]; intros m Hs Hd; [done|]. simpl. apply IH; [by apply sound_terminate|].
    apply on_disk_fired; [apply Hs|exact Hd].
Qed.

Lemma on_disk_performs ops m :
  Forall mints_valid ops -> all_allowed io_ok hash_order ops m -> sound m -> on_disk m -> on_disk (performs io_ok hash_order ops m).
Proof.
  revert m. induction ops as [|op ops IH]; intros m Hv Ha Hs Hd; [done|]. apply Forall_cons in Hv as [Hv Hvs]. destruct Ha as [Ha Has].
  apply IH; [done|done|by apply sound_perform|by apply on_disk_perform].
Qed.

(** ** Opening the records again *)

Context (directory : gmap string (option AgentTask) -> list (option AgentTask)).
Context (Hdirectory : forall files, directory files ≡ₚ (map_to_list files).*2).

Definition restored (now : Z) (t : AgentTask) : AgentTask := match reconcile now t with Some t' => t' | None => t end.

Lemma load_one_tasks now t m : id (restored now t) = id t -> tasks (load_one io_ok now m t) = <[id t := restored now t]> (tasks m).
Proof.
  unfold load_one, restored. destruct (reconcile now t) as [t'|]; [|done]. intros <-. simpl.
  assert (E : tasks (persist_task io_ok t' m) = tasks m) by apply core_persist. done.
Qed.
Lemma restored_id now t : id (restored now t) = id t.
Proof. unfold restored, reconcile. by destruct (_ && _). Qed.

Lemma load_all_tasks now ts m i :
  NoDup (id <$> ts) ->
  tasks (foldl (load_one io_ok now) m ts) !! i =
  match list_find (fun t => id t = i) ts with Some (_, t) => Some (restored now t) | None => tasks m !! i end.
Proof.
  revert m. induction ts as [|t ts IH]; intros m Hnd; [done|]. rewrite fmap_cons in Hnd. apply NoDup_cons in Hnd as [Hn Hnd].
  cbn [foldl]. rewrite IH by done. cbn [list_find]. rewrite load_one_tasks by apply restored_id.
  destruct (decide (id t = i)) as [<-|Hi].
  - destruct (list_find _ ts) as [[j t']|] eqn:E.
    + apply list_find_Some in E as (Hj & Hid & _). exfalso. apply Hn. apply list_elem_of_fmap. exists t'. split; [done|].
      by eapply list_elem_of_lookup_2.
    + by rewrite lookup_insert_eq.
  - destruct (list_find _ ts) as [[j t']|] eqn:E; [done|]. by rewrite lookup_insert_ne.
Qed.

Lemma loaded_elem d t : t ∈ load_tasks directory d <-> exists i, archive d !! i = Some (Some t).
Proof.
  unfold load_tasks. rewrite merge_sort_Permutation, list_elem_of_omap. split.
  - intros (file & Hf & ->). rewrite Hdirectory in Hf. apply list_elem_of_fmap in Hf as ([i f] & E & Hf). simpl in E. subst f.
    apply elem_of_map_to_list in Hf. by exists i.
  - intros [i Hi]. exists (Some t). split; [|done]. rewrite Hdirectory. apply list_elem_of_fmap. exists (i, Some t). split; [done|].
    by apply elem_of_map_to_list.
Qed.

Lemma loaded_distinct d :
  (forall i t, archive d !! i = Some (Some t) -> id t = i) -> NoDup (id <$> load_tasks directory d).
Proof.
  intros Hid. unfold load_tasks. rewrite merge_sort_Permutation, Hdirectory.
  assert (H : forall l, NoDup l.*1 -> (forall i t, (i, Some t) ∈ l -> id t = i) -> NoDup (id <$> omap (fun file => file) (l.*2 : list (option AgentTask)))).
  { clear. intros l. induction l as [|[i [t|]] l IH]; intros Hnd Hid; [constructor| |].
    - cbn. apply NoDup_cons in Hnd as [Hn Hnd]. apply NoDup_cons. split; [|apply IH; [done|]; intros; apply Hid; set_solver].
      intros Hin. apply list_elem_of_fmap in Hin as (t' & E & Hin). apply list_elem_of_omap in Hin as (f & Hf & ->).
      apply list_elem_of_fmap in Hf as ([j f'] & Ef & Hf). simpl in Ef. subst f'. apply Hn.
      assert (id t = i) by (apply Hid; set_solver). assert (id t' = j) by (apply Hid; set_solver).
      apply list_elem_of_fmap. exists (j, Some t'). simpl. split; [congruence|done].
    - cbn. apply NoDup_cons in Hnd as [_ Hnd]. apply IH; [done|]. intros; apply Hid; set_solver. }
  apply H; [apply NoDup_fst_map_to_list|]. intros i t Hi. apply Hid. by apply elem_of_map_to_list.
Qed.

(** C25. A restart keeps the tasks: when the writes go through, a manager opened on
    what a session left on disk has exactly the session's tasks, each as it was apart
    from its deadline, its output being what the last write of its record said; a task
    that still ran is stopped, unless its process can be found again. *)
Theorem restart_keeps_tasks limit timeout dir ops d now i :
  let m := performs io_ok hash_order ops (session_manager limit timeout (Some (mkDisk dir ∅ ∅ 0))) in
  let m' := with_persistence io_ok directory true now d in
  all_allowed io_ok hash_order ops (session_manager limit timeout (Some (mkDisk dir ∅ ∅ 0))) -> Forall mints_valid ops ->
  persistence m = Some d ->
  match tasks m !! i with
  | Some t => exists t', tasks m' !! i = Some t' /\
      record_of t' = (if bool_decide (status t = Running) && bool_decide (fingerprint t = None) then with_status Stopped (Some now) (record_of t) else record_of t)
  | None => tasks m' !! i = None
  end.
Proof.
  intros m m' Ha Hv Hp. pose proof (sound_session limit timeout (Some (mkDisk dir ∅ ∅ 0))) as S0.
  assert (D0 : on_disk (session_manager limit timeout (Some (mkDisk dir ∅ ∅ 0)))).
  { constructor; [|apply map_Forall_empty]. eexists. split; [reflexivity|]. unfold mirrored. simpl. by rewrite !fmap_empty. }
  pose proof (sound_performs io_ok hash_order Horder ops _ Ha S0) as Hs. pose proof (on_disk_performs ops _ Hv Ha S0 D0) as [(d' & Ed & Hm) _].
  fold m in Hs, Ed, Hm. rewrite Hp in Ed. injection Ed as <-.
  assert (Hid : forall j t, archive d !! j = Some (Some t) -> id t = j).
  { intros j t Hj. pose proof (mirrored_lookup _ _ j Hm) as H. destruct (tasks m !! j) as [t0|] eqn:Et; [|congruence].
    destruct H as (t' & E & Er). rewrite Hj in E. injection E as <-. pose proof (s_keyed m Hs j t0 Et) as Hk.
    apply (f_equal id) in Er. unfold record_of in Er. simpl in Er. simpl in Hk. congruence. }
  unfold m', with_persistence. rewrite load_all_tasks by (by apply loaded_distinct).
  pose proof (mirrored_lookup _ _ i Hm) as Hi. destruct (list_find _ _) as [[j t1]|] eqn:Ef.
  - apply list_find_Some in Ef as (Hj & Et1 & _). apply list_elem_of_lookup_2, loaded_elem in Hj as [k Hk].
    pose proof (Hid k t1 Hk) as Ek. assert (k = i) as -> by congruence. destruct (tasks m !! i) as [t|]; [|congruence].
    destruct Hi as (t' & E & Er). rewrite Hk in E. injection E as <-. exists (restored now t1). split; [done|].
    assert (Es : status t1 = status t) by exact (f_equal status Er). assert (Efp : fingerprint t1 = fingerprint t) by exact (f_equal fingerprint Er).
    unfold restored, reconcile. rewrite Es, Efp. destruct (_ && _); [|done].
    change (record_of (with_status Stopped (Some now) t1)) with (with_status Stopped (Some now) (record_of t1)). by rewrite Er.
  - apply list_find_None in Ef. assert (Hn : forall t, archive d !! i <> Some (Some t)).
    { intros t Ht. pose proof (proj2 (loaded_elem d t) (ex_intro _ i Ht)) as Hin. rewrite Forall_forall in Ef.
      exact (Ef t Hin (Hid i t Ht)). }
    destruct (tasks m !! i) as [t|]; [|done]. destruct Hi as (t' & E & _). by destruct (Hn t').
Qed.
End restart.

Definition directory_order (files : gmap string (option AgentTask)) : list (option AgentTask) := (map_to_list files).*2.
Definition lost_ops : list TaskOp := sample_ops ++ [OpRegister "task-3" build "server" "s" 60 0 None].
Lemma restart_keeps_tasks_witness :
  let m := performs writes_succeed listed lost_ops (session_manager 2 None (Some (mkDisk "tasks" ∅ ∅ 0))) in
  exists d t', persistence m = Some d /\
    tasks (with_persistence writes_succeed directory_order true 90 d) !! "task-3" = Some t' /\ status t' = Stopped /\ ended_at t' = Some 90.
Proof.
  assert (H : exists d, persistence (performs writes_succeed listed lost_ops (session_manager 2 None (Some (mkDisk "tasks" ∅ ∅ 0)))) = Some d).
  { eexists. vm_compute. reflexivity. }
  destruct H as [d Hd]. exists d.
  pose proof (restart_keeps_tasks writes_succeed listed (fun _ => reflexivity _) (fun _ => eq_refl) directory_order (fun _ => reflexivity _)
    2 None "tasks" lost_ops d 90 "task-3" ltac:(vm_compute; by repeat split) ltac:(repeat constructor) Hd) as R.
  replace (tasks (performs writes_succeed listed lost_ops (session_manager 2 None (Some (mkDisk "tasks" ∅ ∅ 0)))) !! "task-3")
    with (Some (fresh_task "task-3" build "server" "s" 60 0 None false)) in R by (vm_compute; reflexivity).
  destruct R as (t' & Ht & Er). exists t'. split; [exact Hd|]. split; [exact Ht|].
  split; [exact (f_equal status Er)|exact (f_equal ended_at Er)].
Defined.
