(* ===== verification/TaskNotice.v ===== *)
(** * Notifications of background tasks: [mirri-core/src/task_notification.rs] and
      [turn_flow/steering.rs]

    When a background task is over, the agent that started it is told by a message in
    its context.  What the message says, how it is recognized, which tasks are due one,
    and the buffer it waits in while the agent is busy. *)
From stdpp Require Import gmap strings list pretty.
From S2P Require Import Prelude RustStd Json Context TokenEstimator Memory LoopWire TaskManager.
#[local] Open Scope string_scope.
#[local] Open Scope list_scope.

Definition NOTIFICATION_FALLBACK_PREVIEW_BYTES : nat := 3000.
Definition DISMISSED_NOTE : string := "The user dismissed the question without providing an answer.".
Definition DISMISSED_INSTRUCTION : string :=
  "Do not proceed on assumptions or guesses. The user closed this question without answering — end your current turn and wait for their next input. Do not re-ask the same question in this turn; if you still need an answer later, ask it again in a different, clearer way.".

(** ** The steer buffer *)

Record BufferedSteer : Type := mkSteer { s_content : list ContentPart; s_origin : PromptOrigin }.
(** [SteerBuffer]: the steers in their order of arrival *)
Definition SteerBuffer : Type := list BufferedSteer.
Definition steer_push (content : list ContentPart) (origin : PromptOrigin) (b : SteerBuffer) : SteerBuffer :=
  b ++ [mkSteer content origin].
Definition take_items (b : SteerBuffer) : SteerBuffer * list BufferedSteer := ([], b).
Definition append_steer (m : ContextMemory) (s : BufferedSteer) : ContextMemory := append_user_message (s_content s) (s_origin s) m.
Definition steer_flush (b : SteerBuffer) (m : ContextMemory) : SteerBuffer * ContextMemory * bool :=
  if bool_decide (b = []) then (b, m, false) else ([], foldl append_steer m b, true).

(** ** Identity *)

Record NotificationKey : Type := mkKey { k_task_id : string; k_status : string; k_notification_id : string }.
#[export] Instance NotificationKey_eq_dec : EqDecision NotificationKey. Proof. solve_decision. Defined.
#[export] Program Instance NotificationKey_countable : Countable NotificationKey :=
  inj_countable' (fun k => (k_task_id k, k_status k, k_notification_id k)) (fun '(a, b, c) => mkKey a b c) _.
Next Obligation. by intros []. Qed.

Definition new_key (task_id status : string) : NotificationKey := mkKey task_id status ("task:" +:+ task_id +:+ ":" +:+ status).
Definition key_origin (k : NotificationKey) : PromptOrigin := BackgroundTask (k_task_id k) (k_status k) (k_notification_id k).
Definition key_wire (k : NotificationKey) : json := origin_to_value (key_origin k).
Definition parse_key (origin : json) : option NotificationKey :=
  kind ← str_field "kind" origin;
  if bool_decide (kind <> "background_task") && bool_decide (kind <> "task") then None
  else
    task_id ← str_field "taskId" origin;
    status ← str_field "status" origin;
    notification_id ← str_field "notificationId" origin;
    Some (mkKey task_id status notification_id).

(** The key of a message's origin, read where the ledgers are scanned *)
Definition key_of_origin (o : PromptOrigin) : option NotificationKey :=
  match o with BackgroundTask task_id status notification_id => Some (mkKey task_id status notification_id) | _ => None end.
Definition key_of_entry (e : Entry) : option NotificationKey := o ← origin (e_msg e); key_of_origin o.
Definition delivered_keys (m : ContextMemory) : gset NotificationKey := list_to_set (omap key_of_entry (history m)).
Definition parked_keys (b : SteerBuffer) : gset NotificationKey := list_to_set (omap (fun s => key_of_origin (s_origin s)) b).

(** ** The message *)

Definition kind_word (k : TaskKind) : string :=
  match k with Process _ _ => "process" | Agent _ _ _ _ _ => "agent" | Question _ => "question" end.
Definition task_status_word (s : TaskStatus) : string :=
  match s with
  | Running => "running"
  | Completed _ => "completed"
  | Failed reason => if bool_decide (reason = TASK_TIMEOUT_MESSAGE) then "timed_out" else "failed"
  | Stopped => "killed"
  end.

(** [str::replace] of one character *)
Fixpoint replace_char (c : ascii) (by_text s : string) : string :=
  match s with
  | EmptyString => ""
  | String c' s => if ascii_dec c' c then by_text +:+ replace_char c by_text s else String c' (replace_char c by_text s)
  end.
Definition QUOTE : ascii := ascii_of_nat 34.
Definition escape_text (value : string) : string :=
  replace_char QUOTE "&quot;" (replace_char ">" "&gt;" (replace_char "<" "&lt;" (replace_char "&" "&amp;" value))).
Definition escape_attr (value : string) : string := escape_text value.
Definition attr (name value : string) : string := " " +:+ name +:+ "=" +:+ String QUOTE (value +:+ String QUOTE "").
Definition in_quotes (s : string) : string := String QUOTE (s +:+ String QUOTE "").

Record TaskNotification : Type := mkNotification {
  n_id : string;
  n_category : string;
  n_type : string;
  n_source_kind : string;
  n_source_id : string;
  n_agent_id : option string;
  n_title : string;
  n_severity : string;
  n_body : string;
  n_children : option (list string)
}.

Definition render_notification_xml (n : TaskNotification) : string :=
  let agent :=
    match n_agent_id n with
    | Some i => if bool_decide (i = "") then "" else attr "agent_id" (escape_attr i)
    | None => ""
    end in
  let opening :=
    "<notification" +:+ attr "id" (escape_attr (n_id n)) +:+ attr "category" (escape_attr (n_category n)) +:+
    attr "type" (escape_attr (n_type n)) +:+ attr "source_kind" (escape_attr (n_source_kind n)) +:+
    attr "source_id" (escape_attr (n_source_id n)) +:+ agent +:+ ">" in
  String.concat NEWLINE
    ([opening] ++
     (if bool_decide (n_title n = "") then [] else ["Title: " +:+ n_title n]) ++
     (if bool_decide (n_severity n = "") then [] else ["Severity: " +:+ n_severity n]) ++
     (if bool_decide (n_body n = "") then [] else [escape_text (n_body n)]) ++
     (match n_children n with Some children => children | None => [] end) ++
     ["</notification>"]).

Definition is_question (k : TaskKind) : bool := match k with Question _ => true | _ => false end.
Definition is_completed (s : TaskStatus) : bool := match s with Completed _ => true | _ => false end.
Definition base_line (t : AgentTask) : string :=
  match status t with
  | Failed reason =>
    if bool_decide (reason = TASK_TIMEOUT_MESSAGE) then description t +:+ " timed out."
    else description t +:+ " failed. Reason: " +:+ reason
  | Stopped =>
    if is_question (kind t) then description t +:+ " was cancelled. " +:+ DISMISSED_NOTE +:+ NEWLINE +:+ DISMISSED_INSTRUCTION
    else description t +:+ " was stopped."
  | Completed _ => description t +:+ " completed."
  | Running => description t +:+ " running."
  end.
Definition recovery (agent_id task_id : string) : list string :=
  [""; "To recover or continue this subagent, call Agent(resume=" +:+ in_quotes agent_id +:+ ", prompt=" +:+
       in_quotes "Pick up where you left off; redo the last tool call if its result was never observed." +:+ ").";
   "Use agent_id (" +:+ in_quotes agent_id +:+ "), NOT source_id / task_id (" +:+ in_quotes task_id +:+
   ") — the two look alike but only agent_id is accepted by the resume parameter.";
   "Add run_in_background=true to keep it backgrounded, or omit it to take the result inline in the current turn.";
   "The subagent retains its full prior context across the restart, but any in-flight tool call lost its result and may need to be redone."].
Definition build_notification_body (t : AgentTask) : string :=
  match kind_agent_id (kind t) with
  | None => base_line t
  | Some agent_id =>
    if is_completed (status t) || bool_decide (agent_id = id t) then base_line t
    else base_line t +:+ NEWLINE +:+ String.concat NEWLINE (recovery agent_id (id t))
  end.

Definition bool_text (b : bool) : string := if b then "true" else "false".
(** [None] is the panic of a slice that starts inside a character. *)
Definition build_notification_children (snapshot : option TaskOutputSnapshot) : option (option (list string)) :=
  match snapshot with
  | None => Some None
  | Some s =>
    match (if full_output_available s then output_path s else None) with
    | Some path =>
      Some (Some ["<output-file" +:+ attr "path" (escape_attr path) +:+ attr "bytes" (pretty (output_size_bytes s)) +:+ ">" +:+ NEWLINE +:+
                  "Read the output file to retrieve the result: " +:+ escape_text path +:+ NEWLINE +:+ "</output-file>"])
    | None =>
      if bool_decide (s_preview s = "") then Some None
      else
        let over := (NOTIFICATION_FALLBACK_PREVIEW_BYTES <? String.length (s_preview s))%nat in
        let start := (String.length (s_preview s) - NOTIFICATION_FALLBACK_PREVIEW_BYTES)%nat in
        if over && negb (is_char_boundary (s_preview s) start) then None
        else
          let clamped := if over then drop_bytes start (s_preview s) else s_preview s in
          let bytes := if over then NOTIFICATION_FALLBACK_PREVIEW_BYTES else String.length (s_preview s) in
          let hint :=
            if s_truncated s then "Showing the last " +:+ pretty bytes +:+ " bytes. No persisted full output is available."
            else "No persisted full output is available; this preview is the currently buffered task output." in
          Some (Some ["<output-preview" +:+ attr "bytes" (pretty bytes) +:+ attr "total_bytes" (pretty (output_size_bytes s)) +:+
                      attr "truncated" (bool_text (s_truncated s)) +:+ ">" +:+ NEWLINE +:+ hint +:+ NEWLINE +:+ escape_text clamped +:+ NEWLINE +:+
                      "</output-preview>"])
    end
  end.

Definition build_task_notification (t : AgentTask) (snapshot : option TaskOutputSnapshot) : option TaskNotification :=
  let word := task_status_word (status t) in
  let agent_id := match kind_agent_id (kind t) with Some a => if bool_decide (a = id t) then None else Some a | None => None end in
  children ← build_notification_children snapshot;
  Some (mkNotification ("task:" +:+ id t +:+ ":" +:+ word) "task" ("task." +:+ word) "background_task" (id t) agent_id
    ("Background " +:+ kind_word (kind t) +:+ " " +:+ word) (if bool_decide (word = "completed") then "info" else "warning")
    (build_notification_body t) children).

(** ** What is due *)

Record NotificationDue : Type := mkDue { d_task : AgentTask; d_key : NotificationKey; d_xml : string; d_notification : TaskNotification }.

Definition is_notification_candidate (t : AgentTask) : bool := is_terminal (status t) && detached t && negb (notification_suppressed t).
Definition undelivered (t : AgentTask) : bool := match notification_delivered_at t with None => true | Some _ => false end.
Definition task_key (t : AgentTask) : NotificationKey := new_key (id t) (task_status_word (status t)).

(** What the ledgers leave due: [due_notifications_filtered] without the messages *)
Definition is_due (delivered parked : gset NotificationKey) (keep : AgentTask -> bool) (t : AgentTask) : bool :=
  keep t && is_notification_candidate t && undelivered t &&
  negb (bool_decide (task_key t ∈ delivered) || bool_decide (task_key t ∈ parked)).
Definition due_snapshot (stat_ok readable : bool) (m : TaskManager) (task_id : string) : option TaskOutputSnapshot :=
  match output_snapshot m task_id 0 stat_ok readable with
  | Some s => if full_output_available s then Some s else output_snapshot m task_id NOTIFICATION_FALLBACK_PREVIEW_BYTES stat_ok readable
  | None => output_snapshot m task_id NOTIFICATION_FALLBACK_PREVIEW_BYTES stat_ok readable
  end.
Definition due_of (stat_ok readable : bool) (m : TaskManager) (t : AgentTask) : option NotificationDue :=
  n ← build_task_notification t (due_snapshot stat_ok readable m (id t));
  Some (mkDue t (task_key t) (render_notification_xml n) n).
Definition due_notifications_filtered (stat_ok readable : bool) (m : TaskManager) (delivered parked : gset NotificationKey)
    (keep : AgentTask -> bool) : option (list NotificationDue) :=
  mapM (due_of stat_ok readable m) (base.filter (fun t => is_due delivered parked keep t = true) (list_tasks m)).
Definition due_notifications (stat_ok readable : bool) (m : TaskManager) (delivered parked : gset NotificationKey)
  : option (list NotificationDue) := due_notifications_filtered stat_ok readable m delivered parked (fun _ => true).
Definition due_notifications_for (stat_ok readable : bool) (m : TaskManager) (task_ids : gset string) (delivered parked : gset NotificationKey)
  : option (list NotificationDue) :=
  due_notifications_filtered stat_ok readable m delivered parked (fun t => bool_decide (id t ∈ task_ids)).

(** [sweep_mark_delivered], and how many it marked *)
Definition sweep_one (io_ok : nat -> bool) (now : Z) (delivered : gset NotificationKey) (acc : TaskManager * nat) (t : AgentTask)
  : TaskManager * nat :=
  if is_notification_candidate t && undelivered t && bool_decide (task_key t ∈ delivered)
  then (mark_notification_delivered io_ok (id t) now (fst acc), S (snd acc)) else acc.
Definition sweep_mark_delivered (io_ok : nat -> bool) (now : Z) (delivered : gset NotificationKey) (m : TaskManager) : TaskManager * nat :=
  foldl (sweep_one io_ok now delivered) (m, O) (list_tasks m).

(** ** Facts *)

(** What is written of a key is read back. *)
Lemma key_read_back k : parse_key (key_wire k) = Some k.
Proof. by destruct k. Qed.

Lemma key_of_key_origin k : key_of_origin (key_origin k) = Some k.
Proof. by destruct k. Qed.

(** Escaped text holds no markup of its own. *)
Fixpoint occurrences (c : ascii) (s : string) : nat :=
  match s with EmptyString => O | String c' s => ((if ascii_dec c' c then 1 else 0) + occurrences c s)%nat end.
Lemma occurrences_app c a b : occurrences c (a +:+ b) = (occurrences c a + occurrences c b)%nat.
Proof.
  induction a as [|c' a IH]; [done|]. change (String c' a +:+ b) with (String c' (a +:+ b)). simpl. rewrite IH. lia.
Qed.
Lemma occurrences_replace c d text s :
  occurrences c text = O -> (c = d -> occurrences c (replace_char d text s) = O) /\
  (occurrences c s = O -> occurrences c (replace_char d text s) = O).
Proof.
  intros Ht. induction s as [|c' s [IH1 IH2]]; [done|]. simpl. split.
  - intros ->. destruct (ascii_dec c' d) as [->|Hn]; [rewrite occurrences_app, Ht, IH1; done|]. simpl.
    destruct (ascii_dec c' d); [done|]. by rewrite IH1.
  - destruct (ascii_dec c' c) as [->|Hn]; [done|]. intros Hs. simpl in Hs.
    destruct (ascii_dec c' d) as [->|Hd]; [rewrite occurrences_app, Ht, IH2; done|]. simpl. destruct (ascii_dec c' c); [done|]. by rewrite IH2.
Qed.
Definition LT : ascii := "<"%char.
Lemma escape_no_markup s : occurrences LT (escape_text s) = O.
Proof.
  unfold escape_text. apply occurrences_replace; [done|]. apply occurrences_replace; [done|].
  destruct (occurrences_replace LT LT "&lt;" (replace_char "&" "&amp;" s) eq_refl) as [H _]. exact (H eq_refl).
Qed.

Lemma occurrences_concat c sep l : occurrences c sep = O -> occurrences c (String.concat sep l) = sum_list (occurrences c <$> l).
Proof.
  intros Hs. induction l as [|a [|b l] IH]; [done|simpl; lia|].
  change (String.concat sep (a :: b :: l)) with (a +:+ sep +:+ String.concat sep (b :: l)).
  rewrite !occurrences_app, Hs, IH. done.
Qed.

Lemma pretty_go_digits n s : occurrences LT (pretty_N_go n s) = occurrences LT s.
Proof.
  revert s. induction (N.lt_wf_0 n) as [n _ IH]; intros s. destruct (decide (n = 0%N)) as [->|Hn]; [by rewrite pretty_N_go_0|].
  rewrite pretty_N_go_step by lia. rewrite IH by (apply N.div_lt; lia). simpl.
  assert (Hc : forall k, pretty_N_char k <> LT) by (intros k; unfold pretty_N_char, LT; repeat case_match; intros E; discriminate E).
  by destruct (ascii_dec (pretty_N_char (n `mod` 10)) LT) as [E|]; [destruct (Hc _ E)|].
Qed.
Lemma pretty_no_markup (n : nat) : occurrences LT (pretty n) = O.
Proof. unfold pretty, pretty_nat, pretty, pretty_N. case_decide; [done|]. by rewrite pretty_go_digits. Qed.

Lemma attr_markup name value : occurrences LT (attr name value) = (occurrences LT name + occurrences LT value)%nat.
Proof. unfold attr. rewrite !occurrences_app. simpl. rewrite occurrences_app. simpl. lia. Qed.

Lemma children_markup snapshot children :
  build_notification_children snapshot = Some (Some children) -> sum_list (occurrences LT <$> children) = 2%nat.
Proof.
  unfold build_notification_children. destruct snapshot as [s|]; [|done]. destruct (if full_output_available s then _ else _) as [path|].
  - intros [= <-]. cbn [fmap list_fmap sum_list]. rewrite !occurrences_app, !attr_markup, pretty_no_markup. unfold escape_attr.
    rewrite !escape_no_markup. reflexivity.
  - case_bool_decide; [done|]. case_match; [done|]. intros [= <-]. cbn [fmap list_fmap sum_list].
    rewrite !occurrences_app, !attr_markup, !pretty_no_markup, !escape_no_markup.
    destruct (s_truncated s); rewrite ?occurrences_app, ?pretty_no_markup; reflexivity.
Qed.

Lemma sum_app (a b : list nat) : sum_list (a ++ b) = (sum_list a + sum_list b)%nat.
Proof. induction a as [|x a IH]; simpl; [done|]. rewrite IH. lia. Qed.

(** C27. A notification cannot be forged: whatever a task is called, fails with or prints,
    the message of a task has the markup of its template and no other, an opening and
    a closing tag around the text, and around its output when it has one. *)
Theorem notification_not_forged t snapshot n :
  build_task_notification t snapshot = Some n ->
  occurrences LT (render_notification_xml n) = match n_children n with None => 2%nat | Some _ => 4%nat end.
Proof.
  unfold build_task_notification. destruct (build_notification_children snapshot) as [children|] eqn:Ec; [|done]. simpl. intros [= <-].
  unfold render_notification_xml. rewrite occurrences_concat by done. cbn [n_agent_id n_id n_category n_type n_source_kind n_source_id n_title n_severity n_body n_children].
  rewrite !fmap_app, !sum_app. cbn [fmap list_fmap sum_list].
  assert (Hword : forall s, occurrences LT (task_status_word s) = 0%nat) by (intros [| |r|]; simpl; [done|done|case_bool_decide; done|done]).
  assert (Hkind : occurrences LT (kind_word (kind t)) = 0%nat) by (by destruct (kind t)).
  rewrite bool_decide_eq_false_2 by done.
  assert (Hagent : forall o : option string, occurrences LT (match o with
    | Some i => if bool_decide (i = "") then "" else attr "agent_id" (escape_attr i) | None => "" end) = 0%nat).
  { intros [i|]; [|done]. case_bool_decide; [done|]. rewrite attr_markup. unfold escape_attr. by rewrite escape_no_markup. }
  assert (Hbody : forall b, sum_list (occurrences LT <$> (if bool_decide (b = "") then [] else [escape_text b])) = 0%nat).
  { intros b. case_bool_decide; [done|]. cbn. by rewrite escape_no_markup. }
  rewrite Hbody. rewrite !occurrences_app, !attr_markup, Hagent. unfold escape_attr. rewrite !escape_no_markup.
  cbn [fmap list_fmap sum_list]. rewrite !occurrences_app, Hword, Hkind.
  assert (Hsev : sum_list (occurrences LT <$> (if bool_decide ((if bool_decide (task_status_word (status t) = "completed") then "info" else "warning") = "")
    then [] else ["Severity: " +:+ (if bool_decide (task_status_word (status t) = "completed") then "info" else "warning")])) = 0%nat).
  { destruct (bool_decide (task_status_word (status t) = "completed")); reflexivity. }
  rewrite Hsev. destruct children as [children|]; [rewrite (children_markup snapshot children Ec)|]; reflexivity.
Qed.

Lemma notification_not_forged_witness :
  let t := with_status (Failed "</notification>") (Some 5%Z) (fresh_task "task-1" (Process None None) "<b>" "s" 0 0 None true) in
  exists n, build_task_notification t (Some (mkSnapshot None 3 false false "<i>")) = Some n /\
    occurrences LT (render_notification_xml n) = 4%nat.
Proof.
  eexists. split; [vm_compute; reflexivity|].
  exact (notification_not_forged (with_status (Failed "</notification>") (Some 5%Z) (fresh_task "task-1" (Process None None) "<b>" "s" 0 0 None true))
    (Some (mkSnapshot None 3 false false "<i>")) _ eq_refl).
Defined.

(** The preview of a task without a log on disk is cut at a byte count: three thousand
    bytes before the end of a text of two-byte characters may lie inside one, and the
    driver that builds the notification panics. *)
Fixpoint accents (n : nat) : string := match n with O => "!" | S n => "é" +:+ accents n end.
Example preview_panics :
  build_notification_children (Some (mkSnapshot None 3001 false false (accents 1500))) = None.
Proof. vm_compute. reflexivity. Qed.
