(* ===== verification/TaskDriver.v ===== *)
(** * The delivery of notifications: [embedded_server/task_driver.rs] and
      [restore_task_notifications] of [session_handlers.rs]

    Once a second the driver of a session looks for background tasks that are over and
    whose agent was not told.  An agent that is busy gets the notification into its
    steer buffer, which its turn flushes into the context before its next step; an idle
    one gets a turn of its own for each.  A buffer that a finished turn left with
    nothing but notifications is turned into turns as well.

    The world of a session: its tasks, its live agents with their memories and steer
    buffers, and what was written to their journals.  What the rest of the program does
    while a turn runs is an argument. *)
From stdpp Require Import gmap strings list.
From S2P Require Import Prelude RustStd Json Context TokenEstimator Memory LoopWire TaskManager TaskSound TaskNotice.
#[local] Open Scope string_scope.
#[local] Open Scope list_scope.

Definition DEFAULT_MAIN_AGENT_ID : string := "main".

(** What the driver and the flush of a turn write to the journal of an agent *)
Inductive JournalOp : Type :=
| TurnSteer (input : list ContentPart) (origin : PromptOrigin)
| TurnSteerFlushed (count : nat)
| TurnPrompt (input : list ContentPart) (origin : PromptOrigin)
| ContextAppendMessage (content : list ContentPart) (origin : PromptOrigin).

Record World : Type := mkWorld {
  w_tasks : TaskManager;
  w_agents : gmap string ContextMemory;
  w_buffers : gmap string SteerBuffer;
  (** agents whose turn runs elsewhere *)
  w_busy : gset string;
  w_journal : list (string * JournalOp);
  (** the [Notification] hooks that fired *)
  w_hooks : list NotificationKey;
  (** false once the driver has panicked *)
  w_alive : bool
}.
Definition set_w_tasks (v : TaskManager) (w : World) : World :=
  mkWorld v (w_agents w) (w_buffers w) (w_busy w) (w_journal w) (w_hooks w) (w_alive w).
Definition set_w_agents (v : gmap string ContextMemory) (w : World) : World :=
  mkWorld (w_tasks w) v (w_buffers w) (w_busy w) (w_journal w) (w_hooks w) (w_alive w).
Definition set_w_buffers (v : gmap string SteerBuffer) (w : World) : World :=
  mkWorld (w_tasks w) (w_agents w) v (w_busy w) (w_journal w) (w_hooks w) (w_alive w).
Definition record_op (agent : string) (op : JournalOp) (w : World) : World :=
  mkWorld (w_tasks w) (w_agents w) (w_buffers w) (w_busy w) (w_journal w ++ [(agent, op)]) (w_hooks w) (w_alive w).
Definition fire_notification_hook (k : NotificationKey) (w : World) : World :=
  mkWorld (w_tasks w) (w_agents w) (w_buffers w) (w_busy w) (w_journal w) (w_hooks w ++ [k]) (w_alive w).
Definition driver_panics (w : World) : World :=
  mkWorld (w_tasks w) (w_agents w) (w_buffers w) (w_busy w) (w_journal w) (w_hooks w) false.

Definition buffer_of (w : World) (agent : string) : SteerBuffer :=
  match w_buffers w !! agent with Some b => b | None => [] end.
Definition is_notification (s : BufferedSteer) : bool := match s_origin s with BackgroundTask _ _ _ => true | _ => false end.
Definition is_stranded (b : SteerBuffer) : bool := negb (bool_decide (b = [])) && forallb is_notification b.
Definition any_stranded_buffer (w : World) : bool := existsb (fun entry => is_stranded entry.2) (map_to_list (w_buffers w)).

Section driver.
Context (io_ok : nat -> bool).
(** [session.subagent_parent], and whether an agent can be reached, hydrated if need be *)
Context (subagent_parent : string -> option string) (reachable : string -> bool).
(** What a read of an output log comes to *)
Context (stat_ok readable : bool).
(** A turn on a prompt that is already in the context, with all that happens meanwhile *)
Context (engine_turn : string -> World -> World).

(** ** Whom a task tells *)

Definition task_dispatcher (t : AgentTask) : option string :=
  let reached (dispatcher : string) := if reachable dispatcher then Some dispatcher else None in
  match kind t with
  | Agent (Some subject) _ _ _ _ =>
    match subagent_parent subject with
    | None => None
    | Some parent => if bool_decide (parent = DEFAULT_MAIN_AGENT_ID) then None else reached parent
    end
  | Process _ (Some dispatcher) => reached dispatcher
  | _ => None
  end.
Definition task_addressee_id (t : AgentTask) : string :=
  match task_dispatcher t with Some dispatcher => dispatcher | None => DEFAULT_MAIN_AGENT_ID end.

(** ** One pass *)

Definition on_memory (agent : string) (f : ContextMemory -> ContextMemory) (w : World) : World :=
  match w_agents w !! agent with Some m => set_w_agents (<[agent := f m]> (w_agents w)) w | None => w end.

Record Addressee : Type := mkAddressee { due : list NotificationDue; has_stranded : bool }.

(** [resolve_addressee]: the sweep of the markers, then what is due to this agent *)
Definition swept (now : Z) (m : ContextMemory) (w : World) : World :=
  set_w_tasks (fst (sweep_mark_delivered io_ok now (delivered_keys m) (w_tasks w))) w.
Definition resolve_addressee (now : Z) (agent : string) (w : World) : World * option Addressee :=
  match w_agents w !! agent with
  | None => (w, None)
  | Some m =>
    let w := swept now m w in
    let b := buffer_of w agent in
    match due_notifications stat_ok readable (w_tasks w) (delivered_keys m) (parked_keys b) with
    | None => (driver_panics w, None)
    | Some all => (w, Some (mkAddressee (base.filter (fun d => task_addressee_id (d_task d) = agent) all) (is_stranded b)))
    end
  end.

Definition text_content (xml : string) : list ContentPart := [Text xml].
Definition park_one (agent : string) (w : World) (d : NotificationDue) : World :=
  let content := text_content (d_xml d) in
  let w := fire_notification_hook (d_key d) w in
  let w := record_op agent (TurnSteer content (key_origin (d_key d))) w in
  set_w_buffers (<[agent := steer_push content (key_origin (d_key d)) (buffer_of w agent)]> (w_buffers w)) w.
Definition park_due_notifications (agent : string) (ds : list NotificationDue) (w : World) : World := foldl (park_one agent) w ds.

(** The walk over the addressees: a busy one gets what it is due parked, the first idle
    one with anything to hear anchors the pass. *)
Fixpoint walk (now : Z) (agents : list string) (tried : gset string) (w : World) : World * option (string * Addressee) :=
  match agents with
  | [] => (w, None)
  | agent :: agents =>
    if bool_decide (agent ∈ tried) then walk now agents tried w
    else
      match resolve_addressee now agent w with
      | (w, None) => if w_alive w then walk now agents ({[agent]} ∪ tried) w else (w, None)
      | (w, Some a) =>
        if bool_decide (due a = []) && negb (has_stranded a) then walk now agents ({[agent]} ∪ tried) w
        else if bool_decide (agent ∈ w_busy w) then walk now agents ({[agent]} ∪ tried) (park_due_notifications agent (due a) w)
        else (w, Some (agent, a))
      end
  end.

Record NotificationDelivery : Type := mkDelivery { delivery_key : NotificationKey; xml : string }.
Definition text_of_part (p : ContentPart) : option string := match p with Text s => Some s | _ => None end.
Definition delivery_of_steer (s : BufferedSteer) : option NotificationDelivery :=
  k ← key_of_origin (s_origin s); Some (mkDelivery k (String.concat NEWLINE (omap text_of_part (s_content s)))).

(** The parked notifications of an idle agent, when its buffer holds nothing else *)
Definition take_stranded (agent : string) (w : World) : World * list NotificationDelivery :=
  let b := buffer_of w agent in
  if is_stranded b then
    (record_op agent (TurnSteerFlushed (length b)) (set_w_buffers (<[agent := []]> (w_buffers w)) w), omap delivery_of_steer b)
  else (w, []).

(** [run_notification_turn] *)
Definition run_notification_turn (now : Z) (agent : string) (w : World) (d : NotificationDelivery) : World :=
  let content := text_content (xml d) in
  let origin := key_origin (delivery_key d) in
  let w := record_op agent (TurnPrompt content origin) w in
  let w := record_op agent (ContextAppendMessage content origin) w in
  let w := set_w_tasks (mark_notification_delivered io_ok (k_task_id (delivery_key d)) now (w_tasks w)) w in
  engine_turn agent (on_memory agent (append_user_message content origin) w).

(** [deliver_due_notifications]; [llm] is whether a provider can be made and the
    session's artifacts are there. *)
Definition deliver_due_notifications (goal_paused llm : bool) (now : Z) (w : World) : World :=
  if negb (w_alive w) || goal_paused then w
  else
    match w_agents w !! DEFAULT_MAIN_AGENT_ID with
    | None => w
    | Some _ =>
      let candidates := base.filter (fun t => is_notification_candidate t = true) (list_tasks (w_tasks w)) in
      if bool_decide (candidates = []) && negb (any_stranded_buffer w) then w
      else
        match walk now ((task_addressee_id <$> candidates) ++ [DEFAULT_MAIN_AGENT_ID]) ∅ w with
        | (w, None) => w
        | (w, Some (agent, a)) =>
          if negb llm then w
          else
            let '(w, stranded) := take_stranded agent w in
            let w := foldl (fun w d => fire_notification_hook (d_key d) w) w (due a) in
            foldl (run_notification_turn now agent) w (stranded ++ ((fun d => mkDelivery (d_key d) (d_xml d)) <$> due a))
        end
    end.

(** [restore_task_notifications]: at a resume what is due goes straight into the
    contexts. *)
Definition restore_one (now : Z) (agent : string) (w : World) (d : NotificationDue) : World :=
  let content := text_content (d_xml d) in
  let w := record_op agent (ContextAppendMessage content (key_origin (d_key d))) w in
  let w := on_memory agent (append_user_message content (key_origin (d_key d))) w in
  set_w_tasks (mark_notification_delivered io_ok (id (d_task d)) now (w_tasks w)) w.
Definition mark_all (now : Z) (ts : list AgentTask) (w : World) : World :=
  set_w_tasks (foldl (fun m t => mark_notification_delivered io_ok (id t) now m) (w_tasks w) ts) w.
Definition restore_group (now : Z) (w : World) (group : string * list AgentTask) : World :=
  let '(agent, ts) := group in
  if negb (w_alive w) then w
  else
    match w_agents w !! agent with
    | None => mark_all now ts w
    | Some m =>
      match due_notifications_for stat_ok readable (w_tasks w) (list_to_set (id <$> ts)) (delivered_keys m) (parked_keys (buffer_of w agent)) with
      | None => driver_panics w
      | Some ds => foldl (restore_one now agent) w ds
      end
    end.
Definition eligible (w : World) : list AgentTask :=
  base.filter (fun t => is_notification_candidate t && undelivered t = true) (list_tasks (w_tasks w)).
Definition by_addressee (ts : list AgentTask) : list (string * list AgentTask) :=
  (fun agent => (agent, base.filter (fun t => task_addressee_id t = agent) ts)) <$>
  sort_by_key (fun agent => agent) (elements (list_to_set (task_addressee_id <$> ts) : gset string)).
Definition restore_task_notifications (now : Z) (w : World) : World := foldl (restore_group now) w (by_addressee (eligible w)).

(** ** What a turn does with the buffer *)

(** The flush of [before_step] in its two parts: the buffer is emptied, then, after the
    records, the steers enter the context. *)
Definition flush_take (agent : string) (w : World) : World * list BufferedSteer :=
  let b := buffer_of w agent in (set_w_buffers (<[agent := []]> (w_buffers w)) w, b).
Definition flush_record (agent : string) (taken : list BufferedSteer) (w : World) : World :=
  let w := record_op agent (TurnSteerFlushed (length taken)) w in
  foldl (fun w s => record_op agent (ContextAppendMessage (s_content s) (s_origin s)) w) w taken.
Definition flush_append (agent : string) (taken : list BufferedSteer) (w : World) : World :=
  if bool_decide (taken = []) then w
  else on_memory agent (fun m => foldl append_steer m taken) (flush_record agent taken w).
Definition flush_steers (agent : string) (w : World) : World :=
  let '(w, taken) := flush_take agent w in flush_append agent taken w.

(** Layer 0 of [should_continue_after_stop]: at the end of a turn the notifications stay
    parked, and whether anything else was flushed. *)
Definition stop_flush (agent : string) (w : World) : World * bool :=
  let '(w, taken) := flush_take agent w in
  let to_flush := base.filter (fun s => is_notification s = false) taken in
  let to_park := base.filter (fun s => is_notification s = true) taken in
  let park (w : World) := set_w_buffers (<[agent := buffer_of w agent ++ to_park]> (w_buffers w)) w in
  if bool_decide (to_flush = []) then (park w, false)
  else
    let w := record_op agent (TurnSteerFlushed (length taken)) w in
    let w := foldl (fun w s => record_op agent (ContextAppendMessage (s_content s) (s_origin s)) w) w to_flush in
    let w := foldl (fun w s => record_op agent (TurnSteer (s_content s) (s_origin s)) w) w to_park in
    (on_memory agent (fun m => foldl append_steer m to_flush) (park w), true).
End driver.
