(* ===== verification/TaskOnce.v ===== *)
(** * Every agent is told once

    However passes of the driver, turns, resumes and undos follow one another, the
    context of an agent gets the notification of a task at most once, and once more for
    each undo that took it back. *)
From stdpp Require Import gmap strings list.
From S2P Require Import Prelude RustStd Json ToolScheduler EngineError Context TokenEstimator Memory LoopWire SessionUndo TaskManager TaskSound TaskNotice TaskDriver.
#[local] Open Scope string_scope.
#[local] Open Scope list_scope.

(** ** Counting *)

Definition journal_key (op : JournalOp) : option NotificationKey :=
  match op with ContextAppendMessage _ origin => key_of_origin origin | _ => None end.
(** How often the journals put a notification into a context *)
Definition times_told (k : NotificationKey) (w : World) : nat :=
  length (base.filter (fun e => journal_key e.2 = Some k) (w_journal w)).
Definition times_in (k : NotificationKey) (b : list BufferedSteer) : nat :=
  length (base.filter (fun s => key_of_origin (s_origin s) = Some k) b).
Definition times_of (k : NotificationKey) (l : list NotificationKey) : nat := length (base.filter (fun k' => k' = k) l).

Lemma times_in_app k a b : times_in k (a ++ b) = (times_in k a + times_in k b)%nat.
Proof. unfold times_in. by rewrite filter_app, length_app. Qed.
Lemma times_of_app k a b : times_of k (a ++ b) = (times_of k a + times_of k b)%nat.
Proof. unfold times_of. by rewrite filter_app, length_app. Qed.
Lemma times_of_cons k a b : times_of k (a :: b) = ((if decide (a = k) then 1 else 0) + times_of k b)%nat.
Proof. unfold times_of. rewrite filter_cons. by destruct (decide (a = k)). Qed.
Lemma times_of_absent k l : k ∉ l -> times_of k l = O.
Proof.
  intros Hk. unfold times_of. destruct (base.filter _ l) as [|a l'] eqn:E; [done|]. exfalso.
  assert (H : a ∈ base.filter (fun k' => k' = k) l) by (rewrite E; set_solver). apply list_elem_of_filter in H as [-> H]. done.
Qed.
Lemma times_of_NoDup k l : NoDup l -> (times_of k l <= 1)%nat.
Proof.
  induction 1 as [|a l Hn Hl IH]; [unfold times_of; simpl; lia|]. rewrite times_of_cons. case_decide as E; [|lia].
  subst. rewrite times_of_absent by done. lia.
Qed.
Lemma times_of_omap k (b : list BufferedSteer) : times_of k (omap (fun s => key_of_origin (s_origin s)) b) = times_in k b.
Proof.
  induction b as [|s b IH]; [done|]. cbn [omap list_omap]. unfold times_in in *. rewrite filter_cons.
  destruct (key_of_origin (s_origin s)) as [k'|].
  - rewrite times_of_cons. destruct (decide (k' = k)) as [->|Hn].
    + rewrite decide_True by done. simpl. by rewrite IH.
    + rewrite decide_False by congruence. done.
  - rewrite decide_False by done. done.
Qed.
Lemma times_in_absent k b : k ∉ parked_keys b -> times_in k b = O.
Proof.
  intros Hk. rewrite <- times_of_omap. apply times_of_absent. unfold parked_keys in Hk. by rewrite elem_of_list_to_set in Hk.
Qed.
Lemma told_record k a op w :
  times_told k (record_op a op w) = (times_told k w + (if decide (journal_key op = Some k) then 1 else 0))%nat.
Proof.
  unfold times_told, record_op. simpl. rewrite filter_app, length_app, filter_cons, filter_nil. simpl. by case_decide.
Qed.

Lemma key_injective t t' : task_key t = task_key t' -> id t = id t'.
Proof. intros H. exact (f_equal k_task_id H). Qed.

(** ** Memories *)

Lemma append_user_grows content origin m :
  exists l, history (append_user_message content origin m) = history m ++ l /\
    Forall (fun e => Context.origin (e_msg e) = Some origin) l.
Proof.
  unfold append_user_message. case_bool_decide; [exists []; split; [by rewrite app_nil_r|constructor]|]. unfold append_message.
  destruct (has_open_tool_exchange m).
  - destruct (_ <=? _)%nat; exists []; (split; [by rewrite app_nil_r|constructor]).
  - unfold push, push_history. destruct (_ <=? _)%nat; [exists []; split; [by rewrite app_nil_r|constructor]|]. eexists. split; [reflexivity|].
    repeat constructor.
Qed.
Lemma delivered_history m m' l k :
  history m' = history m ++ l -> k ∈ delivered_keys m' <-> k ∈ delivered_keys m \/ k ∈ omap key_of_entry l.
Proof. unfold delivered_keys. intros ->. rewrite !elem_of_list_to_set, omap_app, elem_of_app. done. Qed.
Lemma delivered_append content origin m k :
  k ∈ delivered_keys (append_user_message content origin m) -> k ∈ delivered_keys m \/ key_of_origin origin = Some k.
Proof.
  destruct (append_user_grows content origin m) as (l & E & Hl). rewrite (delivered_history _ _ _ k E). intros [H|H]; [by left|right].
  apply list_elem_of_omap in H as (e & He & Hk). rewrite Forall_forall in Hl. unfold key_of_entry in Hk. rewrite (Hl e He) in Hk. done.
Qed.
Lemma delivered_kept content origin m k : k ∈ delivered_keys m -> k ∈ delivered_keys (append_user_message content origin m).
Proof. destruct (append_user_grows content origin m) as (l & E & _). rewrite (delivered_history _ _ _ k E). by left. Qed.

Lemma steers_kept m (b : list BufferedSteer) k : k ∈ delivered_keys m -> k ∈ delivered_keys (foldl append_steer m b).
Proof. revert m. induction b as [|s b IH]; intros m Hk; [done|]. apply IH, delivered_kept, Hk. Qed.
Lemma steers_append m (b : list BufferedSteer) k :
  k ∈ delivered_keys (foldl append_steer m b) -> k ∈ delivered_keys m \/ k ∈ parked_keys b.
Proof.
  unfold parked_keys. rewrite elem_of_list_to_set. revert m. induction b as [|s b IH]; intros m; [by left|]. simpl. intros H.
  cbn [omap list_omap]. destruct (IH _ H) as [H1|H1].
  - destruct (delivered_append _ _ _ _ H1) as [|E]; [by left|right]. rewrite E. by left.
  - right. destruct (key_of_origin (s_origin s)); [by right|done].
Qed.

Section once.
Context (io_ok : nat -> bool) (subagent_parent : string -> option string) (reachable : string -> bool) (stat_ok readable : bool).
Notation addressee := (task_addressee_id subagent_parent reachable).

(** ** The ledger *)

(** A key of a task that is over and tells [agent] *)
Definition known (w : World) (agent : string) (k : NotificationKey) : Prop :=
  exists t, tasks (w_tasks w) !! k_task_id k = Some t /\ task_key t = k /\ addressee t = agent /\ is_terminal (status t) = true.
Definition marked (w : World) (k : NotificationKey) : Prop :=
  exists t, tasks (w_tasks w) !! k_task_id k = Some t /\ undelivered t = false.
(** A pass does not deliver it again: it is marked, or in the context. *)
Definition settled (w : World) (k : NotificationKey) : Prop :=
  marked w k \/ exists agent m, known w agent k /\ w_agents w !! agent = Some m /\ k ∈ delivered_keys m.

(** What holds between two steps: [flight] is on its way to [agent], [undone k] says how
    often [k] was lost. *)
Record once (flight : list NotificationKey) (agent : string) (undone : NotificationKey -> nat) (w : World) : Prop := {
  o_keyed : keyed_table id (tasks (w_tasks w));
  o_told : forall k, (0 < times_told k w)%nat -> exists a, known w a k;
  o_parked : forall a s k, s ∈ buffer_of w a -> key_of_origin (s_origin s) = Some k -> known w a k /\ s_content s <> [];
  o_flight : forall k, k ∈ flight -> known w agent k;
  o_history : forall a m k, w_agents w !! a = Some m -> k ∈ delivered_keys m -> known w a k;
  o_count : forall a k, (times_told k w + times_in k (buffer_of w a) + times_of k flight <= S (undone k))%nat;
  o_settled : forall k, times_told k w = S (undone k) -> settled w k
}.

(** A step of the rest of the program that loses nothing: tasks move on and stay marked,
    user steers come and go, no notification is put into a journal or a buffer, and a
    context loses only those that are marked. *)
Record quiet (w w' : World) : Prop := {
  q_keyed : keyed_table id (tasks (w_tasks w'));
  q_tasks : forall i t, tasks (w_tasks w) !! i = Some t -> exists t', tasks (w_tasks w') !! i = Some t' /\ kind t' = kind t /\
    (is_terminal (status t) = true -> status t' = status t) /\ (undelivered t = false -> undelivered t' = false);
  q_buffers : forall a, base.filter (fun s => is_notification s = true) (buffer_of w' a : list BufferedSteer) =
    base.filter (fun s => is_notification s = true) (buffer_of w a : list BufferedSteer);
  q_told : forall k, times_told k w' = times_told k w;
  q_lost : forall a m k, w_agents w !! a = Some m -> k ∈ delivered_keys m ->
    marked w' k \/ exists m', w_agents w' !! a = Some m' /\ k ∈ delivered_keys m';
  q_new : forall a m' k, w_agents w' !! a = Some m' -> k ∈ delivered_keys m' -> known w a k
}.

Lemma addressee_kind t t' : kind t' = kind t -> addressee t' = addressee t.
Proof. unfold task_addressee_id, task_dispatcher. by intros ->. Qed.
Lemma known_unique w a a' k : known w a k -> known w a' k -> a = a'.
Proof. intros (t & E & _ & <- & _) (t' & E' & _ & <- & _). congruence. Qed.

(** Tasks that move on *)
Definition tasks_move (ts ts' : gmap string AgentTask) : Prop :=
  forall i t, ts !! i = Some t -> exists t', ts' !! i = Some t' /\ kind t' = kind t /\
    (is_terminal (status t) = true -> status t' = status t) /\ (undelivered t = false -> undelivered t' = false).
Lemma tasks_move_refl ts : tasks_move ts ts.
Proof. intros i t Ht. by exists t. Qed.
Lemma tasks_move_trans a b c : tasks_move a b -> tasks_move b c -> tasks_move a c.
Proof.
  intros H1 H2 i t Ht. destruct (H1 i t Ht) as (t1 & E1 & K1 & S1 & U1). destruct (H2 i t1 E1) as (t2 & E2 & K2 & S2 & U2).
  exists t2. split; [done|]. split; [congruence|]. split; [|auto]. intros H. rewrite S2; [by apply S1|]. by rewrite S1.
Qed.

Lemma known_move w w' a k :
  keyed_table id (tasks (w_tasks w)) -> keyed_table id (tasks (w_tasks w')) ->
  tasks_move (tasks (w_tasks w)) (tasks (w_tasks w')) -> known w a k -> known w' a k.
Proof.
  intros Hk Hk' Hm (t & E & Ek & Ea & Hr). destruct (Hm _ t E) as (t' & E' & K & S & _). exists t'. split; [done|].
  split; [|split; [by rewrite (addressee_kind t t')|by rewrite S]].
  rewrite <- Ek. unfold task_key. rewrite S by done. f_equal. rewrite (Hk _ _ E : id t = _). exact (Hk' _ _ E').
Qed.
Lemma marked_move w w' k : tasks_move (tasks (w_tasks w)) (tasks (w_tasks w')) -> marked w k -> marked w' k.
Proof. intros Hm (t & E & Hu). destruct (Hm _ t E) as (t' & E' & _ & _ & U). exists t'. auto. Qed.

Lemma times_in_notifications k (b : list BufferedSteer) :
  times_in k b = times_in k (base.filter (fun s => is_notification s = true) b).
Proof.
  unfold times_in. rewrite list_filter_filter. f_equal. apply list_filter_iff. intros s. split; [|by intros []].
  intros H. split; [done|]. unfold is_notification. by destruct (s_origin s).
Qed.
Lemma notification_elem (b b' : list BufferedSteer) s k :
  base.filter (fun s => is_notification s = true) b' = base.filter (fun s => is_notification s = true) b ->
  s ∈ b' -> key_of_origin (s_origin s) = Some k -> s ∈ b.
Proof.
  intros E Hs Hk. assert (H : s ∈ base.filter (fun s => is_notification s = true) b').
  { apply list_elem_of_filter. split; [|done]. unfold is_notification. by destruct (s_origin s). }
  rewrite E in H. by apply list_elem_of_filter in H as [_ H].
Qed.

Lemma once_quiet flight agent undone w w' : quiet w w' -> once flight agent undone w -> once flight agent undone w'.
Proof.
  intros [Qk Qt Qb Qj Ql Qn] [H1 H2 H3 H4 H5 H6 H7].
  assert (Hknown : forall a k, known w a k -> known w' a k) by (intros; by eapply known_move).
  constructor; [done| | | | | |].
  - intros k Hk. rewrite Qj in Hk. destruct (H2 k Hk) as [a Ha]. exists a. auto.
  - intros a s k Hs Hk. apply (notification_elem _ _ s k (Qb a)) in Hs; [|done]. destruct (H3 a s k Hs Hk). auto.
  - auto.
  - intros a m k Hm Hk. apply Hknown. by eapply Qn.
  - intros a k. rewrite Qj. rewrite (times_in_notifications k (buffer_of w' a)), Qb, <- times_in_notifications. apply H6.
  - intros k Hk. rewrite Qj in Hk. destruct (H7 k Hk) as [Hm|(a & m & Ha & Hm & Hd)]; [left; by eapply marked_move|].
    destruct (Ql a m k Hm Hd) as [Hm'|(m' & Hm' & Hd')]; [by left|]. right. exists a, m'. auto.
Qed.

(** More may be lost than was. *)
Lemma once_more flight agent undone undone' w :
  (forall k, (undone k <= undone' k)%nat) -> once flight agent undone w -> once flight agent undone' w.
Proof.
  intros Hle [H1 H2 H3 H4 H5 H6 H7]. constructor; try done.
  - intros a k. specialize (H6 a k). specialize (Hle k). lia.
  - intros k Hk. apply H7. specialize (H6 agent k). specialize (Hle k). lia.
Qed.

(** *** Losses

    A context that is compacted, cleared or cut loses what it does not have any more and
    what no marker remembers. *)
Definition unmarked (w : World) (k : NotificationKey) : bool :=
  match tasks (w_tasks w) !! k_task_id k with Some t => undelivered t | None => true end.
Lemma unmarked_spec w k : unmarked w k = false -> marked w k.
Proof. unfold unmarked, marked. destruct (tasks (w_tasks w) !! k_task_id k) as [t|]; [|done]. intros H. by exists t. Qed.
Definition replace_context (agent : string) (m' : ContextMemory) (w : World) : World :=
  set_w_agents (<[agent := m']> (w_agents w)) w.
Definition lost_from (w : World) (m m' : ContextMemory) (k : NotificationKey) : nat :=
  if decide (k ∈ delivered_keys m ∖ delivered_keys m') then if unmarked w k then 1%nat else 0%nat else 0%nat.

Lemma once_lose flight a0 undone agent m m' w :
  w_agents w !! agent = Some m -> delivered_keys m' ⊆ delivered_keys m -> once flight a0 undone w ->
  once flight a0 (fun k => undone k + lost_from w m m' k)%nat (replace_context agent m' w).
Proof.
  intros Hm Hsub Ho. set (w' := replace_context agent m' w).
  assert (Hkn : forall a k, known w a k -> known w' a k) by done.
  constructor; [apply Ho|apply Ho|apply Ho|apply Ho| | |].
  - intros a ma k. destruct (decide (a = agent)) as [->|Hn].
    + simpl. rewrite lookup_insert_eq. intros [= <-] Hk. apply Hkn. eapply o_history; [exact Ho|exact Hm|set_solver].
    + simpl. rewrite lookup_insert_ne by done. intros H1 H2. apply Hkn. by eapply o_history.
  - intros a k. change (times_told k w') with (times_told k w). change (buffer_of w' a) with (buffer_of w a).
    pose proof (o_count _ _ _ _ Ho a k). lia.
  - intros k. change (times_told k w') with (times_told k w). pose proof (o_count _ _ _ _ Ho a0 k) as Hc. intros Hk.
    destruct (lost_from w m m' k) as [|n] eqn:El; [|lia]. rewrite Nat.add_0_r in Hk.
    destruct (o_settled _ _ _ _ Ho k Hk) as [Hmk|(a & ma & Ha & Hma & Hd)]; [by left|].
    destruct (decide (a = agent)) as [->|Hn].
    + rewrite Hm in Hma. injection Hma as <-. unfold lost_from in El. destruct (decide _) as [Hin|Hin].
      * left. destruct (unmarked w k) eqn:Eu; [done|]. by apply unmarked_spec.
      * right. exists agent, m'. simpl. rewrite lookup_insert_eq. split; [by apply Hkn|]. split; [done|].
        destruct (decide (k ∈ delivered_keys m')); [done|]. set_solver.
    + right. exists a, ma. simpl. rewrite lookup_insert_ne by done. auto.
Qed.

(** *** Flushes *)

Lemma record_all_told k agent (taken : list BufferedSteer) w :
  let w' := foldl (fun w s => record_op agent (ContextAppendMessage (s_content s) (s_origin s)) w) w taken in
  times_told k w' = (times_told k w + times_in k taken)%nat /\ w_tasks w' = w_tasks w /\ w_agents w' = w_agents w /\ w_buffers w' = w_buffers w.
Proof.
  revert w. induction taken as [|s taken IH]; intros w; cbn [foldl]; [split; [unfold times_in; simpl; lia|done]|].
  destruct (IH (record_op agent (ContextAppendMessage (s_content s) (s_origin s)) w)) as (E & Et & Ea & Eb).
  cbv zeta in *. rewrite E, Et, Ea, Eb, told_record. split; [|done]. unfold times_in. rewrite filter_cons. simpl.
  destruct (decide (key_of_origin (s_origin s) = Some k)); simpl; lia.
Qed.

Lemma buffer_insert w a b c : buffer_of (set_w_buffers (<[a := b]> (w_buffers w)) w) c = if decide (c = a) then b else buffer_of w c.
Proof.
  unfold buffer_of. simpl. destruct (decide (c = a)) as [->|Hc]; [by rewrite lookup_insert_eq|by rewrite lookup_insert_ne].
Qed.

Lemma flush_world agent w m :
  w_agents w !! agent = Some m ->
  let w' := flush_steers agent w in
  w_tasks w' = w_tasks w /\
  (forall a, buffer_of w' a = if decide (a = agent) then [] else buffer_of w a) /\
  (forall k, times_told k w' = (times_told k w + times_in k (buffer_of w agent))%nat) /\
  w_agents w' = <[agent := foldl append_steer m (buffer_of w agent)]> (w_agents w).
Proof.
  intros Hm. unfold flush_steers, flush_take, flush_append. case_bool_decide as Hb.
  - rewrite Hb. simpl. split; [done|]. split; [intros a; apply buffer_insert|]. split; [intros k; unfold times_told, times_in; simpl; lia|].
    by rewrite insert_id.
  - cbv zeta. set (w1 := set_w_buffers _ w). unfold flush_record. cbv zeta. set (w2 := record_op agent (TurnSteerFlushed _) w1).
    pose proof (fun k => record_all_told k agent (buffer_of w agent) w2) as Hr. set (w3 := foldl _ w2 _) in *. cbv zeta in Hr.
    destruct (Hr (mkKey "" "" "")) as (_ & Et & Ea & Eb). unfold on_memory. rewrite Ea. change (w_agents w2) with (w_agents w). rewrite Hm.
    split; [exact Et|]. split; [|split; [|done]].
    + intros a. transitivity (buffer_of w3 a); [done|]. unfold buffer_of at 1. rewrite Eb. apply buffer_insert.
    + intros k. transitivity (times_told k w3); [done|]. destruct (Hr k) as (-> & _). f_equal. unfold w2. rewrite told_record. simpl. unfold times_told. simpl. lia.
Qed.

Lemma parked_elsewhere flight a0 undone w a b k :
  once flight a0 undone w -> known w a k -> b <> a -> times_in k (buffer_of w b) = O.
Proof.
  intros H Ha Hb. apply times_in_absent. unfold parked_keys. rewrite elem_of_list_to_set. intros Hk.
  apply list_elem_of_omap in Hk as (s & Hs & Hk). destruct (o_parked _ _ _ _ H b s k Hs Hk) as [Hk' _].
  by apply Hb, (known_unique w b a k).
Qed.
Lemma times_in_known flight a0 undone w a k :
  once flight a0 undone w -> (0 < times_in k (buffer_of w a))%nat -> known w a k /\ k ∈ parked_keys (buffer_of w a).
Proof.
  intros H Hk. unfold parked_keys. rewrite elem_of_list_to_set.
  assert (Hin : k ∈ omap (fun s => key_of_origin (s_origin s)) (buffer_of w a)).
  { destruct (decide (k ∈ omap (fun s => key_of_origin (s_origin s)) (buffer_of w a))) as [|Hn]; [done|].
    rewrite times_in_absent in Hk; [lia|]. unfold parked_keys. by rewrite elem_of_list_to_set. }
  split; [|done]. apply list_elem_of_omap in Hin as (s & Hs & Hks). by apply (o_parked _ _ _ _ H a s k).
Qed.

Lemma same_tasks_known w w' a k : w_tasks w' = w_tasks w -> known w' a k <-> known w a k.
Proof. unfold known. by intros ->. Qed.

(** What a flush does not get into the history: it is full, or an exchange is open. *)
Definition missed (agent : string) (w : World) (k : NotificationKey) : nat :=
  match w_agents w !! agent with
  | Some m =>
    if decide (k ∈ parked_keys (buffer_of w agent) ∖ delivered_keys (foldl append_steer m (buffer_of w agent)))
    then 1%nat else 0%nat
  | None => 0%nat
  end.
Lemma once_flush flight a0 undone agent w m :
  w_agents w !! agent = Some m -> once flight a0 undone w ->
  once flight a0 (fun k => undone k + missed agent w k)%nat (flush_steers agent w).
Proof.
  intros Hm Ho. destruct (flush_world agent w m Hm) as (Et & Eb & Ej & Ea). set (w' := flush_steers agent w) in *.
  assert (Hkn : forall a k, known w' a k <-> known w a k) by (intros; by apply same_tasks_known).
  assert (Hcount : forall a k, (times_told k w' + times_in k (buffer_of w' a) + times_of k flight <= S (undone k))%nat).
  { intros a k. rewrite Ej, Eb. pose proof (o_count _ _ _ _ Ho agent k) as Hag. pose proof (o_count _ _ _ _ Ho a k). case_decide as Ea'; [unfold times_in at 2; simpl; lia|].
    destruct (Nat.eq_0_gt_0_cases (times_in k (buffer_of w agent))) as [E|E]; [lia|].
    destruct (times_in_known _ _ _ w agent k Ho E) as [Hk _]. rewrite (parked_elsewhere _ _ _ w agent a k Ho Hk Ea'). lia. }
  constructor.
  - rewrite Et. apply Ho.
  - intros k. rewrite Ej. intros Hk. destruct (Nat.eq_0_gt_0_cases (times_told k w)) as [E|E].
    + destruct (times_in_known _ _ _ w agent k Ho) as [Hk' _]; [lia|]. exists agent. by apply Hkn.
    + destruct (o_told _ _ _ _ Ho k E) as [a Ha]. exists a. by apply Hkn.
  - intros a s k. rewrite Eb. case_decide; [set_solver|]. rewrite Hkn. apply Ho.
  - intros k Hk. apply Hkn. by apply Ho.
  - intros a m' k. rewrite Ea, Hkn. destruct (decide (a = agent)) as [->|Hn].
    + rewrite lookup_insert_eq. intros [= <-] Hk. apply steers_append in Hk as [Hk|Hk]; [by eapply o_history|].
      unfold parked_keys in Hk. rewrite elem_of_list_to_set in Hk. apply list_elem_of_omap in Hk as (s & Hs & Hks). by apply (o_parked _ _ _ _ Ho agent s k).
    + rewrite lookup_insert_ne by done. by eapply o_history.
  - intros a k. specialize (Hcount a k). lia.
  - intros k Hk. pose proof (Hcount agent k) as Hc. destruct (missed agent w k) as [|n] eqn:El; [|lia].
    rewrite Nat.add_0_r in Hk. rewrite Ej in Hk. destruct (Nat.eq_0_gt_0_cases (times_in k (buffer_of w agent))) as [E|E].
    + destruct (o_settled _ _ _ _ Ho k) as [(t & Ht)|(a & m' & Ha & Hm' & Hd)]; [lia|left; exists t; by rewrite Et|].
      right. exists a. rewrite Ea. destruct (decide (a = agent)) as [->|Hn].
      * rewrite Hm in Hm'. injection Hm' as <-. exists (foldl append_steer m (buffer_of w agent)). rewrite lookup_insert_eq, Hkn.
        split; [done|]. split; [done|]. by apply steers_kept.
      * exists m'. rewrite lookup_insert_ne by done. rewrite Hkn. auto.
    + destruct (times_in_known _ _ _ w agent k Ho E) as [Hk' Hp]. right. exists agent, (foldl append_steer m (buffer_of w agent)).
      rewrite Hkn, Ea, lookup_insert_eq. split; [done|]. split; [done|]. unfold missed in El. rewrite Hm in El.
      destruct (decide _) as [|Hin]; [done|]. destruct (decide (k ∈ delivered_keys (foldl append_steer m (buffer_of w agent)))); [done|set_solver].
Qed.

(** *** Marks *)

Lemma mark_moves i now m :
  keyed_table id (tasks m) ->
  let m' := mark_notification_delivered io_ok i now m in keyed_table id (tasks m') /\ tasks_move (tasks m) (tasks m').
Proof.
  intros Hk. unfold mark_notification_delivered, mark. destruct (tasks m !! i) as [t|] eqn:Ht; [|split; [done|apply tasks_move_refl]].
  destruct (notification_delivered_at t) eqn:Hd; [split; [done|apply tasks_move_refl]|].
  cbv zeta. rewrite (proj1 (core_persist _ _ _)). simpl. pose proof (Hk _ _ Ht) as Hi. simpl in Hi. split.
  - rewrite <- Hi. by apply (keyed_insert id _ (with_delivered (Some now) t)).
  - intros j tj Hj. destruct (decide (j = i)) as [->|Hn].
    + rewrite Ht in Hj. injection Hj as <-. exists (with_delivered (Some now) t). by rewrite lookup_insert_eq.
    + exists tj. by rewrite lookup_insert_ne.
Qed.
Lemma mark_marks i now m t :
  tasks m !! i = Some t -> exists t', tasks (mark_notification_delivered io_ok i now m) !! i = Some t' /\ undelivered t' = false.
Proof.
  intros Ht. unfold mark_notification_delivered, mark. rewrite Ht. unfold undelivered. destruct (notification_delivered_at t) eqn:Hd.
  - exists t. by rewrite Hd.
  - rewrite (proj1 (core_persist _ _ _)). simpl. exists (with_delivered (Some now) t). by rewrite lookup_insert_eq.
Qed.
Lemma sweep_moves now delivered m :
  keyed_table id (tasks m) ->
  let m' := fst (sweep_mark_delivered io_ok now delivered m) in keyed_table id (tasks m') /\ tasks_move (tasks m) (tasks m').
Proof.
  intros Hk. unfold sweep_mark_delivered. assert (H : keyed_table id (tasks (fst (m, O))) /\ tasks_move (tasks m) (tasks (fst (m, O)))) by (split; [done|apply tasks_move_refl]).
  generalize (m, O) H. clear H. intros acc. revert acc. induction (list_tasks m) as [|t ts IH]; intros acc [Ha Hm]; [done|].
  simpl. apply IH. unfold sweep_one. destruct (_ && _); [|done]. simpl. destruct (mark_moves (id t) now (fst acc) Ha) as [? ?].
  split; [done|]. by eapply tasks_move_trans.
Qed.
Lemma mark_all_moves now ts w :
  keyed_table id (tasks (w_tasks w)) ->
  let w' := mark_all io_ok now ts w in keyed_table id (tasks (w_tasks w')) /\ tasks_move (tasks (w_tasks w)) (tasks (w_tasks w')).
Proof.
  unfold mark_all. simpl. generalize (w_tasks w). clear w. induction ts as [|t ts IH]; intros m Hk; [split; [done|apply tasks_move_refl]|].
  simpl. destruct (mark_moves (id t) now m Hk) as [Hk' Hm]. destruct (IH _ Hk'). split; [done|]. by eapply tasks_move_trans.
Qed.

(** Tasks that moved on, and nothing else *)
Lemma once_tasks flight agent undone m w :
  keyed_table id (tasks m) -> tasks_move (tasks (w_tasks w)) (tasks m) ->
  once flight agent undone w -> once flight agent undone (set_w_tasks m w).
Proof.
  intros Hk Hm Ho. eapply once_quiet; [|exact Ho]. constructor; try done.
  - intros a m' k Hm' Hd. right. by exists m'.
  - intros a m' k Hm' Hd. exact (o_history _ _ _ _ Ho a m' k Hm' Hd).
Qed.

(** *** What is due *)

Definition fresh (agent : string) (undone : NotificationKey -> nat) (w : World) (k : NotificationKey) : Prop :=
  known w agent k /\ k ∉ parked_keys (buffer_of w agent) /\ (times_told k w <= undone k)%nat.

Lemma due_spec m delivered parked keep ds :
  due_notifications_filtered stat_ok readable m delivered parked keep = Some ds ->
  Forall2 (fun t d => d_task d = t /\ d_key d = task_key t)
    (base.filter (fun t => is_due delivered parked keep t = true) (list_tasks m)) ds.
Proof.
  unfold due_notifications_filtered. intros H. apply mapM_Some_1 in H. eapply Forall2_impl; [exact H|]. intros t d. simpl.
  unfold due_of. destruct (build_task_notification _ _) as [n|]; [|done]. by intros [= <-].
Qed.
Lemma due_keys m delivered parked keep ds :
  keyed_table id (tasks m) -> due_notifications_filtered stat_ok readable m delivered parked keep = Some ds ->
  NoDup (d_key <$> ds) /\
  Forall (fun d => tasks m !! id (d_task d) = Some (d_task d) /\ is_due delivered parked keep (d_task d) = true /\ d_key d = task_key (d_task d)) ds.
Proof.
  intros Hk H%due_spec. split.
  - apply (NoDup_fmap_1 k_task_id). rewrite <- list_fmap_compose.
    assert (E : (k_task_id ∘ d_key) <$> ds = id <$> base.filter (fun t => is_due delivered parked keep t = true) (list_tasks m)).
    { clear -H. induction H as [|t d ts ds [_ Ek] _ IH]; [done|]. rewrite !fmap_cons, IH. simpl. by rewrite Ek. }
    rewrite E. eapply sublist_NoDup; [by apply (sorted_values_sorted id (tasks m))|]. apply fmap_sublist, sublist_filter.
  - apply Forall_forall. intros d Hd. apply list_elem_of_lookup in Hd as [i Hd].
    destruct (Forall2_lookup_r _ _ _ _ _ H Hd) as (t & Ht & <- & Ek). apply list_elem_of_lookup_2 in Ht.
    apply list_elem_of_filter in Ht as [Hdue Ht]. by apply (elem_of_sorted_values id) in Ht.
Qed.

Lemma due_fresh agent undone w m keep ds :
  once [] agent undone w -> w_agents w !! agent = Some m ->
  due_notifications_filtered stat_ok readable (w_tasks w) (delivered_keys m) (parked_keys (buffer_of w agent)) keep = Some ds ->
  Forall (fun d => addressee (d_task d) = agent -> fresh agent undone w (d_key d)) ds.
Proof.
  intros Ho Hm Hds. destruct (due_keys _ _ _ _ _ (o_keyed _ _ _ _ Ho) Hds) as [_ H]. eapply Forall_impl; [exact H|].
  intros d (Ht & Hdue & Ek) Ha. unfold is_due in Hdue. rewrite !andb_true_iff, negb_true_iff, orb_false_iff, !bool_decide_eq_false in Hdue.
  destruct Hdue as (((_ & Hc) & Hu) & Hnd & Hnp). unfold is_notification_candidate in Hc. rewrite !andb_true_iff in Hc. rewrite Ek.
  assert (Hkn : known w agent (task_key (d_task d))) by (exists (d_task d); by destruct Hc as [[? _] _]).
  split; [done|]. split; [done|]. pose proof (o_count _ _ _ _ Ho agent (task_key (d_task d))) as Hcount.
  apply Nat.lt_eq_cases in Hcount as [Hlt|Heq]; [lia|]. destruct (Nat.eq_dec (times_told (task_key (d_task d)) w) (S (undone (task_key (d_task d))))) as [E|E].
  - exfalso. destruct (o_settled _ _ _ _ Ho _ E) as [(t & Ht' & Hf)|(a & m' & Ha' & Hm' & Hd')].
    + simpl in Ht'. rewrite Ht in Ht'. injection Ht' as <-. congruence.
    + assert (a = agent) as -> by (by eapply known_unique). rewrite Hm in Hm'. injection Hm' as <-. done.
  - rewrite (times_in_absent _ _ Hnp) in Heq. unfold times_of in Heq. simpl in Heq. lia.
Qed.

(** *** Departures and arrivals *)

Lemma once_depart agent undone w ks :
  NoDup ks -> Forall (fresh agent undone w) ks -> (forall a, once [] a undone w) -> once ks agent undone w.
Proof.
  intros Hn Hf Ho. rewrite Forall_forall in Hf. destruct (Ho agent) as [H1 H2 H3 H4 H5 H6 H7]. constructor; try done.
  - intros k Hk. by apply Hf.
  - intros a k. pose proof (H6 a k). destruct (decide (k ∈ ks)) as [Hk|Hk]; [|rewrite (times_of_absent _ ks Hk); unfold times_of in *; simpl in *; lia].
    destruct (Hf k Hk) as (Hkn & Hp & Ht). pose proof (times_of_NoDup k ks Hn).
    destruct (decide (a = agent)) as [->|Hna]; [rewrite (times_in_absent _ _ Hp); lia|]. rewrite (parked_elsewhere [] agent undone w agent a k); auto. lia.
Qed.
Lemma once_arrived agent undone w : once [] agent undone w -> forall a, once [] a undone w.
Proof. intros [H1 H2 H3 H4 H5 H6 H7] a. constructor; try done. intros k Hk. set_solver. Qed.

(** A notification that is on its way enters the buffer of its agent, ... *)
Lemma once_park agent undone w d ks :
  once (d_key d :: ks) agent undone w -> once ks agent undone (park_one agent w d).
Proof.
  intros Ho. set (w' := park_one agent w d).
  assert (Et : w_tasks w' = w_tasks w) by done. assert (Ea : w_agents w' = w_agents w) by done.
  assert (Eb : forall a, buffer_of w' a = if decide (a = agent) then buffer_of w agent ++ [mkSteer (text_content (d_xml d)) (key_origin (d_key d))] else buffer_of w a).
  { intros a. unfold w', park_one, buffer_of at 1. simpl. destruct (decide (a = agent)) as [->|Hn]; [by rewrite lookup_insert_eq|by rewrite lookup_insert_ne]. }
  assert (Ej : forall k, times_told k w' = times_told k w).
  { intros k. unfold w', park_one. cbv zeta. change (times_told k (record_op agent (TurnSteer (text_content (d_xml d)) (key_origin (d_key d))) (fire_notification_hook (d_key d) w)) = times_told k w).
    rewrite told_record. simpl. unfold times_told. simpl. lia. }
  clearbody w'. assert (Hkn : forall a k, known w' a k <-> known w a k) by (intros; by apply same_tasks_known).
  assert (Hin : forall k, times_in k [mkSteer (text_content (d_xml d)) (key_origin (d_key d))] = if decide (d_key d = k) then 1%nat else O).
  { intros k. unfold times_in. rewrite filter_cons, filter_nil. simpl. destruct (d_key d) as [x y z]. simpl.
    destruct (decide (mkKey x y z = k)) as [E|E]; [rewrite decide_True by congruence|rewrite decide_False by congruence]; done. }
  constructor.
  - rewrite Et. apply Ho.
  - intros k. rewrite Ej. intros Hk. destruct (o_told _ _ _ _ Ho k Hk) as [a H]. exists a. by apply Hkn.
  - intros a s k. rewrite Eb, Hkn. case_decide as E; [|by apply Ho]. rewrite elem_of_app, list_elem_of_singleton. intros [Hs| ->] Hk; [subst; by apply (o_parked _ _ _ _ Ho agent s)|].
    change (key_of_origin (key_origin (d_key d)) = Some k) in Hk. rewrite key_of_key_origin in Hk. injection Hk as <-. subst a. split; [|done]. apply (o_flight _ _ _ _ Ho). by left.
  - intros k Hk. apply Hkn, (o_flight _ _ _ _ Ho). by right.
  - intros a m k. rewrite Ea, Hkn. by eapply o_history.
  - intros a k. rewrite Ej, Eb. pose proof (o_count _ _ _ _ Ho a k) as H. rewrite times_of_cons in H. destruct (decide (a = agent)) as [->|E]; [|lia].
    rewrite times_in_app, Hin. lia.
  - intros k. rewrite Ej. intros Hk. destruct (o_settled _ _ _ _ Ho k Hk) as [(t & Ht)|(a & m & Ha & Hm & Hd)]; [left; exists t; by rewrite Et|].
    right. exists a, m. by rewrite Ea, Hkn.
Qed.
Lemma once_park_all agent undone ds w :
  once (d_key <$> ds) agent undone w -> once [] agent undone (park_due_notifications agent ds w).
Proof. revert w. induction ds as [|d ds IH]; intros w Ho; [done|]. simpl. apply IH. by apply once_park. Qed.

(** ... or its context. *)
Definition tell (agent : string) (k : NotificationKey) (content : list ContentPart) (now : Z) (w : World) : World :=
  on_memory agent (append_user_message content (key_origin k))
    (set_w_tasks (mark_notification_delivered io_ok (k_task_id k) now (w_tasks w)) (record_op agent (ContextAppendMessage content (key_origin k)) w)).
Lemma tell_told agent k content now w k' :
  times_told k' (tell agent k content now w) = (times_told k' w + (if decide (k = k') then 1 else 0))%nat.
Proof.
  set (w1 := record_op agent (ContextAppendMessage content (key_origin k)) w).
  transitivity (times_told k' w1); [unfold tell, on_memory; fold w1; simpl; destruct (w_agents w !! agent); done|].
  unfold w1. rewrite told_record. f_equal. destruct k as [x y z]. simpl.
  destruct (decide (mkKey x y z = k')); [rewrite decide_True by congruence|rewrite decide_False by congruence]; done.
Qed.
Lemma tell_memory agent k content now w a m' k' :
  w_agents (tell agent k content now w) !! a = Some m' -> k' ∈ delivered_keys m' ->
  (exists m, w_agents w !! a = Some m /\ k' ∈ delivered_keys m) \/ (a = agent /\ k' = k).
Proof.
  unfold tell, on_memory. simpl. destruct (w_agents w !! agent) as [m|] eqn:Hm; simpl.
  - destruct (decide (a = agent)) as [->|Hn]; [rewrite lookup_insert_eq|rewrite lookup_insert_ne by done; intros H Hd; left; by exists m'].
    intros [= <-] Hd. apply delivered_append in Hd as [Hd|Hd]; [left; by exists m|]. rewrite key_of_key_origin in Hd. injection Hd as ->. by right.
  - intros H Hd. left. by exists m'.
Qed.
Lemma tell_memory_kept agent k content now w a m k' :
  w_agents w !! a = Some m -> k' ∈ delivered_keys m ->
  exists m', w_agents (tell agent k content now w) !! a = Some m' /\ k' ∈ delivered_keys m'.
Proof.
  intros Hm Hd. unfold tell, on_memory. simpl. destruct (w_agents w !! agent) as [mg|] eqn:Hg; simpl; [|by exists m].
  destruct (decide (a = agent)) as [->|Hn]; [|exists m; by rewrite lookup_insert_ne].
  rewrite lookup_insert_eq. rewrite Hm in Hg. injection Hg as <-. eexists. split; [done|]. by apply delivered_kept.
Qed.
Lemma tell_moves agent k content now w :
  keyed_table id (tasks (w_tasks w)) ->
  let w' := tell agent k content now w in keyed_table id (tasks (w_tasks w')) /\ tasks_move (tasks (w_tasks w)) (tasks (w_tasks w')).
Proof.
  intros Hk. assert (E : w_tasks (tell agent k content now w) = mark_notification_delivered io_ok (k_task_id k) now (w_tasks w)).
  { unfold tell, on_memory. simpl. by destruct (w_agents w !! agent). }
  cbv zeta. rewrite E. by apply mark_moves.
Qed.
Lemma tell_marks agent k content now w a : known w a k -> marked (tell agent k content now w) k.
Proof.
  intros (t & Ht & _). unfold marked. assert (E : w_tasks (tell agent k content now w) = mark_notification_delivered io_ok (k_task_id k) now (w_tasks w)).
  { unfold tell, on_memory. simpl. by destruct (w_agents w !! agent). }
  rewrite E. by eapply mark_marks.
Qed.
Lemma tell_buffers agent k content now w a : buffer_of (tell agent k content now w) a = buffer_of w a.
Proof. unfold tell, on_memory. simpl. by destruct (w_agents w !! agent). Qed.

Lemma once_tell agent undone w content k ks now :
  once (k :: ks) agent undone w -> once ks agent undone (tell agent k content now w).
Proof.
  intros Ho. destruct (tell_moves agent k content now w (o_keyed _ _ _ _ Ho)) as [Hk' Hm]. cbv zeta in *.
  assert (Hkn : forall a k', known w a k' -> known (tell agent k content now w) a k') by (intros; by eapply known_move; [apply (o_keyed _ _ _ _ Ho)|..]).
  assert (Hin : known w agent k) by (apply (o_flight _ _ _ _ Ho); by left).
  constructor; [done| | | | | |].
  - intros k'. rewrite tell_told. destruct (decide (k = k')) as [<-|Hn]; [intros _; exists agent; by apply Hkn|].
    rewrite Nat.add_0_r. intros Hp. destruct (o_told _ _ _ _ Ho k' Hp) as [a Ha]. exists a. by apply Hkn.
  - intros a s k'. rewrite tell_buffers. intros Hs Hks. destruct (o_parked _ _ _ _ Ho a s k' Hs Hks). auto.
  - intros k' Hk. apply Hkn, (o_flight _ _ _ _ Ho). by right.
  - intros a m' k' Hm' Hd. apply Hkn. destruct (tell_memory _ _ _ _ _ _ _ _ Hm' Hd) as [(m & Hma & Hda)|[-> ->]]; [by eapply o_history|done].
  - intros a k'. rewrite tell_told, tell_buffers. pose proof (o_count _ _ _ _ Ho a k') as H. rewrite times_of_cons in H. lia.
  - intros k'. rewrite tell_told. destruct (decide (k = k')) as [<-|Hn]; [intros _; left; by eapply tell_marks|].
    rewrite Nat.add_0_r. intros E. destruct (o_settled _ _ _ _ Ho k' E) as [Hmk|(a & m & Ha & Hma & Hda)]; [left; by eapply marked_move|].
    destruct (tell_memory_kept agent k content now w a m k' Hma Hda) as (m' & Hm' & Hd'). right. exists a, m'. auto.
Qed.

(** The notifications of an idle agent leave its buffer. *)
Lemma stranded_keys (b : SteerBuffer) :
  delivery_key <$> omap delivery_of_steer b = omap (fun s => key_of_origin (s_origin s)) b.
Proof.
  induction b as [|s b IH]; [done|]. cbn [omap list_omap]. unfold delivery_of_steer at 1. destruct (key_of_origin (s_origin s)); simpl; by rewrite <- IH.
Qed.
Lemma once_take agent undone w ks :
  once ks agent undone w ->
  let '(w', stranded) := take_stranded agent w in once ((delivery_key <$> stranded) ++ ks) agent undone w'.
Proof.
  intros Ho. unfold take_stranded. destruct (is_stranded (buffer_of w agent)); [|done]. rewrite stranded_keys.
  set (b := buffer_of w agent) in *. set (w' := record_op _ _ _).
  assert (Et : w_tasks w' = w_tasks w) by done. assert (Ea : w_agents w' = w_agents w) by done.
  assert (Eb : forall a, buffer_of w' a = if decide (a = agent) then [] else buffer_of w a) by apply buffer_insert.
  assert (Ej : forall k, times_told k w' = times_told k w) by (intros k; unfold w'; rewrite told_record; simpl; unfold times_told; simpl; lia).
  clearbody w'. assert (Hkn : forall a k, known w' a k <-> known w a k) by (intros; by apply same_tasks_known).
  assert (Hb : forall k, (0 < times_in k b)%nat -> known w agent k) by (intros k Hk; by eapply times_in_known).
  constructor.
  - rewrite Et. apply Ho.
  - intros k. rewrite Ej. intros Hk. destruct (o_told _ _ _ _ Ho k Hk) as [a H]. exists a. by apply Hkn.
  - intros a s k. rewrite Eb, Hkn. case_decide; [set_solver|]. by apply Ho.
  - intros k. rewrite elem_of_app, Hkn. intros [Hk|Hk]; [|by apply (o_flight _ _ _ _ Ho)].
    apply list_elem_of_omap in Hk as (s & Hs & Hks). by apply (o_parked _ _ _ _ Ho agent s).
  - intros a m k. rewrite Ea, Hkn. by eapply o_history.
  - intros a k. rewrite Ej, Eb, times_of_app, times_of_omap. pose proof (o_count _ _ _ _ Ho agent k) as H. fold b in H.
    case_decide as E; [unfold times_in at 1; simpl; lia|]. destruct (Nat.eq_0_gt_0_cases (times_in k b)) as [E0|E0].
    + pose proof (o_count _ _ _ _ Ho a k). lia.
    + rewrite (parked_elsewhere _ _ _ _ agent a k Ho); [lia|by apply Hb|done].
  - intros k. rewrite Ej. intros Hk. destruct (o_settled _ _ _ _ Ho k Hk) as [(t & Ht)|(a & m & Ha & Hm & Hd)]; [left; exists t; by rewrite Et|].
    right. exists a, m. by rewrite Ea, Hkn.
Qed.

(** *** What is written besides *)

Lemma once_write flight a0 undone w w' :
  w_tasks w' = w_tasks w -> w_agents w' = w_agents w -> w_buffers w' = w_buffers w ->
  (forall k, times_told k w' = times_told k w) -> once flight a0 undone w -> once flight a0 undone w'.
Proof.
  intros Et Ea Eb Ej Ho. eapply once_quiet; [|exact Ho]. constructor.
  - rewrite Et. apply Ho.
  - rewrite Et. apply tasks_move_refl.
  - intros a. unfold buffer_of. by rewrite Eb.
  - done.
  - intros a m k Hm Hd. right. exists m. by rewrite Ea.
  - intros a m k. rewrite Ea. by eapply o_history.
Qed.
Lemma once_record flight a0 undone agent op w :
  journal_key op = None -> once flight a0 undone w -> once flight a0 undone (record_op agent op w).
Proof. intros Hop. apply once_write; try done. intros k. rewrite told_record, Hop. simpl. lia. Qed.
Lemma once_hooks flight a0 undone ds w :
  once flight a0 undone w -> once flight a0 undone (foldl (fun w d => fire_notification_hook (d_key d) w) w ds).
Proof. revert w. induction ds as [|d ds IH]; intros w Ho; [done|]. simpl. apply IH. by eapply once_write; [..|exact Ho]. Qed.

Lemma steers_grow m (ss : list BufferedSteer) k :
  Forall (fun s => is_notification s = false) ss -> k ∈ delivered_keys (foldl append_steer m ss) <-> k ∈ delivered_keys m.
Proof.
  revert m. induction ss as [|s ss IH]; intros m Hs; [done|]. apply Forall_cons in Hs as [Hs Hss]. simpl. rewrite IH by done.
  split; [|apply delivered_kept]. intros H%delivered_append. destruct H as [H|H]; [done|]. unfold is_notification in Hs. by destruct (s_origin s).
Qed.

(** The end of a turn leaves the notifications where they are. *)
Lemma filter_again {A} (p : A -> bool) (l : list A) :
  base.filter (fun a => p a = true) (base.filter (fun a => p a = true) l) = base.filter (fun a => p a = true) l.
Proof. rewrite list_filter_filter. apply list_filter_iff. intros a. by split; [intros []|]. Qed.
Lemma journal_fold_quiet {A} (op : A -> JournalOp) agent (l : list A) w :
  Forall (fun a => journal_key (op a) = None) l ->
  let w' := foldl (fun w a => record_op agent (op a) w) w l in
  w_tasks w' = w_tasks w /\ w_agents w' = w_agents w /\ w_buffers w' = w_buffers w /\ (forall k, times_told k w' = times_told k w).
Proof.
  revert w. induction l as [|a l IH]; intros w Hl; [done|]. apply Forall_cons in Hl as [Ha Hl]. simpl.
  destruct (IH (record_op agent (op a) w) Hl) as (-> & -> & -> & Hk). split_and!; try done. intros k. rewrite Hk, told_record, Ha. simpl. lia.
Qed.
Lemma stop_flush_world agent w :
  let w' := fst (stop_flush agent w) in
  let to_flush := base.filter (fun s => is_notification s = false) (buffer_of w agent : list BufferedSteer) in
  w_tasks w' = w_tasks w /\
  (forall a, buffer_of w' a = if decide (a = agent) then base.filter (fun s => is_notification s = true) (buffer_of w agent : list BufferedSteer) else buffer_of w a) /\
  (forall k, times_told k w' = times_told k w) /\
  (w_agents w' = w_agents w \/ exists m, w_agents w !! agent = Some m /\ w_agents w' = <[agent := foldl append_steer m to_flush]> (w_agents w)).
Proof.
  set (to_flush := base.filter (fun s => is_notification s = false) (buffer_of w agent : list BufferedSteer)). set (to_park := base.filter (fun s => is_notification s = true) (buffer_of w agent : list BufferedSteer)).
  set (w1 := set_w_buffers (<[agent := []]> (w_buffers w)) w).
  set (park := fun w : World => set_w_buffers (<[agent := buffer_of w agent ++ to_park]> (w_buffers w)) w).
  assert (Hpark : forall w2 a, w_buffers w2 = w_buffers w1 -> buffer_of (park w2) a = if decide (a = agent) then to_park else buffer_of w a).
  { intros w2 a E. unfold park. rewrite buffer_insert. assert (Hb : forall c, buffer_of w2 c = if decide (c = agent) then [] else buffer_of w c).
    { intros c. unfold buffer_of at 1. rewrite E. apply buffer_insert. }
    rewrite (Hb agent), (Hb a). destruct (decide (a = agent)) as [->|Hn]; [by destruct (decide (agent = agent))|done]. }
  set (w2 := record_op agent (TurnSteerFlushed (length (buffer_of w agent))) w1).
  set (w3 := foldl (fun w s => record_op agent (ContextAppendMessage (s_content s) (s_origin s)) w) w2 to_flush).
  set (w4 := foldl (fun w s => record_op agent (TurnSteer (s_content s) (s_origin s)) w) w3 to_park).
  destruct (decide (to_flush = [])) as [Hf|Hf].
  - assert (E : fst (stop_flush agent w) = park w1) by (unfold stop_flush, flush_take; cbv zeta; by rewrite bool_decide_eq_true_2).
    cbv zeta. rewrite E. clear E.
    split; [done|]. split; [intros a; by apply Hpark|]. split; [done|by left].
  - assert (E : fst (stop_flush agent w) = on_memory agent (fun m => foldl append_steer m to_flush) (park w4))
      by (unfold stop_flush, flush_take; cbv zeta; by rewrite bool_decide_eq_false_2).
    cbv zeta. rewrite E. clear E. unfold on_memory.
    destruct (journal_fold_quiet (fun s => ContextAppendMessage (s_content s) (s_origin s)) agent to_flush w2) as (Et & Ea & Eb & Ej).
    { apply Forall_forall. intros s Hs. apply list_elem_of_filter in Hs as [Hs _]. unfold is_notification in Hs. simpl. by destruct (s_origin s). }
    fold w3 in Et, Ea, Eb, Ej. destruct (journal_fold_quiet (fun s => TurnSteer (s_content s) (s_origin s)) agent to_park w3) as (Et' & Ea' & Eb' & Ej'); [by apply Forall_forall|].
    fold w4 in Et', Ea', Eb', Ej'. clearbody w3 w4.
    assert (Ej2 : forall k, times_told k w4 = times_told k w).
    { intros k. rewrite Ej', Ej. unfold w2. rewrite told_record. simpl. unfold times_told. simpl. lia. }
    change (w_agents (park w4)) with (w_agents w4). rewrite Ea', Ea. change (w_agents w2) with (w_agents w).
    destruct (w_agents w !! agent) as [m|] eqn:Hm; simpl.
    + split; [transitivity (w_tasks w4); [done|by rewrite Et', Et]|]. split; [|split; [|right; exists m; split; done]].
      * intros a. apply (Hpark w4). by rewrite Eb', Eb.
      * intros k. apply Ej2.
    + split; [transitivity (w_tasks w4); [done|by rewrite Et', Et]|]. split; [|split; [|left; transitivity (w_agents w4); [done|by rewrite Ea', Ea]]].
      * intros a. apply (Hpark w4). by rewrite Eb', Eb.
      * intros k. apply Ej2.
Qed.
Lemma stop_flush_quiet flight a0 undone agent w : once flight a0 undone w -> quiet w (fst (stop_flush agent w)).
Proof.
  intros Ho. set (w' := fst (stop_flush agent w)).
  destruct (stop_flush_world agent w) as (Et & Eb & Ej & Ea). fold w' in Et, Eb, Ej, Ea. cbv zeta in Ea.
  set (to_flush := base.filter (fun s => is_notification s = false) (buffer_of w agent : list BufferedSteer)) in Ea.
  assert (Hq : Forall (fun s => is_notification s = false) to_flush) by (apply Forall_forall; intros s Hs; by apply list_elem_of_filter in Hs as [? _]).
  constructor.
  - rewrite Et. apply Ho.
  - rewrite Et. apply tasks_move_refl.
  - intros a. rewrite Eb. case_decide; [subst; apply (filter_again is_notification)|done].
  - done.
  - intros a m k Hm Hd. right. destruct Ea as [->|(mg & Hg & ->)]; [by exists m|]. destruct (decide (a = agent)) as [->|Hn].
    + rewrite lookup_insert_eq. rewrite Hm in Hg. injection Hg as <-. eexists. split; [done|]. by apply steers_grow.
    + exists m. by rewrite lookup_insert_ne.
  - intros a m k. destruct Ea as [->|(mg & Hg & ->)]; [by eapply o_history|]. destruct (decide (a = agent)) as [->|Hn].
    + rewrite lookup_insert_eq. intros [= <-]. rewrite steers_grow by done. by eapply o_history.
    + rewrite lookup_insert_ne by done. by eapply o_history.
Qed.

(** ** What a turn does to the world

    It flushes the buffer of its agent, it ends, its context is compacted or cleared, and
    whatever else happens is quiet; [lost k] says how often [k] was lost in it: not got
    into the history by a flush, or taken out of it before it was marked. *)
Definition none_lost : NotificationKey -> nat := fun _ => 0%nat.
Inductive goes : World -> (NotificationKey -> nat) -> World -> Prop :=
| goes_quiet w w' : quiet w w' -> goes w none_lost w'
| goes_flush agent m w : w_agents w !! agent = Some m -> goes w (missed agent w) (flush_steers agent w)
| goes_lose agent m m' w :
    w_agents w !! agent = Some m -> delivered_keys m' ⊆ delivered_keys m ->
    goes w (lost_from w m m') (replace_context agent m' w)
| goes_stop agent w : goes w none_lost (fst (stop_flush agent w)).
Inductive goes_on : World -> (NotificationKey -> nat) -> World -> Prop :=
| goes_no_further w : goes_on w none_lost w
| goes_further w lost w1 lost' w' :
    goes w lost w1 -> goes_on w1 lost' w' -> goes_on w (fun k => lost k + lost' k)%nat w'.
Lemma once_goes flight a0 undone w lost w' :
  goes w lost w' -> once flight a0 undone w -> once flight a0 (fun k => undone k + lost k)%nat w'.
Proof.
  intros [w0 w1 Hq|agent m w0 Hm|agent m m' w0 Hm Hs|agent w0] Ho.
  - apply (once_more _ _ undone _ _); [intros k; lia|]. by eapply once_quiet.
  - by eapply once_flush.
  - by eapply once_lose.
  - apply (once_more _ _ undone _ _); [intros k; lia|]. eapply once_quiet; [by eapply stop_flush_quiet|done].
Qed.
Lemma once_goes_on flight a0 undone w lost w' :
  goes_on w lost w' -> once flight a0 undone w -> once flight a0 (fun k => undone k + lost k)%nat w'.
Proof.
  intros Hg. revert undone. induction Hg as [w|w lost w1 lost' w' Hg _ IH]; intros undone Ho.
  - apply (once_more _ _ undone _ _); [intros k; lia|done].
  - apply (once_more _ _ (fun k => undone k + lost k + lost' k)%nat); [intros k; lia|].
    apply (IH (fun k => undone k + lost k)%nat). by apply (once_goes _ _ _ w).
Qed.

Context (engine_turn : string -> World -> World) (turn_loss : string -> World -> NotificationKey -> nat).
Context (Hturn : forall agent w, goes_on w (turn_loss agent w) (engine_turn agent w)).
Notation walk := (walk io_ok subagent_parent reachable stat_ok readable).
Notation resolve_addressee := (resolve_addressee io_ok subagent_parent reachable stat_ok readable).

(** ** A pass of the driver *)

Definition all_fresh (agent : string) (undone : NotificationKey -> nat) (w : World) (ds : list NotificationDue) : Prop :=
  NoDup (d_key <$> ds) /\ Forall (fresh agent undone w) (d_key <$> ds).
Lemma all_fresh_once agent undone w ds : all_fresh agent undone w ds -> (forall a, once [] a undone w) -> once (d_key <$> ds) agent undone w.
Proof. intros [Hn Hf]. by apply once_depart. Qed.

Lemma all_fresh_due agent undone w m keep all ds :
  once [] agent undone w -> w_agents w !! agent = Some m ->
  due_notifications_filtered stat_ok readable (w_tasks w) (delivered_keys m) (parked_keys (buffer_of w agent)) keep = Some all ->
  ds `sublist_of` all -> Forall (fun d => addressee (d_task d) = agent) ds ->
  all_fresh agent undone w ds.
Proof.
  intros Ho Hm Hall Hs Ha. split.
  - destruct (due_keys _ _ _ _ _ (o_keyed _ _ _ _ Ho) Hall) as [Hn _]. eapply sublist_NoDup; [exact Hn|]. by apply fmap_sublist.
  - apply Forall_fmap, Forall_forall. intros d Hd. pose proof (due_fresh _ _ _ _ _ _ Ho Hm Hall) as Hfr. rewrite Forall_forall in Hfr, Ha.
    apply Hfr; [|by apply Ha]. by eapply elem_of_sublist.
Qed.

Lemma resolve_once now agent undone w :
  (forall a, once [] a undone w) ->
  let '(w', r) := resolve_addressee now agent w in
  (forall a, once [] a undone w') /\ match r with Some ad => all_fresh agent undone w' (due ad) | None => True end.
Proof.
  intros Ho. unfold resolve_addressee. destruct (w_agents w !! agent) as [m|] eqn:Hm; [|done].
  assert (Hs : forall a, once [] a undone (swept io_ok now m w)).
  { intros a. destruct (sweep_moves now (delivered_keys m) (w_tasks w) (o_keyed _ _ _ _ (Ho a))). by apply once_tasks. }
  cbv zeta. destruct (due_notifications _ _ _ _ _) as [all|] eqn:Hall.
  - split; [done|]. cbn [due]. eapply (all_fresh_due agent undone _ m (fun _ => true) all); [by apply Hs|exact Hm|exact Hall|apply sublist_filter|].
    apply Forall_forall. intros d Hd. by apply list_elem_of_filter in Hd as [? _].
  - split; [|done]. intros a. by eapply once_write; [..|apply Hs].
Qed.

Lemma walk_once now agents undone tried w :
  (forall a, once [] a undone w) ->
  let '(w', r) := walk now agents tried w in
  (forall a, once [] a undone w') /\ match r with Some (agent, ad) => all_fresh agent undone w' (due ad) | None => True end.
Proof.
  revert tried w. induction agents as [|agent agents IH]; intros tried w Ho; [done|]. cbn [TaskDriver.walk].
  case_bool_decide; [by apply IH|]. pose proof (resolve_once now agent undone w Ho) as Hr.
  destruct (resolve_addressee now agent w) as [w1 [ad|]]; destruct Hr as [Ho1 Hf].
  - destruct (_ && _); [by apply IH|]. case_bool_decide; [|done]. apply IH. apply once_arrived with agent.
    apply once_park_all. by apply all_fresh_once.
  - destruct (w_alive w1); [by apply IH|done].
Qed.

(** What the turns of a pass lose *)
Definition prompted (now : Z) (agent : string) (w : World) (d : NotificationDelivery) : World :=
  tell agent (delivery_key d) (text_content (xml d)) now
    (record_op agent (TurnPrompt (text_content (xml d)) (key_origin (delivery_key d))) w).
Fixpoint turns_loss (now : Z) (agent : string) (w : World) (ds : list NotificationDelivery) (k : NotificationKey) : nat :=
  match ds with
  | [] => 0%nat
  | d :: ds =>
    (turn_loss agent (prompted now agent w d) k
     + turns_loss now agent (run_notification_turn io_ok engine_turn now agent w d) ds k)%nat
  end.

Lemma run_turn_once now agent undone w d ks :
  once (delivery_key d :: ks) agent undone w ->
  once ks agent (fun k => undone k + turn_loss agent (prompted now agent w d) k)%nat
    (run_notification_turn io_ok engine_turn now agent w d).
Proof. intros Ho. apply (once_goes_on ks agent undone _ _ _ (Hturn agent (prompted now agent w d))). apply once_tell. by apply once_record. Qed.
Lemma run_turns_once now agent undone w ds :
  once (delivery_key <$> ds) agent undone w ->
  once [] agent (fun k => undone k + turns_loss now agent w ds k)%nat
    (foldl (run_notification_turn io_ok engine_turn now agent) w ds).
Proof.
  revert undone w. induction ds as [|d ds IH]; intros undone w Ho; simpl.
  - apply (once_more _ _ undone _ _); [intros k; lia|done].
  - apply (once_more _ _ (fun k => undone k + turn_loss agent (prompted now agent w d) k
      + turns_loss now agent (run_notification_turn io_ok engine_turn now agent w d) ds k)%nat); [intros k; lia|].
    apply (IH (fun k => undone k + turn_loss agent (prompted now agent w d) k)%nat). by apply run_turn_once.
Qed.

(** The turns a pass of [deliver_due_notifications] runs, from where *)
Definition pass_turns (goal_paused llm : bool) (now : Z) (w : World) : option (string * World * list NotificationDelivery) :=
  if negb (w_alive w) || goal_paused then None
  else
    match w_agents w !! DEFAULT_MAIN_AGENT_ID with
    | None => None
    | Some _ =>
      let candidates := base.filter (fun t => is_notification_candidate t = true) (list_tasks (w_tasks w)) in
      if bool_decide (candidates = []) && negb (any_stranded_buffer w) then None
      else
        match walk now ((addressee <$> candidates) ++ [DEFAULT_MAIN_AGENT_ID]) ∅ w with
        | (_, None) => None
        | (w, Some (agent, a)) =>
          if negb llm then None
          else
            let '(w, stranded) := take_stranded agent w in
            Some (agent, foldl (fun w d => fire_notification_hook (d_key d) w) w (due a),
                  stranded ++ ((fun d => mkDelivery (d_key d) (d_xml d)) <$> due a))
        end
    end.
Definition pass_loss (goal_paused llm : bool) (now : Z) (w : World) (k : NotificationKey) : nat :=
  match pass_turns goal_paused llm now w with
  | Some (agent, w, ds) => turns_loss now agent w ds k
  | None => 0%nat
  end.

Lemma deliver_once goal_paused llm now undone w :
  (forall a, once [] a undone w) ->
  forall a, once [] a (fun k => undone k + pass_loss goal_paused llm now w k)%nat
    (deliver_due_notifications io_ok subagent_parent reachable stat_ok readable engine_turn goal_paused llm now w).
Proof.
  intros Ho a. unfold deliver_due_notifications, pass_loss, pass_turns.
  assert (Hn : forall w', (forall a, once [] a undone w') -> once [] a (fun k => undone k + 0)%nat w').
  { intros w' H. apply (once_more _ _ undone _ _); [intros k; lia|apply H]. }
  destruct (_ || _); [by apply Hn|]. destruct (w_agents w !! _); [|by apply Hn]. cbv zeta.
  destruct (_ && _); [by apply Hn|]. set (agents := _ ++ _). pose proof (walk_once now agents undone ∅ w Ho) as Hw.
  destruct (walk now agents ∅ w) as [w1 [[agent ad]|]]; destruct Hw as [Ho1 Hf]; [|by apply Hn].
  destruct llm; [|by apply Hn]. simpl. pose proof (once_take agent undone w1 _ (all_fresh_once _ _ _ _ Hf Ho1)) as Ht.
  destruct (take_stranded agent w1) as [w2 stranded]. eapply once_arrived, run_turns_once. rewrite fmap_app, <- list_fmap_compose.
  by apply once_hooks.
Qed.

(** ** A resume *)

Lemma restore_one_tell now agent w d :
  d_key d = task_key (d_task d) -> restore_one io_ok now agent w d = tell agent (d_key d) (text_content (d_xml d)) now w.
Proof.
  intros Ek. unfold restore_one, tell, on_memory. rewrite Ek. simpl. by destruct (w_agents w !! agent).
Qed.
Lemma restore_all now agent undone T ds w :
  Forall (fun d => d_key d = task_key (d_task d)) ds -> once (d_key <$> ds) agent undone w -> tasks_move T (tasks (w_tasks w)) ->
  let w' := foldl (restore_one io_ok now agent) w ds in once [] agent undone w' /\ tasks_move T (tasks (w_tasks w')).
Proof.
  revert w. induction ds as [|d ds IH]; intros w Hk Ho Hm; [done|]. apply Forall_cons in Hk as [Hd Hk]. simpl. rewrite restore_one_tell by done.
  apply IH; [done|by apply once_tell|]. eapply tasks_move_trans; [exact Hm|]. apply tell_moves. apply (o_keyed _ _ _ _ Ho).
Qed.

Notation restore_group := (restore_group io_ok stat_ok readable).
(** A group names tasks of the session that tell its agent. *)
Definition grouped (T : gmap string AgentTask) (group : string * list AgentTask) : Prop :=
  Forall (fun t => T !! id t = Some t /\ addressee t = group.1) group.2.
Lemma restore_group_once now undone T w group :
  grouped T group -> (forall a, once [] a undone w) -> tasks_move T (tasks (w_tasks w)) ->
  let w' := restore_group now w group in (forall a, once [] a undone w') /\ tasks_move T (tasks (w_tasks w')).
Proof.
  destruct group as [agent ts]. unfold grouped. simpl. rewrite Forall_forall. intros Hg Ho Hm. unfold restore_group.
  destruct (negb (w_alive w)); [done|]. destruct (w_agents w !! agent) as [m|] eqn:Hma.
  - destruct (due_notifications_for _ _ _ _ _ _) as [ds|] eqn:Hds; [|split; [|done]; intros a; by eapply once_write; [..|apply Ho]].
    destruct (due_keys _ _ _ _ _ (o_keyed _ _ _ _ (Ho agent)) Hds) as [_ Hd].
    assert (Hf : all_fresh agent undone w ds).
    { eapply (all_fresh_due agent undone w m _ ds); [apply Ho|exact Hma|exact Hds|done|]. eapply Forall_impl; [exact Hd|]. simpl. intros d (Ht & Hdue & _).
      unfold is_due in Hdue. rewrite !andb_true_iff in Hdue. destruct Hdue as [[[Hi%bool_decide_eq_true _] _] _].
      rewrite elem_of_list_to_set, list_elem_of_fmap in Hi. destruct Hi as (t & Ei & Hin). destruct (Hg t Hin) as [HT Ha].
      destruct (Hm _ _ HT) as (t' & Ht' & Hkind & _). rewrite <- Ei, Ht in Ht'. injection Ht' as <-. by rewrite (addressee_kind _ _ Hkind). }
    destruct (restore_all now agent undone T ds w) as [H1 H2]; [|by apply all_fresh_once|done|].
    + eapply Forall_impl; [exact Hd|]. by intros d (_ & _ & ?).
    + split; [|done]. by eapply once_arrived.
  - destruct (mark_all_moves now ts w (o_keyed _ _ _ _ (Ho agent))) as [H1 H2]. split; [|by eapply tasks_move_trans].
    intros a. by apply once_tasks.
Qed.
Lemma restore_once now undone w :
  (forall a, once [] a undone w) ->
  forall a, once [] a undone (restore_task_notifications io_ok subagent_parent reachable stat_ok readable now w).
Proof.
  intros Ho. unfold restore_task_notifications. set (T := tasks (w_tasks w)).
  assert (Hg : Forall (grouped T) (by_addressee subagent_parent reachable (eligible w))).
  { apply Forall_forall. intros [agent ts] Hin. unfold by_addressee in Hin. apply list_elem_of_fmap in Hin as (a & [= -> ->] & _).
    apply Forall_forall. simpl. intros t Ht. apply list_elem_of_filter in Ht as [Ha Ht]. split; [|done]. unfold eligible in Ht.
    apply list_elem_of_filter in Ht as [_ Ht]. apply (elem_of_sorted_values id) in Ht; [done|]. apply (o_keyed _ _ _ _ (Ho a)). }
  revert Hg Ho. generalize (tasks_move_refl T). fold T. change (tasks_move T T) with (tasks_move T (tasks (w_tasks w))).
  generalize (by_addressee subagent_parent reachable (eligible w)). clearbody T. intros groups. revert w.
  induction groups as [|group groups IH]; intros w Hm Hg Ho; [done|]. apply Forall_cons in Hg as [Hgr Hg]. simpl.
  destruct (restore_group_once now undone T w group Hgr Ho Hm). by apply IH.
Qed.

(** ** An undo *)

(** What [dispatch_undo_history] does to the world: the history is cut, and the tasks
    whose notifications are gone count as not told. *)
Definition undo_conversation (agent : string) (count : nat) (w : World) : option World :=
  m ← w_agents w !! agent;
  match undo_count count m with
  | Err _ => None
  | Ok m' =>
    let removed := removed_notification_task_ids (origins (history m)) (origins (history m')) in
    Some (set_w_tasks (foldl (fun ts i => clear_notification_delivered io_ok i ts) (w_tasks w) removed)
      (set_w_agents (<[agent := m']> (w_agents w)) w))
  end.
Definition delivered_in (w : World) (agent : string) : gset NotificationKey :=
  match w_agents w !! agent with Some m => delivered_keys m | None => ∅ end.
Definition taken_back (agent : string) (w w' : World) : gset NotificationKey := delivered_in w agent ∖ delivered_in w' agent.

Lemma drop_hooks_elem h e : e ∈ drop_hooks h -> e ∈ h.
Proof. induction h as [|e' h IH]; [done|]. simpl. destruct (is_hook_message e'); [|done]. intros H. right. auto. Qed.
Lemma undo_count_elem count m m' e : undo_count count m = Ok m' -> e ∈ history m' -> e ∈ history m.
Proof.
  unfold undo_count. destruct (_ =? _)%nat; [by intros [= <-]|]. destruct (compute_undo_cut _ _) as [cut|]; [|done].
  intros [= <-] He. assert (H : e ∈ drop_hooks (take cut (history m))) by (destruct (_ <? _)%nat; exact He).
  apply drop_hooks_elem in H. by eapply elem_of_sublist; [exact H|apply sublist_take].
Qed.
Lemma elem_of_delivered m k : k ∈ delivered_keys m <-> exists e, e ∈ history m /\ Context.origin (e_msg e) = Some (key_origin k).
Proof.
  unfold delivered_keys. rewrite elem_of_list_to_set, list_elem_of_omap. unfold key_of_entry. split; intros (e & He & H); exists e; (split; [done|]).
  - destruct (Context.origin (e_msg e)) as [[]|]; simpl in H; try done. by injection H as <-.
  - rewrite H. by destruct k.
Qed.
Lemma undo_delivered count m m' k : undo_count count m = Ok m' -> k ∈ delivered_keys m' -> k ∈ delivered_keys m.
Proof. rewrite !elem_of_delivered. intros Hu (e & He & Ho). exists e. split; [by eapply undo_count_elem|done]. Qed.

(** Only what an undo may have removed loses its mark. *)
Lemma clear_all ids m :
  keyed_table id (tasks m) ->
  let m' := foldl (fun ts i => clear_notification_delivered io_ok i ts) m ids in
  keyed_table id (tasks m') /\
  (forall i t, tasks m !! i = Some t -> exists t', tasks m' !! i = Some t' /\ kind t' = kind t /\ status t' = status t /\ (i ∉ ids -> t' = t)).
Proof.
  revert m. induction ids as [|j ids IH]; intros m Hk; [split; [done|]; intros i t Ht; by exists t|]. simpl.
  set (m1 := clear_notification_delivered io_ok j m).
  assert (H1 : keyed_table id (tasks m1) /\ forall i t, tasks m !! i = Some t -> exists t', tasks m1 !! i = Some t' /\ kind t' = kind t /\ status t' = status t /\ (i <> j -> t' = t)).
  { unfold m1, clear_notification_delivered, mark. destruct (tasks m !! j) as [tj|] eqn:Hj; [|split; [done|]; intros i t Ht; by exists t].
    destruct (notification_delivered_at tj); [|split; [done|]; intros i t Ht; by exists t]. rewrite (proj1 (core_persist _ _ _)). simpl. split.
    - rewrite <- (Hk _ _ Hj : id tj = j). by apply (keyed_insert id _ (with_delivered None tj)).
    - intros i t Ht. destruct (decide (i = j)) as [->|Hn]; [|exists t; by rewrite lookup_insert_ne].
      rewrite Hj in Ht. injection Ht as <-. exists (with_delivered None tj). by rewrite lookup_insert_eq. }
  destruct H1 as [Hk1 H1]. destruct (IH m1 Hk1) as [Hk2 H2]. split; [done|]. intros i t Ht. destruct (H1 i t Ht) as (t1 & E1 & K1 & S1 & N1).
  destruct (H2 i t1 E1) as (t2 & E2 & K2 & S2 & N2). exists t2. split; [done|]. split; [congruence|]. split; [congruence|].
  rewrite not_elem_of_cons. intros [Hn Hni]. rewrite N2 by done. auto.
Qed.

Lemma removed_delivered m after i :
  i ∈ removed_notification_task_ids (origins (history m)) after -> exists k, k ∈ delivered_keys m /\ k_task_id k = i.
Proof.
  unfold removed_notification_task_ids. intros Hi. apply list_elem_of_omap in Hi as (o & Ho & Hn).
  assert (Hin : o ∈ origins (history m)) by (by eapply elem_of_sublist; [exact Ho|apply sublist_take]).
  unfold origins in Hin. apply list_elem_of_fmap in Hin as (e & -> & He). unfold notification in Hn.
  destruct (Context.origin (e_msg e)) as [[]|] eqn:E; try done. injection Hn as <-. eexists (mkKey _ _ _). split; [|done].
  apply elem_of_delivered. exists e. split; [done|]. by rewrite E.
Qed.
Lemma known_same w a1 a2 k1 k2 : known w a1 k1 -> known w a2 k2 -> k_task_id k1 = k_task_id k2 -> k1 = k2.
Proof. intros (t1 & E1 & K1 & _) (t2 & E2 & K2 & _) E. rewrite E in E1. rewrite E1 in E2. injection E2 as ->. congruence. Qed.

Lemma undo_once agent count undone w w' :
  undo_conversation agent count w = Some w' -> (forall a, once [] a undone w) ->
  forall a, once [] a (fun k => undone k + (if decide (k ∈ taken_back agent w w') then 1 else 0))%nat w'.
Proof.
  unfold undo_conversation. destruct (w_agents w !! agent) as [m|] eqn:Hm; [|done]. simpl. destruct (undo_count count m) as [m'|] eqn:Hu; [|done].
  intros [= Ew] Hall a0. pose proof (Hall a0) as Ho. set (removed := removed_notification_task_ids _ _) in *.
  destruct (clear_all removed (w_tasks w) (o_keyed _ _ _ _ Ho)) as [Hk' Hcl].
  assert (Et : tasks (w_tasks w') = tasks (foldl (fun ts i => clear_notification_delivered io_ok i ts) (w_tasks w) removed)) by (by rewrite <- Ew).
  assert (Ea : w_agents w' = <[agent := m']> (w_agents w)) by (by rewrite <- Ew).
  assert (Eb : forall a, buffer_of w' a = buffer_of w a) by (by rewrite <- Ew). assert (Ej : forall k, times_told k w' = times_told k w) by (by rewrite <- Ew).
  clear Ew. rewrite <- Et in Hk', Hcl.
  assert (Hkn : forall a k, known w a k -> known w' a k).
  { intros a k (t & Ht & Ek & Eaddr & Hterm). destruct (Hcl _ _ Ht) as (t' & Ht' & Kt & St & _). exists t'. split; [done|].
    split; [|split; [by rewrite (addressee_kind t t')|by rewrite St]]. rewrite <- Ek. unfold task_key. rewrite St. f_equal.
    rewrite (o_keyed _ _ _ _ Ho _ _ Ht : id t = _). exact (Hk' _ _ Ht'). }
  constructor; [done| | | | | |].
  - intros k. rewrite Ej. intros Hp. destruct (o_told _ _ _ _ Ho k Hp) as [a Ha]. exists a. auto.
  - intros a s k. rewrite Eb. intros Hs Hks. destruct (o_parked _ _ _ _ Ho a s k Hs Hks). auto.
  - intros k Hk. set_solver.
  - intros a ma k Hma Hd. apply Hkn. rewrite Ea in Hma. destruct (decide (a = agent)) as [->|Hn].
    + rewrite lookup_insert_eq in Hma. injection Hma as <-. eapply o_history; [exact Ho|exact Hm|by eapply undo_delivered].
    + rewrite lookup_insert_ne in Hma by done. by eapply o_history.
  - intros a k. rewrite Ej, Eb. pose proof (o_count _ _ _ _ Ho a k). unfold times_of in *. simpl in *. lia.
  - intros k. rewrite Ej. pose proof (o_count _ _ _ _ Ho a0 k) as Hcount. case_decide as Htb; [lia|]. rewrite Nat.add_0_r. intros Hk.
    unfold taken_back, delivered_in in Htb. rewrite Ea, lookup_insert_eq, Hm, elem_of_difference in Htb.
    assert (Hkeep : k ∈ delivered_keys m -> k ∈ delivered_keys m').
    { intros Hd. destruct (decide (k ∈ delivered_keys m')); tauto. }
    destruct (o_settled _ _ _ _ Ho k Hk) as [(t & Ht & Hmk)|(a & ma & Ha & Hma & Hd)].
    + destruct (Hcl _ _ Ht) as (t' & Ht' & _ & _ & Hsame). destruct (decide (k_task_id k ∈ removed)) as [Hrem|Hrem].
      * right. destruct (removed_delivered _ _ _ Hrem) as (k2 & Hk2 & Ei). pose proof (o_history _ _ _ _ Ho agent m k2 Hm Hk2) as Hkn2.
        destruct (o_told _ _ _ _ Ho k) as (a1 & Hk1); [lia|]. pose proof (known_same _ _ _ _ _ Hkn2 Hk1 Ei) as Esame. subst k2.
        exists agent, m'. rewrite Ea, lookup_insert_eq. auto.
      * left. exists t'. by rewrite Hsame in Ht' |- *.
    + right. exists a. destruct (decide (a = agent)) as [->|Hn].
      * exists m'. rewrite Ea, lookup_insert_eq. rewrite Hm in Hma. injection Hma as <-. auto.
      * exists ma. rewrite Ea, lookup_insert_ne by done. auto.
Qed.

(** ** The life of a session *)

(** Nobody was told anything yet. *)
Record untold (w : World) : Prop := {
  u_keyed : keyed_table id (tasks (w_tasks w));
  u_told : forall k, times_told k w = O;
  u_parked : forall a, Forall (fun s => is_notification s = false) (buffer_of w a : list BufferedSteer);
  u_history : forall a, delivered_in w a = ∅
}.
(** [lost k] counts how often [k] was lost: taken back by an undo, taken out of a context
    by a compaction or a clear before the driver marked it, or kept out of the history by
    a flush that found it full or an exchange open. *)
Inductive life : (NotificationKey -> nat) -> World -> Prop :=
| life_start w : untold w -> life none_lost w
| life_goes lost w more w' : life lost w -> goes w more w' -> life (fun k => lost k + more k)%nat w'
| life_pass goal_paused llm now lost w :
    life lost w ->
    life (fun k => lost k + pass_loss goal_paused llm now w k)%nat
      (deliver_due_notifications io_ok subagent_parent reachable stat_ok readable engine_turn goal_paused llm now w)
| life_resume now lost w :
    life lost w -> life lost (restore_task_notifications io_ok subagent_parent reachable stat_ok readable now w)
| life_undo agent count lost w w' :
    life lost w -> undo_conversation agent count w = Some w' ->
    life (fun k => lost k + (if decide (k ∈ taken_back agent w w') then 1 else 0))%nat w'.

Lemma untold_once w a : untold w -> once [] a none_lost w.
Proof.
  intros [Hk Ht Hp Hh]. constructor; [done|..].
  - intros k. rewrite Ht. lia.
  - intros b s k Hs Hks. exfalso. specialize (Hp b). rewrite Forall_forall in Hp. specialize (Hp s Hs). unfold is_notification in Hp.
    by destruct (s_origin s).
  - intros k Hk'. set_solver.
  - intros b m k Hm Hd. exfalso. specialize (Hh b). unfold delivered_in in Hh. rewrite Hm in Hh. set_solver.
  - intros b k. rewrite Ht. rewrite (times_in_notifications k (buffer_of w b)).
    assert (E : base.filter (fun s => is_notification s = true) (buffer_of w b : list BufferedSteer) = []).
    { specialize (Hp b). induction Hp as [|s l Hs _ IH]; [done|]. rewrite filter_cons_False by congruence. done. }
    rewrite E. unfold times_in, times_of. simpl. lia.
  - intros k. rewrite Ht. lia.
Qed.
Lemma life_once lost w : life lost w -> forall a, once [] a lost w.
Proof.
  induction 1 as [w Hu|lost w more w' _ IH Hg|gp llm now lost w _ IH|now lost w _ IH|agent count lost w w' _ IH Hu].
  - intros a. by apply untold_once.
  - intros a. by eapply once_goes.
  - by apply deliver_once.
  - by apply restore_once.
  - by eapply undo_once.
Qed.

End once.

(** ** Witnesses *)

Definition finished_build : TaskManager :=
  performs writes_succeed listed [OpRegisterBackground "task-1" build "build" "s" 10 0 None; OpComplete "task-1" 0 30] (session_manager 2 None None).
Definition asked : ContextMemory := append_user_message [Text "build it"] User new_memory.
Definition idle_world : World := mkWorld finished_build {["main" := asked]} ∅ ∅ [] [] true.
Definition build_key : NotificationKey := new_key "task-1" "completed".
Definition no_parent : string -> option string := fun _ => None.
Definition nobody : string -> bool := fun _ => false.
(** A turn that only ends *)
Definition short_turn (agent : string) (w : World) : World := fst (stop_flush agent w).
Definition no_loss (agent : string) (w : World) : NotificationKey -> nat := fun k => (none_lost k + none_lost k)%nat.
Lemma short_turn_goes agent w : goes_on no_parent nobody w (no_loss agent w) (short_turn agent w).
Proof. apply (goes_further _ _ w none_lost (short_turn agent w) none_lost); [apply goes_stop|apply goes_no_further]. Qed.
Definition pass_of (now : Z) (w : World) : World :=
  deliver_due_notifications writes_succeed no_parent nobody true true short_turn false true now w.
Definition taken_back_world : option World := undo_conversation writes_succeed "main" 1 (pass_of 50 idle_world).

Lemma turns_lose_nothing now agent w ds k : turns_loss writes_succeed short_turn no_loss now agent w ds k = 0%nat.
Proof. revert w. induction ds as [|d ds IH]; intros w; [done|]. simpl. by rewrite IH. Qed.
Lemma pass_loses_nothing goal_paused llm now w k :
  pass_loss writes_succeed no_parent nobody true true short_turn no_loss goal_paused llm now w k = 0%nat.
Proof. unfold pass_loss. destruct (pass_turns _ _ _ _ _ _ _ _ _) as [[[agent w'] ds]|]; [apply turns_lose_nothing|done]. Qed.

Lemma idle_untold : untold idle_world.
Proof.
  constructor.
  - apply (bool_decide_eq_true_1 (map_Forall (fun i t => id t = i) (tasks finished_build))). by vm_compute.
  - done.
  - intros a. unfold buffer_of. simpl. by rewrite lookup_empty.
  - intros a. unfold delivered_in, idle_world. simpl. destruct (decide (a = "main")) as [->|Hn]; [by vm_compute|].
    by rewrite lookup_singleton_ne.
Qed.

Definition told_again (w2 : World) : nat := times_told build_key (pass_of 60 w2).
Definition was_taken_back (w2 : World) : bool := bool_decide (build_key ∈ taken_back "main" (pass_of 50 idle_world) w2).
Definition retold : option (nat * bool) :=
  w2 ← taken_back_world; Some (told_again w2, was_taken_back w2).
Lemma retold_twice : retold = Some (2%nat, true).
Proof. vm_compute. reflexivity. Qed.

Lemma told_of_pair {A} (o : option A) (f : A -> nat) (g : A -> bool) n b :
  (w ← o; Some (f w, g w)) = Some (n, b) -> exists w, o = Some w /\ f w = n /\ g w = b.
Proof. destruct o as [w|]; [|done]. intros [= <- <-]. by exists w. Qed.


(** A step of a turn flushes the notification into the context, the context is cleared,
    or compacted, before the driver sees it there, and the next pass tells it again. *)
Definition cleared_before_the_sweep : nat :=
  let busy (w : World) := mkWorld (w_tasks w) (w_agents w) (w_buffers w) {["main"]} (w_journal w) (w_hooks w) (w_alive w) in
  let w := flush_steers "main" (pass_of 50 (busy idle_world)) in
  let w := on_memory "main" Memory.clear w in
  times_told build_key (flush_steers "main" (pass_of 51 w)).
Example cleared_tells_twice : cleared_before_the_sweep = 2%nat.
Proof. by vm_compute. Qed.

(** The flush of a step lets go of the buffer before its steers are in the context.  A
    pass of the driver in between finds the notification in neither ledger and parks it
    again: the agent is told twice. *)
Definition flush_race : nat :=
  let busy (w : World) := mkWorld (w_tasks w) (w_agents w) (w_buffers w) {["main"]} (w_journal w) (w_hooks w) (w_alive w) in
  let w := pass_of 50 (busy idle_world) in
  let '(w, taken) := flush_take "main" w in
  let w := pass_of 51 w in
  let w := flush_append "main" taken w in
  times_told build_key (flush_steers "main" w).
Example flush_race_tells_twice : flush_race = 2%nat.
Proof. by vm_compute. Qed.
