(* ===== verification/GoalManager.v ===== *)
(** * Goals: [mirri-core/src/goal.rs] and those who write them

    A session has at most one goal, which the model or the user sets, with an optional
    budget of turns, tokens and time.  The manager that holds it, the three tools and
    the handlers of the user that change it, the accounting of a step against its
    budget ([run_turn_loop] of [turn_flow/mod.rs]), and its restore. *)
From stdpp Require Import gmap strings list.
From S2P Require Import Prelude RustStd Json EngineError Context TokenEstimator Memory LoopWire LlmStream TurnTypes SessionState.
#[local] Open Scope string_scope.
#[local] Open Scope list_scope.
#[local] Open Scope Z_scope.

Definition GOAL_CANCELLED_REMINDER : string :=
  "The user cancelled the current goal. Ignore earlier active-goal reminders for that goal. Handle the next user request normally unless the user starts or resumes a goal.".
Definition GOAL_BUDGET_STOP_REMINDER : string :=
  "The goal's hard budget was reached and the goal is now blocked; the user can resume it with /goal resume. Stop immediately. Do not call any more tools: they will be rejected. Write a brief final status message summarizing the progress so far.".

(** ** The goal *)

Module GoalStatus.
Inductive t : Type := Active | Paused | Complete | Blocked.
#[global] Instance t_eq_dec : EqDecision t. Proof. solve_decision. Defined.
End GoalStatus.

Definition goal_status_wire (s : GoalStatus.t) : string :=
  match s with
  | GoalStatus.Active => "active" | GoalStatus.Paused => "paused" | GoalStatus.Complete => "completed" | GoalStatus.Blocked => "blocked"
  end.
Definition goal_status_snapshot_wire (s : GoalStatus.t) : string :=
  match s with
  | GoalStatus.Active => "active" | GoalStatus.Paused => "paused" | GoalStatus.Complete => "complete" | GoalStatus.Blocked => "blocked"
  end.
Definition parse_goal_status (s : string) : GoalStatus.t :=
  if bool_decide (s = "paused") then GoalStatus.Paused
  else if bool_decide (s = "completed") then GoalStatus.Complete
  else if bool_decide (s = "blocked") then GoalStatus.Blocked
  else GoalStatus.Active.

Record GoalBudget : Type := mkBudget { b_turns : option Z; b_tokens : option Z; b_wall_clock_ms : option Z }.
#[export] Instance GoalBudget_eq_dec : EqDecision GoalBudget. Proof. solve_decision. Defined.
Record Goal : Type := mkGoal {
  g_objective : string;
  g_completion_criterion : option string;
  g_status : GoalStatus.t;
  g_budget : option GoalBudget;
  g_terminal_reason : option string
}.
#[export] Instance Goal_eq_dec : EqDecision Goal. Proof. solve_decision. Defined.

(** ** The manager; instants are nanoseconds of the monotonic clock *)

Record GoalManager : Type := mkManager {
  gm_goal : option Goal;
  used_turns : Z;
  used_tokens : Z;
  start_time : option Z
}.
Definition new : GoalManager := mkManager None 0 0 None.
Definition with_goal (g : option Goal) (m : GoalManager) : GoalManager := mkManager g (used_turns m) (used_tokens m) (start_time m).
Definition on_goal (f : Goal -> Goal) (m : GoalManager) : GoalManager := with_goal (f <$> gm_goal m) m.

Definition create (objective : string) (criterion : option string) (m : GoalManager) : GoalManager * result EngineError unit :=
  match gm_goal m with
  | Some _ => (m, Err (RequestInvalid "a goal already exists; clear it before creating a new one"))
  | None => (mkManager (Some (mkGoal objective criterion GoalStatus.Active None None)) 0 0 (start_time m), Ok tt)
  end.
Definition get (m : GoalManager) : option Goal := gm_goal m.
Definition keeps_reason (s : GoalStatus.t) : bool := match s with GoalStatus.Blocked | GoalStatus.Paused => true | _ => false end.
Definition update (s : GoalStatus.t) (m : GoalManager) : GoalManager :=
  on_goal (fun g => mkGoal (g_objective g) (g_completion_criterion g) s (g_budget g) (if keeps_reason s then g_terminal_reason g else None)) m.
Definition update_with_reason (s : GoalStatus.t) (reason : option string) (m : GoalManager) : GoalManager :=
  on_goal (fun g => mkGoal (g_objective g) (g_completion_criterion g) s (g_budget g) (if keeps_reason s then reason else None)) m.
Definition positive (limit : option Z) : bool := match limit with Some ms => 0 <? ms | None => false end.
Definition set_budget (now : Z) (b : GoalBudget) (m : GoalManager) : GoalManager :=
  match gm_goal m with
  | None => m
  | Some g =>
    mkManager (Some (mkGoal (g_objective g) (g_completion_criterion g) (g_status g) (Some b) (g_terminal_reason g)))
      (used_turns m) (used_tokens m)
      (if positive (b_wall_clock_ms b) then Some (default now (start_time m)) else start_time m)
  end.
Definition clear (m : GoalManager) : GoalManager := mkManager None 0 0 None.

(** [start.elapsed().as_millis() as u64] *)
Definition elapsed_ms (now start : Z) : Z := wrap_u64 (Z.max 0 (now - start) / 1000000).
Definition at_least (used : Z) (limit : option Z) : bool := match limit with Some max => max <=? used | None => false end.
Definition is_wall_clock_exceeded (now : Z) (b : GoalBudget) (m : GoalManager) : bool :=
  match start_time m with
  | Some start => positive (b_wall_clock_ms b) && at_least (elapsed_ms now start) (b_wall_clock_ms b)
  | None => false
  end.
Definition exceeded (now : Z) (b : GoalBudget) (m : GoalManager) : bool :=
  at_least (used_turns m) (b_turns b) || at_least (used_tokens m) (b_tokens b) || is_wall_clock_exceeded now b m.
(** The counters wrap at 64 bits. *)
Definition tokens_of (u : LlmUsage) : Z := wrap_u64 (LlmStream.input_tokens u + LlmStream.output_tokens u).
Definition record_step_usage (now : Z) (u : LlmUsage) (m : GoalManager) : GoalManager * option bool :=
  let m := mkManager (gm_goal m) (wrap_u64 (used_turns m + 1)) (wrap_u64 (used_tokens m + tokens_of u)) (start_time m) in
  (m, match gm_goal m with
      | Some g => Some (match g_budget g with Some b => exceeded now b m | None => false end)
      | None => None
      end).
Definition is_budget_exhausted (now : Z) (m : GoalManager) : bool :=
  match gm_goal m with
  | Some g => match g_budget g with Some b => exceeded now b m | None => false end
  | None => false
  end.
Definition has_status (s : GoalStatus.t) (m : GoalManager) : bool :=
  match gm_goal m with Some g => bool_decide (g_status g = s) | None => false end.
Definition is_goal_complete : GoalManager -> bool := has_status GoalStatus.Complete.
Definition is_goal_active : GoalManager -> bool := has_status GoalStatus.Active.
Definition restore_usage (turns tokens : Z) (m : GoalManager) : GoalManager := mkManager (gm_goal m) turns tokens (start_time m).
Definition wall_clock_ms (now : Z) (m : GoalManager) : Z := match start_time m with Some start => elapsed_ms now start | None => 0 end.

(** [goal_snapshot_wire] *)
Definition opt_num (key : string) (v : option Z) : list (string * json) := match v with Some n => [(key, JNum n)] | None => [] end.
Definition goal_snapshot_wire (g : Goal) (m : GoalManager) : json :=
  JObj ([("goalId", JStr "goal-1"); ("objective", JStr (g_objective g))] ++
    match g_completion_criterion g with Some c => [("completionCriterion", JStr c)] | None => [] end ++
    [("status", JStr (goal_status_snapshot_wire (g_status g))); ("turnsUsed", JNum (used_turns m)); ("tokensUsed", JNum (used_tokens m));
     ("wallClockMs", JNum 0);
     ("budget", match g_budget g with
                | Some b => JObj (opt_num "turns" (b_turns b) ++ opt_num "tokens" (b_tokens b) ++ opt_num "wallClockMs" (b_wall_clock_ms b))
                | None => JNull
                end)]).

(** ** A session with its log

    The manager, the log of the session, its event bus (the snapshot and the change of
    each [GoalUpdated]), and the memory of its main agent *)
Record GoalSession : Type := mkSession {
  gs_manager : GoalManager;
  gs_log : list WireOp.t;
  gs_bus : list (json * json);
  gs_main : option ContextMemory
}.
Definition set_manager (m : GoalManager) (s : GoalSession) : GoalSession := mkSession m (gs_log s) (gs_bus s) (gs_main s).
Definition mutate (f : GoalManager -> GoalManager) (s : GoalSession) : GoalSession := set_manager (f (gs_manager s)) s.
Definition record_op (op : WireOp.t) (s : GoalSession) : GoalSession := mkSession (gs_manager s) (gs_log s ++ [op]) (gs_bus s) (gs_main s).
Definition snapshot (s : GoalSession) : json :=
  match get (gs_manager s) with Some g => goal_snapshot_wire g (gs_manager s) | None => JNull end.
Definition publish (change : json) (s : GoalSession) : GoalSession :=
  mkSession (gs_manager s) (gs_log s) (gs_bus s ++ [(snapshot s, change)]) (gs_main s).
Definition has_goal (s : GoalSession) : bool := match get (gs_manager s) with Some _ => true | None => false end.

Definition str_fields (l : list (string * string)) : json := JObj ((fun '(k, v) => (k, JStr v)) <$> l).
Definition lifecycle (l : list (string * string)) : json := str_fields (("kind", "lifecycle") :: l).

Definition status_op (s : GoalStatus.t) (reason : option string) : WireOp.t :=
  WireOp.GoalUpdate None (Some (goal_status_wire s)) reason None None None.

(** ** The tools *)

(** [CreateGoalTool]; the id is minted, and the answer is the text of the result or of
    the error. *)
Definition create_goal_arguments (input : json) : result string (string * option string) :=
  match str_field "objective" input with
  | None => Err "CreateGoal requires an 'objective' string argument"
  | Some objective =>
    let objective := trim objective in
    if bool_decide (objective = "") then Err "CreateGoal 'objective' must not be empty"
    else Ok (objective, str_field "completion_criterion" input)
  end.
Definition create_goal_text (g : Goal) : string :=
  "Goal created." +:+ NEWLINE +:+ "Objective: " +:+ g_objective g +:+ NEWLINE +:+ "Status: " +:+ goal_status_snapshot_wire (g_status g) +:+ NEWLINE +:+
  "Completion criterion: " +:+ default "(none)" (g_completion_criterion g).
Definition create_goal_tool (goal_id : string) (input : json) (s : GoalSession) : GoalSession * result string string :=
  match create_goal_arguments input with
  | Err e => (s, Err e)
  | Ok (objective, criterion) =>
    let s := if has_goal s then s else record_op (WireOp.GoalCreate goal_id objective criterion (Some "active") None) s in
    match create objective criterion (gs_manager s) with
    | (_, Err e) => (s, Err (error_text e))
    | (m, Ok _) =>
      let s := set_manager m s in
      match get m with
      | Some g => (publish (lifecycle [("status", "active"); ("actor", "model")]) s, Ok (create_goal_text g))
      | None => (s, Ok "Goal created.")
      end
    end
  end.

(** [UpdateGoalTool] *)
Definition update_goal_status (label : string) : option GoalStatus.t :=
  if bool_decide (label = "active") then Some GoalStatus.Active
  else if bool_decide (label = "complete") then Some GoalStatus.Complete
  else if bool_decide (label = "blocked") then Some GoalStatus.Blocked
  else None.
Definition update_goal_tool (input : json) (s : GoalSession) : GoalSession * result string string :=
  match str_field "status" input with
  | None => (s, Err "UpdateGoal requires a 'status' string argument")
  | Some label =>
    match update_goal_status label with
    | None => (s, Err ("UpdateGoal 'status' must be one of active, complete, blocked; got '" +:+ label +:+ "'"))
    | Some status =>
      if negb (has_goal s) then (s, Err "No active goal to update; create a goal first.")
      else if negb (bool_decide (status = GoalStatus.Active)) && negb (is_goal_active (gs_manager s)) then
        (s, Err (match status with GoalStatus.Complete => "Goal not completed: no active goal." | _ => "Goal not blocked: no active goal." end))
      else
        let s := mutate (update status) (record_op (status_op status None) s) in
        (publish (lifecycle [("status", label); ("actor", "model")]) s, Ok ("Goal status updated to " +:+ label +:+ "."))
    end
  end.

(** [SetGoalBudgetTool] *)
Definition u64_field (key : string) (j : json) : option Z := jget key j ≫= as_u64.
Definition budget_to_value (b : GoalBudget) : json :=
  let limit (v : option Z) := match v with Some n => JNum n | None => JNull end in
  JObj [("turns", limit (b_turns b)); ("tokens", limit (b_tokens b)); ("wallClockMs", limit (b_wall_clock_ms b))].
Definition set_goal_budget_tool (now : Z) (input : json) (s : GoalSession) : GoalSession * result string string :=
  let b := mkBudget (u64_field "turns" input) (u64_field "tokens" input) (u64_field "wall_clock_ms" input) in
  if bool_decide (b = mkBudget None None None) then
    (s, Err "SetGoalBudget requires at least one of 'turns', 'tokens', or 'wall_clock_ms'")
  else if negb (has_goal s) then (s, Err "No active goal to set a budget for; create a goal first.")
  else
    let s := mutate (set_budget now b) (record_op (WireOp.GoalUpdate None None None None None (Some (budget_to_value b))) s) in
    (publish (lifecycle [("actor", "model")]) s, Ok "Goal budget set.").

(** ** The user *)

Inductive RpcError : Type := InvalidParams (msg : string) | NotFound (msg : string) | Engine (e : EngineError) | Internal (msg : string).
Definition ack : json := JObj [("ok", JBool true)].

(** [dispatch_create_goal] *)
Definition dispatch_create_goal (goal_id : string) (objective : option string) (replace : bool) (s : GoalSession)
  : GoalSession * result RpcError json :=
  let s := if replace && has_goal s then mutate clear (record_op WireOp.GoalClear s) else s in
  match objective with
  | None => (s, Err (InvalidParams "createGoal requires an 'objective' string"))
  | Some objective =>
    if negb replace && has_goal s then
      (s, Err (Engine (RequestInvalid "a goal already exists; clear it before creating a new one")))
    else
      let s := record_op (WireOp.GoalCreate goal_id objective None (Some "active") None) s in
      match create objective None (gs_manager s) with
      | (_, Err e) => (s, Err (Engine e))
      | (m, Ok _) =>
        let s := set_manager m s in
        match get m with
        | None => (s, Err (Internal "goal was created but is not readable"))
        | Some _ => (publish (lifecycle [("status", "active"); ("actor", "user")]) s, Ok (snapshot s))
        end
      end
  end.

(** The goal's part of [cancel_in_flight_turns]; [in_flight] is whether a turn of the
    session runs. *)
Definition interrupt (in_flight : bool) (s : GoalSession) : GoalSession :=
  if in_flight && is_goal_active (gs_manager s) then
    let reason := "Paused after interruption" in
    let s := mutate (update_with_reason GoalStatus.Paused (Some reason)) (record_op (status_op GoalStatus.Paused (Some reason)) s) in
    publish (lifecycle [("status", "paused"); ("reason", reason); ("actor", "user")]) s
  else s.

Definition user_status (status : GoalStatus.t) (label : string) (s : GoalSession) : GoalSession :=
  let s := if has_goal s then record_op (status_op status None) s else s in
  publish (lifecycle [("status", label); ("actor", "user")]) (mutate (update status) s).
Definition answer (s : GoalSession) : json := if has_goal s then snapshot s else ack.
Definition dispatch_pause_goal (in_flight : bool) (s : GoalSession) : GoalSession * result RpcError json :=
  let s := user_status GoalStatus.Paused "paused" s in
  (if has_goal s then interrupt in_flight s else s, Ok (answer s)).
Definition dispatch_resume_goal (s : GoalSession) : GoalSession * result RpcError json :=
  let s := user_status GoalStatus.Active "active" s in (s, Ok (answer s)).

Definition dispatch_cancel_goal (session_id : string) (in_flight : bool) (s : GoalSession) : GoalSession * result RpcError json :=
  let had_goal := has_goal s in
  let s := if had_goal then record_op WireOp.GoalClear s else s in
  let s := publish (lifecycle [("reason", "cancelled"); ("actor", "user")]) (mutate clear s) in
  let finish (s : GoalSession) := let s := interrupt in_flight s in (s, Ok (answer s)) in
  if had_goal then
    match gs_main s with
    | None => (s, Err (NotFound ("session '" +:+ session_id +:+ "' has no agents yet; goal cancel needs a main agent to remind")))
    | Some memory =>
      let s := mkSession (gs_manager s) (gs_log s) (gs_bus s) (Some (append_system_reminder GOAL_CANCELLED_REMINDER memory)) in
      finish (record_op (WireOp.ContextAppendMessage (system_reminder_op GOAL_CANCELLED_REMINDER)) s)
    end
  else finish s.
Definition dispatch_get_goal (s : GoalSession) : json := JObj [("goal", snapshot s)].

(** ** The accounting of a step

    The callback [run_turn_loop] gives the turn; its state lives as long as the turn. *)
Record TurnGrace : Type := mkGrace { grace_used : bool; pending_budget_reminder : option string }.
Definition fresh_grace : TurnGrace := mkGrace false None.
Definition already_blocked (m : GoalManager) : bool :=
  match get m with
  | Some g => bool_decide (g_status g = GoalStatus.Blocked) && match g_terminal_reason g with Some r => String.prefix "hard budget" r | None => false end
  | None => false
  end.
Definition step_budget_remaining (max_steps : option Z) (step_index : Z) : bool :=
  match max_steps with None => true | Some max => (max =? 0) || (step_index <? max) end.
(** The totals go to the log before the counters advance. *)
Definition record_totals (u : LlmUsage) (s : GoalSession) : GoalSession :=
  if has_goal s then
    record_op (WireOp.GoalUpdate None None None (Some (wrap_u64 (used_turns (gs_manager s) + 1)))
      (Some (wrap_u64 (wrap_u64 (used_tokens (gs_manager s) + LlmStream.input_tokens u) + LlmStream.output_tokens u))) None) s
  else s.
Definition block_hard (s : GoalSession) : GoalSession :=
  let reason := "hard budget reached" in
  if already_blocked (gs_manager s) then s
  else mutate (update_with_reason GoalStatus.Blocked (Some reason)) (record_op (status_op GoalStatus.Blocked (Some reason)) s).
Definition account_step (now : Z) (max_steps : option Z) (u : LlmUsage) (natural_stop : StepStop.t) (step_index : Z)
    (st : TurnGrace * GoalSession) : TurnGrace * GoalSession * option bool :=
  let '(g, s) := st in
  let s := record_totals u s in
  let '(m, verdict) := record_step_usage now u (gs_manager s) in
  let s := set_manager m s in
  if negb (bool_decide (verdict = Some true)) then (g, s, verdict)
  else
    let first := negb (already_blocked m) in
    let s := block_hard s in
    if bool_decide (natural_stop = StepStop.ToolUse) && first then
      if grace_used g then (g, s, Some true)
      else if step_budget_remaining max_steps step_index
      then (mkGrace true (Some GOAL_BUDGET_STOP_REMINDER), s, Some false)
      else (mkGrace true (pending_budget_reminder g), s, Some true)
    else (g, s, Some true).

(** ** The decision at the end of a turn

    [should_continue_after_stop], after its flush of the steers ([flushed] is whether it
    flushed any; [stop_flush] of [TaskDriver]); the goal a turn accounts for is not one
    it is wired to.  [block_reason] is what the Stop hook answers that blocks the stop. *)
Record StopState : Type := mkStop { stop_hook_used : bool; stop_memory : ContextMemory; stop_log : list WireOp.t }.
Definition goal_layer (now : Z) (goal_manager : option GoalManager) : option bool :=
  match goal_manager with
  | Some m =>
    if is_goal_active m then Some (if is_goal_complete m then false else negb (is_budget_exhausted now m)) else None
  | None => None
  end.
Definition stop_hook_reason_op (reason : string) : WireOp.t :=
  WireOp.ContextAppendMessage (JObj [("role", JStr "user"); ("content", JArr [JObj [("type", JStr "text"); ("text", JStr reason)]]);
                                     ("origin", JObj [("kind", JStr "system_trigger")])]).
Definition should_continue_after_stop (flushed : bool) (now : Z) (goal_manager : option GoalManager)
    (stop_hook : option (option (option string))) (st : StopState) : StopState * bool :=
  if flushed then (st, true)
  else
    match goal_layer now goal_manager with
    | Some continues => (st, continues)
    | None =>
      match (if stop_hook_used st then None else stop_hook) with
      | Some (Some block_reason) =>
        let reason := default "Blocked by Stop hook" block_reason in
        (mkStop true (append_user_message [Text reason] SystemTrigger (stop_memory st)) (stop_log st ++ [stop_hook_reason_op reason]), true)
      | _ => (st, false)
      end
    end.

(** ** The restore *)

(** [parse_goal_budget]; the budget of the session is no operation's of the log. *)
Definition or_else {A} (a b : option A) : option A := match a with Some _ => a | None => b end.
Definition parse_goal_budget (session_turns session_tokens : option Z) (limits : option json) : option GoalBudget :=
  match session_turns, session_tokens with
  | None, None =>
    j ← limits;
    let turns := or_else (u64_field "turns" j) (u64_field "turnBudget" j) in
    let tokens := or_else (u64_field "tokens" j) (u64_field "tokenBudget" j) in
    let wall := or_else (or_else (u64_field "wallClockMs" j) (u64_field "wall_clock_ms" j)) (u64_field "wallClockBudgetMs" j) in
    if bool_decide (mkBudget turns tokens wall = mkBudget None None None) then None else Some (mkBudget turns tokens wall)
  | _, _ => Some (mkBudget session_turns session_tokens None)
  end.
(** The goal's part of [restore_session_scoped_state] *)
Definition restore_goal (now : Z) (session_turns session_tokens : option Z) (state : option GoalState) (m : GoalManager) : GoalManager :=
  match state with
  | None => m
  | Some g =>
    match create (objective g) (completion_criterion g) m with
    | (_, Err _) => m
    | (m, Ok _) =>
      let status := parse_goal_status (status g) in
      let m := if bool_decide (status = GoalStatus.Active) then m else update status m in
      let m := match parse_goal_budget session_turns session_tokens (budget_limits g) with Some b => set_budget now b m | None => m end in
      restore_usage (default 0 (turns_used g)) (default 0 (tokens_used g)) m
    end
  end.
