(* ===== verification/GoalChain.v ===== *)
(** * The driver of a goal: [embedded_server/goal_driver.rs]

    When a turn of the main agent is over, the goal is settled with its outcome; and as
    long as the goal is active, within its budget and waits for no background task, a
    chain of further turns is run for it, up to a limit and not while they do nothing.

    A turn is an argument: what it does to the world and how it ends. *)
From stdpp Require Import gmap strings list.
From S2P Require Import Prelude RustStd Json EngineError Context TokenEstimator Memory LoopWire LlmStream TurnTypes SessionState TaskManager GoalManager.
#[local] Open Scope string_scope.
#[local] Open Scope list_scope.
#[local] Open Scope Z_scope.

Definition GOAL_MAX_IDLE_CONTINUATIONS : Z := 3.
Definition GOAL_MAX_CONTINUATIONS : Z := 20.
Definition GOAL_CONTINUATION_PROMPT : string :=
  "Continue working toward the active goal. Keep the self-audit brief. Do not explore unrelated interpretations once the goal can be decided. If the objective is simple, already answered, impossible, unsafe, or contradictory, do not run another goal turn. Explain briefly if useful, then call UpdateGoal with `complete` or `blocked` in the same turn. Otherwise, weigh the objective and any completion criteria against the work done so far, choose one bounded, useful slice of work, and use the existing conversation context and your tools. Do not try to finish a broad goal in one turn unless the whole goal is genuinely small. Most goal turns should not call UpdateGoal: after completing a useful slice, if material work remains, end the turn normally without calling UpdateGoal so the runtime can continue the goal in the next turn. Call UpdateGoal with `complete` only when all required work is done, any stated validation has passed, and there is no useful next action. Completion audit: before calling `complete`, verify the current state against the actual objective and every explicit requirement. Treat weak or indirect evidence as not complete. Do not mark complete after only producing a plan, summary, first pass, or partial result. Do not mark complete merely because a budget is nearly exhausted or you want to stop. Blocked audit: do not call UpdateGoal with `blocked` the first time you hit a blocker. Use `blocked` only for a genuine impasse: an external condition, required user input, missing credentials or permissions, or a persistent technical failure. For those non-terminal blockers, the same blocking condition must repeat for at least 3 consecutive goal turns before you call `blocked`, counting the original/user-triggered turn and automatic continuations. If a previously blocked goal is resumed, treat the resumed run as a fresh blocked audit. Exception: if the objective itself is impossible, unsafe, or contradictory, call UpdateGoal with `blocked` in the same turn; do not run more goal turns just to satisfy the audit. Do not use `blocked` because the work is large, hard, slow, uncertain, incomplete, still needs validation, would benefit from clarification, or needs more goal turns. Once the 3-turn threshold is met and you cannot make meaningful progress without user input or an external-state change, call UpdateGoal with `blocked`; do not keep reporting the blocker while leaving the goal active. Do not ask the user for input unless a real blocker prevents progress. Background task completions arrive automatically as messages — never poll for them (no repeated TaskOutput or TaskList status checks). When the next step truly depends on a background result, use TaskWait — one explicit blocking wait per task; to wait on several tasks, call TaskWait once per task in one parallel block instead of polling. When only waiting remains, end the turn without further tool calls; the engine suspends the goal loop and resumes automatically when a result arrives — this is the efficient path, not idleness. Do not report the goal as blocked merely because you are waiting on background work; suspension handles that. Parallel foreground work is fine while background tasks run.".

(** ** The settlement of a turn *)

Module TurnOutcome.
Inductive t : Type := Completed | Stalled | Aborted | Failed (error : string) | BlockedByHook.
End TurnOutcome.
Inductive GoalSettlement : Type := Settled (status : GoalStatus.t) (reason : string) | Unchanged.

Definition outcome_goal_target (outcome : TurnOutcome.t) : GoalStatus.t * string :=
  match outcome with
  | TurnOutcome.Completed => (GoalStatus.Active, "")
  | TurnOutcome.Stalled => (GoalStatus.Paused, "Paused after stalled turn")
  | TurnOutcome.Aborted => (GoalStatus.Paused, "Paused after interruption")
  | TurnOutcome.Failed error =>
    (GoalStatus.Paused, if bool_decide (error = "") then "Paused after turn failure" else "Paused after turn failure: " +:+ error)
  | TurnOutcome.BlockedByHook => (GoalStatus.Blocked, "Blocked by UserPromptSubmit hook")
  end.
Definition turn_outcome (stop : TurnStop.t) : TurnOutcome.t :=
  match stop with
  | TurnStop.EndTurn | TurnStop.MaxTokens | TurnStop.Filtered | TurnStop.Paused | TurnStop.Unknown => TurnOutcome.Completed
  | TurnStop.Stalled => TurnOutcome.Stalled
  | TurnStop.Aborted => TurnOutcome.Aborted
  | TurnStop.BlockedByHook => TurnOutcome.BlockedByHook
  end.
Definition turn_stop_reason_wire (stop : TurnStop.t) : string :=
  match stop with
  | TurnStop.EndTurn | TurnStop.MaxTokens | TurnStop.Paused | TurnStop.Unknown => "completed"
  | TurnStop.Filtered => "filtered"
  | TurnStop.Aborted => "cancelled"
  | TurnStop.Stalled => "stalled"
  | TurnStop.BlockedByHook => "blocked"
  end.

(** Only an active goal is written; [artifacts] is whether those of the session can be
    resolved. *)
Definition write_goal_lifecycle (artifacts : bool) (status : GoalStatus.t) (reason actor : string) (s : GoalSession) : GoalSession :=
  if is_goal_active (gs_manager s) then
    let s := mutate (update_with_reason status (Some reason)) (record_op (status_op status (Some reason)) s) in
    if artifacts then publish (lifecycle [("status", goal_status_wire status); ("reason", reason); ("actor", actor)]) s else s
  else s.
Definition block_goal_on_budget (artifacts : bool) : GoalSession -> GoalSession :=
  write_goal_lifecycle artifacts GoalStatus.Blocked "Blocked after goal budget reached" "runtime".
Definition settle_goal_after_turn (artifacts : bool) (outcome : TurnOutcome.t) (s : GoalSession) : GoalSession * GoalSettlement :=
  if is_goal_active (gs_manager s) then
    let '(status, reason) := outcome_goal_target outcome in
    if bool_decide (status = GoalStatus.Active) then (s, Unchanged)
    else (write_goal_lifecycle artifacts status reason "runtime" s, Settled status reason)
  else (s, Unchanged).

(** ** The world of a chain *)

Record GoalChainState : Type := mkChain { chain_running : bool; idle_streak : Z; continuations : Z }.
Definition no_chain : GoalChainState := mkChain false 0 0.

(** Why a continuation turn may not start *)
Inductive Provision : Type := AgentVanished | NoProvider | LlmFailed (reason : string) | SessionVanished | Ready.
Record ChainTurnOutcome : Type := mkOutcome { o_error : option string; o_steps : Z; o_settled : bool }.
(** How a turn ends: its number, its stop reason and its steps, or the text of an error *)
Definition TurnEnd : Type := result string (Z * TurnStop.t * Z).

Section chain.
Context (W : Type).
(** [c_state] is the entry of the session, [c_busy] whether a turn holds the flow, and
    [c_rest] what else a turn looks at. *)
Record ChainWorld : Type := mkWorld {
  c_session : GoalSession;
  c_state : option GoalChainState;
  c_tasks : TaskManager;
  c_busy : bool;
  c_now : Z;
  c_rest : W
}.
Definition set_session (v : GoalSession) (w : ChainWorld) : ChainWorld := mkWorld v (c_state w) (c_tasks w) (c_busy w) (c_now w) (c_rest w).
Definition set_state (v : option GoalChainState) (w : ChainWorld) : ChainWorld :=
  mkWorld (c_session w) v (c_tasks w) (c_busy w) (c_now w) (c_rest w).
Definition on_session (f : GoalSession -> GoalSession) (w : ChainWorld) : ChainWorld := set_session (f (c_session w)) w.
Definition entry (w : ChainWorld) : GoalChainState := default no_chain (c_state w).
Definition active (w : ChainWorld) : bool := is_goal_active (gs_manager (c_session w)).
Definition exhausted (w : ChainWorld) : bool := is_budget_exhausted (c_now w) (gs_manager (c_session w)).
(** A background task is not over. *)
Definition task_pending (w : ChainWorld) : bool := existsb (fun t => negb (TaskManager.is_terminal (TaskManager.status t))) (list_tasks (c_tasks w)).

Context (artifacts : bool) (provision : ChainWorld -> Provision) (turn : ChainWorld -> ChainWorld * TurnEnd).

(** The guards against a chain that burns the budget *)
Definition guard_hit (w : ChainWorld) : ChainWorld * option string :=
  let st := entry w in
  if GOAL_MAX_IDLE_CONTINUATIONS <=? idle_streak st then
    (set_state (Some (mkChain (chain_running st) 0 (continuations st))) w, Some "Paused after repeated idle goal turns")
  else if GOAL_MAX_CONTINUATIONS <=? continuations st then (set_state (Some st) w, Some "Paused after continuation limit")
  else (set_state (Some st) w, None).
Definition apply_guards (w : ChainWorld) : ChainWorld * bool :=
  match guard_hit w with
  | (w, Some reason) => (on_session (write_goal_lifecycle artifacts GoalStatus.Paused reason "runtime") w, false)
  | (w, None) => (w, true)
  end.

(** [maybe_launch_goal_chain], and whether it launched a chain *)
Definition maybe_launch_goal_chain (w : ChainWorld) : ChainWorld * bool :=
  if negb (active w) then (w, false)
  else if exhausted w then (on_session (block_goal_on_budget artifacts) w, false)
  else if c_busy w then (w, false)
  else if task_pending w then (w, false)
  else
    match apply_guards w with
    | (w, false) => (w, false)
    | (w, true) =>
      let st := entry w in
      if chain_running st then (w, false)
      else (set_state (Some (mkChain true (idle_streak st) (continuations st))) w, true)
    end.

Definition chain_should_continue (w : ChainWorld) : ChainWorld * bool :=
  if negb (active w) then (w, false)
  else if exhausted w then (on_session (block_goal_on_budget artifacts) w, false)
  else if task_pending w then (w, false)
  else apply_guards w.

Definition reset_goal_chain_guards (w : ChainWorld) : ChainWorld :=
  match c_state w with Some st => set_state (Some (mkChain (chain_running st) 0 0)) w | None => w end.

Definition continuation_origin : json := JObj [("kind", JStr "system_trigger"); ("name", JStr "goal_continuation")].
Definition prompt_wire : json := JArr [JObj [("type", JStr "text"); ("text", JStr GOAL_CONTINUATION_PROMPT)]].
Definition record_opening (s : GoalSession) : GoalSession :=
  record_op (SessionState.WireOp.ContextAppendMessage (JObj [("role", JStr "user"); ("content", prompt_wire); ("origin", continuation_origin)]))
    (record_op (SessionState.WireOp.TurnPrompt prompt_wire continuation_origin) s).
Definition dropped (reason : string) : option ChainTurnOutcome := Some (mkOutcome (Some reason) 0 false).
Definition settled_by (r : GoalSettlement) : bool := match r with Settled _ _ => true | Unchanged => false end.

(** [inject_goal_continuation_turn] *)
Definition inject_goal_continuation_turn (w : ChainWorld) : ChainWorld * option ChainTurnOutcome :=
  if c_busy w then (w, None)
  else
    match provision w with
    | AgentVanished => (w, dropped "goal continuation agent vanished")
    | NoProvider => (w, dropped "goal continuation has no LLM provider")
    | LlmFailed reason => (w, dropped ("goal continuation LLM creation failed: " +:+ reason))
    | SessionVanished => (on_session record_opening w, dropped "goal continuation session vanished")
    | Ready =>
      match turn (on_session record_opening w) with
      | (w, Ok (turn_id, stop, steps)) =>
        let w := on_session (record_op (SessionState.WireOp.TurnEnded turn_id (turn_stop_reason_wire stop) None)) w in
        let '(s, settlement) := settle_goal_after_turn artifacts (turn_outcome stop) (c_session w) in
        (set_session s w, Some (mkOutcome None steps (settled_by settlement)))
      | (w, Err error) =>
        let '(s, settlement) := settle_goal_after_turn artifacts (TurnOutcome.Failed error) (c_session w) in
        (set_session s w, Some (mkOutcome (Some error) 0 (settled_by settlement)))
      end
    end.

Definition is_idle (o : ChainTurnOutcome) : bool :=
  (o_steps o <=? 1) && negb (o_settled o) && match o_error o with None => true | Some _ => false end.
Definition note_chain_outcome (o : ChainTurnOutcome) (w : ChainWorld) : ChainWorld * bool :=
  let st := entry w in
  (set_state (Some (mkChain (chain_running st) (if is_idle o then idle_streak st + 1 else 0) (continuations st + 1))) w,
   active w && negb (exhausted w)).

(** The end of the loop of [launch_goal_chain] *)
Definition chain_exit (w : ChainWorld) : ChainWorld :=
  match c_state w with
  | Some st => if active w then set_state (Some (mkChain false (idle_streak st) (continuations st))) w else set_state None w
  | None => set_state (Some no_chain) w
  end.
(** The loop; it hands out the turns it settled. *)
Fixpoint chain (fuel : nat) (w : ChainWorld) : option (ChainWorld * list ChainTurnOutcome) :=
  match fuel with
  | O => None
  | S fuel =>
    match chain_should_continue w with
    | (w, false) => Some (chain_exit w, [])
    | (w, true) =>
      match inject_goal_continuation_turn w with
      | (w, None) => Some (chain_exit w, [])
      | (w, Some o) =>
        match note_chain_outcome o w with
        | (w, false) => Some (chain_exit w, [o])
        | (w, true) => '(w, os) ← chain fuel w; Some (w, o :: os)
        end
      end
    end
  end.
End chain.
