(* ===== verification/GoalSound.v ===== *)
(** * What holds of goals

    A session that is opened again has the goal and the usage of the one that was left;
    a turn is let go on once over the budget, and a chain of turns ends. *)
From stdpp Require Import gmap strings list.
From S2P Require Import Prelude RustStd Json EngineError Context TokenEstimator Memory LoopWire TaskManager LlmStream TurnTypes SessionState GoalManager GoalChain.
#[local] Open Scope string_scope.
#[local] Open Scope list_scope.
#[local] Open Scope Z_scope.

(** ** Whatever is done to a goal *)

Inductive GoalOp : Type :=
| OpCreateTool (goal_id : string) (input : json)
| OpUpdateTool (input : json)
| OpBudgetTool (now : Z) (input : json)
| OpCreate (goal_id : string) (objective : option string) (replace : bool)
| OpPause (in_flight : bool)
| OpResume
| OpCancel (session_id : string) (in_flight : bool)
| OpInterrupt (in_flight : bool)
| OpStep (now : Z) (max_steps : option Z) (u : LlmUsage) (natural_stop : StepStop.t) (step_index : Z) (g : TurnGrace)
| OpLifecycle (artifacts : bool) (status : GoalStatus.t) (reason actor : string)
| OpSettle (artifacts : bool) (outcome : TurnOutcome.t)
| OpOther (op : SessionState.WireOp.t).
(** What else a session writes *)
Definition is_goal_op (op : SessionState.WireOp.t) : bool :=
  match op with
  | SessionState.WireOp.GoalCreate _ _ _ _ _ | SessionState.WireOp.GoalUpdate _ _ _ _ _ _ | SessionState.WireOp.GoalClear => true
  | _ => false
  end.
Definition perform (op : GoalOp) (s : GoalSession) : GoalSession :=
  match op with
  | OpCreateTool goal_id input => fst (create_goal_tool goal_id input s)
  | OpUpdateTool input => fst (update_goal_tool input s)
  | OpBudgetTool now input => fst (set_goal_budget_tool now input s)
  | OpCreate goal_id objective replace => fst (dispatch_create_goal goal_id objective replace s)
  | OpPause in_flight => fst (dispatch_pause_goal in_flight s)
  | OpResume => fst (dispatch_resume_goal s)
  | OpCancel session_id in_flight => fst (dispatch_cancel_goal session_id in_flight s)
  | OpInterrupt in_flight => interrupt in_flight s
  | OpStep now max_steps u natural_stop step_index g => snd (fst (account_step now max_steps u natural_stop step_index (g, s)))
  | OpLifecycle artifacts status reason actor => write_goal_lifecycle artifacts status reason actor s
  | OpSettle artifacts outcome => fst (settle_goal_after_turn artifacts outcome s)
  | OpOther op => if is_goal_op op then s else record_op op s
  end.
Definition performs (ops : list GoalOp) (s : GoalSession) : GoalSession := foldl (fun s op => perform op s) s ops.
Definition new_session (main : option ContextMemory) : GoalSession := mkSession GoalManager.new [] [] main.

(** ** The log says what the manager holds *)

Section resumes.
Context (limits : option Materialize.ReplayLimits).
Definition folded (s : GoalSession) : option GoalState := goal (fold_log limits (gs_log s) new_state).

Record agrees (m : GoalManager) (r : option GoalState) : Prop := {
  ag_goal : match gm_goal m, r with
            | None, None => True
            | Some g, Some r =>
              objective r = g_objective g /\ completion_criterion r = g_completion_criterion g /\
              parse_goal_status (status r) = g_status g /\ parse_goal_budget None None (budget_limits r) = g_budget g /\
              default 0 (turns_used r) = used_turns m /\ default 0 (tokens_used r) = used_tokens m
            | _, _ => False
            end
}.
Definition logged (s : GoalSession) : Prop := agrees (gs_manager s) (folded s).

(** What an operation of the log does to the goal *)
Definition goal_step (op : SessionState.WireOp.t) (r : option GoalState) : option GoalState :=
  match op with
  | SessionState.WireOp.GoalCreate goal_id objective criterion status limits =>
    Some (SessionState.mkGoal goal_id objective criterion (default "active" status) None None limits)
  | SessionState.WireOp.GoalUpdate goal_id status _ turns tokens limits => update_goal goal_id status turns tokens limits <$> r
  | SessionState.WireOp.GoalClear => None
  | _ => r
  end.
Lemma folded_record op s : folded (record_op op s) = goal_step op (folded s).
Proof.
  unfold folded, record_op, fold_log. simpl. rewrite foldl_app. simpl. set (st := foldl _ _ _).
  unfold apply_with_limits, on_conversation, on_tools, set_conversation, set_tools.
  destruct op; try done; simpl.
  all: repeat (match goal with |- context [match ?x with _ => _ end] => destruct x end; simpl); done.
Qed.
Lemma folded_mutate f s : folded (mutate f s) = folded s.
Proof. done. Qed.
Lemma folded_publish c s : folded (publish c s) = folded s.
Proof. done. Qed.

Lemma parse_status_wire s : parse_goal_status (goal_status_wire s) = s.
Proof. by destruct s. Qed.

(** A change of status, written and made *)
Lemma logged_status status reason f s :
  (forall g, gm_goal (gs_manager s) = Some g -> exists reason', f (gs_manager s) =
     with_goal (Some (mkGoal (g_objective g) (g_completion_criterion g) status (g_budget g) reason')) (gs_manager s)) ->
  has_goal s = true -> logged s -> logged (mutate f (record_op (status_op status reason) s)).
Proof.
  intros Hf Hg [H]. unfold logged. rewrite folded_mutate, folded_record. unfold has_goal, get in Hg. simpl.
  destruct (gm_goal (gs_manager s)) as [g|] eqn:Eg; [|done]. destruct (Hf g eq_refl) as [reason' ->].
  destruct (folded s) as [r|]; [|done]. constructor. simpl. destruct H as (Ho & Hc & Hs & Hb & Ht & Hk).
  split_and!; try done. simpl. apply parse_status_wire.
Qed.
Lemma update_status status s g : gm_goal (gs_manager s) = Some g -> exists reason', update status (gs_manager s) =
  with_goal (Some (mkGoal (g_objective g) (g_completion_criterion g) status (g_budget g) reason')) (gs_manager s).
Proof. intros Eg. unfold update, on_goal. rewrite Eg. by eexists. Qed.
Lemma update_reason_status status reason s g : gm_goal (gs_manager s) = Some g -> exists reason', update_with_reason status reason (gs_manager s) =
  with_goal (Some (mkGoal (g_objective g) (g_completion_criterion g) status (g_budget g) reason')) (gs_manager s).
Proof. intros Eg. unfold update_with_reason, on_goal. rewrite Eg. by eexists. Qed.
Lemma active_has_goal s : is_goal_active (gs_manager s) = true -> has_goal s = true.
Proof. unfold is_goal_active, has_status, has_goal, get. by destruct (gm_goal _). Qed.

Lemma logged_create goal_id objective criterion s :
  has_goal s = false ->
  logged (set_manager (fst (create objective criterion (gs_manager s)))
    (record_op (SessionState.WireOp.GoalCreate goal_id objective criterion (Some "active") None) s)).
Proof.
  intros Hg. unfold logged, has_goal, get in *. destruct (gm_goal (gs_manager s)) eqn:Eg; [done|].
  unfold set_manager. change (folded _) with (folded (record_op (SessionState.WireOp.GoalCreate goal_id objective criterion (Some "active") None) s)).
  rewrite folded_record. unfold create. rewrite Eg. by constructor.
Qed.
Lemma logged_clear s : logged (mutate clear (record_op SessionState.WireOp.GoalClear s)).
Proof. unfold logged. rewrite folded_mutate, folded_record. by constructor. Qed.
Lemma logged_same s s' : gs_manager s' = gs_manager s -> gs_log s' = gs_log s -> logged s -> logged s'.
Proof. unfold logged, folded. by intros -> ->. Qed.

(** A budget is read back as it was written. *)
Definition in_u64 (v : option Z) : Prop := forall n, v = Some n -> 0 <= n < 2 ^ 64.
Lemma u64_field_range key j : in_u64 (u64_field key j).
Proof.
  intros n. unfold u64_field. destruct (jget key j) as [v|]; [|done]. simpl. unfold as_u64. destruct v; try done.
  destruct (_ && _) eqn:E; [|done]. intros [= <-]. lia.
Qed.
Lemma as_u64_num n : 0 <= n < 2 ^ 64 -> as_u64 (JNum n) = Some n.
Proof. intros H. unfold as_u64. rewrite (proj2 (Z.leb_le 0 n)), (proj2 (Z.ltb_lt n (2 ^ 64))) by lia. done. Qed.
Lemma limit_read_back key v l :
  in_u64 v -> assoc key l = Some (match v with Some n => JNum n | None => JNull end) -> u64_field key (JObj l) = v.
Proof. intros Hv E. unfold u64_field, jget. rewrite E. destruct v as [n|]; [|done]. simpl. by apply as_u64_num, Hv. Qed.
Lemma budget_read_back b :
  in_u64 (b_turns b) -> in_u64 (b_tokens b) -> in_u64 (b_wall_clock_ms b) -> b <> mkBudget None None None ->
  parse_goal_budget None None (Some (budget_to_value b)) = Some b.
Proof.
  intros H1 H2 H3 Hb. unfold parse_goal_budget. simpl. unfold budget_to_value.
  rewrite (limit_read_back "turns" (b_turns b)), (limit_read_back "tokens" (b_tokens b)), (limit_read_back "wallClockMs" (b_wall_clock_ms b)) by done.
  assert (E : forall key l, assoc key l = None -> u64_field key (JObj l) = None) by (intros key l E; unfold u64_field, jget; by rewrite E).
  rewrite !E by done. replace (or_else (b_turns b) None) with (b_turns b) by (by destruct (b_turns b)).
  replace (or_else (b_tokens b) None) with (b_tokens b) by (by destruct (b_tokens b)).
  replace (or_else (or_else (b_wall_clock_ms b) None) None) with (b_wall_clock_ms b) by (by destruct (b_wall_clock_ms b)).
  rewrite bool_decide_eq_false_2; [by destruct b|]. intros E'. apply Hb. destruct b. exact E'.
Qed.
Lemma logged_budget now b s :
  in_u64 (b_turns b) -> in_u64 (b_tokens b) -> in_u64 (b_wall_clock_ms b) -> b <> mkBudget None None None -> has_goal s = true ->
  logged s -> logged (mutate (set_budget now b) (record_op (SessionState.WireOp.GoalUpdate None None None None None (Some (budget_to_value b))) s)).
Proof.
  intros H1 H2 H3 Hb Hg [H]. unfold logged. rewrite folded_mutate, folded_record. unfold has_goal, get in Hg. simpl.
  unfold set_budget. destruct (gm_goal (gs_manager s)) as [g|] eqn:Eg; [|done]. destruct (folded s) as [r|]; [|done].
  constructor. cbn [gm_goal fmap option_fmap option_map update_goal default objective completion_criterion status budget_limits turns_used tokens_used
    g_objective g_completion_criterion g_status g_budget used_turns used_tokens].
  destruct H as (Ho & Hc & Hs & _ & Ht & Hk). split_and!; try done. by apply budget_read_back.
Qed.

Lemma wrap_twice a b c : wrap_u64 (wrap_u64 (a + b) + c) = wrap_u64 (a + wrap_u64 (b + c)).
Proof. unfold wrap_u64. rewrite Zplus_mod_idemp_l, Zplus_mod_idemp_r. f_equal. lia. Qed.
Lemma logged_step now u s :
  logged s -> logged (set_manager (fst (record_step_usage now u (gs_manager (record_totals u s)))) (record_totals u s)).
Proof.
  intros [H]. unfold record_totals, has_goal, get. destruct (gm_goal (gs_manager s)) as [g|] eqn:Eg.
  - set (op := SessionState.WireOp.GoalUpdate _ _ _ _ _ _). unfold logged. change (folded (set_manager ?m ?x)) with (folded x).
    rewrite folded_record. destruct (folded s) as [r|]; [|done]. constructor. simpl. rewrite Eg.
    destruct H as (Ho & Hc & Hs & Hb & Ht & Hk). split_and!; try done. unfold tokens_of. by rewrite <- wrap_twice.
  - unfold logged. change (folded (set_manager ?m ?x)) with (folded x). constructor. simpl. rewrite Eg. by destruct (folded s).
Qed.

Lemma logged_publish c s : logged s -> logged (publish c s).
Proof. by apply logged_same. Qed.
Lemma logged_update status s : has_goal s = true -> logged s -> logged (mutate (update status) (record_op (status_op status None) s)).
Proof. intros Hg. apply logged_status; [intros g; apply update_status|done]. Qed.
Lemma logged_update_reason status reason s :
  has_goal s = true -> logged s -> logged (mutate (update_with_reason status (Some reason)) (record_op (status_op status (Some reason)) s)).
Proof. intros Hg. apply logged_status; [intros g; apply update_reason_status|done]. Qed.
Lemma logged_lifecycle artifacts status reason actor s : logged s -> logged (write_goal_lifecycle artifacts status reason actor s).
Proof.
  intros Hs. unfold write_goal_lifecycle. destruct (is_goal_active _) eqn:E; [|done]. apply active_has_goal in E.
  pose proof (logged_update_reason status reason s E Hs) as H. destruct artifacts; [by apply logged_publish|done].
Qed.
Lemma logged_interrupt in_flight s : logged s -> logged (interrupt in_flight s).
Proof.
  intros Hs. unfold interrupt. destruct in_flight; [|done]. simpl. destruct (is_goal_active _) eqn:E; [|done].
  apply logged_publish. by apply logged_update_reason; [apply active_has_goal|].
Qed.
Lemma logged_user status label s : logged s -> logged (user_status status label s).
Proof.
  intros Hs. unfold user_status. apply logged_publish. destruct (has_goal s) eqn:E; [by apply logged_update|].
  eapply logged_same; [| |exact Hs]; [|done]. unfold has_goal, get in E. simpl. unfold update, on_goal. by destruct (gs_manager s) as [[g|] ? ? ?].
Qed.
Lemma logged_block_hard s : has_goal s = true -> logged s -> logged (block_hard s).
Proof. intros Hg Hs. unfold block_hard. destruct (already_blocked _); [done|]. by apply logged_update_reason. Qed.

Lemma logged_no_goal s : gm_goal (gs_manager s) = None -> folded s = None -> logged s.
Proof. intros E1 E2. constructor. by rewrite E1, E2. Qed.
Lemma logged_none s : logged s -> has_goal s = false -> folded s = None.
Proof. intros [H]. unfold has_goal, get. destruct (gm_goal _), (folded s); done. Qed.
Lemma cleared_folded s : logged s -> folded (if has_goal s then record_op SessionState.WireOp.GoalClear s else s) = None.
Proof. intros H. destruct (has_goal s) eqn:E; [by rewrite folded_record|]. by apply logged_none. Qed.
Lemma logged_dispatch_create goal_id objective replace s : logged s -> logged (fst (dispatch_create_goal goal_id objective replace s)).
Proof.
  intros Hs. unfold dispatch_create_goal. cbv zeta. set (s1 := if replace && has_goal s then _ else s).
  assert (H1 : logged s1) by (unfold s1; destruct (replace && has_goal s); [apply logged_clear|done]).
  assert (H2 : replace = true -> has_goal s1 = false) by (intros ->; unfold s1; simpl; destruct (has_goal s) eqn:E; done).
  destruct objective as [objective|]; [|done]. destruct (negb replace && has_goal s1) eqn:E; [done|].
  assert (Hg : has_goal s1 = false) by (destruct replace; [by apply H2|done]).
  pose proof (logged_create goal_id objective None s1 Hg) as H. simpl.
  unfold create in *. unfold has_goal, get in Hg. destruct (gm_goal (gs_manager s1)) eqn:Eg; [done|]. by apply logged_publish.
Qed.
Lemma interrupt_no_goal in_flight s : gm_goal (gs_manager s) = None -> interrupt in_flight s = s.
Proof. intros E. unfold interrupt, is_goal_active, has_status. rewrite E. by rewrite andb_false_r. Qed.
Lemma logged_dispatch_cancel session_id in_flight s : logged s -> logged (fst (dispatch_cancel_goal session_id in_flight s)).
Proof.
  intros Hs. pose proof (cleared_folded s Hs) as Hf. unfold dispatch_cancel_goal. cbv zeta.
  set (s1 := if has_goal s then _ else s) in *. set (s2 := publish _ _).
  assert (H2 : gm_goal (gs_manager s2) = None /\ folded s2 = None) by done. clearbody s2. destruct H2 as [H2 H3].
  destruct (has_goal s); [|simpl; rewrite interrupt_no_goal by done; by apply logged_no_goal].
  destruct (gs_main s2); simpl; [|by apply logged_no_goal].
  rewrite interrupt_no_goal by done. apply logged_no_goal; [done|]. by rewrite folded_record.
Qed.
Lemma logged_account now max_steps u natural_stop step_index g s :
  logged s -> logged (snd (fst (account_step now max_steps u natural_stop step_index (g, s)))).
Proof.
  intros Hs. pose proof (logged_step now u s Hs) as H. unfold account_step.
  destruct (record_step_usage now u (gs_manager (record_totals u s))) as [m verdict] eqn:E. simpl in H.
  destruct (bool_decide (verdict = Some true)) eqn:Ev; simpl; [|done]. apply bool_decide_eq_true in Ev.
  assert (Hb : logged (block_hard (set_manager m (record_totals u s)))).
  { apply logged_block_hard; [|done]. unfold record_step_usage in E. simplify_eq. unfold has_goal, get. simpl in *.
    by destruct (gm_goal (gs_manager (record_totals u s))). }
  destruct (_ && _); [|done]. destruct (grace_used g); [done|]. by destruct (step_budget_remaining _ _).
Qed.

Lemma logged_perform op s : logged s -> logged (perform op s).
Proof.
  intros Hs. destruct op; simpl.
  - unfold create_goal_tool. destruct (create_goal_arguments input) as [[objective criterion]|]; [|done].
    destruct (has_goal s) eqn:Eg.
    + unfold has_goal, get in Eg. unfold create. destruct (gm_goal (gs_manager s)); done.
    + pose proof (logged_create goal_id objective criterion s Eg) as H. simpl.
      destruct (create objective criterion (gs_manager s)) as [m [|e]] eqn:Ec; [|unfold create in Ec; unfold has_goal, get in Eg; by destruct (gm_goal _)].
      destruct (get m); [by apply logged_publish|done].
  - unfold update_goal_tool. destruct (str_field _ _); [|done]. destruct (update_goal_status _) as [status|]; [|done].
    destruct (has_goal s) eqn:Eg; [|done]. simpl. destruct (_ && _); [done|]. by apply logged_publish, logged_update.
  - unfold set_goal_budget_tool. case_bool_decide as Hb; [done|]. destruct (has_goal s) eqn:Eg; [|done].
    apply logged_publish, logged_budget; try done; apply u64_field_range.
  - by apply logged_dispatch_create.
  - unfold dispatch_pause_goal. cbv zeta. simpl. pose proof (logged_user GoalStatus.Paused "paused" s Hs). destruct (has_goal _); [by apply logged_interrupt|done].
  - by apply logged_user.
  - by apply logged_dispatch_cancel.
  - by apply logged_interrupt.
  - by apply logged_account.
  - by apply logged_lifecycle.
  - unfold settle_goal_after_turn. destruct (is_goal_active _); [|done]. destruct (outcome_goal_target outcome) as [status reason].
    case_bool_decide; [done|]. by apply logged_lifecycle.
  - destruct (is_goal_op op) eqn:E; [done|]. unfold logged. rewrite folded_record. by destruct op.
Qed.
Lemma logged_performs ops s : logged s -> logged (performs ops s).
Proof. revert s. induction ops as [|op ops IH]; intros s H; [done|]. by apply IH, logged_perform. Qed.
Lemma logged_new main : logged (new_session main).
Proof. by constructor. Qed.


Definition without_reason (g : Goal) : Goal := mkGoal (g_objective g) (g_completion_criterion g) (g_status g) (g_budget g) None.
Lemma restore_agrees now m r : agrees m r ->
  match gm_goal m with
  | None => restore_goal now None None r GoalManager.new = GoalManager.new
  | Some g =>
    let m' := restore_goal now None None r GoalManager.new in
    gm_goal m' = Some (without_reason g) /\ used_turns m' = used_turns m /\ used_tokens m' = used_tokens m /\
    start_time m' = (if positive (g_budget g ≫= b_wall_clock_ms) then Some now else None)
  end.
Proof.
  intros [H]. destruct (gm_goal m) as [g|], r as [r|]; try done. destruct H as (Ho & Hc & Hs & Hb & Ht & Hk).
  unfold restore_goal. rewrite Hs, Hb, Ho, Hc, Ht, Hk. cbn [create GoalManager.new gm_goal]. unfold without_reason.
  case_bool_decide as E; destruct (g_budget g) as [b|]; simpl; rewrite ?E; split_and!; try done.
  all: by destruct (keeps_reason (g_status g)).
Qed.

(** C8. Opening a session again restores its goal.  Take a session and do anything to its
    goal, in any order and with any arguments, one operation after the other: the tools
    of the model, the commands of the user, the interruption and the settlement of
    turns, the accounting of steps, with whatever else the session writes in between.
    The log it wrote, folded by the
    reducer, restores a manager without a goal if and only if there was none, and else
    with the same objective, criterion, status, budget and used turns and tokens.  Only
    the reason of the status and the start of the clock are not of the log: the clock
    of a goal with a time limit starts again at the restore.  So an active goal is
    active again and a complete one is still there, where the documents have the first
    paused by a restore and the second gone ([restored_goal_stays_active],
    [complete_goal_stays]). *)
Theorem goal_resumes ops main now :
  let s := performs ops (new_session main) in
  let m := restore_goal now None None (folded s) GoalManager.new in
  match gm_goal (gs_manager s) with
  | None => m = GoalManager.new
  | Some g =>
    gm_goal m = Some (without_reason g) /\ used_turns m = used_turns (gs_manager s) /\ used_tokens m = used_tokens (gs_manager s) /\
    start_time m = (if positive (g_budget g ≫= b_wall_clock_ms) then Some now else None)
  end.
Proof. intros s. apply restore_agrees. apply logged_performs, logged_new. Qed.
End resumes.

(** ** What a goal may cost

    A turn whose goal's budget is used up is let go on once, and a chain of turns for a
    goal ends. *)

(** ** The steps of a turn

    Steps are accounted one after the other, and between them anything is done to the
    goal, by the tools of the steps and by the user. *)
Inductive TurnEvent : Type :=
| Step (now : Z) (u : LlmUsage) (natural_stop : StepStop.t) (step_index : Z)
| Between (op : GoalOp).
(** A step that was accounted: when, how it stopped, which it was, the verdict, and the
    session it left *)
Record Accounted : Type := mkAccounted { a_now : Z; a_stop : StepStop.t; a_step : Z; a_verdict : option bool; a_after : GoalSession }.
Fixpoint account_turn (max_steps : option Z) (es : list TurnEvent) (g : TurnGrace) (s : GoalSession) : list Accounted :=
  match es with
  | [] => []
  | Between op :: es => account_turn max_steps es g (perform op s)
  | Step now u natural_stop step_index :: es =>
    let '(g, s, verdict) := account_step now max_steps u natural_stop step_index (g, s) in
    mkAccounted now natural_stop step_index verdict s :: account_turn max_steps es g s
  end.
(** A step over the budget that did not end its turn *)
Definition over (a : Accounted) : bool := is_budget_exhausted (a_now a) (gs_manager (a_after a)).
Definition released (a : Accounted) : bool := over a && negb (bool_decide (a_verdict a = Some true)).

Record accounted (max_steps : option Z) (g g' : TurnGrace) (a : Accounted) : Prop := {
  ac_verdict : a_verdict a <> Some true -> a_verdict a = (if has_goal (a_after a) then Some false else None);
  ac_blocked : over a = true -> has_status GoalStatus.Blocked (gs_manager (a_after a)) = true;
  ac_within : over a = false -> a_verdict a <> Some true;
  ac_released : released a = true -> a_stop a = StepStop.ToolUse /\ step_budget_remaining max_steps (a_step a) = true /\ grace_used g = false /\ grace_used g' = true;
  ac_keeps : grace_used g = true -> grace_used g' = true
}.

Lemma block_hard_manager s :
  exists f, gs_manager (block_hard s) = on_goal f (gs_manager s) /\ (forall g, g_budget (f g) = g_budget g) /\
    (has_goal s = true -> has_status GoalStatus.Blocked (gs_manager (block_hard s)) = true).
Proof.
  unfold block_hard. destruct (already_blocked (gs_manager s)) eqn:E.
  - exists (fun g => g). split_and!; [by destruct s as [[[g|] ? ? ?] ? ? ?]|done|].
    intros _. unfold already_blocked, get in E. unfold has_status. destruct (gm_goal _); [|done]. by apply andb_prop in E as [].
  - eexists. split_and!; [done|done|]. unfold has_goal, get. simpl. unfold has_status, update_with_reason, on_goal. simpl.
    by destruct (gm_goal (gs_manager s)).
Qed.
Lemma exhausted_on_goal f now m : (forall g, g_budget (f g) = g_budget g) -> is_budget_exhausted now (on_goal f m) = is_budget_exhausted now m.
Proof. intros H. unfold is_budget_exhausted, on_goal. simpl. destruct (gm_goal m) as [g|]; [|done]. simpl. rewrite H. by destruct (g_budget g). Qed.
Lemma recorded_verdict now u m : snd (record_step_usage now u m) =
  (if match gm_goal (fst (record_step_usage now u m)) with Some _ => true | None => false end
   then Some (is_budget_exhausted now (fst (record_step_usage now u m))) else None).
Proof. unfold record_step_usage, is_budget_exhausted. simpl. by destruct (gm_goal m). Qed.

Ltac judge := constructor; unfold released, over; cbn [a_now a_stop a_step a_verdict a_after grace_used];
  rewrite ?(bool_decide_eq_true_2 (Some true = Some true)) by done; rewrite ?andb_false_r; simpl; try done; try congruence.
Lemma account_step_ok now max_steps u natural_stop step_index g s :
  let '(g', s', v) := account_step now max_steps u natural_stop step_index (g, s) in
  accounted max_steps g g' (mkAccounted now natural_stop step_index v s').
Proof.
  unfold account_step. pose proof (recorded_verdict now u (gs_manager (record_totals u s))) as Hv.
  destruct (record_step_usage now u (gs_manager (record_totals u s))) as [m v]. simpl in Hv.
  destruct (bool_decide (v = Some true)) eqn:E; simpl.
  - apply bool_decide_eq_true in E. subst v.
    destruct (block_hard_manager (set_manager m (record_totals u s))) as (f & Hf & Hb & Hs). simpl in Hf, Hs.
    set (s' := block_hard _) in *.
    assert (Hm : is_budget_exhausted now (gs_manager s') = true /\ has_goal s' = true /\ has_status GoalStatus.Blocked (gs_manager s') = true).
    { unfold has_goal, get in *. rewrite Hf, exhausted_on_goal by done. simpl in *. destruct (gm_goal m); [|done]. simplify_eq. rewrite <- Hf. auto. }
    destruct Hm as (Hm & Hg & Hs').
    destruct (bool_decide (natural_stop = StepStop.ToolUse) && _) eqn:E1.
    + apply andb_prop in E1 as [E1 _]. apply bool_decide_eq_true in E1. destruct (grace_used g) eqn:Eg.
      * judge; rewrite ?Hm, ?Hg; done.
      * destruct (step_budget_remaining _ _) eqn:Er; judge; rewrite ?Hm, ?Hg; done.
    + judge; rewrite ?Hm, ?Hg; done.
  - apply bool_decide_eq_false in E.
    assert (Ho : is_budget_exhausted now m = false).
    { unfold is_budget_exhausted in *. destruct (gm_goal m) as [gl|]; [|done]. destruct (match g_budget gl with Some _ => _ | None => _ end); congruence. }
    rewrite Ho in Hv. constructor; unfold released, over, has_goal, get; cbn [a_now a_stop a_step a_verdict a_after grace_used set_manager gs_manager];
      rewrite ?Ho; cbn [andb]; try done.
Qed.

Lemma account_turn_ok max_steps es g s a :
  a ∈ account_turn max_steps es g s -> exists g g', accounted max_steps g g' a.
Proof.
  revert g s. induction es as [|[now u stop i|op] es IH]; intros g s Ha; cbn [account_turn] in Ha; [set_solver| |by eapply IH].
  pose proof (account_step_ok now max_steps u stop i g s) as H. destruct (account_step _ _ _ _ _ _) as [[g' s'] v].
  apply elem_of_cons in Ha as [->|Ha]; [by exists g, g'|by eapply IH].
Qed.
Lemma released_count max_steps es g s :
  (length (filter released (account_turn max_steps es g s)) <= if grace_used g then 0 else 1)%nat.
Proof.
  revert g s. induction es as [|[now u stop i|op] es IH]; intros g s; cbn [account_turn]; [simpl; destruct (grace_used g); lia| |by eapply IH].
  pose proof (account_step_ok now max_steps u stop i g s) as H. destruct (account_step _ _ _ _ _ _) as [[g' s'] v].
  rewrite filter_cons. specialize (IH g' s'). destruct H as [_ _ _ Hr Hk]. case_decide as Ed; simpl.
  - destruct (released _) eqn:E; [|done]. destruct (Hr eq_refl) as (_ & _ & E1 & E2). rewrite E1. rewrite E2 in IH. lia.
  - destruct (grace_used g); [rewrite (Hk eq_refl) in IH|destruct (grace_used g')]; lia.
Qed.


(** ** The end of a turn *)

(** The ends of one turn, and what was decided at each *)
Record StopAsked : Type := mkAsked { k_flushed : bool; k_now : Z; k_hook : option (option (option string)) }.
Fixpoint stops (ks : list StopAsked) (st : StopState) : list bool * StopState :=
  match ks with
  | [] => ([], st)
  | k :: ks =>
    let '(st, b) := should_continue_after_stop (k_flushed k) (k_now k) None (k_hook k) st in
    let '(bs, st) := stops ks st in (b :: bs, st)
  end.
(** A turn that no steer prolongs is prolonged by its Stop hook once. *)
Lemma stop_hook_once ks st :
  Forall (fun k => k_flushed k = false) ks ->
  (length (List.filter (fun b => b) (fst (stops ks st))) <= if stop_hook_used st then 0 else 1)%nat /\
  (length (stop_log (snd (stops ks st))) = length (stop_log st) + length (List.filter (fun b => b) (fst (stops ks st))))%nat.
Proof.
  intros H. revert st. induction H as [|k ks Hk H IH]; intros st; cbn [stops]; [by simpl; destruct (stop_hook_used st); lia|].
  unfold should_continue_after_stop. rewrite Hk. cbn [goal_layer].
  assert (Hs : forall st', (stop_hook_used st = true -> stop_hook_used st' = true) -> stop_log st' = stop_log st ->
    let '(bs, st'') := stops ks st' in (length (List.filter (fun b => b) (false :: bs)) <= if stop_hook_used st then 0 else 1)%nat /\
    (length (stop_log st'') = length (stop_log st) + length (List.filter (fun b => b) (false :: bs)))%nat).
  { intros st' Hu Hl. specialize (IH st'). destruct (stops ks st') as [bs st'']. simpl in *. rewrite Hl in IH.
    destruct (stop_hook_used st); [rewrite Hu in IH by done|destruct (stop_hook_used st')]; lia. }
  destruct (stop_hook_used st) eqn:Eu; [specialize (Hs st (fun _ => Eu) eq_refl); by destruct (stops ks st)|].
  destruct (k_hook k) as [[reason|]|]; [|specialize (Hs st); rewrite Eu in Hs; specialize (Hs (fun x => x) eq_refl); by destruct (stops ks st)..].
  specialize (IH (mkStop true (append_user_message [Text (default "Blocked by Stop hook" reason)] SystemTrigger (stop_memory st))
    (stop_log st ++ [stop_hook_reason_op (default "Blocked by Stop hook" reason)]))).
  cbv zeta. destruct (stops ks _) as [bs st'']. simpl in *. rewrite length_app in IH. simpl in IH. lia.
Qed.

(** ** A chain of turns *)

(** The idle turns behind a chain that had [k] behind it and settled these *)
Definition idle_after : Z -> list ChainTurnOutcome -> Z := foldl (fun n o => if is_idle o then n + 1 else 0).

Section chains.
Context (W : Type) (artifacts : bool) (provision : ChainWorld W -> Provision) (turn : ChainWorld W -> ChainWorld W * TurnEnd).
Notation World := (ChainWorld W).
Implicit Types w : World.

(** Why a chain that is over left its goal active *)
Definition waits w : Prop := active W w = true -> task_pending W w = true \/ c_busy W w = true \/ exhausted W w = true.

Lemma lifecycle_ends status reason actor w :
  status <> GoalStatus.Active -> active W (on_session W (write_goal_lifecycle artifacts status reason actor) w) = false.
Proof.
  intros Hs. unfold active, on_session, set_session. simpl. unfold write_goal_lifecycle.
  destruct (is_goal_active (gs_manager (c_session W w))) eqn:E; [|done].
  assert (H : is_goal_active (update_with_reason status (Some reason) (gs_manager (c_session W w))) = false).
  { unfold is_goal_active, has_status, update_with_reason, on_goal in *. simpl. destruct (gm_goal _); [|done]. simpl. by apply bool_decide_eq_false_2. }
  by destruct artifacts.
Qed.
Lemma guards_spec w :
  match apply_guards W artifacts w with
  | (w', true) => idle_streak (entry W w) < GOAL_MAX_IDLE_CONTINUATIONS /\ continuations (entry W w) < GOAL_MAX_CONTINUATIONS /\ c_state W w' = Some (entry W w)
  | (w', false) => active W w' = false
  end.
Proof.
  unfold apply_guards, guard_hit. destruct (Z.leb_spec GOAL_MAX_IDLE_CONTINUATIONS (idle_streak (entry W w))); [by apply lifecycle_ends|].
  destruct (Z.leb_spec GOAL_MAX_CONTINUATIONS (continuations (entry W w))); [by apply lifecycle_ends|]. done.
Qed.
Lemma should_continue_spec w :
  match chain_should_continue W artifacts w with
  | (w', true) => idle_streak (entry W w) < GOAL_MAX_IDLE_CONTINUATIONS /\ continuations (entry W w) < GOAL_MAX_CONTINUATIONS /\ c_state W w' = Some (entry W w)
  | (w', false) => waits w'
  end.
Proof.
  unfold chain_should_continue, waits. destruct (active W w) eqn:Ea; simpl; [|by intros; congruence].
  destruct (exhausted W w); simpl; [unfold block_goal_on_budget; by rewrite lifecycle_ends|].
  destruct (task_pending W w) eqn:Et; [by left|]. pose proof (guards_spec w). destruct (apply_guards W artifacts w) as [w' []]; [done|]. congruence.
Qed.
Lemma exit_spec w : waits w -> chain_running (entry W (chain_exit W w)) = false /\ waits (chain_exit W w).
Proof. intros H. unfold chain_exit. destruct (c_state W w); [destruct (active W w) eqn:Ea|]; split; done. Qed.

(** No turn resets the guards, which only a prompt of the user does. *)
Context (keeps : forall w, c_state W (fst (turn w)) = c_state W w).
Lemma inject_spec w :
  match inject_goal_continuation_turn W artifacts provision turn w with
  | (w', None) => w' = w /\ c_busy W w = true
  | (w', Some _) => c_state W w' = c_state W w
  end.
Proof.
  unfold inject_goal_continuation_turn. destruct (c_busy W w) eqn:Eb; [done|]. destruct (provision w); try done.
  pose proof (keeps (on_session W record_opening w)) as H. destruct (turn _) as [w' [[[turn_id stop] steps]|error]]; simpl in *.
  - destruct (settle_goal_after_turn _ _ _) as [s settlement]. exact H.
  - destruct (settle_goal_after_turn _ _ _) as [s settlement]. exact H.
Qed.
Lemma note_spec o w :
  let '(w', goes_on) := note_chain_outcome W o w in
  c_state W w' = Some (mkChain (chain_running (entry W w)) (if is_idle o then idle_streak (entry W w) + 1 else 0) (continuations (entry W w) + 1)) /\
  (goes_on = false -> waits w').
Proof.
  unfold note_chain_outcome. split; [done|]. unfold waits. change (active W (set_state W ?x w)) with (active W w). change (exhausted W (set_state W ?x w)) with (exhausted W w).
  intros H Ha. rewrite Ha in H. right. right. by destruct (exhausted W w).
Qed.

(** The turns of a chain that starts with [k] idle turns behind it *)
Definition runs_within (k : Z) (os : list ChainTurnOutcome) : Prop :=
  forall p, p `prefix_of` os -> idle_after k p <= GOAL_MAX_IDLE_CONTINUATIONS.
Lemma runs_nil k : k <= GOAL_MAX_IDLE_CONTINUATIONS -> runs_within k [].
Proof. intros H p Hp. by apply prefix_nil_inv in Hp as ->. Qed.
Lemma runs_cons k o os : k <= GOAL_MAX_IDLE_CONTINUATIONS -> runs_within (if is_idle o then k + 1 else 0) os -> runs_within k (o :: os).
Proof. intros Hk H [|o' p] Hp; [done|]. pose proof (prefix_cons_inv_1 _ _ _ _ Hp) as ->. apply (H p). by eapply prefix_cons_inv_2. Qed.

Lemma chain_spec fuel w :
  0 <= continuations (entry W w) -> GOAL_MAX_CONTINUATIONS - continuations (entry W w) < Z.of_nat fuel ->
  0 <= idle_streak (entry W w) <= GOAL_MAX_IDLE_CONTINUATIONS ->
  continuations (entry W w) <= GOAL_MAX_CONTINUATIONS ->
  exists w' os, chain W artifacts provision turn fuel w = Some (w', os) /\
    Z.of_nat (length os) <= GOAL_MAX_CONTINUATIONS - continuations (entry W w) /\ runs_within (idle_streak (entry W w)) os /\
    chain_running (entry W w') = false /\ waits w'.
Proof.
  revert w. induction fuel as [|fuel IH]; intros w Hc Hf Hi Hm; [lia|]. cbn [chain].
  pose proof (should_continue_spec w) as Hs. destruct (chain_should_continue W artifacts w) as [w1 []].
  2: { exists (chain_exit W w1), []. apply exit_spec in Hs as [? ?]. split_and!; try done; [simpl; lia|apply runs_nil; lia]. }
  destruct Hs as (H1 & H2 & H3). pose proof (inject_spec w1) as Hj. destruct (inject_goal_continuation_turn _ _ _ _ w1) as [w2 [o|]].
  2: { destruct Hj as [-> Hj]. exists (chain_exit W w1), []. destruct (exit_spec w1 (fun _ => or_intror (or_introl Hj))) as [? ?]. split_and!; try done; [simpl; lia|apply runs_nil; lia]. }
  assert (E2 : entry W w2 = entry W w) by (unfold entry; by rewrite Hj, H3).
  pose proof (note_spec o w2) as Hn. destruct (note_chain_outcome W o w2) as [w3 goes_on]. rewrite E2 in Hn. destruct Hn as [Hn Hw].
  assert (Hl : forall os, runs_within (if is_idle o then idle_streak (entry W w) + 1 else 0) os -> runs_within (idle_streak (entry W w)) (o :: os)) by (intros os ?; apply runs_cons; [lia|done]).
  destruct goes_on.
  - destruct (IH w3) as (w' & os & E & Hlen & Hr & Hrun & Hwait); unfold entry in *; rewrite ?Hn; simpl; try (destruct (is_idle o)); try lia.
    all: rewrite E; exists w', (o :: os); rewrite Hn in Hlen, Hr; simpl in *; split_and!; [done|lia|by apply Hl|done|done].
  - destruct (exit_spec w3 (Hw eq_refl)) as [? ?]. exists (chain_exit W w3), [o]. split_and!; [done|simpl; lia| |done|done].
    apply Hl, runs_nil. destruct (is_idle o); lia.
Qed.
End chains.
Lemma launched W artifacts w w1 : maybe_launch_goal_chain W artifacts w = (w1, true) ->
  idle_streak (entry W w) < GOAL_MAX_IDLE_CONTINUATIONS /\ continuations (entry W w) < GOAL_MAX_CONTINUATIONS /\
  c_state W w1 = Some (mkChain true (idle_streak (entry W w)) (continuations (entry W w))).
Proof.
  unfold maybe_launch_goal_chain. destruct (negb _); [done|]. destruct (exhausted _ _); [done|]. destruct (c_busy _ _); [done|].
  destruct (task_pending _ _); [done|]. pose proof (guards_spec W artifacts w) as H. destruct (apply_guards W artifacts w) as [w2 []]; [|done].
  destruct H as (H1 & H2 & E). assert (E2 : entry W w2 = entry W w) by (unfold entry at 1; by rewrite E).
  rewrite E2. destruct (chain_running (entry W w)); [done|]. intros [= <-]. done.
Qed.


(** ** Witnesses, and what was found *)

Definition a_goal : GoalSession := performs [OpCreateTool "goal-1" (JObj [("objective", JStr "port the parser")])] (new_session None).
Definition a_world (busy : bool) : ChainWorld () := mkWorld () a_goal None TaskManager.new busy 0 ().
(** A turn that does two steps *)
Definition works (w : ChainWorld ()) : ChainWorld () * TurnEnd := (w, Ok (1, TurnStop.EndTurn, 2)).

(** Three idle turns in a row pause the goal. *)
Definition idles (w : ChainWorld ()) : ChainWorld () * TurnEnd := (w, Ok (1, TurnStop.EndTurn, 1)).
Example idle_turns_pause :
  match chain () true (fun _ => Ready) idles 21 (fst (maybe_launch_goal_chain () true (a_world false))) with
  | Some (w', os) => length os = 3%nat /\ g_terminal_reason <$> gm_goal (gs_manager (c_session () w')) = Some (Some "Paused after repeated idle goal turns")
  | None => False
  end.
Proof. vm_compute. done. Qed.

(** Without a provider the chain spins to its limit. *)
Example broken_provider_spins :
  match chain () true (fun _ => NoProvider) works 21 (fst (maybe_launch_goal_chain () true (a_world false))) with
  | Some (w', os) => length os = 20%nat /\ g_terminal_reason <$> gm_goal (gs_manager (c_session () w')) = Some (Some "Paused after continuation limit")
  | None => False
  end.
Proof. vm_compute. done. Qed.

(** A [goal.create] that is refused may have cleared the goal. *)
Example refused_create_clears :
  let '(s, r) := dispatch_create_goal "goal-2" None true a_goal in
  r = Err (InvalidParams "createGoal requires an 'objective' string") /\ gm_goal (gs_manager s) = None.
Proof. vm_compute. done. Qed.

Definition one_token : LlmUsage := LlmStream.mkUsage 1 0 0 0.
Definition budgeted (turns : Z) : GoalSession := perform (OpBudgetTool 0 (JObj [("turns", JNum turns)])) a_goal.
Definition counted (i : Z) : GoalOp := OpStep 0 None one_token StepStop.ToolUse i fresh_grace.
Definition status_of (s : GoalSession) : option GoalStatus.t := g_status <$> gm_goal (gs_manager s).
(** The budget of turns counts steps. *)
Example turns_are_steps :
  let s := performs [counted 1; counted 2] (budgeted 2) in
  used_turns (gs_manager s) = 2 /\ status_of s = Some GoalStatus.Blocked.
Proof. vm_compute. done. Qed.
(** A step after the goal is complete, that uses up its budget, leaves it blocked. *)
Example completed_goal_blocked :
  let s := performs [OpUpdateTool (JObj [("status", JStr "complete")]); counted 1] (budgeted 1) in
  status_of s = Some GoalStatus.Blocked.
Proof. vm_compute. done. Qed.
(** A session that is opened again grants a goal that was blocked its grace again. *)
Example grace_granted_again :
  let s := perform (counted 1) (budgeted 1) in
  let restored := set_manager (restore_goal 0 None None (goal (fold_log None (gs_log s) new_state)) GoalManager.new) s in
  let verdict (s : GoalSession) := snd (account_step 0 None one_token StepStop.ToolUse 1 (fresh_grace, s)) in
  status_of s = Some GoalStatus.Blocked /\ status_of restored = Some GoalStatus.Blocked /\
  verdict s = Some true /\ verdict restored = Some false.
Proof. vm_compute. done. Qed.
Definition restored_status (s : GoalSession) : option GoalStatus.t :=
  g_status <$> gm_goal (restore_goal 0 None None (goal (fold_log None (gs_log s) new_state)) GoalManager.new).
(** An active goal is active again when its session is opened again. *)
Example restored_goal_stays_active :
  status_of a_goal = Some GoalStatus.Active /\ restored_status a_goal = Some GoalStatus.Active.
Proof. vm_compute. done. Qed.
(** A goal that is complete is kept, and comes back at a restore. *)
Example complete_goal_stays :
  let s := performs [OpUpdateTool (JObj [("status", JStr "complete")])] a_goal in
  status_of s = Some GoalStatus.Complete /\ restored_status s = Some GoalStatus.Complete.
Proof. vm_compute. done. Qed.
(** The user resumes a goal that is complete. *)
Example complete_goal_resumed :
  status_of (performs [OpUpdateTool (JObj [("status", JStr "complete")]); OpResume] a_goal) = Some GoalStatus.Active.
Proof. vm_compute. done. Qed.
(** The clock of a time limit starts with the budget, whenever the goal was made. *)
Example clock_starts_at_budget :
  let s := perform (OpBudgetTool 5000000000 (JObj [("wall_clock_ms", JNum 1000)])) a_goal in
  is_budget_exhausted 5999000000 (gs_manager s) = false /\ is_budget_exhausted 6000000000 (gs_manager s) = true.
Proof. vm_compute. done. Qed.
