(* ===== verification/FileTools.v ===== *)
(** * Edit and Write: [mirri-core/src/tools/edit.rs], [write.rs] and
    [file_mutation_guard.rs]

    How a file is edited, with its line endings, and how the changes several agents make
    to one file are kept apart: the lock of its path, and the check before the write.
    The file system is an argument: what it holds, and which of its operations fail. *)
From stdpp Require Import gmap strings list.
From S2P Require Import Prelude RustStd Json ToolAccess ToolBatch PathSandbox.
#[local] Open Scope string_scope.
#[local] Open Scope list_scope.
#[local] Open Scope Z_scope.

(** ** [str]: [matches], [replace] and [replacen] of a string *)

(** The characters of a string; a byte that continues a character is at least 0x80 and
    below 0xC0. *)
Definition is_continuation (c : ascii) : bool := (128 <=? byte_of c) && (byte_of c <? 192).
Fixpoint char_strings (s : string) : list string :=
  match s with
  | "" => []
  | String c rest =>
    let continues := match rest with String d _ => is_continuation d | "" => false end in
    match char_strings rest with
    | x :: l => if continues then String c x :: l else String c "" :: x :: l
    | [] => [String c ""]
    end
  end.
(** What lies between the matches, from the left and without overlaps; [skip] bytes of
    the last match are still to come. *)
Fixpoint pieces_go (pat : string) (skip : nat) (s : string) : string * list string :=
  match s with
  | "" => ("", [])
  | String c rest =>
    match skip with
    | S skip => pieces_go pat skip rest
    | O =>
      if String.prefix pat s then let '(x, l) := pieces_go pat (String.length pat - 1) rest in ("", x :: l)
      else let '(x, l) := pieces_go pat 0 rest in (String c x, l)
    end
  end.
Definition pieces (pat s : string) : list string :=
  if bool_decide (pat = "") then "" :: char_strings s ++ [""]
  else let '(x, l) := pieces_go pat 0 s in x :: l.
Definition matches_count (pat s : string) : nat := (length (pieces pat s) - 1)%nat.
Definition replace (pat by_text s : string) : string := String.concat by_text (pieces pat s).
Definition replacen1 (pat by_text s : string) : string :=
  match pieces pat s with
  | x :: y :: l => x +:+ by_text +:+ String.concat pat (y :: l)
  | _ => s
  end.

(** ** The edit of a text *)

Definition CR : string := String (ascii_of_nat 13) "".
Definition LF : string := String (ascii_of_nat 10) "".
Definition CRLF : string := CR +:+ LF.
Definition to_lf (s : string) : string := replace CRLF LF s.
Definition to_crlf (s : string) : string := replace LF CRLF s.
Definition uses_crlf (s : string) : bool := str_contains CRLF s.
Definition TICK : string := "'".

(** The middle of [edit_file], between the read and the check: the new text and how many
    occurrences were replaced *)
Definition edit_text (path raw_text old_string new_string : string) (replace_all : bool) : result string (string * nat) :=
  let crlf := uses_crlf raw_text in
  let '(text, old_string, new_string) :=
    if crlf then (to_lf raw_text, to_lf old_string, to_lf new_string) else (raw_text, old_string, new_string) in
  let occurrence_count := matches_count old_string text in
  if (occurrence_count =? 0)%nat then Err ("Edit failed: 'old_string' was not found in '" +:+ path +:+ TICK)
  else if (1 <? occurrence_count)%nat && negb replace_all then
    Err ("Edit failed: 'old_string' occurs " +:+ pretty occurrence_count +:+ " times in '" +:+ path +:+
         "'; pass 'replace_all': true to replace every occurrence")
  else
    let edited_lf := if replace_all then replace old_string new_string text else replacen1 old_string new_string text in
    let replaced_count := if replace_all then occurrence_count else 1%nat in
    Ok (if crlf then to_crlf edited_lf else edited_lf, replaced_count).

(** ** A mutation of a file *)

Module WriteMode.
Inductive t : Type := Overwrite | Append.
End WriteMode.
Definition parse_write_mode (value : option string) : result string WriteMode.t :=
  match value with
  | None => Ok WriteMode.Overwrite
  | Some value =>
    if bool_decide (value = "overwrite") then Ok WriteMode.Overwrite
    else if bool_decide (value = "append") then Ok WriteMode.Append
    else Err ("Write received invalid mode '" +:+ value +:+ "': expected 'overwrite' or 'append'")
  end.
Inductive Mutation : Type :=
| Edit (old_string new_string : string) (replace_all : bool)
| Write (content : string) (mode : WriteMode.t).

Section resolve.
Context (fs : PathSandbox.FileSystem) (fuel : nat) (workspace : option WorkspacePaths).
(** The path of a call, in the sandbox or for the permission chain *)
Definition resolve_path (tool path : string) : option (result string string) :=
  class ← classify_tool_path fs fuel workspace (PathSandbox.components path);
  Some (match class with
        | Inside canonical | Outside canonical => Ok (display canonical)
        | Escape reason => Err (escape_tool_error tool path reason)
        end).
Definition file_plan (tool path : string) (operation : AccessOperation) (display : json) : ExecutionPlan :=
  mkPlan [mkToolAccess ToolAccess.File (Some path) operation] display tool false.
(** [EditTool::resolve_execution] and [WriteTool::resolve_execution]; what they run is the
    path and the mutation. *)
Definition edit_resolve (input : json) : option (ToolExecution (string * Mutation)) :=
  match str_field "path" input, str_field "old_string" input, str_field "new_string" input with
  | Some path, Some old_string, Some new_string =>
    resolved ← resolve_path "Edit" path;
    Some (match resolved with
          | Err message => ToolError message
          | Ok path =>
            Runnable (file_plan "Edit" path ToolAccess.ReadWrite
                        (JObj [("kind", JStr "diff"); ("path", JStr path); ("before", JStr old_string); ("after", JStr new_string)]))
              (path, Edit old_string new_string (default false (jget "replace_all" input ≫= as_bool)))
          end)
  | _, _, _ => Some (ToolError "Edit requires string 'path', 'old_string', and 'new_string' arguments")
  end.
Definition write_resolve (input : json) : option (ToolExecution (string * Mutation)) :=
  match str_field "path" input, str_field "content" input with
  | Some path, Some content =>
    match parse_write_mode (str_field "mode" input) with
    | Err message => Some (ToolError message)
    | Ok mode =>
      resolved ← resolve_path "Write" path;
      Some (match resolved with
            | Err message => ToolError message
            | Ok path =>
              Runnable (file_plan "Write" path ToolAccess.Write
                          (JObj [("kind", JStr "file_io"); ("path", JStr path); ("operation", JStr "write")]))
                (path, Write content mode)
            end)
    end
  | _, _ => Some (ToolError "Write requires string 'path' and 'content' arguments")
  end.
End resolve.

(** ** The run of a mutation, in the steps between which others run

    A file is its text, or is missing.  A step does one operation on the file system,
    which the environment may let fail; a write that fails leaves whatever it leaves. *)
Definition File : Type := option string.
Inductive Io : Type := IoOk | IoErr (error : string) (remains : File).
Inductive Progress : Type :=
| Waiting
| Locked
| Edited (raw_text edited : string) (replaced_count : nat)
| Verified (raw_text edited : string) (replaced_count : nat)
| ParentMade.
#[export] Instance Progress_eq_dec : EqDecision Progress. Proof. solve_decision. Defined.
Inductive Outcome : Type := Goes (p : Progress) | Ends (answer : result string string) (applied : bool).

Definition NOT_FOUND : string := "No such file or directory (os error 2)".
Definition read_text (io : Io) (f : File) : result string string :=
  match io, f with
  | IoOk, Some text => Ok text
  | IoOk, None => Err NOT_FOUND
  | IoErr error _, _ => Err error
  end.
(** [verify_unchanged] *)
Definition verify_unchanged (path expected_raw : string) (current : result string string) : result string unit :=
  match current with
  | Err error =>
    Err (TICK +:+ path +:+ "' changed while it was being edited (re-read failed: " +:+ error +:+ "); please re-read the file and retry")
  | Ok current =>
    if bool_decide (current = expected_raw) then Ok tt
    else Err (TICK +:+ path +:+ "' was modified by another writer while it was being edited; the file contents may be out of date. Please re-read the file and retry")
  end.
Definition bytes (content : string) : string := pretty (String.length content) +:+ " bytes to ".

(** What a mutation of [path] that holds the lock does next *)
Definition job_step (path : string) (m : Mutation) (p : Progress) (io : Io) (f : File) : File * Outcome :=
  match m, p with
  | Edit old_string new_string replace_all, Locked =>
    match read_text io f with
    | Err error => (f, Ends (Err ("Edit failed to read '" +:+ path +:+ "': " +:+ error)) false)
    | Ok raw_text =>
      match edit_text path raw_text old_string new_string replace_all with
      | Err message => (f, Ends (Err message) false)
      | Ok (edited, replaced_count) => (f, Goes (Edited raw_text edited replaced_count))
      end
    end
  | Edit _ _ _, Edited raw_text edited replaced_count =>
    match verify_unchanged path raw_text (read_text io f) with
    | Err message => (f, Ends (Err ("Edit failed for '" +:+ path +:+ "': " +:+ message)) false)
    | Ok _ => (f, Goes (Verified raw_text edited replaced_count))
    end
  | Edit _ _ _, Verified _ edited replaced_count =>
    match io with
    | IoErr error remains => (remains, Ends (Err ("Edit failed to write '" +:+ path +:+ "': " +:+ error)) false)
    | IoOk => (Some edited, Ends (Ok ("Edited '" +:+ path +:+ "': replaced " +:+ pretty replaced_count +:+ " occurrence(s)")) true)
    end
  | Write content WriteMode.Overwrite, Locked =>
    match io with
    | IoErr error remains => (remains, Ends (Err ("Write failed for '" +:+ path +:+ "': " +:+ error)) false)
    | IoOk => (Some content, Ends (Ok ("Wrote " +:+ bytes content +:+ path)) true)
    end
  | Write _ WriteMode.Append, Locked =>
    match io with
    | IoErr error _ => (f, Ends (Err ("Append failed for '" +:+ path +:+ "': failed to create parent dirs: " +:+ error)) false)
    | IoOk => (f, Goes ParentMade)
    end
  | Write content WriteMode.Append, ParentMade =>
    match io with
    | IoErr error remains => (remains, Ends (Err ("Append failed for '" +:+ path +:+ "': " +:+ error)) false)
    | IoOk => (Some (default "" f +:+ content), Ends (Ok ("Appended " +:+ bytes content +:+ path)) true)
    end
  | _, p => (f, Goes p)
  end.
(** An edit that changes nothing asks for no lock. *)
Definition skipped (path : string) (m : Mutation) : option string :=
  match m with
  | Edit old_string new_string _ =>
    if bool_decide (old_string = new_string)
    then Some ("Edit skipped: 'old_string' and 'new_string' are identical; no change was made to '" +:+ path +:+ TICK)
    else None
  | Write _ _ => None
  end.
(** A mutation that is alone: [edit_file] and [write_file] *)
Fixpoint run_job (path : string) (m : Mutation) (p : Progress) (ios : list Io) (f : File) : File * option (result string string) :=
  match ios with
  | [] => (f, None)
  | io :: ios =>
    match job_step path m p io f with
    | (f, Ends answer _) => (f, Some answer)
    | (f, Goes p) => run_job path m p ios f
    end
  end.
Definition run_file_tool (path : string) (m : Mutation) (ios : list Io) (f : File) : File * option (result string string) :=
  match skipped path m with
  | Some message => (f, Some (Ok message))
  | None => run_job path m Locked ios f
  end.

(** ** Several mutations of one path *)

(** What changed the file: a mutation that was applied, or anybody else *)
Inductive Change : Type := Applied (id : nat) (m : Mutation) | Foreign (remains : File).
Record FileWorld : Type := mkFileWorld {
  file : File;
  holder : option nat;
  jobs : gmap nat (Mutation * Progress);
  answers : gmap nat (result string string);
  changes : list Change
}.
Definition lock_timeout (path : string) : string :=
  "timed out after 30s waiting for a concurrent edit of '" +:+ path +:+ "' to finish; re-read the file and retry once the other editor is done".
Definition lock_refused (path : string) (m : Mutation) : string :=
  match m with Edit _ _ _ => "Edit" | Write _ _ => "Write" end +:+ " failed for '" +:+ path +:+ "': " +:+ lock_timeout path.

Section world.
Context (path : string) (others_may : FileWorld -> Prop).
Definition finish (id : nat) (answer : result string string) (f : File) (c : list Change) (w : FileWorld) : FileWorld :=
  mkFileWorld f None (delete id (jobs w)) (<[id := answer]> (answers w)) (changes w ++ c).
Inductive step : FileWorld -> FileWorld -> Prop :=
| step_skip id m message w :
    jobs w !! id = Some (m, Waiting) -> skipped path m = Some message ->
    step w (mkFileWorld (file w) (holder w) (delete id (jobs w)) (<[id := Ok message]> (answers w)) (changes w))
| step_acquire id m w :
    jobs w !! id = Some (m, Waiting) -> skipped path m = None -> holder w = None ->
    step w (mkFileWorld (file w) (Some id) (<[id := (m, Locked)]> (jobs w)) (answers w) (changes w))
| step_timeout id m w :
    jobs w !! id = Some (m, Waiting) -> skipped path m = None ->
    step w (mkFileWorld (file w) (holder w) (delete id (jobs w)) (<[id := Err (lock_refused path m)]> (answers w)) (changes w))
| step_goes id m p io p' w :
    jobs w !! id = Some (m, p) -> p <> Waiting -> job_step path m p io (file w) = (file w, Goes p') ->
    step w (mkFileWorld (file w) (holder w) (<[id := (m, p')]> (jobs w)) (answers w) (changes w))
| step_ends id m p io f answer (applied : bool) w :
    jobs w !! id = Some (m, p) -> p <> Waiting -> job_step path m p io (file w) = (f, Ends answer applied) ->
    step w (finish id answer f (if applied then [Applied id m] else if bool_decide (f = file w) then [] else [Foreign f]) w)
(** The future of a call is dropped, and its lock with it. *)
| step_cancelled id m p w :
    jobs w !! id = Some (m, p) -> p <> Waiting ->
    step w (mkFileWorld (file w) None (delete id (jobs w)) (answers w) (changes w))
| step_cancelled_waiting id m w :
    jobs w !! id = Some (m, Waiting) ->
    step w (mkFileWorld (file w) (holder w) (delete id (jobs w)) (answers w) (changes w))
(** Somebody else writes the file. *)
| step_foreign f w :
    others_may w -> step w (mkFileWorld f (holder w) (jobs w) (answers w) (changes w ++ [Foreign f])).

Definition start (f : File) (ms : gmap nat Mutation) : FileWorld := mkFileWorld f None ((fun m => (m, Waiting)) <$> ms) ∅ [].

(** What a change does to the file *)
Definition effect (f : File) (c : Change) : File :=
  match c with
  | Applied _ (Edit old_string new_string replace_all) =>
    match f with
    | Some raw_text =>
      match edit_text path raw_text old_string new_string replace_all with Ok (edited, _) => Some edited | Err _ => f end
    | None => f
    end
  | Applied _ (Write content WriteMode.Overwrite) => Some content
  | Applied _ (Write content WriteMode.Append) => Some (default "" f +:+ content)
  | Foreign f => f
  end.
End world.
(** Nobody else writes between the check of an edit and its write. *)
Definition between_check_and_write (w : FileWorld) : Prop :=
  exists id m raw_text edited n, jobs w !! id = Some (m, Verified raw_text edited n).

(** ** Facts about [pieces] *)

#[local] Arguments String.prefix : simpl never.

Lemma str_contains_spec pat s : str_contains pat s = true <-> exists a b, s = a +:+ pat +:+ b.
Proof.
  induction s as [|c s IH]; simpl; rewrite orb_true_iff, prefix_spec.
  - split; [intros [[r ->]|]; [by exists "", r|done]|intros (a & b & H); left; exists b; by destruct a].
  - rewrite IH. split.
    + intros [[r ->]|(a & b & ->)]; [by exists "", r|by exists (String c a), b].
    + intros ([|c' a] & b & H); simpl in H; [left; by exists b|]. right. injection H as -> ->. by exists a, b.
Qed.
Lemma append_cancel (a b c : string) : a +:+ b = a +:+ c -> b = c.
Proof. induction a; simpl; [done|]. intros [=]. auto. Qed.
Lemma length_cat (a b : string) : String.length (a +:+ b) = (String.length a + String.length b)%nat.
Proof. induction a; simpl; [done|]. by rewrite IHa. Qed.
Lemma concat_cons_cons (sep x y : string) l : String.concat sep (x :: y :: l) = x +:+ sep +:+ String.concat sep (y :: l).
Proof. done. Qed.
Lemma concat_head (sep c x : string) l : String.concat sep ((c +:+ x) :: l) = c +:+ String.concat sep (x :: l).
Proof. destruct l; [done|]. rewrite !concat_cons_cons. by rewrite !string_app_assoc. Qed.

Section pieces.
Context (pat : string) (nonempty : pat <> "").
Lemma pieces_go_skip a s : pieces_go pat (String.length a) (a +:+ s) = pieces_go pat 0 s.
Proof. induction a as [|c a IH]; [done|]. simpl. exact IH. Qed.
Lemma pieces_nonempty s : pieces pat s = let '(x, l) := pieces_go pat 0 s in x :: l.
Proof. unfold pieces. by rewrite bool_decide_eq_false_2. Qed.
Lemma pieces_nil : pieces pat "" = [""].
Proof. by rewrite pieces_nonempty. Qed.
Lemma pieces_go_match c s : String.prefix pat (String c s) = true ->
  pieces_go pat 0 (String c s) = let '(x, l) := pieces_go pat (String.length pat - 1) s in ("", x :: l).
Proof. intros H. cbn [pieces_go]. by rewrite H. Qed.
Lemma pieces_match s : pieces pat (pat +:+ s) = "" :: pieces pat s.
Proof.
  rewrite !pieces_nonempty. assert (Hp : exists c p, pat = String c p) by (destruct pat as [|c p]; [done|by exists c, p]).
  destruct Hp as (c & p & Ep). assert (Hs : pat +:+ s = String c (p +:+ s)) by (by rewrite Ep).
  rewrite Hs, pieces_go_match by (apply prefix_spec; exists s; congruence).
  replace (String.length pat - 1)%nat with (String.length p) by (rewrite Ep; simpl; lia). rewrite pieces_go_skip. by destruct (pieces_go pat 0 s).
Qed.
Lemma pieces_char c s x l : String.prefix pat (String c s) = false -> pieces pat s = x :: l -> pieces pat (String c s) = String c x :: l.
Proof. intros Hp. rewrite !pieces_nonempty. cbn [pieces_go]. rewrite Hp. destruct (pieces_go pat 0 s). by intros [= -> ->]. Qed.
(** A string is empty, starts with a match or with another character. *)
Lemma pieces_ind (P : string -> list string -> Prop) :
  P "" [""] -> (forall s x l, P s (x :: l) -> P (pat +:+ s) ("" :: x :: l)) ->
  (forall c s x l, String.prefix pat (String c s) = false -> P s (x :: l) -> P (String c s) (String c x :: l)) ->
  forall s, P s (pieces pat s).
Proof.
  intros H0 Hm Hc s. remember (String.length s) as n eqn:En. revert s En. induction (lt_wf n) as [n _ IH]. intros s ->.
  destruct s as [|c s]; [by rewrite pieces_nil|].
  assert (Hp : forall s, exists x l, pieces pat s = x :: l) by (intros s'; rewrite pieces_nonempty; destruct (pieces_go pat 0 s') as [x l]; by exists x, l).
  destruct (String.prefix pat (String c s)) eqn:Ep.
  - apply prefix_spec in Ep as [r Er]. rewrite Er, pieces_match. destruct (Hp r) as (x & l & E). rewrite E. apply Hm. rewrite <- E.
    eapply IH; [|done]. rewrite Er, length_cat. destruct pat; [done|]. simpl. lia.
  - destruct (Hp s) as (x & l & E). rewrite (pieces_char c s x l Ep E). apply Hc; [done|]. rewrite <- E. eapply IH; [|done]. simpl. lia.
Qed.
Lemma pieces_facts s : String.concat pat (pieces pat s) = s /\ Forall (fun x => str_contains pat x = false) (pieces pat s).
Proof.
  assert (Hn : str_contains pat "" = false) by (destruct pat; done).
  revert s. apply (pieces_ind (fun s l => String.concat pat l = s /\ Forall (fun x => str_contains pat x = false) l)).
  - split; [done|]. by constructor.
  - intros s x l [Hs Hf]. split; [by rewrite concat_cons_cons, Hs|by constructor].
  - intros c s x l Hp [Hs Hf]. split; [rewrite <- Hs; apply (concat_head pat (String c "") x l)|].
    apply Forall_cons in Hf as [Hx Hl]. constructor; [|done]. cbn [str_contains]. rewrite Hx, orb_false_r.
    destruct (String.prefix pat (String c x)) eqn:E; [|done]. apply prefix_spec in E as [r Er].
    rewrite <- Hp. symmetry. apply prefix_spec. rewrite <- Hs.
    exists (r +:+ match l with [] => "" | y :: l => pat +:+ String.concat pat (y :: l) end).
    destruct l as [|y l]; [rewrite string_app_nil_r; exact Er|]. rewrite concat_cons_cons, (string_app_assoc pat r), <- Er. done.
Qed.
End pieces.
Lemma char_strings_concat s : String.concat "" (char_strings s) = s.
Proof.
  induction s as [|c s IH]; [done|]. cbn [char_strings]. destruct (char_strings s) as [|x l] eqn:E.
  - simpl in *. by rewrite <- IH.
  - destruct (match s with "" => false | String d _ => is_continuation d end).
    + rewrite <- IH. apply (concat_head "" (String c "") x l).
    + by rewrite concat_cons_cons, IH.
Qed.
Lemma concat_empty_snoc l : String.concat "" (l ++ [""]) = String.concat "" l.
Proof. induction l as [|x l IH]; [done|]. destruct l as [|y l]; simpl in *; [by rewrite string_app_nil_r|]. by rewrite IH. Qed.
Lemma pieces_some pat s : exists x l, pieces pat s = x :: l.
Proof. unfold pieces. case_bool_decide; [by eexists _, _|]. destruct (pieces_go pat 0 s) as [x l]. by exists x, l. Qed.
Lemma concat_pieces pat s : String.concat pat (pieces pat s) = s.
Proof.
  destruct (decide (pat = "")) as [->|H]; [|by apply pieces_facts]. unfold pieces. rewrite bool_decide_eq_true_2 by done.
  transitivity (String.concat "" (char_strings s ++ [""])); [by destruct (char_strings s)|]. by rewrite concat_empty_snoc, char_strings_concat.
Qed.
Lemma replacen1_once pat by_text s : matches_count pat s = 1%nat -> replacen1 pat by_text s = replace pat by_text s.
Proof.
  unfold matches_count, replacen1, replace. destruct (pieces pat s) as [|x [|y [|z l]]]; intros H; simpl in *; try done; lia.
Qed.

(** ** Line endings *)

Lemma to_crlf_cons c s : to_crlf (String c s) = (if ascii_dec c (ascii_of_nat 10) then CRLF else String c "") +:+ to_crlf s.
Proof.
  unfold to_crlf, replace. destruct (ascii_dec c (ascii_of_nat 10)) as [->|Hc].
  - change (String (ascii_of_nat 10) s) with (LF +:+ s). rewrite pieces_match by done.
    destruct (pieces_some LF s) as (x & l & ->). by rewrite concat_cons_cons.
  - assert (Hp : String.prefix LF (String c s) = false).
    { destruct (String.prefix _ _) eqn:E; [|done]. apply prefix_spec in E as [r Er]. by injection Er as -> ->. }
    destruct (pieces_some LF s) as (x & l & E). rewrite E, (pieces_char LF ltac:(done) c s x l Hp E). apply (concat_head CRLF (String c "")).
Qed.
Lemma to_crlf_app a b : to_crlf (a +:+ b) = to_crlf a +:+ to_crlf b.
Proof.
  induction a as [|c a IH]; [done|]. change (String c a +:+ b) with (String c (a +:+ b)). rewrite !to_crlf_cons, IH. by rewrite string_app_assoc.
Qed.
Lemma to_crlf_concat sep l : to_crlf (String.concat sep l) = String.concat (to_crlf sep) (to_crlf <$> l).
Proof.
  induction l as [|x l IH]; [done|]. destruct l as [|y l]; [done|]. rewrite concat_cons_cons, !to_crlf_app, IH. done.
Qed.
Lemma to_crlf_plain s : str_contains LF s = false -> to_crlf s = s.
Proof.
  induction s as [|c s IH]; [done|]. cbn [str_contains]. intros H. apply orb_false_iff in H as [Hp Hs]. rewrite to_crlf_cons, IH by done.
  destruct (ascii_dec c (ascii_of_nat 10)) as [->|]; [|done]. rewrite (proj2 (prefix_spec LF _)) in Hp; [done|by exists s].
Qed.

(** A line feed that is not of a CRLF *)
Definition lone_lf (s : string) : bool := existsb (str_contains LF) (pieces CRLF s).
Lemma endings_restored s : lone_lf s = false -> to_crlf (to_lf s) = s.
Proof.
  intros H. unfold to_lf, replace. rewrite to_crlf_concat. transitivity (String.concat CRLF (pieces CRLF s)); [|apply concat_pieces].
  change (to_crlf LF) with CRLF. f_equal. unfold lone_lf in H. induction (pieces CRLF s) as [|x l IH]; [done|].
  cbn [existsb] in H. apply orb_false_iff in H as [H1 H2]. by rewrite fmap_cons, to_crlf_plain, IH.
Qed.

(** ** What an edit does *)

(** C11. An edit that succeeds cuts the file at the occurrences of the old text, as many
    as the answer says, and writes the same parts around the new text; between the cuts
    the old text does not occur, and without [replace_all] there is exactly one.  In a
    file with a CRLF anywhere the search is for the texts with the endings LF, and what
    is written has CRLF throughout: the endings of the parts are kept when the file had
    no lone LF, so that then nothing but the matched text changes, and else rewritten
    ([mixed_endings_changed]). *)
Theorem edit_exact path raw_text old_string new_string replace_all edited n :
  edit_text path raw_text old_string new_string replace_all = Ok (edited, n) ->
  let endings (s : string) := if uses_crlf raw_text then to_crlf s else s in
  let plain (s : string) := if uses_crlf raw_text then to_lf s else s in
  exists parts, length parts = S n /\ (1 <= n)%nat /\ (replace_all = false -> n = 1%nat) /\
    plain raw_text = String.concat (plain old_string) parts /\
    edited = String.concat (endings (plain new_string)) (endings <$> parts) /\
    (plain old_string <> "" -> Forall (fun part => str_contains (plain old_string) part = false) parts) /\
    ((uses_crlf raw_text = true -> lone_lf raw_text = false) ->
     raw_text = String.concat (endings (plain old_string)) (endings <$> parts)).
Proof.
  intros H endings plain. unfold edit_text in H. set (crlf := uses_crlf raw_text) in *.
  assert (E : (if crlf then (to_lf raw_text, to_lf old_string, to_lf new_string) else (raw_text, old_string, new_string))
              = (plain raw_text, plain old_string, plain new_string)) by (unfold plain; by destruct crlf).
  rewrite E in H. clear E. set (text := plain raw_text) in *. set (old := plain old_string) in *. set (new := plain new_string) in *.
  destruct (Nat.eqb_spec (matches_count old text) 0) as [|H0]; [done|].
  destruct ((1 <? matches_count old text)%nat && negb replace_all) eqn:H1; [done|]. injection H as H Hn.
  assert (Hl : length (pieces old text) = S (matches_count old text)) by (unfold matches_count in *; lia).
  assert (Hr : (if replace_all then replace old new text else replacen1 old new text) = replace old new text /\
               n = matches_count old text /\ (replace_all = false -> n = 1%nat)).
  { destruct replace_all; [done|]. simpl in H1. rewrite andb_true_r in H1. apply Nat.ltb_ge in H1. assert (matches_count old text = 1%nat) by lia.
    rewrite replacen1_once by done. split_and!; congruence. }
  destruct Hr as (Hr & -> & Hone). rewrite Hr in H. exists (pieces old text).
  assert (Hc : forall sep, endings (String.concat sep (pieces old text)) = String.concat (endings sep) (endings <$> pieces old text)).
  { intros sep. unfold endings. destruct crlf; [apply to_crlf_concat|by rewrite list_fmap_id]. }
  split_and!; [lia|lia|done|by rewrite concat_pieces|rewrite <- Hc; symmetry; exact H|intros Ho; by apply pieces_facts|].
  intros Hu. rewrite <- Hc, concat_pieces. unfold text, endings, plain. destruct crlf eqn:Ec; [|done].
  symmetry. apply endings_restored. by apply Hu.
Qed.

(** ** Several agents on one file *)

Section serial.
Context (path : string) (others_may : FileWorld -> Prop) (f0 : File) (ms : gmap nat Mutation).
Notation step := (step path others_may).
Notation effect := (effect path).

Definition applied_ids (cs : list Change) : list nat := omap (fun c => match c with Applied id _ => Some id | Foreign _ => None end) cs.
(** Every applied mutation found a file it applies to. *)
Definition effective (f : File) (c : Change) : Prop :=
  match c with
  | Applied _ (Edit old_string new_string replace_all) =>
    exists raw_text edited n, f = Some raw_text /\ edit_text path raw_text old_string new_string replace_all = Ok (edited, n)
  | _ => True
  end.
Fixpoint all_effective (f : File) (cs : list Change) : Prop :=
  match cs with [] => True | c :: cs => effective f c /\ all_effective (effect f c) cs end.
Lemma all_effective_app f cs c : all_effective f cs -> effective (foldl effect f cs) c -> all_effective f (cs ++ [c]).
Proof. revert f. induction cs as [|c' cs IH]; intros f; simpl; [done|]. intros [H1 H2] H. split; [done|]. by apply IH. Qed.

(** What a mutation that is under way knows *)
Definition knows (f : File) (m : Mutation) (p : Progress) : Prop :=
  match p with
  | Edited raw_text edited n | Verified raw_text edited n =>
    match m with
    | Edit old_string new_string replace_all => edit_text path raw_text old_string new_string replace_all = Ok (edited, n)
    | Write _ _ => False
    end /\ match p with Verified _ _ _ => f = Some raw_text | _ => True end
  | ParentMade => exists content, m = Write content WriteMode.Append
  | Waiting | Locked => True
  end.
Record serial (w : FileWorld) : Prop := {
  se_file : file w = foldl effect f0 (changes w);
  se_effective : all_effective f0 (changes w);
  se_holder : forall id m p, jobs w !! id = Some (m, p) -> p <> Waiting -> holder w = Some id;
  se_knows : forall id m p, jobs w !! id = Some (m, p) -> knows (file w) m p;
  se_jobs : forall id m p, jobs w !! id = Some (m, p) -> ms !! id = Some m /\ answers w !! id = None /\ id ∉ applied_ids (changes w);
  se_applied : forall id m, Applied id m ∈ changes w -> ms !! id = Some m /\ exists text, answers w !! id = Some (Ok text);
  se_once : NoDup (applied_ids (changes w));
  se_answers : forall id text, answers w !! id = Some (Ok text) ->
    exists m, ms !! id = Some m /\ (Applied id m ∈ changes w \/ skipped path m = Some text)
}.
Lemma applied_ids_app cs cs' : applied_ids (cs ++ cs') = applied_ids cs ++ applied_ids cs'.
Proof. apply omap_app. Qed.
Lemma serial_start : serial (start f0 ms).
Proof.
  assert (Hj : forall id m p, jobs (start f0 ms) !! id = Some (m, p) -> p = Waiting /\ ms !! id = Some m).
  { intros id m p. simpl. rewrite lookup_fmap. destruct (ms !! id); [|done]. by intros [= -> ->]. }
  constructor; try done.
  - by intros id m p [-> _]%Hj.
  - by intros id m p [-> _]%Hj.
  - intros id m p [_ H]%Hj. split_and!; [done|done|set_solver].
  - intros id m H. set_solver.
  - constructor.
Qed.

(** A step leaves the others as they are when they know nothing of the file. *)
Lemma others_wait w id m p : serial w -> jobs w !! id = Some (m, p) -> p <> Waiting ->
  forall id' m' p', jobs w !! id' = Some (m', p') -> id' <> id -> p' = Waiting.
Proof.
  intros Hs Hj Hp id' m' p' Hj' Hne. destruct (decide (p' = Waiting)) as [|Hn]; [done|].
  pose proof (se_holder w Hs id m p Hj Hp). pose proof (se_holder w Hs id' m' p' Hj' Hn). congruence.
Qed.
Lemma elem_applied id m cs : Applied id m ∈ cs -> id ∈ applied_ids cs.
Proof. intros H. apply list_elem_of_omap. by exists (Applied id m). Qed.
Lemma knows_waiting f m : knows f m Waiting.
Proof. done. Qed.

(** A mutation that goes on, or waits no more *)
Lemma serial_move w id m p p' hold :
  serial w -> jobs w !! id = Some (m, p) -> knows (file w) m p' -> (p' <> Waiting -> hold = Some id) ->
  (forall id' m' p', jobs w !! id' = Some (m', p') -> id' <> id -> p' <> Waiting -> hold = Some id') ->
  serial (mkFileWorld (file w) hold (<[id := (m, p')]> (jobs w)) (answers w) (changes w)).
Proof.
  intros Hs Hj Hk Hh Ho. destruct Hs. constructor; simpl; try done.
  - intros id' m' p''. destruct (decide (id' = id)) as [->|Hn]; [rewrite lookup_insert_eq; intros [= <- <-]; done|].
    rewrite lookup_insert_ne by done. intros H. by eapply Ho.
  - intros id' m' p''. destruct (decide (id' = id)) as [->|Hn]; [rewrite lookup_insert_eq; intros [= <- <-]; done|].
    rewrite lookup_insert_ne by done. intros H. by eapply se_knows0.
  - intros id' m' p''. destruct (decide (id' = id)) as [->|Hn]; [rewrite lookup_insert_eq; intros [= <- <-]; by eapply se_jobs0|].
    rewrite lookup_insert_ne by done. intros H. by eapply se_jobs0.
Qed.
(** A mutation that is dropped *)
Lemma serial_drop w id m p hold :
  serial w -> jobs w !! id = Some (m, p) ->
  (forall id' m' p', jobs w !! id' = Some (m', p') -> id' <> id -> p' <> Waiting -> hold = Some id') ->
  serial (mkFileWorld (file w) hold (delete id (jobs w)) (answers w) (changes w)).
Proof.
  intros Hs Hj Ho. destruct Hs. constructor; simpl; try done; intros id' m' p''; rewrite lookup_delete_Some; intros [Hn H].
  - by eapply Ho.
  - by eapply se_knows0.
  - by eapply se_jobs0.
Qed.
(** What the end of a mutation adds to the changes *)
Definition ends_with_changes (w : FileWorld) (id : nat) (m : Mutation) (answer : result string string) (f : File) (cs : list Change) : Prop :=
  (cs = [] /\ f = file w) \/ cs = [Foreign f] \/
  (cs = [Applied id m] /\ f = effect (file w) (Applied id m) /\ effective (file w) (Applied id m) /\ exists text, answer = Ok text).
Lemma serial_leave w id m p answer f cs hold :
  serial w -> jobs w !! id = Some (m, p) -> ends_with_changes w id m answer f cs ->
  (forall text, answer = Ok text -> Applied id m ∈ cs \/ skipped path m = Some text) ->
  (forall id' m' p', jobs w !! id' = Some (m', p') -> id' <> id -> knows f m' p' /\ (p' <> Waiting -> hold = Some id')) ->
  serial (mkFileWorld f hold (delete id (jobs w)) (<[id := answer]> (answers w)) (changes w ++ cs)).
Proof.
  intros Hs Hj Hc Ha Ho. destruct (se_jobs w Hs id m p Hj) as (Hm & Hnone & Hid). destruct Hs.
  assert (Hids : applied_ids cs = [] \/ applied_ids cs = [id]) by (destruct Hc as [[-> _]|[->|[-> _]]]; auto).
  constructor; simpl.
  - rewrite foldl_app, <- se_file0. destruct Hc as [[-> ->]|[->|(-> & -> & _)]]; done.
  - destruct Hc as [[-> ->]|[->|(-> & -> & He & _)]]; [by rewrite app_nil_r| |]; apply all_effective_app; try done. by rewrite <- se_file0.
  - intros id' m' p''. rewrite lookup_delete_Some. intros [Hn H]. by eapply Ho.
  - intros id' m' p''. rewrite lookup_delete_Some. intros [Hn H]. by eapply Ho.
  - intros id' m' p''. rewrite lookup_delete_Some. intros [Hn H]. rewrite lookup_insert_ne by done. destruct (se_jobs0 _ _ _ H) as (H1 & H2 & H3).
    split_and!; [done|done|]. rewrite applied_ids_app. destruct Hids as [-> | ->]; set_solver.
  - intros id' m' [H|H]%elem_of_app.
    + destruct (se_applied0 _ _ H) as [H1 H2]. split; [done|]. rewrite lookup_insert_ne; [done|]. intros ->. by apply elem_applied in H.
    + destruct Hc as [[-> _]|[->|(-> & _ & _ & text & ->)]]; [set_solver|apply list_elem_of_singleton in H; done|].
      apply list_elem_of_singleton in H. injection H as -> ->. split; [done|]. exists text. by rewrite lookup_insert_eq.
  - rewrite applied_ids_app. destruct Hids as [-> | ->]; [by rewrite app_nil_r|]. apply NoDup_app. split_and!; [done| |repeat constructor; set_solver]. set_solver.
  - intros id' text. destruct (decide (id' = id)) as [->|Hn].
    + rewrite lookup_insert_eq. intros [= ->]. exists m. split; [done|]. destruct (Ha text eq_refl); [left; apply elem_of_app; by right|by right].
    + rewrite lookup_insert_ne by done. intros H. destruct (se_answers0 _ _ H) as (m' & H1 & H2). exists m'. split; [done|].
      destruct H2; [left; apply elem_of_app; by left|by right].
Qed.

(** A step of the mutation that holds the lock *)
Lemma job_step_goes m p io f p' : knows f m p -> p <> Waiting -> job_step path m p io f = (f, Goes p') -> knows f m p' /\ p' <> Waiting.
Proof.
  intros Hk Hp. destruct m as [old new all|content []], p as [| |raw edited n|raw edited n|]; simpl in *; try done.
  all: try (by destruct io); try (intros [= <-]; by destruct Hk); try (by intros [= <-]).
  - destruct (read_text io f) as [raw|]; [|done]. destruct (edit_text path raw old new all) as [[edited n]|] eqn:E; [|done]. by intros [= <-].
  - destruct (read_text io f) as [raw'|e] eqn:E; simpl; [|done]. case_bool_decide as Er; [|done]. intros [= <-]. subst raw'.
    destruct Hk as [Hk _]. split; [|done]. split; [done|]. destruct io, f; simpl in E; congruence.
  - destruct io; [|done]. intros [= <-]. split; [by exists content|done].
Qed.
Lemma job_step_ends w id m p io f answer (applied : bool) :
  knows (file w) m p -> p <> Waiting -> job_step path m p io (file w) = (f, Ends answer applied) ->
  ends_with_changes w id m answer f (if applied then [Applied id m] else if bool_decide (f = file w) then [] else [Foreign f]) /\
  (forall text, answer = Ok text -> applied = true).
Proof.
  intros Hk Hp. assert (Hn : forall f answer, ends_with_changes w id m answer f (if bool_decide (f = file w) then [] else [Foreign f])).
  { intros f' answer'. case_bool_decide; [by left|right; by left]. }
  assert (Hu : forall answer', ends_with_changes w id m answer' (file w) (if bool_decide (file w = file w) then [] else [Foreign (file w)])) by done.
  destruct m as [old new all|content []], p as [| |raw edited n|raw edited n|]; simpl; try done; try (by destruct Hk).
  - destruct (read_text io (file w)) as [raw|]; [|by intros [= <- <- <-]].
    destruct (edit_text path raw old new all) as [[edited n]|]; [done|by intros [= <- <- <-]].
  - destruct (verify_unchanged _ _ _); [done|by intros [= <- <- <-]].
  - destruct io; intros [= <- <- <-]; [|done]. split; [|done]. destruct Hk as [Hk Hf]. right. right. unfold effective, FileTools.effect. rewrite Hf.
    split_and!; [done|by rewrite Hk|by exists raw, edited, n|by eexists].
  - destruct io; intros [= <- <- <-]; [|done]. split; [|done]. right. right. split_and!; try done. by eexists.
  - destruct io; [done|]. by intros [= <- <- <-].
  - destruct io; intros [= <- <- <-]; [|done]. split; [|done]. right. right. split_and!; try done. by eexists.
Qed.

Context (quiet : forall w, others_may w -> ~ between_check_and_write w).
Lemma serial_step w w' : serial w -> step w w' -> serial w'.
Proof.
  intros Hs Hstep. assert (Hw : forall id m p, jobs w !! id = Some (m, p) -> p <> Waiting -> forall id' m' p', jobs w !! id' = Some (m', p') -> id' <> id -> p' = Waiting)
    by exact (fun id m p Hj Hp => others_wait w id m p Hs Hj Hp). destruct Hstep as [id m message w Hj Hm|id m w Hj Hm Hh|id m w Hj Hm|id m p io p' w Hj Hp E|id m p io f answer applied w Hj Hp E|id m p w Hj Hp|id m w Hj|f w Hf].
  - pose proof (serial_leave w id m Waiting (Ok message) (file w) [] (holder w) Hs Hj) as H. rewrite app_nil_r in H. apply H; [by left|intros text [= <-]; by right|].
    intros id' m' p' H' _. split; [by eapply se_knows|by eapply se_holder].
  - eapply serial_move; try done. intros id' m' p' H' Hn Hp. pose proof (se_holder w Hs _ _ _ H' Hp). congruence.
  - pose proof (serial_leave w id m Waiting (Err (lock_refused path m)) (file w) [] (holder w) Hs Hj) as H. rewrite app_nil_r in H. apply H; [by left|done|].
    intros id' m' p' H' _. split; [by eapply se_knows|by eapply se_holder].
  - destruct (job_step_goes m p io (file w) p' (se_knows w Hs _ _ _ Hj) Hp E) as [Hk Hp'].
    eapply serial_move; try done; [intros _; by eapply se_holder|]. intros id' m' p'' H' Hn Hp''. destruct Hp''. exact (Hw id m p Hj Hp id' m' p'' H' Hn).
  - destruct (job_step_ends w id m p io f answer applied (se_knows w Hs _ _ _ Hj) Hp E) as [Hc Ha].
    eapply serial_leave; try done.
    + intros text Ht. left. rewrite (Ha text Ht). set_solver.
    + intros id' m' p' H' Hn. by rewrite (Hw id m p Hj Hp id' m' p' H' Hn).
  - eapply serial_drop; try done. intros id' m' p' H' Hn Hp'. destruct Hp'. exact (Hw id m p Hj Hp id' m' p' H' Hn).
  - eapply serial_drop; try done. intros id' m' p' H' Hn Hp'. by eapply se_holder.
  - apply quiet in Hf. destruct Hs. constructor; simpl; try done.
    + by rewrite foldl_app.
    + by apply all_effective_app.
    + intros id m p H. specialize (se_knows0 _ _ _ H). destruct p; try done. destruct Hf. by eexists _, _, _, _, _.
    + intros id m p H. rewrite applied_ids_app. simpl. rewrite app_nil_r. by eapply se_jobs0.
    + intros id m [H|H]%elem_of_app; [by apply se_applied0|]. apply list_elem_of_singleton in H. done.
    + rewrite applied_ids_app. simpl. by rewrite app_nil_r.
    + intros id text H. destruct (se_answers0 _ _ H) as (m & H1 & H2). exists m. split; [done|]. destruct H2; [left; apply elem_of_app; by left|by right].
Qed.
Lemma serial_steps w : rtc step (start f0 ms) w -> serial w.
Proof.
  intros H. assert (Hg : forall w0, rtc step w0 w -> serial w0 -> serial w) by (clear H; induction 1; [done|]; intros; by eapply IHrtc, serial_step).
  by apply (Hg _ H), serial_start.
Qed.
End serial.

(** C12. No change of a file is lost.  Let any number of edits and writes of one path run
    at once, in any order of their steps, some of them given up, some meeting errors of
    the file system, and let others write the file at any time but between the check of
    an edit and its write.  The file is then what its changes make of it one after the
    other; a mutation is among them exactly when it answered that it was done (or had
    nothing to do), never twice, and an edit found the text it was applied to. *)
Theorem no_lost_update path others_may f0 ms w :
  (forall w, others_may w -> ~ between_check_and_write w) ->
  rtc (step path others_may) (start f0 ms) w ->
  file w = foldl (effect path) f0 (changes w) /\ all_effective path f0 (changes w) /\ NoDup (applied_ids (changes w)) /\
  (forall id m, Applied id m ∈ changes w -> ms !! id = Some m /\ exists text, answers w !! id = Some (Ok text)) /\
  (forall id text, answers w !! id = Some (Ok text) -> exists m, ms !! id = Some m /\ (Applied id m ∈ changes w \/ skipped path m = Some text)).
Proof. intros Hq H. apply (serial_steps path others_may f0 ms Hq) in H as []. done. Qed.

(** ** Witnesses, and what was found *)

Definition nl : string := LF.
Lemma edit_exact_witness :
  lone_lf ("one" +:+ CRLF +:+ "two" +:+ CRLF) = false /\
  edit_text "f" ("one" +:+ CRLF +:+ "two" +:+ CRLF) ("one" +:+ nl) ("1" +:+ nl +:+ "2" +:+ nl) false = Ok ("1" +:+ CRLF +:+ "2" +:+ CRLF +:+ "two" +:+ CRLF, 1%nat) /\
  exists parts, length parts = 2%nat /\ "one" +:+ CRLF +:+ "two" +:+ CRLF = String.concat ("one" +:+ CRLF) (to_crlf <$> parts).
Proof.
  assert (Hl : lone_lf ("one" +:+ CRLF +:+ "two" +:+ CRLF) = false) by (vm_compute; reflexivity).
  assert (He : edit_text "f" ("one" +:+ CRLF +:+ "two" +:+ CRLF) ("one" +:+ nl) ("1" +:+ nl +:+ "2" +:+ nl) false = Ok ("1" +:+ CRLF +:+ "2" +:+ CRLF +:+ "two" +:+ CRLF, 1%nat))
    by (vm_compute; reflexivity).
  split; [exact Hl|]. split; [exact He|].
  destruct (edit_exact _ _ _ _ _ _ _ He) as (parts & H1 & _ & _ & _ & _ & _ & H2). exists parts. split; [exact H1|exact (H2 (fun _ => Hl))].
Defined.

(** In a file of mixed endings an edit changes lines it was not asked to. *)
Example mixed_endings_changed :
  edit_text "f" ("a" +:+ CRLF +:+ "b" +:+ LF +:+ "c") "a" "x" false = Ok ("x" +:+ CRLF +:+ "b" +:+ CRLF +:+ "c", 1%nat).
Proof. vm_compute. reflexivity. Qed.
(** Occurrences that overlap are one occurrence. *)
Example overlapping_edited : edit_text "f" "aaa" "aa" "x" false = Ok ("xa", 1%nat) /\ edit_text "f" "aXaXa" "aXa" "b" false = Ok ("bXa", 1%nat).
Proof. vm_compute. done. Qed.
(** The empty text occurs around every character. *)
Example empty_text_edited : edit_text "f" "ab" "" "-" true = Ok ("-a-b-", 3%nat) /\ edit_text "f" "" "" "new" false = Ok ("new", 1%nat).
Proof. vm_compute. done. Qed.
Example edit_refused :
  snd (run_file_tool "f" (Edit "a" "b" false) [IoOk; IoOk; IoOk] (Some "a a")) =
  Some (Err "Edit failed: 'old_string' occurs 2 times in 'f'; pass 'replace_all': true to replace every occurrence").
Proof. vm_compute. reflexivity. Qed.
Example append_creates : run_file_tool "f" (Write "x" WriteMode.Append) [IoOk; IoOk] None = (Some "x", Some (Ok "Appended 1 bytes to f")).
Proof. vm_compute. reflexivity. Qed.

Definition two_edits : gmap nat Mutation := {[ 0%nat := Edit "a" "x" false; 1%nat := Edit "b" "y" false ]}.
Definition nobody : FileWorld -> Prop := fun _ => False.
(** One edit, while another waits *)
Lemma first_edit_runs : exists w, rtc (step "f" nobody) (start (Some "a b") two_edits) w /\ file w = Some "x b" /\ length (changes w) = 1%nat.
Proof.
  eexists. split.
  - eapply rtc_l; [apply (step_acquire _ _ 0%nat (Edit "a" "x" false)); vm_compute; reflexivity|].
    eapply rtc_l; [apply (step_goes _ _ 0%nat (Edit "a" "x" false) Locked IoOk (Edited "a b" "x b" 1)); [vm_compute; reflexivity|done|vm_compute; reflexivity]|].
    eapply rtc_l; [apply (step_goes _ _ 0%nat (Edit "a" "x" false) (Edited "a b" "x b" 1) IoOk (Verified "a b" "x b" 1)); [vm_compute; reflexivity|done|vm_compute; reflexivity]|].
    eapply rtc_l; [apply (step_ends _ _ 0%nat (Edit "a" "x" false) (Verified "a b" "x b" 1) IoOk (Some "x b") (Ok "Edited 'f': replaced 1 occurrence(s)") true);
      [vm_compute; reflexivity|done|vm_compute; reflexivity]|].
    apply rtc_refl.
  - split; vm_compute; reflexivity.
Qed.
Lemma no_lost_update_witness :
  exists w, rtc (step "f" nobody) (start (Some "a b") two_edits) w /\ file w = foldl (effect "f") (Some "a b") (changes w) /\ file w = Some "x b".
Proof.
  destruct first_edit_runs as (w & H & Hf & _). exists w. split; [exact H|]. split; [|exact Hf].
  apply (no_lost_update "f" nobody (Some "a b") two_edits w (fun _ f => match f with end) H).
Defined.
