(* ===== verification/Frames.v ===== *)
(** * JSON-RPC frames: [mirri-transport/src/frame.rs] and [mirri-remote/src/frames.rs]

    The frames every client and server of the engine exchanges, written, classified
    leniently and read strictly; and the reading of a client, which takes a batch
    apart.  JSON text is read and printed by [serde_json], an argument; so is the
    wording of its errors. *)
From stdpp Require Import list strings.
From S2P Require Import Prelude RustStd Json.
#[local] Open Scope string_scope.
#[local] Open Scope list_scope.
#[local] Open Scope Z_scope.

Definition PARSE_ERROR : Z := -32700.
Definition INVALID_REQUEST : Z := -32600.
Definition METHOD_NOT_FOUND : Z := -32601.
Definition INVALID_PARAMS : Z := -32602.
Definition INTERNAL_ERROR : Z := -32603.

(** ** Frames *)

Inductive RequestId : Type := Number (n : Z) | Str (s : string).
#[export] Instance RequestId_eq_dec : EqDecision RequestId. Proof. solve_decision. Defined.
Record JsonRpcRequest : Type := mkRequest { rq_id : option RequestId; rq_method : string; rq_params : json }.
Record JsonRpcError : Type := mkError { er_code : Z; er_message : string; er_data : option json }.
Record JsonRpcResponse : Type := mkResponse { rs_id : option RequestId; rs_result : option json; rs_error : option JsonRpcError }.
Record JsonRpcNotification : Type := mkNotification { nt_method : string; nt_params : json }.
Inductive JsonRpcFrame : Type :=
| Request (r : JsonRpcRequest) | Response (r : JsonRpcResponse) | Notification (n : JsonRpcNotification).

Definition new_request (id : option Z) (method : string) (params : json) : JsonRpcRequest := mkRequest (Number <$> id) method params.
Definition response_ok (id : RequestId) (result : json) : JsonRpcResponse := mkResponse (Some id) (Some result) None.
Definition response_err (id : RequestId) (error : JsonRpcError) : JsonRpcResponse := mkResponse (Some id) None (Some error).
Definition new_error (code : Z) (message : string) : JsonRpcError := mkError code message None.

(** ** Written *)

Definition id_value (id : RequestId) : json := match id with Number n => JNum n | Str s => JStr s end.
Definition opt_entry (key : string) (v : option json) : list (string * json) := match v with Some v => [(key, v)] | None => [] end.
Definition error_value (e : JsonRpcError) : json :=
  JObj ([("code", JNum (er_code e)); ("message", JStr (er_message e))] ++ opt_entry "data" (er_data e)).
Definition frame_value (f : JsonRpcFrame) : json :=
  match f with
  | Request r => JObj (opt_entry "id" (id_value <$> rq_id r) ++ [("method", JStr (rq_method r)); ("params", rq_params r)])
  | Response r =>
    JObj ([("id", match rs_id r with Some id => id_value id | None => JNull end)] ++
      opt_entry "result" (rs_result r) ++ opt_entry "error" (error_value <$> rs_error r))
  | Notification n => JObj [("method", JStr (nt_method n)); ("params", nt_params n)]
  end.
Definition JSONRPC_VERSION : string := "2.0".
Definition to_value (f : JsonRpcFrame) : json := jinsert "jsonrpc" (JStr JSONRPC_VERSION) (frame_value f).
Definition protocol_error_frame (code : Z) (message : string) (id : option Z) : json :=
  JObj [("jsonrpc", JStr JSONRPC_VERSION); ("error", JObj [("code", JNum code); ("message", JStr message)]);
        ("id", match id with Some n => JNum n | None => JNull end)].

(** ** Read, as the derived readers do

    A field of type [Option] that is null or missing is [None]; the objects of an error
    may be given as the array of its fields. *)
Definition read_id (j : json) : option RequestId :=
  match j with JStr s => Some (Str s) | _ => Number <$> as_i64 j end.
Definition read_opt {A} (read : json -> option A) (v : option json) : option (option A) :=
  match v with None | Some JNull => Some None | Some j => Some <$> read j end.
Definition read_error_fields (code message : json) (data : option json) : option JsonRpcError :=
  code ← as_i64 code; message ← as_str message; data ← read_opt Some data; Some (mkError code message data).
Definition read_error (j : json) : option JsonRpcError :=
  match j with
  | JObj l => code ← assoc "code" l; message ← assoc "message" l; read_error_fields code message (assoc "data" l)
  | JArr [code; message; data] => read_error_fields code message (Some data)
  | _ => None
  end.
Definition read_request (j : json) : option JsonRpcRequest :=
  id ← read_opt read_id (jget "id" j); method ← str_field "method" j; Some (mkRequest id method (default JNull (jget "params" j))).
Definition read_notification (j : json) : option JsonRpcNotification :=
  method ← str_field "method" j; Some (mkNotification method (default JNull (jget "params" j))).
Definition read_response (j : json) : option JsonRpcResponse :=
  id ← read_opt read_id (jget "id" j); result ← read_opt Some (jget "result" j); error ← read_opt read_error (jget "error" j);
  Some (mkResponse id result error).
Definition has_key (key : string) (j : json) : bool := match jget key j with Some _ => true | None => false end.

Inductive FrameParseError : Type := NotAnObject | Deserialize (message : string) | UnknownFrameType.
Record FrameError : Type := mkFrameError { fe_code : Z; fe_message : string; fe_id : option Z; fe_respond : bool }.

Section read.
(** What [serde_json] says of a value it cannot read *)
Context (serde_error : json -> string).
Definition typed {A} (wrap : A -> JsonRpcFrame) (j : json) (v : option A) : result string JsonRpcFrame :=
  match v with Some x => Ok (wrap x) | None => Err (serde_error j) end.
(** [JsonRpcFrame::from_value], the lenient reading *)
Definition from_value (j : json) : result FrameParseError JsonRpcFrame :=
  let lenient (r : result string JsonRpcFrame) := match r with Ok f => Ok f | Err e => Err (Deserialize e) end in
  if negb (is_obj j) then Err NotAnObject
  else if has_key "method" j then
    if has_key "id" j then lenient (typed Request j (read_request j)) else lenient (typed Notification j (read_notification j))
  else if has_key "id" j then lenient (typed Response j (read_response j))
  else Err UnknownFrameType.
(** [JsonRpcFrame::parse] of the value its text denotes *)
Definition parse_value (j : json) : result FrameError JsonRpcFrame :=
  if negb (is_obj j) then Err (mkFrameError INVALID_REQUEST "invalid request: frame must be a single JSON object" None false)
  else
    let has_id_key := has_key "id" j in
    let id := jget "id" j ≫= as_i64 in
    let invalid (message : string) := mkFrameError INVALID_REQUEST message id has_id_key in
    let checked (what : string) (r : result string JsonRpcFrame) := match r with Ok f => Ok f | Err e => Err (invalid (what +:+ e)) end in
    match has_key "method" j, has_key "result" j, has_key "error" j with
    | true, false, false =>
      if has_id_key && negb (bool_decide (is_Some id)) then Err (invalid "invalid request: request ids must be integers")
      else checked "invalid request: " (if has_id_key then typed Request j (read_request j) else typed Notification j (read_notification j))
    | false, true, false | false, false, true =>
      if negb has_id_key || negb (bool_decide (is_Some id)) then Err (invalid "invalid response: responses must carry an integer id")
      else checked "invalid response: " (typed Response j (read_response j))
    | _, _, _ => Err (invalid "invalid request: expected exactly one of 'method' or 'result'/'error'")
    end.

Context (from_str : string -> result string json) (print : json -> string).
Definition parse (text : string) : result FrameError JsonRpcFrame :=
  match from_str text with
  | Err error => Err (mkFrameError PARSE_ERROR ("parse error: " +:+ error) None true)
  | Ok j => parse_value j
  end.
(** [parse_client_frames] *)
Fixpoint parse_members (l : list json) : result FrameError (list JsonRpcFrame) :=
  match l with
  | [] => Ok []
  | j :: l =>
    match parse (print j) with
    | Err e => Err e
    | Ok f => match parse_members l with Err e => Err e | Ok fs => Ok (f :: fs) end
    end
  end.
Definition parse_client_frames (text : string) : result FrameError (list JsonRpcFrame) :=
  match from_str text with
  | Err error => Err (mkFrameError PARSE_ERROR ("parse error: " +:+ error) None true)
  | Ok (JArr members) => parse_members members
  | Ok _ => match parse text with Ok f => Ok [f] | Err e => Err e end
  end.
End read.

(** ** What is written is read back *)

#[local] Arguments as_i64 : simpl never.

Definition in_i64 (n : Z) : Prop := - 2 ^ 63 <= n < 2 ^ 63.
Definition not_null (v : option json) : Prop := v <> Some JNull.
(** The frames the strict reading is made for: integer ids, one of result and error, and no
    null where a null is nothing *)
Definition strict_frame (f : JsonRpcFrame) : Prop :=
  match f with
  | Request r => exists n, rq_id r = Some (Number n) /\ in_i64 n
  | Notification _ => True
  | Response r =>
    (exists n, rs_id r = Some (Number n) /\ in_i64 n) /\
    match rs_result r, rs_error r with
    | Some v, None => v <> JNull
    | None, Some e => in_i64 (er_code e) /\ not_null (er_data e)
    | _, _ => False
    end
  end.
Lemma as_i64_in n : in_i64 n -> as_i64 (JNum n) = Some n.
Proof. intros [H1 H2]. unfold as_i64. by rewrite (proj2 (Z.leb_le _ _) H1), (proj2 (Z.ltb_lt _ _) H2). Qed.
Lemma as_i64_range j n : as_i64 j = Some n -> j = JNum n /\ in_i64 n.
Proof. unfold as_i64, in_i64. destruct j; try done. destruct (_ && _) eqn:E; [|done]. intros [= <-]. split; [done|lia]. Qed.
Lemma read_opt_some {A} (read : json -> option A) j x : j <> JNull -> read j = Some x -> read_opt read (Some j) = Some (Some x).
Proof. intros Hn Hr. unfold read_opt. rewrite Hr. by destruct j. Qed.
Lemma read_error_value e : in_i64 (er_code e) -> not_null (er_data e) -> read_error (error_value e) = Some e.
Proof.
  intros Hc Hd. destruct e as [code message data]. simpl in *.
  assert (Hr : read_opt Some data = Some data) by (destruct data as [j|]; [|done]; apply read_opt_some; [by intros ->|done]).
  assert (Hf : read_error_fields (JNum code) (JStr message) data = Some (mkError code message data))
    by (unfold read_error_fields; rewrite as_i64_in by done; simpl; by rewrite Hr).
  by destruct data.
Qed.

#[local] Arguments error_value : simpl never.
#[local] Arguments read_error : simpl never.
(** Read the fields of a frame that was written. *)
Ltac read_back :=
  unfold parse_value, read_request, read_response, has_key; simpl; rewrite as_i64_in by done; simpl; rewrite ?as_i64_in by done; simpl.
Section roundtrip.
Context (serde_error : json -> string).
Lemma parse_value_written f : strict_frame f -> parse_value serde_error (to_value f) = Ok f.
Proof.
  destruct f as [[id method params]|[id result error]|[method params]].
  - intros (n & E & Hn). simpl in E. subst id. read_back. done.
  - intros [(n & E & Hn) H]. simpl in E, H. subst id. destruct result as [v|], error as [e|]; try done.
    + read_back. by destruct v.
    + destruct H as [Hc Hd]. read_back. by rewrite (read_error_value e Hc Hd).
  - done.
Qed.
End roundtrip.

Section travel.
Context (serde_error : json -> string) (from_str : string -> result string json) (print : json -> string).
Definition printed (j : json) : Prop := from_str (print j) = Ok j.
Lemma parse_written f : strict_frame f -> printed (to_value f) -> parse serde_error from_str (print (to_value f)) = Ok f.
Proof. intros Hf Hp. unfold parse. rewrite Hp. by apply parse_value_written. Qed.
Lemma parse_members_written fs :
  Forall strict_frame fs -> Forall printed (to_value <$> fs) -> parse_members serde_error from_str print (to_value <$> fs) = Ok fs.
Proof.
  intros H. induction H as [|f fs Hf H IH]; [done|]. rewrite fmap_cons. intros [Hp Hps]%Forall_cons. cbn [parse_members].
  by rewrite parse_written, IH.
Qed.

(** C14. What one side writes the other reads.  Frames with integer ids, and with a result
    that is not null or an error, come out of the text that was printed for them as they
    went in: alone, read by a server or a client, and in a batch, in their order, read by
    a client. *)
Theorem frames_travel fs :
  Forall strict_frame fs -> Forall printed (JArr (to_value <$> fs) :: (to_value <$> fs)) ->
  parse_client_frames serde_error from_str print (print (JArr (to_value <$> fs))) = Ok fs /\
  Forall (fun f => parse serde_error from_str (print (to_value f)) = Ok f /\
                   parse_client_frames serde_error from_str print (print (to_value f)) = Ok [f]) fs.
Proof.
  intros Hf [Hb Hp]%Forall_cons. split; [unfold parse_client_frames; rewrite Hb; by apply parse_members_written|].
  clear Hb. induction Hf as [|f fs H Hf IH]; [done|]. rewrite fmap_cons in Hp. apply Forall_cons in Hp as [Hp Hps]. constructor.
  - assert (E : parse serde_error from_str (print (to_value f)) = Ok f) by by apply parse_written. split; [done|].
    unfold parse_client_frames. rewrite Hp, E. destruct f; done.
  - by apply IH.
Qed.
End travel.

(** What the strict reading refuses is answered exactly when it has an id, and under the
    id when that is an integer. *)
Lemma refusal_answered serde_error j e : parse_value serde_error j = Err e ->
  fe_code e = INVALID_REQUEST /\ fe_respond e = has_key "id" j /\ (fe_id e = jget "id" j ≫= as_i64).
Proof.
  unfold parse_value. destruct (is_obj j) eqn:Ej; [|intros [= <-]; by destruct j]. simpl.
  assert (H : forall (message : string) (r : result string JsonRpcFrame) (what : string), match r with Ok f => Ok f | Err e => Err (mkFrameError INVALID_REQUEST (what +:+ e) (jget "id" j ≫= as_i64) (has_key "id" j)) end = Err e ->
    fe_code e = INVALID_REQUEST /\ fe_respond e = has_key "id" j /\ (fe_id e = jget "id" j ≫= as_i64)) by (intros _ [] what; [done|by intros [= <-]]).
  destruct (has_key "method" j), (has_key "result" j), (has_key "error" j); try (by intros [= <-]).
  all: case_match; [by intros [= <-]|]; by apply (H "").
Qed.
(** What it accepts has an integer id, or is a notification. *)
Lemma accepted_id serde_error j f : parse_value serde_error j = Ok f ->
  match f with
  | Request r => exists n, rq_id r = Some (Number n) /\ jget "id" j = Some (JNum n)
  | Response r => (exists n, rs_id r = Some (Number n) /\ jget "id" j = Some (JNum n)) /\ (rs_result r = None \/ rs_error r = None)
  | Notification _ => has_key "id" j = false
  end.
Proof.
  assert (Hid : forall n x, jget "id" j ≫= as_i64 = Some n -> read_opt read_id (jget "id" j) = Some x -> x = Some (Number n) /\ jget "id" j = Some (JNum n)).
  { intros n x. destruct (jget "id" j) as [v|]; [|done]. simpl. intros H. apply as_i64_range in H as [-> Hn]. simpl. rewrite as_i64_in by done. by intros [= <-]. }
  unfold parse_value. destruct (is_obj j); [|done]. simpl.
  destruct (jget "id" j ≫= as_i64) as [n|] eqn:En.
  - assert (Hk : has_key "id" j = true) by (unfold has_key; by destruct (jget "id" j)). rewrite Hk. specialize (Hid n). simpl.
    destruct (has_key "method" j), (has_key "result" j) eqn:Hr, (has_key "error" j) eqn:He; simpl; try done.
    + destruct (read_request j) as [r|] eqn:E; simpl; [|done]. intros [= <-]. unfold read_request in E.
      destruct (read_opt read_id (jget "id" j)) as [x|]; [|done]. destruct (Hid x eq_refl eq_refl) as [-> ?]. simpl in E.
      destruct (str_field "method" j); [|done]. injection E as <-. by exists n.
    + destruct (read_response j) as [r|] eqn:E; simpl; [|done]. intros [= <-]. unfold read_response in E.
      destruct (read_opt read_id (jget "id" j)) as [x|]; [|done]. destruct (Hid x eq_refl eq_refl) as [-> ?]. simpl in E.
      destruct (read_opt Some (jget "result" j)); [|done]. unfold has_key in He. destruct (jget "error" j); [done|]. simpl in E. injection E as <-.
      split; [by exists n|by right].
    + destruct (read_response j) as [r|] eqn:E; simpl; [|done]. intros [= <-]. unfold read_response in E.
      destruct (read_opt read_id (jget "id" j)) as [x|]; [|done]. destruct (Hid x eq_refl eq_refl) as [-> ?]. simpl in E.
      unfold has_key in Hr. destruct (jget "result" j); [done|]. simpl in E. destruct (read_opt read_error (jget "error" j)); [|done]. injection E as <-.
      split; [by exists n|by left].
  - rewrite bool_decide_eq_false_2 by (by intros [? ?]). simpl.
    destruct (has_key "method" j), (has_key "result" j), (has_key "error" j), (has_key "id" j) eqn:Hk; simpl; try done.
    destruct (read_notification j); simpl; [|done]. by intros [= <-].
Qed.

Definition a_ping : JsonRpcFrame := Notification (mkNotification "ping" (JObj [("nonce", JNum 7)])).
Definition an_answer : JsonRpcFrame := Response (response_ok (Number 3) (JObj [("ok", JBool true)])).
Definition toy_print (j : json) : string := match j with JArr _ => "batch" | _ => if has_key "id" j then "answer" else "ping" end.
Definition toy_from_str (text : string) : result string json :=
  if bool_decide (text = "batch") then Ok (JArr [to_value a_ping; to_value an_answer])
  else if bool_decide (text = "answer") then Ok (to_value an_answer) else Ok (to_value a_ping).
Lemma frames_travel_witness :
  parse_client_frames (fun _ => "") toy_from_str toy_print "batch" = Ok [a_ping; an_answer].
Proof.
  destruct (frames_travel (fun _ => "") toy_from_str toy_print [a_ping; an_answer]) as [H _]; [| |exact H].
  - repeat constructor; simpl; try done. exists 3. split; [done|unfold in_i64; lia].
  - repeat constructor.
Defined.
(** A result that is null is read as none, and the frame cannot be passed on. *)
Example null_result_dropped :
  parse_value (fun _ => "") (to_value (Response (response_ok (Number 1) JNull))) = Ok (Response (mkResponse (Some (Number 1)) None None)) /\
  parse_value (fun _ => "") (to_value (Response (mkResponse (Some (Number 1)) None None))) =
    Err (mkFrameError INVALID_REQUEST "invalid request: expected exactly one of 'method' or 'result'/'error'" (Some 1) true).
Proof. vm_compute. done. Qed.
(** The lenient reading takes the ids of any client. *)
Example string_id_lenient :
  from_value (fun _ => "") (JObj [("id", JStr "u-1"); ("method", JStr "initialize")]) = Ok (Request (mkRequest (Some (Str "u-1")) "initialize" JNull)) /\
  exists e, parse_value (fun _ => "") (JObj [("id", JStr "u-1"); ("method", JStr "initialize")]) = Err e /\ fe_respond e = true /\ fe_id e = None.
Proof. split; [vm_compute; reflexivity|]. eexists. split; [vm_compute; reflexivity|]. done. Qed.
