(* ===== verification/Remote.v ===== *)
(** * The adapter of a remote engine: [mirri-remote/src/lib.rs]

    A client of a server over one connection: its calls wait for the responses that
    carry their ids, the sessions it creates are subscribed to before their creator
    hears of them, and when the connection dies or is disposed of every call that waits
    is failed.  An operation that takes one lock after the other is given as its parts,
    between which the connection task, other callers and [dispose] run. *)
From stdpp Require Import gmap strings list.
From S2P Require Import Prelude RustStd Json Frames.
#[local] Open Scope string_scope.
#[local] Open Scope list_scope.
#[local] Open Scope Z_scope.

Definition EVENT_CHANNEL_CAPACITY : nat := 256.
Definition HEARTBEAT_DEFAULT_MS : Z := 15000.
Definition HEARTBEAT_TIMEOUT_MULTIPLIER : Z := 3.
Definition SESSION_CREATING_METHODS : list string := ["session.create"; "session.resume"; "session.fork"; "forkSession"].
Module SubscribePolicy.
Inductive t : Type := AllSessions | OwnSessionsOnly.
#[global] Instance t_eq_dec : EqDecision t. Proof. solve_decision. Defined.
End SubscribePolicy.

(** [EngineError] of [mirri-transport/src/adapter.rs] *)
Inductive EngineError : Type :=
| Rpc (code : Z) (message : string) (data : option json) | Transport (message : string) | NotConnected
| MethodNotFound (method : string) | Internal (message : string).

(** ** The state

    The sender of a one-shot channel is the number of its caller; [told] is what the
    callers were sent. *)
Inductive Outbound : Type := OutFrame (f : JsonRpcFrame) | OutClose.
Record PendingCall : Type := mkPending { pc_method : string; pc_caller : nat; pc_deferred : option JsonRpcResponse }.
Record RemoteAdapter : Type := mkRemote {
  connected : bool;
  disposed : bool;
  pending : gmap Z PendingCall;
  next_id : Z;
  (** [write_tx] is there, and what its channel holds; [None] when the receiver is gone *)
  writer : bool;
  queue : option (list Outbound);
  (** what was broadcast, while the sender is there *)
  events : option (list JsonRpcNotification);
  has_handler : bool;
  subscribed : gset string;
  policy : SubscribePolicy.t;
  heartbeat_ms : Z;
  version : string;
  told : gmap nat (result EngineError JsonRpcResponse)
}.
Definition new_remote (policy : SubscribePolicy.t) (heartbeat_ms : Z) (version : string) : RemoteAdapter :=
  mkRemote true false ∅ 1 true (Some []) (Some []) false ∅ policy heartbeat_ms version ∅.
Definition set_pending (v : gmap Z PendingCall) (a : RemoteAdapter) : RemoteAdapter :=
  mkRemote (connected a) (disposed a) v (next_id a) (writer a) (queue a) (events a) (has_handler a) (subscribed a) (policy a) (heartbeat_ms a) (version a) (told a).
Definition set_queue (v : option (list Outbound)) (a : RemoteAdapter) : RemoteAdapter :=
  mkRemote (connected a) (disposed a) (pending a) (next_id a) (writer a) v (events a) (has_handler a) (subscribed a) (policy a) (heartbeat_ms a) (version a) (told a).
Definition set_events (v : option (list JsonRpcNotification)) (a : RemoteAdapter) : RemoteAdapter :=
  mkRemote (connected a) (disposed a) (pending a) (next_id a) (writer a) (queue a) v (has_handler a) (subscribed a) (policy a) (heartbeat_ms a) (version a) (told a).
Definition set_subscribed (v : gset string) (a : RemoteAdapter) : RemoteAdapter :=
  mkRemote (connected a) (disposed a) (pending a) (next_id a) (writer a) (queue a) (events a) (has_handler a) v (policy a) (heartbeat_ms a) (version a) (told a).
Definition set_told (v : gmap nat (result EngineError JsonRpcResponse)) (a : RemoteAdapter) : RemoteAdapter :=
  mkRemote (connected a) (disposed a) (pending a) (next_id a) (writer a) (queue a) (events a) (has_handler a) (subscribed a) (policy a) (heartbeat_ms a) (version a) v.
Definition set_flags (c d w : bool) (a : RemoteAdapter) : RemoteAdapter :=
  mkRemote c d (pending a) (next_id a) w (queue a) (events a) (has_handler a) (subscribed a) (policy a) (heartbeat_ms a) (version a) (told a).
Definition set_server (heartbeat_ms : Z) (version : string) (a : RemoteAdapter) : RemoteAdapter :=
  mkRemote (connected a) (disposed a) (pending a) (next_id a) (writer a) (queue a) (events a) (has_handler a) (subscribed a) (policy a) heartbeat_ms version (told a).
Definition tell (caller : nat) (r : result EngineError JsonRpcResponse) (a : RemoteAdapter) : RemoteAdapter := set_told (<[caller := r]> (told a)) a.
Definition wrap_i64 (n : Z) : Z := (n + 2 ^ 63) mod 2 ^ 64 - 2 ^ 63.
(** [next_id.fetch_add] and the insertion of the call that waits for the id *)
Definition insert_call (method : string) (caller : nat) (deferred : option JsonRpcResponse) (a : RemoteAdapter) : RemoteAdapter * Z :=
  (mkRemote (connected a) (disposed a) (<[next_id a := mkPending method caller deferred]> (pending a)) (wrap_i64 (next_id a + 1)) (writer a) (queue a)
     (events a) (has_handler a) (subscribed a) (policy a) (heartbeat_ms a) (version a) (told a), next_id a).

(** ** Outbound *)

Definition send_outbound (out : Outbound) (a : RemoteAdapter) : RemoteAdapter * result EngineError unit :=
  if negb (writer a) then (a, Err NotConnected)
  else match queue a with
       | None => (a, Err (Transport "connection closed"))
       | Some q =>
         if (length q <? EVENT_CHANNEL_CAPACITY)%nat then (set_queue (Some (q ++ [out])) a, Ok tt)
         else (a, Err (Transport "connection closed"))
       end.
(** The second part of [call_internal] and of [send_subscribe]: the request is queued, or
    its call is taken back and fails; a subscription is marked. *)
Definition send_request (id : Z) (method : string) (params : json) (caller : nat) (subscribes : option string) (a : RemoteAdapter) : RemoteAdapter :=
  match send_outbound (OutFrame (Request (new_request (Some id) method params))) a with
  | (a, Err e) => tell caller (Err e) (set_pending (delete id (pending a)) a)
  | (a, Ok _) => match subscribes with Some s => set_subscribed ({[s]} ∪ subscribed a) a | None => a end
  end.

(** What [call_method] does first: it refuses, subscribes to the session it addresses, or
    sends *)
Definition addressed_session_id (params : json) : option string :=
  v ← (match jget "session_id" params with Some v => Some v | None => jget "sessionId" params end);
  s ← as_str v;
  if bool_decide (s = "") then None else Some s.
Definition touches (method : string) (params : json) (a : RemoteAdapter) : option string :=
  if bool_decide (policy a = SubscribePolicy.OwnSessionsOnly) && negb (bool_decide (method ∈ SESSION_CREATING_METHODS)) then
    s ← addressed_session_id params; if bool_decide (s ∈ subscribed a) then None else Some s
  else None.
Definition refuses (a : RemoteAdapter) : bool := negb (connected a) || disposed a.
Definition subscribe_params (session_id : string) : json := JObj [("sessionId", JStr session_id)].
(** What [call_method] answers *)
Definition call_answer (method : string) (r : result EngineError JsonRpcResponse) : result EngineError json :=
  match r with
  | Err e => Err e
  | Ok response =>
    match rs_error response with
    | Some e => if er_code e =? METHOD_NOT_FOUND then Err (MethodNotFound method) else Err (Rpc (er_code e) (er_message e) (er_data e))
    | None => Ok (default JNull (rs_result response))
    end
  end.

(** ** Inbound *)

(** [handle_response]: what is left to do after the call is taken from the table *)
Inductive Routed : Type := Done | Follow (caller : nat) (response : JsonRpcResponse) (session_id : string).
Definition created_session (method : string) (response : JsonRpcResponse) : option string :=
  if bool_decide (method ∈ SESSION_CREATING_METHODS) then rs_result response ≫= str_field "id" else None.
Definition take_response (response : JsonRpcResponse) (a : RemoteAdapter) : RemoteAdapter * Routed :=
  match rs_id response with
  | Some (Number id) =>
    match pending a !! id with
    | None => (a, Done)
    | Some call =>
      let a := set_pending (delete id (pending a)) a in
      match pc_deferred call with
      | Some original => (tell (pc_caller call) (Ok original) a, Done)
      | None =>
        match created_session (pc_method call) response with
        | Some s => (a, Follow (pc_caller call) response s)
        | None => (tell (pc_caller call) (Ok response) a, Done)
        end
      end
    end
  | _ => (a, Done)
  end.
(** The follow-up subscription, in its two parts *)
Definition follow_insert (caller : nat) (response : JsonRpcResponse) (a : RemoteAdapter) : RemoteAdapter * Z :=
  insert_call "session.subscribe" caller (Some response) a.
Definition follow_send (id : Z) (session_id : string) (a : RemoteAdapter) : RemoteAdapter :=
  let a := set_subscribed ({[session_id]} ∪ subscribed a) a in
  fst (send_outbound (OutFrame (Request (new_request (Some id) "session.subscribe" (subscribe_params session_id)))) a).
Definition handle_response (response : JsonRpcResponse) (a : RemoteAdapter) : RemoteAdapter :=
  match take_response response a with
  | (a, Done) => a
  | (a, Follow caller response s) => let '(a, id) := follow_insert caller response a in follow_send id s a
  end.

Definition handle_notification (n : JsonRpcNotification) (a : RemoteAdapter) : RemoteAdapter :=
  let method := nt_method n in
  if bool_decide (method = "server_hello") then
    let heartbeat := match jget "heartbeatMs" (nt_params n) ≫= as_u64 with Some ms => if 0 <? ms then ms else heartbeat_ms a | None => heartbeat_ms a end in
    set_server heartbeat (default (version a) (str_field "version" (nt_params n))) a
  else if bool_decide (method = "ping") then
    fst (send_outbound (OutFrame (Notification (mkNotification "pong" (JObj [("nonce", default JNull (jget "nonce" (nt_params n)))])))) a)
  else if bool_decide (method = "pong") then a
  else if bool_decide (method = "event") || String.prefix "event." method || bool_decide (method = "skill.catalogChanged") then
    match events a with Some es => set_events (Some (es ++ [n])) a | None => a end
  else a.
(** [handle_reverse_request]; what the handler comes to is sent by [answer_reverse]. *)
Definition handle_reverse_request (r : JsonRpcRequest) (a : RemoteAdapter) : RemoteAdapter :=
  match rq_id r with
  | None => a
  | Some id =>
    if has_handler a then a
    else fst (send_outbound (OutFrame (Response (response_err id (new_error METHOD_NOT_FOUND ("method not found: " +:+ rq_method r))))) a)
  end.
Definition answer_reverse (id : RequestId) (answer : result string json) (a : RemoteAdapter) : RemoteAdapter :=
  fst (send_outbound (OutFrame (Response (match answer with
                                          | Ok value => response_ok id value
                                          | Err message => response_err id (new_error INTERNAL_ERROR message)
                                          end))) a).
Definition handle_inbound_frame (f : JsonRpcFrame) (a : RemoteAdapter) : RemoteAdapter :=
  match f with
  | Request r => handle_reverse_request r a
  | Response r => handle_response r a
  | Notification n => handle_notification n a
  end.

(** ** The end *)

Definition fail_all_pending (e : EngineError) (a : RemoteAdapter) : RemoteAdapter :=
  set_told ((list_to_map ((fun '(_, call) => (pc_caller call, Err e)) <$> map_to_list (pending a)) : gmap nat (result EngineError JsonRpcResponse)) ∪ told a)
    (set_pending ∅ a).
(** [connection_died] and the return of the connection task, which drops the receiver *)
Definition died_flag (a : RemoteAdapter) : RemoteAdapter := set_flags false (disposed a) (writer a) a.
Definition died_drain (a : RemoteAdapter) : RemoteAdapter := fail_all_pending (Transport "connection closed") a.
Definition died_events (a : RemoteAdapter) : RemoteAdapter := set_events None a.
Definition task_gone (a : RemoteAdapter) : RemoteAdapter := set_queue None a.
Definition connection_died (a : RemoteAdapter) : RemoteAdapter := task_gone (died_events (died_drain (died_flag a))).
(** [dispose] *)
Definition dispose_flags (a : RemoteAdapter) : RemoteAdapter := set_flags false true (writer a) a.
Definition dispose_drain (a : RemoteAdapter) : RemoteAdapter := fail_all_pending NotConnected a.
Definition dispose_close (a : RemoteAdapter) : RemoteAdapter :=
  let a := fst (send_outbound OutClose a) in task_gone (set_events None (set_flags (connected a) (disposed a) false a)).
Definition dispose (a : RemoteAdapter) : RemoteAdapter := if disposed a then a else dispose_close (dispose_drain (dispose_flags a)).

(** ** Any interleaving

    Callers are numbered.  The ghosts say whom an id was minted for, which follow-up
    subscribes whom to what, and what the server sent. *)
Inductive Reader : Type := Idle | Following (caller : nat) (response : JsonRpcResponse) (session_id : string) | FollowSending (id : Z) (session_id : string).
Record World : Type := mkWorld {
  adapter : RemoteAdapter;
  reader : Reader;
  sending : gmap nat (Z * string * json * option string);
  asked : gmap Z (nat * string);
  follow : gmap Z (nat * string);
  received : list JsonRpcResponse
}.
Definition on_adapter (f : RemoteAdapter -> RemoteAdapter) (w : World) : World := mkWorld (f (adapter w)) (reader w) (sending w) (asked w) (follow w) (received w).
Definition set_reader (r : Reader) (w : World) : World := mkWorld (adapter w) r (sending w) (asked w) (follow w) (received w).
Definition started (w : World) (c : nat) : Prop := exists id m, asked w !! id = Some (c, m).
(** What [handle_response] leaves to the connection task *)
Definition reader_of (r : Routed) : Reader := match r with Done => Idle | Follow c response s => Following c response s end.
Inductive step : World -> World -> Prop :=
| step_call c method params subscribes w : ~ started w c ->
  step w (mkWorld (fst (insert_call method c None (adapter w))) (reader w)
    (<[c := (next_id (adapter w), method, params, subscribes)]> (sending w))
    (<[next_id (adapter w) := (c, method)]> (asked w)) (follow w) (received w))
| step_send c id method params subscribes w : sending w !! c = Some (id, method, params, subscribes) ->
  step w (mkWorld (send_request id method params c subscribes (adapter w)) (reader w) (delete c (sending w)) (asked w) (follow w) (received w))
| step_response response w : reader w = Idle ->
  step w (mkWorld (fst (take_response response (adapter w))) (reader_of (snd (take_response response (adapter w)))) (sending w) (asked w) (follow w)
    (received w ++ [response]))
| step_follow_insert c response s w : reader w = Following c response s ->
  step w (mkWorld (fst (follow_insert c response (adapter w))) (FollowSending (next_id (adapter w)) s) (sending w) (asked w)
    (<[next_id (adapter w) := (c, s)]> (follow w)) (received w))
| step_follow_send id s w : reader w = FollowSending id s -> step w (set_reader Idle (on_adapter (follow_send id s) w))
| step_other f w : (forall r, f <> Response r) -> reader w = Idle -> step w (on_adapter (handle_inbound_frame f) w)
| step_reverse id answer w : step w (on_adapter (answer_reverse id answer) w)
| step_write q out w : queue (adapter w) = Some (out :: q) -> step w (on_adapter (set_queue (Some q)) w)
| step_died_flag w : step w (on_adapter died_flag w)
| step_died_drain w : step w (on_adapter died_drain w)
| step_died_events w : step w (on_adapter died_events w)
| step_gone w : step w (on_adapter task_gone w)
| step_dispose_flags w : step w (on_adapter dispose_flags w)
| step_dispose_drain w : step w (on_adapter dispose_drain w)
| step_dispose_close w : step w (on_adapter dispose_close w).
Definition connected_world (policy : SubscribePolicy.t) (heartbeat_ms : Z) (version : string) : World :=
  mkWorld (new_remote policy heartbeat_ms version) Idle ∅ ∅ ∅ [].

(** [response] is the server's to the request of [c]. *)
Definition own (w : World) (c : nat) (response : JsonRpcResponse) (m : string) : Prop :=
  exists id, rs_id response = Some (Number id) /\ asked w !! id = Some (c, m) /\ response ∈ received w.
(** Before [c] hears of the session it created, its subscription is answered. *)
Definition subscribed_first (w : World) (c : nat) (response : JsonRpcResponse) (m : string) : Prop :=
  forall s, created_session m response = Some s ->
  exists id ack, follow w !! id = Some (c, s) /\ ack ∈ received w /\ rs_id ack = Some (Number id).
Definition waits (a : RemoteAdapter) (c : nat) : Prop := exists id call, pending a !! id = Some call /\ pc_caller call = c.
Definition at_work (r : Reader) (c : nat) : Prop := exists response s, r = Following c response s.

Record routed (n : nat) (w : World) : Prop := {
  ro_next : 1 <= next_id (adapter w) <= 1 + Z.of_nat n;
  ro_asked : forall id x, asked w !! id = Some x -> id < next_id (adapter w);
  ro_follow : forall id x, follow w !! id = Some x -> id < next_id (adapter w);
  ro_apart : forall id x, asked w !! id = Some x -> follow w !! id = None;
  ro_sending : forall c id method params subscribes, sending w !! c = Some (id, method, params, subscribes) -> exists m, asked w !! id = Some (c, m);
  ro_one : forall id id' c m m', asked w !! id = Some (c, m) -> asked w !! id' = Some (c, m') -> id = id';
  ro_pending : forall id call, pending (adapter w) !! id = Some call ->
    match pc_deferred call with
    | None => asked w !! id = Some (pc_caller call, pc_method call)
    | Some response => exists m s, own w (pc_caller call) response m /\ created_session m response = Some s /\ follow w !! id = Some (pc_caller call, s)
    end;
  ro_reader : forall c response s, reader w = Following c response s -> exists m, own w c response m /\ created_session m response = Some s;
  ro_told : forall c response, told (adapter w) !! c = Some (Ok response) -> exists m, own w c response m /\ subscribed_first w c response m;
  ro_there : forall c, started w c -> waits (adapter w) c \/ at_work (reader w) c \/ is_Some (told (adapter w) !! c)
}.

Lemma own_mono w w' c response m :
  asked w ⊆ asked w' -> (forall r, r ∈ received w -> r ∈ received w') -> own w c response m -> own w' c response m.
Proof. intros Ha Hr (id & H1 & H2 & H3). exists id. split_and!; [done| |by apply Hr]. by eapply lookup_weaken. Qed.
Lemma subscribed_mono w w' c response m :
  follow w ⊆ follow w' -> (forall r, r ∈ received w -> r ∈ received w') -> subscribed_first w c response m -> subscribed_first w' c response m.
Proof.
  intros Hf Hr H s Hs. destruct (H s Hs) as (id & ack & H1 & H2 & H3). exists id, ack. split_and!; [|by apply Hr|done]. by eapply lookup_weaken.
Qed.
Lemma wrap_i64_small z : 0 <= z < 2 ^ 63 -> wrap_i64 z = z.
Proof. intros H. unfold wrap_i64. rewrite Z.mod_small; lia. Qed.
Lemma routed_more n w : routed n w -> routed (S n) w.
Proof. intros []. constructor; try done. lia. Qed.
(** What does not touch the table, the ids or the callers *)
Lemma routed_quiet n w w' :
  routed n w -> pending (adapter w') = pending (adapter w) -> next_id (adapter w') = next_id (adapter w) -> told (adapter w') = told (adapter w) ->
  (forall c response s, reader w' = Following c response s <-> reader w = Following c response s) -> (sending w' ⊆ sending w) ->
  asked w' = asked w -> follow w' = follow w -> received w' = received w -> routed (S n) w'.
Proof.
  intros H Hp Hn Ht Hr Hs Ha Hf Hv. apply routed_more in H. destruct H.
  constructor; unfold started, waits, at_work, own, subscribed_first; rewrite ?Hp, ?Hn, ?Ht, ?Ha, ?Hf, ?Hv; try done.
  - intros c id method params subscribes H. eapply ro_sending0. by eapply lookup_weaken.
  - intros c response s H. apply (ro_reader0 c response s). by apply Hr.
  - intros c H. destruct (ro_there0 c H) as [|[(response & s & E)|]]; [by left| |by right; right]. right. left. exists response, s. by apply Hr.
Qed.
Lemma sent_quiet out a : let a' := fst (send_outbound out a) in pending a' = pending a /\ next_id a' = next_id a /\ told a' = told a.
Proof. unfold send_outbound. destruct (negb (writer a)); [done|]. destruct (queue a) as [q|]; [|done]. by destruct (_ <? _)%nat. Qed.
Lemma notified_quiet nt a : let a' := handle_notification nt a in pending a' = pending a /\ next_id a' = next_id a /\ told a' = told a.
Proof.
  unfold handle_notification. case_bool_decide; [done|]. case_bool_decide; [apply sent_quiet|]. case_bool_decide; [done|].
  destruct (_ || _); [|done]. by destruct (events a).
Qed.
Lemma reversed_quiet r a : let a' := handle_reverse_request r a in pending a' = pending a /\ next_id a' = next_id a /\ told a' = told a.
Proof. unfold handle_reverse_request. destruct (rq_id r); [|done]. destruct (has_handler a); [done|apply sent_quiet]. Qed.

Lemma routed_call n w c method params subscribes : Z.of_nat n < 2 ^ 62 -> routed n w -> ~ started w c ->
  routed (S n) (mkWorld (fst (insert_call method c None (adapter w))) (reader w) (<[c := (next_id (adapter w), method, params, subscribes)]> (sending w))
    (<[next_id (adapter w) := (c, method)]> (asked w)) (follow w) (received w)).
Proof.
  intros Hn H Hc. destruct H. set (id := next_id (adapter w)) in *.
  assert (Hfresh : asked w !! id = None) by (destruct (asked w !! id) eqn:E; [|done]; apply ro_asked0 in E; unfold id in E; lia).
  assert (Hff : follow w !! id = None) by (destruct (follow w !! id) eqn:E; [|done]; apply ro_follow0 in E; unfold id in E; lia).
  assert (Hsub : asked w ⊆ <[id := (c, method)]> (asked w)) by by apply insert_subseteq.
  assert (Hw : wrap_i64 (id + 1) = id + 1) by (apply wrap_i64_small; unfold id; lia).
  constructor; simpl; fold id; rewrite ?Hw.
  - unfold id in *. lia.
  - intros id' x. rewrite lookup_insert_Some. intros [[<- _]|[_ E]]; [lia|]. apply ro_asked0 in E. lia.
  - intros id' x E. apply ro_follow0 in E. lia.
  - intros id' x. rewrite lookup_insert_Some. intros [[<- _]|[_ E]]; [done|]. by eapply ro_apart0.
  - intros c' id' m' p' s'. rewrite lookup_insert_Some. intros [[<- [= <- <- <- <-]]|[_ E]]; [exists method; by rewrite lookup_insert_eq|].
    destruct (ro_sending0 _ _ _ _ _ E) as [m0 E0]. exists m0. by eapply lookup_weaken.
  - intros id1 id2 c' m1 m2. rewrite !lookup_insert_Some. intros [[<- [= <- <-]]|[_ E1]] [[<- E]|[_ E2]]; try done.
    + destruct Hc. by exists id2, m2.
    + injection E as <- <-. destruct Hc. by exists id1, m1.
    + by eapply ro_one0.
  - intros id' call. rewrite lookup_insert_Some. intros [[<- <-]|[Hne E]]; simpl; [by rewrite lookup_insert_eq|].
    pose proof (ro_pending0 _ _ E) as Hp. destruct (pc_deferred call) as [response|]; [|by eapply lookup_weaken].
    destruct Hp as (m & s & Ho & Hs & Hf). exists m, s. split_and!; [|done|done]. by eapply own_mono.
  - intros c' response s E. destruct (ro_reader0 _ _ _ E) as (m & Ho & Hs). exists m. split; [|done]. by eapply own_mono.
  - intros c' response E. destruct (ro_told0 _ _ E) as (m & Ho & Hs). exists m. split; [by eapply own_mono|by eapply subscribed_mono].
  - intros c' (id' & m' & E). simpl in E. rewrite lookup_insert_Some in E. destruct E as [[<- [= <- <-]]|[_ E]].
    + left. exists id, (mkPending method c None). split; [apply lookup_insert_eq|done].
    + destruct (ro_there0 c') as [(i & call & Ei & Hcall)|[|]]; [by exists id', m'| |by right; left|by right; right].
      left. exists i, call. split; [|done]. simpl. rewrite lookup_insert_ne; [done|]. intros <-.
      pose proof (ro_pending0 _ _ Ei) as Hp. destruct (pc_deferred call); [destruct Hp as (? & ? & _ & _ & Hp)|]; congruence.
Qed.
(** Calls leave the table, and some callers are told: of failures, or of their own *)
Lemma routed_leave n w w' :
  routed n w -> pending (adapter w') ⊆ pending (adapter w) -> next_id (adapter w') = next_id (adapter w) -> sending w' ⊆ sending w ->
  asked w' = asked w -> follow w' = follow w -> (forall r, r ∈ received w -> r ∈ received w') ->
  (forall c response s, reader w' = Following c response s -> exists m, own w' c response m /\ created_session m response = Some s) ->
  (forall c response, told (adapter w') !! c = Some (Ok response) ->
     told (adapter w) !! c = Some (Ok response) \/ exists m, own w' c response m /\ subscribed_first w' c response m) ->
  (forall c, waits (adapter w) c \/ at_work (reader w) c \/ is_Some (told (adapter w) !! c) ->
     waits (adapter w') c \/ at_work (reader w') c \/ is_Some (told (adapter w') !! c)) ->
  routed (S n) w'.
Proof.
  intros H Hp Hn Hs Ha Hf Hv Hr Ht Hth. apply routed_more in H. destruct H.
  assert (Ho : forall c response m, own w c response m -> own w' c response m) by (intros c response m; apply own_mono; [by rewrite Ha|done]).
  constructor; unfold started; rewrite ?Hn, ?Ha, ?Hf; try done.
  - intros c id method params subscribes H. eapply ro_sending0. by eapply lookup_weaken.
  - intros id call H. pose proof (ro_pending0 id call (lookup_weaken _ _ _ _ H Hp)) as Hc. destruct (pc_deferred call) as [response|]; [|done].
    destruct Hc as (m & s & H1 & H2 & H3). exists m, s. split_and!; [by apply Ho|done|done].
  - intros c response H. destruct (Ht c response H) as [Ht'|]; [|done]. destruct (ro_told0 c response Ht') as (m & H1 & H2). exists m.
    split; [by apply Ho|]. eapply subscribed_mono; [|done|done]. by rewrite Hf.
  - intros c H. apply Hth. by apply ro_there0.
Qed.
Lemma waits_delete a id c : waits a c -> waits (set_pending (delete id (pending a)) a) c \/ exists call, pending a !! id = Some call /\ pc_caller call = c.
Proof.
  intros (i & call & Hi & Hc). destruct (decide (i = id)) as [->|Hn]; [right; by exists call|]. left. exists i, call. split; [|done]. simpl. by rewrite lookup_delete_ne.
Qed.
Lemma told_insert c c' r a : is_Some (told a !! c) -> is_Some (<[c' := r]> (told a) !! c).
Proof. intros H. destruct (decide (c' = c)) as [->|Hn]; [rewrite lookup_insert_eq; by eexists|by rewrite lookup_insert_ne]. Qed.

Lemma routed_send n w c id method params subscribes : routed n w -> sending w !! c = Some (id, method, params, subscribes) ->
  routed (S n) (mkWorld (send_request id method params c subscribes (adapter w)) (reader w) (delete c (sending w)) (asked w) (follow w) (received w)).
Proof.
  intros H Hc. unfold send_request. pose proof (sent_quiet (OutFrame (Request (new_request (Some id) method params))) (adapter w)) as (Hp & Hn & Ht).
  destruct (send_outbound _ (adapter w)) as [a [[]|e]]; simpl in Hp, Hn, Ht.
  - destruct subscribes as [s|]; (eapply routed_quiet; [exact H|done|done|done|done|apply delete_subseteq|done|done|done]).
  - destruct (ro_sending n w H _ _ _ _ _ Hc) as [m Hm]. eapply routed_leave; simpl; rewrite ?Hp, ?Hn, ?Ht; try done.
    + apply delete_subseteq.
    + apply delete_subseteq.
    + intros c' response s E. simpl in *. destruct (ro_reader n w H _ _ _ E) as (m' & H1 & H2). by exists m'.
    + intros c' response. rewrite lookup_insert_Some. intros [[_ [=]]|[_ E]]. by left.
    + intros c' [Hw|[|Hw]]; [|by right; left|right; right; apply (told_insert c' c (Err e) (adapter w)), Hw].
      destruct (waits_delete (adapter w) id c' Hw) as [Hw'|(call & Hcall & <-)].
      * left. destruct Hw' as (i & call & Hi & Hcc). exists i, call. split; [|done]. simpl in *. exact Hi.
      * right. right. pose proof (ro_pending n w H _ _ Hcall) as Hq. destruct (pc_deferred call).
        -- destruct Hq as (m' & s & _ & _ & Hq). by rewrite (ro_apart n w H _ _ Hm) in Hq.
        -- rewrite Hm in Hq. injection Hq as -> _. rewrite lookup_insert_eq. by eexists.
Qed.
Lemma routed_response n w response : routed n w -> reader w = Idle ->
  routed (S n) (mkWorld (fst (take_response response (adapter w))) (reader_of (snd (take_response response (adapter w)))) (sending w) (asked w) (follow w)
    (received w ++ [response])).
Proof.
  intros H Hi. set (w' := mkWorld _ _ _ _ _ _).
  assert (Hv : forall r, r ∈ received w -> r ∈ received w') by (intros r Hr; apply elem_of_app; by left).
  assert (Hme : response ∈ received w') by (apply elem_of_app; right; set_solver).
  assert (Hidle : forall c, ~ at_work (reader w) c) by (intros c (r & s & E); congruence).
  assert (Hdone : forall a, pending a = pending (adapter w) -> next_id a = next_id (adapter w) -> told a = told (adapter w) ->
    adapter w' = a -> reader w' = Idle -> routed (S n) w').
  { intros a Hp Hn Ht Ea Er. eapply routed_leave; try done; rewrite ?Ea; rewrite ?Hp, ?Hn, ?Ht; try done.
    - intros c r s E. congruence.
    - by left.
    - intros c [|[Hw|]]; [left; unfold waits in *; by rewrite Hp|by apply Hidle in Hw|by right; right]. }
  destruct (rs_id response) as [[id|]|] eqn:Eid; [|apply (Hdone (adapter w)); try done; unfold w', take_response; by rewrite Eid..].
  destruct (pending (adapter w) !! id) as [call|] eqn:Ecall; [|apply (Hdone (adapter w)); try done; unfold w', take_response; by rewrite Eid, Ecall].
  assert (Et : take_response response (adapter w) =
    let a := set_pending (delete id (pending (adapter w))) (adapter w) in
    match pc_deferred call with
    | Some original => (tell (pc_caller call) (Ok original) a, Done)
    | None => match created_session (pc_method call) response with
              | Some s => (a, Follow (pc_caller call) response s) | None => (tell (pc_caller call) (Ok response) a, Done) end
    end) by (unfold take_response; by rewrite Eid, Ecall).
  pose proof (ro_pending n w H _ _ Ecall) as Hq. unfold w' in *. rewrite Et in *. clear Et Hdone. cbv zeta in *.
  assert (Hwait : forall a c, pending a = delete id (pending (adapter w)) -> waits (adapter w) c -> waits a c \/ c = pc_caller call).
  { intros a c Hp Hw. destruct (waits_delete (adapter w) id c Hw) as [(i & cl & H1 & H2)|(cl & H1 & H2)]; [left; exists i, cl; by rewrite Hp|right; congruence]. }
  destruct (pc_deferred call) as [original|]; [|destruct (created_session (pc_method call) response) as [s|] eqn:Es]; simpl in *.
  - destruct Hq as (m & s & Ho & Hs & Hf). eapply routed_leave; simpl; try done.
    + apply delete_subseteq.
    + intros c r. rewrite lookup_insert_Some. intros [[<- [= <-]]|[_ E]]; [right|by left]. exists m. split; [by eapply own_mono; [| |exact Ho]|].
      intros s' Hs'. replace s' with s by congruence. by exists id, response.
    + intros c [Hw|[Hw|Hw]]; [|by apply Hidle in Hw|right; right; by apply told_insert].
      destruct (Hwait (set_pending (delete id (pending (adapter w))) (adapter w)) c eq_refl Hw) as [Hw'| ->]; [left; exact Hw'|]. right. right. rewrite lookup_insert_eq. by eexists.
  - eapply routed_leave; simpl; try done.
    + apply delete_subseteq.
    + intros c r s' [= <- <- <-]. exists (pc_method call). split; [|done]. by exists id.
    + by left.
    + intros c [Hw|[Hw|Hw]]; [|by apply Hidle in Hw|by right; right].
      destruct (Hwait (set_pending (delete id (pending (adapter w))) (adapter w)) c eq_refl Hw) as [Hw'| ->]; [left; exact Hw'|]. right. left. by exists response, s.
  - eapply routed_leave; simpl; try done.
    + apply delete_subseteq.
    + intros c r. rewrite lookup_insert_Some. intros [[<- [= <-]]|[_ E]]; [right|by left]. exists (pc_method call). split; [by exists id|].
      intros s' Hs'. congruence.
    + intros c [Hw|[Hw|Hw]]; [|by apply Hidle in Hw|right; right; by apply told_insert].
      destruct (Hwait (set_pending (delete id (pending (adapter w))) (adapter w)) c eq_refl Hw) as [Hw'| ->]; [left; exact Hw'|]. right. right. rewrite lookup_insert_eq. by eexists.
Qed.
Lemma routed_follow n w c response s : Z.of_nat n < 2 ^ 62 -> routed n w -> reader w = Following c response s ->
  routed (S n) (mkWorld (fst (follow_insert c response (adapter w))) (FollowSending (next_id (adapter w)) s) (sending w) (asked w)
    (<[next_id (adapter w) := (c, s)]> (follow w)) (received w)).
Proof.
  intros Hn H Er. destruct H. set (id := next_id (adapter w)) in *.
  assert (Hfresh : asked w !! id = None) by (destruct (asked w !! id) eqn:E; [|done]; apply ro_asked0 in E; unfold id in E; lia).
  assert (Hff : follow w !! id = None) by (destruct (follow w !! id) eqn:E; [|done]; apply ro_follow0 in E; unfold id in E; lia).
  assert (Hsub : follow w ⊆ <[id := (c, s)]> (follow w)) by by apply insert_subseteq.
  assert (Hw : wrap_i64 (id + 1) = id + 1) by (apply wrap_i64_small; unfold id; lia).
  destruct (ro_reader0 c response s Er) as (m & Ho & Hs).
  constructor; simpl; fold id; rewrite ?Hw; try done.
  - unfold id in *. lia.
  - intros id' x E. apply ro_asked0 in E. lia.
  - intros id' x. rewrite lookup_insert_Some. intros [[<- _]|[_ E]]; [lia|]. apply ro_follow0 in E. lia.
  - intros id' x E. rewrite lookup_insert_ne by (intros <-; congruence). by eapply ro_apart0.
  - intros id' call. rewrite lookup_insert_Some. intros [[<- <-]|[Hne E]]; simpl; [exists m, s; split_and!; [done|done|apply lookup_insert_eq]|].
    pose proof (ro_pending0 _ _ E) as Hp. destruct (pc_deferred call) as [r|]; [|done].
    destruct Hp as (m' & s' & H1 & H2 & H3). exists m', s'. split_and!; [done|done|by eapply lookup_weaken].
  - intros c' r E. destruct (ro_told0 _ _ E) as (m' & H1 & H2). exists m'. split; [done|by eapply subscribed_mono].
  - intros c' Hc'. destruct (ro_there0 c' Hc') as [(i & call & Ei & Hcall)|[(r & s' & E)|]]; [| |by right; right].
    + left. exists i, call. split; [|done]. simpl. rewrite lookup_insert_ne; [done|]. intros <-.
      pose proof (ro_pending0 _ _ Ei) as Hp. destruct (pc_deferred call); [destruct Hp as (? & ? & _ & _ & Hp)|]; congruence.
    + rewrite Er in E. injection E as <- <- <-. left. exists id, (mkPending "session.subscribe" c (Some response)). split; [apply lookup_insert_eq|done].
Qed.

Definition failures (e : EngineError) (a : RemoteAdapter) : gmap nat (result EngineError JsonRpcResponse) :=
  list_to_map ((fun '(_, call) => (pc_caller call, Err e)) <$> map_to_list (pending a)).
Lemma failures_err e a c r : failures e a !! c = Some r -> r = Err e.
Proof.
  unfold failures. intros H. apply elem_of_list_to_map_2 in H. apply list_elem_of_fmap in H as ([id call] & [= _ ->] & _). done.
Qed.
Lemma failures_waits e a c : waits a c -> is_Some (failures e a !! c).
Proof.
  intros (id & call & H & <-). destruct (failures e a !! pc_caller call) eqn:E; [by eexists|]. unfold failures in E. apply not_elem_of_list_to_map in E.
  destruct E. apply list_elem_of_fmap. exists (pc_caller call, Err e). split; [done|]. apply list_elem_of_fmap. exists (id, call).
  split; [done|]. by apply elem_of_map_to_list.
Qed.
Lemma routed_drain n w e : routed n w -> routed (S n) (on_adapter (fail_all_pending e) w).
Proof.
  intros H. eapply routed_leave; simpl; try done.
  - apply map_empty_subseteq.
  - intros c r s E. destruct (ro_reader n w H _ _ _ E) as (m & H1 & H2). by exists m.
  - intros c r E. left. fold (failures e (adapter w)) in E. apply lookup_union_Some_raw in E as [E|[_ E]]; [|done]. by apply failures_err in E.
  - intros c Hc. fold (failures e (adapter w)). destruct Hc as [Hc|[|Hc]]; [|by right; left|].
    + right. right. destruct (failures_waits e (adapter w) c Hc) as [x Ex]. exists x. by apply lookup_union_Some_l.
    + right. right. apply lookup_union_is_Some. by right.
Qed.

Lemma routed_step n w w' : Z.of_nat n < 2 ^ 62 -> routed n w -> step w w' -> routed (S n) w'.
Proof.
  intros Hn H Hs. destruct Hs as [c method params subscribes w Hc|c id method params subscribes w Hc|response w Hr|c response s w Hr|id s w Hr|f w Hf Hr|
    id answer w|q out w Hq|w|w|w|w|w|w|w].
  - by apply routed_call.
  - by eapply routed_send.
  - by apply routed_response.
  - by apply routed_follow.
  - destruct (sent_quiet (OutFrame (Request (new_request (Some id) "session.subscribe" (subscribe_params s))))
      (set_subscribed ({[s]} ∪ subscribed (adapter w)) (adapter w))) as (H1 & H2 & H3).
    eapply routed_quiet; try done. intros c r s'. simpl. by rewrite Hr.
  - destruct f as [r|r|nt]; [destruct (reversed_quiet r (adapter w)) as (H1 & H2 & H3)|by destruct (Hf r)|destruct (notified_quiet nt (adapter w)) as (H1 & H2 & H3)];
      by eapply routed_quiet.
  - destruct (sent_quiet (OutFrame (Response (match answer with Ok value => response_ok id value | Err message => response_err id (new_error INTERNAL_ERROR message) end)))
      (adapter w)) as (H1 & H2 & H3). by eapply routed_quiet.
  - by eapply routed_quiet.
  - by eapply routed_quiet.
  - by apply routed_drain.
  - by eapply routed_quiet.
  - by eapply routed_quiet.
  - by eapply routed_quiet.
  - by apply routed_drain.
  - destruct (sent_quiet OutClose (adapter w)) as (H1 & H2 & H3). by eapply routed_quiet.
Qed.
Lemma routed_connected policy heartbeat_ms version : routed 0 (connected_world policy heartbeat_ms version).
Proof. constructor; simpl; try done. intros c (id & m & H). done. Qed.
Lemma routed_steps n policy heartbeat_ms version w :
  Z.of_nat n <= 2 ^ 62 -> nsteps step n (connected_world policy heartbeat_ms version) w -> routed n w.
Proof.
  intros Hn H. assert (Hg : forall k w0, routed k w0 -> nsteps step n w0 w -> Z.of_nat (k + n) <= 2 ^ 62 -> routed (k + n) w).
  { clear. induction n as [|n IH]; intros k w0 H0 H Hk; inversion H as [|? ? w1 ? H1 H2]; subst; [by rewrite Nat.add_0_r|].
    replace (k + S n)%nat with (S k + n)%nat by lia. eapply IH; [|done|lia]. eapply routed_step; [lia|done|done]. }
  by apply (Hg 0%nat _ (routed_connected policy heartbeat_ms version) H).
Qed.

(** C13. A caller is given the response to its own request, and no call is forgotten.  Let
    calls, responses in any order and to any id, notifications, requests of the server,
    the death of the connection and its disposal interleave in any way, between the
    parts of every operation.  A caller that is given a response is given one the server
    sent, that carries the id minted for the caller's one request; and if the request
    created a session, the subscription to that session was answered before.  Whoever
    has called is answered, or waits in the table, or is the one the connection task is
    subscribing for; a drain leaves nobody in the table. *)
Theorem own_response n policy heartbeat_ms version w :
  Z.of_nat n <= 2 ^ 62 -> nsteps step n (connected_world policy heartbeat_ms version) w ->
  (forall c response, told (adapter w) !! c = Some (Ok response) -> exists m id,
     rs_id response = Some (Number id) /\ response ∈ received w /\
     (forall id' m', asked w !! id' = Some (c, m') <-> id' = id /\ m' = m) /\ subscribed_first w c response m) /\
  (forall c, started w c -> waits (adapter w) c \/ at_work (reader w) c \/ is_Some (told (adapter w) !! c)) /\
  (forall e c, ~ waits (fail_all_pending e (adapter w)) c).
Proof.
  intros Hn H. apply routed_steps in H; [|done]. split_and!.
  - intros c response Ht. destruct (ro_told n w H c response Ht) as (m & (id & H1 & H2 & H3) & H4). exists m, id. split_and!; try done.
    intros id' m'. split; [|by intros [-> ->]]. intros E. assert (id' = id) as -> by by eapply ro_one. split; congruence.
  - apply (ro_there n w H).
  - intros e c (id & call & E & _). done.
Qed.

(** ** Witness, and what was found *)

Definition opened : World := connected_world SubscribePolicy.OwnSessionsOnly 15000 "1.0".
Definition hello : JsonRpcResponse := response_ok (Number 1) (JStr "hi").
Definition called : World :=
  mkWorld (fst (insert_call "greet" 7 None (adapter opened))) Idle {[ 7%nat := (1, "greet", JNull, None) ]} {[ 1 := (7%nat, "greet") ]} ∅ [].
Definition sent : World := mkWorld (send_request 1 "greet" JNull 7 None (adapter called)) Idle (delete 7%nat (sending called)) (asked called) (follow called) [].
Definition answered : World :=
  mkWorld (fst (take_response hello (adapter sent))) (reader_of (snd (take_response hello (adapter sent)))) (sending sent) (asked sent) (follow sent) ([] ++ [hello]).
Lemma answered_run : nsteps step 3 opened answered.
Proof.
  apply nsteps_l with called; [apply (step_call 7%nat "greet" JNull None opened); intros (id & m & H); done|].
  apply nsteps_l with sent; [apply (step_send 7%nat 1 "greet" JNull None called); reflexivity|].
  apply nsteps_l with answered; [apply (step_response hello sent); reflexivity|]. constructor.
Qed.
Lemma own_response_witness : told (adapter answered) !! 7%nat = Some (Ok hello) /\ exists m id, rs_id hello = Some (Number id) /\ asked answered !! id = Some (7%nat, m).
Proof.
  assert (Ht : told (adapter answered) !! 7%nat = Some (Ok hello)) by (vm_compute; reflexivity). split; [exact Ht|].
  destruct (own_response 3 SubscribePolicy.OwnSessionsOnly 15000 "1.0" answered) as (H & _ & _); [vm_compute; discriminate|exact answered_run|].
  destruct (H 7%nat hello Ht) as (m & id & H1 & _ & H3 & _). exists m, id. split; [exact H1|]. by apply H3.
Defined.

(** A call that is entered after the drain and sent before the receiver is gone waits for ever. *)
Example call_after_drain_hangs :
  let a := died_drain (died_flag (new_remote SubscribePolicy.AllSessions 15000 "1.0")) in
  let '(a, id) := insert_call "greet" 7 None a in
  let a := task_gone (died_events (send_request id "greet" JNull 7 None a)) in
  connected a = false /\ queue a = None /\ told a !! 7%nat = None /\ bool_decide (is_Some (pending a !! id)) = true.
Proof. vm_compute. done. Qed.
(** When the queue is full, the creator of a session waits although the connection lives. *)
Definition full (a : RemoteAdapter) : RemoteAdapter := set_queue (Some (replicate EVENT_CHANNEL_CAPACITY OutClose)) a.
Example full_queue_create_hangs :
  let '(a, id) := insert_call "session.create" 7 None (new_remote SubscribePolicy.AllSessions 15000 "1.0") in
  let a := handle_response (response_ok (Number id) (JObj [("id", JStr "s")])) (full (send_request id "session.create" JNull 7 None a)) in
  connected a = true /\ told a !! 7%nat = None /\ bool_decide ("s" ∈ subscribed a) = true /\
  queue a = Some (replicate EVENT_CHANNEL_CAPACITY OutClose) /\ length (map_to_list (pending a)) = 1%nat.
Proof. vm_compute. done. Qed.
(** A subscription the server refused is taken to be made: the session is not subscribed to again. *)
Example refused_subscription_kept :
  let a := new_remote SubscribePolicy.OwnSessionsOnly 15000 "1.0" in
  let params := JObj [("sessionId", JStr "s")] in
  let before := touches "message.send" params a in
  let '(a, id) := insert_call "session.subscribe" 7 None a in
  let a := handle_response (response_err (Number id) (new_error INTERNAL_ERROR "not now")) (send_request id "session.subscribe" (subscribe_params "s") 7 (Some "s") a) in
  before = Some "s" /\ touches "message.send" params a = None.
Proof. vm_compute. done. Qed.
Example method_not_found_mapped :
  call_answer "m" (Ok (response_err (Number 1) (new_error METHOD_NOT_FOUND "?"))) = Err (MethodNotFound "m") /\
  call_answer "m" (Ok (response_ok (Number 1) (JNum 2))) = Ok (JNum 2).
Proof. vm_compute. done. Qed.
Example ping_answered :
  queue (handle_inbound_frame a_ping (new_remote SubscribePolicy.AllSessions 15000 "1.0")) =
  Some [OutFrame (Notification (mkNotification "pong" (JObj [("nonce", JNum 7)])))].
Proof. vm_compute. reflexivity. Qed.
